(* ===== verification/_CoqProject ===== *)
-Q . S2P
Prelude.v
GoText.v
States.v
PolicyValues.v
ProviderTypes.v
FixedPolicy.v
Stages.v
Requirements.v
Resources.v
Scheduler.v
Ladder.v
Settings.v
Convergence.v
Admission.v
Layout.v
LayoutFacts.v
SessionEvents.v
Snapshots.v
Hub.v
HubFacts.v
HubSystem.v
HubMetrics.v
SessionClient.v
Ports.v
GoErrors.v
Retry.v
RetryFacts.v
Pricing.v
PricingFacts.v
GoPath.v
GoSearch.v
ToolPolicy.v
AgentTypes.v
AgentPlan.v
AgentLoop.v
AgentRules.v
AgentFacts.v
AgentSamples.v
AgentTheorems.v
PatchTool.v
PatchFacts.v
GoRegexp.v
Redact.v
RedactFacts.v
FileTools.v
FileFacts.v
GraphModel.v
GraphProjector.v
GraphFacts.v
GraphTheorems.v
GraphService.v
Identity.v
BudgetSchema.v
BudgetSnapshots.v
BudgetLedger.v
BudgetAccounts.v
BudgetFacts.v
BudgetInvariant.v
BudgetSteps.v
BudgetOperations.v
BudgetSamples.v
BudgetTheorems.v
ProviderMetadata.v
ProviderAttempts.v
ProviderExecution.v
BudgetedExecution.v
ProviderFacts.v
BudgetedFacts.v
BudgetedTheorems.v
ProviderSchema.v
ProviderStore.v
ProviderStoreFacts.v
ProviderPriceFacts.v
ProviderStoreInvariant.v
ProviderSummaryFacts.v
ProviderRepeat.v
ProviderStoreSteps.v
ProviderStoreTheorems.v
BilledWorld.v
BilledTheorems.v
