(* ===== verification/Prelude.v ===== *)
(** * CodeFlux: a verification library of the coordinator's core

    CodeFlux (src/) is a local coding agent written in Go. A coordinator takes
    a requirement through a fixed flow of stages, asks a model to write the
    code, runs the stages' checks, sends work back when one fails, escalates
    to a dearer model when a run stops converging, and keeps tasks, runs,
    approvals and budgets in explicit state machines. Around that core are
    provider adapters, storage, transport and a browser client.

    This library models the parts whose decisions are pure or small state
    machines, and proves what makes them correct. One file per part:

    - Prelude.v: fallible code, machine integers, sequences of steps, sorting,
      the tactics and hints the other files share.
    - Ports.v: programs that call interfaces, with the logic of what a program
      asks and in which circumstances.
    - GoText.v, GoSearch.v, GoPath.v, GoRegexp.v, GoErrors.v: what the code uses
      of the packages strings, strconv, fmt, unicode/utf8, path/filepath,
      regexp and errors, with their laws. GoErrors.v also holds the failures of
      src/internal/providers/errors.go.
    - States.v: src/internal/domain/states.go. The eight lifecycle machines
      (task, run, command, approval, checkpoint, validation, graph revision,
      change acceptance): tables, predicates, transition checks.
    - PolicyValues.v: src/internal/domain/policy.go. Money, token usage,
      budgets, forecasts and the closed string types.
    - ProviderTypes.v: the identity records of src/internal/providers/types.go.
    - FixedPolicy.v: src/internal/policy/fixed.go and budget.go. Selection and
      validation of the fixed policy, budget adjustment before approval.
    - Stages.v, Requirements.v, Resources.v: src/internal/pipeline/stages.go,
      phases.go, requirements.go, resource_classes.go. The flow, its phases,
      the dependency table with its validators, the resource classes.
    - Scheduler.v: src/internal/pipeline/scheduler.go. Running a table of
      stages in waves of goroutines.
    - Ladder.v, Settings.v: src/internal/pipeline/ladder.go, escalation.go,
      settings.go. Rungs and their order, every setting and its validation.
    - Convergence.v: src/internal/coordinator/agent_convergence.go. The tracker
      that grants attempts, escalates, decomposes and steps down.
    - Admission.v: src/internal/providers/admission.go. The gate that bounds
      the requests in flight.
    - Retry.v, RetryFacts.v: src/internal/providers/retry.go. The attempt loop
      of a provider call: identities, decisions, backoff, recording.
    - Pricing.v, PricingFacts.v: src/internal/providers/pricing.go and
      accounting.go. Exact cost, reconciliation and totals of usage.
    - ToolPolicy.v: src/internal/executor/protocol.go and policy.go. Tool
      requests, the authority they need and how it is decided; where a path of
      a request points.
    - PatchTool.v, PatchFacts.v: src/internal/executor/patch_tool.go. The patch
      format and its application.
    - Redact.v, RedactFacts.v: src/internal/redact/redact.go. The redaction
      pipeline with its patterns, streams and structured fields.
    - FileTools.v, FileFacts.v: src/internal/executor/file_tools.go. Reading,
      listing, writing and patching files of a worktree.
    - AgentTypes.v, AgentPlan.v, AgentLoop.v: src/internal/agent/loop.go,
      loop_types.go, limits.go, tool_schema.go. The plan and its rules, and the
      loop that asks the model and carries out its tool calls. AgentRules.v and
      AgentFacts.v hold the lemmas, AgentSamples.v concrete runs,
      AgentTheorems.v the theorems.
    - Layout.v, LayoutFacts.v: src/internal/graphlayout. Strongly connected
      components, ranking, placement and reuse of an earlier layout.
    - GraphModel.v, GraphProjector.v, GraphFacts.v, GraphTheorems.v:
      src/internal/graph/model.go and projector.go. The nodes, edges and
      revisions of the task graph, the projection of task facts into it, the
      patch between two revisions and the display modes.
    - GraphService.v: src/internal/coordinator/graph_projection.go. Projecting
      a committed event, storing the revision and publishing its patch.
    - Identity.v: src/internal/domain/identity.go. The identities of all
      records: making one from time and entropy, parsing, SQL and JSON forms.
    - BudgetSchema.v: src/migrations. The tables of the budget ledger with
      their checks, keys and triggers.
    - BudgetSnapshots.v, BudgetLedger.v, BudgetAccounts.v:
      src/internal/storage/budget_repository.go, authority_repository.go,
      preapproval_budget_repository.go, task_budget_adjustment_repository.go.
      What a budget has reserved, used and left, and the transactions that
      reserve, settle, release, reconcile, raise, approve and adjust.
      BudgetFacts.v, BudgetInvariant.v, BudgetSteps.v, BudgetOperations.v hold
      the lemmas, BudgetSamples.v a ledger at work, BudgetTheorems.v the
      theorems.
    - ProviderMetadata.v: src/internal/providers/metadata.go and stream.go. The
      events of a stream, and what of a provider's metadata may be kept.
    - ProviderAttempts.v, ProviderExecution.v:
      src/internal/coordinator/provider_attempt_recorder.go and
      provider_execution.go. Recording an attempt, receiving its stream, and
      carrying a logical request to its terminal state. ProviderFacts.v holds
      the lemmas.
    - BudgetedExecution.v: src/internal/coordinator/provider_budget_execution.go
      and provider_budget_math.go. Reserving the cost of a request before the
      provider is asked and settling it afterwards. BudgetedFacts.v holds the
      lemmas, BudgetedTheorems.v the theorems.
    - ProviderSchema.v: src/migrations/000009_provider_accounting.sql. The
      tables of provider requests: configurations, prices, logical requests,
      attempts, their accounting and evidence.
    - ProviderStore.v: src/internal/storage/provider_accounting_repository.go.
      The transactions on those tables and the sum over a request.
      ProviderStoreFacts.v, ProviderPriceFacts.v, ProviderStoreInvariant.v,
      ProviderSummaryFacts.v, ProviderRepeat.v and ProviderStoreSteps.v hold the
      lemmas (writes, prices, the invariant of the tables, sums, repeated
      operations, the operations as steps), ProviderStoreTheorems.v the theorems
      and tables at work.
    - BilledWorld.v, BilledTheorems.v: the composition of the three. A budgeted
      request whose calls to the store and to the ledger are answered by
      ProviderStore.v and BudgetLedger.v on their tables, while other requests
      use the same tables: the lemmas, then the theorem and one such run.
    - SessionEvents.v, Snapshots.v: src/internal/events/session.go and
      snapshot.go. The session facts with their validation, and the reducer
      that advances a reconnect snapshot over them.
    - Hub.v, HubFacts.v, HubSystem.v, HubMetrics.v: src/internal/events/hub.go.
      The event hub; the laws of the journal it reads and the invariant of one
      subscription; the hub with publishers and clients as a step relation;
      its counters.
    - SessionClient.v: [SubscribeSession] of
      src/internal/transport/session_service.go and
      src/web/frontend/sessionclient/client.go. The stream to a browser client
      and the client's loop of receiving, retrying and repairing.

    How the parts meet: the scheduler runs the tables of Requirements.v under
    the classes of Resources.v; Settings.v validates the ladder of Ladder.v,
    and Convergence.v climbs it; the policy of FixedPolicy.v is made of the
    values of PolicyValues.v and checks the task state of States.v. Session
    events carry the states of States.v and the values of PolicyValues.v; the
    hub reads them from a journal and queues them for subscribers, the server
    sends what a subscriber takes, and the client applies it. The agent loop
    decodes a model's calls into the requests of ToolPolicy.v, has their
    authority decided, and hands them to a tool executor; for the file tools
    that is FileTools.v, which checks the decision again, resolves the path
    with ToolPolicy.v, applies patches with PatchTool.v and returns what
    Redact.v leaves. The loop counts usage and cost as Pricing.v does, and the
    retry loop takes a slot of the gate of Admission.v for every attempt.
    Every request to a provider goes through BudgetedExecution.v: it reserves
    the price of all attempts with the ledger of BudgetLedger.v, has
    ProviderExecution.v run the retry loop of Retry.v with the recorder and the
    streams of ProviderAttempts.v, and settles what Pricing.v says they cost.
    The recorder writes attempts, accounting and evidence with the operations of
    ProviderStore.v, which also computes the sum that is settled.
    What happens to a task is projected into the graph of GraphProjector.v by
    GraphService.v, and it is such a graph that Layout.v places.

    Two interfaces are classes: [Climbable] (Settings.v) is what the
    convergence tracker needs of the settings and validation provides;
    [Journal] with [JournalLaws] (Hub.v, HubFacts.v) is what the hub needs of
    the committed history, with an instance in memory in HubSystem.v.

    ** How the code is modelled

    A struct is a record, a pure function a Rocq function, a method that
    changes its receiver returns the new record. A Go string type with
    constants stays a string, so that a value outside the constants exists and
    is refused as in the code. Errors are values: [option] for a function that
    returns only an error, [result] otherwise; error texts are kept where the
    code builds them. [int64] and [uint64] arithmetic wraps around where it
    can leave the range. A Go map is a [gmap]; where the code ranges over a
    map and the order can matter, the order is an argument. Goroutines are
    step relations: [wave_step] for a wave of the scheduler, [gate_step] for
    the admission gate, [run_step] for what a run does to its tracker,
    [hub_step] for the hub with its publishers and clients. Where the code is
    driven by what its surroundings return, as the session client is, that is
    a list the theorems quantify over. Code that is driven by interfaces (the
    agent loop, the retry executor, provider execution, the file tools) is a
    program whose every
    call to an interface or to the operating system is a node (Ports.v): the
    theorems hold for whatever the ports answer, and concrete ports run it.

    ** What is shown

    - State machines: the shared check accepts exactly the declared edges;
      terminal states absorb; a task completes only after validation and review;
      a command that waits for authority starts only with a grant; a task can
      always still reach a terminal state.
    - Values: checked addition and token totals are exact or refused; budget and
      forecast validation accept exactly the ordered ones.
    - Policy: selection and validation agree; a budget adjustment passes exactly
      before approval.
    - Tables: cycle search and reachability are right on every table, the
      validator accepts exactly the well-formed ones, the shipped tables are.
    - Scheduler: every interleaving of a wave gives the same results within the
      worker bound; a run always ends in the least set of decisions closed under
      the pipeline's rule, whatever the classes; restricting the shipped table
      leaves nothing undecided; waves respect dependencies and exclusivity; a
      blocked stage has a failed cause.
    - Settings and ladder: validation accepts exactly the valid settings;
      parsing and printing rungs are inverse; climbing visits every rung once,
      dearer each time; a pin never lowers a rung.
    - Convergence: attempts are bounded; the rung is always where the record of
      escalations says; a run that never repeats itself stays on its first rung;
      no allowance is cut by the ceiling; where the two budget questions agree,
      and a run in which they do not.
    - Admission: tokens are conserved, the bound holds, releases never block.
    - Retry: an attempt is made only after every earlier one was recorded
      without an error and ended in a failure that may pass with no effect seen;
      the attempts are bounded by the policy and waited for without holding a
      slot of the gate; the backoff doubles up to its bound.
    - Pricing: the cost is the exact rational sum of each count at the price of
      its own kind, or unknown in the cases listed, never a sum over two
      currencies; totals are exact over all attempts.
    - Tool policy: a request is executable exactly when nothing denies it and
      its authority, an approved command or an unused grant covers it.
    - Patches: a patch applies exactly when each hunk has a place, the one
      occurrence where it is looked for, and then replaces the texts there; a
      patch in the order of the file applies and can be taken back; what is
      written out as a patch is read back.
    - Redaction: no loaded credential that the markers cannot complete comes
      out, the output is bounded, a stream gives what the whole input gives (but
      for an empty write to a full buffer, which counts as a cut), structured
      fields are redacted to their leaves; and where a part of a secret is kept.
    - File tools: every call is for an authorized request, inside the worktree,
      with at most one file written and its content checked; what succeeds is
      returned redacted.
    - Agent loop: a tool runs only with authority and within the plan; plan
      states are those of the transitions persisted; every effect is recorded
      with what the tool reported; a run ends within its rounds, and is complete
      only with its steps done; tokens and cost are exact; with the cases in
      which the plan is left.
    - Layout: fresh layouts never overlap and are reproduced from themselves;
      the row search is right on a grid and wrong off it.
    - Identities: what is made is canonical and read back from every form.
    - Budget ledger: in every reachable state the exposure of a budget is within
      its hard caps as long as no settlement exceeded its reservation; snapshots
      hold the exact sums over the tables; limits rise only with an approval for
      that raise, and without one only before the plan is approved; postings,
      limits and events are never lost; a settlement can be repeated; and a
      release that blocks a budget.
    - Provider execution: the provider is reached only with the price of all
      attempts reserved and the attempt stored; attempts are recorded and
      accounted in order; what was used is settled or recorded for
      reconciliation; and a failure that drops it.
    - Storage of provider requests: in every reachable state a stored cost is
      exactly the cost of the usage at the price of the request, and the summary
      of a request is exactly the sum over its attempts; records only advance
      along the allowed transitions; every operation can be sent again as the
      next one, one that appends at any later time; and a price that cannot.
    - The composition: what a request did at the provider is what it is billed.
      The sum that is settled is the exact sum over the attempts that reached
      the provider, and the posting holds it at the end of the run.
    - Task graph: an accepted fact is committed as a valid revision with a
      bounded patch; the graph only grows and nodes and edges keep what they
      mean; applying the patches rebuilds every revision, and they list nothing
      that did not change; the payload that is stored tells exactly that; the
      evidence mode shows exactly what evidence connects to an obligation or a
      result; only a stored revision is published; a node reported 64 times is
      refused.
    - Snapshots: an accepted stream is gapless and runs the task machine;
      replaying in parts is replaying at once; what the reducer returns is valid
      but in one case, which is shown.
    - Hub: a subscriber's stream is ascending and drawn from its history
      whatever the publishers do; with publication in order no material event is
      lost, also across a reconnect; waiting clients are woken; the active
      counters are exact; publication out of order loses an event.
    - Client: over any connections it applies exactly the history, once and in
      order, and a repair moves it only to a snapshot it was offered; reconnects
      are bounded, repairs are not; the marker that ends a replay can be lost.

    ** Fuel

    The attempts of a retry are a loop of as many turns as the policy allows,
    the rounds of the agent loop one of as many as its limits allow; both return
    an answer of the code when they are used up, as the code does. So is the
    release of a reservation, with eight turns. A stream is the finite list of
    its events and the error that ends it. The loop that finds a greatest common
    divisor gets 128 turns, which 64-bit arguments cannot use up. Six searches
    take fuel and return [None] when it runs out: the cycle search, the
    scheduler's rounds, the component search, the ranking, the evidence search
    of the graph and the hub's replay loop. The first five are given one more
    than the number of stages, nodes or components, the last the length of the
    range it replays, and each is proved to return with that: every turn marks,
    decides, removes or replays one. The reachability search, trimming,
    searching, decoding and replacing text are bounded by the size of what they
    consume.

    ** What is not modelled

    Contexts, but for the points where cancellation is observed, wall-clock
    time (a parameter or a port), floating point (a parameter), JSON codecs and
    digests (parameters), Go's parser (a parameter), the regular expressions
    that fingerprint a failure (a parameter about which nothing is assumed),
    symbolic links (paths are resolved as text, as the code does), and
    everything whose work is I/O: provider adapters, git, sandboxed
    commands, transport, the command line and the rendering of the browser
    client. Of storage, the tables other than those of
    the ledger and of provider requests, and faults of the disk. Of the parts
    that decide something, the client's session projection, memory records,
    forecasts, the coordinator's repair of a rejected completion and the
    remaining tables of the pipeline are left for another time. *)

From stdpp Require Export base tactics option list gmap sets strings sorting pretty.
From Stdlib Require Export ZArith Lia.

#[global] Open Scope Z_scope.

(** ** Fallible code

    A Go function [func f(...) (A, error)] is a [result E A]; a function that
    returns only [error] is an [option E], where [None] is [nil]. *)

Inductive result (E A : Type) : Type :=
| Err (e : E)
| Ok (a : A).
Arguments Err {E A} e.
Arguments Ok {E A} a.

#[export] Instance result_ret {E} : MRet (result E) := fun A a => Ok a.
#[export] Instance result_bind {E} : MBind (result E) :=
  fun A B k m => match m with Err e => Err e | Ok a => k a end.

Declare Scope go_scope.
Delimit Scope go_scope with go.

(** [if err := c; err != nil { return err }; k] in a function returning only
    an error. *)
Definition err_seq {E} (c k : option E) : option E :=
  match c with Some e => Some e | None => k end.
Notation "c ;? k" := (err_seq c k) (at level 60, right associativity) : go_scope.

(** [if err := c; err != nil { return zero, err }; k] in a function returning
    a value and an error. *)
Definition err_guard {E A} (c : option E) (k : result E A) : result E A :=
  match c with Some e => Err e | None => k end.
Notation "c ;! k" := (err_guard c k) (at level 60, right associativity) : go_scope.

Definition is_ok {E A} (r : result E A) : bool :=
  match r with Ok _ => true | Err _ => false end.

Definition is_nil {E} (o : option E) : bool :=
  match o with None => true | Some _ => false end.

Open Scope go_scope.

Lemma err_seq_None {E} (c k : option E) :
  (c ;? k) = None <-> c = None /\ k = None.
Proof. destruct c, k; simpl; split; (intros [? ?] || intros ?); done. Qed.

Lemma err_guard_Ok {E A} (c : option E) (k : result E A) a :
  (c ;! k) = Ok a <-> c = None /\ k = Ok a.
Proof. destruct c; simpl; split; (intros [? ?] || intros ?); done. Qed.

Lemma bind_Ok {E A B} (m : result E A) (k : A -> result E B) b :
  mbind k m = Ok b <-> exists a, m = Ok a /\ k a = Ok b.
Proof.
  unfold mbind, result_bind. destruct m; split.
  - discriminate.
  - intros (? & [=] & _).
  - eauto.
  - by intros (? & [= <-] & ?).
Qed.

(** ** Machine integers

    Go's [int64] and [int] (64-bit targets) are integers in
    [[-2^63, 2^63)], [uint64] in [[0, 2^64)], [uint32] in [[0, 2^32)]; their
    arithmetic wraps around. *)

Definition min_int64 : Z := - 2 ^ 63.
Definition max_int64 : Z := 2 ^ 63 - 1.
Definition max_uint64 : Z := 2 ^ 64 - 1.
Definition max_uint32 : Z := 2 ^ 32 - 1.

Definition wrap_int64 (z : Z) : Z := (z + 2 ^ 63) mod 2 ^ 64 - 2 ^ 63.
Definition wrap_uint64 (z : Z) : Z := z mod 2 ^ 64.
Definition wrap_uint32 (z : Z) : Z := z mod 2 ^ 32.

Definition int64_range (z : Z) : Prop := min_int64 <= z <= max_int64.
Definition uint64_range (z : Z) : Prop := 0 <= z <= max_uint64.
Definition uint32_range (z : Z) : Prop := 0 <= z <= max_uint32.

#[export] Instance int64_range_dec z : Decision (int64_range z).
Proof. unfold int64_range. apply _. Defined.
#[export] Instance uint64_range_dec z : Decision (uint64_range z).
Proof. unfold uint64_range. apply _. Defined.
#[export] Instance uint32_range_dec z : Decision (uint32_range z).
Proof. unfold uint32_range. apply _. Defined.

Ltac unfold_ranges :=
  unfold int64_range, uint64_range, uint32_range, min_int64, max_int64,
    max_uint64, max_uint32 in *.

Lemma wrap_int64_id z : int64_range z -> wrap_int64 z = z.
Proof. unfold_ranges. unfold wrap_int64. intros. rewrite Z.mod_small; lia. Qed.

Lemma wrap_int64_range z : int64_range (wrap_int64 z).
Proof.
  unfold_ranges. unfold wrap_int64.
  pose proof (Z.mod_pos_bound (z + 2 ^ 63) (2 ^ 64)). lia.
Qed.

Lemma wrap_uint64_id z : uint64_range z -> wrap_uint64 z = z.
Proof. unfold_ranges. unfold wrap_uint64. intros. apply Z.mod_small. lia. Qed.

Lemma wrap_uint64_range z : uint64_range (wrap_uint64 z).
Proof.
  unfold_ranges. unfold wrap_uint64.
  pose proof (Z.mod_pos_bound z (2 ^ 64)). lia.
Qed.

(** [int64] arithmetic as Go evaluates it. *)
Definition add64 (a b : Z) : Z := wrap_int64 (a + b).
Definition sub64 (a b : Z) : Z := wrap_int64 (a - b).
Definition mul64 (a b : Z) : Z := wrap_int64 (a * b).

(** The wrapped sum of two [int64]s is off by exactly one period when the
    true sum leaves the range. *)
Lemma wrap_int64_add_cases a b :
  int64_range a -> int64_range b ->
  wrap_int64 (a + b) =
    if decide (a + b < min_int64) then a + b + 2 ^ 64
    else if decide (max_int64 < a + b) then a + b - 2 ^ 64
    else a + b.
Proof.
  unfold_ranges. unfold wrap_int64. intros Ha Hb.
  repeat case_decide.
  - rewrite <- (Z.mod_add _ 1) by lia. rewrite Z.mod_small; lia.
  - rewrite <- (Z.mod_add _ (-1)) by lia. rewrite Z.mod_small; lia.
  - rewrite Z.mod_small; lia.
Qed.

Lemma wrap_uint64_add_cases a b :
  uint64_range a -> uint64_range b ->
  wrap_uint64 (a + b) =
    if decide (max_uint64 < a + b) then a + b - 2 ^ 64 else a + b.
Proof.
  unfold_ranges. unfold wrap_uint64. intros Ha Hb.
  case_decide.
  - rewrite <- (Z.mod_add _ (-1)) by lia. rewrite Z.mod_small; lia.
  - rewrite Z.mod_small; lia.
Qed.

(** ** Booleans of the source's conditions as propositions *)

Lemma decide_bool (P : Prop) `{Decision P} : bool_decide P = true <-> P.
Proof. apply bool_decide_eq_true. Qed.

Ltac to_prop :=
  repeat match goal with
  | H : context [Z.eqb _ _ = true] |- _ => rewrite Z.eqb_eq in H
  | H : context [Z.eqb _ _ = false] |- _ => rewrite Z.eqb_neq in H
  | H : context [Z.ltb _ _ = true] |- _ => rewrite Z.ltb_lt in H
  | H : context [Z.ltb _ _ = false] |- _ => rewrite Z.ltb_ge in H
  | H : context [Z.leb _ _ = true] |- _ => rewrite Z.leb_le in H
  | H : context [Z.leb _ _ = false] |- _ => rewrite Z.leb_gt in H
  | H : context [andb _ _ = true] |- _ => rewrite andb_true_iff in H
  | H : context [andb _ _ = false] |- _ => rewrite andb_false_iff in H
  | H : context [orb _ _ = true] |- _ => rewrite orb_true_iff in H
  | H : context [orb _ _ = false] |- _ => rewrite orb_false_iff in H
  | H : context [negb _ = true] |- _ => rewrite negb_true_iff in H
  | H : context [negb _ = false] |- _ => rewrite negb_false_iff in H
  | H : context [bool_decide _ = true] |- _ => rewrite bool_decide_eq_true in H
  | H : context [bool_decide _ = false] |- _ => rewrite bool_decide_eq_false in H
  | H : context [String.eqb _ _ = true] |- _ => rewrite String.eqb_eq in H
  | H : context [String.eqb _ _ = false] |- _ => rewrite String.eqb_neq in H
  | |- context [Z.eqb _ _ = true] => rewrite Z.eqb_eq
  | |- context [Z.ltb _ _ = true] => rewrite Z.ltb_lt
  | |- context [Z.leb _ _ = true] => rewrite Z.leb_le
  | |- context [Z.eqb _ _ = false] => rewrite Z.eqb_neq
  | |- context [Z.ltb _ _ = false] => rewrite Z.ltb_ge
  | |- context [Z.leb _ _ = false] => rewrite Z.leb_gt
  | |- context [andb _ _ = true] => rewrite andb_true_iff
  | |- context [andb _ _ = false] => rewrite andb_false_iff
  | |- context [orb _ _ = true] => rewrite orb_true_iff
  | |- context [orb _ _ = false] => rewrite orb_false_iff
  | |- context [negb _ = true] => rewrite negb_true_iff
  | |- context [negb _ = false] => rewrite negb_false_iff
  | |- context [bool_decide _ = true] => rewrite bool_decide_eq_true
  | |- context [bool_decide _ = false] => rewrite bool_decide_eq_false
  | |- context [String.eqb _ _ = true] => rewrite String.eqb_eq
  | |- context [String.eqb _ _ = false] => rewrite String.eqb_neq
  end.

(** Case analysis on the conditions of a cascade of [if]s in a hypothesis. *)
Ltac if_cases H :=
  repeat match type of H with
  | context [if ?b then _ else _] =>
      match type of b with
      | bool => let E := fresh "Hif" in destruct b eqn:E; try discriminate H
      end
  end.

(** A decidable statement over a concrete finite structure, by evaluation. *)
Ltac by_computation := apply (bool_decide_unpack _); vm_compute; exact I.

(** ** Sequences of steps *)

Section Sequences.
Context {A : Type} (R : A -> A -> Prop).

(** An invariant of the step relation is an invariant of reachability. *)
Lemma rtc_invariant (P : A -> Prop) x y :
  (forall a b, P a -> R a b -> P b) -> rtc R x y -> P x -> P y.
Proof. intros HP Hxy. induction Hxy; eauto. Qed.

(** Every path of a relation whose steps decrease a measure is finite, and
    ends in a state with no step, when having a step is decidable. *)
Lemma measure_normalizes (m : A -> nat) x :
  (forall a b, R a b -> (m b < m a)%nat) ->
  (forall a, (exists b, R a b) \/ (forall b, ~ R a b)) ->
  exists y, rtc R x y /\ forall z, ~ R y z.
Proof.
  intros Hm Hdec. remember (m x) as n eqn:Hn. revert x Hn.
  induction n as [n IH] using lt_wf_ind. intros x ->.
  destruct (Hdec x) as [[b Hb]|Hstop].
  - destruct (IH (m b) (Hm _ _ Hb) b eq_refl) as (y & Hy & Hst).
    exists y. split; [by eapply rtc_l|done].
  - by exists x; split; [apply rtc_refl|].
Qed.
End Sequences.

(** ** Sorting

    Go's [sort.Strings], and [sort.Slice] with a strict comparison on a total
    order, put a slice in the unique ascending order of its elements when no
    two elements share a key. *)

Definition sort_ints (l : list Z) : list Z := merge_sort (≤) l.
Definition sort_strings (l : list string) : list string := merge_sort String.le l.

Lemma sort_ints_perm l : sort_ints l ≡ₚ l.
Proof. apply merge_sort_Permutation. Qed.

Lemma sort_strings_perm l : sort_strings l ≡ₚ l.
Proof. apply merge_sort_Permutation. Qed.

Lemma elem_of_sort_ints x l : x ∈ sort_ints l <-> x ∈ l.
Proof. by rewrite sort_ints_perm. Qed.

(** Sorting forgets the order of its input: this is why iterating over a Go
    map in its unspecified order and then sorting is deterministic. *)
Lemma sort_ints_unique l1 l2 : l1 ≡ₚ l2 -> sort_ints l1 = sort_ints l2.
Proof.
  intros Hp. apply (StronglySorted_unique (≤)).
  - apply (StronglySorted_merge_sort (≤)).
  - apply (StronglySorted_merge_sort (≤)).
  - by rewrite !sort_ints_perm.
Qed.

Lemma sort_strings_unique l1 l2 : l1 ≡ₚ l2 -> sort_strings l1 = sort_strings l2.
Proof.
  intros Hp. apply (StronglySorted_unique String.le).
  - apply (StronglySorted_merge_sort String.le).
  - apply (StronglySorted_merge_sort String.le).
  - by rewrite !sort_strings_perm.
Qed.

(** ** Lists *)

Definition is_empty_list {A} (l : list A) : bool := match l with [] => true | _ => false end.

Lemma Permutation_fold_left {A B} (f : B -> A -> B) l1 l2 b :
  (forall b x y, f (f b x) y = f (f b y) x) ->
  l1 ≡ₚ l2 -> fold_left f l1 b = fold_left f l2 b.
Proof.
  intros Hc Hp. revert b.
  induction Hp; intros b; simpl; auto; [by rewrite Hc|by rewrite IHHp1].
Qed.

Lemma exists_last_or_nil {A} (l : list A) : l = [] \/ exists l' x, l = l' ++ [x].
Proof. destruct l using rev_ind; [by left|right; eauto]. Qed.

Create HintDb codeflux.
#[export] Hint Resolve wrap_int64_range wrap_uint64_range : codeflux.
Create Rewrite HintDb codeflux.
#[export] Hint Rewrite @err_seq_None @err_guard_Ok @bind_Ok : codeflux.
