(* ===== verification/GoText.v ===== *)
(** * Go strings

    A Go string is a sequence of bytes; the model is [String.string], whose
    [length] is Go's [len] and whose [String.ltb] is Go's [<]. This file holds
    the functions of package [strings] the modelled code calls. *)

From Stdlib Require Import Ascii.
From S2P Require Import Prelude.
Open Scope string_scope.
Open Scope list_scope.

Definition bytes (l : list N) : string :=
  fold_right (fun n s => String (ascii_of_N n) s) EmptyString l.

(** The UTF-8 encodings of the runes [unicode.IsSpace] accepts: the six ASCII
    spaces, U+0085, U+00A0, U+1680, U+2000 to U+200A, U+2028, U+2029, U+202F,
    U+205F and U+3000. *)
Definition space_encodings : list string :=
  map bytes
    ([ [9]; [10]; [11]; [12]; [13]; [32];
       [194; 133]; [194; 160]; [225; 154; 128];
       [226; 128; 168]; [226; 128; 169]; [226; 128; 175];
       [226; 129; 159]; [227; 128; 128] ]%N
     ++ map (fun n => [226; 128; 128 + n]%N) [0; 1; 2; 3; 4; 5; 6; 7; 8; 9; 10]%N).

(** [strings.CutPrefix] for one prefix. *)
Fixpoint strip_prefix (p s : string) : option string :=
  match p, s with
  | EmptyString, _ => Some s
  | String a p', String b s' => if Ascii.eqb a b then strip_prefix p' s' else None
  | String _ _, EmptyString => None
  end.

Definition HasPrefix (s p : string) : bool :=
  match strip_prefix p s with Some _ => true | None => false end.

Fixpoint strip_any (ps : list string) (s : string) : option string :=
  match ps with
  | [] => None
  | p :: rest => match strip_prefix p s with Some s' => Some s' | None => strip_any rest s end
  end.

Fixpoint trim_left_with (ps : list string) (fuel : nat) (s : string) : string :=
  match fuel with
  | O => s
  | S fuel => match strip_any ps s with Some s' => trim_left_with ps fuel s' | None => s end
  end.

Definition rev_string (s : string) : string := String.rev s.

(** [strings.TrimSpace]: remove leading, then trailing, white-space runes. A
    rune is removed at an end exactly when its encoding is a prefix, or a
    suffix, of what is left, so the scan works on encodings; every removal
    shortens the string, so its length is enough fuel. *)
Definition TrimSpace (s : string) : string :=
  let left := trim_left_with space_encodings (String.length s) s in
  rev_string (trim_left_with (map rev_string space_encodings)
    (String.length left) (rev_string left)).

(** The test the source spells
    [strings.TrimSpace(v) != v || v == "" || len(v) > limit], negated. *)
Definition trimmed_bounded (limit : Z) (v : string) : bool :=
  negb (negb (TrimSpace v =? v) || (v =? "") || (limit <? Z.of_nat (String.length v))%Z).

Definition longer_than (limit : Z) (s : string) : bool :=
  (limit <? Z.of_nat (String.length s))%Z.

Definition blank (s : string) : bool := TrimSpace s =? "".

(** [strings.Cut] at a one-byte separator. *)
Fixpoint Cut (s : string) (sep : ascii) : string * string * bool :=
  match s with
  | EmptyString => (EmptyString, EmptyString, false)
  | String c rest =>
      if Ascii.eqb c sep then (EmptyString, rest, true)
      else let '(before, after, found) := Cut rest sep in
           if found then (String c before, after, true) else (s, EmptyString, false)
  end.

(** [strings.Cut] at a separator of any length: the text around its first
    occurrence. *)
Fixpoint CutString (s sep : string) : string * string * bool :=
  match strip_prefix sep s with
  | Some after => (EmptyString, after, true)
  | None =>
      match s with
      | EmptyString => (EmptyString, EmptyString, false)
      | String c rest =>
          let '(before, after, found) := CutString rest sep in
          if found then (String c before, after, true) else (s, EmptyString, false)
      end
  end.

(** [strings.Join]. *)
Fixpoint Join (parts : list string) (sep : string) : string :=
  match parts with
  | [] => ""
  | [p] => p
  | p :: rest => p +:+ sep +:+ Join rest sep
  end.

(** [fmt]'s [%d] and [%v] of integers and integer slices. *)
Definition fmt_d (z : Z) : string := pretty z.
Definition fmt_ints (l : list Z) : string := "[" +:+ Join (map fmt_d l) " " +:+ "]".

(** [fmt]'s [%v] of a string slice. *)
Definition fmt_strings (l : list string) : string := "[" +:+ Join l " " +:+ "]".

(** [strconv.Quote], the [%q] verb, on text whose runes beyond ASCII are
    printable: those are copied, the others are escaped. *)
Definition dquote : ascii := "034".

Definition hex_digit (n : N) : ascii :=
  if (n <? 10)%N then ascii_of_N (48 + n) else ascii_of_N (87 + n).

Definition quote_byte (c : ascii) : string :=
  let n := N_of_ascii c in
  if Ascii.eqb c dquote || Ascii.eqb c "\" then String "\" (String c "")
  else if (32 <=? n)%N && negb (n =? 127)%N then String c ""
  else match n with
       | 7%N => "\a" | 8%N => "\b" | 9%N => "\t" | 10%N => "\n"
       | 11%N => "\v" | 12%N => "\f" | 13%N => "\r"
       | _ => "\x" +:+ String (hex_digit (n / 16)%N) (String (hex_digit (n mod 16)%N) "")
       end.

Fixpoint quote_bytes (s : string) : string :=
  match s with
  | EmptyString => ""
  | String c rest => quote_byte c +:+ quote_bytes rest
  end.

Definition Quote (s : string) : string :=
  String dquote (quote_bytes s) +:+ String dquote "".

Example quote_escapes :
  Quote (bytes [97; 34; 92; 10; 1]%N) = bytes [34; 97; 92; 34; 92; 92; 92; 110; 92; 120; 48; 49; 34]%N.
Proof. reflexivity. Qed.

Example trim_ascii : TrimSpace (String "009" "  a b ") = "a b".
Proof. reflexivity. Qed.
Example trim_unicode : TrimSpace (bytes [194; 160; 97; 226; 128; 130]%N) = "a".
Proof. reflexivity. Qed.
Example trim_inner : TrimSpace (bytes [97; 194; 160; 98]%N) = bytes [97; 194; 160; 98]%N.
Proof. reflexivity. Qed.

Lemma trimmed_bounded_spec limit v :
  trimmed_bounded limit v = true <->
  TrimSpace v = v /\ v <> "" /\ (Z.of_nat (String.length v) <= limit)%Z.
Proof. unfold trimmed_bounded. to_prop. tauto. Qed.

Lemma Cut_found s sep a b :
  Cut s sep = (a, b, true) -> s = a +:+ String sep b.
Proof.
  revert a b. induction s as [|c rest IH]; intros a b; simpl; [discriminate|].
  destruct (Ascii.eqb_spec c sep) as [->|]; [by intros [= <- <-]|].
  destruct (Cut rest sep) as [[p q] f] eqn:Hc. destruct f; [|discriminate].
  intros [= <- <-]. simpl. by rewrite (IH p q eq_refl).
Qed.
