(* ===== verification/States.v ===== *)
(** * The lifecycle state machines (src/internal/domain/states.go)

    Every state type of the source is a Go string type, so a value outside the
    declared constants is representable and is refused with [ErrUnknownState];
    the model keeps the strings. [transitions] builds the nested map of a
    machine from its declared pairs and [validateTransition] is the one check
    all eight machines share. *)

From S2P Require Import Prelude GoText.
Open Scope string_scope.
Open Scope list_scope.

Inductive TransitionCause :=
| ErrUnknownState
| ErrInvalidTransition
| ErrApprovalRequired.

Record TransitionError := {
  Machine : string;
  From : string;
  To : string;
  Cause : TransitionCause;
}.

Definition Unwrap (e : TransitionError) : TransitionCause := Cause e.

Definition TransitionError_Error (e : TransitionError) : string :=
  Machine e +:+ " state transition " +:+ Quote (From e) +:+ " -> " +:+ Quote (To e) +:+
  match Cause e with
  | ErrUnknownState => " contains an unknown state"
  | ErrApprovalRequired => " requires a granted approval"
  | ErrInvalidTransition => " is not permitted"
  end.

Abbreviation transitionTable := (gmap string (gset string)).

Definition transitions (pairs : list (string * string)) : transitionTable :=
  fold_left (fun (table : transitionTable) pair =>
      let table := match table !! pair.1 with
                   | None => <[pair.1 := ∅]> table
                   | Some _ => table
                   end in
      <[pair.1 := {[pair.2]} ∪ default ∅ (table !! pair.1)]> table)
    pairs ∅.

Fixpoint containsState (states : list string) (target : string) : bool :=
  match states with
  | [] => false
  | state :: rest => if state =? target then true else containsState rest target
  end.

Definition validateTransition (machine : string) (from to : string)
    (valid : string -> bool) (table : transitionTable) : option TransitionError :=
  if negb (valid from) || negb (valid to) then
    Some {| Machine := machine; From := from; To := to; Cause := ErrUnknownState |}
  else if negb (bool_decide (to ∈ default ∅ (table !! from))) then
    Some {| Machine := machine; From := from; To := to; Cause := ErrInvalidTransition |}
  else None.

(** ** The durable lifecycle of a user task *)

Abbreviation TaskState := string.

Definition TaskStateDraft : TaskState := "draft".
Definition TaskStateForecasting : TaskState := "forecasting".
Definition TaskStateAwaitingPlanApproval : TaskState := "awaiting-plan-approval".
Definition TaskStateReady : TaskState := "ready".
Definition TaskStateRunning : TaskState := "running".
Definition TaskStatePaused : TaskState := "paused".
Definition TaskStateAwaitingAuthority : TaskState := "awaiting-authority".
Definition TaskStateValidating : TaskState := "validating".
Definition TaskStateAwaitingReview : TaskState := "awaiting-review".
Definition TaskStateCompleted : TaskState := "completed".
Definition TaskStateFailed : TaskState := "failed".
Definition TaskStateCancelled : TaskState := "cancelled".
Definition TaskStateRolledBack : TaskState := "rolled-back".
Definition TaskStateRecoveryRequired : TaskState := "recovery-required".

Definition taskStates : list TaskState :=
  [ TaskStateDraft;
    TaskStateForecasting;
    TaskStateAwaitingPlanApproval;
    TaskStateReady;
    TaskStateRunning;
    TaskStatePaused;
    TaskStateAwaitingAuthority;
    TaskStateValidating;
    TaskStateAwaitingReview;
    TaskStateCompleted;
    TaskStateFailed;
    TaskStateCancelled;
    TaskStateRolledBack;
    TaskStateRecoveryRequired ].

Definition taskTransitions : transitionTable := transitions
  [ (TaskStateDraft, TaskStateForecasting);
    (TaskStateDraft, TaskStateCancelled);
    (TaskStateForecasting, TaskStateAwaitingPlanApproval);
    (TaskStateForecasting, TaskStatePaused);
    (TaskStateForecasting, TaskStateFailed);
    (TaskStateForecasting, TaskStateCancelled);
    (TaskStateAwaitingPlanApproval, TaskStateForecasting);
    (TaskStateAwaitingPlanApproval, TaskStateReady);
    (TaskStateAwaitingPlanApproval, TaskStateCancelled);
    (TaskStateReady, TaskStateRunning);
    (TaskStateReady, TaskStatePaused);
    (TaskStateReady, TaskStateCancelled);
    (TaskStateReady, TaskStateRecoveryRequired);
    (TaskStateRunning, TaskStatePaused);
    (TaskStateRunning, TaskStateAwaitingAuthority);
    (TaskStateRunning, TaskStateValidating);
    (TaskStateRunning, TaskStateFailed);
    (TaskStateRunning, TaskStateCancelled);
    (TaskStateRunning, TaskStateRecoveryRequired);
    (TaskStatePaused, TaskStateForecasting);
    (TaskStatePaused, TaskStateReady);
    (TaskStatePaused, TaskStateRunning);
    (TaskStatePaused, TaskStateCancelled);
    (TaskStatePaused, TaskStateRecoveryRequired);
    (TaskStateAwaitingAuthority, TaskStateRunning);
    (TaskStateAwaitingAuthority, TaskStatePaused);
    (TaskStateAwaitingAuthority, TaskStateCancelled);
    (TaskStateAwaitingAuthority, TaskStateRecoveryRequired);
    (TaskStateValidating, TaskStateRunning);
    (TaskStateValidating, TaskStateAwaitingReview);
    (TaskStateValidating, TaskStateFailed);
    (TaskStateValidating, TaskStateCancelled);
    (TaskStateValidating, TaskStateRecoveryRequired);
    (TaskStateAwaitingReview, TaskStateRunning);
    (TaskStateAwaitingReview, TaskStateCompleted);
    (TaskStateAwaitingReview, TaskStateCancelled);
    (TaskStateAwaitingReview, TaskStateRolledBack);
    (TaskStateCompleted, TaskStateRolledBack);
    (TaskStateFailed, TaskStateReady);
    (TaskStateFailed, TaskStateCancelled);
    (TaskStateFailed, TaskStateRecoveryRequired);
    (TaskStateRecoveryRequired, TaskStatePaused);
    (TaskStateRecoveryRequired, TaskStateReady);
    (TaskStateRecoveryRequired, TaskStateFailed);
    (TaskStateRecoveryRequired, TaskStateCancelled);
    (TaskStateRecoveryRequired, TaskStateRolledBack) ].

Definition AllTaskStates : list TaskState := taskStates.

Definition TaskState_IsValid (state : TaskState) : bool := containsState taskStates state.

Definition TaskState_IsTerminal (state : TaskState) : bool :=
  (state =? TaskStateCompleted) || (state =? TaskStateCancelled) ||
  (state =? TaskStateRolledBack).

Definition TaskState_IsRecoverable (state : TaskState) : bool :=
  (state =? TaskStatePaused) || (state =? TaskStateAwaitingAuthority) ||
  (state =? TaskStateFailed) || (state =? TaskStateRecoveryRequired).

(** ** One execution attempt of a task *)

Abbreviation RunState := string.

Definition RunStatePending : RunState := "pending".
Definition RunStateStarting : RunState := "starting".
Definition RunStateRunning : RunState := "running".
Definition RunStatePausing : RunState := "pausing".
Definition RunStatePaused : RunState := "paused".
Definition RunStateValidating : RunState := "validating".
Definition RunStateCompleted : RunState := "completed".
Definition RunStateFailed : RunState := "failed".
Definition RunStateCancelled : RunState := "cancelled".
Definition RunStateRecoveryRequired : RunState := "recovery-required".

Definition runStates : list RunState :=
  [ RunStatePending;
    RunStateStarting;
    RunStateRunning;
    RunStatePausing;
    RunStatePaused;
    RunStateValidating;
    RunStateCompleted;
    RunStateFailed;
    RunStateCancelled;
    RunStateRecoveryRequired ].

Definition runTransitions : transitionTable := transitions
  [ (RunStatePending, RunStateStarting);
    (RunStatePending, RunStateCancelled);
    (RunStateStarting, RunStateRunning);
    (RunStateStarting, RunStateFailed);
    (RunStateStarting, RunStateCancelled);
    (RunStateStarting, RunStateRecoveryRequired);
    (RunStateRunning, RunStatePausing);
    (RunStateRunning, RunStateValidating);
    (RunStateRunning, RunStateCompleted);
    (RunStateRunning, RunStateFailed);
    (RunStateRunning, RunStateCancelled);
    (RunStateRunning, RunStateRecoveryRequired);
    (RunStatePausing, RunStatePaused);
    (RunStatePausing, RunStateFailed);
    (RunStatePausing, RunStateRecoveryRequired);
    (RunStatePaused, RunStateStarting);
    (RunStatePaused, RunStateCancelled);
    (RunStatePaused, RunStateRecoveryRequired);
    (RunStateValidating, RunStateRunning);
    (RunStateValidating, RunStateCompleted);
    (RunStateValidating, RunStateFailed);
    (RunStateValidating, RunStateCancelled);
    (RunStateValidating, RunStateRecoveryRequired);
    (RunStateRecoveryRequired, RunStatePaused);
    (RunStateRecoveryRequired, RunStateFailed);
    (RunStateRecoveryRequired, RunStateCancelled) ].

Definition AllRunStates : list RunState := runStates.

Definition RunState_IsValid (state : RunState) : bool := containsState runStates state.

Definition RunState_IsTerminal (state : RunState) : bool :=
  (state =? RunStateCompleted) || (state =? RunStateFailed) ||
  (state =? RunStateCancelled).

Definition RunState_IsRecoverable (state : RunState) : bool :=
  (state =? RunStatePaused) || (state =? RunStateRecoveryRequired).

Definition ValidateRunTransition (from to : RunState) : option TransitionError :=
  validateTransition "run" from to RunState_IsValid runTransitions.

(** ** One mediated tool action *)

Abbreviation CommandExecutionState := string.

Definition CommandExecutionStatePending : CommandExecutionState := "pending".
Definition CommandExecutionStateAwaitingAuthority : CommandExecutionState := "awaiting-authority".
Definition CommandExecutionStateAuthorized : CommandExecutionState := "authorized".
Definition CommandExecutionStateRunning : CommandExecutionState := "running".
Definition CommandExecutionStateSucceeded : CommandExecutionState := "succeeded".
Definition CommandExecutionStateFailed : CommandExecutionState := "failed".
Definition CommandExecutionStateCancelled : CommandExecutionState := "cancelled".
Definition CommandExecutionStateOutcomeUnknown : CommandExecutionState := "outcome-unknown".

Definition commandExecutionStates : list CommandExecutionState :=
  [ CommandExecutionStatePending;
    CommandExecutionStateAwaitingAuthority;
    CommandExecutionStateAuthorized;
    CommandExecutionStateRunning;
    CommandExecutionStateSucceeded;
    CommandExecutionStateFailed;
    CommandExecutionStateCancelled;
    CommandExecutionStateOutcomeUnknown ].

Definition commandExecutionTransitions : transitionTable := transitions
  [ (CommandExecutionStatePending, CommandExecutionStateAwaitingAuthority);
    (CommandExecutionStatePending, CommandExecutionStateAuthorized);
    (CommandExecutionStatePending, CommandExecutionStateCancelled);
    (CommandExecutionStateAwaitingAuthority, CommandExecutionStateAuthorized);
    (CommandExecutionStateAwaitingAuthority, CommandExecutionStateCancelled);
    (CommandExecutionStateAuthorized, CommandExecutionStateRunning);
    (CommandExecutionStateAuthorized, CommandExecutionStateCancelled);
    (CommandExecutionStateRunning, CommandExecutionStateSucceeded);
    (CommandExecutionStateRunning, CommandExecutionStateFailed);
    (CommandExecutionStateRunning, CommandExecutionStateCancelled);
    (CommandExecutionStateRunning, CommandExecutionStateOutcomeUnknown);
    (CommandExecutionStateOutcomeUnknown, CommandExecutionStateSucceeded);
    (CommandExecutionStateOutcomeUnknown, CommandExecutionStateFailed);
    (CommandExecutionStateOutcomeUnknown, CommandExecutionStateCancelled) ].

Definition AllCommandExecutionStates : list CommandExecutionState :=
  commandExecutionStates.

Definition CommandExecutionState_IsValid (state : CommandExecutionState) : bool :=
  containsState commandExecutionStates state.

Definition CommandExecutionState_IsTerminal (state : CommandExecutionState) : bool :=
  (state =? CommandExecutionStateSucceeded) || (state =? CommandExecutionStateFailed) ||
  (state =? CommandExecutionStateCancelled).

Definition CommandExecutionState_IsRecoverable (state : CommandExecutionState) : bool :=
  state =? CommandExecutionStateOutcomeUnknown.

(** ** One user authority request *)

Abbreviation ApprovalRequestState := string.

Definition ApprovalRequestStatePending : ApprovalRequestState := "pending".
Definition ApprovalRequestStateGranted : ApprovalRequestState := "granted".
Definition ApprovalRequestStateDenied : ApprovalRequestState := "denied".
Definition ApprovalRequestStateExpired : ApprovalRequestState := "expired".
Definition ApprovalRequestStateCancelled : ApprovalRequestState := "cancelled".

Definition approvalRequestStates : list ApprovalRequestState :=
  [ ApprovalRequestStatePending;
    ApprovalRequestStateGranted;
    ApprovalRequestStateDenied;
    ApprovalRequestStateExpired;
    ApprovalRequestStateCancelled ].

Definition approvalRequestTransitions : transitionTable := transitions
  [ (ApprovalRequestStatePending, ApprovalRequestStateGranted);
    (ApprovalRequestStatePending, ApprovalRequestStateDenied);
    (ApprovalRequestStatePending, ApprovalRequestStateExpired);
    (ApprovalRequestStatePending, ApprovalRequestStateCancelled) ].

Definition ApprovalRequestState_IsValid (state : ApprovalRequestState) : bool :=
  containsState approvalRequestStates state.

Definition ApprovalRequestState_IsTerminal (state : ApprovalRequestState) : bool :=
  ApprovalRequestState_IsValid state && negb (state =? ApprovalRequestStatePending).

Definition ValidateApprovalRequestTransition (from to : ApprovalRequestState)
    : option TransitionError :=
  validateTransition "approval request" from to ApprovalRequestState_IsValid
    approvalRequestTransitions.

(** The task and command transitions carry the state of an approval request
    as evidence. *)

Record TaskTransition := {
  TaskTransition_From : TaskState;
  TaskTransition_To : TaskState;
  TaskTransition_Approval : ApprovalRequestState;
}.

Definition ValidateTaskTransition (change : TaskTransition) : option TransitionError :=
  validateTransition "task" (TaskTransition_From change) (TaskTransition_To change)
    TaskState_IsValid taskTransitions ;?
  if (TaskTransition_From change =? TaskStateAwaitingAuthority) &&
     (TaskTransition_To change =? TaskStateRunning) &&
     negb (TaskTransition_Approval change =? ApprovalRequestStateGranted)
  then Some {| Machine := "task"; From := TaskTransition_From change;
               To := TaskTransition_To change; Cause := ErrApprovalRequired |}
  else None.

Record CommandExecutionTransition := {
  CommandExecutionTransition_From : CommandExecutionState;
  CommandExecutionTransition_To : CommandExecutionState;
  CommandExecutionTransition_Approval : ApprovalRequestState;
}.

Definition ValidateCommandExecutionTransition (change : CommandExecutionTransition)
    : option TransitionError :=
  validateTransition "command execution" (CommandExecutionTransition_From change)
    (CommandExecutionTransition_To change) CommandExecutionState_IsValid
    commandExecutionTransitions ;?
  if (CommandExecutionTransition_From change =? CommandExecutionStateAwaitingAuthority) &&
     (CommandExecutionTransition_To change =? CommandExecutionStateAuthorized) &&
     negb (CommandExecutionTransition_Approval change =? ApprovalRequestStateGranted)
  then Some {| Machine := "command execution"; From := CommandExecutionTransition_From change;
               To := CommandExecutionTransition_To change; Cause := ErrApprovalRequired |}
  else None.

(** ** A recovery checkpoint *)

Abbreviation CheckpointState := string.

Definition CheckpointStateCreating : CheckpointState := "creating".
Definition CheckpointStateReady : CheckpointState := "ready".
Definition CheckpointStateFailed : CheckpointState := "failed".
Definition CheckpointStateInvalidated : CheckpointState := "invalidated".

Definition checkpointStates : list CheckpointState :=
  [ CheckpointStateCreating;
    CheckpointStateReady;
    CheckpointStateFailed;
    CheckpointStateInvalidated ].

Definition checkpointTransitions : transitionTable := transitions
  [ (CheckpointStateCreating, CheckpointStateReady);
    (CheckpointStateCreating, CheckpointStateFailed);
    (CheckpointStateReady, CheckpointStateInvalidated) ].

Definition CheckpointState_IsValid (state : CheckpointState) : bool :=
  containsState checkpointStates state.

Definition CheckpointState_IsTerminal (state : CheckpointState) : bool :=
  (state =? CheckpointStateFailed) || (state =? CheckpointStateInvalidated).

Definition ValidateCheckpointTransition (from to : CheckpointState) : option TransitionError :=
  validateTransition "checkpoint" from to CheckpointState_IsValid checkpointTransitions.

(** ** A required or advisory validation *)

Abbreviation ValidationState := string.

Definition ValidationStatePending : ValidationState := "pending".
Definition ValidationStateRunning : ValidationState := "running".
Definition ValidationStatePassed : ValidationState := "passed".
Definition ValidationStateFailed : ValidationState := "failed".
Definition ValidationStateWaived : ValidationState := "waived".
Definition ValidationStateSkipped : ValidationState := "skipped".
Definition ValidationStateCancelled : ValidationState := "cancelled".
Definition ValidationStateInvalidated : ValidationState := "invalidated".

Definition validationStates : list ValidationState :=
  [ ValidationStatePending;
    ValidationStateRunning;
    ValidationStatePassed;
    ValidationStateFailed;
    ValidationStateWaived;
    ValidationStateSkipped;
    ValidationStateCancelled;
    ValidationStateInvalidated ].

Definition validationTransitions : transitionTable := transitions
  [ (ValidationStatePending, ValidationStateRunning);
    (ValidationStatePending, ValidationStateWaived);
    (ValidationStatePending, ValidationStateSkipped);
    (ValidationStatePending, ValidationStateCancelled);
    (ValidationStateRunning, ValidationStatePassed);
    (ValidationStateRunning, ValidationStateFailed);
    (ValidationStateRunning, ValidationStateCancelled);
    (ValidationStatePassed, ValidationStateInvalidated);
    (ValidationStateFailed, ValidationStateInvalidated);
    (ValidationStateWaived, ValidationStateInvalidated);
    (ValidationStateSkipped, ValidationStateInvalidated) ].

Definition ValidationState_IsValid (state : ValidationState) : bool :=
  containsState validationStates state.

Definition ValidationState_IsTerminal (state : ValidationState) : bool :=
  (state =? ValidationStatePassed) || (state =? ValidationStateFailed) ||
  (state =? ValidationStateWaived) || (state =? ValidationStateSkipped) ||
  (state =? ValidationStateCancelled) || (state =? ValidationStateInvalidated).

Definition ValidateValidationTransition (from to : ValidationState) : option TransitionError :=
  validateTransition "validation" from to ValidationState_IsValid validationTransitions.

(** ** An immutable graph revision *)

Abbreviation GraphRevisionState := string.

Definition GraphRevisionStateDraft : GraphRevisionState := "draft".
Definition GraphRevisionStateValidating : GraphRevisionState := "validating".
Definition GraphRevisionStateCommitted : GraphRevisionState := "committed".
Definition GraphRevisionStateRejected : GraphRevisionState := "rejected".
Definition GraphRevisionStateSuperseded : GraphRevisionState := "superseded".
Definition GraphRevisionStateInvalidated : GraphRevisionState := "invalidated".

Definition graphRevisionStates : list GraphRevisionState :=
  [ GraphRevisionStateDraft;
    GraphRevisionStateValidating;
    GraphRevisionStateCommitted;
    GraphRevisionStateRejected;
    GraphRevisionStateSuperseded;
    GraphRevisionStateInvalidated ].

Definition graphRevisionTransitions : transitionTable := transitions
  [ (GraphRevisionStateDraft, GraphRevisionStateValidating);
    (GraphRevisionStateDraft, GraphRevisionStateRejected);
    (GraphRevisionStateValidating, GraphRevisionStateCommitted);
    (GraphRevisionStateValidating, GraphRevisionStateRejected);
    (GraphRevisionStateCommitted, GraphRevisionStateSuperseded);
    (GraphRevisionStateCommitted, GraphRevisionStateInvalidated) ].

Definition GraphRevisionState_IsValid (state : GraphRevisionState) : bool :=
  containsState graphRevisionStates state.

Definition GraphRevisionState_IsTerminal (state : GraphRevisionState) : bool :=
  (state =? GraphRevisionStateRejected) || (state =? GraphRevisionStateSuperseded) ||
  (state =? GraphRevisionStateInvalidated).

Definition ValidateGraphRevisionTransition (from to : GraphRevisionState)
    : option TransitionError :=
  validateTransition "graph revision" from to GraphRevisionState_IsValid
    graphRevisionTransitions.

(** ** The user's decision about a reviewed change *)

Abbreviation ChangeAcceptanceState := string.

Definition ChangeAcceptanceStatePending : ChangeAcceptanceState := "pending".
Definition ChangeAcceptanceStateAccepted : ChangeAcceptanceState := "accepted".
Definition ChangeAcceptanceStateRepairRequested : ChangeAcceptanceState := "repair-requested".
Definition ChangeAcceptanceStateRejected : ChangeAcceptanceState := "rejected".
Definition ChangeAcceptanceStateRolledBack : ChangeAcceptanceState := "rolled-back".

Definition changeAcceptanceStates : list ChangeAcceptanceState :=
  [ ChangeAcceptanceStatePending;
    ChangeAcceptanceStateAccepted;
    ChangeAcceptanceStateRepairRequested;
    ChangeAcceptanceStateRejected;
    ChangeAcceptanceStateRolledBack ].

Definition changeAcceptanceTransitions : transitionTable := transitions
  [ (ChangeAcceptanceStatePending, ChangeAcceptanceStateAccepted);
    (ChangeAcceptanceStatePending, ChangeAcceptanceStateRepairRequested);
    (ChangeAcceptanceStatePending, ChangeAcceptanceStateRejected);
    (ChangeAcceptanceStateRepairRequested, ChangeAcceptanceStatePending);
    (ChangeAcceptanceStateAccepted, ChangeAcceptanceStateRolledBack) ].

Definition ChangeAcceptanceState_IsValid (state : ChangeAcceptanceState) : bool :=
  containsState changeAcceptanceStates state.

Definition ChangeAcceptanceState_IsTerminal (state : ChangeAcceptanceState) : bool :=
  (state =? ChangeAcceptanceStateRejected) || (state =? ChangeAcceptanceStateRolledBack).

Definition ValidateChangeAcceptanceTransition (from to : ChangeAcceptanceState)
    : option TransitionError :=
  validateTransition "change acceptance" from to ChangeAcceptanceState_IsValid
    changeAcceptanceTransitions.

(** ** The shared check *)

Section Check.
Context (states : list string) (pairs : list (string * string)).

Lemma containsState_spec target : containsState states target = true <-> target ∈ states.
Proof.
  induction states as [|s rest IH]; simpl; [set_solver|].
  destruct (String.eqb_spec s target) as [->|Hne]; [set_solver|].
  rewrite IH. set_solver.
Qed.

Lemma transitions_fold (t : transitionTable) a b :
  b ∈ default ∅ (fold_left (fun (table : transitionTable) pair =>
    let table := match table !! pair.1 with
                 | None => <[pair.1 := ∅]> table
                 | Some _ => table
                 end in
    <[pair.1 := {[pair.2]} ∪ default ∅ (table !! pair.1)]> table) pairs t !! a)
  <-> (a, b) ∈ pairs \/ b ∈ default ∅ (t !! a).
Proof.
  revert t. induction pairs as [|[x y] rest IH]; intros t; simpl; [set_solver|].
  rewrite IH, elem_of_cons. destruct (decide (a = x)) as [->|Hne].
  - rewrite lookup_insert_eq. destruct (t !! x) as [s|] eqn:Hx; simpl.
    + rewrite Hx. simpl. set_solver.
    + rewrite lookup_insert_eq. simpl. set_solver.
  - rewrite lookup_insert_ne by done.
    destruct (t !! x) eqn:Hx; rewrite ?lookup_insert_ne by done; naive_solver.
Qed.

(** The nested map holds exactly the declared pairs. *)
Lemma transitions_spec a b :
  b ∈ default ∅ (transitions pairs !! a) <-> (a, b) ∈ pairs.
Proof. unfold transitions. rewrite transitions_fold, lookup_empty. set_solver. Qed.

(** The pairs a machine accepts, as data. *)
Definition machine_edges (table : transitionTable) : list (string * string) :=
  filter (fun p : string * string => p.2 ∈ default ∅ (table !! p.1)) (list_prod states states).

Lemma validateTransition_nil m table a b :
  validateTransition m a b (containsState states) table = None <->
  a ∈ states /\ b ∈ states /\ b ∈ default ∅ (table !! a).
Proof.
  unfold validateTransition. rewrite <- !containsState_spec.
  destruct (containsState states a), (containsState states b); simpl;
    try (split; [discriminate|naive_solver]).
  case_bool_decide; simpl; naive_solver.
Qed.

Lemma validateTransition_edge m table a b :
  validateTransition m a b (containsState states) table = None <->
  (a, b) ∈ machine_edges table.
Proof.
  rewrite validateTransition_nil. unfold machine_edges.
  rewrite list_elem_of_filter. simpl.
  rewrite (list_elem_of_In (list_prod _ _)), in_prod_iff, <- !list_elem_of_In. tauto.
Qed.

(** Checking a property of every accepted pair is a computation. *)
Lemma edges_forall m table (P : string -> string -> bool) a b :
  forallb (fun p => P p.1 p.2) (machine_edges table) = true ->
  validateTransition m a b (containsState states) table = None ->
  P a b = true.
Proof.
  rewrite validateTransition_edge, forallb_forall, list_elem_of_In.
  intros Hall Hin. apply (Hall (a, b) Hin).
Qed.
End Check.

(** Instantiate [edges_forall] at the machine of [H] and simplify. *)
Ltac by_edges H P :=
  match type of H with
  | validateTransition ?m ?a ?b ?v ?t = None =>
      let st := eval unfold TaskState_IsValid, RunState_IsValid,
        CommandExecutionState_IsValid, ApprovalRequestState_IsValid,
        CheckpointState_IsValid, ValidationState_IsValid, GraphRevisionState_IsValid,
        ChangeAcceptanceState_IsValid in (fun x => v x) in
      match st with
      | fun x => containsState ?l x =>
          apply (edges_forall l m t P a b) in H; [|vm_compute; reflexivity]
      end
  | ?f _ _ = None => unfold f in H; by_edges H P
  end;
  cbv beta in H;
  repeat match goal with Ht : _ = true |- _ =>
    match type of H with context [implb ?c _] =>
      match type of Ht with c = true => rewrite Ht in H; cbn [implb] in H end end end;
  to_prop; auto.

(** The check every lifecycle machine shares is complete: for a machine
    given by its declared states and transition pairs, a change is accepted
    exactly when both states are declared and the pair is one of the declared
    ones; otherwise the typed error carries the machine and both states, and
    its cause tells an undeclared state from a forbidden change. *)
Theorem validateTransition_complete (machine : string) (states : list string)
    (pairs : list (string * string)) (from to : string) :
  let verdict := validateTransition machine from to (containsState states) (transitions pairs) in
  (verdict = None <-> from ∈ states /\ to ∈ states /\ (from, to) ∈ pairs) /\
  (forall e, verdict = Some e ->
     Machine e = machine /\ From e = from /\ To e = to /\
     ((Unwrap e = ErrUnknownState /\ ~ (from ∈ states /\ to ∈ states)) \/
      (Unwrap e = ErrInvalidTransition /\ from ∈ states /\ to ∈ states /\ (from, to) ∉ pairs))).
Proof.
  intros verdict. split.
  - unfold verdict. rewrite validateTransition_nil, transitions_spec. tauto.
  - unfold verdict, validateTransition. intros e.
    rewrite <- !containsState_spec, <- transitions_spec.
    destruct (containsState states from), (containsState states to); simpl;
      try (intros [= <-]; simpl; split_and!; naive_solver).
    case_bool_decide; simpl; [discriminate|]. intros [= <-]. simpl. naive_solver.
Qed.

(** ** Terminal states *)

(** Terminal states are absorbing. No declared change leaves a terminal
    run, command, approval, checkpoint, graph-revision or change-acceptance
    state; a terminal task or validation can only move to another terminal
    state (a completed task to rolled back, a finished validation to
    invalidated). *)
Theorem terminal_states_absorbing (from to : string) :
  (ValidateRunTransition from to = None -> RunState_IsTerminal from = false) /\
  (validateTransition "command execution" from to CommandExecutionState_IsValid
     commandExecutionTransitions = None -> CommandExecutionState_IsTerminal from = false) /\
  (ValidateApprovalRequestTransition from to = None ->
     ApprovalRequestState_IsTerminal from = false) /\
  (ValidateCheckpointTransition from to = None -> CheckpointState_IsTerminal from = false) /\
  (ValidateGraphRevisionTransition from to = None ->
     GraphRevisionState_IsTerminal from = false) /\
  (ValidateChangeAcceptanceTransition from to = None ->
     ChangeAcceptanceState_IsTerminal from = false) /\
  (ValidateValidationTransition from to = None -> ValidationState_IsTerminal from = true ->
     to = ValidationStateInvalidated) /\
  (validateTransition "task" from to TaskState_IsValid taskTransitions = None ->
     TaskState_IsTerminal from = true ->
     from = TaskStateCompleted /\ to = TaskStateRolledBack).
Proof.
  split_and!; intros H; try intros Ht.
  - by_edges H (fun a (_ : string) => negb (RunState_IsTerminal a)).
  - by_edges H (fun a (_ : string) => negb (CommandExecutionState_IsTerminal a)).
  - by_edges H (fun a (_ : string) => negb (ApprovalRequestState_IsTerminal a)).
  - by_edges H (fun a (_ : string) => negb (CheckpointState_IsTerminal a)).
  - by_edges H (fun a (_ : string) => negb (GraphRevisionState_IsTerminal a)).
  - by_edges H (fun a (_ : string) => negb (ChangeAcceptanceState_IsTerminal a)).
  - by_edges H (fun a b => implb (ValidationState_IsTerminal a) (b =? ValidationStateInvalidated)).
  - by_edges H (fun a b => implb (TaskState_IsTerminal a)
      ((a =? TaskStateCompleted) && (b =? TaskStateRolledBack))).
Qed.

Lemma terminal_states_absorbing_witness :
  ValidateValidationTransition ValidationStatePassed ValidationStateInvalidated = None /\
  ValidationState_IsTerminal ValidationStatePassed = true /\
  ValidationStateInvalidated = ValidationStateInvalidated.
Proof.
  split; [vm_compute; reflexivity|]. split; [reflexivity|].
  exact (proj1 (proj2 (proj2 (proj2 (proj2 (proj2 (proj2
    (terminal_states_absorbing ValidationStatePassed ValidationStateInvalidated)))))))
    eq_refl eq_refl).
Defined.

(** ** Histories of a task *)

(** A history is a chain of accepted changes. *)
Inductive task_history : TaskState -> list TaskTransition -> TaskState -> Prop :=
| task_history_nil s : task_history s [] s
| task_history_snoc s cs c :
    task_history s cs (TaskTransition_From c) ->
    ValidateTaskTransition c = None ->
    task_history s (cs ++ [c]) (TaskTransition_To c).

Lemma ValidateTaskTransition_edge c :
  ValidateTaskTransition c = None ->
  validateTransition "task" (TaskTransition_From c) (TaskTransition_To c)
    TaskState_IsValid taskTransitions = None.
Proof. unfold ValidateTaskTransition. by intros [? _]%err_seq_None. Qed.

(** The only declared predecessor of a state, when it has one. *)
Definition sole_predecessor (target pred : TaskState) : Prop :=
  forall c, ValidateTaskTransition c = None -> TaskTransition_To c = target ->
  TaskTransition_From c = pred.

Lemma sole_predecessor_check target pred :
  forallb (fun p => implb (p.2 =? target) (p.1 =? pred))
    (machine_edges taskStates taskTransitions) = true ->
  sole_predecessor target pred.
Proof.
  intros Hc c H%ValidateTaskTransition_edge Ht.
  apply (edges_forall taskStates "task" taskTransitions
    (fun a b => implb (b =? target) (a =? pred)) _ _ Hc) in H.
  cbv beta in H. rewrite Ht, String.eqb_refl in H. by apply String.eqb_eq in H.
Qed.

Lemma history_last s cs t pred :
  sole_predecessor t pred -> task_history s cs t -> s <> t ->
  exists cs' c, cs = cs' ++ [c] /\ TaskTransition_From c = pred /\ TaskTransition_To c = t /\
    task_history s cs' pred.
Proof.
  intros Hp Hh Hne. destruct Hh as [|s cs c Hh Hc]; [done|].
  pose proof (Hp c Hc eq_refl) as Hf. exists cs, c. split_and!; auto. by rewrite <- Hf.
Qed.

(** [C30] No task completes without its work having been validated and
    reviewed: every history of accepted changes from draft to completed ends
    with the three changes running to validating, validating to
    awaiting-review, and awaiting-review to completed, in that order and with
    nothing in between. *)
Theorem completion_is_reviewed (cs : list TaskTransition) :
  task_history TaskStateDraft cs TaskStateCompleted ->
  exists before validate submit accept,
    cs = before ++ [validate; submit; accept] /\
    task_history TaskStateDraft before TaskStateRunning /\
    TaskTransition_From validate = TaskStateRunning /\
    TaskTransition_To validate = TaskStateValidating /\
    TaskTransition_From submit = TaskStateValidating /\
    TaskTransition_To submit = TaskStateAwaitingReview /\
    TaskTransition_From accept = TaskStateAwaitingReview /\
    TaskTransition_To accept = TaskStateCompleted.
Proof.
  intros H.
  apply (history_last _ _ _ TaskStateAwaitingReview) in H as (cs1 & accept & -> & ? & ? & H);
    [|apply sole_predecessor_check; vm_compute; reflexivity|done].
  apply (history_last _ _ _ TaskStateValidating) in H as (cs2 & submit & -> & ? & ? & H);
    [|apply sole_predecessor_check; vm_compute; reflexivity|done].
  apply (history_last _ _ _ TaskStateRunning) in H as (cs3 & validate & -> & ? & ? & H);
    [|apply sole_predecessor_check; vm_compute; reflexivity|done].
  exists cs3, validate, submit, accept. rewrite <- !app_assoc. by split_and!.
Qed.

(** A history from its list of changes, checked by evaluation. *)
Fixpoint history_ok (s : TaskState) (cs : list TaskTransition) : option TaskState :=
  match cs with
  | [] => Some s
  | c :: rest =>
      if (TaskTransition_From c =? s) && is_nil (ValidateTaskTransition c)
      then history_ok (TaskTransition_To c) rest else None
  end.

Lemma history_ok_sound s0 pre s cs t :
  task_history s0 pre s -> history_ok s cs = Some t -> task_history s0 (pre ++ cs) t.
Proof.
  revert pre s. induction cs as [|c rest IH]; intros pre s Hpre; simpl.
  { intros [= <-]. by rewrite app_nil_r. }
  destruct (String.eqb_spec (TaskTransition_From c) s) as [<-|]; simpl; [|discriminate].
  destruct (ValidateTaskTransition c) eqn:Hc; simpl; [discriminate|].
  intros Ht. rewrite cons_middle, app_assoc. eapply IH; [|done]. by constructor.
Qed.

Definition change (a b : TaskState) : TaskTransition :=
  {| TaskTransition_From := a; TaskTransition_To := b;
     TaskTransition_Approval := ApprovalRequestStatePending |}.

Definition happy_path : list TaskTransition :=
  [ change TaskStateDraft TaskStateForecasting;
    change TaskStateForecasting TaskStateAwaitingPlanApproval;
    change TaskStateAwaitingPlanApproval TaskStateReady;
    change TaskStateReady TaskStateRunning;
    change TaskStateRunning TaskStateValidating;
    change TaskStateValidating TaskStateAwaitingReview;
    change TaskStateAwaitingReview TaskStateCompleted ].

Lemma completion_is_reviewed_witness :
  exists before validate submit accept,
    happy_path = before ++ [validate; submit; accept] /\
    task_history TaskStateDraft before TaskStateRunning /\
    TaskTransition_From validate = TaskStateRunning /\
    TaskTransition_To validate = TaskStateValidating /\
    TaskTransition_From submit = TaskStateValidating /\
    TaskTransition_To submit = TaskStateAwaitingReview /\
    TaskTransition_From accept = TaskStateAwaitingReview /\
    TaskTransition_To accept = TaskStateCompleted.
Proof.
  apply (completion_is_reviewed happy_path).
  apply (history_ok_sound _ [] TaskStateDraft); [constructor|]. vm_compute. reflexivity.
Defined.

(** ** Authority *)

(** A chain of accepted command changes. *)
Inductive command_history :
    CommandExecutionState -> list CommandExecutionTransition -> CommandExecutionState -> Prop :=
| command_history_nil s : command_history s [] s
| command_history_cons c cs t :
    ValidateCommandExecutionTransition c = None ->
    command_history (CommandExecutionTransition_To c) cs t ->
    command_history (CommandExecutionTransition_From c) (c :: cs) t.

Lemma command_from_awaiting c :
  ValidateCommandExecutionTransition c = None ->
  CommandExecutionTransition_From c = CommandExecutionStateAwaitingAuthority ->
  CommandExecutionTransition_To c = CommandExecutionStateCancelled \/
  (CommandExecutionTransition_To c = CommandExecutionStateAuthorized /\
   CommandExecutionTransition_Approval c = ApprovalRequestStateGranted).
Proof.
  unfold ValidateCommandExecutionTransition. intros [Hv Ha]%err_seq_None Hf.
  rewrite Hf in *. rewrite String.eqb_refl in Ha.
  by_edges Hv (fun a b => implb (a =? CommandExecutionStateAwaitingAuthority)
    ((b =? CommandExecutionStateCancelled) || (b =? CommandExecutionStateAuthorized))).
  rewrite String.eqb_refl in Hv. cbn [implb] in Hv. to_prop.
  destruct Hv as [?|Hto]; [by left|right]. split; [done|].
  rewrite Hto, String.eqb_refl in Ha. simpl in Ha.
  destruct (String.eqb_spec (CommandExecutionTransition_Approval c)
    ApprovalRequestStateGranted); [done|discriminate Ha].
Qed.

Lemma command_cancelled_stays cs t :
  command_history CommandExecutionStateCancelled cs t -> t = CommandExecutionStateCancelled.
Proof.
  inversion 1 as [|c cs' ? Hc Hh Hf]; subst; [done|].
  unfold ValidateCommandExecutionTransition in Hc. apply err_seq_None in Hc as [Hv _].
  rewrite Hf in Hv.
  by_edges Hv (fun a (_ : string) => negb (CommandExecutionState_IsTerminal a)).
  discriminate Hv.
Qed.

(** A command that has to wait for authority acts only with it: every
    history of accepted changes that starts while the command awaits
    authority either ends there, ends cancelled, or has as its first change
    the authorization under a granted approval. In particular it cannot be
    running, or have an outcome, without the grant. *)
Theorem waiting_command_needs_grant (cs : list CommandExecutionTransition)
    (t : CommandExecutionState) :
  command_history CommandExecutionStateAwaitingAuthority cs t ->
  t = CommandExecutionStateAwaitingAuthority \/
  t = CommandExecutionStateCancelled \/
  exists c rest, cs = c :: rest /\
    CommandExecutionTransition_To c = CommandExecutionStateAuthorized /\
    CommandExecutionTransition_Approval c = ApprovalRequestStateGranted.
Proof.
  inversion 1 as [|c rest ? Hc Hh Hf]; subst; [by left|right].
  destruct (command_from_awaiting c Hc Hf) as [Hto|[Hto Hap]].
  - left. rewrite Hto in Hh. by eapply command_cancelled_stays.
  - right. by exists c, rest.
Qed.

Definition command_change (a b : CommandExecutionState) (ap : ApprovalRequestState) :=
  {| CommandExecutionTransition_From := a; CommandExecutionTransition_To := b;
     CommandExecutionTransition_Approval := ap |}.

Lemma waiting_command_needs_grant_witness :
  let cs := [ command_change CommandExecutionStateAwaitingAuthority
                CommandExecutionStateAuthorized ApprovalRequestStateGranted;
              command_change CommandExecutionStateAuthorized
                CommandExecutionStateRunning ApprovalRequestStatePending ] in
  command_history CommandExecutionStateAwaitingAuthority cs CommandExecutionStateRunning /\
  exists c rest, cs = c :: rest /\
    CommandExecutionTransition_To c = CommandExecutionStateAuthorized /\
    CommandExecutionTransition_Approval c = ApprovalRequestStateGranted.
Proof.
  intros cs.
  assert (Hh : command_history CommandExecutionStateAwaitingAuthority cs
                 CommandExecutionStateRunning).
  { apply (command_history_cons (command_change _ _ _)); [vm_compute; reflexivity|].
    apply (command_history_cons (command_change CommandExecutionStateAuthorized _ _));
      [vm_compute; reflexivity|]. constructor. }
  split; [exact Hh|].
  destruct (waiting_command_needs_grant cs _ Hh) as [[=]|[[=]|Hc]]. exact Hc.
Defined.

(** ** Progress *)

(** A search for histories; its answers are checked with [history_ok]. *)
Fixpoint explore (n : nat) (found : list (TaskState * list TaskTransition)) :
    list (TaskState * list TaskTransition) :=
  match n with
  | O => found
  | S n =>
      explore n (fold_left (fun acc p =>
        fold_left (fun acc b =>
          if is_nil (ValidateTaskTransition (change p.1 b)) && negb (containsState (map fst acc) b)
          then acc ++ [(b, p.2 ++ [change p.1 b])] else acc) taskStates acc) found found)
  end.

Definition reaches (s : TaskState) (goal : TaskState -> bool) : bool :=
  existsb (fun p => goal p.1 && bool_decide (history_ok s p.2 = Some p.1)) (explore 8 [(s, [])]).

Lemma reaches_sound s goal :
  reaches s goal = true -> exists cs t, task_history s cs t /\ goal t = true.
Proof.
  unfold reaches. intros ([t cs] & _ & H)%existsb_exists. simpl in H. to_prop.
  exists cs, t. split; [|tauto].
  apply (history_ok_sound _ [] s); [constructor|tauto].
Qed.

(** The task machine has no dead ends: every declared task state is
    reached from draft by some history of accepted changes, and from every
    declared state that is not terminal some history leads to a terminal
    one. *)
Theorem task_machine_live (s : TaskState) :
  TaskState_IsValid s = true ->
  (exists cs, task_history TaskStateDraft cs s) /\
  (exists cs t, task_history s cs t /\ TaskState_IsTerminal t = true).
Proof.
  intros Hs.
  assert (Hall : forallb (fun s => reaches TaskStateDraft (String.eqb s) &&
    reaches s TaskState_IsTerminal) taskStates = true) by (vm_compute; reflexivity).
  apply containsState_spec, list_elem_of_In in Hs.
  rewrite forallb_forall in Hall. specialize (Hall s Hs). to_prop. destruct Hall as [H1 H2].
  apply reaches_sound in H1 as (cs & t & Hh & <-%String.eqb_eq). eauto using reaches_sound.
Qed.

Lemma task_machine_live_witness :
  TaskState_IsValid TaskStateRecoveryRequired = true /\
  (exists cs, task_history TaskStateDraft cs TaskStateRecoveryRequired) /\
  (exists cs t, task_history TaskStateRecoveryRequired cs t /\ TaskState_IsTerminal t = true).
Proof. split; [reflexivity|]. apply task_machine_live. reflexivity. Defined.
