(* ===== verification/PolicyValues.v ===== *)
(** * The policy-bearing domain values (src/internal/domain/policy.go)

    Exact money and token counts, task budgets, forecast ranges, and the
    closed vocabularies of the execution policy. Identities of
    src/internal/domain/identity.go are their string value; [IsZero] is the
    test for the empty string. Token counts are [uint64], minor units and
    milliseconds [int64], with their wrap-around where the code adds. *)

From Stdlib Require Import Ascii.
From S2P Require Import Prelude GoText.
Open Scope string_scope.
Open Scope list_scope.

Record ValueError := {
  ValueError_Field : string;
  ValueError_Reason : string;
}.

Definition valueError (field reason : string) : ValueError :=
  {| ValueError_Field := field; ValueError_Reason := reason |}.

Definition ValueError_Error (e : ValueError) : string :=
  ValueError_Field e +:+ " is invalid: " +:+ ValueError_Reason e.

Abbreviation ID := string.
Definition IsZero (id : ID) : bool := id =? "".

(** ** Closed vocabularies *)

Abbreviation PolicyPreset := string.
Definition PolicyPresetCorrectness : PolicyPreset := "correctness".
Definition PolicyPresetBalanced : PolicyPreset := "balanced".
Definition PolicyPresetFast : PolicyPreset := "fast".
Definition PolicyPresetEconomical : PolicyPreset := "economical".

Definition PolicyPreset_IsValid (value : PolicyPreset) : bool :=
  (value =? PolicyPresetCorrectness) ||
  (value =? PolicyPresetBalanced) ||
  (value =? PolicyPresetFast) ||
  (value =? PolicyPresetEconomical).

Abbreviation ReasoningEffort := string.
Definition ReasoningEffortMinimal : ReasoningEffort := "minimal".
Definition ReasoningEffortStandard : ReasoningEffort := "standard".
Definition ReasoningEffortExtended : ReasoningEffort := "extended".
Definition ReasoningEffortMaximum : ReasoningEffort := "maximum".

Definition ReasoningEffort_IsValid (value : ReasoningEffort) : bool :=
  (value =? ReasoningEffortMinimal) ||
  (value =? ReasoningEffortStandard) ||
  (value =? ReasoningEffortExtended) ||
  (value =? ReasoningEffortMaximum).

Abbreviation RiskLevel := string.
Definition RiskLevelRoutine : RiskLevel := "routine".
Definition RiskLevelElevated : RiskLevel := "elevated".
Definition RiskLevelProtected : RiskLevel := "protected".

Definition RiskLevel_IsValid (value : RiskLevel) : bool :=
  (value =? RiskLevelRoutine) ||
  (value =? RiskLevelElevated) ||
  (value =? RiskLevelProtected).

Abbreviation AssuranceLevel := string.
Definition AssuranceLevelFullyEvaluated : AssuranceLevel := "fully-evaluated".
Definition AssuranceLevelModelVerified : AssuranceLevel := "model-verified".
Definition AssuranceLevelContractChecked : AssuranceLevel := "contract-checked".
Definition AssuranceLevelRuntimeOnly : AssuranceLevel := "runtime-only".
Definition AssuranceLevelInvalidated : AssuranceLevel := "invalidated".

Definition AssuranceLevel_IsValid (value : AssuranceLevel) : bool :=
  (value =? AssuranceLevelFullyEvaluated) ||
  (value =? AssuranceLevelModelVerified) ||
  (value =? AssuranceLevelContractChecked) ||
  (value =? AssuranceLevelRuntimeOnly) ||
  (value =? AssuranceLevelInvalidated).

Abbreviation ValidationSeverity := string.
Definition ValidationSeverityAdvisory : ValidationSeverity := "advisory".
Definition ValidationSeverityWarning : ValidationSeverity := "warning".
Definition ValidationSeverityError : ValidationSeverity := "error".
Definition ValidationSeverityBlocking : ValidationSeverity := "blocking".

Definition ValidationSeverity_IsValid (value : ValidationSeverity) : bool :=
  (value =? ValidationSeverityAdvisory) ||
  (value =? ValidationSeverityWarning) ||
  (value =? ValidationSeverityError) ||
  (value =? ValidationSeverityBlocking).

Abbreviation PauseReason := string.
Definition PauseReasonUserRequested : PauseReason := "user-requested".
Definition PauseReasonAwaitingAuthority : PauseReason := "awaiting-authority".
Definition PauseReasonBudgetExhausted : PauseReason := "budget-exhausted".
Definition PauseReasonProviderUnavailable : PauseReason := "provider-unavailable".
Definition PauseReasonValidationFailed : PauseReason := "validation-failed".
Definition PauseReasonRecoveryUncertain : PauseReason := "recovery-uncertain".

Definition PauseReason_IsValid (value : PauseReason) : bool :=
  (value =? PauseReasonUserRequested) ||
  (value =? PauseReasonAwaitingAuthority) ||
  (value =? PauseReasonBudgetExhausted) ||
  (value =? PauseReasonProviderUnavailable) ||
  (value =? PauseReasonValidationFailed) ||
  (value =? PauseReasonRecoveryUncertain).

Abbreviation FailureReason := string.
Definition FailureReasonPlanning : FailureReason := "planning".
Definition FailureReasonTool : FailureReason := "tool".
Definition FailureReasonProvider : FailureReason := "provider".
Definition FailureReasonValidation : FailureReason := "validation".
Definition FailureReasonInternal : FailureReason := "internal".
Definition FailureReasonCorruption : FailureReason := "corruption".

Definition FailureReason_IsValid (value : FailureReason) : bool :=
  (value =? FailureReasonPlanning) ||
  (value =? FailureReasonTool) ||
  (value =? FailureReasonProvider) ||
  (value =? FailureReasonValidation) ||
  (value =? FailureReasonInternal) ||
  (value =? FailureReasonCorruption).

Abbreviation CancellationReason := string.
Definition CancellationReasonUserRequested : CancellationReason := "user-requested".
Definition CancellationReasonSuperseded : CancellationReason := "superseded".
Definition CancellationReasonShutdown : CancellationReason := "shutdown".
Definition CancellationReasonBudgetExhausted : CancellationReason := "budget-exhausted".

Definition CancellationReason_IsValid (value : CancellationReason) : bool :=
  (value =? CancellationReasonUserRequested) ||
  (value =? CancellationReasonSuperseded) ||
  (value =? CancellationReasonShutdown) ||
  (value =? CancellationReasonBudgetExhausted).

Abbreviation RollbackReason := string.
Definition RollbackReasonUserRequested : RollbackReason := "user-requested".
Definition RollbackReasonRegression : RollbackReason := "regression".
Definition RollbackReasonValidationInvalidated : RollbackReason := "validation-invalidated".
Definition RollbackReasonRecovery : RollbackReason := "recovery".

Definition RollbackReason_IsValid (value : RollbackReason) : bool :=
  (value =? RollbackReasonUserRequested) ||
  (value =? RollbackReasonRegression) ||
  (value =? RollbackReasonValidationInvalidated) ||
  (value =? RollbackReasonRecovery).

Abbreviation InvalidationReason := string.
Definition InvalidationReasonDependencyChanged : InvalidationReason := "dependency-changed".
Definition InvalidationReasonSourceChanged : InvalidationReason := "source-changed".
Definition InvalidationReasonPolicyChanged : InvalidationReason := "policy-changed".
Definition InvalidationReasonDefectAttributed : InvalidationReason := "defect-attributed".
Definition InvalidationReasonEvidenceExpired : InvalidationReason := "evidence-expired".

Definition InvalidationReason_IsValid (value : InvalidationReason) : bool :=
  (value =? InvalidationReasonDependencyChanged) ||
  (value =? InvalidationReasonSourceChanged) ||
  (value =? InvalidationReasonPolicyChanged) ||
  (value =? InvalidationReasonDefectAttributed) ||
  (value =? InvalidationReasonEvidenceExpired).

Abbreviation AmbiguityPolicy := string.
Definition AmbiguityAsk : AmbiguityPolicy := "ask".
Definition AmbiguityAssume : AmbiguityPolicy := "assume".

Definition AmbiguityPolicy_IsValid (value : AmbiguityPolicy) : bool :=
  (value =? AmbiguityAsk) ||
  (value =? AmbiguityAssume).

(** ** Models *)

Record ModelCapabilityMetadata := {
  ModelCapabilityMetadata_Provider : ID;
  ModelCapabilityMetadata_Model : string;
  ModelCapabilityMetadata_Revision : string;
  ModelCapabilityMetadata_ContextTokens : Z;
  ModelCapabilityMetadata_MaxOutputTokens : Z;
  ModelCapabilityMetadata_ToolCalling : bool;
  ModelCapabilityMetadata_StructuredOutput : bool;
  ModelCapabilityMetadata_Streaming : bool;
  ModelCapabilityMetadata_ImageInput : bool;
  ModelCapabilityMetadata_PromptCaching : bool;
  ModelCapabilityMetadata_Reasoning : bool;
}.

Definition ModelCapabilityMetadata_Validate (value : ModelCapabilityMetadata)
    : option ValueError :=
  if IsZero (ModelCapabilityMetadata_Provider value) then
    Some (valueError "model.provider" "must not be empty")
  else if blank (ModelCapabilityMetadata_Model value) then
    Some (valueError "model.model" "must not be empty")
  else if blank (ModelCapabilityMetadata_Revision value) then
    Some (valueError "model.revision" "must not be empty")
  else if (ModelCapabilityMetadata_ContextTokens value =? 0)%Z then
    Some (valueError "model.context_tokens" "must be greater than zero")
  else if (ModelCapabilityMetadata_MaxOutputTokens value =? 0)%Z then
    Some (valueError "model.max_output_tokens" "must be greater than zero")
  else if (ModelCapabilityMetadata_ContextTokens value <?
           ModelCapabilityMetadata_MaxOutputTokens value)%Z then
    Some (valueError "model.max_output_tokens" "must not exceed context_tokens")
  else None.

(** ** Exact money *)

Abbreviation CurrencyCode := string.

Definition upper_letter (c : ascii) : bool :=
  negb ((Ascii.ltb c "A") || (Ascii.ltb "Z" c)).

(** The source ranges over runes; a byte above 0x7F makes some rune of the
    string exceed ['Z'], so the test over bytes is the same. *)
Definition ParseCurrencyCode (raw : string) : result ValueError CurrencyCode :=
  if negb (Z.of_nat (String.length raw) =? 3)%Z then
    Err (valueError "currency" "must contain exactly three uppercase letters")
  else if forallb upper_letter (String.list_ascii_of_string raw) then Ok raw
  else Err (valueError "currency" "must contain exactly three uppercase letters").

Record Money := {
  Money_Currency : CurrencyCode;
  Money_MinorUnits : Z;
}.

Definition Money_zero : Money := {| Money_Currency := ""; Money_MinorUnits := 0 |}.

#[export] Instance Money_eq_dec : EqDecision Money.
Proof. solve_decision. Defined.

Definition Money_Validate (value : Money) : option ValueError :=
  match ParseCurrencyCode (Money_Currency value) with
  | Err _ => Some (valueError "money.currency" "must be a canonical currency code")
  | Ok parsed =>
      if negb (parsed =? Money_Currency value)
      then Some (valueError "money.currency" "must be a canonical currency code")
      else None
  end.

Definition NewMoney (currency : CurrencyCode) (minorUnits : Z) : result ValueError Money :=
  let value := {| Money_Currency := currency; Money_MinorUnits := minorUnits |} in
  Money_Validate value ;! Ok value.

Definition Money_Add (value other : Money) : result ValueError Money :=
  Money_Validate value ;!
  Money_Validate other ;!
  if negb (Money_Currency value =? Money_Currency other) then
    Err (valueError "money.currency" "cannot add different currencies")
  else
    let sum := wrap_int64 (Money_MinorUnits value + Money_MinorUnits other) in
    if ((0 <? Money_MinorUnits other) && (sum <? Money_MinorUnits value) ||
        (Money_MinorUnits other <? 0) && (Money_MinorUnits value <? sum))%Z then
      Err (valueError "money.minor_units" "addition overflow")
    else Ok {| Money_Currency := Money_Currency value; Money_MinorUnits := sum |}.

(** ** Token usage *)

Record TokenUsage := {
  TokenUsage_Known : bool;
  TokenUsage_Input : Z;
  TokenUsage_CachedInput : Z;
  TokenUsage_CacheWrite : Z;
  TokenUsage_Output : Z;
  TokenUsage_Reasoning : Z;
  TokenUsage_ProviderSpecific : gmap string Z;
}.

(** The keys of a Go map in some iteration order. *)
Definition map_keys {A} (m : gmap string A) : list string := map fst (map_to_list m).

Definition TokenUsage_Validate (value : TokenUsage) : option ValueError :=
  if negb (TokenUsage_Known value) then
    if (negb (TokenUsage_Input value =? 0) || negb (TokenUsage_CachedInput value =? 0) ||
        negb (TokenUsage_CacheWrite value =? 0) || negb (TokenUsage_Output value =? 0) ||
        negb (TokenUsage_Reasoning value =? 0) ||
        negb (Z.of_nat (size (TokenUsage_ProviderSpecific value)) =? 0))%Z then
      Some (valueError "token_usage" "unknown usage must not carry numeric values")
    else None
  else if existsb blank (map_keys (TokenUsage_ProviderSpecific value)) then
    Some (valueError "token_usage.provider_specific" "category names must not be blank")
  else None.

(** The accumulation loop of [Total]. *)
Fixpoint total_counts (total : Z) (counts : list Z) : result ValueError Z :=
  match counts with
  | [] => Ok total
  | count :: rest =>
      let next := wrap_uint64 (total + count) in
      if (next <? total)%Z then Err (valueError "token_usage" "total overflow")
      else total_counts next rest
  end.

Definition usage_counts (value : TokenUsage) : list Z :=
  [ TokenUsage_Input value; TokenUsage_CachedInput value; TokenUsage_CacheWrite value;
    TokenUsage_Output value; TokenUsage_Reasoning value ] ++
  map (fun key => default 0%Z (TokenUsage_ProviderSpecific value !! key))
    (sort_strings (map_keys (TokenUsage_ProviderSpecific value))).

Definition TokenUsage_Total (value : TokenUsage) : result ValueError (Z * bool) :=
  TokenUsage_Validate value ;!
  if negb (TokenUsage_Known value) then Ok (0%Z, false)
  else total ← total_counts 0 (usage_counts value); Ok (total, true).

(** ** Budgets and forecasts *)

Record TaskBudget := {
  TaskBudget_ID : ID;
  TaskBudget_WarningCost : Money;
  TaskBudget_HardStopCost : Money;
  TaskBudget_WarningTokens : Z;
  TaskBudget_HardStopTokens : Z;
  TaskBudget_WarningWallClock : Z;
  TaskBudget_HardStopWallClock : Z;
  TaskBudget_MaximumProviderCalls : Z;
  TaskBudget_MaximumRepairRounds : Z;
  TaskBudget_MaximumToolExecutions : Z;
}.

#[export] Instance TaskBudget_eq_dec : EqDecision TaskBudget.
Proof. solve_decision. Defined.

Definition TaskBudget_Validate (value : TaskBudget) : option ValueError :=
  if IsZero (TaskBudget_ID value) then
    Some (valueError "budget.id" "must not be empty")
  else if negb (is_nil (Money_Validate (TaskBudget_WarningCost value))) then
    Some (valueError "budget.warning_cost" "must contain valid exact money")
  else if negb (is_nil (Money_Validate (TaskBudget_HardStopCost value))) then
    Some (valueError "budget.hard_stop_cost" "must contain valid exact money")
  else if negb (Money_Currency (TaskBudget_WarningCost value) =?
                Money_Currency (TaskBudget_HardStopCost value)) then
    Some (valueError "budget.cost" "warning and hard stop must use the same currency")
  else if ((Money_MinorUnits (TaskBudget_WarningCost value) <? 0) ||
           (Money_MinorUnits (TaskBudget_HardStopCost value) <? 0))%Z then
    Some (valueError "budget.cost" "thresholds must not be negative")
  else if (Money_MinorUnits (TaskBudget_HardStopCost value) <?
           Money_MinorUnits (TaskBudget_WarningCost value))%Z then
    Some (valueError "budget.cost" "warning must not exceed hard stop")
  else if (TaskBudget_HardStopTokens value <? TaskBudget_WarningTokens value)%Z then
    Some (valueError "budget.tokens" "warning must not exceed hard stop")
  else if ((TaskBudget_WarningWallClock value <? 0) ||
           (TaskBudget_HardStopWallClock value <? 0))%Z then
    Some (valueError "budget.wall_clock" "thresholds must not be negative")
  else if (TaskBudget_HardStopWallClock value <? TaskBudget_WarningWallClock value)%Z then
    Some (valueError "budget.wall_clock" "warning must not exceed hard stop")
  else None.

Record ForecastRange := {
  ForecastRange_LatencyKnown : bool;
  ForecastRange_LatencyP50Millis : Z;
  ForecastRange_LatencyP90Millis : Z;
  ForecastRange_TokensKnown : bool;
  ForecastRange_TokensP50 : Z;
  ForecastRange_TokensP90 : Z;
  ForecastRange_CostKnown : bool;
  ForecastRange_CostP50 : Money;
  ForecastRange_CostP90 : Money;
}.

Definition ForecastRange_Validate (value : ForecastRange) : option ValueError :=
  if negb (ForecastRange_LatencyKnown value) &&
     (negb (ForecastRange_LatencyP50Millis value =? 0)%Z ||
      negb (ForecastRange_LatencyP90Millis value =? 0)%Z) then
    Some (valueError "forecast.latency" "unknown values must not carry estimates")
  else if negb (ForecastRange_TokensKnown value) &&
     (negb (ForecastRange_TokensP50 value =? 0)%Z ||
      negb (ForecastRange_TokensP90 value =? 0)%Z) then
    Some (valueError "forecast.tokens" "unknown values must not carry estimates")
  else if negb (ForecastRange_CostKnown value) &&
     (negb (bool_decide (ForecastRange_CostP50 value = Money_zero)) ||
      negb (bool_decide (ForecastRange_CostP90 value = Money_zero))) then
    Some (valueError "forecast.cost" "unknown values must not carry estimates")
  else if negb (ForecastRange_LatencyKnown value) && negb (ForecastRange_TokensKnown value) &&
     negb (ForecastRange_CostKnown value) then None
  else if ForecastRange_LatencyKnown value &&
     ((ForecastRange_LatencyP50Millis value <? 0)%Z ||
      (ForecastRange_LatencyP90Millis value <? 0)%Z) then
    Some (valueError "forecast.latency" "values must not be negative")
  else if ForecastRange_LatencyKnown value &&
     (ForecastRange_LatencyP90Millis value <? ForecastRange_LatencyP50Millis value)%Z then
    Some (valueError "forecast.latency" "P50 must not exceed P90")
  else if ForecastRange_TokensKnown value &&
     (ForecastRange_TokensP90 value <? ForecastRange_TokensP50 value)%Z then
    Some (valueError "forecast.tokens" "P50 must not exceed P90")
  else if ForecastRange_CostKnown value &&
     (negb (is_nil (Money_Validate (ForecastRange_CostP50 value))) ||
      negb (is_nil (Money_Validate (ForecastRange_CostP90 value)))) then
    Some (valueError "forecast.cost" "values must contain valid exact money")
  else if ForecastRange_CostKnown value &&
     negb (Money_Currency (ForecastRange_CostP50 value) =?
           Money_Currency (ForecastRange_CostP90 value)) then
    Some (valueError "forecast.cost" "P50 and P90 must use the same currency")
  else if ForecastRange_CostKnown value &&
     ((Money_MinorUnits (ForecastRange_CostP50 value) <? 0)%Z ||
      (Money_MinorUnits (ForecastRange_CostP90 value) <? 0)%Z) then
    Some (valueError "forecast.cost" "values must not be negative")
  else if ForecastRange_CostKnown value &&
     (Money_MinorUnits (ForecastRange_CostP90 value) <?
      Money_MinorUnits (ForecastRange_CostP50 value))%Z then
    Some (valueError "forecast.cost" "P50 must not exceed P90")
  else None.

Record ExecutionPolicy := {
  ExecutionPolicy_Preset : PolicyPreset;
  ExecutionPolicy_Reasoning : ReasoningEffort;
  ExecutionPolicy_Risk : RiskLevel;
  ExecutionPolicy_RequiredAssurance : AssuranceLevel;
}.

Definition ExecutionPolicy_Validate (value : ExecutionPolicy) : option ValueError :=
  if negb (PolicyPreset_IsValid (ExecutionPolicy_Preset value)) then
    Some (valueError "policy.preset" "is not declared")
  else if negb (ReasoningEffort_IsValid (ExecutionPolicy_Reasoning value)) then
    Some (valueError "policy.reasoning" "is not declared")
  else if negb (RiskLevel_IsValid (ExecutionPolicy_Risk value)) then
    Some (valueError "policy.risk" "is not declared")
  else if negb (AssuranceLevel_IsValid (ExecutionPolicy_RequiredAssurance value)) ||
          (ExecutionPolicy_RequiredAssurance value =? AssuranceLevelInvalidated) then
    Some (valueError "policy.required_assurance" "must be a valid non-invalidated level")
  else None.

(** ** Exactness *)

(** A well-typed amount: its minor units are an [int64]. *)
Definition Money_wf (m : Money) : Prop := int64_range (Money_MinorUnits m).

Lemma Money_Validate_nil m :
  Money_Validate m = None <-> exists c, ParseCurrencyCode (Money_Currency m) = Ok c.
Proof.
  unfold Money_Validate, ParseCurrencyCode.
  repeat case_match; simplify_eq; try (split; [discriminate|by intros [? [=]]]).
  - to_prop. congruence.
  - split; [eauto|done].
Qed.

(** The overflow test of [Add] is right: with wrap-around in force it fires
    exactly when the true sum is not an [int64]. *)
Lemma add_overflow_test a b :
  int64_range a -> int64_range b ->
  ((0 <? b) && (wrap_int64 (a + b) <? a) || (b <? 0) && (a <? wrap_int64 (a + b)))%Z = true
  <-> ~ int64_range (a + b).
Proof.
  intros Ha Hb. rewrite wrap_int64_add_cases by done.
  to_prop. unfold_ranges. repeat case_decide; lia.
Qed.

(** Adding money is exact: for amounts whose minor units are [int64]s,
    [Add] succeeds exactly when both currencies are canonical, they agree, and
    the true sum fits an [int64]; the result is then that sum in that
    currency, and never a wrapped value. *)
Theorem Money_Add_exact (a b c : Money) :
  Money_wf a -> Money_wf b ->
  Money_Add a b = Ok c <->
  Money_Validate a = None /\ Money_Validate b = None /\
  Money_Currency a = Money_Currency b /\
  int64_range (Money_MinorUnits a + Money_MinorUnits b) /\
  c = {| Money_Currency := Money_Currency a;
         Money_MinorUnits := (Money_MinorUnits a + Money_MinorUnits b)%Z |}.
Proof.
  intros Ha Hb. unfold Money_Add. rewrite !err_guard_Ok.
  destruct (String.eqb_spec (Money_Currency a) (Money_Currency b)) as [Hc|Hc]; simpl;
    [|split; [by intros (_ & _ & [=])|tauto]].
  destruct (_ || _)%bool eqn:Hov.
  - apply (add_overflow_test _ _ Ha Hb) in Hov. split; [by intros (_ & _ & [=])|tauto].
  - assert (Hin : int64_range (Money_MinorUnits a + Money_MinorUnits b)).
    { destruct (decide (int64_range (Money_MinorUnits a + Money_MinorUnits b))) as [|Hn];
        [done|]. apply (add_overflow_test _ _ Ha Hb) in Hn. congruence. }
    rewrite wrap_int64_id by done. split; [by intros (? & ? & [= <-])|by intros (? & ? & ? & ? & ->)].
Qed.

Definition usd (units : Z) : Money := {| Money_Currency := "USD"; Money_MinorUnits := units |}.

Lemma Money_Add_exact_witness :
  Money_wf (usd 3750) /\ Money_wf (usd (-1250)) /\ Money_Add (usd 3750) (usd (-1250)) = Ok (usd 2500).
Proof.
  assert (H1 : Money_wf (usd 3750)) by (unfold Money_wf; unfold_ranges; simpl; lia).
  assert (H2 : Money_wf (usd (-1250))) by (unfold Money_wf; unfold_ranges; simpl; lia).
  split_and!; [exact H1|exact H2|]. apply (Money_Add_exact _ _ _ H1 H2).
  split_and!; try reflexivity. unfold_ranges. simpl. lia.
Defined.

Definition sumZ (l : list Z) : Z := foldr Z.add 0%Z l.

Lemma sumZ_cons x l : sumZ (x :: l) = (x + sumZ l)%Z.
Proof. done. Qed.

Lemma sumZ_nonneg l : Forall uint64_range l -> (0 <= sumZ l)%Z.
Proof. induction 1; rewrite ?sumZ_cons; unfold_ranges; simpl; lia. Qed.

Lemma total_counts_spec total counts :
  uint64_range total -> Forall uint64_range counts ->
  total_counts total counts =
    if decide (total + sumZ counts <= max_uint64)%Z
    then Ok (total + sumZ counts)%Z
    else Err (valueError "token_usage" "total overflow").
Proof.
  intros Ht Hc. revert total Ht. induction Hc as [|count rest Hcount Hrest IH]; intros total Ht.
  { simpl. rewrite decide_True by (unfold_ranges; lia). f_equal. lia. }
  rewrite sumZ_cons. cbn [total_counts].
  pose proof (sumZ_nonneg _ Hrest). rewrite wrap_uint64_add_cases by done.
  case_decide as Hov.
  - rewrite (decide_False (P := _ <= max_uint64)%Z) by lia.
    destruct (Z.ltb_spec (total + count - 2 ^ 64) total); [done|unfold_ranges; lia].
  - destruct (Z.ltb_spec (total + count) total); [unfold_ranges; lia|].
    rewrite IH by (unfold_ranges; lia). rewrite Z.add_assoc. done.
Qed.

(** A well-typed usage: every count is a [uint64]. *)
Definition TokenUsage_wf (value : TokenUsage) : Prop := Forall uint64_range (usage_counts value).

(** Token totals are exact: for a usage whose counts are [uint64]s,
    [Total] of a known, valid usage is the true sum of every category, the
    provider-specific ones included, when that sum fits a [uint64], and the
    overflow error otherwise; an unknown usage has no total. *)
Theorem TokenUsage_Total_exact (value : TokenUsage) :
  TokenUsage_wf value -> TokenUsage_Validate value = None ->
  TokenUsage_Total value =
    if TokenUsage_Known value
    then if decide (sumZ (usage_counts value) <= max_uint64)%Z
         then Ok (sumZ (usage_counts value), true)
         else Err (valueError "token_usage" "total overflow")
    else Ok (0%Z, false).
Proof.
  intros Hwf Hv. unfold TokenUsage_wf in Hwf. unfold TokenUsage_Total. rewrite Hv. cbn [err_guard].
  destruct (TokenUsage_Known value); cbn [negb]; [|done].
  rewrite total_counts_spec by (done || (unfold_ranges; lia)).
  rewrite Z.add_0_l. by case_decide.
Qed.

Definition sample_usage : TokenUsage :=
  {| TokenUsage_Known := true; TokenUsage_Input := 1200; TokenUsage_CachedInput := 300;
     TokenUsage_CacheWrite := 0; TokenUsage_Output := 450; TokenUsage_Reasoning := 50;
     TokenUsage_ProviderSpecific := {[ "audio" := 7%Z ]} |}.

Lemma TokenUsage_Total_exact_witness :
  TokenUsage_wf sample_usage /\ TokenUsage_Validate sample_usage = None /\
  TokenUsage_Total sample_usage = Ok (2007%Z, true).
Proof.
  assert (Hwf : TokenUsage_wf sample_usage).
  { unfold TokenUsage_wf. by_computation. }
  assert (Hv : TokenUsage_Validate sample_usage = None) by (vm_compute; reflexivity).
  split_and!; [exact Hwf|exact Hv|].
  rewrite (TokenUsage_Total_exact _ Hwf Hv). vm_compute. reflexivity.
Defined.

(** ** What validation establishes *)

(** A budget passes validation exactly when it has an identity, both cost
    thresholds are canonical money of one currency, nothing is negative, and
    every warning threshold is at most its hard stop. *)
Theorem TaskBudget_Validate_monotone (b : TaskBudget) :
  let warning := TaskBudget_WarningCost b in
  let hard := TaskBudget_HardStopCost b in
  TaskBudget_Validate b = None <->
  TaskBudget_ID b <> "" /\
  Money_Validate warning = None /\ Money_Validate hard = None /\
  Money_Currency warning = Money_Currency hard /\
  (0 <= Money_MinorUnits warning <= Money_MinorUnits hard)%Z /\
  (TaskBudget_WarningTokens b <= TaskBudget_HardStopTokens b)%Z /\
  (0 <= TaskBudget_WarningWallClock b <= TaskBudget_HardStopWallClock b)%Z.
Proof.
  intros warning hard. unfold TaskBudget_Validate, IsZero. fold warning hard.
  destruct (Money_Validate warning), (Money_Validate hard); simpl;
    repeat match goal with
    | |- context [if ?b then _ else _] => destruct b eqn:?
    end; to_prop; split; try discriminate; try (intros; split_and!; tauto || lia); intros; lia || tauto || naive_solver.
Qed.

(** A forecast range passes validation exactly when each estimate that is
    not known carries no number, and each known one is non-negative with its
    P50 at most its P90 (and, for cost, canonical money of one currency). *)
Theorem ForecastRange_Validate_ordered (r : ForecastRange) :
  let p50 := ForecastRange_CostP50 r in
  let p90 := ForecastRange_CostP90 r in
  ForecastRange_Validate r = None <->
  (if ForecastRange_LatencyKnown r
   then 0 <= ForecastRange_LatencyP50Millis r <= ForecastRange_LatencyP90Millis r
   else ForecastRange_LatencyP50Millis r = 0 /\ ForecastRange_LatencyP90Millis r = 0)%Z /\
  (if ForecastRange_TokensKnown r
   then ForecastRange_TokensP50 r <= ForecastRange_TokensP90 r
   else ForecastRange_TokensP50 r = 0 /\ ForecastRange_TokensP90 r = 0)%Z /\
  (if ForecastRange_CostKnown r
   then Money_Validate p50 = None /\ Money_Validate p90 = None /\
        Money_Currency p50 = Money_Currency p90 /\
        (0 <= Money_MinorUnits p50 <= Money_MinorUnits p90)%Z
   else p50 = Money_zero /\ p90 = Money_zero).
Proof.
  intros p50 p90. unfold ForecastRange_Validate. fold p50 p90.
  destruct (ForecastRange_LatencyKnown r), (ForecastRange_TokensKnown r),
    (ForecastRange_CostKnown r), (Money_Validate p50), (Money_Validate p90); simpl;
    repeat match goal with
    | |- context [if ?b then _ else _] => destruct b eqn:?
    end; to_prop; split; try discriminate; intros; split_and?; try done; try lia; naive_solver lia.
Qed.
