(* ===== verification/ProviderTypes.v ===== *)
(** * Provider and model identities (src/internal/providers/types.go)

    The attribution records every provider request carries. *)

From S2P Require Import Prelude GoText PolicyValues.
Open Scope string_scope.
Open Scope list_scope.

(** [time.Time{}], the start of the year 1, in nanoseconds since the epoch: the
    time for which [IsZero] holds. *)
Definition zero_time : Z := -62135596800 * 10 ^ 9.
Definition is_zero_time (t : Z) : bool := (t =? zero_time)%Z.

Record ProviderIdentity := {
  ProviderIdentity_Adapter : string;
  ProviderIdentity_AdapterVersion : string;
  ProviderIdentity_Provider : string;
  ProviderIdentity_ProviderVersion : string;
}.

Record ModelIdentity := {
  ModelIdentity_Provider : ProviderIdentity;
  ModelIdentity_Model : string;
  ModelIdentity_Revision : string;
}.

Record RequestIdempotency := {
  RequestIdempotency_ProviderSupported : bool;
  RequestIdempotency_Key : string;
  RequestIdempotency_ProviderScope : string;
}.

Record RequestIdentity := {
  RequestIdentity_ModelRequestID : ID;
  RequestIdentity_Provider : ProviderIdentity;
  RequestIdentity_Model : ModelIdentity;
  RequestIdentity_Idempotency : RequestIdempotency;
  RequestIdentity_IdempotencyKey : string;
  RequestIdentity_RequestHash : string;
}.

#[export] Instance ProviderIdentity_eq_dec : EqDecision ProviderIdentity.
Proof. solve_decision. Defined.
#[export] Instance ModelIdentity_eq_dec : EqDecision ModelIdentity.
Proof. solve_decision. Defined.
#[export] Instance RequestIdempotency_eq_dec : EqDecision RequestIdempotency.
Proof. solve_decision. Defined.
#[export] Instance RequestIdentity_eq_dec : EqDecision RequestIdentity.
Proof. solve_decision. Defined.
