(* ===== verification/FixedPolicy.v ===== *)
(** * The fixed execution policy (src/internal/policy)

    fixed.go selects the frozen baseline or a recorded manual override and
    validates snapshots; budget.go replaces a budget before approval. Errors
    keep their class and the constant text of their message; the values the
    source interpolates with [%q] are left out of the text. [CanonicalJSON]
    and [Digest] (JSON and SHA-256 of a validated snapshot) are not
    modelled. *)

From S2P Require Import Prelude GoText States PolicyValues ProviderTypes.
Open Scope string_scope.
Open Scope list_scope.

Inductive PolicyError :=
| ErrInvalidPolicy (detail : string)
| ErrBudgetAdjustmentTooLate.

Definition FixedBaselineVersion : string := "fixed-baseline-v2".
Definition FixedBaselineAdapter : string := "openai-responses".
Definition FixedBaselineAdapterVersion : string := "1".
Definition FixedBaselineProvider : string := "openai".
Definition FixedBaselineProviderVersion : string := "responses-v1".
Definition FixedBaselineModel : string := "gpt-5.6-sol".
Definition FixedBaselineReasoning : ReasoningEffort := ReasoningEffortMaximum.
Definition defaultWarningCostMinorUnits : Z := 3750.
Definition defaultHardCostMinorUnits : Z := 5000.

Abbreviation Phase := string.
Definition PhasePlanning : Phase := "planning".
Definition PhaseExecution : Phase := "execution".
Definition PhaseRepair : Phase := "repair".
Definition PhaseReview : Phase := "review".

Record PhaseBehavior := {
  PhaseBehavior_Phase : Phase;
  PhaseBehavior_Reasoning : ReasoningEffort;
  PhaseBehavior_MaximumRounds : Z;
  PhaseBehavior_MaximumToolCallsPerRound : Z;
  PhaseBehavior_MayMutateWorkspace : bool;
  PhaseBehavior_RequiresValidationEvidence : bool;
}.

Record Limits := {
  Limits_MaximumPlanningRounds : Z;
  Limits_MaximumExecutionRounds : Z;
  Limits_MaximumRepairRounds : Z;
  Limits_MaximumReviewRounds : Z;
  Limits_MaximumToolCallsPerRound : Z;
  Limits_MaximumContextTokens : Z;
}.

Record BudgetDefaults := {
  BudgetDefaults_WarningCost : Money;
  BudgetDefaults_HardStopCost : Money;
  BudgetDefaults_WarningTokens : Z;
  BudgetDefaults_HardStopTokens : Z;
  BudgetDefaults_WarningWallClock : Z;
  BudgetDefaults_HardStopWallClock : Z;
  BudgetDefaults_MaximumProviderCalls : Z;
  BudgetDefaults_MaximumRepairRounds : Z;
  BudgetDefaults_MaximumToolExecutions : Z;
}.

#[export] Instance PhaseBehavior_eq_dec : EqDecision PhaseBehavior.
Proof. solve_decision. Defined.
#[export] Instance Limits_eq_dec : EqDecision Limits.
Proof. solve_decision. Defined.
#[export] Instance BudgetDefaults_eq_dec : EqDecision BudgetDefaults.
Proof. solve_decision. Defined.

Definition Materialize (defaults : BudgetDefaults) (id : ID) : result PolicyError TaskBudget :=
  let budget := {|
    TaskBudget_ID := id;
    TaskBudget_WarningCost := BudgetDefaults_WarningCost defaults;
    TaskBudget_HardStopCost := BudgetDefaults_HardStopCost defaults;
    TaskBudget_WarningTokens := BudgetDefaults_WarningTokens defaults;
    TaskBudget_HardStopTokens := BudgetDefaults_HardStopTokens defaults;
    TaskBudget_WarningWallClock := BudgetDefaults_WarningWallClock defaults;
    TaskBudget_HardStopWallClock := BudgetDefaults_HardStopWallClock defaults;
    TaskBudget_MaximumProviderCalls := BudgetDefaults_MaximumProviderCalls defaults;
    TaskBudget_MaximumRepairRounds := BudgetDefaults_MaximumRepairRounds defaults;
    TaskBudget_MaximumToolExecutions := BudgetDefaults_MaximumToolExecutions defaults |} in
  match TaskBudget_Validate budget with
  | Some e => Err (ErrInvalidPolicy ("materialize budget: " +:+ ValueError_Error e))
  | None => Ok budget
  end.

Abbreviation SelectionSource := string.
Definition SelectionSourceFixedBaseline : SelectionSource := "fixed-baseline".
Definition SelectionSourceManualOverride : SelectionSource := "manual-override".

Record ManualOverride := {
  ManualOverride_Model : ModelIdentity;
  ManualOverride_Reasoning : ReasoningEffort;
  ManualOverride_Actor : string;
  ManualOverride_AuthorityReference : string;
  ManualOverride_Reason : string;
}.

Record SelectionInput := {
  SelectionInput_BaselineModelRevision : string;
  SelectionInput_Override : option ManualOverride;
}.

Record Snapshot := {
  Snapshot_Version : string;
  Snapshot_Source : SelectionSource;
  Snapshot_Model : ModelIdentity;
  Snapshot_Reasoning : ReasoningEffort;
  Snapshot_Limits : Limits;
  Snapshot_BudgetDefaults : BudgetDefaults;
  Snapshot_Phases : list PhaseBehavior;
  Snapshot_ManualOverride : option ManualOverride;
}.

Definition fixedLimits : Limits := {|
  Limits_MaximumPlanningRounds := 2;
  Limits_MaximumExecutionRounds := 8;
  Limits_MaximumRepairRounds := 3;
  Limits_MaximumReviewRounds := 1;
  Limits_MaximumToolCallsPerRound := 24;
  Limits_MaximumContextTokens := 128000 |}.

Definition fixedBaselineModel (revision : string) : ModelIdentity := {|
  ModelIdentity_Provider := {|
    ProviderIdentity_Adapter := FixedBaselineAdapter;
    ProviderIdentity_AdapterVersion := FixedBaselineAdapterVersion;
    ProviderIdentity_Provider := FixedBaselineProvider;
    ProviderIdentity_ProviderVersion := FixedBaselineProviderVersion |};
  ModelIdentity_Model := FixedBaselineModel;
  ModelIdentity_Revision := revision |}.

Definition sameFixedBaselineModel (model : ModelIdentity) : bool :=
  (ProviderIdentity_Adapter (ModelIdentity_Provider model) =? FixedBaselineAdapter) &&
  (ProviderIdentity_AdapterVersion (ModelIdentity_Provider model) =?
     FixedBaselineAdapterVersion) &&
  (ProviderIdentity_Provider (ModelIdentity_Provider model) =? FixedBaselineProvider) &&
  (ProviderIdentity_ProviderVersion (ModelIdentity_Provider model) =?
     FixedBaselineProviderVersion) &&
  (ModelIdentity_Model model =? FixedBaselineModel).

(** The value of a call whose error the source discards: the zero value when
    there is an error. *)
Definition or_zero {E A} (zero : A) (r : result E A) : A :=
  match r with Ok a => a | Err _ => zero end.

Definition fixedBudgetDefaults : BudgetDefaults :=
  let currency := or_zero "" (ParseCurrencyCode "USD") in
  let warning := or_zero Money_zero (NewMoney currency defaultWarningCostMinorUnits) in
  let hard := or_zero Money_zero (NewMoney currency defaultHardCostMinorUnits) in
  {| BudgetDefaults_WarningCost := warning;
     BudgetDefaults_HardStopCost := hard;
     BudgetDefaults_WarningTokens := 750000;
     BudgetDefaults_HardStopTokens := 1000000;
     BudgetDefaults_WarningWallClock := 5400000;
     BudgetDefaults_HardStopWallClock := 7200000;
     BudgetDefaults_MaximumProviderCalls := 16;
     BudgetDefaults_MaximumRepairRounds := 3;
     BudgetDefaults_MaximumToolExecutions := 192 |}.

Definition fixedPhases (limits : Limits) : list PhaseBehavior :=
  [ {| PhaseBehavior_Phase := PhasePlanning;
       PhaseBehavior_Reasoning := ReasoningEffortMaximum;
       PhaseBehavior_MaximumRounds := Limits_MaximumPlanningRounds limits;
       PhaseBehavior_MaximumToolCallsPerRound := Limits_MaximumToolCallsPerRound limits;
       PhaseBehavior_MayMutateWorkspace := false;
       PhaseBehavior_RequiresValidationEvidence := false |};
    {| PhaseBehavior_Phase := PhaseExecution;
       PhaseBehavior_Reasoning := ReasoningEffortMaximum;
       PhaseBehavior_MaximumRounds := Limits_MaximumExecutionRounds limits;
       PhaseBehavior_MaximumToolCallsPerRound := Limits_MaximumToolCallsPerRound limits;
       PhaseBehavior_MayMutateWorkspace := true;
       PhaseBehavior_RequiresValidationEvidence := false |};
    {| PhaseBehavior_Phase := PhaseRepair;
       PhaseBehavior_Reasoning := ReasoningEffortMaximum;
       PhaseBehavior_MaximumRounds := Limits_MaximumRepairRounds limits;
       PhaseBehavior_MaximumToolCallsPerRound := Limits_MaximumToolCallsPerRound limits;
       PhaseBehavior_MayMutateWorkspace := true;
       PhaseBehavior_RequiresValidationEvidence := true |};
    {| PhaseBehavior_Phase := PhaseReview;
       PhaseBehavior_Reasoning := ReasoningEffortMaximum;
       PhaseBehavior_MaximumRounds := Limits_MaximumReviewRounds limits;
       PhaseBehavior_MaximumToolCallsPerRound := Limits_MaximumToolCallsPerRound limits;
       PhaseBehavior_MayMutateWorkspace := false;
       PhaseBehavior_RequiresValidationEvidence := true |} ].

(** The loop over named text fields both validators use. *)
Fixpoint check_fields (prefix : string) (limit : Z) (fields : list (string * string))
    : option PolicyError :=
  match fields with
  | [] => None
  | (name, value) :: rest =>
      if trimmed_bounded limit value then check_fields prefix limit rest
      else Some (ErrInvalidPolicy
        (prefix +:+ name +:+ " must be non-empty, trimmed, and bounded"))
  end.

Definition validateModel (model : ModelIdentity) : option PolicyError :=
  check_fields "" 255
    [ ("adapter", ProviderIdentity_Adapter (ModelIdentity_Provider model));
      ("adapter version", ProviderIdentity_AdapterVersion (ModelIdentity_Provider model));
      ("provider", ProviderIdentity_Provider (ModelIdentity_Provider model));
      ("provider version", ProviderIdentity_ProviderVersion (ModelIdentity_Provider model));
      ("model", ModelIdentity_Model model);
      ("model revision", ModelIdentity_Revision model) ].

Definition validateOverride (override : ManualOverride) : option PolicyError :=
  validateModel (ManualOverride_Model override) ;?
  if negb (ReasoningEffort_IsValid (ManualOverride_Reasoning override)) then
    Some (ErrInvalidPolicy "override reasoning is invalid")
  else check_fields "override " 512
    [ ("actor", ManualOverride_Actor override);
      ("authority reference", ManualOverride_AuthorityReference override);
      ("reason", ManualOverride_Reason override) ].

(** [for index := range phases { phases[index].Reasoning = r }]. *)
Definition with_reasoning (r : ReasoningEffort) (p : PhaseBehavior) : PhaseBehavior := {|
  PhaseBehavior_Phase := PhaseBehavior_Phase p;
  PhaseBehavior_Reasoning := r;
  PhaseBehavior_MaximumRounds := PhaseBehavior_MaximumRounds p;
  PhaseBehavior_MaximumToolCallsPerRound := PhaseBehavior_MaximumToolCallsPerRound p;
  PhaseBehavior_MayMutateWorkspace := PhaseBehavior_MayMutateWorkspace p;
  PhaseBehavior_RequiresValidationEvidence := PhaseBehavior_RequiresValidationEvidence p |}.

Definition Snapshot_Validate (snapshot : Snapshot) : option PolicyError :=
  if negb (Snapshot_Version snapshot =? FixedBaselineVersion) then
    Some (ErrInvalidPolicy ("unsupported version " +:+ Quote (Snapshot_Version snapshot)))
  else
  validateModel (Snapshot_Model snapshot) ;?
  if negb (ReasoningEffort_IsValid (Snapshot_Reasoning snapshot)) then
    Some (ErrInvalidPolicy "invalid reasoning effort")
  else if negb (bool_decide (Snapshot_Limits snapshot = fixedLimits)) then
    Some (ErrInvalidPolicy ("fixed limits differ from " +:+ FixedBaselineVersion))
  else if negb (bool_decide (Snapshot_BudgetDefaults snapshot = fixedBudgetDefaults)) then
    Some (ErrInvalidPolicy ("fixed budget defaults differ from " +:+ FixedBaselineVersion))
  else if negb (bool_decide (Snapshot_Phases snapshot =
      map (with_reasoning (Snapshot_Reasoning snapshot)) (fixedPhases fixedLimits))) then
    Some (ErrInvalidPolicy ("phase behavior differs from " +:+ FixedBaselineVersion))
  else if Snapshot_Source snapshot =? SelectionSourceFixedBaseline then
    if (match Snapshot_ManualOverride snapshot with Some _ => true | None => false end) ||
       negb (Snapshot_Reasoning snapshot =? ReasoningEffortMaximum) ||
       negb (sameFixedBaselineModel (Snapshot_Model snapshot)) then
      Some (ErrInvalidPolicy "fixed selection was altered")
    else None
  else if Snapshot_Source snapshot =? SelectionSourceManualOverride then
    match Snapshot_ManualOverride snapshot with
    | None => Some (ErrInvalidPolicy "manual selection lacks override evidence")
    | Some override =>
        validateOverride override ;?
        if negb (bool_decide (Snapshot_Model snapshot = ManualOverride_Model override)) ||
           negb (Snapshot_Reasoning snapshot =? ManualOverride_Reasoning override) then
          Some (ErrInvalidPolicy "manual selection differs from override evidence")
        else None
    end
  else Some (ErrInvalidPolicy "unknown selection source").

Definition baseline_snapshot (revision : string) : Snapshot := {|
  Snapshot_Version := FixedBaselineVersion;
  Snapshot_Source := SelectionSourceFixedBaseline;
  Snapshot_Model := fixedBaselineModel revision;
  Snapshot_Reasoning := FixedBaselineReasoning;
  Snapshot_Limits := fixedLimits;
  Snapshot_BudgetDefaults := fixedBudgetDefaults;
  Snapshot_Phases := fixedPhases fixedLimits;
  Snapshot_ManualOverride := None |}.

Definition apply_override (override : ManualOverride) (s : Snapshot) : Snapshot := {|
  Snapshot_Version := Snapshot_Version s;
  Snapshot_Source := SelectionSourceManualOverride;
  Snapshot_Model := ManualOverride_Model override;
  Snapshot_Reasoning := ManualOverride_Reasoning override;
  Snapshot_Limits := Snapshot_Limits s;
  Snapshot_BudgetDefaults := Snapshot_BudgetDefaults s;
  Snapshot_Phases := map (with_reasoning (ManualOverride_Reasoning override)) (Snapshot_Phases s);
  Snapshot_ManualOverride := Some override |}.

Definition Select (input : SelectionInput) : result PolicyError Snapshot :=
  let baselineModel := fixedBaselineModel (SelectionInput_BaselineModelRevision input) in
  validateModel baselineModel ;!
  snapshot ← (let snapshot := baseline_snapshot (SelectionInput_BaselineModelRevision input) in
    match SelectionInput_Override input with
    | None => Ok snapshot
    | Some override => validateOverride override ;! Ok (apply_override override snapshot)
    end);
  Snapshot_Validate snapshot ;! Ok snapshot.

(** ** Budget adjustment *)

Record BudgetAdjustment := {
  BudgetAdjustment_Previous : TaskBudget;
  BudgetAdjustment_Adjusted : TaskBudget;
  BudgetAdjustment_Actor : string;
  BudgetAdjustment_AuthorityReference : string;
  BudgetAdjustment_Reason : string;
}.

Definition AdjustBudgetBeforeApproval (state : TaskState) (current requested : TaskBudget)
    (actor authorityReference reason : string) : result PolicyError BudgetAdjustment :=
  if negb ((state =? TaskStateDraft) || (state =? TaskStateForecasting) ||
           (state =? TaskStateAwaitingPlanApproval)) then Err ErrBudgetAdjustmentTooLate
  else match TaskBudget_Validate current with
  | Some e => Err (ErrInvalidPolicy ("current budget: " +:+ ValueError_Error e))
  | None =>
  match TaskBudget_Validate requested with
  | Some e => Err (ErrInvalidPolicy ("requested budget: " +:+ ValueError_Error e))
  | None =>
  if negb (TaskBudget_ID current =? TaskBudget_ID requested) then
    Err (ErrInvalidPolicy "budget identity cannot change")
  else
    check_fields "adjustment " 512
      [ ("actor", actor); ("authority reference", authorityReference); ("reason", reason) ] ;!
    Ok {| BudgetAdjustment_Previous := current; BudgetAdjustment_Adjusted := requested;
          BudgetAdjustment_Actor := actor;
          BudgetAdjustment_AuthorityReference := authorityReference;
          BudgetAdjustment_Reason := reason |}
  end end.

(** ** Validation and selection agree *)

Ltac cbn_err := cbn [err_guard err_seq mbind result_bind].

Lemma validateOverride_nil o :
  validateOverride o = None ->
  validateModel (ManualOverride_Model o) = None /\
  ReasoningEffort_IsValid (ManualOverride_Reasoning o) = true.
Proof.
  unfold validateOverride. intros [? H]%err_seq_None.
  destruct (ReasoningEffort_IsValid _); [done|discriminate].
Qed.

Lemma sameFixedBaselineModel_spec m :
  sameFixedBaselineModel m = true <-> m = fixedBaselineModel (ModelIdentity_Revision m).
Proof.
  destruct m as [[a av p pv] mo r]. unfold sameFixedBaselineModel, fixedBaselineModel. cbn.
  to_prop. split; [by intros [[[[-> ->] ->] ->] ->]|by intros [= -> -> -> -> ->]].
Qed.

(** The checks every snapshot passes, whatever its source. *)
Definition common_checks (s : Snapshot) : Prop :=
  Snapshot_Version s = FixedBaselineVersion /\
  validateModel (Snapshot_Model s) = None /\
  ReasoningEffort_IsValid (Snapshot_Reasoning s) = true /\
  Snapshot_Limits s = fixedLimits /\
  Snapshot_BudgetDefaults s = fixedBudgetDefaults /\
  Snapshot_Phases s = map (with_reasoning (Snapshot_Reasoning s)) (fixedPhases fixedLimits).

Lemma Snapshot_Validate_nil s :
  Snapshot_Validate s = None <->
  common_checks s /\
  ((Snapshot_Source s = SelectionSourceFixedBaseline /\ Snapshot_ManualOverride s = None /\
    Snapshot_Reasoning s = ReasoningEffortMaximum /\
    Snapshot_Model s = fixedBaselineModel (ModelIdentity_Revision (Snapshot_Model s))) \/
   (Snapshot_Source s = SelectionSourceManualOverride /\
    exists o, Snapshot_ManualOverride s = Some o /\ validateOverride o = None /\
      Snapshot_Model s = ManualOverride_Model o /\
      Snapshot_Reasoning s = ManualOverride_Reasoning o)).
Proof.
  unfold Snapshot_Validate, common_checks.
  rewrite <- sameFixedBaselineModel_spec.
  destruct (String.eqb_spec (Snapshot_Version s) FixedBaselineVersion); cbn [negb];
    [|split; [discriminate|tauto]].
  rewrite err_seq_None.
  destruct (ReasoningEffort_IsValid (Snapshot_Reasoning s)); cbn [negb];
    [|split; [by intros [_ [=]]|intuition congruence]].
  repeat (case_bool_decide; cbn [negb]; [|split; [by intros [_ [=]]|tauto]]).
  destruct (String.eqb_spec (Snapshot_Source s) SelectionSourceFixedBaseline) as [Hs|Hs].
  - rewrite Hs. destruct (Snapshot_ManualOverride s); cbn [orb].
    { split; [by intros [_ [=]]|]. intros [_ [(_ & [=] & _)|([=] & _)]]. }
    destruct (String.eqb_spec (Snapshot_Reasoning s) ReasoningEffortMaximum); cbn [negb orb];
      [|split; [by intros [_ [=]]|]; intros [_ [(_ & _ & ? & _)|([=] & _)]]; done].
    destruct (sameFixedBaselineModel _); cbn [negb];
      [|split; [by intros [_ [=]]|]; intros [_ [(_ & _ & _ & [=])|([=] & _)]]].
    split; [|tauto]. intros [? _]. split_and!; auto.
  - destruct (String.eqb_spec (Snapshot_Source s) SelectionSourceManualOverride) as [Hm|Hm];
      [|split; [by intros [_ [=]]|intros [_ [[? _]|[? _]]]; done]].
    destruct (Snapshot_ManualOverride s) as [o|];
      [|split; [by intros [_ [=]]|intros [_ [[? _]|(_ & ? & [=] & _)]]; done]].
    rewrite err_seq_None. case_bool_decide; cbn [negb orb];
      [|split; [by intros (_ & _ & [=])|]; intros [_ [[? _]|(_ & ? & [= <-] & _ & ? & _)]]; done].
    destruct (String.eqb_spec (Snapshot_Reasoning s) (ManualOverride_Reasoning o)); cbn [negb];
      [|split; [by intros (_ & _ & [=])|]; intros [_ [[? _]|(_ & ? & [= <-] & _ & _ & ?)]]; done].
    split.
    + intros (? & ? & _). split; [by split_and!|]. right. split; [done|]. by exists o.
    + intros ((_ & ? & _) & [[? _]|(_ & ? & [= <-] & ? & _)]); done.
Qed.

Lemma baseline_snapshot_valid r :
  validateModel (fixedBaselineModel r) = None -> Snapshot_Validate (baseline_snapshot r) = None.
Proof.
  intros Hm. apply Snapshot_Validate_nil. split; [by split_and!|]. left. by split_and!.
Qed.

Lemma apply_override_valid r o :
  validateOverride o = None -> Snapshot_Validate (apply_override o (baseline_snapshot r)) = None.
Proof.
  intros Ho. pose proof (validateOverride_nil o Ho) as [Hm Hr].
  apply Snapshot_Validate_nil. split; [by split_and!|]. right. split; [done|]. by exists o.
Qed.

(** Selection never fails at its own final check: [Select] refuses its
    input only when the baseline model is malformed or the override is, and
    otherwise returns the frozen baseline, or the baseline with the override's
    model and reasoning in every phase and the override recorded. *)
Theorem Select_characterized (input : SelectionInput) :
  Select input =
    (validateModel (fixedBaselineModel (SelectionInput_BaselineModelRevision input)) ;!
     match SelectionInput_Override input with
     | None => Ok (baseline_snapshot (SelectionInput_BaselineModelRevision input))
     | Some o => validateOverride o ;!
         Ok (apply_override o (baseline_snapshot (SelectionInput_BaselineModelRevision input)))
     end).
Proof.
  unfold Select. destruct (validateModel _) eqn:Hm; cbn_err; [done|].
  destruct (SelectionInput_Override input) as [o|]; cbn_err.
  - destruct (validateOverride o) eqn:Ho; cbn_err; [done|]. by rewrite apply_override_valid.
  - by rewrite baseline_snapshot_valid.
Qed.

(** Snapshot validation means what it says: a snapshot passes [Validate]
    exactly when it is the output of [Select] on some input, so a persisted
    snapshot that was altered in any field is refused. *)
Theorem Snapshot_Validate_iff_selected (s : Snapshot) :
  Snapshot_Validate s = None <-> exists input, Select input = Ok s.
Proof.
  split.
  - intros Hv. apply Snapshot_Validate_nil in Hv as [(Hver & Hmod & Hr & Hl & Hb & Hp) Hsrc].
    destruct Hsrc as [(Hs & Hmo & Hre & Hm)|(Hs & o & Hmo & Ho & Hm & Hre)].
    + exists {| SelectionInput_BaselineModelRevision := ModelIdentity_Revision (Snapshot_Model s);
                SelectionInput_Override := None |}.
      unfold Select. cbn_err. cbn [SelectionInput_BaselineModelRevision SelectionInput_Override].
      rewrite <- Hm, Hmod. cbn_err.
      rewrite baseline_snapshot_valid by (by rewrite <- Hm).
      destruct s; cbn in *; subst. unfold baseline_snapshot. by rewrite <- Hm.
    + exists {| SelectionInput_BaselineModelRevision := "r"; SelectionInput_Override := Some o |}.
      unfold Select. cbn_err. cbn [SelectionInput_BaselineModelRevision SelectionInput_Override].
      change (validateModel (fixedBaselineModel "r")) with (@None PolicyError).
      cbn_err. rewrite Ho. cbn_err. rewrite apply_override_valid by done. cbn_err.
      destruct s; cbn in *; subst. done.
  - intros [input H]. unfold Select in H. apply err_guard_Ok in H as [_ H].
    apply bind_Ok in H as (s' & _ & H). apply err_guard_Ok in H as [? [= <-]]. done.
Qed.

(** A budget is replaced only before approval: the adjustment succeeds
    exactly in the draft, forecasting and awaiting-plan-approval states, with
    both budgets valid, the identity unchanged, and the actor, authority
    reference and reason each non-empty, trimmed and at most 512 bytes; it
    then records both budgets and the attribution unchanged. *)
Theorem AdjustBudgetBeforeApproval_spec (state : TaskState) (current requested : TaskBudget)
    (actor authority reason : string) (adj : BudgetAdjustment) :
  AdjustBudgetBeforeApproval state current requested actor authority reason = Ok adj <->
  state ∈ [TaskStateDraft; TaskStateForecasting; TaskStateAwaitingPlanApproval] /\
  TaskBudget_Validate current = None /\ TaskBudget_Validate requested = None /\
  TaskBudget_ID current = TaskBudget_ID requested /\
  Forall (fun v => trimmed_bounded 512 v = true) [actor; authority; reason] /\
  adj = {| BudgetAdjustment_Previous := current; BudgetAdjustment_Adjusted := requested;
           BudgetAdjustment_Actor := actor; BudgetAdjustment_AuthorityReference := authority;
           BudgetAdjustment_Reason := reason |}.
Proof.
  unfold AdjustBudgetBeforeApproval, check_fields.
  rewrite !elem_of_cons, elem_of_nil, !Forall_cons, Forall_nil.
  destruct (String.eqb_spec state TaskStateDraft),
    (String.eqb_spec state TaskStateForecasting),
    (String.eqb_spec state TaskStateAwaitingPlanApproval); cbn [orb negb];
    try (split; [discriminate|intros [? _]; tauto]);
  (destruct (TaskBudget_Validate current); [split; [discriminate|intuition congruence]|]);
  (destruct (TaskBudget_Validate requested); [split; [discriminate|intuition congruence]|]);
  (destruct (String.eqb_spec (TaskBudget_ID current) (TaskBudget_ID requested));
    cbn [negb]; [|split; [discriminate|tauto]]);
  destruct (trimmed_bounded 512 actor), (trimmed_bounded 512 authority),
    (trimmed_bounded 512 reason); cbn [err_guard];
  (split; [intros [= <-]; tauto|intuition congruence]).
Qed.
