(* ===== verification/Stages.v ===== *)
(** * The stages and phases of the flow
    (src/internal/pipeline/stages.go, phases.go)

    The ordered list of stages a requirement passes through, the closed set of
    stage outcomes, and the partition of the flow into phases. A stage number
    is a Go [int]; a state and a phase are Go string types. *)

From S2P Require Import Prelude GoText.
Open Scope string_scope.
Open Scope list_scope.

Abbreviation Number := Z.

Definition StageInstructions : Number := 1.
Definition StageClarification : Number := 2.
Definition StageAtomicInstructions : Number := 3.
Definition StageDecompositionCover : Number := 4.
Definition StageContracts : Number := 5.
Definition StageRecall : Number := 6.
Definition StageAtomCaseSynthesis : Number := 7.
Definition StageAtomExampleTests : Number := 8.
Definition StageAtomPropertyTests : Number := 9.
Definition StageAtoms : Number := 10.
Definition StageAtomVerification : Number := 11.
Definition StageAtomFuzz : Number := 12.
Definition StageAtomMutation : Number := 13.
Definition StageAntiPatterns : Number := 14.
Definition StageAtomOptimization : Number := 15.
Definition StageAtomComplexity : Number := 16.
Definition StageAtomDocumentation : Number := 17.
Definition StageCompositionObligations : Number := 18.
Definition StageMoleculeTests : Number := 19.
Definition StageMolecules : Number := 20.
Definition StageMoleculeVerification : Number := 21.
Definition StageControlObligations : Number := 22.
Definition StageControlTests : Number := 23.
Definition StageControlFlow : Number := 24.
Definition StagePathCoverage : Number := 25.
Definition StageAssembly : Number := 26.
Definition StageProgram : Number := 27.
Definition StageIntegrationTests : Number := 28.
Definition StageEndToEndTests : Number := 29.
Definition StageGlobalInvariants : Number := 30.
Definition StageAdversarial : Number := 31.
Definition StageRepetition : Number := 32.
Definition StagePlatformMatrix : Number := 33.
Definition StageNonFunctional : Number := 34.
Definition StageEvidenceBundle : Number := 35.
Definition StageHumanAcceptance : Number := 36.
Definition StageDeliver : Number := 37.
Definition StageAcceptanceOracle : Number := 38.
Definition StageSkipAudit : Number := 39.
Definition StageAtomRegistration : Number := 40.
Definition StageMoleculeRegistration : Number := 41.

Abbreviation State := string.
Definition StateSatisfied : State := "satisfied".
Definition StateFailed : State := "failed".
Definition StateSkipped : State := "skipped".
Definition StateBlocked : State := "blocked".
Definition StateNotImplemented : State := "not-implemented".

Record Stage := {
  Stage_Number : Number;
  Stage_Name : string;
  Stage_Gate : string;
}.

Definition mkStage (number : Number) (name gate : string) : Stage :=
  {| Stage_Number := number; Stage_Name := name; Stage_Gate := gate |}.

Definition Flow : list Stage :=
  [ mkStage StageInstructions "instructions"
      "the request is recorded with at least one executable acceptance example";
    mkStage StageClarification "clarification"
      "no material ambiguity is left unresolved: it was asked about or a bounded reading was stated";
    mkStage StageAtomicInstructions "atomic-instructions"
      "the request is split into single-purpose units, each citing the part of the request it comes from";
    mkStage StageDecompositionCover "decomposition-coverage"
      "every acceptance criterion is covered by at least one unit and no unit exists without a criterion";
    mkStage StageContracts "contracts"
      "each unit has a signature, types, preconditions, postconditions, declared effects, and error cases";
    mkStage StageRecall "recall"
      "each contract is matched against already-known atoms and reused rather than rebuilt where one fits";
    mkStage StageAtomCaseSynthesis "atom-case-synthesis"
      "each atom has a ladder of inputs derived from its signature — straightforward, degenerate, edge, complex, wrong, and pathological — and every one is tried by a test asserting what that class of input demands";
    mkStage StageAtomExampleTests "atom-example-tests"
      "tests written from the contract, before the atom, that fail against a stub";
    mkStage StageAtomPropertyTests "atom-property-tests"
      "at least one property over generated inputs for each postcondition";
    mkStage StageAtoms "atoms"
      "each atom satisfies its contract and reads nothing outside its arguments";
    mkStage StageAtomVerification "atom-verification"
      "every atom test passes, repeated with recorded seeds";
    mkStage StageAtomFuzz "atom-fuzz"
      "every parsing boundary is fuzzed without panic or hang";
    mkStage StageAtomMutation "atom-mutation"
      "the mutation score meets its threshold, so the tests are known to detect defects";
    mkStage StageAntiPatterns "anti-patterns"
      "the produced source contains no swallowed error, package-level mutable state, unchecked type assertion, panic outside main, shadowed name, untyped parameter, flag argument, or body nested past following";
    mkStage StageAtomOptimization "atom-optimization"
      "the atom is rewritten to be simpler where it can be, and every test that passed before still passes with an unchanged result";
    mkStage StageAtomComplexity "atom-complexity"
      "the shipped atom carries a time and space bound that its structure implies and that measured growth across input sizes agrees with";
    mkStage StageAtomDocumentation "atom-documentation"
      "each verified atom carries its purpose, inputs, outputs, and the algorithm it uses, with the metadata a later run needs to find and reuse it";
    mkStage StageCompositionObligations "composition-obligations"
      "each composition raises a durable obligation stating what joining its parts must guarantee";
    mkStage StageMoleculeTests "molecule-tests"
      "tests written from the obligations, before the molecule, that fail against a stub";
    mkStage StageMolecules "molecules"
      "each molecule composes its atoms leaving no obligation unclosed";
    mkStage StageMoleculeVerification "molecule-verification"
      "every composition obligation is discharged by name, or the ones left open are named";
    mkStage StageControlObligations "control-obligations"
      "each function that declares a path raises a durable obligation stating what every path through it must do";
    mkStage StageControlTests "control-tests"
      "every function that declares a path is reached by a test, so no branching function is left unexamined";
    mkStage StageControlFlow "control-flow"
      "every control obligation is discharged by name, or the ones left open are named";
    mkStage StagePathCoverage "path-coverage"
      "branch coverage is measured against its threshold rather than assumed";
    mkStage StageAssembly "assembly"
      "the pieces are wired into a module that compiles, checked before anything is run";
    mkStage StageProgram "program"
      "a build artifact exists";
    mkStage StageIntegrationTests "integration-tests"
      "components are exercised together, with nothing mocked";
    mkStage StageEndToEndTests "end-to-end-tests"
      "the built executable reproduces every acceptance example exactly";
    mkStage StageGlobalInvariants "global-invariants"
      "properties that span the whole program hold across every run";
    mkStage StageAdversarial "adversarial"
      "hostile input produces no violation and no sensitive value reaches the output";
    mkStage StageRepetition "repetition"
      "the suite is run repeatedly with recorded seeds and does not flake";
    mkStage StagePlatformMatrix "platform-matrix"
      "every platform the program claims is answered: the host by running its suite, a cross target only by compiling, because this host cannot execute it";
    mkStage StageNonFunctional "non-functional"
      "the suite's duration is within tolerance of this repository's recorded baseline, measured on the same host";
    mkStage StageEvidenceBundle "evidence-bundle"
      "every claim links to the artifact and test supporting it, and what was not checked is stated";
    mkStage StageHumanAcceptance "human-acceptance"
      "a person accepted the work, rejected it, or asked for a change";
    mkStage StageDeliver "deliver"
      "the accepted change, its evidence, and its provenance are handed over";
    mkStage StageAcceptanceOracle "acceptance-oracle"
      "every declared acceptance example fails when run against the repository before this run's own work, so the examples are shown to discriminate rather than being satisfiable by anything";
    mkStage StageSkipAudit "skip-audit"
      "every stage this run recorded skipped or not-implemented is classified as a principled decline, a decision with no check by design, or an unimplemented gap, and the resulting ratio is reported as this run's headline figure";
    mkStage StageAtomRegistration "atom-registration"
      "each verified atom that carries schema-v1 documentation is written to the durable atom registry with its documentation, contract hash, and the exact repository revision it was verified at";
    mkStage StageMoleculeRegistration "molecule-registration"
      "each verified molecule that carries schema-v1 documentation is written to the durable atom registry on the same terms as an atom, additionally naming the atoms it composes as its parts" ].

(** The loop of [StageByNumber] over the flow. *)
Fixpoint find_stage (stages : list Stage) (number : Number) : option Stage :=
  match stages with
  | [] => None
  | stage :: rest =>
      if (Stage_Number stage =? number)%Z then Some stage else find_stage rest number
  end.

Definition StageByNumber (number : Number) : option Stage := find_stage Flow number.

Definition State_Valid (value : State) : bool :=
  (value =? StateSatisfied) || (value =? StateFailed) || (value =? StateSkipped) ||
  (value =? StateBlocked) || (value =? StateNotImplemented).

(** ** Phases *)

Abbreviation Phase := string.
Definition PhaseSpecification : Phase := "specification".
Definition PhaseAtoms : Phase := "atoms".
Definition PhaseMolecules : Phase := "molecules".
Definition PhaseControlFlow : Phase := "control-flow".
Definition PhaseProgram : Phase := "program".
Definition PhaseVerification : Phase := "verification".
Definition PhaseDelivery : Phase := "delivery".

Definition Phases : list Phase :=
  [ PhaseSpecification; PhaseAtoms; PhaseMolecules; PhaseControlFlow;
    PhaseProgram; PhaseVerification; PhaseDelivery ].

Definition phaseBounds : list (Number * Phase) :=
  [ (StageRecall, PhaseSpecification);
    (StageAtomDocumentation, PhaseAtoms);
    (StageMoleculeVerification, PhaseMolecules);
    (StagePathCoverage, PhaseControlFlow);
    (StageEndToEndTests, PhaseProgram);
    (StageNonFunctional, PhaseVerification);
    (StageMoleculeRegistration, PhaseDelivery) ].

(** The loop of [PhaseOf] over the bounds. *)
Fixpoint find_phase (bounds : list (Number * Phase)) (stage : Number) : option Phase :=
  match bounds with
  | [] => None
  | (last, phase) :: rest => if (stage <=? last)%Z then Some phase else find_phase rest stage
  end.

Definition PhaseOf (stage : Number) : option Phase :=
  if (stage <? StageInstructions)%Z then None else find_phase phaseBounds stage.

Definition Phase_Valid (phase : Phase) : bool := existsb (String.eqb phase) Phases.

(** ** The flow is totally ordered and every stage has a phase *)

Lemma find_stage_spec stages n s :
  find_stage stages n = Some s -> s ∈ stages /\ Stage_Number s = n.
Proof.
  induction stages as [|x rest IH]; simpl; [discriminate|].
  destruct (Z.eqb_spec (Stage_Number x) n) as [<-|]; [intros [= <-]|intros ?%IH]; set_solver.
Qed.

Lemma find_stage_is_Some stages n :
  is_Some (find_stage stages n) <-> n ∈ map Stage_Number stages.
Proof.
  induction stages as [|x rest IH]; simpl; [rewrite elem_of_nil; by split; [intros [? [=]]|]|].
  rewrite elem_of_cons.
  destruct (Z.eqb_spec (Stage_Number x) n) as [<-|]; [|naive_solver].
  split; [by left|by eexists].
Qed.

(** The last stage of the flow. *)
Definition flow_size : Z := 41.

Lemma flow_numbers : map Stage_Number Flow = seqZ 1 flow_size.
Proof. vm_compute. reflexivity. Qed.

Lemma elem_of_flow n : n ∈ map Stage_Number Flow <-> (1 <= n <= flow_size)%Z.
Proof. rewrite flow_numbers, elem_of_seqZ. unfold flow_size. lia. Qed.

(** A property of every stage number, by evaluation. *)
Lemma forall_stages (P : Number -> bool) n :
  forallb P (seqZ 1 flow_size) = true -> (1 <= n <= flow_size)%Z -> P n = true.
Proof.
  rewrite forallb_forall. intros H Hn. apply H, list_elem_of_In, elem_of_seqZ.
  unfold flow_size in *. lia.
Qed.

Lemma StageByNumber_flow n : is_Some (StageByNumber n) <-> (1 <= n <= flow_size)%Z.
Proof. unfold StageByNumber. by rewrite find_stage_is_Some, elem_of_flow. Qed.

Lemma find_phase_bound bounds n p :
  find_phase bounds n = Some p -> exists last, (last, p) ∈ bounds /\ (n <= last)%Z.
Proof.
  induction bounds as [|[last q] rest IH]; simpl; [discriminate|].
  destruct (Z.leb_spec n last); [intros [= ->]|intros (l & ? & ?)%IH];
    eexists; (split; [|eassumption]); set_solver.
Qed.

Lemma PhaseOf_flow n : is_Some (PhaseOf n) <-> (1 <= n <= flow_size)%Z.
Proof.
  split.
  - intros [p Hp]. unfold PhaseOf in Hp.
    destruct (Z.ltb_spec n StageInstructions) as [|Hlow]; [discriminate|].
    apply find_phase_bound in Hp as (last & Hin & Hle).
    assert (Hall : Forall (fun b : Number * Phase => (b.1 <= flow_size)%Z) phaseBounds)
      by by_computation.
    rewrite Forall_forall in Hall. specialize (Hall _ Hin). simpl in Hall.
    unfold StageInstructions in Hlow. lia.
  - intros Hn.
    assert (Hc : forallb (fun n => match PhaseOf n with Some _ => true | None => false end)
      (seqZ 1 flow_size) = true) by (vm_compute; reflexivity).
    pose proof (forall_stages _ n Hc Hn) as H. cbv beta in H.
    destruct (PhaseOf n); [by eexists|discriminate].
Qed.

(** The position of a phase among [Phases]. *)
Definition phase_index (p : Phase) : nat :=
  match list_find (p =.) Phases with Some (i, _) => i | None => length Phases end.

(** The flow is one gapless sequence, as its ledger assumes: the stages
    are numbered 1 to 41 in list order with distinct names; a number names a
    stage, and has a phase, exactly when it is in that range; a stage found by
    number has that number; and phases follow the order of [Phases] along the
    flow. *)
Theorem flow_totally_ordered :
  map Stage_Number Flow = seqZ 1 41 /\
  NoDup (map Stage_Name Flow) /\
  (forall n, is_Some (StageByNumber n) <-> (1 <= n <= 41)%Z) /\
  (forall n, is_Some (PhaseOf n) <-> (1 <= n <= 41)%Z) /\
  (forall n s, StageByNumber n = Some s -> s ∈ Flow /\ Stage_Number s = n) /\
  (forall n m p q, PhaseOf n = Some p -> PhaseOf m = Some q -> (n <= m)%Z ->
     Phase_Valid p = true /\ (phase_index p <= phase_index q)%nat).
Proof.
  split_and!.
  - exact flow_numbers.
  - by_computation.
  - exact StageByNumber_flow.
  - exact PhaseOf_flow.
  - intros n s. apply find_stage_spec.
  - intros n m p q Hn Hm Hle.
    assert (H1 : (1 <= n <= flow_size)%Z) by (apply PhaseOf_flow; eauto).
    assert (H2 : (1 <= m <= flow_size)%Z) by (apply PhaseOf_flow; eauto).
    assert (Hc : forallb (fun n => forallb (fun m =>
      match PhaseOf n, PhaseOf m with
      | Some p, Some q => implb (n <=? m)%Z (Phase_Valid p && (phase_index p <=? phase_index q)%nat)
      | _, _ => false end) (seqZ 1 flow_size)) (seqZ 1 flow_size) = true)
      by (vm_compute; reflexivity).
    pose proof (forall_stages _ m (forall_stages _ n Hc H1) H2) as Hnm. cbv beta in Hnm.
    rewrite Hn, Hm, (proj2 (Z.leb_le n m) Hle) in Hnm. cbn [implb] in Hnm.
    apply andb_true_iff in Hnm as [Hv Hi%Nat.leb_le]. split; assumption.
Qed.
