(* ===== verification/Requirements.v ===== *)
(** * The dependency table of the flow (src/internal/pipeline/requirements.go)

    The declared requirement of every stage, the validator of a table, its
    depth-first search for a cycle and its breadth-first search for stages no
    root reaches. Findings are the source's messages. The depth-first search
    takes fuel for its depth and the breadth-first one for its queue; [None]
    is running out, and the theorems show the fuel given is enough. *)

From S2P Require Import Prelude GoText Stages.
Open Scope string_scope.
Open Scope list_scope.

Record Requirement := {
  Requirement_Stage : Number;
  Requirement_Requires : list Number;
}.

Definition mkRequirement (stage : Number) (requires : list Number) : Requirement :=
  {| Requirement_Stage := stage; Requirement_Requires := requires |}.

(** Phase A: intake and specification. *)
Definition requirementsPhaseA : list Requirement :=
  [ mkRequirement StageInstructions [];
    mkRequirement StageClarification [StageInstructions];
    mkRequirement StageAtomicInstructions [StageClarification];
    mkRequirement StageDecompositionCover [StageAtomicInstructions];
    mkRequirement StageContracts [StageDecompositionCover];
    mkRequirement StageRecall [StageContracts] ].

(** Phase B: atoms. *)
Definition requirementsPhaseB : list Requirement :=
  [ mkRequirement StageAtomCaseSynthesis [StageContracts];
    mkRequirement StageAtomExampleTests [StageAtomCaseSynthesis];
    mkRequirement StageAtomPropertyTests [StageContracts];
    mkRequirement StageAtoms [StageAtomExampleTests; StageAtomPropertyTests];
    mkRequirement StageAtomVerification [StageAtoms; StageAtomExampleTests; StageAtomPropertyTests];
    mkRequirement StageAtomFuzz [StageAtoms];
    mkRequirement StageAtomMutation [StageAtomVerification];
    mkRequirement StageAntiPatterns [StageAtomVerification];
    mkRequirement StageAtomOptimization [StageAtomMutation];
    mkRequirement StageAtomComplexity [StageAtomOptimization];
    mkRequirement StageAtomDocumentation [StageAtomVerification; StageAtomFuzz; StageAtomMutation; StageAtomOptimization; StageAtomComplexity] ].

(** Phase C: molecules. *)
Definition requirementsPhaseC : list Requirement :=
  [ mkRequirement StageCompositionObligations [StageAtomVerification];
    mkRequirement StageMoleculeTests [StageCompositionObligations];
    mkRequirement StageMolecules [StageMoleculeTests];
    mkRequirement StageMoleculeVerification [StageMolecules; StageCompositionObligations] ].

(** Phase D: control flow. *)
Definition requirementsPhaseD : list Requirement :=
  [ mkRequirement StageControlObligations [StageMoleculeVerification];
    mkRequirement StageControlTests [StageControlObligations];
    mkRequirement StageControlFlow [StageControlTests];
    mkRequirement StagePathCoverage [StageAtomExampleTests] ].

(** Phase E: the program. *)
Definition requirementsPhaseE : list Requirement :=
  [ mkRequirement StageAssembly [StageControlFlow];
    mkRequirement StageProgram [StageAssembly];
    mkRequirement StageIntegrationTests [StageProgram];
    mkRequirement StageEndToEndTests [StageProgram; StageInstructions] ].

(** Phase F: verification depth. *)
Definition requirementsPhaseF : list Requirement :=
  [ mkRequirement StageGlobalInvariants [StageProgram];
    mkRequirement StageAdversarial [StageProgram];
    mkRequirement StageRepetition [StageIntegrationTests; StageEndToEndTests];
    mkRequirement StagePlatformMatrix [StageProgram];
    mkRequirement StageNonFunctional [StageIntegrationTests; StageEndToEndTests] ].

(** Phase G: delivery. *)
Definition requirementsPhaseG : list Requirement :=
  [ mkRequirement StageEvidenceBundle [StageGlobalInvariants; StageAdversarial; StageRepetition; StagePlatformMatrix; StageNonFunctional];
    mkRequirement StageHumanAcceptance [StageEvidenceBundle];
    mkRequirement StageDeliver [StageHumanAcceptance; StageEvidenceBundle];
    mkRequirement StageAcceptanceOracle [StageInstructions];
    mkRequirement StageSkipAudit [StageHumanAcceptance; StageDeliver];
    mkRequirement StageAtomRegistration [StageAtomDocumentation];
    mkRequirement StageMoleculeRegistration [StageMoleculeVerification; StageAtomRegistration] ].

Definition Requirements : list Requirement :=
  requirementsPhaseA ++ requirementsPhaseB ++ requirementsPhaseC ++ requirementsPhaseD ++
  requirementsPhaseE ++ requirementsPhaseF ++ requirementsPhaseG.

Fixpoint find_requirement (requirements : list Requirement) (stage : Number)
    : option Requirement :=
  match requirements with
  | [] => None
  | requirement :: rest =>
      if (Requirement_Stage requirement =? stage)%Z then Some requirement
      else find_requirement rest stage
  end.

Definition RequirementFor (stage : Number) : option Requirement :=
  find_requirement Requirements stage.

(** [bound[x]++] over a slice: how often each number occurs. *)
Definition count_bound (l : list Number) : gmap Number Z :=
  fold_left (fun bound x => <[x := (default 0 (bound !! x) + 1)%Z]> bound) l ∅.

(** The map a loop [m[r.Stage] = r.Requires] builds: the last entry wins. *)
Definition by_stage (requirements : list Requirement) : gmap Number (list Number) :=
  fold_left (fun m r => <[Requirement_Stage r := Requirement_Requires r]> m) requirements ∅.

Definition requires_of (m : gmap Number (list Number)) (stage : Number) : list Number :=
  default [] (m !! stage).

Definition declared_stages (requirements : list Requirement) : gset Number :=
  list_to_set (map Requirement_Stage requirements).

Definition flow_stages : gset Number := list_to_set (map Stage_Number Flow).

Definition validateRequirementsCoverFlow (requirements : list Requirement) : list string :=
  let bound := count_bound (map Requirement_Stage requirements) in
  flat_map (fun stage =>
      let n := default 0%Z (bound !! Stage_Number stage) in
      if (n =? 1)%Z then []
      else if (n =? 0)%Z then
        [ "stage " +:+ fmt_d (Stage_Number stage) +:+ " (" +:+ Stage_Name stage +:+
          ") has no entry in Requirements, so its dependencies are undeclared" ]
      else
        [ "stage " +:+ fmt_d (Stage_Number stage) +:+ " (" +:+ Stage_Name stage +:+
          ") is bound " +:+ fmt_d n +:+ " times in Requirements" ]) Flow ++
  flat_map (fun requirement =>
      if bool_decide (Requirement_Stage requirement ∈ flow_stages) then []
      else [ "Requirements binds stage " +:+ fmt_d (Requirement_Stage requirement) +:+
             ", which is not in the flow" ]) requirements.

Definition validateRequirementsNameKnownStages (requirements : list Requirement)
    : list string :=
  flat_map (fun requirement =>
    flat_map (fun dependency =>
      if bool_decide (dependency ∈ flow_stages) then []
      else [ "stage " +:+ fmt_d (Requirement_Stage requirement) +:+ " requires stage " +:+
             fmt_d dependency +:+ ", which is not in the flow" ])
      (Requirement_Requires requirement)) requirements.

Definition validateRequirementsDoNotPointForward (requirements : list Requirement)
    : list string :=
  flat_map (fun requirement =>
    flat_map (fun dependency =>
      if (Requirement_Stage requirement <=? dependency)%Z then
        [ "stage " +:+ fmt_d (Requirement_Stage requirement) +:+ " requires stage " +:+
          fmt_d dependency +:+ ", which is not earlier in the flow" ]
      else []) (Requirement_Requires requirement)) requirements.

(** ** The search for a cycle *)

Inductive mark := unvisited | inProgress | finished.

#[export] Instance mark_eq_dec : EqDecision mark.
Proof. solve_decision. Defined.

(** The variables the closure [visit] captures. *)
Record search := {
  search_state : gmap Number mark;
  search_path : list Number;
  search_cycle : list Number;
}.

Definition state_of (s : search) (x : Number) : mark := default unvisited (search_state s !! x).

Definition set_state (s : search) (x : Number) (m : mark) : search :=
  {| search_state := <[x := m]> (search_state s); search_path := search_path s;
     search_cycle := search_cycle s |}.

Definition push_path (s : search) (x : Number) : search :=
  {| search_state := search_state s; search_path := search_path s ++ [x];
     search_cycle := search_cycle s |}.

Definition pop_path (s : search) : search :=
  {| search_state := search_state s; search_path := removelast (search_path s);
     search_cycle := search_cycle s |}.

(** The suffix [path[start:]], where [start] is the first index holding the
    stage, or 0 when there is none. *)
Definition path_from (path : list Number) (x : Number) : list Number :=
  match list_find (eq x) path with Some (i, _) => drop i path | None => path end.

Section Visit.
Context (byStage : gmap Number (list Number)) (declared : gset Number).

Section Deps.
Context (visit : Number -> search -> option (bool * search)).

(** The loop over the requirements of one stage; [true] is a cycle found. *)
Fixpoint visit_deps (deps : list Number) (s : search) : option (bool * search) :=
  match deps with
  | [] => Some (false, s)
  | dependency :: rest =>
      if bool_decide (dependency ∉ declared) then visit_deps rest s
      else match state_of s dependency with
      | unvisited =>
          match visit dependency s with
          | None => None
          | Some (true, s') => Some (true, s')
          | Some (false, s') => visit_deps rest s'
          end
      | inProgress =>
          Some (true, {| search_state := search_state s; search_path := search_path s;
            search_cycle := search_cycle s ++ path_from (search_path s) dependency ++
                            [dependency] |})
      | finished => visit_deps rest s
      end
  end.
End Deps.

Fixpoint visit (fuel : nat) (stage : Number) (s : search) : option (bool * search) :=
  match fuel with
  | O => None
  | S fuel =>
      match visit_deps (visit fuel) (requires_of byStage stage)
              (push_path (set_state s stage inProgress) stage) with
      | Some (false, s) => Some (false, set_state (pop_path s) stage finished)
      | other => other
      end
  end.

(** The loop over the flow: the cycle found, if any. *)
Fixpoint visit_flow (fuel : nat) (stages : list Number) (s : search) : option (list Number) :=
  match stages with
  | [] => Some []
  | stage :: rest =>
      if bool_decide (stage ∉ declared) then visit_flow fuel rest s
      else match state_of s stage with
      | unvisited =>
          match visit fuel stage s with
          | None => None
          | Some (true, s') => Some (search_cycle s')
          | Some (false, s') => visit_flow fuel rest s'
          end
      | _ => visit_flow fuel rest s
      end
  end.
End Visit.

Definition requirementsCycle (requirements : list Requirement) : option (list Number) :=
  visit_flow (by_stage requirements) (declared_stages requirements)
    (S (length requirements)) (map Stage_Number Flow)
    {| search_state := ∅; search_path := []; search_cycle := [] |}.

Definition describe_stage (number : Number) : string :=
  match StageByNumber number with
  | Some stage => fmt_d number +:+ "(" +:+ Stage_Name stage +:+ ")"
  | None => fmt_d number
  end.

Definition validateRequirementsAreAcyclic (requirements : list Requirement) : option (list string) :=
  cycle ← requirementsCycle requirements;
  match cycle with
  | [] => Some []
  | _ => Some [ "the declared requirements contain a cycle: " +:+
                Join (map describe_stage cycle) " -> " ]
  end.

(** ** The search for unreachable stages *)

Definition roots_of (requirements : list Requirement) : list Number :=
  map Requirement_Stage (List.filter (fun r =>
    match Requirement_Requires r with [] => true | _ => false end) requirements).

Definition successors_of (requirements : list Requirement) : gmap Number (list Number) :=
  let declared := declared_stages requirements in
  fold_left (fun successors r =>
    fold_left (fun (successors : gmap Number (list Number)) dependency =>
      if bool_decide (dependency ∉ declared) then successors
      else <[dependency := default [] (successors !! dependency) ++ [Requirement_Stage r]]>
             successors)
      (Requirement_Requires r) successors) requirements ∅.

(** One dequeued stage: its unseen successors are marked and enqueued. *)
Definition expand (successors : gmap Number (list Number)) (current : Number)
    (visited : gset Number) (queue : list Number) : gset Number * list Number :=
  fold_left (fun '(visited, queue) next =>
    if bool_decide (next ∈ visited) then (visited, queue)
    else ({[next]} ∪ visited, queue ++ [next]))
    (requires_of successors current) (visited, queue).

Fixpoint bfs (fuel : nat) (successors : gmap Number (list Number))
    (visited : gset Number) (queue : list Number) : option (gset Number) :=
  match queue with
  | [] => Some visited
  | current :: queue =>
      match fuel with
      | O => None
      | S fuel =>
          let '(visited, queue) := expand successors current visited queue in
          bfs fuel successors visited queue
      end
  end.

Definition validateEveryStageIsReachable (requirements : list Requirement)
    : option (list string) :=
  let roots := roots_of requirements in
  let successors := successors_of requirements in
  let rootFindings :=
    if negb (Z.of_nat (length roots) =? 1)%Z ||
       negb (default 0%Z (head roots) =? StageInstructions)%Z then
      [ "the declared roots are " +:+ fmt_ints roots +:+
        "; exactly one stage should require nothing, instructions (" +:+
        fmt_d StageInstructions +:+
        ") — any other stage with no requirements would silently start a second, disconnected root" ]
    else [] in
  visited ← bfs (length roots + length requirements) successors (list_to_set roots) roots;
  Some (rootFindings ++
    flat_map (fun stage =>
      if bool_decide (Stage_Number stage ∈ visited) then []
      else [ "stage " +:+ fmt_d (Stage_Number stage) +:+ " (" +:+ Stage_Name stage +:+
             ") is not reachable from any root; the scheduler would never find a " +:+
             "satisfied chain that unblocks it" ]) Flow).

Definition ValidateRequirementsTable (requirements : list Requirement) : option (list string) :=
  cyclic ← validateRequirementsAreAcyclic requirements;
  unreachable ← validateEveryStageIsReachable requirements;
  Some (validateRequirementsCoverFlow requirements ++
        validateRequirementsNameKnownStages requirements ++
        validateRequirementsDoNotPointForward requirements ++
        cyclic ++ unreachable).

Definition ValidateRequirements : option (list string) := ValidateRequirementsTable Requirements.

Example shipped_table : ValidateRequirementsTable Requirements = Some [].
Proof. vm_compute. reflexivity. Qed.

Example broken_table :
  requirementsCycle [mkRequirement 1 [3]; mkRequirement 2 [1]; mkRequirement 3 [2; 9]]%Z =
  Some [1; 3; 2; 1]%Z.
Proof. vm_compute. reflexivity. Qed.

(** ** Correctness of the cycle search *)

Section CycleSearch.
Context (byStage : gmap Number (list Number)) (declared : gset Number).

(** [d] is a requirement of [x] the search follows. *)
Definition depends (d x : Number) : Prop := d ∈ declared /\ d ∈ requires_of byStage x.

(** Each stage of a walk requires the next one. *)
Definition walk (l : list Number) : Prop :=
  forall i a b, l !! i = Some a -> l !! S i = Some b -> depends b a.

(** A cycle as reported: a closed walk, the first stage repeated at the
    end. *)
Definition closed_walk (c : list Number) : Prop :=
  walk c /\ exists x mid, c = x :: mid ++ [x].

Lemma walk_snoc l x :
  walk l -> (forall y, last l = Some y -> depends x y) -> walk (l ++ [x]).
Proof.
  intros Hl Hx i a b Ha Hb. apply lookup_app_Some in Hb as [Hb|[Hge Hb]].
  - rewrite lookup_app_l in Ha by (apply lookup_lt_Some in Hb; lia). eauto.
  - apply list_lookup_singleton_Some in Hb as [Hi <-].
    rewrite lookup_app_l in Ha by lia.
    apply Hx. rewrite last_lookup. replace (pred (length l)) with i by lia. done.
Qed.

Lemma walk_drop l n : walk l -> walk (drop n l).
Proof. intros Hl i a b. rewrite !lookup_drop, Nat.add_succ_r. apply Hl. Qed.

Lemma walk_no_Acc c x : closed_walk c -> head c = Some x -> Acc depends x -> False.
Proof.
  intros [Hw (y & mid & Hc)] Hh HA. subst c. injection Hh as ->.
  assert (Hall : forall i a, (x :: mid ++ [x]) !! i = Some a -> (i < S (length mid))%nat ->
    exists j b, (x :: mid ++ [x]) !! j = Some b /\ (j < S (length mid))%nat /\ depends b a).
  { intros i a Ha Hi.
    destruct (lookup_lt_is_Some_2 (x :: mid ++ [x]) (S i)) as [b Hb];
      [simpl; rewrite length_app; simpl; lia|].
    destruct (decide (S i < S (length mid))%nat) as [|Hend].
    - exists (S i), b. split_and!; eauto.
    - exists 0%nat, x. split_and!; [done|lia|].
      assert (b = x) as ->; [|eauto].
      replace i with (length mid) in Hb by lia. simpl in Hb.
      rewrite lookup_app_r in Hb by lia. rewrite Nat.sub_diag in Hb. by injection Hb. }
  assert (H : forall a, Acc depends a -> forall i, (x :: mid ++ [x]) !! i = Some a ->
    (i < S (length mid))%nat -> False).
  { induction 1 as [a _ IH]. intros i Ha Hi.
    destruct (Hall i a Ha Hi) as (j & b & Hb & Hj & Hd). eauto. }
  apply (H x HA 0%nat eq_refl). lia.
Qed.

Record search_inv (s : search) : Prop := {
  inv_walk : walk (search_path s);
  inv_progress x : state_of s x = inProgress <-> x ∈ search_path s;
  inv_finished x : state_of s x = finished -> Acc depends x;
}.

(** The declared stages not yet visited: the fuel the search needs. *)
Definition pending (s : search) : nat :=
  size (filter (fun x => state_of s x = unvisited) declared).

Definition grows (s s' : search) : Prop :=
  (forall x, state_of s' x = unvisited -> state_of s x = unvisited) /\
  (forall x, state_of s x = finished -> state_of s' x = finished).

Lemma grows_pending s s' : grows s s' -> (pending s' <= pending s)%nat.
Proof.
  intros [H _]. unfold pending. apply subseteq_size. intros x. rewrite !elem_of_filter. naive_solver.
Qed.

Lemma state_of_set s x m y :
  state_of (set_state s x m) y = if decide (x = y) then m else state_of s y.
Proof. unfold state_of, set_state. simpl. rewrite lookup_insert. by case_decide. Qed.

Lemma pending_enter s x :
  x ∈ declared -> state_of s x = unvisited ->
  (pending (push_path (set_state s x inProgress) x) < pending s)%nat.
Proof.
  intros Hx Hu. unfold pending. apply subset_size. split.
  - intros y. rewrite !elem_of_filter. unfold push_path, state_of at 1. simpl.
    change (default unvisited (<[x:=inProgress]> (search_state s) !! y))
      with (state_of (set_state s x inProgress) y).
    rewrite state_of_set. case_decide; naive_solver.
  - intros Hsub. specialize (Hsub x). rewrite !elem_of_filter in Hsub.
    destruct Hsub as [Hsub _]; [done|].
    change (state_of (set_state s x inProgress) x = unvisited) in Hsub.
    rewrite state_of_set, decide_True in Hsub by done. discriminate.
Qed.

(** What a search step promises: a real cycle, or a state with the same
    path in which the invariant holds and nothing visited was forgotten. *)
Definition outcome (s : search) (done_ : search -> Prop) (r : option (bool * search)) : Prop :=
  match r with
  | Some (true, s') => exists c, search_cycle s' = search_cycle s ++ c /\ closed_walk c
  | Some (false, s') => search_inv s' /\ search_path s' = search_path s /\
      search_cycle s' = search_cycle s /\ grows s s' /\ done_ s'
  | None => False
  end.

Definition visit_spec (visit : Number -> search -> option (bool * search)) (n : nat) : Prop :=
  forall stage s, search_inv s -> stage ∈ declared -> state_of s stage = unvisited ->
  (forall y, last (search_path s) = Some y -> depends stage y) -> (pending s < n)%nat ->
  outcome s (fun s' => state_of s' stage = finished) (visit stage s).

Lemma cycle_closed s x d :
  search_inv s -> last (search_path s) = Some x -> depends d x -> d ∈ search_path s ->
  closed_walk (path_from (search_path s) d ++ [d]).
Proof.
  intros Hi Hl Hd Hin. unfold path_from.
  destruct (list_find (eq d) (search_path s)) as [[i y]|] eqn:Hf.
  2:{ apply list_find_None in Hf. rewrite Forall_forall in Hf. by destruct (Hf d Hin). }
  apply list_find_Some in Hf as (Hlook & <- & _).
  pose proof (drop_S _ _ _ Hlook) as Hdrop. split.
  - apply walk_snoc; [apply walk_drop, inv_walk, Hi|].
    intros y Hy. rewrite <- (take_drop i (search_path s)), last_app, Hy in Hl.
    by injection Hl as ->.
  - exists d, (drop (S i) (search_path s)). by rewrite Hdrop.
Qed.

Lemma visit_deps_spec visit n x deps s :
  visit_spec visit n -> search_inv s -> last (search_path s) = Some x ->
  (forall d, d ∈ deps -> d ∈ declared -> depends d x) -> (pending s < n)%nat ->
  outcome s (fun s' => forall d, d ∈ deps -> d ∈ declared -> state_of s' d = finished)
    (visit_deps declared visit deps s).
Proof.
  intros Hv. revert s. induction deps as [|d rest IH]; intros s Hi Hl Hdep Hn; simpl.
  { split_and!; try done. set_solver. }
  assert (Hrest : forall d', d' ∈ rest -> d' ∈ declared -> depends d' x) by set_solver.
  case_bool_decide as Hd.
  { pose proof (IH s Hi Hl Hrest Hn) as H. unfold outcome in *.
    destruct (visit_deps _ _ _ _) as [[[] ?]|]; [done| |done].
    destruct H as (? & ? & ? & ? & H). split_and!; try done.
    intros d' [->|]%elem_of_cons; [done|auto]. }
  assert (Hdx : depends d x) by (apply Hdep; [set_solver|done]).
  destruct (state_of s d) eqn:Hsd.
  - assert (H : outcome s (fun s' => state_of s' d = finished) (visit d s)).
    { apply Hv; try done. intros y Hy. by simplify_eq. }
    destruct (visit d s) as [[[] s']|]; [exact H| |exact H].
    destruct H as (Hi' & Hp' & Hc' & Hg' & Hf').
    assert (Hl' : last (search_path s') = Some x) by (by rewrite Hp').
    pose proof (grows_pending _ _ Hg') as Hle.
    pose proof (IH s' Hi' Hl' Hrest ltac:(lia)) as H. unfold outcome in *.
    destruct (visit_deps _ _ _ _) as [[[] s'']|]; [by rewrite <- Hc'| |done].
    destruct H as (? & Hp & Hc & [Hg1 Hg2] & Hf). destruct Hg' as [Hg3 Hg4].
    split_and!; try congruence; try done; [split; auto|].
    intros d' [->|]%elem_of_cons; auto.
  - eexists. split; [done|]. eapply cycle_closed; try done. by apply inv_progress.
  - pose proof (IH s Hi Hl Hrest Hn) as H. unfold outcome in *.
    destruct (visit_deps _ _ _ _) as [[[] ?]|]; [done| |done].
    destruct H as (? & ? & ? & [? Hg] & H). split_and!; try done.
    intros d' [->|]%elem_of_cons; auto.
Qed.

Lemma enter_inv s x :
  search_inv s -> state_of s x = unvisited ->
  (forall y, last (search_path s) = Some y -> depends x y) ->
  search_inv (push_path (set_state s x inProgress) x).
Proof.
  intros Hi Hu Hl. constructor; simpl.
  - apply walk_snoc; [apply inv_walk, Hi|done].
  - intros y. change (state_of (set_state s x inProgress) y = inProgress <->
      y ∈ search_path s ++ [x]).
    rewrite state_of_set, elem_of_app, list_elem_of_singleton, <- (inv_progress _ Hi).
    case_decide; naive_solver.
  - intros y. change (state_of (set_state s x inProgress) y = finished -> Acc depends y).
    rewrite state_of_set. case_decide; [done|]. apply (inv_finished _ Hi).
Qed.

(** Leaving a stage whose requirements are all finished. *)
Lemma leave_inv s s' x :
  search_inv s -> state_of s x = unvisited ->
  search_inv s' -> search_path s' = search_path s ++ [x] ->
  grows (push_path (set_state s x inProgress) x) s' ->
  (forall d, d ∈ requires_of byStage x -> d ∈ declared -> state_of s' d = finished) ->
  search_inv (set_state (pop_path s') x finished) /\
  search_path (set_state (pop_path s') x finished) = search_path s /\
  grows s (set_state (pop_path s') x finished).
Proof.
  intros Hi Hu Hi' Hp Hg Hd.
  assert (Hpop : search_path (set_state (pop_path s') x finished) = search_path s).
  { simpl. rewrite Hp. apply removelast_last. }
  assert (Hst : forall y, state_of (set_state (pop_path s') x finished) y =
    if decide (x = y) then finished else state_of s' y).
  { intros y. rewrite state_of_set. reflexivity. }
  assert (Hx : x ∉ search_path s).
  { rewrite <- (inv_progress _ Hi). congruence. }
  assert (HgS : forall y, state_of (push_path (set_state s x inProgress) x) y =
    if decide (x = y) then inProgress else state_of s y).
  { intros y. exact (state_of_set s x inProgress y). }
  split_and!; [constructor|done|split].
  - rewrite Hpop. apply inv_walk, Hi.
  - intros y. rewrite Hpop, Hst. case_decide as Hxy.
    + subst. split; [done|by intros ?%Hx].
    + rewrite (inv_progress _ Hi'), Hp, elem_of_app, list_elem_of_singleton. naive_solver.
  - intros y. rewrite Hst. case_decide as Hxy; [|apply (inv_finished _ Hi')].
    intros _. subst y. constructor. intros d [Hdd Hdr]. apply (inv_finished _ Hi'). auto.
  - intros y. rewrite Hst. case_decide as Hxy; [done|]. intros Hy.
    apply (proj1 Hg) in Hy. rewrite HgS, decide_False in Hy; done.
  - intros y Hy. rewrite Hst. case_decide as Hxy; [done|].
    apply (proj2 Hg). rewrite HgS, decide_False; done.
Qed.

Lemma visit_ok fuel : visit_spec (visit byStage declared fuel) fuel.
Proof.
  induction fuel as [|fuel IH]; intros x s Hi Hx Hu Hl Hn; [lia|]. simpl.
  pose proof (enter_inv s x Hi Hu Hl) as Hi1.
  pose proof (pending_enter s x Hx Hu) as Hlt.
  set (s1 := push_path (set_state s x inProgress) x) in *.
  assert (H : outcome s1 (fun s' => forall d, d ∈ requires_of byStage x -> d ∈ declared ->
      state_of s' d = finished)
    (visit_deps declared (visit byStage declared fuel) (requires_of byStage x) s1)).
  { eapply visit_deps_spec; [exact IH|done| |by intros ? ? ?; split|lia].
    unfold s1, push_path. simpl. apply last_snoc. }
  destruct (visit_deps _ _ _ _) as [[[] s']|]; [exact H| |exact H].
  destruct H as (Hi' & Hp & Hc & Hg & Hd).
  destruct (leave_inv s s' x Hi Hu Hi' Hp Hg Hd) as (? & ? & ?).
  split_and!; try done. rewrite state_of_set. by case_decide.
Qed.

(** The loop over the flow finds a closed walk, or every declared stage it
    was given is well founded under its requirements. *)
Lemma visit_flow_ok fuel stages s :
  search_inv s -> search_path s = [] -> search_cycle s = [] -> (pending s < fuel)%nat ->
  match visit_flow byStage declared fuel stages s with
  | None => False
  | Some [] => forall x, x ∈ stages -> x ∈ declared -> Acc depends x
  | Some c => closed_walk c
  end.
Proof.
  revert s. induction stages as [|x rest IH]; intros s Hi Hp Hc Hn; simpl; [set_solver|].
  case_bool_decide as Hx.
  { pose proof (IH s Hi Hp Hc Hn) as H. destruct (visit_flow _ _ _ _ _) as [[|c0 cs]|]; [|exact H|exact H].
    intros y [->|]%elem_of_cons; [done|auto]. }
  assert (Hskip : state_of s x = inProgress -> False).
  { rewrite (inv_progress _ Hi), Hp. by intros ?%elem_of_nil. }
  destruct (state_of s x) eqn:Hsx; [|by destruct Hskip|].
  - assert (H : outcome s (fun s' => state_of s' x = finished)
      (visit byStage declared fuel x s)).
    { apply visit_ok; try done. by rewrite Hp. }
    destruct (visit byStage declared fuel x s) as [[[] s']|]; [| |done].
    + destruct H as (c & -> & Hcl). rewrite Hc. simpl.
      destruct Hcl as [Hw (a & mid & ->)]. by split; [|eauto].
    + destruct H as (Hi' & Hp' & Hc' & Hg' & Hf').
      pose proof (grows_pending _ _ Hg').
      pose proof (IH s' Hi' ltac:(congruence) ltac:(congruence) ltac:(lia)) as H1.
      destruct (visit_flow _ _ _ _ _) as [[|c0 cs]|]; [|exact H1|exact H1].
      intros y [->|]%elem_of_cons Hy; [by apply (inv_finished _ Hi')|auto].
  - pose proof (IH s Hi Hp Hc Hn) as H. destruct (visit_flow _ _ _ _ _) as [[|c0 cs]|]; [|exact H|exact H].
    intros y [->|]%elem_of_cons Hy; [by apply (inv_finished _ Hi)|auto].
Qed.
End CycleSearch.

Lemma declared_size requirements :
  (size (declared_stages requirements) <= length requirements)%nat.
Proof.
  unfold declared_stages. induction requirements as [|r rest IH]; simpl; [done|].
  rewrite size_union_alt, size_singleton.
  pose proof (subseteq_size (list_to_set (map Requirement_Stage rest) ∖ {[Requirement_Stage r]})
    (list_to_set (map Requirement_Stage rest) : gset Number) ltac:(set_solver)). lia.
Qed.

Definition initial_search : search :=
  {| search_state := ∅; search_path := []; search_cycle := [] |}.

Lemma initial_inv byStage declared : search_inv byStage declared initial_search.
Proof.
  constructor; simpl; [by intros ???|intros x; unfold state_of; simpl..].
  - rewrite lookup_empty, elem_of_nil. simpl. by split.
  - rewrite lookup_empty. simpl. discriminate.
Qed.

Lemma initial_pending requirements :
  (pending (declared_stages requirements) initial_search < S (length requirements))%nat.
Proof.
  unfold pending. pose proof (declared_size requirements).
  pose proof (subseteq_size (filter (fun x => state_of initial_search x = unvisited)
    (declared_stages requirements)) (declared_stages requirements) ltac:(set_solver)). lia.
Qed.

Lemma requirementsCycle_spec (requirements : list Requirement) :
  exists cycle, requirementsCycle requirements = Some cycle /\
    let dep := depends (by_stage requirements) (declared_stages requirements) in
    match cycle with
    | [] => forall x, x ∈ map Stage_Number Flow -> x ∈ declared_stages requirements -> Acc dep x
    | _ => closed_walk (by_stage requirements) (declared_stages requirements) cycle
    end.
Proof.
  unfold requirementsCycle.
  pose proof (visit_flow_ok (by_stage requirements) (declared_stages requirements)
    (S (length requirements)) (map Stage_Number Flow) initial_search) as H.
  fold initial_search.
  specialize (H (initial_inv _ _) eq_refl eq_refl (initial_pending requirements)).
  destruct (visit_flow _ _ _ _ _) as [c|]; [|done]. by exists c.
Qed.

(** [C29] The cycle search of the requirements validator always returns, and
    its answer is right: a reported cycle is a closed chain of declared stages
    each of which requires the next, with the first stage repeated at the end;
    when none is reported, no cycle passes through a declared stage of the
    flow, and no endless chain of requirements starts there. *)
Theorem requirementsCycle_correct (requirements : list Requirement) :
  let dep := depends (by_stage requirements) (declared_stages requirements) in
  let closed := closed_walk (by_stage requirements) (declared_stages requirements) in
  exists cycle, requirementsCycle requirements = Some cycle /\
    (cycle <> [] -> closed cycle) /\
    (cycle = [] -> forall x, x ∈ map Stage_Number Flow -> x ∈ declared_stages requirements ->
       Acc dep x /\ forall c, head c = Some x -> ~ closed c).
Proof.
  intros dep closed. destruct (requirementsCycle_spec requirements) as (cycle & Hc & H).
  exists cycle. split; [exact Hc|]. destruct cycle as [|x c]; split.
  - intros Hne. exfalso. apply Hne. reflexivity.
  - intros _ x Hx Hd. split; [exact (H x Hx Hd)|]. intros c Hh Hcl.
    exact (walk_no_Acc _ _ c x Hcl Hh (H x Hx Hd)).
  - intros _. exact H.
  - intros [=].
Qed.

(** ** Correctness of the reachability search *)

Section Reachability.
Context (successors : gmap Number (list Number)).

Definition succ_edge (a b : Number) : Prop := b ∈ requires_of successors a.

Lemma expand_spec (U : gset Number) next visited queue :
  let step := fun '(visited, queue) x =>
    if bool_decide (x ∈ visited) then (visited, queue)
    else ({[x]} ∪ visited, queue ++ [x]) in
  (forall x, x ∈ next -> x ∈ U) ->
  let '(visited', queue') := fold_left step next (visited, queue) in
  (forall x, x ∈ visited' <-> x ∈ visited \/ x ∈ next) /\
  (exists new, queue' = queue ++ new /\ forall x, x ∈ new <-> x ∈ visited' /\ x ∉ visited) /\
  (length queue' + size (U ∖ visited') <= length queue + size (U ∖ visited))%nat.
Proof.
  intros step HU. revert visited queue. induction next as [|y rest IH]; intros visited queue; simpl.
  { split_and!; [set_solver| |lia]. exists []. rewrite app_nil_r. set_solver. }
  assert (HU' : forall x, x ∈ rest -> x ∈ U) by set_solver. specialize (IH HU').
  case_bool_decide as Hy.
  - specialize (IH visited queue). destruct (fold_left _ _ _) as [v q].
    destruct IH as (Hv & Hn & Hl). split_and!; [set_solver|done|done].
  - specialize (IH ({[y]} ∪ visited) (queue ++ [y])).
    destruct (fold_left _ _ _) as [v q]. destruct IH as (Hv & (new & -> & Hnew) & Hl).
    split_and!; [set_solver| |].
    + exists (y :: new). rewrite <- app_assoc. split; [done|].
      intros x. rewrite elem_of_cons, Hnew, not_elem_of_union, not_elem_of_singleton. split.
      * intros [->|(? & ? & ?)]; [|done]. split; [|done]. apply Hv. left. set_solver.
      * intros [? ?]. destruct (decide (x = y)); [by left|right]. done.
    + rewrite !length_app in Hl |- *. simpl in Hl |- *.
      assert (Hs : (size (U ∖ ({[y]} ∪ visited)) < size (U ∖ visited))%nat).
      { apply subset_size. set_solver. }
      lia.
Qed.

(** The search returns, and what it returns is the stages reachable from
    what was marked at the start. *)
Lemma bfs_correct (U : gset Number) fuel visited queue (init : gset Number) :
  (forall a x, x ∈ requires_of successors a -> x ∈ U) ->
  (length queue + size (U ∖ visited) <= fuel)%nat ->
  init ⊆ visited ->
  (forall x, x ∈ queue -> x ∈ visited) ->
  (forall x, x ∈ visited -> exists r, r ∈ init /\ rtc succ_edge r x) ->
  (forall x y, x ∈ visited -> x ∉ queue -> succ_edge x y -> y ∈ visited) ->
  exists V, bfs fuel successors visited queue = Some V /\
    forall x, x ∈ V <-> exists r, r ∈ init /\ rtc succ_edge r x.
Proof.
  intros HU. revert visited queue.
  induction fuel as [|fuel IH]; intros visited queue Hf Hinit Hq Hr Hcl;
    (destruct queue as [|current queue];
     [exists visited; split; [done|]; intros x; split; [auto|];
      intros (r & Hr0 & Hrx); eapply (rtc_invariant succ_edge (.∈ visited)); [|done|set_solver];
      intros a b Ha Hab; eapply Hcl; [exact Ha|set_solver|exact Hab]|]).
  - simpl in Hf. lia.
  - simpl. unfold expand.
    pose proof (expand_spec U (requires_of successors current) visited queue
      (HU current)) as Hex. cbv zeta beta in Hex.
    destruct (fold_left _ _ _) as [v q].
    destruct Hex as (Hv & (new & -> & Hnew) & Hl). apply IH.
    + simpl in Hf. lia.
    + set_solver.
    + set_solver.
    + intros x [Hx|Hx]%Hv; [auto|].
      destruct (Hr current) as (r & ? & ?); [set_solver|].
      exists r. split; [done|]. eapply rtc_r; done.
    + intros x y Hx Hnq Hxy.
      destruct (decide (x = current)) as [->|Hne]; [apply Hv; by right|].
      assert (Hxv : x ∈ visited).
      { destruct (decide (x ∈ visited)); [done|]. destruct Hnq. set_solver. }
      apply Hv. left. eapply Hcl; [done|set_solver|done].
Qed.
End Reachability.

Lemma successors_fold (declared : gset Number) (r : Requirement) deps
    (m : gmap Number (list Number)) a b :
  b ∈ requires_of (fold_left (fun (successors : gmap Number (list Number)) dependency =>
      if bool_decide (dependency ∉ declared) then successors
      else <[dependency := default [] (successors !! dependency) ++ [Requirement_Stage r]]>
             successors) deps m) a <->
  b ∈ requires_of m a \/ (b = Requirement_Stage r /\ a ∈ deps /\ a ∈ declared).
Proof.
  revert m. induction deps as [|d rest IH]; intros m; simpl; [set_solver|].
  rewrite IH. case_bool_decide as Hd; [set_solver|].
  unfold requires_of at 1. rewrite lookup_insert. case_decide as Hda.
  - subst d. simpl. unfold requires_of. rewrite elem_of_app, list_elem_of_singleton, !elem_of_cons.
    split; [|tauto]. set_solver.
  - unfold requires_of. rewrite elem_of_cons. split; [set_solver|]. intros [?|(-> & [->|?] & ?)]; tauto.
Qed.

Lemma successors_of_spec requirements a b :
  b ∈ requires_of (successors_of requirements) a <->
  exists r, r ∈ requirements /\ b = Requirement_Stage r /\ a ∈ Requirement_Requires r /\
    a ∈ declared_stages requirements.
Proof.
  unfold successors_of. generalize (declared_stages requirements) as declared. intros declared.
  assert (H : forall m, b ∈ requires_of (fold_left (fun successors r =>
      fold_left (fun (successors : gmap Number (list Number)) dependency =>
        if bool_decide (dependency ∉ declared) then successors
        else <[dependency := default [] (successors !! dependency) ++ [Requirement_Stage r]]>
               successors) (Requirement_Requires r) successors) requirements m) a <->
    b ∈ requires_of m a \/ exists r, r ∈ requirements /\ b = Requirement_Stage r /\
      a ∈ Requirement_Requires r /\ a ∈ declared).
  { induction requirements as [|r rest IH]; intros m; simpl.
    - setoid_rewrite elem_of_nil. naive_solver.
    - rewrite IH, successors_fold. setoid_rewrite elem_of_cons. naive_solver. }
  rewrite H. unfold requires_of. rewrite lookup_empty. simpl. rewrite elem_of_nil. tauto.
Qed.

(** The reachability search on a table. *)
Lemma reachable_correct requirements :
  exists V, bfs (length (roots_of requirements) + length requirements)
      (successors_of requirements) (list_to_set (roots_of requirements))
      (roots_of requirements) = Some V /\
    forall x, x ∈ V <-> exists root, root ∈ roots_of requirements /\
      rtc (succ_edge (successors_of requirements)) root x.
Proof.
  destruct (bfs_correct (successors_of requirements) (declared_stages requirements)
    (length (roots_of requirements) + length requirements)
    (list_to_set (roots_of requirements)) (roots_of requirements)
    (list_to_set (roots_of requirements))) as (V & HV & H).
  - intros a x (r & Hr & -> & _)%successors_of_spec. unfold declared_stages.
    apply elem_of_list_to_set, list_elem_of_In, in_map, list_elem_of_In. done.
  - pose proof (declared_size requirements).
    pose proof (subseteq_size (declared_stages requirements ∖ list_to_set (roots_of requirements))
      (declared_stages requirements) ltac:(set_solver)). lia.
  - done.
  - intros x. by rewrite elem_of_list_to_set.
  - intros x Hx. by exists x.
  - intros x y Hx Hnx. by rewrite elem_of_list_to_set in Hx.
  - exists V. split; [done|]. intros x. rewrite H.
    by setoid_rewrite elem_of_list_to_set.
Qed.

(** ** What an empty report means *)

Lemma flat_map_nil {A B} (f : A -> list B) l :
  flat_map f l = [] <-> forall x, x ∈ l -> f x = [].
Proof.
  induction l as [|y rest IH]; simpl; [set_solver|].
  rewrite app_nil, IH. split; [|set_solver].
  intros [H1 H2] x [->|]%elem_of_cons; auto.
Qed.

Lemma count_bound_fold l (m : gmap Number Z) x :
  default 0%Z (fold_left (fun bound y => <[y := (default 0 (bound !! y) + 1)%Z]> bound) l m !! x)
  = (default 0%Z (m !! x) + Z.of_nat (count_occ Z.eq_dec l x))%Z.
Proof.
  revert m. induction l as [|y rest IH]; intros m; [simpl; lia|].
  cbn [fold_left count_occ]. rewrite IH, lookup_insert.
  destruct (Z.eq_dec y x) as [->|Hne].
  - rewrite decide_True by done. simpl. lia.
  - rewrite decide_False by done. lia.
Qed.

Lemma count_bound_spec l x :
  default 0%Z (count_bound l !! x) = Z.of_nat (count_occ Z.eq_dec l x).
Proof. unfold count_bound. rewrite count_bound_fold, lookup_empty. simpl. lia. Qed.

Lemma elem_of_flow_stages n : n ∈ flow_stages <-> (1 <= n <= flow_size)%Z.
Proof. unfold flow_stages. by rewrite elem_of_list_to_set, elem_of_flow. Qed.

Lemma count_seqZ n : count_occ Z.eq_dec (seqZ 1 flow_size) n =
  if decide (1 <= n <= flow_size)%Z then 1%nat else 0%nat.
Proof.
  case_decide as Hn.
  - apply NoDup_count_occ'; [apply NoDup_ListNoDup, NoDup_seqZ|].
    apply list_elem_of_In, elem_of_seqZ. unfold flow_size in *. lia.
  - apply count_occ_not_In. rewrite <- list_elem_of_In, elem_of_seqZ.
    unfold flow_size in *. lia.
Qed.

(** Property 1 of the validator: every stage is bound once, and nothing
    else is. *)
Lemma cover_flow_nil requirements :
  validateRequirementsCoverFlow requirements = [] <->
  map Requirement_Stage requirements ≡ₚ seqZ 1 flow_size.
Proof.
  unfold validateRequirementsCoverFlow. rewrite app_nil, !flat_map_nil.
  rewrite (Permutation_count_occ Z.eq_dec). split.
  - intros [Hone Hflow] n. rewrite count_seqZ. case_decide as Hn.
    + apply elem_of_flow, list_elem_of_In, in_map_iff in Hn as (s & <- & Hs).
      specialize (Hone s (proj2 (list_elem_of_In _ _) Hs)). rewrite count_bound_spec in Hone.
      destruct (Z.eqb_spec (Z.of_nat (count_occ Z.eq_dec (map Requirement_Stage requirements)
        (Stage_Number s))) 1); [lia|].
      destruct (Z.eqb_spec (Z.of_nat (count_occ Z.eq_dec (map Requirement_Stage requirements)
        (Stage_Number s))) 0); discriminate.
    + apply count_occ_not_In. intros (r & <- & Hr)%in_map_iff.
      specialize (Hflow r (proj2 (list_elem_of_In _ _) Hr)).
      case_bool_decide as Hin; [by apply elem_of_flow_stages in Hin|discriminate].
  - intros Hc. split.
    + intros s Hs. rewrite count_bound_spec, Hc, count_seqZ, decide_True; [done|].
      apply elem_of_flow, list_elem_of_In, in_map, list_elem_of_In. done.
    + intros r Hr. rewrite bool_decide_true; [done|]. apply elem_of_flow_stages.
      specialize (Hc (Requirement_Stage r)). rewrite count_seqZ in Hc.
      case_decide; [done|]. exfalso. apply count_occ_not_In in Hc. apply Hc.
      apply in_map, list_elem_of_In. done.
Qed.

(** A table is well formed when the stages of its entries are exactly the
    flow, every requirement is an earlier stage of the flow, and only
    instructions requires nothing. *)
Definition table_wf (requirements : list Requirement) : Prop :=
  map Requirement_Stage requirements ≡ₚ seqZ 1 flow_size /\
  (forall r d, r ∈ requirements -> d ∈ Requirement_Requires r ->
     (1 <= d < Requirement_Stage r)%Z) /\
  (forall r, r ∈ requirements -> Requirement_Requires r = [] ->
     Requirement_Stage r = StageInstructions).

Section WellFormed.
Context (requirements : list Requirement) (Hwf : table_wf requirements).

Lemma wf_declared n : n ∈ declared_stages requirements <-> (1 <= n <= flow_size)%Z.
Proof.
  unfold declared_stages. rewrite elem_of_list_to_set, (proj1 Hwf), elem_of_seqZ.
  unfold flow_size. lia.
Qed.

Lemma wf_entry n : (1 <= n <= flow_size)%Z ->
  exists r, r ∈ requirements /\ Requirement_Stage r = n.
Proof.
  rewrite <- wf_declared. unfold declared_stages.
  rewrite elem_of_list_to_set, list_elem_of_In. intros (r & <- & Hr)%in_map_iff.
  exists r. by rewrite list_elem_of_In.
Qed.

Lemma wf_nodup : NoDup (map Requirement_Stage requirements).
Proof. rewrite (proj1 Hwf). apply NoDup_seqZ. Qed.

Lemma wf_entry_unique r1 r2 :
  r1 ∈ requirements -> r2 ∈ requirements ->
  Requirement_Stage r1 = Requirement_Stage r2 -> r1 = r2.
Proof.
  intros H1 H2 Heq. pose proof wf_nodup as Hnd.
  apply list_elem_of_lookup in H1 as [i Hi]. apply list_elem_of_lookup in H2 as [j Hj].
  assert (i = j) as ->; [|congruence].
  apply (NoDup_lookup (map Requirement_Stage requirements) i j (Requirement_Stage r1));
    [done|rewrite list_lookup_fmap, Hi; done|rewrite list_lookup_fmap, Hj; simpl; congruence].
Qed.

Lemma wf_roots : roots_of requirements = [StageInstructions].
Proof.
  assert (Hall : forall x, x ∈ roots_of requirements <-> x = StageInstructions).
  { intros x. unfold roots_of. rewrite list_elem_of_In, in_map_iff.
    setoid_rewrite filter_In. setoid_rewrite <- list_elem_of_In. split.
    - intros (r & <- & Hr & He). apply (proj2 (proj2 Hwf)); [done|].
      by destruct (Requirement_Requires r).
    - intros ->. destruct (wf_entry StageInstructions) as (r & Hr & Hs);
        [unfold StageInstructions, flow_size; lia|].
      exists r. split_and!; [done|done|]. destruct (Requirement_Requires r) as [|d ds] eqn:E; [done|].
      destruct (proj1 (proj2 Hwf) r d Hr ltac:(rewrite E; set_solver)).
      unfold StageInstructions in Hs. lia. }
  assert (Hnd : NoDup (roots_of requirements)).
  { pose proof wf_nodup as Hn. unfold roots_of. clear Hall Hwf.
    induction requirements as [|r rest IH]; simpl in *; [constructor|].
    apply NoDup_cons in Hn as [Hr Hn]. case_match; simpl; [|auto].
    constructor; [|auto]. contradict Hr.
    apply list_elem_of_In, in_map_iff in Hr as (y & <- & [Hy _]%filter_In).
    by apply list_elem_of_In, in_map. }
  destruct (roots_of requirements) as [|x [|y l]].
  - exfalso. eapply elem_of_nil. apply (Hall StageInstructions). reflexivity.
  - f_equal. apply Hall. set_solver.
  - apply NoDup_cons in Hnd as [Hx _]. exfalso. apply Hx.
    rewrite (proj1 (Hall x)), (proj1 (Hall y)); set_solver.
Qed.

Lemma wf_reachable n : (1 <= n <= flow_size)%Z ->
  rtc (succ_edge (successors_of requirements)) StageInstructions n.
Proof.
  intros Hn. remember (Z.to_nat n) as k eqn:Hk. revert n Hn Hk.
  induction k as [k IH] using lt_wf_ind. intros n Hn ->.
  destruct (wf_entry n Hn) as (r & Hr & <-).
  destruct (Requirement_Requires r) as [|d ds] eqn:E.
  - rewrite (proj2 (proj2 Hwf) r Hr E). constructor.
  - assert (Hd : d ∈ Requirement_Requires r) by (rewrite E; set_solver).
    pose proof (proj1 (proj2 Hwf) r d Hr Hd) as Hlt.
    eapply rtc_r; [apply (IH (Z.to_nat d) ltac:(lia) d ltac:(lia) eq_refl)|].
    apply successors_of_spec. exists r. split_and!; try done. apply wf_declared. lia.
Qed.

Lemma by_stage_lookup r : r ∈ requirements ->
  requires_of (by_stage requirements) (Requirement_Stage r) = Requirement_Requires r.
Proof.
  intros Hr. pose proof wf_nodup as Hnd. unfold requires_of, by_stage.
  enough (H : forall (m : gmap Number (list Number)),
    fold_left (fun m r => <[Requirement_Stage r := Requirement_Requires r]> m) requirements m
      !! Requirement_Stage r = Some (Requirement_Requires r)) by (by rewrite H).
  clear Hwf. induction requirements as [|r' rest IH]; intros m; [by apply elem_of_nil in Hr|].
  simpl in *. apply NoDup_cons in Hnd as [Hn Hnd].
  apply elem_of_cons in Hr as [<-|Hr]; [|auto]. clear IH Hnd. revert m.
  assert (Hs : forall l (m : gmap Number (list Number)), Requirement_Stage r ∉ map Requirement_Stage l ->
    m !! Requirement_Stage r = Some (Requirement_Requires r) ->
    fold_left (fun m r => <[Requirement_Stage r := Requirement_Requires r]> m) l m
      !! Requirement_Stage r = Some (Requirement_Requires r)).
  { induction l as [|y l IH]; intros m Hy Hm; simpl in *; [done|].
    apply not_elem_of_cons in Hy as [? ?]. apply IH; [done|].
    rewrite lookup_insert_ne by congruence. done. }
  intros m. apply Hs; [done|]. apply lookup_insert_eq.
Qed.

Lemma wf_requires d x : d ∈ requires_of (by_stage requirements) x -> (1 <= d < x)%Z.
Proof.
  intros Hx. unfold requires_of in Hx.
  destruct (by_stage requirements !! x) as [ds|] eqn:E; simpl in Hx; [|set_solver].
  destruct (decide (1 <= x <= flow_size)%Z) as [Hin|Hout].
  - destruct (wf_entry x Hin) as (r & Hr & <-).
    pose proof (by_stage_lookup r Hr) as Hl. unfold requires_of in Hl. rewrite E in Hl.
    simpl in Hl. subst. by apply (proj1 (proj2 Hwf)).
  - exfalso. apply Hout, wf_declared. unfold declared_stages.
    apply elem_of_list_to_set. clear -E. unfold by_stage in E.
    assert (H : forall (m : gmap Number (list Number)),
      fold_left (fun m r => <[Requirement_Stage r := Requirement_Requires r]> m) requirements m
        !! x = Some ds -> m !! x = None -> x ∈ map Requirement_Stage requirements).
    { clear E. induction requirements as [|r rest IH]; intros m; simpl; [congruence|].
      intros Hf Hm. destruct (decide (x = Requirement_Stage r)) as [->|Hne]; [set_solver|].
      apply elem_of_cons. right. eapply IH; [done|]. by rewrite lookup_insert_ne. }
    eapply H; [done|apply lookup_empty].
Qed.

Lemma wf_depends d x :
  depends (by_stage requirements) (declared_stages requirements) d x -> (1 <= d < x)%Z.
Proof. intros [_ Hx]. by apply wf_requires. Qed.

Lemma wf_no_cycle c : ~ closed_walk (by_stage requirements) (declared_stages requirements) c.
Proof.
  intros Hc. destruct c as [|x c]; [by destruct Hc as [_ (? & ? & [=])]|].
  eapply walk_no_Acc; [done|done|].
  assert (H : forall k y, (Z.to_nat y <= k)%nat ->
    Acc (depends (by_stage requirements) (declared_stages requirements)) y).
  { induction k as [|k IH]; intros y Hy; constructor; intros d ?%wf_depends; [lia|].
    apply IH. lia. }
  by apply (H (Z.to_nat x)).
Qed.
End WellFormed.

Lemma validator_empty_iff (requirements : list Requirement) :
  (exists findings, ValidateRequirementsTable requirements = Some findings) /\
  (ValidateRequirementsTable requirements = Some [] <-> table_wf requirements).
Proof.
  destruct (requirementsCycle_spec requirements) as (c & Hc & Hcyc).
  destruct (reachable_correct requirements) as (V & HV & Hreach).
  unfold ValidateRequirementsTable, validateRequirementsAreAcyclic, validateEveryStageIsReachable.
  rewrite Hc, HV. cbn [mbind option_bind].
  split; [destruct c; cbn [mbind option_bind]; eexists; reflexivity|].
  assert (Hopt : forall (l l' : list string), Some l = Some l' <-> l = l') by naive_solver.
  split.
  - intros H.
    assert (Hparts : validateRequirementsCoverFlow requirements = [] /\
      validateRequirementsNameKnownStages requirements = [] /\
      validateRequirementsDoNotPointForward requirements = [] /\
      roots_of requirements = [StageInstructions]).
    { destruct c; cbn [mbind option_bind] in H; apply Hopt in H; rewrite !app_nil in H;
        [|destruct H as (_ & _ & _ & [=] & _)].
      destruct H as (H1 & H2 & H3 & _ & H4 & _).
      split_and!; [exact H1|exact H2|exact H3|].
      destruct (roots_of requirements) as [|r [|r' l]].
      - discriminate H4.
      - cbn in H4. destruct (Z.eqb_spec r StageInstructions) as [->|]; [reflexivity|discriminate H4].
      - cbn [length] in H4. rewrite (proj2 (Z.eqb_neq _ 1)) in H4 by lia. discriminate H4. }
    destruct Hparts as (H1 & H2 & H3 & H4). split_and!.
    + by apply cover_flow_nil.
    + intros r d Hr Hd. split.
      * unfold validateRequirementsNameKnownStages in H2. rewrite flat_map_nil in H2.
        specialize (H2 r Hr). rewrite flat_map_nil in H2. specialize (H2 d Hd).
        case_bool_decide as Hf; [|discriminate]. by apply elem_of_flow_stages in Hf as [? _].
      * unfold validateRequirementsDoNotPointForward in H3. rewrite flat_map_nil in H3.
        specialize (H3 r Hr). rewrite flat_map_nil in H3. specialize (H3 d Hd).
        destruct (Z.leb_spec (Requirement_Stage r) d); [discriminate|lia].
    + intros r Hr He.
      assert (Hin : Requirement_Stage r ∈ roots_of requirements).
      { unfold roots_of. apply list_elem_of_In, in_map, filter_In.
        rewrite He. by rewrite <- list_elem_of_In. }
      rewrite H4 in Hin. by apply list_elem_of_singleton in Hin.
  - intros Hwf. destruct c as [|x c]; [|by apply (wf_no_cycle requirements Hwf) in Hcyc].
    cbn [mbind option_bind]. apply Hopt. rewrite !app_nil. split_and!.
    + by apply cover_flow_nil, Hwf.
    + apply flat_map_nil. intros r Hr. apply flat_map_nil. intros d Hd.
      pose proof (proj1 (proj2 Hwf) r d Hr Hd).
      rewrite bool_decide_true; [done|]. apply elem_of_flow_stages.
      assert (Requirement_Stage r ∈ declared_stages requirements) as Hin%(wf_declared _ Hwf).
      { unfold declared_stages. apply elem_of_list_to_set, list_elem_of_In, in_map, list_elem_of_In. done. }
      lia.
    + apply flat_map_nil. intros r Hr. apply flat_map_nil. intros d Hd.
      pose proof (proj1 (proj2 Hwf) r d Hr Hd).
      destruct (Z.leb_spec (Requirement_Stage r) d); [lia|done].
    + reflexivity.
    + by rewrite (wf_roots requirements Hwf).
    + apply flat_map_nil. intros s Hs. rewrite bool_decide_true; [done|].
      apply Hreach. exists StageInstructions. rewrite (wf_roots requirements Hwf).
      split; [set_solver|]. apply (wf_reachable requirements Hwf).
      apply elem_of_flow, list_elem_of_In, in_map, list_elem_of_In. done.
Qed.

Lemma Requirements_wf : table_wf Requirements.
Proof. exact (proj1 (proj2 (validator_empty_iff Requirements)) shipped_table). Qed.

(** The validator of a dependency table reports nothing exactly when the
    table is well formed: each stage of the flow is bound once and nothing
    else is, every requirement is a strictly earlier stage of the flow, and
    instructions is the only stage that requires nothing. Acyclicity and
    reachability, which it also searches for, are then consequences; both
    searches always return. The shipped table is well formed. *)
Theorem ValidateRequirementsTable_empty_iff (requirements : list Requirement) :
  (exists findings, ValidateRequirementsTable requirements = Some findings) /\
  (ValidateRequirementsTable requirements = Some [] <-> table_wf requirements) /\
  table_wf Requirements /\ ValidateRequirements = Some [].
Proof.
  destruct (validator_empty_iff requirements) as [H1 H2].
  split_and!; [exact H1|exact H2|exact Requirements_wf|]. vm_compute. reflexivity.
Qed.
