(* ===== verification/Resources.v ===== *)
(** * Resource classes (src/internal/pipeline/resource_classes.go)

    What each stage's check needs from the worktree: the class the scheduler
    serialises by, the shipped table with its recorded reasons, and the
    validator of a table. The message about an unknown class leaves out the
    quoted class. *)

From S2P Require Import Prelude GoText Stages Requirements.
Open Scope string_scope.
Open Scope list_scope.

Abbreviation ResourceClass := string.
Definition ResourceClassPureAST : ResourceClass := "pure-ast".
Definition ResourceClassBuildOnly : ResourceClass := "build-only".
Definition ResourceClassSuiteRead : ResourceClass := "suite-read".
Definition ResourceClassExclusiveMutating : ResourceClass := "exclusive-mutating".

Definition ResourceClass_Valid (class : ResourceClass) : bool :=
  (class =? ResourceClassPureAST) || (class =? ResourceClassBuildOnly) ||
  (class =? ResourceClassSuiteRead) || (class =? ResourceClassExclusiveMutating).

Definition Exclusive (class : ResourceClass) : bool :=
  class =? ResourceClassExclusiveMutating.

Record StageResourceClass := {
  StageResourceClass_Stage : Number;
  StageResourceClass_Class : ResourceClass;
  StageResourceClass_Reason : string;
}.

Definition mkClass (stage : Number) (class : ResourceClass) (reason : string)
    : StageResourceClass :=
  {| StageResourceClass_Stage := stage; StageResourceClass_Class := class;
     StageResourceClass_Reason := reason |}.

Definition resourceClassesAB : list StageResourceClass :=
  [ mkClass StageInstructions ResourceClassPureAST
      "performed in AgentExecution.Run (agent_execution.go); records the request and its acceptance examples, touching no worktree file";
    mkClass StageClarification ResourceClassPureAST
      "performed by resolveAmbiguity (agent_execution.go); reasons about the request text, not the worktree";
    mkClass StageAtomicInstructions ResourceClassPureAST
      "performed by AgentExecution.planFromRequirement (agent_execution.go); splits the request into units, touching no worktree file";
    mkClass StageDecompositionCover ResourceClassPureAST
      "performed in AgentExecution.Run (agent_execution.go); compares units against acceptance criteria, touching no worktree file";
    mkClass StageContracts ResourceClassPureAST
      "describeContracts (agent_stage_delivery.go) calls only readProducedFunctions, which parses with go/parser; no exec.Command";
    mkClass StageRecall ResourceClassPureAST
      "performed by AgentExecution.recallKnownAtoms (agent_stage_recall.go, not owned by this lane); matches a contract against a durable registry, not the worktree";
    mkClass StageAtomCaseSynthesis ResourceClassPureAST
      "checkCaseCoverage (agent_stage_cases.go) calls readProducedFunctions and testsNaming, both go/parser only; no exec.Command";
    mkClass StageAtomExampleTests ResourceClassPureAST
      "checkAtomTests (agent_stage_structure.go) reads the shared producedFunctionCache, which only ever parses; no exec.Command";
    mkClass StageAtomPropertyTests ResourceClassPureAST
      "checkPropertyTests (agent_stage_unit_verification.go) parses test files for a for/range loop with go/parser; no exec.Command";
    mkClass StageAtoms ResourceClassPureAST
      "checkAtoms (agent_stage_structure.go) reads the shared producedFunctionCache, which only ever parses; no exec.Command";
    mkClass StageAtomVerification ResourceClassSuiteRead
      "checkAtomVerification (agent_stage_unit_verification.go) calls runNamedTests, which runs `go test -run <pattern> ./...`";
    mkClass StageAtomFuzz ResourceClassSuiteRead
      "checkFuzzing (agent_stage_checks.go) runs `go test -run=^$ -fuzz=. ./...`, which may write new corpus entries under testdata/fuzz but never rewrites produced source";
    mkClass StageAtomMutation ResourceClassExclusiveMutating
      "checkMutations (agent_stage_mutation.go) calls os.WriteFile against the exact produced-source path it is scoring, runs `go build` and `go test` against the mutated file, then writes the original bytes back before the next candidate — the only checker in the flow that rewrites produced source in place";
    mkClass StageAntiPatterns ResourceClassPureAST
      "checkAntiPatterns (agent_stage_antipatterns.go) parses produced source with go/parser and looks for syntactic patterns; no exec.Command";
    mkClass StageAtomOptimization ResourceClassPureAST
      "checkSimplification (agent_stage_obligations.go) counts decision points per attributed function and reports candidates; it does not call os.WriteFile — PIPE-010 records that no rewrite is performed yet — and no exec.Command";
    mkClass StageAtomComplexity ResourceClassPureAST
      "checkComplexity (agent_stage_structure.go) labels loop nesting from the parsed tree; no exec.Command";
    mkClass StageAtomDocumentation ResourceClassPureAST
      "checkAtomDocumentation (agent_stage_structure.go, via documentedNamesCached) reads the shared producedFunctionCache, which only ever parses; no exec.Command" ].

Definition resourceClassesCDE : list StageResourceClass :=
  [ mkClass StageCompositionObligations ResourceClassPureAST
      "composeCompositionObligations (agent_proof_obligations.go) parses produced source and writes to the durable obligation store, not the worktree; no exec.Command";
    mkClass StageMoleculeTests ResourceClassPureAST
      "checkMoleculeTests (agent_stage_obligations.go) calls readProducedFunctions and testsNaming, both go/parser only; no exec.Command";
    mkClass StageMolecules ResourceClassPureAST
      "checkMolecules (agent_stage_structure.go) reads the shared producedFunctionCache, which only ever parses; no exec.Command";
    mkClass StageMoleculeVerification ResourceClassSuiteRead
      "dischargeMoleculeVerification (agent_proof_obligations.go) calls checkMoleculeVerification, whose verifyEachUnit runs `go test -run <pattern> ./...` per molecule";
    mkClass StageControlObligations ResourceClassPureAST
      "composeControlObligations (agent_proof_obligations.go) parses produced source and writes to the durable obligation store, not the worktree; no exec.Command";
    mkClass StageControlTests ResourceClassPureAST
      "checkControlTests (agent_stage_obligations.go) calls readProducedFunctions and testedNames, both go/parser only; no exec.Command";
    mkClass StageControlFlow ResourceClassPureAST
      "dischargeControlFlow (agent_proof_obligations.go) calls checkControlFlow, which counts branches from the parsed tree; no exec.Command";
    mkClass StagePathCoverage ResourceClassSuiteRead
      "checkFunctionCoverage (agent_stage_unit_verification.go) runs `go test -coverprofile=<worktree>/.codeflux-coverage.out ./...`";
    mkClass StageAssembly ResourceClassBuildOnly
      "performed in AgentExecution.Run (agent_execution.go, not owned by this lane); the flow's own gate says the pieces are 'wired into a module that compiles, checked before anything is run', which names compiling and nothing heavier — not verified against the implementation";
    mkClass StageProgram ResourceClassBuildOnly
      "performed in AgentExecution.Run (agent_execution.go, not owned by this lane); the flow's own gate is only 'a build artifact exists' — not verified against the implementation";
    mkClass StageIntegrationTests ResourceClassSuiteRead
      "performed in AgentExecution.Run (agent_execution.go, not owned by this lane); the flow's own gate is 'components are exercised together, with nothing mocked', which means running the built program — not verified against the implementation";
    mkClass StageEndToEndTests ResourceClassSuiteRead
      "performed by AgentExecution.checkAcceptance (agent_execution.go, not owned by this lane); the flow's own gate is 'the built executable reproduces every acceptance example exactly', which means running the built binary — not verified against the implementation" ].

Definition resourceClassesFG : list StageResourceClass :=
  [ mkClass StageGlobalInvariants ResourceClassPureAST
      "checkGlobalInvariants (agent_stage_checks.go) parses only import declarations with parser.ImportsOnly; no exec.Command";
    mkClass StageAdversarial ResourceClassSuiteRead
      "performed by AgentExecution.probeProducedCommands (agent_execution.go, not owned by this lane); the flow's own gate is about feeding 'hostile input' to the program, which means running the built binary — not verified against the implementation";
    mkClass StageRepetition ResourceClassSuiteRead
      "checkRepetition (agent_stage_checks.go) runs `go test -count=1 ./...` three times";
    mkClass StagePlatformMatrix ResourceClassSuiteRead
      "checkPlatformMatrix (agent_stage_checks.go) runs `go test ./...` on the host platform and `go build ./...` for each declared cross target; classified by the heavier of the two calls it makes";
    mkClass StageNonFunctional ResourceClassSuiteRead
      "checkNonFunctional (agent_stage_checks.go) runs `go test -count=1 ./...` once, timed";
    mkClass StageEvidenceBundle ResourceClassPureAST
      "AgentExecution.assembleEvidence (agent_stage_delivery.go) reads ListPipelineStages from durable storage, not the worktree";
    mkClass StageHumanAcceptance ResourceClassPureAST
      "performed in AgentExecution.Run (agent_execution.go, not owned by this lane); a person's decision, recorded, touching no worktree file";
    mkClass StageDeliver ResourceClassPureAST
      "performed in AgentExecution.Run (agent_execution.go, not owned by this lane); the flow's own gate is about handing over the accepted change and its evidence — not verified against the implementation";
    mkClass StageAcceptanceOracle ResourceClassSuiteRead
      "performed by AgentExecution.checkAcceptanceOracle (agent_execution.go, not owned by this lane); the flow's own gate is about running 'every declared acceptance example' against the repository, which means executing the built program — not verified against the implementation";
    mkClass StageSkipAudit ResourceClassPureAST
      "checkSkipAudit (skip_audit.go, not owned by this lane) classifies this run's own ledger rows, which live in durable storage, not the worktree";
    mkClass StageAtomRegistration ResourceClassPureAST
      "AgentExecution.registerVerifiedAtoms (agent_stage_registration.go) parses produced source with go/parser to locate a schema-v1 //codeflux:atom comment and writes only to SQLite through storage.CreateAtomDocumentationRevision; no exec.Command, no os.WriteFile against the worktree";
    mkClass StageMoleculeRegistration ResourceClassPureAST
      "AgentExecution.registerVerifiedMolecules (agent_stage_registration.go) is the same registerProducedDeclarations core as atom-registration, over the produced functions that compose others; no exec.Command, no os.WriteFile against the worktree" ].

Definition ResourceClasses : list StageResourceClass :=
  resourceClassesAB ++ resourceClassesCDE ++ resourceClassesFG.

Fixpoint find_class (entries : list StageResourceClass) (stage : Number)
    : option ResourceClass :=
  match entries with
  | [] => None
  | entry :: rest =>
      if (StageResourceClass_Stage entry =? stage)%Z then Some (StageResourceClass_Class entry)
      else find_class rest stage
  end.

Definition ResourceClassFor (stage : Number) : option ResourceClass :=
  find_class ResourceClasses stage.

Definition class_map (entries : list StageResourceClass) : gmap Number ResourceClass :=
  fold_left (fun classes entry =>
    <[StageResourceClass_Stage entry := StageResourceClass_Class entry]> classes) entries ∅.

Definition ResourceClassMap : gmap Number ResourceClass := class_map ResourceClasses.

Definition ValidateResourceClassesTable (classes : list StageResourceClass) : list string :=
  let bound := count_bound (map StageResourceClass_Stage classes) in
  flat_map (fun stage =>
      let n := default 0%Z (bound !! Stage_Number stage) in
      if (n =? 1)%Z then []
      else if (n =? 0)%Z then
        [ "stage " +:+ fmt_d (Stage_Number stage) +:+ " (" +:+ Stage_Name stage +:+
          ") has no entry in ResourceClasses, so it cannot be scheduled" ]
      else
        [ "stage " +:+ fmt_d (Stage_Number stage) +:+ " (" +:+ Stage_Name stage +:+
          ") is bound " +:+ fmt_d n +:+ " times in ResourceClasses" ]) Flow ++
  flat_map (fun entry =>
      if negb (bool_decide (StageResourceClass_Stage entry ∈ flow_stages)) then
        [ "ResourceClasses binds stage " +:+ fmt_d (StageResourceClass_Stage entry) +:+
          ", which is not in the flow" ]
      else
        (if negb (ResourceClass_Valid (StageResourceClass_Class entry)) then
           [ "stage " +:+ fmt_d (StageResourceClass_Stage entry) +:+
             " declares resource class " +:+ Quote (StageResourceClass_Class entry) +:+
             ", which is none of the four PIPE-059 defines" ]
         else []) ++
        (if StageResourceClass_Reason entry =? "" then
           [ "stage " +:+ fmt_d (StageResourceClass_Stage entry) +:+
             " declares a resource class with no reason recorded" ]
         else [])) classes.

Definition ValidateResourceClasses : list string := ValidateResourceClassesTable ResourceClasses.

(** The shipped resource table passes its own validator, classifies
    every stage of the flow the same by scan and by map, and marks exactly one
    stage exclusive: atom-mutation, the only check that rewrites produced
    source in place. *)
Theorem ResourceClasses_shipped :
  ValidateResourceClasses = [] /\
  Forall (fun n => ResourceClassFor n = ResourceClassMap !! n /\
                   is_Some (ResourceClassFor n)) (seqZ 1 41) /\
  Forall (fun n => Exclusive (default "" (ResourceClassMap !! n)) = true <->
                   n = StageAtomMutation) (seqZ 1 41).
Proof. split_and!; [vm_compute; reflexivity|by_computation|by_computation]. Qed.
