(* ===== verification/Scheduler.v ===== *)
(** * The concurrent scheduler (src/internal/pipeline/scheduler.go)

    [RunConcurrently] runs the stages of a requirements table in waves. The
    runner is a function of the stage: the source asks for one with no hidden
    shared state. Its context is fixed and left out, and [clock] gives the two
    readings of [time.Now] around each call. Goroutines of a wave interleave;
    [wave_step] is that interleaving, bounded by the semaphore, and [runWave]
    the map all interleavings end with. The loop over rounds takes fuel;
    [None] is running out, and one more than the number of declared stages is
    shown to be enough. *)

From S2P Require Import Prelude GoText Stages Requirements Resources.
Open Scope string_scope.
Open Scope list_scope.

(** ** Restriction to a part of the flow *)

Definition RestrictToStages (requirements : list Requirement) (stages : list Number)
    : list Requirement :=
  let included : gset Number := list_to_set stages in
  let byStage := by_stage requirements in
  map (fun stage => mkRequirement stage
    (List.filter (fun dependency => bool_decide (dependency ∈ included))
       (requires_of byStage stage))) stages.

Section Scheduler.
(** The dynamic values of an evidence map. *)
Context {Any : Type}.

Abbreviation Evidence := (gmap string Any).

Record Decision := {
  Decision_Stage : Number;
  Decision_State : State;
  Decision_Detail : string;
  Decision_Evidence : Evidence;
  Decision_StartedAt : option Z;
  Decision_FinishedAt : option Z;
  Decision_Measured : bool;
}.

(** A nil evidence map is [None]. *)
Definition Runner : Type := Number -> State * string * option Evidence.

Context (run : Runner) (clock : Number -> Z * Z).

(** ** One wave *)

(** The decision a stage's goroutine stores. *)
Definition invoke (stage : Number) : Decision :=
  let '(state, detail, evidence) := run stage in
  {| Decision_Stage := stage; Decision_State := state; Decision_Detail := detail;
     Decision_Evidence := default ∅ evidence;
     Decision_StartedAt := Some (clock stage).1; Decision_FinishedAt := Some (clock stage).2;
     Decision_Measured := true |}.

Definition runWave (wave : list Number) : gmap Number Decision :=
  fold_left (fun results stage => <[stage := invoke stage]> results) wave ∅.

(** A configuration of the goroutines of a wave: the stages waiting for the
    semaphore, those holding it, and the results stored so far. *)
Record wave_config := {
  waiting : gset Number;
  running : gset Number;
  results : gmap Number Decision;
}.

Definition wave_start (wave : list Number) : wave_config :=
  {| waiting := list_to_set wave; running := ∅; results := ∅ |}.

Inductive wave_step (maxWorkers : Z) : wave_config -> wave_config -> Prop :=
| wave_admit c stage :
    stage ∈ waiting c ->
    (maxWorkers <= 0 \/ Z.of_nat (size (running c)) < maxWorkers)%Z ->
    wave_step maxWorkers c
      {| waiting := waiting c ∖ {[stage]}; running := {[stage]} ∪ running c;
         results := results c |}
| wave_finish c stage :
    stage ∈ running c ->
    wave_step maxWorkers c
      {| waiting := waiting c; running := running c ∖ {[stage]};
         results := <[stage := invoke stage]> (results c) |}.

(** ** Rounds *)

Definition unmet (d : Decision) : bool :=
  (Decision_State d =? StateFailed) || (Decision_State d =? StateBlocked).

Inductive readiness := Ready | Blocked | Waiting.

(** The inner loop of [nextRoundStages] for one stage. *)
Fixpoint readiness_of (decisions : gmap Number Decision) (requires : list Number) : readiness :=
  match requires with
  | [] => Ready
  | dependency :: rest =>
      match decisions !! dependency with
      | None => Waiting
      | Some decision => if unmet decision then Blocked else readiness_of decisions rest
      end
  end.

Definition is_ready (r : readiness) : bool := match r with Ready => true | _ => false end.
Definition is_blocked (r : readiness) : bool := match r with Blocked => true | _ => false end.

Definition nextRoundStages (pending : gset Number) (requiresOf : gmap Number (list Number))
    (decisions : gmap Number Decision) : list Number * list Number :=
  let r := fun stage => readiness_of decisions (requires_of requiresOf stage) in
  (sort_ints (List.filter (fun stage => is_ready (r stage)) (elements pending)),
   sort_ints (List.filter (fun stage => is_blocked (r stage)) (elements pending))).

Fixpoint blockedDetail (stage : Number) (requires : list Number)
    (decisions : gmap Number Decision) : string :=
  match requires with
  | [] =>
      "blocked: stage " +:+ fmt_d stage +:+ " requires a stage that did not hold, but the " +:+
      "specific one could not be identified"
  | dependency :: rest =>
      match decisions !! dependency with
      | None => blockedDetail stage rest decisions
      | Some decision =>
          if negb (unmet decision) then blockedDetail stage rest decisions
          else
            let name := match StageByNumber dependency with
                        | Some described =>
                            fmt_d dependency +:+ " (" +:+ Stage_Name described +:+ ")"
                        | None => "stage " +:+ fmt_d dependency
                        end in
            let verb := if Decision_State decision =? StateBlocked then "was itself blocked"
                        else "failed" in
            "blocked: this stage requires " +:+ name +:+ ", which " +:+ verb +:+
            ", so running this stage's check would be wasted work computed over a known-" +:+
            "broken precondition"
      end
  end.

Definition blocked_decision (requiresOf : gmap Number (list Number))
    (decisions : gmap Number Decision) (stage : Number) : Decision :=
  {| Decision_Stage := stage; Decision_State := StateBlocked;
     Decision_Detail := blockedDetail stage (requires_of requiresOf stage) decisions;
     Decision_Evidence := ∅; Decision_StartedAt := None; Decision_FinishedAt := None;
     Decision_Measured := false |}.

Fixpoint lowestExclusive (wave : list Number) (classes : gmap Number ResourceClass) : Number :=
  match wave with
  | [] => 0
  | stage :: rest =>
      if Exclusive (default "" (classes !! stage)) then stage else lowestExclusive rest classes
  end.

Definition record_blocked (requiresOf : gmap Number (list Number)) (blocked : list Number)
    (decisions : gmap Number Decision) : gmap Number Decision :=
  fold_left (fun decisions stage =>
    <[stage := blocked_decision requiresOf decisions stage]> decisions) blocked decisions.

Definition choose_wave (ready : list Number) (classes : gmap Number ResourceClass)
    : list Number :=
  let exclusive := lowestExclusive ready classes in
  if negb (exclusive =? 0)%Z then [exclusive] else ready.

(** The loop of [RunConcurrently]; the waves are what [OnWave] observes. *)
Fixpoint rounds (fuel : nat) (requiresOf : gmap Number (list Number))
    (classes : gmap Number ResourceClass) (pending : gset Number)
    (decisions : gmap Number Decision) (waves : list (list Number))
    : option (gmap Number Decision * list (list Number)) :=
  match fuel with
  | O => None
  | S fuel =>
      if bool_decide (pending = ∅) then Some (decisions, waves)
      else
        let '(ready, blocked) := nextRoundStages pending requiresOf decisions in
        match ready, blocked with
        | [], [] => Some (decisions, waves)
        | _, _ =>
            let decisions := record_blocked requiresOf blocked decisions in
            let pending := pending ∖ list_to_set blocked in
            match ready with
            | [] => rounds fuel requiresOf classes pending decisions waves
            | _ =>
                let wave := choose_wave ready classes in
                rounds fuel requiresOf classes (pending ∖ list_to_set wave)
                  (runWave wave ∪ decisions) (waves ++ [wave])
            end
        end
  end.

Definition stage_le (a b : Decision) : Prop := (Decision_Stage a <= Decision_Stage b)%Z.
#[export] Instance stage_le_dec : RelDecision stage_le.
Proof. unfold stage_le. intros a b. apply _. Defined.
#[export] Instance stage_le_trans : Transitive stage_le.
Proof. unfold stage_le. intros a b c. lia. Qed.
#[export] Instance stage_le_total : Total stage_le.
Proof. unfold stage_le. intros a b. lia. Qed.

Definition schedule (requirements : list Requirement) (classes : gmap Number ResourceClass)
    : option (gmap Number Decision * list (list Number)) :=
  let pending := declared_stages requirements in
  rounds (S (size pending)) (by_stage requirements) classes pending ∅ [].

Definition RunConcurrently (requirements : list Requirement)
    (classes : gmap Number ResourceClass) : option (list Decision * list (list Number)) :=
  '(decisions, waves) ← schedule requirements classes;
  Some (merge_sort stage_le (map snd (map_to_list decisions)), waves).
End Scheduler.

Arguments Decision : clear implicits.
Arguments Runner : clear implicits.

(** [PlanWaves]: the waves of a run in which every stage holds. *)
Definition holdEverything : Runner unit := fun _ => (StateSatisfied, "", None).

Definition PlanWaves (requirements : list Requirement) (classes : gmap Number ResourceClass)
    : option (list (list Number)) :=
  '(_, waves) ← RunConcurrently holdEverything (fun _ => (0, 0)%Z) requirements classes;
  Some waves.


(** ** Lookups of one wave and of the blocked stages *)

Section Rounds.
Context {Any : Type} (run : Runner Any) (clock : Number -> Z * Z).
Abbreviation decisions_t := (gmap Number (Decision Any)).

Lemma runWave_lookup wave n :
  runWave run clock wave !! n = if decide (n ∈ wave) then Some (invoke run clock n) else None.
Proof.
  unfold runWave. induction wave as [|m l IH] using rev_ind; simpl; [done|].
  rewrite fold_left_app. simpl.
  destruct (decide (n = m)) as [->|Hne].
  - rewrite lookup_insert_eq. rewrite decide_True; [done|set_solver].
  - rewrite lookup_insert_ne by done. rewrite IH.
    apply decide_ext. set_solver.
Qed.

Lemma readiness_of_mono (d d' : decisions_t) requires :
  d ⊆ d' -> readiness_of d requires <> Waiting ->
  readiness_of d' requires = readiness_of d requires.
Proof.
  intros Hsub. induction requires as [|dep rest IH]; simpl; [done|].
  destruct (d !! dep) as [x|] eqn:Hx; [|done].
  rewrite (lookup_weaken _ _ _ _ Hx Hsub). by destruct (unmet x).
Qed.

(** A blocked stage's detail is settled: its first unmet requirement comes
    after decided requirements only. *)
Lemma blockedDetail_mono (d d' : decisions_t) stage requires :
  d ⊆ d' -> readiness_of d requires = Blocked ->
  blockedDetail stage requires d' = blockedDetail stage requires d.
Proof.
  intros Hsub. induction requires as [|dep rest IH]; simpl; [done|].
  destruct (d !! dep) as [x|] eqn:Hx; [|done].
  rewrite (lookup_weaken _ _ _ _ Hx Hsub). destruct (unmet x); simpl; auto.
Qed.

Context (requiresOf : gmap Number (list Number)).
Abbreviation req n := (requires_of requiresOf n).

(** ** The specification

    [settled d n]: what is known of stage [n] from the decisions [d]. *)
Definition settled (d : decisions_t) (n : Number) : option (Decision Any) :=
  match readiness_of d (req n) with
  | Ready => Some (invoke run clock n)
  | Blocked => Some (blocked_decision requiresOf d n)
  | Waiting => None
  end.

(** Decisions that are closed under the rule, for exactly the declared stages. *)
Definition closed_decisions (declared : gset Number) (d : decisions_t) : Prop :=
  forall n, d !! n = if decide (n ∈ declared) then settled d n else None.

Lemma settled_mono d d' n x : d ⊆ d' -> settled d n = Some x -> settled d' n = Some x.
Proof.
  unfold settled, blocked_decision. intros Hsub Hs.
  destruct (readiness_of d (req n)) eqn:Hr; [| |done];
    rewrite (readiness_of_mono d d') by (done || by rewrite Hr); rewrite Hr; [done|].
  by rewrite (blockedDetail_mono d d') by done.
Qed.

Lemma record_blocked_lookup blocked (d d0 : decisions_t) n :
  d ⊆ d0 ->
  (forall m, m ∈ blocked -> readiness_of d (req m) = Blocked /\ d !! m = None) ->
  record_blocked requiresOf blocked d0 !! n =
    if decide (n ∈ blocked) then Some (blocked_decision requiresOf d n) else d0 !! n.
Proof.
  unfold record_blocked. revert d0. induction blocked as [|m l IH]; intros d0 Hsub Hb; simpl.
  { done. }
  destruct (Hb m) as [Hr Hn]; [by left|].
  assert (Heq : blocked_decision requiresOf d0 m = blocked_decision requiresOf d m).
  { unfold blocked_decision. by rewrite (blockedDetail_mono d d0). }
  rewrite IH; [|by apply insert_subseteq_r|by intros ? ?; apply Hb; right].
  destruct (decide (n ∈ l)) as [Hl|Hl].
  - by rewrite decide_True by (by right).
  - destruct (decide (n = m)) as [->|Hne].
    + rewrite lookup_insert_eq, decide_True by (by left). by rewrite Heq.
    + rewrite lookup_insert_ne by done. rewrite decide_False; [done|].
      by intros [?|?]%elem_of_cons.
Qed.

Lemma nextRoundStages_spec pending (d : decisions_t) ready blocked n :
  nextRoundStages pending requiresOf d = (ready, blocked) ->
  (n ∈ ready <-> n ∈ pending /\ readiness_of d (req n) = Ready) /\
  (n ∈ blocked <-> n ∈ pending /\ readiness_of d (req n) = Blocked).
Proof.
  unfold nextRoundStages. intros [= <- <-].
  rewrite !elem_of_sort_ints, !list_elem_of_In, !filter_In, <- !list_elem_of_In, !elem_of_elements.
  split; destruct (readiness_of d (req n)); simpl; intuition discriminate.
Qed.

Lemma nextRoundStages_NoDup pending (d : decisions_t) ready blocked :
  nextRoundStages pending requiresOf d = (ready, blocked) -> NoDup ready.
Proof.
  unfold nextRoundStages. intros [= <- _]. rewrite sort_ints_perm.
  apply NoDup_ListNoDup, List.NoDup_filter, NoDup_ListNoDup, NoDup_elements.
Qed.

(** ** The loop invariant *)

Context (classes : gmap Number ResourceClass) (declared : gset Number).
Abbreviation exclusive n := (Exclusive (default "" (classes !! n)) = true).

Definition requires_edge (n m : Number) : Prop := m ∈ req n.

Record round_inv (pending : gset Number) (d : decisions_t) : Prop := {
  inv_split n : n ∈ declared <-> n ∈ pending \/ is_Some (d !! n);
  inv_pending n : n ∈ pending -> d !! n = None;
  inv_settled n x : d !! n = Some x -> settled d n = Some x;
  inv_least d2 : closed_decisions declared d2 -> d ⊆ d2;
  inv_cause n x :
    d !! n = Some x -> unmet x = true ->
    exists m, rtc requires_edge n m /\ d !! m = Some (invoke run clock m) /\
      unmet (invoke run clock m) = true;
}.

(** What the waves run so far have respected. *)
Record waves_inv (d : decisions_t) (waves : list (list Number)) : Prop := {
  waves_NoDup : NoDup (concat waves);
  waves_measured n :
    n ∈ concat waves <-> exists x, d !! n = Some x /\ Decision_Measured x = true;
  waves_order pre w post n dep :
    waves = pre ++ w :: post -> n ∈ w -> dep ∈ req n -> dep ∈ concat pre;
  waves_exclusive w n :
    0 ∉ declared -> w ∈ waves -> n ∈ w -> exclusive n -> w = [n];
}.

Lemma invoke_measured n : Decision_Measured (invoke run clock n) = true.
Proof. unfold invoke. by destruct (run n) as [[??]?]. Qed.

Lemma settled_met_measured d n x :
  settled d n = Some x -> unmet x = false -> Decision_Measured x = true.
Proof.
  unfold settled. destruct (readiness_of _ _); intros [= <-]; [|done].
  intros _. apply invoke_measured.
Qed.

Lemma readiness_Ready (d : decisions_t) requires :
  readiness_of d requires = Ready <->
  forall dep, dep ∈ requires -> exists x, d !! dep = Some x /\ unmet x = false.
Proof.
  induction requires as [|m l IH]; simpl; [split; [intros _ ? []%not_elem_of_nil|done]|].
  split.
  - destruct (d !! m) as [x|] eqn:Hm; [|done]. destruct (unmet x) eqn:Hu; [done|].
    intros Hr dep [->|Hd]%elem_of_cons; [eauto|]. by apply IH.
  - intros Hall. destruct (Hall m) as (x & -> & ->); [by left|].
    apply IH. intros dep Hd. apply Hall. by right.
Qed.

Lemma readiness_Blocked (d : decisions_t) requires :
  readiness_of d requires = Blocked ->
  exists dep x, dep ∈ requires /\ d !! dep = Some x /\ unmet x = true.
Proof.
  induction requires as [|m l IH]; simpl; [done|].
  destruct (d !! m) as [x|] eqn:Hm; [|done]. destruct (unmet x) eqn:Hu.
  - intros _. exists m, x. split_and!; [by left|done..].
  - intros (dep & y & Hd & Hy)%IH. exists dep, y. split; [by right|done].
Qed.

(** Deciding a set of pending stages whose decision is settled. *)
Lemma round_inv_extend (S : list Number) pending (d d' : decisions_t) :
  round_inv pending d ->
  (forall n, n ∈ S -> n ∈ pending /\ is_Some (settled d n)) ->
  (forall n, d' !! n = if decide (n ∈ S) then settled d n else d !! n) ->
  d ⊆ d' /\ round_inv (pending ∖ list_to_set S) d'.
Proof.
  intros [Hsp Hpe Hse Hle Hca] HS Hd'.
  assert (Hsub : d ⊆ d').
  { apply map_subseteq_spec. intros n x Hx. rewrite Hd'. destruct (decide (n ∈ S)); [|done].
    by apply Hse. }
  split; [done|]. split.
  - intros n. rewrite Hsp, elem_of_difference, elem_of_list_to_set, Hd'.
    destruct (decide (n ∈ S)) as [Hn|Hn]; [|tauto].
    destruct (HS n Hn) as [Hp Hsome]. split; [by right|by left].
  - intros n [Hn Hns]%elem_of_difference. rewrite elem_of_list_to_set in Hns.
    rewrite Hd', decide_False by done. by apply Hpe.
  - intros n x. rewrite Hd'. intros Hx. apply (settled_mono d); [done|].
    destruct (decide (n ∈ S)); [done|by apply Hse].
  - intros d2 Hd2. apply map_subseteq_spec. intros n x. rewrite Hd'.
    destruct (decide (n ∈ S)) as [Hn|]; 
      [|by intros Hx; apply (lookup_weaken d); auto].
    intros Hx. rewrite Hd2, decide_True; [by apply (settled_mono d); auto|].
    apply Hsp. left. by apply HS.
  - intros n x Hx Hu. rewrite Hd' in Hx. destruct (decide (n ∈ S)) as [Hn|].
    + revert Hx. unfold settled. destruct (readiness_of d (req n)) eqn:Hr; intros [= <-].
      * exists n. split_and!; [done| |done]. rewrite Hd', decide_True by done.
        unfold settled. by rewrite Hr.
      * destruct (readiness_Blocked _ _ Hr) as (dep & y & Hdep & Hy & Huy).
        destruct (Hca dep y Hy Huy) as (m & Hm & Hmd & Hmu). exists m.
        split_and!; [by eapply rtc_l|by apply (lookup_weaken d)|done].
    + destruct (Hca n x Hx Hu) as (m & Hm & Hmd & Hmu). exists m.
      split_and!; [done|by apply (lookup_weaken d)|done].
Qed.

Lemma waves_inv_blocked (d d' : decisions_t) waves :
  d ⊆ d' ->
  (forall n x, d' !! n = Some x -> Decision_Measured x = true -> d !! n = Some x) ->
  waves_inv d waves -> waves_inv d' waves.
Proof.
  intros Hsub Hold [H1 H2 H3 H4]. split; [done| |done|done].
  intros n. rewrite H2. split; intros (x & Hx & Hm); exists x; split; eauto using lookup_weaken.
Qed.

Lemma waves_inv_wave wave pending (d : decisions_t) waves :
  round_inv pending d -> waves_inv d waves ->
  NoDup wave ->
  (forall n, n ∈ wave -> n ∈ pending /\ readiness_of d (req n) = Ready) ->
  (forall n, 0 ∉ declared -> n ∈ wave -> exclusive n -> wave = [n]) ->
  waves_inv (runWave run clock wave ∪ d) (waves ++ [wave]).
Proof.
  intros Hinv [H1 H2 H3 H4] Hnd Hready Hexcl.
  assert (Hc : concat (waves ++ [wave]) = concat waves ++ wave).
  { rewrite concat_app. simpl. by rewrite app_nil_r. }
  assert (Hdisj : forall n, n ∈ wave -> n ∉ concat waves).
  { intros n Hn (x & Hx & _)%H2. destruct (Hready n Hn) as [Hp _].
    by rewrite (inv_pending _ _ Hinv n Hp) in Hx. }
  split.
  - rewrite Hc. apply NoDup_app. split; [done|]. split; [|done].
    intros n Hn Hw. by apply (Hdisj n).
  - intros n. rewrite Hc, elem_of_app, H2. 
    rewrite lookup_union, runWave_lookup. destruct (decide (n ∈ wave)) as [Hw|Hw].
    + split; [intros _|by right]. exists (invoke run clock n). split.
      * by destruct (d !! n).
      * apply invoke_measured.
    + destruct (d !! n); simpl; tauto.
  - intros pre w post n dep Heq Hn Hdep.
    destruct (exists_last_or_nil post) as [->|(post' & w' & ->)].
    + apply app_inj_tail in Heq as [-> ->]. destruct (Hready n Hn) as [_ Hr].
      destruct (proj1 (readiness_Ready _ _) Hr dep Hdep) as (x & Hx & Hu).
      apply H2. exists x. split; [done|].
      eapply settled_met_measured; [by apply (inv_settled _ _ Hinv)|done].
    + rewrite app_comm_cons, app_assoc in Heq. apply app_inj_tail in Heq as [Heq _].
      by eapply H3.
  - intros w n H0 [Hw|Hw%list_elem_of_singleton]%elem_of_app Hn He; [by eapply H4|].
    subst w. by apply Hexcl.
Qed.

Lemma lowestExclusive_spec wave :
  (lowestExclusive wave classes = 0 /\ forall n, n ∈ wave -> 0 ∉ wave -> ~ exclusive n) \/
  (lowestExclusive wave classes ∈ wave /\ exclusive (lowestExclusive wave classes)).
Proof.
  induction wave as [|m l IH]; simpl.
  - left. split; [done|]. by intros ? ?%not_elem_of_nil.
  - destruct (Exclusive (default "" (classes !! m))) eqn:He.
    + right. split; [by left|done].
    + destruct IH as [[IH1 IH2]|[IH1 IH2]].
      * left. split; [done|]. intros n [->|Hn]%elem_of_cons H0; [congruence|].
        apply IH2; [done|]. intros ?. apply H0. by right.
      * right. split; [by right|done].
Qed.

Lemma choose_wave_spec ready :
  NoDup ready -> ready <> [] ->
  NoDup (choose_wave ready classes) /\ choose_wave ready classes <> [] /\
  (forall n, n ∈ choose_wave ready classes -> n ∈ ready) /\
  (forall n, 0 ∉ ready -> n ∈ choose_wave ready classes -> exclusive n ->
    choose_wave ready classes = [n]).
Proof.
  intros Hnd Hne. unfold choose_wave.
  destruct (lowestExclusive_spec ready) as [[H0 Hx]|[Hin Hx]].
  - rewrite H0. simpl. repeat split; auto. intros n Hz Hn He. by destruct (Hx n Hn Hz).
  - destruct (lowestExclusive ready classes =? 0)%Z eqn:Hz; simpl.
    + apply Z.eqb_eq in Hz. rewrite Hz in Hin. by repeat split; auto.
    + split_and!; [by apply NoDup_singleton|done| |].
      * by intros n ->%list_elem_of_singleton.
      * by intros n _ ->%list_elem_of_singleton.
Qed.

Lemma round_blocked pending (d : decisions_t) waves ready blocked :
  round_inv pending d -> waves_inv d waves ->
  nextRoundStages pending requiresOf d = (ready, blocked) ->
  d ⊆ record_blocked requiresOf blocked d /\
  round_inv (pending ∖ list_to_set blocked) (record_blocked requiresOf blocked d) /\
  waves_inv (record_blocked requiresOf blocked d) waves.
Proof.
  intros Hinv Hw Hnext.
  assert (Hb : forall n, n ∈ blocked -> n ∈ pending /\ readiness_of d (req n) = Blocked).
  { intros n. by apply (nextRoundStages_spec pending d ready). }
  assert (Hl : forall n, record_blocked requiresOf blocked d !! n =
            if decide (n ∈ blocked) then Some (blocked_decision requiresOf d n) else d !! n).
  { intros n. apply record_blocked_lookup; [done|]. intros m Hm.
    destruct (Hb m Hm). by split; [|apply (inv_pending _ _ Hinv)]. }
  destruct (round_inv_extend blocked pending d (record_blocked requiresOf blocked d))
    as [Hsub Hinv']; [done| | |].
  - intros n Hn. destruct (Hb n Hn) as [? Hr]. unfold settled. rewrite Hr. by split; [|eexists].
  - intros n. rewrite Hl. destruct (decide (n ∈ blocked)) as [Hn|]; [|done].
    unfold settled. by rewrite (proj2 (Hb n Hn)).
  - split_and!; [done..|]. apply (waves_inv_blocked d); [done| |done].
    intros n x. rewrite Hl. destruct (decide (n ∈ blocked)); [|done]. by intros [= <-].
Qed.

Lemma round_wave wave pending (d : decisions_t) waves :
  round_inv pending d -> waves_inv d waves ->
  NoDup wave ->
  (forall n, n ∈ wave -> n ∈ pending /\ readiness_of d (req n) = Ready) ->
  (forall n, 0 ∉ declared -> n ∈ wave -> exclusive n -> wave = [n]) ->
  round_inv (pending ∖ list_to_set wave) (runWave run clock wave ∪ d) /\
  waves_inv (runWave run clock wave ∪ d) (waves ++ [wave]).
Proof.
  intros Hinv Hw Hnd Hready Hexcl. split; [|by apply (waves_inv_wave wave pending)].
  apply (round_inv_extend wave pending d); [done| |].
  - intros n Hn. destruct (Hready n Hn) as [? Hr]. unfold settled. rewrite Hr. by split; [|eexists].
  - intros n. rewrite lookup_union, runWave_lookup. destruct (decide (n ∈ wave)) as [Hn|].
    + unfold settled. rewrite (proj2 (Hready n Hn)). by destruct (d !! n).
    + by destruct (d !! n).
Qed.

Lemma pending_shrinks (S : list Number) (pending : gset Number) n :
  n ∈ S -> n ∈ pending -> (size (pending ∖ list_to_set S) < size pending)%nat.
Proof. intros Hn Hp. apply subset_size. set_solver. Qed.

(** The loop ends, in a state where nothing pending is settled. *)
Lemma rounds_spec fuel pending (d : decisions_t) waves :
  (size pending < fuel)%nat -> round_inv pending d -> waves_inv d waves ->
  exists pending' d' waves',
    rounds run clock fuel requiresOf classes pending d waves = Some (d', waves') /\
    round_inv pending' d' /\ waves_inv d' waves' /\
    (forall n, n ∈ pending' -> settled d' n = None).
Proof.
  revert pending d waves. induction fuel as [|fuel IH]; intros pending d waves Hf Hinv Hw; [lia|].
  cbn [rounds]. destruct (bool_decide_reflect (pending = ∅)) as [Hemp|_].
  { exists pending, d, waves. subst. split_and!; [done..|]. by intros n ?%not_elem_of_empty. }
  destruct (nextRoundStages pending requiresOf d) as [ready blocked] eqn:Hnext.
  pose proof (fun n => nextRoundStages_spec pending d ready blocked n Hnext) as Hspec.
  destruct (round_blocked pending d waves ready blocked Hinv Hw Hnext) as (Hsub & Hinv1 & Hw1).
  destruct ready as [|r ready].
  - destruct blocked as [|b blocked].
    + exists pending, d, waves. split_and!; [done..|]. intros n Hn. unfold settled.
      destruct (Hspec n) as [[_ H1] [_ H2]].
      destruct (readiness_of d (req n)); [..|done]; by (destruct (not_elem_of_nil n); auto).
    + apply IH; [|done..]. eapply Nat.lt_le_trans; [|apply Nat.lt_succ_r, Hf].
      apply (pending_shrinks _ _ b); [by left|]. apply Hspec. by left.
  - destruct (choose_wave_spec (r :: ready)) as (Hnd & Hne & Hin & Hex);
      [by eapply nextRoundStages_NoDup|done|].
    assert (Hpend : forall n, n ∈ r :: ready ->
      n ∈ pending ∖ list_to_set blocked /\
      readiness_of (record_blocked requiresOf blocked d) (req n) = Ready).
    { intros n Hn. destruct (Hspec n) as [[Hr _] [Hb _]]. destruct (Hr Hn) as [Hp Hrd]. split.
      - apply elem_of_difference. split; [done|]. rewrite elem_of_list_to_set.
        intros [_ Hbl]%Hb. congruence.
      - rewrite (readiness_of_mono d); [done|done|by rewrite Hrd]. }
    destruct (round_wave (choose_wave (r :: ready) classes) _ _ waves Hinv1 Hw1) as [Hinv2 Hw2];
      [done|by auto| |].
    { intros n H0 Hn He. apply Hex; [|done..]. intros Hz. apply H0.
      apply (inv_split _ _ Hinv). left.
      exact (proj1 (proj1 (proj1 (Hspec 0)) Hz)). }
    assert (Hgoal : (size ((pending ∖ list_to_set blocked) ∖
              list_to_set (choose_wave (r :: ready) classes)) < fuel)%nat).
    { destruct (choose_wave (r :: ready) classes) as [|m l] eqn:Hcw; [done|].
      assert (Hm : m ∈ m :: l) by (by left).
      destruct (Hpend m (Hin m Hm)) as [Hmp _].
      pose proof (pending_shrinks (m :: l) _ m Hm Hmp).
      assert (size (pending ∖ list_to_set blocked) <= size pending)%nat
        by (apply subseteq_size; set_solver). lia. }
    by destruct blocked; apply IH.
Qed.

Lemma closed_of_inv pending (d : decisions_t) :
  round_inv pending d -> (forall n, n ∈ pending -> settled d n = None) ->
  closed_decisions declared d.
Proof.
  intros [Hsp Hpe Hse _ _] Hend n. destruct (decide (n ∈ declared)) as [Hn|Hn].
  - apply Hsp in Hn as [Hn|[x Hx]].
    + by rewrite Hpe, Hend.
    + rewrite Hx. symmetry. by apply Hse.
  - destruct (d !! n) eqn:Hx; [|done]. destruct Hn. apply Hsp. right. by eexists.
Qed.

Lemma round_inv_start : round_inv declared ∅ /\ waves_inv ∅ [].
Proof.
  split; split; try done; intros.
  - rewrite lookup_empty, is_Some_alt. tauto.
  - apply map_empty_subseteq.
  - constructor.
  - simpl. rewrite elem_of_nil. setoid_rewrite lookup_empty. naive_solver.
  - by destruct pre.
  - by destruct (not_elem_of_nil w).
Qed.

Lemma settled_stage d n x : settled d n = Some x -> Decision_Stage x = n.
Proof.
  unfold settled, invoke. destruct (run n) as [[??]?].
  by destruct (readiness_of _ _); intros [= <-].
Qed.
End Rounds.

(** ** Facts of a whole run *)

Section Schedule.
Context {Any : Type} (run : Runner Any) (clock : Number -> Z * Z).
Context (requirements : list Requirement).
Abbreviation declared := (declared_stages requirements).
Abbreviation requiresOf := (by_stage requirements).

Lemma schedule_spec classes :
  exists d waves, schedule run clock requirements classes = Some (d, waves) /\
    closed_decisions run clock requiresOf declared d /\
    (forall d2, closed_decisions run clock requiresOf declared d2 -> d ⊆ d2) /\
    (forall n x, d !! n = Some x -> unmet x = true ->
      exists m, rtc (requires_edge requiresOf) n m /\ d !! m = Some (invoke run clock m) /\
        unmet (invoke run clock m) = true) /\
    waves_inv requiresOf classes declared d waves.
Proof.
  destruct (round_inv_start run clock requiresOf classes declared) as [H1 H2].
  destruct (rounds_spec run clock requiresOf classes declared (S (size declared)) declared ∅ [])
    as (p & d & w & Hr & Hinv & Hw & Hend); [lia|done..|].
  exists d, w. split_and!; [done|by eapply closed_of_inv| | |done].
  - apply Hinv.
  - intros n x. apply (inv_cause _ _ _ _ _ _ Hinv).
Qed.

(** The least solution does not depend on the classes. *)
Lemma schedule_unique c1 c2 d1 w1 d2 w2 :
  schedule run clock requirements c1 = Some (d1, w1) ->
  schedule run clock requirements c2 = Some (d2, w2) -> d1 = d2.
Proof.
  destruct (schedule_spec c1) as (? & ? & -> & Hc1 & Hl1 & _).
  destruct (schedule_spec c2) as (? & ? & -> & Hc2 & Hl2 & _).
  intros [= -> ->] [= -> ->]. apply (anti_symm (⊆)); auto.
Qed.

Lemma decision_key classes d waves n x :
  schedule run clock requirements classes = Some (d, waves) ->
  d !! n = Some x -> Decision_Stage x = n.
Proof.
  destruct (schedule_spec classes) as (? & ? & -> & Hc & _). intros [= -> ->].
  rewrite Hc. case_decide; [apply settled_stage|done].
Qed.

(** A table whose requirements are declared and strictly earlier. *)
Definition earlier_declared : Prop := forall n dep,
  n ∈ declared -> dep ∈ requires_of requiresOf n -> dep ∈ declared /\ (0 <= dep < n)%Z.

Lemma readiness_decided (d : gmap Number (Decision Any)) requires :
  (forall dep, dep ∈ requires -> is_Some (d !! dep)) -> readiness_of d requires <> Waiting.
Proof.
  induction requires as [|m l IH]; simpl; [done|]. intros Hall.
  destruct (Hall m) as [x ->]; [by left|]. destruct (unmet x); [done|].
  apply IH. intros dep Hd. apply Hall. by right.
Qed.

Lemma schedule_complete classes d waves n :
  earlier_declared -> schedule run clock requirements classes = Some (d, waves) ->
  is_Some (d !! n) <-> n ∈ declared.
Proof.
  intros He. destruct (schedule_spec classes) as (? & ? & -> & Hc & _). intros [= -> ->].
  split.
  - rewrite Hc. case_decide; [done|]. by intros [? [=]].
  - remember (Z.to_nat n) as k eqn:Hk. revert n Hk.
    induction k as [k IH] using lt_wf_ind. intros n -> Hn.
    rewrite Hc, decide_True by done. unfold settled.
    assert (Hr : readiness_of d (requires_of requiresOf n) <> Waiting).
    { apply readiness_decided. intros dep Hdep. destruct (He n dep Hn Hdep).
      apply (IH (Z.to_nat dep)); [lia|done..]. }
    destruct (readiness_of _ _); [by eexists..|done].
Qed.
End Schedule.

(** The keys of a sorted result. *)
Lemma RunConcurrently_spec {Any} (run : Runner Any) clock requirements classes :
  exists d waves,
    schedule run clock requirements classes = Some (d, waves) /\
    RunConcurrently run clock requirements classes =
      Some (merge_sort stage_le (map snd (map_to_list d)), waves) /\
    map Decision_Stage (merge_sort stage_le (map snd (map_to_list d))) =
      sort_ints (elements (dom d)) /\
    (forall x, x ∈ merge_sort stage_le (map snd (map_to_list d)) <->
      d !! Decision_Stage x = Some x).
Proof.
  destruct (schedule_spec run clock requirements classes) as (d & w & Hs & _).
  exists d, w. split; [done|]. split; [unfold RunConcurrently; by rewrite Hs|].
  assert (Hkeys : map Decision_Stage (map snd (map_to_list d)) ≡ₚ elements (dom d)).
  { rewrite dom_alt, elements_list_to_set; [|apply NoDup_fst_map_to_list].
    rewrite map_map. erewrite map_ext_in; [reflexivity|]. intros [n x] Hin. simpl.
    apply list_elem_of_In, elem_of_map_to_list in Hin.
    by apply (decision_key run clock requirements classes d w). }
  split.
  - apply (StronglySorted_unique (≤)%Z).
    + pose proof (StronglySorted_merge_sort stage_le (map snd (map_to_list d))) as Hst.
      induction Hst as [|x l Hst IH Hall]; simpl; constructor; [done|].
      apply Forall_fmap. exact Hall.
    + apply (StronglySorted_merge_sort (≤)%Z).
    + rewrite sort_ints_perm, <- Hkeys. apply Permutation_map, merge_sort_Permutation.
  - intros x. rewrite merge_sort_Permutation, list_elem_of_In, in_map_iff. split.
    + intros ([n y] & <- & Hin%list_elem_of_In%elem_of_map_to_list). simpl.
      by rewrite (decision_key run clock requirements classes d w n y).
    + intros Hx. exists (Decision_Stage x, x). split; [done|].
      by apply list_elem_of_In, elem_of_map_to_list.
Qed.

(** ** The goroutines of one wave *)

Section Wave.
Context {Any : Type} (run : Runner Any) (clock : Number -> Z * Z).
Context (maxWorkers : Z) (wave : list Number).
Abbreviation step := (wave_step run clock maxWorkers).

Record wave_inv (c : @wave_config Any) : Prop := {
  wave_all : waiting c ∪ running c ∪ dom (results c) = list_to_set wave;
  wave_apart : waiting c ## running c /\ waiting c ## dom (results c) /\
    running c ## dom (results c);
  wave_stored n x : results c !! n = Some x -> x = invoke run clock n;
  wave_bound : (0 < maxWorkers)%Z -> (Z.of_nat (size (running c)) <= maxWorkers)%Z;
}.

Lemma wave_inv_start : wave_inv (wave_start wave).
Proof.
  split; cbn [wave_start waiting running results].
  - rewrite dom_empty_L. set_solver.
  - rewrite dom_empty_L. set_solver.
  - intros n x. by rewrite lookup_empty.
  - rewrite size_empty. lia.
Qed.

Lemma wave_inv_step c c' : wave_inv c -> step c c' -> wave_inv c'.
Proof.
  intros Hinv Hst. revert Hinv.
  destruct Hst as [c n Hn Hsem|c n Hn]; intros [Ha (Hp1 & Hp2 & Hp3) Hs Hb]; split;
    cbn [waiting running results].
  - rewrite <- Ha. clear -Hn. apply set_eq. intros m.
    destruct (decide (m = n)) as [->|]; set_solver.
  - clear Ha Hs Hb. split_and!; set_solver.
  - done.
  - clear Ha. intros Hpos. rewrite size_union by set_solver. rewrite size_singleton. lia.
  - rewrite <- Ha, dom_insert_L. clear -Hn. apply set_eq. intros m.
    destruct (decide (m = n)) as [->|]; set_solver.
  - clear Ha Hs Hb. rewrite dom_insert_L. split_and!; set_solver.
  - intros m x. destruct (decide (m = n)) as [->|].
    + rewrite lookup_insert_eq. by intros [= <-].
    + rewrite lookup_insert_ne by done. apply Hs.
  - intros Hpos. specialize (Hb Hpos).
    assert (size (running c ∖ {[n]}) <= size (running c))%nat
      by (apply subseteq_size; clear; set_solver). lia.
Qed.

Lemma wave_progress c :
  (exists c', step c c') \/ (waiting c = ∅ /\ running c = ∅).
Proof.
  destruct (set_choose_or_empty (running c)) as [[n Hn]|Hr].
  { left. eexists. by apply (wave_finish _ _ _ c n). }
  destruct (set_choose_or_empty (waiting c)) as [[n Hn]|Hw].
  - left. eexists. apply (wave_admit _ _ _ c n); [done|].
    apply leibniz_equiv in Hr. rewrite Hr, size_empty. lia.
  - right. by split; apply leibniz_equiv.
Qed.

Lemma wave_stuck c : waiting c = ∅ /\ running c = ∅ <-> forall c', ~ step c c'.
Proof.
  split.
  - intros [Hw Hr] c' Hst. destruct Hst; set_solver.
  - intros Hno. destruct (wave_progress c) as [[c' Hc]|]; [by destruct (Hno c')|done].
Qed.

Definition wave_measure (c : @wave_config Any) : nat :=
  2 * size (waiting c) + size (running c).

Lemma wave_decreases c c' : step c c' -> (wave_measure c' < wave_measure c)%nat.
Proof.
  unfold wave_measure. intros [? n Hn _|? n Hn]; simpl.
  - rewrite size_difference by set_solver. rewrite size_singleton.
    assert (size (waiting c0) <> 0)%nat.
    { intros Hz%size_empty_inv. set_solver. }
    assert (size ({[n]} ∪ running c0) <= 1 + size (running c0))%nat.
    { rewrite size_union_alt, size_singleton.
      assert (size (running c0 ∖ {[n]}) <= size (running c0))%nat
        by (apply subseteq_size; set_solver). lia. }
    lia.
  - assert (size (running c0 ∖ {[n]}) < size (running c0))%nat
      by (apply subset_size; set_solver). lia.
Qed.

Lemma wave_final c : wave_inv c -> waiting c = ∅ /\ running c = ∅ ->
  results c = runWave run clock wave.
Proof.
  intros [Ha _ Hs _] [Hw Hr]. apply map_eq. intros n. rewrite runWave_lookup.
  rewrite Hw, Hr in Ha. destruct (results c !! n) as [x|] eqn:Hx.
  - rewrite decide_True; [by rewrite (Hs n x)|].
    apply elem_of_dom_2 in Hx. set_solver.
  - rewrite decide_False; [done|]. apply not_elem_of_dom in Hx. set_solver.
Qed.
End Wave.

(** ** Restricted tables *)

Lemma restrict_declared requirements stages :
  declared_stages (RestrictToStages requirements stages) = list_to_set stages.
Proof.
  unfold declared_stages, RestrictToStages. rewrite map_map. simpl. by rewrite map_id.
Qed.

Lemma restrict_requires requirements stages n dep :
  dep ∈ requires_of (by_stage (RestrictToStages requirements stages)) n ->
  dep ∈ stages /\ dep ∈ requires_of (by_stage requirements) n.
Proof.
  unfold RestrictToStages. generalize (by_stage requirements) as m. intros m.
  set (f := fun stage => mkRequirement stage _).
  assert (H : forall l (acc : gmap Number (list Number)),
    (dep ∈ requires_of acc n -> dep ∈ stages /\ dep ∈ requires_of m n) ->
    dep ∈ requires_of (fold_left (fun m r =>
      <[Requirement_Stage r := Requirement_Requires r]> m) (map f l) acc) n ->
    dep ∈ stages /\ dep ∈ requires_of m n).
  { induction l as [|x l IH]; intros acc Hacc; simpl; [done|]. apply IH.
    unfold requires_of. destruct (decide (n = x)) as [->|Hne].
    - rewrite lookup_insert_eq. simpl. rewrite list_elem_of_In, filter_In, <- list_elem_of_In.
      rewrite bool_decide_eq_true, elem_of_list_to_set. tauto.
    - by rewrite lookup_insert_ne by done. }
  apply H. unfold requires_of. rewrite lookup_empty. by intros ?%not_elem_of_nil.
Qed.

Lemma restrict_earlier requirements stages :
  table_wf requirements -> earlier_declared (RestrictToStages requirements stages).
Proof.
  intros Hwf n dep _ [Hs Hr]%restrict_requires. split.
  - by rewrite restrict_declared, elem_of_list_to_set.
  - apply (wf_requires _ Hwf) in Hr. lia.
Qed.

Lemma schedule_dom {Any} (run : Runner Any) clock requirements classes d waves :
  earlier_declared requirements ->
  schedule run clock requirements classes = Some (d, waves) ->
  dom d = declared_stages requirements.
Proof.
  intros He Hs. apply set_eq. intros n. rewrite elem_of_dom.
  by apply (schedule_complete run clock requirements classes d waves).
Qed.

(** ** Properties *)

(** [C10] [RunConcurrently] always returns, and what it returns is the least
    set of decisions closed under the rule of the pipeline: a declared stage
    whose requirements are all decided and hold has its runner's verdict, one
    with an unmet requirement after decided ones is blocked with the detail
    naming it, and any other stage is left undecided. The decisions come in
    ascending stage order, one for each decided stage. *)
Theorem RunConcurrently_least_solution {Any} (run : Runner Any) clock requirements classes :
  exists d decisions waves,
    RunConcurrently run clock requirements classes = Some (decisions, waves) /\
    closed_decisions run clock (by_stage requirements) (declared_stages requirements) d /\
    (forall d2,
      closed_decisions run clock (by_stage requirements) (declared_stages requirements) d2 ->
      d ⊆ d2) /\
    map Decision_Stage decisions = sort_ints (elements (dom d)) /\
    (forall x, x ∈ decisions <-> d !! Decision_Stage x = Some x).
Proof.
  destruct (RunConcurrently_spec run clock requirements classes) as (d & w & Hs & Hr & Hk & Hx).
  destruct (schedule_spec run clock requirements classes) as (d' & w' & Hs' & Hc & Hl & _).
  rewrite Hs in Hs'. injection Hs' as <- <-. eexists d, _, w. split_and!; [exact Hr|done..].
Qed.

(** The decisions of a run do not depend on the resource classes, and so
    not on how the stages fall into waves (PIPE-064). *)
Theorem RunConcurrently_classes_irrelevant {Any} (run : Runner Any) clock requirements c1 c2 :
  option_map fst (RunConcurrently run clock requirements c1) =
  option_map fst (RunConcurrently run clock requirements c2).
Proof.
  destruct (RunConcurrently_spec run clock requirements c1) as (d1 & w1 & Hs1 & -> & _).
  destruct (RunConcurrently_spec run clock requirements c2) as (d2 & w2 & Hs2 & -> & _).
  by rewrite (schedule_unique run clock requirements c1 c2 d1 w1 d2 w2).
Qed.

(** Inside a wave the goroutines may interleave in any way the semaphore
    allows. Whatever they have done so far, no more than a positive
    [maxWorkers] run at once; they are stuck only when all are done, and then
    the stored results are [runWave]'s; and from any reachable configuration
    they do finish. *)
Theorem runWave_every_interleaving {Any} (run : Runner Any) clock maxWorkers wave c :
  rtc (wave_step run clock maxWorkers) (wave_start wave) c ->
  ((0 < maxWorkers)%Z -> (Z.of_nat (size (running c)) <= maxWorkers)%Z) /\
  ((forall c', ~ wave_step run clock maxWorkers c c') -> results c = runWave run clock wave) /\
  (exists c', rtc (wave_step run clock maxWorkers) c c' /\ results c' = runWave run clock wave).
Proof.
  intros Hr.
  assert (Hinv : forall c', rtc (wave_step run clock maxWorkers) c c' ->
    wave_inv run clock maxWorkers wave c').
  { intros c' Hc'. apply (rtc_invariant (wave_step run clock maxWorkers) _ (wave_start wave) c').
    - apply wave_inv_step.
    - by transitivity c.
    - apply wave_inv_start. }
  assert (Hend : forall c', rtc (wave_step run clock maxWorkers) c c' ->
    (forall z, ~ wave_step run clock maxWorkers c' z) -> results c' = runWave run clock wave).
  { intros c' Hc' Hst%wave_stuck. eapply wave_final; eauto. }
  split_and!.
  - by apply (wave_bound _ _ _ _ _ (Hinv c (rtc_refl _ c))).
  - by apply Hend.
  - destruct (measure_normalizes (wave_step run clock maxWorkers) wave_measure c)
      as (c' & Hc' & Hst); [apply wave_decreases| |by eauto].
    intros a. destruct (wave_progress run clock maxWorkers a) as [|Hs]; [by left|right].
    by apply wave_stuck.
Qed.

Lemma runWave_every_interleaving_witness :
  let run : Runner unit := fun _ => (StateSatisfied, "", None) in
  exists c', rtc (wave_step run (fun n => (n, n)) 1) (wave_start [3; 4]%Z) c' /\
    results c' = runWave run (fun n => (n, n)) [3; 4]%Z.
Proof.
  intros run. eapply (runWave_every_interleaving run (fun n => (n, n)) 1 [3; 4]%Z (wave_start [3; 4]%Z)).
  apply rtc_refl.
Defined.

(** Restricting the shipped requirements to any list of stages gives a
    table [RunConcurrently] decides completely, whatever the runner says: one
    decision for each listed stage, in ascending order, and no other. *)
Theorem RunConcurrently_restricted_complete {Any} (run : Runner Any) clock classes stages :
  exists decisions waves,
    RunConcurrently run clock (RestrictToStages Requirements stages) classes =
      Some (decisions, waves) /\
    map Decision_Stage decisions = sort_ints (elements (list_to_set stages : gset Number)).
Proof.
  destruct (RunConcurrently_spec run clock (RestrictToStages Requirements stages) classes)
    as (d & w & Hs & Hr & Hk & _).
  eexists _, w. split; [exact Hr|]. rewrite Hk, <- (restrict_declared Requirements).
  f_equal. f_equal. apply (schedule_dom run clock _ classes d w); [|exact Hs].
  exact (restrict_earlier Requirements stages Requirements_wf).
Qed.

(** A stage is run exactly when every stage it requires was run or
    recorded and holds; otherwise it is blocked without being run, and down
    its chain of requirements there is a stage that was run and whose own
    verdict did not hold (PIPE-063). *)
Theorem blocked_has_a_cause {Any} (run : Runner Any) clock requirements classes d waves n x :
  schedule run clock requirements classes = Some (d, waves) -> d !! n = Some x ->
  (x = invoke run clock n /\
   forall dep, dep ∈ requires_of (by_stage requirements) n ->
     exists y, d !! dep = Some y /\ unmet y = false) \/
  (Decision_State x = StateBlocked /\ Decision_Measured x = false /\
   exists m, m <> n /\ rtc (requires_edge (by_stage requirements)) n m /\
     d !! m = Some (invoke run clock m) /\ unmet (invoke run clock m) = true).
Proof.
  destruct (schedule_spec run clock requirements classes) as (d' & w' & -> & Hc & _ & Hca & _).
  intros [= <- <-] Hx. pose proof Hx as Hs. rewrite Hc in Hs. case_decide; [|done].
  unfold settled in Hs. destruct (readiness_of _ _) eqn:Hr; simplify_eq.
  - left. split; [done|]. by apply readiness_Ready.
  - right. split_and!; [done..|]. destruct (Hca n _ Hx) as (m & Hm & Hdm & Hu); [done|].
    exists m. split_and!; [|done..]. intros ->. rewrite Hx in Hdm. injection Hdm as Hbad.
    pose proof (invoke_measured run clock n) as Hme. by rewrite <- Hbad in Hme.
Qed.

Lemma blocked_has_a_cause_witness :
  let run : Runner unit := fun n => (if (n =? 1)%Z then StateFailed else StateSatisfied, "", None) in
  let table := [mkRequirement 1 []; mkRequirement 2 [1%Z]; mkRequirement 3 [2%Z]] in
  exists d waves x, schedule run (fun n => (n, n)) table ∅ = Some (d, waves) /\
    d !! 3%Z = Some x /\
    exists m, m <> 3%Z /\ rtc (requires_edge (by_stage table)) 3%Z m /\
      d !! m = Some (invoke run (fun n => (n, n)) m) /\
      unmet (invoke run (fun n => (n, n)) m) = true.
Proof.
  intros run table.
  destruct (schedule run (fun n => (n, n)) table ∅) as [[d w]|] eqn:E; [|vm_compute in E; discriminate].
  destruct (d !! 3%Z) as [x|] eqn:Hx; [|exfalso; vm_compute in E; injection E as <- <-; vm_compute in Hx; discriminate].
  exists d, w, x. split_and!; [done..|].
  destruct (blocked_has_a_cause run (fun n => (n, n)) table ∅ d w 3%Z x E Hx) as [[Hi _]|(_ & _ & H)].
  - exfalso. vm_compute in E. injection E as <- <-. vm_compute in Hx. injection Hx as <-.
    vm_compute in Hi. discriminate.
  - exact H.
Defined.

(** The waves of a run: no stage is run twice, the stages of the waves
    are exactly those whose decision is measured, everything a stage requires
    ran in a strictly earlier wave, and (no stage being numbered 0) a wave
    with an exclusive-mutating stage has nothing else in it (PIPE-059). *)
Theorem waves_are_safe {Any} (run : Runner Any) clock requirements classes d waves :
  schedule run clock requirements classes = Some (d, waves) ->
  NoDup (concat waves) /\
  (forall n, n ∈ concat waves <-> exists x, d !! n = Some x /\ Decision_Measured x = true) /\
  (forall pre w post n dep, waves = pre ++ w :: post -> n ∈ w ->
    dep ∈ requires_of (by_stage requirements) n -> dep ∈ concat pre) /\
  (0%Z ∉ declared_stages requirements ->
   forall w n, w ∈ waves -> n ∈ w -> Exclusive (default "" (classes !! n)) = true -> w = [n]).
Proof.
  destruct (schedule_spec run clock requirements classes) as (d' & w' & -> & _ & _ & _ & Hw).
  intros [= <- <-]. destruct Hw as [H1 H2 H3 H4]. split_and!; eauto.
Qed.

Lemma waves_are_safe_witness :
  exists d waves, schedule holdEverything (fun n => (n, n)) Requirements ResourceClassMap = Some (d, waves) /\
    NoDup (concat waves) /\ [StageAtomMutation] ∈ waves.
Proof.
  destruct (schedule holdEverything (fun n => (n, n)) Requirements ResourceClassMap) as [[d w]|] eqn:E;
    [|vm_compute in E; discriminate].
  exists d, w. split_and!; [reflexivity|exact (proj1 (waves_are_safe _ _ _ _ _ _ E))|].
  vm_compute in E. injection E as <- <-. by_computation.
Defined.

(** The plan of the shipped tables: five stages at the widest wave, and the
    exclusive atom-mutation stage alone in its own. *)
Example shipped_plan :
  PlanWaves Requirements ResourceClassMap = Some
    [[1]; [2; 38]; [3]; [4]; [5]; [6; 7; 9]; [8]; [10; 25]; [11; 12]; [13]; [14; 15; 18];
     [16; 19]; [17; 20]; [21; 40]; [22; 41]; [23]; [24]; [26]; [27]; [28; 29; 30; 31; 33];
     [32; 34]; [35]; [36]; [37]; [39]]%Z.
Proof. vm_compute. reflexivity. Qed.
