(* ===== verification/Ladder.v ===== *)
(** * The escalation ladder's vocabulary
    (src/internal/pipeline/ladder.go and the model names, stage names and
    [rungCost] of escalation.go)

    A rung is a model and an effort, stored as [model:effort]. The file shows
    that reading and writing a rung are inverse to each other on the known
    rungs, and that [rungCost] is their position in the list of known rungs. *)

From Stdlib Require Import Ascii.
From S2P Require Import Prelude GoText Stages.
Open Scope string_scope.
Open Scope list_scope.

Definition EffortLow : string := "low".
Definition EffortMedium : string := "medium".
Definition EffortHigh : string := "high".
Definition EffortMax : string := "max".

Definition KnownEfforts : list string := [EffortLow; EffortMedium; EffortHigh; EffortMax].

Definition ModelLuna : string := "gpt-5.6-luna".
Definition ModelSol : string := "gpt-5.6-sol".

Definition KnownModels : list string := [ModelLuna; ModelSol].

Record Rung := mkRung { Rung_Model : string; Rung_Effort : string }.

Definition Rung_String (rung : Rung) : string :=
  Rung_Model rung +:+ ":" +:+ Rung_Effort rung.

Definition Rung_Describe (rung : Rung) : string :=
  Rung_Model rung +:+ " thinking at " +:+ Rung_Effort rung +:+ " effort".

Fixpoint contains (choices : list string) (value : string) : bool :=
  match choices with
  | [] => false
  | choice :: rest => if choice =? value then true else contains rest value
  end.

Definition ParseRung (value : string) : result string Rung :=
  let '(model, effort, found) := Cut value ":" in
  if negb found then
    Err (Quote value +:+ " is not a rung: a rung is a model and an effort level, " +:+
         "written model:effort")
  else if negb (contains KnownModels model) then
    Err (Quote value +:+ " names the model " +:+ Quote model +:+ ", which is not one of " +:+
         fmt_strings KnownModels)
  else if negb (contains KnownEfforts effort) then
    Err (Quote value +:+ " names the effort " +:+ Quote effort +:+ ", which is not one of " +:+
         fmt_strings KnownEfforts)
  else Ok (mkRung model effort).

Definition KnownRungs : list string :=
  flat_map (fun model => map (fun effort => Rung_String (mkRung model effort)) KnownEfforts)
    KnownModels.

Definition DefaultLadder : list string :=
  [ Rung_String (mkRung ModelLuna EffortLow);
    Rung_String (mkRung ModelLuna EffortMax);
    Rung_String (mkRung ModelSol EffortLow);
    Rung_String (mkRung ModelSol EffortHigh) ].

Definition DefaultApprovalRungs : list string := [Rung_String (mkRung ModelSol EffortMax)].

(** ** Which stages take an override (escalation.go) *)

Definition StageNameAssembly : string := "assembly".
Definition StageNameAtomVerification : string := "atom-verification".
Definition StageNameEndToEndTests : string := "end-to-end-tests".
Definition StageNameAdversarial : string := "adversarial".

Definition ModelBearing (stage : string) : bool :=
  (stage =? StageNameAssembly) || (stage =? StageNameAtomVerification) ||
  (stage =? StageNameEndToEndTests) || (stage =? StageNameAdversarial).

Definition ModelBearingStages : list string :=
  List.filter ModelBearing (map Stage_Name Flow).

(** ** The order of rungs (escalation.go) *)

(** The last index a name has in a list, -1 when it has none: the two loops of
    [rungCost] over the known names. *)
Definition index_of (names : list string) (name : string) : Z :=
  fold_left (fun found '(index, named) => if named =? name then index else found)
    (imap (fun i named => (Z.of_nat i, named)) names) (-1)%Z.

Definition rungCost (rung : Rung) : Z :=
  (index_of KnownModels (Rung_Model rung) * Z.of_nat (length KnownEfforts) +
   index_of KnownEfforts (Rung_Effort rung))%Z.

(** ** Lemmas *)

Lemma contains_spec choices value : contains choices value = true <-> value ∈ choices.
Proof.
  induction choices as [|c l IH]; simpl.
  - by rewrite elem_of_nil.
  - rewrite elem_of_cons. destruct (String.eqb_spec c value) as [->|Hne].
    + split; [by left|done].
    + rewrite IH. split; [by right|]. by intros [->|].
Qed.

(** The eight known rungs, for case analysis. *)
Definition rungs : list Rung :=
  flat_map (fun model => map (mkRung model) KnownEfforts) KnownModels.

Lemma rungs_spec r : r ∈ rungs <-> Rung_Model r ∈ KnownModels /\ Rung_Effort r ∈ KnownEfforts.
Proof.
  unfold rungs. rewrite list_elem_of_In, in_flat_map. setoid_rewrite in_map_iff.
  rewrite !list_elem_of_In. destruct r as [m e]. simpl Rung_Model. simpl Rung_Effort. split.
  - intros (m' & Hm & e' & Heq & He). injection Heq as -> ->. by split.
  - intros [Hm He]. eauto.
Qed.

Lemma ParseRung_Ok value r :
  ParseRung value = Ok r <-> r ∈ rungs /\ value = Rung_String r.
Proof.
  split.
  - unfold ParseRung. destruct (Cut value ":") as [[model effort] found] eqn:Hc.
    destruct found; cbn [negb]; [|intros [=]].
    destruct (contains KnownModels model) eqn:Hm; cbn [negb]; [|intros [=]].
    destruct (contains KnownEfforts effort) eqn:He; cbn [negb]; [|intros [=]].
    intros [= <-]. split.
    + apply rungs_spec. split; by apply contains_spec.
    + by apply Cut_found in Hc.
  - intros [Hr ->]. revert r Hr. apply Forall_forall.
    repeat constructor.
Qed.

Lemma KnownRungs_strings : KnownRungs = map Rung_String rungs.
Proof. reflexivity. Qed.

Lemma parse_known value : is_ok (ParseRung value) = true <-> value ∈ KnownRungs.
Proof.
  rewrite KnownRungs_strings, list_elem_of_fmap. split.
  - destruct (ParseRung value) as [|r] eqn:Hp; [done|intros _].
    apply ParseRung_Ok in Hp as [Hr ->]. eauto.
  - intros (r & -> & Hr). by rewrite (proj2 (ParseRung_Ok (Rung_String r) r)).
Qed.

(** Reading and writing rungs. [ParseRung] succeeds exactly on the
    strings [KnownRungs] lists, it inverts [String], and [String] is what it
    read; a rung's cost is its position in [KnownRungs], so that list is in
    strictly ascending order of cost with every effort of the cheaper model
    before any of the dearer one. *)
Theorem rungs_round_trip :
  (forall value, is_ok (ParseRung value) = true <-> value ∈ KnownRungs) /\
  (forall value r, ParseRung value = Ok r -> Rung_String r = value) /\
  (forall value r, ParseRung value = Ok r <-> value = Rung_String r /\
     Rung_Model r ∈ KnownModels /\ Rung_Effort r ∈ KnownEfforts) /\
  (forall i value, KnownRungs !! i = Some value ->
     exists r, ParseRung value = Ok r /\ rungCost r = Z.of_nat i).
Proof.
  split_and!.
  - apply parse_known.
  - by intros value r [_ ->]%ParseRung_Ok.
  - intros value r. rewrite ParseRung_Ok, rungs_spec. tauto.
  - intros i value Hi. assert (i < 8)%nat by (by apply lookup_lt_Some in Hi).
    do 8 (destruct i as [|i]; [injection Hi as <-; eexists; split; reflexivity|]). lia.
Qed.

(** Two known rungs of the same cost are the same rung. *)
Lemma rungCost_inj r1 r2 :
  r1 ∈ rungs -> r2 ∈ rungs -> rungCost r1 = rungCost r2 -> r1 = r2.
Proof.
  assert (H : Forall (fun r1 => Forall (fun r2 => rungCost r1 = rungCost r2 ->
    Rung_Model r1 = Rung_Model r2 /\ Rung_Effort r1 = Rung_Effort r2) rungs) rungs)
    by by_computation.
  intros H1 H2 Hc. rewrite Forall_forall in H. specialize (H r1 H1).
  rewrite Forall_forall in H. destruct (H r2 H2 Hc). destruct r1, r2. simpl in *. congruence.
Qed.

Lemma rungCost_nonneg r : r ∈ rungs -> (0 <= rungCost r)%Z.
Proof. revert r. apply Forall_forall. by_computation. Qed.
