(* ===== verification/Settings.v ===== *)
(** * The choices a run leaves to a person
    (src/internal/pipeline/settings.go, and [validateEscalation] and
    [SortedStageModels] of escalation.go)

    [Settings] with its description, validation and the reading of the ladder.
    [StageModels] is a Go map; ranging over it visits its entries in an
    unspecified order, which [validateEscalation] and [Validate] take as the
    argument [order]. Errors are the message strings. *)

From S2P Require Import Prelude GoText Stages Ladder.
Open Scope string_scope.
Open Scope list_scope.

Record Settings := {
  Ambiguity : string;
  Platforms : string;
  MaximumAttempts : Z;
  MutationThresholdPercent : Z;
  RepetitionRuns : Z;
  SuiteBudgetSeconds : Z;
  FuzzSeconds : Z;
  HostileTimeoutSeconds : Z;
  TangleThreshold : Z;
  RequireTests : bool;
  RequireDocComments : bool;
  AdversarialReview : bool;
  CodeStyle : string;
  ModelLadder : list string;
  StallBeforeEscalation : Z;
  DecomposeWhenExhausted : bool;
  StageModels : gmap string string;
  PlanningRung : string;
  ApprovalRungs : list string;
  ForbiddenCapabilities : list string;
}.

Definition AmbiguityAsk : string := "ask".
Definition AmbiguityAssume : string := "assume".
Definition PlatformsHost : string := "host".
Definition PlatformsPortable : string := "portable".
Definition CapabilityNetwork : string := "network".
Definition CapabilityProcesses : string := "processes".
Definition CapabilityFilesystem : string := "filesystem".
Definition CapabilitySyscalls : string := "syscalls".
Definition CapabilityUnsafe : string := "unsafe".
Definition StyleNeutral : string := "neutral".
Definition StyleFunctional : string := "functional".

Definition DefaultSettings : Settings := {|
  Ambiguity := AmbiguityAsk;
  Platforms := PlatformsHost;
  MaximumAttempts := 6;
  MutationThresholdPercent := 50;
  RepetitionRuns := 3;
  SuiteBudgetSeconds := 60;
  FuzzSeconds := 20;
  HostileTimeoutSeconds := 10;
  TangleThreshold := 8;
  RequireTests := true;
  RequireDocComments := true;
  AdversarialReview := true;
  CodeStyle := StyleNeutral;
  ModelLadder := DefaultLadder;
  StallBeforeEscalation := 3;
  DecomposeWhenExhausted := true;
  StageModels := ∅;
  PlanningRung := Rung_String (mkRung ModelSol EffortHigh);
  ApprovalRungs := DefaultApprovalRungs;
  ForbiddenCapabilities := [] |}.

(** ** The description of the settings *)

Abbreviation ToggleKind := string.
Definition ToggleChoice : ToggleKind := "choice".
Definition ToggleNumber : ToggleKind := "number".
Definition ToggleSwitch : ToggleKind := "switch".
Definition ToggleSet : ToggleKind := "set".
Definition ToggleSequence : ToggleKind := "sequence".
Definition ToggleMapping : ToggleKind := "mapping".

Record Toggle := {
  Toggle_Key : string;
  Toggle_Label : string;
  Toggle_Help : string;
  Toggle_Kind : ToggleKind;
  Toggle_Choices : list string;
  Toggle_Minimum : Z;
  Toggle_Maximum : Z;
  Toggle_Group : string;
}.

Definition toggle_ambiguity : Toggle :=
  {| Toggle_Key := "ambiguity";
     Toggle_Label := "When a request reads two ways";
     Toggle_Help :=
       "Ask stops before doing anything and puts the question to you. Assume states the " +:+
       "narrowest defensible reading and gets on with it. Asking costs a round trip; " +:+
       "assuming costs being wrong without knowing it.";
     Toggle_Kind := ToggleChoice; Toggle_Choices := [AmbiguityAsk; AmbiguityAssume];
     Toggle_Minimum := 0; Toggle_Maximum := 0; Toggle_Group := "Intake" |}.

Definition toggle_platforms : Toggle :=
  {| Toggle_Key := "platforms";
     Toggle_Label := "Platforms a program must build for";
     Toggle_Help :=
       "Host checks the machine you are on. Portable also cross-compiles for Linux, macOS " +:+
       "and Windows, which costs a build per platform on every run and only matters if you " +:+
       "ship to them.";
     Toggle_Kind := ToggleChoice; Toggle_Choices := [PlatformsHost; PlatformsPortable];
     Toggle_Minimum := 0; Toggle_Maximum := 0; Toggle_Group := "Build" |}.

Definition toggle_maximum_attempts : Toggle :=
  {| Toggle_Key := "maximum_attempts";
     Toggle_Label := "Attempts before stopping";
     Toggle_Help :=
       "How many times a run may rewrite its own work when a check fails. Each attempt is a " +:+
       "full model round, so this is the main thing a run costs. It is the allowance on " +:+
       "each rung of the model ladder, not the whole run: a run that escalates starts the " +:+
       "new model on a fresh one.";
     Toggle_Kind := ToggleNumber; Toggle_Choices := [];
     Toggle_Minimum := 1; Toggle_Maximum := 12; Toggle_Group := "Refinement" |}.

Definition toggle_mutation_threshold_percent : Toggle :=
  {| Toggle_Key := "mutation_threshold_percent";
     Toggle_Label := "Defects the tests must catch";
     Toggle_Help :=
       "Deliberate faults are injected and the tests are run. Below this share caught, the " +:+
       "tests are not treated as able to detect anything. Raising it finds weaker suites " +:+
       "and costs a test run per fault.";
     Toggle_Kind := ToggleNumber; Toggle_Choices := [];
     Toggle_Minimum := 0; Toggle_Maximum := 100; Toggle_Group := "Verification" |}.

Definition toggle_repetition_runs : Toggle :=
  {| Toggle_Key := "repetition_runs";
     Toggle_Label := "Times to repeat the suite";
     Toggle_Help :=
       "Repeating tells a correct program from an intermittently correct one. One run " +:+
       "cannot. Set to 1 to skip the check.";
     Toggle_Kind := ToggleNumber; Toggle_Choices := [];
     Toggle_Minimum := 1; Toggle_Maximum := 20; Toggle_Group := "Verification" |}.

Definition toggle_suite_budget_seconds : Toggle :=
  {| Toggle_Key := "suite_budget_seconds";
     Toggle_Label := "Seconds the tests may take";
     Toggle_Help :=
       "Past this, a slow suite is treated as its own problem rather than a passing one.";
     Toggle_Kind := ToggleNumber; Toggle_Choices := [];
     Toggle_Minimum := 1; Toggle_Maximum := 3600; Toggle_Group := "Verification" |}.

Definition toggle_fuzz_seconds : Toggle :=
  {| Toggle_Key := "fuzz_seconds";
     Toggle_Label := "Seconds to fuzz each target";
     Toggle_Help :=
       "Applies only where the run wrote a fuzz target. Zero turns fuzzing off, which is " +:+
       "the truth on a program with nothing to parse.";
     Toggle_Kind := ToggleNumber; Toggle_Choices := [];
     Toggle_Minimum := 0; Toggle_Maximum := 600; Toggle_Group := "Verification" |}.

Definition toggle_hostile_timeout_seconds : Toggle :=
  {| Toggle_Key := "hostile_timeout_seconds";
     Toggle_Label := "Seconds a program may take on hostile input";
     Toggle_Help :=
       "A produced program is run against input nobody intended. Past this it counts as " +:+
       "hung rather than slow.";
     Toggle_Kind := ToggleNumber; Toggle_Choices := [];
     Toggle_Minimum := 1; Toggle_Maximum := 120; Toggle_Group := "Verification" |}.

Definition toggle_tangle_threshold : Toggle :=
  {| Toggle_Key := "tangle_threshold";
     Toggle_Label := "Decision points before splitting";
     Toggle_Help :=
       "A function with more branches than this is asked to be broken up. Lower is stricter " +:+
       "and produces more rewriting.";
     Toggle_Kind := ToggleNumber; Toggle_Choices := [];
     Toggle_Minimum := 2; Toggle_Maximum := 40; Toggle_Group := "Quality" |}.

Definition toggle_require_tests : Toggle :=
  {| Toggle_Key := "require_tests";
     Toggle_Label := "Every function needs its own test";
     Toggle_Help :=
       "A test that calls the function directly, not one that reaches it through something " +:+
       "else. Off, a run may ship functions nothing has examined.";
     Toggle_Kind := ToggleSwitch; Toggle_Choices := [];
     Toggle_Minimum := 0; Toggle_Maximum := 0; Toggle_Group := "Quality" |}.

Definition toggle_require_doc_comments : Toggle :=
  {| Toggle_Key := "require_doc_comments";
     Toggle_Label := "Every function needs a comment";
     Toggle_Help :=
       "A doc comment on the declaration saying what it is for and how it works. Off, the " +:+
       "code ships undocumented.";
     Toggle_Kind := ToggleSwitch; Toggle_Choices := [];
     Toggle_Minimum := 0; Toggle_Maximum := 0; Toggle_Group := "Quality" |}.

Definition toggle_code_style : Toggle :=
  {| Toggle_Key := "code_style";
     Toggle_Label := "House style for produced code";
     Toggle_Help :=
       "Neutral asks only for what is true of any working program. Functional additionally " +:+
       "asks for small total functions, values rather than mutation, and effects pushed to " +:+
       "the edges. Neutral is the default because a style the engine applies without being " +:+
       "asked is a bias, not a standard.";
     Toggle_Kind := ToggleChoice; Toggle_Choices := [StyleNeutral; StyleFunctional];
     Toggle_Minimum := 0; Toggle_Maximum := 0; Toggle_Group := "Quality" |}.

Definition toggle_adversarial_review : Toggle :=
  {| Toggle_Key := "adversarial_review";
     Toggle_Label := "Review work that already passes";
     Toggle_Help :=
       "Attacks work once every gate holds, looking for surviving defects, swallowed " +:+
       "failures and untried inputs. It costs an attempt and is the only check that asks " +:+
       "whether the tests are worth anything.";
     Toggle_Kind := ToggleSwitch; Toggle_Choices := [];
     Toggle_Minimum := 0; Toggle_Maximum := 0; Toggle_Group := "Quality" |}.

Definition toggle_model_ladder : Toggle :=
  {| Toggle_Key := "model_ladder";
     Toggle_Label := "Models to climb, cheapest first";
     Toggle_Help :=
       "Every run starts on the first and moves up only when it stops making progress, so " +:+
       "the expensive model is paid for on the requests that need it and nothing else. Each " +:+
       "rung gets its own full allowance of attempts, so a longer ladder raises what a " +:+
       "stuck run can cost; one model means runs never escalate.";
     Toggle_Kind := ToggleSequence; Toggle_Choices := KnownRungs;
     Toggle_Minimum := 0; Toggle_Maximum := 0; Toggle_Group := "Escalation" |}.

Definition toggle_planning_rung : Toggle :=
  {| Toggle_Key := "planning_rung";
     Toggle_Label := "Model that decides how work is split";
     Toggle_Help :=
       "Does not climb: it is at the top from the first request. Planning is a handful of " +:+
       "tokens every later attempt is spent against, and a decomposition that misses a " +:+
       "behaviour is paid for on every rung, on every attempt. Lowering this is the " +:+
       "cheapest saving on paper and the most expensive in practice.";
     Toggle_Kind := ToggleChoice; Toggle_Choices := KnownRungs;
     Toggle_Minimum := 0; Toggle_Maximum := 0; Toggle_Group := "Escalation" |}.

Definition toggle_approval_rungs : Toggle :=
  {| Toggle_Key := "approval_rungs";
     Toggle_Label := "Rungs that need a person to say yes";
     Toggle_Help :=
       "A run stops rather than climbing to one of these, and says what it tried and what " +:+
       "the step would cost. There is no resume: the run ends and is started again once the " +:+
       "rung is allowed, so this is a stop, not a pause.";
     Toggle_Kind := ToggleSet; Toggle_Choices := KnownRungs;
     Toggle_Minimum := 0; Toggle_Maximum := 0; Toggle_Group := "Escalation" |}.

Definition toggle_stall_before_escalation : Toggle :=
  {| Toggle_Key := "stall_before_escalation";
     Toggle_Label := "Repeated identical failures before moving up";
     Toggle_Help :=
       "Counted on the same gate failing with the same message, not on attempts. A run " +:+
       "failing something different each time is converging and is left alone. Lower " +:+
       "reaches the better model sooner and costs more; higher spends attempts proving the " +:+
       "cheap model cannot do it.";
     Toggle_Kind := ToggleNumber; Toggle_Choices := [];
     Toggle_Minimum := 1; Toggle_Maximum := 10; Toggle_Group := "Escalation" |}.

Definition toggle_decompose_when_exhausted : Toggle :=
  {| Toggle_Key := "decompose_when_exhausted";
     Toggle_Label := "Split the request at the top";
     Toggle_Help :=
       "When the best model has also stalled, break the request into smaller units and " +:+
       "start again rather than keep asking. Off, the run stops and says where it got stuck.";
     Toggle_Kind := ToggleSwitch; Toggle_Choices := [];
     Toggle_Minimum := 0; Toggle_Maximum := 0; Toggle_Group := "Escalation" |}.

Definition toggle_stage_models : Toggle :=
  {| Toggle_Key := "stage_models";
     Toggle_Label := "Model for particular stages";
     Toggle_Help :=
       "Pins a stage to a model whatever rung the ladder is on, for the one part of the " +:+
       "work a project already knows is harder than the rest. Only stages that make a model " +:+
       "request can take one; the others are analysis and would ignore it.";
     Toggle_Kind := ToggleMapping; Toggle_Choices := KnownRungs;
     Toggle_Minimum := 0; Toggle_Maximum := 0; Toggle_Group := "Escalation" |}.

Definition toggle_forbidden_capabilities : Toggle :=
  {| Toggle_Key := "forbidden_capabilities";
     Toggle_Label := "Capabilities a program may not take";
     Toggle_Help :=
       "Nothing is forbidden by default: the engine reports what a program can reach for " +:+
       "and leaves the judgement to you, because a fixed prohibition fails a program for " +:+
       "doing what it was asked. Name one here and taking it becomes a failure.";
     Toggle_Kind := ToggleSet; Toggle_Choices := [CapabilityNetwork; CapabilityProcesses; CapabilityFilesystem; CapabilitySyscalls; CapabilityUnsafe];
     Toggle_Minimum := 0; Toggle_Maximum := 0; Toggle_Group := "Build" |}.

Definition Describe : list Toggle :=
  [ toggle_ambiguity; toggle_platforms; toggle_maximum_attempts; toggle_mutation_threshold_percent; toggle_repetition_runs; toggle_suite_budget_seconds; toggle_fuzz_seconds; toggle_hostile_timeout_seconds; toggle_tangle_threshold; toggle_require_tests; toggle_require_doc_comments; toggle_code_style; toggle_adversarial_review; toggle_model_ladder; toggle_planning_rung; toggle_approval_rungs; toggle_stall_before_escalation; toggle_decompose_when_exhausted; toggle_stage_models; toggle_forbidden_capabilities ].

(** ** Validation *)

(** The zero [Toggle], which a Go map lookup gives for a missing key. *)
Definition zero_toggle : Toggle :=
  {| Toggle_Key := ""; Toggle_Label := ""; Toggle_Help := ""; Toggle_Kind := "";
     Toggle_Choices := []; Toggle_Minimum := 0; Toggle_Maximum := 0; Toggle_Group := "" |}.

Definition byKey : gmap string Toggle :=
  fold_left (fun m toggle => <[Toggle_Key toggle := toggle]> m) Describe ∅.

Definition toggle_of (key : string) : Toggle := default zero_toggle (byKey !! key).

Fixpoint check_choices (checks : list (string * string)) : option string :=
  match checks with
  | [] => None
  | (key, value) :: rest =>
      let toggle := toggle_of key in
      if negb (contains (Toggle_Choices toggle) value) then
        Some (Toggle_Label toggle +:+ " is " +:+ Quote value +:+ ", which is not one of " +:+
              fmt_strings (Toggle_Choices toggle))
      else check_choices rest
  end.

Fixpoint check_numbers (checks : list (string * Z)) : option string :=
  match checks with
  | [] => None
  | (key, value) :: rest =>
      let toggle := toggle_of key in
      if (value <? Toggle_Minimum toggle)%Z || (Toggle_Maximum toggle <? value)%Z then
        Some (Toggle_Label toggle +:+ " is " +:+ fmt_d value +:+ ", outside " +:+
              fmt_d (Toggle_Minimum toggle) +:+ " to " +:+ fmt_d (Toggle_Maximum toggle))
      else check_numbers rest
  end.

Fixpoint check_forbidden (forbidden : Toggle) (named : list string) : option string :=
  match named with
  | [] => None
  | name :: rest =>
      if negb (contains (Toggle_Choices forbidden) name) then
        Some (Toggle_Label forbidden +:+ " names " +:+ Quote name +:+
              ", which is not one of " +:+ fmt_strings (Toggle_Choices forbidden) +:+
              ", so nothing would enforce it")
      else check_forbidden forbidden rest
  end.

(** The loop of [validateEscalation] over the ladder. *)
Fixpoint check_ladder (seen : gset string) (previous : Z) (ladder : list string)
    : option string :=
  match ladder with
  | [] => None
  | named :: rest =>
      match ParseRung named with
      | Err err => Some ("the ladder is wrong: " +:+ err)
      | Ok rung =>
          if bool_decide (named ∈ seen) then
            Some ("the ladder names " +:+ Quote named +:+ " twice, so escalating to it " +:+
                  "would change nothing")
          else
            let position := rungCost rung in
            if (position <=? previous)%Z then
              Some ("the ladder puts " +:+ Quote named +:+
                    " after a more capable rung, so climbing it " +:+
                    "would move a stuck run to something cheaper")
            else check_ladder ({[named]} ∪ seen) position rest
      end
  end.

Fixpoint check_approvals (rungs : list string) : option string :=
  match rungs with
  | [] => None
  | named :: rest =>
      match ParseRung named with
      | Err err => Some ("a rung needing approval is wrong: " +:+ err)
      | Ok _ => check_approvals rest
      end
  end.

Fixpoint check_overrides (entries : list (string * string)) : option string :=
  match entries with
  | [] => None
  | (stage, named) :: rest =>
      if negb (ModelBearing stage) then
        Some (Quote stage +:+ " is given the rung " +:+ Quote named +:+
              ", but that stage makes no model request, so the override would do " +:+
              "nothing; the stages that take one are " +:+ Join ModelBearingStages ", ")
      else
        match ParseRung named with
        | Err err => Some ("the override for " +:+ Quote stage +:+ " is wrong: " +:+ err)
        | Ok _ => check_overrides rest
        end
  end.

Definition check_planning (rung : string) : option string :=
  if negb (rung =? "") then
    match ParseRung rung with
    | Err err => Some ("the planning rung is wrong: " +:+ err)
    | Ok _ => None
    end
  else None.

Definition validateEscalation (settings : Settings) (order : list (string * string))
    : option string :=
  (if is_empty_list (ModelLadder settings) then
     Some "the ladder is empty, so a run would have no model to start on"
   else None) ;?
  check_ladder ∅ (-1) (ModelLadder settings) ;?
  check_approvals (ApprovalRungs settings) ;?
  check_planning (PlanningRung settings) ;?
  check_overrides order.

Definition Validate (settings : Settings) (order : list (string * string)) : option string :=
  check_choices
    [ ("ambiguity", Ambiguity settings);
      ("platforms", Platforms settings);
      ("code_style", CodeStyle settings);
      ("planning_rung", PlanningRung settings) ] ;?
  check_numbers
    [ ("maximum_attempts", MaximumAttempts settings);
      ("mutation_threshold_percent", MutationThresholdPercent settings);
      ("repetition_runs", RepetitionRuns settings);
      ("suite_budget_seconds", SuiteBudgetSeconds settings);
      ("fuzz_seconds", FuzzSeconds settings);
      ("hostile_timeout_seconds", HostileTimeoutSeconds settings);
      ("tangle_threshold", TangleThreshold settings);
      ("stall_before_escalation", StallBeforeEscalation settings) ] ;?
  check_forbidden (toggle_of "forbidden_capabilities") (ForbiddenCapabilities settings) ;?
  validateEscalation settings order.

(** ** Reading the ladder *)

Definition FirstRung (settings : Settings) : string :=
  match ModelLadder settings with
  | [] => Rung_String (mkRung ModelLuna EffortLow)
  | first :: _ => first
  end.

(** The loop of [NextRung]: the step above the first occurrence that has one. *)
Fixpoint next_in (ladder : list string) (current : string) : option string :=
  match ladder with
  | named :: ((next :: _) as rest) =>
      if named =? current then Some next else next_in rest current
  | _ => None
  end.

Definition NextRung (settings : Settings) (current : string) : option string :=
  next_in (ModelLadder settings) current.

Definition NeedsApproval (settings : Settings) (rung : string) : bool :=
  contains (ApprovalRungs settings) rung.

Definition RungForStage (settings : Settings) (stage current : string) : string :=
  match StageModels settings !! stage with
  | None => current
  | Some pinned =>
      match ParseRung pinned, ParseRung current with
      | Ok wanted, Ok here =>
          if (rungCost here <? rungCost wanted)%Z then pinned else current
      | _, _ => current
      end
  end.

(** [SortedStageModels]: the entries, read in the map's order, sorted by stage. *)
Definition pair_le (a b : string * string) : Prop := String.le a.1 b.1.
#[export] Instance pair_le_dec : RelDecision pair_le.
Proof. unfold pair_le. intros a b. apply _. Defined.

Definition SortedStageModels (order : list (string * string)) : list (string * string) :=
  merge_sort pair_le order.

Definition Groups : list string :=
  fold_left (fun order toggle =>
    if contains order (Toggle_Group toggle) then order else order ++ [Toggle_Group toggle])
    Describe [].

Definition SortedKeys : list string := sort_strings (map Toggle_Key Describe).

(** ** What a valid configuration is *)

(** A ladder: known rungs in strictly ascending order of cost, at least one. *)
Definition ladder_of (ladder : list string) (rs : list Rung) : Prop :=
  ladder = map Rung_String rs /\ rs <> [] /\ Forall (fun r => r ∈ rungs) rs /\
  StronglySorted (fun a b => (rungCost a < rungCost b)%Z) rs.

Record valid_settings (s : Settings) : Prop := {
  valid_ambiguity : Ambiguity s ∈ [AmbiguityAsk; AmbiguityAssume];
  valid_platforms : Platforms s ∈ [PlatformsHost; PlatformsPortable];
  valid_style : CodeStyle s ∈ [StyleNeutral; StyleFunctional];
  valid_planning : PlanningRung s ∈ KnownRungs;
  valid_attempts : (1 <= MaximumAttempts s <= 12)%Z;
  valid_mutation : (0 <= MutationThresholdPercent s <= 100)%Z;
  valid_repetition : (1 <= RepetitionRuns s <= 20)%Z;
  valid_suite : (1 <= SuiteBudgetSeconds s <= 3600)%Z;
  valid_fuzz : (0 <= FuzzSeconds s <= 600)%Z;
  valid_hostile : (1 <= HostileTimeoutSeconds s <= 120)%Z;
  valid_tangle : (2 <= TangleThreshold s <= 40)%Z;
  valid_stall : (1 <= StallBeforeEscalation s <= 10)%Z;
  valid_forbidden : Forall (fun c => c ∈ [CapabilityNetwork; CapabilityProcesses;
    CapabilityFilesystem; CapabilitySyscalls; CapabilityUnsafe]) (ForbiddenCapabilities s);
  valid_ladder : exists rs, ladder_of (ModelLadder s) rs;
  valid_approvals : Forall (fun v => v ∈ KnownRungs) (ApprovalRungs s);
  valid_overrides : map_Forall (fun stage v => ModelBearing stage = true /\ v ∈ KnownRungs)
    (StageModels s);
}.

(** ** Lemmas of the checks *)

Lemma check_choices_None checks :
  check_choices checks = None <->
  Forall (fun '(key, value) => value ∈ Toggle_Choices (toggle_of key)) checks.
Proof.
  induction checks as [|[k v] l IH]; cbn [check_choices]; [by split|]. rewrite Forall_cons, <- IH.
  rewrite <- contains_spec. destruct (contains _ v); cbn [negb]; intuition discriminate.
Qed.

Lemma check_numbers_None checks :
  check_numbers checks = None <->
  Forall (fun '(key, value) =>
    (Toggle_Minimum (toggle_of key) <= value <= Toggle_Maximum (toggle_of key))%Z) checks.
Proof.
  induction checks as [|[k v] l IH]; cbn [check_numbers]; [by split|]. rewrite Forall_cons, <- IH.
  destruct (_ || _) eqn:E; to_prop; intuition (lia || discriminate).
Qed.

Lemma check_forbidden_None forbidden l :
  check_forbidden forbidden l = None <-> Forall (fun v => v ∈ Toggle_Choices forbidden) l.
Proof.
  induction l as [|v l IH]; cbn [check_forbidden]; [by split|]. rewrite Forall_cons, <- IH.
  rewrite <- contains_spec. destruct (contains _ v); cbn [negb]; intuition discriminate.
Qed.

Lemma check_approvals_None l :
  check_approvals l = None <-> Forall (fun v => v ∈ KnownRungs) l.
Proof.
  induction l as [|v l IH]; cbn [check_approvals]; [by split|].
  rewrite Forall_cons, <- IH, <- parse_known.
  destruct (ParseRung v); cbn [is_ok]; intuition discriminate.
Qed.

Lemma check_overrides_None l :
  check_overrides l = None <->
  Forall (fun '(stage, v) => ModelBearing stage = true /\ v ∈ KnownRungs) l.
Proof.
  induction l as [|[k v] l IH]; cbn [check_overrides]; [by split|].
  rewrite Forall_cons, <- IH, <- parse_known.
  destruct (ModelBearing k), (ParseRung v); cbn [is_ok negb]; intuition discriminate.
Qed.

Lemma check_planning_None v : v ∈ KnownRungs -> check_planning v = None.
Proof.
  intros Hv. unfold check_planning. destruct (negb (v =? "")); [|done].
  apply parse_known in Hv. by destruct (ParseRung v).
Qed.

(** The duplicate check adds nothing to the ascending one: the rungs seen so
    far all cost at most [previous]. *)
Lemma check_ladder_None seen previous ladder :
  (forall v, v ∈ seen -> exists r, ParseRung v = Ok r /\ (rungCost r <= previous)%Z) ->
  check_ladder seen previous ladder = None <->
  exists rs, ladder = map Rung_String rs /\ Forall (fun r => r ∈ rungs) rs /\
    StronglySorted (fun a b => (rungCost a < rungCost b)%Z) rs /\
    Forall (fun r => (previous < rungCost r)%Z) rs.
Proof.
  revert seen previous. induction ladder as [|named rest IH]; intros seen previous Hseen;
    cbn [check_ladder].
  { split; [|done]. intros _. exists []. repeat constructor. }
  destruct (ParseRung named) as [err|r] eqn:Hp.
  { split; [done|]. intros ([|r rs] & Heq & Hin & _); [done|].
    injection Heq as -> _. apply Forall_cons in Hin as [Hr _].
    by rewrite (proj2 (ParseRung_Ok _ _) (conj Hr eq_refl)) in Hp. }
  pose proof (proj1 (ParseRung_Ok _ _) Hp) as [Hr ->].
  assert (Hstep : forall rs, Rung_String r :: rest = map Rung_String rs ->
    Forall (fun r => r ∈ rungs) rs -> exists rs', rs = r :: rs' /\ rest = map Rung_String rs').
  { intros [|r' rs'] Heq Hin; [done|]. injection Heq as Heq ->.
    apply Forall_cons in Hin as [Hr' _]. exists rs'. split; [f_equal|done].
    rewrite Heq in Hp. rewrite (proj2 (ParseRung_Ok _ _) (conj Hr' eq_refl)) in Hp. congruence. }
  case_bool_decide as Hs.
  { split; [done|]. intros (rs & Heq & Hin & _ & Hlt).
    destruct (Hstep rs Heq Hin) as (rs' & -> & _). apply Forall_cons in Hlt as [Hlt _].
    destruct (Hseen _ Hs) as (r' & Hp' & Hle). rewrite Hp in Hp'. injection Hp' as <-. lia. }
  destruct (rungCost r <=? previous)%Z eqn:Hc; to_prop.
  { split; [done|]. intros (rs & Heq & Hin & _ & Hlt).
    destruct (Hstep rs Heq Hin) as (rs' & -> & _). apply Forall_cons in Hlt as [Hlt _]. lia. }
  rewrite IH.
  - split.
    + intros (rs & -> & Hin & Hss & Hlt). exists (r :: rs). split_and!; [done|by constructor| |].
      * by constructor.
      * constructor; [done|]. eapply Forall_impl; [exact Hlt|]. simpl. lia.
    + intros (rs & Heq & Hin & Hss & Hlt). destruct (Hstep rs Heq Hin) as (rs' & -> & ->).
      apply Forall_cons in Hin as [_ Hin]. apply StronglySorted_inv in Hss as [Hss Hall]. eauto.
  - intros v [->%elem_of_singleton|Hv]%elem_of_union.
    + exists r. split; [done|lia].
    + destruct (Hseen v Hv) as (r' & ? & ?). exists r'. split; [done|lia].
Qed.

Lemma check_ladder_start ladder :
  is_empty_list ladder = false /\ check_ladder ∅ (-1) ladder = None <->
  exists rs, ladder_of ladder rs.
Proof.
  rewrite check_ladder_None by (by intros v ?%not_elem_of_empty). unfold ladder_of. split.
  - intros [Hne (rs & -> & Hin & Hss & _)]. exists rs. split_and!; [done| |done..].
    by destruct rs.
  - intros (rs & -> & Hne & Hin & Hss). split; [by destruct rs|]. exists rs.
    split_and!; [done..|]. eapply Forall_impl; [exact Hin|]. intros r Hr%rungCost_nonneg. lia.
Qed.

(** The toggles the checks look up. *)
Lemma toggle_lookups :
  Forall (fun '(key, toggle) => byKey !! key = Some toggle)
    [ ("ambiguity", toggle_ambiguity); ("platforms", toggle_platforms);
      ("code_style", toggle_code_style); ("planning_rung", toggle_planning_rung);
      ("maximum_attempts", toggle_maximum_attempts);
      ("mutation_threshold_percent", toggle_mutation_threshold_percent);
      ("repetition_runs", toggle_repetition_runs);
      ("suite_budget_seconds", toggle_suite_budget_seconds);
      ("fuzz_seconds", toggle_fuzz_seconds);
      ("hostile_timeout_seconds", toggle_hostile_timeout_seconds);
      ("tangle_threshold", toggle_tangle_threshold);
      ("stall_before_escalation", toggle_stall_before_escalation);
      ("forbidden_capabilities", toggle_forbidden_capabilities) ].
Proof. repeat constructor; vm_compute; reflexivity. Qed.

Lemma validateEscalation_None s order :
  order ≡ₚ map_to_list (StageModels s) -> PlanningRung s ∈ KnownRungs ->
  validateEscalation s order = None <->
  (exists rs, ladder_of (ModelLadder s) rs) /\
  Forall (fun v => v ∈ KnownRungs) (ApprovalRungs s) /\
  map_Forall (fun stage v => ModelBearing stage = true /\ v ∈ KnownRungs) (StageModels s).
Proof.
  intros Hp Hpl. unfold validateEscalation. rewrite !err_seq_None, <- check_ladder_start.
  rewrite check_approvals_None, (check_planning_None _ Hpl), check_overrides_None, Hp.
  rewrite map_Forall_to_list.
  assert (Hext : Forall (fun '(stage, v) => ModelBearing stage = true /\ v ∈ KnownRungs)
      (map_to_list (StageModels s)) <->
    Forall (uncurry (fun stage v => ModelBearing stage = true /\ v ∈ KnownRungs))
      (map_to_list (StageModels s))).
  { split; intros H; (eapply Forall_impl; [exact H|]); by intros [? ?]. }
  rewrite Hext. destruct (is_empty_list (ModelLadder s)); intuition discriminate.
Qed.

Lemma Validate_None s order :
  order ≡ₚ map_to_list (StageModels s) -> Validate s order = None <-> valid_settings s.
Proof.
  intros Hp. unfold Validate. rewrite !err_seq_None.
  rewrite check_choices_None, check_numbers_None, check_forbidden_None.
  rewrite !Forall_cons, !Forall_nil. unfold toggle_of. pose proof toggle_lookups as HT.
  repeat (apply Forall_cons in HT as [HT1 HT]; cbv beta iota in HT1; rewrite ?HT1; clear HT1).
  clear HT. cbn [default from_option id]. split.
  - intros ((Ha & Hb & Hc & Hd & _) & (H1 & H2 & H3 & H4 & H5 & H6 & H7 & H8 & _) & Hf & Hv).
    apply (validateEscalation_None s order Hp Hd) in Hv as (Hl & Hap & Ho).
    split; assumption.
  - intros []. repeat first [assumption | exact I | apply conj].
    apply (validateEscalation_None s order); auto.
Qed.

(** ** Climbing *)

Lemma ladder_nth ladder rs i v :
  ladder_of ladder rs -> ladder !! i = Some v ->
  exists r, rs !! i = Some r /\ ParseRung v = Ok r.
Proof.
  intros (-> & _ & Hin & _) Hi. change (map Rung_String rs) with (Rung_String <$> rs) in Hi.
  rewrite list_lookup_fmap in Hi. destruct (rs !! i) as [r|] eqn:Hr; simpl in Hi; [|done].
  injection Hi as <-. exists r. split; [done|]. apply ParseRung_Ok. split; [|done].
  exact (Forall_lookup_1 _ _ _ _ Hin Hr).
Qed.

Lemma ladder_ascends ladder rs i j vi vj ri rj :
  ladder_of ladder rs -> (i < j)%nat -> ladder !! i = Some vi -> ladder !! j = Some vj ->
  ParseRung vi = Ok ri -> ParseRung vj = Ok rj -> (rungCost ri < rungCost rj)%Z.
Proof.
  intros Hl Hij Hi Hj Hpi Hpj.
  destruct (ladder_nth _ _ _ _ Hl Hi) as (r1 & H1 & Hp1).
  destruct (ladder_nth _ _ _ _ Hl Hj) as (r2 & H2 & Hp2).
  assert (r1 = ri) as -> by congruence. assert (r2 = rj) as -> by congruence.
  destruct Hl as (_ & _ & _ & Hss). clear -Hss Hij H1 H2.
  revert i j Hij H1 H2. induction Hss as [|r l Hss IH Hall]; intros i j Hij H1 H2; [done|].
  destruct j as [|j]; [lia|]. destruct i as [|i]; simpl in *.
  - injection H1 as <-. by apply (Forall_lookup_1 _ _ _ _ Hall H2).
  - apply (IH i j); [lia|done..].
Qed.

Lemma ladder_NoDup ladder rs : ladder_of ladder rs -> NoDup ladder.
Proof.
  intros Hl. apply NoDup_alt. intros i j v Hi Hj.
  destruct (ladder_nth _ _ _ _ Hl Hi) as (r & _ & Hp).
  destruct (Nat.lt_trichotomy i j) as [Hlt|[->|Hlt]]; [|done|];
    [pose proof (ladder_ascends _ _ i j v v r r Hl Hlt Hi Hj Hp Hp)
    |pose proof (ladder_ascends _ _ j i v v r r Hl Hlt Hj Hi Hp Hp)]; lia.
Qed.

Lemma next_in_cons a b l current :
  next_in (a :: b :: l) current = if a =? current then Some b else next_in (b :: l) current.
Proof. reflexivity. Qed.

Lemma next_in_nth ladder i v :
  NoDup ladder -> ladder !! i = Some v -> next_in ladder v = ladder !! S i.
Proof.
  revert i. induction ladder as [|a l IH]; intros i Hnd Hi; [done|].
  apply NoDup_cons in Hnd as [Ha Hnd]. destruct l as [|b l].
  - destruct i; [done|]. by rewrite lookup_cons, lookup_nil in Hi.
  - rewrite next_in_cons. destruct i as [|i].
    + injection Hi as ->. by rewrite String.eqb_refl.
    + cbn in Hi. destruct (String.eqb_spec a v) as [->|Hne].
      * destruct Ha. by eapply list_elem_of_lookup_2.
      * by apply IH.
Qed.

Lemma next_in_above ladder rs current next :
  ladder_of ladder rs -> next_in ladder current = Some next ->
  exists i, ladder !! i = Some current /\ ladder !! S i = Some next.
Proof.
  intros _. revert current next. induction ladder as [|a l IH]; intros current next; [done|].
  destruct l as [|b l]; [done|]. rewrite next_in_cons.
  destruct (String.eqb_spec a current) as [->|Hne].
  - intros [= ->]. by exists 0%nat.
  - intros (i & Hi & Hn)%IH. by exists (S i).
Qed.

(** ** What validation promises

    The interface the convergence tracker is proved against: an allowance of
    at least one attempt and a ladder to climb. *)
Class Climbable (s : Settings) : Prop := {
  climb_allowance : (1 <= MaximumAttempts s)%Z;
  climb_ladder : exists rs, ladder_of (ModelLadder s) rs;
}.

Lemma valid_climbable s : valid_settings s -> Climbable s.
Proof. intros Hv. split; [apply Hv|exact (valid_ladder s Hv)]. Qed.

#[export] Instance default_climbable : Climbable DefaultSettings.
Proof.
  apply valid_climbable. apply (Validate_None DefaultSettings []);
    [vm_compute; constructor|vm_compute; reflexivity].
Qed.

(** ** Properties *)

(** [Validate] accepts exactly the valid configurations, in whatever
    order Go visits the overrides: every choice is one of those offered, every
    number is inside its documented bounds, the ladder is a non-empty strictly
    ascending list of known rungs, and overrides name model-bearing stages and
    known rungs only. *)
Theorem Validate_accepts_exactly s order :
  order ≡ₚ map_to_list (StageModels s) -> Validate s order = None <-> valid_settings s.
Proof. apply Validate_None. Qed.

Lemma Validate_accepts_exactly_witness :
  map_to_list (StageModels DefaultSettings) ≡ₚ map_to_list (StageModels DefaultSettings) /\
  valid_settings DefaultSettings.
Proof.
  split; [reflexivity|].
  apply (Validate_accepts_exactly DefaultSettings (map_to_list (StageModels DefaultSettings)));
    [reflexivity|vm_compute; reflexivity].
Defined.

(** The rung a run is on after [n] escalations. *)
Fixpoint climb (s : Settings) (n : nat) : option string :=
  match n with
  | O => Some (FirstRung s)
  | S n => climb s n ≫= NextRung s
  end.

Lemma climb_nth s n :
  (exists rs, ladder_of (ModelLadder s) rs) -> climb s n = ModelLadder s !! n.
Proof.
  intros [rs Hl]. pose proof (ladder_NoDup _ _ Hl) as Hnd. induction n as [|n IH]; simpl.
  - unfold FirstRung. destruct Hl as (Heq & Hne & _). destruct (ModelLadder s); [|done].
    destruct rs; done.
  - rewrite IH. destruct (ModelLadder s !! n) as [v|] eqn:Hv; simpl.
    + by apply next_in_nth.
    + symmetry. apply lookup_ge_None in Hv. apply lookup_ge_None. lia.
Qed.

(** A run that escalates climbs a valid ladder one rung at a time: after
    [n] escalations it is on the [n]-th rung, it has no rung left exactly when
    it is past the top, and every escalation moves it to a strictly dearer
    rung. *)
Theorem escalation_climbs s order :
  order ≡ₚ map_to_list (StageModels s) -> Validate s order = None ->
  (forall n, climb s n = ModelLadder s !! n) /\
  (forall n, climb s n = None <-> (length (ModelLadder s) <= n)%nat) /\
  (forall current next, NextRung s current = Some next ->
    exists r r', ParseRung current = Ok r /\ ParseRung next = Ok r' /\
      (rungCost r < rungCost r')%Z).
Proof.
  intros Hp [_ _ _ _ _ _ _ _ _ _ _ _ _ Hl _ _]%(Validate_None s order Hp). split_and!.
  - intros n. by apply climb_nth.
  - intros n. by rewrite climb_nth, lookup_ge_None.
  - intros current next Hn. destruct Hl as [rs Hl].
    destruct (next_in_above _ rs _ _ Hl Hn) as (i & Hi & Hi').
    destruct (ladder_nth _ _ _ _ Hl Hi) as (r & _ & Hr).
    destruct (ladder_nth _ _ _ _ Hl Hi') as (r' & _ & Hr').
    exists r, r'. split_and!; [done..|].
    by apply (ladder_ascends (ModelLadder s) rs i (S i) current next r r' Hl (Nat.lt_succ_diag_r i)).
Qed.

Lemma escalation_climbs_witness :
  Validate DefaultSettings [] = None /\ climb DefaultSettings 3 = Some "gpt-5.6-sol:high".
Proof.
  split; [vm_compute; reflexivity|].
  rewrite (proj1 (escalation_climbs DefaultSettings [] ltac:(vm_compute; constructor)
    ltac:(vm_compute; reflexivity)) 3%nat). reflexivity.
Defined.

(** A pin only ever moves a stage up: from a known rung the stage runs
    on a known rung that costs at least as much, and exactly the dearer of the
    two when the pin names a known rung. From anything else it stays. *)
Theorem RungForStage_never_down s stage current here :
  ParseRung current = Ok here ->
  exists r, ParseRung (RungForStage s stage current) = Ok r /\ (rungCost here <= rungCost r)%Z /\
    (forall pinned wanted, StageModels s !! stage = Some pinned -> ParseRung pinned = Ok wanted ->
      rungCost r = Z.max (rungCost here) (rungCost wanted)) /\
    (StageModels s !! stage = None -> RungForStage s stage current = current).
Proof.
  intros Hh. unfold RungForStage. rewrite Hh.
  destruct (StageModels s !! stage) as [pinned|] eqn:Hs.
  - destruct (ParseRung pinned) as [e|wanted] eqn:Hw.
    + exists here. split_and!; [done|lia| |done]. intros ? ? [= <-] ?. congruence.
    + destruct (rungCost here <? rungCost wanted)%Z eqn:Hc; to_prop.
      * exists wanted. split_and!; [done|lia| |done]. intros ? w [= <-] Hw'.
        assert (w = wanted) as -> by congruence. lia.
      * exists here. split_and!; [done|lia| |done]. intros ? w [= <-] Hw'.
        assert (w = wanted) as -> by congruence. lia.
  - exists here. split_and!; done || lia.
Qed.

Lemma RungForStage_never_down_witness :
  let s := DefaultSettings in
  ParseRung "gpt-5.6-luna:max" = Ok (mkRung ModelLuna EffortMax) /\
  exists r, ParseRung (RungForStage s "assembly" "gpt-5.6-luna:max") = Ok r /\
    (rungCost (mkRung ModelLuna EffortMax) <= rungCost r)%Z.
Proof.
  intros s. split; [reflexivity|].
  destruct (RungForStage_never_down s "assembly" "gpt-5.6-luna:max" (mkRung ModelLuna EffortMax) eq_refl)
    as (r & H1 & H2 & _). by exists r.
Defined.

(** The overrides come out in one order, however the map was visited. *)
Lemma SortedStageModels_stable s o1 o2 :
  o1 ≡ₚ map_to_list (StageModels s) -> o2 ≡ₚ map_to_list (StageModels s) ->
  SortedStageModels o1 ≡ₚ SortedStageModels o2 /\
  map fst (SortedStageModels o1) = map fst (SortedStageModels o2).
Proof.
  intros H1 H2. unfold SortedStageModels.
  assert (Hp : merge_sort pair_le o1 ≡ₚ merge_sort pair_le o2).
  { by rewrite !merge_sort_Permutation, H1, H2. }
  split; [done|].
  assert (Hs : forall l, StronglySorted String.le (map fst (merge_sort pair_le l))).
  { intros l. assert (Hss : StronglySorted pair_le (merge_sort pair_le l)).
    { apply StronglySorted_merge_sort.
      - intros a b c. unfold pair_le. apply transitivity.
      - intros a b. unfold pair_le. apply total, _. }
    induction Hss as [|x l' Hss IH Hall]; simpl; constructor; [done|].
    apply Forall_fmap. exact Hall. }
  apply (StronglySorted_unique String.le); auto. by rewrite Hp.
Qed.

Example groups_and_keys :
  Groups = ["Intake"; "Build"; "Refinement"; "Verification"; "Quality"; "Escalation"] /\
  NoDup SortedKeys /\ length SortedKeys = 20%nat.
Proof. split_and!; [reflexivity|by_computation|reflexivity]. Qed.
