(* ===== verification/Convergence.v ===== *)
(** * Convergence of a run (src/internal/coordinator/agent_convergence.go)

    The tracker that decides whether a run is making progress: it counts how
    often each failure has recurred, grants attempts per rung under an overall
    ceiling, and escalates, decomposes or steps down.

    [seen] is a Go map; a missing key counts 0 and a nil map is the empty one.
    Two inputs are parameters: the fingerprint that identifies a failure (two
    regular expressions over its text), about which nothing is assumed, and
    the health record asked whether a rung is down. The counters are Go
    [int]s; within the bounds [Validate] sets on the settings they stay below
    the ceiling, far from overflow. The loop of agent_execution.go that drives
    the tracker is the step relation [run_step]. *)

From Stdlib Require Import Ascii.
From S2P Require Import Prelude GoText Stages Ladder Settings.
Open Scope string_scope.
Open Scope list_scope.

Record convergence := {
  settings : Settings;
  rung : string;
  seen : gmap string Z;
  repeats : Z;
  spent : Z;
  total : Z;
  escalations : list string;
  decomposed : bool;
  extended : bool;
  refunded : Z;
}.

Definition escalationWouldNotHelp (gate : string) : bool :=
  (gate =? "atom-documentation") || (gate =? "completeness").

Definition regressionProneGates (gate : string) : bool :=
  (gate =? "assembly") || (gate =? "integration-tests") || (gate =? "acceptance").

Definition fingerprintSeparator : ascii := "000".

(** [" → "]: a space, U+2192 in UTF-8, a space. *)
Definition arrow : string := bytes [32; 226; 134; 146; 32]%N.

Definition newConvergence (s : Settings) : convergence :=
  {| settings := s; rung := FirstRung s; seen := ∅; repeats := 0; spent := 0; total := 0;
     escalations := []; decomposed := false; extended := false; refunded := 0 |}.

Definition set_rung (t : convergence) (r : string) (es : list string) : convergence :=
  {| settings := settings t; rung := r; seen := seen t; repeats := repeats t; spent := spent t;
     total := total t; escalations := es; decomposed := decomposed t; extended := extended t;
     refunded := refunded t |}.

Definition set_seen (t : convergence) (m : gmap string Z) (n : Z) : convergence :=
  {| settings := settings t; rung := rung t; seen := m; repeats := n; spent := spent t;
     total := total t; escalations := escalations t; decomposed := decomposed t;
     extended := extended t; refunded := refunded t |}.

Definition set_decomposed (t : convergence) : convergence :=
  {| settings := settings t; rung := rung t; seen := seen t; repeats := repeats t;
     spent := spent t; total := total t; escalations := escalations t; decomposed := true;
     extended := extended t; refunded := refunded t |}.

Definition set_budget (t : convergence) (sp tot : Z) (ext : bool) (ref : Z) : convergence :=
  {| settings := settings t; rung := rung t; seen := seen t; repeats := repeats t; spent := sp;
     total := tot; escalations := escalations t; decomposed := decomposed t; extended := ext;
     refunded := ref |}.

(** ** The budget *)

Definition beginAttempt (t : convergence) : convergence :=
  set_budget t (spent t + 1) (total t + 1) (extended t) (refunded t).

Definition topUp (t : convergence) : Z :=
  let half := Z.quot (MaximumAttempts (settings t)) 2 in
  if (half <? 1)%Z then 1%Z else half.

Definition ceiling (t : convergence) : Z :=
  let grants := Z.of_nat (length (ModelLadder (settings t))) in
  let grants := if DecomposeWhenExhausted (settings t) then (grants + 1)%Z else grants in
  let grants := (grants + 1)%Z in
  let grants := if (grants <? 1)%Z then 1%Z else grants in
  (MaximumAttempts (settings t) * grants)%Z.

(** The threshold [converging] reads back from a stored fingerprint. *)
Definition stall_threshold (t : convergence) (print : string) : Z :=
  let threshold := StallBeforeEscalation (settings t) in
  let '(gate, _, found) := Cut print fingerprintSeparator in
  if found && regressionProneGates gate && (2 <? threshold)%Z then 2%Z else threshold.

Definition converging (t : convergence) : bool :=
  forallb (fun '(print, count) => negb (stall_threshold t print <=? count)%Z)
    (map_to_list (seen t)).

Definition moreAttempts (t : convergence) : convergence * bool :=
  if (ceiling t <=? total t)%Z then (t, false)
  else if (spent t <? MaximumAttempts (settings t))%Z then (t, true)
  else if negb (extended t) && converging t then
    (set_budget t (MaximumAttempts (settings t) - topUp t) (total t) true (refunded t), true)
  else (t, false).

Definition lastAttempt (t : convergence) : bool :=
  if (ceiling t <=? total t)%Z then true
  else if (spent t <? MaximumAttempts (settings t))%Z then false
  else if negb (converging t) && bool_decide (is_Some (NextRung (settings t) (rung t))) then false
  else if negb (converging t) &&
          (negb (decomposed t) && DecomposeWhenExhausted (settings t)) then false
  else extended t || negb (converging t).

Definition refund (t : convergence) : convergence :=
  if (MaximumAttempts (settings t) <=? refunded t)%Z then t
  else set_budget t (if (0 <? spent t)%Z then spent t - 1 else spent t)%Z
         (if (0 <? total t)%Z then total t - 1 else total t)%Z (extended t) (refunded t + 1).

Definition grant (t : convergence) : convergence :=
  set_seen (set_budget t 0 (total t) (extended t) (refunded t)) ∅ 0.

(** ** Failures *)

Record verdict := { Escalated : string; Decompose : bool; Why : string }.

Definition no_verdict : verdict := {| Escalated := ""; Decompose := false; Why := "" |}.

Definition counted (count : Z) (noun : string) : string :=
  if (count =? 1)%Z then "1 " +:+ noun else fmt_d count +:+ " " +:+ noun +:+ "s".

(** The key a failure is counted under. *)
Definition failure_key (failureFingerprint : string -> string) (gate failure asked : string)
    : string :=
  gate +:+ String fingerprintSeparator (failureFingerprint failure +:+
    String fingerprintSeparator (failureFingerprint asked)).

(** The threshold [record] applies to a gate. *)
Definition gate_threshold (t : convergence) (gate : string) : Z :=
  let threshold := StallBeforeEscalation (settings t) in
  if regressionProneGates gate && (2 <? threshold)%Z then 2%Z else threshold.

Definition record (failureFingerprint : string -> string) (health : string -> option string)
    (t : convergence) (gate failure asked : string) : convergence * verdict :=
  let print := failure_key failureFingerprint gate failure asked in
  let count := (default 0 (seen t !! print) + 1)%Z in
  let t := set_seen t (<[print := count]> (seen t)) count in
  if (repeats t <? gate_threshold t gate)%Z then (t, no_verdict)
  else if escalationWouldNotHelp gate then
    (t, {| Escalated := ""; Decompose := false;
           Why := "the " +:+ gate +:+ " gate is asking for text rather " +:+
                  "than for judgement, so a stronger model would not help; the run " +:+
                  "stays where it is" |})
  else
    match NextRung (settings t) (rung t) with
    | Some next =>
        match health next with
        | Some why =>
            (grant t,
             {| Escalated := ""; Decompose := false;
                Why := next +:+ " is unavailable (" +:+ why +:+ "), so moving up would " +:+
                       "end the run rather than strengthen it; staying on " +:+
                       rung t +:+ " with a fresh allowance" |})
        | None =>
            let from := rung t in
            (grant (set_rung t next (escalations t ++ [from +:+ arrow +:+ next])),
             {| Escalated := next; Decompose := false;
                Why := "the same check failed the same way " +:+
                       counted (StallBeforeEscalation (settings t)) "time" +:+
                       " in a row on " +:+ from +:+ ", so this is a ceiling rather than " +:+
                       "bad luck; moving to " +:+ next |})
        end
    | None =>
        if decomposed t || negb (DecomposeWhenExhausted (settings t)) then (t, no_verdict)
        else
          (grant (set_decomposed t),
           {| Escalated := ""; Decompose := true;
              Why := "the same check failed the same way on " +:+ rung t +:+
                     ", which is the top of the ladder, so the request is being split " +:+
                     "into smaller pieces rather than asked again" |})
    end.

Definition stepDown (t : convergence) : convergence * option string :=
  match last (escalations t) with
  | None => (t, None)
  | Some last_escalation =>
      let '(from, _, found) := CutString last_escalation arrow in
      if negb found || (from =? "") then (t, None)
      else (grant (set_rung t from (removelast (escalations t))),
            Some (rung t +:+ " did not answer"))
  end.

Definition summary (t : convergence) : string :=
  let spent := " after " +:+ counted (total t) "attempt" in
  if decomposed t then
    "escalated " +:+ Join (escalations t) ", " +:+ " and then decomposed" +:+ spent
  else if (0 <? Z.of_nat (length (escalations t)))%Z then
    "escalated " +:+ Join (escalations t) ", " +:+ spent
  else "converged on " +:+ rung t +:+ " without escalating" +:+ spent.

(** ** The loop that drives the tracker

    The state also counts the attempts begun, refunded or not. Everything the
    loop does between attempts is any sequence of the other steps. *)

Section Run.
Context (failureFingerprint : string -> string).

Inductive run_step : convergence * Z -> convergence * Z -> Prop :=
| step_attempt t t' n :
    moreAttempts t = (t', true) -> run_step (t, n) (beginAttempt t', (n + 1)%Z)
| step_record health t n gate failure asked :
    run_step (t, n) ((record failureFingerprint health t gate failure asked).1, n)
| step_refund t n : run_step (t, n) (refund t, n)
| step_down t n : run_step (t, n) ((stepDown t).1, n).

Definition run_start (s : Settings) : convergence * Z := (newConvergence s, 0%Z).
End Run.

(** ** Invariants of every run *)

Lemma topUp_bounds t : (1 <= MaximumAttempts (settings t))%Z ->
  (1 <= topUp t <= MaximumAttempts (settings t))%Z.
Proof.
  intros HM. unfold topUp. rewrite Z.quot_div_nonneg by lia.
  pose proof (Z.div_mod (MaximumAttempts (settings t)) 2).
  pose proof (Z.mod_pos_bound (MaximumAttempts (settings t)) 2).
  destruct (_ <? 1)%Z eqn:E; to_prop; lia.
Qed.

(** What a recorded failure does to the tracker, in cases. *)
Lemma record_cases fp health t gate failure asked t' v :
  record fp health t gate failure asked = (t', v) ->
  let print := failure_key fp gate failure asked in
  let count := (default 0 (seen t !! print) + 1)%Z in
  let t1 := set_seen t (<[print := count]> (seen t)) count in
  (* nothing changes but the tally *)
  (t' = t1 /\ Escalated v = "" /\ Decompose v = false /\
    ((count < gate_threshold t gate)%Z \/ escalationWouldNotHelp gate = true \/
     (NextRung (settings t) (rung t) = None /\
      (decomposed t = true \/ DecomposeWhenExhausted (settings t) = false)))) \/
  (* the rung above is down *)
  (t' = grant t1 /\ Escalated v = "" /\ Decompose v = false /\
    (gate_threshold t gate <= count)%Z /\
    exists next why, NextRung (settings t) (rung t) = Some next /\ health next = Some why) \/
  (* escalation *)
  (exists next, NextRung (settings t) (rung t) = Some next /\ health next = None /\
    (gate_threshold t gate <= count)%Z /\
    t' = grant (set_rung t1 next (escalations t ++ [rung t +:+ arrow +:+ next])) /\
    Escalated v = next /\ Decompose v = false) \/
  (* decomposition *)
  (NextRung (settings t) (rung t) = None /\ decomposed t = false /\
    DecomposeWhenExhausted (settings t) = true /\ (gate_threshold t gate <= count)%Z /\
    t' = grant (set_decomposed t1) /\ Escalated v = "" /\ Decompose v = true).
Proof.
  unfold record. cbn zeta.
  change (gate_threshold (set_seen t ?m ?c) gate) with (gate_threshold t gate).
  cbn [set_seen repeats settings rung escalations decomposed].
  destruct (_ <? gate_threshold t gate)%Z eqn:Ht; to_prop.
  { intros [= <- <-]. left. split_and!; [done..|]. by left. }
  destruct (escalationWouldNotHelp gate) eqn:He.
  { intros [= <- <-]. left. split_and!; [done..|]. by right; left. }
  destruct (NextRung (settings t) (rung t)) as [next|] eqn:Hn.
  - destruct (health next) as [why|] eqn:Hh; intros [= <- <-].
    + right; left. split_and!; [done..|lia|]. eauto.
    + right; right; left. exists next. split_and!; done || lia.
  - destruct (decomposed t) eqn:Hd; [|destruct (DecomposeWhenExhausted (settings t)) eqn:Hw];
      cbn [orb negb]; intros [= <- <-].
    + left. split_and!; [done..|]. right; right. eauto.
    + right; right; right. split_and!; done || lia.
    + left. split_and!; [done..|]. right; right. eauto.
Qed.

Ltac record_branches fp health t gate failure asked :=
  let t' := fresh "t'" in let v := fresh "v" in let E := fresh "Hrec" in
  destruct (record fp health t gate failure asked) as [t' v] eqn:E;
  apply record_cases in E; cbn zeta in E;
  destruct E as [(-> & _ & _ & _)|[(-> & _ & _ & _ & ?Hdown)|[(?next & ?Hnext & _ & _ & -> & _)|
    (?Hnext & ?Hd & ?Hw & _ & -> & _)]]];
  cbn [fst grant set_seen set_rung set_decomposed set_budget settings rung seen repeats spent
       total escalations decomposed extended refunded].

Lemma stepDown_cases t :
  (stepDown t).1 = t \/
  exists e from after, last (escalations t) = Some e /\ CutString e arrow = (from, after, true) /\
    (stepDown t).1 = grant (set_rung t from (removelast (escalations t))).
Proof.
  unfold stepDown. destruct (last (escalations t)) as [e|]; [|by left].
  destruct (CutString e arrow) as [[from after] found] eqn:Hc.
  destruct found; cbn [negb orb]; [|by left]. destruct (from =? ""); [by left|right].
  exists e, from, after. by split_and!.
Qed.

Section Bounds.
Context (fp : string -> string) (s : Settings).
Context {Hclimb : Climbable s}.
Abbreviation M := (MaximumAttempts s).

Record budget_inv (p : convergence * Z) : Prop := {
  bi_settings : settings p.1 = s;
  bi_total : (0 <= total p.1 <= ceiling p.1)%Z;
  bi_refunded : (0 <= refunded p.1 <= M)%Z;
  bi_begun : (p.2 <= total p.1 + refunded p.1)%Z;
}.

Lemma ceiling_settings t t' : settings t = settings t' -> ceiling t = ceiling t'.
Proof. unfold ceiling. by intros ->. Qed.

Lemma ceiling_pos t : settings t = s -> (1 <= ceiling t)%Z.
Proof.
  intros Hs. pose proof climb_allowance as Hmax. unfold ceiling. rewrite Hs.
  destruct (DecomposeWhenExhausted s);
    destruct (_ <? 1)%Z eqn:E; to_prop; nia.
Qed.

Lemma budget_inv_start : budget_inv (run_start s).
Proof. pose proof climb_allowance as Hmax.
  pose proof (ceiling_pos (newConvergence s) eq_refl).
  split; cbn [run_start fst snd newConvergence settings total refunded] in *; done || lia.
Qed.

(** Steps other than an attempt or a refund leave the counts alone. *)
Lemma budget_inv_same t t' n :
  settings t' = settings t -> total t' = total t -> refunded t' = refunded t ->
  budget_inv (t, n) -> budget_inv (t', n).
Proof.
  intros Hs Ht Hr [H1 H2 H3 H4]. simpl in *.
  split; simpl; rewrite ?Hs, ?Ht, ?Hr, ?(ceiling_settings t' t Hs); done.
Qed.

Lemma budget_inv_step p p' : budget_inv p -> run_step fp p p' -> budget_inv p'.
Proof. pose proof climb_allowance as Hmax.
  intros Hinv Hst. destruct Hst as [t t' n Hm|health t n gate failure asked|t n|t n].
  - destruct Hinv as [H1 H2 H3 H4]. simpl in *. unfold moreAttempts in Hm.
    destruct (ceiling t <=? total t)%Z eqn:Hc; [by injection Hm|to_prop].
    assert (settings t' = settings t /\ total t' = total t /\ refunded t' = refunded t)
      as (E1 & E2 & E3).
    { destruct (spent t <? _)%Z; [by injection Hm as <-|].
      destruct (negb _ && _); [by injection Hm as <-|by injection Hm]. }
    assert (Hce : ceiling (beginAttempt t') = ceiling t) by (by apply ceiling_settings).
    split; cbn [fst snd]; rewrite ?Hce;
      cbn [beginAttempt set_budget settings total refunded]; [congruence|lia..].
  - eapply budget_inv_same; [..|exact Hinv]; record_branches fp health t gate failure asked; done.
  - destruct Hinv as [H1 H2 H3 H4]. simpl in *. unfold refund.
    destruct (MaximumAttempts (settings t) <=? refunded t)%Z eqn:Hr; [by split|to_prop].
    rewrite H1 in Hr.
    match goal with |- budget_inv (?t', _) =>
      assert (Hce : ceiling t' = ceiling t) by (by apply ceiling_settings) end.
    split; cbn [fst snd]; rewrite ?Hce; cbn [set_budget settings total refunded];
      [done|destruct (0 <? total t)%Z eqn:E; to_prop; lia|lia|].
    destruct (0 <? total t)%Z eqn:E; to_prop; lia.
  - eapply budget_inv_same; [..|exact Hinv];
      destruct (stepDown_cases t) as [->|(? & ? & ? & _ & _ & ->)]; done.
Qed.
End Bounds.

(** ** Where a run is on its ladder *)

(** The record of the first [k] escalations up a ladder. *)
Definition ladder_path (ladder : list string) (k : nat) : list string :=
  zip_with (fun from next => from +:+ arrow +:+ next) (take k ladder) (take k (tail ladder)).

Lemma ladder_path_S ladder k from next :
  ladder !! k = Some from -> ladder !! S k = Some next ->
  ladder_path ladder (S k) = ladder_path ladder k ++ [from +:+ arrow +:+ next].
Proof.
  intros Hf Hn. unfold ladder_path.
  assert (Ht : tail ladder !! k = Some next) by (by destruct ladder).
  rewrite (take_S_r ladder k from Hf), (take_S_r (tail ladder) k next Ht).
  rewrite zip_with_app; [done|]. rewrite !length_take.
  apply lookup_lt_Some in Hf. apply lookup_lt_Some in Ht. lia.
Qed.

Lemma ladder_path_length ladder k : (k < length ladder)%nat -> length (ladder_path ladder k) = k.
Proof.
  intros Hk. unfold ladder_path. rewrite length_zip_with, !length_take.
  destruct ladder; simpl in *; lia.
Qed.

(** The arrow in an escalation is found where it was put. *)
Lemma cut_escalation from next :
  from ∈ KnownRungs -> CutString (from +:+ arrow +:+ next) arrow = (from, next, true).
Proof.
  intros Hf. revert from Hf next.
  refine (proj1 (Forall_forall (fun from => forall next,
    CutString (from +:+ arrow +:+ next) arrow = (from, next, true)) KnownRungs) _).
  unfold KnownRungs. cbn [KnownModels KnownEfforts flat_map map app].
  repeat constructor; intros next; reflexivity.
Qed.

Definition on_ladder (s : Settings) (t : convergence) : Prop :=
  settings t = s /\
  exists k, ModelLadder s !! k = Some (rung t) /\ escalations t = ladder_path (ModelLadder s) k.

Section Ladder.
Context (fp : string -> string) (s : Settings) {Hclimb : Climbable s}.

Lemma on_ladder_start : on_ladder s (newConvergence s).
Proof.
  split; [done|]. exists 0%nat. cbn [newConvergence rung escalations]. split; [|done].
  rewrite <- (climb_nth s 0) by exact climb_ladder. done.
Qed.

Lemma on_ladder_same t t' :
  settings t' = settings t -> rung t' = rung t -> escalations t' = escalations t ->
  on_ladder s t -> on_ladder s t'.
Proof. unfold on_ladder. by intros -> -> ->. Qed.

Lemma ladder_known k v : ModelLadder s !! k = Some v -> v ∈ KnownRungs.
Proof.
  intros Hk. destruct climb_ladder as [rs Hladder].
  destruct (ladder_nth _ _ _ _ Hladder Hk) as (r & _ & Hp).
  apply parse_known. by rewrite Hp.
Qed.

Lemma on_ladder_down t : on_ladder s t -> on_ladder s (stepDown t).1.
Proof.
  intros [Hs (k & Hk & He)]. destruct (stepDown_cases t) as [->|(e & from & after & Hl & Hc & ->)].
  { by split; [|exists k]. }
  split; [done|]. cbn [grant set_seen set_rung set_budget rung escalations].
  destruct k as [|k]; [by rewrite He in Hl|].
  destruct (lookup_lt_is_Some_2 (ModelLadder s) k) as [prev Hprev].
  { apply lookup_lt_Some in Hk. lia. }
  rewrite (ladder_path_S _ k prev (rung t)) in He by done.
  exists k. rewrite He in Hl |- *. rewrite last_snoc in Hl. injection Hl as <-.
  rewrite cut_escalation in Hc by (by apply (ladder_known k)). injection Hc as <- _.
  by rewrite removelast_last.
Qed.

Lemma on_ladder_step p p' : on_ladder s p.1 -> run_step fp p p' -> on_ladder s p'.1.
Proof.
  intros Hinv Hst. destruct Hst as [t t' n Hm|health t n gate failure asked|t n|t n]; simpl in *.
  - unfold moreAttempts in Hm. eapply on_ladder_same; [..|exact Hinv];
      repeat (case_match; try by injection Hm as <-); by injection Hm.
  - pose proof Hinv as [Hs (k & Hk & He)].
    record_branches fp health t gate failure asked;
      try (eapply on_ladder_same; [..|exact Hinv]; done).
    split; [done|]. exists (S k).
    rewrite Hs in Hnext. unfold NextRung in Hnext.
    destruct climb_ladder as [rs Hladder].
    rewrite (next_in_nth _ k) in Hnext by (done || by apply (ladder_NoDup _ rs)).
    cbn [grant set_seen set_rung set_budget rung escalations]. split; [done|].
    rewrite He. symmetry. by apply ladder_path_S.
  - unfold refund. case_match; [done|]. eapply on_ladder_same; [..|exact Hinv]; done.
  - by apply on_ladder_down.
Qed.
End Ladder.

(** ** Runs without outages, and runs that never repeat a failure *)

Section Clean.
Context (fp : string -> string).

(** Steps of a run whose rungs all answer. *)
Inductive clean_step : convergence -> convergence -> Prop :=
| clean_attempt t t' : moreAttempts t = (t', true) -> clean_step t (beginAttempt t')
| clean_record t gate failure asked :
    clean_step t (record fp (fun _ => None) t gate failure asked).1
| clean_refund t : clean_step t (refund t).

(** Steps of a run no failure of which is counted already. *)
Inductive fresh_step : convergence -> convergence -> Prop :=
| fresh_attempt t t' : moreAttempts t = (t', true) -> fresh_step t (beginAttempt t')
| fresh_record health t gate failure asked :
    seen t !! failure_key fp gate failure asked = None ->
    fresh_step t (record fp health t gate failure asked).1
| fresh_refund t : fresh_step t (refund t)
| fresh_down t : fresh_step t (stepDown t).1.

Context (s : Settings) {Hclimb : Climbable s}.
Abbreviation M := (MaximumAttempts s).

(** Allowances collected beside the one in hand: one per escalation and one
    for the decomposition, and the top-up. *)
Definition grants_taken (t : convergence) : Z :=
  Z.of_nat (length (escalations t)) + (if decomposed t then 1 else 0).

Definition top_up_taken (t : convergence) : Z := if extended t then topUp t else 0%Z.

Record clean_inv (t : convergence) : Prop := {
  ci_ladder : on_ladder s t;
  ci_decomposed : decomposed t = true -> DecomposeWhenExhausted s = true;
  ci_spent : (0 <= spent t <= M)%Z;
  ci_total : (total t <= spent t + M * grants_taken t + top_up_taken t)%Z;
}.

Lemma clean_inv_start : clean_inv (newConvergence s).
Proof. pose proof climb_allowance as Hmax.
  split; [by eapply on_ladder_start|done|cbn; lia|].
  unfold grants_taken, top_up_taken. cbn. lia.
Qed.

Lemma clean_to_run t t' : clean_step t t' -> exists n', run_step fp (t, 0%Z) (t', n').
Proof. destruct 1; eexists; [by eapply step_attempt|apply step_record|apply step_refund]. Qed.

Lemma clean_inv_step t t' : clean_inv t -> clean_step t t' -> clean_inv t'.
Proof. pose proof climb_allowance as Hmax.
  intros [Hl Hd Hs Ht] Hst. pose proof Hl as [Hset _].
  assert (Hl' : on_ladder s t').
  { destruct (clean_to_run _ _ Hst) as [n' Hr]. 
    exact (on_ladder_step fp s (t, 0%Z) (t', n') Hl Hr). }
  pose proof (topUp_bounds t) as Hup. rewrite Hset in Hup.
  split; [done|..]; clear Hl'; unfold grants_taken, top_up_taken in *;
    destruct Hst as [t t' Hm|t gate failure asked|t].
  - by unfold moreAttempts in Hm; repeat (case_match; try by injection Hm as <-); injection Hm.
  - record_branches fp (fun _ : string => @None string) t gate failure asked; try done.
    by rewrite Hset in Hw.
  - unfold refund. by destruct (_ <=? refunded t)%Z.
  - unfold moreAttempts in Hm. rewrite Hset in Hm. destruct (ceiling t <=? total t)%Z; [done|].
    destruct (spent t <? M)%Z eqn:E; to_prop; [injection Hm as <-; cbn; lia|].
    destruct (negb (extended t) && _); [|done]. injection Hm as <-. cbn. lia.
  - record_branches fp (fun _ : string => @None string) t gate failure asked; lia.
  - unfold refund. rewrite Hset. destruct (M <=? refunded t)%Z; [lia|]. cbn.
    destruct (0 <? spent t)%Z eqn:E; to_prop; lia.
  - unfold moreAttempts in Hm. rewrite Hset in Hm. destruct (ceiling t <=? total t)%Z; [done|].
    destruct (spent t <? M)%Z eqn:E; to_prop.
    { injection Hm as <-. cbn [beginAttempt set_budget spent total escalations decomposed extended].
      change (topUp ?x) with (topUp t). lia. }
    destruct (extended t) eqn:Hx; cbn [negb andb] in Hm; [done|].
    destruct (converging t); [|done]. injection Hm as <-.
    cbn [beginAttempt set_budget spent total escalations decomposed extended].
    change (topUp ?x) with (topUp t). lia.
  - record_branches fp (fun _ : string => @None string) t gate failure asked;
      try change (topUp ?x) with (topUp t); rewrite ?length_app; cbn [length].
    + lia.
    + by destruct Hdown as (? & ? & _ & [=]).
    + destruct (decomposed t), (extended t); nia.
    + rewrite Hd0 in Ht. destruct (extended t); nia.
  - unfold refund. rewrite Hset. destruct (M <=? refunded t)%Z; [done|].
    cbn [set_budget spent total escalations decomposed extended]. change (topUp ?x) with (topUp t).
    destruct (0 <? spent t)%Z eqn:E1, (0 <? total t)%Z eqn:E2; to_prop; try lia.
    assert (0 <= M * (Z.of_nat (length (escalations t)) + (if decomposed t then 1 else 0)))%Z
      by (destruct (decomposed t); nia).
    destruct (extended t); lia.
Qed.

(** The allowance in hand is never cut short by the ceiling. *)
Lemma clean_under_ceiling t : clean_inv t -> (spent t < M)%Z -> (total t < ceiling t)%Z.
Proof. pose proof climb_allowance as Hmax.
  intros [Hl Hd Hs Ht] Hlt. destruct Hl as [Hset (k & Hk & He)].
  pose proof (topUp_bounds t) as Hup. rewrite Hset in Hup. specialize (Hup climb_allowance).
  apply lookup_lt_Some in Hk as Hlen.
  unfold grants_taken, top_up_taken in Ht. rewrite He, ladder_path_length in Ht by done.
  unfold ceiling. rewrite Hset.
  destruct (decomposed t) eqn:Hdec; [rewrite Hd by done|];
    destruct (_ <? 1)%Z eqn:E; to_prop; try (destruct (DecomposeWhenExhausted s); lia);
    destruct (extended t); try (destruct (DecomposeWhenExhausted s)); nia.
Qed.

(** A failure that is not counted yet changes only the tally. *)
Lemma record_fresh health t gate failure asked :
  (2 <= StallBeforeEscalation (settings t))%Z ->
  seen t !! failure_key fp gate failure asked = None ->
  (record fp health t gate failure asked).1 =
    set_seen t (<[failure_key fp gate failure asked := 1%Z]> (seen t)) 1.
Proof.
  intros Hst Hn. unfold record. rewrite Hn. cbn [default from_option].
  assert (Hth : (repeats (set_seen t (<[failure_key fp gate failure asked:=0 + 1]> (seen t)) (0 + 1)) <?
    gate_threshold (set_seen t (<[failure_key fp gate failure asked:=0 + 1]> (seen t)) (0 + 1)) gate)%Z = true).
  { apply Z.ltb_lt. unfold gate_threshold. cbn [set_seen repeats settings].
    destruct (_ && _); lia. }
  by rewrite Hth.
Qed.

Record fresh_inv (t : convergence) : Prop := {
  fi_settings : settings t = s;
  fi_rung : rung t = FirstRung s /\ escalations t = [] /\ decomposed t = false;
  fi_seen : map_Forall (fun _ count => count = 1%Z) (seen t);
  fi_spent : (spent t <= M)%Z;
  fi_total : (total t <= spent t + top_up_taken t)%Z;
}.

Lemma fresh_inv_step t t' :
  (2 <= StallBeforeEscalation s)%Z -> fresh_inv t -> fresh_step t t' -> fresh_inv t'.
Proof. pose proof climb_allowance as Hmax.
  intros Hst [H1 (H2 & H3 & H4) H5 H6 H7] Hstep. unfold top_up_taken in H7.
  pose proof (topUp_bounds t) as Hup. rewrite H1 in Hup. specialize (Hup climb_allowance).
  destruct Hstep as [t t' Hm|health t gate failure asked Hn|t|t].
  - unfold moreAttempts in Hm. rewrite H1 in Hm. destruct (ceiling t <=? total t)%Z; [done|].
    destruct (spent t <? M)%Z eqn:E; to_prop.
    { injection Hm as <-. split; unfold top_up_taken; cbn; try done; [lia|].
      change (topUp ?x) with (topUp t). lia. }
    destruct (extended t); cbn [negb andb] in Hm; [done|].
    destruct (converging t); [|done]. injection Hm as <-.
    split; unfold top_up_taken; cbn; try done; [lia|]. change (topUp ?x) with (topUp t). lia.
  - rewrite record_fresh by (done || by rewrite H1).
    split; unfold top_up_taken; cbn; try done. by apply map_Forall_insert_2.
  - unfold refund. rewrite H1. destruct (M <=? refunded t)%Z; [by split|].
    split; unfold top_up_taken; cbn; try done; [destruct (0 <? spent t)%Z eqn:E; to_prop; lia|].
    change (topUp ?x) with (topUp t).
    destruct (0 <? spent t)%Z eqn:E1, (0 <? total t)%Z eqn:E2; to_prop; try lia.
    destruct (extended t); lia.
  - unfold stepDown. rewrite H3. by split.
Qed.

Lemma fresh_inv_start : fresh_inv (newConvergence s).
Proof. pose proof climb_allowance as Hmax. split; unfold top_up_taken; cbn; try done; lia. Qed.
End Clean.

(** ** Properties *)

(** [C11] No run outlives its budget. Under valid settings, however a run
    fails, escalates, is refunded or steps down, the attempts charged to it
    never pass the ceiling, and the attempts it begins, refunded ones
    included, are at most one more allowance than that. *)
Theorem attempts_are_bounded fp s t n :
  valid_settings s -> rtc (run_step fp) (run_start s) (t, n) ->
  (total t <= ceiling t)%Z /\
  (n <= MaximumAttempts s * (Z.of_nat (length (ModelLadder s)) +
          (if DecomposeWhenExhausted s then 3 else 2)))%Z.
Proof.
  intros Hv Hr. pose proof (valid_climbable s Hv) as Hclimb.
  pose proof climb_allowance as Hmax.
  assert (Hinv : budget_inv s (t, n)).
  { apply (rtc_invariant (run_step fp) _ _ _ (budget_inv_step fp s) Hr).
    by apply budget_inv_start. }
  destruct Hinv as [Hs Ht Href Hn]. simpl in *. split; [lia|].
  unfold ceiling in Ht. rewrite Hs in Ht. destruct (DecomposeWhenExhausted s);
    destruct (_ <? 1)%Z eqn:E; to_prop; nia.
Qed.

(** A run as a list of what happens to it, for concrete traces. *)
Inductive happening := Begin | Fail (gate failure asked : string) | Down.

Definition happens (fp : string -> string) (p : convergence * Z) (h : happening)
    : convergence * Z :=
  match h with
  | Begin => if (moreAttempts p.1).2 then (beginAttempt (moreAttempts p.1).1, (p.2 + 1)%Z) else p
  | Fail gate failure asked => ((record fp (fun _ => None) p.1 gate failure asked).1, p.2)
  | Down => ((stepDown p.1).1, p.2)
  end.

Lemma happens_reaches fp hs p : rtc (run_step fp) p (fold_left (happens fp) hs p).
Proof.
  revert p. induction hs as [|h hs IH]; intros p; simpl; [done|].
  transitivity (happens fp p h); [|apply IH]. destruct p as [t n], h as [|gate failure asked|]; simpl.
  - destruct (moreAttempts t) as [t' []] eqn:E; simpl; [|done].
    apply rtc_once. by apply step_attempt.
  - apply rtc_once. apply step_record.
  - apply rtc_once. apply step_down.
Qed.

Lemma default_settings_valid : valid_settings DefaultSettings.
Proof. apply (Validate_None DefaultSettings []); [vm_compute; constructor|vm_compute; reflexivity]. Qed.

Lemma attempts_are_bounded_witness :
  let p := fold_left (happens id) [Begin; Fail "assembly" "e" ""; Begin; Fail "assembly" "e" ""; Begin]
             (run_start DefaultSettings) in
  p.2 = 3%Z /\ rung p.1 = "gpt-5.6-luna:max" /\ (total p.1 <= ceiling p.1)%Z.
Proof.
  intros p. split; [vm_compute; reflexivity|]. split; [vm_compute; reflexivity|].
  apply (attempts_are_bounded id DefaultSettings p.1 p.2 default_settings_valid).
  rewrite <- surjective_pairing. apply happens_reaches.
Defined.

(** A run under a valid ladder is always on a rung of it, and its
    escalation record is exactly the path from the first rung to that one:
    escalating appends the next step of the ladder and stepping down undoes
    the last one. *)
Theorem rung_matches_escalations fp s t n :
  valid_settings s -> rtc (run_step fp) (run_start s) (t, n) ->
  ModelLadder s !! length (escalations t) = Some (rung t) /\
  escalations t = ladder_path (ModelLadder s) (length (escalations t)).
Proof.
  intros Hv Hr. pose proof (valid_climbable s Hv) as Hclimb.
  assert (Hinv : on_ladder s (t, n).1).
  { apply (rtc_invariant (run_step fp) (fun p => on_ladder s p.1) _ _
      (on_ladder_step fp s) Hr). by apply on_ladder_start. }
  destruct Hinv as [_ (k & Hk & He)]. simpl in *.
  assert (Hlen : length (escalations t) = k).
  { rewrite He. apply ladder_path_length. by eapply lookup_lt_Some. }
  by rewrite Hlen.
Qed.

Lemma rung_matches_escalations_witness :
  let p := fold_left (happens id)
             [Begin; Fail "assembly" "e" ""; Begin; Fail "assembly" "e" ""; Begin;
              Fail "assembly" "e" ""; Begin; Fail "assembly" "e" ""; Down]
             (run_start DefaultSettings) in
  length (escalations p.1) = 1%nat /\
  ModelLadder DefaultSettings !! length (escalations p.1) = Some (rung p.1).
Proof.
  intros p. split; [vm_compute; reflexivity|].
  apply (rung_matches_escalations id DefaultSettings p.1 p.2 default_settings_valid).
  rewrite <- surjective_pairing. apply happens_reaches.
Defined.

(** A run whose failures never recur stays on its first rung, is never
    decomposed, and is charged at most its allowance and one top-up of half of
    it. *)
Theorem converging_run_cost fp s t :
  valid_settings s -> (2 <= StallBeforeEscalation s)%Z ->
  rtc (fresh_step fp) (newConvergence s) t ->
  rung t = FirstRung s /\ escalations t = [] /\ decomposed t = false /\
  (total t <= MaximumAttempts s + Z.max 1 (MaximumAttempts s / 2))%Z.
Proof.
  intros Hv Hst Hr. pose proof (valid_climbable s Hv) as Hclimb.
  pose proof climb_allowance as Hmax.
  assert (Hinv : fresh_inv s t).
  { apply (rtc_invariant (fresh_step fp) _ _ _ (fun a b => fresh_inv_step fp s a b Hst) Hr).
    by apply fresh_inv_start. }
  destruct Hinv as [H1 (H2 & H3 & H4) _ H5 H6]. split_and!; [done..|].
  unfold top_up_taken, topUp in H6. rewrite H1, Z.quot_div_nonneg in H6 by lia.
  destruct (extended t); [|lia]. destruct (_ <? 1)%Z eqn:E; to_prop; lia.
Qed.

Lemma converging_run_cost_witness :
  exists t, rtc (fresh_step id) (newConvergence DefaultSettings) t /\ total t = 1%Z /\
    (total t <= MaximumAttempts DefaultSettings + Z.max 1 (MaximumAttempts DefaultSettings / 2))%Z.
Proof.
  set (t := (record id (fun _ => None) (beginAttempt (newConvergence DefaultSettings)) "assembly" "e" "").1).
  assert (Hr : rtc (fresh_step id) (newConvergence DefaultSettings) t).
  { eapply rtc_l; [by apply fresh_attempt|]. apply rtc_once, fresh_record. reflexivity. }
  exists t. split; [exact Hr|]. split; [reflexivity|].
  apply (converging_run_cost id DefaultSettings t default_settings_valid); [|exact Hr].
  vm_compute. discriminate.
Defined.

(** The overall ceiling only bounds the extras. While every rung a run
    climbs to answers, a run that has not used up the allowance of the rung it
    is on (or of its decomposition) is always below the ceiling, so it is
    given its next attempt: no rung of the ladder is out of reach. *)
Theorem ceiling_spares_allowances fp s t :
  valid_settings s -> rtc (clean_step fp) (newConvergence s) t ->
  (spent t < MaximumAttempts s)%Z -> moreAttempts t = (t, true).
Proof.
  intros Hv Hr Hlt. pose proof (valid_climbable s Hv) as Hclimb.
  assert (Hinv : clean_inv s t).
  { apply (rtc_invariant (clean_step fp) _ _ _ (clean_inv_step fp s) Hr).
    by apply clean_inv_start. }
  pose proof (clean_under_ceiling s t Hinv Hlt) as Hc.
  unfold moreAttempts. destruct Hinv as [[Hs _] _ _ _]. rewrite Hs.
  destruct (ceiling t <=? total t)%Z eqn:E1; to_prop; [lia|].
  destruct (spent t <? MaximumAttempts s)%Z eqn:E2; to_prop; [done|lia].
Qed.

Lemma ceiling_spares_allowances_witness :
  moreAttempts (beginAttempt (newConvergence DefaultSettings)) =
    (beginAttempt (newConvergence DefaultSettings), true).
Proof.
  apply (ceiling_spares_allowances id DefaultSettings _ default_settings_valid).
  - apply rtc_once, clean_attempt. reflexivity.
  - vm_compute. reflexivity.
Defined.

(** [lastAttempt] and [moreAttempts]. An attempt called the last is
    never followed by another; for a run that is converging the two answer
    the same question the same way; and a stall that reaches its threshold on
    a gate a stronger model can help with, while a rung or a decomposition is
    left, is answered with a full allowance. *)
Theorem lastAttempt_agrees fp health t gate failure asked :
  (lastAttempt t = true -> (moreAttempts t).2 = false) /\
  (converging t = true -> lastAttempt t = negb (moreAttempts t).2) /\
  ((1 <= MaximumAttempts (settings t))%Z -> (total t < ceiling t)%Z ->
   (gate_threshold t gate <= default 0 (seen t !! failure_key fp gate failure asked) + 1)%Z ->
   escalationWouldNotHelp gate = false ->
   is_Some (NextRung (settings t) (rung t)) \/
     (decomposed t = false /\ DecomposeWhenExhausted (settings t) = true) ->
   let t' := (record fp health t gate failure asked).1 in
   spent t' = 0%Z /\ (moreAttempts t').2 = true).
Proof.
  unfold lastAttempt. split; [|split].
  - unfold moreAttempts. destruct (ceiling t <=? total t)%Z; [done|].
    destruct (spent t <? _)%Z; [done|].
    destruct (converging t), (extended t); simpl; try done; by repeat case_match.
  - unfold moreAttempts. intros ->. destruct (ceiling t <=? total t)%Z; [done|].
    destruct (spent t <? _)%Z; [done|]. by destruct (extended t).
  - intros HM Hc Hth Hg Hleft. cbn zeta.
    destruct (record fp health t gate failure asked) as [t' v] eqn:E. apply record_cases in E.
    assert (Hmore : forall u, settings u = settings t -> total u = total t -> spent u = 0%Z ->
      spent u = 0%Z /\ (moreAttempts u).2 = true).
    { intros u H1 H2 H3. split; [exact H3|]. unfold moreAttempts.
      rewrite (ceiling_settings u t H1), H1, H2, H3.
      destruct (ceiling t <=? total t)%Z eqn:E1; to_prop; [lia|].
      destruct (0 <? _)%Z eqn:E2; to_prop; [done|lia]. }
    cbn zeta in E. destruct E as [(-> & _ & _ & [?|[?|[Hno [?|?]]]])|[(-> & _)|
      [(? & _ & _ & _ & -> & _)|(_ & _ & _ & _ & -> & _)]]];
      cbn [fst]; first [apply Hmore; reflexivity | exfalso].
    + lia.
    + congruence.
    + rewrite Hno in Hleft. destruct Hleft as [[? [=]]|[? _]]. congruence.
    + rewrite Hno in Hleft. destruct Hleft as [[? [=]]|[_ ?]]. congruence.
Qed.

(** The trace of [sent_back_then_denied]: a documentation gate stalls, three
    other gates fail once each. *)
Definition documentation_stall : list happening :=
  [Begin; Fail "atom-documentation" "no comment" "";
   Begin; Fail "atom-documentation" "no comment" "";
   Begin; Fail "atom-documentation" "no comment" "";
   Begin; Fail "completeness" "unfinished" "";
   Begin; Fail "end-to-end-tests" "wrong output" "";
   Begin].

(** Outside a converging run the two can disagree. A gate a stronger
    model would not help with collects its repeats without a grant, and from
    then on the run counts as stalled: on the last attempt of its allowance
    [lastAttempt] says that something follows, since a rung is left, the work
    is sent back, and whatever the failure recorded for it, if it is a new
    one, [moreAttempts] then refuses the attempt with the ceiling far away. *)
Theorem sent_back_then_denied :
  let p := fold_left (happens id) documentation_stall (run_start DefaultSettings) in
  rtc (run_step id) (run_start DefaultSettings) p /\
  lastAttempt p.1 = false /\
  is_Some (NextRung (settings p.1) (rung p.1)) /\
  forall health, let t' := (record id health p.1 "path-coverage" "one line uncovered" "").1 in
    (moreAttempts t').2 = false /\ (total t' < ceiling t')%Z.
Proof.
  intros p. split_and!.
  - apply happens_reaches.
  - vm_compute. reflexivity.
  - vm_compute. eauto.
  - intros health t'. split; vm_compute; reflexivity.
Qed.

(** What a person is told when a regression-prone gate fails the same way
    twice, with something else in between: three times in a row. *)
Example escalation_message :
  let t := fold_left (happens id)
             [Begin; Fail "assembly" "e" ""; Begin; Fail "acceptance" "f" ""; Begin]
             (run_start DefaultSettings) in
  Why (record id (fun _ => None) t.1 "assembly" "e" "").2 =
    "the same check failed the same way 3 times in a row on gpt-5.6-luna:low, so this is " +:+
    "a ceiling rather than bad luck; moving to gpt-5.6-luna:max".
Proof. vm_compute. reflexivity. Qed.

(** The converse of what [converging]'s comment says: a failure seen twice. *)
Example converging_with_a_repeat :
  let t := (fold_left (happens id)
             [Begin; Fail "completeness" "e" ""; Begin; Fail "completeness" "e" ""]
             (run_start DefaultSettings)).1 in
  repeats t = 2%Z /\ converging t = true.
Proof. split; vm_compute; reflexivity. Qed.
