(* ===== verification/Admission.v ===== *)
(** * The provider admission gate (src/internal/providers/admission.go)

    [AdmissionController] bounds the physical requests in flight. Its channel
    of slots holds unit tokens, so it is the number of idle ones. [Acquire]
    takes a token without the mutex; a release and [Narrow] hold it, and a
    release must wait while [Narrow] runs. The functions below are the
    critical sections; [gate_step] interleaves them, with [Narrow] cut into
    its lock, each turn of its drain loop and its unlock, because [Acquire]
    can take tokens between those turns. *)

From S2P Require Import Prelude.
Open Scope Z_scope.

Record AdmissionController := {
  slots : Z;
  ceiling : Z;
  maximum : Z;
  drainDebt : Z;
}.

Definition errAdmissionMaximumConcurrency : string :=
  "admission controller maximum concurrency must be at least one".

Definition NewAdmissionController (maximumConcurrency : Z)
    : result string AdmissionController :=
  if maximumConcurrency <? 1 then Err errAdmissionMaximumConcurrency
  else Ok {| slots := maximumConcurrency; ceiling := maximumConcurrency;
             maximum := maximumConcurrency; drainDebt := 0 |}.

Definition set_slots (c : AdmissionController) (idle debt : Z) : AdmissionController :=
  {| slots := idle; ceiling := ceiling c; maximum := maximum c; drainDebt := debt |}.

(** The admitted branch of [Acquire]; [None] is blocking. *)
Definition Acquire (c : AdmissionController) : option AdmissionController :=
  if 0 <? slots c then Some (set_slots c (slots c - 1) (drainDebt c)) else None.

(** The body of [release]; [None] is blocking on a full channel. *)
Definition release (c : AdmissionController) : option AdmissionController :=
  if 0 <? drainDebt c then Some (set_slots c (slots c) (drainDebt c - 1))
  else if slots c <? maximum c then Some (set_slots c (slots c + 1) (drainDebt c))
  else None.

(** [Narrow] up to its loop: the new ceiling and the debt, or a no-op. *)
Definition narrow_lock (c : AdmissionController) (newCeiling : Z) : option AdmissionController :=
  let newCeiling := if newCeiling <? 1 then 1 else newCeiling in
  if ceiling c <=? newCeiling then None
  else
    let reduceBy := ceiling c - newCeiling in
    Some {| slots := slots c; ceiling := newCeiling; maximum := maximum c;
            drainDebt := drainDebt c + reduceBy |}.

(** One turn of the loop: [None] leaves it. *)
Definition narrow_turn (c : AdmissionController) : option AdmissionController :=
  if 0 <? drainDebt c then
    if 0 <? slots c then Some (set_slots c (slots c - 1) (drainDebt c - 1)) else None
  else None.

Fixpoint narrow_loop (fuel : nat) (c : AdmissionController) : AdmissionController :=
  match fuel with
  | O => c
  | S fuel => match narrow_turn c with Some c' => narrow_loop fuel c' | None => c end
  end.

(** [Narrow] with nothing in between; the idle tokens bound its turns. *)
Definition Narrow (c : AdmissionController) (newCeiling : Z) : AdmissionController :=
  match narrow_lock c newCeiling with
  | None => c
  | Some c => narrow_loop (Z.to_nat (slots c)) c
  end.

Definition Ceiling (c : AdmissionController) : Z := ceiling c.

(** ** Interleavings *)

(** The controller, the requests in flight, and whether a [Narrow] is inside
    its critical section. *)
Record gate := { controller : AdmissionController; in_flight : Z; narrowing : bool }.

Inductive gate_step : gate -> gate -> Prop :=
| gate_acquire g c :
    Acquire (controller g) = Some c ->
    gate_step g {| controller := c; in_flight := in_flight g + 1; narrowing := narrowing g |}
| gate_release g c :
    narrowing g = false -> 0 < in_flight g -> release (controller g) = Some c ->
    gate_step g {| controller := c; in_flight := in_flight g - 1; narrowing := false |}
| gate_lock g c newCeiling :
    narrowing g = false -> narrow_lock (controller g) newCeiling = Some c ->
    gate_step g {| controller := c; in_flight := in_flight g; narrowing := true |}
| gate_turn g c :
    narrowing g = true -> narrow_turn (controller g) = Some c ->
    gate_step g {| controller := c; in_flight := in_flight g; narrowing := true |}
| gate_unlock g :
    narrowing g = true -> narrow_turn (controller g) = None ->
    gate_step g {| controller := controller g; in_flight := in_flight g; narrowing := false |}.

Definition gate_start (c : AdmissionController) : gate :=
  {| controller := c; in_flight := 0; narrowing := false |}.

(** ** The invariant *)

Record gate_inv (limit : Z) (g : gate) : Prop := {
  gi_maximum : maximum (controller g) = limit;
  gi_ceiling : 1 <= ceiling (controller g) <= limit;
  gi_slots : 0 <= slots (controller g);
  gi_debt : 0 <= drainDebt (controller g);
  gi_flight : 0 <= in_flight g;
  gi_total : slots (controller g) + in_flight g =
    ceiling (controller g) + drainDebt (controller g);
  gi_width : slots (controller g) + in_flight g <= limit;
  gi_drained : narrowing g = false -> 0 < drainDebt (controller g) -> slots (controller g) = 0;
}.

Lemma gate_inv_start limit c :
  NewAdmissionController limit = Ok c -> gate_inv limit (gate_start c).
Proof.
  unfold NewAdmissionController. destruct (limit <? 1) eqn:E; [done|to_prop].
  intros [= <-]. split; cbn; lia.
Qed.

Ltac gate_unfold H :=
  unfold Acquire, release, narrow_lock, narrow_turn, set_slots in H.

Lemma gate_inv_step limit g g' : gate_inv limit g -> gate_step g g' -> gate_inv limit g'.
Proof.
  intros Hinv Hst. destruct Hst as [g c Hs|g c Hn Hf Hs|g c n Hn Hs|g c Hn Hs|g Hn Hs];
    destruct Hinv as [H1 H2 H3 H4 H5 H6 H7 H8]; gate_unfold Hs; if_cases Hs;
    try (injection Hs as <-); to_prop; split; cbn; try done; try lia;
    intros ? ?; try specialize (H8 ltac:(done)); lia.
Qed.

Lemma gate_reachable limit c g :
  NewAdmissionController limit = Ok c -> rtc gate_step (gate_start c) g -> gate_inv limit g.
Proof.
  intros Hc Hr. apply (rtc_invariant gate_step _ _ _ (gate_inv_step limit) Hr).
  by apply gate_inv_start.
Qed.

Lemma narrow_loop_spec fuel c :
  0 <= slots c -> 0 <= drainDebt c -> slots c <= Z.of_nat fuel ->
  let taken := Z.min (slots c) (drainDebt c) in
  narrow_loop fuel c = set_slots c (slots c - taken) (drainDebt c - taken).
Proof.
  revert c. induction fuel as [|fuel IH]; intros c Hs Hd Hf; cbn zeta; cbn [narrow_loop].
  - replace (slots c) with 0 by lia. rewrite Z.min_l, !Z.sub_0_r by lia.
    replace 0 with (slots c) at 1 by lia. by destruct c.
  - unfold narrow_turn. destruct (0 <? drainDebt c) eqn:E1; to_prop.
    + destruct (0 <? slots c) eqn:E2; to_prop.
      * rewrite IH by (cbn; lia). cbn. unfold set_slots. cbn. f_equal; lia.
      * replace (slots c) with 0 by lia. rewrite Z.min_l, !Z.sub_0_r by lia.
        replace 0 with (slots c) at 1 by lia. by destruct c.
    + rewrite Z.min_r by lia. replace (drainDebt c) with 0 by lia. rewrite !Z.sub_0_r.
      replace 0 with (drainDebt c) by lia. by destruct c.
Qed.

(** ** Properties *)

(** The gate under any interleaving of requests and narrowings. Tokens
    are conserved: idle plus in flight is the ceiling plus the unpaid debt.
    So no more than the configured maximum is ever in flight; the ceiling only
    goes down and never below one; once a narrowing has returned no request
    is admitted until those in flight are below the new ceiling; a release
    never blocks, even though it sends while holding the mutex; and when
    nothing is in flight a request can be admitted. *)
Theorem admission_gate_safe limit c g :
  NewAdmissionController limit = Ok c -> rtc gate_step (gate_start c) g ->
  slots (controller g) + in_flight g = ceiling (controller g) + drainDebt (controller g) /\
  0 <= in_flight g <= limit /\
  (forall g', gate_step g g' -> 1 <= ceiling (controller g') <= ceiling (controller g)) /\
  (narrowing g = false -> forall c', Acquire (controller g) = Some c' ->
     in_flight g + 1 <= ceiling (controller g)) /\
  (0 < in_flight g -> is_Some (release (controller g))) /\
  (narrowing g = false -> in_flight g = 0 -> is_Some (Acquire (controller g))).
Proof.
  intros Hc Hr. pose proof (gate_reachable limit c g Hc Hr) as Hinv.
  pose proof Hinv as [H1 H2 H3 H4 H5 H6 H7 H8]. split_and!; [lia..| | | |].
  - intros g' Hst. split; [apply (gate_inv_step limit g g' Hinv Hst)|].
    destruct Hst as [g c' Hs|g c' Hn Hf Hs|g c' n Hn Hs|g c' Hn Hs|g Hn Hs];
      gate_unfold Hs; if_cases Hs; try (injection Hs as <-); to_prop; cbn; lia.
  - intros Hn c' Ha. gate_unfold Ha. if_cases Ha. to_prop.
    assert (~ 0 < drainDebt (controller g)) by (intros Hd; specialize (H8 Hn Hd); lia). lia.
  - intros Hf. unfold release. destruct (0 <? drainDebt (controller g)) eqn:E; [by eexists|to_prop].
    destruct (slots (controller g) <? maximum (controller g)) eqn:E2; [by eexists|to_prop; lia].
  - intros Hn Hz. unfold Acquire. destruct (0 <? slots (controller g)) eqn:E; [by eexists|to_prop].
    assert (~ 0 < drainDebt (controller g)) by (intros Hd; specialize (H8 Hn Hd); lia). lia.
Qed.

Lemma admission_gate_safe_witness :
  let c := {| slots := 4; ceiling := 4; maximum := 4; drainDebt := 0 |} in
  let g := {| controller := {| slots := 2; ceiling := 1; maximum := 4; drainDebt := 3 |};
              in_flight := 2; narrowing := true |} in
  NewAdmissionController 4 = Ok c /\ rtc gate_step (gate_start c) g /\ 0 <= in_flight g <= 4.
Proof.
  intros c g. assert (Hr : rtc gate_step (gate_start c) g).
  { eapply rtc_l; [by apply gate_acquire|]. eapply rtc_l; [by apply gate_acquire|].
    eapply rtc_l; [eapply (gate_lock _ _ 1); reflexivity|]. apply rtc_refl. }
  split_and!; [reflexivity|exact Hr|..];
    apply (admission_gate_safe 4 c g eq_refl Hr).
Defined.

(** [Narrow] on its own, in a state the gate can be in: the ceiling
    becomes the smaller of itself and the request floored at one, it collects
    idle tokens first and leaves the rest as debt, so what may be admitted
    next never passes the new ceiling; narrowing to the ceiling or above is a
    no-op. *)
Theorem Narrow_spec limit g newCeiling :
  gate_inv limit g -> narrowing g = false ->
  let c := controller g in
  let c' := Narrow c newCeiling in
  ceiling c' = Z.min (ceiling c) (Z.max 1 newCeiling) /\
  (ceiling c <= Z.max 1 newCeiling -> c' = c) /\
  slots c' = Z.max 0 (Z.min (slots c) (ceiling c' - in_flight g)) /\
  drainDebt c' = Z.max 0 (in_flight g - ceiling c').
Proof.
  intros [H1 H2 H3 H4 H5 H6 H7 H8] Hn. cbn zeta. unfold Narrow, narrow_lock.
  set (n' := if newCeiling <? 1 then 1 else newCeiling).
  assert (Hn' : n' = Z.max 1 newCeiling) by (unfold n'; destruct (newCeiling <? 1) eqn:E; to_prop; lia).
  clearbody n'. subst n'. specialize (H8 Hn).
  destruct (ceiling (controller g) <=? Z.max 1 newCeiling) eqn:E; to_prop.
  - split_and!; [lia|done|lia..].
  - rewrite narrow_loop_spec by (cbn; lia). cbn. split_and!; lia.
Qed.

Lemma Narrow_spec_witness :
  let g := {| controller := {| slots := 2; ceiling := 4; maximum := 4; drainDebt := 0 |};
              in_flight := 2; narrowing := false |} in
  gate_inv 4 g /\ ceiling (Narrow (controller g) 1) = 1 /\
  drainDebt (Narrow (controller g) 1) = Z.max 0 (2 - ceiling (Narrow (controller g) 1)).
Proof.
  intros g. assert (Hi : gate_inv 4 g) by (split; cbn; lia).
  split_and!; [exact Hi|reflexivity|].
  apply (Narrow_spec 4 g 1 Hi eq_refl).
Defined.
