(* ===== verification/Layout.v ===== *)
(** * Placement of task graphs (src/internal/graphlayout/model.go, layout.go
    and cache.go)

    [Compute] collapses strongly connected components (Tarjan's algorithm),
    ranks them along the edges (Kahn's algorithm), gives every node a cell of a
    grid and reuses the cells of an earlier layout where it can. Identities are
    their strings. Coordinates are [int64] with wrap-around; ranks and orders
    are small counts. A slice indexed by component is a list; a Go map read at
    a missing key gives its zero value. The two loops that are not structural
    take fuel, and [None] is running out of it. *)

From S2P Require Import Prelude GoText.
Open Scope string_scope.
Open Scope list_scope.
Open Scope Z_scope.

Definition AlgorithmVersion : string := "ltr-layered-scc-v1".
Definition DefaultNodeWidth : Z := 240.
Definition DefaultNodeHeight : Z := 88.
Definition DefaultRankGap : Z := 112.
Definition DefaultSiblingGap : Z := 40.
Definition DefaultPadding : Z := 64.
Definition MaxLayoutNodes : Z := 1200.
Definition MaxLayoutEdges : Z := 4800.

Abbreviation NodeClass := string.
Definition NodeClassRequirement : NodeClass := "requirement".
Definition NodeClassPlanRegion : NodeClass := "plan-region".
Definition NodeClassAtomOperation : NodeClass := "atom-operation".
Definition NodeClassEffect : NodeClass := "effect".
Definition NodeClassBranchMatchMerge : NodeClass := "branch-match-merge".
Definition NodeClassObligation : NodeClass := "obligation".
Definition NodeClassArtifactResult : NodeClass := "artifact-result".

Definition NodeClass_IsValid (class : NodeClass) : bool :=
  bool_decide (class ∈ [NodeClassRequirement; NodeClassPlanRegion; NodeClassAtomOperation;
    NodeClassEffect; NodeClassBranchMatchMerge; NodeClassObligation; NodeClassArtifactResult]).

Definition classRankFloor (class : NodeClass) : Z :=
  if (class =? NodeClassRequirement)%string then 0
  else if (class =? NodeClassPlanRegion)%string then 1
  else if ((class =? NodeClassAtomOperation) || (class =? NodeClassBranchMatchMerge))%string then 2
  else if (class =? NodeClassEffect)%string then 3
  else if (class =? NodeClassObligation)%string then 4
  else if (class =? NodeClassArtifactResult)%string then 5
  else 0.

Abbreviation NodeID := string.
Abbreviation EdgeID := string.

Record Node := mkNode { Node_ID : NodeID; Node_Class : NodeClass }.

Record Edge := mkEdge { Edge_ID : EdgeID; FromNode : NodeID; ToNode : NodeID }.

Record Rect := mkRect { X : Z; Y : Z; Width : Z; Height : Z }.

Definition right (r : Rect) : Z := add64 (X r) (Width r).
Definition bottom (r : Rect) : Z := add64 (Y r) (Height r).

Record Placement := mkPlacement {
  Placement_NodeID : NodeID;
  ComponentKey : NodeID;
  Rank : Z;
  Order : Z;
  Bounds : Rect;
}.

Record Component := mkComponent {
  Component_Key : NodeID;
  Component_Members : list NodeID;
  Component_Rank : Z;
}.

Record Layout := {
  Layout_AlgorithmVersion : string;
  Layout_Nodes : list Placement;
  Layout_Components : list Component;
  Layout_Bounds : Rect;
}.

Record PriorLayout := {
  Prior_AlgorithmVersion : string;
  Prior_Nodes : list Placement;
}.

Record Input := {
  Input_Nodes : list Node;
  Input_Edges : list Edge;
  Previous : option PriorLayout;
}.

(** ** Input validation; every error wraps [ErrInvalidLayoutInput] *)

Definition ErrInvalidLayoutInput (detail : string) : string :=
  "invalid graph layout input: " +:+ detail.

Fixpoint check_nodes (known : gset NodeID) (nodes : list Node) : result string (gset NodeID) :=
  match nodes with
  | [] => Ok known
  | node :: rest =>
      if (Node_ID node =? "")%string || negb (NodeClass_IsValid (Node_Class node)) then
        Err (ErrInvalidLayoutInput "node identity and class are required")
      else if bool_decide (Node_ID node ∈ known) then
        Err (ErrInvalidLayoutInput ("duplicate node " +:+ Node_ID node))
      else check_nodes ({[Node_ID node]} ∪ known) rest
  end.

Fixpoint check_edges (knownNodes : gset NodeID) (known : gset EdgeID) (edges : list Edge)
    : option string :=
  match edges with
  | [] => None
  | edge :: rest =>
      if ((Edge_ID edge =? "") || (FromNode edge =? "") || (ToNode edge =? ""))%string then
        Some (ErrInvalidLayoutInput "edge identity and endpoints are required")
      else if bool_decide (Edge_ID edge ∈ known) then
        Some (ErrInvalidLayoutInput ("duplicate edge " +:+ Edge_ID edge))
      else if bool_decide (FromNode edge ∉ knownNodes) then
        Some (ErrInvalidLayoutInput ("edge " +:+ Edge_ID edge +:+ " has an unknown source"))
      else if bool_decide (ToNode edge ∉ knownNodes) then
        Some (ErrInvalidLayoutInput ("edge " +:+ Edge_ID edge +:+ " has an unknown destination"))
      else check_edges knownNodes ({[Edge_ID edge]} ∪ known) rest
  end.

Definition validateInput (input : Input) : option string :=
  if (MaxLayoutNodes <? Z.of_nat (length (Input_Nodes input))) ||
     (MaxLayoutEdges <? Z.of_nat (length (Input_Edges input))) then
    Some (ErrInvalidLayoutInput ("bounded layout supports at most " +:+ fmt_d MaxLayoutNodes +:+
      " nodes and " +:+ fmt_d MaxLayoutEdges +:+ " edges"))
  else
    match check_nodes ∅ (Input_Nodes input) with
    | Err e => Some e
    | Ok knownNodes => check_edges knownNodes ∅ (Input_Edges input)
    end.

(** ** Sorting by identity *)

Section ByKey.
Context {A : Type} (key : A -> string).
Definition key_le (a b : A) : Prop := String.le (key a) (key b).
#[export] Instance key_le_dec : RelDecision key_le.
Proof. unfold key_le. intros a b. apply _. Defined.
Definition sort_by (l : list A) : list A := merge_sort key_le l.
End ByKey.

(** ** Strongly connected components

    The [outgoing] field of a component is the list [outgoing] of
    [rankComponents], which is where the source fills it in. *)

Record componentState := mkState {
  cs_key : NodeID;
  cs_members : list NodeID;
  cs_rank : Z;
  cs_floor : Z;
}.

Definition adjacency_of (nodes : list Node) (edges : list Edge) : gmap NodeID (list NodeID) :=
  let start := fold_left (fun m node => <[Node_ID node := []]> m) nodes ∅ in
  sort_strings <$>
    fold_left (fun (m : gmap NodeID (list NodeID)) edge =>
      <[FromNode edge := default [] (m !! FromNode edge) ++ [ToNode edge]]> m) edges start.

(** The variables [visit] closes over; the stack has its top first. *)
Record tarjan := {
  index : Z;
  indices : gmap NodeID Z;
  lowlink : gmap NodeID Z;
  onStack : gset NodeID;
  stack : list NodeID;
  memberships : list (list NodeID);
}.

Definition index_at (t : tarjan) (id : NodeID) : Z := default 0 (indices t !! id).
Definition low_at (t : tarjan) (id : NodeID) : Z := default 0 (lowlink t !! id).

Definition enter (t : tarjan) (id : NodeID) : tarjan :=
  let n := index t + 1 in
  {| index := n; indices := <[id := n]> (indices t); lowlink := <[id := n]> (lowlink t);
     onStack := {[id]} ∪ onStack t; stack := id :: stack t; memberships := memberships t |}.

Definition lower (t : tarjan) (id : NodeID) (n : Z) : tarjan :=
  {| index := index t; indices := indices t;
     lowlink := <[id := Z.min (low_at t id) n]> (lowlink t);
     onStack := onStack t; stack := stack t; memberships := memberships t |}.

(** The pops down to [id]. *)
Fixpoint pop_to (id : NodeID) (stack : list NodeID) : list NodeID * list NodeID :=
  match stack with
  | [] => ([], [])
  | last :: rest =>
      if (last =? id)%string then ([last], rest)
      else let '(component, rest') := pop_to id rest in (last :: component, rest')
  end.

Definition close_component (t : tarjan) (id : NodeID) : tarjan :=
  let '(component, rest) := pop_to id (stack t) in
  {| index := index t; indices := indices t; lowlink := lowlink t;
     onStack := onStack t ∖ list_to_set component; stack := rest;
     memberships := memberships t ++ [sort_strings component] |}.

Section Neighbors.
Context (visit : NodeID -> tarjan -> option tarjan) (id : NodeID).

Fixpoint visit_neighbors (neighbors : list NodeID) (t : tarjan) : option tarjan :=
  match neighbors with
  | [] => Some t
  | neighbor :: rest =>
      if index_at t neighbor =? 0 then
        match visit neighbor t with
        | None => None
        | Some t => visit_neighbors rest (lower t id (low_at t neighbor))
        end
      else if bool_decide (neighbor ∈ onStack t) then
        visit_neighbors rest (lower t id (index_at t neighbor))
      else visit_neighbors rest t
  end.
End Neighbors.

Fixpoint visit (fuel : nat) (adjacency : gmap NodeID (list NodeID)) (id : NodeID) (t : tarjan)
    : option tarjan :=
  match fuel with
  | O => None
  | S fuel =>
      match visit_neighbors (visit fuel adjacency) id (default [] (adjacency !! id)) (enter t id) with
      | None => None
      | Some t => Some (if negb (low_at t id =? index_at t id) then t else close_component t id)
      end
  end.

Fixpoint visit_nodes (fuel : nat) (adjacency : gmap NodeID (list NodeID)) (nodes : list Node)
    (t : tarjan) : option tarjan :=
  match nodes with
  | [] => Some t
  | node :: rest =>
      if index_at t (Node_ID node) =? 0 then
        match visit fuel adjacency (Node_ID node) t with
        | None => None
        | Some t => visit_nodes fuel adjacency rest t
        end
      else visit_nodes fuel adjacency rest t
  end.

Definition tarjan_start : tarjan :=
  {| index := 0; indices := ∅; lowlink := ∅; onStack := ∅; stack := []; memberships := [] |}.

Definition first_member (members : list NodeID) : string := default "" (head members).

Definition make_component (classes : gmap NodeID NodeClass) (members : list NodeID)
    : componentState :=
  let floor := fold_left (fun floor member =>
    Z.max floor (classRankFloor (default "" (classes !! member)))) members 0 in
  {| cs_key := first_member members; cs_members := members; cs_rank := floor; cs_floor := floor |}.

Definition collapseComponents (nodes : list Node) (edges : list Edge)
    : option (list componentState * gmap NodeID nat) :=
  let classes : gmap NodeID NodeClass :=
    fold_left (fun m node => <[Node_ID node := Node_Class node]> m) nodes ∅ in
  match visit_nodes (S (length nodes)) (adjacency_of nodes edges) nodes tarjan_start with
  | None => None
  | Some t =>
      let memberships := sort_by first_member (memberships t) in
      Some (map (make_component classes) memberships,
            fold_left (fun m '(i, members) =>
              fold_left (fun m member => <[member := i]> m) members m)
              (imap (fun i members => (i, members)) memberships) ∅)
  end.

(** ** Ranks *)

Definition component_of (componentOf : gmap NodeID nat) (id : NodeID) : nat :=
  default 0%nat (componentOf !! id).

Definition zero_state : componentState := mkState "" [] 0 0.

Definition component_at (components : list componentState) (i : nat) : componentState :=
  default zero_state (components !! i).

(** The distinct destinations of each component, and the in-degrees. *)
Definition count_edges (n : nat) (componentOf : gmap NodeID nat) (edges : list Edge)
    : list (gset nat) * list Z :=
  fold_left (fun '(sets, indegree) edge =>
      let from := component_of componentOf (FromNode edge) in
      let to := component_of componentOf (ToNode edge) in
      if bool_decide (from = to) then (sets, indegree)
      else if bool_decide (to ∈ default ∅ (sets !! from)) then (sets, indegree)
      else (<[from := {[to]} ∪ default ∅ (sets !! from)]> sets,
            <[to := default 0 (indegree !! to) + 1]> indegree))
    edges (replicate n ∅, replicate n 0).

Definition sortComponentQueue (queue : list nat) (components : list componentState) : list nat :=
  sort_by (fun i => cs_key (component_at components i)) queue.

Definition set_rank (c : componentState) (rank : Z) : componentState :=
  {| cs_key := cs_key c; cs_members := cs_members c; cs_rank := rank; cs_floor := cs_floor c |}.

(** The inner loop over the destinations of the component taken from the queue. *)
Fixpoint relax (current : nat) (destinations : list nat)
    (components : list componentState) (indegree : list Z) (queue : list nat)
    : list componentState * list Z * list nat :=
  match destinations with
  | [] => (components, indegree, queue)
  | destination :: rest =>
      let c := component_at components destination in
      let components := <[destination := set_rank c
        (Z.max (Z.max (cs_rank c) (cs_rank (component_at components current) + 1))
               (cs_floor c))]> components in
      let n := default 0 (indegree !! destination) - 1 in
      let indegree := <[destination := n]> indegree in
      let queue := if n =? 0 then sortComponentQueue (queue ++ [destination]) components
                   else queue in
      relax current rest components indegree queue
  end.

Fixpoint rank_loop (fuel : nat) (outgoing : list (list nat))
    (components : list componentState) (indegree : list Z) (queue : list nat)
    : option (list componentState) :=
  match fuel with
  | O => None
  | S fuel =>
      match queue with
      | [] => Some components
      | current :: queue =>
          let '(components, indegree, queue) :=
            relax current (default [] (outgoing !! current)) components indegree queue in
          rank_loop fuel outgoing components indegree queue
      end
  end.

Definition rankComponents (components : list componentState) (componentOf : gmap NodeID nat)
    (edges : list Edge) : option (list componentState) :=
  let n := length components in
  let '(sets, indegree) := count_edges n componentOf edges in
  let outgoing := map (fun s => sortComponentQueue (elements s) components) sets in
  let queue := sortComponentQueue
    (List.filter (fun i => default 0 (indegree !! i) =? 0) (seq 0 n)) components in
  rank_loop (S n) outgoing components indegree queue.

(** ** Cells *)

Section Canonical.
Context (components : list componentState) (componentOf : gmap NodeID nat).

Definition component_for (id : NodeID) : componentState :=
  component_at components (component_of componentOf id).

(** The order of [canonicalPlacements]: rank, then component key, then identity. *)
Definition place_le (a b : Node) : Prop :=
  let left := component_for (Node_ID a) in
  let right := component_for (Node_ID b) in
  if decide (cs_rank left = cs_rank right) then
    if decide (cs_key left = cs_key right) then String.le (Node_ID a) (Node_ID b)
    else String.le (cs_key left) (cs_key right)
  else cs_rank left <= cs_rank right.
#[export] Instance place_le_dec : RelDecision place_le.
Proof. intros a b. unfold place_le. repeat case_decide; apply _. Defined.

Definition cell (rank order : Z) : Rect :=
  {| X := add64 DefaultPadding (mul64 rank (add64 DefaultNodeWidth DefaultRankGap));
     Y := add64 DefaultPadding (mul64 order (add64 DefaultNodeHeight DefaultSiblingGap));
     Width := DefaultNodeWidth; Height := DefaultNodeHeight |}.

Definition place_node (st : gmap Z Z * gmap NodeID Placement) (node : Node)
    : gmap Z Z * gmap NodeID Placement :=
  let component := component_for (Node_ID node) in
  let rank := cs_rank component in
  let order := default 0 (st.1 !! rank) in
  (<[rank := order + 1]> st.1,
   <[Node_ID node :=
      {| Placement_NodeID := Node_ID node; ComponentKey := cs_key component; Rank := rank;
         Order := order; Bounds := cell rank order |}]> st.2).

Definition canonicalPlacements (nodes : list Node) : gmap NodeID Placement :=
  (fold_left place_node (merge_sort place_le nodes) (∅, ∅)).2.
End Canonical.

(** ** Reuse of an earlier layout *)

Definition overlaps (candidate existing : Rect) : bool :=
  (X candidate <? add64 (right existing) DefaultRankGap) &&
  (X existing <? add64 (right candidate) DefaultRankGap) &&
  (Y candidate <? add64 (bottom existing) DefaultSiblingGap) &&
  (Y existing <? add64 (bottom candidate) DefaultSiblingGap).

Definition overlapsAny (candidate : Rect) (occupied : list Rect) : bool :=
  existsb (overlaps candidate) occupied.

Definition with_Y (r : Rect) (y : Z) : Rect := mkRect (X r) y (Width r) (Height r).

Definition placement_step : Z := add64 DefaultNodeHeight DefaultSiblingGap.

(** The search outwards: [remaining] distances are left, from [distance] on. *)
Fixpoint search_free (remaining : nat) (distance : Z) (candidate : Rect) (occupied : list Rect)
    : option Z :=
  match remaining with
  | O => None
  | S remaining =>
      let down := with_Y candidate (add64 (Y candidate) (mul64 distance placement_step)) in
      if negb (overlapsAny down occupied) then Some (Y down)
      else
        let upY := sub64 (Y candidate) (mul64 distance placement_step) in
        if (DefaultPadding <=? upY) && negb (overlapsAny (with_Y candidate upY) occupied) then
          Some upY
        else search_free remaining (distance + 1) candidate occupied
  end.

Definition nearestFreeY (candidate : Rect) (occupied : list Rect) : Z :=
  if negb (overlapsAny candidate occupied) then Y candidate
  else
    match search_free (length occupied + 1) 1 candidate occupied with
    | Some y => y
    | None => add64 (Y candidate) (mul64 (Z.of_nat (length occupied) + 1) placement_step)
    end.

Definition stableNeighbors (edges : list Edge) : gmap NodeID (list NodeID) :=
  sort_strings <$>
    fold_left (fun (m : gmap NodeID (list NodeID)) edge =>
      let m := <[FromNode edge := default [] (m !! FromNode edge) ++ [ToNode edge]]> m in
      <[ToNode edge := default [] (m !! ToNode edge) ++ [FromNode edge]]> m) edges ∅.

Definition stableNeighborY (neighbors : list NodeID) (placed : gmap NodeID Placement)
    (reused : gset NodeID) : option Z :=
  let '(total, count) := fold_left (fun '(total, count) neighbor =>
      match placed !! neighbor with
      | Some placement =>
          if bool_decide (neighbor ∈ reused) then
            (add64 total (Y (Bounds placement)), count + 1)
          else (total, count)
      | None => (total, count)
      end) neighbors (0, 0) in
  if count =? 0 then None else Some (Z.quot total count).

(** The variables of [reuseAndPlace]. *)
Record placing := {
  placed : gmap NodeID Placement;
  occupied : gmap Z (list Rect);
  reused : gset NodeID;
}.

Definition occupied_at (p : placing) (rank : Z) : list Rect := default [] (occupied p !! rank).

Definition with_bounds (p : Placement) (r : Rect) : Placement :=
  {| Placement_NodeID := Placement_NodeID p; ComponentKey := ComponentKey p; Rank := Rank p;
     Order := Order p; Bounds := r |}.

Definition put (p : placing) (id : NodeID) (placement : Placement) (rank : Z) : placing :=
  {| placed := <[id := placement]> (placed p);
     occupied := <[rank := occupied_at p rank ++ [Bounds placement]]> (occupied p);
     reused := reused p |}.

(** One hint of the earlier layout. *)
Definition reuse_hint (canonical : gmap NodeID Placement) (p : placing) (hint : Placement)
    : placing :=
  match canonical !! Placement_NodeID hint with
  | None => p
  | Some placement =>
      if negb (Rank hint =? Rank placement) || negb (Width (Bounds hint) =? DefaultNodeWidth) ||
         negb (Height (Bounds hint) =? DefaultNodeHeight) ||
         negb (X (Bounds hint) =? X (Bounds placement)) || (Y (Bounds hint) <? 0) ||
         overlapsAny (Bounds hint) (occupied_at p (Rank hint)) then p
      else
        let p := put p (Placement_NodeID hint) (with_bounds placement (Bounds hint)) (Rank hint) in
        {| placed := placed p; occupied := occupied p;
           reused := {[Placement_NodeID hint]} ∪ reused p |}
  end.

(** One node that no hint placed. *)
Definition place_fresh (canonical : gmap NodeID Placement)
    (neighbors : gmap NodeID (list NodeID)) (p : placing) (id : NodeID) : placing :=
  match placed p !! id, canonical !! id with
  | Some _, _ => p
  | None, None => p
  | None, Some placement =>
      let bounds :=
        match stableNeighborY (default [] (neighbors !! id)) (placed p) (reused p) with
        | Some candidateY => with_Y (Bounds placement) (Z.max DefaultPadding candidateY)
        | None => Bounds placement
        end in
      let y := nearestFreeY bounds (occupied_at p (Rank placement)) in
      put p id (with_bounds placement (with_Y bounds y)) (Rank placement)
  end.

Definition placing_start : placing := {| placed := ∅; occupied := ∅; reused := ∅ |}.

Definition reuseAndPlace (canonical : gmap NodeID Placement) (edges : list Edge)
    (previous : option PriorLayout) : gmap NodeID Placement :=
  let p :=
    match previous with
    | Some prior =>
        if (Prior_AlgorithmVersion prior =? AlgorithmVersion)%string then
          fold_left (reuse_hint canonical) (sort_by Placement_NodeID (Prior_Nodes prior))
            placing_start
        else placing_start
    | None => placing_start
    end in
  let ids := sort_strings (map fst (map_to_list canonical)) in
  placed (fold_left (place_fresh canonical (stableNeighbors edges)) ids p).

(** ** The result *)

Definition with_order (p : Placement) (order : Z) : Placement :=
  {| Placement_NodeID := Placement_NodeID p; ComponentKey := ComponentKey p; Rank := Rank p;
     Order := order; Bounds := Bounds p |}.

(** The order of [assignOrders] in one rank: height, then identity. *)
Definition order_le (a b : NodeID * Placement) : Prop :=
  if decide (Y (Bounds a.2) = Y (Bounds b.2)) then String.le a.1 b.1
  else Y (Bounds a.2) <= Y (Bounds b.2).
#[export] Instance order_le_dec : RelDecision order_le.
Proof. intros a b. unfold order_le. case_decide; apply _. Defined.

(** The entries of one rank, in the order their numbers follow. *)
Definition rank_entries (placements : gmap NodeID Placement) (rank : Z)
    : list (NodeID * Placement) :=
  merge_sort order_le
    (List.filter (fun e => Rank e.2 =? rank) (map_to_list placements)).

Definition assignOrders (placements : gmap NodeID Placement) : gmap NodeID Placement :=
  map_imap (fun id placement =>
    Some (with_order placement
      (match list_find (fun e => e.1 = id) (rank_entries placements (Rank placement)) with
       | Some (i, _) => Z.of_nat i
       | None => Order placement
       end))) placements.

Definition layoutBounds (nodes : list Placement) : Rect :=
  match nodes with
  | [] => mkRect 0 0 (mul64 2 DefaultPadding) (mul64 2 DefaultPadding)
  | first :: rest =>
      let '(minX, minY, maxX, maxY) :=
        fold_left (fun '(minX, minY, maxX, maxY) node =>
          (Z.min minX (X (Bounds node)), Z.min minY (Y (Bounds node)),
           Z.max maxX (right (Bounds node)), Z.max maxY (bottom (Bounds node))))
          rest (X (Bounds first), Y (Bounds first), right (Bounds first), bottom (Bounds first)) in
      let x := Z.max 0 (sub64 minX DefaultPadding) in
      let y := Z.max 0 (sub64 minY DefaultPadding) in
      mkRect x y (add64 (sub64 maxX x) DefaultPadding) (add64 (sub64 maxY y) DefaultPadding)
  end.

(** [Compute]; the outer [None] is running out of fuel. *)
Definition Compute (input : Input) : option (result string Layout) :=
  match validateInput input with
  | Some e => Some (Err e)
  | None =>
      match Input_Nodes input with
      | [] => Some (Ok {| Layout_AlgorithmVersion := AlgorithmVersion; Layout_Nodes := [];
                          Layout_Components := [];
                          Layout_Bounds := mkRect 0 0 (mul64 2 DefaultPadding)
                                             (mul64 2 DefaultPadding) |})
      | _ =>
          let nodes := sort_by Node_ID (Input_Nodes input) in
          let edges := sort_by Edge_ID (Input_Edges input) in
          '(components, componentOf) ← collapseComponents nodes edges;
          components ← rankComponents components componentOf edges;
          let canonical := canonicalPlacements components componentOf nodes in
          let placed := assignOrders (reuseAndPlace canonical edges (Previous input)) in
          let result_nodes := sort_by Placement_NodeID (map snd (map_to_list placed)) in
          Some (Ok {| Layout_AlgorithmVersion := AlgorithmVersion;
                      Layout_Nodes := result_nodes;
                      Layout_Components := sort_by Component_Key
                        (map (fun c => mkComponent (cs_key c) (cs_members c) (cs_rank c)) components);
                      Layout_Bounds := layoutBounds result_nodes |})
      end
  end.

(** ** The persisted hints (cache.go) *)

Record CacheKey := {
  CacheKey_GraphID : string;
  CacheKey_GraphRevisionID : string;
  CacheKey_AlgorithmVersion : string;
}.

Definition CacheKey_Validate (key : CacheKey) : option string :=
  if ((CacheKey_GraphID key =? "") || (CacheKey_GraphRevisionID key =? "") ||
      (CacheKey_AlgorithmVersion key =? ""))%string then
    Some (ErrInvalidLayoutInput "cache key requires graph, revision, and algorithm identities")
  else None.

Record CachedLayout := { CachedLayout_Key : CacheKey; CachedLayout_Layout : Layout }.

Definition CachedLayout_Validate (cached : CachedLayout) : option string :=
  CacheKey_Validate (CachedLayout_Key cached) ;?
  if negb (Layout_AlgorithmVersion (CachedLayout_Layout cached) =?
           CacheKey_AlgorithmVersion (CachedLayout_Key cached))%string then
    Some (ErrInvalidLayoutInput "cached layout algorithm does not match its key")
  else None.

(** ** An example: a cycle feeding a result *)

Definition sample : Input :=
  {| Input_Nodes := [mkNode "a" "requirement"; mkNode "b" "plan-region"; mkNode "c" "plan-region";
                     mkNode "d" "artifact-result"; mkNode "e" "atom-operation"];
     Input_Edges := [mkEdge "1" "a" "b"; mkEdge "2" "b" "c"; mkEdge "3" "c" "b"; mkEdge "4" "c" "d";
                     mkEdge "5" "a" "e"];
     Previous := None |}.

Example sample_layout :
  match Compute sample with
  | Some (Ok l) =>
      map (fun p => (Placement_NodeID p, Rank p, Order p, X (Bounds p), Y (Bounds p))) (Layout_Nodes l) =
        [("a", 0, 0, 64, 64); ("b", 1, 0, 416, 64); ("c", 1, 1, 416, 192);
         ("d", 5, 0, 1824, 64); ("e", 2, 0, 768, 64)] /\
      map Component_Members (Layout_Components l) = [["a"]; ["b"; "c"]; ["d"]; ["e"]]
  | _ => False
  end.
Proof. vm_compute. split; reflexivity. Qed.
