(* ===== verification/LayoutFacts.v ===== *)
(** * What the graph layout guarantees

    Theorems of Layout.v: the two fuelled searches always finish, a layout
    computed without an earlier one has no overlapping nodes, computing it
    again from itself changes nothing, the search for a free position is right
    when everything placed so far is on the grid of the candidate, and wrong
    in general. *)

From S2P Require Import Prelude GoText Layout.
Open Scope string_scope.
Open Scope list_scope.
Open Scope Z_scope.

(** ** Tarjan's search finishes *)

Section Tarjan.
Context (adjacency : gmap NodeID (list NodeID)) (N : gset NodeID).
Context (Hclosed : forall id n, n ∈ default [] (adjacency !! id) -> n ∈ N).

(** The nodes not numbered yet. *)
Definition fresh_nodes (t : tarjan) : gset NodeID := filter (fun n => index_at t n = 0) N.

(** Components closed and nodes left: a search never raises their sum. *)
Definition weight (t : tarjan) : nat := length (memberships t) + size (fresh_nodes t).

(** Numbers are positive and are kept. *)
Definition extends (t t' : tarjan) : Prop :=
  0 <= index t' /\ (forall n, index_at t n <> 0 -> index_at t' n <> 0) /\
  (weight t' <= weight t)%nat.

Lemma extends_refl t : 0 <= index t -> extends t t.
Proof. unfold extends. auto. Qed.

Lemma extends_trans t1 t2 t3 : extends t1 t2 -> extends t2 t3 -> extends t1 t3.
Proof. intros (_ & H1 & W1) (H2 & H3 & W2). unfold extends. split_and!; [done|auto|lia]. Qed.

Lemma extends_fresh t t' : extends t t' -> (size (fresh_nodes t') <= size (fresh_nodes t))%nat.
Proof.
  intros (_ & H & _). apply subseteq_size. intros n. unfold fresh_nodes.
  rewrite !elem_of_filter. intros [Hn ?]. split; [|done].
  destruct (decide (index_at t n = 0)); [done|]. by destruct (H n).
Qed.

Lemma enter_index t id n :
  0 <= index t -> index_at (enter t id) n = if decide (n = id) then index t + 1 else index_at t n.
Proof.
  intros _. unfold index_at, enter. cbn. case_decide as E.
  - subst. by rewrite lookup_insert_eq.
  - by rewrite lookup_insert_ne.
Qed.

Lemma enter_fresh t id :
  0 <= index t -> id ∈ N -> index_at t id = 0 ->
  (size (fresh_nodes (enter t id)) < size (fresh_nodes t))%nat.
Proof.
  intros H Hid Hz. apply subset_size. split.
  - intros n. unfold fresh_nodes. rewrite !elem_of_filter, enter_index by done.
    case_decide; [lia|done].
  - intros Hsub. specialize (Hsub id). unfold fresh_nodes in Hsub.
    rewrite !elem_of_filter, enter_index, decide_True in Hsub by done.
    destruct (Hsub (conj Hz Hid)). lia.
Qed.

Lemma close_index t id n : index_at (close_component t id) n = index_at t n.
Proof. unfold close_component. by destruct (pop_to id (stack t)). Qed.

Lemma close_weight t id : (weight (close_component t id) <= S (weight t))%nat.
Proof.
  unfold weight. assert (Hf : fresh_nodes (close_component t id) = fresh_nodes t).
  { apply set_eq. intros n. unfold fresh_nodes. by rewrite !elem_of_filter, close_index. }
  rewrite Hf. unfold close_component. destruct (pop_to id (stack t)). cbn. rewrite length_app. cbn. lia.
Qed.

Definition visit_total (v : NodeID -> tarjan -> option tarjan) (bound : nat) : Prop :=
  forall id t, 0 <= index t -> id ∈ N -> index_at t id = 0 ->
    (size (fresh_nodes t) <= bound)%nat -> exists t', v id t = Some t' /\ extends t t'.

Lemma visit_neighbors_total v bound id neighbors t :
  visit_total v bound -> (forall n, n ∈ neighbors -> n ∈ N) -> 0 <= index t ->
  (size (fresh_nodes t) <= bound)%nat ->
  exists t', visit_neighbors v id neighbors t = Some t' /\ extends t t'.
Proof.
  intros Hv. revert t. induction neighbors as [|n rest IH]; intros t Hin Hpos Hsz; cbn.
  { exists t. by split; [|apply extends_refl]. }
  assert (Hrest : forall m, m ∈ rest -> m ∈ N) by (intros; apply Hin; by right).
  destruct (index_at t n =? 0) eqn:E; to_prop.
  - destruct (Hv n t) as (t1 & -> & Hext); [done|by apply Hin; left|done..|].
    destruct (IH (lower t1 id (low_at t1 n))) as (t' & -> & Hext'); [done|apply Hext|..].
    + etransitivity; [apply (extends_fresh t)|done]. exact Hext.
    + exists t'. split; [done|]. by apply (extends_trans t t1).
  - case_bool_decide.
    + destruct (IH (lower t id (index_at t n))) as (t' & -> & Hext'); [done..|]. by exists t'.
    + by apply IH.
Qed.

Lemma visit_finishes fuel : visit_total (visit fuel adjacency) fuel.
Proof.
  induction fuel as [|fuel IH]; intros id t Hpos Hid Hz Hsz; cbn.
  { pose proof (enter_fresh t id Hpos Hid Hz). lia. }
  destruct (visit_neighbors_total (visit fuel adjacency) fuel id (default [] (adjacency !! id))
    (enter t id)) as (t1 & -> & Hext); [done|by apply Hclosed|cbn; lia| |].
  { pose proof (enter_fresh t id Hpos Hid Hz). lia. }
  pose proof (enter_fresh t id Hpos Hid Hz) as Hlt.
  assert (Hw : (S (weight (enter t id)) <= weight t)%nat) by (unfold weight; cbn; lia).
  destruct Hext as (Hi & Hk & Hw1).
  assert (Hkeep : forall n, index_at t n <> 0 -> index_at t1 n <> 0).
  { intros n Hn. apply Hk. rewrite enter_index by done. case_decide; [lia|done]. }
  eexists. split; [done|]. destruct (negb _); [split_and!; [done..|lia]|].
  pose proof (close_weight t1 id). split_and!; [|by intros n; rewrite close_index; auto|lia].
  unfold close_component. by destruct (pop_to id (stack t1)).
Qed.

Lemma visit_nodes_finishes fuel nodes t :
  (forall n, n ∈ nodes -> Node_ID n ∈ N) -> 0 <= index t -> (size N <= fuel)%nat ->
  exists t', visit_nodes fuel adjacency nodes t = Some t' /\ (weight t' <= weight t)%nat.
Proof.
  revert t. induction nodes as [|n rest IH]; intros t Hin Hpos Hsz; cbn; [by eexists|].
  assert (Hrest : forall m, m ∈ rest -> Node_ID m ∈ N) by (intros; apply Hin; by right).
  destruct (index_at t (Node_ID n) =? 0) eqn:E; to_prop; [|by apply IH].
  destruct (visit_finishes fuel (Node_ID n) t) as (t' & -> & Hext); [done|by apply Hin; left|done| |].
  - etransitivity; [|exact Hsz]. apply subseteq_size. intros m. unfold fresh_nodes.
    rewrite elem_of_filter. tauto.
  - destruct (IH t') as (t2 & -> & Hw); [done|apply Hext|done|].
    exists t2. split; [done|]. destruct Hext as (_ & _ & ?). lia.
Qed.
End Tarjan.

(** ** What validation establishes *)

Lemma check_nodes_Ok known nodes known' :
  check_nodes known nodes = Ok known' ->
  known' = list_to_set (map Node_ID nodes) ∪ known /\
  NoDup (map Node_ID nodes) /\ (forall n, n ∈ nodes -> Node_ID n ∉ known).
Proof.
  revert known. induction nodes as [|n rest IH]; intros known; cbn.
  { intros [= <-]. split_and!; [set_solver|constructor|by intros ? ?%not_elem_of_nil]. }
  destruct (_ || _); [done|]. case_bool_decide as Hk; [done|].
  intros (-> & Hnd & Hout)%IH. split_and!.
  - set_solver.
  - constructor; [|done]. intros (m & Hm & Hin)%list_elem_of_fmap.
    specialize (Hout m Hin). rewrite <- Hm in Hout. set_solver.
  - intros m [->|Hm]%elem_of_cons; [done|]. specialize (Hout m Hm). set_solver.
Qed.

Lemma check_edges_None nodes known edges :
  check_edges nodes known edges = None ->
  forall e, e ∈ edges -> FromNode e ∈ nodes /\ ToNode e ∈ nodes.
Proof.
  revert known. induction edges as [|e rest IH]; intros known; cbn.
  { by intros _ ? ?%not_elem_of_nil. }
  destruct (_ || _); [done|]. repeat case_bool_decide; try done. intros Hr e' [->|He]%elem_of_cons.
  - by split.
  - by apply (IH ({[Edge_ID e]} ∪ known)).
Qed.

Lemma validateInput_None input :
  validateInput input = None ->
  (length (Input_Nodes input) <= 1200)%nat /\ (length (Input_Edges input) <= 4800)%nat /\
  NoDup (map Node_ID (Input_Nodes input)) /\
  (forall e, e ∈ Input_Edges input ->
    FromNode e ∈ map Node_ID (Input_Nodes input) /\ ToNode e ∈ map Node_ID (Input_Nodes input)).
Proof.
  unfold validateInput, MaxLayoutNodes, MaxLayoutEdges. destruct (_ || _) eqn:E; [done|]. to_prop.
  destruct (check_nodes ∅ (Input_Nodes input)) as [?|known] eqn:Hn; [done|].
  apply check_nodes_Ok in Hn as (-> & Hnd & _). intros He. split_and!; [lia|lia|done|].
  intros e Hin. destruct (check_edges_None _ _ _ He e Hin). set_solver.
Qed.

Lemma adjacency_closed (N : gset NodeID) nodes edges id n :
  (forall e, e ∈ edges -> ToNode e ∈ N) ->
  n ∈ default [] (adjacency_of nodes edges !! id) -> n ∈ N.
Proof.
  intros Hedges. unfold adjacency_of. rewrite lookup_fmap.
  assert (H : forall l (m : gmap NodeID (list NodeID)),
    (forall e, e ∈ l -> ToNode e ∈ N) -> (forall k v x, m !! k = Some v -> x ∈ v -> x ∈ N) ->
    forall k v x, fold_left (fun (m : gmap NodeID (list NodeID)) edge =>
      <[FromNode edge := default [] (m !! FromNode edge) ++ [ToNode edge]]> m) l m !! k = Some v ->
      x ∈ v -> x ∈ N).
  { induction l as [|e l IH]; intros m Hl Hm k v x; cbn; [by apply Hm|].
    apply IH; [by intros; apply Hl; right|]. clear k v x. intros k v x.
    destruct (decide (k = FromNode e)) as [->|Hne].
    - rewrite lookup_insert_eq. intros [= <-] [Hx|Hx%list_elem_of_singleton]%elem_of_app.
      + destruct (m !! FromNode e) as [w|] eqn:Hw; [exact (Hm _ w x Hw Hx)|].
        by apply not_elem_of_nil in Hx.
      + subst x. apply Hl. by left.
    - rewrite lookup_insert_ne by done. apply Hm. }
  assert (Hstart : forall l (m : gmap NodeID (list NodeID)),
    (forall k v x, m !! k = Some v -> x ∈ v -> x ∈ N) ->
    forall k v x, fold_left (fun m node => <[Node_ID node := []]> m) l m !! k = Some v ->
      x ∈ v -> x ∈ N).
  { induction l as [|e l IH]; intros m Hm k v x; cbn; [by apply Hm|]. apply IH. clear k v x.
    intros k v x. destruct (decide (k = Node_ID e)) as [->|Hne].
    - rewrite lookup_insert_eq. by intros [= <-] ?%not_elem_of_nil.
    - rewrite lookup_insert_ne by done. apply Hm. }
  destruct (fold_left _ edges _ !! id) as [v|] eqn:Hv; cbn; [|by intros ?%not_elem_of_nil].
  rewrite sort_strings_perm. intros Hn. revert id v n Hv Hn. apply H; [done|].
  apply Hstart. intros k v x. by rewrite lookup_empty.
Qed.

(** ** Kahn's loop finishes *)

Definition positives (l : list Z) : nat := length (List.filter (fun n => 0 <? n) l).

Lemma positives_insert (l : list Z) (i : nat) (x y : Z) :
  l !! i = Some x ->
  (positives (<[i := y]> l) + (if (0 <? x)%Z then 1 else 0) =
   positives l + (if (0 <? y)%Z then 1 else 0))%nat.
Proof.
  unfold positives. revert i. induction l as [|a l IH]; intros i Hi; [done|].
  destruct i as [|i].
  - injection Hi as ->. change (<[0%nat := y]> (x :: l)) with (y :: l). cbn [List.filter].
    destruct (0 <? x), (0 <? y); cbn [length]; lia.
  - specialize (IH i Hi). change (<[S i := y]> (a :: l)) with (a :: <[i := y]> l).
    cbn [List.filter]. destruct (0 <? a); cbn [length]; lia.
Qed.

Lemma sort_by_length {A} (key : A -> string) l : length (sort_by key l) = length l.
Proof. apply Permutation_length, merge_sort_Permutation. Qed.

Lemma relax_measure current ds comps indegree queue comps' indegree' queue' :
  relax current ds comps indegree queue = (comps', indegree', queue') ->
  (length queue' + positives indegree' <= length queue + positives indegree)%nat.
Proof.
  revert comps indegree queue. induction ds as [|d ds IH]; intros comps indegree queue; cbn.
  { by intros [= <- <- <-]. }
  intros Hr%IH. etransitivity; [exact Hr|]. clear Hr IH.
  destruct (indegree !! d) as [x|] eqn:Hx; cbn.
  - pose proof (positives_insert indegree d x (x - 1) Hx) as Hp.
    destruct (x - 1 =? 0) eqn:E; to_prop.
    + unfold sortComponentQueue. rewrite sort_by_length, length_app. cbn.
      replace (0 <? x) with true in Hp by (symmetry; apply Z.ltb_lt; lia).
      replace (0 <? x - 1) with false in Hp by (symmetry; apply Z.ltb_ge; lia). lia.
    + destruct (0 <? x) eqn:E1, (0 <? x - 1) eqn:E2; to_prop; lia.
  - rewrite (list_insert_ge indegree) by (exact (proj1 (lookup_ge_None _ _) Hx)). change (0 - 1 =? 0) with false. lia.
Qed.

Lemma rank_loop_finishes fuel outgoing comps indegree queue :
  (length queue + positives indegree < fuel)%nat ->
  is_Some (rank_loop fuel outgoing comps indegree queue).
Proof.
  revert comps indegree queue. induction fuel as [|fuel IH]; intros comps indegree queue Hf; [lia|].
  cbn. destruct queue as [|current queue]; [by eexists|].
  destruct (relax current _ comps indegree queue) as [[comps' indegree'] queue'] eqn:Hr.
  apply IH. apply relax_measure in Hr. cbn in Hf. lia.
Qed.

(** ** Ranks stay small *)

Definition ranked (B : Z) (c : componentState) : Prop := 0 <= cs_rank c <= B /\ cs_floor c <= B.

Lemma ranked_mono B B' c : B <= B' -> ranked B c -> ranked B' c.
Proof. unfold ranked. lia. Qed.

Lemma ranked_at B comps i : 0 <= B -> Forall (ranked B) comps -> ranked B (component_at comps i).
Proof.
  intros HB Hall. unfold component_at. destruct (comps !! i) as [c|] eqn:Hc; cbn.
  - exact (Forall_lookup_1 _ _ _ _ Hall Hc).
  - unfold ranked. cbn. lia.
Qed.

Lemma relax_ranked current ds B comps indegree queue comps' indegree' queue' :
  0 <= B -> Forall (ranked B) comps ->
  relax current ds comps indegree queue = (comps', indegree', queue') ->
  Forall (ranked (B + Z.of_nat (length ds))) comps' /\ length comps' = length comps.
Proof.
  revert B comps indegree queue. induction ds as [|d ds IH]; intros B comps indegree queue HB Hall.
  { cbn. intros [= <- _ _]. by rewrite Z.add_0_r. }
  cbn [relax length]. intros Hr. apply (IH (B + 1)) in Hr; [|lia|].
  - destruct Hr as [Hr Hlen]. rewrite length_insert in Hlen. split; [|done].
    eapply Forall_impl; [exact Hr|]. intros c. apply ranked_mono. lia.
  - pose proof (ranked_at B comps d HB Hall) as Hd.
    pose proof (ranked_at B comps current HB Hall) as Hc.
    apply Forall_insert.
    + eapply Forall_impl; [exact Hall|]. intros c. apply ranked_mono. lia.
    + unfold ranked in *. cbn. lia.
Qed.

Lemma rank_loop_ranked fuel L outgoing B comps indegree queue comps' :
  0 <= B -> Forall (ranked B) comps ->
  (forall i, (length (default [] (outgoing !! i)) <= L)%nat) ->
  rank_loop fuel outgoing comps indegree queue = Some comps' ->
  Forall (ranked (B + Z.of_nat (fuel * L))) comps' /\ length comps' = length comps.
Proof.
  revert B comps indegree queue. induction fuel as [|fuel IH];
    intros B comps indegree queue HB Hall HL; cbn [rank_loop]; [done|].
  destruct queue as [|current queue].
  { intros [= <-]. split; [|done]. eapply Forall_impl; [exact Hall|].
    intros c. apply ranked_mono. lia. }
  destruct (relax current _ comps indegree queue) as [[comps1 indegree1] queue1] eqn:Hr.
  apply (relax_ranked _ _ B) in Hr as [Hall1 Hlen1]; [|done..]. intros Hl.
  apply (IH (B + Z.of_nat (length (default [] (outgoing !! current))))) in Hl;
    [|lia|done|done]. destruct Hl as [Hall2 Hlen2]. split; [|congruence].
  eapply Forall_impl; [exact Hall2|]. intros c. apply ranked_mono.
  specialize (HL current). lia.
Qed.

(** Each edge adds one destination to one set at most. *)
Lemma count_edges_size n componentOf edges i :
  (size (default ∅ ((count_edges n componentOf edges).1 !! i)) <= length edges)%nat /\
  length (count_edges n componentOf edges).1 = n /\
  length (count_edges n componentOf edges).2 = n.
Proof.
  unfold count_edges. induction edges as [|e edges IH] using rev_ind; cbn.
  { rewrite !length_replicate. split; [|done].
    destruct (decide (i < n)%nat).
    - rewrite lookup_replicate_2 by done. cbn. rewrite size_empty. lia.
    - rewrite (proj1 (lookup_replicate_None n (∅ : gset nat) i)) by lia. cbn.
      rewrite size_empty. lia. }
  rewrite fold_left_app, length_app. cbn.
  destruct (fold_left _ edges _) as [sets indegree]. cbn in IH. destruct IH as (IH & IH1 & IH2).
  repeat case_bool_decide; cbn; rewrite ?length_insert; [lia..|]. split; [|lia].
  destruct (decide (i = component_of componentOf (FromNode e))) as [->|Hne].
  - destruct (sets !! component_of componentOf (FromNode e)) as [s|] eqn:Hs; cbn in *.
    + rewrite list_lookup_insert_eq by (by eapply lookup_lt_Some). cbn.
      rewrite size_union_alt, size_singleton.
      assert (size (s ∖ {[component_of componentOf (ToNode e)]}) <= size s)%nat
        by (apply subseteq_size; set_solver). lia.
    + rewrite list_insert_ge by (exact (proj1 (lookup_ge_None _ _) Hs)). rewrite Hs. cbn. lia.
  - rewrite list_lookup_insert_ne by done. lia.
Qed.

Lemma positives_split l :
  (length (List.filter (fun i => (default 0 (l !! i) =? 0)%Z) (seq 0 (length l))) + positives l
    <= length l)%nat.
Proof.
  unfold positives. induction l as [|a l IH] using rev_ind; [done|].
  rewrite length_app, seq_app, !List.filter_app, !length_app. cbn [length seq].
  assert (Heq : List.filter (fun i => default 0 ((l ++ [a]) !! i) =? 0) (seq 0 (length l)) =
                List.filter (fun i => default 0 (l !! i) =? 0) (seq 0 (length l))).
  { apply filter_ext_in. intros i Hi%in_seq. by rewrite lookup_app_l by lia. }
  rewrite Heq. cbn [List.filter]. rewrite Nat.add_0_l, list_lookup_middle by done. cbn.
  destruct (a =? 0) eqn:E1, (0 <? a) eqn:E2; to_prop; cbn; lia.
Qed.

Lemma rankComponents_total comps componentOf edges :
  Forall (ranked 5) comps -> (length comps <= 1200)%nat -> (length edges <= 4800)%nat ->
  exists comps', rankComponents comps componentOf edges = Some comps' /\
    Forall (ranked (2 ^ 30)) comps' /\ length comps' = length comps.
Proof.
  intros Hall Hn He. unfold rankComponents.
  pose proof (count_edges_size (length comps) componentOf edges) as Hc.
  destruct (count_edges _ componentOf edges) as [sets indegree]. cbn in Hc.
  assert (Hlen : length indegree = length comps) by (by destruct (Hc 0%nat) as (_ & _ & ?)).
  set (outgoing := map _ sets).
  set (queue := sortComponentQueue _ _).
  destruct (rank_loop_finishes (S (length comps)) outgoing comps indegree queue) as [comps' Hr].
  { unfold queue, sortComponentQueue. rewrite sort_by_length, <- Hlen.
    pose proof (positives_split indegree). lia. }
  exists comps'. split; [done|].
  apply (rank_loop_ranked _ 4800 _ 5) in Hr as [Hr1 Hr2]; [|lia|done|].
  - split; [|done]. eapply Forall_impl; [exact Hr1|]. intros c. apply ranked_mono.
    rewrite Nat2Z.inj_mul. assert (Z.of_nat (S (length comps)) <= 1201) by lia.
    change (Z.of_nat 4800) with 4800. lia.
  - intros i. unfold outgoing. change (map ?f sets) with (f <$> sets).
    rewrite list_lookup_fmap. destruct (Hc i) as (Hsz & _).
    destruct (sets !! i) as [s|]; [|cbn; lia].
    change (default ∅ (Some s)) with s in Hsz. change (size s) with (length (elements s)) in Hsz.
    cbn [fmap option_fmap option_map default from_option id]. unfold sortComponentQueue.
    rewrite sort_by_length. lia.
Qed.

(** ** Components *)

Lemma classRankFloor_bounds c : 0 <= classRankFloor c <= 5.
Proof. unfold classRankFloor. repeat (destruct (_ : bool); [lia|]). lia. Qed.

Lemma make_component_ranked classes members : ranked 5 (make_component classes members).
Proof.
  unfold ranked, make_component. cbn [cs_rank cs_floor].
  assert (H : forall l floor, 0 <= floor <= 5 ->
    0 <= fold_left (fun floor member =>
      Z.max floor (classRankFloor (default "" (classes !! member)))) l floor <= 5).
  { induction l as [|m l IH]; intros floor Hf; cbn; [done|]. apply IH.
    pose proof (classRankFloor_bounds (default "" (classes !! m))). lia. }
  specialize (H members 0). lia.
Qed.

Lemma collapse_total nodes edges :
  (forall e, e ∈ edges -> ToNode e ∈ map Node_ID nodes) ->
  exists comps componentOf, collapseComponents nodes edges = Some (comps, componentOf) /\
    Forall (ranked 5) comps /\ (length comps <= length nodes)%nat.
Proof.
  intros He. set (N := list_to_set (map Node_ID nodes) : gset NodeID).
  assert (Hsize : (size N <= length nodes)%nat).
  { unfold N. rewrite <- (length_map Node_ID nodes).
    generalize (map Node_ID nodes). induction l as [|x l IH]; [by rewrite list_to_set_nil, size_empty|].
    cbn [length]. rewrite list_to_set_cons, size_union_alt, size_singleton.
    assert (size (list_to_set l ∖ {[x]} : gset NodeID) <= size (list_to_set l : gset NodeID))%nat
      by (apply subseteq_size; set_solver). lia. }
  destruct (visit_nodes_finishes (adjacency_of nodes edges) N) with
    (fuel := S (length nodes)) (nodes := nodes) (t := tarjan_start) as (t & Ht & Hw).
  - intros id n. apply adjacency_closed. intros e Hin. unfold N. by apply elem_of_list_to_set, He.
  - intros n Hn. unfold N. apply elem_of_list_to_set, list_elem_of_fmap. eauto.
  - done.
  - lia.
  - unfold collapseComponents. rewrite Ht. eexists _, _. split; [done|]. split.
    + apply Forall_fmap, Forall_true. intros members. apply make_component_ranked.
    + rewrite length_map. rewrite sort_by_length. unfold weight in Hw. cbn in Hw.
      assert (size (fresh_nodes N tarjan_start) <= size N)%nat.
      { apply subseteq_size. intros m. unfold fresh_nodes. rewrite elem_of_filter. tauto. }
      lia.
Qed.

(** ** Cells of the grid *)

Definition small (z : Z) : Prop := 0 <= z <= 2 ^ 40.

Lemma wrap_small z : - 2 ^ 60 <= z <= 2 ^ 60 -> wrap_int64 z = z.
Proof. intros H. apply wrap_int64_id. unfold_ranges. lia. Qed.

Lemma cell_small rank order : 0 <= rank <= 2 ^ 30 -> 0 <= order <= 2 ^ 30 ->
  cell rank order = mkRect (64 + rank * 352) (64 + order * 128) 240 88.
Proof.
  intros Hr Ho. unfold cell, add64, mul64, DefaultPadding, DefaultNodeWidth, DefaultRankGap,
    DefaultNodeHeight, DefaultSiblingGap.
  rewrite !(wrap_small (240 + 112)), !(wrap_small (88 + 40)) by lia. cbn [Z.add Pos.add].
  rewrite (wrap_small (rank * _)), (wrap_small (order * _)) by lia.
  rewrite !wrap_small by lia. reflexivity.
Qed.

(** Two rectangles of the standard size overlap, gaps included, when they are
    closer than a column and a row. *)
Lemma overlaps_standard x1 y1 x2 y2 :
  small x1 -> small y1 -> small x2 -> small y2 ->
  overlaps (mkRect x1 y1 240 88) (mkRect x2 y2 240 88) =
  (Z.abs (x1 - x2) <? 352) && (Z.abs (y1 - y2) <? 128).
Proof.
  unfold small, overlaps, right, bottom, add64, DefaultRankGap, DefaultSiblingGap. cbn [X Y Width Height].
  intros. rewrite !wrap_small by (rewrite ?wrap_small by lia; lia).
  apply eq_true_iff_eq. to_prop. lia.
Qed.

Lemma cell_overlap r1 o1 r2 o2 :
  0 <= r1 <= 2 ^ 30 -> 0 <= o1 <= 2 ^ 30 -> 0 <= r2 <= 2 ^ 30 -> 0 <= o2 <= 2 ^ 30 ->
  overlaps (cell r1 o1) (cell r2 o2) = true -> r1 = r2 /\ o1 = o2.
Proof.
  intros. rewrite !cell_small, overlaps_standard in * by (unfold small; lia). to_prop. lia.
Qed.

(** ** Canonical placements fill distinct cells *)

(** Placements in distinct cells of a grid of moderate size. *)
Record on_grid (m : gmap NodeID Placement) : Prop := {
  og_id id p : m !! id = Some p -> Placement_NodeID p = id;
  og_cell id p : m !! id = Some p ->
    0 <= Rank p <= 2 ^ 30 /\ 0 <= Order p <= 2 ^ 30 /\ Bounds p = cell (Rank p) (Order p);
  og_distinct id1 id2 p1 p2 : m !! id1 = Some p1 -> m !! id2 = Some p2 ->
    Rank p1 = Rank p2 -> Order p1 = Order p2 -> id1 = id2;
}.

Lemma on_grid_overlap m id1 id2 p1 p2 :
  on_grid m -> m !! id1 = Some p1 -> m !! id2 = Some p2 ->
  overlaps (Bounds p1) (Bounds p2) = true -> id1 = id2.
Proof.
  intros Hg H1 H2 Ho.
  destruct (og_cell _ Hg id1 p1 H1) as (Hr1 & Ho1 & Hb1).
  destruct (og_cell _ Hg id2 p2 H2) as (Hr2 & Ho2 & Hb2).
  rewrite Hb1, Hb2 in Ho. apply cell_overlap in Ho as [Hr Hor]; [|done..].
  by apply (og_distinct _ Hg id1 id2 p1 p2).
Qed.

Section Canonical.
Context (components : list componentState) (componentOf : gmap NodeID nat).
Context (Hranked : Forall (ranked (2 ^ 30)) components).

Record place_inv (done : list Node) (st : gmap Z Z * gmap NodeID Placement) : Prop := {
  pi_dom id : is_Some (st.2 !! id) <-> id ∈ map Node_ID done;
  pi_id id p : st.2 !! id = Some p -> Placement_NodeID p = id;
  pi_cell id p : st.2 !! id = Some p ->
    0 <= Rank p <= 2 ^ 30 /\ 0 <= Order p < default 0 (st.1 !! Rank p) /\
    Bounds p = cell (Rank p) (Order p);
  pi_distinct id1 id2 p1 p2 : st.2 !! id1 = Some p1 -> st.2 !! id2 = Some p2 ->
    Rank p1 = Rank p2 -> Order p1 = Order p2 -> id1 = id2;
  pi_count r : 0 <= default 0 (st.1 !! r) <= Z.of_nat (length done);
}.

Lemma place_inv_step done st node :
  place_inv done st -> Node_ID node ∉ map Node_ID done ->
  place_inv (done ++ [node]) (place_node components componentOf st node).
Proof.
  intros [H1 H2 H3 H4 H5] Hnew. unfold place_node.
  set (c := component_for components componentOf (Node_ID node)).
  assert (Hc : 0 <= cs_rank c <= 2 ^ 30).
  { pose proof (ranked_at (2 ^ 30) components (component_of componentOf (Node_ID node))
      ltac:(lia) Hranked) as Hr. exact (proj1 Hr). }
  set (order := default 0 (st.1 !! cs_rank c)).
  pose proof (H5 (cs_rank c)) as Hord. fold order in Hord.
  assert (Hold : forall id p, st.2 !! id = Some p -> id <> Node_ID node).
  { intros id p Hp ->. apply Hnew, H1. by eexists. }
  assert (Hcount : forall r, default 0 ((<[cs_rank c := order + 1]> st.1) !! r) =
    default 0 (st.1 !! r) + (if decide (r = cs_rank c) then 1 else 0)).
  { intros r. case_decide as E; [subst r; rewrite lookup_insert_eq; done|].
    rewrite lookup_insert_ne by done. lia. }
  split; cbn [fst snd].
  - intros id. rewrite map_app, elem_of_app, <- H1. cbn. rewrite list_elem_of_singleton.
    destruct (decide (id = Node_ID node)) as [->|Hne].
    + rewrite lookup_insert_eq. split; [by right|by eexists].
    + rewrite lookup_insert_ne by done. tauto.
  - intros id p. destruct (decide (id = Node_ID node)) as [->|Hne].
    + rewrite lookup_insert_eq. by intros [= <-].
    + rewrite lookup_insert_ne by done. apply H2.
  - intros id p. rewrite Hcount. destruct (decide (id = Node_ID node)) as [->|Hne].
    + rewrite lookup_insert_eq. intros [= <-]. cbn. rewrite decide_True by done.
      fold order. split_and!; [lia..|done].
    + rewrite lookup_insert_ne by done. intros Hp. destruct (H3 id p Hp) as (? & ? & ?).
      split_and!; [lia|lia|lia|case_decide; lia|done].
  - assert (Hfresh : forall id p, st.2 !! id = Some p -> Rank p = cs_rank c -> Order p <> order).
    { intros id p Hp Hr. destruct (H3 id p Hp) as (_ & Ho & _). rewrite Hr in Ho. fold order in Ho. lia. }
    intros id1 id2 p1 p2. destruct (decide (id1 = Node_ID node)) as [->|Hne1],
      (decide (id2 = Node_ID node)) as [->|Hne2]; rewrite ?lookup_insert_eq, ?lookup_insert_ne by done.
    + done.
    + intros [= <-] Hp Hr Ho. cbn in *. by destruct (Hfresh id2 p2).
    + intros Hp [= <-] Hr Ho. cbn in *. by destruct (Hfresh id1 p1).
    + apply H4.
  - intros r. rewrite Hcount, length_app. cbn. specialize (H5 r). case_decide; lia.
Qed.

Lemma place_inv_fold nodes done st :
  place_inv done st -> NoDup (map Node_ID (done ++ nodes)) ->
  place_inv (done ++ nodes) (fold_left (place_node components componentOf) nodes st).
Proof.
  revert done st. induction nodes as [|n nodes IH]; intros done st Hinv Hnd; cbn.
  { by rewrite app_nil_r. }
  replace (done ++ n :: nodes) with ((done ++ [n]) ++ nodes) in * by (by rewrite <- app_assoc).
  apply IH; [|done]. apply place_inv_step; [done|].
  rewrite !map_app in Hnd. apply NoDup_app in Hnd as (Hnd & _ & _).
  apply NoDup_app in Hnd as (_ & Hd & _). intros Hin. apply (Hd _ Hin). by left.
Qed.

Lemma canonical_on_grid nodes :
  NoDup (map Node_ID nodes) -> (length nodes <= 1200)%nat ->
  on_grid (canonicalPlacements components componentOf nodes) /\
  forall id, is_Some (canonicalPlacements components componentOf nodes !! id) <->
    id ∈ map Node_ID nodes.
Proof.
  intros Hnd Hlen. unfold canonicalPlacements.
  set (ordered := merge_sort _ nodes).
  assert (Hp : ordered ≡ₚ nodes) by apply merge_sort_Permutation.
  destruct (place_inv_fold ordered [] (∅, ∅)) as [H1 H2 H3 H4 H5].
  - split; cbn; intros; rewrite ?lookup_empty in *; try done.
    rewrite is_Some_alt, elem_of_nil. done.
  - cbn. by rewrite Hp.
  - cbn [app] in *. split.
    + split; [done| |done]. intros id p Hid. destruct (H3 id p Hid) as (Hr & Ho & Hb).
      specialize (H5 (Rank p)). rewrite (Permutation_length Hp) in H5. split_and!; [lia..|done].
    + intros id. by rewrite H1, Hp.
Qed.
End Canonical.

(** ** Placing on a grid *)

Section Reuse.
Context (canonical : gmap NodeID Placement) (neighbors : gmap NodeID (list NodeID)).
Context (Hgrid : on_grid canonical).

(** Everything placed so far is where the canonical layout has it, and only
    that occupies space. *)
Record canonical_inv (p : placing) : Prop := {
  ki_placed : placed p ⊆ canonical;
  ki_occupied r x : x ∈ occupied_at p r ->
    exists id q, placed p !! id = Some q /\ Rank q = r /\ Bounds q = x;
}.

Lemma canonical_inv_start : canonical_inv placing_start.
Proof.
  split; [apply map_empty_subseteq|]. intros r x. unfold occupied_at. cbn.
  rewrite lookup_empty. by intros ?%not_elem_of_nil.
Qed.

Lemma canonical_free p id q :
  canonical_inv p -> canonical !! id = Some q -> placed p !! id = None ->
  overlapsAny (Bounds q) (occupied_at p (Rank q)) = false.
Proof.
  intros [Hp Ho] Hq Hn. apply not_true_is_false. unfold overlapsAny.
  intros (x & Hx%list_elem_of_In & Hov)%existsb_exists.
  destruct (Ho _ _ Hx) as (id' & q' & Hq' & _ & <-).
  assert (id = id') as <-; [|congruence].
  apply (on_grid_overlap canonical id id' q q' Hgrid Hq); [|done]. by apply (lookup_weaken (placed p)).
Qed.

Lemma put_inv p id q :
  canonical_inv p -> canonical !! id = Some q -> placed p !! id = None ->
  canonical_inv (put p id q (Rank q)).
Proof.
  intros [Hp Ho] Hq Hn. split; cbn.
  - by apply insert_subseteq_l.
  - intros r x. unfold occupied_at at 1, put. cbn. destruct (decide (r = Rank q)) as [->|Hne].
    + rewrite lookup_insert_eq. cbn. intros [Hx|Hx%list_elem_of_singleton]%elem_of_app.
      * destruct (Ho _ _ Hx) as (id' & q' & Hq' & ? & ?). exists id', q'.
        split_and!; [|done..]. rewrite lookup_insert_ne; [done|]. intros ->. congruence.
      * exists id, q. by rewrite lookup_insert_eq.
    + rewrite lookup_insert_ne by done. intros Hx.
      destruct (Ho r x Hx) as (id' & q' & Hq' & ? & ?). exists id', q'.
      split_and!; [|done..]. rewrite lookup_insert_ne; [done|]. intros ->. congruence.
Qed.

Lemma with_bounds_self q : with_bounds q (Bounds q) = q.
Proof. by destruct q. Qed.

Lemma with_Y_self r : with_Y r (Y r) = r.
Proof. by destruct r. Qed.

Lemma stableNeighborY_none l m : stableNeighborY l m ∅ = None.
Proof.
  unfold stableNeighborY.
  assert (H : forall l, fold_left (fun '(total, count) neighbor =>
      match m !! neighbor with
      | Some placement =>
          if bool_decide (neighbor ∈ (∅ : gset NodeID)) then
            (add64 total (Y (Bounds placement)), count + 1)
          else (total, count)
      | None => (total, count)
      end) l (0, 0) = (0, 0)).
  { induction l0 as [|n l0 IH]; cbn; [done|]. destruct (m !! n); done. }
  by rewrite H.
Qed.

Lemma place_fresh_canonical p id q :
  canonical_inv p -> reused p = ∅ -> canonical !! id = Some q -> placed p !! id = None ->
  place_fresh canonical neighbors p id = put p id q (Rank q).
Proof.
  intros Hinv Hr Hq Hn. unfold place_fresh. rewrite Hn, Hq, Hr, stableNeighborY_none.
  unfold nearestFreeY. rewrite (canonical_free p id q Hinv Hq Hn). cbn [negb].
  by rewrite with_Y_self, with_bounds_self.
Qed.

Lemma placed_complete p :
  canonical_inv p -> (forall id, is_Some (canonical !! id) -> is_Some (placed p !! id)) ->
  placed p = canonical.
Proof.
  intros [Hp _] Hall. apply (anti_symm (⊆)); [done|]. apply map_subseteq_spec. intros id q Hq.
  destruct (Hall id) as [q' Hq']; [by eexists|].
  assert (canonical !! id = Some q') by (by apply (lookup_weaken (placed p))). congruence.
Qed.

Lemma place_fresh_all ids p :
  canonical_inv p -> reused p = ∅ ->
  (forall id, is_Some (canonical !! id) -> id ∈ ids \/ is_Some (placed p !! id)) ->
  placed (fold_left (place_fresh canonical neighbors) ids p) = canonical.
Proof.
  revert p. induction ids as [|id ids IH]; intros p Hinv Hr Hall; cbn.
  - apply placed_complete; [done|]. intros id Hid. by destruct (Hall id Hid) as [?%not_elem_of_nil|].
  - destruct (placed p !! id) as [q|] eqn:Hp.
    { assert (place_fresh canonical neighbors p id = p) as -> by (unfold place_fresh; by rewrite Hp).
      apply IH; [done..|]. intros i Hi. destruct (Hall i Hi) as [[->|?]%elem_of_cons|?]; eauto. }
    destruct (canonical !! id) as [q|] eqn:Hq.
    + rewrite (place_fresh_canonical p id q) by done.
      apply IH; [by apply put_inv|done|]. intros i Hi. cbn.
      destruct (decide (i = id)) as [->|Hne]; [right; rewrite lookup_insert_eq; by eexists|].
      rewrite lookup_insert_ne by done. destruct (Hall i Hi) as [[->|?]%elem_of_cons|?]; eauto. done.
    + assert (place_fresh canonical neighbors p id = p) as -> by (unfold place_fresh; by rewrite Hp, Hq).
      apply IH; [done..|]. intros i Hi.
      destruct (Hall i Hi) as [[->|?]%elem_of_cons|?]; eauto. destruct Hi. congruence.
Qed.

(** Nothing is left to place once everything is. *)
Lemma place_fresh_done ids p :
  placed p = canonical -> placed (fold_left (place_fresh canonical neighbors) ids p) = canonical.
Proof.
  revert p. induction ids as [|id ids IH]; intros p Hp; cbn; [done|].
  assert (place_fresh canonical neighbors p id = p) as ->; [|by apply IH].
  unfold place_fresh. rewrite Hp. by destruct (canonical !! id).
Qed.

(** A hint at its canonical place is taken. *)
Lemma reuse_hint_taken p hint q :
  canonical_inv p -> canonical !! Placement_NodeID hint = Some q ->
  placed p !! Placement_NodeID hint = None -> Rank hint = Rank q -> Bounds hint = Bounds q ->
  placed (reuse_hint canonical p hint) = <[Placement_NodeID hint := q]> (placed p) /\
  canonical_inv (reuse_hint canonical p hint).
Proof.
  intros Hinv Hq Hn Hr Hb. unfold reuse_hint. rewrite Hq, Hr, Hb.
  destruct (og_cell _ Hgrid _ _ Hq) as (Hr1 & Ho1 & Hcell).
  rewrite (canonical_free p _ q Hinv Hq Hn), Hcell, cell_small by done. cbn [X Y Width Height].
  rewrite !Z.eqb_refl. unfold DefaultNodeWidth, DefaultNodeHeight. cbn [negb Z.eqb Pos.eqb orb].
  destruct (64 + Order q * 128 <? 0) eqn:E; to_prop; [lia|].
  rewrite <- cell_small, <- Hcell, with_bounds_self by done. split; [done|].
  destruct (put_inv p _ q Hinv Hq Hn) as [H1 H2]. by split.
Qed.

Lemma reuse_all hints p :
  canonical_inv p -> NoDup (map Placement_NodeID hints) ->
  (forall h, h ∈ hints -> placed p !! Placement_NodeID h = None /\
    exists q, canonical !! Placement_NodeID h = Some q /\ Rank h = Rank q /\ Bounds h = Bounds q) ->
  (forall id, is_Some (canonical !! id) ->
    id ∈ map Placement_NodeID hints \/ is_Some (placed p !! id)) ->
  placed (fold_left (reuse_hint canonical) hints p) = canonical.
Proof.
  revert p. induction hints as [|h hints IH]; intros p Hinv Hnd Hh Hall; cbn.
  - apply placed_complete; [done|]. intros id Hid. by destruct (Hall id Hid) as [?%not_elem_of_nil|].
  - apply NoDup_cons in Hnd as [Hout Hnd].
    destruct (Hh h) as (Hn & q & Hq & Hr & Hb); [by left|].
    destruct (reuse_hint_taken p h q Hinv Hq Hn Hr Hb) as [Hpl Hinv'].
    apply IH; [done|done| |].
    + intros h' Hin. destruct (Hh h') as (Hn' & Hq'); [by right|]. split; [|done].
      rewrite Hpl, lookup_insert_ne; [done|]. intros Heq. apply Hout. rewrite Heq.
      apply list_elem_of_fmap. eauto.
    + intros id Hid. rewrite Hpl. destruct (decide (id = Placement_NodeID h)) as [->|Hne].
      { right. rewrite lookup_insert_eq. by eexists. }
      rewrite lookup_insert_ne by done.
      destruct (Hall id Hid) as [[->|?]%elem_of_cons|?]; [done|by left|by right].
Qed.
End Reuse.

(** ** Whole layouts *)

Definition with_previous (input : Input) (previous : option PriorLayout) : Input :=
  {| Input_Nodes := Input_Nodes input; Input_Edges := Input_Edges input; Previous := previous |}.

(** The earlier layout a later call is given. *)
Definition prior_of (l : Layout) : PriorLayout :=
  {| Prior_AlgorithmVersion := Layout_AlgorithmVersion l; Prior_Nodes := Layout_Nodes l |}.

Definition nodes_of (m : gmap NodeID Placement) : list Placement :=
  sort_by Placement_NodeID (map snd (map_to_list (assignOrders m))).

Definition layout_from (components : list componentState) (m : gmap NodeID Placement) : Layout :=
  {| Layout_AlgorithmVersion := AlgorithmVersion;
     Layout_Nodes := nodes_of m;
     Layout_Components := sort_by Component_Key
       (map (fun c => mkComponent (cs_key c) (cs_members c) (cs_rank c)) components);
     Layout_Bounds := layoutBounds (nodes_of m) |}.

Lemma Compute_steps input :
  validateInput input = None -> Input_Nodes input <> [] ->
  exists components canonical,
    on_grid canonical /\
    (forall id, is_Some (canonical !! id) <-> id ∈ map Node_ID (Input_Nodes input)) /\
    forall previous, Compute (with_previous input previous) =
      Some (Ok (layout_from components
        (reuseAndPlace canonical (sort_by Edge_ID (Input_Edges input)) previous))).
Proof.
  intros Hv Hne. destruct (validateInput_None input Hv) as (Hn & He & Hnd & Hends).
  set (nodes := sort_by Node_ID (Input_Nodes input)).
  set (edges := sort_by Edge_ID (Input_Edges input)).
  assert (Hpn : nodes ≡ₚ Input_Nodes input) by apply merge_sort_Permutation.
  assert (Hpe : edges ≡ₚ Input_Edges input) by apply merge_sort_Permutation.
  destruct (collapse_total nodes edges) as (comps & cOf & Hc & Hr & Hlen).
  { intros e Hin. rewrite Hpn. apply Hends. by rewrite <- Hpe. }
  destruct (rankComponents_total comps cOf edges) as (comps' & Hrk & Hr' & _); [done| | |].
  { rewrite (Permutation_length Hpn) in Hlen. lia. }
  { by rewrite (Permutation_length Hpe). }
  destruct (canonical_on_grid comps' cOf Hr' nodes) as [Hg Hdom].
  { by rewrite Hpn. }
  { by rewrite (Permutation_length Hpn). }
  exists comps', (canonicalPlacements comps' cOf nodes). split; [done|]. split.
  { intros id. by rewrite Hdom, Hpn. }
  intros previous. unfold Compute.
  change (validateInput (with_previous input previous)) with (validateInput input). rewrite Hv.
  cbn [with_previous Input_Nodes Input_Edges Previous]. fold nodes edges.
  destruct (Input_Nodes input) eqn:Hin; [done|]. rewrite Hc. cbn [mbind option_bind]. by rewrite Hrk.
Qed.

Lemma assignOrders_lookup m id p :
  assignOrders m !! id = Some p -> exists q, m !! id = Some q /\ Placement_NodeID p = Placement_NodeID q /\
    Rank p = Rank q /\ Bounds p = Bounds q.
Proof.
  unfold assignOrders. rewrite map_lookup_imap. destruct (m !! id) as [q|]; cbn; [|done].
  intros [= <-]. by exists q.
Qed.

Lemma assignOrders_is_Some m id : is_Some (assignOrders m !! id) <-> is_Some (m !! id).
Proof.
  unfold assignOrders. rewrite map_lookup_imap. destruct (m !! id); cbn; split; intros [? [=]]; eauto.
Qed.

Lemma nodes_of_elem m p :
  (forall id q, m !! id = Some q -> Placement_NodeID q = id) ->
  p ∈ nodes_of m <-> assignOrders m !! Placement_NodeID p = Some p.
Proof.
  intros Hid. unfold nodes_of, sort_by. rewrite merge_sort_Permutation, list_elem_of_fmap. split.
  - intros ([id q] & -> & Hq%elem_of_map_to_list). cbn.
    destruct (assignOrders_lookup m id q Hq) as (q' & Hq' & -> & _). by rewrite (Hid id q' Hq').
  - intros Hp. exists (Placement_NodeID p, p). split; [done|]. by apply elem_of_map_to_list.
Qed.

Lemma nodes_of_ids m :
  (forall id q, m !! id = Some q -> Placement_NodeID q = id) ->
  map Placement_NodeID (nodes_of m) ≡ₚ map fst (map_to_list (assignOrders m)).
Proof.
  intros Hid. unfold nodes_of, sort_by. rewrite merge_sort_Permutation, map_map.
  erewrite map_ext_in; [reflexivity|]. intros [id q] Hin%list_elem_of_In%elem_of_map_to_list. cbn.
  destruct (assignOrders_lookup m id q Hin) as (q' & Hq' & -> & _). by apply Hid.
Qed.

Lemma nodes_of_NoDup m :
  (forall id q, m !! id = Some q -> Placement_NodeID q = id) ->
  NoDup (map Placement_NodeID (nodes_of m)).
Proof. intros Hid. rewrite nodes_of_ids by done. apply NoDup_fst_map_to_list. Qed.

(** A fresh layout keeps every node on its canonical cell. *)
Lemma reuse_none canonical edges :
  on_grid canonical -> reuseAndPlace canonical edges None = canonical.
Proof.
  intros Hg. unfold reuseAndPlace. apply place_fresh_all; [done|apply canonical_inv_start|done|].
  intros id [q Hq]. left. rewrite sort_strings_perm. apply list_elem_of_fmap.
  exists (id, q). split; [done|]. by apply elem_of_map_to_list.
Qed.

(** So does a layout computed from a layout with those cells. *)
Lemma reuse_self components canonical edges :
  on_grid canonical ->
  reuseAndPlace canonical edges (Some (prior_of (layout_from components canonical))) = canonical.
Proof.
  intros Hg. unfold reuseAndPlace, prior_of, layout_from. cbn [Prior_AlgorithmVersion Prior_Nodes
    Layout_AlgorithmVersion Layout_Nodes].
  rewrite String.eqb_refl. apply place_fresh_done. apply reuse_all; [done|apply canonical_inv_start|..].
  - unfold sort_by at 1. rewrite merge_sort_Permutation. apply nodes_of_NoDup. apply Hg.
  - intros h. unfold sort_by at 1. rewrite merge_sort_Permutation.
    rewrite nodes_of_elem by apply Hg. intros Hh. split; [apply lookup_empty|].
    destruct (assignOrders_lookup _ _ _ Hh) as (q & Hq & _ & Hr & Hb). by exists q.
  - intros id Hid. left. unfold sort_by at 1. rewrite merge_sort_Permutation, nodes_of_ids by apply Hg.
    apply assignOrders_is_Some in Hid as [q Hq]. apply list_elem_of_fmap.
    exists (id, q). split; [done|]. by apply elem_of_map_to_list.
Qed.

(** ** The search for a free position *)

Section Search.
Context (x y : Z) (occupied : list Rect).
Context (Hx : small x) (Hy : small y).
Context (Hroom : y + 128 * (Z.of_nat (length occupied) + 1) <= 2 ^ 40).
(** Everything occupied is a standard rectangle of the column. *)
Context (Hcolumn : Forall (fun r => exists y', r = mkRect x y' 240 88 /\ small y') occupied).

Abbreviation candidate := (mkRect x y 240 88).
Abbreviation free y' := (overlapsAny (mkRect x y' 240 88) occupied = false).

Lemma step_value : placement_step = 128.
Proof. reflexivity. Qed.

Lemma down_value d : 0 <= d <= Z.of_nat (length occupied) + 1 ->
  add64 y (mul64 d placement_step) = y + 128 * d.
Proof.
  intros Hd. rewrite step_value. unfold add64, mul64, small in *.
  rewrite (wrap_small (d * 128)) by lia. rewrite wrap_small; lia.
Qed.

Lemma up_value d : 0 <= d <= Z.of_nat (length occupied) + 1 ->
  sub64 y (mul64 d placement_step) = y - 128 * d.
Proof.
  intros Hd. rewrite step_value. unfold sub64, mul64, small in *.
  rewrite (wrap_small (d * 128)) by lia. rewrite wrap_small; lia.
Qed.

(** A position a search returns is free and a whole number of rows away; a
    search that gives up has found every row below it taken. *)
Lemma search_free_spec remaining distance :
  1 <= distance -> distance + Z.of_nat remaining <= Z.of_nat (length occupied) + 2 ->
  match search_free remaining distance candidate occupied with
  | Some v => free v /\ (exists k, v = y + 128 * k) /\ (64 <= y -> 64 <= v)
  | None => forall d, distance <= d < distance + Z.of_nat remaining -> ~ free (y + 128 * d)
  end.
Proof.
  revert distance. induction remaining as [|n IH]; intros distance H1 H2; cbn [search_free].
  { intros d Hd. lia. }
  cbn zeta. unfold with_Y. cbn [X Y Width Height]. rewrite down_value, up_value by lia.
  destruct (overlapsAny (mkRect x (y + 128 * distance) 240 88) occupied) eqn:E1; cbn [negb].
  - destruct ((DefaultPadding <=? y - 128 * distance) && _) eqn:E2; to_prop.
    + destruct E2 as [E2 E3]. unfold DefaultPadding in E2. cbn beta iota.
      split_and!; [done| |lia]. exists (- distance). lia.
    + specialize (IH (distance + 1)). destruct (search_free n (distance + 1) candidate occupied).
      * apply IH; lia.
      * intros d Hd. destruct (decide (d = distance)) as [->|Hne]; [congruence|].
        apply IH; lia.
  - cbn beta iota. split_and!; [done| |lia]. by exists distance.
Qed.

Lemma free_spec y' : small y' -> free y' <-> Forall (fun r => 128 <= Z.abs (y' - Y r)) occupied.
Proof.
  intros Hy'. unfold overlapsAny. rewrite <- not_true_iff_false, existsb_exists, Forall_forall.
  rewrite Forall_forall in Hcolumn. split.
  - intros Hno r Hr. destruct (Hcolumn r Hr) as (yr & -> & Hyr). cbn.
    destruct (decide (128 <= Z.abs (y' - yr))); [done|]. destruct Hno.
    eexists. split; [by apply list_elem_of_In|]. rewrite overlaps_standard by done. to_prop. lia.
  - intros Hall (r & Hr%list_elem_of_In & Hov). specialize (Hall r Hr).
    destruct (Hcolumn r Hr) as (yr & -> & Hyr). rewrite overlaps_standard in Hov by done.
    cbn in Hall. to_prop. lia.
Qed.

(** Rows taken one by one need as many rectangles. *)
Lemma taken_rows (Haligned : Forall (fun r => exists k, Y r = y + 128 * k) occupied) :
  ~ (forall d, 1 <= d < 1 + Z.of_nat (length occupied + 1) -> ~ free (y + 128 * d)).
Proof.
  intros Hall. set (rows := map (fun i => y + 128 * Z.of_nat i) (seq 1 (length occupied + 1))).
  assert (Hincl : incl rows (map Y occupied)).
  { intros v (i & <- & Hi%in_seq)%in_map_iff.
    assert (Hn : ~ free (y + 128 * Z.of_nat i)) by (apply Hall; lia).
    rewrite free_spec in Hn by (unfold small in *; lia).
    apply not_Forall_Exists in Hn; [|intros r; apply _].
    apply Exists_exists in Hn as (r & Hr & Hlt).
    rewrite Forall_forall in Haligned. destruct (Haligned r Hr) as (k & Hk).
    rewrite in_map_iff. exists r. split; [|by apply list_elem_of_In].
    change (~ 128 <= Z.abs (y + 128 * Z.of_nat i - Y r)) in Hlt. rewrite Hk in Hlt |- *. lia. }
  assert (Hnd : List.NoDup rows).
  { apply NoDup_ListNoDup. unfold rows. change (map ?f ?l) with (f <$> l).
    apply NoDup_fmap_2; [|apply NoDup_seq]. intros i j Hij. lia. }
  pose proof (NoDup_incl_length Hnd Hincl) as Hlen. unfold rows in Hlen.
  rewrite !length_map, length_seq in Hlen. lia.
Qed.

Lemma nearestFreeY_aligned (Haligned : Forall (fun r => exists k, Y r = y + 128 * k) occupied) :
  free (nearestFreeY candidate occupied) /\
  (exists k, nearestFreeY candidate occupied = y + 128 * k) /\
  (64 <= y -> 64 <= nearestFreeY candidate occupied).
Proof.
  unfold nearestFreeY. destruct (overlapsAny candidate occupied) eqn:E; cbn [negb].
  - pose proof (search_free_spec (length occupied + 1) 1 ltac:(lia) ltac:(lia)) as Hs.
    destruct (search_free _ 1 candidate occupied) as [v|]; [done|].
    destruct (taken_rows Haligned Hs).
  - cbn [Y]. split_and!; [done| |done]. exists 0. lia.
Qed.
End Search.

(** ** Properties *)

(** A layout computed without an earlier one always comes out (the two
    graph searches finish), places exactly the nodes of the input, and no two
    of its nodes are closer than the gaps between columns and rows. *)
Theorem fresh_layout_no_overlap input :
  validateInput input = None -> Previous input = None ->
  exists l, Compute input = Some (Ok l) /\
    map Placement_NodeID (Layout_Nodes l) ≡ₚ map Node_ID (Input_Nodes input) /\
    forall p q, p ∈ Layout_Nodes l -> q ∈ Layout_Nodes l ->
      Placement_NodeID p <> Placement_NodeID q -> overlaps (Bounds p) (Bounds q) = false.
Proof.
  intros Hv Hprev. destruct (decide (Input_Nodes input = [])) as [He|Hne].
  { unfold Compute. rewrite Hv, He. eexists. split; [done|]. split; [done|].
    by intros p q ?%not_elem_of_nil. }
  destruct (Compute_steps input Hv Hne) as (comps & canonical & Hg & Hdom & Hc).
  assert (Hin : with_previous input None = input) by (destruct input; cbn in Hprev; by subst).
  specialize (Hc None). rewrite Hin, reuse_none in Hc by done.
  eexists. split; [exact Hc|]. cbn [layout_from Layout_Nodes]. split.
  - rewrite nodes_of_ids by apply Hg.
    apply NoDup_Permutation; [apply NoDup_fst_map_to_list|by apply validateInput_None|].
    intros id. rewrite <- Hdom, <- assignOrders_is_Some, list_elem_of_fmap. split.
    + intros ([id' q] & -> & Hq%elem_of_map_to_list). by eexists.
    + intros [q Hq]. exists (id, q). split; [done|]. by apply elem_of_map_to_list.
  - intros p q. rewrite !nodes_of_elem by apply Hg. intros Hp Hq Hneq.
    destruct (assignOrders_lookup _ _ _ Hp) as (p' & Hp' & _ & _ & ->).
    destruct (assignOrders_lookup _ _ _ Hq) as (q' & Hq' & _ & _ & ->).
    apply not_true_is_false. intros Hov. apply Hneq.
    by apply (on_grid_overlap canonical _ _ p' q').
Qed.

Lemma fresh_layout_no_overlap_witness :
  validateInput sample = None /\
  exists l, Compute sample = Some (Ok l) /\
    map Placement_NodeID (Layout_Nodes l) ≡ₚ ["a"; "b"; "c"; "d"; "e"].
Proof.
  split; [vm_compute; reflexivity|].
  destruct (fresh_layout_no_overlap sample) as (l & H1 & H2 & _);
    [vm_compute; reflexivity|reflexivity|]. exists l. split; [exact H1|exact H2].
Defined.

(** Placement is stable: computing a graph's layout again with its own
    fresh layout as the earlier one gives the same layout. *)
Theorem relayout_stable input l :
  Compute (with_previous input None) = Some (Ok l) ->
  Compute (with_previous input (Some (prior_of l))) = Some (Ok l).
Proof.
  intros Hl. destruct (validateInput input) as [e|] eqn:Hv.
  { unfold Compute in Hl. change (validateInput (with_previous input None)) with
      (validateInput input) in Hl. by rewrite Hv in Hl. }
  destruct (decide (Input_Nodes input = [])) as [He|Hne].
  { unfold Compute in *. change (validateInput (with_previous input ?x)) with
      (validateInput input) in *. rewrite Hv in *. cbn [with_previous Input_Nodes] in *.
    by rewrite He in *. }
  destruct (Compute_steps input Hv Hne) as (comps & canonical & Hg & _ & Hc).
  rewrite Hc, reuse_none in Hl by done. injection Hl as <-.
  by rewrite Hc, reuse_self by done.
Qed.

Lemma relayout_stable_witness :
  exists l, Compute (with_previous sample None) = Some (Ok l) /\
    Compute (with_previous sample (Some (prior_of l))) = Some (Ok l).
Proof.
  destruct (Compute (with_previous sample None)) as [[e|l]|] eqn:E;
    [vm_compute in E; discriminate| |vm_compute in E; discriminate].
  exists l. split; [reflexivity|exact (relayout_stable sample l E)].
Defined.

(** The search for a free position is right on a grid: when the column
    holds standard rectangles a whole number of rows away from the candidate,
    the position returned is free, on the same grid, and not above the padding
    when the candidate was not. *)
Theorem nearestFreeY_on_grid x y occupied :
  small x -> small y -> y + 128 * (Z.of_nat (length occupied) + 1) <= 2 ^ 40 ->
  Forall (fun r => exists k, r = mkRect x (y + 128 * k) 240 88 /\ small (y + 128 * k)) occupied ->
  let v := nearestFreeY (mkRect x y 240 88) occupied in
  overlapsAny (mkRect x v 240 88) occupied = false /\ (exists k, v = y + 128 * k) /\
  (64 <= y -> 64 <= v).
Proof.
  intros Hx Hy Hroom Hocc. apply nearestFreeY_aligned; [done..| |].
  - eapply Forall_impl; [exact Hocc|]. intros r (k & -> & Hs). eauto.
  - eapply Forall_impl; [exact Hocc|]. intros r (k & -> & Hs). by exists k.
Qed.

Lemma nearestFreeY_on_grid_witness :
  nearestFreeY (mkRect 64 64 240 88) [mkRect 64 64 240 88; mkRect 64 192 240 88] = 320 /\
  overlapsAny (mkRect 64 320 240 88) [mkRect 64 64 240 88; mkRect 64 192 240 88] = false.
Proof.
  split; [vm_compute; reflexivity|].
  apply (nearestFreeY_on_grid 64 64 [mkRect 64 64 240 88; mkRect 64 192 240 88]);
    [unfold small; lia..|cbn; lia|].
  repeat constructor; [exists 0|exists 1]; unfold small; (split; [reflexivity|lia]).
Defined.

(** Three revisions of a graph: four requirements; two plan regions, each
    below two of them; a third plan region on its own. *)
Definition requirements4 : list Node :=
  [mkNode "r1" "requirement"; mkNode "r2" "requirement"; mkNode "r3" "requirement";
   mkNode "r4" "requirement"].
Definition regions : list Node := [mkNode "p1" "plan-region"; mkNode "p2" "plan-region"].
Definition region_edges : list Edge :=
  [mkEdge "e1" "r1" "p1"; mkEdge "e2" "r2" "p1"; mkEdge "e3" "r3" "p2"; mkEdge "e4" "r4" "p2"].

Definition revision1 (previous : option PriorLayout) : Input :=
  {| Input_Nodes := requirements4; Input_Edges := []; Previous := previous |}.
Definition revision2 (previous : option PriorLayout) : Input :=
  {| Input_Nodes := requirements4 ++ regions; Input_Edges := region_edges; Previous := previous |}.
Definition revision3 (previous : option PriorLayout) : Input :=
  {| Input_Nodes := requirements4 ++ regions ++ [mkNode "p0" "plan-region"];
     Input_Edges := region_edges; Previous := previous |}.

(** Off the grid the search can fail. Each revision below is laid out
    with the previous one's result, as the coordinator does. The two plan
    regions of the second land between the rows of their neighbours; for the
    one the third adds, every row the search tries is then taken, and the
    position it falls back to overlaps a node. *)
Theorem revised_layout_overlaps :
  exists l1 l2 l3 p q,
    Compute (revision1 None) = Some (Ok l1) /\
    Compute (revision2 (Some (prior_of l1))) = Some (Ok l2) /\
    Compute (revision3 (Some (prior_of l2))) = Some (Ok l3) /\
    p ∈ Layout_Nodes l3 /\ q ∈ Layout_Nodes l3 /\ Placement_NodeID p <> Placement_NodeID q /\
    overlaps (Bounds p) (Bounds q) = true.
Proof.
  eexists _, _, _, (mkPlacement "p0" "p0" 1 2 (mkRect 416 448 240 88)),
    (mkPlacement "p2" "p2" 1 1 (mkRect 416 384 240 88)).
  split; [vm_compute; reflexivity|]. split; [vm_compute; reflexivity|].
  split; [vm_compute; reflexivity|].
  cbn [Layout_Nodes]. split_and!; [set_solver|set_solver|done|vm_compute; reflexivity].
Qed.
