(* ===== verification/SessionEvents.v ===== *)
(** * Session events (src/internal/events/session.go)

    The versioned session facts: their kinds, the typed one-of payload, the
    envelope checks, and the two classifications that fix how an event may be
    delivered. Identities are strings, as in PolicyValues.v; a pointer is an
    [option]; a byte slice is a string. The error type of the whole package is
    here: the hub and the snapshots return the same values. *)

From S2P Require Import Prelude GoText States PolicyValues.
Open Scope string_scope.
Open Scope list_scope.

(** ** Errors of package events

    A text error of [errors.New], the package's five sentinels (two of them
    wrapped with a detail), the errors of package domain, one level of
    wrapping with a prefix, what a context or a journal returns, and the panic
    of a nil dereference, which is not an error value of the code. *)
Inductive EventError :=
| EventText (text : string)
| ErrStaleEntityRevision (detail : string)
| ErrEntityRevisionGap (detail : string)
| ErrSlowSubscriber
| ErrSnapshotRequired
| ErrHubClosed
| EventTransition (e : TransitionError)
| EventValue (e : ValueError)
| EventWrapped (prefix : string) (e : EventError)
| EventExternal (text : string)
| EventPanic.

(** ** Kinds *)

Abbreviation Kind := string.
Definition KindMessageDelta : Kind := "message-delta".
Definition KindMessageFinal : Kind := "message-final".
Definition KindThreadCreated : Kind := "thread-created".
Definition KindThreadRenamed : Kind := "thread-renamed".
Definition KindThreadArchived : Kind := "thread-archived".
Definition KindPlanCreated : Kind := "plan-created".
Definition KindPlanChanged : Kind := "plan-changed".
Definition KindToolStarted : Kind := "tool-started".
Definition KindToolProgress : Kind := "tool-progress".
Definition KindToolCompleted : Kind := "tool-completed".
Definition KindApprovalRequested : Kind := "approval-requested".
Definition KindApprovalResolved : Kind := "approval-resolved".
Definition KindTaskStateChanged : Kind := "task-state-changed".
Definition KindForecastUpdated : Kind := "forecast-updated".
Definition KindUsageUpdated : Kind := "usage-updated".
Definition KindCostUpdated : Kind := "cost-updated".
Definition KindBudgetUpdated : Kind := "budget-updated".
Definition KindValidationUpdated : Kind := "validation-updated".
Definition KindGraphSnapshot : Kind := "graph-snapshot".
Definition KindGraphPatch : Kind := "graph-patch".
Definition KindCheckpointCreated : Kind := "checkpoint-created".
Definition KindRecoveryRequired : Kind := "recovery-required".
Definition KindError : Kind := "error".
Definition KindChangeAcceptanceUpdated : Kind := "change-acceptance-updated".
Definition KindTaskProjectionInvalidated : Kind := "task-projection-invalidated".

Abbreviation DeliveryClassName := string.
Definition DeliveryEphemeralCoalescible : DeliveryClassName := "ephemeral-coalescible".
Definition DeliveryMaterial : DeliveryClassName := "material".

(** ** Payloads *)

Record TaskProjectionInvalidated := {
  TaskProjectionInvalidated_Entity : string;
  TaskProjectionInvalidated_Revision : Z;
}.

Record MessageDelta := {
  MessageDelta_MessageID : ID;
  MessageDelta_RedactedDelta : string;
}.

Record MessageFinal := {
  MessageFinal_MessageID : ID;
  MessageFinal_Role : string;
  MessageFinal_RedactedBody : string;
}.

Record ThreadCreated := {
  ThreadCreated_WorkspaceID : option ID;
  ThreadCreated_Title : string;
  ThreadCreated_Archived : bool;
}.

Record ThreadRenamed := {
  ThreadRenamed_PreviousTitle : string;
  ThreadRenamed_Title : string;
}.

Record ThreadArchived := { ThreadArchived_Archived : bool }.

Record Plan := {
  Plan_Revision : Z;
  Plan_RedactedSummary : string;
}.

Record Tool := {
  Tool_ExecutionID : string;
  Tool_CommandName : string;
  Tool_State : string;
  Tool_RedactedSummary : string;
}.

Record Approval := {
  Approval_ApprovalID : ID;
  Approval_State : ApprovalRequestState;
  Approval_Scope : string;
  Approval_RedactedReason : string;
}.

Record TaskStateChanged := {
  TaskStateChanged_From : TaskState;
  TaskStateChanged_To : TaskState;
  TaskStateChanged_Approval : ApprovalRequestState;
}.

Record Forecast := { Forecast_Range : ForecastRange }.

Record Usage := { Usage_Tokens : TokenUsage }.

Record Cost := {
  Cost_Known : bool;
  Cost_Value : Money;
}.

Record Budget := {
  Budget_HardLimit : Money;
  Budget_Reserved : Money;
  Budget_Actual : Money;
}.

Record Validation := {
  Validation_ValidationID : ID;
  Validation_State : ValidationState;
  Validation_RedactedSummary : string;
  Validation_Required : bool;
  Validation_Acknowledged : bool;
  Validation_DiffRevision : Z;
}.

Record Graph := {
  Graph_RevisionID : ID;
  Graph_EncodedChange : string;
}.

Record Checkpoint := {
  Checkpoint_CheckpointID : ID;
  Checkpoint_TaskRevision : Z;
  Checkpoint_PlanStep : string;
}.

Record RevisionBindings := {
  Bindings_Diff : Z;
  Bindings_Plan : Z;
  Bindings_Validation : Z;
  Bindings_Evidence : Z;
  Bindings_Graph : Z;
}.

#[export] Instance RevisionBindings_eq_dec : EqDecision RevisionBindings.
Proof. solve_decision. Defined.

Definition RevisionBindings_Complete (bindings : RevisionBindings) : bool :=
  ((0 <? Bindings_Diff bindings) && (0 <? Bindings_Plan bindings) &&
   (0 <? Bindings_Validation bindings) &&
   (0 <? Bindings_Evidence bindings) && (0 <? Bindings_Graph bindings))%Z.

Record ChangeAcceptance := {
  ChangeAcceptance_State : ChangeAcceptanceState;
  ChangeAcceptance_Bindings : RevisionBindings;
}.

Abbreviation RecoveryClassification := string.
Definition RecoverySafeResume : RecoveryClassification := "safe-resume".
Definition RecoveryNeedsReconcile : RecoveryClassification := "needs-reconcile".
Definition RecoveryPreserveOnly : RecoveryClassification := "preserve-only".
Definition RecoveryAmbiguousOutcome : RecoveryClassification := "ambiguous-outcome".

Definition RecoveryClassification_IsValid (c : RecoveryClassification) : bool :=
  (c =? RecoverySafeResume) || (c =? RecoveryNeedsReconcile) ||
  (c =? RecoveryPreserveOnly) || (c =? RecoveryAmbiguousOutcome).

Record RecoveryRequired := {
  Recovery_CheckpointID : option ID;
  Recovery_RedactedReason : string;
  Recovery_Classification : RecoveryClassification;
  Recovery_DivergenceSummary : string;
  Recovery_ExternalOutcomeAmbiguous : bool;
  Recovery_SafeResumeVerified : bool;
  Recovery_ReconcileAvailable : bool;
  Recovery_PreservePatchAvailable : bool;
  Recovery_Bindings : RevisionBindings;
  Recovery_RelatedEventIDs : list ID;
  Recovery_RelatedFiles : list string;
}.

Abbreviation ErrorCode := string.
Definition ErrorCodeInvalidRequest : ErrorCode := "invalid-request".
Definition ErrorCodeConflict : ErrorCode := "conflict".
Definition ErrorCodePermissionDenied : ErrorCode := "permission-denied".
Definition ErrorCodeBudgetExhausted : ErrorCode := "budget-exhausted".
Definition ErrorCodeProvider : ErrorCode := "provider-failure".
Definition ErrorCodeValidation : ErrorCode := "validation-failure".
Definition ErrorCodeRecoveryRequired : ErrorCode := "recovery-required".
Definition ErrorCodeInternal : ErrorCode := "internal".

Definition ErrorCode_valid (code : ErrorCode) : bool :=
  (code =? ErrorCodeInvalidRequest) || (code =? ErrorCodeConflict) ||
  (code =? ErrorCodePermissionDenied) || (code =? ErrorCodeBudgetExhausted) ||
  (code =? ErrorCodeProvider) || (code =? ErrorCodeValidation) ||
  (code =? ErrorCodeRecoveryRequired) || (code =? ErrorCodeInternal).

Record UserError := {
  UserError_Code : ErrorCode;
  UserError_RedactedMessage : string;
  UserError_Retryable : bool;
}.

Record Payload := {
  Payload_MessageDelta : option MessageDelta;
  Payload_MessageFinal : option MessageFinal;
  Payload_ThreadCreated : option ThreadCreated;
  Payload_ThreadRenamed : option ThreadRenamed;
  Payload_ThreadArchived : option ThreadArchived;
  Payload_Plan : option Plan;
  Payload_Tool : option Tool;
  Payload_Approval : option Approval;
  Payload_TaskStateChanged : option TaskStateChanged;
  Payload_Forecast : option Forecast;
  Payload_Usage : option Usage;
  Payload_Cost : option Cost;
  Payload_Budget : option Budget;
  Payload_Validation : option Validation;
  Payload_Graph : option Graph;
  Payload_Checkpoint : option Checkpoint;
  Payload_RecoveryRequired : option RecoveryRequired;
  Payload_ChangeAcceptance : option ChangeAcceptance;
  Payload_TaskProjectionInvalidated : option TaskProjectionInvalidated;
  Payload_Error : option UserError;
}.

(** ** Envelopes

    [time.Time] is the instant, in nanoseconds since its zero value, and the
    name of its location; the code asks whether it is zero and UTC. *)
Record Time := { Time_nanos : Z; Time_Location : string }.
Definition Time_IsZero (t : Time) : bool := (Time_nanos t =? 0)%Z.
Definition Time_IsUTC (t : Time) : bool := Time_Location t =? "UTC".

Record SessionEvent := {
  Sequence : Z;
  SessionEvent_SessionID : ID;
  SessionEvent_ThreadID : ID;
  SessionEvent_TaskID : option ID;
  Timestamp : Time;
  SessionEvent_Kind : Kind;
  Revision : Z;
  CausationID : option ID;
  CorrelationID : option ID;
  PayloadVersion : Z;
  SessionEvent_Payload : Payload;
}.

Record NewSessionEvent := {
  New_SessionID : ID;
  New_ThreadID : ID;
  New_TaskID : option ID;
  New_Kind : Kind;
  New_Revision : Z;
  New_CausationID : option ID;
  New_CorrelationID : option ID;
  New_PayloadVersion : Z;
  New_Payload : Payload;
}.

(** [id != nil && id.IsZero()] *)
Definition set_but_zero (id : option ID) : bool :=
  match id with Some id => IsZero id | None => false end.

Definition present {A} (o : option A) : bool := match o with Some _ => true | None => false end.

Definition payload_fields (payload : Payload) : list bool :=
  [ present (Payload_MessageDelta payload);
    present (Payload_MessageFinal payload);
    present (Payload_ThreadCreated payload);
    present (Payload_ThreadRenamed payload);
    present (Payload_ThreadArchived payload);
    present (Payload_Plan payload);
    present (Payload_Tool payload);
    present (Payload_Approval payload);
    present (Payload_TaskStateChanged payload);
    present (Payload_Forecast payload);
    present (Payload_Usage payload);
    present (Payload_Cost payload);
    present (Payload_Budget payload);
    present (Payload_Validation payload);
    present (Payload_Graph payload);
    present (Payload_Checkpoint payload);
    present (Payload_RecoveryRequired payload);
    present (Payload_ChangeAcceptance payload);
    present (Payload_TaskProjectionInvalidated payload);
    present (Payload_Error payload) ].

Definition Payload_count (payload : Payload) : Z :=
  fold_left (fun count present => if present : bool then count + 1 else count)%Z
    (payload_fields payload) 0%Z.

(** ** Payload checks *)

Definition refuse_if (bad : bool) (text : string) : option EventError :=
  if bad then Some (EventText text) else None.

(** [value == nil || bad(value)] *)
Definition nil_or {A} (bad : A -> bool) (value : option A) : bool :=
  match value with None => true | Some v => bad v end.

Definition validateMessageDelta (value : option MessageDelta) : option EventError :=
  refuse_if (nil_or (fun v => IsZero (MessageDelta_MessageID v) ||
                              (MessageDelta_RedactedDelta v =? "")) value)
    "message delta is incomplete".

Definition validateMessageFinal (value : option MessageFinal) : option EventError :=
  refuse_if (nil_or (fun v => IsZero (MessageFinal_MessageID v) ||
                              blank (MessageFinal_Role v)) value)
    "message final is incomplete".

Definition validateThreadCreated (value : option ThreadCreated) : option EventError :=
  refuse_if (nil_or (fun v => blank (ThreadCreated_Title v) ||
                              set_but_zero (ThreadCreated_WorkspaceID v)) value)
    "thread creation is incomplete".

Definition validateThreadRenamed (value : option ThreadRenamed) : option EventError :=
  refuse_if (nil_or (fun v => blank (ThreadRenamed_PreviousTitle v) ||
                              blank (ThreadRenamed_Title v)) value)
    "thread rename is incomplete".

Definition validatePlan (value : option Plan) : option EventError :=
  refuse_if (nil_or (fun v => (Plan_Revision v =? 0)%Z || blank (Plan_RedactedSummary v)) value)
    "plan is incomplete".

Definition validateTool (value : option Tool) : option EventError :=
  refuse_if (nil_or (fun v => blank (Tool_ExecutionID v) || blank (Tool_CommandName v) ||
                              blank (Tool_State v)) value)
    "tool event is incomplete".

Definition validateApproval (value : option Approval) : option EventError :=
  refuse_if (nil_or (fun v => IsZero (Approval_ApprovalID v) ||
                              negb (ApprovalRequestState_IsValid (Approval_State v)) ||
                              blank (Approval_Scope v)) value)
    "approval event is incomplete".

Definition task_transition (v : TaskStateChanged) : TaskTransition :=
  {| TaskTransition_From := TaskStateChanged_From v;
     TaskTransition_To := TaskStateChanged_To v;
     TaskTransition_Approval := TaskStateChanged_Approval v |}.

Definition validateTaskState (value : option TaskStateChanged) : option EventError :=
  match value with
  | None => Some (EventText "task state payload is missing")
  | Some v => EventTransition <$> ValidateTaskTransition (task_transition v)
  end.

Definition validateCost (value : option Cost) : option EventError :=
  match value with
  | None => Some (EventText "cost payload is missing")
  | Some v =>
      if negb (Cost_Known v) then
        refuse_if (negb (bool_decide (Cost_Value v = Money_zero)))
          "unknown cost must not contain a value"
      else refuse_if (negb (is_nil (Money_Validate (Cost_Value v))) ||
                      (Money_MinorUnits (Cost_Value v) <? 0)%Z)
             "known cost is invalid"
  end.

Definition validateBudget (value : option Budget) : option EventError :=
  refuse_if (nil_or (fun v =>
      let hard := Budget_HardLimit v in
      let reserved := Budget_Reserved v in
      let actual := Budget_Actual v in
      negb (is_nil (Money_Validate hard)) ||
      negb (is_nil (Money_Validate reserved)) ||
      negb (is_nil (Money_Validate actual)) ||
      negb (Money_Currency hard =? Money_Currency reserved) ||
      negb (Money_Currency hard =? Money_Currency actual) ||
      (Money_MinorUnits hard <? 0)%Z ||
      (Money_MinorUnits reserved <? 0)%Z ||
      (Money_MinorUnits actual <? 0)%Z ||
      (Money_MinorUnits hard <? Money_MinorUnits actual)%Z ||
      (sub64 (Money_MinorUnits hard) (Money_MinorUnits actual) <?
       Money_MinorUnits reserved)%Z) value)
    "budget payload is invalid".

Definition validateValidation (value : option Validation) : option EventError :=
  refuse_if (nil_or (fun v => IsZero (Validation_ValidationID v) ||
                              negb (ValidationState_IsValid (Validation_State v)) ||
                              (Validation_DiffRevision v =? 0)%Z) value)
    "validation payload is incomplete".

Definition validateGraph (value : option Graph) : option EventError :=
  refuse_if (nil_or (fun v => IsZero (Graph_RevisionID v) ||
                              (Z.of_nat (String.length (Graph_EncodedChange v)) =? 0)%Z) value)
    "graph payload is incomplete".

Definition validateCheckpoint (value : option Checkpoint) : option EventError :=
  refuse_if (nil_or (fun v => IsZero (Checkpoint_CheckpointID v) ||
                              (Checkpoint_TaskRevision v =? 0)%Z ||
                              blank (Checkpoint_PlanStep v)) value)
    "checkpoint payload is incomplete".

Definition validateChangeAcceptance (value : option ChangeAcceptance) : option EventError :=
  refuse_if (nil_or (fun v => negb (ChangeAcceptanceState_IsValid (ChangeAcceptance_State v)) ||
                              negb (RevisionBindings_Complete (ChangeAcceptance_Bindings v))) value)
    "change acceptance payload is incomplete".

Definition recovery_incomplete (v : RecoveryRequired) : bool :=
  blank (Recovery_RedactedReason v) ||
  set_but_zero (Recovery_CheckpointID v) ||
  negb (RecoveryClassification_IsValid (Recovery_Classification v)) ||
  blank (Recovery_DivergenceSummary v) ||
  negb (RevisionBindings_Complete (Recovery_Bindings v)) ||
  negb (Bool.eqb (Recovery_ExternalOutcomeAmbiguous v)
          (Recovery_Classification v =? RecoveryAmbiguousOutcome)).

Definition validateRecovery (value : option RecoveryRequired) : option EventError :=
  match value with
  | None => Some (EventText "recovery payload is incomplete")
  | Some v =>
      refuse_if (recovery_incomplete v) "recovery payload is incomplete" ;?
      refuse_if ((Recovery_Classification v =? RecoverySafeResume) &&
                 negb (Recovery_SafeResumeVerified v))
        "safe-resume recovery is not verified" ;?
      refuse_if ((Recovery_Classification v =? RecoveryNeedsReconcile) &&
                 negb (Recovery_ReconcileAvailable v))
        "reconcile recovery has no reconcile action" ;?
      refuse_if (((Recovery_Classification v =? RecoveryPreserveOnly) ||
                  (Recovery_Classification v =? RecoveryAmbiguousOutcome)) &&
                 negb (Recovery_PreservePatchAvailable v))
        "unsafe recovery has no patch preservation action" ;?
      refuse_if (existsb IsZero (Recovery_RelatedEventIDs v))
        "recovery related event ID is empty" ;?
      refuse_if (existsb blank (Recovery_RelatedFiles v))
        "recovery related file is empty"
  end.

Definition validateUserError (value : option UserError) : option EventError :=
  refuse_if (nil_or (fun v => negb (ErrorCode_valid (UserError_Code v)) ||
                              blank (UserError_RedactedMessage v)) value)
    "user error payload is incomplete".

Definition validateProjectionInvalidated (value : option TaskProjectionInvalidated)
    : option EventError :=
  refuse_if (nil_or (fun v => blank (TaskProjectionInvalidated_Entity v) ||
                              negb (TaskProjectionInvalidated_Entity v =?
                                    TrimSpace (TaskProjectionInvalidated_Entity v))) value)
    "task projection invalidation is incomplete".

Definition kind_in (kinds : list Kind) (kind : Kind) : bool := existsb (String.eqb kind) kinds.

Definition SessionEvent_validatePayload (event : SessionEvent) : option EventError :=
  let kind := SessionEvent_Kind event in
  let payload := SessionEvent_Payload event in
  if kind =? KindMessageDelta then validateMessageDelta (Payload_MessageDelta payload)
  else if kind =? KindMessageFinal then validateMessageFinal (Payload_MessageFinal payload)
  else if kind =? KindThreadCreated then validateThreadCreated (Payload_ThreadCreated payload)
  else if kind =? KindThreadRenamed then validateThreadRenamed (Payload_ThreadRenamed payload)
  else if kind =? KindThreadArchived then
    refuse_if (negb (present (Payload_ThreadArchived payload)))
      "thread archive payload is missing"
  else if kind_in [KindPlanCreated; KindPlanChanged] kind then
    validatePlan (Payload_Plan payload)
  else if kind_in [KindToolStarted; KindToolProgress; KindToolCompleted] kind then
    validateTool (Payload_Tool payload)
  else if kind_in [KindApprovalRequested; KindApprovalResolved] kind then
    validateApproval (Payload_Approval payload)
  else if kind =? KindTaskStateChanged then
    validateTaskState (Payload_TaskStateChanged payload)
  else if kind =? KindForecastUpdated then
    match Payload_Forecast payload with
    | None => Some (EventText "forecast payload is missing")
    | Some v => EventValue <$> ForecastRange_Validate (Forecast_Range v)
    end
  else if kind =? KindUsageUpdated then
    match Payload_Usage payload with
    | None => Some (EventText "usage payload is missing")
    | Some v => EventValue <$> TokenUsage_Validate (Usage_Tokens v)
    end
  else if kind =? KindCostUpdated then validateCost (Payload_Cost payload)
  else if kind =? KindBudgetUpdated then validateBudget (Payload_Budget payload)
  else if kind =? KindValidationUpdated then validateValidation (Payload_Validation payload)
  else if kind_in [KindGraphSnapshot; KindGraphPatch] kind then
    validateGraph (Payload_Graph payload)
  else if kind =? KindCheckpointCreated then validateCheckpoint (Payload_Checkpoint payload)
  else if kind =? KindRecoveryRequired then
    validateRecovery (Payload_RecoveryRequired payload)
  else if kind =? KindChangeAcceptanceUpdated then
    validateChangeAcceptance (Payload_ChangeAcceptance payload)
  else if kind =? KindTaskProjectionInvalidated then
    validateProjectionInvalidated (Payload_TaskProjectionInvalidated payload)
  else if kind =? KindError then validateUserError (Payload_Error payload)
  else Some (EventText "event kind is invalid").

Definition SessionEvent_Validate (event : SessionEvent) : option EventError :=
  refuse_if (Sequence event =? 0)%Z "session event sequence must be positive" ;?
  refuse_if (IsZero (SessionEvent_SessionID event))
    "session event session ID must not be empty" ;?
  refuse_if (IsZero (SessionEvent_ThreadID event))
    "session event thread ID must not be empty" ;?
  refuse_if (set_but_zero (SessionEvent_TaskID event))
    "session event task ID must not be empty" ;?
  refuse_if (Time_IsZero (Timestamp event)) "session event timestamp must not be zero" ;?
  refuse_if (negb (Time_IsUTC (Timestamp event))) "session event timestamp must be UTC" ;?
  refuse_if (negb (PayloadVersion event =? 1)%Z)
    "session event payload version is unsupported" ;?
  refuse_if (set_but_zero (CausationID event))
    "session event causation ID must not be empty" ;?
  refuse_if (set_but_zero (CorrelationID event))
    "session event correlation ID must not be empty" ;?
  refuse_if (negb (Payload_count (SessionEvent_Payload event) =? 1)%Z)
    "session event must contain exactly one typed payload" ;?
  (EventWrapped ("validate " +:+ SessionEvent_Kind event +:+ " payload") <$>
     SessionEvent_validatePayload event).

Definition NewSessionEvent_Build (event : NewSessionEvent) (sequence : Z) (timestamp : Time)
    : result EventError SessionEvent :=
  let built :=
    {| Sequence := sequence;
       SessionEvent_SessionID := New_SessionID event;
       SessionEvent_ThreadID := New_ThreadID event;
       SessionEvent_TaskID := New_TaskID event;
       Timestamp := timestamp;
       SessionEvent_Kind := New_Kind event;
       Revision := New_Revision event;
       CausationID := New_CausationID event;
       CorrelationID := New_CorrelationID event;
       PayloadVersion := New_PayloadVersion event;
       SessionEvent_Payload := New_Payload event |} in
  SessionEvent_Validate built ;! Ok built.

Definition SessionEvent_DeliveryClass (event : SessionEvent) : DeliveryClassName :=
  if kind_in [KindMessageDelta; KindToolProgress] (SessionEvent_Kind event)
  then DeliveryEphemeralCoalescible else DeliveryMaterial.

Definition SessionEvent_CorrectnessBearing (event : SessionEvent) : bool :=
  kind_in [ KindMessageFinal; KindThreadCreated; KindThreadRenamed; KindThreadArchived;
            KindTaskStateChanged; KindApprovalRequested; KindApprovalResolved;
            KindBudgetUpdated; KindValidationUpdated; KindGraphSnapshot; KindGraphPatch;
            KindCheckpointCreated; KindRecoveryRequired; KindChangeAcceptanceUpdated;
            KindTaskProjectionInvalidated; KindError ] (SessionEvent_Kind event).

Definition SessionEvent_SafeForUI (event : SessionEvent) : bool := is_nil (SessionEvent_Validate event).

(** ** The one-of and the two classifications *)

Lemma refuse_if_None bad text : refuse_if bad text = None <-> bad = false.
Proof. destruct bad; simpl; split; congruence. Qed.

Lemma fmap_None {A B} (f : A -> B) o : f <$> o = None <-> o = None.
Proof. destruct o; simpl; split; congruence. Qed.

Lemma nil_or_false {A} (bad : A -> bool) value :
  nil_or bad value = false <-> exists v, value = Some v /\ bad v = false.
Proof. destruct value; simpl; naive_solver. Qed.

Create HintDb events.
Create Rewrite HintDb events.
#[export] Hint Rewrite @err_seq_None refuse_if_None @fmap_None @nil_or_false : events.

Lemma count_fold l n :
  fold_left (fun count present => if present : bool then count + 1 else count)%Z l n =
  (n + Z.of_nat (length (filter (fun b => b = true) l)))%Z.
Proof.
  revert n. induction l as [|b l IH]; intros n; cbn [fold_left]; [cbn; lia|].
  rewrite IH. rewrite filter_cons. destruct b; case_decide; cbn [length]; (congruence || lia).
Qed.

(** A list of flags with one set has no other flag set. *)
Lemma one_flag l i j :
  length (filter (fun b => b = true) l) = 1%nat ->
  l !! i = Some true -> l !! j = Some true -> i = j.
Proof.
  revert i j. induction l as [|b l IH]; intros i j Hlen Hi Hj; [done|].
  rewrite filter_cons in Hlen.
  assert (Hnone : forall k, length (filter (fun b => b = true) l) = 0%nat -> l !! k <> Some true).
  { intros k Hz Hk. apply nil_length_inv in Hz. apply list_elem_of_lookup_2 in Hk.
    assert (true ∈ filter (fun b => b = true) l) as Hin by (apply list_elem_of_filter; done).
    rewrite Hz in Hin. by apply not_elem_of_nil in Hin. }
  destruct b; case_decide; try congruence; cbn [length] in Hlen.
  - destruct i as [|i], j as [|j]; cbn in Hi, Hj; [done|..];
      exfalso; eapply Hnone; try eassumption; lia.
  - destruct i as [|i], j as [|j]; cbn in Hi, Hj; try congruence. f_equal. by apply IH.
Qed.

(** The position, in the order of [Payload], of the field a kind selects. *)
Definition kind_field : list (Kind * nat) :=
  [ (KindMessageDelta, 0); (KindMessageFinal, 1); (KindThreadCreated, 2);
    (KindThreadRenamed, 3); (KindThreadArchived, 4);
    (KindPlanCreated, 5); (KindPlanChanged, 5);
    (KindToolStarted, 6); (KindToolProgress, 6); (KindToolCompleted, 6);
    (KindApprovalRequested, 7); (KindApprovalResolved, 7); (KindTaskStateChanged, 8);
    (KindForecastUpdated, 9); (KindUsageUpdated, 10); (KindCostUpdated, 11);
    (KindBudgetUpdated, 12); (KindValidationUpdated, 13);
    (KindGraphSnapshot, 14); (KindGraphPatch, 14); (KindCheckpointCreated, 15);
    (KindRecoveryRequired, 16); (KindChangeAcceptanceUpdated, 17);
    (KindTaskProjectionInvalidated, 18); (KindError, 19) ]%nat.

Lemma kind_in_true kinds kind : kind_in kinds kind = true <-> kind ∈ kinds.
Proof.
  unfold kind_in. rewrite existsb_exists. setoid_rewrite String.eqb_eq.
  setoid_rewrite <- (list_elem_of_In kinds). naive_solver.
Qed.

(** The field a kind selects is set in a payload the kind's check accepts. *)
Lemma validatePayload_field event :
  SessionEvent_validatePayload event = None ->
  exists i, (SessionEvent_Kind event, i) ∈ kind_field /\
    payload_fields (SessionEvent_Payload event) !! i = Some true.
Proof.
  destruct event as [? ? ? ? ? kind ? ? ? ? payload].
  unfold SessionEvent_validatePayload. cbn [SessionEvent_Kind SessionEvent_Payload]. intros H.
  repeat match type of H with
  | (if ?b then _ else _) = None =>
      let E := fresh "E" in destruct b eqn:E;
      [first [apply String.eqb_eq in E; subst kind
             |apply kind_in_true in E; repeat (apply elem_of_cons in E as [->|E]);
              try (by apply not_elem_of_nil in E)]
      |clear E]
  end; try discriminate H.
  all: eexists; split; [unfold kind_field; repeat constructor|].
  all: cbn [payload_fields lookup list_lookup].
  all: match goal with |- context [present ?o] => destruct o; [reflexivity|discriminate H] end.
Qed.

Lemma Validate_nil event :
  SessionEvent_Validate event = None ->
  Sequence event <> 0%Z /\ IsZero (SessionEvent_SessionID event) = false /\
  IsZero (SessionEvent_ThreadID event) = false /\
  set_but_zero (SessionEvent_TaskID event) = false /\
  Payload_count (SessionEvent_Payload event) = 1%Z /\ SessionEvent_validatePayload event = None.
Proof.
  unfold SessionEvent_Validate. autorewrite with events.
  intros (H1 & H2 & H3 & H4 & _ & _ & _ & _ & _ & H5 & H6).
  apply Z.eqb_neq in H1. apply negb_false_iff, Z.eqb_eq in H5. auto 10.
Qed.

(** [C37] The payload of a valid event is the one-of its doc comment promises:
    exactly one of the twenty fields is set, and it is the field the kind
    selects; a kind outside the twenty-five is refused. *)
Theorem Validate_one_of (event : SessionEvent) :
  SessionEvent_Validate event = None ->
  exists i, (SessionEvent_Kind event, i) ∈ kind_field /\
    forall j b, payload_fields (SessionEvent_Payload event) !! j = Some b -> (b = true <-> j = i).
Proof.
  intros (_ & _ & _ & _ & Hcount & Hp)%Validate_nil.
  destruct (validatePayload_field _ Hp) as (i & Hk & Hi). exists i. split; [done|].
  unfold Payload_count in Hcount. rewrite count_fold in Hcount.
  intros j b Hj. split; [intros ->|intros ->].
  - eapply one_flag; [|exact Hj|exact Hi]. lia.
  - congruence.
Qed.

(** A payload with at most the fields the examples use. *)
Definition sample_payload (delta : option MessageDelta) (final : option MessageFinal)
    (archived : option ThreadArchived) (state : option TaskStateChanged)
    (validation : option Validation) : Payload :=
  {| Payload_MessageDelta := delta; Payload_MessageFinal := final;
     Payload_ThreadCreated := None; Payload_ThreadRenamed := None;
     Payload_ThreadArchived := archived; Payload_Plan := None;
     Payload_Tool := None; Payload_Approval := None; Payload_TaskStateChanged := state;
     Payload_Forecast := None; Payload_Usage := None; Payload_Cost := None;
     Payload_Budget := None; Payload_Validation := validation; Payload_Graph := None;
     Payload_Checkpoint := None; Payload_RecoveryRequired := None;
     Payload_ChangeAcceptance := None; Payload_TaskProjectionInvalidated := None;
     Payload_Error := None |}.

Definition archived_payload : Payload :=
  sample_payload None None (Some {| ThreadArchived_Archived := true |}) None None.

(** Events of one session and thread for the examples. *)
Definition sample_event (sequence : Z) (task : option ID) (kind : Kind) (revision : Z)
    (payload : Payload) : SessionEvent :=
  {| Sequence := sequence; SessionEvent_SessionID := "ses"; SessionEvent_ThreadID := "thr";
     SessionEvent_TaskID := task;
     Timestamp := {| Time_nanos := 1; Time_Location := "UTC" |};
     SessionEvent_Kind := kind; Revision := revision; CausationID := None;
     CorrelationID := None; PayloadVersion := 1; SessionEvent_Payload := payload |}.

Definition archived_event (sequence : Z) : SessionEvent :=
  sample_event sequence None KindThreadArchived 0 archived_payload.

Definition final_event (sequence : Z) : SessionEvent :=
  sample_event sequence None KindMessageFinal 0
    (sample_payload None (Some {| MessageFinal_MessageID := "msg"; MessageFinal_Role := "assistant";
       MessageFinal_RedactedBody := "" |}) None None None).

Definition delta_event (sequence : Z) : SessionEvent :=
  sample_event sequence None KindMessageDelta 0
    (sample_payload (Some {| MessageDelta_MessageID := "msg"; MessageDelta_RedactedDelta := "x" |})
       None None None None).

Lemma Validate_one_of_witness :
  SessionEvent_Validate (archived_event 1) = None /\
  exists i, (KindThreadArchived, i) ∈ kind_field /\
    forall j b, payload_fields archived_payload !! j = Some b -> (b = true <-> j = i).
Proof.
  assert (H : SessionEvent_Validate (archived_event 1) = None) by reflexivity.
  split; [exact H|]. exact (Validate_one_of (archived_event 1) H).
Defined.

(** Nothing correctness-bearing may be coalesced. *)
Lemma CorrectnessBearing_material event :
  SessionEvent_CorrectnessBearing event = true -> SessionEvent_DeliveryClass event = DeliveryMaterial.
Proof.
  unfold SessionEvent_CorrectnessBearing, SessionEvent_DeliveryClass. intros H%kind_in_true.
  destruct (kind_in [KindMessageDelta; KindToolProgress] _) eqn:E; [|done].
  apply kind_in_true in E.
  repeat (apply elem_of_cons in E as [E|E]); try (by apply not_elem_of_nil in E);
    rewrite E in H; repeat (apply elem_of_cons in H as [H|H]); try discriminate H;
    by apply not_elem_of_nil in H.
Qed.

(** What [NewSessionEvent_Build] returns keeps the journal's sequence and passes [SessionEvent_Validate]. *)
Lemma Build_valid input sequence timestamp event :
  NewSessionEvent_Build input sequence timestamp = Ok event ->
  SessionEvent_Validate event = None /\ Sequence event = sequence /\ Timestamp event = timestamp /\
  SessionEvent_SessionID event = New_SessionID input.
Proof. unfold NewSessionEvent_Build. rewrite err_guard_Ok. by intros [H [= <-]]. Qed.
