(* ===== verification/Snapshots.v ===== *)
(** * Session snapshots (src/internal/events/snapshot.go)

    A snapshot is the reconnect base of a client: the projection of a session
    through one durable sequence. [ReduceTaskEvents] advances it over a stream
    of events. The Go code works on a copy made by [cloneSessionSnapshot],
    which the model's values make the identity; an update that fails half way
    is discarded with the copy. *)

From S2P Require Import Prelude GoText States PolicyValues SessionEvents.
Open Scope string_scope.
Open Scope list_scope.

Record SessionSnapshot := {
  Snapshot_SessionID : ID;
  Snapshot_ThreadID : ID;
  ThroughSequence : Z;
  Snapshot_TaskID : option ID;
  Snapshot_TaskState : TaskState;
  TaskRevision : Z;
  Snapshot_Checkpoint : option Checkpoint;
  CheckpointRevision : Z;
  Snapshot_Validation : option Validation;
  ValidationRevision : Z;
  Snapshot_ChangeAcceptance : option ChangeAcceptance;
  ChangeAcceptanceRevision : Z;
  SnapshotVersion : Z;
  CreatedAt : Time;
}.

(** Field updates of a snapshot. *)

Definition set_through (s : SessionSnapshot) (sequence : Z) : SessionSnapshot :=
  {| Snapshot_SessionID := Snapshot_SessionID s; Snapshot_ThreadID := Snapshot_ThreadID s;
     ThroughSequence := sequence;
     Snapshot_TaskID := Snapshot_TaskID s; Snapshot_TaskState := Snapshot_TaskState s;
     TaskRevision := TaskRevision s;
     Snapshot_Checkpoint := Snapshot_Checkpoint s; CheckpointRevision := CheckpointRevision s;
     Snapshot_Validation := Snapshot_Validation s; ValidationRevision := ValidationRevision s;
     Snapshot_ChangeAcceptance := Snapshot_ChangeAcceptance s;
     ChangeAcceptanceRevision := ChangeAcceptanceRevision s;
     SnapshotVersion := SnapshotVersion s; CreatedAt := CreatedAt s |}.

Definition set_task (s : SessionSnapshot) (task : option ID) (state : TaskState) (revision : Z)
    : SessionSnapshot :=
  {| Snapshot_SessionID := Snapshot_SessionID s; Snapshot_ThreadID := Snapshot_ThreadID s;
     ThroughSequence := ThroughSequence s;
     Snapshot_TaskID := task; Snapshot_TaskState := state; TaskRevision := revision;
     Snapshot_Checkpoint := Snapshot_Checkpoint s; CheckpointRevision := CheckpointRevision s;
     Snapshot_Validation := Snapshot_Validation s; ValidationRevision := ValidationRevision s;
     Snapshot_ChangeAcceptance := Snapshot_ChangeAcceptance s;
     ChangeAcceptanceRevision := ChangeAcceptanceRevision s;
     SnapshotVersion := SnapshotVersion s; CreatedAt := CreatedAt s |}.

Definition set_checkpoint (s : SessionSnapshot) (value : Checkpoint) (revision : Z)
    : SessionSnapshot :=
  {| Snapshot_SessionID := Snapshot_SessionID s; Snapshot_ThreadID := Snapshot_ThreadID s;
     ThroughSequence := ThroughSequence s;
     Snapshot_TaskID := Snapshot_TaskID s; Snapshot_TaskState := Snapshot_TaskState s;
     TaskRevision := TaskRevision s;
     Snapshot_Checkpoint := Some value; CheckpointRevision := revision;
     Snapshot_Validation := Snapshot_Validation s; ValidationRevision := ValidationRevision s;
     Snapshot_ChangeAcceptance := Snapshot_ChangeAcceptance s;
     ChangeAcceptanceRevision := ChangeAcceptanceRevision s;
     SnapshotVersion := SnapshotVersion s; CreatedAt := CreatedAt s |}.

Definition set_validation (s : SessionSnapshot) (value : Validation) (revision : Z)
    : SessionSnapshot :=
  {| Snapshot_SessionID := Snapshot_SessionID s; Snapshot_ThreadID := Snapshot_ThreadID s;
     ThroughSequence := ThroughSequence s;
     Snapshot_TaskID := Snapshot_TaskID s; Snapshot_TaskState := Snapshot_TaskState s;
     TaskRevision := TaskRevision s;
     Snapshot_Checkpoint := Snapshot_Checkpoint s; CheckpointRevision := CheckpointRevision s;
     Snapshot_Validation := Some value; ValidationRevision := revision;
     Snapshot_ChangeAcceptance := Snapshot_ChangeAcceptance s;
     ChangeAcceptanceRevision := ChangeAcceptanceRevision s;
     SnapshotVersion := SnapshotVersion s; CreatedAt := CreatedAt s |}.

Definition set_acceptance (s : SessionSnapshot) (value : ChangeAcceptance) (revision : Z)
    : SessionSnapshot :=
  {| Snapshot_SessionID := Snapshot_SessionID s; Snapshot_ThreadID := Snapshot_ThreadID s;
     ThroughSequence := ThroughSequence s;
     Snapshot_TaskID := Snapshot_TaskID s; Snapshot_TaskState := Snapshot_TaskState s;
     TaskRevision := TaskRevision s;
     Snapshot_Checkpoint := Snapshot_Checkpoint s; CheckpointRevision := CheckpointRevision s;
     Snapshot_Validation := Snapshot_Validation s; ValidationRevision := ValidationRevision s;
     Snapshot_ChangeAcceptance := Some value; ChangeAcceptanceRevision := revision;
     SnapshotVersion := SnapshotVersion s; CreatedAt := CreatedAt s |}.

(** ** Validation of a snapshot *)

Definition check_task (s : SessionSnapshot) : option EventError :=
  match Snapshot_TaskID s with
  | None =>
      refuse_if (negb (Snapshot_TaskState s =? "") || negb (TaskRevision s =? 0)%Z)
        "session snapshot task fields are incomplete"
  | Some id =>
      refuse_if (IsZero id) "session snapshot task ID must not be empty" ;?
      refuse_if (negb (TaskState_IsValid (Snapshot_TaskState s)))
        "session snapshot task state is invalid"
  end.

Definition check_checkpoint (s : SessionSnapshot) : option EventError :=
  match Snapshot_Checkpoint s with
  | Some value =>
      refuse_if ((CheckpointRevision s =? 0)%Z || negb (is_nil (validateCheckpoint (Some value))) ||
                 (TaskRevision s <? Checkpoint_TaskRevision value)%Z)
        "session snapshot checkpoint is invalid"
  | None => refuse_if (negb (CheckpointRevision s =? 0)%Z)
              "session snapshot checkpoint revision has no projection"
  end.

Definition check_validation (s : SessionSnapshot) : option EventError :=
  match Snapshot_Validation s with
  | Some value =>
      refuse_if ((ValidationRevision s =? 0)%Z || negb (is_nil (validateValidation (Some value))))
        "session snapshot validation is invalid"
  | None => refuse_if (negb (ValidationRevision s =? 0)%Z)
              "session snapshot validation revision has no projection"
  end.

Definition check_acceptance (s : SessionSnapshot) : option EventError :=
  match Snapshot_ChangeAcceptance s with
  | Some value =>
      refuse_if ((ChangeAcceptanceRevision s =? 0)%Z ||
                 negb (is_nil (validateChangeAcceptance (Some value))))
        "session snapshot change acceptance is invalid"
  | None => refuse_if (negb (ChangeAcceptanceRevision s =? 0)%Z)
              "session snapshot change acceptance revision has no projection"
  end.

Definition check_envelope (s : SessionSnapshot) : option EventError :=
  refuse_if (IsZero (Snapshot_SessionID s)) "session snapshot session ID must not be empty" ;?
  refuse_if (IsZero (Snapshot_ThreadID s)) "session snapshot thread ID must not be empty" ;?
  refuse_if (negb (SnapshotVersion s =? 1)%Z) "session snapshot version is unsupported" ;?
  refuse_if (Time_IsZero (CreatedAt s)) "session snapshot timestamp must not be zero" ;?
  refuse_if (negb (Time_IsUTC (CreatedAt s))) "session snapshot timestamp must be UTC".

Definition SessionSnapshot_Validate (s : SessionSnapshot) : option EventError :=
  check_envelope s ;? check_task s ;? check_checkpoint s ;?
  check_validation s ;? check_acceptance s.

(** ** The reducer *)

Definition requireNextEntityRevision (current incoming : Z) : option EventError :=
  if (incoming <=? current)%Z then
    Some (ErrStaleEntityRevision ("event revision " +:+ fmt_d incoming +:+ " is not after " +:+
                                  fmt_d current))
  else if negb (incoming =? wrap_uint64 (current + 1))%Z then
    Some (ErrEntityRevisionGap ("event revision " +:+ fmt_d incoming +:+ " does not follow " +:+
                                fmt_d current))
  else None.

Definition bindSnapshotTask (s : SessionSnapshot) (event : SessionEvent) (initial : TaskState)
    : result EventError SessionSnapshot :=
  match SessionEvent_TaskID event with
  | None => Err (EventText "task projection event has no task ID")
  | Some id =>
      match Snapshot_TaskID s with
      | None => Ok (set_task s (Some id) initial (TaskRevision s))
      | Some bound =>
          if negb (id =? bound) then Err (EventText "session replay task identity mismatch")
          else Ok s
      end
  end.

Definition starts_fresh (state : ValidationState) : bool :=
  (state =? ValidationStatePending) || (state =? ValidationStateRunning).

Definition check_incoming_validation (s : SessionSnapshot) (incoming : Validation)
    : option EventError :=
  match Snapshot_Validation s with
  | Some current =>
      if negb (ValidationState_IsTerminal (Validation_State current)) &&
         negb (Validation_ValidationID current =? Validation_ValidationID incoming) then
        Some (EventText "running validation identity changed")
      else if Validation_ValidationID current =? Validation_ValidationID incoming then
        EventTransition <$> ValidateValidationTransition (Validation_State current)
                              (Validation_State incoming)
      else refuse_if (negb (starts_fresh (Validation_State incoming)))
             "new validation did not start pending or running"
  | None => refuse_if (negb (starts_fresh (Validation_State incoming)))
              "initial validation did not start pending or running"
  end.

Definition check_incoming_acceptance (s : SessionSnapshot) (incoming : ChangeAcceptance)
    : option EventError :=
  match Snapshot_ChangeAcceptance s with
  | None => refuse_if (negb (ChangeAcceptance_State incoming =? ChangeAcceptanceStatePending))
              "initial change acceptance is not pending"
  | Some current =>
      let bindingsChangedForRepair :=
        (ChangeAcceptance_State current =? ChangeAcceptanceStateRepairRequested) &&
        (ChangeAcceptance_State incoming =? ChangeAcceptanceStatePending) in
      refuse_if (negb (bool_decide (ChangeAcceptance_Bindings incoming =
                                    ChangeAcceptance_Bindings current)) &&
                 negb bindingsChangedForRepair)
        "change acceptance bindings changed within review" ;?
      (EventTransition <$> ValidateChangeAcceptanceTransition (ChangeAcceptance_State current)
                             (ChangeAcceptance_State incoming))
  end.

(** The payload the kind selects; a nil one panics. *)
Definition deref {A B} (o : option A) (k : A -> result EventError B) : result EventError B :=
  match o with Some a => k a | None => Err EventPanic end.

Definition apply_task_state (s : SessionSnapshot) (event : SessionEvent)
    : result EventError SessionSnapshot :=
  deref (Payload_TaskStateChanged (SessionEvent_Payload event)) (fun changed =>
  s ← bindSnapshotTask s event (TaskStateChanged_From changed);
  requireNextEntityRevision (TaskRevision s) (Revision event) ;!
  if negb (TaskStateChanged_From changed =? Snapshot_TaskState s) then
    Err (EventText "task transition replay state mismatch")
  else Ok (set_task s (Snapshot_TaskID s) (TaskStateChanged_To changed) (Revision event))).

Definition apply_checkpoint (s : SessionSnapshot) (event : SessionEvent)
    : result EventError SessionSnapshot :=
  s ← bindSnapshotTask s event (Snapshot_TaskState s);
  requireNextEntityRevision (CheckpointRevision s) (Revision event) ;!
  deref (Payload_Checkpoint (SessionEvent_Payload event)) (fun value =>
  if (TaskRevision s <? Checkpoint_TaskRevision value)%Z then
    Err (EventText "checkpoint task revision exceeds current task")
  else Ok (set_checkpoint s value (Revision event))).

Definition apply_validation (s : SessionSnapshot) (event : SessionEvent)
    : result EventError SessionSnapshot :=
  s ← bindSnapshotTask s event (Snapshot_TaskState s);
  requireNextEntityRevision (ValidationRevision s) (Revision event) ;!
  deref (Payload_Validation (SessionEvent_Payload event)) (fun incoming =>
  check_incoming_validation s incoming ;!
  Ok (set_validation s incoming (Revision event))).

Definition apply_acceptance (s : SessionSnapshot) (event : SessionEvent)
    : result EventError SessionSnapshot :=
  s ← bindSnapshotTask s event (Snapshot_TaskState s);
  requireNextEntityRevision (ChangeAcceptanceRevision s) (Revision event) ;!
  deref (Payload_ChangeAcceptance (SessionEvent_Payload event)) (fun incoming =>
  check_incoming_acceptance s incoming ;!
  Ok (set_acceptance s incoming (Revision event))).

Definition applyServerProjectionEvent (s : SessionSnapshot) (event : SessionEvent)
    : result EventError SessionSnapshot :=
  let kind := SessionEvent_Kind event in
  if kind =? KindTaskStateChanged then apply_task_state s event
  else if kind =? KindCheckpointCreated then apply_checkpoint s event
  else if kind =? KindValidationUpdated then apply_validation s event
  else if kind =? KindChangeAcceptanceUpdated then apply_acceptance s event
  else Ok s.

(** One turn of the loop of [ReduceTaskEvents]. *)
Definition reduce_event (s : SessionSnapshot) (event : SessionEvent)
    : result EventError SessionSnapshot :=
  SessionEvent_Validate event ;!
  if negb (SessionEvent_SessionID event =? Snapshot_SessionID s) ||
     negb (SessionEvent_ThreadID event =? Snapshot_ThreadID s) then
    Err (EventText "session replay identity mismatch")
  else if (Sequence event <=? ThroughSequence s)%Z then
    Err (ErrStaleEntityRevision ("event sequence " +:+ fmt_d (Sequence event) +:+
           " is not after " +:+ fmt_d (ThroughSequence s)))
  else if negb (Sequence event =? wrap_uint64 (ThroughSequence s + 1))%Z then
    Err (EventText "session replay sequence contains a gap")
  else
    s ← applyServerProjectionEvent s event;
    Ok (set_through s (Sequence event)).

Fixpoint reduce_stream (s : SessionSnapshot) (stream : list SessionEvent)
    : result EventError SessionSnapshot :=
  match stream with
  | [] => Ok s
  | event :: rest => s ← reduce_event s event; reduce_stream s rest
  end.

Definition cloneSessionSnapshot (source : SessionSnapshot) : SessionSnapshot := source.

Definition ReduceTaskEvents (base : SessionSnapshot) (stream : list SessionEvent)
    : result EventError SessionSnapshot :=
  match SessionSnapshot_Validate base with
  | Some e => Err (EventWrapped "validate replay base" e)
  | None => reduce_stream (cloneSessionSnapshot base) stream
  end.

Definition DetectStaleRevision (client authoritative : Z) : option EventError :=
  if (client =? authoritative)%Z then None
  else if (client <? authoritative)%Z then
    Some (ErrStaleEntityRevision ("client revision " +:+ fmt_d client +:+
           ", authoritative revision " +:+ fmt_d authoritative))
  else Some (ErrEntityRevisionGap ("client revision " +:+ fmt_d client +:+
           " exceeds authoritative revision " +:+ fmt_d authoritative)).

(** ** What one event does to a snapshot *)

Lemma bindSnapshotTask_Ok s event initial s' :
  bindSnapshotTask s event initial = Ok s' ->
  exists id, SessionEvent_TaskID event = Some id /\
    (Snapshot_TaskID s = None /\ s' = set_task s (Some id) initial (TaskRevision s) \/
     Snapshot_TaskID s = Some id /\ s' = s).
Proof.
  unfold bindSnapshotTask. destruct (SessionEvent_TaskID event) as [id|]; [|done].
  destruct (Snapshot_TaskID s) as [bound|].
  - destruct (String.eqb_spec id bound) as [->|]; [|done]. intros [= <-]. eauto.
  - intros [= <-]. eauto.
Qed.

Lemma requireNext_nil current incoming :
  uint64_range current -> requireNextEntityRevision current incoming = None ->
  incoming = (current + 1)%Z /\ uint64_range incoming.
Proof.
  unfold requireNextEntityRevision. intros Hc H. if_cases H. to_prop.
  destruct (decide (current = max_uint64)) as [->|Hne].
  - subst incoming. rewrite (eq_refl : wrap_uint64 (max_uint64 + 1) = 0%Z) in Hif. unfold_ranges. lia.
  - rewrite wrap_uint64_id in * by (unfold_ranges; lia). subst. unfold_ranges. lia.
Qed.

(** The four projections an event can change, as one relation: which entity
    moves, and to what. *)
Inductive applied (s : SessionSnapshot) (event : SessionEvent) : SessionSnapshot -> Prop :=
| applied_state changed :
    SessionEvent_Kind event = KindTaskStateChanged ->
    Payload_TaskStateChanged (SessionEvent_Payload event) = Some changed ->
    requireNextEntityRevision (TaskRevision s) (Revision event) = None ->
    (Snapshot_TaskID s <> None -> TaskStateChanged_From changed = Snapshot_TaskState s) ->
    applied s event (set_task s (SessionEvent_TaskID event) (TaskStateChanged_To changed)
                       (Revision event))
| applied_checkpoint value :
    SessionEvent_Kind event = KindCheckpointCreated ->
    Payload_Checkpoint (SessionEvent_Payload event) = Some value ->
    requireNextEntityRevision (CheckpointRevision s) (Revision event) = None ->
    (Checkpoint_TaskRevision value <= TaskRevision s)%Z ->
    applied s event
      (set_checkpoint (set_task s (SessionEvent_TaskID event) (Snapshot_TaskState s)
                         (TaskRevision s)) value (Revision event))
| applied_validation incoming :
    SessionEvent_Kind event = KindValidationUpdated ->
    Payload_Validation (SessionEvent_Payload event) = Some incoming ->
    requireNextEntityRevision (ValidationRevision s) (Revision event) = None ->
    check_incoming_validation s incoming = None ->
    applied s event
      (set_validation (set_task s (SessionEvent_TaskID event) (Snapshot_TaskState s)
                         (TaskRevision s)) incoming (Revision event))
| applied_acceptance incoming :
    SessionEvent_Kind event = KindChangeAcceptanceUpdated ->
    Payload_ChangeAcceptance (SessionEvent_Payload event) = Some incoming ->
    requireNextEntityRevision (ChangeAcceptanceRevision s) (Revision event) = None ->
    check_incoming_acceptance s incoming = None ->
    applied s event
      (set_acceptance (set_task s (SessionEvent_TaskID event) (Snapshot_TaskState s)
                         (TaskRevision s)) incoming (Revision event))
| applied_nothing :
    SessionEvent_Kind event ∉ [KindTaskStateChanged; KindCheckpointCreated;
                               KindValidationUpdated; KindChangeAcceptanceUpdated] ->
    applied s event s.

Lemma set_task_same s id :
  Snapshot_TaskID s = Some id ->
  set_task s (Some id) (Snapshot_TaskState s) (TaskRevision s) = s.
Proof. destruct s; cbn. by intros ->. Qed.

(** Binding is setting the task of the event, whether or not it was bound. *)
Lemma bind_keeps_state s event s' :
  bindSnapshotTask s event (Snapshot_TaskState s) = Ok s' ->
  s' = set_task s (SessionEvent_TaskID event) (Snapshot_TaskState s) (TaskRevision s) /\
  SessionEvent_TaskID event <> None /\
  (Snapshot_TaskID s <> None -> SessionEvent_TaskID event = Snapshot_TaskID s).
Proof.
  intros (id & -> & [[Hn ->]|[Hb ->]])%bindSnapshotTask_Ok.
  - split_and!; congruence.
  - split_and!; [by rewrite set_task_same|congruence|congruence].
Qed.

Ltac kind_cases H :=
  unfold applyServerProjectionEvent in H; cbv zeta in H;
  repeat match type of H with
  | (if (_ =? _) then _ else _) = _ =>
      let E := fresh "Hk" in let D := fresh "Hd" in
      match type of H with (if ?b then _ else _) = _ => destruct b eqn:E end;
      [apply String.eqb_eq in E|apply String.eqb_neq in E]
  end.

Lemma apply_applied s event s' :
  applyServerProjectionEvent s event = Ok s' ->
  applied s event s' /\
  (Snapshot_TaskID s <> None -> Snapshot_TaskID s' = Snapshot_TaskID s) /\
  (s' = s \/ Snapshot_TaskID s' = SessionEvent_TaskID event /\ SessionEvent_TaskID event <> None).
Proof.
  intros H. kind_cases H.
  - unfold apply_task_state, deref in H.
    destruct (Payload_TaskStateChanged _) as [changed|] eqn:Hp; [|done].
    apply bind_Ok in H as (b & Hb & H). apply err_guard_Ok in H as [Hr H]. if_cases H.
    apply negb_false_iff, String.eqb_eq in Hif. injection H as <-.
    apply bindSnapshotTask_Ok in Hb as (id & Hid & [[Hn ->]|[Hs ->]]).
    + split; [|rewrite Hn, Hid; split; [done|by right]].
      replace (set_task _ _ _ _) with
        (set_task s (SessionEvent_TaskID event) (TaskStateChanged_To changed) (Revision event))
        by (unfold set_task; cbn; by rewrite Hid).
      apply applied_state; auto. by rewrite Hn.
    + split; [|split; [done|right; cbn; rewrite Hs, Hid; done]].
      rewrite Hs, <- Hid. apply applied_state; auto.
  - unfold apply_checkpoint, deref in H.
    apply bind_Ok in H as (b & Hb & H). apply err_guard_Ok in H as [Hr H].
    destruct (Payload_Checkpoint _) as [value|] eqn:Hp; [|done]. if_cases H.
    apply Z.ltb_ge in Hif. injection H as <-. apply bind_keeps_state in Hb as (-> & ? & Hs).
    split; [by apply applied_checkpoint|auto].
  - unfold apply_validation, deref in H.
    apply bind_Ok in H as (b & Hb & H). apply err_guard_Ok in H as [Hr H].
    destruct (Payload_Validation _) as [value|] eqn:Hp; [|done].
    apply err_guard_Ok in H as [Hc H]. injection H as <-.
    apply bind_keeps_state in Hb as (-> & ? & Hs).
    split; [by apply applied_validation|auto].
  - unfold apply_acceptance, deref in H.
    apply bind_Ok in H as (b & Hb & H). apply err_guard_Ok in H as [Hr H].
    destruct (Payload_ChangeAcceptance _) as [value|] eqn:Hp; [|done].
    apply err_guard_Ok in H as [Hc H]. injection H as <-.
    apply bind_keeps_state in Hb as (-> & ? & Hs).
    split; [by apply applied_acceptance|auto].
  - injection H as <-. split; [|auto]. apply applied_nothing. set_solver.
Qed.

(** ** Snapshots the reducer can hold

    The revisions are [uint64] values. The task part is weaker than
    [SessionSnapshot_Validate] asks: a bound task may have the empty state. *)

Record snapshot_wf (s : SessionSnapshot) : Prop := {
  wf_task : uint64_range (TaskRevision s);
  wf_checkpoint : uint64_range (CheckpointRevision s);
  wf_validation : uint64_range (ValidationRevision s);
  wf_acceptance : uint64_range (ChangeAcceptanceRevision s);
}.

Definition task_part (s : SessionSnapshot) : Prop :=
  match Snapshot_TaskID s with
  | None => Snapshot_TaskState s = "" /\ TaskRevision s = 0%Z
  | Some id => IsZero id = false /\
      (TaskState_IsValid (Snapshot_TaskState s) = true \/ Snapshot_TaskState s = "")
  end.

Record snapshot_inv (s : SessionSnapshot) : Prop := {
  si_wf : snapshot_wf s;
  si_envelope : check_envelope s = None;
  si_task : task_part s;
  si_checkpoint : check_checkpoint s = None;
  si_validation : check_validation s = None;
  si_acceptance : check_acceptance s = None;
}.

Lemma snapshot_inv_start s :
  snapshot_wf s -> SessionSnapshot_Validate s = None -> snapshot_inv s.
Proof.
  intros Hwf H. unfold SessionSnapshot_Validate in H. autorewrite with events in H.
  destruct H as (? & Ht & ? & ? & ?). split; try done.
  unfold task_part. unfold check_task in Ht. destruct (Snapshot_TaskID s).
  - autorewrite with events in Ht. destruct Ht as [? Hv].
    apply negb_false_iff in Hv. auto.
  - autorewrite with events in Ht. to_prop. done.
Qed.

Lemma snapshot_inv_valid s :
  snapshot_inv s ->
  (SessionSnapshot_Validate s = None <-> Snapshot_TaskID s = None \/ Snapshot_TaskState s <> "").
Proof.
  intros [_ H1 H2 H3 H4 H5]. unfold SessionSnapshot_Validate.
  autorewrite with events. rewrite H1, H3, H4, H5. unfold task_part in H2. unfold check_task.
  destruct (Snapshot_TaskID s) as [id|].
  - destruct H2 as [Hz Hs]. autorewrite with events. rewrite Hz, negb_false_iff.
    split; [intros (_ & (_ & Hv) & _)|intros [?|Hne]; [done|]].
    + right. intros He. rewrite He in Hv. discriminate Hv.
    + destruct Hs; naive_solver.
  - destruct H2 as [-> ->]. split; auto.
Qed.

(** The payload check that runs for each of the four projected kinds. *)
Section Payloads.
Context (event : SessionEvent) (Hv : SessionEvent_validatePayload event = None).

Lemma payload_of_state changed :
  SessionEvent_Kind event = KindTaskStateChanged ->
  Payload_TaskStateChanged (SessionEvent_Payload event) = Some changed ->
  ValidateTaskTransition (task_transition changed) = None.
Proof.
  intros Hk Hp. revert Hv. unfold SessionEvent_validatePayload. rewrite Hk, Hp.
  change (validateTaskState (Some changed) = None -> ValidateTaskTransition (task_transition changed) = None).
  unfold validateTaskState. by rewrite fmap_None.
Qed.

Lemma payload_of_checkpoint value :
  SessionEvent_Kind event = KindCheckpointCreated ->
  Payload_Checkpoint (SessionEvent_Payload event) = Some value ->
  validateCheckpoint (Some value) = None.
Proof. intros Hk Hp. revert Hv. unfold SessionEvent_validatePayload. by rewrite Hk, Hp. Qed.

Lemma payload_of_validation value :
  SessionEvent_Kind event = KindValidationUpdated ->
  Payload_Validation (SessionEvent_Payload event) = Some value ->
  validateValidation (Some value) = None.
Proof. intros Hk Hp. revert Hv. unfold SessionEvent_validatePayload. by rewrite Hk, Hp. Qed.

Lemma payload_of_acceptance value :
  SessionEvent_Kind event = KindChangeAcceptanceUpdated ->
  Payload_ChangeAcceptance (SessionEvent_Payload event) = Some value ->
  validateChangeAcceptance (Some value) = None.
Proof. intros Hk Hp. revert Hv. unfold SessionEvent_validatePayload. by rewrite Hk, Hp. Qed.
End Payloads.

Lemma task_transition_valid c :
  ValidateTaskTransition c = None ->
  TaskState_IsValid (TaskTransition_From c) = true /\ TaskState_IsValid (TaskTransition_To c) = true.
Proof.
  intros H%ValidateTaskTransition_edge.
  apply (validateTransition_nil taskStates) in H as (? & ? & _).
  by split; apply containsState_spec.
Qed.

Lemma reduce_event_Ok s event s' :
  reduce_event s event = Ok s' ->
  SessionEvent_Validate event = None /\
  SessionEvent_SessionID event = Snapshot_SessionID s /\
  SessionEvent_ThreadID event = Snapshot_ThreadID s /\
  (ThroughSequence s < Sequence event)%Z /\
  Sequence event = wrap_uint64 (ThroughSequence s + 1) /\
  exists m, applyServerProjectionEvent s event = Ok m /\ s' = set_through m (Sequence event).
Proof.
  unfold reduce_event. rewrite err_guard_Ok. intros [Hv H]. if_cases H. to_prop.
  destruct Hif as [? ?]. apply bind_Ok in H as (m & Hm & [= <-]). eauto 10.
Qed.

Lemma refuse_valid {A} (validate : option A -> option EventError) (value : A) revision extra text :
  revision <> 0%Z -> validate (Some value) = None -> extra = false ->
  refuse_if ((revision =? 0)%Z || negb (is_nil (validate (Some value))) || extra) text = None.
Proof.
  intros Hr Hv ->. apply refuse_if_None. rewrite Hv. apply Z.eqb_neq in Hr. by rewrite Hr.
Qed.

(** A task part whose identity comes from a valid event. *)
Lemma task_part_bound s id :
  Snapshot_TaskID s = Some id -> IsZero id = false ->
  TaskState_IsValid (Snapshot_TaskState s) = true \/ Snapshot_TaskState s = "" -> task_part s.
Proof. unfold task_part. intros ->. auto. Qed.

Lemma task_part_state s :
  task_part s -> TaskState_IsValid (Snapshot_TaskState s) = true \/ Snapshot_TaskState s = "".
Proof. unfold task_part. destruct (Snapshot_TaskID s); naive_solver. Qed.

Lemma checkpoint_later s s' :
  Snapshot_Checkpoint s' = Snapshot_Checkpoint s ->
  CheckpointRevision s' = CheckpointRevision s -> (TaskRevision s <= TaskRevision s')%Z ->
  check_checkpoint s = None -> check_checkpoint s' = None.
Proof.
  unfold check_checkpoint. intros -> -> Hle. destruct (Snapshot_Checkpoint s); [|done].
  rewrite !refuse_if_None. to_prop. intros [[? ?] ?]. split_and!; auto; lia.
Qed.

Lemma applied_inv s event s' :
  SessionEvent_Validate event = None -> snapshot_inv s ->
  applyServerProjectionEvent s event = Ok s' -> snapshot_inv s'.
Proof.
  intros (_ & _ & _ & Hz & _ & Hp)%Validate_nil [[W1 W2 W3 W4] E T C V A] H.
  apply apply_applied in H as (Happ & _ & [->|[Hid Hsome]]); [by split; [split|..]|].
  destruct (SessionEvent_TaskID event) as [id|] eqn:Hev; [|done]. clear Hsome.
  pose proof (task_part_state _ T) as Hst.
  destruct Happ as [changed Hk Hpl Hr Hf|value Hk Hpl Hr Hle|value Hk Hpl Hr Hc|value Hk Hpl Hr Hc|];
    try apply requireNext_nil in Hr as [Hr Hrng]; try assumption;
    (split; [split; try assumption; cbn; congruence|exact E|..]); try assumption.
  - apply (task_part_bound _ id); [done..|]. cbn. left.
    by apply (task_transition_valid (task_transition changed)), (payload_of_state event).
  - eapply checkpoint_later; [..|exact C]; cbn; (done || lia).
  - by apply (task_part_bound _ id).
  - apply (refuse_valid validateCheckpoint); cbn.
    + unfold_ranges; lia.
    + by apply (payload_of_checkpoint event).
    + by apply Z.ltb_ge.
  - by apply (task_part_bound _ id).
  - apply refuse_if_None. apply (payload_of_validation event) in Hpl; [|done..]. cbn [set_validation Snapshot_Validation ValidationRevision].
    rewrite Hpl. cbn. to_prop. unfold_ranges. split; [lia|done].
  - by apply (task_part_bound _ id).
  - apply refuse_if_None. apply (payload_of_acceptance event) in Hpl; [|done..]. cbn [set_acceptance Snapshot_ChangeAcceptance ChangeAcceptanceRevision].
    rewrite Hpl. cbn. to_prop. unfold_ranges. split; [lia|done].
Qed.

Lemma reduce_event_inv s event s' :
  snapshot_inv s -> reduce_event s event = Ok s' -> snapshot_inv s'.
Proof.
  intros Hs (Hv & _ & _ & _ & _ & m & Hm & ->)%reduce_event_Ok.
  destruct (applied_inv _ _ _ Hv Hs Hm) as [[] ? ? ? ? ?]. by split; [split|..].
Qed.

Lemma reduce_event_bound s event s' :
  Snapshot_TaskID s <> None -> reduce_event s event = Ok s' ->
  Snapshot_TaskID s' = Snapshot_TaskID s.
Proof.
  intros Hb (_ & _ & _ & _ & _ & m & Hm & ->)%reduce_event_Ok.
  apply apply_applied in Hm as (_ & Hid & _). by apply Hid.
Qed.

(** A bound snapshot keeps a state once it has one: no event empties it. *)
Lemma reduce_event_state s event s' :
  Snapshot_TaskID s <> None -> Snapshot_TaskState s <> "" ->
  reduce_event s event = Ok s' -> Snapshot_TaskState s' <> "".
Proof.
  intros Hb Hne (Hv & _ & _ & _ & _ & m & Hm & ->)%reduce_event_Ok. cbn.
  apply apply_applied in Hm as [Happ _].
  apply Validate_nil in Hv as (_ & _ & _ & _ & _ & Hp).
  destruct Happ as [changed Hk Hpl| | | |]; cbn; try done.
  intros He. apply (payload_of_state event) in Hpl; [|done..].
  apply task_transition_valid in Hpl as [_ Hto]. cbn in Hto. by rewrite He in Hto.
Qed.

(** A property every accepted event preserves holds after a stream. *)
Lemma reduce_stream_preserves (P : SessionSnapshot -> Prop) s stream r :
  (forall a event b, P a -> reduce_event a event = Ok b -> P b) ->
  P s -> reduce_stream s stream = Ok r -> P r.
Proof.
  intros Hstep. revert s. induction stream as [|event rest IH]; intros s Hs; cbn.
  - by intros [= <-].
  - intros (m & Hm & Hr)%bind_Ok. eauto.
Qed.

Lemma reduce_stream_app s xs ys :
  reduce_stream s (xs ++ ys) = (m ← reduce_stream s xs; reduce_stream m ys).
Proof.
  revert s. induction xs as [|event rest IH]; intros s; [done|].
  cbn [app reduce_stream]. destruct (reduce_event s event); cbn; [done|apply IH].
Qed.

Lemma ReduceTaskEvents_Ok base stream r :
  ReduceTaskEvents base stream = Ok r <->
  SessionSnapshot_Validate base = None /\ reduce_stream base stream = Ok r.
Proof.
  unfold ReduceTaskEvents, cloneSessionSnapshot.
  destruct (SessionSnapshot_Validate base); naive_solver.
Qed.

Lemma reduce_stream_valid base stream r :
  snapshot_wf base -> SessionSnapshot_Validate base = None -> Snapshot_TaskID base <> None ->
  reduce_stream base stream = Ok r -> SessionSnapshot_Validate r = None.
Proof.
  intros Hwf Hv Hb Hr. pose proof (snapshot_inv_start _ Hwf Hv) as Hinv.
  apply snapshot_inv_valid.
  { exact (reduce_stream_preserves _ _ _ _ reduce_event_inv Hinv Hr). }
  right. apply (reduce_stream_preserves
    (fun s => Snapshot_TaskID s <> None /\ Snapshot_TaskState s <> "") base stream r); [|split|]; auto.
  - intros a event b [Ha Hs] He. split; [|by eapply reduce_event_state].
    by rewrite (reduce_event_bound _ _ _ Ha He).
  - apply snapshot_inv_valid in Hv as [?|?]; done.
Qed.

(** A snapshot the reducer returns is again a replay base, except in one
    case: [SessionSnapshot_Validate] accepts it exactly when its task is still
    unbound or its task state is set. A base that already has its task always
    gives a valid snapshot. *)
Theorem ReduceTaskEvents_valid (base : SessionSnapshot) (stream : list SessionEvent)
    (r : SessionSnapshot) :
  snapshot_wf base -> ReduceTaskEvents base stream = Ok r ->
  (SessionSnapshot_Validate r = None <->
   Snapshot_TaskID r = None \/ Snapshot_TaskState r <> "") /\
  (Snapshot_TaskID base <> None -> SessionSnapshot_Validate r = None).
Proof.
  intros Hwf [Hv Hr]%ReduceTaskEvents_Ok.
  pose proof (snapshot_inv_start _ Hwf Hv) as Hinv.
  split; [|intros Hb; by eapply reduce_stream_valid].
  apply snapshot_inv_valid. exact (reduce_stream_preserves _ _ _ _ reduce_event_inv Hinv Hr).
Qed.

(** Replay is incremental: reducing a stream in one go, or in two parts
    with the snapshot between them as the second base, gives the same snapshot
    or the same error, for every base that has its task. *)
Theorem ReduceTaskEvents_incremental (base : SessionSnapshot) (xs ys : list SessionEvent) :
  snapshot_wf base -> Snapshot_TaskID base <> None ->
  ReduceTaskEvents base (xs ++ ys) = (m ← ReduceTaskEvents base xs; ReduceTaskEvents m ys).
Proof.
  intros Hwf Hb. unfold ReduceTaskEvents, cloneSessionSnapshot.
  destruct (SessionSnapshot_Validate base) eqn:Hv; [reflexivity|].
  rewrite reduce_stream_app. destruct (reduce_stream base xs) as [e|m] eqn:Hm; [done|]. cbn.
  by rewrite (reduce_stream_valid base xs m Hwf Hv Hb Hm).
Qed.

(** ** What an accepted stream is *)

(** The task changes of a stream, in order. *)
Definition task_changes (stream : list SessionEvent) : list TaskTransition :=
  omap (fun event =>
    if SessionEvent_Kind event =? KindTaskStateChanged
    then task_transition <$> Payload_TaskStateChanged (SessionEvent_Payload event)
    else None) stream.

(** An event contributes one change or none. *)
Lemma task_changes_cons event rest :
  task_changes (event :: rest) = task_changes [event] ++ task_changes rest /\
  (length (task_changes [event]) <= 1)%nat.
Proof.
  unfold task_changes. cbn [omap list_omap].
  destruct (if _ =? _ then _ else _); cbn; split; (done || lia).
Qed.

Lemma task_history_cons c cs t :
  ValidateTaskTransition c = None -> task_history (TaskTransition_To c) cs t ->
  task_history (TaskTransition_From c) (c :: cs) t.
Proof.
  intros Hc Hh. remember (TaskTransition_To c) as s0 eqn:E. induction Hh as [|s cs d Hh IH Hd].
  - rewrite E. apply (task_history_snoc _ [] c); [constructor|done].
  - apply (task_history_snoc _ (c :: cs) d); auto.
Qed.

Lemma through_next s event :
  uint64_range (ThroughSequence s) -> (ThroughSequence s < Sequence event)%Z ->
  Sequence event = wrap_uint64 (ThroughSequence s + 1) ->
  Sequence event = (ThroughSequence s + 1)%Z /\ uint64_range (Sequence event).
Proof.
  intros Hr Hlt Hw. destruct (decide (ThroughSequence s = max_uint64)) as [He|Hne].
  - rewrite He in *. rewrite (eq_refl : wrap_uint64 (max_uint64 + 1) = 0%Z) in Hw.
    unfold_ranges. lia.
  - rewrite wrap_uint64_id in Hw by (unfold_ranges; lia). unfold_ranges. lia.
Qed.

(** One event moves the task exactly when it is a state change. *)
Lemma reduce_event_task s event s' :
  snapshot_wf s -> Snapshot_TaskID s <> None -> reduce_event s event = Ok s' ->
  match task_changes [event] with
  | [c] => ValidateTaskTransition c = None /\ TaskTransition_From c = Snapshot_TaskState s /\
           Snapshot_TaskState s' = TaskTransition_To c /\ TaskRevision s' = (TaskRevision s + 1)%Z
  | _ => Snapshot_TaskState s' = Snapshot_TaskState s /\ TaskRevision s' = TaskRevision s
  end.
Proof.
  intros Hwf Hb (Hv & _ & _ & _ & _ & m & Hm & ->)%reduce_event_Ok.
  apply Validate_nil in Hv as (_ & _ & _ & _ & _ & Hp).
  apply apply_applied in Hm as [Happ _]. unfold task_changes. cbn [omap list_omap].
  destruct Happ as [changed Hk Hpl Hr Hf|? Hk|? Hk|? Hk|Hk].
  - rewrite Hk, Hpl. cbn. apply requireNext_nil in Hr as [Hr _]; [|by destruct Hwf].
    split_and!; auto. by apply (payload_of_state event).
  - by rewrite Hk.
  - by rewrite Hk.
  - by rewrite Hk.
  - destruct (String.eqb_spec (SessionEvent_Kind event) KindTaskStateChanged); [set_solver|done].
Qed.

(** An accepted stream is what the doc comment promises: its sequences
    follow the base's without gap or repeat, and the projected task is the
    lifecycle machine run over the stream's state changes, each accepted by
    [ValidateTaskTransition] from the state before it, with the revision one
    higher for each. *)
Theorem ReduceTaskEvents_follows_machine (base : SessionSnapshot) (stream : list SessionEvent)
    (r : SessionSnapshot) :
  snapshot_wf base -> uint64_range (ThroughSequence base) -> Snapshot_TaskID base <> None ->
  ReduceTaskEvents base stream = Ok r ->
  map Sequence stream =
    map (fun i => ThroughSequence base + 1 + Z.of_nat i)%Z (seq 0 (length stream)) /\
  ThroughSequence r = (ThroughSequence base + Z.of_nat (length stream))%Z /\
  task_history (Snapshot_TaskState base) (task_changes stream) (Snapshot_TaskState r) /\
  TaskRevision r = (TaskRevision base + Z.of_nat (length (task_changes stream)))%Z.
Proof.
  intros Hwf Hth Hb [Hv Hr]%ReduceTaskEvents_Ok.
  pose proof (snapshot_inv_start _ Hwf Hv) as Hinv. clear Hwf Hv. revert base Hinv Hth Hb Hr.
  induction stream as [|event rest IH]; intros base Hinv Hth Hb; cbn [reduce_stream].
  { intros [= <-]. cbn. split_and!; try done; try lia. constructor. }
  intros (m & Hm & Hr)%bind_Ok.
  pose proof (reduce_event_task _ _ _ (si_wf _ Hinv) Hb Hm) as Htask.
  assert (Hb' : Snapshot_TaskID m <> None) by (by rewrite (reduce_event_bound _ _ _ Hb Hm)).
  pose proof (reduce_event_inv _ _ _ Hinv Hm) as Hinv'.
  apply reduce_event_Ok in Hm as (_ & _ & _ & Hlt & Hw & m0 & _ & ->).
  apply (through_next _ _ Hth Hlt) in Hw as [Hseq Hrng].
  destruct (IH _ Hinv' Hrng Hb' Hr) as (I1 & I2 & I3 & I4). clear IH Hr. cbn in I1, I2.
  destruct (task_changes_cons event rest) as [Hc Hone]. split_and!.
  - cbn [length map seq]. rewrite I1, Hseq. f_equal; [lia|].
    rewrite <- seq_shift, map_map. apply map_ext. intros i. lia.
  - rewrite I2, Hseq. cbn [length]. lia.
  - rewrite Hc. destruct (task_changes [event]) as [|c [|]]; cbn in Hone; [|..|lia].
    + destruct Htask as [Hs _]. cbn in Hs. by rewrite <- Hs.
    + destruct Htask as (Hok & Hf & Ht & _). rewrite <- Hf. cbn in Ht.
      apply task_history_cons; [done|]. by rewrite <- Ht.
  - rewrite Hc, I4, length_app. destruct (task_changes [event]) as [|c [|]]; cbn in Hone; [|..|lia].
    + destruct Htask as [_ ->]. cbn. lia.
    + destruct Htask as (_ & _ & _ & ->). cbn. lia.
Qed.

(** Payload dereferences are guarded by the event's own validation. *)
Section NoPanic.
Context (s : SessionSnapshot) (event : SessionEvent).
Context (Hvalid : SessionEvent_validatePayload event = None).

Lemma bind_no_panic initial : bindSnapshotTask s event initial <> Err EventPanic.
Proof. unfold bindSnapshotTask. repeat case_match; discriminate. Qed.

Lemma guard_no_panic {A} (c : option EventError) (k : result EventError A) :
  c <> Some EventPanic -> k <> Err EventPanic -> (c ;! k) <> Err EventPanic.
Proof. destruct c; cbn; congruence. Qed.

Lemma revision_no_panic current incoming :
  requireNextEntityRevision current incoming <> Some EventPanic.
Proof. unfold requireNextEntityRevision. repeat case_match; discriminate. Qed.

Lemma wrapped_no_panic (o : option TransitionError) : EventTransition <$> o <> Some EventPanic.
Proof. by destruct o. Qed.

Lemma refuse_no_panic bad text : refuse_if bad text <> Some EventPanic.
Proof. by destruct bad. Qed.

Lemma validation_no_panic b incoming : check_incoming_validation b incoming <> Some EventPanic.
Proof.
  unfold check_incoming_validation.
  repeat case_match; (discriminate || apply wrapped_no_panic || apply refuse_no_panic).
Qed.

Lemma acceptance_no_panic b incoming : check_incoming_acceptance b incoming <> Some EventPanic.
Proof.
  unfold check_incoming_acceptance. destruct (Snapshot_ChangeAcceptance b); [|apply refuse_no_panic].
  cbv zeta. destruct (refuse_if _ _) eqn:E; cbn [err_seq]; [|apply wrapped_no_panic].
  rewrite <- E. apply refuse_no_panic.
Qed.

(** After binding, each projection is a revision check and a guarded update. *)
Lemma bound_no_panic initial (current : SessionSnapshot -> Z)
    (k : SessionSnapshot -> result EventError SessionSnapshot) :
  (forall b, k b <> Err EventPanic) ->
  (b ← bindSnapshotTask s event initial;
   requireNextEntityRevision (current b) (Revision event) ;! k b) <> Err EventPanic.
Proof.
  intros Hk. pose proof (bind_no_panic initial).
  destruct (bindSnapshotTask s event initial) as [e|b]; [cbn; congruence|].
  apply guard_no_panic; [apply revision_no_panic|apply Hk].
Qed.

Lemma apply_no_panic : applyServerProjectionEvent s event <> Err EventPanic.
Proof.
  intros H. kind_cases H; [..|discriminate]; revert H;
    revert Hvalid; unfold SessionEvent_validatePayload;
    match goal with E : SessionEvent_Kind event = _ |- _ => rewrite E end.
  - destruct (Payload_TaskStateChanged _) eqn:E; [|discriminate]. intros _.
    unfold apply_task_state. rewrite E. apply (bound_no_panic _ TaskRevision).
    intros b. by case_match.
  - destruct (Payload_Checkpoint _) eqn:E; [|discriminate]. intros _.
    unfold apply_checkpoint. rewrite E. apply (bound_no_panic _ CheckpointRevision).
    intros b. cbn [deref]. by case_match.
  - destruct (Payload_Validation _) eqn:E; [|discriminate]. intros _.
    unfold apply_validation. rewrite E. apply (bound_no_panic _ ValidationRevision).
    intros b. apply guard_no_panic; [apply validation_no_panic|done].
  - destruct (Payload_ChangeAcceptance _) eqn:E; [|discriminate]. intros _.
    unfold apply_acceptance. rewrite E. apply (bound_no_panic _ ChangeAcceptanceRevision).
    intros b. apply guard_no_panic; [apply acceptance_no_panic|done].
Qed.
End NoPanic.

Lemma seq_no_panic (c k : option EventError) :
  c <> Some EventPanic -> k <> Some EventPanic -> (c ;? k) <> Some EventPanic.
Proof. destruct c; cbn; congruence. Qed.

Lemma Validate_no_panic event : SessionEvent_Validate event <> Some EventPanic.
Proof.
  unfold SessionEvent_Validate. repeat (apply seq_no_panic; [apply refuse_no_panic|]).
  by destruct (SessionEvent_validatePayload event).
Qed.

Lemma reduce_event_no_panic s event : reduce_event s event <> Err EventPanic.
Proof.
  unfold reduce_event. pose proof (Validate_no_panic event) as Hn.
  destruct (SessionEvent_Validate event) as [e|] eqn:Hv; cbn [err_guard]; [congruence|].
  case_match; [discriminate|]. case_match; [discriminate|]. case_match; [discriminate|].
  apply Validate_nil in Hv as (_ & _ & _ & _ & _ & Hp).
  pose proof (apply_no_panic s event Hp).
  destruct (applyServerProjectionEvent s event); cbn; congruence.
Qed.

Lemma ReduceTaskEvents_no_panic base stream : ReduceTaskEvents base stream <> Err EventPanic.
Proof.
  unfold ReduceTaskEvents, cloneSessionSnapshot. case_match; [discriminate|]. clear.
  revert base. induction stream as [|event rest IH]; intros base; cbn [reduce_stream]; [done|].
  pose proof (reduce_event_no_panic base event).
  destruct (reduce_event base event); cbn; [congruence|apply IH].
Qed.

(** ** Examples *)

Definition sample_base (task : option ID) (state : TaskState) (revision : Z) : SessionSnapshot :=
  {| Snapshot_SessionID := "ses"; Snapshot_ThreadID := "thr"; ThroughSequence := 0;
     Snapshot_TaskID := task; Snapshot_TaskState := state; TaskRevision := revision;
     Snapshot_Checkpoint := None; CheckpointRevision := 0;
     Snapshot_Validation := None; ValidationRevision := 0;
     Snapshot_ChangeAcceptance := None; ChangeAcceptanceRevision := 0;
     SnapshotVersion := 1; CreatedAt := {| Time_nanos := 1; Time_Location := "UTC" |} |}.

Definition bound_base : SessionSnapshot := sample_base (Some "tsk") TaskStateDraft 0.

Definition state_event (sequence revision : Z) (from to : TaskState) : SessionEvent :=
  sample_event sequence (Some "tsk") KindTaskStateChanged revision
    (sample_payload None None None
       (Some {| TaskStateChanged_From := from; TaskStateChanged_To := to;
                TaskStateChanged_Approval := "" |}) None).

Definition validation_event (sequence revision : Z) (state : ValidationState) : SessionEvent :=
  sample_event sequence (Some "tsk") KindValidationUpdated revision
    (sample_payload None None None None
       (Some {| Validation_ValidationID := "val"; Validation_State := state;
                Validation_RedactedSummary := ""; Validation_Required := true;
                Validation_Acknowledged := false; Validation_DiffRevision := 1 |})).

Definition sample_stream : list SessionEvent :=
  [ state_event 1 1 TaskStateDraft TaskStateForecasting;
    archived_event 2;
    validation_event 3 1 ValidationStateRunning;
    validation_event 4 2 ValidationStatePassed ].

Definition reduced : SessionSnapshot :=
  match ReduceTaskEvents bound_base sample_stream with Ok r => r | Err _ => bound_base end.

Lemma sample_reduces : ReduceTaskEvents bound_base sample_stream = Ok reduced.
Proof. vm_compute. reflexivity. Qed.

Lemma sample_wf task state revision :
  uint64_range revision -> snapshot_wf (sample_base task state revision).
Proof. intros H. split; cbn; try done; unfold_ranges; lia. Qed.

Lemma ReduceTaskEvents_valid_witness :
  ReduceTaskEvents bound_base sample_stream = Ok reduced /\
  SessionSnapshot_Validate reduced = None.
Proof.
  split; [exact sample_reduces|].
  assert (H : snapshot_wf bound_base) by (apply sample_wf; unfold_ranges; lia).
  apply (proj2 (ReduceTaskEvents_valid bound_base sample_stream reduced H sample_reduces)).
  discriminate.
Defined.

Lemma ReduceTaskEvents_incremental_witness :
  ReduceTaskEvents bound_base sample_stream =
  (m ← ReduceTaskEvents bound_base (take 2 sample_stream);
   ReduceTaskEvents m (drop 2 sample_stream)).
Proof.
  apply (ReduceTaskEvents_incremental bound_base (take 2 sample_stream) (drop 2 sample_stream)).
  - apply sample_wf; unfold_ranges; lia.
  - discriminate.
Defined.

Lemma ReduceTaskEvents_follows_machine_witness :
  ThroughSequence reduced = 4%Z /\
  task_history TaskStateDraft (task_changes sample_stream) TaskStateForecasting.
Proof.
  destruct (ReduceTaskEvents_follows_machine bound_base sample_stream reduced)
    as (_ & H1 & H2 & _); [apply sample_wf; unfold_ranges; lia|unfold_ranges; cbn; lia|
    discriminate|exact sample_reduces|].
  split; [exact H1|exact H2].
Defined.

Definition unbound_base : SessionSnapshot := sample_base None "" 0.

(** No state change applies to a bound task that has no state. *)
Lemma empty_state_is_stuck s event s' :
  Snapshot_TaskID s <> None -> Snapshot_TaskState s = "" ->
  reduce_event s event = Ok s' -> SessionEvent_Kind event <> KindTaskStateChanged.
Proof.
  intros Hb Hs (Hv & _ & _ & _ & _ & m & Hm & _)%reduce_event_Ok Hk.
  apply Validate_nil in Hv as (_ & _ & _ & _ & _ & Hp).
  apply apply_applied in Hm as [Happ _].
  destruct Happ as [changed _ Hpl _ Hf|? Hk2|? Hk2|? Hk2|Hk2];
    try (rewrite Hk in Hk2; discriminate Hk2); [|rewrite Hk in Hk2; set_solver].
  apply (payload_of_state event) in Hpl; [|done..].
  apply task_transition_valid in Hpl as [Hfrom _]. cbn in Hfrom.
  rewrite (Hf Hb), Hs in Hfrom. discriminate Hfrom.
Qed.

Definition first_validation : SessionEvent := validation_event 1 1 ValidationStateRunning.

Definition stuck : SessionSnapshot :=
  match ReduceTaskEvents unbound_base [first_validation] with Ok r => r | Err _ => unbound_base end.

Lemma stuck_reduces : ReduceTaskEvents unbound_base [first_validation] = Ok stuck.
Proof. vm_compute. reflexivity. Qed.

Lemma stuck_invalid : is_nil (SessionSnapshot_Validate stuck) = false.
Proof. vm_compute. reflexivity. Qed.

Lemma stuck_fields : Snapshot_TaskID stuck = Some "tsk" /\ Snapshot_TaskState stuck = "".
Proof. vm_compute. split; reflexivity. Qed.

(** A validation (or change acceptance) that arrives before the task's
    first state change binds the task without giving it a state. The reducer
    accepts it, but what it returns is not a snapshot its own validation
    accepts, so every later reduction from it fails, and within one stream no
    state change can follow. *)
Theorem validation_first_is_stuck :
  SessionSnapshot_Validate unbound_base = None /\
  ReduceTaskEvents unbound_base [first_validation] = Ok stuck /\
  (forall xs, is_ok (ReduceTaskEvents stuck xs) = false) /\
  (forall event, SessionEvent_Kind event = KindTaskStateChanged ->
     is_ok (ReduceTaskEvents unbound_base [first_validation; event]) = false).
Proof.
  split; [vm_compute; reflexivity|]. split; [exact stuck_reduces|]. split.
  - intros xs. unfold ReduceTaskEvents. pose proof stuck_invalid.
    by destruct (SessionSnapshot_Validate stuck).
  - intros event Hk.
    destruct (ReduceTaskEvents unbound_base [first_validation; event]) as [|r] eqn:Hr; [done|exfalso].
    destruct stuck_fields as [Hb Hs].
    pose proof stuck_reduces as [_ Hf]%ReduceTaskEvents_Ok. apply ReduceTaskEvents_Ok in Hr as [_ Hr].
    change [first_validation; event] with ([first_validation] ++ [event]) in Hr.
    rewrite reduce_stream_app, Hf in Hr. apply bind_Ok in Hr as (m & [= <-] & (m & Hm & _)%bind_Ok).
    by apply (empty_state_is_stuck stuck event m ltac:(by rewrite Hb) Hs Hm).
Qed.
