(* ===== verification/Hub.v ===== *)
(** * The event hub (src/internal/events/hub.go)

    The hub joins the committed history of a session to bounded live delivery.
    Its methods run under [hub.mu], so each is one atomic step on a record; a
    subscription's own mutex only separates [Next] from them, and [Next]
    touches one subscription.

    A [*Subscription] outlives its place in the map: a client still drains the
    queue of a subscription the hub has closed. So the subscriptions are kept
    in [heap], under their identity, and the map [hub.subscribers] is the set
    of the identities it still holds. [nextID] never repeats before 2^64
    subscriptions, so an identity is a pointer. A mutex is not modelled; the
    channel [signal] of capacity one is the flag that it holds a value; the
    channel [done] is closed exactly when [closed] is set. Go's iteration
    order over the map is an argument. *)

From S2P Require Import Prelude GoText States PolicyValues SessionEvents.
Open Scope string_scope.
Open Scope list_scope.
Open Scope Z_scope.

(** ** Data *)

Record SubscriptionQuery := {
  Query_SessionID : ID;
  Query_ThreadID : option ID;
  Query_TaskID : option ID;
  AfterSequence : Z;
}.

Record Metrics := {
  Active : Z;
  Published : Z;
  Delivered : Z;
  EphemeralCoalesced : Z;
  ForcedDisconnects : Z;
}.

Record Subscription := {
  sub_id : Z;
  query : SubscriptionQuery;
  liveBoundary : Z;
  liveAfter : Z;
  sub_capacity : Z;
  queue : list SessionEvent;
  signal : bool;
  closeErr : option EventError;
  closed : bool;
}.

Record Hub := {
  capacity : Z;
  nextID : Z;
  heap : gmap Z Subscription;
  subscribers : gset Z;
  global : Metrics;
  bySession : gmap ID Metrics;
  hub_closed : bool;
}.

(** The committed history the hub reads, as the interface the source declares;
    the laws of an implementation are in HubFacts.v. *)
Class Journal (J : Type) := {
  CommittedSequence : J -> ID -> result EventError Z;
  ReplayCommitted : J -> ID -> Z -> Z -> result EventError (list SessionEvent);
}.

Definition Metrics_zero : Metrics :=
  {| Active := 0; Published := 0; Delivered := 0; EphemeralCoalesced := 0;
     ForcedDisconnects := 0 |}.

(** [m.F += d] on the counters, which are [uint64]. *)
Definition bump (m : Metrics) (active published delivered coalesced forced : Z) : Metrics :=
  {| Active := wrap_uint64 (Active m + active);
     Published := wrap_uint64 (Published m + published);
     Delivered := wrap_uint64 (Delivered m + delivered);
     EphemeralCoalesced := wrap_uint64 (EphemeralCoalesced m + coalesced);
     ForcedDisconnects := wrap_uint64 (ForcedDisconnects m + forced) |}.

Definition session_metrics (h : Hub) (session : ID) : Metrics :=
  default Metrics_zero (bySession h !! session).

(** ** Field updates *)

Definition set_queue (sub : Subscription) (q : list SessionEvent) (s : bool) : Subscription :=
  {| sub_id := sub_id sub; query := query sub; liveBoundary := liveBoundary sub;
     liveAfter := liveAfter sub; sub_capacity := sub_capacity sub; queue := q; signal := s;
     closeErr := closeErr sub; closed := closed sub |}.

Definition set_after (sub : Subscription) (after : Z) : Subscription :=
  {| sub_id := sub_id sub; query := query sub; liveBoundary := liveBoundary sub;
     liveAfter := after; sub_capacity := sub_capacity sub; queue := queue sub;
     signal := signal sub; closeErr := closeErr sub; closed := closed sub |}.

Definition set_heap (h : Hub) (subs : gmap Z Subscription) (members : gset Z) : Hub :=
  {| capacity := capacity h; nextID := nextID h; heap := subs; subscribers := members;
     global := global h; bySession := bySession h; hub_closed := hub_closed h |}.

Definition set_metrics (h : Hub) (g : Metrics) (by_session : gmap ID Metrics) : Hub :=
  {| capacity := capacity h; nextID := nextID h; heap := heap h; subscribers := subscribers h;
     global := g; bySession := by_session; hub_closed := hub_closed h |}.

Definition set_next (h : Hub) (id : Z) : Hub :=
  {| capacity := capacity h; nextID := id; heap := heap h; subscribers := subscribers h;
     global := global h; bySession := bySession h; hub_closed := hub_closed h |}.

Definition set_closed (h : Hub) : Hub :=
  {| capacity := capacity h; nextID := nextID h; heap := heap h; subscribers := subscribers h;
     global := global h; bySession := bySession h; hub_closed := true |}.

(** ** One subscription *)

Definition matches (sub : Subscription) (event : SessionEvent) : bool :=
  let thread_ok := match Query_ThreadID (query sub) with
                   | Some thread => SessionEvent_ThreadID event =? thread
                   | None => true
                   end%string in
  let task_ok := match Query_TaskID (query sub) with
                 | Some task => match SessionEvent_TaskID event with
                                | Some t => (t =? task)%string
                                | None => false
                                end
                 | None => true
                 end in
  thread_ok && task_ok.

Definition is_ephemeral (event : SessionEvent) : bool :=
  (SessionEvent_DeliveryClass event =? DeliveryEphemeralCoalescible)%string.

Definition sameEphemeralStream (first second : SessionEvent) : bool :=
  if negb (SessionEvent_Kind first =? SessionEvent_Kind second)%string then false
  else if (SessionEvent_Kind first =? KindMessageDelta)%string then
    match Payload_MessageDelta (SessionEvent_Payload first),
          Payload_MessageDelta (SessionEvent_Payload second) with
    | Some a, Some b => (MessageDelta_MessageID a =? MessageDelta_MessageID b)%string
    | _, _ => false
    end
  else if (SessionEvent_Kind first =? KindToolProgress)%string then
    match Payload_Tool (SessionEvent_Payload first), Payload_Tool (SessionEvent_Payload second) with
    | Some a, Some b => (Tool_ExecutionID a =? Tool_ExecutionID b)%string
    | _, _ => false
    end
  else false.

(** The backward scan of a full queue: drop the last element with the
    property, if any has it. *)
Fixpoint evict_last (p : SessionEvent -> bool) (q : list SessionEvent)
    : option (list SessionEvent) :=
  match q with
  | [] => None
  | x :: rest => match evict_last p rest with
                 | Some rest' => Some (x :: rest')
                 | None => if p x then Some rest else None
                 end
  end.

(** The forward scan: drop the first. *)
Fixpoint evict_first (p : SessionEvent -> bool) (q : list SessionEvent)
    : option (list SessionEvent) :=
  match q with
  | [] => None
  | x :: rest => if p x then Some rest
                 else match evict_first p rest with
                      | Some rest' => Some (x :: rest')
                      | None => None
                      end
  end.

(** The result is [(subscription, delivered, coalesced)]; [notifyLocked] sets
    the signal. *)
Definition enqueueLocked (sub : Subscription) (event : SessionEvent)
    : Subscription * bool * bool :=
  if closed sub then (sub, false, false)
  else if Z.of_nat (length (queue sub)) <? sub_capacity sub then
    (set_queue sub (queue sub ++ [event]) true, true, false)
  else if is_ephemeral event then
    match evict_last (fun queued => sameEphemeralStream queued event) (queue sub) with
    | Some kept => (set_queue sub (kept ++ [event]) true, true, true)
    | None => (sub, true, true)
    end
  else
    match evict_first is_ephemeral (queue sub) with
    | Some kept => (set_queue sub (kept ++ [event]) true, true, true)
    | None => (sub, false, false)
    end.

Definition closeLocked (sub : Subscription) (reason : option EventError) : Subscription :=
  if closed sub then sub
  else {| sub_id := sub_id sub; query := query sub; liveBoundary := liveBoundary sub;
          liveAfter := liveAfter sub; sub_capacity := sub_capacity sub; queue := queue sub;
          signal := signal sub; closeErr := reason; closed := true |}.

Definition ReplayBoundary (sub : Subscription) : Z := liveBoundary sub.

(** One pass of [Next] under the mutex: an event, the terminal error, or the
    wait in the [select]. *)
Inductive NextOutcome :=
| NextEvent (event : SessionEvent)
| NextError (e : EventError)
| NextBlocks.

Definition EOF : EventError := EventExternal "EOF".

Definition Next (sub : Subscription) : Subscription * NextOutcome :=
  match queue sub with
  | event :: rest => (set_queue sub rest (signal sub), NextEvent event)
  | [] => if closed sub then (sub, NextError (default EOF (closeErr sub))) else (sub, NextBlocks)
  end.

(** ** The hub *)

(** The nil journal of the source has no counterpart. *)
Definition NewHub (cap : Z) : result EventError Hub :=
  if (cap <? 1) || (65536 <? cap) then
    Err (EventText "subscriber capacity must be between 1 and 65536")
  else Ok {| capacity := cap; nextID := 0; heap := ∅; subscribers := ∅;
             global := Metrics_zero; bySession := ∅; hub_closed := false |}.

(** One event of a replayed batch; [None] is the [break] at the boundary. *)
Definition replay_one (boundary : Z) (sub : Subscription) (event : SessionEvent)
    : option (result EventError (Subscription * Z)) :=
  if boundary <? Sequence event then None
  else if negb (matches sub event) then Some (Ok (sub, Sequence event))
  else let '(sub', delivered, _) := enqueueLocked sub event in
       if delivered then Some (Ok (sub', Sequence event)) else Some (Err ErrSnapshotRequired).

Fixpoint replay_batch (boundary : Z) (sub : Subscription) (after : Z)
    (batch : list SessionEvent) : result EventError (Subscription * Z) :=
  match batch with
  | [] => Ok (sub, after)
  | event :: rest =>
      match replay_one boundary sub event with
      | None => Ok (sub, after)
      | Some (Err e) => Err e
      | Some (Ok (sub', after')) => replay_batch boundary sub' after' rest
      end
  end.

Section Operations.
Context {J : Type} `{Journal J}.

(** The replay loop. Each turn calls the journal again, and commits may have
    happened since: [seen n] is the journal the [n]-th call reads. [None] is
    running out of fuel. *)
Fixpoint replay_loop (fuel : nat) (seen : nat -> J) (turn : nat) (boundary cap : Z)
    (sub : Subscription) (after : Z) : option (result EventError Subscription) :=
  if after <? boundary then
    match fuel with
    | O => None
    | S fuel =>
        let limit := if boundary - after <? cap then boundary - after else cap in
        match ReplayCommitted (seen turn) (Query_SessionID (query sub)) after limit with
        | Err e => Some (Err e)
        | Ok [] => Some (Err (EventText "committed session history contains a sequence gap"))
        | Ok batch =>
            match replay_batch boundary sub after batch with
            | Err e => Some (Err e)
            | Ok (sub', after') => replay_loop fuel seen (S turn) boundary cap sub' after'
            end
        end
    end
  else Some (Ok sub).

Definition new_subscription (h : Hub) (q : SubscriptionQuery) (boundary : Z) : Subscription :=
  {| sub_id := wrap_uint64 (nextID h + 1); query := q; liveBoundary := boundary;
     liveAfter := boundary; sub_capacity := capacity h; queue := []; signal := false;
     closeErr := None; closed := false |}.

(** Putting the new subscription into the map and counting it. *)
Definition register (h : Hub) (sub : Subscription) : Hub :=
  let session := Query_SessionID (query sub) in
  let h := set_heap h (<[sub_id sub := sub]> (heap h)) ({[sub_id sub]} ∪ subscribers h) in
  set_metrics h (bump (global h) 1 0 0 0 0)
    (<[session := bump (session_metrics h session) 1 0 0 0 0]> (bySession h)).

(** [ctx_err] is [ctx.Err()]; [j] is the journal the boundary is read from,
    [seen] the journals of the replay calls. The fuel is the length of the
    replayed range, which every turn shortens. *)
Definition Subscribe (h : Hub) (ctx_err : option EventError) (j : J) (seen : nat -> J)
    (q : SubscriptionQuery) : option (Hub * result EventError Z) :=
  if IsZero (Query_SessionID q) then
    Some (h, Err (EventText "subscription session ID must not be empty"))
  else if set_but_zero (Query_ThreadID q) then
    Some (h, Err (EventText "subscription thread ID must not be empty"))
  else if set_but_zero (Query_TaskID q) then
    Some (h, Err (EventText "subscription task ID must not be empty"))
  else match ctx_err with
  | Some e => Some (h, Err e)
  | None =>
  if hub_closed h then Some (h, Err ErrHubClosed)
  else match CommittedSequence j (Query_SessionID q) with
  | Err e => Some (h, Err e)
  | Ok boundary =>
  if boundary <? AfterSequence q then
    Some (h, Err (EventText "subscription sequence is ahead of committed history"))
  else
    let sub := new_subscription h q boundary in
    let h := set_next h (sub_id sub) in
    match replay_loop (Z.to_nat (boundary - AfterSequence q)) seen 0 boundary (capacity h) sub
            (AfterSequence q) with
    | None => None
    | Some (Err e) => Some (h, Err e)
    | Some (Ok sub) => Some (register h sub, Ok (sub_id sub))
    end
  end end.
End Operations.

(** One turn of the publication loop. The local copy of the session's metrics
    travels with the hub, as in the source. *)
Definition publish_one (event : SessionEvent) (acc : Hub * Metrics) (id : Z) : Hub * Metrics :=
  let '(h, local) := acc in
  match heap h !! id with
  | None => acc
  | Some sub =>
      if negb (Query_SessionID (query sub) =? SessionEvent_SessionID event)%string ||
         (Sequence event <=? liveAfter sub) || negb (matches sub event) then acc
      else
        let '(sub, delivered, coalesced) := enqueueLocked sub event in
        let sub := if delivered : bool then set_after sub (Sequence event) else sub in
        let d := if delivered : bool then 1 else 0 in
        let c := if coalesced : bool then 1 else 0 in
        let g := bump (global h) 0 0 d c 0 in
        let local := bump local 0 0 d c 0 in
        if negb delivered && (SessionEvent_DeliveryClass event =? DeliveryMaterial)%string then
          let sub := closeLocked sub (Some ErrSlowSubscriber) in
          (set_metrics (set_heap h (<[id := sub]> (heap h)) (subscribers h ∖ {[id]}))
             (bump g (-1) 0 0 0 1) (bySession h),
           bump local (-1) 0 0 0 1)
        else
          (set_metrics (set_heap h (<[id := sub]> (heap h)) (subscribers h)) g (bySession h), local)
  end.

(** [order] is the order in which Go ranges over the subscribers. *)
Definition PublishCommitted (h : Hub) (event : SessionEvent) (order : list Z)
    : Hub * option EventError :=
  match SessionEvent_Validate event with
  | Some e => (h, Some e)
  | None =>
      if hub_closed h then (h, Some ErrHubClosed)
      else
        let session := SessionEvent_SessionID event in
        let h := set_metrics h (bump (global h) 0 1 0 0 0) (bySession h) in
        let local := bump (session_metrics h session) 0 1 0 0 0 in
        let '(h, local) := fold_left (publish_one event) order (h, local) in
        (set_metrics h (global h) (<[session := local]> (bySession h)), None)
  end.

Definition close_one (h : Hub) (id : Z) : Hub :=
  match heap h !! id with
  | None => h
  | Some sub =>
      let session := Query_SessionID (query sub) in
      let h := set_heap h (<[id := closeLocked sub (Some ErrHubClosed)]> (heap h))
                 (subscribers h ∖ {[id]}) in
      let m := session_metrics h session in
      let m := if 0 <? Active m then bump m (-1) 0 0 0 0 else m in
      set_metrics h (global h) (<[session := m]> (bySession h))
  end.

Definition reset_active (m : Metrics) : Metrics :=
  {| Active := 0; Published := Published m; Delivered := Delivered m;
     EphemeralCoalesced := EphemeralCoalesced m; ForcedDisconnects := ForcedDisconnects m |}.

Definition Hub_Close (h : Hub) (order : list Z) : Hub :=
  if hub_closed h then h
  else
    let h := fold_left close_one order (set_closed h) in
    set_metrics h (reset_active (global h)) (bySession h).

Definition GlobalMetrics (h : Hub) : Metrics := global h.
Definition SessionMetrics (h : Hub) (session : ID) : Metrics := session_metrics h session.

(** [subscription.close(reason)]: [Close] with no reason, and the context's
    callback with [ctx.Err()]. *)
Definition close (h : Hub) (id : Z) (reason : option EventError) : Hub :=
  match heap h !! id with
  | None => h
  | Some sub =>
      let session := Query_SessionID (query sub) in
      let h' := set_heap h (<[id := closeLocked sub reason]> (heap h)) (subscribers h) in
      if negb (closed sub) then
        set_metrics (set_heap h' (heap h') (subscribers h' ∖ {[sub_id sub]}))
          (bump (global h) (-1) 0 0 0 0)
          (<[session := bump (session_metrics h session) (-1) 0 0 0 0]> (bySession h))
      else h'
  end.

Definition Subscription_Close (h : Hub) (id : Z) : Hub := close h id None.
