(* ===== verification/HubFacts.v ===== *)
(** * What the event hub promises

    The laws of a journal, the invariant of one subscription against the
    history it reads, the step relation of the hub with its clients, and the
    theorems: order, completeness of material events, reconnection, wake-ups
    and the counters. *)

From S2P Require Import Prelude GoText States PolicyValues SessionEvents Hub.
Open Scope string_scope.
Open Scope list_scope.
Open Scope Z_scope.

(** ** The journal's contract

    [history j s] is the committed history of session [s]: numbered from one
    without a gap, every event valid and of its session. The boundary is its
    length, and a replay is the range the caller asks for. *)
Class JournalLaws (J : Type) `{Journal J} (history : J -> ID -> list SessionEvent) : Prop := {
  journal_entry : forall j s i event, history j s !! i = Some event ->
    Sequence event = Z.of_nat i + 1 /\ SessionEvent_SessionID event = s /\
    SessionEvent_Validate event = None;
  journal_boundary : forall j s n,
    CommittedSequence j s = Ok n -> n = Z.of_nat (length (history j s));
  journal_replay : forall j s after limit events, 0 <= after -> 1 <= limit ->
    ReplayCommitted j s after limit = Ok events ->
    events = take (Z.to_nat limit) (drop (Z.to_nat after) (history j s));
}.

(** A history numbered from one. *)
Definition numbered (hist : list SessionEvent) : Prop :=
  forall i event, hist !! i = Some event -> Sequence event = Z.of_nat i + 1.

Lemma numbered_lookup hist event :
  numbered hist -> event ∈ hist ->
  hist !! Z.to_nat (Sequence event - 1) = Some event /\
  1 <= Sequence event <= Z.of_nat (length hist).
Proof.
  intros Hn [i Hi]%list_elem_of_lookup. pose proof (Hn _ _ Hi) as ->.
  pose proof (lookup_lt_Some _ _ _ Hi).
  replace (Z.to_nat (Z.of_nat i + 1 - 1)) with i by lia. split; [done|lia].
Qed.

Lemma numbered_unique hist a b :
  numbered hist -> a ∈ hist -> b ∈ hist -> Sequence a = Sequence b -> a = b.
Proof.
  intros Hn [Ha _]%(numbered_lookup _ _ Hn) [Hb _]%(numbered_lookup _ _ Hn) He.
  rewrite He in Ha. congruence.
Qed.

(** ** Ordered streams *)

Definition before (a b : SessionEvent) : Prop := Sequence a < Sequence b.
Definition ascending (l : list SessionEvent) : Prop := StronglySorted before l.

Lemma ascending_app l k :
  ascending (l ++ k) <->
  ascending l /\ ascending k /\ forall x y, x ∈ l -> y ∈ k -> Sequence x < Sequence y.
Proof. unfold ascending. rewrite StronglySorted_app. unfold before. naive_solver. Qed.

Lemma ascending_sublist l k : sublist l k -> ascending k -> ascending l.
Proof.
  intros Hs. unfold ascending. induction Hs as [|x l k Hs IH|x l k Hs IH].
  - done.
  - rewrite !StronglySorted_cons, !Forall_forall. intros [H1 H2]. split; [|by apply IH].
    intros y Hy. apply H1. by eapply elem_of_sublist.
  - rewrite StronglySorted_cons. intros [_ ?]. auto.
Qed.

Lemma ascending_snoc l event :
  ascending l -> (forall x, x ∈ l -> Sequence x < Sequence event) -> ascending (l ++ [event]).
Proof.
  intros Hl Hlt. apply ascending_app. split_and!; [done|repeat constructor|].
  intros x y Hx ->%list_elem_of_singleton. auto.
Qed.

(** ** Enqueueing *)

Lemma evict_last_spec p q kept :
  evict_last p q = Some kept ->
  sublist kept q /\ length q = S (length kept) /\
  forall x, x ∈ q -> p x = false -> x ∈ kept.
Proof.
  revert kept. induction q as [|a q IH]; intros kept; cbn; [done|].
  destruct (evict_last p q) as [r|].
  - intros [= <-]. destruct (IH r eq_refl) as (H1 & H2 & H3).
    split_and!; [by constructor|cbn; by rewrite H2|set_solver].
  - destruct (p a) eqn:E; [|done]. intros [= <-].
    split_and!; [by constructor|done|]. intros x [->|]%elem_of_cons; congruence.
Qed.

Lemma evict_first_spec p q :
  match evict_first p q with
  | Some kept => sublist kept q /\ length q = S (length kept) /\
      forall x, x ∈ q -> p x = false -> x ∈ kept
  | None => forall x, x ∈ q -> p x = false
  end.
Proof.
  induction q as [|a q IH]; cbn; [set_solver|].
  destruct (p a) eqn:E.
  - split_and!; [by constructor|done|]. intros x [->|]%elem_of_cons; congruence.
  - destruct (evict_first p q) as [r|].
    + destruct IH as (H1 & H2 & H3). split_and!; [by constructor|cbn; by rewrite H2|set_solver].
    + intros x [->|]%elem_of_cons; auto.
Qed.

Lemma same_stream_ephemeral a b : sameEphemeralStream a b = true -> is_ephemeral a = true.
Proof.
  unfold sameEphemeralStream, is_ephemeral, SessionEvent_DeliveryClass, kind_in.
  destruct (_ =? _)%string; [|done]. cbn.
  destruct (SessionEvent_Kind a =? KindMessageDelta)%string; [done|].
  by destruct (SessionEvent_Kind a =? KindToolProgress)%string.
Qed.

Lemma not_ephemeral_material event :
  is_ephemeral event = false <-> SessionEvent_DeliveryClass event = DeliveryMaterial.
Proof.
  unfold is_ephemeral, SessionEvent_DeliveryClass. destruct (kind_in _ _); cbn; naive_solver.
Qed.

(** What a queue keeps of itself when an event joins it: a sublist with every
    material event. *)
Definition keeps (q kept : list SessionEvent) : Prop :=
  sublist kept q /\ forall x, x ∈ q -> is_ephemeral x = false -> x ∈ kept.

(** An open subscription with room for its queue either appends the event,
    possibly in the place of an ephemeral one, or drops an ephemeral event, or
    refuses a material one, and then its whole queue is material. *)
Lemma enqueue_cases sub event :
  closed sub = false -> Z.of_nat (length (queue sub)) <= sub_capacity sub ->
  let '(sub', delivered, _) := enqueueLocked sub event in
  if delivered : bool then
    (exists kept, sub' = set_queue sub (kept ++ [event]) true /\ keeps (queue sub) kept /\
       Z.of_nat (length kept) + 1 <= sub_capacity sub) \/
    sub' = sub /\ is_ephemeral event = true
  else sub' = sub /\ is_ephemeral event = false /\
    forall x, x ∈ queue sub -> is_ephemeral x = false.
Proof.
  intros Hc Hroom. unfold enqueueLocked. rewrite Hc.
  destruct (_ <? _) eqn:Hlen; to_prop.
  { left. exists (queue sub). split_and!; [done|split; [done|auto]|lia]. }
  destruct (is_ephemeral event) eqn:He.
  - destruct (evict_last _ _) as [kept|] eqn:Hev; [|by right].
    apply evict_last_spec in Hev as (H1 & H2 & H3). left. exists kept.
    split_and!; [done|split; [done|]|lia]. intros x Hx Hm. apply H3; [done|].
    destruct (sameEphemeralStream x event) eqn:Hs; [|done].
    apply same_stream_ephemeral in Hs. congruence.
  - pose proof (evict_first_spec is_ephemeral (queue sub)) as Hev.
    destruct (evict_first _ _) as [kept|]; [|by split_and!].
    destruct Hev as (H1 & H2 & H3). left. exists kept. split_and!; [done|by split|lia].
Qed.

(** ** One subscription against its history

    [hist] is the committed history of its session, [pub] the number of its
    events published so far, [got] what [Next] has returned, [member] whether
    the hub still holds it, [wait] whether its client waits inside [Next].
    The last three facts of the record need publication in order, which
    [ordered] states: every event published follows those published before
    it, or repeats one. *)

Definition material_match (sub : Subscription) (event : SessionEvent) : Prop :=
  is_ephemeral event = false /\ matches sub event = true.

Record sub_inv (ordered : bool) (hist : list SessionEvent) (pub : Z) (got : list SessionEvent)
    (member wait : Prop) (sub : Subscription) : Prop := {
  sv_room : Z.of_nat (length (queue sub)) <= sub_capacity sub;
  sv_start : 0 <= AfterSequence (query sub) <= liveBoundary sub;
  sv_live : liveBoundary sub <= liveAfter sub <= Z.of_nat (length hist);
  sv_sorted : ascending (got ++ queue sub);
  sv_from : forall event, event ∈ got ++ queue sub ->
    event ∈ hist /\ matches sub event = true /\
    AfterSequence (query sub) < Sequence event <= liveAfter sub;
  sv_member : closed sub = false <-> member;
  sv_awake : wait -> queue sub = [] \/ signal sub = true;
  sv_complete : ordered = true -> forall event, event ∈ hist -> material_match sub event ->
    AfterSequence (query sub) < Sequence event <= liveAfter sub -> event ∈ got ++ queue sub;
  sv_caught_up : ordered = true -> closed sub = false ->
    forall event, event ∈ hist -> material_match sub event ->
    Sequence event <= pub -> Sequence event <= liveAfter sub;
}.

(** What a publication does to one subscription, and whether it forces the
    disconnect: the body of the loop without the counters. *)
Definition skips (event : SessionEvent) (sub : Subscription) : bool :=
  negb (Query_SessionID (query sub) =? SessionEvent_SessionID event)%string ||
  (Sequence event <=? liveAfter sub) || negb (matches sub event).

Definition offer (event : SessionEvent) (sub : Subscription) : Subscription * bool * bool :=
  if skips event sub then (sub, false, false)
  else
    let '(sub, delivered, coalesced) := enqueueLocked sub event in
    if delivered : bool then (set_after sub (Sequence event), true, coalesced)
    else if (SessionEvent_DeliveryClass event =? DeliveryMaterial)%string
    then (closeLocked sub (Some ErrSlowSubscriber), false, coalesced)
    else (sub, false, coalesced).

Definition offered (event : SessionEvent) (sub : Subscription) : Subscription :=
  (offer event sub).1.1.

Section OneSubscription.
Context (ordered : bool) (hist : list SessionEvent) (pub : Z).
Context (Hnum : numbered hist).

Lemma next_published (event x : SessionEvent) :
  event ∈ hist -> x ∈ hist -> (ordered = true -> Sequence event <= pub + 1) -> ordered = true ->
  Sequence x <= Z.max pub (Sequence event) -> Sequence x <= pub \/ x = event.
Proof.
  intros He Hx Hord Ho Hle. specialize (Hord Ho).
  destruct (decide (Sequence x <= pub)); [by left|right].
  apply (numbered_unique hist); auto. lia.
Qed.

(** Appending an event later than everything delivered keeps the invariant. *)
Lemma deliver_inv got (member wait : Prop) sub event kept :
  sub_inv ordered hist pub got member wait sub -> closed sub = false ->
  event ∈ hist -> matches sub event = true -> liveAfter sub < Sequence event ->
  (ordered = true -> Sequence event <= pub + 1) ->
  keeps (queue sub) kept -> Z.of_nat (length kept) + 1 <= sub_capacity sub ->
  sub_inv ordered hist (Z.max pub (Sequence event)) got member wait
    (set_after (set_queue sub (kept ++ [event]) true) (Sequence event)).
Proof.
  intros [R S L O F M A C U] Hc He Hm Hlt Hord [Hsub Hkeep] Hroom.
  pose proof (numbered_lookup _ _ Hnum He) as [_ Hrange].
  assert (Hin : forall x, x ∈ got ++ kept -> x ∈ got ++ queue sub).
  { intros x. rewrite !elem_of_app. intros [?|?]; [by left|right; by eapply elem_of_sublist]. }
  split; cbn.
  - rewrite length_app. cbn. lia.
  - done.
  - lia.
  - rewrite app_assoc. apply ascending_snoc.
    + eapply ascending_sublist; [|exact O]. by apply sublist_app.
    + intros x Hx%Hin. apply F in Hx. lia.
  - intros x. rewrite app_assoc, elem_of_app. intros [Hx%Hin|Hx].
    + apply F in Hx as (? & ? & ?). split_and!; auto; lia.
    + apply list_elem_of_singleton in Hx as ->. split_and!; auto; lia.
  - done.
  - auto.
  - intros Ho x Hx [Hxm Hxq] Hr. rewrite app_assoc, elem_of_app.
    destruct (decide (Sequence x <= liveAfter sub)) as [Hle|Hgt].
    + left. assert (Hin' : x ∈ got ++ queue sub) by (apply C; auto; [by split|lia]).
      rewrite !elem_of_app in *. destruct Hin' as [?|?]; [by left|right; by apply Hkeep].
    + right. apply list_elem_of_singleton. destruct (next_published event x) as [Hp|]; auto; [lia|].
      exfalso. assert (Sequence x <= liveAfter sub) by (apply U; auto; by split). lia.
  - intros Ho _ x Hx Hxm Hle. destruct (next_published event x) as [Hp| ->]; auto; [|lia].
    pose proof (U Ho Hc x Hx Hxm Hp). lia.
Qed.

(** An event that is skipped, or ephemeral and dropped, only moves [pub]. *)
Lemma pass_inv got (member wait : Prop) sub event after :
  sub_inv ordered hist pub got member wait sub -> event ∈ hist ->
  (ordered = true -> Sequence event <= pub + 1) ->
  liveAfter sub <= after -> after <= Z.of_nat (length hist) ->
  after = liveAfter sub \/ after = Sequence event /\ ~ material_match sub event /\ closed sub = false ->
  (material_match sub event -> Sequence event <= after) ->
  sub_inv ordered hist (Z.max pub (Sequence event)) got member wait (set_after sub after).
Proof.
  intros [R S L O F M A C U] He Hord Hle Hlen Hafter Hev. split; cbn; try done.
  - lia.
  - intros x Hx. apply F in Hx as (? & ? & ?). split_and!; auto; lia.
  - intros Ho x Hx Hxm Hr. destruct Hafter as [->|(-> & Hnm & Hc)]; [by apply C|].
    destruct (decide (Sequence x <= liveAfter sub)) as [?|Hgt]; [by apply C; auto; lia|].
    exfalso. destruct (next_published event x) as [Hp| ->]; [done..|lia| |by apply Hnm].
    pose proof (U Ho Hc x Hx Hxm Hp). lia.
  - intros Ho Hc x Hx Hxm Hlx. destruct (next_published event x) as [Hp| ->]; auto.
    pose proof (U Ho Hc x Hx Hxm Hp). lia.
Qed.

(** Closing keeps everything but membership. *)
Lemma close_inv got (member wait : Prop) sub reason pub' :
  sub_inv ordered hist pub got member wait sub ->
  sub_inv ordered hist pub' got False wait (closeLocked sub reason) /\
  closed (closeLocked sub reason) = true.
Proof.
  intros [R S L O F M A C U]. unfold closeLocked. destruct (closed sub) eqn:Hc.
  - split; [|done]. split; auto; [rewrite Hc; done|congruence].
  - split; [|done]. by split; cbn.
Qed.

Lemma sub_inv_member got (member member' wait : Prop) sub p :
  sub_inv ordered hist p got member wait sub -> (closed sub = false <-> member') ->
  sub_inv ordered hist p got member' wait sub.
Proof. intros [] ?. by split. Qed.

Lemma set_after_same sub : set_after sub (liveAfter sub) = sub.
Proof. by destruct sub. Qed.

(** A publication of a committed event keeps the invariant of every open
    subscription of its session. *)
Lemma offer_inv got (member wait : Prop) sub event :
  sub_inv ordered hist pub got member wait sub -> closed sub = false -> event ∈ hist ->
  Query_SessionID (query sub) = SessionEvent_SessionID event ->
  (ordered = true -> Sequence event <= pub + 1) ->
  sub_inv ordered hist (Z.max pub (Sequence event)) got
    (closed (offered event sub) = false) wait (offered event sub).
Proof.
  intros Hinv Hc He Hses Hord. pose proof (numbered_lookup _ _ Hnum He) as [_ Hrange].
  unfold offered, offer, skips. rewrite Hses, String.eqb_refl. cbn [negb orb].
  destruct (_ || _) eqn:Hskip; cbn [fst].
  { apply (sub_inv_member _ member); [|done]. rewrite <- (set_after_same sub).
    apply pass_inv; auto; [lia|apply Hinv|]. intros [_ Hmm]. to_prop.
    destruct Hskip as [?|?]; [done|congruence]. }
  to_prop. destruct Hskip as [Hgt Hm].
  pose proof (enqueue_cases sub event Hc (sv_room _ _ _ _ _ _ _ Hinv)) as Henq.
  destruct (enqueueLocked sub event) as [[sub' delivered] coalesced]. destruct delivered; cbn [fst].
  - apply (sub_inv_member _ member).
    + destruct Henq as [(kept & -> & Hk & Hroom)|[-> Heph]].
      * by eapply deliver_inv.
      * apply pass_inv; auto; [lia|lia| |lia]. right. split_and!; [done| |done].
        intros [? _]. congruence.
    + by destruct Henq as [(kept & -> & Hk & Hroom)|[-> Heph]].
  - destruct Henq as (-> & Hmat & _). apply not_ephemeral_material in Hmat. rewrite Hmat. cbn.
    apply (sub_inv_member _ False); [by eapply close_inv|].
    destruct (close_inv got member wait sub (Some ErrSlowSubscriber) 0 Hinv) as [_ ->]. done.
Qed.
End OneSubscription.

(** ** Replay *)

(** The subscription being filled: what the queue holds after the history has
    been replayed through [after]. *)
Record replay_inv (hist : list SessionEvent) (q : SubscriptionQuery) (boundary cap id : Z)
    (after : Z) (sub : Subscription) : Prop := {
  rv_query : query sub = q;
  rv_id : sub_id sub = id;
  rv_boundary : liveBoundary sub = boundary /\ liveAfter sub = boundary;
  rv_capacity : sub_capacity sub = cap;
  rv_open : closed sub = false;
  rv_room : Z.of_nat (length (queue sub)) <= cap;
  rv_after : AfterSequence q <= after;
  rv_sorted : ascending (queue sub);
  rv_from : forall event, event ∈ queue sub ->
    event ∈ hist /\ matches sub event = true /\ AfterSequence q < Sequence event <= after;
  rv_complete : forall event, event ∈ hist -> material_match sub event ->
    AfterSequence q < Sequence event <= after -> event ∈ queue sub;
}.

Section Replay.
Context (hist : list SessionEvent) (q : SubscriptionQuery) (boundary cap id : Z).
Context (Hnum : numbered hist).

Lemma replay_skip after sub event :
  replay_inv hist q boundary cap id after sub -> event ∈ hist -> Sequence event = after + 1 ->
  ~ material_match sub event -> replay_inv hist q boundary cap id (after + 1) sub.
Proof.
  intros [Q I B K O R A S F C] He Hseq Hnm. split; auto; [lia|..].
  - intros x Hx. apply F in Hx as (? & ? & ?). split_and!; auto; lia.
  - intros x Hx Hxm Hr. destruct (decide (Sequence x = after + 1)) as [Heq|Hne].
    + exfalso. apply Hnm. replace event with x; [done|]. apply (numbered_unique hist); auto. lia.
    + apply C; auto. lia.
Qed.

Lemma replay_append after sub event kept :
  replay_inv hist q boundary cap id after sub -> event ∈ hist -> Sequence event = after + 1 ->
  matches sub event = true -> keeps (queue sub) kept -> Z.of_nat (length kept) + 1 <= cap ->
  replay_inv hist q boundary cap id (after + 1) (set_queue sub (kept ++ [event]) true).
Proof.
  intros [Q I B K O R A S F C] He Hseq Hm [Hs Hk] Hroom. split; cbn; auto.
  - rewrite length_app. cbn. lia.
  - lia.
  - apply ascending_snoc; [by eapply ascending_sublist|].
    intros x Hx. apply (elem_of_sublist _ _ _ Hx) in Hs. apply F in Hs. lia.
  - intros x. rewrite elem_of_app. intros [Hx|Hx].
    + apply (elem_of_sublist _ _ _ Hx) in Hs. apply F in Hs as (? & ? & ?). split_and!; auto; lia.
    + apply list_elem_of_singleton in Hx as ->. split_and!; auto; lia.
  - intros x Hx [Hxe Hxm] Hr. rewrite elem_of_app.
    destruct (decide (Sequence x = after + 1)) as [Heq|Hne].
    + right. apply list_elem_of_singleton. apply (numbered_unique hist); auto. lia.
    + left. apply Hk; [|done]. apply C; [done|by split|lia].
Qed.

(** One replayed event, at or below the boundary. *)
Lemma replay_one_inv after sub event :
  replay_inv hist q boundary cap id after sub -> event ∈ hist -> Sequence event = after + 1 ->
  after + 1 <= boundary ->
  match replay_one boundary sub event with
  | Some (Ok (sub', after')) => after' = after + 1 /\ replay_inv hist q boundary cap id after' sub'
  | Some (Err e) => e = ErrSnapshotRequired
  | None => False
  end.
Proof.
  intros Hinv He Hseq Hle. unfold replay_one.
  destruct (boundary <? Sequence event) eqn:Hb; to_prop; [lia|].
  destruct (matches sub event) eqn:Hm; cbn [negb].
  - pose proof (enqueue_cases sub event (rv_open _ _ _ _ _ _ _ Hinv)) as Henq.
    rewrite (rv_capacity _ _ _ _ _ _ _ Hinv) in Henq.
    specialize (Henq (rv_room _ _ _ _ _ _ _ Hinv)).
    destruct (enqueueLocked sub event) as [[sub' delivered] coalesced].
    destruct delivered; [|done]. rewrite Hseq. split; [done|].
    destruct Henq as [(kept & -> & Hk & Hroom)|[-> Heph]].
    + by apply replay_append.
    + apply (replay_skip _ _ event); auto. intros [? _]. congruence.
  - rewrite Hseq. split; [done|]. apply (replay_skip _ _ event); auto. intros [_ ?]. congruence.
Qed.

(** A batch of consecutive events. *)
Lemma replay_batch_inv batch after sub :
  replay_inv hist q boundary cap id after sub ->
  (forall i event, batch !! i = Some event ->
     event ∈ hist /\ Sequence event = after + 1 + Z.of_nat i) ->
  after + Z.of_nat (length batch) <= boundary ->
  match replay_batch boundary sub after batch with
  | Ok (sub', after') => after' = after + Z.of_nat (length batch) /\
      replay_inv hist q boundary cap id after' sub'
  | Err e => e = ErrSnapshotRequired
  end.
Proof.
  revert after sub. induction batch as [|event rest IH]; intros after sub Hinv Hb Hle; cbn.
  { by rewrite Z.add_0_r. }
  cbn [length] in Hle. destruct (Hb 0%nat event eq_refl) as [He Hseq].
  pose proof (replay_one_inv after sub event Hinv He ltac:(lia) ltac:(lia)) as Hone.
  destruct (replay_one boundary sub event) as [[e|[sub' after']]|]; [done| |done].
  destruct Hone as [-> Hinv'].
  specialize (IH (after + 1) sub' Hinv').
  destruct (replay_batch boundary sub' (after + 1) rest) as [e|[sub'' after'']].
  - apply IH; [|lia]. intros i x Hx. destruct (Hb (S i) x Hx). split; [done|lia].
  - destruct IH as [-> H']; [|lia|split; [lia|done]].
    intros i x Hx. destruct (Hb (S i) x Hx). split; [done|lia].
Qed.
End Replay.

(** ** Subscribing *)

Section Subscribing.
Context {J : Type} `{HJ : Journal J} (history : J -> ID -> list SessionEvent).
Context {Hlaws : JournalLaws J history}.

Lemma history_numbered j s : numbered (history j s).
Proof. intros i event Hi. by apply (journal_entry j s) in Hi as [? _]. Qed.

(** The journal a later call reads extends the one the boundary was read from. *)
Definition extends (j j' : J) : Prop := forall s, history j s `prefix_of` history j' s.

(** The range a turn of the loop asks for, read from a later journal, is the
    range of the history the boundary was read from. *)
Lemma replay_range (hist later : list SessionEvent) (after limit : Z) :
  hist `prefix_of` later -> 0 <= after -> 1 <= limit ->
  after + limit <= Z.of_nat (length hist) ->
  let batch := take (Z.to_nat limit) (drop (Z.to_nat after) later) in
  Z.of_nat (length batch) = limit /\
  forall i event, batch !! i = Some event -> hist !! (Z.to_nat after + i)%nat = Some event.
Proof.
  intros [k ->] Ha Hl Hle. cbn zeta. split.
  - rewrite length_take, length_drop, length_app. lia.
  - intros i event Hi. pose proof (lookup_lt_Some _ _ _ Hi) as Hlt. rewrite length_take in Hlt.
    rewrite lookup_take_lt, lookup_drop, lookup_app_l in Hi by lia. done.
Qed.

Lemma replay_loop_inv fuel seen turn j q cap id after sub :
  let hist := history j (Query_SessionID q) in
  let boundary := Z.of_nat (length hist) in
  (forall n, extends j (seen n)) -> 1 <= cap -> 0 <= AfterSequence q -> after <= boundary ->
  boundary - after <= Z.of_nat fuel ->
  replay_inv hist q boundary cap id after sub ->
  match replay_loop fuel seen turn boundary cap sub after with
  | Some (Ok sub') => replay_inv hist q boundary cap id boundary sub'
  | Some (Err _) => True
  | None => False
  end.
Proof.
  intros hist boundary Hext Hcap Hq. revert turn after sub.
  induction fuel as [|fuel IH]; intros turn after sub Hle Hfuel Hinv; cbn [replay_loop];
    destruct (after <? boundary) eqn:Hlt; to_prop; try lia;
    try (assert (Hend : after = boundary) by lia; rewrite Hend in Hinv; exact Hinv).
  rewrite (rv_query _ _ _ _ _ _ _ Hinv).
  set (limit := if boundary - after <? cap then boundary - after else cap).
  assert (Hlimit : 1 <= limit /\ after + limit <= boundary)
    by (unfold limit; destruct (_ <? cap) eqn:E; to_prop; lia).
  destruct (ReplayCommitted _ _ after limit) as [e|batch] eqn:Hr; [done|].
  pose proof (rv_after _ _ _ _ _ _ _ Hinv) as Hafter.
  apply journal_replay in Hr; [|lia|lia].
  destruct (replay_range hist (history (seen turn) (Query_SessionID q)) after limit)
    as [Hlen Hat]; [apply Hext|lia..|]. rewrite <- Hr in Hlen, Hat.
  destruct batch as [|event rest]; [cbn in Hlen; lia|].
  pose proof (history_numbered j (Query_SessionID q)) as Hnum.
  pose proof (replay_batch_inv hist q boundary cap id Hnum (event :: rest) after sub Hinv) as Hb.
  destruct (replay_batch boundary sub after (event :: rest)) as [e|[sub' after']]; [done|].
  destruct Hb as [-> Hinv']; [|lia|].
  { intros i x Hx%Hat. split; [by eapply list_elem_of_lookup_2|]. apply Hnum in Hx. lia. }
  apply IH; auto; lia.
Qed.

(** A filled subscription satisfies the invariant of a live one. *)
Lemma replayed_live ordered hist q boundary cap id pub sub :
  replay_inv hist q boundary cap id boundary sub -> 0 <= AfterSequence q ->
  boundary = Z.of_nat (length hist) -> pub <= boundary ->
  sub_inv ordered hist pub [] True False sub.
Proof.
  intros [Q I [B1 B2] K O R A S F C] Hq Hb Hp.
  split; cbn; rewrite ?Q, ?B1, ?B2, ?K; auto; try lia.
  by rewrite O.
Qed.

Definition sub_start (h : Hub) (q : SubscriptionQuery) (boundary : Z) : Prop :=
  1 <= capacity h -> AfterSequence q <= boundary ->
  forall hist, replay_inv hist q boundary (capacity h) (wrap_uint64 (nextID h + 1))
    (AfterSequence q) (new_subscription h q boundary).

Lemma sub_start_ok h q boundary : sub_start h q boundary.
Proof.
  intros Hc Hq hist. split; cbn; auto; try lia; try (intros event Hin; by apply not_elem_of_nil in Hin).
  constructor.
Qed.

Ltac early := by do 2 eexists; split; [reflexivity|left].

(** What subscribing does: nothing but a consumed identity when it fails,
    and otherwise a filled subscription in the map. It always returns. *)
Lemma Subscribe_cases h ctx_err j seen q :
  1 <= capacity h -> 0 <= AfterSequence q -> (forall n, extends j (seen n)) ->
  exists h' r, Subscribe h ctx_err j seen q = Some (h', r) /\
    match r with
    | Err _ => h' = h \/ h' = set_next h (wrap_uint64 (nextID h + 1))
    | Ok id => hub_closed h = false /\ id = wrap_uint64 (nextID h + 1) /\ exists sub,
        h' = register (set_next h id) sub /\
        let hist := history j (Query_SessionID q) in
        let boundary := Z.of_nat (length hist) in
        replay_inv hist q boundary (capacity h) id boundary sub
    end.
Proof.
  intros Hcap Hq Hext. unfold Subscribe.
  destruct (IsZero _); [early|]. destruct (set_but_zero _); [early|].
  destruct (set_but_zero _); [early|]. destruct ctx_err; [early|].
  destruct (hub_closed h) eqn:Hclosed; [early|].
  destruct (CommittedSequence j _) as [e|boundary] eqn:Hb; [early|].
  destruct (boundary <? AfterSequence q) eqn:Hlt; [early|].
  to_prop. apply journal_boundary in Hb as ->. cbn zeta. cbn [capacity set_next].
  pose proof (replay_loop_inv
    (Z.to_nat (Z.of_nat (length (history j (Query_SessionID q))) - AfterSequence q)) seen 0 j q
    (capacity h) (wrap_uint64 (nextID h + 1)) (AfterSequence q)
    (new_subscription h q (Z.of_nat (length (history j (Query_SessionID q)))))
    Hext Hcap Hq Hlt ltac:(lia) (sub_start_ok h q _ Hcap Hlt _)) as Hloop.
  destruct (replay_loop _ _ _ _ _ _ _) as [[e|sub]|]; [| |done].
  - do 2 eexists. split; [reflexivity|by right].
  - do 2 eexists. split; [reflexivity|]. cbn. pose proof (rv_id _ _ _ _ _ _ _ Hloop) as ->.
    split_and!; [done..|]. by exists sub.
Qed.
End Subscribing.
