(* ===== verification/HubSystem.v ===== *)
(** * The hub with its publishers and clients

    The step relation puts the hub's operations next to what happens around
    them: the journal grows, committed events are published, clients subscribe,
    call [Next], wait and are woken, subscriptions and the hub are closed. The
    invariant of HubFacts.v holds of every subscription in every reachable
    state; the theorems read it off. *)

From S2P Require Import Prelude GoText States PolicyValues SessionEvents Hub HubFacts.
Open Scope string_scope.
Open Scope list_scope.
Open Scope Z_scope.

(** ** Publication, one subscription at a time *)

(** The fields of the hub publication never writes. *)
Definition same_frame (h h' : Hub) : Prop :=
  capacity h' = capacity h /\ nextID h' = nextID h /\ hub_closed h' = hub_closed h.

(** The subscription a publication leaves under one identity. *)
Lemma publish_one_hub event h m id :
  (forall sub, heap h !! id = Some sub -> closed sub = false) ->
  let h' := (publish_one event (h, m) id).1 in
  heap h' !! id = offered event <$> heap h !! id /\
  (forall i, i <> id -> heap h' !! i = heap h !! i) /\
  (forall i, i ∈ subscribers h' <-> i ∈ subscribers h /\
     (i = id -> forall sub, heap h !! id = Some sub -> closed (offered event sub) = false)) /\
  same_frame h h'.
Proof.
  intros Hopen. unfold publish_one. destruct (heap h !! id) as [sub|] eqn:Hid; cbn zeta.
  2:{ cbn [fst]. rewrite Hid. split_and!; [done..| |done]. naive_solver. }
  specialize (Hopen sub eq_refl).
  assert (Hall : forall P : Subscription -> Prop,
    (forall s, Some sub = Some s -> P s) <-> P sub) by naive_solver.
  setoid_rewrite (Hall (fun s => closed (offered event s) = false)).
  cbn [fmap option_fmap option_map]. unfold offered, offer, skips.
  destruct (_ || negb (matches sub event)); cbn [fst].
  { rewrite Hid. split_and!; [done..| |done]. naive_solver. }
  assert (Hcl : closed (enqueueLocked sub event).1.1 = false)
    by (unfold enqueueLocked; repeat (case_match; cbn; try done)).
  destruct (enqueueLocked sub event) as [[sub' delivered] coalesced]. cbn [fst] in Hcl.
  destruct delivered; cbn [negb andb fst].
  { cbn. rewrite lookup_insert_eq. split_and!; [done|by intros; rewrite lookup_insert_ne| |done].
    naive_solver. }
  destruct (_ =? DeliveryMaterial)%string; cbn;
    rewrite lookup_insert_eq; (split_and!; [done|by intros; rewrite lookup_insert_ne| |done]).
  - intros i. unfold closeLocked. rewrite Hcl. cbn. set_solver.
  - naive_solver.
Qed.

Lemma publish_fold_hub event order h m :
  NoDup order ->
  (forall id sub, id ∈ order -> heap h !! id = Some sub -> closed sub = false) ->
  let h' := (fold_left (publish_one event) order (h, m)).1 in
  (forall id, id ∈ order -> heap h' !! id = offered event <$> heap h !! id) /\
  (forall id, id ∉ order -> heap h' !! id = heap h !! id) /\
  (forall id, id ∈ subscribers h' <-> id ∈ subscribers h /\
     (id ∈ order -> forall sub, heap h !! id = Some sub -> closed (offered event sub) = false)) /\
  same_frame h h'.
Proof.
  revert h m. induction order as [|id order IH]; intros h m Hnd Hopen; cbn zeta.
  { cbn. split_and!; [set_solver|done|set_solver|done]. }
  apply NoDup_cons in Hnd as [Hid Hnd]. cbn [fold_left].
  destruct (publish_one_hub event h m id) as (H1 & H2 & H3 & F1).
  { intros sub Hs. eapply Hopen, Hs. by left. }
  destruct (publish_one event (h, m) id) as [h1 m1] eqn:E. cbn [fst] in *.
  destruct (IH h1 m1 Hnd) as (I1 & I2 & I3 & F2).
  { intros i sub Hi. rewrite H2 by set_solver. apply Hopen. by right. }
  assert (Hne : forall i, i ∈ order -> i <> id) by set_solver. split_and!.
  - intros i [->|Hi]%elem_of_cons; [by rewrite I2|]. rewrite I1, H2; auto.
  - intros i Hi. rewrite I2, H2; set_solver.
  - intros i. rewrite I3, H3, elem_of_cons.
    destruct (decide (i = id)) as [->|Hi]; [naive_solver|]. rewrite H2 by done. naive_solver.
  - destruct F1 as (? & ? & ?), F2 as (? & ? & ?). split_and!; congruence.
Qed.

(** ** Closing the hub *)

Lemma close_fold_hub order h :
  NoDup order ->
  let h' := fold_left close_one order h in
  (forall id, id ∈ order -> heap h' !! id =
     (fun sub => closeLocked sub (Some ErrHubClosed)) <$> heap h !! id) /\
  (forall id, id ∉ order -> heap h' !! id = heap h !! id) /\
  ((forall id, id ∈ order -> is_Some (heap h !! id)) ->
   subscribers h' = subscribers h ∖ list_to_set order) /\
  same_frame h h'.
Proof.
  revert h. induction order as [|id order IH]; intros h Hnd; cbn zeta.
  { cbn. split_and!; [set_solver|done| |done]. set_solver. }
  apply NoDup_cons in Hnd as [Hid Hnd]. cbn [fold_left].
  destruct (IH (close_one h id) Hnd) as (I1 & I2 & I3 & F).
  assert (Hone : heap (close_one h id) !! id =
      (fun sub => closeLocked sub (Some ErrHubClosed)) <$> heap h !! id /\
    (forall i, i <> id -> heap (close_one h id) !! i = heap h !! i) /\
    (is_Some (heap h !! id) -> subscribers (close_one h id) = subscribers h ∖ {[id]}) /\
    same_frame h (close_one h id)).
  { unfold close_one. destruct (heap h !! id) eqn:E; cbn.
    - rewrite lookup_insert_eq. split_and!; try done. intros. by rewrite lookup_insert_ne.
    - by split_and!. }
  destruct Hone as (O1 & O2 & O3 & F1). split_and!.
  - intros i [->|Hi]%elem_of_cons; [by rewrite I2|]. rewrite I1, O2; set_solver.
  - intros i Hi. rewrite I2, O2; set_solver.
  - intros Hs. rewrite I3, O3.
    + cbn. set_solver.
    + apply Hs. by left.
    + intros i Hi. rewrite O2 by set_solver. apply Hs. by right.
  - destruct F as (? & ? & ?), F1 as (? & ? & ?). split_and!; congruence.
Qed.

(** ** The system *)

Section System.
Context {J : Type} `{HJ : Journal J} (history : J -> ID -> list SessionEvent).
Context {Hlaws : JournalLaws J history}.
Context (ordered : bool).

(** Besides the journal and the hub: how far each session's publication has
    come, what each client has been given, and which clients wait in [Next]. *)
Record system := {
  sys_journal : J;
  sys_hub : Hub;
  published : gmap ID Z;
  received : gmap Z (list SessionEvent);
  waiting : gset Z;
}.

Definition pub (sys : system) (s : ID) : Z := default 0 (published sys !! s).
Definition got (sys : system) (id : Z) : list SessionEvent := default [] (received sys !! id).

Definition set_hub (sys : system) (h : Hub) : system :=
  {| sys_journal := sys_journal sys; sys_hub := h; published := published sys;
     received := received sys; waiting := waiting sys |}.

Definition put_sub (sys : system) (id : Z) (sub : Subscription) : system :=
  set_hub sys (set_heap (sys_hub sys) (<[id := sub]> (heap (sys_hub sys)))
                 (subscribers (sys_hub sys))).

Definition set_waiting (sys : system) (w : gset Z) : system :=
  {| sys_journal := sys_journal sys; sys_hub := sys_hub sys; published := published sys;
     received := received sys; waiting := w |}.

Definition publish_to (sys : system) (event : SessionEvent) (order : list Z) : system :=
  {| sys_journal := sys_journal sys;
     sys_hub := (PublishCommitted (sys_hub sys) event order).1;
     published := <[SessionEvent_SessionID event :=
         Z.max (pub sys (SessionEvent_SessionID event)) (Sequence event)]> (published sys);
     received := received sys; waiting := waiting sys |}.

Inductive hub_step : system -> system -> Prop :=
| step_commit sys j :
    extends history (sys_journal sys) j ->
    hub_step sys {| sys_journal := j; sys_hub := sys_hub sys; published := published sys;
                    received := received sys; waiting := waiting sys |}
| step_publish sys event order :
    event ∈ history (sys_journal sys) (SessionEvent_SessionID event) ->
    order ≡ₚ elements (subscribers (sys_hub sys)) ->
    (ordered = true -> Sequence event <= pub sys (SessionEvent_SessionID event) + 1) ->
    hub_step sys (publish_to sys event order)
| step_subscribe sys ctx_err seen q h r :
    nextID (sys_hub sys) < max_uint64 -> 0 <= AfterSequence q ->
    (forall n, extends history (sys_journal sys) (seen n)) ->
    Subscribe (sys_hub sys) ctx_err (sys_journal sys) seen q = Some (h, r) ->
    hub_step sys (set_hub sys h)
| step_close sys id reason :
    reason <> Some ErrSlowSubscriber ->
    hub_step sys (set_hub sys (close (sys_hub sys) id reason))
| step_hub_close sys order :
    order ≡ₚ elements (subscribers (sys_hub sys)) ->
    hub_step sys (set_hub sys (Hub_Close (sys_hub sys) order))
| step_next sys id sub sub' event :
    id ∉ waiting sys -> heap (sys_hub sys) !! id = Some sub ->
    Next sub = (sub', NextEvent event) ->
    hub_step sys
      {| sys_journal := sys_journal sys; sys_hub := sys_hub (put_sub sys id sub');
         published := published sys;
         received := <[id := got sys id ++ [event]]> (received sys);
         waiting := waiting sys |}
| step_sleep sys id sub sub' :
    id ∉ waiting sys -> heap (sys_hub sys) !! id = Some sub -> Next sub = (sub', NextBlocks) ->
    hub_step sys (set_waiting sys ({[id]} ∪ waiting sys))
| step_wake_signal sys id sub :
    id ∈ waiting sys -> heap (sys_hub sys) !! id = Some sub -> signal sub = true ->
    hub_step sys (set_waiting (put_sub sys id (set_queue sub (queue sub) false))
                    (waiting sys ∖ {[id]}))
| step_wake_done sys id sub :
    id ∈ waiting sys -> heap (sys_hub sys) !! id = Some sub -> closed sub = true ->
    hub_step sys (set_waiting sys (waiting sys ∖ {[id]}))
| step_wake_cancelled sys id :
    id ∈ waiting sys -> hub_step sys (set_waiting sys (waiting sys ∖ {[id]})).

Definition system_start (j : J) (h : Hub) : system :=
  {| sys_journal := j; sys_hub := h; published := ∅; received := ∅; waiting := ∅ |}.

(** ** The invariant *)

Definition sub_ok (sys : system) (id : Z) (sub : Subscription) : Prop :=
  sub_id sub = id /\ 0 < id <= nextID (sys_hub sys) /\
  sub_capacity sub = capacity (sys_hub sys) /\
  sub_inv ordered (history (sys_journal sys) (Query_SessionID (query sub)))
    (pub sys (Query_SessionID (query sub))) (got sys id)
    (id ∈ subscribers (sys_hub sys)) (id ∈ waiting sys) sub.

Record sys_inv (sys : system) : Prop := {
  si_capacity : 1 <= capacity (sys_hub sys);
  si_next : 0 <= nextID (sys_hub sys) <= max_uint64;
  si_subs : forall id sub, heap (sys_hub sys) !! id = Some sub -> sub_ok sys id sub;
  si_fresh : forall id, heap (sys_hub sys) !! id = None ->
    (id ∉ subscribers (sys_hub sys)) /\ got sys id = [] /\ (id ∉ waiting sys);
  si_pub : forall s, 0 <= pub sys s <= Z.of_nat (length (history (sys_journal sys) s));
  si_closed : hub_closed (sys_hub sys) = true -> subscribers (sys_hub sys) = ∅;
}.

Lemma sys_inv_start j cap h : NewHub cap = Ok h -> sys_inv (system_start j h).
Proof.
  unfold NewHub. destruct (_ || _) eqn:E; [done|]. intros [= <-]. to_prop.
  split; cbn; unfold pub, got; cbn; intros; rewrite ?lookup_empty in *; cbn; try done; try lia.
Qed.

(** Growing the history keeps a subscription's invariant. *)
Lemma sub_inv_grow hist hist' p g (member wait : Prop) sub :
  numbered hist' -> hist `prefix_of` hist' -> p <= Z.of_nat (length hist) ->
  sub_inv ordered hist p g member wait sub -> sub_inv ordered hist' p g member wait sub.
Proof.
  intros Hn [k ->] Hp [R S L O F M A C U].
  assert (Hold : forall event, event ∈ hist ++ k -> Sequence event <= Z.of_nat (length hist) ->
    event ∈ hist).
  { intros event He Hle. destruct (numbered_lookup _ _ Hn He) as [Hat Hr].
    rewrite lookup_app_l in Hat by lia. by eapply list_elem_of_lookup_2. }
  split; auto.
  - rewrite length_app. lia.
  - intros event He. apply F in He as (? & ? & ?). split_and!; auto; [|lia..].
    apply elem_of_app. by left.
  - intros Ho event He Hm Hr. apply C; auto. apply Hold; auto. lia.
  - intros Ho Hc event He Hm Hr. apply U; auto. apply Hold; auto. lia.
Qed.

Ltac sub_ok_split := unfold sub_ok; cbn; refine (conj _ (conj _ (conj _ _))).

Lemma inv_commit sys j :
  sys_inv sys -> extends history (sys_journal sys) j ->
  sys_inv {| sys_journal := j; sys_hub := sys_hub sys; published := published sys;
             received := received sys; waiting := waiting sys |}.
Proof.
  intros [I1 I2 I3 I4 I5 I6] Hext. split; auto; cbn.
  - intros id sub Hs. destruct (I3 id sub Hs) as (H1 & H2 & H3 & H4). sub_ok_split; auto.
    apply (sub_inv_grow (history (sys_journal sys) (Query_SessionID (query sub)))); auto.
    + apply (history_numbered history).
    + apply I5.
  - intros s. destruct (Hext s) as [k Hk]. pose proof (I5 s).
    change (0 <= pub sys s <= Z.of_nat (length (history j s))). rewrite Hk, length_app. lia.
Qed.

(** A subscription that is out of the map does not depend on publication. *)
Lemma sub_inv_closed hist p p' g (wait : Prop) sub :
  sub_inv ordered hist p g False wait sub -> sub_inv ordered hist p' g False wait sub.
Proof. intros [R S L O F M A C U]. split; auto. intros _ Hc. by apply M in Hc. Qed.

Lemma offered_other event sub :
  Query_SessionID (query sub) <> SessionEvent_SessionID event -> offered event sub = sub.
Proof.
  intros Hne. unfold offered, offer, skips.
  destruct (String.eqb_spec (Query_SessionID (query sub)) (SessionEvent_SessionID event)); done.
Qed.

Lemma offered_frame event sub :
  sub_id (offered event sub) = sub_id sub /\ query (offered event sub) = query sub /\
  sub_capacity (offered event sub) = sub_capacity sub.
Proof.
  unfold offered, offer, enqueueLocked, closeLocked, set_after.
  repeat (case_match; simplify_eq; cbn; try done).
Qed.

Lemma pub_publish sys event order s :
  pub (publish_to sys event order) s =
  if decide (s = SessionEvent_SessionID event) then Z.max (pub sys s) (Sequence event) else pub sys s.
Proof.
  unfold pub at 1. cbn. case_decide as E; [subst; by rewrite lookup_insert_eq|].
  by rewrite lookup_insert_ne.
Qed.

(** The hub after a publication, seen from one subscription. *)
Lemma published_sub sys event order :
  sys_inv sys -> event ∈ history (sys_journal sys) (SessionEvent_SessionID event) ->
  order ≡ₚ elements (subscribers (sys_hub sys)) ->
  let h := sys_hub sys in
  let h' := (PublishCommitted h event order).1 in
  (forall id, id ∈ subscribers h -> heap h' !! id = offered event <$> heap h !! id) /\
  (forall id, id ∉ subscribers h -> heap h' !! id = heap h !! id) /\
  (forall id, id ∈ subscribers h' <-> id ∈ subscribers h /\
     forall sub, heap h !! id = Some sub -> closed (offered event sub) = false) /\
  same_frame h h'.
Proof.
  intros Hinv He Hord. cbn zeta. set (h := sys_hub sys).
  assert (Hin : forall id, id ∈ order <-> id ∈ subscribers h)
    by (intros id; by rewrite Hord, elem_of_elements).
  assert (Hnd : NoDup order) by (rewrite Hord; apply NoDup_elements).
  assert (Hv : SessionEvent_Validate event = None).
  { apply list_elem_of_lookup in He as [i Hi]. by apply journal_entry in Hi as (_ & _ & ?). }
  unfold PublishCommitted. rewrite Hv. destruct (hub_closed h) eqn:Hcl.
  { pose proof (si_closed _ Hinv Hcl) as Hempty. fold h in Hempty. cbn.
    split_and!; [rewrite Hempty; set_solver|done|rewrite Hempty; set_solver|done]. }
  cbn zeta. set (h0 := set_metrics h _ _). set (m0 := bump _ _ _ _ _ _).
  destruct (publish_fold_hub event order h0 m0 Hnd) as (H1 & H2 & H3 & F).
  { intros id sub Hid Hs. apply Hin in Hid. destruct (si_subs _ Hinv id sub Hs) as (_ & _ & _ & Hsub).
    by apply (sv_member _ _ _ _ _ _ _ Hsub). }
  destruct (fold_left (publish_one event) order (h0, m0)) as [h1 m1]. cbn in H1, H2, H3, F |- *.
  split_and!.
  - intros id Hid%Hin. by apply H1.
  - intros id Hid. apply H2. by rewrite Hin.
  - intros id. rewrite H3, Hin. naive_solver.
  - apply F.
Qed.

(** A publication, for a subscription the hub holds and for one it does not. *)
Lemma publish_member_ok sys event order id sub :
  sys_inv sys -> event ∈ history (sys_journal sys) (SessionEvent_SessionID event) ->
  order ≡ₚ elements (subscribers (sys_hub sys)) ->
  (ordered = true -> Sequence event <= pub sys (SessionEvent_SessionID event) + 1) ->
  id ∈ subscribers (sys_hub sys) -> heap (sys_hub sys) !! id = Some sub ->
  sub_ok (publish_to sys event order) id (offered event sub).
Proof.
  intros Hinv He Hperm Hord Hin Hs.
  destruct (published_sub sys event order Hinv He Hperm) as (_ & _ & H3 & (F1 & F2 & _)).
  destruct (si_subs _ Hinv id sub Hs) as (S1 & S2 & S3 & S4).
  destruct (offered_frame event sub) as (O1 & O2 & O3). cbn zeta in *.
  unfold sub_ok. rewrite O1, O2, O3. cbn [sys_hub publish_to sys_journal].
  rewrite F1, F2, pub_publish. refine (conj _ (conj _ (conj _ _))); auto.
  assert (Hmem : closed (offered event sub) = false <->
    id ∈ subscribers (PublishCommitted (sys_hub sys) event order).1) by (rewrite H3; naive_solver).
  case_decide as Hses.
  - eapply sub_inv_member; [eapply offer_inv; [|exact S4|..]|exact Hmem]; rewrite ?Hses; auto.
    + apply (history_numbered history).
    + by apply (sv_member _ _ _ _ _ _ _ S4).
  - rewrite offered_other in * by done. eapply sub_inv_member; [exact S4|done].
Qed.

Lemma publish_other_ok sys event order id sub :
  sys_inv sys -> event ∈ history (sys_journal sys) (SessionEvent_SessionID event) ->
  order ≡ₚ elements (subscribers (sys_hub sys)) ->
  id ∉ subscribers (sys_hub sys) -> heap (sys_hub sys) !! id = Some sub ->
  sub_ok (publish_to sys event order) id sub.
Proof.
  intros Hinv He Hperm Hout Hs.
  destruct (published_sub sys event order Hinv He Hperm) as (_ & _ & H3 & (F1 & F2 & _)).
  destruct (si_subs _ Hinv id sub Hs) as (S1 & S2 & S3 & S4). cbn zeta in *.
  unfold sub_ok. cbn [sys_hub publish_to sys_journal].
  rewrite F1, F2. refine (conj _ (conj _ (conj _ _))); auto.
  assert (Hcl : closed sub = false <-> False) by (rewrite (sv_member _ _ _ _ _ _ _ S4); tauto).
  eapply sub_inv_member; [eapply sub_inv_closed, sub_inv_member; [exact S4|exact Hcl]|].
  rewrite (sv_member _ _ _ _ _ _ _ S4), H3. tauto.
Qed.

Lemma inv_publish sys event order :
  sys_inv sys -> event ∈ history (sys_journal sys) (SessionEvent_SessionID event) ->
  order ≡ₚ elements (subscribers (sys_hub sys)) ->
  (ordered = true -> Sequence event <= pub sys (SessionEvent_SessionID event) + 1) ->
  sys_inv (publish_to sys event order).
Proof.
  intros Hinv He Hperm Hord.
  destruct (published_sub sys event order Hinv He Hperm) as (H1 & H2 & H3 & (F1 & F2 & F3)).
  pose proof (numbered_lookup _ _ (history_numbered history _ _) He) as [_ Hrange].
  pose proof Hinv as [I1 I2 _ I4 I5 I6]. cbn zeta in *. split.
  - cbn. by rewrite F1.
  - cbn. by rewrite F2.
  - intros id sub'. cbn [sys_hub publish_to]. intros Hs'.
    destruct (decide (id ∈ subscribers (sys_hub sys))) as [Hin|Hout].
    + rewrite H1 in Hs' by done. apply fmap_Some in Hs' as (sub & Hs & ->).
      by apply publish_member_ok.
    + rewrite H2 in Hs' by done. by apply publish_other_ok.
  - intros id. cbn [sys_hub publish_to]. intros Hn.
    assert (Hn0 : heap (sys_hub sys) !! id = None).
    { destruct (decide (id ∈ subscribers (sys_hub sys))) as [Hin|Hout].
      - rewrite H1 in Hn by done. by apply fmap_None in Hn.
      - by rewrite H2 in Hn. }
    destruct (I4 id Hn0) as (? & ? & ?). split_and!; auto. rewrite H3. tauto.
  - intros s. rewrite pub_publish. cbn [sys_journal publish_to]. pose proof (I5 s).
    case_decide as Es; [subst s|]; lia.
  - cbn [sys_hub publish_to]. rewrite F3. intros Hc. specialize (I6 Hc).
    apply set_eq. intros id. rewrite H3, I6. set_solver.
Qed.
(** A state that differs from another only away from one subscription. *)
Lemma sub_ok_transport sys sys' id sub :
  sub_ok sys id sub -> sys_journal sys' = sys_journal sys ->
  capacity (sys_hub sys') = capacity (sys_hub sys) ->
  nextID (sys_hub sys) <= nextID (sys_hub sys') -> published sys' = published sys ->
  got sys' id = got sys id ->
  (id ∈ subscribers (sys_hub sys') <-> id ∈ subscribers (sys_hub sys)) ->
  (id ∈ waiting sys' -> id ∈ waiting sys) -> sub_ok sys' id sub.
Proof.
  intros (S1 & S2 & S3 & S4) Hj Hc Hn Hp Hg Hm Hw. unfold sub_ok, pub.
  rewrite Hj, Hc, Hp, Hg. refine (conj _ (conj _ (conj _ _))); auto; [lia|].
  destruct S4 as [R S L O F M A C U]. split; auto. by rewrite M, Hm.
Qed.

Lemma inv_subscribe sys ctx_err seen q h r :
  sys_inv sys -> nextID (sys_hub sys) < max_uint64 -> 0 <= AfterSequence q ->
  (forall n, extends history (sys_journal sys) (seen n)) ->
  Subscribe (sys_hub sys) ctx_err (sys_journal sys) seen q = Some (h, r) ->
  sys_inv (set_hub sys h).
Proof.
  intros [I1 I2 I3 I4 I5 I6] Hnext Hq Hext Hsub.
  destruct (Subscribe_cases history (sys_hub sys) ctx_err (sys_journal sys) seen q I1 Hq Hext)
    as (h' & r' & Hsub' & Hr). rewrite Hsub in Hsub'. injection Hsub' as <- <-.
  assert (Hid : wrap_uint64 (nextID (sys_hub sys) + 1) = nextID (sys_hub sys) + 1)
    by (apply wrap_uint64_id; unfold_ranges; lia).
  destruct r as [e|id].
  - destruct Hr as [-> | ->].
    + by split.
    + split; auto; cbn; [rewrite Hid; lia|]. intros i sub Hs.
      eapply sub_ok_transport; [by apply I3|..]; cbn; auto. rewrite Hid. lia.
  - destruct Hr as (Hcl & -> & sub & -> & Hinv). cbn zeta in Hinv. rewrite Hid in *.
    set (id := nextID (sys_hub sys) + 1) in *.
    assert (Hfresh : heap (sys_hub sys) !! id = None).
    { destruct (heap (sys_hub sys) !! id) eqn:E; [|done]. apply I3 in E as (_ & ? & _). lia. }
    pose proof (rv_id _ _ _ _ _ _ _ Hinv) as Hsid. pose proof (rv_query _ _ _ _ _ _ _ Hinv) as Hsq.
    pose proof (rv_capacity _ _ _ _ _ _ _ Hinv) as Hcap.
    destruct (I4 id Hfresh) as (Hno & Hgot & Hnw).
    split; cbn; rewrite ?Hsid; auto; [lia|..].
    + intros i s. destruct (decide (i = id)) as [->|Hne].
      * rewrite lookup_insert_eq. intros [= <-]. sub_ok_split; auto; [unfold id; lia|].
        apply (replayed_live ordered _ _ _ _ _ (pub sys (Query_SessionID q))) in Hinv as HL;
          auto; [|apply I5]. rewrite Hsq.
        change (got (set_hub sys _) id) with (got sys id). rewrite Hgot, Hsid.
        destruct HL as [R S L O F M A C U]. split; auto. rewrite M. set_solver.
      * rewrite lookup_insert_ne by done. intros Hs.
        eapply sub_ok_transport; [by apply I3|..]; cbn; rewrite ?Hsid; auto; [lia|]. set_solver.
    + intros i. destruct (decide (i = id)) as [->|Hne]; [by rewrite lookup_insert_eq|].
      rewrite lookup_insert_ne by done. intros Hn. destruct (I4 i Hn) as (? & ? & ?).
      split_and!; auto. set_solver.
    + congruence.
Qed.

(** Changing one subscription of the heap in place. *)
Lemma inv_update sys sys' id sub' :
  sys_inv sys -> is_Some (heap (sys_hub sys) !! id) ->
  heap (sys_hub sys') = <[id := sub']> (heap (sys_hub sys)) ->
  sys_journal sys' = sys_journal sys -> same_frame (sys_hub sys) (sys_hub sys') ->
  published sys' = published sys ->
  (forall i, i <> id -> got sys' i = got sys i) ->
  (forall i, i <> id -> i ∈ subscribers (sys_hub sys') <-> i ∈ subscribers (sys_hub sys)) ->
  (id ∈ subscribers (sys_hub sys') -> id ∈ subscribers (sys_hub sys)) ->
  (forall i, i <> id -> i ∈ waiting sys' <-> i ∈ waiting sys) ->
  sub_ok sys' id sub' -> sys_inv sys'.
Proof.
  intros [I1 I2 I3 I4 I5 I6] [old Hold] Hh Hj (F1 & F2 & F3) Hp Hg Hm Hm' Hw Hok. split.
  - by rewrite F1.
  - by rewrite F2.
  - intros i sub. rewrite Hh. destruct (decide (i = id)) as [->|Hne].
    + rewrite lookup_insert_eq. by intros [= <-].
    + rewrite lookup_insert_ne by done. intros Hs.
      eapply sub_ok_transport; [by apply I3|..]; auto; [lia|by apply Hw].
  - intros i. rewrite Hh. destruct (decide (i = id)) as [->|Hne]; [by rewrite lookup_insert_eq|].
    rewrite lookup_insert_ne by done. intros (? & ? & ?)%I4.
    rewrite Hg, Hm, Hw by done. auto.
  - intros s. unfold pub. rewrite Hj, Hp. apply I5.
  - rewrite F3. intros Hc. specialize (I6 Hc). apply set_eq. intros i. rewrite <- I6.
    destruct (decide (i = id)) as [->|Hne]; [|by apply Hm]. split; [done|]. rewrite I6. set_solver.
Qed.
Lemma closeLocked_frame sub reason :
  sub_id (closeLocked sub reason) = sub_id sub /\ query (closeLocked sub reason) = query sub /\
  sub_capacity (closeLocked sub reason) = sub_capacity sub.
Proof. unfold closeLocked. by destruct (closed sub). Qed.

(** Closing a subscription and taking it out of the map. *)
Lemma close_sub_ok sys sys' id sub reason :
  sub_ok sys id sub -> sys_journal sys' = sys_journal sys ->
  capacity (sys_hub sys') = capacity (sys_hub sys) -> nextID (sys_hub sys') = nextID (sys_hub sys) ->
  published sys' = published sys -> got sys' id = got sys id ->
  id ∉ subscribers (sys_hub sys') -> waiting sys' = waiting sys ->
  sub_ok sys' id (closeLocked sub reason).
Proof.
  intros (S1 & S2 & S3 & S4) Hj F1 F2 Hp Hg Hm Hw.
  destruct (closeLocked_frame sub reason) as (C1 & C2 & C3).
  unfold sub_ok, pub. rewrite C1, C2, C3, F1, F2, Hj, Hp, Hg, Hw.
  refine (conj _ (conj _ (conj _ _))); auto.
  destruct (close_inv _ _ _ _ _ _ _ reason (pub sys (Query_SessionID (query sub))) S4) as [H1 H2].
  eapply sub_inv_member; [exact H1|]. rewrite H2. naive_solver.
Qed.

Lemma inv_close sys id reason : sys_inv sys -> sys_inv (set_hub sys (close (sys_hub sys) id reason)).
Proof.
  intros Hinv. destruct (heap (sys_hub sys) !! id) as [sub|] eqn:Hs.
  2:{ assert (He : close (sys_hub sys) id reason = sys_hub sys)
        by (unfold close; by rewrite Hs). rewrite He. by destruct Hinv. }
  pose proof (si_subs _ Hinv id sub Hs) as Hok. pose proof Hok as (S1 & _ & _ & S4).
  assert (Hmem : forall i, i ∈ subscribers (close (sys_hub sys) id reason) <->
    i ∈ subscribers (sys_hub sys) /\ i <> id).
  { intros i. unfold close. rewrite Hs. destruct (closed sub) eqn:Hc; cbn.
    - split; [|by intros [? _]]. intros Hi. split; [done|]. intros ->.
      apply (sv_member _ _ _ _ _ _ _ S4) in Hi. congruence.
    - rewrite S1. set_solver. }
  assert (Hheap : heap (close (sys_hub sys) id reason) =
    <[id := closeLocked sub reason]> (heap (sys_hub sys)))
    by (unfold close; rewrite Hs; by destruct (closed sub)).
  assert (Hframe : same_frame (sys_hub sys) (close (sys_hub sys) id reason))
    by (unfold close; rewrite Hs; by destruct (closed sub)).
  eapply (inv_update sys _ id (closeLocked sub reason)); cbn; auto; try done.
  - intros i Hi. rewrite Hmem. naive_solver.
  - rewrite Hmem. naive_solver.
  - eapply close_sub_ok; [exact Hok|..]; cbn; auto; try apply Hframe. rewrite Hmem. naive_solver.
Qed.

Lemma inv_hub_close sys order :
  sys_inv sys -> order ≡ₚ elements (subscribers (sys_hub sys)) ->
  sys_inv (set_hub sys (Hub_Close (sys_hub sys) order)).
Proof.
  intros Hinv Hperm. unfold Hub_Close.
  destruct (hub_closed (sys_hub sys)) eqn:Hcl; [by destruct Hinv|]. cbn zeta.
  assert (Hnd : NoDup order) by (rewrite Hperm; apply NoDup_elements).
  assert (Hin : forall id, id ∈ order <-> id ∈ subscribers (sys_hub sys))
    by (intros id; by rewrite Hperm, elem_of_elements).
  destruct (close_fold_hub order (set_closed (sys_hub sys)) Hnd) as (H1 & H2 & H3 & (F1 & F2 & F3)).
  cbn zeta in *. set (h := fold_left close_one order (set_closed (sys_hub sys))) in *.
  cbn in H1, H2, H3, F1, F2, F3. pose proof Hinv as [I1 I2 I3 I4 I5 I6].
  assert (Hempty : subscribers h = ∅).
  { rewrite H3; [|intros id Hid%Hin].
    - apply set_eq. intros id. rewrite elem_of_difference, elem_of_list_to_set, Hin. set_solver.
    - destruct (heap (sys_hub sys) !! id) eqn:E; [by eexists|]. by apply I4 in E as [? _]. }
  split; cbn; rewrite ?F1, ?F2, ?Hempty; auto.
  - intros id sub' Hs'. destruct (decide (id ∈ order)) as [Ho|Ho].
    + rewrite H1 in Hs' by done. apply fmap_Some in Hs' as (sub & Hs & ->).
      eapply close_sub_ok; [by apply I3|..]; cbn; auto. rewrite Hempty. set_solver.
    + rewrite H2 in Hs' by done. eapply sub_ok_transport; [by apply I3|..]; cbn; auto; [lia|].
      rewrite Hempty. rewrite Hin in Ho. set_solver.
  - intros id Hn. destruct (decide (id ∈ order)) as [Ho|Ho].
    + rewrite H1 in Hn by done. apply fmap_None in Hn. apply I4 in Hn as (? & ? & ?).
      split_and!; auto. set_solver.
    + rewrite H2 in Hn by done. apply I4 in Hn as (? & ? & ?). split_and!; auto. set_solver.
Qed.

Lemma inv_next sys id sub sub' event :
  sys_inv sys -> id ∉ waiting sys -> heap (sys_hub sys) !! id = Some sub ->
  Next sub = (sub', NextEvent event) ->
  sys_inv {| sys_journal := sys_journal sys; sys_hub := sys_hub (put_sub sys id sub');
             published := published sys;
             received := <[id := got sys id ++ [event]]> (received sys);
             waiting := waiting sys |}.
Proof.
  intros Hinv Hw Hs Hn. unfold Next in Hn. destruct (queue sub) as [|x rest] eqn:Hq.
  { by destruct (closed sub). }
  injection Hn as <- <-. destruct (si_subs _ Hinv id sub Hs) as (S1 & S2 & S3 & S4).
  eapply (inv_update sys _ id); cbn; auto; try done; [eauto|..].
  - intros i Hi. unfold got. cbn. by rewrite lookup_insert_ne.
  - sub_ok_split; auto.
    match goal with |- context [got ?y id] =>
      replace (got y id) with (got sys id ++ [x]) by (unfold got at 2; cbn; by rewrite lookup_insert_eq)
    end.
    destruct S4 as [R S L O F M A C U]. rewrite Hq in *.
    split; cbn; auto; rewrite <- ?app_assoc; auto. cbn in R. lia.
Qed.

Lemma inv_sleep sys id sub sub' :
  sys_inv sys -> heap (sys_hub sys) !! id = Some sub -> Next sub = (sub', NextBlocks) ->
  sys_inv (set_waiting sys ({[id]} ∪ waiting sys)).
Proof.
  intros Hinv Hs Hn. unfold Next in Hn. destruct (queue sub) as [|x rest] eqn:Hq; [|done].
  eapply (inv_update sys _ id sub); cbn; auto; try done; [by rewrite insert_id|set_solver|].
  destruct (si_subs _ Hinv id sub Hs) as (S1 & S2 & S3 & S4). sub_ok_split; auto.
  destruct S4 as [R S L O F M A C U]. split; auto.
Qed.

Lemma inv_wake_signal sys id sub :
  sys_inv sys -> heap (sys_hub sys) !! id = Some sub ->
  sys_inv (set_waiting (put_sub sys id (set_queue sub (queue sub) false)) (waiting sys ∖ {[id]})).
Proof.
  intros Hinv Hs. eapply (inv_update sys _ id); cbn; auto; try done; [set_solver|].
  destruct (si_subs _ Hinv id sub Hs) as (S1 & S2 & S3 & S4). sub_ok_split; auto.
  destruct S4 as [R S L O F M A C U]. split; auto. set_solver.
Qed.

Lemma inv_wake sys id : sys_inv sys -> sys_inv (set_waiting sys (waiting sys ∖ {[id]})).
Proof.
  intros [I1 I2 I3 I4 I5 I6]. split; auto.
  - intros i sub Hs. eapply sub_ok_transport; [by apply I3|..]; cbn; auto; [lia|set_solver].
  - intros i (? & ? & ?)%I4. split_and!; auto. set_solver.
Qed.

Lemma sys_inv_step sys sys' : sys_inv sys -> hub_step sys sys' -> sys_inv sys'.
Proof.
  intros Hinv Hst. destruct Hst.
  - by apply inv_commit.
  - by apply inv_publish.
  - by eapply inv_subscribe.
  - by apply inv_close.
  - by apply inv_hub_close.
  - by eapply inv_next.
  - by eapply inv_sleep.
  - by apply inv_wake_signal.
  - by apply inv_wake.
  - by apply inv_wake.
Qed.

Lemma sys_inv_reachable j cap h sys :
  NewHub cap = Ok h -> rtc hub_step (system_start j h) sys -> sys_inv sys.
Proof.
  intros Hh Hr. apply (rtc_invariant hub_step _ _ _ sys_inv_step Hr). by eapply sys_inv_start.
Qed.
(** ** What the invariant says of a client's stream *)

Definition stream (sys : system) (id : Z) (sub : Subscription) : list SessionEvent :=
  got sys id ++ queue sub.

Definition session_history (sys : system) (sub : Subscription) : list SessionEvent :=
  history (sys_journal sys) (Query_SessionID (query sub)).

Lemma reachable_sub j cap h sys id sub :
  NewHub cap = Ok h -> rtc hub_step (system_start j h) sys -> heap (sys_hub sys) !! id = Some sub ->
  sub_ok sys id sub.
Proof. intros Hh Hr Hs. by apply (si_subs _ (sys_inv_reachable j cap h sys Hh Hr)). Qed.

Lemma in_stream_split sys id sub event :
  ascending (stream sys id sub) -> event ∈ stream sys id sub ->
  (exists last, last ∈ got sys id /\ Sequence event <= Sequence last) -> event ∈ got sys id.
Proof.
  unfold stream. rewrite ascending_app. intros (_ & _ & Hlt) He (last & Hl & Hle).
  apply elem_of_app in He as [?|Hq]; [done|]. specialize (Hlt last event Hl Hq). lia.
Qed.
End System.

(** ** The promises, in every reachable state

    The first holds whatever order events are published in; the next two
    assume that a session's events are published in the order they were
    committed, repeats allowed. *)

Section Promises.
Context {J : Type} `{HJ : Journal J} (history : J -> ID -> list SessionEvent).
Context {Hlaws : JournalLaws J history}.
Context (j : J) (cap : Z) (h : Hub) (Hnew : NewHub cap = Ok h).

(** What a subscriber is given, and what waits in its queue, is always an
    ascending run of committed events of its own session that match its
    query and come after the sequence it asked for: no reordering, no repeat
    and nothing foreign, whatever the publishers do; and the queue never
    outgrows the capacity. *)
Theorem stream_is_ordered (ordered : bool) (sys : system) (id : Z) (sub : Subscription) :
  rtc (hub_step history ordered) (system_start j h) sys ->
  heap (sys_hub sys) !! id = Some sub ->
  ascending (stream sys id sub) /\
  (forall event, event ∈ stream sys id sub ->
     event ∈ session_history history sys sub /\ matches sub event = true /\
     AfterSequence (query sub) < Sequence event) /\
  Z.of_nat (length (queue sub)) <= capacity (sys_hub sys).
Proof.
  intros Hr Hs. destruct (reachable_sub history ordered j cap h sys id sub Hnew Hr Hs)
    as (_ & _ & Hcap & [R S L O F M A C U]).
  split_and!; [exact O| |by rewrite <- Hcap]. intros event He.
  destruct (F event He) as (? & ? & ? & ?). auto.
Qed.

(** [C14] No material event is lost: if a session's events are published in
    order, an open subscription has been given, or has queued, every material
    event that matches it, from the sequence it asked for through the replay
    boundary and through everything published since; and even a closed one has
    every such event up to the last it was given, so the client can reconnect
    from there. *)
Theorem material_events_complete (sys : system) (id : Z) (sub : Subscription)
    (event : SessionEvent) :
  rtc (hub_step history true) (system_start j h) sys ->
  heap (sys_hub sys) !! id = Some sub ->
  event ∈ session_history history sys sub ->
  SessionEvent_DeliveryClass event = DeliveryMaterial -> matches sub event = true ->
  AfterSequence (query sub) < Sequence event ->
  (closed sub = false ->
   Sequence event <= Z.max (liveBoundary sub) (pub sys (Query_SessionID (query sub))) ->
   event ∈ stream sys id sub) /\
  (forall last, last ∈ got sys id -> Sequence event <= Sequence last -> event ∈ got sys id).
Proof.
  intros Hr Hs He Hm Hmatch Hafter.
  destruct (reachable_sub history true j cap h sys id sub Hnew Hr Hs)
    as (_ & _ & _ & [R S L O F M A C U]).
  assert (Hmm : material_match sub event) by (split; [by apply not_ephemeral_material|done]).
  split.
  - intros Hc Hle. apply C; auto. split; [done|].
    destruct (Z.max_spec (liveBoundary sub) (pub sys (Query_SessionID (query sub))))
      as [[_ Hmax]|[_ Hmax]]; rewrite Hmax in Hle; [by apply U|lia].
  - intros last Hl Hle. eapply in_stream_split; [exact O| |by exists last].
    apply C; auto. split; [done|].
    destruct (F last) as (_ & _ & _ & ?); [apply elem_of_app; by left|]. lia.
Qed.

(** Reconnecting is safe: a client that subscribes again with the same
    filter from the last sequence it was given sees, over the two
    subscriptions together, an ascending stream with every matching material
    event through the new replay boundary exactly once. *)
Theorem reconnect_is_seamless (sys : system) (a b : Z) (first second : Subscription)
    (last event : SessionEvent) :
  rtc (hub_step history true) (system_start j h) sys ->
  heap (sys_hub sys) !! a = Some first -> heap (sys_hub sys) !! b = Some second ->
  Query_SessionID (query second) = Query_SessionID (query first) ->
  Query_ThreadID (query second) = Query_ThreadID (query first) ->
  Query_TaskID (query second) = Query_TaskID (query first) ->
  last ∈ got sys a -> (forall x, x ∈ got sys a -> Sequence x <= Sequence last) ->
  AfterSequence (query second) = Sequence last ->
  ascending (got sys a ++ stream sys b second) /\
  (event ∈ session_history history sys first ->
   SessionEvent_DeliveryClass event = DeliveryMaterial -> matches first event = true ->
   AfterSequence (query first) < Sequence event <= liveBoundary second ->
   event ∈ got sys a ++ stream sys b second).
Proof.
  intros Hr Ha Hb Hses Hthr Htsk Hl Hlast Hafter.
  destruct (reachable_sub history true j cap h sys a first Hnew Hr Ha)
    as (_ & _ & _ & [R1 S1 L1 O1 F1 M1 A1 C1 U1]).
  destruct (reachable_sub history true j cap h sys b second Hnew Hr Hb)
    as (_ & _ & _ & [R2 S2 L2 O2 F2 M2 A2 C2 U2]).
  split.
  - apply ascending_app. pose proof O1 as (Hg & _ & _)%ascending_app. split_and!; [done|done|].
    intros x y Hx Hy. specialize (Hlast x Hx). destruct (F2 y Hy) as (_ & _ & ? & _). lia.
  - intros He Hm Hmatch Hrange. apply not_ephemeral_material in Hm. rewrite elem_of_app.
    destruct (decide (Sequence event <= Sequence last)) as [Hle|Hgt].
    + left. eapply in_stream_split; [exact O1| |by exists last].
      apply C1; [done|done|by split|]. split; [lia|].
      destruct (F1 last) as (_ & _ & _ & ?); [apply elem_of_app; by left|]. lia.
    + right. apply C2; [done|by rewrite Hses| |lia]. split; [done|].
      unfold matches in *. by rewrite Hthr, Htsk.
Qed.

(** No wake-up is lost: a client waiting inside [Next] whose subscription
    has an event queued, or has been closed, can always be woken by the
    subscription itself, its context apart. *)
Theorem waiting_client_wakes (ordered : bool) (sys : system) (id : Z) (sub : Subscription) :
  rtc (hub_step history ordered) (system_start j h) sys ->
  heap (sys_hub sys) !! id = Some sub -> id ∈ waiting sys ->
  queue sub <> [] \/ closed sub = true ->
  (signal sub = true \/ closed sub = true) /\
  exists sys', hub_step history ordered sys sys' /\ (id ∉ waiting sys') /\
    queue <$> heap (sys_hub sys') !! id = Some (queue sub).
Proof.
  intros Hr Hs Hw Hready. destruct (reachable_sub history ordered j cap h sys id sub Hnew Hr Hs)
    as (_ & _ & _ & [R S L O F M A C U]).
  assert (Hwake : signal sub = true \/ closed sub = true).
  { destruct Hready as [Hq|?]; [|by right]. left. by destruct (A Hw). }
  split; [done|]. destruct Hwake as [Hsig|Hc].
  - eexists. split; [by eapply step_wake_signal|]. cbn. rewrite lookup_insert_eq. set_solver.
  - eexists. split; [by eapply step_wake_done|]. cbn. rewrite Hs. set_solver.
Qed.
End Promises.

(** ** A journal in memory

    An implementation of the journal the promises can be applied to: numbered
    histories kept per session. *)

Definition entry_ok (s : ID) (i : nat) (event : SessionEvent) : bool :=
  (Sequence event =? Z.of_nat i + 1) && (SessionEvent_SessionID event =? s)%string &&
  is_nil (SessionEvent_Validate event).

Definition memory_ok (m : gmap ID (list SessionEvent)) : bool :=
  forallb (fun '(s, l) => forallb (fun p => p) (imap (entry_ok s) l)) (map_to_list m).

Record memoryJournal := {
  entries : gmap ID (list SessionEvent);
  entries_ok : memory_ok entries = true;
}.

Definition memory_history (m : memoryJournal) (s : ID) : list SessionEvent :=
  default [] (entries m !! s).

#[export] Instance memory_journal : Journal memoryJournal := {
  CommittedSequence m s := Ok (Z.of_nat (length (memory_history m s)));
  ReplayCommitted m s after limit :=
    Ok (take (Z.to_nat limit) (drop (Z.to_nat after) (memory_history m s)));
}.

#[export] Instance memory_laws : JournalLaws memoryJournal memory_history.
Proof.
  split.
  - intros [m Hm] s i event. unfold memory_history. cbn. destruct (m !! s) as [l|] eqn:Hs; [|done].
    cbn. intros Hi. unfold memory_ok in Hm. rewrite forallb_forall in Hm.
    specialize (Hm (s, l)). cbn in Hm. rewrite forallb_forall in Hm.
    assert (Hok : entry_ok s i event = true).
    { apply Hm; [apply list_elem_of_In; by apply elem_of_map_to_list|].
      apply list_elem_of_In, list_elem_of_lookup. exists i. by rewrite list_lookup_imap, Hi. }
    unfold entry_ok in Hok. to_prop. destruct Hok as [[? ?] Hv]. split_and!; auto.
    by destruct (SessionEvent_Validate event).
  - by intros m s n [= <-].
  - by intros m s after limit events _ _ [= <-].
Qed.

(** ** A run

    One subscriber, and two material events published in order, or not. *)

Definition journal_of (l : list SessionEvent) (ok : memory_ok {["ses" := l]} = true)
    : memoryJournal := {| entries := {["ses" := l]}; entries_ok := ok |}.

Definition journal_0 : memoryJournal := {| entries := ∅; entries_ok := eq_refl |}.
Definition journal_2 : memoryJournal := journal_of [final_event 1; final_event 2] eq_refl.

Definition from_start : SubscriptionQuery :=
  {| Query_SessionID := "ses"; Query_ThreadID := None; Query_TaskID := None; AfterSequence := 0 |}.

Definition hub_of (cap : Z) : Hub :=
  match NewHub cap with Ok h => h | Err _ => {| capacity := 0; nextID := 0; heap := ∅;
    subscribers := ∅; global := Metrics_zero; bySession := ∅; hub_closed := true |} end.

Definition subscribed (h : Hub) (j : memoryJournal) (q : SubscriptionQuery) : Hub :=
  match Subscribe h None j (fun _ => j) q with Some (h', _) => h' | None => h end.

Definition run_0 : system := system_start journal_0 (hub_of 2).
Definition run_1 : system := set_hub run_0 (subscribed (hub_of 2) journal_0 from_start).
Definition run_2 : system :=
  {| sys_journal := journal_2; sys_hub := sys_hub run_1; published := published run_1;
     received := received run_1; waiting := waiting run_1 |}.

Definition publish_all (sys : system (J := memoryJournal)) (event : SessionEvent) : system :=
  publish_to sys event (elements (subscribers (sys_hub sys))).

Definition in_order : system := publish_all (publish_all run_2 (final_event 1)) (final_event 2).
Definition out_of_order : system := publish_all (publish_all run_2 (final_event 2)) (final_event 1).

Lemma run_2_reachable ordered : rtc (hub_step memory_history ordered) run_0 run_2.
Proof.
  eapply rtc_l; [|eapply rtc_l; [|apply rtc_refl]].
  - apply (step_subscribe _ _ run_0 None (fun _ => journal_0) from_start
      (sys_hub run_1) (Ok 1)).
    + reflexivity.
    + cbn. lia.
    + by intros _ s.
    + vm_compute. reflexivity.
  - apply (step_commit _ _ run_1 journal_2). intros s. apply prefix_nil.
Qed.

Lemma journal_2_history : memory_history journal_2 "ses" = [final_event 1; final_event 2].
Proof. vm_compute. reflexivity. Qed.

(** Publishing an event of the second journal is a step. *)
Lemma publish_all_step ordered sys event :
  sys_journal sys = journal_2 -> event ∈ [final_event 1; final_event 2] ->
  (ordered = true -> Sequence event <= pub sys "ses" + 1) ->
  hub_step memory_history ordered sys (publish_all sys event).
Proof.
  intros Hj He Hord.
  assert (Hses : SessionEvent_SessionID event = "ses") by (set_unfold in He; naive_solver).
  apply step_publish; rewrite ?Hses, ?Hj, ?journal_2_history; auto.
Qed.

Lemma in_order_reachable : rtc (hub_step memory_history true) run_0 in_order.
Proof.
  etrans; [apply run_2_reachable|].
  eapply rtc_l; [|eapply rtc_l; [|apply rtc_refl]].
  - apply publish_all_step; [done|by left|]. intros _. vm_compute. discriminate.
  - apply publish_all_step; [done|by right; left|]. intros _. vm_compute. discriminate.
Qed.

Lemma out_of_order_reachable : rtc (hub_step memory_history false) run_0 out_of_order.
Proof.
  etrans; [apply run_2_reachable|].
  eapply rtc_l; [|eapply rtc_l; [|apply rtc_refl]].
  - apply publish_all_step; [done|by right; left|done].
  - apply publish_all_step; [done|by left|done].
Qed.

(** The subscription of a run, read back from its hub. *)
Definition first_sub (sys : system (J := memoryJournal)) : option Subscription :=
  heap (sys_hub sys) !! 1.

Definition sub_of (sys : system (J := memoryJournal)) : Subscription :=
  match first_sub sys with
  | Some sub => sub
  | None => new_subscription (hub_of 2) from_start 0
  end.

Lemma in_order_sub : heap (sys_hub in_order) !! 1 = Some (sub_of in_order).
Proof. vm_compute. reflexivity. Qed.

Lemma out_of_order_sub : heap (sys_hub out_of_order) !! 1 = Some (sub_of out_of_order).
Proof. vm_compute. reflexivity. Qed.

Lemma stream_is_ordered_witness :
  ascending (stream out_of_order 1 (sub_of out_of_order)) /\
  Z.of_nat (length (queue (sub_of out_of_order))) <= capacity (sys_hub out_of_order).
Proof.
  destruct (stream_is_ordered memory_history journal_0 2 (hub_of 2) eq_refl false out_of_order 1
    (sub_of out_of_order) out_of_order_reachable out_of_order_sub) as (H1 & _ & H2).
  split; [exact H1|exact H2].
Defined.

Lemma material_events_complete_witness :
  final_event 2 ∈ stream in_order 1 (sub_of in_order).
Proof.
  apply (proj1 (material_events_complete memory_history journal_0 2 (hub_of 2) eq_refl in_order 1
    (sub_of in_order) (final_event 2) in_order_reachable in_order_sub
    ltac:(vm_compute; right; left) eq_refl eq_refl eq_refl)).
  - vm_compute. reflexivity.
  - vm_compute. discriminate.
Defined.

(** Publication order matters. Committing and publishing are two separate
    critical sections of the callers, so two of them can publish events 1 and
    2 the wrong way round; then the open, empty-queued subscription is never
    given event 1, a material event that matches it, and publishing event 1
    again changes nothing for it. *)
Theorem out_of_order_publication_drops :
  exists sys sub event,
    rtc (hub_step memory_history false) run_0 sys /\
    heap (sys_hub sys) !! 1 = Some sub /\ closed sub = false /\
    event ∈ session_history memory_history sys sub /\
    SessionEvent_DeliveryClass event = DeliveryMaterial /\ matches sub event = true /\
    AfterSequence (query sub) < Sequence event <= pub sys "ses" /\
    ~ event ∈ stream sys 1 sub /\
    offered event sub = sub.
Proof.
  exists out_of_order, (sub_of out_of_order), (final_event 1).
  split; [exact out_of_order_reachable|]. split; [exact out_of_order_sub|].
  split; [vm_compute; reflexivity|].
  split; [unfold session_history; change (sys_journal out_of_order) with journal_2;
    change (Query_SessionID (query (sub_of out_of_order))) with "ses"|].
  { rewrite journal_2_history. by left. }
  split; [reflexivity|]. split; [vm_compute; reflexivity|].
  split; [vm_compute; split; [reflexivity|discriminate]|].
  split; [|vm_compute; reflexivity].
  assert (Hs : Sequence <$> stream out_of_order 1 (sub_of out_of_order) = [2])
    by (vm_compute; reflexivity).
  intros Hin%(list_elem_of_fmap_2 Sequence). rewrite Hs in Hin.
  by apply list_elem_of_singleton in Hin.
Qed.

(** A client that waits before the first event arrives. *)
Definition asleep : system := set_waiting run_2 {[1]}.
Definition roused : system := publish_all asleep (final_event 1).

Lemma roused_reachable : rtc (hub_step memory_history true) run_0 roused.
Proof.
  etrans; [apply run_2_reachable|]. eapply rtc_l; [|eapply rtc_l; [|apply rtc_refl]].
  - replace asleep with (set_waiting run_2 ({[1]} ∪ waiting run_2)) by (vm_compute; reflexivity).
    apply (step_sleep _ _ run_2 1 (sub_of run_2) (sub_of run_2)).
    + apply not_elem_of_empty.
    + vm_compute. reflexivity.
    + vm_compute. reflexivity.
  - apply publish_all_step; [done|by left|]. intros _. vm_compute. discriminate.
Qed.

Lemma roused_sub : heap (sys_hub roused) !! 1 = Some (sub_of roused).
Proof. vm_compute. reflexivity. Qed.

Lemma waiting_client_wakes_witness :
  signal (sub_of roused) = true \/ closed (sub_of roused) = true.
Proof.
  apply (proj1 (waiting_client_wakes memory_history journal_0 2 (hub_of 2) eq_refl true roused 1
    (sub_of roused) roused_reachable roused_sub ltac:(apply elem_of_singleton; reflexivity)
    ltac:(left; vm_compute; discriminate))).
Defined.

(** A client that takes one event, closes, and subscribes again from it. *)
Definition took_one : system :=
  {| sys_journal := sys_journal in_order;
     sys_hub := sys_hub (put_sub in_order 1 (Next (sub_of in_order)).1);
     published := published in_order;
     received := <[1 := got in_order 1 ++ [final_event 1]]> (received in_order);
     waiting := waiting in_order |}.

Definition hung_up : system := set_hub took_one (Subscription_Close (sys_hub took_one) 1).

Definition from_one : SubscriptionQuery :=
  {| Query_SessionID := "ses"; Query_ThreadID := None; Query_TaskID := None; AfterSequence := 1 |}.

Definition reconnected : system :=
  set_hub hung_up (subscribed (sys_hub hung_up) journal_2 from_one).

Lemma reconnected_reachable : rtc (hub_step memory_history true) run_0 reconnected.
Proof.
  etrans; [exact in_order_reachable|].
  eapply rtc_l; [|eapply rtc_l; [|eapply rtc_l; [|apply rtc_refl]]].
  - apply (step_next _ _ in_order 1 (sub_of in_order) (Next (sub_of in_order)).1 (final_event 1)).
    + apply not_elem_of_empty.
    + exact in_order_sub.
    + vm_compute. reflexivity.
  - by apply (step_close _ _ took_one 1 None).
  - apply (step_subscribe _ _ hung_up None (fun _ => journal_2) from_one
      (sys_hub reconnected) (Ok 2)).
    + vm_compute. reflexivity.
    + cbn. lia.
    + by intros _ s.
    + vm_compute. reflexivity.
Qed.

Definition second_sub : Subscription :=
  match heap (sys_hub reconnected) !! 2 with Some sub => sub | None => sub_of reconnected end.

Lemma reconnect_is_seamless_witness :
  ascending (got reconnected 1 ++ stream reconnected 2 second_sub) /\
  final_event 2 ∈ got reconnected 1 ++ stream reconnected 2 second_sub.
Proof.
  destruct (reconnect_is_seamless memory_history journal_0 2 (hub_of 2) eq_refl reconnected 1 2
    (sub_of reconnected) second_sub (final_event 1) (final_event 2)) as [H1 H2].
  - exact reconnected_reachable.
  - vm_compute. reflexivity.
  - vm_compute. reflexivity.
  - vm_compute. reflexivity.
  - vm_compute. reflexivity.
  - vm_compute. reflexivity.
  - vm_compute. left.
  - intros x Hx. change (got reconnected 1) with [final_event 1] in Hx.
    apply list_elem_of_singleton in Hx as ->. lia.
  - vm_compute. reflexivity.
  - split; [exact H1|]. apply H2.
    + vm_compute. right. left.
    + vm_compute. reflexivity.
    + vm_compute. reflexivity.
    + vm_compute. split; [reflexivity|discriminate].
Defined.
