(* ===== verification/HubMetrics.v ===== *)
(** * The hub's counters of open subscriptions

    [Metrics.Active] is a [uint64] the code increments and decrements in four
    places, for the hub and for each session. It is the number of
    subscriptions in the map, in every reachable state: the decrements never
    pass zero, and the local copy a publication works on is written back. *)

From S2P Require Import Prelude GoText States PolicyValues SessionEvents Hub HubFacts HubSystem.
Open Scope string_scope.
Open Scope list_scope.
Open Scope Z_scope.

(** ** Sizes of sets of identities *)

Definition count (X : gset Z) : Z := Z.of_nat (size X).

Lemma count_remove (X : gset Z) id : id ∈ X -> count (X ∖ {[id]}) = count X - 1 /\ 1 <= count X.
Proof.
  intros Hin. unfold count.
  assert (Hx : X = {[id]} ∪ (X ∖ {[id]})) by (apply union_difference_singleton_L; done).
  pose proof (f_equal size Hx) as Hs. rewrite size_union, size_singleton in Hs by set_solver. lia.
Qed.

Lemma count_add (X : gset Z) id : id ∉ X -> count ({[id]} ∪ X) = count X + 1.
Proof. intros Hn. unfold count. rewrite size_union by set_solver. rewrite size_singleton. lia. Qed.

Lemma count_bound (X : gset Z) n :
  0 <= n -> (forall id, id ∈ X -> 0 < id <= n) -> 0 <= count X <= n.
Proof.
  intros Hn Hr. unfold count. split; [lia|].
  assert (Hsub : X ⊆ list_to_set (seqZ 1 n)).
  { intros id Hid%Hr. apply elem_of_list_to_set, elem_of_seqZ. lia. }
  apply subseteq_size in Hsub. rewrite size_list_to_set in Hsub by apply NoDup_seqZ.
  rewrite length_seqZ in Hsub. lia.
Qed.

Lemma count_le (X Y : gset Z) : X ⊆ Y -> count X <= count Y.
Proof. intros H%subseteq_size. unfold count. lia. Qed.

(** ** Who is counted *)

Definition session_of (h : Hub) (id : Z) : option ID :=
  (fun sub => Query_SessionID (query sub)) <$> heap h !! id.

Definition members_of (h : Hub) (s : ID) : gset Z :=
  filter (fun id => session_of h id = Some s) (subscribers h).

Lemma elem_of_members h s id :
  id ∈ members_of h s <-> session_of h id = Some s /\ id ∈ subscribers h.
Proof. unfold members_of. by rewrite elem_of_filter. Qed.

Lemma members_of_ext h h' s :
  (forall id, session_of h' id = Some s /\ id ∈ subscribers h' <->
              session_of h id = Some s /\ id ∈ subscribers h) ->
  members_of h' s = members_of h s.
Proof. intros H. apply set_eq. intros id. rewrite !elem_of_members. apply H. Qed.

Definition counted (h : Hub) : Prop :=
  Active (global h) = count (subscribers h) /\
  forall s, Active (session_metrics h s) = count (members_of h s).

(** The sum on a [uint64] counter that stays in range. *)
Lemma Active_bump m a p d c f :
  uint64_range (Active m + a) -> Active (bump m a p d c f) = Active m + a.
Proof. intros H. cbn. by apply wrap_uint64_id. Qed.

Lemma session_metrics_insert h g by_session s m s' :
  session_metrics (set_metrics h g (<[s := m]> by_session)) s' =
  if decide (s' = s) then m else default Metrics_zero (by_session !! s').
Proof.
  unfold session_metrics. cbn. case_decide as E; [subst; by rewrite lookup_insert_eq|].
  by rewrite lookup_insert_ne.
Qed.

(** ** Publication *)

(** The counters in the middle of a publication to [session]: the session's
    own are in the local copy. *)
Record counting (session : ID) (h : Hub) (local : Metrics) : Prop := {
  ct_global : Active (global h) = count (subscribers h);
  ct_local : Active local = count (members_of h session);
  ct_others : forall s, s <> session -> Active (session_metrics h s) = count (members_of h s);
  ct_range : count (subscribers h) <= max_uint64;
}.

Lemma members_range h s : count (subscribers h) <= max_uint64 -> uint64_range (count (members_of h s)).
Proof.
  intros Hr. split; [unfold count; lia|]. etrans; [|exact Hr].
  apply count_le. intros id Hid%elem_of_members. tauto.
Qed.

Lemma count_range h : count (subscribers h) <= max_uint64 -> uint64_range (count (subscribers h)).
Proof. intros Hr. split; [unfold count; lia|done]. Qed.

(** Counters that move by nothing but deliveries keep their [Active]. *)
Lemma Active_same m p d c f : uint64_range (Active m) -> Active (bump m 0 p d c f) = Active m.
Proof. intros H. rewrite Active_bump; rewrite Z.add_0_r; done. Qed.

Lemma counting_update session h local id sub sub' (forced : bool) g local' :
  counting session h local -> heap h !! id = Some sub -> query sub' = query sub ->
  id ∈ subscribers h -> Query_SessionID (query sub) = session ->
  Active g = Active (global h) + (if forced then -1 else 0) ->
  Active local' = Active local + (if forced then -1 else 0) ->
  let members := if forced then subscribers h ∖ {[id]} else subscribers h in
  counting session
    (set_metrics (set_heap h (<[id := sub']> (heap h)) members) g (bySession h)) local'.
Proof.
  intros [G L O R] Hs Hq Hin Hses Hg Hl members.
  set (h' := set_metrics _ _ _).
  assert (Hso : forall i, session_of h' i = session_of h i).
  { intros i. unfold h', session_of. cbn. destruct (decide (i = id)) as [->|Hi].
    - rewrite lookup_insert_eq, Hs. cbn. by rewrite Hq.
    - by rewrite lookup_insert_ne. }
  assert (Hid : session_of h id = Some session) by (unfold session_of; rewrite Hs; cbn; by rewrite Hses).
  assert (Hmine : members_of h' session =
    if forced then members_of h session ∖ {[id]} else members_of h session).
  { apply set_eq. intros i. destruct forced; rewrite ?elem_of_difference, !elem_of_members, Hso;
      unfold h', members; cbn; set_solver. }
  destruct (count_remove (subscribers h) id Hin) as [Hc1 Hc2].
  destruct (count_remove (members_of h session) id) as [Hc3 Hc4]; [by apply elem_of_members|].
  split.
  - unfold h', members. cbn. rewrite Hg, G. destruct forced; lia.
  - rewrite Hmine, Hl, L. destruct forced; lia.
  - intros s Hne. change (session_metrics h' s) with (session_metrics h s). rewrite O by done. f_equal.
    symmetry. apply members_of_ext. intros i. rewrite Hso. unfold h', members. cbn.
    destruct forced; [|done]. rewrite elem_of_difference, elem_of_singleton.
    split; [tauto|]. intros [H1 H2]. split_and!; auto. intros ->. congruence.
  - unfold h', members. cbn. destruct forced; lia.
Qed.

Lemma counting_publish_one event h local id sub :
  counting (SessionEvent_SessionID event) h local ->
  id ∈ subscribers h -> heap h !! id = Some sub ->
  counting (SessionEvent_SessionID event) (publish_one event (h, local) id).1
    (publish_one event (h, local) id).2.
Proof.
  intros Hc Hin Hs. unfold publish_one. rewrite Hs.
  destruct (String.eqb_spec (Query_SessionID (query sub)) (SessionEvent_SessionID event)) as [Hses|];
    cbn [negb orb]; [|done].
  destruct (_ || _); [done|].
  assert (Hq : query (enqueueLocked sub event).1.1 = query sub)
    by (unfold enqueueLocked; repeat (case_match; cbn; try done)).
  destruct (enqueueLocked sub event) as [[sub' delivered] coalesced]. cbn [fst] in Hq.
  pose proof (count_range h (ct_range _ _ _ Hc)) as HR.
  pose proof (members_range h (SessionEvent_SessionID event) (ct_range _ _ _ Hc)) as HM.
  destruct (count_remove (subscribers h) id Hin) as [_ Hc2].
  destruct (count_remove (members_of h (SessionEvent_SessionID event)) id) as [_ Hc4].
  { apply elem_of_members. unfold session_of. rewrite Hs. cbn. by rewrite Hses. }
  rewrite <- (ct_global _ _ _ Hc) in HR, Hc2. rewrite <- (ct_local _ _ _ Hc) in HM, Hc4.
  set (d := if delivered then 1 else 0). set (c := if coalesced then 1 else 0).
  pose proof (Active_same (global h) 0 d c 0 HR) as HG.
  pose proof (Active_same local 0 d c 0 HM) as HL.
  destruct (_ && _)%bool eqn:Hforced; cbn [fst snd].
  - apply (counting_update _ h local id sub _ true); auto.
    + unfold closeLocked. destruct delivered, (closed _); done.
    + rewrite Active_bump, HG; [done|]. unfold_ranges. lia.
    + rewrite Active_bump, HL; [done|]. unfold_ranges. lia.
  - apply (counting_update _ h local id sub _ false); auto; [by destruct delivered|lia|lia].
Qed.

Lemma counting_fold event order h local :
  NoDup order -> counting (SessionEvent_SessionID event) h local ->
  (forall id, id ∈ order -> id ∈ subscribers h) ->
  (forall id, id ∈ order -> exists sub, heap h !! id = Some sub /\ closed sub = false) ->
  let acc := fold_left (publish_one event) order (h, local) in
  counting (SessionEvent_SessionID event) acc.1 acc.2.
Proof.
  revert h local. induction order as [|id order IH]; intros h local Hnd Hc Hin Hheap; [done|].
  apply NoDup_cons in Hnd as [Hid Hnd]. cbn zeta in *. cbn [fold_left].
  destruct (Hheap id) as (sub & Hs & Hcl); [by left|].
  destruct (publish_one_hub event h local id) as (_ & H2 & H3 & _).
  { intros s Hs'. congruence. }
  pose proof (counting_publish_one event h local id sub Hc (Hin id ltac:(by left)) Hs) as Hc'.
  destruct (publish_one event (h, local) id) as [h' local']. cbn in *.
  assert (Hne : forall i, i ∈ order -> i <> id) by (intros i Hi ->; done).
  apply IH; auto.
  - intros i Hi. apply H3. split; [apply Hin; by right|]. intros ->. by destruct (Hne id Hi).
  - intros i Hi. rewrite H2 by auto. apply Hheap. by right.
Qed.

(** ** The other operations *)

Lemma counted_put h id sub sub' :
  heap h !! id = Some sub -> query sub' = query sub -> counted h ->
  counted (set_heap h (<[id := sub']> (heap h)) (subscribers h)).
Proof.
  intros Hs Hq [G S]. split; [done|]. intros s.
  change (session_metrics (set_heap h _ _) s) with (session_metrics h s). rewrite S. f_equal.
  symmetry. apply members_of_ext. intros i. unfold session_of. cbn.
  destruct (decide (i = id)) as [->|Hi]; [|by rewrite lookup_insert_ne].
  rewrite lookup_insert_eq, Hs. cbn. by rewrite Hq.
Qed.

Lemma counted_register h sub :
  counted h -> heap h !! sub_id sub = None -> sub_id sub ∉ subscribers h ->
  count (subscribers h) < max_uint64 -> counted (register h sub).
Proof.
  intros [G S] Hfresh Hout Hr. unfold register. cbn zeta.
  set (h1 := set_heap h _ _). set (session := Query_SessionID (query sub)).
  assert (Hmem : forall s, members_of h1 s =
    if decide (s = session) then {[sub_id sub]} ∪ members_of h s else members_of h s).
  { intros s. apply set_eq. intros i.
    transitivity (session_of h1 i = Some s /\ i ∈ {[sub_id sub]} ∪ subscribers h);
      [by rewrite elem_of_members|].
    unfold session_of, h1. cbn. destruct (decide (i = sub_id sub)) as [->|Hi].
    - rewrite lookup_insert_eq. cbn. fold session. case_decide as Es; [set_solver|].
      rewrite elem_of_members. naive_solver.
    - rewrite lookup_insert_ne by done. fold (session_of h i).
      case_decide; rewrite ?elem_of_union, ?elem_of_members; set_solver. }
  assert (Hsm : forall s, count (members_of h s) <= count (subscribers h)).
  { intros s. apply count_le. intros i Hi%elem_of_members. tauto. }
  split.
  - cbn. rewrite wrap_uint64_id, G, count_add; [done|done|]. rewrite G. unfold_ranges. unfold count in *. lia.
  - intros s. rewrite session_metrics_insert.
    change (members_of (set_metrics h1 _ _) s) with (members_of h1 s). rewrite Hmem.
    case_decide as Es; [|apply S]. subst s.
    change (session_metrics h1 session) with (session_metrics h session).
    rewrite Active_bump, S, count_add; [done|..].
    + rewrite elem_of_members. tauto.
    + rewrite S. specialize (Hsm session). unfold_ranges. unfold count in *. lia.
Qed.

(** Taking an open subscription out of the map, with the counters of its
    session, leaves the others' alone. *)
Lemma members_without h id sub sub' s :
  heap h !! id = Some sub -> query sub' = query sub -> id ∈ subscribers h ->
  members_of (set_heap h (<[id := sub']> (heap h)) (subscribers h ∖ {[id]})) s =
  if decide (s = Query_SessionID (query sub)) then members_of h s ∖ {[id]} else members_of h s.
Proof.
  intros Hs Hq Hin. apply set_eq. intros i. set (h' := set_heap _ _ _).
  assert (Hso : session_of h' i = session_of h i).
  { unfold h', session_of. cbn. destruct (decide (i = id)) as [->|Hi].
    - rewrite lookup_insert_eq, Hs. cbn. by rewrite Hq.
    - by rewrite lookup_insert_ne. }
  rewrite elem_of_members, Hso. unfold h'. cbn.
  case_decide as Es; rewrite ?elem_of_difference, ?elem_of_members, ?elem_of_singleton; [tauto|].
  split; [tauto|]. intros [H1 H2]. split_and!; auto. intros ->.
  unfold session_of in H1. rewrite Hs in H1. cbn in H1. congruence.
Qed.

Lemma counted_close h id sub reason :
  heap h !! id = Some sub -> sub_id sub = id -> (closed sub = false <-> id ∈ subscribers h) ->
  count (subscribers h) <= max_uint64 -> counted h -> counted (close h id reason).
Proof.
  intros Hs Hsid Hmem Hr Hc. unfold close. rewrite Hs. cbn zeta.
  assert (Hq : query (closeLocked sub reason) = query sub) by apply closeLocked_frame.
  destruct (closed sub) eqn:Hcl; cbn [negb]; [by eapply counted_put|].
  assert (Hin : id ∈ subscribers h) by tauto. rewrite Hsid. destruct Hc as [G S].
  destruct (count_remove (subscribers h) id Hin) as [C1 C2]. split.
  - cbn. rewrite wrap_uint64_id, G, C1; [lia|]. rewrite G. unfold_ranges. lia.
  - intros s. rewrite session_metrics_insert.
    change (members_of (set_metrics _ _ _) s) with (members_of (set_heap h
      (<[id := closeLocked sub reason]> (heap h)) (subscribers h ∖ {[id]})) s).
    rewrite (members_without h id sub _ s Hs Hq Hin).
    case_decide as Es; [|apply S]. subst s.
    destruct (count_remove (members_of h (Query_SessionID (query sub))) id) as [C3 C4].
    { apply elem_of_members. unfold session_of. by rewrite Hs. }
    pose proof (members_range h (Query_SessionID (query sub)) Hr) as HM.
    rewrite Active_bump, S, C3; [lia|]. rewrite S. unfold_ranges. lia.
Qed.

(** The loop of [Hub.Close] keeps the sessions' counters exact, so its guard
    against a zero counter never matters. *)
Lemma counted_close_one h id sub :
  heap h !! id = Some sub -> id ∈ subscribers h -> count (subscribers h) <= max_uint64 ->
  (forall s, Active (session_metrics h s) = count (members_of h s)) ->
  forall s, Active (session_metrics (close_one h id) s) = count (members_of (close_one h id) s).
Proof.
  intros Hs Hin Hr S s. unfold close_one. rewrite Hs. cbn zeta.
  assert (Hq : query (closeLocked sub (Some ErrHubClosed)) = query sub) by apply closeLocked_frame.
  rewrite session_metrics_insert.
  change (members_of (set_metrics _ _ _) s) with (members_of (set_heap h
    (<[id := closeLocked sub (Some ErrHubClosed)]> (heap h)) (subscribers h ∖ {[id]})) s).
  rewrite (members_without h id sub _ s Hs Hq Hin). case_decide as Es; [|apply S]. subst s.
  change (session_metrics (set_heap _ _ _) ?s) with (session_metrics h s).
  destruct (count_remove (members_of h (Query_SessionID (query sub))) id) as [C3 C4].
  { apply elem_of_members. unfold session_of. by rewrite Hs. }
  pose proof (members_range h (Query_SessionID (query sub)) Hr) as HM.
  rewrite <- S in C4, HM. destruct (0 <? _) eqn:E; to_prop; [|lia].
  rewrite Active_bump, C3, <- S; [lia|]. unfold_ranges. lia.
Qed.

Lemma counted_close_fold order h :
  NoDup order -> (forall id, id ∈ order -> id ∈ subscribers h /\ is_Some (heap h !! id)) ->
  count (subscribers h) <= max_uint64 ->
  (forall s, Active (session_metrics h s) = count (members_of h s)) ->
  let h' := fold_left close_one order h in
  forall s, Active (session_metrics h' s) = count (members_of h' s).
Proof.
  revert h. induction order as [|id order IH]; intros h Hnd Hin Hr S; [done|].
  apply NoDup_cons in Hnd as [Hid Hnd]. cbn zeta. cbn [fold_left].
  destruct (Hin id) as [Hm [sub Hs]]; [by left|].
  assert (Hheap : heap (close_one h id) =
      <[id := closeLocked sub (Some ErrHubClosed)]> (heap h)) by (unfold close_one; by rewrite Hs).
  assert (Hsubs : subscribers (close_one h id) = subscribers h ∖ {[id]})
    by (unfold close_one; by rewrite Hs).
  apply IH; auto.
  - intros i Hi. rewrite Hheap, Hsubs. assert (i <> id) by (intros ->; done).
    rewrite lookup_insert_ne by done. destruct (Hin i) as [? ?]; [by right|]. set_solver.
  - rewrite Hsubs. destruct (count_remove (subscribers h) id Hm). lia.
  - by apply (counted_close_one h id sub).
Qed.

(** ** Every reachable state *)

Section Counters.
Context {J : Type} `{HJ : Journal J} (history : J -> ID -> list SessionEvent).
Context {Hlaws : JournalLaws J history}.
Context (ordered : bool).

Lemma members_counted sys :
  sys_inv history ordered sys ->
  (forall id, id ∈ subscribers (sys_hub sys) ->
     exists sub, heap (sys_hub sys) !! id = Some sub /\ closed sub = false) /\
  0 <= count (subscribers (sys_hub sys)) <= nextID (sys_hub sys).
Proof.
  intros Hinv.
  assert (Hsub : forall id, id ∈ subscribers (sys_hub sys) ->
    exists sub, heap (sys_hub sys) !! id = Some sub).
  { intros id Hid. destruct (heap (sys_hub sys) !! id) eqn:E; [by eexists|].
    by apply (si_fresh _ _ _ Hinv) in E as [? _]. }
  split.
  - intros id Hid. destruct (Hsub id Hid) as [sub Hs]. exists sub. split; [done|].
    destruct (si_subs _ _ _ Hinv id sub Hs) as (_ & _ & _ & S4). by apply (sv_member _ _ _ _ _ _ _ S4).
  - apply count_bound; [apply (si_next _ _ _ Hinv)|]. intros id Hid.
    destruct (Hsub id Hid) as [sub Hs]. by destruct (si_subs _ _ _ Hinv id sub Hs) as (_ & ? & _).
Qed.

Lemma counted_publish sys event order :
  sys_inv history ordered sys -> counted (sys_hub sys) ->
  order ≡ₚ elements (subscribers (sys_hub sys)) ->
  counted (PublishCommitted (sys_hub sys) event order).1.
Proof.
  intros Hinv [G S] Hperm. destruct (members_counted sys Hinv) as [Hm Hr].
  pose proof (si_next _ _ _ Hinv) as Hn. set (h := sys_hub sys) in *.
  assert (Hin : forall id, id ∈ order -> id ∈ subscribers h)
    by (intros id; by rewrite Hperm, elem_of_elements).
  assert (Hnd : NoDup order) by (rewrite Hperm; apply NoDup_elements).
  unfold PublishCommitted. destruct (SessionEvent_Validate event); [done|].
  destruct (hub_closed h); [done|]. cbn zeta.
  set (h0 := set_metrics h _ _). set (m0 := bump _ _ _ _ _ _).
  pose proof (count_range h ltac:(lia)) as HR.
  pose proof (members_range h (SessionEvent_SessionID event) ltac:(lia)) as HM.
  assert (Hstart : counting (SessionEvent_SessionID event) h0 m0).
  { split; try done; [..|unfold h0; cbn; lia].
    - unfold h0. cbn [global set_metrics]. rewrite Active_same, G; [done|by rewrite G].
    - unfold m0. change (session_metrics h0 ?s) with (session_metrics h s).
      rewrite Active_same, S; [done|by rewrite S].
    - intros s Hne. apply S. }
  pose proof (counting_fold event order h0 m0 Hnd Hstart Hin
    ltac:(intros id Hid; by apply Hm, Hin)) as Hend. cbn zeta in Hend.
  destruct (fold_left (publish_one event) order (h0, m0)) as [h1 m1]. destruct Hend as [E1 E2 E3 E4].
  cbn [fst snd] in *. split; [done|]. intros s. rewrite session_metrics_insert.
  change (members_of (set_metrics h1 _ _) s) with (members_of h1 s).
  case_decide as Es; [by subst s|by apply E3].
Qed.

Lemma counted_subscribe sys ctx_err seen q h r :
  sys_inv history ordered sys -> counted (sys_hub sys) ->
  nextID (sys_hub sys) < max_uint64 -> 0 <= AfterSequence q ->
  (forall n, extends history (sys_journal sys) (seen n)) ->
  Subscribe (sys_hub sys) ctx_err (sys_journal sys) seen q = Some (h, r) -> counted h.
Proof.
  intros Hinv Hc Hnext Hq Hext Hsub. destruct (members_counted sys Hinv) as [_ Hr].
  destruct (Subscribe_cases history (sys_hub sys) ctx_err (sys_journal sys) seen q
    (si_capacity _ _ _ Hinv) Hq Hext) as (h' & r' & Hsub' & Hcase).
  rewrite Hsub in Hsub'. injection Hsub' as <- <-. destruct r as [e|id].
  - by destruct Hcase as [-> | ->].
  - destruct Hcase as (_ & -> & sub & -> & Hrv). cbn zeta in Hrv.
    pose proof (rv_id _ _ _ _ _ _ _ Hrv) as Hsid.
    pose proof (si_next _ _ _ Hinv) as Hn.
    rewrite (wrap_uint64_id (nextID (sys_hub sys) + 1)) in * by (unfold_ranges; lia).
    assert (Hfresh : heap (sys_hub sys) !! sub_id sub = None).
    { destruct (heap (sys_hub sys) !! sub_id sub) eqn:E; [|done].
      apply (si_subs _ _ _ Hinv) in E as (_ & ? & _). lia. }
    apply counted_register; auto; [|cbn; lia]. by apply (si_fresh _ _ _ Hinv).
Qed.

Lemma counted_hub_close sys order :
  sys_inv history ordered sys -> counted (sys_hub sys) ->
  order ≡ₚ elements (subscribers (sys_hub sys)) ->
  counted (Hub_Close (sys_hub sys) order).
Proof.
  intros Hinv [G S] Hperm. destruct (members_counted sys Hinv) as [Hm Hr].
  pose proof (si_next _ _ _ Hinv) as Hn.
  pose proof (inv_hub_close history ordered sys order Hinv Hperm) as Hinv'.
  unfold Hub_Close in *. destruct (hub_closed (sys_hub sys)) eqn:Hcl; [by split|]. cbn zeta in *.
  assert (Hnd : NoDup order) by (rewrite Hperm; apply NoDup_elements).
  pose proof (counted_close_fold order (set_closed (sys_hub sys)) Hnd) as Hfold. cbn zeta in Hfold.
  destruct (close_fold_hub order (set_closed (sys_hub sys)) Hnd) as (_ & _ & _ & (_ & _ & F3)).
  pose proof (si_closed _ _ _ Hinv' F3) as Hempty. cbn in Hempty.
  split.
  - cbn. by rewrite Hempty.
  - apply Hfold; [|cbn; lia|exact S]. intros id. rewrite Hperm, elem_of_elements. intros Hid.
    destruct (Hm id Hid) as (sub & Hs & _). cbn. eauto.
Qed.

Lemma counted_step sys sys' :
  sys_inv history ordered sys -> counted (sys_hub sys) -> hub_step history ordered sys sys' ->
  counted (sys_hub sys').
Proof.
  intros Hinv Hc Hst. destruct (members_counted sys Hinv) as [_ Hr].
  pose proof (si_next _ _ _ Hinv) as Hn. destruct Hst; try done.
  - by apply counted_publish.
  - by eapply counted_subscribe.
  - cbn. destruct (heap (sys_hub sys) !! id) as [sub|] eqn:Hs.
    + destruct (si_subs _ _ _ Hinv id sub Hs) as (S1 & _ & _ & S4).
      apply (counted_close _ _ sub); auto; [apply (sv_member _ _ _ _ _ _ _ S4)|lia].
    + unfold close. by rewrite Hs.
  - by apply counted_hub_close.
  - cbn. eapply counted_put; eauto. unfold Next in *.
    destruct (queue sub); [by destruct (closed sub)|by simplify_eq].
  - cbn. by eapply counted_put.
Qed.

(** The active counters are exact: in every reachable state the hub's
    counter is the number of subscriptions it holds, each session's is the
    number of those of the session, and no decrement wraps around. *)
Theorem active_counters_exact (j : J) (cap : Z) (h : Hub) (sys : system) :
  NewHub cap = Ok h -> rtc (hub_step history ordered) (system_start j h) sys ->
  Active (GlobalMetrics (sys_hub sys)) = Z.of_nat (size (subscribers (sys_hub sys))) /\
  forall s, Active (SessionMetrics (sys_hub sys) s) = Z.of_nat (size (members_of (sys_hub sys) s)).
Proof.
  intros Hh Hr.
  apply (rtc_invariant (hub_step history ordered)
    (fun sys => sys_inv history ordered sys /\ counted (sys_hub sys)) (system_start j h) sys); auto.
  - intros a b [Hi Hc] Hst. split; [by eapply sys_inv_step|by eapply counted_step].
  - split; [by eapply sys_inv_start|]. unfold NewHub in Hh. if_cases Hh. injection Hh as <-.
    split; [done|]. intros s. cbn [sys_hub system_start].
    replace (members_of _ s) with (∅ : gset Z) by (apply set_eq; intros i; rewrite elem_of_members; set_solver).
    unfold session_metrics. cbn. by rewrite lookup_empty.
Qed.
End Counters.

Lemma active_counters_exact_witness :
  Active (GlobalMetrics (sys_hub reconnected)) = 1 /\
  Active (SessionMetrics (sys_hub reconnected) "ses") = 1.
Proof.
  destruct (active_counters_exact memory_history true journal_0 2 (hub_of 2) reconnected eq_refl
    reconnected_reachable) as [H1 H2].
  split; [etrans; [exact H1|vm_compute; reflexivity]|etrans; [apply H2|vm_compute; reflexivity]].
Defined.
