(* ===== verification/SessionClient.v ===== *)
(** * The session stream and its client

    src/internal/transport/session_service.go ([SubscribeSession]) sends a
    subscription's events to a client with a marker at the replay boundary;
    src/web/frontend/sessionclient/client.go applies them in sequence, and
    reconnects, repairs or gives up when it cannot.

    The client's loop is driven by its surroundings: whether the context is
    cancelled, what connecting, subscribing, receiving, repairing and waiting
    return. One turn's worth of that is a [round], and [run] is the loop over
    a list of rounds; the theorems quantify over every list. Whether the
    caller's [Apply] accepts an event may depend on everything applied before.
    Protobuf conversion and floating-point scaling are parameters. The client's
    mutex, its observer and the transport handle change nothing else and are
    left out. *)

From S2P Require Import Prelude GoText States PolicyValues SessionEvents Hub HubFacts.
Open Scope string_scope.
Open Scope list_scope.
Open Scope Z_scope.

(** ** The wire *)

(** [StableIdentity]: a kind and a value. *)
Record StableIdentity := { identity_kind : Z; identity_value : string }.

Definition same_identity (a b : StableIdentity) : bool :=
  (identity_kind a =? identity_kind b) && (identity_value a =? identity_value b)%string.

(** The envelope fields of a protobuf session event that the client reads, and
    the event it was made from. *)
Record wire_event := {
  wire_sequence : Z;
  wire_session : option StableIdentity;
  wire_body : SessionEvent;
}.

(** [SubscribeSessionResponse]: the getters of an absent field return nil. *)
Record response := {
  response_event : option wire_event;
  response_boundary : option Z;
}.

Definition event_response (w : wire_event) : response :=
  {| response_event := Some w; response_boundary := None |}.
Definition boundary_response (through : Z) : response :=
  {| response_event := None; response_boundary := Some through |}.

(** ** The server's side *)

Section Server.
Context (convert : SessionEvent -> result EventError wire_event).

(** The loop of [SubscribeSession] over the events [Next] returns:
    [complete] is [replayComplete]. It ends when [Next] does, or with the
    first event that does not convert. *)
Fixpoint send_events (boundary : Z) (complete : bool) (events : list SessionEvent)
    : list response :=
  match events with
  | [] => []
  | event :: rest =>
      match convert event with
      | Err _ => []
      | Ok w =>
          event_response w ::
          if (Sequence event =? boundary) && negb complete
          then boundary_response boundary :: send_events boundary true rest
          else send_events boundary complete rest
      end
  end.

(** The marker comes first when there is nothing to replay. *)
Definition SubscribeSession (after boundary : Z) (events : list SessionEvent) : list response :=
  if after =? boundary
  then boundary_response boundary :: send_events boundary true events
  else send_events boundary false events.
End Server.

(** ** Client data *)

Abbreviation ClientState := string.
Definition StateIdle : ClientState := "idle".
Definition StateConnecting : ClientState := "connecting".
Definition StateReplaying : ClientState := "replaying".
Definition StateLive : ClientState := "live".
Definition StateReconnecting : ClientState := "reconnecting".
Definition StateGap : ClientState := "gap".
Definition StateStopped : ClientState := "stopped".
Definition StateFailed : ClientState := "failed".

Abbreviation FailureKind := string.
Definition FailureNone : FailureKind := "".
Definition FailureAuthentication : FailureKind := "authentication".
Definition FailureIncompatible : FailureKind := "incompatible".
Definition FailureProtocol : FailureKind := "protocol".
Definition FailureApplication : FailureKind := "application".
Definition FailureUnavailable : FailureKind := "unavailable".

Record Status := {
  Status_State : ClientState;
  LastSequence : Z;
  ReconnectCount : Z;
  ControlsAllowed : bool;
  Failure : FailureKind;
}.

(** The gRPC codes the client distinguishes. *)
Inductive StatusCode :=
| Unauthenticated
| PermissionDenied
| FailedPrecondition
| Unimplemented
| InvalidArgument
| OtherCode.

(** The errors of the package, a stream that ended, a transport error with its
    code, and the wrapped failure of a repair. *)
Inductive ClientError :=
| ErrReconnectAttemptsExhausted (cause : ClientError)
| ErrInvalidSessionEvent
| ErrSessionEventSequenceGap
| ErrSessionEventIdentityMismatch
| ErrSessionEventApplicationFailed
| ErrInvalidReplayBoundary
| StreamEOF
| Transport (code : StatusCode)
| RepairFailed (cause : ClientError).

(** [status.Code]: anything that is not a transport error is unknown. *)
Definition status_code (e : ClientError) : StatusCode :=
  match e with Transport code => code | _ => OtherCode end.

(** What the client has done, for the theorems: the events it applied and the
    snapshots that moved its cursor. *)
Inductive entry :=
| Applied (w : wire_event)
| Repaired (through : Z).

Record Client := { status : Status; log : list entry }.

Definition set_status (c : Client) (s : Status) : Client := {| status := s; log := log c |}.

(** ** Retry policy *)

Section Retry.
Context {Float : Type} (below_one : Float -> bool) (two : Float) (scale : Float -> Z -> Z).

(** Durations are nanoseconds; [scale m d] is
    [time.Duration(float64(d) * m)]. *)
Record RetryPolicy := {
  MaxAttempts : Z;
  InitialDelay : Z;
  MaxDelay : Z;
  Multiplier : Float;
}.

Definition normalizeRetryPolicy (policy : RetryPolicy) : RetryPolicy :=
  let attempts := if MaxAttempts policy <=? 0 then 5 else MaxAttempts policy in
  let initial := if InitialDelay policy <=? 0 then 250000000 else InitialDelay policy in
  let max := if MaxDelay policy <=? 0 then 4000000000 else MaxDelay policy in
  let max := if max <? initial then initial else max in
  let multiplier := if below_one (Multiplier policy) then two else Multiplier policy in
  {| MaxAttempts := attempts; InitialDelay := initial; MaxDelay := max; Multiplier := multiplier |}.

Definition NormalizedRetryPolicy (policy : RetryPolicy) : RetryPolicy := normalizeRetryPolicy policy.

Fixpoint retry_loop (policy : RetryPolicy) (turns : nat) (delay : Z) : Z :=
  match turns with
  | O => delay
  | S turns =>
      let next := scale (Multiplier policy) delay in
      if (MaxDelay policy <=? next) || (next <? delay) then MaxDelay policy
      else retry_loop policy turns next
  end.

Definition retryDelay (policy : RetryPolicy) (failures : Z) : Z :=
  retry_loop policy (Z.to_nat (failures - 1)) (InitialDelay policy).

Definition RetryBackoff (policy : RetryPolicy) (failures : Z) : Z :=
  if failures <=? 0 then 0 else retryDelay (normalizeRetryPolicy policy) failures.
End Retry.
Arguments RetryPolicy : clear implicits.

(** ** The client's operations *)

Definition transition (c : Client) (state : ClientState) (failure : FailureKind)
    (reconnectCount : Z) : Client :=
  set_status c
    {| Status_State := state; LastSequence := LastSequence (status c);
       ReconnectCount := reconnectCount; ControlsAllowed := (state =? StateLive)%string;
       Failure := failure |}.

Definition advance (c : Client) (sequence : Z) : Client :=
  set_status c
    {| Status_State := Status_State (status c); LastSequence := sequence;
       ReconnectCount := ReconnectCount (status c);
       ControlsAllowed := (Status_State (status c) =? StateLive)%string;
       Failure := Failure (status c) |}.

Definition markLive (c : Client) : Client :=
  set_status c
    {| Status_State := StateLive; LastSequence := LastSequence (status c);
       ReconnectCount := ReconnectCount (status c); ControlsAllowed := true;
       Failure := FailureNone |}.

Definition applySnapshotCursor (c : Client) (sequence : Z) : Client :=
  {| status := {| Status_State := StateReplaying; LastSequence := sequence;
                  ReconnectCount := ReconnectCount (status c); ControlsAllowed := false;
                  Failure := FailureNone |};
     log := log c ++ [Repaired sequence] |}.

Definition terminalTransportFailure (c : Client) (e : ClientError) : Client * option ClientError :=
  match status_code e with
  | Unauthenticated | PermissionDenied =>
      (transition c StateFailed FailureAuthentication (ReconnectCount (status c)), Some e)
  | FailedPrecondition | Unimplemented =>
      (transition c StateFailed FailureIncompatible (ReconnectCount (status c)), Some e)
  | InvalidArgument =>
      (transition c StateFailed FailureProtocol (ReconnectCount (status c)), Some e)
  | OtherCode => (c, None)
  end.

Definition terminalStreamFailure (c : Client) (e : ClientError) : Client * option ClientError :=
  match e with
  | StreamEOF => (c, None)
  | ErrSessionEventApplicationFailed =>
      (transition c StateFailed FailureApplication (ReconnectCount (status c)), Some e)
  | ErrInvalidSessionEvent | ErrSessionEventIdentityMismatch | ErrInvalidReplayBoundary =>
      (transition c StateFailed FailureProtocol (ReconnectCount (status c)), Some e)
  | ErrSessionEventSequenceGap => (c, None)
  | _ => terminalTransportFailure c e
  end.

(** Where one turn leaves the loop: still running, returned nil, or returned
    an error. *)
Inductive outcome :=
| Running
| Stopped
| Failed (e : ClientError).

Record round := {
  round_cancelled : bool;
  round_connect : option ClientError;
  round_installed : bool;
  round_subscribe : option ClientError;
  round_responses : list response;
  round_stream_error : ClientError;
  round_cancelled_after : bool;
  round_repair : result ClientError Z;
  round_waited : bool;
}.

Section Client.
Context (session : StableIdentity) (attempts : Z) (has_repair : bool).
Context (apply : list entry -> wire_event -> bool).

Definition wrong_session (w : wire_event) : bool :=
  match wire_session w with
  | None => true
  | Some identity => negb (same_identity identity session)
  end.

(** [receive]: the responses, then the error [Recv] ends with. *)
Fixpoint receive (c : Client) (responses : list response) (ending : ClientError)
    (madeProgress : bool) : Client * ClientError * bool :=
  match responses with
  | [] => (c, ending, madeProgress)
  | r :: rest =>
      match response_boundary r with
      | Some through =>
          if present (response_event r) ||
             negb (Status_State (status c) =? StateReplaying)%string ||
             negb (through =? LastSequence (status c))
          then (c, ErrInvalidReplayBoundary, madeProgress)
          else receive (markLive c) rest ending madeProgress
      | None =>
          match response_event r with
          | None => (c, ErrInvalidSessionEvent, madeProgress)
          | Some w =>
              let last := LastSequence (status c) in
              if wire_sequence w =? 0 then (c, ErrInvalidSessionEvent, madeProgress)
              else if wrong_session w then (c, ErrSessionEventIdentityMismatch, madeProgress)
              else if wire_sequence w <=? last then receive c rest ending madeProgress
              else if negb (wire_sequence w =? wrap_uint64 (last + 1)) then
                (transition c StateGap FailureProtocol (ReconnectCount (status c)),
                 ErrSessionEventSequenceGap, madeProgress)
              else if negb (apply (log c) w) then
                (c, ErrSessionEventApplicationFailed, madeProgress)
              else
                receive (advance {| status := status c; log := log c ++ [Applied w] |}
                           (wire_sequence w)) rest ending true
          end
      end
  end.

Definition retry (c : Client) (failures : Z) (cause : ClientError) (waited : bool)
    : Client * outcome :=
  if attempts <=? failures then
    (transition c StateFailed FailureUnavailable failures,
     Failed (ErrReconnectAttemptsExhausted cause))
  else
    let c := transition c StateReconnecting FailureUnavailable failures in
    if negb waited then (transition c StateStopped FailureNone failures, Running)
    else (transition c StateConnecting FailureNone failures, Running).

(** A failure that is not terminal: count it and retry. *)
Definition fail_over (c : Client) (failures : Z) (cause : ClientError) (waited : bool)
    : Client * Z * outcome :=
  let '(c, o) := retry c (failures + 1) cause waited in (c, failures + 1, o).

(** What follows a stream that ended in [e]. *)
Definition after_stream (c : Client) (failures : Z) (e : ClientError) (r : round)
    : Client * Z * outcome :=
  if round_cancelled_after r then (transition c StateStopped FailureNone failures, failures, Stopped)
  else match e, has_repair with
  | ErrSessionEventApplicationFailed, true =>
      let c := transition c StateReplaying FailureApplication failures in
      match round_repair r with
      | Err cause =>
          (transition c StateFailed FailureApplication failures, failures,
           Failed (RepairFailed cause))
      | Ok repairedThrough =>
          if repairedThrough <? LastSequence (status c) then
            (transition c StateFailed FailureProtocol failures, failures,
             Failed ErrInvalidReplayBoundary)
          else (applySnapshotCursor c repairedThrough, failures, Running)
      end
  | _, _ =>
      let '(c, terminal) := terminalStreamFailure c e in
      match terminal with
      | Some e => (c, failures, Failed e)
      | None => fail_over c failures e (round_waited r)
      end
  end.

Definition connection_failed (c : Client) (failures : Z) (e : ClientError) (r : round)
    : Client * Z * outcome :=
  let '(c, terminal) := terminalTransportFailure c e in
  match terminal with
  | Some e => (c, failures, Failed e)
  | None => fail_over c failures e (round_waited r)
  end.

(** One turn of [run]. *)
Definition run_round (c : Client) (failures : Z) (r : round) : Client * Z * outcome :=
  if round_cancelled r then (transition c StateStopped FailureNone failures, failures, Stopped)
  else match round_connect r with
  | Some e => connection_failed c failures e r
  | None =>
      if negb (round_installed r) then
        (transition c StateStopped FailureNone failures, failures, Stopped)
      else match round_subscribe r with
      | Some e => connection_failed c failures e r
      | None =>
          let c := transition c StateReplaying FailureNone failures in
          let '(c, streamError, madeProgress) :=
            receive c (round_responses r) (round_stream_error r) false in
          let failures := if madeProgress : bool then 0 else failures in
          after_stream c failures streamError r
      end
  end.

Fixpoint run (c : Client) (failures : Z) (rounds : list round) : Client * Z * outcome :=
  match rounds with
  | [] => (c, failures, Running)
  | r :: rest =>
      let '(c, failures, o) := run_round c failures r in
      match o with
      | Running => run c failures rest
      | _ => (c, failures, o)
      end
  end.
End Client.

Definition NewClient (after : Z) : Client :=
  {| status := {| Status_State := StateIdle; LastSequence := after; ReconnectCount := 0;
                  ControlsAllowed := false; Failure := FailureNone |};
     log := [] |}.

(** [Start] on a fresh client. *)
Definition Start (c : Client) : Client := transition c StateConnecting FailureNone 0.

(** ** Retry delays *)

Section RetryFacts.
Context {Float : Type} (below_one : Float -> bool) (two : Float) (scale : Float -> Z -> Z).

Lemma retry_loop_range policy turns delay :
  InitialDelay policy <= delay <= MaxDelay policy ->
  delay <= retry_loop scale policy turns delay <= MaxDelay policy.
Proof.
  revert delay. induction turns as [|turns IH]; intros delay Hd; cbn [retry_loop]; [lia|].
  cbv zeta. destruct (_ || _) eqn:E; [lia|]. to_prop.
  specialize (IH (scale (Multiplier policy) delay)). lia.
Qed.

(** Delays are bounded and never shrink as failures accumulate, whatever the
    multiplication rounds to. *)
Lemma retryDelay_bounded (policy : RetryPolicy Float) failures :
  let p := normalizeRetryPolicy below_one two policy in
  0 < InitialDelay p <= retryDelay scale p failures /\ retryDelay scale p failures <= MaxDelay p /\
  1 <= MaxAttempts p.
Proof.
  intros p. assert (Hp : 0 < InitialDelay p <= MaxDelay p /\ 1 <= MaxAttempts p).
  { unfold p, normalizeRetryPolicy. cbn.
    destruct (InitialDelay policy <=? 0) eqn:E1, (MaxDelay policy <=? 0) eqn:E2,
      (MaxAttempts policy <=? 0) eqn:E3; to_prop;
      match goal with |- context [if ?b then _ else _] => destruct b eqn:E4 end; to_prop; lia. }
  pose proof (retry_loop_range p (Z.to_nat (failures - 1)) (InitialDelay p) ltac:(lia)).
  unfold retryDelay. lia.
Qed.

Lemma retry_loop_mono policy turns delay :
  InitialDelay policy <= delay <= MaxDelay policy ->
  retry_loop scale policy turns delay <= retry_loop scale policy (S turns) delay.
Proof.
  revert delay. induction turns as [|turns IH]; intros delay Hd.
  - pose proof (retry_loop_range policy 1 delay Hd) as H. exact (proj1 H).
  - cbn [retry_loop]. cbv zeta. destruct (_ || _) eqn:E; [lia|]. to_prop.
    apply IH. lia.
Qed.
End RetryFacts.

(** ** The cursor *)

(** A log that moves the cursor from [start]: every applied event is the next
    sequence, every repair goes forward. The result is the cursor's end. *)
Fixpoint follows (start : Z) (entries : list entry) : option Z :=
  match entries with
  | [] => Some start
  | Applied w :: rest => if wire_sequence w =? start + 1 then follows (start + 1) rest else None
  | Repaired through :: rest => if start <=? through then follows through rest else None
  end.


Definition applied_entries (l : list entry) : list wire_event :=
  omap (fun e => match e with Applied w => Some w | Repaired _ => None end) l.




Section ClientFacts.
Context (session : StableIdentity) (attempts : Z) (has_repair : bool).
Context (apply : list entry -> wire_event -> bool).
Context (after : Z) (Hafter : uint64_range after).
Context (good : wire_event -> Prop).




















End ClientFacts.

(** ** What the client has applied *)

Lemma follows_applied start l last :
  (forall e, e ∈ l -> exists w, e = Applied w) -> follows start l = Some last ->
  last = start + Z.of_nat (length (applied_entries l)) /\
  forall i w, applied_entries l !! i = Some w -> wire_sequence w = start + 1 + Z.of_nat i.
Proof.
  revert start. induction l as [|e l IH]; intros start Hall; cbn [follows].
  { intros [= <-]. cbn. split; [lia|done]. }
  destruct (Hall e) as [w ->]; [by left|]. destruct (wire_sequence w =? start + 1) eqn:Hw; [|done].
  to_prop. intros Hf. destruct (IH (start + 1)) as [H1 H2]; [|done|].
  { intros e He. apply Hall. by right. }
  change (applied_entries (Applied w :: l)) with (w :: applied_entries l). cbn [length].
  split; [lia|]. intros [|i] x; cbn; [intros [= <-]; lia|]. intros Hx%H2. lia.
Qed.








(** ** Retries *)

(** A turn that gets nothing: the connection, the subscription or an empty
    stream fails in a way that may pass. *)
Definition passing (e : ClientError) : Prop :=
  status_code e = OtherCode /\
  e <> ErrSessionEventApplicationFailed /\ e <> ErrInvalidSessionEvent /\
  e <> ErrSessionEventIdentityMismatch /\ e <> ErrInvalidReplayBoundary.

Definition fruitless (r : round) : Prop :=
  round_cancelled r = false /\
  ((exists e, round_connect r = Some e /\ passing e) \/
   round_connect r = None /\ round_installed r = true /\
   ((exists e, round_subscribe r = Some e /\ passing e) \/
    round_subscribe r = None /\ round_responses r = [] /\ round_cancelled_after r = false /\
    passing (round_stream_error r))).

Section Retries.
Context (session : StableIdentity) (attempts : Z) (has_repair : bool).
Context (apply : list entry -> wire_event -> bool).

Lemma fail_over_failures c failures e waited :
  let '(_, f, o) := fail_over attempts c failures e waited in
  f = failures + 1 /\
  o = (if attempts <=? failures + 1 then Failed (ErrReconnectAttemptsExhausted e) else Running).
Proof. unfold fail_over, retry. destruct (attempts <=? failures + 1); [done|]. by destruct waited. Qed.

Lemma passing_terminal c e :
  passing e -> terminalTransportFailure c e = (c, None) /\ terminalStreamFailure c e = (c, None).
Proof.
  intros (Hc & H1 & H2 & H3 & H4). unfold terminalTransportFailure. rewrite Hc.
  split; [done|]. unfold terminalStreamFailure. destruct e; try done;
    unfold terminalTransportFailure; by rewrite Hc.
Qed.

Lemma fruitless_round c failures r :
  fruitless r ->
  let '(_, f, o) := run_round session attempts has_repair apply c failures r in
  f = failures + 1 /\
  if attempts <=? failures + 1 then exists cause, o = Failed (ErrReconnectAttemptsExhausted cause)
  else o = Running.
Proof.
  intros (Hc & Hr). unfold run_round. rewrite Hc.
  assert (Hfail : forall c' e, passing e ->
    let '(_, f, o) := fail_over attempts c' failures e (round_waited r) in
    f = failures + 1 /\
    if attempts <=? failures + 1 then exists cause, o = Failed (ErrReconnectAttemptsExhausted cause)
    else o = Running).
  { intros c' e _. pose proof (fail_over_failures c' failures e (round_waited r)) as Hf.
    destruct (fail_over _ _ _ _ _) as [[? ?] ?]. destruct Hf as [-> ->].
    split; [done|]. destruct (attempts <=? failures + 1); eauto. }
  destruct Hr as [(e & -> & Hp)|(-> & -> & [(e & -> & Hp)|(-> & -> & Hca & Hp)])]; cbn [negb].
  - unfold connection_failed. rewrite (proj1 (passing_terminal c e Hp)). by apply Hfail.
  - unfold connection_failed. rewrite (proj1 (passing_terminal c e Hp)). by apply Hfail.
  - cbn [receive]. unfold after_stream. rewrite Hca.
    set (c' := transition c StateReplaying FailureNone failures).
    rewrite (proj2 (passing_terminal c' _ Hp)). pose proof (Hfail c' _ Hp) as Hf.
    destruct (round_stream_error r) eqn:E; try exact Hf; by destruct Hp as (_ & ? & _).
Qed.

(** While the loop runs, the failures counted are below the limit. *)
Lemma run_round_failures c failures r :
  1 <= attempts -> 0 <= failures < attempts ->
  let '(_, f, o) := run_round session attempts has_repair apply c failures r in
  o = Running -> 0 <= f < attempts.
Proof.
  intros Ha Hf.
  assert (Hfo : forall c' n e w, 0 <= n < attempts ->
    let '(_, f, o) := fail_over attempts c' n e w in o = Running -> 0 <= f < attempts).
  { intros c' n e w Hn. pose proof (fail_over_failures c' n e w) as H.
    destruct (fail_over _ _ _ _ _) as [[? ?] ?]. destruct H as [-> ->].
    destruct (attempts <=? n + 1) eqn:E; to_prop; [done|lia]. }
  assert (Hconn : forall e, let '(_, f, o) := connection_failed attempts c failures e r in
    o = Running -> 0 <= f < attempts).
  { intros e. unfold connection_failed. destruct (terminalTransportFailure c e) as [c' [e'|]];
      [done|by apply Hfo]. }
  unfold run_round. destruct (round_cancelled r); [done|].
  destruct (round_connect r); [apply Hconn|]. destruct (negb _); [done|].
  destruct (round_subscribe r); [apply Hconn|]. cbv zeta.
  destruct (receive _ _ _ _ _ _) as [[c' e] p].
  assert (Hn : 0 <= (if p then 0 else failures) < attempts) by (destruct p; lia).
  set (n := if p then 0 else failures) in *. unfold after_stream.
  destruct (round_cancelled_after r); [done|].
  assert (Helse : let '(_, f, o) := (let '(c', terminal) := terminalStreamFailure c' e in
     match terminal with
     | Some e => (c', n, Failed e)
     | None => fail_over attempts c' n e (round_waited r)
     end) in o = Running -> 0 <= f < attempts).
  { destruct (terminalStreamFailure c' e) as [c'' [e'|]]; [done|by apply Hfo]. }
  destruct e, has_repair; try exact Helse. cbv zeta.
  destruct (round_repair r); [done|]. by destruct (_ <? _).
Qed.

Lemma run_failures c failures rounds :
  1 <= attempts -> 0 <= failures < attempts ->
  let '(_, f, o) := run session attempts has_repair apply c failures rounds in
  o = Running -> 0 <= f < attempts.
Proof.
  intros Ha. revert c failures. induction rounds as [|r rest IH]; intros c failures Hf; [cbn; auto|].
  cbn [run]. pose proof (run_round_failures c failures r Ha Hf) as Hr.
  destruct (run_round _ _ _ _ _ _ _) as [[c' f'] o]. destruct o; [by apply IH, Hr|done..].
Qed.

Lemma run_fruitless c failures rounds :
  0 <= failures < attempts -> Forall fruitless rounds ->
  attempts <= failures + Z.of_nat (length rounds) ->
  exists c' f cause, run session attempts has_repair apply c failures rounds =
    (c', f, Failed (ErrReconnectAttemptsExhausted cause)).
Proof.
  revert c failures. induction rounds as [|r rest IH]; intros c failures Hf Hall Hlen;
    [cbn in Hlen; lia|].
  apply Forall_cons in Hall as [Hr Hrest]. cbn [run]. pose proof (fruitless_round c failures r Hr) as Hone.
  destruct (run_round _ _ _ _ _ _ _) as [[c' f'] o]. destruct Hone as [-> Ho].
  destruct (attempts <=? failures + 1) eqn:E; to_prop.
  - destruct Ho as [cause ->]. eauto.
  - rewrite Ho. apply IH; auto; [lia|]. cbn [length] in Hlen. lia.
Qed.
End Retries.

(** Reconnecting is bounded: with the policy every client runs under,
    the failures counted stay below [MaxAttempts] while the loop runs, and
    that many turns in a row that get nothing end it with the exhaustion
    error. *)
Theorem reconnects_are_bounded {Float : Type} (below_one : Float -> bool) (two : Float)
    (policy : RetryPolicy Float) (session : StableIdentity) (has_repair : bool)
    (apply : list entry -> wire_event -> bool) (c : Client) (rounds : list round) :
  let attempts := MaxAttempts (normalizeRetryPolicy below_one two policy) in
  let '(_, failures, o) := run session attempts has_repair apply c 0 rounds in
  (o = Running -> 0 <= failures < attempts) /\
  (Forall fruitless rounds -> attempts <= Z.of_nat (length rounds) ->
   exists cause, o = Failed (ErrReconnectAttemptsExhausted cause)).
Proof.
  intros attempts.
  assert (Ha : 1 <= attempts)
    by apply (retryDelay_bounded below_one two (fun _ d => d) policy 0).
  pose proof (run_failures session attempts has_repair apply c 0 rounds Ha ltac:(lia)) as Hrun.
  destruct (run session attempts has_repair apply c 0 rounds) as [[c' f] o] eqn:E.
  split; [done|]. intros Hall Hlen.
  destruct (run_fruitless session attempts has_repair apply c 0 rounds) as (c2 & f2 & cause & H);
    [lia|done|lia|]. rewrite H in E. injection E as _ _ <-. eauto.
Qed.

(** ** Repairs are not bounded *)

Definition sample_session : StableIdentity := {| identity_kind := 1; identity_value := "ses" |}.

Definition sample_wire (event : SessionEvent) : wire_event :=
  {| wire_sequence := Sequence event; wire_session := Some sample_session; wire_body := event |}.

(** A turn whose stream carries event 1, and whose repair reports a snapshot
    at the cursor the client already has. *)
Definition repairing_round : round :=
  {| round_cancelled := false; round_connect := None; round_installed := true;
     round_subscribe := None; round_responses := [event_response (sample_wire (archived_event 1))];
     round_stream_error := StreamEOF; round_cancelled_after := false; round_repair := Ok 0;
     round_waited := true |}.

Lemma repairing_step attempts c :
  LastSequence (status c) = 0 ->
  exists c', run_round sample_session attempts true (fun _ _ => false) c 0 repairing_round =
    (c', 0, Running) /\ LastSequence (status c') = 0.
Proof.
  intros Hc. unfold run_round. cbn. rewrite Hc. cbn.
  rewrite (eq_refl : wrap_uint64 (0 + 1) = 1). cbn. rewrite Hc. cbn.
  eexists. split; [reflexivity|done].
Qed.

(** A repair is never counted and need not move the cursor: when the
    caller rejects an event that its own fresh snapshot does not get past, the
    client repairs and resubscribes for ever, with no attempt counted and no
    delay between the turns. *)
Theorem repairs_are_unbounded (attempts : Z) (n : nat) :
  exists c, run sample_session attempts true (fun _ _ => false) (Start (NewClient 0)) 0
      (repeat repairing_round n) = (c, 0, Running) /\
    LastSequence (status c) = 0.
Proof.
  assert (H0 : LastSequence (status (Start (NewClient 0))) = 0) by done.
  revert H0. generalize (Start (NewClient 0)). induction n as [|n IH]; intros c Hc; [by exists c|].
  destruct (repairing_step attempts c Hc) as (c' & Hrun & Hc').
  cbn [repeat run]. rewrite Hrun. by apply IH.
Qed.

(** ** The replay marker *)

Section Marker.
Context (convert : SessionEvent -> result EventError wire_event).
Context (Htotal : forall event, exists w, convert event = Ok w).

Lemma send_events_complete boundary events r :
  r ∈ send_events convert boundary true events -> response_boundary r = None.
Proof.
  induction events as [|event rest IH]; cbn [send_events]; [intros Hr; by apply not_elem_of_nil in Hr|].
  destruct (Htotal event) as [w ->]. rewrite andb_false_r.
  intros [->|Hr]%elem_of_cons; [done|by apply IH].
Qed.

Lemma send_events_marker boundary events :
  (exists r, r ∈ send_events convert boundary false events /\ response_boundary r <> None) <->
  exists event, event ∈ events /\ Sequence event = boundary.
Proof.
  induction events as [|event rest IH]; cbn [send_events].
  { split; intros (x & Hx & _); by apply not_elem_of_nil in Hx. }
  destruct (Htotal event) as [w ->]. rewrite andb_true_r.
  destruct (Sequence event =? boundary) eqn:E; to_prop; split.
  - intros _. exists event. split; [by left|done].
  - intros _. exists (boundary_response boundary). split; [by right; left|done].
  - intros (r & [->|Hr]%elem_of_cons & Hb); [done|].
    destruct (proj1 IH) as (x & Hx & Hs); [by exists r|]. exists x. split; [by right|done].
  - intros (x & [->|Hx]%elem_of_cons & Hs); [done|].
    destruct (proj2 IH) as (r & Hr & Hb); [by exists x|]. exists r. split; [by right|done].
Qed.

(** The marker is sent exactly when there is nothing to replay or the event at
    the boundary is among those delivered. *)
Lemma SubscribeSession_marker after boundary events :
  (exists r, r ∈ SubscribeSession convert after boundary events /\ response_boundary r <> None) <->
  after = boundary \/ exists event, event ∈ events /\ Sequence event = boundary.
Proof.
  unfold SubscribeSession. destruct (after =? boundary) eqn:E; to_prop.
  - split; [by left|]. intros _. exists (boundary_response boundary). split; [by left|done].
  - rewrite send_events_marker. naive_solver.
Qed.
End Marker.

(** ** A replay whose marker is lost *)

(** A journal with one session. *)
#[local] Instance list_journal : Journal (list SessionEvent) := {
  CommittedSequence l _ := Ok (Z.of_nat (length l));
  ReplayCommitted l _ after limit := Ok (take (Z.to_nat limit) (drop (Z.to_nat after) l));
}.

Definition short_history : list SessionEvent := [final_event 1; delta_event 2].

Definition all_of_it : SubscriptionQuery :=
  {| Query_SessionID := "ses"; Query_ThreadID := None; Query_TaskID := None; AfterSequence := 0 |}.

(** The subscription of capacity one over that history. *)
Definition lossy_subscription : option Subscription :=
  match NewHub 1 with
  | Err _ => None
  | Ok h =>
      match Subscribe h None short_history (fun _ => short_history) all_of_it with
      | Some (h', Ok id) => heap h' !! id
      | _ => None
      end
  end.

Definition convert_sample (event : SessionEvent) : result EventError wire_event :=
  Ok (sample_wire event).

(** The replay marker can be lost: the server sends it only on delivering
    the event at the boundary, and a full queue drops an ephemeral one. Then
    the client that has applied everything it was sent stays in the replaying
    state, with its controls disabled, until another event breaks the
    sequence. *)
Theorem replay_marker_can_be_lost :
  exists sub, lossy_subscription = Some sub /\ ReplayBoundary sub = 2 /\
    map Sequence (queue sub) = [1] /\
    let responses := SubscribeSession convert_sample 0 (ReplayBoundary sub) (queue sub) in
    (forall r, r ∈ responses -> response_boundary r = None) /\
    let start := transition (Start (NewClient 0)) StateReplaying FailureNone 0 in
    let c := (receive sample_session (fun _ _ => true) start responses StreamEOF false).1.1 in
    LastSequence (status c) = 1 /\ Status_State (status c) = StateReplaying /\
    ControlsAllowed (status c) = false.
Proof.
  destruct lossy_subscription as [sub|] eqn:Hsub; [|vm_compute in Hsub; discriminate Hsub].
  exists sub. split; [done|]. vm_compute in Hsub. injection Hsub as <-.
  split; [reflexivity|]. split; [reflexivity|]. cbv zeta. split.
  - intros r Hr. vm_compute in Hr. by apply list_elem_of_singleton in Hr as ->.
  - vm_compute. split_and!; reflexivity.
Qed.





