(* ===== verification/Ports.v ===== *)
(** * Programs that call ports

    The agent loop and the retry executor are driven by interfaces: a model, a
    journal, a clock. Such code is modelled as a program whose every call to an
    interface is a node: the program asks a port and goes on with whatever it
    answers. Nothing is assumed of the answers unless a theorem says so.

    The programs are inductive, so each of them returns however the ports
    answer; [runs] lists their runs with the calls made, [run] executes one
    against concrete ports, and [obeys] is the logic for what a program asks
    and in which circumstances. *)

From S2P Require Import Prelude.

Section Programs.
Context {port : Type} {answer : port -> Type}.

Inductive program (A : Type) : Type :=
| Ret (a : A)
| Ask (p : port) (k : answer p -> program A).
Arguments Ret {A} a.
Arguments Ask {A} p k.

Fixpoint bind {A B} (m : program A) (f : A -> program B) : program B :=
  match m with
  | Ret a => f a
  | Ask p k => Ask p (fun r => bind (k r) f)
  end.

Definition ask (p : port) : program (answer p) := Ask p Ret.

(** A call that was made and what it answered. A history lists the calls made
    so far, the latest first. *)
Definition event : Type := {p : port & answer p}.
Definition called (p : port) (r : answer p) : event := existT p r.

(** The complete runs of a program, with their calls in order. *)
Fixpoint runs {A} (m : program A) (t : list event) (a : A) : Prop :=
  match m with
  | Ret a' => t = [] /\ a = a'
  | Ask p k => exists r t', t = called p r :: t' /\ runs (k r) t' a
  end.

(** Against ports that answer from what was asked before. *)
Fixpoint run {A} (ports : list event -> forall p, answer p) (m : program A)
    (h : list event) : A * list event :=
  match m with
  | Ret a => (a, h)
  | Ask p k => let r := ports h p in run ports (k r) (called p r :: h)
  end.

(** [obeys I m h Q]: from history [h] on, every call of [m] is made in a
    history in which [I] allows it, and [m] returns only with [Q]. *)
Fixpoint obeys {A} (I : list event -> port -> Prop) (m : program A) (h : list event)
    (Q : A -> list event -> Prop) : Prop :=
  match m with
  | Ret a => Q a h
  | Ask p k => I h p /\ forall r, obeys I (k r) (called p r :: h) Q
  end.

Lemma bind_assoc_obeys {A B C} I (m : program A) (f : A -> program B) (g : B -> program C) h Q :
  obeys I (bind (bind m f) g) h Q <-> obeys I (bind m (fun a => bind (f a) g)) h Q.
Proof.
  revert h. induction m as [a|p k IH]; intros h; simpl; [done|].
  split; intros [HI Hk]; (split; [done|]); intros r; by apply IH, Hk.
Qed.

Lemma obeys_bind {A B} I (m : program A) (f : A -> program B) h Q :
  obeys I (bind m f) h Q <-> obeys I m h (fun a h' => obeys I (f a) h' Q).
Proof.
  revert h. induction m as [a|p k IH]; intros h; simpl; [done|].
  split; intros [HI Hk]; (split; [done|]); intros r; by apply IH, Hk.
Qed.

Lemma obeys_mono {A} (I J : list event -> port -> Prop) (m : program A) h
    (Q R : A -> list event -> Prop) :
  obeys I m h Q -> (forall h p, I h p -> J h p) -> (forall a h, Q a h -> R a h) ->
  obeys J m h R.
Proof.
  intros Hm HIJ HQR. revert h Hm. induction m as [a|p k IH]; intros h; simpl; [auto|].
  intros [HI Hk]. eauto.
Qed.

Lemma obeys_weaken {A} I (m : program A) h (Q R : A -> list event -> Prop) :
  obeys I m h Q -> (forall a h, Q a h -> R a h) -> obeys I m h R.
Proof. intros Hm. eapply obeys_mono; eauto. Qed.

Lemma obeys_and {A} I J (m : program A) h (Q R : A -> list event -> Prop) :
  obeys I m h Q -> obeys J m h R ->
  obeys (fun h p => I h p /\ J h p) m h (fun a h => Q a h /\ R a h).
Proof.
  revert h. induction m as [a|p k IH]; intros h; simpl; [done|].
  intros [HI Hk] [HJ Hk']. split; [done|]. intros r. by apply IH.
Qed.

(** What [obeys] says of the runs: the result, and each call in the history
    before it. *)
Lemma obeys_result {A} I (m : program A) h Q t a :
  obeys I m h Q -> runs m t a -> Q a (reverse t ++ h).
Proof.
  revert h t. induction m as [a'|p k IH]; intros h t; simpl.
  - by intros HQ [-> ->].
  - intros [_ Hk] (r & t' & -> & Hr). rewrite reverse_cons, <- (assoc_L (++)). simpl. eapply IH; eauto.
Qed.

Lemma obeys_call {A} I (m : program A) h Q t a t1 p r t2 :
  obeys I m h Q -> runs m t a -> t = t1 ++ called p r :: t2 -> I (reverse t1 ++ h) p.
Proof.
  revert h t t1. induction m as [a'|q k IH]; intros h t t1; simpl.
  - intros _ [-> _] Ht. by destruct t1.
  - intros [HI Hk] (s & t' & -> & Hr) Ht. destruct t1 as [|e t1]; simpl in Ht.
    { assert (called q s = called p r) as He by congruence.
      apply (f_equal (@projT1 _ _)) in He. simpl in He. by subst q. }
    assert (t' = t1 ++ called p r :: t2 /\ e = called q s) as [-> ->] by (split; congruence).
    rewrite reverse_cons, <- (assoc_L (++)). simpl. eapply IH; eauto.
Qed.

(** A run from the empty history: what every call was made in, and what the
    program returned with. *)
Lemma obeys_sound {A} I (m : program A) Q t a :
  obeys I m [] Q -> runs m t a ->
  Q a (reverse t) /\ forall t1 p r t2, t = t1 ++ called p r :: t2 -> I (reverse t1) p.
Proof.
  intros Hm Hr. split.
  - rewrite <- (right_id_L [] (++) (reverse t)). by eapply obeys_result.
  - intros t1 p r t2 Ht. rewrite <- (right_id_L [] (++) (reverse t1)). by eapply obeys_call.
Qed.

Lemma run_runs {A} ports (m : program A) h :
  exists t, runs m t (run ports m h).1 /\ (run ports m h).2 = reverse t ++ h.
Proof.
  revert h. induction m as [a|p k IH]; intros h; simpl; [by exists []|].
  destruct (IH (ports h p) (called p (ports h p) :: h)) as (t & Hr & ->).
  exists (called p (ports h p) :: t).
  split; [by eauto|]. by rewrite reverse_cons, <- (assoc_L (++)).
Qed.

Lemma run_trace {A} ports (m : program A) :
  runs m (reverse (run ports m []).2) (run ports m []).1.
Proof.
  destruct (run_runs ports m []) as (t & Hr & ->).
  by rewrite (right_id_L [] (++)), reverse_involutive.
Qed.

(** Every program has a run, whatever the ports answer. *)
Lemma runs_total {A} (ports : forall p, answer p) (m : program A) : exists t a, runs m t a.
Proof. destruct (run_runs (fun _ => ports) m []) as (t & Hr & _). eauto. Qed.

(** *** Early return

    Go code that may return from the middle of its body is a program of a sum:
    [inl] is the value returned, [inr] what the rest goes on with. *)
Definition body (R A : Type) : Type := program (R + A).

Definition returning {R A} (r : R) : body R A := Ret (inl r).
Definition going {R A} (a : A) : body R A := Ret (inr a).

Definition seq {R A B} (m : body R A) (f : A -> body R B) : body R B :=
  bind m (fun x => match x with inl r => Ret (inl r) | inr a => f a end).

(** A call on the way. *)
Definition asking {R} (p : port) : body R (answer p) := Ask p (fun r => Ret (inr r)).

Lemma obeys_seq {R A B} I (m : body R A) (f : A -> body R B) h Q :
  obeys I (seq m f) h Q <->
  obeys I m h (fun x h' =>
    match x with inl r => Q (inl r) h' | inr a => obeys I (f a) h' Q end).
Proof.
  unfold seq. rewrite obeys_bind.
  split; intros Hm; (eapply obeys_weaken; [exact Hm|]); by intros [r|a] h'.
Qed.

Lemma obeys_asking {R B} I p (f : answer p -> body R B) h Q :
  I h p -> (forall r, obeys I (f r) (called p r :: h) Q) -> obeys I (seq (asking p) f) h Q.
Proof. done. Qed.

(** [for _, x := range l]: the body may leave the function, or go on with a
    new state. *)
Fixpoint each {R S X} (l : list X) (f : S -> X -> body R S) (s : S) : body R S :=
  match l with
  | [] => going s
  | x :: rest => seq (f s x) (each rest f)
  end.

Lemma obeys_each {R S X} I (Inv : list X -> S -> list event -> Prop) (QR : R -> list event -> Prop)
    (l : list X) (f : S -> X -> body R S) s h :
  Inv l s h ->
  (forall x rest s h, Inv (x :: rest) s h ->
     obeys I (f s x) h (fun y h' =>
       match y with inl r => QR r h' | inr s' => Inv rest s' h' end)) ->
  obeys I (each l f s) h (fun y h' =>
    match y with inl r => QR r h' | inr s' => Inv [] s' h' end).
Proof.
  intros Hl Hf. revert s h Hl. induction l as [|x l IH]; intros s h Hl; simpl; [done|].
  apply obeys_seq. eapply obeys_weaken; [by eapply Hf|].
  intros [r|s'] h' Hx; [done|by apply IH].
Qed.
End Programs.

Arguments program {port} answer A.
Arguments body {port} answer R A.
Arguments event {port} answer.
Arguments Ret {port answer A} a.
Arguments Ask {port answer A} & p k.
Arguments bind {port answer A B} & m f.
Arguments seq {port answer R A B} & m f.
Arguments asking {port answer R} & p.

Notation "'let?' x := m 'in' k" := (seq m (fun x => k))
  (at level 10, x pattern, m at level 100, k at level 200) : go_scope.
Notation "m ';;?' k" := (seq m (fun _ => k)) (at level 100, right associativity) : go_scope.
