(* ===== verification/GoErrors.v ===== *)
(** * Go errors and the provider's failures (src/internal/providers/errors.go)

    An error is a sentinel made by [errors.New], a value that wraps others (by
    [fmt.Errorf] with [%w], or [errors.Join]), or a provider [Failure]. A
    sentinel is compared by identity in Go; the texts of the sentinels the
    code compares are pairwise different, so the text stands for it.
    [Is] and [As_Failure] are [errors.Is] and [errors.As]: both look at the
    error and then, depth first, at what it wraps. *)

From S2P Require Import Prelude GoText.
Open Scope string_scope.
Open Scope list_scope.

Abbreviation Duration := Z.
Definition Millisecond : Duration := 1000000.
Definition Second : Duration := 1000000000.
Definition Minute : Duration := (60 * Second)%Z.
Definition Hour : Duration := (60 * Minute)%Z.

(** src/internal/providers/stream.go *)
Record PartialEffectEvidence := {
  StreamedOutput : bool;
  PartialToolCall : bool;
  ProviderAck : bool;
  LastSequence : Z;
}.

Definition no_partial_effect : PartialEffectEvidence :=
  {| StreamedOutput := false; PartialToolCall := false; ProviderAck := false;
     LastSequence := 0 |}.

Abbreviation FailureKind := string (only parsing).
Definition FailureTransport : FailureKind := "transport".
Definition FailureTimeout : FailureKind := "timeout".
Definition FailureRateLimited : FailureKind := "rate-limited".
Definition FailureAuthentication : FailureKind := "authentication".
Definition FailureInvalidRequest : FailureKind := "invalid-request".
Definition FailureSafety : FailureKind := "safety".
Definition FailureUnavailable : FailureKind := "unavailable".
Definition FailureCanceled : FailureKind := "canceled".

(** The fields of [Failure] but its cause. *)
Record FailureFields := {
  Failure_Kind : FailureKind;
  Failure_Operation : string;
  Failure_Retryable : bool;
  Failure_RetryAfter : Duration;
  Failure_PartialEffect : PartialEffectEvidence;
}.

#[local] Set Warnings "-register-all".
Inductive error : Type :=
| Sentinel (text : string)
| Wrapped (text : string) (causes : list error)
| Failure (fields : FailureFields) (Cause : option error).

Definition ErrTransport : string := "provider transport failure".
Definition ErrTimeout : string := "provider timeout".
Definition ErrRateLimited : string := "provider rate limited".
Definition ErrAuthentication : string := "provider authentication failed".
Definition ErrInvalidRequest : string := "provider request invalid".
Definition ErrSafety : string := "provider safety refusal".
Definition ErrUnavailable : string := "provider unavailable".
Definition ErrCanceled : string := "provider request canceled".

(** Package context's. *)
Definition Canceled : string := "context canceled".
Definition DeadlineExceeded : string := "context deadline exceeded".

Definition Failure_Error (f : FailureFields) : string :=
  if Failure_Operation f =? "" then "provider " +:+ Failure_Kind f +:+ " failure"
  else "provider " +:+ Failure_Operation f +:+ " failed: " +:+ Failure_Kind f.

Definition Error (e : error) : string :=
  match e with
  | Sentinel text => text
  | Wrapped text _ => text
  | Failure f _ => Failure_Error f
  end.

(** The sentinel of a kind, which [Unwrap] gives when there is no cause. *)
Definition kind_sentinel (kind : FailureKind) : option string :=
  if kind =? FailureTransport then Some ErrTransport
  else if kind =? FailureTimeout then Some ErrTimeout
  else if kind =? FailureRateLimited then Some ErrRateLimited
  else if kind =? FailureAuthentication then Some ErrAuthentication
  else if kind =? FailureInvalidRequest then Some ErrInvalidRequest
  else if kind =? FailureSafety then Some ErrSafety
  else if kind =? FailureUnavailable then Some ErrUnavailable
  else if kind =? FailureCanceled then Some ErrCanceled
  else None.

Definition Failure_Unwrap (f : FailureFields) (Cause : option error) : option error :=
  match Cause with
  | Some cause => Some cause
  | None => Sentinel <$> kind_sentinel (Failure_Kind f)
  end.

Fixpoint Is (e : error) (target : string) : bool :=
  match e with
  | Sentinel text => text =? target
  | Wrapped _ causes => existsb (fun cause => Is cause target) causes
  | Failure f (Some cause) => Is cause target
  | Failure f None =>
      match kind_sentinel (Failure_Kind f) with
      | Some text => text =? target
      | None => false
      end
  end.

Fixpoint As_Failure (e : error) : option FailureFields :=
  match e with
  | Sentinel _ => None
  | Wrapped _ causes =>
      (fix first (l : list error) : option FailureFields :=
         match l with
         | [] => None
         | cause :: rest =>
             match As_Failure cause with Some f => Some f | None => first rest end
         end) causes
  | Failure f _ => Some f
  end.

(** [errors.Is] on an error that may be [nil]. *)
Definition Is_opt (e : option error) (target : string) : bool :=
  match e with Some e => Is e target | None => false end.

(** [fmt.Errorf("%w: text", sentinel)], [fmt.Errorf("text: %w", err)],
    [fmt.Errorf("%w: %w", sentinel, err)] and [errors.Join]. *)
Definition sentinel_text (sentinel text : string) : error :=
  Wrapped (sentinel +:+ ": " +:+ text) [Sentinel sentinel].
Definition text_cause (text : string) (e : error) : error :=
  Wrapped (text +:+ ": " +:+ Error e) [e].
Definition sentinel_cause (sentinel : string) (e : error) : error :=
  Wrapped (sentinel +:+ ": " +:+ Error e) [Sentinel sentinel; e].
Definition join (e1 e2 : error) : error :=
  Wrapped (Error e1 +:+ bytes [10]%N +:+ Error e2) [e1; e2].

Lemma Is_sentinel_text s text : Is (sentinel_text s text) s = true.
Proof. cbn. by rewrite String.eqb_refl. Qed.

Lemma Is_sentinel_cause s e : Is (sentinel_cause s e) s = true.
Proof. cbn. by rewrite String.eqb_refl. Qed.

(** Wrapping with one cause is transparent. *)
Lemma Is_text_cause text e target : Is (text_cause text e) target = Is e target.
Proof. cbn. by rewrite orb_false_r. Qed.

#[export] Hint Rewrite Is_sentinel_text Is_sentinel_cause Is_text_cause : codeflux.
