(* ===== verification/Retry.v ===== *)
(** * Bounded provider retry (src/internal/providers/retry.go)

    [RetryExecutor.Execute] makes the physical requests of one logical request.
    Everything it calls is a port: the clock, the recorder, the admission gate
    it shares with other requests, the provider itself, the sleep between two
    attempts. The random fraction of the jitter is a rational, and the rounded
    product [time.Duration(float64(half) * fraction)] is a parameter [scale]. *)

From Stdlib Require Import Ascii QArith.
From S2P Require Import Prelude GoText PolicyValues ProviderTypes GoErrors Ports Admission.
Open Scope string_scope.
Open Scope list_scope.
Open Scope Z_scope.

Definition defaultMaximumProviderAttempts : Z := 3.
Definition defaultProviderRetryDelay : Duration := 250 * Millisecond.
Definition defaultMaximumProviderBackoff : Duration := 5 * Second.
Definition defaultMaximumProviderRetryWait : Duration := 15 * Second.
Definition defaultAttemptObserverTimeout : Duration := 5 * Second.
Definition defaultMaximumProviderConcurrency : Z := 4.
Definition maximumSupportedProviderConcurrency : Z := 64.
Definition maximumProviderRetryAfter : Duration := 24 * Hour.

Definition ErrInvalidRequestIdentity : string := "provider request identity is invalid".
Definition ErrRetryBudgetExhausted : string := "provider retry budget exhausted".
Definition ErrRetryUnsafeAfterPartial : string :=
  "provider retry is unsafe after partial observable effects".

(** The limits of [RetryPolicy]; its clock, sleep and random source are
    ports. *)
Record RetryPolicy := {
  MaximumAttempts : Z;
  InitialDelay : Duration;
  MaximumBackoff : Duration;
  MaximumCumulativeWait : Duration;
  ObserverTimeout : Duration;
  MaximumConcurrency : Z;
}.

Abbreviation AttemptDisposition := string (only parsing).
Definition AttemptSucceeded : AttemptDisposition := "succeeded".
Definition AttemptFailed : AttemptDisposition := "failed".
Definition AttemptRetryScheduled : AttemptDisposition := "retry-scheduled".
Definition AttemptRetryExhausted : AttemptDisposition := "retry-exhausted".
Definition AttemptRetryUnsafePartial : AttemptDisposition := "retry-unsafe-partial".
Definition AttemptCanceled : AttemptDisposition := "canceled".

Record PhysicalAttempt := {
  PhysicalAttempt_Identity : RequestIdentity;
  PhysicalAttempt_Number : Z;
  PhysicalAttempt_StartedAt : Z;
}.

(** src/internal/providers/types.go *)
Record RedactedProviderMetadata := {
  Metadata_RequestID : string;
  Metadata_ResponseID : string;
  Metadata_Fingerprint : string;
  Metadata_Fields : gmap string string;
}.

Record AttemptOutcome := {
  AttemptOutcome_Err : option error;
  AttemptOutcome_RetryAfter : Duration;
  AttemptOutcome_PartialEvidence : option PartialEffectEvidence;
  AttemptOutcome_ProviderRequestID : string;
  AttemptOutcome_SafeMetadata : option RedactedProviderMetadata;
  AttemptOutcome_FirstResponseAt : Z;
}.

Record AttemptRecord := {
  AttemptRecord_PhysicalAttempt : PhysicalAttempt;
  AttemptRecord_FinishedAt : Z;
  AttemptRecord_Disposition : AttemptDisposition;
  AttemptRecord_ProviderRetryAfter : Duration;
  AttemptRecord_RetryDelay : Duration;
  AttemptRecord_Err : option error;
  AttemptRecord_PartialEvidence : option PartialEffectEvidence;
  AttemptRecord_ProviderRequestID : string;
  AttemptRecord_SafeMetadata : option RedactedProviderMetadata;
  AttemptRecord_FirstResponseAt : Z;
}.

Record RetryResult := {
  RetryResult_Identity : RequestIdentity;
  RetryResult_Attempts : Z;
  RetryResult_CumulativeWait : Duration;
  RetryResult_LastOutcome : AttemptOutcome;
}.

Definition zero_outcome : AttemptOutcome :=
  {| AttemptOutcome_Err := None; AttemptOutcome_RetryAfter := 0;
     AttemptOutcome_PartialEvidence := None; AttemptOutcome_ProviderRequestID := "";
     AttemptOutcome_SafeMetadata := None; AttemptOutcome_FirstResponseAt := 0 |}.

Record RetryExecutor := { policy : RetryPolicy; admission : AdmissionController }.

(** ** Construction *)

Definition or_default (value default : Z) : Z := if value =? 0 then default else value.

Definition with_defaults (p : RetryPolicy) : RetryPolicy :=
  {| MaximumAttempts := or_default (MaximumAttempts p) defaultMaximumProviderAttempts;
     InitialDelay := or_default (InitialDelay p) defaultProviderRetryDelay;
     MaximumBackoff := or_default (MaximumBackoff p) defaultMaximumProviderBackoff;
     MaximumCumulativeWait :=
       or_default (MaximumCumulativeWait p) defaultMaximumProviderRetryWait;
     ObserverTimeout := or_default (ObserverTimeout p) defaultAttemptObserverTimeout;
     MaximumConcurrency :=
       or_default (MaximumConcurrency p) defaultMaximumProviderConcurrency |}.

Definition NewRetryExecutor (p : RetryPolicy) (recorder_is_nil : bool)
    : result error RetryExecutor :=
  let p := with_defaults p in
  if (MaximumAttempts p <? 1) || (10 <? MaximumAttempts p) then
    Err (Sentinel "provider maximum attempts is outside supported bounds")
  else if (InitialDelay p <? Millisecond) || (maximumProviderRetryAfter <? InitialDelay p) then
    Err (Sentinel "provider initial retry delay is outside supported bounds")
  else if (MaximumBackoff p <? InitialDelay p) || (maximumProviderRetryAfter <? MaximumBackoff p) then
    Err (Sentinel "provider maximum backoff is outside supported bounds")
  else if (MaximumCumulativeWait p <? InitialDelay p)
          || (maximumProviderRetryAfter <? MaximumCumulativeWait p) then
    Err (Sentinel "provider cumulative retry wait is outside supported bounds")
  else if (ObserverTimeout p <? Millisecond) || (Minute <? ObserverTimeout p) then
    Err (Sentinel "provider attempt observer timeout is outside supported bounds")
  else if (MaximumConcurrency p <? 1)
          || (maximumSupportedProviderConcurrency <? MaximumConcurrency p) then
    Err (Sentinel "provider maximum concurrency is outside supported bounds")
  else if recorder_is_nil then
    Err (Sentinel "provider attempt recorder is required")
  else
    match NewAdmissionController (MaximumConcurrency p) with
    | Err text => Err (text_cause "build provider admission point" (Sentinel text))
    | Ok admission => Ok {| policy := p; admission := admission |}
    end.

(** ** Identity *)

Definition validLowerSHA256 (value : string) : bool :=
  (Z.of_nat (String.length value) =? 64)
  && forallb (fun c => let n := N_of_ascii c in
                 ((48 <=? n)%N && (n <=? 57)%N) || ((97 <=? n)%N && (n <=? 102)%N))
       (String.list_ascii_of_string value).

Definition identity_error (text : string) : option error :=
  Some (sentinel_text ErrInvalidRequestIdentity text).

Definition required_fields (identity : RequestIdentity) : list (string * string) :=
  let provider := RequestIdentity_Provider identity in
  let model := RequestIdentity_Model identity in
  [("adapter", ProviderIdentity_Adapter provider);
   ("adapter version", ProviderIdentity_AdapterVersion provider);
   ("provider", ProviderIdentity_Provider provider);
   ("provider version", ProviderIdentity_ProviderVersion provider);
   ("model", ModelIdentity_Model model);
   ("model revision", ModelIdentity_Revision model);
   ("request hash", RequestIdentity_RequestHash identity)]%string.

Fixpoint check_required (fields : list (string * string)) : option error :=
  match fields with
  | [] => None
  | (name, value) :: rest =>
      if trimmed_bounded 255 value then check_required rest
      else identity_error (name +:+ " must be non-empty, trimmed, and at most 255 bytes")
  end.

Definition ValidateRequestIdentity (identity : RequestIdentity) : option error :=
  let idempotency := RequestIdentity_Idempotency identity in
  let supported := RequestIdempotency_ProviderSupported idempotency in
  let key := RequestIdempotency_Key idempotency in
  let scope := RequestIdempotency_ProviderScope idempotency in
  let logical := RequestIdentity_IdempotencyKey identity in
  if IsZero (RequestIdentity_ModelRequestID identity) then
    identity_error "model request ID is required"
  else match check_required (required_fields identity) with
  | Some err => Some err
  | None =>
    if negb (bool_decide (RequestIdentity_Provider identity =
                          ModelIdentity_Provider (RequestIdentity_Model identity))) then
      identity_error "model provider does not match request provider"
    else if negb (validLowerSHA256 (RequestIdentity_RequestHash identity)) then
      identity_error "request hash must be a lowercase SHA-256 digest"
    else if longer_than 255 key || longer_than 255 scope || longer_than 255 logical then
      identity_error "idempotency fields exceed 255 bytes"
    else if negb (TrimSpace logical =? logical)%string || (logical =? "")%string then
      identity_error "logical idempotency key is required"
    else if supported && (blank key || blank scope) then
      identity_error "provider idempotency requires a key and provider scope"
    else if supported && negb (logical =? key)%string then
      identity_error "idempotency keys disagree"
    else if negb supported && (negb (key =? "")%string || negb (scope =? "")%string) then
      identity_error "unsupported provider idempotency must not carry provider fields"
    else None
  end.

(** ** What a failure allows *)

Definition hasPartialEffectEvidence (evidence : option PartialEffectEvidence) : bool :=
  match evidence with
  | None => false
  | Some e => StreamedOutput e || PartialToolCall e || ProviderAck e || negb (LastSequence e =? 0)
  end.

Definition hasObservablePartialEffect (evidence : option PartialEffectEvidence) : bool :=
  match evidence with
  | None => false
  | Some e => StreamedOutput e || PartialToolCall e || negb (LastSequence e =? 0)
  end.

Definition isProviderBackpressureFailure (err : option error) : bool :=
  Is_opt err ErrRateLimited || Is_opt err ErrUnavailable.

Definition retryableProviderFailure (err : error) : bool :=
  match As_Failure err with
  | Some f =>
      if negb (Failure_Retryable f) then false
      else Is err ErrTransport || Is err ErrTimeout || Is err ErrRateLimited || Is err ErrUnavailable
  | None => Is err ErrTransport || Is err ErrTimeout || Is err ErrRateLimited || Is err ErrUnavailable
  end.

Definition normalizeAttemptOutcome (o : AttemptOutcome) : AttemptOutcome :=
  match AttemptOutcome_Err o ≫= As_Failure with
  | None => o
  | Some failure =>
      {| AttemptOutcome_Err := AttemptOutcome_Err o;
         AttemptOutcome_RetryAfter :=
           or_default (AttemptOutcome_RetryAfter o) (Failure_RetryAfter failure);
         AttemptOutcome_PartialEvidence :=
           match AttemptOutcome_PartialEvidence o with
           | Some e => Some e
           | None => if hasPartialEffectEvidence (Some (Failure_PartialEffect failure))
                     then Some (Failure_PartialEffect failure) else None
           end;
         AttemptOutcome_ProviderRequestID := AttemptOutcome_ProviderRequestID o;
         AttemptOutcome_SafeMetadata := AttemptOutcome_SafeMetadata o;
         AttemptOutcome_FirstResponseAt := AttemptOutcome_FirstResponseAt o |}
  end.

(** The evidence that forbids a retry: output or a tool call was seen, or the
    provider took the request and does not deduplicate it. *)
Definition unsafe_to_retry (identity : RequestIdentity) (o : AttemptOutcome) : bool :=
  hasObservablePartialEffect (AttemptOutcome_PartialEvidence o)
  || match AttemptOutcome_PartialEvidence o with
     | Some e => ProviderAck e
                 && negb (RequestIdempotency_ProviderSupported (RequestIdentity_Idempotency identity))
     | None => false
     end.

(** ** Backoff *)

Fixpoint deterministicBackoff_loop (turns : nat) (maximum delay : Duration) : Duration :=
  match turns with
  | O => if maximum <? delay then maximum else delay
  | S turns =>
      if maximum / 2 <=? delay then maximum
      else deterministicBackoff_loop turns maximum (delay * 2)
  end.

(** The loop runs [failedAttempt - 1] times. *)
Definition deterministicBackoff (p : RetryPolicy) (failedAttempt : Z) : Duration :=
  deterministicBackoff_loop (Z.to_nat (failedAttempt - 1)) (MaximumBackoff p) (InitialDelay p).

(** ** Execution *)

Inductive port : Type :=
| CtxErr
| CtxDeadline
| Now
| Random
| Prepare (attempt : PhysicalAttempt)
| GateAcquire
| GateRelease
| GateCeiling
| GateNarrow (newCeiling : Z)
| Attempt (attempt : PhysicalAttempt)
| Complete (record : AttemptRecord)
| Sleep (delay : Duration).

Definition answer (p : port) : Type :=
  match p with
  | CtxErr => option error
  | CtxDeadline => option Z
  | Now => Z
  | Random => Q
  | Prepare _ => option error
  | GateAcquire => option error
  | GateRelease => unit
  | GateCeiling => Z
  | GateNarrow _ => unit
  | Attempt _ => AttemptOutcome
  | Complete _ => option error
  | Sleep _ => option error
  end.

Section Execute.
Context (scale : Duration -> Q -> Duration).

Definition clamp01 (fraction : Q) : Q :=
  let fraction := if negb (Qle_bool 0 fraction) then 0%Q else fraction in
  if Qle_bool 1 fraction then 1%Q else fraction.

Definition jitter (base : Duration) : program answer Duration :=
  if base <=? 0 then Ret base
  else
    let half := base / 2 in
    Ask Random (fun fraction => Ret (half + scale half (clamp01 fraction))).

Definition backoff (p : RetryPolicy) (failedAttempt : Z) : program answer Duration :=
  jitter (deterministicBackoff p failedAttempt).

Abbreviation decision := (AttemptDisposition * Duration * option error)%type.

(** [decide] from the computed delay on. *)
Definition schedule (p : RetryPolicy) (cumulativeWait : Duration) (err : error) (delay : Duration)
    : program answer decision :=
  if (maximumProviderRetryAfter <? delay)
     || (MaximumCumulativeWait p - cumulativeWait <? delay) then
    Ret (AttemptRetryExhausted, 0,
         Some (Wrapped (ErrRetryBudgetExhausted
                        +:+ ": provider retry-after exceeds remaining wait budget: "
                        +:+ Error err) [Sentinel ErrRetryBudgetExhausted; err]))
  else
    Ask CtxDeadline (fun deadline =>
      match deadline with
      | None => Ret (AttemptRetryScheduled, delay, None)
      | Some deadline =>
          Ask Now (fun now =>
            if negb (now + delay <? deadline) then
              Ret (AttemptRetryExhausted, 0,
                   Some (Wrapped (ErrRetryBudgetExhausted
                                  +:+ ": provider retry delay exceeds request deadline: "
                                  +:+ Error err) [Sentinel ErrRetryBudgetExhausted; err]))
            else Ret (AttemptRetryScheduled, delay, None))
      end).

Definition decide_failure (p : RetryPolicy) (identity : RequestIdentity) (number : Z)
    (cumulativeWait : Duration) (outcome : AttemptOutcome) (err : error)
    : program answer decision :=
  if negb (retryableProviderFailure err) then Ret (AttemptFailed, 0, Some err)
  else if unsafe_to_retry identity outcome then
    Ret (AttemptRetryUnsafePartial, 0, Some (sentinel_cause ErrRetryUnsafeAfterPartial err))
  else if MaximumAttempts p <=? number then
    Ret (AttemptRetryExhausted, 0, Some (sentinel_cause ErrRetryBudgetExhausted err))
  else
    let delay := AttemptOutcome_RetryAfter outcome in
    if delay <? 0 then
      Ret (AttemptFailed, 0, Some (Sentinel "provider retry-after must not be negative"))
    else if delay =? 0 then bind (backoff p number) (schedule p cumulativeWait err)
    else schedule p cumulativeWait err delay.

Definition decide (p : RetryPolicy) (identity : RequestIdentity) (number : Z)
    (cumulativeWait : Duration) (outcome : AttemptOutcome) : program answer decision :=
  match AttemptOutcome_Err outcome with
  | None => Ret (AttemptSucceeded, 0, None)
  | Some err =>
      Ask CtxErr (fun ctxErr =>
        if negb (is_nil ctxErr) || Is err Canceled then Ret (AttemptCanceled, 0, Some err)
        else decide_failure p identity number cumulativeWait outcome err)
  end.

Abbreviation returned := (RetryResult * option error)%type.

Definition prepare (attempt : PhysicalAttempt) : program answer (option error) :=
  Ask (Prepare attempt) (fun err =>
    Ret (text_cause "prepare physical provider attempt" <$> err)).

Definition complete (record : AttemptRecord) : program answer (option error) :=
  Ask (Complete record) (fun err =>
    Ret (text_cause "complete physical provider attempt" <$> err)).

Definition attempt_record (physical : PhysicalAttempt) (finishedAt : Z) (outcome : AttemptOutcome)
    (disposition : AttemptDisposition) (delay : Duration) : AttemptRecord :=
  {| AttemptRecord_PhysicalAttempt := physical;
     AttemptRecord_FinishedAt := finishedAt;
     AttemptRecord_Disposition := disposition;
     AttemptRecord_ProviderRetryAfter := AttemptOutcome_RetryAfter outcome;
     AttemptRecord_RetryDelay := delay;
     AttemptRecord_Err := AttemptOutcome_Err outcome;
     AttemptRecord_PartialEvidence := AttemptOutcome_PartialEvidence outcome;
     AttemptRecord_ProviderRequestID := AttemptOutcome_ProviderRequestID outcome;
     AttemptRecord_SafeMetadata := AttemptOutcome_SafeMetadata outcome;
     AttemptRecord_FirstResponseAt := AttemptOutcome_FirstResponseAt outcome |}.

(** PIPE-069: pressure the provider reported narrows the gate by one. *)
Definition narrow_on_backpressure (disposition : AttemptDisposition) (outcome : AttemptOutcome)
    : body answer returned unit :=
  if (disposition =? AttemptRetryScheduled)%string
     && isProviderBackpressureFailure (AttemptOutcome_Err outcome) then
    let? c := asking GateCeiling in let? _ := asking (GateNarrow (c - 1)) in going tt
  else going tt.

(** The record is completed, and the request ends or sleeps. *)
Definition conclude (physical : PhysicalAttempt) (finishedAt : Z) (outcome : AttemptOutcome)
    (result : RetryResult) (d : decision) : body answer returned RetryResult :=
  let '(disposition, delay, terminalErr) := d in
  let? recordErr :=
    bind (complete (attempt_record physical finishedAt outcome disposition delay)) going in
  match recordErr with
  | Some recordErr =>
      match AttemptOutcome_Err outcome with
      | Some err => returning (result, Some (join err recordErr))
      | None => returning (result, Some recordErr)
      end
  | None =>
      match terminalErr with
      | Some err => returning (result, Some err)
      | None =>
          if (disposition =? AttemptSucceeded)%string then returning (result, None)
          else if (disposition =? AttemptFailed)%string || (disposition =? AttemptCanceled)%string then
            returning (result, AttemptOutcome_Err outcome)
          else
            let result :=
              {| RetryResult_Identity := RetryResult_Identity result;
                 RetryResult_Attempts := RetryResult_Attempts result;
                 RetryResult_CumulativeWait := RetryResult_CumulativeWait result + delay;
                 RetryResult_LastOutcome := RetryResult_LastOutcome result |} in
            let? err := asking (Sleep delay) in
            match err with
            | Some err => returning (result, Some err)
            | None => going result
            end
      end
  end.

(** The rest of an attempt once its outcome is decided. *)
Definition settle (physical : PhysicalAttempt) (finishedAt : Z) (outcome : AttemptOutcome)
    (result : RetryResult) (d : decision) : body answer returned RetryResult :=
  let? _ := narrow_on_backpressure d.1.1 outcome in
  conclude physical finishedAt outcome result d.

(** One turn of the loop of [Execute]. *)
Definition attempt_once (p : RetryPolicy) (identity : RequestIdentity) (number : Z)
    (result : RetryResult) : body answer returned RetryResult :=
  let? ctxErr := asking CtxErr in
  match ctxErr with
  | Some err => returning (result, Some err)
  | None =>
    let? startedAt := asking Now in
    let physical := {| PhysicalAttempt_Identity := identity; PhysicalAttempt_Number := number;
                       PhysicalAttempt_StartedAt := startedAt |} in
    let? prepareErr := bind (prepare physical) going in
    match prepareErr with
    | Some err => returning (result, Some err)
    | None =>
      let? admitErr := asking GateAcquire in
      match admitErr with
      | Some err => returning (result, Some (text_cause "admit physical provider attempt" err))
      | None =>
        let? outcome := asking (Attempt physical) in
        let? _ := asking GateRelease in
        let outcome := normalizeAttemptOutcome outcome in
        let? finishedAt := asking Now in
        let result :=
          {| RetryResult_Identity := RetryResult_Identity result;
             RetryResult_Attempts := number;
             RetryResult_CumulativeWait := RetryResult_CumulativeWait result;
             RetryResult_LastOutcome := outcome |} in
        let? d :=
          bind (decide p identity number (RetryResult_CumulativeWait result) outcome) going in
        settle physical finishedAt outcome result d
      end
    end
  end.

(** [for number := 1; number <= MaximumAttempts; number++]; [None] is running
    out of fuel. *)
Fixpoint attempts_from (fuel : nat) (p : RetryPolicy) (identity : RequestIdentity) (number : Z)
    (result : RetryResult) : program answer (option returned) :=
  if number <=? MaximumAttempts p then
    match fuel with
    | O => Ret None
    | S fuel =>
        bind (attempt_once p identity number result) (fun x =>
          match x with
          | inl r => Ret (Some r)
          | inr result => attempts_from fuel p identity (number + 1) result
          end)
    end
  else Ret (Some (result, Some (Sentinel ErrRetryBudgetExhausted))).

(** The attempt function is not [nil]. *)
Definition Execute (executor : RetryExecutor) (identity : RequestIdentity)
    : program answer (option returned) :=
  let result :=
    {| RetryResult_Identity := identity; RetryResult_Attempts := 0;
       RetryResult_CumulativeWait := 0; RetryResult_LastOutcome := zero_outcome |} in
  match ValidateRequestIdentity identity with
  | Some err => Ret (Some (result, Some err))
  | None =>
      attempts_from (Z.to_nat (MaximumAttempts (policy executor)))
        (policy executor) identity 1 result
  end.
End Execute.
