(* ===== verification/RetryFacts.v ===== *)
(** * What retrying promises

    The account of a run of [Execute] is the ledger of its calls: the attempts
    with their outcomes, the records completed, the delays slept and the slots
    of the gate it holds. The rule [may_call] says what the ledger must be at
    each call; the theorems follow from every run obeying it. *)

From Stdlib Require Import QArith.
From S2P Require Import Prelude GoText PolicyValues ProviderTypes GoErrors Ports Admission Retry.
Open Scope list_scope.
Open Scope Z_scope.

(** ** Construction *)

Record policy_ok (p : RetryPolicy) : Prop := {
  po_attempts : 1 <= MaximumAttempts p <= 10;
  po_initial : Millisecond <= InitialDelay p <= maximumProviderRetryAfter;
  po_backoff : InitialDelay p <= MaximumBackoff p <= maximumProviderRetryAfter;
  po_wait : InitialDelay p <= MaximumCumulativeWait p <= maximumProviderRetryAfter;
  po_observer : Millisecond <= ObserverTimeout p <= Minute;
  po_concurrency : 1 <= MaximumConcurrency p <= maximumSupportedProviderConcurrency;
}.

(** The constructor accepts exactly the policies that are in bounds once the
    defaults are filled in, and opens its gate at the configured width. *)
Lemma NewRetryExecutor_spec p recorder_is_nil e :
  NewRetryExecutor p recorder_is_nil = Ok e <->
  policy_ok (with_defaults p) /\ recorder_is_nil = false /\ policy e = with_defaults p /\
  NewAdmissionController (MaximumConcurrency (with_defaults p)) = Ok (admission e).
Proof.
  unfold NewRetryExecutor. split.
  - intros H. cbv zeta in H. if_cases H. to_prop.
    destruct (NewAdmissionController _) as [t|a] eqn:Ha; [done|].
    injection H as <-. split; [split; lia|done].
  - intros ([] & -> & Hp & Ha). cbv zeta. rewrite Ha.
    repeat match goal with
      |- context [if ?c then _ else _] =>
          replace c with false by (symmetry; apply orb_false_iff; split; apply Z.ltb_ge; lia)
    end. rewrite <- Hp. by destruct e.
Qed.

(** ** Backoff *)

Lemma deterministicBackoff_loop_spec turns maximum delay :
  (2 | maximum) -> 0 < delay ->
  deterministicBackoff_loop turns maximum delay = Z.min (delay * 2 ^ Z.of_nat turns) maximum.
Proof.
  intros [m ->]. revert delay. induction turns as [|n IH]; intros delay Hd; cbn -[Z.mul Z.div Z.pow Z.of_nat].
  - rewrite Z.mul_1_r. destruct (Z.ltb_spec (m * 2) delay); lia.
  - rewrite Z.div_mul by lia. rewrite Nat2Z.inj_succ, Z.pow_succ_r by lia.
    pose proof (Z.pow_pos_nonneg 2 (Z.of_nat n)).
    destruct (Z.leb_spec m delay); [nia|]. rewrite IH by lia. f_equal. lia.
Qed.

(** ** The ledger of a run *)

Record ledger := {
  prepared : list PhysicalAttempt;
  attempted : list (PhysicalAttempt * AttemptOutcome);
  completed : list AttemptRecord;
  unrecorded : list AttemptRecord;
  slept : list Duration;
  held : Z;
}.

Definition empty_ledger : ledger :=
  {| prepared := []; attempted := []; completed := []; unrecorded := []; slept := []; held := 0 |}.

Definition note (l : ledger) (e : event answer) : ledger :=
  let 'existT p r := e in
  match p return answer p -> ledger with
  | Prepare a => fun r =>
      if is_nil r then
        {| prepared := a :: prepared l; attempted := attempted l; completed := completed l; unrecorded := unrecorded l;
           slept := slept l; held := held l |}
      else l
  | GateAcquire => fun r =>
      if is_nil r then
        {| prepared := prepared l; attempted := attempted l; completed := completed l; unrecorded := unrecorded l;
           slept := slept l; held := held l + 1 |}
      else l
  | GateRelease => fun _ =>
      {| prepared := prepared l; attempted := attempted l; completed := completed l; unrecorded := unrecorded l;
         slept := slept l; held := held l - 1 |}
  | Attempt a => fun o =>
      {| prepared := prepared l; attempted := (a, o) :: attempted l; completed := completed l; unrecorded := unrecorded l;
         slept := slept l; held := held l |}
  | Complete rec => fun r =>
      {| prepared := prepared l; attempted := attempted l; completed := rec :: completed l;
         unrecorded := if is_nil r then unrecorded l else rec :: unrecorded l;
         slept := slept l; held := held l |}
  | Sleep d => fun _ =>
      {| prepared := prepared l; attempted := attempted l; completed := completed l; unrecorded := unrecorded l;
         slept := d :: slept l; held := held l |}
  | _ => fun _ => l
  end r.

(** Of a history, the latest call first. *)
Fixpoint ledger_of (h : list (event answer)) : ledger :=
  match h with [] => empty_ledger | e :: h => note (ledger_of h) e end.

Definition total_slept (l : ledger) : Duration := foldr Z.add 0 (slept l).

(** An outcome after which another attempt may be made. *)
Definition retry_safe (identity : RequestIdentity) (o : AttemptOutcome) : Prop :=
  exists err, AttemptOutcome_Err o = Some err /\ retryableProviderFailure err = true /\
    Is err Canceled = false /\ unsafe_to_retry identity o = false.

Definition retried (identity : RequestIdentity) (l : ledger) : Prop :=
  Forall (fun ao => retry_safe identity (normalizeAttemptOutcome (snd ao))) (attempted l).

(** What an outcome says was seen of the answer: its own evidence, or that of
    the failure it ended in. *)
Definition evidence (o : AttemptOutcome) : PartialEffectEvidence :=
  match AttemptOutcome_PartialEvidence o with
  | Some e => e
  | None =>
      match AttemptOutcome_Err o with
      | Some err => match As_Failure err with Some f => Failure_PartialEffect f | None => no_partial_effect end
      | None => no_partial_effect
      end
  end.

(** A failed attempt that may be followed by another: the failure is of a kind
    that passes, was not marked as final and is not a cancellation; no output,
    no tool call and no event of the answer was seen; and the request was not
    acknowledged by a provider that does not deduplicate it. *)
Record harmless (identity : RequestIdentity) (o : AttemptOutcome) : Prop := {
  hl_failure : exists err, AttemptOutcome_Err o = Some err /\
    (Is err ErrTransport || Is err ErrTimeout || Is err ErrRateLimited || Is err ErrUnavailable) = true /\
    (forall f, As_Failure err = Some f -> Failure_Retryable f = true) /\ Is err Canceled = false;
  hl_output : StreamedOutput (evidence o) = false;
  hl_tool_call : PartialToolCall (evidence o) = false;
  hl_events : LastSequence (evidence o) = 0;
  hl_acknowledged : ProviderAck (evidence o) = true ->
    RequestIdempotency_ProviderSupported (RequestIdentity_Idempotency identity) = true;
}.

Lemma retry_safe_harmless identity o :
  retry_safe identity (normalizeAttemptOutcome o) -> harmless identity o.
Proof.
  intros (err & He & Hr & Hc & Hu).
  assert (AttemptOutcome_Err o = Some err) as Herr.
  { rewrite <- He. unfold normalizeAttemptOutcome. by destruct (_ ≫= _). }
  assert (StreamedOutput (evidence o) = false /\ PartialToolCall (evidence o) = false /\
    LastSequence (evidence o) = 0 /\
    (ProviderAck (evidence o) && negb (RequestIdempotency_ProviderSupported
       (RequestIdentity_Idempotency identity))) = false) as (H1 & H2 & H3 & H4).
  { unfold unsafe_to_retry, hasObservablePartialEffect, normalizeAttemptOutcome in Hu.
    unfold evidence. rewrite Herr in *. cbn [mbind option_bind] in Hu.
    destruct (AttemptOutcome_PartialEvidence o) as [e|] eqn:Hp; destruct (As_Failure err) as [f|];
      cbn [AttemptOutcome_PartialEvidence] in Hu; rewrite ?Hp in Hu;
      try (destruct (hasPartialEffectEvidence _) eqn:Hh; unfold hasPartialEffectEvidence in Hh);
      try done; rewrite ?orb_false_iff, ?negb_false_iff, ?Z.eqb_eq in *; tauto || (cbn; destruct_and!; split_and!; try done; congruence || by rewrite andb_false_iff; left). }
  unfold retryableProviderFailure in Hr.
  split; try done.
  - exists err. split; [done|]. destruct (As_Failure err) as [f|].
    + destruct (Failure_Retryable f) eqn:Hf; [|done]. split; [done|]. split; [by intros ? [= <-]|done].
    + split; [done|]. split; [by intros ? [=]|done].
  - intros Ha. rewrite Ha in H4. cbn in H4. by apply negb_false_iff.
Qed.

(** The attempts made so far are numbered from one, all for one identity, and
    the records completed are theirs. *)
Fixpoint numbered (identity : RequestIdentity) (l : list PhysicalAttempt) : Prop :=
  match l with
  | [] => True
  | a :: rest => PhysicalAttempt_Identity a = identity /\
                 PhysicalAttempt_Number a = Z.of_nat (length rest) + 1 /\ numbered identity rest
  end.

Definition attributed (identity : RequestIdentity) (l : ledger) : Prop :=
  numbered identity (attempted l).*1 /\
  map AttemptRecord_PhysicalAttempt (completed l) = (attempted l).*1.

(** What the ledger must be when a call is made. *)
Definition may_call (p : RetryPolicy) (identity : RequestIdentity) (l : ledger) (c : port) : Prop :=
  match c with
  | Prepare a => PhysicalAttempt_Identity a = identity /\
      PhysicalAttempt_Number a = Z.of_nat (length (attempted l)) + 1 /\ held l = 0
  | GateAcquire => held l = 0
  | Attempt a =>
      head (prepared l) = Some a /\ held l = 1 /\ retried identity l /\ attributed identity l /\
      PhysicalAttempt_Identity a = identity /\
      PhysicalAttempt_Number a = Z.of_nat (length (attempted l)) + 1 /\
      PhysicalAttempt_Number a <= MaximumAttempts p /\ unrecorded l = []
  | GateRelease => held l = 1
  | Complete rec =>
      held l = 0 /\
      exists a o rest, attempted l = (a, o) :: rest /\ AttemptRecord_PhysicalAttempt rec = a /\
        AttemptRecord_Err rec = AttemptOutcome_Err o /\
        map AttemptRecord_PhysicalAttempt (completed l) = rest.*1
  | Sleep d => held l = 0 /\ 0 < d /\ total_slept l + d <= MaximumCumulativeWait p /\
      retried identity l /\ attributed identity l
  | _ => True
  end.

(** ** Every run obeys the rule *)

Section Obeys.
Context (scale : Duration -> Q -> Duration).

(** The rounded product of a duration below a day and a fraction of the unit
    interval stays between zero and the duration. *)
Hypothesis scale_between : forall half fraction,
  0 <= half <= maximumProviderRetryAfter -> (0 <= fraction <= 1)%Q ->
  0 <= scale half fraction <= half.

Context (p : RetryPolicy) (identity : RequestIdentity).
Hypothesis Hp : policy_ok p.

Abbreviation rule := (fun h c => may_call p identity (ledger_of h) c).

Lemma clamp01_between fraction : (0 <= clamp01 fraction <= 1)%Q.
Proof.
  unfold clamp01.
  destruct (Qle_bool 0 fraction) eqn:H0; simpl;
    [|split; by apply Qle_bool_iff].
  apply Qle_bool_iff in H0. destruct (Qle_bool 1 fraction) eqn:H1.
  - split; by apply Qle_bool_iff.
  - split; [done|]. apply Qlt_le_weak, Qnot_le_lt. intros Hle.
    apply Qle_bool_iff in Hle. congruence.
Qed.

Lemma deterministicBackoff_bounds n :
  InitialDelay p <= deterministicBackoff p n <= MaximumBackoff p.
Proof.
  unfold deterministicBackoff. destruct Hp.
  assert (forall turns d, InitialDelay p <= d ->
    InitialDelay p <= deterministicBackoff_loop turns (MaximumBackoff p) d <= MaximumBackoff p) as H.
  { unfold Millisecond in *.
    induction turns as [|m IH]; intros d Hd; cbn -[Z.div Z.mul].
    - destruct (Z.ltb_spec (MaximumBackoff p) d); lia.
    - destruct (Z.leb_spec (MaximumBackoff p / 2) d); [lia|]. apply IH. lia. }
  apply H. lia.
Qed.

(** The jittered delay lies in the upper half of the schedule. *)
Lemma jitter_range base fraction :
  0 < base <= maximumProviderRetryAfter ->
  let d := base / 2 + scale (base / 2) (clamp01 fraction) in
  base - 1 <= 2 * d /\ d <= base.
Proof.
  intros Hb d. pose proof (Z.div_mod base 2). pose proof (Z.mod_pos_bound base 2).
  pose proof (scale_between (base / 2) (clamp01 fraction)) as Hs.
  specialize (Hs ltac:(lia) (clamp01_between fraction)). lia.
Qed.

Lemma backoff_obeys n h Q :
  (forall d h', ledger_of h' = ledger_of h -> 0 < d -> Q d h') ->
  obeys rule (backoff scale p n) h Q.
Proof.
  intros HQ. unfold backoff, jitter. pose proof (deterministicBackoff_bounds n) as Hb.
  destruct Hp. unfold Millisecond in *. set (base := deterministicBackoff p n) in *.
  destruct (Z.leb_spec base 0); [lia|]. cbn -[Z.div]. split; [done|]. intros r.
  pose proof (jitter_range base r ltac:(lia)). cbn -[Z.div] in *. apply HQ; [done|lia].
Qed.

(** What [decide] says, when the total wait is [wait]. *)
Definition decision_ok (number wait : Z) (o : AttemptOutcome)
    (d : AttemptDisposition * Duration * option error) : Prop :=
  let '(disposition, delay, terminalErr) := d in
  (disposition = AttemptSucceeded /\ terminalErr = None /\ AttemptOutcome_Err o = None) \/
  (disposition = AttemptRetryScheduled /\ terminalErr = None /\ 0 < delay /\
   wait + delay <= MaximumCumulativeWait p /\ number < MaximumAttempts p /\ retry_safe identity o) \/
  (disposition <> AttemptSucceeded /\ disposition <> AttemptRetryScheduled /\
   is_Some terminalErr /\ is_Some (AttemptOutcome_Err o)).

Lemma schedule_obeys number wait o err delay h Q :
  AttemptOutcome_Err o = Some err -> number < MaximumAttempts p -> 0 < delay ->
  retry_safe identity o ->
  (forall d h', ledger_of h' = ledger_of h -> decision_ok number wait o d -> Q d h') ->
  obeys rule (schedule p wait err delay) h Q.
Proof.
  intros Ho Hn Hd Hr HQ. unfold schedule.
  assert (forall e, decision_ok number wait o (AttemptRetryExhausted, 0, Some e)) as Hex.
  { intros e. right; right. repeat split; eauto. all: done. }
  destruct (_ || _) eqn:E; [cbn; by apply HQ|]. to_prop.
  assert (decision_ok number wait o (AttemptRetryScheduled, delay, None)).
  { right; left. repeat split; auto; lia. }
  cbn. split; [done|]. intros [deadline|]; cbn; [|by apply HQ].
  split; [done|]. intros now. destruct (negb _); cbn; by apply HQ.
Qed.

Lemma decide_obeys number wait o h Q :
  (forall d h', ledger_of h' = ledger_of h -> decision_ok number wait o d -> Q d h') ->
  obeys rule (decide scale p identity number wait o) h Q.
Proof.
  intros HQ. unfold decide. destruct (AttemptOutcome_Err o) as [err|] eqn:Ho.
  2:{ apply HQ; [done|]. left. done. }
  cbn. split; [done|]. intros ctxErr.
  assert (forall disp e, disp <> AttemptSucceeded -> disp <> AttemptRetryScheduled ->
    decision_ok number wait o (disp, 0, Some e)) as Hend.
  { intros. right; right. rewrite Ho. eauto. }
  destruct (_ || _) eqn:Hc; cbn; [by apply HQ, Hend|]. to_prop.
  unfold decide_failure. destruct (retryableProviderFailure err) eqn:Hr; cbn; [|by apply HQ, Hend].
  destruct (unsafe_to_retry identity o) eqn:Hu; cbn; [by apply HQ, Hend|].
  destruct (Z.leb_spec (MaximumAttempts p) number); cbn; [by apply HQ, Hend|].
  destruct (Z.ltb_spec (AttemptOutcome_RetryAfter o) 0); cbn; [by apply HQ, Hend|].
  assert (retry_safe identity o) by (exists err; tauto).
  destruct (Z.eqb_spec (AttemptOutcome_RetryAfter o) 0).
  - apply obeys_bind, backoff_obeys. intros d h' Hh' Hd.
    eapply schedule_obeys; eauto. intros d' h'' Hh''. apply HQ. by rewrite Hh''.
  - eapply schedule_obeys; eauto. lia.
Qed.

(** The ledger between two attempts: [number - 1] were made, each recorded and
    each safe to retry, and no slot is held. *)
Record between (number : Z) (r : RetryResult) (l : ledger) : Prop := {
  bt_number : number = Z.of_nat (length (attempted l)) + 1;
  bt_bound : number <= MaximumAttempts p;
  bt_retried : retried identity l;
  bt_attributed : attributed identity l;
  bt_recorded : unrecorded l = [];
  bt_held : held l = 0;
  bt_attempts : RetryResult_Attempts r = Z.of_nat (length (attempted l));
  bt_slept : RetryResult_CumulativeWait r = total_slept l;
  bt_wait : total_slept l <= MaximumCumulativeWait p;
}.

(** What a run may end with. *)
Record ended (r : RetryResult) (err : option error) (l : ledger) : Prop := {
  en_attempts : RetryResult_Attempts r = Z.of_nat (length (attempted l));
  en_bound : Z.of_nat (length (attempted l)) <= MaximumAttempts p;
  en_attributed : attributed identity l;
  en_held : held l = 0;
  en_slept : RetryResult_CumulativeWait r = total_slept l;
  en_wait : total_slept l <= MaximumCumulativeWait p;
  en_nil : err = None -> exists a o rest, attempted l = (a, o) :: rest /\
    AttemptOutcome_Err o = None;
}.

Lemma normalize_err o : AttemptOutcome_Err (normalizeAttemptOutcome o) = AttemptOutcome_Err o.
Proof. unfold normalizeAttemptOutcome. by destruct (_ ≫= _). Qed.

(** The ledger when the latest attempt was answered and its slot released, but
    its record not completed. *)
Record answered (physical : PhysicalAttempt) (o : AttemptOutcome)
    (rest : list (PhysicalAttempt * AttemptOutcome)) (r : RetryResult) (l : ledger) : Prop := {
  an_attempted : attempted l = (physical, o) :: rest;
  an_bound : Z.of_nat (length (attempted l)) <= MaximumAttempts p;
  an_numbered : numbered identity (attempted l).*1;
  an_completed : map AttemptRecord_PhysicalAttempt (completed l) = rest.*1;
  an_recorded : unrecorded l = [];
  an_retried : Forall (fun ao => retry_safe identity (normalizeAttemptOutcome (snd ao))) rest;
  an_held : held l = 0;
  an_attempts : RetryResult_Attempts r = Z.of_nat (length (attempted l));
  an_slept : RetryResult_CumulativeWait r = total_slept l;
  an_wait : total_slept l <= MaximumCumulativeWait p;
}.

Definition ending (Q : RetryResult * option error + RetryResult -> list (event answer) -> Prop)
    (number : Z) : Prop :=
  (forall r e h', ended r e (ledger_of h') -> Q (inl (r, e)) h') /\
  (forall r h', between (number + 1) r (ledger_of h') -> Q (inr r) h').

Lemma conclude_obeys physical finishedAt o rest r d h Q :
  answered physical o rest r (ledger_of h) ->
  decision_ok (RetryResult_Attempts r) (RetryResult_CumulativeWait r)
    (normalizeAttemptOutcome o) d ->
  ending Q (RetryResult_Attempts r) ->
  obeys rule (conclude physical finishedAt (normalizeAttemptOutcome o) r d) h Q.
Proof.
  intros [Hatt Hb Hnum Hcomp Hrec Hret Hheld Hra Hrw Hwait] Hd [HQe HQb].
  destruct d as [[disp delay] terr]. cbn. split.
  { split; [done|]. exists physical, o, rest. cbn. by rewrite normalize_err. }
  intros recordErr. match goal with |- obeys _ _ ?h' _ => set (h1 := h') end.
  assert (attributed identity (ledger_of h1)) as Ha1.
  { split; [done|]. cbn. rewrite Hatt, Hcomp. done. }
  assert (forall e, (e = None -> AttemptOutcome_Err o = None) -> ended r e (ledger_of h1)) as Hend.
  { intros e He. split; try done. intros ->. exists physical, o, rest. split; [done|]. by apply He. }
  destruct recordErr as [re|]; cbn.
  { destruct (AttemptOutcome_Err (normalizeAttemptOutcome o)); cbn; by apply HQe, Hend. }
  destruct terr as [te|]; cbn; [by apply HQe, Hend|].
  destruct Hd as [(-> & _ & He)|[(-> & _ & Hd0 & Hdw & Hdn & Hs)|(_ & _ & [? [=]] & _)]].
  - cbn. apply HQe, Hend. by rewrite <- normalize_err.
  - assert (retried identity (ledger_of h1)) as Hr1.
    { unfold retried. cbn. rewrite Hatt. by constructor. }
    unfold total_slept in *.
    cbn. split; [refine (conj Hheld (conj Hd0 (conj _ (conj Hr1 Ha1)))); lia|].
    intros [se|]; cbn.
    + apply HQe. split; try done; unfold total_slept; cbn; lia.
    + apply HQb. split; try done; unfold total_slept; cbn; lia.
Qed.

Lemma settle_obeys physical finishedAt o rest r d h Q :
  answered physical o rest r (ledger_of h) ->
  decision_ok (RetryResult_Attempts r) (RetryResult_CumulativeWait r)
    (normalizeAttemptOutcome o) d ->
  ending Q (RetryResult_Attempts r) ->
  obeys rule (settle physical finishedAt (normalizeAttemptOutcome o) r d) h Q.
Proof.
  intros Ha Hd HQ. unfold settle, narrow_on_backpressure.
  destruct (_ && _); cbn; [|by eapply conclude_obeys].
  split; [done|]. intros c. split; [done|]. intros []. by eapply conclude_obeys.
Qed.

Lemma attempt_once_obeys number r h Q :
  between number r (ledger_of h) -> ending Q number ->
  obeys rule (attempt_once scale p identity number r) h Q.
Proof.
  intros [Hn Hmax Hret Hatt Hrec Hheld Hra Hrw Hw] HQ.
  assert (forall e h', ledger_of h' = ledger_of h -> e <> None -> Q (inl (r, e)) h') as Hleave.
  { intros e h' Hh' He. apply HQ. rewrite Hh'. split; try done. lia. }
  unfold attempt_once. cbn. split; [done|]. intros [ce|]; cbn; [by apply Hleave|].
  split; [done|]. intros startedAt. split; [done|].
  intros [pe|]; cbn; [by apply Hleave|]. split; [done|].
  intros [ae|]; cbn.
  { apply HQ. split; try done. cbn. lia. }
  split.
  { split_and!; try done; cbn; lia. }
  intros o. split; [cbn; lia|]. intros []. split; [done|]. intros finishedAt.
  apply obeys_seq, obeys_bind, decide_obeys. intros d h' Hh' Hd. cbn in Hh'.
  change (obeys rule (settle
    {| PhysicalAttempt_Identity := identity; PhysicalAttempt_Number := number;
       PhysicalAttempt_StartedAt := startedAt |} finishedAt (normalizeAttemptOutcome o)
    {| RetryResult_Identity := RetryResult_Identity r; RetryResult_Attempts := number;
       RetryResult_CumulativeWait := RetryResult_CumulativeWait r;
       RetryResult_LastOutcome := normalizeAttemptOutcome o |} d) h' Q).
  eapply settle_obeys; [rewrite Hh'|exact Hd|exact HQ].
  split; cbn; try done; try lia; [split_and!; [done|rewrite length_fmap; lia|apply Hatt]|apply Hatt].
Qed.

Lemma attempts_from_obeys fuel number r h :
  MaximumAttempts p < number + Z.of_nat fuel -> between number r (ledger_of h) ->
  obeys rule (attempts_from scale fuel p identity number r) h
    (fun x h' => exists r err, x = Some (r, err) /\ ended r err (ledger_of h')).
Proof.
  revert number r h. induction fuel as [|fuel IH]; intros number r h Hf Hbt.
  { destruct Hbt. lia. }
  cbn [attempts_from]. destruct (Z.leb_spec number (MaximumAttempts p)) as [_|]; [|by destruct Hbt; lia].
  apply obeys_bind. apply attempt_once_obeys; [done|]. split.
  - intros r' e h' He. cbn. eauto.
  - intros r' h' Hb. apply IH; [lia|done].
Qed.
End Obeys.

Lemma Execute_obeys scale e identity :
  (forall half fraction, 0 <= half <= maximumProviderRetryAfter -> (0 <= fraction <= 1)%Q ->
     0 <= scale half fraction <= half) ->
  policy_ok (policy e) ->
  obeys (fun h c => may_call (policy e) identity (ledger_of h) c) (Execute scale e identity) []
    (fun x h' => exists r err, x = Some (r, err) /\ ended (policy e) identity r err (ledger_of h')).
Proof.
  intros Hs Hp. unfold Execute. destruct (ValidateRequestIdentity identity) as [err|].
  - cbn. eexists _, _. split; [done|]. destruct Hp. unfold Millisecond in *.
    split; try done; unfold total_slept; cbn; lia.
  - apply attempts_from_obeys; [done|done|lia|]. destruct Hp. unfold Millisecond in *.
    split; try done; unfold total_slept; cbn; lia || by constructor.
Qed.

(** ** The theorems *)

Section Theorems.
Context (scale : Duration -> Q -> Duration).

(** [time.Duration(float64(half) * fraction)]: a float64 holds a duration below
    a day exactly and rounding is monotone, so a fraction of the unit interval
    gives at most the duration. *)
Hypothesis scale_between : forall half fraction,
  0 <= half <= maximumProviderRetryAfter -> (0 <= fraction <= 1)%Q ->
  0 <= scale half fraction <= half.

Context (p : RetryPolicy) (e : RetryExecutor).
Hypothesis built : NewRetryExecutor p false = Ok e.

Lemma built_policy_ok : policy_ok (policy e).
Proof. apply NewRetryExecutor_spec in built as (Hp & _ & -> & _). done. Qed.

(** Retrying is bounded and accounted for. Whatever the clock, the
    provider, the recorder, the gate and the context answer, [Execute] returns,
    after at most the configured number of attempts and at most the configured
    total of sleeps, both as its result reports them; every attempt has had its
    record completed under its own number and identity, no slot of the gate is
    left held, and a [nil] error means that the last attempt succeeded. *)
Theorem Execute_bounded identity t x :
  runs (Execute scale e identity) t x ->
  let l := ledger_of (reverse t) in
  exists r err, x = Some (r, err) /\
    RetryResult_Attempts r = Z.of_nat (length (attempted l)) /\
    Z.of_nat (length (attempted l)) <= MaximumAttempts (policy e) /\
    MaximumAttempts (policy e) <= 10 /\
    RetryResult_CumulativeWait r = total_slept l /\
    total_slept l <= MaximumCumulativeWait (policy e) /\
    MaximumCumulativeWait (policy e) <= maximumProviderRetryAfter /\
    attributed identity l /\ held l = 0 /\
    (err = None -> exists a o rest, attempted l = (a, o) :: rest /\ AttemptOutcome_Err o = None).
Proof.
  intros Hr l. pose proof built_policy_ok as Hp.
  destruct (obeys_sound _ _ _ _ _ (Execute_obeys scale e identity scale_between Hp) Hr)
    as [(r & err & -> & []) _].
  destruct Hp. exists r, err. split_and!; try done; lia.
Qed.

(** [C25] A physical request is made only when it is safe and attributable. At
    every attempt of every run: the attempt carries the logical request's own
    identity and the next number, its durable preparation has just succeeded,
    it holds exactly one slot of the admission gate; every earlier attempt
    carried that identity and its own number and had its record completed,
    which the recorder answered without an error; and each of them ended in a
    failure that may pass, not marked as final and not a cancellation, with no
    output, tool call or event of the answer seen, and no acknowledgement by a
    provider that does not deduplicate the request. *)
Theorem attempts_are_safe identity t x t1 a o t2 :
  runs (Execute scale e identity) t x -> t = t1 ++ called (Attempt a) o :: t2 ->
  let l := ledger_of (reverse t1) in
  PhysicalAttempt_Identity a = identity /\
  PhysicalAttempt_Number a = Z.of_nat (length (attempted l)) + 1 /\
  head (prepared l) = Some a /\ held l = 1 /\ attributed identity l /\ unrecorded l = [] /\
  Forall (fun ao => harmless identity (snd ao)) (attempted l).
Proof.
  intros Hr Ht l.
  destruct (obeys_sound _ _ _ _ _ (Execute_obeys scale e identity scale_between built_policy_ok) Hr)
    as [_ Hcall].
  destruct (Hcall _ _ _ _ Ht) as (? & ? & Hret & ? & ? & ? & ? & ?). split_and!; try done.
  eapply Forall_impl; [exact Hret|]. intros ao. apply retry_safe_harmless.
Qed.

(** A request that backs off holds no slot: whenever a run sleeps, the
    slot of its last attempt has been given back, the delay is positive and
    fits in what is left of the total, and the failure before it was safe to
    retry. *)
Theorem sleeps_hold_no_slot identity t x t1 d err t2 :
  runs (Execute scale e identity) t x -> t = t1 ++ called (Sleep d) err :: t2 ->
  let l := ledger_of (reverse t1) in
  held l = 0 /\ 0 < d /\ total_slept l + d <= MaximumCumulativeWait (policy e) /\
  retried identity l.
Proof.
  intros Hr Ht l.
  destruct (obeys_sound _ _ _ _ _ (Execute_obeys scale e identity scale_between built_policy_ok) Hr)
    as [_ Hcall].
  destruct (Hcall _ _ _ _ Ht) as (? & ? & ? & ? & ?). done.
Qed.

(** The backoff is the capped doubling its comment describes: with an even
    cap, the delay before jitter after the n-th failure is the initial delay
    times two to the n-1, or the cap when that is less; jitter then takes a
    value from the upper half of it. *)
Theorem backoff_doubles n t d :
  1 <= n -> (2 | MaximumBackoff (policy e)) ->
  runs (backoff scale (policy e) n) t d ->
  let base := Z.min (InitialDelay (policy e) * 2 ^ (n - 1)) (MaximumBackoff (policy e)) in
  deterministicBackoff (policy e) n = base /\ base - 1 <= 2 * d /\ d <= base.
Proof.
  intros Hn Heven Hr base. pose proof built_policy_ok as Hp.
  assert (deterministicBackoff (policy e) n = base) as Hb.
  { unfold deterministicBackoff. destruct Hp. unfold Millisecond in *.
    rewrite deterministicBackoff_loop_spec by (done || lia).
    rewrite Z2Nat.id by lia. done. }
  split; [done|]. rewrite <- Hb. unfold backoff, jitter in Hr.
  pose proof (deterministicBackoff_bounds (policy e) Hp n). destruct Hp. unfold Millisecond in *.
  destruct (Z.leb_spec (deterministicBackoff (policy e) n) 0); [lia|].
  destruct Hr as (f & t' & _ & _ & ->). by apply jitter_range; [|lia].
Qed.
End Theorems.

(** ** Witnesses *)

(** The exact product, rounded down. *)
Definition exact_scale (half : Duration) (fraction : Q) : Duration :=
  Qnum fraction * half / Zpos (Qden fraction).

Lemma exact_scale_between half fraction :
  0 <= half <= maximumProviderRetryAfter -> (0 <= fraction <= 1)%Q ->
  0 <= exact_scale half fraction <= half.
Proof.
  destruct fraction as [n d]. unfold exact_scale, Qle. cbn [Qnum Qden]. intros Hh [H0 H1].
  rewrite Z.mul_1_l in H1. split; [apply Z.div_pos; nia|].
  apply Z.div_le_upper_bound; nia.
Qed.

Definition sample_provider : ProviderIdentity :=
  {| ProviderIdentity_Adapter := "openai"; ProviderIdentity_AdapterVersion := "1";
     ProviderIdentity_Provider := "openai"; ProviderIdentity_ProviderVersion := "v1" |}.

Definition sample_identity : RequestIdentity :=
  {| RequestIdentity_ModelRequestID := "model-request-1";
     RequestIdentity_Provider := sample_provider;
     RequestIdentity_Model :=
       {| ModelIdentity_Provider := sample_provider; ModelIdentity_Model := "m";
          ModelIdentity_Revision := "r" |};
     RequestIdentity_Idempotency :=
       {| RequestIdempotency_ProviderSupported := false; RequestIdempotency_Key := "";
          RequestIdempotency_ProviderScope := "" |};
     RequestIdentity_IdempotencyKey := "key";
     RequestIdentity_RequestHash :=
       "00112233445566778899aabbccddeeff00112233445566778899aabbccddeeff" |}.

Definition zero_policy : RetryPolicy :=
  {| MaximumAttempts := 0; InitialDelay := 0; MaximumBackoff := 0;
     MaximumCumulativeWait := 0; ObserverTimeout := 0; MaximumConcurrency := 0 |}.

Definition default_executor : RetryExecutor :=
  {| policy := with_defaults zero_policy;
     admission := {| slots := 4; ceiling := 4; maximum := 4; drainDebt := 0 |} |}.

Definition rate_limited : AttemptOutcome :=
  {| AttemptOutcome_Err := Some (Failure
       {| Failure_Kind := FailureRateLimited; Failure_Operation := "stream";
          Failure_Retryable := true; Failure_RetryAfter := 0;
          Failure_PartialEffect := no_partial_effect |} None);
     AttemptOutcome_RetryAfter := 0; AttemptOutcome_PartialEvidence := None;
     AttemptOutcome_ProviderRequestID := ""; AttemptOutcome_SafeMetadata := None;
     AttemptOutcome_FirstResponseAt := 0 |}.

(** Ports under which the first attempt is rate limited and the second
    succeeds. *)
Definition sample_ports (h : list (event answer)) (q : port) : answer q :=
  match q with
  | CtxErr => None
  | CtxDeadline => None
  | Now => 0
  | Random => 1 # 2
  | Prepare _ => None
  | GateAcquire => None
  | GateRelease => tt
  | GateCeiling => 4
  | GateNarrow _ => tt
  | Attempt a => if PhysicalAttempt_Number a =? 1 then rate_limited else zero_outcome
  | Complete _ => None
  | Sleep _ => None
  end.

Definition sample_run : list (event answer) :=
  reverse (run sample_ports (Execute exact_scale default_executor sample_identity) []).2.

Definition sample_attempt (number : Z) : PhysicalAttempt :=
  {| PhysicalAttempt_Identity := sample_identity; PhysicalAttempt_Number := number;
     PhysicalAttempt_StartedAt := 0 |}.

Lemma default_executor_built : NewRetryExecutor zero_policy false = Ok default_executor.
Proof. vm_compute. reflexivity. Qed.

Lemma Execute_bounded_witness :
  exists x, runs (Execute exact_scale default_executor sample_identity) sample_run x /\
  length (attempted (ledger_of (reverse sample_run))) = 2%nat /\
  exists r err, x = Some (r, err) /\ RetryResult_Attempts r <= 3.
Proof.
  pose proof (run_trace sample_ports (Execute exact_scale default_executor sample_identity)) as Hr.
  eexists. split; [exact Hr|]. split; [vm_compute; reflexivity|].
  destruct (Execute_bounded exact_scale exact_scale_between zero_policy default_executor
    default_executor_built sample_identity _ _ Hr) as (r & err & Hx & Ha & Hb & _).
  exists r, err. split; [exact Hx|]. rewrite Ha. exact Hb.
Defined.

Lemma attempts_are_safe_witness :
  sample_run = take 18 sample_run ++ called (Attempt (sample_attempt 2)) zero_outcome
                 :: drop 19 sample_run /\
  unrecorded (ledger_of (reverse (take 18 sample_run))) = [] /\
  Forall (fun ao => harmless sample_identity (snd ao))
    (attempted (ledger_of (reverse (take 18 sample_run)))).
Proof.
  assert (sample_run = take 18 sample_run ++ called (Attempt (sample_attempt 2)) zero_outcome
                 :: drop 19 sample_run) as Ht by (vm_compute; reflexivity).
  split; [exact Ht|].
  apply (attempts_are_safe exact_scale exact_scale_between zero_policy default_executor
    default_executor_built sample_identity _ _ _ _ _ _
    (run_trace sample_ports (Execute exact_scale default_executor sample_identity)) Ht).
Defined.

Lemma sleeps_hold_no_slot_witness :
  sample_run = take 13 sample_run ++ called (Sleep 187500000) None :: drop 14 sample_run /\
  held (ledger_of (reverse (take 13 sample_run))) = 0.
Proof.
  assert (sample_run = take 13 sample_run ++ called (Sleep 187500000) None
                 :: drop 14 sample_run) as Ht by (vm_compute; reflexivity).
  split; [exact Ht|].
  apply (sleeps_hold_no_slot exact_scale exact_scale_between zero_policy default_executor
    default_executor_built sample_identity _ _ _ _ _ _
    (run_trace sample_ports (Execute exact_scale default_executor sample_identity)) Ht).
Defined.

Lemma backoff_doubles_witness :
  deterministicBackoff (policy default_executor) 3 = 1000000000.
Proof.
  refine (proj1 (backoff_doubles exact_scale exact_scale_between zero_policy default_executor
    default_executor_built 3 _ _ _ _
    (run_trace sample_ports (backoff exact_scale (policy default_executor) 3)))).
  - done.
  - exists 2500000000. reflexivity.
Defined.
