(* ===== verification/Pricing.v ===== *)
(** * Exact prices and attempt accounting
      (src/internal/providers/pricing.go, accounting.go, usage.go)

    Amounts are exact rationals in one currency, kept as two [int64]s in lowest
    terms; [big.Rat] is [Q], its numerator and denominator those of [Qred].
    Provider-specific usage is raw JSON; decoding it into a map of [int64]
    counts, checking its syntax and encoding such a map are parameters. The
    code ranges over that map in Go's unspecified order, which is the argument
    [order]. *)

From Stdlib Require Import Ascii QArith.
From S2P Require Import Prelude GoText PolicyValues ProviderTypes GoErrors Ports Retry.
Open Scope string_scope.
Open Scope list_scope.
Open Scope Z_scope.

(** ** Amounts *)

Record ExactAmount := {
  Amount_Currency : string;
  Amount_Numerator : Z;
  Amount_Denominator : Z;
  Amount_Known : bool;
}.

(** [strings.ToUpper] on ASCII text leaves it unchanged exactly when it holds
    no lower-case letter. *)
Definition ToUpper_byte (c : ascii) : ascii :=
  let n := N_of_ascii c in
  if (97 <=? n)%N && (n <=? 122)%N then ascii_of_N (n - 32) else c.

Fixpoint ToUpper (s : string) : string :=
  match s with
  | EmptyString => EmptyString
  | String c rest => String (ToUpper_byte c) (ToUpper rest)
  end.

Definition valid_currency (currency : string) : bool :=
  (currency =? ToUpper currency)%string && (Z.of_nat (String.length currency) =? 3).

Definition NewExactAmount (currency : string) (numerator denominator : Z)
    : result error ExactAmount :=
  if negb (valid_currency currency) then
    Err (Sentinel "currency must be a three-letter uppercase code")
  else if (numerator <? 0) || (denominator <? 1) then
    Err (Sentinel "exact amount must be non-negative with a positive denominator")
  else
    let common := Z.gcd numerator denominator in
    let divisor := if common =? 0 then 1 else common in
    Ok {| Amount_Currency := currency; Amount_Numerator := numerator / divisor;
          Amount_Denominator := denominator / divisor; Amount_Known := true |}.

Definition UnknownAmount (currency : string) : ExactAmount :=
  {| Amount_Currency := currency; Amount_Numerator := 0; Amount_Denominator := 0;
     Amount_Known := false |}.

(** [new(big.Rat).SetFrac(a, b)] for a positive [b]. *)
Definition SetFrac (a b : Z) : Q := Qmake a (Z.to_pos b).

Definition amount_value (a : ExactAmount) : Q :=
  SetFrac (Amount_Numerator a) (Amount_Denominator a).

Definition Num (q : Q) : Z := Qnum (Qred q).
Definition Denom (q : Q) : Z := Zpos (Qden (Qred q)).
Definition IsInt64 (z : Z) : bool := bool_decide (int64_range z).

(** The amount of a rational, unknown when its terms leave [int64]. *)
Definition amount_of_rat (currency : string) (q : Q) : ExactAmount :=
  if negb (IsInt64 (Num q)) || negb (IsInt64 (Denom q)) then UnknownAmount currency
  else match NewExactAmount currency (Num q) (Denom q) with
       | Ok amount => amount
       | Err _ => UnknownAmount currency
       end.

(** ** Usage *)

Abbreviation UsageSource := string (only parsing).
Definition UsageSourceProvider : UsageSource := "provider".
Definition UsageSourceEstimated : UsageSource := "estimated".
Definition UsageSourceUnknown : UsageSource := "unknown".

Record Usage := {
  Usage_Known : bool;
  Usage_Source : UsageSource;
  InputTokens : Z;
  CachedInputTokens : Z;
  CacheWriteTokens : Z;
  OutputTokens : Z;
  ReasoningTokens : Z;
  ProviderSpecific : string;
}.

Definition unknown_usage : Usage :=
  {| Usage_Known := false; Usage_Source := UsageSourceUnknown; InputTokens := 0;
     CachedInputTokens := 0; CacheWriteTokens := 0; OutputTokens := 0; ReasoningTokens := 0;
     ProviderSpecific := "" |}.

Record TokenPrice := {
  Price_Input : ExactAmount;
  Price_CachedInput : ExactAmount;
  Price_CacheWrite : ExactAmount;
  Price_Output : ExactAmount;
  Price_Reasoning : ExactAmount;
  Price_ProviderSpecific : gmap string ExactAmount;
}.

Record PriceSnapshot := {
  PriceSnapshot_ID : string;
  PriceSnapshot_Model : ModelIdentity;
  PriceSnapshot_Price : TokenPrice;
  PriceSnapshot_EffectiveAt : Z;
  PriceSnapshot_CapturedAt : Z;
  PriceSnapshot_Source : string;
}.

Definition ErrInvalidProviderUsage : string := "provider usage is invalid".
Definition ErrProviderIdentityChanged : string :=
  "provider request identity changed across physical attempts".
Definition ErrProviderAttemptOrder : string :=
  "provider physical attempts are not contiguous".

Definition usage_error (text : string) : error := sentinel_text ErrInvalidProviderUsage text.

Section Accounting.
(** [json.Unmarshal] into a [map[string]int64] ([None]: an error or [null]),
    [json.Valid], and [json.Marshal] of such a map. *)
Context (unmarshal_counts : string -> option (gmap string Z)).
Context (json_Valid : string -> bool).
Context (marshal_counts : gmap string Z -> string).

Definition category_ok (kv : string * Z) : bool :=
  negb (blank kv.1 || longer_than 255 kv.1 || (kv.2 <? 0)).

(** A [nil] map reads as the empty one. *)
Definition NormalizeProviderSpecificUsage (raw : string) : result error (gmap string Z) :=
  if (raw =? "")%string then Ok ∅
  else match unmarshal_counts raw with
  | None => Err (usage_error "provider-specific usage must be an integer object")
  | Some categories =>
      if 128 <? Z.of_nat (size categories) then
        Err (usage_error "provider-specific usage has too many categories")
      else if negb (forallb category_ok (map_to_list categories)) then
        Err (usage_error "provider-specific category is invalid")
      else Ok categories
  end.

Definition fixed_counts (u : Usage) : list Z :=
  [InputTokens u; CachedInputTokens u; CacheWriteTokens u; OutputTokens u; ReasoningTokens u].

Definition ValidateUsage (u : Usage) : option error :=
  if negb (Usage_Known u) then
    if negb (Usage_Source u =? "")%string && negb (Usage_Source u =? UsageSourceUnknown)%string then
      Some (usage_error ("unknown usage has source " +:+ Quote (Usage_Source u)))
    else if negb (forallb (Z.eqb 0) (fixed_counts u)) || negb (ProviderSpecific u =? "")%string then
      Some (usage_error "unknown usage carries values")
    else None
  else if negb (Usage_Source u =? UsageSourceProvider)%string
          && negb (Usage_Source u =? UsageSourceEstimated)%string then
    Some (usage_error ("known usage has source " +:+ Quote (Usage_Source u)))
  else if negb (forallb (Z.leb 0) (fixed_counts u)) then
    Some (usage_error "token counts must be non-negative")
  else if longer_than 65536 (ProviderSpecific u)
          || negb (ProviderSpecific u =? "")%string && negb (json_Valid (ProviderSpecific u)) then
    Some (usage_error "provider-specific usage must be bounded valid JSON")
  else match NormalizeProviderSpecificUsage (ProviderSpecific u) with
       | Err err => Some err
       | Ok _ => None
       end.

(** usage.go *)
Definition NewProviderUsage (present : bool) (input cachedInput cacheWrite output reasoning : Z)
    (providerSpecific : string) : result error Usage :=
  if negb present then
    if negb (forallb (Z.eqb 0) [input; cachedInput; cacheWrite; output; reasoning])
       || negb (providerSpecific =? "")%string then
      Err (usage_error "omitted provider usage carries values")
    else Ok unknown_usage
  else
    let usage :=
      {| Usage_Known := true; Usage_Source := UsageSourceProvider; InputTokens := input;
         CachedInputTokens := cachedInput; CacheWriteTokens := cacheWrite;
         OutputTokens := output; ReasoningTokens := reasoning;
         ProviderSpecific := providerSpecific |} in
    match ValidateUsage usage with Some err => Err err | None => Ok usage end.

(** ** Cost *)

Abbreviation priced := (Z * ExactAmount)%type.

Definition fixed_parts (price : TokenPrice) (u : Usage) : list priced :=
  [(InputTokens u, Price_Input price); (CachedInputTokens u, Price_CachedInput price);
   (CacheWriteTokens u, Price_CacheWrite price); (OutputTokens u, Price_Output price);
   (ReasoningTokens u, Price_Reasoning price)].

(** The parts of the provider-specific categories; [None] when one has no
    price. *)
Fixpoint specific_parts (prices : gmap string ExactAmount) (order : list (string * Z))
    : option (list priced) :=
  match order with
  | [] => Some []
  | (category, tokens) :: rest =>
      match prices !! category with
      | None => None
      | Some price => cons (tokens, price) <$> specific_parts prices rest
      end
  end.

(** The price of [tokens] at a price for one million of them. *)
Definition part_value (part : priced) : Q :=
  SetFrac (part.1 * Amount_Numerator part.2) (1000000 * Amount_Denominator part.2).

(** The summation loop; [inl] is an early return of an unknown amount. *)
Fixpoint sum_parts (parts : list priced) (currency : string) (total : Q)
    : ExactAmount + (string * Q) :=
  match parts with
  | [] => inr (currency, total)
  | (tokens, price) :: rest =>
      if tokens =? 0 then sum_parts rest currency total
      else if negb (Amount_Known price) then inl (UnknownAmount currency)
      else
        let currency := if (currency =? "")%string then Amount_Currency price else currency in
        if negb (Amount_Currency price =? currency)%string then inl (UnknownAmount currency)
        else sum_parts rest currency (total + part_value (tokens, price))%Q
  end.

Definition Cost (order : gmap string Z -> list (string * Z)) (snapshot : PriceSnapshot) (u : Usage)
    : ExactAmount :=
  let price := PriceSnapshot_Price snapshot in
  let base := Amount_Currency (Price_Input price) in
  if negb (Usage_Known u) then UnknownAmount base
  else match NormalizeProviderSpecificUsage (ProviderSpecific u) with
  | Err _ => UnknownAmount base
  | Ok providerSpecific =>
      match specific_parts (Price_ProviderSpecific price) (order providerSpecific) with
      | None => UnknownAmount base
      | Some specific =>
          match sum_parts (fixed_parts price u ++ specific) "" 0 with
          | inl unknown => unknown
          | inr (currency, total) =>
              amount_of_rat (if (currency =? "")%string then base else currency) total
          end
      end
  end.

(** ** Reconciliation *)

Record AccountingDiscrepancy := {
  Discrepancy_Attempt : Z;
  Discrepancy_Category : string;
  Discrepancy_Estimated : Z;
  Discrepancy_Reported : Z;
  Discrepancy_Reason : string;
}.

Record UsageReconciliation := {
  Reconciliation_Estimated : Usage;
  Reconciliation_Reported : Usage;
  Reconciliation_Effective : Usage;
  Reconciliation_Discrepancies : list AccountingDiscrepancy;
}.

Definition specific_or_empty (raw : string) : gmap string Z :=
  match NormalizeProviderSpecificUsage raw with Ok m => m | Err _ => ∅ end.

Definition differing (attempt : Z) (c : string * Z * Z) : list AccountingDiscrepancy :=
  let '(name, estimated, reported) := c in
  if estimated =? reported then []
  else [{| Discrepancy_Attempt := attempt; Discrepancy_Category := name;
           Discrepancy_Estimated := estimated; Discrepancy_Reported := reported;
           Discrepancy_Reason := "estimated and provider-reported usage differ" |}].

Definition compareUsage (attempt : Z) (estimated reported : Usage) : list AccountingDiscrepancy :=
  let es := specific_or_empty (ProviderSpecific estimated) in
  let rs := specific_or_empty (ProviderSpecific reported) in
  let at_ (m : gmap string Z) (c : string) : Z := default 0 (m !! c) in
  let categories := sort_strings (elements (dom es ∪ dom rs)) in
  (zip_with (fun name c => (name, c.1, c.2))
     ["input-tokens"; "cached-input-tokens"; "cache-write-tokens"; "output-tokens";
      "reasoning-tokens"]
     (zip (fixed_counts estimated) (fixed_counts reported))
   ++ map (fun c => ("provider-specific:" +:+ c, at_ es c, at_ rs c)) categories)
  ≫= differing attempt.

Definition lone_discrepancy (attempt : Z) (category reason : string) : AccountingDiscrepancy :=
  {| Discrepancy_Attempt := attempt; Discrepancy_Category := category;
     Discrepancy_Estimated := 0; Discrepancy_Reported := 0; Discrepancy_Reason := reason |}.

Definition ReconcileUsage (estimated reported : Usage)
    : result error UsageReconciliation :=
  match ValidateUsage estimated, ValidateUsage reported with
  | Some err, _ => Err (text_cause "estimated usage" err)
  | None, Some err => Err (text_cause "reported usage" err)
  | None, None =>
      let finish effective discrepancies :=
        Ok {| Reconciliation_Estimated := estimated; Reconciliation_Reported := reported;
              Reconciliation_Effective := effective;
              Reconciliation_Discrepancies := discrepancies |} in
      if Usage_Known reported then
        finish reported (if Usage_Known estimated then compareUsage 0 estimated reported else [])
      else if Usage_Known estimated then
        finish estimated
          [lone_discrepancy 0 "provider-usage" "provider usage is unknown; estimate retained"]
      else
        finish unknown_usage
          [lone_discrepancy 0 "usage" "both provider and estimated usage are unknown"]
  end.

(** ** Attempt totals *)

Record PhysicalAttemptAccounting := {
  Accounting_Number : Z;
  Accounting_Identity : RequestIdentity;
  Accounting_Usage : Usage;
  Accounting_PriceSnapshot : PriceSnapshot;
  Accounting_Partial : bool;
}.

Record AttemptAccountingSummary := {
  Summary_Identity : RequestIdentity;
  Summary_AttemptCount : Z;
  Summary_TotalUsage : Usage;
  Summary_KnownUsageSubtotal : Usage;
  Summary_TotalCost : ExactAmount;
  Summary_KnownCostSubtotal : ExactAmount;
  Summary_Discrepancies : list AccountingDiscrepancy;
}.

(** [value.right > math.MaxInt64 - left], then the addition. *)
Definition checked_add (name : string) (left right : Z) : result error Z :=
  if max_int64 - left <? right then Err (usage_error (name +:+ " token count overflow"))
  else Ok (left + right).

Fixpoint add_specific (left : gmap string Z) (order : list (string * Z))
    : result error (gmap string Z) :=
  match order with
  | [] => Ok left
  | (category, count) :: rest =>
      let have := default 0 (left !! category) in
      if max_int64 - have <? count then
        Err (usage_error ("provider-specific " +:+ category +:+ " token count overflow"))
      else add_specific (<[category := have + count]> left) rest
  end.

Definition addKnownUsage (order : gmap string Z -> list (string * Z)) (left right : Usage)
    : result error Usage :=
  input ← checked_add "input" (InputTokens left) (InputTokens right);
  cached ← checked_add "cached input" (CachedInputTokens left) (CachedInputTokens right);
  write ← checked_add "cache write" (CacheWriteTokens left) (CacheWriteTokens right);
  output ← checked_add "output" (OutputTokens left) (OutputTokens right);
  reasoning ← checked_add "reasoning" (ReasoningTokens left) (ReasoningTokens right);
  leftSpecific ← NormalizeProviderSpecificUsage (ProviderSpecific left);
  rightSpecific ← NormalizeProviderSpecificUsage (ProviderSpecific right);
  merged ← add_specific leftSpecific (order rightSpecific);
  Ok {| Usage_Known := Usage_Known left; Usage_Source := Usage_Source left;
        InputTokens := input; CachedInputTokens := cached; CacheWriteTokens := write;
        OutputTokens := output; ReasoningTokens := reasoning;
        ProviderSpecific := if Z.of_nat (size merged) =? 0 then "" else marshal_counts merged |}.

Definition exactAmountFromRat (currency : string) (q : Q) : ExactAmount :=
  if (currency =? "")%string then UnknownAmount currency else amount_of_rat currency q.

(** The running totals of the loop of
    [SummarizePhysicalAttemptAccounting]. *)
Record totals := {
  allUsageKnown : bool;
  allCostKnown : bool;
  usageSource : UsageSource;
  knownUsage : Usage;
  knownCost : Q;
  currency : string;
  discrepancies : list AccountingDiscrepancy;
}.

Definition add_usage (order : gmap string Z -> list (string * Z)) (attempt : PhysicalAttemptAccounting)
    (s : totals) : result error totals :=
  let u := Accounting_Usage attempt in
  if Usage_Known u then
    match addKnownUsage order (knownUsage s) u with
    | Err err => Err (text_cause ("attempt " +:+ fmt_d (Accounting_Number attempt)) err)
    | Ok known =>
        Ok {| allUsageKnown := allUsageKnown s; allCostKnown := allCostKnown s;
              usageSource := if (Usage_Source u =? UsageSourceEstimated)%string
                             then UsageSourceEstimated else usageSource s;
              knownUsage := known; knownCost := knownCost s; currency := currency s;
              discrepancies := discrepancies s |}
    end
  else
    Ok {| allUsageKnown := false; allCostKnown := allCostKnown s; usageSource := usageSource s;
          knownUsage := knownUsage s; knownCost := knownCost s; currency := currency s;
          discrepancies := discrepancies s ++
            [lone_discrepancy (Accounting_Number attempt) "usage"
               "physical attempt usage is unknown"] |}.

Definition unpriced (attempt : PhysicalAttemptAccounting) (category reason currency_ : string)
    (s : totals) : totals :=
  {| allUsageKnown := allUsageKnown s; allCostKnown := false; usageSource := usageSource s;
     knownUsage := knownUsage s; knownCost := knownCost s; currency := currency_;
     discrepancies := discrepancies s ++
       [lone_discrepancy (Accounting_Number attempt) category reason] |}.

Definition add_cost (order : gmap string Z -> list (string * Z)) (attempt : PhysicalAttemptAccounting)
    (s : totals) : totals :=
  let cost := Cost order (Accounting_PriceSnapshot attempt) (Accounting_Usage attempt) in
  if negb (Amount_Known cost) then
    unpriced attempt "cost" "physical attempt cost is unknown" (currency s) s
  else
    let currency_ := if (currency s =? "")%string then Amount_Currency cost else currency s in
    if negb (Amount_Currency cost =? currency_)%string then
      unpriced attempt "currency" "physical attempt price currency changed" currency_ s
    else
      {| allUsageKnown := allUsageKnown s; allCostKnown := allCostKnown s;
         usageSource := usageSource s; knownUsage := knownUsage s;
         knownCost := (knownCost s + amount_value cost)%Q; currency := currency_;
         discrepancies := discrepancies s |}.

Definition check_attempt (identity : RequestIdentity) (index : Z) (attempt : PhysicalAttemptAccounting)
    : option error :=
  let number := fmt_d (Accounting_Number attempt) in
  if negb (Accounting_Number attempt =? index + 1) then
    Some (sentinel_text ErrProviderAttemptOrder
            ("got attempt " +:+ number +:+ " at index " +:+ fmt_d index))
  else if negb (bool_decide (Accounting_Identity attempt = identity)) then
    Some (Wrapped (ErrProviderIdentityChanged +:+ " at attempt " +:+ number)
            [Sentinel ErrProviderIdentityChanged])
  else if negb (bool_decide (PriceSnapshot_Model (Accounting_PriceSnapshot attempt) =
                             RequestIdentity_Model (Accounting_Identity attempt))) then
    Some (sentinel_text ErrProviderIdentityChanged
            ("price snapshot model differs at attempt " +:+ number))
  else match ValidateUsage (Accounting_Usage attempt) with
       | Some err => Some (text_cause ("attempt " +:+ number +:+ " usage") err)
       | None => None
       end.

Fixpoint total_attempts (order : gmap string Z -> list (string * Z)) (identity : RequestIdentity)
    (index : Z) (attempts : list PhysicalAttemptAccounting) (s : totals) : result error totals :=
  match attempts with
  | [] => Ok s
  | attempt :: rest =>
      check_attempt identity index attempt ;!
      (s ← add_usage order attempt s;
       total_attempts order identity (index + 1) rest (add_cost order attempt s))
  end.

Definition start_totals : totals :=
  {| allUsageKnown := true; allCostKnown := true; usageSource := UsageSourceProvider;
     knownUsage := {| Usage_Known := true; Usage_Source := UsageSourceProvider; InputTokens := 0;
       CachedInputTokens := 0; CacheWriteTokens := 0; OutputTokens := 0; ReasoningTokens := 0;
       ProviderSpecific := "" |};
     knownCost := 0; currency := ""; discrepancies := [] |}.

Definition with_source (u : Usage) (source : UsageSource) : Usage :=
  {| Usage_Known := Usage_Known u; Usage_Source := source; InputTokens := InputTokens u;
     CachedInputTokens := CachedInputTokens u; CacheWriteTokens := CacheWriteTokens u;
     OutputTokens := OutputTokens u; ReasoningTokens := ReasoningTokens u;
     ProviderSpecific := ProviderSpecific u |}.

Definition summarize_totals (identity : RequestIdentity) (count : Z) (s : totals)
    : AttemptAccountingSummary :=
  let knownUsage := with_source (knownUsage s) (usageSource s) in
  let subtotal := exactAmountFromRat (currency s) (knownCost s) in
  {| Summary_Identity := identity; Summary_AttemptCount := count;
     Summary_TotalUsage := if allUsageKnown s then knownUsage else unknown_usage;
     Summary_KnownUsageSubtotal := knownUsage;
     Summary_TotalCost := if allCostKnown s && Amount_Known subtotal then subtotal
                          else UnknownAmount (currency s);
     Summary_KnownCostSubtotal := subtotal;
     Summary_Discrepancies := discrepancies s |}.

Definition zero_identity : RequestIdentity :=
  let provider := {| ProviderIdentity_Adapter := ""; ProviderIdentity_AdapterVersion := "";
    ProviderIdentity_Provider := ""; ProviderIdentity_ProviderVersion := "" |} in
  {| RequestIdentity_ModelRequestID := ""; RequestIdentity_Provider := provider;
     RequestIdentity_Model := {| ModelIdentity_Provider := provider; ModelIdentity_Model := "";
       ModelIdentity_Revision := "" |};
     RequestIdentity_Idempotency := {| RequestIdempotency_ProviderSupported := false;
       RequestIdempotency_Key := ""; RequestIdempotency_ProviderScope := "" |};
     RequestIdentity_IdempotencyKey := ""; RequestIdentity_RequestHash := "" |}.

Definition zero_usage : Usage := with_source unknown_usage "".

Definition SummarizePhysicalAttemptAccounting (order : gmap string Z -> list (string * Z))
    (attempts : list PhysicalAttemptAccounting) : result error AttemptAccountingSummary :=
  match attempts with
  | [] =>
      Ok {| Summary_Identity := zero_identity; Summary_AttemptCount := 0;
            Summary_TotalUsage := unknown_usage; Summary_KnownUsageSubtotal := zero_usage;
            Summary_TotalCost := UnknownAmount ""; Summary_KnownCostSubtotal := UnknownAmount "";
            Summary_Discrepancies := [] |}
  | first :: _ =>
      let identity := Accounting_Identity first in
      ValidateRequestIdentity identity ;!
      (s ← total_attempts order identity 0 attempts start_totals;
       Ok (summarize_totals identity (Z.of_nat (length attempts)) s))
  end.
End Accounting.
