(* ===== verification/PricingFacts.v ===== *)
(** * Exactness of prices and totals

    The reference is rational arithmetic: the cost of a usage is the sum of its
    token counts times their prices over a million. The theorems say when the
    code knows an amount, and that an amount it knows is the reference's. *)

From Stdlib Require Import QArith Qreduction Lqa.
From S2P Require Import Prelude GoText PolicyValues ProviderTypes GoErrors Pricing.
Open Scope list_scope.
Open Scope Z_scope.

(** ** Amounts *)

(** What [NewExactAmount] makes, and what every known price is. *)
Definition amount_ok (a : ExactAmount) : Prop :=
  valid_currency (Amount_Currency a) = true /\
  0 <= Amount_Numerator a /\ 1 <= Amount_Denominator a.

Lemma valid_currency_nonempty c : valid_currency c = true -> c <> "".
Proof. by intros H ->. Qed.

Lemma NewExactAmount_spec c n d a :
  NewExactAmount c n d = Ok a ->
  valid_currency c = true /\ 0 <= n /\ 1 <= d /\ Amount_Known a = true /\ Amount_Currency a = c /\
  amount_ok a /\ Z.gcd (Amount_Numerator a) (Amount_Denominator a) = 1 /\
  Amount_Numerator a * d = n * Amount_Denominator a.
Proof.
  unfold NewExactAmount. intros H.
  destruct (negb _) eqn:Hc; [done|]. destruct (_ || _) eqn:Hnd; [done|]. to_prop.
  injection H as <-. cbn -[Z.gcd Z.div]. destruct Hnd as [Hn Hd].
  assert (0 < Z.gcd n d) as Hg.
  { pose proof (Z.gcd_nonneg n d). destruct (Z.eq_dec (Z.gcd n d) 0) as [E|]; [|lia].
    apply Z.gcd_eq_0 in E. lia. }
  destruct (Z.eqb_spec (Z.gcd n d) 0); [lia|].
  pose proof (Z.gcd_divide_l n d) as [n' Hn']. pose proof (Z.gcd_divide_r n d) as [d' Hd'].
  set (g := Z.gcd n d) in *.
  assert (n / g = n') as -> by (rewrite Hn'; apply Z.div_mul; lia).
  assert (d / g = d') as -> by (rewrite Hd'; apply Z.div_mul; lia).
  split_and!; try done.
  - split_and!; cbn; [done|nia|nia].
  - pose proof (Z.gcd_div_gcd n d g ltac:(lia) eq_refl) as Hgc.
    rewrite Hn', Hd' in Hgc. by rewrite !Z.div_mul in Hgc by lia.
  - trans (n' * (d' * g)); [by f_equal|]. trans (n' * g * d'); [ring|by f_equal].
Qed.

Lemma NewExactAmount_total c n d :
  valid_currency c = true -> 0 <= n -> 1 <= d -> exists a, NewExactAmount c n d = Ok a.
Proof.
  intros Hc Hn Hd. unfold NewExactAmount. rewrite Hc. cbn [negb].
  replace ((n <? 0) || (d <? 1)) with false; [eauto|].
  symmetry. apply orb_false_iff. split; apply Z.ltb_ge; lia.
Qed.

(** A rational is reported exactly when its terms fit and the currency is
    one. *)
Lemma amount_of_rat_spec c q :
  (0 <= q)%Q ->
  (Amount_Known (amount_of_rat c q) = true <->
   valid_currency c = true /\ int64_range (Num q) /\ int64_range (Denom q)) /\
  (Amount_Known (amount_of_rat c q) = true ->
   Amount_Currency (amount_of_rat c q) = c /\ amount_ok (amount_of_rat c q) /\
   (amount_value (amount_of_rat c q) == q)%Q).
Proof.
  intros Hq. unfold amount_of_rat, IsInt64, amount_value, SetFrac.
  assert (0 <= Num q) as Hn.
  { unfold Num. rewrite <- (Qred_correct q) in Hq. unfold Qle in Hq. cbn in Hq. lia. }
  assert (1 <= Denom q) by (unfold Denom; lia).
  assert (q == Qmake (Num q) (Z.to_pos (Denom q)))%Q as Hqe.
  { rewrite <- (Qred_correct q) at 1. unfold Num, Denom. cbn. by destruct (Qred q). }
  destruct (_ || _) eqn:Hfit; to_prop.
  { split; [|done]. split; [done|]. intros (_ & ? & ?). tauto. }
  destruct (NewExactAmount c (Num q) (Denom q)) as [err|a] eqn:Ha.
  - split; [|done]. split; [done|]. intros (Hc & _).
    destruct (NewExactAmount_total c (Num q) (Denom q) Hc Hn ltac:(lia)) as [a Ha']. congruence.
  - apply NewExactAmount_spec in Ha as (Hc & _ & _ & Hk & Hcur & Hok & _ & Hx).
    split; [tauto|]. intros _. split_and!; [done|done|]. rewrite Hqe.
    destruct Hok as (_ & _ & Hd). unfold Qeq. cbn [Qnum Qden]. rewrite !Z2Pos.id by lia. lia.
Qed.

(** The reported amount of a rational depends only on its value. *)
Lemma amount_of_rat_proper c q1 q2 : (q1 == q2)%Q -> amount_of_rat c q1 = amount_of_rat c q2.
Proof. intros H. unfold amount_of_rat, Num, Denom. by rewrite (Qred_complete _ _ H). Qed.

Lemma Num_proper q1 q2 : (q1 == q2)%Q -> Num q1 = Num q2 /\ Denom q1 = Denom q2.
Proof. intros H. unfold Num, Denom. by rewrite (Qred_complete _ _ H). Qed.

(** ** The reference *)

Definition exact_part (part : Z * ExactAmount) : Q :=
  (inject_Z part.1 * amount_value part.2 / inject_Z 1000000)%Q.

Definition exact_cost (parts : list (Z * ExactAmount)) : Q :=
  fold_right (fun part total => exact_part part + total)%Q 0%Q parts.

Lemma exact_cost_cons part parts :
  exact_cost (part :: parts) = (exact_part part + exact_cost parts)%Q.
Proof. done. Qed.

Lemma exact_cost_perm l1 l2 : l1 ≡ₚ l2 -> (exact_cost l1 == exact_cost l2)%Q.
Proof.
  induction 1 as [|x l l' _ IH|x y l|l l' l'' _ IH1 _ IH2]; rewrite ?exact_cost_cons.
  - reflexivity.
  - by rewrite IH.
  - ring.
  - by rewrite IH1.
Qed.

Definition part_ok (part : Z * ExactAmount) : Prop :=
  0 <= part.1 /\ (Amount_Known part.2 = true -> amount_ok part.2).

Lemma part_value_exact part :
  1 <= Amount_Denominator part.2 -> (part_value part == exact_part part)%Q.
Proof.
  intros Hd. unfold part_value, exact_part, amount_value, SetFrac, Qdiv, Qmult, Qinv, Qeq, inject_Z.
  cbn -[Z.mul]. rewrite ?Pos2Z.inj_mul, ?Z2Pos.id by lia. lia.
Qed.

(** A part that costs something, in a currency. *)
Definition priced_in (c : string) (part : Z * ExactAmount) : Prop :=
  part.1 <> 0 -> Amount_Known part.2 = true /\ Amount_Currency part.2 = c.

Lemma exact_part_free part : part.1 = 0 -> (exact_part part == 0)%Q.
Proof. intros H. unfold exact_part. rewrite H. cbn. unfold Qdiv. ring. Qed.

Lemma exact_cost_nonneg parts c :
  Forall part_ok parts -> Forall (priced_in c) parts -> (0 <= exact_cost parts)%Q.
Proof.
  induction 1 as [|[n a] l [Hn Ha] _ IH]; intros Hp; [done|]. rewrite exact_cost_cons.
  inversion Hp as [|? ? Hx Hl]; subst. specialize (IH Hl).
  destruct (Z.eq_dec n 0) as [->|Hnz].
  { rewrite exact_part_free by done. lra. }
  destruct (Hx Hnz) as [Hk _]. destruct (Ha Hk) as (_ & Hnum & Hden). cbn in *.
  assert (0 <= exact_part (n, a))%Q; [|lra].
  unfold exact_part, amount_value, SetFrac, Qdiv. cbn [fst snd].
  apply Qmult_le_0_compat; [apply Qmult_le_0_compat|]; unfold Qle; cbn; lia.
Qed.

Lemma sum_parts_spec parts c t :
  Forall part_ok parts ->
  match sum_parts parts c t with
  | inr (c', t') => (t' == t + exact_cost parts)%Q /\ Forall (priced_in c') parts /\
      (c <> "" -> c' = c) /\ (c = "" -> c' = "" -> Forall (fun part => part.1 = 0) parts) /\
      (Forall (fun part => part.1 = 0) parts -> c' = c)
  | inl a => Amount_Known a = false /\
      forall c0, (c <> "" -> c0 = c) -> ~ Forall (priced_in c0) parts
  end.
Proof.
  intros Hok. revert c t. induction Hok as [|[n a] l [Hn Ha] _ IH]; intros c t.
  { cbn. split_and!; try done. ring. }
  rewrite exact_cost_cons. cbn -[exact_part exact_cost].
  destruct (Z.eqb_spec n 0) as [->|Hnz].
  { specialize (IH c t). destruct (sum_parts l c t) as [u|[c' t']].
    - destruct IH as [Hu Hno]. split; [done|]. intros c0 Hc0 Hall. inversion Hall. by eapply Hno.
    - destruct IH as (Ht & Hp & Hc & He & Hz). split_and!; try done.
      + rewrite exact_part_free, Ht by done. ring.
      + by constructor.
      + intros E1 E2. constructor; auto.
      + intros Hall. inversion Hall. auto. }
  destruct (Amount_Known a) eqn:Hk; cbn -[exact_part exact_cost].
  2:{ split; [done|]. intros c0 _ Hall. inversion Hall as [|? ? Hx]; subst.
      destruct (Hx Hnz) as [Hx' _]. cbn in Hx'. congruence. }
  destruct (Ha Hk) as (Hcur & Hnum & Hden). cbn in Hcur, Hnum, Hden.
  set (c1 := if (c =? "")%string then Amount_Currency a else c).
  assert (c1 <> "") as Hc1.
  { unfold c1. destruct (String.eqb_spec c ""); [by apply valid_currency_nonempty|done]. }
  destruct (String.eqb_spec (Amount_Currency a) c1) as [Heq|Hneq]; cbn -[exact_part exact_cost].
  - specialize (IH c1 (t + part_value (n, a))%Q).
    destruct (sum_parts l c1 _) as [u|[c' t']].
    + destruct IH as [Hu Hno]. split; [done|]. intros c0 Hc0 Hall.
      inversion Hall as [|? ? Hx Hl]; subst. apply (Hno c0); [|done]. intros _.
      destruct (Hx Hnz) as [_ Hx']. cbn in Hx'. congruence.
    + destruct IH as (Ht & Hp & Hc & _ & _). specialize (Hc Hc1). subst c'. split_and!.
      * rewrite Ht, part_value_exact by done. ring.
      * constructor; [|done]. intros _. by split.
      * unfold c1. intros Hc. by destruct (String.eqb_spec c "").
      * done.
      * intros Hall. by inversion Hall.
  - split; [done|]. intros c0 Hc0 Hall. inversion Hall as [|? ? Hx Hl]; subst.
    destruct (Hx Hnz) as [_ Hx']. cbn in Hx'. apply Hneq. unfold c1 in *.
    destruct (String.eqb_spec c ""); [done|]. rewrite Hx'. auto.
Qed.

(** ** The cost of a usage *)

Section Cost.
Context (unmarshal_counts : string -> option (gmap string Z)).
Context (order : gmap string Z -> list (string * Z)).
Hypothesis order_perm : forall m, order m ≡ₚ map_to_list m.

(** Every price of a snapshot is unknown or what [NewExactAmount] makes. *)
Definition snapshot_ok (snapshot : PriceSnapshot) : Prop :=
  let price := PriceSnapshot_Price snapshot in
  Forall (fun a => Amount_Known a = true -> amount_ok a)
    [Price_Input price; Price_CachedInput price; Price_CacheWrite price; Price_Output price;
     Price_Reasoning price] /\
  map_Forall (fun _ a => Amount_Known a = true -> amount_ok a) (Price_ProviderSpecific price).

(** The counts and prices of a known usage, when every provider-specific
    category has a price. *)
Definition usage_parts (snapshot : PriceSnapshot) (u : Usage) : option (list (Z * ExactAmount)) :=
  match NormalizeProviderSpecificUsage unmarshal_counts (ProviderSpecific u) with
  | Err _ => None
  | Ok m => app (fixed_parts (PriceSnapshot_Price snapshot) u) <$>
              specific_parts (Price_ProviderSpecific (PriceSnapshot_Price snapshot)) (map_to_list m)
  end.

Lemma specific_parts_perm prices l1 l2 :
  l1 ≡ₚ l2 ->
  match specific_parts prices l1, specific_parts prices l2 with
  | Some p1, Some p2 => p1 ≡ₚ p2
  | None, None => True
  | _, _ => False
  end.
Proof.
  induction 1 as [|[c n] l l' _ IH|[c1 n1] [c2 n2] l|l l' l'' _ IH1 _ IH2]; cbn.
  - done.
  - destruct (prices !! c); [|done].
    destruct (specific_parts prices l), (specific_parts prices l'); cbn; try done. by constructor.
  - destruct (prices !! c1), (prices !! c2), (specific_parts prices l); cbn; try done.
    constructor.
  - destruct (specific_parts prices l), (specific_parts prices l'),
      (specific_parts prices l''); try done. by trans l1.
Qed.

Lemma specific_parts_ok prices l parts :
  map_Forall (fun _ a => Amount_Known a = true -> amount_ok a) prices ->
  Forall (fun kv => 0 <= kv.2) l -> specific_parts prices l = Some parts -> Forall part_ok parts.
Proof.
  intros Hp Hl. revert parts. induction Hl as [|[c n] l Hn _ IH]; intros parts; cbn.
  { intros [= <-]. constructor. }
  destruct (prices !! c) as [a|] eqn:Ha; [|done].
  destruct (specific_parts prices l) as [ps|]; [|done]. intros [= <-].
  constructor; [|by apply IH]. split; [done|]. by eapply Hp.
Qed.

Lemma Normalize_counts raw m :
  NormalizeProviderSpecificUsage unmarshal_counts raw = Ok m ->
  Forall (fun kv => 0 <= kv.2) (map_to_list m).
Proof.
  unfold NormalizeProviderSpecificUsage. destruct (_ =? _)%string.
  { intros [= <-]. rewrite map_to_list_empty. constructor. }
  destruct (unmarshal_counts raw) as [m'|]; [|done].
  destruct (_ <? _); [done|]. destruct (negb _) eqn:Hc; [done|]. intros [= <-]. to_prop.
  rewrite forallb_forall in Hc. apply Forall_forall. intros kv Hkv.
  apply list_elem_of_In, Hc in Hkv. unfold category_ok in Hkv. to_prop. lia.
Qed.

Lemma usage_parts_ok snapshot u parts :
  snapshot_ok snapshot -> Forall (Z.le 0) (fixed_counts u) ->
  usage_parts snapshot u = Some parts -> Forall part_ok parts.
Proof.
  intros [Hf Hs] Hu. unfold usage_parts.
  destruct (NormalizeProviderSpecificUsage _ _) as [|m] eqn:Hm; [done|].
  destruct (specific_parts _ _) as [sp|] eqn:Hsp; [|done]. intros <-%(inj Some).
  apply Forall_app. split; [|eapply specific_parts_ok; [exact Hs|by eapply Normalize_counts|exact Hsp]].
  unfold fixed_counts in Hu. decompose_Forall. unfold fixed_parts.
  do 5 (apply Forall_cons; split; [by split|]). by apply Forall_nil.
Qed.

(** Parts priced in two currencies are free. *)
Lemma priced_in_unique c1 c2 parts :
  Forall (priced_in c1) parts -> Forall (priced_in c2) parts ->
  c1 = c2 \/ Forall (fun part => part.1 = 0) parts.
Proof.
  intros H1 H2. destruct (decide (c1 = c2)) as [|Hne]; [by left|right].
  rewrite Forall_forall in *. intros part Hin. destruct (decide (part.1 = 0)) as [|Hnz]; [done|].
  destruct (H1 _ Hin Hnz), (H2 _ Hin Hnz). congruence.
Qed.

(** The parts the code sums, when they can be summed in a currency. *)
Definition summed_in (snapshot : PriceSnapshot) (u : Usage) (c : string) (total : Q) : Prop :=
  Usage_Known u = true /\
  exists parts, usage_parts snapshot u = Some parts /\ (total == exact_cost parts)%Q /\
    Forall (priced_in c) parts /\
    (Forall (fun part => part.1 = 0) parts ->
       c = Amount_Currency (Price_Input (PriceSnapshot_Price snapshot))) /\
    valid_currency c = true /\ int64_range (Num total) /\ int64_range (Denom total).

Lemma Cost_summed snapshot u :
  snapshot_ok snapshot -> Forall (Z.le 0) (fixed_counts u) ->
  let cost := Cost unmarshal_counts order snapshot u in
  (Amount_Known cost = true <-> exists c total, summed_in snapshot u c total) /\
  (Amount_Known cost = true -> amount_ok cost /\
     summed_in snapshot u (Amount_Currency cost) (amount_value cost)).
Proof.
  intros Hsnap Hu cost. subst cost. unfold Cost, summed_in.
  destruct (Usage_Known u); cbn [negb].
  2:{ split; [|done]. split; [done|]. by intros (? & ? & ? & _). }
  pose proof (usage_parts_ok snapshot u) as Hok. unfold usage_parts in *.
  destruct (NormalizeProviderSpecificUsage _ _) as [|m] eqn:Hm.
  { split; [|done]. split; [done|]. by intros (? & ? & _ & ? & ? & _). }
  pose proof (specific_parts_perm (Price_ProviderSpecific (PriceSnapshot_Price snapshot))
    _ _ (order_perm m)) as Hperm.
  destruct (specific_parts _ (order m)) as [sp|] eqn:Hsp, (specific_parts _ (map_to_list m)) as [sp'|];
    try done.
  2:{ split; [|done]. split; [done|]. by intros (? & ? & _ & ? & ? & _). }
  cbn [fmap option_fmap option_map] in *. set (fixed := fixed_parts _ u) in *.
  set (parts := fixed ++ sp) in *. set (parts' := fixed ++ sp') in *.
  assert (parts ≡ₚ parts') as Hpp by (by apply Permutation_app).
  specialize (Hok parts' Hsnap Hu eq_refl).
  assert (Forall part_ok parts) as Hok1 by (by rewrite Hpp).
  pose proof (exact_cost_perm _ _ Hpp) as Hsum.
  pose proof (sum_parts_spec parts "" 0 Hok1) as Hs.
  destruct (sum_parts parts "" 0) as [unknown|[c t]].
  - destruct Hs as [Hun Hno]. split; [|congruence]. split; [congruence|].
    intros (c & q & _ & ps & [= <-] & _ & Hp & _). exfalso. eapply (Hno c); [done|]. by rewrite Hpp.
  - destruct Hs as (Ht & Hp & _ & He & Hz). specialize (He eq_refl).
    rewrite Qplus_0_l in Ht.
    set (c' := if (c =? "")%string then _ else c).
    assert (Forall (priced_in c') parts) as Hp'.
    { unfold c'. destruct (String.eqb_spec c "") as [->|]; [|done].
      eapply Forall_impl; [by apply He|]. intros part H0 Hnz. done. }
    assert (0 <= t)%Q as Hpos by (rewrite Ht; by eapply exact_cost_nonneg).
    destruct (amount_of_rat_spec c' t Hpos) as [Hk Hval].
    assert (Forall (fun part => part.1 = 0) parts' ->
      c' = Amount_Currency (Price_Input (PriceSnapshot_Price snapshot))) as Hfree.
    { rewrite <- Hpp. intros Hall. unfold c'. by rewrite (Hz Hall). }
    rewrite Hpp in Hp'. split.
    + rewrite Hk. split.
      * intros (Hv & Hn & Hd). exists c', t. split; [done|]. exists parts'.
        split_and!; try done. by rewrite Ht.
      * intros (c0 & q & _ & ps & <-%(inj Some) & Hq & Hp0 & Hf0 & Hv & Hn & Hd).
        destruct (Num_proper t q) as [-> ->]; [by rewrite Ht, Hq|]. split_and!; try done.
        destruct (priced_in_unique c0 c' parts' Hp0 Hp') as [<-|Hall]; [done|].
        by rewrite Hfree, <- Hf0.
    + intros Hkn. destruct (Hval Hkn) as (-> & Hamt & Hv).
      apply Hk in Hkn as (Hc & Hn & Hd). destruct (Num_proper _ _ Hv) as [-> ->].
      split; [done|]. split; [done|]. exists parts'. split_and!; try done.
      by rewrite Hv, Ht.
Qed.

(** The provider-specific counts of a usage: none, or a JSON object of at most
    128 names, none blank or longer than 255 bytes, with counts that are not
    negative. *)
Definition specific_counts (raw : string) (m : gmap string Z) : Prop :=
  (raw = "" /\ m = ∅) \/
  (raw <> "" /\ unmarshal_counts raw = Some m /\ Z.of_nat (size m) <= 128 /\
   map_Forall (fun name count => blank name = false /\ longer_than 255 name = false /\ 0 <= count) m).

(** What was used, each count with the price of its own kind. *)
Definition priced_usage (price : TokenPrice) (u : Usage) (m : gmap string Z) : list (Z * ExactAmount) :=
  [(InputTokens u, Price_Input price); (CachedInputTokens u, Price_CachedInput price);
   (CacheWriteTokens u, Price_CacheWrite price); (OutputTokens u, Price_Output price);
   (ReasoningTokens u, Price_Reasoning price)] ++
  map (fun kv => (kv.2, default (UnknownAmount "") (Price_ProviderSpecific price !! kv.1))) (map_to_list m).

(** When the cost of a usage is known to be a total in a currency. *)
Record cost_known (snapshot : PriceSnapshot) (u : Usage) (c : string) (total : Q) : Prop := {
  ck_usage : Usage_Known u = true;
  ck_parts : exists m, specific_counts (ProviderSpecific u) m /\
    (forall name count, m !! name = Some count ->
       is_Some (Price_ProviderSpecific (PriceSnapshot_Price snapshot) !! name)) /\
    let parts := priced_usage (PriceSnapshot_Price snapshot) u m in
    Forall (priced_in c) parts /\ (total == exact_cost parts)%Q /\
    (Forall (fun part => part.1 = 0) parts ->
       c = Amount_Currency (Price_Input (PriceSnapshot_Price snapshot)));
  ck_currency : valid_currency c = true;
  ck_range : int64_range (Num total) /\ int64_range (Denom total);
}.

Lemma Normalize_specific raw m :
  NormalizeProviderSpecificUsage unmarshal_counts raw = Ok m <-> specific_counts raw m.
Proof.
  unfold NormalizeProviderSpecificUsage, specific_counts. destruct (String.eqb_spec raw "") as [->|Hne].
  { split; [intros [= <-]; by left|]. by intros [[_ ->]|[? _]]. }
  destruct (unmarshal_counts raw) as [m'|]; [|by split; [|intros [[? _]|(_ & ? & _)]]].
  assert (forallb category_ok (map_to_list m') = true <->
    map_Forall (fun name count => blank name = false /\ longer_than 255 name = false /\ 0 <= count) m') as Hok.
  { rewrite forallb_forall, map_Forall_to_list, Forall_forall. split.
    - intros H [name count] Hin. apply list_elem_of_In, H in Hin. unfold category_ok in Hin. simpl in *.
      to_prop. tauto.
    - intros H [name count] Hin. apply list_elem_of_In, H in Hin as (H1 & H2 & H3). unfold category_ok. simpl in *.
      rewrite H1, H2. simpl. apply negb_true_iff, Z.ltb_ge. done. }
  destruct (Z.ltb_spec 128 (Z.of_nat (size m'))) as [Hs|Hs].
  { split; [done|]. intros [[? _]|(_ & [= ->] & ? & _)]; [done|lia]. }
  destruct (forallb _ _) eqn:Hf; simpl.
  - split; [intros [= <-]; right; by split_and!; [| | |apply Hok]|]. intros [[? _]|(_ & H & _)]; [done|congruence].
  - split; [done|]. intros [[? _]|(_ & [= ->] & _ & H)]; [done|]. apply Hok in H. congruence.
Qed.

Lemma specific_parts_priced prices l parts :
  specific_parts prices l = Some parts <->
  (forall name count, (name, count) ∈ l -> is_Some (prices !! name)) /\
  parts = map (fun kv => (kv.2, default (UnknownAmount "") (prices !! kv.1))) l.
Proof.
  revert parts. induction l as [|[name count] l IH]; intros parts; simpl.
  { split; [intros [= <-]; split; [|done]; by intros ? ? ?%not_elem_of_nil|by intros [_ ->]]. }
  destruct (prices !! name) as [price|] eqn:Hp; simpl.
  - split.
    + destruct (specific_parts prices l) as [ps|]; [|done]. intros [= <-].
      destruct (proj1 (IH ps) eq_refl) as [Hall ->]. split; [|done].
      intros n k [[= -> ->]|Hin]%elem_of_cons; [by rewrite Hp|eauto].
    + intros [Hall ->]. destruct (IH (map (fun kv => (kv.2, default (UnknownAmount "") (prices !! kv.1))) l))
        as [_ ->]; [by simpl; rewrite ?Hp|]. split; [|done]. intros n k Hin. apply (Hall n k). by right.
  - split; [done|]. intros [Hall _]. destruct (Hall name count) as [? H]; [by left|congruence].
Qed.

Lemma summed_known snapshot u c total : summed_in snapshot u c total <-> cost_known snapshot u c total.
Proof.
  unfold summed_in, usage_parts. split.
  - intros (Hu & parts & Hparts & Ht & Hp & Hf & Hc & Hr).
    destruct (NormalizeProviderSpecificUsage _ _) as [|m] eqn:Hm; [done|].
    destruct (specific_parts _ _) as [sp|] eqn:Hsp; [|done]. injection Hparts as <-.
    apply specific_parts_priced in Hsp as [Hall ->]. constructor; [done| |done|done].
    exists m. split; [by apply Normalize_specific|]. split; [|done].
    intros name count Hn. apply (Hall name count). by apply elem_of_map_to_list.
  - intros [Hu (m & Hm & Hall & Hp & Ht & Hf) Hc Hr]. split; [done|]. apply Normalize_specific in Hm as ->.
    rewrite (proj2 (specific_parts_priced _ _ _) (conj (fun name count H =>
      Hall name count (proj1 (elem_of_map_to_list _ _ _) H)) eq_refl)).
    by eexists.
Qed.

(** [C35] Costs are exact. Take a usage whose counts are not negative, and a
    snapshot whose known prices are valid amounts. The cost is known exactly when
    the usage is known; its provider-specific counts are well formed, and every
    one of them, a zero one too, has an entry in the price list; every count
    that is not zero has a known price and all of these one currency; that
    currency, or where nothing was used the one of the input price, is a valid
    code; and the exact sum over the kinds of tokens of count times price has
    [int64] terms. A known cost is that sum, in that currency. In particular
    neither depends on the order in which Go visits the provider-specific
    categories. *)
Theorem Cost_exact snapshot u :
  snapshot_ok snapshot ->
  Forall (Z.le 0) [InputTokens u; CachedInputTokens u; CacheWriteTokens u; OutputTokens u; ReasoningTokens u] ->
  let cost := Cost unmarshal_counts order snapshot u in
  (Amount_Known cost = true <-> exists c total, cost_known snapshot u c total) /\
  (Amount_Known cost = true -> amount_ok cost /\
     cost_known snapshot u (Amount_Currency cost) (amount_value cost)).
Proof.
  intros Hs Hu cost. destruct (Cost_summed snapshot u Hs Hu) as [H1 H2]. fold cost in H1, H2. split.
  - rewrite H1. split; intros (c & total & H); exists c, total; by apply summed_known.
  - intros Hk. destruct (H2 Hk) as [Ha Hc]. split; [done|]. by apply summed_known.
Qed.
End Cost.

(** ** Totals over the attempts of a request *)

Section Totals.
Context (unmarshal_counts : string -> option (gmap string Z)) (json_Valid : string -> bool).
Context (marshal_counts : gmap string Z -> string).
Context (order : gmap string Z -> list (string * Z)).

Definition attempt_cost (a : PhysicalAttemptAccounting) : ExactAmount :=
  Cost unmarshal_counts order (Accounting_PriceSnapshot a) (Accounting_Usage a).

Definition costed (c : string) (a : PhysicalAttemptAccounting) : Prop :=
  Amount_Known (attempt_cost a) = true /\ Amount_Currency (attempt_cost a) = c.

Definition sum_costs (l : list PhysicalAttemptAccounting) : Q :=
  fold_right (fun a total => amount_value (attempt_cost a) + total)%Q 0%Q l.

Definition known_counts (a : PhysicalAttemptAccounting) : list Z :=
  if Usage_Known (Accounting_Usage a) then fixed_counts (Accounting_Usage a) else [0; 0; 0; 0; 0].

Definition sum_counts (l : list PhysicalAttemptAccounting) : list Z :=
  fold_left (fun total a => zip_with Z.add (known_counts a) total) l [0; 0; 0; 0; 0].

Lemma sum_parts_unknown parts c t a : sum_parts parts c t = inl a -> Amount_Known a = false.
Proof.
  revert c t. induction parts as [|[n price] l IH]; intros c t; cbn; [done|].
  repeat case_match; solve [by apply IH|by intros [= <-]].
Qed.

Lemma Cost_known_ok snapshot u :
  Amount_Known (Cost unmarshal_counts order snapshot u) = true ->
  amount_ok (Cost unmarshal_counts order snapshot u).
Proof.
  unfold Cost, amount_of_rat.
  destruct (negb _); [done|]. destruct (NormalizeProviderSpecificUsage _ _); [done|].
  destruct (specific_parts _ _); [|done].
  destruct (sum_parts _ _ _) as [u0|[c t]] eqn:Hs.
  { by rewrite (sum_parts_unknown _ _ _ _ Hs). }
  destruct (_ || _); [done|]. destruct (NewExactAmount _ _ _) as [|amt] eqn:Ha; [done|].
  by apply NewExactAmount_spec in Ha as (_ & _ & _ & _ & _ & ? & _).
Qed.

(** One attempt's share of the totals. *)
Lemma add_cost_spec a s :
  let s' := add_cost unmarshal_counts order a s in
  (allCostKnown s' = true ->
     allCostKnown s = true /\ costed (currency s') a /\ currency s' <> "" /\
     (currency s <> "" -> currency s' = currency s) /\
     (knownCost s' == knownCost s + amount_value (attempt_cost a))%Q) /\
  (allCostKnown s = true -> forall c, costed c a -> (currency s <> "" -> c = currency s) ->
     allCostKnown s' = true /\ currency s' = c) /\
  knownUsage s' = knownUsage s.
Proof.
  unfold add_cost, costed. fold (attempt_cost a).
  pose proof (Cost_known_ok (Accounting_PriceSnapshot a) (Accounting_Usage a)) as Hok.
  fold (attempt_cost a) in Hok. destruct (Amount_Known (attempt_cost a)) eqn:Hk; cbn.
  2:{ split_and!; [done| |done]. by intros _ c [? _]. }
  destruct (Hok eq_refl) as [Hc%valid_currency_nonempty _].
  destruct (String.eqb_spec (currency s) "") as [E|E].
  - rewrite String.eqb_refl. cbn. split_and!; [|by intros ? ? [_ <-]|done].
    intros ?. split_and!; try done.
  - destruct (String.eqb_spec (Amount_Currency (attempt_cost a)) (currency s)) as [E'|E']; cbn.
    + split_and!; [|by intros ? ? [_ <-]|done]. intros ?. by split_and!.
    + split_and!; [done| |done]. intros _ c [_ <-] Hcur. by destruct (E' (Hcur E)).
Qed.

Lemma checked_add_spec name x y z :
  checked_add name x y = Ok z -> z = x + y /\ z <= max_int64.
Proof.
  unfold checked_add. destruct (Z.ltb_spec (max_int64 - x) y); [done|]. intros [= <-]. lia.
Qed.

Lemma add_usage_spec a s s' :
  add_usage unmarshal_counts marshal_counts order a s = Ok s' ->
  allCostKnown s' = allCostKnown s /\ currency s' = currency s /\ knownCost s' = knownCost s /\
  fixed_counts (knownUsage s') = zip_with Z.add (known_counts a) (fixed_counts (knownUsage s)).
Proof.
  unfold add_usage, known_counts. destruct (Usage_Known (Accounting_Usage a)).
  2:{ intros [= <-]. cbn. by destruct (knownUsage s). }
  destruct (addKnownUsage _ _ _ _ _) as [|known] eqn:Hadd; [done|]. intros [= <-].
  split_and!; try done. cbn [knownUsage]. unfold addKnownUsage in Hadd.
  repeat match goal with
  | H : mbind _ _ = Ok _ |- _ => apply bind_Ok in H as (? & ? & H)
  | H : checked_add _ _ _ = Ok _ |- _ => apply checked_add_spec in H as [-> _]
  end.
  injection Hadd as <-. unfold fixed_counts. cbn. do 5 (f_equal; [lia|..]).
Qed.

Lemma total_attempts_spec l i identity s s' :
  total_attempts unmarshal_counts json_Valid marshal_counts order identity i l s = Ok s' ->
  (allCostKnown s' = true ->
     allCostKnown s = true /\ Forall (costed (currency s')) l /\
     (currency s <> "" -> currency s' = currency s) /\
     (knownCost s' == knownCost s + sum_costs l)%Q) /\
  (allCostKnown s = true -> forall c, Forall (costed c) l -> (currency s <> "" -> c = currency s) ->
     allCostKnown s' = true) /\
  fixed_counts (knownUsage s') =
    fold_left (fun total a => zip_with Z.add (known_counts a) total) l
      (fixed_counts (knownUsage s)).
Proof.
  revert i s. induction l as [|a l IH]; intros i s; cbn -[add_cost fixed_counts sum_costs].
  { intros [= <-]. split_and!; try done. intros ?. split_and!; try done. cbn. ring. }
  rewrite err_guard_Ok, bind_Ok. intros (_ & s1 & Hu & Hrest).
  apply add_usage_spec in Hu as (Hu1 & Hu2 & Hu3 & Hu4).
  destruct (add_cost_spec a s1) as (Hc1 & Hc2 & Hc3).
  set (s2 := add_cost unmarshal_counts order a s1) in *.
  destruct (IH _ _ Hrest) as (H1 & H2 & H3).
  rewrite Hu1, Hu2 in Hc1, Hc2. rewrite Hu3 in Hc1. split_and!.
  - intros Hk. destruct (H1 Hk) as (Hk2 & Hall & Hcur & Hsum).
    destruct (Hc1 Hk2) as (Hk1 & Ha & Hne & Hcur1 & Hsum1). rewrite (Hcur Hne) in *.
    split_and!; [done|by constructor|done|].
    change (sum_costs (a :: l)) with (amount_value (attempt_cost a) + sum_costs l)%Q.
    rewrite Hsum, Hsum1. ring.
  - intros Hk c Hall Hcur. inversion Hall as [|? ? Ha Hl]; subst.
    destruct (Hc2 Hk c Ha Hcur) as [Hk2 Hcur2]. by eapply H2; eauto.
  - by rewrite H3, Hc3, Hu4.
Qed.

Lemma sum_costs_nonneg c l : Forall (costed c) l -> (0 <= sum_costs l)%Q.
Proof.
  induction 1 as [|a l [Hk _] _ IH]; cbn; [done|]. fold (sum_costs l).
  destruct (Cost_known_ok _ _ Hk) as (_ & Hn & Hd). fold (attempt_cost a) in *.
  assert (0 <= amount_value (attempt_cost a))%Q; [|lra].
  unfold amount_value, SetFrac, Qle. cbn. lia.
Qed.

(** Totals are exact. When the accounting of a request's attempts is
    accepted, its cost is known exactly when every attempt's cost is known,
    all in one currency, and their sum has [int64] terms, and it is then that
    sum in that currency; the known subtotal of each token category is the sum
    over the attempts whose usage is known, without overflow. *)
Theorem totals_exact attempts summary :
  attempts <> [] ->
  SummarizePhysicalAttemptAccounting unmarshal_counts json_Valid marshal_counts order attempts
    = Ok summary ->
  let total := Summary_TotalCost summary in
  Summary_AttemptCount summary = Z.of_nat (length attempts) /\
  (Amount_Known total = true <->
     (exists c, Forall (costed c) attempts) /\
     int64_range (Num (sum_costs attempts)) /\ int64_range (Denom (sum_costs attempts))) /\
  (Amount_Known total = true ->
     Forall (costed (Amount_Currency total)) attempts /\
     (amount_value total == sum_costs attempts)%Q) /\
  fixed_counts (Summary_KnownUsageSubtotal summary) = sum_counts attempts.
Proof.
  intros Hne. unfold SummarizePhysicalAttemptAccounting. destruct attempts as [|first rest]; [done|].
  set (l := first :: rest) in *. rewrite err_guard_Ok, bind_Ok.
  intros (_ & s & Hs & [= <-]). apply total_attempts_spec in Hs as (H1 & H2 & H3).
  specialize (H2 eq_refl). unfold summarize_totals, exactAmountFromRat.
  cbn -[fixed_counts sum_costs sum_counts].
  assert (forall c, Forall (costed c) l -> c <> "") as Hcur.
  { intros c Hall. inversion Hall as [|? ? [Hk <-] _]; subst.
    by apply Cost_known_ok in Hk as [?%valid_currency_nonempty _]. }
  split; [done|]. 
  match goal with |- ?A /\ ?B /\ ?C => cut ((A /\ B) /\ C); [tauto|] end. split; [|exact H3].
  destruct (allCostKnown s); cbn [andb].
  2:{ split; [|done]. split; [done|]. intros [[c Hc] _]. exfalso.
      by specialize (H2 c Hc ltac:(done)). }
  destruct (H1 eq_refl) as (_ & Hall & _ & Hsum). rewrite Qplus_0_l in Hsum.
  destruct (String.eqb_spec (currency s) "") as [E|_]; [by destruct (Hcur _ Hall)|].
  pose proof (sum_costs_nonneg _ _ Hall) as Hpos. rewrite <- Hsum in Hpos.
  destruct (amount_of_rat_spec (currency s) (knownCost s) Hpos) as [Hk Hv].
  destruct (Num_proper _ _ Hsum) as [E1 E2]. rewrite E1, E2 in Hk.
  assert (valid_currency (currency s) = true) as Hvc.
  { inversion Hall as [|? ? [Hkn <-] _]; subst. by apply Cost_known_ok in Hkn as [? _]. }
  destruct (Amount_Known (amount_of_rat _ _)) eqn:Hkn.
  - destruct (Hv eq_refl) as (-> & _ & Hval). rewrite Hkn.
    split; [split; [|done]|by rewrite Hval]. intros _. destruct Hk as [Hk _]. split; [eauto|by apply Hk].
  - split; [|done]. split; [done|]. intros [_ [? ?]]. apply Hk. done.
Qed.
End Totals.

(** ** Witnesses *)

From S2P Require Import Retry RetryFacts.

Definition dollars (n d : Z) : ExactAmount :=
  {| Amount_Currency := "USD"; Amount_Numerator := n; Amount_Denominator := d;
     Amount_Known := true |}.

Definition sample_snapshot : PriceSnapshot :=
  {| PriceSnapshot_ID := "price-1"; PriceSnapshot_Model := RequestIdentity_Model sample_identity;
     PriceSnapshot_Price :=
       {| Price_Input := dollars 5 2; Price_CachedInput := dollars 1 4;
          Price_CacheWrite := UnknownAmount "USD"; Price_Output := dollars 15 1;
          Price_Reasoning := UnknownAmount "USD"; Price_ProviderSpecific := ∅ |};
     PriceSnapshot_EffectiveAt := 0; PriceSnapshot_CapturedAt := 0;
     PriceSnapshot_Source := "list" |}.

Definition sample_usage : Usage :=
  {| Usage_Known := true; Usage_Source := UsageSourceProvider; InputTokens := 1200;
     CachedInputTokens := 800; CacheWriteTokens := 0; OutputTokens := 40; ReasoningTokens := 0;
     ProviderSpecific := "" |}.

Definition sample_accounting : PhysicalAttemptAccounting :=
  {| Accounting_Number := 1; Accounting_Identity := sample_identity;
     Accounting_Usage := sample_usage; Accounting_PriceSnapshot := sample_snapshot;
     Accounting_Partial := false |}.

Definition no_counts (_ : string) : option (gmap string Z) := None.

Lemma sample_snapshot_ok : snapshot_ok sample_snapshot.
Proof.
  assert (forall n d, 0 <= n -> 1 <= d -> amount_ok (dollars n d)) by (by intros; split).
  split; [|by apply map_Forall_empty].
  do 5 (apply Forall_cons; split; [cbn; (done || (intros _; apply H; done))|]). by apply Forall_nil.
Qed.

Lemma Cost_exact_witness :
  Cost no_counts map_to_list sample_snapshot sample_usage = dollars 19 5000 /\
  amount_ok (Cost no_counts map_to_list sample_snapshot sample_usage).
Proof.
  split; [vm_compute; reflexivity|].
  refine (proj1 (proj2 (Cost_exact no_counts map_to_list (fun m => reflexivity _)
    sample_snapshot sample_usage sample_snapshot_ok _) _)).
  - do 5 (apply Forall_cons; split; [done|]). by apply Forall_nil.
  - vm_compute. reflexivity.
Defined.

Definition sample_summary : AttemptAccountingSummary :=
  summarize_totals sample_identity 1
    (add_cost no_counts map_to_list sample_accounting
      {| allUsageKnown := true; allCostKnown := true; usageSource := UsageSourceProvider;
         knownUsage := sample_usage; knownCost := 0; currency := ""; discrepancies := [] |}).

Lemma totals_exact_witness :
  Summary_TotalCost sample_summary = dollars 19 5000 /\
  fixed_counts (Summary_KnownUsageSubtotal sample_summary) = [1200; 800; 0; 40; 0].
Proof.
  split; [vm_compute; reflexivity|].
  refine (proj2 (proj2 (proj2 (totals_exact no_counts (fun _ => true) (fun _ => "")
    map_to_list [sample_accounting] sample_summary _ _)))).
  - done.
  - vm_compute. reflexivity.
Defined.
