(* ===== verification/GoPath.v ===== *)
(** * Go paths and UTF-8 text

    What the code uses of [path/filepath] on a Unix system, [unicode/utf8] and
    the rest of [strings]. [filepath.Clean] is documented by the lexical rules
    it applies until none does; on the list of a path's elements those rules
    are one left-to-right pass with a stack. *)

From Stdlib Require Import Ascii.
From S2P Require Import Prelude GoText.
Open Scope string_scope.
Open Scope list_scope.

Definition slash : ascii := "/".

(** [strings.Split] at a one-byte separator. *)
Fixpoint SplitByte (sep : ascii) (s : string) : list string :=
  match s with
  | EmptyString => [""]
  | String c rest =>
      if Ascii.eqb c sep then "" :: SplitByte sep rest
      else match SplitByte sep rest with
           | part :: parts => String c part :: parts
           | [] => []
           end
  end.

Fixpoint has_byte (c : ascii) (s : string) : bool :=
  match s with
  | EmptyString => false
  | String d rest => Ascii.eqb d c || has_byte c rest
  end.

Fixpoint has_byte_such (f : N -> bool) (s : string) : bool :=
  match s with
  | EmptyString => false
  | String d rest => f (N_of_ascii d) || has_byte_such f rest
  end.

(** [strings.Contains]. *)
Fixpoint Contains (s sub : string) : bool :=
  HasPrefix s sub || match s with EmptyString => false | String _ rest => Contains rest sub end.

Lemma SplitByte_cons sep s : exists part parts, SplitByte sep s = part :: parts.
Proof.
  induction s as [|c s (part & parts & IH)]; simpl; [eauto|].
  destruct (Ascii.eqb c sep); [eauto|]. rewrite IH. eauto.
Qed.

Lemma SplitByte_plain sep s : has_byte sep s = false -> SplitByte sep s = [s].
Proof.
  induction s as [|c s IH]; simpl; [done|]. intros [-> Hs]%orb_false_iff. by rewrite (IH Hs).
Qed.

Lemma SplitByte_app sep s t :
  has_byte sep s = false -> SplitByte sep (s +:+ String sep t) = s :: SplitByte sep t.
Proof.
  induction s as [|c s IH]; simpl; intros Hs.
  - by rewrite Ascii.eqb_refl.
  - apply orb_false_iff in Hs as [-> Hs]. by rewrite (IH Hs).
Qed.

Lemma SplitByte_parts sep s : Forall (fun part => has_byte sep part = false) (SplitByte sep s).
Proof.
  induction s as [|c s IH]; simpl; [by repeat constructor|].
  destruct (Ascii.eqb c sep) eqn:E; [by constructor|].
  destruct (SplitByte_cons sep s) as (part & parts & Hs). rewrite Hs in *.
  inversion IH; subst. constructor; [|done]. simpl. by rewrite E.
Qed.

Lemma Join_cons2 a b parts sep : Join (a :: b :: parts) sep = a +:+ sep +:+ Join (b :: parts) sep.
Proof. done. Qed.

Lemma Join_SplitByte sep s : Join (SplitByte sep s) (String sep "") = s.
Proof.
  induction s as [|c s IH]; [done|]. simpl. destruct (SplitByte_cons sep s) as (part & parts & Hs).
  rewrite Hs in *. destruct (Ascii.eqb_spec c sep) as [->|].
  - by rewrite Join_cons2, IH.
  - rewrite <- IH. by destruct parts.
Qed.

Lemma SplitByte_Join sep parts :
  parts <> [] -> Forall (fun part => has_byte sep part = false) parts ->
  SplitByte sep (Join parts (String sep "")) = parts.
Proof.
  intros Hne Hall. induction Hall as [|p parts Hp Hall IH]; [done|].
  destruct parts as [|p2 parts]; [by apply SplitByte_plain|].
  change (Join (p :: p2 :: parts) (String sep ""))
    with (p +:+ String sep (Join (p2 :: parts) (String sep ""))).
  by rewrite SplitByte_app, IH.
Qed.

(** ** [path/filepath] *)

Definition IsAbs (p : string) : bool := HasPrefix p "/".

(** The elements of the cleaned path, the last first in [stack]. *)
Fixpoint clean_elements (rooted : bool) (stack parts : list string) : list string :=
  match parts with
  | [] => reverse stack
  | part :: rest =>
      if (part =? "") || (part =? ".") then clean_elements rooted stack rest
      else if part =? ".." then
        match stack with
        | [] => clean_elements rooted (if rooted then [] else [".."]) rest
        | top :: below =>
            if top =? ".." then clean_elements rooted (".." :: stack) rest
            else clean_elements rooted below rest
        end
      else clean_elements rooted (part :: stack) rest
  end.

Definition elements_of (p : string) : list string :=
  clean_elements (IsAbs p) [] (SplitByte slash p).

Definition Clean (p : string) : string :=
  let body := Join (elements_of p) "/" in
  if IsAbs p then "/" +:+ body else if body =? "" then "." else body.

(** [filepath.Join] of two elements, the first not empty. *)
Definition JoinPath (a b : string) : string :=
  if b =? "" then Clean a else Clean (a +:+ "/" +:+ b).

Fixpoint strip_common (b t : list string) : list string * list string :=
  match b, t with
  | x :: b', y :: t' => if x =? y then strip_common b' t' else (b, t)
  | _, _ => (b, t)
  end.

(** [None]: the target cannot be made relative to the base. *)
Definition Rel (base target : string) : option string :=
  if Clean base =? Clean target then Some "."
  else if negb (Bool.eqb (IsAbs base) (IsAbs target)) then None
  else
    let '(b, t) := strip_common (elements_of base) (elements_of target) in
    match b with
    | [] => Some (Join t "/")
    | x :: _ => if x =? ".." then None
                else Some (Join (repeat ".." (length b) ++ t) "/")
    end.

(** [filepath.Base]. *)
Fixpoint trim_trailing_slashes (l : list ascii) : list ascii :=
  match l with
  | c :: rest => if Ascii.eqb c slash then trim_trailing_slashes rest else l
  | [] => []
  end.

Definition Base (p : string) : string :=
  if p =? "" then "."
  else
    let trimmed := String.string_of_list_ascii
      (reverse (trim_trailing_slashes (reverse (String.list_ascii_of_string p)))) in
    if trimmed =? "" then "/" else default "" (last (SplitByte slash trimmed)).

Example clean_examples :
  Clean "a//b/./c/.." = "a/b" /\ Clean "/../a" = "/a" /\ Clean "" = "." /\
  Clean "../../x" = "../../x" /\ Clean "a/../.." = ".." /\ Clean "/" = "/" /\
  Rel "/w" "/w/a/b" = Some "a/b" /\ Rel "/w/x" "/w/y/z" = Some "../y/z" /\
  Rel "/w" "/w" = Some "." /\ Rel "/" "/a" = Some "a" /\ Rel "a" "/a" = None /\
  Base "/usr/bin/go/" = "go" /\ Base "///" = "/" /\ JoinPath "/w" "../x" = "/x".
Proof. repeat split. Qed.

(** ** What cleaning gives *)

(** An element of a path that means itself. *)
Definition plain (part : string) : Prop :=
  part <> "" /\ part <> "." /\ part <> ".." /\ has_byte slash part = false.

Lemma clean_elements_plain rooted stack parts :
  Forall plain parts -> clean_elements rooted stack parts = reverse stack ++ parts.
Proof.
  intros Hp. revert stack. induction Hp as [|p parts (H1 & H2 & H3 & _) _ IH]; intros stack; simpl.
  - by rewrite (right_id_L [] (++)).
  - apply String.eqb_neq in H1, H2, H3. rewrite H1, H2, H3. simpl.
    rewrite IH, reverse_cons. by rewrite <- (assoc_L (++)).
Qed.

(** Below the root, what is left is plain. *)
Lemma clean_elements_rooted stack parts :
  Forall plain stack -> Forall (fun p => has_byte slash p = false) parts ->
  Forall plain (clean_elements true stack parts).
Proof.
  intros Hs Hp. revert stack Hs. induction Hp as [|p parts Hp _ IH]; intros stack Hs; simpl.
  { by apply Forall_reverse. }
  destruct (String.eqb_spec p ""); [by apply IH|]. destruct (String.eqb_spec p "."); [by apply IH|].
  simpl. destruct (String.eqb_spec p "..").
  - destruct Hs as [|top below (_ & _ & Ht & _) Hb]; [by apply IH|].
    apply String.eqb_neq in Ht. rewrite Ht. by apply IH.
  - apply IH. by constructor.
Qed.

Lemma elements_of_rooted p : IsAbs p = true -> Forall plain (elements_of p).
Proof.
  intros Hp. unfold elements_of. rewrite Hp. apply clean_elements_rooted; [constructor|].
  apply SplitByte_parts.
Qed.

Lemma plain_no_slash parts :
  Forall plain parts -> Forall (fun p => has_byte slash p = false) parts.
Proof. intros H. eapply Forall_impl; [exact H|]. by intros p (_ & _ & _ & ?). Qed.

(** A path written with plain elements is clean and has those elements. *)
Lemma Join_plain_relative p parts :
  Forall plain (p :: parts) ->
  IsAbs (Join (p :: parts) "/") = false /\ elements_of (Join (p :: parts) "/") = p :: parts /\
  Clean (Join (p :: parts) "/") = Join (p :: parts) "/".
Proof.
  intros Hall. set (j := Join (p :: parts) "/").
  assert (exists c s, j = String c s /\ Ascii.eqb slash c = false) as (c & s & Hj & Hc).
  { inversion Hall as [|? ? (H1 & _ & _ & H4) _]; subst. destruct p as [|c p']; [done|].
    simpl in H4. apply orb_false_iff in H4 as [H4 _]. rewrite Ascii.eqb_sym in H4.
    destruct parts; [by eexists c, _|]. unfold j. rewrite Join_cons2. by eexists c, _. }
  assert (IsAbs j = false) as Ha.
  { unfold IsAbs, HasPrefix. rewrite Hj. cbn [strip_prefix]. change "/"%char with slash. by rewrite Hc. }
  assert (elements_of j = p :: parts) as He.
  { unfold elements_of. rewrite Ha. unfold j.
    rewrite (SplitByte_Join slash) by (done || by apply plain_no_slash).
    by rewrite clean_elements_plain. }
  split_and!; [done..|]. unfold Clean. rewrite Ha, He. fold j. by rewrite Hj.
Qed.

Lemma string_app_cons c (a b : string) : String c a +:+ b = String c (a +:+ b).
Proof. done. Qed.

Lemma string_app_empty (b : string) : "" +:+ b = b.
Proof. done. Qed.

Lemma strip_prefix_spec p s r : strip_prefix p s = Some r <-> s = p +:+ r.
Proof.
  revert s. induction p as [|a p IH]; intros s; simpl.
  { rewrite string_app_empty. split; congruence. }
  rewrite string_app_cons. destruct s as [|b s]; [done|].
  destruct (Ascii.eqb_spec a b) as [->|]; [|split; congruence].
  rewrite IH. split; [by intros ->|by intros [= ->]].
Qed.

Lemma HasPrefix_spec s p : HasPrefix s p = true <-> exists r, s = p +:+ r.
Proof.
  unfold HasPrefix. destruct (strip_prefix p s) as [r|] eqn:E.
  - apply strip_prefix_spec in E. split; [eauto|done].
  - split; [done|]. intros [r Hr]. apply strip_prefix_spec in Hr. congruence.
Qed.

Lemma string_app_assoc (a b c : string) : (a +:+ b) +:+ c = a +:+ (b +:+ c).
Proof. induction a as [|x a IH]; [done|]. by rewrite !string_app_cons, IH. Qed.

Lemma string_app_nil (a : string) : a +:+ "" = a.
Proof. induction a as [|x a IH]; [done|]. by rewrite !string_app_cons, IH. Qed.

Lemma Join_plain_inj l1 l2 : Forall plain l1 -> Forall plain l2 -> Join l1 "/" = Join l2 "/" -> l1 = l2.
Proof.
  intros H1 H2 E.
  assert (forall l, Forall plain l -> l <> [] -> Join l "/" <> "") as Hne.
  { intros [|p l] Hl Hn E'; [done|]. destruct (Join_plain_relative p l Hl) as (_ & He & _).
    rewrite E' in He. vm_compute in He. done. }
  destruct l1 as [|p1 l1], l2 as [|p2 l2]; [done| | |].
  - exfalso. by eapply (Hne (p2 :: l2)).
  - exfalso. by eapply (Hne (p1 :: l1)).
  - rewrite <- (proj1 (proj2 (Join_plain_relative p1 l1 H1))), E. by apply Join_plain_relative.
Qed.

Lemma strip_common_spec b t b' t' :
  strip_common b t = (b', t') ->
  exists c, b = c ++ b' /\ t = c ++ t' /\ (b `prefix_of` t -> b' = []).
Proof.
  revert t. induction b as [|x b IH]; intros [|y t]; simpl.
  - intros [= <- <-]. by exists [].
  - intros [= <- <-]. by exists [].
  - intros [= <- <-]. exists []. split_and!; try done. by intros ?%prefix_nil_inv.
  - destruct (String.eqb_spec x y) as [->|Hne].
    + intros H. destruct (IH _ H) as (c & -> & -> & Hp). exists (y :: c). split_and!; try done.
      intros Hpre. apply Hp. by eapply prefix_cons_inv_2.
    + intros [= <- <-]. exists []. split_and!; try done. intros Hpre.
      by apply prefix_cons_inv_1 in Hpre.
Qed.

(** Staying inside, lexically: a path that is relative to an absolute base
    without going up has the base's elements as its first ones. *)
Definition goes_up (r : string) : bool := (r =? "..") || HasPrefix r "../".

Lemma goes_up_repeat n t : goes_up (Join (repeat ".." (S n) ++ t) "/") = true.
Proof.
  unfold goes_up. destruct (repeat ".." n ++ t) as [|p l] eqn:E.
  - simpl. rewrite E. done.
  - change (repeat ".." (S n) ++ t) with (".." :: repeat ".." n ++ t). rewrite E, Join_cons2.
    apply orb_true_iff. right. apply HasPrefix_spec. by exists (Join (p :: l) "/").
Qed.

Lemma plain_stays p l : Forall plain (p :: l) -> goes_up (Join (p :: l) "/") = false.
Proof.
  intros Hl. destruct (Join_plain_relative p l Hl) as (_ & He & _).
  unfold goes_up. apply orb_false_iff. split.
  - apply String.eqb_neq. intros E. rewrite E in He. inversion Hl as [|? ? (_ & _ & H3 & _) _]; subst.
    vm_compute in He. congruence.
  - destruct (HasPrefix _ _) eqn:Hp; [|done]. apply HasPrefix_spec in Hp as [r Hr].
    exfalso. inversion Hl as [|? ? (_ & _ & H3 & _) _]; subst.
    assert (SplitByte slash (Join (p :: l) "/") = p :: l) as Hs
      by (apply SplitByte_Join; [done|by apply plain_no_slash]).
    rewrite Hr in Hs. change ("../" +:+ r) with (".." +:+ String slash r) in Hs.
    rewrite SplitByte_app in Hs by done. congruence.
Qed.

Lemma Rel_inside base target :
  IsAbs base = true -> IsAbs target = true ->
  (exists r, Rel base target = Some r /\ goes_up r = false) <->
  elements_of base `prefix_of` elements_of target.
Proof.
  intros Hb Ht. unfold Rel. pose proof (elements_of_rooted _ Hb) as Pb.
  pose proof (elements_of_rooted _ Ht) as Pt.
  destruct (String.eqb_spec (Clean base) (Clean target)) as [E|E].
  { unfold Clean in E. rewrite Hb, Ht in E. injection E as E.
    rewrite (Join_plain_inj _ _ Pb Pt E). split; [done|]. intros _. by exists ".". }
  rewrite Hb, Ht. simpl. destruct (strip_common _ _) as [b t] eqn:Hs.
  apply strip_common_spec in Hs as (c & Eb & Et & Hpre). rewrite Et in Pt. apply Forall_app in Pt as [_ Pt].
  destruct b as [|x b].
  - rewrite (right_id_L [] (++)) in Eb. split.
    + intros _. rewrite Eb, Et. by apply prefix_app_r.
    + intros _. eexists. split; [done|]. destruct t as [|y t]; [|by apply plain_stays].
      destruct E. unfold Clean. rewrite Hb, Ht, Eb, Et. by rewrite (right_id_L [] (++)).
  - rewrite Eb in Pb. apply Forall_app in Pb as [_ Pb].
    inversion Pb as [|? ? (_ & _ & Hx & _) _]; subst. apply String.eqb_neq in Hx. rewrite Hx. split.
    + intros (r & Hr%(inj Some) & Hup).
      assert (goes_up r = true) by (rewrite <- Hr; apply (goes_up_repeat (length b) t)). congruence.
    + intros H. by apply Hpre in H.
Qed.

(** Cleaning an absolute path keeps its elements. *)
Lemma elements_of_Clean p :
  IsAbs p = true -> IsAbs (Clean p) = true /\ elements_of (Clean p) = elements_of p.
Proof.
  intros Hp. pose proof (elements_of_rooted p Hp) as Hall.
  unfold Clean. rewrite Hp. set (l := elements_of p) in *. clearbody l.
  change ("/" +:+ Join l "/") with (String slash (Join l "/")).
  assert (IsAbs (String slash (Join l "/")) = true) as Ha by done.
  split; [done|]. unfold elements_of. rewrite Ha. simpl.
  destruct l as [|x l]; [done|].
  rewrite (SplitByte_Join slash) by (done || by apply plain_no_slash).
  by apply clean_elements_plain.
Qed.

Lemma Clean_idempotent p : IsAbs p = true -> Clean (Clean p) = Clean p.
Proof.
  intros Hp. destruct (elements_of_Clean p Hp) as [Ha He].
  unfold Clean at 1. rewrite Ha, He. unfold Clean. by rewrite Hp.
Qed.

(** The elements of a path below an absolute one. *)
Lemma elements_of_JoinPath_plain base p l :
  IsAbs base = true -> Forall plain (p :: l) ->
  elements_of (JoinPath base (Join (p :: l) "/")) = elements_of base ++ p :: l.
Proof.
  intros Hb Hl. destruct (Join_plain_relative p l Hl) as (_ & He & _).
  unfold JoinPath. destruct (String.eqb_spec (Join (p :: l) "/") "") as [E|_].
  { rewrite E in He. vm_compute in He. done. }
  assert (IsAbs (base +:+ "/" +:+ Join (p :: l) "/") = true) as Ha.
  { unfold IsAbs in *. apply HasPrefix_spec in Hb as [r ->]. rewrite string_app_assoc.
    apply HasPrefix_spec. eauto. }
  rewrite (proj2 (elements_of_Clean _ Ha)). unfold elements_of. rewrite Ha, Hb.
  change (base +:+ "/" +:+ Join (p :: l) "/") with (base +:+ String slash (Join (p :: l) "/")).
  assert (forall s t, SplitByte slash (s +:+ String slash t) = SplitByte slash s ++ SplitByte slash t) as Hsp.
  { intros s t. induction s as [|c s IH].
    { done. }
    rewrite string_app_cons. simpl. rewrite IH. destruct (Ascii.eqb c slash); [done|].
    destruct (SplitByte_cons slash s) as (q & qs & ->). done. }
  assert (SplitByte slash (Join (p :: l) "/") = p :: l) as Hj
    by (apply SplitByte_Join; [done|by apply plain_no_slash]).
  rewrite Hsp, Hj.
  generalize (SplitByte slash base) as parts. intros parts.
  assert (forall stack, clean_elements true stack (parts ++ p :: l) =
    clean_elements true stack parts ++ p :: l) as Hc; [|apply Hc].
  induction parts as [|q parts IH]; intros stack.
  - by rewrite clean_elements_plain.
  - simpl. destruct (_ || _); [apply IH|]. destruct (q =? ".."); [|apply IH].
    destruct stack as [|top below]; [apply IH|]. destruct (top =? ".."); apply IH.
Qed.

(** ** UTF-8 *)

Definition in_range (lo hi b : N) : bool := (lo <=? b)%N && (b <=? hi)%N.
Definition continuation (b : N) : bool := in_range 128 191 b.

(** The length of the encoded rune at the start of a string; [None] when the
    bytes there encode none. *)
Definition rune_length (s : string) : option nat :=
  match String.list_ascii_of_string s with
  | [] => None
  | b0 :: rest =>
      let b0 := N_of_ascii b0 in
      if (b0 <? 128)%N then Some 1%nat
      else match map N_of_ascii rest with
      | b1 :: rest1 =>
          if in_range 194 223 b0 then if continuation b1 then Some 2%nat else None
          else if in_range 224 239 b0 then
            let low := if (b0 =? 224)%N then 160%N else 128%N in
            let high := if (b0 =? 237)%N then 159%N else 191%N in
            match rest1 with
            | b2 :: _ => if in_range low high b1 && continuation b2 then Some 3%nat else None
            | [] => None
            end
          else if in_range 240 244 b0 then
            let low := if (b0 =? 240)%N then 144%N else 128%N in
            let high := if (b0 =? 244)%N then 143%N else 191%N in
            match rest1 with
            | b2 :: b3 :: _ =>
                if in_range low high b1 && continuation b2 && continuation b3 then Some 4%nat else None
            | _ => None
            end
          else None
      | [] => None
      end
  end.

Fixpoint str_take (n : nat) (s : string) : string :=
  match n, s with S n, String c rest => String c (str_take n rest) | _, _ => "" end.

Fixpoint str_drop (n : nat) (s : string) : string :=
  match n, s with S n, String _ rest => str_drop n rest | O, _ => s | _, EmptyString => "" end.

Fixpoint valid_runes (fuel : nat) (s : string) : bool :=
  match fuel, s with
  | _, EmptyString => true
  | O, _ => false
  | S fuel, _ => match rune_length s with
                 | Some n => valid_runes fuel (str_drop n s)
                 | None => false
                 end
  end.

(** [utf8.ValidString]; every rune takes at least one byte. *)
Definition ValidString (s : string) : bool := valid_runes (String.length s) s.

(** [strings.ToValidUTF8]: each run of invalid bytes is replaced once. *)
Fixpoint to_valid (fuel : nat) (replacement s : string) (invalid : bool) : string :=
  match fuel, s with
  | O, _ => ""
  | _, EmptyString => ""
  | S fuel, String c rest =>
      match rune_length s with
      | None => (if invalid then "" else replacement) +:+ to_valid fuel replacement rest true
      | Some n => str_take n s +:+ to_valid fuel replacement (str_drop n s) false
      end
  end.

Definition ToValidUTF8 (s replacement : string) : string :=
  to_valid (String.length s) replacement s false.

Definition replacement_character : string := bytes [239; 191; 189]%N.

(** [utf8.RuneStart]. *)
Definition RuneStart (c : ascii) : bool := negb (continuation (N_of_ascii c)).

Example utf8_examples :
  ValidString (bytes [206; 187; 97]%N) = true /\ ValidString (bytes [192; 128]%N) = false /\
  ValidString (bytes [237; 160; 128]%N) = false /\
  ToValidUTF8 (bytes [97; 255; 254; 98]%N) "?" = "a?b".
Proof. repeat split. Qed.
