(* ===== verification/GoSearch.v ===== *)
(** * Searching Go strings

    [strings.Index], [Count], [Replace], [TrimPrefix] and [TrimRight] as the
    patch tool uses them, with what an occurrence is. *)

From Stdlib Require Import Ascii.
From S2P Require Import Prelude GoText GoPath.
Open Scope string_scope.
Open Scope list_scope.

(** [strings.Index]; [None] is -1. *)
Fixpoint Index (s sub : string) : option nat :=
  if HasPrefix s sub then Some O
  else match s with
       | EmptyString => None
       | String _ rest => S <$> Index rest sub
       end.

(** [utf8.RuneCountInString]: an invalid byte counts as one rune. *)
Fixpoint rune_count (fuel : nat) (s : string) : nat :=
  match fuel, s with
  | S fuel, String _ rest =>
      match rune_length s with
      | Some (S n) => S (rune_count fuel (str_drop (S n) s))
      | _ => S (rune_count fuel rest)
      end
  | _, _ => O
  end.

Fixpoint count_from (fuel : nat) (s sub : string) : nat :=
  match fuel, Index s sub with
  | S fuel, Some at_ => S (count_from fuel (str_drop (at_ + String.length sub) s) sub)
  | _, _ => O
  end.

(** [strings.Count]: occurrences that do not overlap; an empty text occurs
    around every rune. *)
Definition Count (s sub : string) : nat :=
  if sub =? "" then S (rune_count (String.length s) s)
  else count_from (S (String.length s)) s sub.

(** The text with the part of [len] bytes at an offset replaced. *)
Definition splice (s : string) (at_ len : nat) (new : string) : string :=
  str_take at_ s +:+ new +:+ str_drop (at_ + len) s.

(** [strings.Replace] with a count of one. *)
Definition ReplaceOnce (s old new : string) : string :=
  match Index s old with
  | Some at_ => splice s at_ (String.length old) new
  | None => s
  end.

(** [strings.ReplaceAll]; every occurrence that is replaced takes a byte at
    least. *)
Fixpoint replace_from (fuel : nat) (s old new : string) : string :=
  match fuel, Index s old with
  | S fuel, Some at_ =>
      str_take at_ s +:+ new +:+ replace_from fuel (str_drop (at_ + String.length old) s) old new
  | _, _ => s
  end.

Fixpoint around_runes (fuel : nat) (s new : string) : string :=
  match fuel, s with
  | S fuel, String _ _ =>
      let n := match rune_length s with Some (S n) => S n | _ => 1%nat end in
      str_take n s +:+ new +:+ around_runes fuel (str_drop n s) new
  | _, _ => ""
  end.

Definition ReplaceAll (s old new : string) : string :=
  if old =? "" then new +:+ around_runes (String.length s) s new
  else replace_from (S (String.length s)) s old new.

(** [strings.IndexAny] for ASCII characters, and [strings.LastIndex] of one;
    [None] is -1. *)
Fixpoint IndexAny (s : string) (set : list ascii) : option nat :=
  match s with
  | EmptyString => None
  | String c rest => if existsb (Ascii.eqb c) set then Some O else S <$> IndexAny rest set
  end.

Fixpoint LastIndexByte (s : string) (c : ascii) : option nat :=
  match s with
  | EmptyString => None
  | String d rest =>
      match LastIndexByte rest c with
      | Some i => Some (S i)
      | None => if Ascii.eqb d c then Some O else None
      end
  end.

Definition TrimPrefix (s prefix : string) : string := default s (strip_prefix prefix s).

(** [strings.TrimRight] with a cut set of ASCII characters. *)
Fixpoint trim_left_set (set : list ascii) (l : list ascii) : list ascii :=
  match l with
  | [] => []
  | c :: rest => if existsb (Ascii.eqb c) set then trim_left_set set rest else l
  end.

Definition TrimRight (s : string) (set : list ascii) : string :=
  String.string_of_list_ascii (rev (trim_left_set set (rev (String.list_ascii_of_string s)))).

(** [strings.ReplaceAll(s, "\r\n", "\n")]. *)
Fixpoint unix_newlines (s : string) : string :=
  match s with
  | String "013" ((String "010" _) as rest) => unix_newlines rest
  | String c rest => String c (unix_newlines rest)
  | EmptyString => EmptyString
  end.

(** ** Occurrences *)

Lemma str_take_app (a b : string) : str_take (String.length a) (a +:+ b) = a.
Proof.
  induction a as [|c a IH]; [by destruct b|]. rewrite string_app_cons. cbn. by rewrite IH.
Qed.

Lemma str_drop_app (a b : string) : str_drop (String.length a) (a +:+ b) = b.
Proof. induction a as [|c a IH]; [by destruct b|]. rewrite string_app_cons. exact IH. Qed.

Lemma length_str_take n v : String.length (str_take n v) = Nat.min n (String.length v).
Proof. revert v. induction n as [|n IH]; intros [|c v]; cbn; [done..|]. by rewrite IH. Qed.

Lemma str_take_drop n (s : string) : str_take n s +:+ str_drop n s = s.
Proof.
  revert n. induction s as [|c s IH]; intros [|n]; try done. cbn. rewrite string_app_cons. by rewrite IH.
Qed.

Lemma length_app_string (a b : string) :
  String.length (a +:+ b) = (String.length a + String.length b)%nat.
Proof. induction a as [|c a IH]; [done|]. rewrite string_app_cons. cbn. by rewrite IH. Qed.

Lemma str_drop_drop n m (s : string) : str_drop n (str_drop m s) = str_drop (m + n) s.
Proof. revert s. induction m as [|m IH]; intros [|c s]; try done. by destruct n. apply IH. Qed.

(** [sub] occurs in [s] after [l]. *)
Definition occurs (s sub l : string) : Prop := exists r, s = l +:+ sub +:+ r.

Lemma splice_app l old r new :
  splice (l +:+ old +:+ r) (String.length l) (String.length old) new = l +:+ new +:+ r.
Proof.
  unfold splice. rewrite str_take_app. f_equal. f_equal.
  rewrite <- str_drop_drop, str_drop_app. apply str_drop_app.
Qed.

(** [Index] finds the first occurrence. *)
Lemma Index_Some s sub i :
  Index s sub = Some i ->
  exists l r, s = l +:+ sub +:+ r /\ String.length l = i /\
    forall l', occurs s sub l' -> (i <= String.length l')%nat.
Proof.
  revert i. induction s as [|c s IH]; intros i; cbn [Index].
  - destruct (HasPrefix "" sub) eqn:Hp; [|done]. intros [= <-].
    apply HasPrefix_spec in Hp as [r Hr]. exists "", r. rewrite string_app_empty.
    split_and!; [done|done|lia].
  - destruct (HasPrefix (String c s) sub) eqn:Hp.
    + intros [= <-]. apply HasPrefix_spec in Hp as [r Hr]. exists "", r.
      rewrite string_app_empty. split_and!; [done|done|lia].
    + destruct (Index s sub) as [j|] eqn:Hj; [|done]. intros [= <-].
      destruct (IH j eq_refl) as (l & r & -> & <- & Hmin).
      exists (String c l), r. rewrite string_app_cons. split_and!; [done|done|].
      intros [|c' l'] [r' Hr'].
      * rewrite string_app_empty in Hr'.
        assert (HasPrefix (String c (l +:+ sub +:+ r)) sub = true) as Hc; [|congruence].
        apply HasPrefix_spec. eauto.
      * rewrite string_app_cons in Hr'. injection Hr' as <- Hr'. cbn.
        specialize (Hmin l' (ex_intro _ r' Hr')). lia.
Qed.

Lemma Index_None s sub l : Index s sub = None -> ~ occurs s sub l.
Proof.
  revert l. induction s as [|c s IH]; intros l; cbn [Index].
  - destruct (HasPrefix "" sub) eqn:Hp; [done|]. intros _ [r Hr]. destruct l; [|done].
    rewrite string_app_empty in Hr.
    assert (HasPrefix "" sub = true) as Hc; [apply HasPrefix_spec; eauto|congruence].
  - destruct (HasPrefix (String c s) sub) eqn:Hp; [done|].
    destruct (Index s sub) as [j|]; [done|]. intros _ [r Hr]. destruct l as [|c' l].
    + rewrite string_app_empty in Hr.
      assert (HasPrefix (String c s) sub = true) as Hc; [apply HasPrefix_spec; eauto|congruence].
    + rewrite string_app_cons in Hr. injection Hr as <- Hr. by apply (IH l eq_refl); exists r.
Qed.

Lemma Index_first s sub l r :
  s = l +:+ sub +:+ r -> (forall l', occurs s sub l' -> (String.length l <= String.length l')%nat) ->
  Index s sub = Some (String.length l).
Proof.
  intros Hs Hmin. destruct (Index s sub) as [i|] eqn:Hi.
  - apply Index_Some in Hi as (l' & r' & Hs' & <- & Hmin'). f_equal.
    assert (occurs s sub l) by (by exists r). assert (occurs s sub l') by (by exists r').
    specialize (Hmin _ H0). specialize (Hmin' _ H). lia.
  - exfalso. apply (Index_None _ _ l Hi). by exists r.
Qed.

Lemma Contains_spec s sub : Contains s sub = true <-> exists l, occurs s sub l.
Proof.
  induction s as [|c s IH]; cbn [Contains].
  - rewrite orb_false_r, HasPrefix_spec. split.
    + intros [r Hr]. exists "", r. by rewrite string_app_empty.
    + intros (l & r & Hr). destruct l; [|done]. rewrite string_app_empty in Hr. eauto.
  - rewrite orb_true_iff, HasPrefix_spec, IH. split.
    + intros [[r Hr]|(l & r & ->)]; [exists "", r; by rewrite string_app_empty|].
      exists (String c l), r. by rewrite string_app_cons.
    + intros ([|c' l] & r & Hr); [rewrite string_app_empty in Hr; eauto|].
      rewrite string_app_cons in Hr. injection Hr as <- ->. right. by exists l, r.
Qed.

(** One occurrence, overlapping ones counted. *)
Definition sole (s sub l r : string) : Prop :=
  s = l +:+ sub +:+ r /\ forall l', occurs s sub l' -> l' = l.

Lemma sole_Index s sub l r : sole s sub l r -> Index s sub = Some (String.length l).
Proof. intros [Hs Hu]. eapply Index_first; [done|]. by intros l' ->%Hu. Qed.

(** ** Trimming *)

Lemma rev_app_spec a b : String.rev_app a b = String.rev a +:+ b.
Proof.
  unfold String.rev. revert b. induction a as [|c a IH]; intros b; [done|].
  cbn. rewrite IH, (IH (String c "")), string_app_assoc. done.
Qed.

Lemma rev_cons c a : rev_string (String c a) = rev_string a +:+ String c "".
Proof. unfold rev_string, String.rev at 1. cbn. apply rev_app_spec. Qed.

Lemma rev_string_app a b : rev_string (a +:+ b) = rev_string b +:+ rev_string a.
Proof.
  induction a as [|c a IH].
  - change (rev_string "") with "". by rewrite string_app_empty, string_app_nil.
  - by rewrite string_app_cons, !rev_cons, IH, string_app_assoc.
Qed.

Lemma rev_string_twice a : rev_string (rev_string a) = a.
Proof. induction a as [|c a IH]; [done|]. by rewrite rev_cons, rev_string_app, IH. Qed.

Lemma trim_left_suffix ps fuel s : exists p, s = p +:+ trim_left_with ps fuel s.
Proof.
  revert s. induction fuel as [|fuel IH]; intros s; cbn [trim_left_with]; [by exists ""|].
  destruct (strip_any ps s) as [s'|] eqn:Hs; [|by exists ""].
  assert (exists p, s = p +:+ s') as [p ->].
  { clear IH. induction ps as [|q ps IH]; [done|]. cbn in Hs.
    destruct (strip_prefix q s) as [r|] eqn:Hq; [|auto]. injection Hs as <-.
    apply strip_prefix_spec in Hq. eauto. }
  destruct (IH s') as [p' Hp']. exists (p +:+ p'). rewrite string_app_assoc. congruence.
Qed.

(** A byte that opens the encoding of a space. *)
Definition space_lead (c : ascii) : bool :=
  existsb (fun e => match e with String d _ => Ascii.eqb d c | "" => true end) space_encodings.

Lemma no_space_lead c s : space_lead c = false -> strip_any space_encodings (String c s) = None.
Proof.
  unfold space_lead. induction space_encodings as [|[|d e] l IH]; [done|done|]. cbn [existsb strip_any].
  intros [Hd Hl]%orb_false_iff. cbn [strip_prefix]. rewrite Hd. by apply IH.
Qed.

Lemma TrimSpace_prefix s :
  match s with String c _ => space_lead c = false | "" => True end ->
  exists r, s = TrimSpace s +:+ r.
Proof.
  intros Hs. unfold TrimSpace.
  assert (trim_left_with space_encodings (String.length s) s = s) as ->.
  { destruct s as [|c s]; [done|]. cbn [trim_left_with String.length]. by rewrite no_space_lead. }
  destruct (trim_left_suffix (map rev_string space_encodings) (String.length s) (rev_string s)) as [p Hp].
  exists (rev_string p). rewrite <- rev_string_app, <- Hp. by rewrite rev_string_twice.
Qed.

Lemma trim_left_stays ps fuel s : strip_any ps s = None -> trim_left_with ps fuel s = s.
Proof. intros H. destruct fuel as [|fuel]; [done|]. cbn [trim_left_with]. by rewrite H. Qed.

Lemma strip_any_shorter ps s s' :
  Forall (fun p => p <> "") ps -> strip_any ps s = Some s' -> (String.length s' < String.length s)%nat.
Proof.
  induction 1 as [|p ps Hp _ IH]; [done|]. cbn [strip_any].
  destruct (strip_prefix p s) as [r|] eqn:E; [|done]. intros [= <-].
  apply strip_prefix_spec in E as ->. rewrite length_app_string. destruct p; [done|]. cbn. lia.
Qed.

Lemma trim_left_fixed ps s :
  Forall (fun p => p <> "") ps -> trim_left_with ps (String.length s) s = s -> s <> "" ->
  strip_any ps s = None.
Proof.
  intros Hps Ht Hs. destruct s as [|c s]; [done|]. cbn [String.length trim_left_with] in Ht.
  destruct (strip_any ps (String c s)) as [s'|] eqn:E; [|done]. exfalso.
  pose proof (strip_any_shorter _ _ _ Hps E) as Hl.
  destruct (trim_left_suffix ps (String.length s) s') as [p Hp]. rewrite Ht in Hp.
  rewrite Hp, length_app_string in Hl. lia.
Qed.

(** A text that trimming leaves alone has no space at either end. *)
Lemma TrimSpace_fixed s :
  TrimSpace s = s -> s <> "" ->
  strip_any space_encodings s = None /\
  strip_any (map rev_string space_encodings) (rev_string s) = None.
Proof.
  unfold TrimSpace. intros Ht Hs.
  destruct (trim_left_suffix space_encodings (String.length s) s) as [p Hp].
  set (left := trim_left_with space_encodings (String.length s) s) in *.
  destruct (trim_left_suffix (map rev_string space_encodings) (String.length left) (rev_string left))
    as [q Hq].
  set (right := trim_left_with _ _ (rev_string left)) in *.
  assert (left = s +:+ rev_string q) as Hl.
  { rewrite <- Ht at 1. by rewrite <- rev_string_app, <- Hq, rev_string_twice. }
  assert (String.length s = String.length p + (String.length s + String.length (rev_string q)))%nat as Hn.
  { rewrite Hp at 1. by rewrite Hl, !length_app_string. }
  assert (rev_string q = "") as Hq0 by (destruct (rev_string q); [done|cbn in Hn; lia]).
  rewrite Hq0, string_app_nil in Hl.
  split; apply trim_left_fixed.
  - by repeat constructor.
  - exact Hl.
  - exact Hs.
  - by repeat constructor.
  - assert (String.length (rev_string s) = String.length s) as ->.
    { clear. induction s as [|c s IH]; [done|]. rewrite rev_cons, length_app_string, IH. cbn. lia. }
    rewrite <- Hl at 1. rewrite <- Hl at 1. fold right. rewrite <- Ht, rev_string_twice. done.
  - intros H. apply Hs. by rewrite <- (rev_string_twice s), H.
Qed.

Lemma strip_prefix_before c p a b r :
  has_byte c p = false -> strip_prefix p (a +:+ String c b) = Some r -> exists r', strip_prefix p a = Some r'.
Proof.
  revert a. induction p as [|d p IH]; intros a; [by eexists|]. cbn [has_byte].
  intros [Hd Hp]%orb_false_iff. destruct a as [|x a].
  - rewrite string_app_empty. cbn [strip_prefix]. by rewrite Hd.
  - rewrite string_app_cons. cbn [strip_prefix]. destruct (Ascii.eqb d x); [by apply IH|done].
Qed.

(** A blank in the middle of a text keeps what precedes it from its end. *)
Lemma spaces_at_end ps a b :
  Forall (fun p => match p with String _ p' => has_byte " " p' = false | "" => False end) ps ->
  a <> "" -> strip_any ps a = None -> strip_any ps (a +:+ String " " b) = None.
Proof.
  intros Hps Ha. induction Hps as [|p ps Hp _ IH]; [done|]. cbn [strip_any].
  destruct (strip_prefix p a) as [x|] eqn:E; [done|]. intros Hs.
  destruct (strip_prefix p (a +:+ String " " b)) as [r|] eqn:F; [|by apply IH]. exfalso.
  destruct p as [|d p]; [done|]. destruct a as [|x a]; [done|]. rewrite string_app_cons in F.
  cbn [strip_prefix] in E, F. destruct (Ascii.eqb d x); [|done].
  apply strip_prefix_before in F as [r' Hr']; [congruence|done].
Qed.

Lemma TrimSpace_after_blank s : TrimSpace s = s -> s <> "" -> TrimSpace (" " +:+ s) = s.
Proof.
  intros Ht Hs. destruct (TrimSpace_fixed s Ht Hs) as [Hl Hr]. unfold TrimSpace at 1.
  change (" " +:+ s) with (String " " s).
  assert (trim_left_with space_encodings (String.length (String " " s)) (String " " s) = s) as ->.
  { cbn [String.length trim_left_with]. change (strip_any _ (String " " s)) with (Some s). cbv iota.
    by apply trim_left_stays. }
  by rewrite trim_left_stays, rev_string_twice.
Qed.

(** A text after a word and a blank is trimmed as it is. *)
Lemma TrimSpace_after_word c word s :
  space_lead c = false -> TrimSpace s = s -> s <> "" ->
  TrimSpace (String c word +:+ String " " s) = String c word +:+ String " " s.
Proof.
  intros Hc Ht Hs. destruct (TrimSpace_fixed s Ht Hs) as [_ Hr]. unfold TrimSpace.
  rewrite string_app_cons, (trim_left_stays space_encodings) by by apply no_space_lead.
  rewrite <- string_app_cons. rewrite trim_left_stays; [apply rev_string_twice|].
  rewrite rev_string_app, rev_cons, string_app_assoc.
  change (String " " "" +:+ rev_string (String c word)) with (String " " (rev_string (String c word))).
  apply spaces_at_end; [by repeat constructor| |done].
  intros H. apply Hs. by rewrite <- (rev_string_twice s), H.
Qed.
