(* ===== verification/ToolPolicy.v ===== *)
(** * The tool contract and its authority
      (src/internal/executor/protocol.go, policy.go, file_tools.go)

    A tool request carries what a model asked for; [ClassifyAuthority] derives
    the authority it needs from the tool, its effects and its arguments, and
    decides it against the task's policy. Digests are taken with a parameter
    [sha256_hex], about which nothing is assumed. *)

From Stdlib Require Import Ascii.
From S2P Require Import Prelude GoText PolicyValues GoErrors GoPath.
Open Scope string_scope.
Open Scope list_scope.

Definition ToolSchemaVersion : Z := 1.

Abbreviation ToolName := string (only parsing).
Definition ToolReadFile : ToolName := "read-file".
Definition ToolListDirectory : ToolName := "list-directory".
Definition ToolSearchText : ToolName := "search-text".
Definition ToolSearchSymbol : ToolName := "search-symbol".
Definition ToolApplyEdit : ToolName := "apply-edit".
Definition ToolApplyPatch : ToolName := "apply-patch".
Definition ToolInspectDiff : ToolName := "inspect-diff".
Definition ToolRunCommand : ToolName := "run-command".
Definition ToolGitStatus : ToolName := "git-status".
Definition ToolGitHistory : ToolName := "git-history".
Definition ToolTest : ToolName := "test".
Definition ToolBuild : ToolName := "build".
Definition ToolFormat : ToolName := "format".
Definition ToolStaticAnalysis : ToolName := "static-analysis".
Definition ToolPluginRPC : ToolName := "plugin-rpc".

Abbreviation AuthorityClass := string (only parsing).
Definition AuthorityAutomaticRead : AuthorityClass := "automatic-read".
Definition AuthorityTaskWrite : AuthorityClass := "task-write".
Definition AuthorityNetwork : AuthorityClass := "network".
Definition AuthorityDependencyInstall : AuthorityClass := "dependency-install".
Definition AuthorityExternalWrite : AuthorityClass := "external-write".
Definition AuthorityCredential : AuthorityClass := "credential".
Definition AuthorityDestructive : AuthorityClass := "destructive".
Definition AuthorityPrivileged : AuthorityClass := "privileged".
Definition AuthorityExternalCommunication : AuthorityClass := "external-communication".

Abbreviation SideEffect := string (only parsing).
Definition EffectRepositoryRead : SideEffect := "repository-read".
Definition EffectTaskWorktreeWrite : SideEffect := "task-worktree-write".
Definition EffectNetwork : SideEffect := "network".
Definition EffectDependencyInstall : SideEffect := "dependency-install".
Definition EffectExternalWrite : SideEffect := "external-write".
Definition EffectCredentialAccess : SideEffect := "credential-access".
Definition EffectDestructive : SideEffect := "destructive".
Definition EffectPrivileged : SideEffect := "privileged".
Definition EffectExternalCommunication : SideEffect := "external-communication".
Definition EffectSubprocess : SideEffect := "subprocess".

Record ToolArgument := {
  ToolArgument_Name : string;
  ToolArgument_Value : string;
  ToolArgument_Sensitive : bool;
}.

Record ToolRequest := {
  ToolRequest_SchemaVersion : Z;
  ToolRequest_ID : string;
  ToolRequest_TaskID : ID;
  ToolRequest_RunID : ID;
  ToolRequest_Name : ToolName;
  ToolRequest_Arguments : list ToolArgument;
  ToolRequest_WorkingDirectory : string;
  ToolRequest_Timeout : Duration;
  ToolRequest_ClaimedAuthority : AuthorityClass;
  ToolRequest_ExpectedSideEffects : list SideEffect;
  ToolRequest_IdempotencyKey : string;
  ToolRequest_Requester : string;
  ToolRequest_PurposeUntrusted : string;
}.

Record ToolResult := {
  ToolResult_RequestID : string;
  ToolResult_SchemaVersion : Z;
  ToolResult_State : string;
  ToolResult_Executable : string;
  ToolResult_ResolvedExecutable : string;
  ToolResult_ExitCode : Z;
  ToolResult_Duration : Duration;
  ToolResult_TimedOut : bool;
  ToolResult_Cancelled : bool;
  ToolResult_StdoutRedacted : string;
  ToolResult_StderrRedacted : string;
  ToolResult_StdoutTruncated : bool;
  ToolResult_StderrTruncated : bool;
  ToolResult_Summary : string;
}.

Record ToolDescriptor := {
  ToolDescriptor_Name : ToolName;
  ToolDescriptor_SchemaVersion : Z;
  ToolDescriptor_Summary : string;
  ToolDescriptor_DefaultAuthority : AuthorityClass;
  ToolDescriptor_Effects : list SideEffect;
}.

(** The quotation mark in a text. *)
Definition dq : string := String dquote "".
Definition quoted (s : string) : string := dq +:+ s +:+ dq.

Definition descriptor (name : ToolName) (summary : string) (authority : AuthorityClass)
    (effects : list SideEffect) : ToolDescriptor :=
  {| ToolDescriptor_Name := name; ToolDescriptor_SchemaVersion := ToolSchemaVersion;
     ToolDescriptor_Summary := summary; ToolDescriptor_DefaultAuthority := authority;
     ToolDescriptor_Effects := effects |}.

(** In the order the code sorts them into, by name. *)
Definition ToolCatalog : list ToolDescriptor :=
  [descriptor ToolApplyEdit
     "Create a file, or replace one wholesale: takes the complete new contents, not a patch. Prefer apply-patch to change an existing file — a second wholesale rewrite of the same file in one attempt is refused, because re-sending every line to move a few risks every line it re-sends"
     AuthorityTaskWrite [EffectTaskWorktreeWrite];
   descriptor ToolApplyPatch
     ("Change part of an existing file. Takes a diff: " +:+ quoted "*** Update File: <path>"
      +:+ ", then " +:+ quoted "@@" +:+ ", then lines to remove prefixed " +:+ quoted "-"
      +:+ ", lines to add prefixed " +:+ quoted "+"
      +:+ ", and unprefixed context lines around them. Every hunk needs at least two unprefixed lines above and below the change, copied exactly from the file: a hunk that is only the line you are replacing cannot say which line it means, and is the single commonest way a patch fails. One file per call: a patch naming a second file is refused, so send a separate call for each file you change")
     AuthorityTaskWrite [EffectTaskWorktreeWrite];
   descriptor ToolBuild "Run an approved build recipe" AuthorityAutomaticRead
     [EffectSubprocess; EffectRepositoryRead];
   descriptor ToolFormat "Run an approved formatter recipe" AuthorityTaskWrite
     [EffectSubprocess; EffectTaskWorktreeWrite];
   descriptor ToolGitHistory "Inspect bounded task Git history" AuthorityAutomaticRead
     [EffectRepositoryRead];
   descriptor ToolGitStatus "Inspect task Git status" AuthorityAutomaticRead [EffectRepositoryRead];
   descriptor ToolInspectDiff "Inspect the exact task diff" AuthorityAutomaticRead
     [EffectRepositoryRead];
   descriptor ToolListDirectory "List one bounded task directory" AuthorityAutomaticRead
     [EffectRepositoryRead];
   descriptor ToolPluginRPC "Invoke a separately launched plugin protocol" AuthorityPrivileged
     [EffectSubprocess];
   descriptor ToolReadFile "Read one bounded task file" AuthorityAutomaticRead
     [EffectRepositoryRead];
   descriptor ToolRunCommand "Run one mediated argument-array command" AuthorityPrivileged
     [EffectSubprocess];
   descriptor ToolSearchSymbol "Search the revision-bound symbol map" AuthorityAutomaticRead
     [EffectRepositoryRead];
   descriptor ToolSearchText "Search bounded repository text" AuthorityAutomaticRead
     [EffectRepositoryRead];
   descriptor ToolStaticAnalysis "Run an approved static-analysis recipe" AuthorityAutomaticRead
     [EffectSubprocess; EffectRepositoryRead];
   descriptor ToolTest
     ("Run the project's test suite — for Go, executable " +:+ quoted "go" +:+ " with arg1 "
      +:+ quoted "test" +:+ " and arg2 " +:+ quoted "./..."
      +:+ ". Running it against files that have not changed since the last run is answered from that run rather than executed, and asking a third time in a row is refused: write the change first, then run it")
     AuthorityAutomaticRead [EffectSubprocess; EffectRepositoryRead]].

Definition lookup_descriptor (name : ToolName) : option ToolDescriptor :=
  find (fun d => ToolDescriptor_Name d =? name) ToolCatalog.

Definition validToolName (name : ToolName) : bool :=
  existsb (fun d => ToolDescriptor_Name d =? name) ToolCatalog.

Definition one_of (values : list string) (s : string) : bool :=
  existsb (fun v => v =? s) values.

Definition validAuthority (authority : AuthorityClass) : bool :=
  one_of [AuthorityAutomaticRead; AuthorityTaskWrite; AuthorityNetwork;
          AuthorityDependencyInstall; AuthorityExternalWrite; AuthorityCredential;
          AuthorityDestructive; AuthorityPrivileged; AuthorityExternalCommunication] authority.

Definition validSideEffect (effect : SideEffect) : bool :=
  one_of [EffectRepositoryRead; EffectTaskWorktreeWrite; EffectNetwork; EffectDependencyInstall;
          EffectExternalWrite; EffectCredentialAccess; EffectDestructive; EffectPrivileged;
          EffectExternalCommunication; EffectSubprocess] effect.

Definition required_text (limit : Z) (s : string) : bool := (s =? "") || longer_than limit s.

Definition ValidateToolRequest (r : ToolRequest) : option error :=
  let effects := ToolRequest_ExpectedSideEffects r in
  if negb (ToolRequest_SchemaVersion r =? ToolSchemaVersion)%Z then
    Some (Sentinel "tool schema version is unsupported")
  else if required_text 255 (ToolRequest_ID r) then Some (Sentinel "tool request ID is invalid")
  else if IsZero (ToolRequest_TaskID r) then Some (Sentinel "tool task ID is required")
  else if IsZero (ToolRequest_RunID r) then Some (Sentinel "tool run ID is required")
  else if negb (validToolName (ToolRequest_Name r)) then Some (Sentinel "tool name is unsupported")
  else if required_text 4096 (ToolRequest_WorkingDirectory r) then
    Some (Sentinel "tool working directory is invalid")
  else if (ToolRequest_Timeout r <? Second)%Z || (30 * Minute <? ToolRequest_Timeout r)%Z then
    Some (Sentinel "tool timeout is outside supported bounds")
  else if required_text 255 (ToolRequest_IdempotencyKey r) then
    Some (Sentinel "tool idempotency key is invalid")
  else if required_text 255 (ToolRequest_Requester r) then Some (Sentinel "tool requester is invalid")
  else if negb (validAuthority (ToolRequest_ClaimedAuthority r)) then
    Some (Sentinel "tool authority class is unknown")
  else if is_empty_list effects || (16 <? Z.of_nat (length effects))%Z then
    Some (Sentinel "tool side effects are invalid")
  else if existsb (fun a => required_text 255 (ToolArgument_Name a)
                            || longer_than 32768 (ToolArgument_Value a)) (ToolRequest_Arguments r) then
    Some (Sentinel "tool argument is invalid")
  else if existsb (fun e => negb (validSideEffect e)) effects then
    Some (Sentinel "tool side effect is unknown")
  else None.

(** ** Derived authority *)

Definition argumentValues (arguments : list ToolArgument) : list string :=
  map ToolArgument_Value arguments.

(** [strings.ToLower] on ASCII text. *)
Definition ToLower_byte (c : ascii) : ascii :=
  let n := N_of_ascii c in
  if (65 <=? n)%N && (n <=? 90)%N then ascii_of_N (n + 32) else c.

Fixpoint ToLower (s : string) : string :=
  match s with
  | EmptyString => EmptyString
  | String c rest => String (ToLower_byte c) (ToLower rest)
  end.

Definition nul : string := bytes [0]%N.

Definition classifyCommandArguments (arguments : list string) : AuthorityClass :=
  match arguments with
  | [] => AuthorityPrivileged
  | first :: rest =>
      let executable := ToLower (Base first) in
      let joined := ToLower (Join rest nul) in
      if one_of ["curl"; "wget"; "ssh"; "scp"] executable then AuthorityNetwork
      else if (executable =? "go") && HasPrefix joined ("get" +:+ nul)
              || (executable =? "npm") && Contains joined "install"
              || (executable =? "pip") && Contains joined "install" then
        AuthorityDependencyInstall
      else if (executable =? "rm") || (executable =? "rmdir")
              || (executable =? "git") && (HasPrefix joined ("reset" +:+ nul +:+ "--hard")
                                           || HasPrefix joined ("clean" +:+ nul)) then
        AuthorityDestructive
      else if one_of ["sudo"; "doas"; "runas"] executable then AuthorityPrivileged
      else if (executable =? "gh") && (Contains joined ("issue" +:+ nul +:+ "create")
                                       || Contains joined ("pr" +:+ nul +:+ "create")
                                       || Contains joined ("release" +:+ nul +:+ "create")) then
        AuthorityExternalCommunication
      else AuthorityPrivileged
  end.

Definition descriptorAuthority (name : ToolName) : AuthorityClass :=
  match lookup_descriptor name with
  | Some d => ToolDescriptor_DefaultAuthority d
  | None => ""
  end.

(** The effects that need an authority of their own, strongest first. *)
Definition effect_authorities : list (SideEffect * AuthorityClass) :=
  [(EffectExternalCommunication, AuthorityExternalCommunication);
   (EffectCredentialAccess, AuthorityCredential);
   (EffectPrivileged, AuthorityPrivileged);
   (EffectDestructive, AuthorityDestructive);
   (EffectExternalWrite, AuthorityExternalWrite);
   (EffectDependencyInstall, AuthorityDependencyInstall);
   (EffectNetwork, AuthorityNetwork)].

Definition requiredAuthority (r : ToolRequest) : AuthorityClass :=
  let effects := ToolRequest_ExpectedSideEffects r in
  let name := ToolRequest_Name r in
  match find (fun candidate => one_of effects candidate.1) effect_authorities with
  | Some candidate => candidate.2
  | None =>
      if (name =? ToolRunCommand) || (name =? ToolPluginRPC) then
        classifyCommandArguments (argumentValues (ToolRequest_Arguments r))
      else if one_of [ToolTest; ToolBuild; ToolFormat; ToolStaticAnalysis] name then
        AuthorityPrivileged
      else if one_of effects EffectTaskWorktreeWrite then AuthorityTaskWrite
      else descriptorAuthority name
  end.

Definition RequiredAuthority (r : ToolRequest) : AuthorityClass := requiredAuthority r.

(** ** The policy *)

Abbreviation PolicyOutcome := string (only parsing).
Definition OutcomeAutomatic : PolicyOutcome := "automatic".
Definition OutcomeTaskScoped : PolicyOutcome := "task-scoped".
Definition OutcomeApprovalRequired : PolicyOutcome := "approval-required".
Definition OutcomeDenied : PolicyOutcome := "denied".

Abbreviation GrantMode := string (only parsing).
Definition GrantAllowOnce : GrantMode := "allow-once".
Definition GrantAllowForTask : GrantMode := "allow-for-task".

Record ActionPattern := {
  Pattern_TaskID : ID;
  Pattern_Tool : ToolName;
  Pattern_Arguments : list string;
  Pattern_WorkingDirectory : string;
  Pattern_Effects : list SideEffect;
}.

Record PermissionGrant := {
  Grant_ID : string;
  Grant_Pattern : ActionPattern;
  Grant_Mode : GrantMode;
  Grant_GrantedBy : string;
  Grant_Reason : string;
  Grant_GrantedAt : Z;
  Grant_Used : bool;
}.

Record PermissionDenial := {
  Denial_TaskID : ID;
  Denial_Capability : AuthorityClass;
  Denial_ScopeHash : string;
  Denial_DeniedBy : string;
  Denial_Reason : string;
  Denial_DeniedAt : Z;
}.

Record PermissionPolicy := {
  Policy_TaskID : ID;
  Policy_WorktreePath : string;
  Policy_TaskActive : bool;
  Policy_ApprovedCommands : list ActionPattern;
  Policy_Grants : list PermissionGrant;
  Policy_Denials : list PermissionDenial;
}.

Record AuthorityClassification := {
  Classification_Outcome : PolicyOutcome;
  Classification_Required : AuthorityClass;
  Classification_Capability : AuthorityClass;
  Classification_ScopeHash : string;
  Classification_MatchedGrantID : string;
  Classification_Description : string;
  Classification_Reason : string;
}.

Definition actionPattern (r : ToolRequest) : ActionPattern :=
  {| Pattern_TaskID := ToolRequest_TaskID r; Pattern_Tool := ToolRequest_Name r;
     Pattern_Arguments := argumentValues (ToolRequest_Arguments r);
     Pattern_WorkingDirectory := Clean (ToolRequest_WorkingDirectory r);
     Pattern_Effects := sort_strings (ToolRequest_ExpectedSideEffects r) |}.

Definition equalActionPattern (left right : ActionPattern) : bool :=
  (Pattern_TaskID left =? Pattern_TaskID right) && (Pattern_Tool left =? Pattern_Tool right)
  && (Clean (Pattern_WorkingDirectory left) =? Clean (Pattern_WorkingDirectory right))
  && bool_decide (Pattern_Arguments left = Pattern_Arguments right)
  && bool_decide (Pattern_Effects left = Pattern_Effects right).

Definition withinWorktree (directory worktree : string) : bool :=
  if (directory =? "") || (worktree =? "") then false
  else match Rel (Clean worktree) (Clean directory) with
       | None => false
       | Some relative => negb (relative =? "..") && negb (HasPrefix relative "../")
       end.

Definition approvalReason (authority : AuthorityClass) : string :=
  authority +:+ " authority requires an attributable user decision".

(** The text an action's digest is taken of. *)
Definition pattern_text (p : ActionPattern) : string :=
  Pattern_TaskID p +:+ nul +:+ Pattern_Tool p +:+ nul +:+ Pattern_WorkingDirectory p
  +:+ Join ("" :: Pattern_Arguments p ++ Pattern_Effects p) nul.

Definition maximumSummarizedArgumentBytes : nat := 160.

Definition replace_byte (from to : ascii) (s : string) : string :=
  String.string_of_list_ascii
    (map (fun c => if Ascii.eqb c from then to else c) (String.list_ascii_of_string s)).

Section Policy.
Context (sha256_hex : string -> string).

Definition summarizeArgumentValue (value : string) : string :=
  if (String.length value <=? maximumSummarizedArgumentBytes)%nat then Quote value
  else Quote (str_take maximumSummarizedArgumentBytes value) +:+ "… ("
       +:+ fmt_d (Z.of_nat (String.length value)) +:+ " bytes, sha256 "
       +:+ str_take 12 (sha256_hex value) +:+ ")".

Definition UserReadableToolSummary (r : ToolRequest) : string :=
  let argument (a : ToolArgument) :=
    ToolArgument_Name a +:+ "=" +:+ summarizeArgumentValue
      (if ToolArgument_Sensitive a then "[REDACTED]" else ToolArgument_Value a) in
  let purpose := replace_byte "010" " " (replace_byte "013" " " (ToolRequest_PurposeUntrusted r)) in
  ToolRequest_Name r +:+ " in "
  +:+ Clean (replace_byte "\" "/" (ToolRequest_WorkingDirectory r)) +:+ " with ["
  +:+ Join (map argument (ToolRequest_Arguments r)) ", "
  +:+ "]; stated purpose (untrusted): " +:+ Quote (str_take 256 purpose).

Definition hashActionPattern (p : ActionPattern) : string := sha256_hex (pattern_text p).

Definition ActionSHA256 (r : ToolRequest) : string := hashActionPattern (actionPattern r).

Definition capabilityScopeHash (r : ToolRequest) (authority : AuthorityClass) : string :=
  sha256_hex (ToolRequest_TaskID r +:+ nul +:+ authority +:+ nul
              +:+ Clean (ToolRequest_WorkingDirectory r)).

(** A denial that covers the request's authority and scope. *)
Definition denies (r : ToolRequest) (required : AuthorityClass) (denial : PermissionDenial) : bool :=
  (Denial_TaskID denial =? ToolRequest_TaskID r) && (Denial_Capability denial =? required)
  && ((Denial_ScopeHash denial =? ActionSHA256 r)
      || (Denial_ScopeHash denial =? capabilityScopeHash r required)).

(** A grant that covers the exact action and is not used up. *)
Definition grants (r : ToolRequest) (grant : PermissionGrant) : bool :=
  negb (negb (Pattern_TaskID (Grant_Pattern grant) =? ToolRequest_TaskID r)
        || negb (equalActionPattern (Grant_Pattern grant) (actionPattern r)))
  && negb ((Grant_Mode grant =? GrantAllowOnce) && Grant_Used grant)
  && negb (negb (Grant_Mode grant =? GrantAllowOnce) && negb (Grant_Mode grant =? GrantAllowForTask)).

Definition classified (r : ToolRequest) (outcome : PolicyOutcome) (grantID reason : string)
    : AuthorityClassification :=
  {| Classification_Outcome := outcome; Classification_Required := requiredAuthority r;
     Classification_Capability := requiredAuthority r; Classification_ScopeHash := ActionSHA256 r;
     Classification_MatchedGrantID := grantID;
     Classification_Description := UserReadableToolSummary r; Classification_Reason := reason |}.

Definition ClassifyAuthority (r : ToolRequest) (policy : PermissionPolicy)
    : result error AuthorityClassification :=
  let required := requiredAuthority r in
  ValidateToolRequest r ;!
  if IsZero (Policy_TaskID policy) || negb (ToolRequest_TaskID r =? Policy_TaskID policy) then
    Err (Sentinel "permission policy belongs to a different task")
  else if negb (validAuthority required) then Err (Sentinel "derived authority class is unknown")
  else if existsb (denies r required) (Policy_Denials policy) then
    Ok (classified r OutcomeDenied "" "matching task authority was denied")
  else if required =? AuthorityAutomaticRead then
    Ok (classified r OutcomeAutomatic "" "bounded read-only repository action")
  else if (required =? AuthorityTaskWrite)
          && withinWorktree (ToolRequest_WorkingDirectory r) (Policy_WorktreePath policy) then
    Ok (classified r OutcomeTaskScoped "policy:task-worktree-write"
          "bounded write inside the active task worktree")
  else if negb (Policy_TaskActive policy) then
    Ok (classified r OutcomeDenied "" "task-scoped authority expired with the task")
  else if existsb (fun approved => equalActionPattern approved (actionPattern r))
            (Policy_ApprovedCommands policy) then
    Ok (classified r OutcomeAutomatic "" "exact approved project command")
  else match find (grants r) (Policy_Grants policy) with
       | Some grant =>
           Ok (classified r OutcomeTaskScoped (Grant_ID grant) "exact attributable permission grant")
       | None => Ok (classified r OutcomeApprovalRequired "" (approvalReason required))
       end.
End Policy.

(** ** File tools *)

Definition IsFileTool (name : ToolName) : bool :=
  one_of [ToolReadFile; ToolListDirectory; ToolApplyEdit; ToolApplyPatch] name.

(** The last argument of a name wins. *)
Definition namedArguments (arguments : list ToolArgument) : gmap string string :=
  fold_left (fun m a => <[ToolArgument_Name a := ToolArgument_Value a]> m) arguments ∅.

Definition resolveWorktreeFile (worktreePath relative : string) : result error string :=
  if negb (IsAbs worktreePath) then Err (Sentinel "the task worktree path is not absolute")
  else
    let cleaned := TrimSpace relative in
    if cleaned =? "" then Err (Sentinel "a path is required")
    else if IsAbs cleaned || HasPrefix cleaned "/" || has_byte ":" cleaned then
      Err (Sentinel ("path " +:+ Quote relative +:+ " must be relative to the worktree"))
    else
      let target := Clean (JoinPath worktreePath cleaned) in
      match Rel (Clean worktreePath) target with
      | Some inside =>
          if (inside =? "..") || HasPrefix inside "../" then
            Err (Sentinel ("path " +:+ Quote relative +:+ " escapes the task worktree"))
          else Ok target
      | None => Err (Sentinel ("path " +:+ Quote relative +:+ " escapes the task worktree"))
      end.

(** ** Properties *)

Lemma one_of_spec values s : one_of values s = true <-> s ∈ values.
Proof.
  unfold one_of. rewrite existsb_exists. setoid_rewrite String.eqb_eq.
  split; [intros (v & Hv & ->)|intros Hs; exists s; split; [|done]]; by apply list_elem_of_In.
Qed.

(** Claims about the request play no part in the authority it needs. *)
Lemma requiredAuthority_claims r1 r2 :
  ToolRequest_Name r1 = ToolRequest_Name r2 ->
  ToolRequest_Arguments r1 = ToolRequest_Arguments r2 ->
  ToolRequest_ExpectedSideEffects r1 = ToolRequest_ExpectedSideEffects r2 ->
  requiredAuthority r1 = requiredAuthority r2.
Proof. unfold requiredAuthority. by intros -> -> ->. Qed.

Lemma classifyCommandArguments_strong arguments :
  classifyCommandArguments arguments ∈
    [AuthorityNetwork; AuthorityDependencyInstall; AuthorityDestructive; AuthorityPrivileged;
     AuthorityExternalCommunication].
Proof.
  unfold classifyCommandArguments. destruct arguments; [set_solver|].
  repeat case_match; set_solver.
Qed.

(** What runs without a decision is weak. The authority derived for a
    request is a read or a worktree write only when the request declares none
    of the seven effects that need an authority of their own and its tool
    starts no subprocess (no command, plugin, test, build, formatter or
    analysis), whatever the request claims about itself. *)
Theorem weak_authority_is_weak r :
  requiredAuthority r = AuthorityAutomaticRead \/ requiredAuthority r = AuthorityTaskWrite ->
  Forall (fun e => e ∉ effect_authorities.*1) (ToolRequest_ExpectedSideEffects r) /\
  ToolRequest_Name r ∉
    [ToolRunCommand; ToolPluginRPC; ToolTest; ToolBuild; ToolFormat; ToolStaticAnalysis].
Proof.
  unfold requiredAuthority.
  destruct (find _ effect_authorities) as [[e a]|] eqn:Hf.
  { apply find_some in Hf as [Hin _]. intros Ha. exfalso. simpl in *.
    repeat (destruct Hin as [[= <- <-]|Hin]; [by destruct Ha|]). done. }
  intros Ha. split.
  - apply Forall_forall. intros e He Hin.
    apply list_elem_of_fmap in Hin as ([e' a] & -> & Hin).
    apply (find_none _ _ Hf) in Hin || apply list_elem_of_In, (find_none _ _ Hf) in Hin.
    simpl in *. by rewrite (proj2 (one_of_spec _ _) He) in Hin.
  - destruct (_ || _) eqn:Hc in Ha.
    { pose proof (classifyCommandArguments_strong (argumentValues (ToolRequest_Arguments r))) as Hs.
      exfalso. destruct Ha as [Ha|Ha]; rewrite Ha in Hs; set_solver. }
    destruct (one_of _ (ToolRequest_Name r)) eqn:Ht in Ha; [by destruct Ha|].
    to_prop. assert (~ (ToolRequest_Name r ∈ [ToolTest; ToolBuild; ToolFormat; ToolStaticAnalysis])).
    { rewrite <- one_of_spec. congruence. }
    set_solver.
Qed.

(** The file boundary. With absolute paths, [withinWorktree] holds exactly
    when the elements of the worktree's path are the first elements of the
    directory's, after cleaning. *)
Theorem withinWorktree_correct directory worktree :
  IsAbs directory = true -> IsAbs worktree = true ->
  withinWorktree directory worktree = true <->
  elements_of worktree `prefix_of` elements_of directory.
Proof.
  intros Hd Hw. unfold withinWorktree.
  destruct (elements_of_Clean _ Hd) as [Cd Ed], (elements_of_Clean _ Hw) as [Cw Ew].
  assert ((directory =? "") = false) as -> by (by destruct directory).
  assert ((worktree =? "") = false) as -> by (by destruct worktree).
  rewrite <- Ed, <- Ew, <- (Rel_inside _ _ Cw Cd). simpl. unfold goes_up. split.
  - destruct (Rel _ _) as [r|]; [|done]. intros H. exists r. split; [done|]. to_prop. tauto.
  - intros (r & -> & H). to_prop. tauto.
Qed.

(** A model's path cannot leave the worktree: whatever path a request
    names, [resolveWorktreeFile] refuses it or gives an absolute path whose
    first elements are the worktree's. *)
Theorem resolveWorktreeFile_inside worktreePath relative target :
  resolveWorktreeFile worktreePath relative = Ok target ->
  IsAbs target = true /\ elements_of worktreePath `prefix_of` elements_of target.
Proof.
  unfold resolveWorktreeFile. destruct (IsAbs worktreePath) eqn:Hw; [simpl|done].
  destruct (TrimSpace relative =? "") eqn:He; [done|]. destruct (_ || _); [done|].
  assert (IsAbs (JoinPath worktreePath (TrimSpace relative)) = true) as Ha.
  { unfold JoinPath. rewrite He. apply elements_of_Clean.
    apply HasPrefix_spec in Hw as [r ->]. rewrite string_app_assoc. apply HasPrefix_spec. eauto. }
  destruct (elements_of_Clean _ Ha) as [Ct Et], (elements_of_Clean _ Hw) as [Cw Ew].
  destruct (Rel _ _) as [inside|] eqn:Hr; [|done]. destruct (_ || _) eqn:Hup; [done|].
  intros [= <-]. split; [done|]. rewrite <- Ew. apply (Rel_inside _ _ Cw Ct). eauto.
Qed.

Lemma resolveWorktreeFile_inside_witness :
  resolveWorktreeFile "/work/task" "src/../cmd/main.go" = Ok "/work/task/cmd/main.go" /\
  elements_of "/work/task" `prefix_of` elements_of "/work/task/cmd/main.go".
Proof.
  assert (resolveWorktreeFile "/work/task" "src/../cmd/main.go" = Ok "/work/task/cmd/main.go") as H
    by (vm_compute; reflexivity).
  split; [exact H|]. exact (proj2 (resolveWorktreeFile_inside _ _ _ H)).
Defined.

Lemma withinWorktree_correct_witness :
  withinWorktree "/work/task/sub" "/work/task" = true /\
  elements_of "/work/task" `prefix_of` elements_of "/work/task/sub".
Proof.
  split; [vm_compute; reflexivity|].
  apply (withinWorktree_correct "/work/task/sub" "/work/task"); vm_compute; reflexivity.
Defined.

Section Decisions.
Context (sha256_hex : string -> string).

Definition executable (c : AuthorityClassification) : Prop :=
  Classification_Outcome c = OutcomeAutomatic \/ Classification_Outcome c = OutcomeTaskScoped.

(** The reasons for which a request may run. *)
Definition permitted (r : ToolRequest) (policy : PermissionPolicy) : Prop :=
  requiredAuthority r = AuthorityAutomaticRead \/
  (requiredAuthority r = AuthorityTaskWrite /\
   withinWorktree (ToolRequest_WorkingDirectory r) (Policy_WorktreePath policy) = true) \/
  (Policy_TaskActive policy = true /\
   ((exists approved, approved ∈ Policy_ApprovedCommands policy /\
       equalActionPattern approved (actionPattern r) = true) \/
    (exists grant, grant ∈ Policy_Grants policy /\
       equalActionPattern (Grant_Pattern grant) (actionPattern r) = true /\
       (Grant_Mode grant = GrantAllowForTask \/
        Grant_Mode grant = GrantAllowOnce /\ Grant_Used grant = false)))).

Lemma grants_spec r grant :
  grants r grant = true <->
  equalActionPattern (Grant_Pattern grant) (actionPattern r) = true /\
  (Grant_Mode grant = GrantAllowForTask \/ Grant_Mode grant = GrantAllowOnce /\ Grant_Used grant = false).
Proof.
  unfold grants. split.
  - intros H. to_prop. destruct H as [[[_ He] Hu] Hm]. split; [done|].
    destruct Hm as [Hm|Hm]; [|by left]. right. split; [done|]. by destruct Hu.
  - intros [He Hm]. rewrite He.
    assert (Pattern_TaskID (Grant_Pattern grant) = ToolRequest_TaskID r) as Ht.
    { unfold equalActionPattern in He. to_prop. tauto. }
    rewrite Ht, String.eqb_refl. by destruct Hm as [->|[-> ->]].
Qed.

Lemma requiredAuthority_valid r :
  validToolName (ToolRequest_Name r) = true -> validAuthority (requiredAuthority r) = true.
Proof.
  intros Hn. unfold requiredAuthority.
  destruct (find _ effect_authorities) as [[e a]|] eqn:Hf.
  { apply find_some in Hf as [Hin _]. simpl in Hin.
    repeat (destruct Hin as [[= <- <-]|Hin]; [done|]). done. }
  destruct (_ || _).
  { pose proof (classifyCommandArguments_strong (argumentValues (ToolRequest_Arguments r))) as Hs.
    apply one_of_spec. set_solver. }
  destruct (one_of _ _); [done|]. destruct (one_of _ _); [done|].
  unfold descriptorAuthority, lookup_descriptor.
  destruct (find _ ToolCatalog) as [d|] eqn:Hd.
  - assert (Forall (fun d => validAuthority (ToolDescriptor_DefaultAuthority d) = true) ToolCatalog)
      as Hall by by_computation.
    rewrite Forall_forall in Hall. by apply Hall, list_elem_of_In, (find_some _ _ Hd).
  - exfalso. unfold validToolName in Hn. apply existsb_exists in Hn as (d & Hin & Heq).
    by rewrite (find_none _ _ Hd d Hin) in Heq.
Qed.

Lemma existsb_Forall_false {A} (f : A -> bool) l :
  existsb f l = false <-> Forall (fun x => f x = false) l.
Proof.
  induction l as [|x l IH]; simpl; [done|].
  rewrite orb_false_iff, Forall_cons, IH. done.
Qed.

Lemma existsb_elem_of {A} (f : A -> bool) l :
  existsb f l = true <-> exists x, x ∈ l /\ f x = true.
Proof. rewrite existsb_exists. by setoid_rewrite list_elem_of_In. Qed.

(** The authority decision. A request that validates and belongs to the
    policy's task is always decided; it may run exactly when no denial covers
    its authority and scope and it is a read, a write inside the worktree, or,
    while the task is active, exactly an approved command or exactly a grant
    that is not used up. The decision is bound to the request: it carries the
    authority derived for it and the digest of its action. *)
Theorem ClassifyAuthority_decides r policy :
  ValidateToolRequest r = None -> Policy_TaskID policy <> "" ->
  ToolRequest_TaskID r = Policy_TaskID policy ->
  exists c, ClassifyAuthority sha256_hex r policy = Ok c /\
    Classification_Required c = requiredAuthority r /\
    Classification_Capability c = requiredAuthority r /\
    Classification_ScopeHash c = ActionSHA256 sha256_hex r /\
    (executable c <->
       Forall (fun d => denies sha256_hex r (requiredAuthority r) d = false) (Policy_Denials policy) /\
       permitted r policy).
Proof.
  intros Hv Hp Ht. unfold ClassifyAuthority. rewrite Hv. simpl.
  assert (validToolName (ToolRequest_Name r) = true) as Hn.
  { unfold ValidateToolRequest in Hv. if_cases Hv. to_prop. done. }
  replace (IsZero (Policy_TaskID policy)) with false by (symmetry; by apply String.eqb_neq).
  rewrite Ht, String.eqb_refl, (requiredAuthority_valid r Hn). simpl.
  assert (forall outcome grant reason (P : Prop),
    (outcome = OutcomeAutomatic \/ outcome = OutcomeTaskScoped <-> P) ->
    exists c, Ok (E := error) (classified sha256_hex r outcome grant reason) = Ok c /\
      Classification_Required c = requiredAuthority r /\
      Classification_Capability c = requiredAuthority r /\
      Classification_ScopeHash c = ActionSHA256 sha256_hex r /\ (executable c <-> P)) as Hgo.
  { intros o g rs P HP. eexists. by split_and!. }
  destruct (existsb (denies _ _ _) _) eqn:Hden.
  { apply Hgo. split; [by intros [|]|]. intros [Hd _]. apply existsb_Forall_false in Hd. congruence. }
  apply existsb_Forall_false in Hden. unfold permitted.
  destruct (String.eqb_spec (requiredAuthority r) AuthorityAutomaticRead) as [Hr|Hr].
  { apply Hgo. split; [auto|]. by left. }
  destruct (_ && _) eqn:Hw.
  { apply Hgo. to_prop. split; [|by right]. intros _. split; [done|]. right; left. done. }
  assert (~ (requiredAuthority r = AuthorityTaskWrite /\
    withinWorktree (ToolRequest_WorkingDirectory r) (Policy_WorktreePath policy) = true)) as Hnw.
  { intros [E1 E2]. rewrite E1, E2 in Hw. done. }
  destruct (Policy_TaskActive policy) eqn:Hact; simpl.
  2:{ apply Hgo. split; [by intros [|]|]. intros [_ [?|[?|[? _]]]]; done. }
  destruct (existsb _ _) eqn:Happ.
  { apply existsb_elem_of in Happ. apply Hgo. split; [|by left]. intros _. split; [done|].
    right; right. split; [done|]. by left. }
  apply existsb_Forall_false in Happ. rewrite Forall_forall in Happ.
  destruct (find (grants r) _) as [grant|] eqn:Hg.
  { apply find_some in Hg as [Hin Hg]. apply list_elem_of_In in Hin. apply grants_spec in Hg.
    apply Hgo. split; [|by right]. intros _. split; [done|]. right; right. split; [done|]. right. eauto. }
  apply Hgo. split; [by intros [|]|]. intros [_ [?|[?|[_ [(ap & Hin & He)|(g & Hin & He)]]]]]; try done.
  - apply Happ in Hin. congruence.
  - apply grants_spec in He. apply list_elem_of_In, (find_none _ _ Hg) in Hin. congruence.
Qed.

(** The digest does not tell every two actions apart. For any digest
    function, the two requests below ask a command for different arguments, one
    with two of them and one with a single argument holding a NUL, and have the
    same action digest; and a request that passes the same values under other
    argument names is the same action, so a grant for one covers the other. *)
Theorem action_digest_collides :
  (exists r1 r2, ValidateToolRequest r1 = None /\ ValidateToolRequest r2 = None /\
     argumentValues (ToolRequest_Arguments r1) <> argumentValues (ToolRequest_Arguments r2) /\
     ActionSHA256 sha256_hex r1 = ActionSHA256 sha256_hex r2) /\
  (exists r1 r2, ValidateToolRequest r1 = None /\ ValidateToolRequest r2 = None /\
     map ToolArgument_Name (ToolRequest_Arguments r1) <> map ToolArgument_Name (ToolRequest_Arguments r2) /\
     equalActionPattern (actionPattern r1) (actionPattern r2) = true).
Proof.
  pose (request := fun arguments : list (string * string) =>
    {| ToolRequest_SchemaVersion := 1; ToolRequest_ID := "call-1"; ToolRequest_TaskID := "task-1";
       ToolRequest_RunID := "run-1"; ToolRequest_Name := ToolRunCommand;
       ToolRequest_Arguments := map (fun nv => {| ToolArgument_Name := nv.1;
         ToolArgument_Value := nv.2; ToolArgument_Sensitive := false |}) arguments;
       ToolRequest_WorkingDirectory := "/work"; ToolRequest_Timeout := Minute;
       ToolRequest_ClaimedAuthority := AuthorityPrivileged;
       ToolRequest_ExpectedSideEffects := [EffectSubprocess];
       ToolRequest_IdempotencyKey := "k"; ToolRequest_Requester := "model";
       ToolRequest_PurposeUntrusted := "" |}).
  split.
  - exists (request [("executable", "git"); ("arg1", "status")]),
      (request [("executable", "git" +:+ nul +:+ "status")]).
    split_and!; [vm_compute; reflexivity..|vm_compute; discriminate|].
    unfold ActionSHA256, hashActionPattern. f_equal.
  - exists (request [("executable", "ls"); ("path", "a")]),
      (request [("executable", "ls"); ("flag", "a")]).
    split_and!; [vm_compute; reflexivity..|vm_compute; discriminate|vm_compute; reflexivity].
Qed.

(** Worktree writes outlive the task. The policy is documented to expire
    with the task's activity, but the worktree write is decided before the
    activity is looked at: a write into the worktree of a task that is no
    longer active is classified task-scoped, as inside the active task's
    worktree. *)
Theorem inactive_task_still_writes :
  exists r policy c, Policy_TaskActive policy = false /\
    ClassifyAuthority sha256_hex r policy = Ok c /\
    Classification_Outcome c = OutcomeTaskScoped /\
    Classification_Reason c = "bounded write inside the active task worktree".
Proof.
  exists {| ToolRequest_SchemaVersion := 1; ToolRequest_ID := "call-1"; ToolRequest_TaskID := "task-1";
       ToolRequest_RunID := "run-1"; ToolRequest_Name := ToolApplyEdit;
       ToolRequest_Arguments := []; ToolRequest_WorkingDirectory := "/work";
       ToolRequest_Timeout := Minute; ToolRequest_ClaimedAuthority := AuthorityTaskWrite;
       ToolRequest_ExpectedSideEffects := [EffectTaskWorktreeWrite];
       ToolRequest_IdempotencyKey := "k"; ToolRequest_Requester := "model";
       ToolRequest_PurposeUntrusted := "" |},
    {| Policy_TaskID := "task-1"; Policy_WorktreePath := "/work"; Policy_TaskActive := false;
       Policy_ApprovedCommands := []; Policy_Grants := []; Policy_Denials := [] |}.
  eexists. split; [done|]. split; [reflexivity|]. by split.
Qed.
End Decisions.

(** ** Witnesses *)

Definition edit_request : ToolRequest :=
  {| ToolRequest_SchemaVersion := 1; ToolRequest_ID := "call-1"; ToolRequest_TaskID := "task-1";
     ToolRequest_RunID := "run-1"; ToolRequest_Name := ToolApplyEdit;
     ToolRequest_Arguments := []; ToolRequest_WorkingDirectory := "/work/task";
     ToolRequest_Timeout := Minute; ToolRequest_ClaimedAuthority := AuthorityTaskWrite;
     ToolRequest_ExpectedSideEffects := [EffectTaskWorktreeWrite];
     ToolRequest_IdempotencyKey := "k"; ToolRequest_Requester := "model";
     ToolRequest_PurposeUntrusted := "" |}.

Definition active_policy : PermissionPolicy :=
  {| Policy_TaskID := "task-1"; Policy_WorktreePath := "/work/task"; Policy_TaskActive := true;
     Policy_ApprovedCommands := []; Policy_Grants := []; Policy_Denials := [] |}.

Lemma weak_authority_is_weak_witness :
  requiredAuthority edit_request = AuthorityTaskWrite /\
  (ToolRequest_Name edit_request ∉
    [ToolRunCommand; ToolPluginRPC; ToolTest; ToolBuild; ToolFormat; ToolStaticAnalysis]).
Proof.
  split; [vm_compute; reflexivity|].
  apply (weak_authority_is_weak edit_request). right. vm_compute. reflexivity.
Defined.

Lemma ClassifyAuthority_decides_witness :
  exists c, ClassifyAuthority (fun s => s) edit_request active_policy = Ok c /\
    Classification_Outcome c = OutcomeTaskScoped.
Proof.
  destruct (ClassifyAuthority_decides (fun s => s) edit_request active_policy) as (c & Hc & _).
  - vm_compute. reflexivity.
  - vm_compute. discriminate.
  - reflexivity.
  - exists c. split; [exact Hc|]. vm_compute in Hc. injection Hc as <-. reflexivity.
Defined.
