(* ===== verification/AgentTypes.v ===== *)
(** * The agent loop's data (src/internal/agent/loop_types.go)

    Plans, turns, records and outcomes as the loop and its ports exchange
    them. *)

From Stdlib Require Import QArith.
From S2P Require Import Prelude GoText PolicyValues ProviderTypes GoErrors Pricing ToolPolicy.
Open Scope string_scope.
Open Scope list_scope.

Definition ErrActionBlocked : string := "durable control blocks new actions".
Definition ErrMalformedModelTurn : string := "agent model turn is malformed".
Definition ErrPlanContract : string := "agent plan does not satisfy the loop's contract".
Definition ErrUnknownTool : string := "agent model requested an unknown tool".
Definition ErrAccountingUnknown : string := "agent usage or cost accounting is unknown".
Definition errEmptyModelTurn : string := "turn contains neither tool calls nor completion".
Definition errTooManyCallsInATurn : string := "turn exceeds the per-round tool-call bound".

Abbreviation StepKind := string (only parsing).
Definition StepKindEdit : StepKind := "edit".
Definition StepKindPatch : StepKind := "patch".
Definition StepKindReadFile : StepKind := "read-file".
Definition StepKindListDirectory : StepKind := "list-directory".
Definition StepKindSearchText : StepKind := "search-text".
Definition StepKindSearchSymbol : StepKind := "search-symbol".
Definition StepKindInspectDiff : StepKind := "inspect-diff".
Definition StepKindGitStatus : StepKind := "git-status".
Definition StepKindGitHistory : StepKind := "git-history".
Definition StepKindTest : StepKind := "test".
Definition StepKindBuild : StepKind := "build".
Definition StepKindStaticAnalysis : StepKind := "static-analysis".

Abbreviation StepState := string (only parsing).
Definition StepPending : StepState := "pending".
Definition StepInProgress : StepState := "in-progress".
Definition StepImplemented : StepState := "implemented".
Definition StepValidated : StepState := "validated".
Definition StepFailed : StepState := "failed".
Definition StepSkipped : StepState := "skipped".

Record PlanStep := {
  Step_ID : string;
  Step_Kind : StepKind;
  Step_SummaryRedacted : string;
  Step_State : StepState;
  Step_MaterialEdit : bool;
  Step_ValidationRequired : bool;
  Step_ExpectedFiles : list string;
  Step_CompletionTools : list ToolName;
}.

Definition with_state (step : PlanStep) (state : StepState) : PlanStep :=
  {| Step_ID := Step_ID step; Step_Kind := Step_Kind step;
     Step_SummaryRedacted := Step_SummaryRedacted step; Step_State := state;
     Step_MaterialEdit := Step_MaterialEdit step;
     Step_ValidationRequired := Step_ValidationRequired step;
     Step_ExpectedFiles := Step_ExpectedFiles step;
     Step_CompletionTools := Step_CompletionTools step |}.

Record PlanProjection := {
  Plan_Revision : Z;
  Plan_RepositoryRevision : string;
  Plan_Steps : list PlanStep;
}.

Record RepositoryContextItem := {
  Context_Path : string;
  Context_ContentSHA256 : string;
  Context_ContentRedacted : string;
}.

Record FactualEvent := {
  Fact_Sequence : Z;
  Fact_Type : string;
  Fact_SummaryRedacted : string;
}.

Record ToolArgumentDefinition := {
  Argument_Name : string;
  Argument_Required : bool;
  Argument_Sensitive : bool;
  Argument_MaxBytes : Z;
}.

Record ApprovedTool := {
  Tool_Descriptor : ToolDescriptor;
  Tool_Arguments : list ToolArgumentDefinition;
  Tool_DefaultTimeout : Duration;
  Tool_MaterialEdit : bool;
  Tool_CreatesCheckpoint : bool;
}.

Record ToolFeedback := {
  Feedback_CallID : string;
  Feedback_Tool : string;
  Feedback_State : string;
  Feedback_ExitCode : Z;
  Feedback_SummaryRedacted : string;
  Feedback_StdoutRedacted : string;
  Feedback_StderrRedacted : string;
  Feedback_Truncated : bool;
  Feedback_IsError : bool;
}.

(** tool_schema.go: the schema of a tool, before it is encoded. *)
Record toolSchemaProperty := { Property_Type : string; Property_MaxLength : Z }.

Record toolInputSchema := {
  Schema_Type : string;
  Schema_Properties : gmap string toolSchemaProperty;
  Schema_Required : list string;
  Schema_AdditionalProperties : bool;
}.

(** src/internal/providers/types.go *)
Record ToolDeclaration := {
  Declaration_Name : string;
  Declaration_Description : string;
  Declaration_InputSchema : toolInputSchema;
}.

Record ToolCall := {
  Call_ID : string;
  Call_Name : string;
  Call_Arguments : string;
}.

Record ModelInput := {
  ModelInput_TaskID : ID;
  ModelInput_RunID : ID;
  ModelInput_Model : ModelIdentity;
  ModelInput_Round : Z;
  ModelInput_RepositoryContext : list RepositoryContextItem;
  ModelInput_Plan : PlanProjection;
  ModelInput_FactualEvents : list FactualEvent;
  ModelInput_ApprovedTools : list ToolDeclaration;
  ModelInput_PreviousResults : list ToolFeedback;
}.

Abbreviation CompletionSignal := string (only parsing).
Definition CompletionNone : CompletionSignal := "".
Definition CompletionImplementationComplete : CompletionSignal := "implementation-complete".
Definition CompletionValidationComplete : CompletionSignal := "validation-complete".
Definition CompletionNeedsDirection : CompletionSignal := "needs-direction".

Record ModelToolCall := {
  ModelToolCall_Call : ToolCall;
  ModelToolCall_PlanStepID : string;
  ModelToolCall_CompletesStep : bool;
}.

Record ModelTurn := {
  Turn_ModelRequestID : ID;
  Turn_Model : ModelIdentity;
  Turn_ToolCalls : list ModelToolCall;
  Turn_MessageRedacted : string;
  Turn_Completion : CompletionSignal;
  Turn_Usage : Usage;
  Turn_Cost : ExactAmount;
}.

Record ToolAuthorization := {
  Authorization_Classification : AuthorityClassification;
  Authorization_DecisionID : string;
  Authorization_PolicyRevision : Z;
  Authorization_PolicySHA256 : string;
}.

(** src/internal/executor/command.go, the fields the loop fills. *)
Record AuthorizedToolRequest := {
  Authorized_Request : ToolRequest;
  Authorized_Classification : AuthorityClassification;
  Authorized_WorktreePath : string;
}.

Record ToolStartRecord := {
  Start_TaskID : ID;
  Start_RunID : ID;
  Start_PlanRevision : Z;
  Start_PlanStepID : string;
  Start_Round : Z;
  Start_RequestID : string;
  Start_ModelRequestID : ID;
  Start_ToolName : ToolName;
  Start_ToolSchemaVersion : Z;
  Start_ArgumentsRedactedJSON : string;
  Start_ArgumentsSHA256 : string;
  Start_Authorization : ToolAuthorization;
}.

Record ToolResultRecord := {
  Result_TaskID : ID;
  Result_RunID : ID;
  Result_PlanRevision : Z;
  Result_PlanStepID : string;
  Result_Round : Z;
  Result_RequestID : string;
  Result_Result : ToolResult;
  Result_ResultSHA256 : string;
}.

Record PlanStepTransition := {
  Transition_TaskID : ID;
  Transition_RunID : ID;
  Transition_PlanRevision : Z;
  Transition_PlanStepID : string;
  Transition_From : StepState;
  Transition_To : StepState;
  Transition_Reason : string;
  Transition_ToolRequestID : string;
  Transition_ModelRequestID : ID;
}.

Abbreviation CheckpointTrigger := string (only parsing).
Definition CheckpointMaterialEdit : CheckpointTrigger := "material-edit-applied".
Definition CheckpointBeforeRisky : CheckpointTrigger := "before-risky-action".

Record CheckpointRequest := {
  Checkpoint_TaskID : ID;
  Checkpoint_RunID : ID;
  Checkpoint_PlanRevision : Z;
  Checkpoint_PlanStepID : string;
  Checkpoint_ToolRequestID : string;
  Checkpoint_ModelRequestID : ID;
  Checkpoint_Round : Z;
  Checkpoint_Trigger : CheckpointTrigger;
  Checkpoint_PermissionID : string;
  Checkpoint_ActionSHA256 : string;
  Checkpoint_Reason : string;
}.

Record PlanApprovedCheckpointRequest := {
  PlanApproved_TaskID : ID;
  PlanApproved_RunID : ID;
  PlanApproved_PlanRevision : Z;
  PlanApproved_ApprovalID : ID;
}.

Abbreviation ControlDisposition := string (only parsing).
Definition ControlActive : ControlDisposition := "active".
Definition ControlPauseRequested : ControlDisposition := "pause-requested".
Definition ControlPaused : ControlDisposition := "paused".
Definition ControlCancelled : ControlDisposition := "cancelled".
Definition ControlStopped : ControlDisposition := "stopped".

Record ControlState := {
  Control_Disposition : ControlDisposition;
  Control_BudgetAvailable : bool;
  Control_PolicyCurrent : bool;
  Control_ValidationComplete : bool;
}.

Abbreviation ActionKind := string (only parsing).
Definition ActionModel : ActionKind := "model".
Definition ActionTool : ActionKind := "tool".
Definition ActionValidation : ActionKind := "validation".

Record ActionDescriptor := {
  Action_Kind : ActionKind;
  Action_RequestID : string;
  Action_SafeRead : bool;
  Action_LongRunning : bool;
}.

Record LoopLimits := {
  MaximumRounds : Z;
  MaximumToolCalls : Z;
  MaximumToolCallsPerRound : Z;
  MaximumTokens : Z;
  MaximumTokensPerRound : Z;
  MaximumWallClock : Duration;
  MaximumCost : ExactAmount;
  MaximumIdenticalFailures : Z;
  MaximumContextItems : Z;
  MaximumFactualEvents : Z;
  MaximumContextBytes : Z;
  MaximumResultBytes : Z;
}.

Record LoopInput := {
  Input_TaskID : ID;
  Input_RunID : ID;
  Input_PlanApprovalID : ID;
  Input_WorktreePath : string;
  Input_PolicyRevision : Z;
  Input_PolicySHA256 : string;
  Input_Plan : PlanProjection;
  Input_RepositoryContext : list RepositoryContextItem;
  Input_FactualEvents : list FactualEvent;
  Input_ApprovedTools : list ApprovedTool;
  Input_Limits : LoopLimits;
}.

Abbreviation OutcomeKind := string (only parsing).
Definition OutcomeImplementationComplete : OutcomeKind := "implementation-complete".
Definition OutcomeValidationComplete : OutcomeKind := "validation-complete".
Definition OutcomeAwaitingDirection : OutcomeKind := "awaiting-direction".
Definition OutcomeAwaitingApproval : OutcomeKind := "awaiting-approval".
Definition OutcomePermissionDenied : OutcomeKind := "permission-denied".
Definition OutcomePaused : OutcomeKind := "paused".
Definition OutcomeCancelled : OutcomeKind := "cancelled".
Definition OutcomeStopped : OutcomeKind := "stopped".
Definition OutcomeBudgetExhausted : OutcomeKind := "budget-exhausted".
Definition OutcomePolicyBlocked : OutcomeKind := "policy-blocked".
Definition OutcomeLimitReached : OutcomeKind := "limit-reached".

Record LoopOutcome := {
  Outcome_Kind : OutcomeKind;
  Outcome_Reason : string;
  Outcome_Rounds : Z;
  Outcome_ToolCalls : Z;
  Outcome_Tokens : Z;
  Outcome_Cost : ExactAmount;
  Outcome_Plan : PlanProjection;
  Outcome_ValidationRequired : bool;
}.

Definition maximumUnverifiedCompletionRefusals : Z := 3.
Definition maximumEmptyTurnRetries : Z := 4.
Definition maximumOutOfScopeRetries : Z := 2.
Definition maximumBatchingRetries : Z := 3.

Definition absoluteMaximumRounds : Z := 256.
Definition absoluteMaximumToolCalls : Z := 1024.
Definition absoluteMaximumToolCallsPerRound : Z := 64.
Definition absoluteMaximumTokens : Z := 10000000.
Definition absoluteMaximumTokensPerRound : Z := 1000000.
Definition absoluteMaximumIdenticalFailures : Z := 32.
Definition absoluteMaximumContextItems : Z := 1024.
Definition absoluteMaximumFactualEvents : Z := 4096.
Definition absoluteMaximumContextBytes : Z := 16777216.
Definition absoluteMaximumCostUnits : Z := 1000000.
Definition maximumExpectedFiles : Z := 512.
Definition maximumExpectedPathSize : Z := 4096.
Definition maximumToolArguments : Z := 64.
Definition defaultArgumentMaxBytes : Z := 4096.
Definition maximumToolCallBytes : Z := 65536.

#[export] Instance PlanStep_eq_dec : EqDecision PlanStep.
Proof. solve_decision. Defined.
#[export] Instance PlanProjection_eq_dec : EqDecision PlanProjection.
Proof. solve_decision. Defined.
