(* ===== verification/AgentPlan.v ===== *)
(** * The agent loop's rules (src/internal/agent/loop.go, loop_types.go,
      limits.go, tool_schema.go)

    The checks and small computations of the loop that call no port: plan steps
    and their paths, turns, limits, cost and token accounting, decoding of tool
    calls, results and outcomes. *)

From Stdlib Require Import Ascii QArith.
From S2P Require Import Prelude GoText PolicyValues ProviderTypes GoErrors GoPath Pricing.
From S2P Require Import ToolPolicy AgentTypes.
Open Scope string_scope.
Open Scope list_scope.

Definition malformed (text : string) : error := sentinel_text ErrMalformedModelTurn text.

(** ** Limits (limits.go) *)

(** [known] is always true of an accumulator the loop makes. *)
Record costAccumulator := { cost_currency : string; cost_value : Q; cost_accumulator_known : bool }.

Definition newCostAccumulator (limit : ExactAmount) : result error costAccumulator :=
  if negb (Amount_Known limit) || negb (Z.of_nat (String.length (Amount_Currency limit)) =? 3)%Z
     || negb (Amount_Currency limit =? ToUpper (Amount_Currency limit))
     || (Amount_Numerator limit <? 0)%Z || (Amount_Denominator limit <? 1)%Z then
    Err (Sentinel "agent maximum cost must be an exact known non-negative amount")
  else Ok {| cost_currency := Amount_Currency limit; cost_value := 0%Q;
             cost_accumulator_known := true |}.

Definition costWithinAbsoluteMaximum (value : ExactAmount) : bool :=
  if negb (Amount_Known value) || (Amount_Numerator value <? 0)%Z || (Amount_Denominator value <? 1)%Z
  then false
  else Qle_bool (amount_value value) (inject_Z absoluteMaximumCostUnits).

Definition cost_add (acc : costAccumulator) (value : ExactAmount) : result error costAccumulator :=
  if negb (cost_accumulator_known acc) then Err (Sentinel "agent cost accumulator is unavailable")
  else if negb (Amount_Known value) then Err (Sentinel "agent model cost accounting is unknown")
  else if negb (Amount_Currency value =? cost_currency acc)
          || (Amount_Numerator value <? 0)%Z || (Amount_Denominator value <? 1)%Z then
    Err (Sentinel "agent model cost is invalid")
  else Ok {| cost_currency := cost_currency acc;
             cost_value := (cost_value acc + amount_value value)%Q;
             cost_accumulator_known := true |}.

Definition cost_exceeds (acc : costAccumulator) (limit : ExactAmount) : bool :=
  if negb (cost_accumulator_known acc) then true
  else negb (Qle_bool (cost_value acc) (amount_value limit)).

Definition cost_amount (acc : costAccumulator) : ExactAmount :=
  if negb (cost_accumulator_known acc) then UnknownAmount (cost_currency acc)
  else amount_of_rat (cost_currency acc) (cost_value acc).

Fixpoint sum_tokens (counts : list Z) (total : Z) : result error Z :=
  match counts with
  | [] => Ok total
  | count :: rest =>
      if (count <? 0)%Z || (max_uint64 - total <? count)%Z then
        Err (Sentinel "agent model token accounting overflows")
      else sum_tokens rest (total + count)%Z
  end.

Definition addTokens (total addition : Z) : result error Z :=
  if (max_uint64 - total <? addition)%Z then
    Err (Sentinel "agent cumulative token accounting overflows")
  else Ok (total + addition)%Z.

Section Usage.
Context (unmarshal_counts : string -> option (gmap string Z)).

(** The sum does not depend on the order of the map. *)
Definition usageTokenCount (usage : Usage) : result error Z :=
  if negb (Usage_Known usage) then Err (Sentinel "agent model token accounting is unknown")
  else
    specific ← NormalizeProviderSpecificUsage unmarshal_counts (ProviderSpecific usage);
    sum_tokens (fixed_counts usage ++ (map_to_list specific).*2) 0.
End Usage.

Definition outside (low high v : Z) : bool := (v <? low)%Z || (high <? v)%Z.

Definition validateLoopLimits (l : LoopLimits) : option error :=
  if outside 1 absoluteMaximumRounds (MaximumRounds l) then
    Some (Sentinel "agent round limit is required")
  else if outside 1 absoluteMaximumToolCalls (MaximumToolCalls l) then
    Some (Sentinel "agent tool-call limit is required")
  else if (MaximumToolCallsPerRound l <? 1)%Z || (MaximumToolCalls l <? MaximumToolCallsPerRound l)%Z
          || (absoluteMaximumToolCallsPerRound <? MaximumToolCallsPerRound l)%Z then
    Some (Sentinel "agent per-round tool-call limit is invalid")
  else if outside 1 absoluteMaximumTokens (MaximumTokens l)
          || (MaximumTokensPerRound l <? 1)%Z || (MaximumTokens l <? MaximumTokensPerRound l)%Z
          || (absoluteMaximumTokensPerRound <? MaximumTokensPerRound l)%Z then
    Some (Sentinel "agent token limits are invalid")
  else if outside Second (24 * Hour) (MaximumWallClock l) then
    Some (Sentinel "agent wall-clock limit is invalid")
  else if outside 2 absoluteMaximumIdenticalFailures (MaximumIdenticalFailures l) then
    Some (Sentinel "agent identical-failure limit must be at least two")
  else if outside 0 absoluteMaximumContextItems (MaximumContextItems l)
          || outside 0 absoluteMaximumFactualEvents (MaximumFactualEvents l)
          || outside 0 absoluteMaximumContextBytes (MaximumContextBytes l) then
    Some (Sentinel "agent context bounds are invalid")
  else if outside 256 1048576 (MaximumResultBytes l) then
    Some (Sentinel "agent result bound is invalid")
  else match newCostAccumulator (MaximumCost l) with
       | Err err => Some err
       | Ok _ => if negb (costWithinAbsoluteMaximum (MaximumCost l)) then
                   Some (Sentinel "agent cost limit exceeds the absolute ceiling")
                 else None
       end.

(** ** Paths *)

Definition boundedTrimmedPath (path : string) (maximum : Z) : bool :=
  negb (path =? "") && (TrimSpace path =? path)
  && (Z.of_nat (String.length path) <=? maximum)%Z && ValidString path.

(** [None] is the pair of the empty string and [false]. *)
Definition canonicalRelativePath (path : string) : option string :=
  if negb (boundedTrimmedPath path maximumExpectedPathSize)
     || has_byte "\" path || has_byte ":" path
     || has_byte_such (fun c => (c <? 32)%N || (c =? 127)%N) path || IsAbs path then None
  else
    let normalized := Clean path in
    if (normalized =? ".") || (normalized =? "..") || HasPrefix normalized "../" then None
    else Some normalized.

Definition CanonicalPlanPath (path : string) : option string := canonicalRelativePath path.

(** A path in the scope of a file or directory a step names. *)
Definition path_in (expected path : string) : bool :=
  (path =? expected) || HasPrefix path (expected +:+ "/").

Definition stepKindRequiresExpectedFiles (kind : StepKind) : bool :=
  one_of [StepKindEdit; StepKindPatch; StepKindReadFile; StepKindListDirectory;
          StepKindSearchText; StepKindSearchSymbol] kind.

Fixpoint strictly_ascending (previous : option string) (paths : list string) : bool :=
  match paths with
  | [] => true
  | path :: rest =>
      match previous with
      | Some p => String.ltb p path
      | None => true
      end && strictly_ascending (Some path) rest
  end.

Definition canonical (path : string) : bool :=
  match canonicalRelativePath path with Some normalized => normalized =? path | None => false end.

Definition validExpectedFiles (paths : list string) : bool :=
  negb (maximumExpectedFiles <? Z.of_nat (length paths))%Z
  && forallb canonical paths && strictly_ascending None paths.

(** ** Plan steps *)

Record planStepKindContract := {
  completionTool : ToolName;
  alsoCompletedBy : ToolName;
  contract_materialEdit : bool;
  contract_validationRequired : bool;
}.

Definition kind_contract (tool also : ToolName) (material validation : bool)
    : option planStepKindContract :=
  Some {| completionTool := tool; alsoCompletedBy := also; contract_materialEdit := material;
          contract_validationRequired := validation |}.

Definition planStepContract (kind : StepKind) : option planStepKindContract :=
  if kind =? StepKindEdit then kind_contract ToolApplyEdit ToolApplyPatch true true
  else if kind =? StepKindPatch then kind_contract ToolApplyPatch "" true true
  else if kind =? StepKindReadFile then kind_contract ToolReadFile "" false false
  else if kind =? StepKindListDirectory then kind_contract ToolListDirectory "" false false
  else if kind =? StepKindSearchText then kind_contract ToolSearchText "" false false
  else if kind =? StepKindSearchSymbol then kind_contract ToolSearchSymbol "" false false
  else if kind =? StepKindInspectDiff then kind_contract ToolInspectDiff "" false false
  else if kind =? StepKindGitStatus then kind_contract ToolGitStatus "" false false
  else if kind =? StepKindGitHistory then kind_contract ToolGitHistory "" false false
  else if kind =? StepKindTest then kind_contract ToolTest "" false true
  else if kind =? StepKindBuild then kind_contract ToolBuild "" false true
  else if kind =? StepKindStaticAnalysis then kind_contract ToolStaticAnalysis "" false true
  else None.

Definition permits (c : planStepKindContract) (declared : list ToolName) : bool :=
  match declared with
  | [] => false
  | first :: rest =>
      if negb (first =? completionTool c) then false
      else match rest with
           | [] => true
           | [second] => negb (alsoCompletedBy c =? "") && (second =? alsoCompletedBy c)
           | _ => false
           end
  end.

Definition validatePlanStepContract (step : PlanStep) : option error :=
  match planStepContract (Step_Kind step) with
  | None => Some (sentinel_text ErrPlanContract "step kind is invalid")
  | Some contract =>
      if negb (permits contract (Step_CompletionTools step)) then
        Some (sentinel_text ErrPlanContract
                ("a " +:+ Step_Kind step +:+ " step is completed by " +:+ completionTool contract
                 +:+ " and this one declares " +:+ fmt_strings (Step_CompletionTools step)))
      else if negb (Bool.eqb (Step_MaterialEdit step) (contract_materialEdit contract))
              || negb (Bool.eqb (Step_ValidationRequired step) (contract_validationRequired contract)) then
        Some (sentinel_text ErrPlanContract "step semantics differ from its kind")
      else if negb (validExpectedFiles (Step_ExpectedFiles step)) then
        Some (Sentinel "agent plan step expected-file scope is invalid")
      else if stepKindRequiresExpectedFiles (Step_Kind step)
              && is_empty_list (Step_ExpectedFiles step) then
        Some (Sentinel "path-scoped agent plan step lacks expected files")
      else None
  end.

Definition ValidatePlanStep (step : PlanStep) : option error := validatePlanStepContract step.

Definition validStepState (state : StepState) : bool :=
  one_of [StepPending; StepInProgress; StepImplemented; StepValidated; StepFailed; StepSkipped] state.

Definition stepTransitionAllowed (from to : StepState) : bool :=
  if from =? StepPending then one_of [StepInProgress; StepFailed; StepSkipped] to
  else if from =? StepInProgress then
    one_of [StepImplemented; StepValidated; StepFailed; StepSkipped] to
  else if from =? StepImplemented then one_of [StepValidated; StepFailed] to
  else false.

Definition StepMayAcceptAnotherCall (state : StepState) : bool :=
  negb (state =? StepFailed) && negb (state =? StepSkipped).

Definition toolCanStillBeCalled (plan : PlanProjection) (name : ToolName) : bool :=
  existsb (fun step =>
    negb (one_of [StepImplemented; StepValidated; StepSkipped] (Step_State step))
    && one_of (Step_CompletionTools step) name) (Plan_Steps plan).

Definition openStepAdvice (plan : PlanProjection) : string :=
  let open := omap (fun step =>
    if StepMayAcceptAnotherCall (Step_State step)
    then Some (Step_ID step +:+ " (" +:+ Join (Step_CompletionTools step) ", " +:+ ")")
    else None) (Plan_Steps plan) in
  match open with
  | [] => "No step is still open."
  | _ => "Still open: " +:+ Join open "; " +:+ "."
  end.

(** The files of the steps that may be called, each once, in order. *)
Fixpoint unseen (seen files : list string) : list string :=
  match files with
  | [] => []
  | file :: rest => if one_of seen file then unseen seen rest else file :: unseen (file :: seen) rest
  end.

Definition writableFilesAdvice (plan : PlanProjection) : string :=
  let files := unseen [] (Plan_Steps plan ≫= fun step =>
    if StepMayAcceptAnotherCall (Step_State step) then Step_ExpectedFiles step else []) in
  match files with
  | [] => "This plan names no file you may change."
  | _ => "The files this plan lets you change are " +:+ Join files " and " +:+ "."
  end.

Definition finished (state : StepState) : bool :=
  one_of [StepImplemented; StepValidated; StepSkipped] state.

Definition implementationStepsComplete (plan : PlanProjection) : bool :=
  forallb (fun step => finished (Step_State step)) (Plan_Steps plan).

Definition validationStepsComplete (plan : PlanProjection) : bool :=
  forallb (fun step => if Step_ValidationRequired step then Step_State step =? StepValidated
                       else finished (Step_State step)) (Plan_Steps plan).

Fixpoint executable_from (steps : list PlanStep) (index : nat) (stepID : string) : result error nat :=
  match steps with
  | [] => Err (malformed ("plan step " +:+ Quote stepID +:+ " is unknown"))
  | step :: rest =>
      if negb (Step_ID step =? stepID) then executable_from rest (S index) stepID
      else if negb (StepMayAcceptAnotherCall (Step_State step)) then
        Err (malformed ("plan step " +:+ Quote stepID +:+ " is not executable"))
      else Ok index
  end.

Definition executableStepIndex (plan : PlanProjection) (stepID : string) : result error nat :=
  if negb (TrimSpace stepID =? stepID) || (stepID =? "") then
    Err (malformed "tool call lacks a plan step")
  else executable_from (Plan_Steps plan) 0 stepID.

Definition validateToolStepCompatibility (step : PlanStep) (tool : ApprovedTool) : option error :=
  let name := ToolDescriptor_Name (Tool_Descriptor tool) in
  if negb (one_of (Step_CompletionTools step) name) then
    Some (malformed ("tool " +:+ Quote name +:+ " cannot complete plan step " +:+ Quote (Step_ID step)))
  else if negb (Bool.eqb (Step_MaterialEdit step) (Tool_MaterialEdit tool)) then
    Some (malformed "tool and plan-step materiality differ")
  else if Step_MaterialEdit step && negb (Tool_CreatesCheckpoint tool) then
    Some (malformed "material edit tool lacks checkpoint authority")
  else None.

(** [None]: no argument of that name, or more than one. *)
Definition requestArgument (r : ToolRequest) (name : string) : option string :=
  match filter (fun a => ToolArgument_Name a = name) (ToolRequest_Arguments r) with
  | [a] => Some (ToolArgument_Value a)
  | _ => None
  end.

Definition validateToolStepPathScope (step : PlanStep) (r : ToolRequest) : option error :=
  if negb (stepKindRequiresExpectedFiles (Step_Kind step)) then None
  else match requestArgument r "path" with
  | None => Some (malformed ("path-scoped tool " +:+ Quote (ToolRequest_Name r) +:+ " lacks a path"))
  | Some path =>
      if negb (canonical path) then
        Some (malformed "tool path is not canonical repository-relative scope")
      else if existsb (fun expected => path_in expected path) (Step_ExpectedFiles step) then None
      else Some (malformed ("tool path is outside plan step " +:+ Quote (Step_ID step) +:+ " scope"))
  end.

Definition closed_state (state : StepState) : bool :=
  one_of [StepImplemented; StepValidated; StepFailed; StepSkipped] state.

(** The indices of the steps, open or closed, that name a path. *)
Definition owners (plan : PlanProjection) (path : string) (closed : bool) : list nat :=
  omap (fun istep : nat * PlanStep =>
    let step := istep.2 in
    if stepKindRequiresExpectedFiles (Step_Kind step)
       && Bool.eqb (closed_state (Step_State step)) closed
       && existsb (fun expected => path_in expected path) (Step_ExpectedFiles step)
    then Some istep.1 else None)
  (zip (seq 0 (length (Plan_Steps plan))) (Plan_Steps plan)).

Definition stepOwningPathInState (plan : PlanProjection) (path : string) (closed : bool) : option nat :=
  match owners plan path closed with [index] => Some index | _ => None end.

Definition patch_markers : list string := ["*** Update File:"; "*** Add File:"].

Fixpoint first_marked (markers : list string) (line : string) : option string :=
  match markers with
  | [] => None
  | marker :: rest =>
      match strip_prefix marker line with
      | Some text => Some (TrimSpace text)
      | None => first_marked rest line
      end
  end.

Fixpoint declared_in (lines : list string) : string :=
  match lines with
  | [] => ""
  | line :: rest =>
      match first_marked patch_markers (TrimSpace line) with
      | Some target => target
      | None => declared_in rest
      end
  end.

Definition patchDeclaredTarget (r : ToolRequest) : string :=
  match requestArgument r "patch" with
  | None => ""
  | Some payload => declared_in (SplitByte "010" payload)
  end.

(** The one step that owns a candidate path, an open one first. *)
Definition owner_of (plan : PlanProjection) (candidate : string) : option nat :=
  if candidate =? "" then None
  else match stepOwningPathInState plan candidate false with
       | Some index => Some index
       | None => stepOwningPathInState plan candidate true
       end.

Definition stepOwningPath (plan : PlanProjection) (r : ToolRequest) : option nat :=
  match requestArgument r "path" with
  | None => None
  | Some path =>
      match owner_of plan path with
      | Some index => Some index
      | None => owner_of plan (patchDeclaredTarget r)
      end
  end.

(** ** Input *)

Definition validSHA256 (value : string) : bool :=
  (Z.of_nat (String.length value) =? 64)%Z
  && forallb (fun c => has_byte c "0123456789abcdef") (String.list_ascii_of_string value).

Fixpoint validate_steps (seen : list string) (steps : list PlanStep) : option error :=
  match steps with
  | [] => None
  | step :: rest =>
      if negb (trimmed_bounded 255 (Step_ID step)) || blank (Step_SummaryRedacted step)
         || longer_than 4096 (Step_SummaryRedacted step) || negb (validStepState (Step_State step)) then
        Some (Sentinel "agent plan step is invalid")
      else
        validatePlanStepContract step ;?
        (if one_of seen (Step_ID step) then Some (Sentinel "agent plan step ID is duplicated")
         else validate_steps (Step_ID step :: seen) rest)
  end.

Fixpoint validate_facts (previous : Z) (first : bool) (facts : list FactualEvent) : option error :=
  match facts with
  | [] => None
  | event :: rest =>
      if (Fact_Sequence event =? 0)%Z || negb first && (Fact_Sequence event <=? previous)%Z
         || negb (trimmed_bounded 255 (Fact_Type event)) || longer_than 4096 (Fact_SummaryRedacted event)
      then Some (Sentinel "agent factual event is invalid")
      else validate_facts (Fact_Sequence event) false rest
  end.

Definition context_bytes (items : list RepositoryContextItem) : Z :=
  fold_left (fun n item => n + Z.of_nat (String.length (Context_Path item))
                           + Z.of_nat (String.length (Context_ContentRedacted item)))%Z items 0%Z.

Definition validateLoopInput (input : LoopInput) : option error :=
  let plan := Input_Plan input in
  let limits := Input_Limits input in
  if IsZero (Input_TaskID input) || IsZero (Input_RunID input) || IsZero (Input_PlanApprovalID input) then
    Some (Sentinel "agent task, run, and plan approval IDs are required")
  else if negb (IsAbs (Input_WorktreePath input)) then
    Some (Sentinel "agent worktree path must be absolute")
  else if (Plan_Revision plan =? 0)%Z then Some (Sentinel "agent plan revision is required")
  else if (Input_PolicyRevision input =? 0)%Z || negb (validSHA256 (Input_PolicySHA256 input)) then
    Some (Sentinel "agent execution policy binding is invalid")
  else if negb (trimmed_bounded 512 (Plan_RepositoryRevision plan)) then
    Some (Sentinel "agent plan repository revision is invalid")
  else if is_empty_list (Plan_Steps plan) || (256 <? Z.of_nat (length (Plan_Steps plan)))%Z then
    Some (Sentinel "agent plan steps are outside supported bounds")
  else
    validateLoopLimits limits ;?
    validate_steps [] (Plan_Steps plan) ;?
    (if (MaximumContextItems limits <? Z.of_nat (length (Input_RepositoryContext input)))%Z then
       Some (Sentinel "agent repository context exceeds the item bound")
     else if existsb (fun item => negb (trimmed_bounded 4096 (Context_Path item))
                                  || negb (validSHA256 (Context_ContentSHA256 item)))
               (Input_RepositoryContext input) then
       Some (Sentinel "agent repository context item is invalid")
     else if (MaximumContextBytes limits <? context_bytes (Input_RepositoryContext input))%Z then
       Some (Sentinel "agent repository context exceeds the byte bound")
     else if (MaximumFactualEvents limits <? Z.of_nat (length (Input_FactualEvents input)))%Z then
       Some (Sentinel "agent factual events exceed the item bound")
     else validate_facts 0 true (Input_FactualEvents input)).

Definition validateFixedModelIdentity (model : ModelIdentity) : option error :=
  let provider := ModelIdentity_Provider model in
  if forallb (trimmed_bounded 255)
       [ProviderIdentity_Adapter provider; ProviderIdentity_AdapterVersion provider;
        ProviderIdentity_Provider provider; ProviderIdentity_ProviderVersion provider;
        ModelIdentity_Model model; ModelIdentity_Revision model]
  then None else Some (Sentinel "agent fixed model identity is invalid").

Definition validateModelTurn (turn : ModelTurn) (perRound : Z) : option error :=
  let calls := Turn_ToolCalls turn in
  let none := Turn_Completion turn =? CompletionNone in
  if is_empty_list calls && none then Some (sentinel_cause ErrMalformedModelTurn (Sentinel errEmptyModelTurn))
  else if negb (is_empty_list calls) && negb none then
    Some (malformed "tool calls and completion are mutually exclusive")
  else if (perRound <? wrap_uint32 (Z.of_nat (length calls)))%Z then
    Some (Wrapped (ErrMalformedModelTurn +:+ ": " +:+ errTooManyCallsInATurn +:+ ": "
                   +:+ fmt_d (Z.of_nat (length calls)) +:+ " calls in one turn, and this round takes "
                   +:+ fmt_d perRound)
            [Sentinel ErrMalformedModelTurn; Sentinel errTooManyCallsInATurn])
  else if one_of [CompletionNone; CompletionImplementationComplete; CompletionValidationComplete;
                  CompletionNeedsDirection] (Turn_Completion turn) then None
  else Some (malformed "completion signal is unknown").

(** ** Tools (tool_schema.go) *)

Definition argument_maximum (a : ToolArgumentDefinition) : Z :=
  if (Argument_MaxBytes a =? 0)%Z then defaultArgumentMaxBytes else Argument_MaxBytes a.

Fixpoint validate_arguments (tool : ToolName) (seen : list string) (l : list ToolArgumentDefinition)
    : option error :=
  match l with
  | [] => None
  | a :: rest =>
      if negb (trimmed_bounded 255 (Argument_Name a)) then
        Some (Sentinel ("approved tool " +:+ Quote tool +:+ " argument name is invalid"))
      else if one_of seen (Argument_Name a) then
        Some (Sentinel ("approved tool " +:+ Quote tool +:+ " argument " +:+ Quote (Argument_Name a)
                        +:+ " is duplicated"))
      else if outside 0 maximumToolCallBytes (Argument_MaxBytes a) then
        Some (Sentinel ("approved tool " +:+ Quote tool +:+ " argument " +:+ Quote (Argument_Name a)
                        +:+ " bound is invalid"))
      else validate_arguments tool (Argument_Name a :: seen) rest
  end.

Definition validateApprovedTool (tool : ApprovedTool) : option error :=
  let d := Tool_Descriptor tool in
  let name := ToolDescriptor_Name d in
  if (name =? "") || negb (ToolDescriptor_SchemaVersion d =? ToolSchemaVersion)%Z then
    Some (Sentinel "approved tool descriptor is invalid")
  else
    let registered :=
      match lookup_descriptor name with
      | None => false
      | Some catalog =>
          (ToolDescriptor_SchemaVersion catalog =? ToolDescriptor_SchemaVersion d)%Z
          && (ToolDescriptor_DefaultAuthority catalog =? ToolDescriptor_DefaultAuthority d)
          && bool_decide (ToolDescriptor_Effects catalog = ToolDescriptor_Effects d)
      end in
    if negb registered then
      Some (Sentinel ("approved tool " +:+ Quote name +:+ " differs from the registered tool contract"))
    else if outside Second (30 * Minute) (Tool_DefaultTimeout tool) then
      Some (Sentinel ("approved tool " +:+ Quote name +:+ " timeout is outside supported bounds"))
    else if (maximumToolArguments <? Z.of_nat (length (Tool_Arguments tool)))%Z then
      Some (Sentinel ("approved tool " +:+ Quote name +:+ " has too many arguments"))
    else
      validate_arguments name [] (Tool_Arguments tool) ;?
      (if negb (Bool.eqb (Tool_CreatesCheckpoint tool) (Tool_MaterialEdit tool)) then
         Some (Sentinel "material edit tools must create checkpoints and read-only tools must not")
       else None).

Definition approvedToolSchema (tool : ApprovedTool) : result error toolInputSchema :=
  validateApprovedTool tool ;!
  Ok {| Schema_Type := "object";
        Schema_Properties :=
          fold_left (fun m a => <[Argument_Name a :=
            {| Property_Type := "string"; Property_MaxLength := argument_maximum a |}]> m)
            (Tool_Arguments tool) ∅;
        Schema_Required := sort_strings
          (map Argument_Name (filter (fun a => Argument_Required a = true) (Tool_Arguments tool)));
        Schema_AdditionalProperties := false |}.

Definition insert_declaration (d : ToolDeclaration) (l : list ToolDeclaration) : list ToolDeclaration :=
  (fix go l := match l with
               | [] => [d]
               | x :: rest => if String.ltb (Declaration_Name d) (Declaration_Name x)
                              then d :: l else x :: go rest
               end) l.

Fixpoint build_tools (tools : list ApprovedTool) (approved : gmap string ApprovedTool)
    (declarations : list ToolDeclaration)
    : result error (list ToolDeclaration * gmap string ApprovedTool) :=
  match tools with
  | [] => Ok (declarations, approved)
  | tool :: rest =>
      let name := ToolDescriptor_Name (Tool_Descriptor tool) in
      validateApprovedTool tool ;!
      match approved !! name with
      | Some _ => Err (Sentinel ("approved tool " +:+ Quote name +:+ " is duplicated"))
      | None =>
          schema ← approvedToolSchema tool;
          build_tools rest (<[name := tool]> approved)
            (insert_declaration
               {| Declaration_Name := name;
                  Declaration_Description := ToolDescriptor_Summary (Tool_Descriptor tool);
                  Declaration_InputSchema := schema |} declarations)
      end
  end.

(** The declarations in the order of their names, which differ. *)
Definition buildToolDeclarations (tools : list ApprovedTool)
    : result error (list ToolDeclaration * gmap string ApprovedTool) :=
  build_tools tools ∅ [].

Record decodedToolCall := {
  decoded_request : ToolRequest;
  decoded_redactedArguments : string;
  decoded_argumentsSHA256 : string;
}.

Section Decode.
(** [decodeStrictStringObject] on the raw arguments, [json.Marshal] of a map of
    strings, and the digest. *)
Context (decodeStrictStringObject : string -> result error (gmap string string)).
Context (marshal_strings : gmap string string -> string).
Context (sha256_hex : string -> string).

(** The loop over the tool's arguments: what is left of the values, and the
    arguments, redacted and canonical values so far. *)
Record decoding := {
  dec_values : gmap string string;
  dec_arguments : list ToolArgument;
  dec_redacted : gmap string string;
  dec_canonical : gmap string string;
}.

Fixpoint decode_arguments (definitions : list ToolArgumentDefinition) (s : decoding)
    : result error decoding :=
  match definitions with
  | [] => Ok s
  | d :: rest =>
      match dec_values s !! Argument_Name d with
      | None =>
          if Argument_Required d then
            Err (Sentinel ("model tool call lacks required argument " +:+ Quote (Argument_Name d)))
          else decode_arguments rest s
      | Some value =>
          if longer_than (argument_maximum d) value then
            Err (Sentinel ("model tool argument " +:+ Quote (Argument_Name d) +:+ " exceeds its bound"))
          else
            decode_arguments rest
              {| dec_values := delete (Argument_Name d) (dec_values s);
                 dec_arguments := dec_arguments s ++
                   [{| ToolArgument_Name := Argument_Name d; ToolArgument_Value := value;
                       ToolArgument_Sensitive := Argument_Sensitive d |}];
                 dec_redacted := <[Argument_Name d :=
                   if Argument_Sensitive d then "[REDACTED]" else value]> (dec_redacted s);
                 dec_canonical := <[Argument_Name d := value]> (dec_canonical s) |}
      end
  end.

Definition tool_request (taskID runID : ID) (worktree : string) (tool : ApprovedTool)
    (call : ToolCall) (requester stepID : string) (arguments : list ToolArgument) : ToolRequest :=
  let d := Tool_Descriptor tool in
  {| ToolRequest_SchemaVersion := ToolSchemaVersion; ToolRequest_ID := Call_ID call;
     ToolRequest_TaskID := taskID; ToolRequest_RunID := runID;
     ToolRequest_Name := ToolDescriptor_Name d; ToolRequest_Arguments := arguments;
     ToolRequest_WorkingDirectory := worktree; ToolRequest_Timeout := Tool_DefaultTimeout tool;
     ToolRequest_ClaimedAuthority := ToolDescriptor_DefaultAuthority d;
     ToolRequest_ExpectedSideEffects := ToolDescriptor_Effects d;
     ToolRequest_IdempotencyKey := "agent-tool/" +:+ Call_ID call;
     ToolRequest_Requester := requester;
     ToolRequest_PurposeUntrusted := "execute approved plan step " +:+ stepID |}.

Definition decodeModelToolCall (taskID runID : ID) (worktree : string) (model : ModelIdentity)
    (tool : ApprovedTool) (call : ToolCall) (stepID : string) : result error decodedToolCall :=
  if negb (trimmed_bounded 255 (Call_ID call)) then Err (Sentinel "model tool-call ID is invalid")
  else if negb (Call_Name call =? ToolDescriptor_Name (Tool_Descriptor tool)) then
    Err (Sentinel "model tool-call name changed during validation")
  else match decodeStrictStringObject (Call_Arguments call) with
  | Err err => Err (text_cause "decode model tool call" err)
  | Ok values =>
      s ← decode_arguments (Tool_Arguments tool)
            {| dec_values := values; dec_arguments := []; dec_redacted := ∅; dec_canonical := ∅ |};
      if negb (Z.of_nat (size (dec_values s)) =? 0)%Z then
        Err (Sentinel "model tool call contains an unknown argument")
      else
        let requester := ProviderIdentity_Provider (ModelIdentity_Provider model) +:+ "/"
          +:+ ModelIdentity_Model model +:+ "@" +:+ ModelIdentity_Revision model in
        if longer_than 255 requester then Err (Sentinel "fixed model identity is too long")
        else
          let request := tool_request taskID runID worktree tool call requester stepID (dec_arguments s) in
          ValidateToolRequest request ;!
          Ok {| decoded_request := request;
                decoded_redactedArguments := marshal_strings (dec_redacted s);
                decoded_argumentsSHA256 := sha256_hex (marshal_strings (dec_canonical s)) |}
  end.

Definition validateToolAuthorization (r : ToolRequest) (authorization : ToolAuthorization)
    (policyRevision : Z) (policySHA256 : string) : option error :=
  let c := Authorization_Classification authorization in
  if negb (one_of [OutcomeAutomatic; OutcomeTaskScoped; OutcomeApprovalRequired; OutcomeDenied]
             (Classification_Outcome c)) then
    Some (Sentinel "tool authority router returned an invalid outcome")
  else if negb (Classification_ScopeHash c =? ActionSHA256 sha256_hex r) then
    Some (Sentinel "tool authority decision is bound to another action")
  else if negb (trimmed_bounded 255 (Authorization_DecisionID authorization))
          || negb (Authorization_PolicyRevision authorization =? policyRevision)%Z
          || negb (Authorization_PolicySHA256 authorization =? policySHA256) then
    Some (Sentinel "tool authority decision is not bound to the current execution policy")
  else if (Classification_Required c =? "")
          || negb (Classification_Capability c =? Classification_Required c) then
    Some (Sentinel "tool authority decision lacks a derived capability")
  else if (Classification_Outcome c =? OutcomeTaskScoped) && blank (Classification_MatchedGrantID c) then
    Some (Sentinel "task-scoped tool authority lacks attribution")
  else None.

Definition fmt_t (b : bool) : string := if b then "true" else "false".

Definition failedActionFingerprint (r : ToolRequest) (result : ToolResult) : string :=
  sha256_hex (ActionSHA256 sha256_hex r +:+ nul +:+ ToolResult_State result +:+ nul
              +:+ fmt_d (ToolResult_ExitCode result) +:+ nul +:+ fmt_t (ToolResult_TimedOut result)
              +:+ nul +:+ fmt_t (ToolResult_Cancelled result)).
End Decode.

(** ** Results *)

Definition validToolResultState (state : string) : bool :=
  one_of ["succeeded"; "failed"; "cancelled"; "outcome-unknown"] state.

Definition with_verdict (r : ToolResult) (state : string) (timedOut cancelled : bool) (summary : string)
    : ToolResult :=
  {| ToolResult_RequestID := ToolResult_RequestID r;
     ToolResult_SchemaVersion := ToolResult_SchemaVersion r; ToolResult_State := state;
     ToolResult_Executable := ToolResult_Executable r;
     ToolResult_ResolvedExecutable := ToolResult_ResolvedExecutable r;
     ToolResult_ExitCode := -1; ToolResult_Duration := ToolResult_Duration r;
     ToolResult_TimedOut := timedOut; ToolResult_Cancelled := cancelled;
     ToolResult_StdoutRedacted := ToolResult_StdoutRedacted r;
     ToolResult_StderrRedacted := ToolResult_StderrRedacted r;
     ToolResult_StdoutTruncated := ToolResult_StdoutTruncated r;
     ToolResult_StderrTruncated := ToolResult_StderrTruncated r; ToolResult_Summary := summary |}.

Definition empty_result (requestID : string) : ToolResult :=
  {| ToolResult_RequestID := requestID; ToolResult_SchemaVersion := ToolSchemaVersion;
     ToolResult_State := ""; ToolResult_Executable := ""; ToolResult_ResolvedExecutable := "";
     ToolResult_ExitCode := 0; ToolResult_Duration := 0; ToolResult_TimedOut := false;
     ToolResult_Cancelled := false; ToolResult_StdoutRedacted := ""; ToolResult_StderrRedacted := "";
     ToolResult_StdoutTruncated := false; ToolResult_StderrTruncated := false;
     ToolResult_Summary := "" |}.

Definition classifyToolExecutionResult (r : ToolResult) (executeErr actionContextErr : option error)
    (requestID : string) : ToolResult :=
  match executeErr with
  | None => r
  | Some err =>
      let trustworthy := (ToolResult_RequestID r =? requestID)
        && (ToolResult_SchemaVersion r =? ToolSchemaVersion)%Z
        && validToolResultState (ToolResult_State r) in
      let r := if trustworthy then r else empty_result requestID in
      if Is err DeadlineExceeded || Is_opt actionContextErr DeadlineExceeded then
        with_verdict r "cancelled" true false "tool execution reached its mediated deadline"
      else if Is err Canceled || Is_opt actionContextErr Canceled then
        with_verdict r "cancelled" false true "tool execution was cancelled at the mediated boundary"
      else if trustworthy && (ToolResult_State r =? "outcome-unknown")
              && negb (ToolResult_Cancelled r) && negb (ToolResult_TimedOut r) then r
      else with_verdict r "outcome-unknown" false false
             "tool execution outcome is unknown at the mediated boundary"
  end.

(** [for end > 0 && !utf8.RuneStart(value[end])]. *)
Fixpoint rune_boundary (value : string) (end_ : nat) : nat :=
  match end_ with
  | O => O
  | S n => match String.get end_ value with
           | Some c => if RuneStart c then end_ else rune_boundary value n
           | None => end_
           end
  end.

(** The text, the budget left, and the truncation flag. *)
Definition boundText (value : string) (remaining : Z) (alreadyTruncated : bool) : string * Z * bool :=
  let value := ToValidUTF8 value replacement_character in
  if (remaining <=? 0)%Z then ("", remaining, alreadyTruncated || negb (value =? ""))
  else if (Z.of_nat (String.length value) <=? remaining)%Z then
    (value, (remaining - Z.of_nat (String.length value))%Z, alreadyTruncated)
  else (str_take (rune_boundary value (Z.to_nat remaining)) value, 0%Z, true).

Definition boundedToolResult (r : ToolResult) (requestID : string) (maximumBytes : Z)
    : result error ToolResult :=
  if negb (ToolResult_RequestID r =? requestID)
     || negb (ToolResult_SchemaVersion r =? ToolSchemaVersion)%Z then
    Err (Sentinel "tool result identity or schema does not match the request")
  else if negb (validToolResultState (ToolResult_State r)) then
    Err (Sentinel "tool result state is invalid")
  else
    let '(summary, remaining, stdoutTruncated) :=
      boundText (ToolResult_Summary r) maximumBytes (ToolResult_StdoutTruncated r) in
    let '(stdout, remaining, stdoutTruncated) :=
      boundText (ToolResult_StdoutRedacted r) remaining stdoutTruncated in
    let '(stderr, _, stderrTruncated) :=
      boundText (ToolResult_StderrRedacted r) remaining (ToolResult_StderrTruncated r) in
    Ok {| ToolResult_RequestID := ToolResult_RequestID r;
          ToolResult_SchemaVersion := ToolResult_SchemaVersion r;
          ToolResult_State := ToolResult_State r; ToolResult_Executable := ToolResult_Executable r;
          ToolResult_ResolvedExecutable := ToolResult_ResolvedExecutable r;
          ToolResult_ExitCode := ToolResult_ExitCode r; ToolResult_Duration := ToolResult_Duration r;
          ToolResult_TimedOut := ToolResult_TimedOut r; ToolResult_Cancelled := ToolResult_Cancelled r;
          ToolResult_StdoutRedacted := stdout; ToolResult_StderrRedacted := stderr;
          ToolResult_StdoutTruncated := stdoutTruncated; ToolResult_StderrTruncated := stderrTruncated;
          ToolResult_Summary := summary |}.

Definition toolFeedback (r : ToolResult) (name : ToolName) : ToolFeedback :=
  {| Feedback_CallID := ToolResult_RequestID r; Feedback_Tool := name;
     Feedback_State := ToolResult_State r; Feedback_ExitCode := ToolResult_ExitCode r;
     Feedback_SummaryRedacted := ToolResult_Summary r;
     Feedback_StdoutRedacted := ToolResult_StdoutRedacted r;
     Feedback_StderrRedacted := ToolResult_StderrRedacted r;
     Feedback_Truncated := ToolResult_StdoutTruncated r || ToolResult_StderrTruncated r;
     Feedback_IsError := negb (ToolResult_State r =? "succeeded") |}.

(** A failure the loop answers with itself. *)
Definition answer_feedback (callID tool summary stdout : string) : ToolFeedback :=
  {| Feedback_CallID := callID; Feedback_Tool := tool; Feedback_State := "failed";
     Feedback_ExitCode := 0; Feedback_SummaryRedacted := summary; Feedback_StdoutRedacted := stdout;
     Feedback_StderrRedacted := ""; Feedback_Truncated := false; Feedback_IsError := true |}.

(** ** Context *)

(** The items of the context, those the refresh knows replaced, then what only
    the refresh knows; of several fresh items of a path the last one counts,
    in the place of the first. *)
Fixpoint merge_existing (existing : list RepositoryContextItem)
    (replaced : gmap string RepositoryContextItem)
    : list RepositoryContextItem * gmap string RepositoryContextItem :=
  match existing with
  | [] => ([], replaced)
  | item :: rest =>
      match replaced !! Context_Path item with
      | Some updated =>
          let '(merged, unused) := merge_existing rest (delete (Context_Path item) replaced) in
          (updated :: merged, unused)
      | None => let '(merged, unused) := merge_existing rest replaced in (item :: merged, unused)
      end
  end.

Fixpoint merge_unused (fresh : list RepositoryContextItem)
    (replaced : gmap string RepositoryContextItem) : list RepositoryContextItem :=
  match fresh with
  | [] => []
  | item :: rest =>
      match replaced !! Context_Path item with
      | Some _ => item :: merge_unused rest (delete (Context_Path item) replaced)
      | None => merge_unused rest replaced
      end
  end.

Definition mergeContextByPath (existing fresh : list RepositoryContextItem)
    : list RepositoryContextItem :=
  match fresh with
  | [] => existing
  | _ =>
      let replaced := fold_left (fun m item => <[Context_Path item := item]> m) fresh ∅ in
      let '(merged, unused) := merge_existing existing replaced in
      merged ++ merge_unused fresh unused
  end.

(** ** Control and outcomes *)

Definition valid_disposition (d : ControlDisposition) : bool :=
  one_of [ControlActive; ControlPauseRequested; ControlPaused; ControlCancelled; ControlStopped] d.

Definition validated_control (r : result error ControlState) : result error ControlState :=
  match r with
  | Err err => Err err
  | Ok state => if valid_disposition (Control_Disposition state) then Ok state
                else Err (Sentinel "agent control state is invalid")
  end.

Definition finishLoopOutcome (kind : OutcomeKind) (reason : string) (rounds toolCalls tokens : Z)
    (cost : ExactAmount) (plan : PlanProjection) (validationRequired : bool) : LoopOutcome :=
  {| Outcome_Kind := kind; Outcome_Reason := reason; Outcome_Rounds := rounds;
     Outcome_ToolCalls := toolCalls; Outcome_Tokens := tokens; Outcome_Cost := cost;
     Outcome_Plan := plan; Outcome_ValidationRequired := validationRequired |}.

Definition controlStopOutcome (control : ControlState) (rounds toolCalls tokens : Z)
    (cost : ExactAmount) (plan : PlanProjection) : option LoopOutcome :=
  let finish kind reason := Some (finishLoopOutcome kind reason rounds toolCalls tokens cost plan true) in
  let d := Control_Disposition control in
  if (d =? ControlPauseRequested) || (d =? ControlPaused) then
    finish OutcomePaused "task execution is paused"
  else if d =? ControlCancelled then finish OutcomeCancelled "task execution is cancelled"
  else if d =? ControlStopped then finish OutcomeStopped "task execution is stopped"
  else if negb (Control_PolicyCurrent control) then
    finish OutcomePolicyBlocked "execution policy is no longer current"
  else if negb (Control_BudgetAvailable control) then
    finish OutcomeBudgetExhausted "task hard budget blocks the next action"
  else None.

Definition completionOutcome (signal : CompletionSignal) (control : ControlState)
    (rounds toolCalls tokens : Z) (cost : ExactAmount) (plan : PlanProjection) : LoopOutcome :=
  let finish kind reason v := finishLoopOutcome kind reason rounds toolCalls tokens cost plan v in
  if negb (signal =? CompletionNeedsDirection) && negb (implementationStepsComplete plan) then
    finish OutcomeAwaitingDirection
      "fixed model declared completion before implementation steps completed" true
  else if signal =? CompletionNeedsDirection then
    finish OutcomeAwaitingDirection "fixed model requested user direction" true
  else if signal =? CompletionValidationComplete then
    if Control_ValidationComplete control && validationStepsComplete plan then
      finish OutcomeValidationComplete "implementation and required validation are complete" false
    else finish OutcomeImplementationComplete
           "implementation is complete but validation evidence is incomplete" true
  else finish OutcomeImplementationComplete
         "implementation is complete; validation remains a separate gate"
         (negb (Control_ValidationComplete control) || negb (validationStepsComplete plan)).
