(* ===== verification/AgentLoop.v ===== *)
(** * The agent's execution loop (src/internal/agent/loop.go)

    [ExecutionLoop.Run] observes, asks the model, and acts on what it answers,
    every effect through a port: authority, journal, plan-step store,
    checkpoints, tools, control. The ports below are the methods of
    [LoopDependencies]; contexts appear where the code distinguishes them
    ([detached] is [context.WithoutCancel]).

    The model's identity is a parameter, as are whether a context refresher is
    installed, the digest, the JSON codecs. The body of [Run] is cut at its
    comments; each definition names the stretch of the function it is. *)

From Stdlib Require Import QArith.
From S2P Require Import Prelude GoText PolicyValues ProviderTypes GoErrors GoPath Ports Pricing.
From S2P Require Import ToolPolicy AgentTypes AgentPlan.
Open Scope string_scope.
Open Scope list_scope.

Inductive port : Type :=
| Now
| CtxErr
| ReadControl (detached : bool)
| CreatePlanApprovedCheckpoint (request : PlanApprovedCheckpointRequest)
| BindActionContext (action : ActionDescriptor)
| RefreshContext
| ObserveThink (input : ModelInput)
| RouteTool (request : ToolRequest)
| PersistToolStart (record : ToolStartRecord)
| CreateCheckpoint (request : CheckpointRequest)
| PersistPlanStepTransition (detached : bool) (transition : PlanStepTransition)
| ExecuteTool (request : AuthorizedToolRequest)
| PersistToolResult (record : ToolResultRecord).

(** A tool's answer is its result, its error and the error of the context it
    ran in. *)
Definition answer (p : port) : Type :=
  match p with
  | Now => Z
  | CtxErr => option error
  | ReadControl _ => result error ControlState
  | CreatePlanApprovedCheckpoint _ => option error
  | BindActionContext _ => option error
  | RefreshContext => list RepositoryContextItem
  | ObserveThink _ => result error ModelTurn
  | RouteTool _ => result error ToolAuthorization
  | PersistToolStart _ => option error
  | CreateCheckpoint _ => option error
  | PersistPlanStepTransition _ _ => option error
  | ExecuteTool _ => (ToolResult * option error * option error)%type
  | PersistToolResult _ => option error
  end.

(** The variables of [Run] that change. *)
Record loop_state := {
  plan : PlanProjection;
  contextItems : list RepositoryContextItem;
  writesSinceContextRead : Z;
  rounds : Z;
  toolCalls : Z;
  tokens : Z;
  cost : costAccumulator;
  previousResults : list ToolFeedback;
  writesSinceLastTest : bool;
  lastTestFailed : bool;
  emptyTurnRetries : Z;
  batchingRetries : Z;
  outOfScopeRetries : Z;
  unverifiedCompletionRefusals : Z;
  failureCounts : gmap string Z;
  callIDs : gset string;
  modelRequestIDs : gset string;
}.

Definition set_plan (s : loop_state) (v : PlanProjection) : loop_state :=
  {| plan := v; contextItems := contextItems s; writesSinceContextRead := writesSinceContextRead s;
     rounds := rounds s; toolCalls := toolCalls s; tokens := tokens s; cost := cost s;
     previousResults := previousResults s; writesSinceLastTest := writesSinceLastTest s;
     lastTestFailed := lastTestFailed s; emptyTurnRetries := emptyTurnRetries s;
     batchingRetries := batchingRetries s; outOfScopeRetries := outOfScopeRetries s;
     unverifiedCompletionRefusals := unverifiedCompletionRefusals s;
     failureCounts := failureCounts s; callIDs := callIDs s; modelRequestIDs := modelRequestIDs s |}.

Definition set_context (s : loop_state) (items : list RepositoryContextItem) (writes : Z) : loop_state :=
  {| plan := plan s; contextItems := items; writesSinceContextRead := writes;
     rounds := rounds s; toolCalls := toolCalls s; tokens := tokens s; cost := cost s;
     previousResults := previousResults s; writesSinceLastTest := writesSinceLastTest s;
     lastTestFailed := lastTestFailed s; emptyTurnRetries := emptyTurnRetries s;
     batchingRetries := batchingRetries s; outOfScopeRetries := outOfScopeRetries s;
     unverifiedCompletionRefusals := unverifiedCompletionRefusals s;
     failureCounts := failureCounts s; callIDs := callIDs s; modelRequestIDs := modelRequestIDs s |}.

Definition set_round (s : loop_state) : loop_state :=
  {| plan := plan s; contextItems := contextItems s; writesSinceContextRead := writesSinceContextRead s;
     rounds := (rounds s + 1)%Z; toolCalls := toolCalls s; tokens := tokens s; cost := cost s;
     previousResults := previousResults s; writesSinceLastTest := writesSinceLastTest s;
     lastTestFailed := lastTestFailed s; emptyTurnRetries := emptyTurnRetries s;
     batchingRetries := batchingRetries s; outOfScopeRetries := outOfScopeRetries s;
     unverifiedCompletionRefusals := unverifiedCompletionRefusals s;
     failureCounts := failureCounts s; callIDs := callIDs s; modelRequestIDs := modelRequestIDs s |}.

(** The accounting of a turn. *)
Definition set_accounts (s : loop_state) (ids : gset string) (t : Z) (c : costAccumulator) : loop_state :=
  {| plan := plan s; contextItems := contextItems s; writesSinceContextRead := writesSinceContextRead s;
     rounds := rounds s; toolCalls := toolCalls s; tokens := t; cost := c;
     previousResults := previousResults s; writesSinceLastTest := writesSinceLastTest s;
     lastTestFailed := lastTestFailed s; emptyTurnRetries := emptyTurnRetries s;
     batchingRetries := batchingRetries s; outOfScopeRetries := outOfScopeRetries s;
     unverifiedCompletionRefusals := unverifiedCompletionRefusals s;
     failureCounts := failureCounts s; callIDs := callIDs s; modelRequestIDs := ids |}.

(** The results the next round sees, with the four counters of turns the loop
    answers itself. *)
Definition set_answered (s : loop_state) (results : list ToolFeedback)
    (empty batching outOfScope unverified : Z) : loop_state :=
  {| plan := plan s; contextItems := contextItems s; writesSinceContextRead := writesSinceContextRead s;
     rounds := rounds s; toolCalls := toolCalls s; tokens := tokens s; cost := cost s;
     previousResults := results; writesSinceLastTest := writesSinceLastTest s;
     lastTestFailed := lastTestFailed s; emptyTurnRetries := empty;
     batchingRetries := batching; outOfScopeRetries := outOfScope;
     unverifiedCompletionRefusals := unverified;
     failureCounts := failureCounts s; callIDs := callIDs s; modelRequestIDs := modelRequestIDs s |}.

Definition set_called (s : loop_state) (id : string) : loop_state :=
  {| plan := plan s; contextItems := contextItems s; writesSinceContextRead := writesSinceContextRead s;
     rounds := rounds s; toolCalls := (toolCalls s + 1)%Z; tokens := tokens s; cost := cost s;
     previousResults := previousResults s; writesSinceLastTest := writesSinceLastTest s;
     lastTestFailed := lastTestFailed s; emptyTurnRetries := emptyTurnRetries s;
     batchingRetries := batchingRetries s; outOfScopeRetries := outOfScopeRetries s;
     unverifiedCompletionRefusals := unverifiedCompletionRefusals s;
     failureCounts := failureCounts s; callIDs := {[ id ]} ∪ callIDs s;
     modelRequestIDs := modelRequestIDs s |}.

Definition set_tests (s : loop_state) (writes failed : bool) (contextWrites : Z) : loop_state :=
  {| plan := plan s; contextItems := contextItems s; writesSinceContextRead := contextWrites;
     rounds := rounds s; toolCalls := toolCalls s; tokens := tokens s; cost := cost s;
     previousResults := previousResults s; writesSinceLastTest := writes;
     lastTestFailed := failed; emptyTurnRetries := emptyTurnRetries s;
     batchingRetries := batchingRetries s; outOfScopeRetries := outOfScopeRetries s;
     unverifiedCompletionRefusals := unverifiedCompletionRefusals s;
     failureCounts := failureCounts s; callIDs := callIDs s; modelRequestIDs := modelRequestIDs s |}.

Definition set_failures (s : loop_state) (counts : gmap string Z) : loop_state :=
  {| plan := plan s; contextItems := contextItems s; writesSinceContextRead := writesSinceContextRead s;
     rounds := rounds s; toolCalls := toolCalls s; tokens := tokens s; cost := cost s;
     previousResults := previousResults s; writesSinceLastTest := writesSinceLastTest s;
     lastTestFailed := lastTestFailed s; emptyTurnRetries := emptyTurnRetries s;
     batchingRetries := batchingRetries s; outOfScopeRetries := outOfScopeRetries s;
     unverifiedCompletionRefusals := unverifiedCompletionRefusals s;
     failureCounts := counts; callIDs := callIDs s; modelRequestIDs := modelRequestIDs s |}.

Section Loop.
Context (sha256_hex : string -> string).
Context (decodeStrictStringObject : string -> result error (gmap string string)).
Context (marshal_strings : gmap string string -> string).
Context (marshal_result : ToolResult -> string).
Context (unmarshal_counts : string -> option (gmap string Z)).
Context (modelIdentity : ModelIdentity) (refreshes : bool).
Context (input : LoopInput).

Abbreviation returned := (result error LoopOutcome).
Abbreviation body := (body answer returned).
Abbreviation limits := (Input_Limits input).

Definition failing {A} (err : error) : body A := returning (Err err).

Definition finish {A} (kind : OutcomeKind) (reason : string) (s : loop_state) : body A :=
  returning (Ok (finishLoopOutcome kind reason (rounds s) (toolCalls s) (tokens s)
                   (cost_amount (cost s)) (plan s) true)).

(** [if err := ...; err != nil { return LoopOutcome{}, err }] *)
Definition must (err : option error) : body unit :=
  match err with Some err => failing err | None => going tt end.

Definition readControl (detached : bool) : body ControlState :=
  let? r := asking (ReadControl detached) in
  match validated_control r with Err err => failing err | Ok state => going state end.

(** [if outcome, stop := controlStopOutcome(...); stop { return outcome, nil }] *)
Definition stop_on (control : ControlState) (s : loop_state) : body unit :=
  match controlStopOutcome control (rounds s) (toolCalls s) (tokens s) (cost_amount (cost s)) (plan s) with
  | Some outcome => returning (Ok outcome)
  | None => going tt
  end.

Definition check_control (detached : bool) (s : loop_state) : body ControlState :=
  let? control := readControl detached in
  let? _ := stop_on control s in
  going control.

(** Binding an action to a context that control can interrupt. *)
Definition bind_action (action : ActionDescriptor) (s : loop_state) : body unit :=
  let? err := asking (BindActionContext action) in
  match err with
  | None => going tt
  | Some err =>
      if Is err ErrActionBlocked then let? _ := check_control true s in failing err
      else failing err
  end.

(** *** The model's turn *)

Definition refresh_context (s : loop_state) : body loop_state :=
  if (0 <? writesSinceContextRead s)%Z && refreshes then
    let? fresh := asking RefreshContext in
    going (set_context s (mergeContextByPath (contextItems s) fresh) 0)
  else going s.

(** What a failed request to the model ends the run with. *)
Definition turn_failed {A} (turnErr : error) (s : loop_state) : body A :=
  let? r := asking (ReadControl true) in
  match validated_control r with
  | Err controlErr => failing (join turnErr controlErr)
  | Ok latest =>
      let? _ := stop_on latest s in
      let? ctxErr := asking CtxErr in
      if Is turnErr Canceled || Is_opt ctxErr Canceled then
        finish OutcomeCancelled "agent model request was cancelled" s
      else if Is turnErr DeadlineExceeded then
        finish OutcomeLimitReached "agent model request reached the wall-clock limit" s
      else failing (text_cause "agent fixed model turn" turnErr)
  end.

Definition observe (declarations : list ToolDeclaration) (s : loop_state) : body (ModelTurn * loop_state) :=
  let? s := refresh_context s in
  let? r := asking (ObserveThink
    {| ModelInput_TaskID := Input_TaskID input; ModelInput_RunID := Input_RunID input;
       ModelInput_Model := modelIdentity; ModelInput_Round := rounds s;
       ModelInput_RepositoryContext := contextItems s; ModelInput_Plan := plan s;
       ModelInput_FactualEvents := Input_FactualEvents input;
       ModelInput_ApprovedTools := declarations; ModelInput_PreviousResults := previousResults s |}) in
  match r with
  | Ok turn => going (turn, s)
  | Err turnErr => turn_failed turnErr s
  end.

(** Identity and accounting of a turn. *)
Definition account_turn (turn : ModelTurn) (s : loop_state) : body loop_state :=
  if negb (bool_decide (Turn_Model turn = modelIdentity)) then
    failing (malformed "fixed model identity changed")
  else if IsZero (Turn_ModelRequestID turn) then
    failing (malformed "model request identity is missing")
  else if bool_decide (Turn_ModelRequestID turn ∈ modelRequestIDs s) then
    failing (malformed "model request identity was reused across rounds")
  else
    let ids := {[ Turn_ModelRequestID turn ]} ∪ modelRequestIDs s in
    let s := set_accounts s ids (tokens s) (cost s) in
    match usageTokenCount unmarshal_counts (Turn_Usage turn) with
    | Err err => failing (join (Sentinel ErrAccountingUnknown) err)
    | Ok roundTokens =>
        if (MaximumTokensPerRound limits <? roundTokens)%Z then
          finish OutcomeLimitReached "agent per-round token limit reached" s
        else match addTokens (tokens s) roundTokens with
        | Err err => failing err
        | Ok total =>
            let s := set_accounts s ids total (cost s) in
            if (MaximumTokens limits <? total)%Z then
              finish OutcomeLimitReached "agent cumulative token limit reached" s
            else match cost_add (cost s) (Turn_Cost turn) with
            | Err err => failing (join (Sentinel ErrAccountingUnknown) err)
            | Ok spent =>
                let s := set_accounts s ids total spent in
                if cost_exceeds spent (MaximumCost limits) then
                  finish OutcomeLimitReached "agent cost limit reached" s
                else going s
            end
        end
    end.

Definition over_batched_text (err : error) : string :=
  "That turn asked for more tool calls than this round takes, so none of them ran. "
  +:+ Error err +:+ ". Send the first one now; the next round is for the one after it. Nothing you have written has been lost.".

Definition empty_turn_text (p : PlanProjection) : string :=
  "Your last turn produced no tool call this round could accept and said nothing, so nothing happened. A call naming a step that is already finished is discarded, which looks exactly like this. "
  +:+ openStepAdvice p
  +:+ " Call one of the tools listed in tools_you_may_call against one of those steps, or reply in plain text that the work is finished.".

(** What the loop does with a turn that does not validate: it answers it, a
    bounded number of times, or the run ends. *)
Definition answer_malformed (err : error) (s : loop_state) : body loop_state :=
  if Is err errTooManyCallsInATurn && (batchingRetries s <? maximumBatchingRetries)%Z then
    going (set_answered s
      [answer_feedback "" "none" "too many tool calls in one turn" (over_batched_text err)]
      (emptyTurnRetries s) (batchingRetries s + 1)%Z (outOfScopeRetries s)
      (unverifiedCompletionRefusals s))
  else if Is err errEmptyModelTurn && (emptyTurnRetries s <? maximumEmptyTurnRetries)%Z then
    going (set_answered s
      [answer_feedback "" "none" "that turn did nothing" (empty_turn_text (plan s))]
      (emptyTurnRetries s + 1)%Z (batchingRetries s) (outOfScopeRetries s)
      (unverifiedCompletionRefusals s))
  else failing err.

Definition unverified_text (s : loop_state) : string :=
  (if lastTestFailed s then
     "The last run of the tests did not pass, so what you are about to hand back is known to be broken."
   else
     "You have written files since the last time the tests ran, so nothing has checked what you are about to hand back.")
  +:+ " Run the tests now. If they pass, say the work is finished; if they do not, fix what they report first — a failure found here costs one round, and the same failure found after this attempt ends costs the whole attempt, because the work is put back to the last revision that passed.".

(** A declared completion: refused while the work is untested, or the end. *)
Definition complete_turn (turn : ModelTurn) (control : ControlState) (s : loop_state) : body loop_state :=
  if (writesSinceLastTest s || lastTestFailed s)
     && (unverifiedCompletionRefusals s <? maximumUnverifiedCompletionRefusals)%Z
     && toolCanStillBeCalled (plan s) ToolTest then
    going (set_answered s
      [answer_feedback "" ToolTest "the work is not finished yet" (unverified_text s)]
      (emptyTurnRetries s) (batchingRetries s) (outOfScopeRetries s)
      (unverifiedCompletionRefusals s + 1)%Z)
  else returning (Ok (completionOutcome (Turn_Completion turn) control (rounds s) (toolCalls s)
                        (tokens s) (cost_amount (cost s)) (plan s))).

(** *** A tool call *)

(** What a proposed call comes to before anything is asked for it. *)
Inductive resolved :=
| Refused (err : error)
| OutOfScope (feedback : ToolFeedback)
| Bound (tool : ApprovedTool) (decoded : decodedToolCall) (stepIndex : nat).

Definition step_at (s : loop_state) (index : nat) : option PlanStep := Plan_Steps (plan s) !! index.

Definition compatible_at (s : loop_state) (index : nat) (tool : ApprovedTool) : option error :=
  match step_at s index with
  | Some step => validateToolStepCompatibility step tool
  | None => None
  end.

(** The path check, and the correction of a mislabelled call. *)
Definition resolve_scope (s : loop_state) (tool : ApprovedTool) (decoded : decodedToolCall)
    (stepIndex : nat) : resolved :=
  match step_at s stepIndex ≫= fun step => validateToolStepPathScope step (decoded_request decoded) with
  | None => Bound tool decoded stepIndex
  | Some err =>
      match stepOwningPath (plan s) (decoded_request decoded) with
      | None =>
          if (outOfScopeRetries s <? maximumOutOfScopeRetries)%Z then
            OutOfScope (answer_feedback (ToolRequest_ID (decoded_request decoded))
              (ToolRequest_Name (decoded_request decoded)) "that file is not in this plan"
              (Error err +:+ ". " +:+ writableFilesAdvice (plan s)
               +:+ " Nothing was written. Send the same change against one of those files."))
          else Refused err
      | Some corrected =>
          match compatible_at s corrected tool with
          | Some err => Refused err
          | None => Bound tool decoded corrected
          end
      end
  end.

Definition resolve_call (approvedTools : gmap string ApprovedTool) (s : loop_state)
    (proposed : ModelToolCall) : resolved :=
  let call := ModelToolCall_Call proposed in
  if bool_decide (Call_ID call ∈ callIDs s) then Refused (malformed "tool-call ID was reused")
  else match approvedTools !! Call_Name call with
  | None => Refused (sentinel_text ErrUnknownTool (Quote (Call_Name call)))
  | Some tool =>
      match executableStepIndex (plan s) (ModelToolCall_PlanStepID proposed) with
      | Err err => Refused err
      | Ok stepIndex =>
          match compatible_at s stepIndex tool with
          | Some err => Refused err
          | None =>
              match decodeModelToolCall decodeStrictStringObject marshal_strings sha256_hex
                      (Input_TaskID input) (Input_RunID input) (Input_WorktreePath input)
                      modelIdentity tool call (ModelToolCall_PlanStepID proposed) with
              | Err err => Refused (join (Sentinel ErrMalformedModelTurn) err)
              | Ok decoded => resolve_scope s tool decoded stepIndex
              end
          end
      end
  end.

Definition authorize (request : ToolRequest) (s : loop_state) : body ToolAuthorization :=
  let? r := asking (RouteTool request) in
  match r with
  | Err err => failing err
  | Ok authorization =>
      match validateToolAuthorization sha256_hex request authorization
              (Input_PolicyRevision input) (Input_PolicySHA256 input) with
      | Some err => failing err
      | None =>
          let outcome := Classification_Outcome (Authorization_Classification authorization) in
          if outcome =? OutcomeApprovalRequired then
            finish OutcomeAwaitingApproval "tool action requires attributable approval" s
          else if outcome =? OutcomeDenied then
            finish OutcomePermissionDenied "tool action was denied by permission policy" s
          else going authorization
      end
  end.

Definition step_id (s : loop_state) (index : nat) : string := from_option Step_ID "" (step_at s index).
Definition step_state (s : loop_state) (index : nat) : StepState :=
  from_option Step_State "" (step_at s index).

Definition set_step_state (p : PlanProjection) (index : nat) (to : StepState) : PlanProjection :=
  {| Plan_Revision := Plan_Revision p; Plan_RepositoryRevision := Plan_RepositoryRevision p;
     Plan_Steps := alter (fun step => with_state step to) index (Plan_Steps p) |}.

Definition transitionStep (detached : bool) (s : loop_state) (index : nat) (to : StepState)
    (reason toolRequestID : string) (modelRequestID : ID) : body loop_state :=
  let from := step_state s index in
  if negb (stepTransitionAllowed from to) then
    failing (Sentinel "agent plan-step transition is invalid")
  else
    let? err := asking (PersistPlanStepTransition detached
      {| Transition_TaskID := Input_TaskID input; Transition_RunID := Input_RunID input;
         Transition_PlanRevision := Plan_Revision (plan s); Transition_PlanStepID := step_id s index;
         Transition_From := from; Transition_To := to; Transition_Reason := reason;
         Transition_ToolRequestID := toolRequestID; Transition_ModelRequestID := modelRequestID |}) in
    let? _ := must err in
    going (set_plan s (set_step_state (plan s) index to)).

Definition checkpoint (s : loop_state) (index : nat) (request : ToolRequest) (modelRequestID : ID)
    (trigger : CheckpointTrigger) (permission action reason : string) : CheckpointRequest :=
  {| Checkpoint_TaskID := Input_TaskID input; Checkpoint_RunID := Input_RunID input;
     Checkpoint_PlanRevision := Plan_Revision (plan s); Checkpoint_PlanStepID := step_id s index;
     Checkpoint_ToolRequestID := ToolRequest_ID request; Checkpoint_ModelRequestID := modelRequestID;
     Checkpoint_Round := rounds s; Checkpoint_Trigger := trigger;
     Checkpoint_PermissionID := permission; Checkpoint_ActionSHA256 := action;
     Checkpoint_Reason := reason |}.

(** From the authorization to the binding of the action: the durable start, a
    checkpoint before a risky action, the step in progress. *)
Definition begin_call (decoded : decodedToolCall) (index : nat) (authorization : ToolAuthorization)
    (modelRequestID : ID) (s : loop_state) : body loop_state :=
  let request := decoded_request decoded in
  let? err := asking (PersistToolStart
    {| Start_TaskID := Input_TaskID input; Start_RunID := Input_RunID input;
       Start_PlanRevision := Plan_Revision (plan s); Start_PlanStepID := step_id s index;
       Start_Round := rounds s; Start_RequestID := ToolRequest_ID request;
       Start_ModelRequestID := modelRequestID; Start_ToolName := ToolRequest_Name request;
       Start_ToolSchemaVersion := ToolRequest_SchemaVersion request;
       Start_ArgumentsRedactedJSON := decoded_redactedArguments decoded;
       Start_ArgumentsSHA256 := decoded_argumentsSHA256 decoded;
       Start_Authorization := authorization |}) in
  let? _ := must err in
  let required := RequiredAuthority request in
  let? _ :=
    if negb (required =? AuthorityAutomaticRead) && negb (required =? AuthorityTaskWrite) then
      let? err := asking (CreateCheckpoint (checkpoint s index request modelRequestID
        CheckpointBeforeRisky (Authorization_DecisionID authorization)
        (ActionSHA256 sha256_hex request) "before risky approved action")) in
      must err
    else going tt in
  let? s :=
    if step_state s index =? StepPending then
      transitionStep false s index StepInProgress "approved tool action began"
        (ToolRequest_ID request) modelRequestID
    else going s in
  let s := set_called s (ToolRequest_ID request) in
  let? _ := bind_action
    {| Action_Kind := ActionTool; Action_RequestID := ToolRequest_ID request;
       Action_SafeRead := RequiredAuthority request =? AuthorityAutomaticRead;
       Action_LongRunning := false |} s in
  going s.

(** The effect and its durable result. *)
Definition execute_call (decoded : decodedToolCall) (index : nat) (authorization : ToolAuthorization)
    (s : loop_state) : body ToolResult :=
  let request := decoded_request decoded in
  let? r := asking (ExecuteTool
    {| Authorized_Request := request;
       Authorized_Classification := Authorization_Classification authorization;
       Authorized_WorktreePath := Input_WorktreePath input |}) in
  let '(result, executeErr, actionContextErr) := r in
  let result := classifyToolExecutionResult result executeErr actionContextErr (ToolRequest_ID request) in
  match boundedToolResult result (ToolRequest_ID request) (MaximumResultBytes limits) with
  | Err err => failing err
  | Ok result =>
      let? err := asking (PersistToolResult
        {| Result_TaskID := Input_TaskID input; Result_RunID := Input_RunID input;
           Result_PlanRevision := Plan_Revision (plan s); Result_PlanStepID := step_id s index;
           Result_Round := rounds s; Result_RequestID := ToolRequest_ID request;
           Result_Result := result; Result_ResultSHA256 := sha256_hex (marshal_result result) |}) in
      let? _ := must err in
      going result
  end.

Definition succeeded (result : ToolResult) : bool := ToolResult_State result =? "succeeded".

(** What the result changes: the test flags, a checkpoint after a material
    edit, the step implemented. *)
Definition record_effect (tool : ApprovedTool) (decoded : decodedToolCall) (index : nat)
    (modelRequestID : ID) (result : ToolResult) (s : loop_state) : body loop_state :=
  let request := decoded_request decoded in
  let ok := succeeded result in
  let s := if ToolRequest_Name request =? ToolTest
           then set_tests s (negb ok && writesSinceLastTest s) (negb ok) (writesSinceContextRead s)
           else s in
  let? s :=
    if Tool_MaterialEdit tool && ok then
      let s := set_tests s true (lastTestFailed s) (writesSinceContextRead s + 1)%Z in
      let? err := asking (CreateCheckpoint (checkpoint s index request modelRequestID
        CheckpointMaterialEdit "" "" "material edit batch completed")) in
      let? _ := must err in
      going s
    else going s in
  if ok && negb (step_state s index =? StepImplemented) then
    transitionStep true s index StepImplemented "approved tool action completed the plan step"
      (ToolRequest_ID request) modelRequestID
  else going s.

(** How the call ends for the run: cancelled, repeated once too often, or on
    to the next. *)
Definition conclude_call (decoded : decodedToolCall) (result : ToolResult) (s : loop_state)
    : body loop_state :=
  if ToolResult_State result =? "cancelled" then
    let? _ := check_control true s in
    finish OutcomeCancelled "active tool action was cancelled" s
  else
    let? s :=
      if negb (succeeded result) then
        let fingerprint := failedActionFingerprint sha256_hex (decoded_request decoded) result in
        let count := (default 0 (failureCounts s !! fingerprint) + 1)%Z in
        let s := set_failures s (<[fingerprint := count]> (failureCounts s)) in
        if (MaximumIdenticalFailures limits <=? count)%Z then
          finish OutcomeAwaitingDirection
            "identical failed action repeated; user direction is required" s
        else going s
      else going s in
    let? _ := check_control false s in
    going s.

(** One proposed call; the second component is the round's results so far. *)
Definition tool_call (approvedTools : gmap string ApprovedTool) (turn : ModelTurn)
    (st : loop_state * list ToolFeedback) (proposed : ModelToolCall)
    : body (loop_state * list ToolFeedback) :=
  let '(s, currentResults) := st in
  if (MaximumToolCalls limits <=? toolCalls s)%Z then
    finish OutcomeLimitReached "agent tool-call limit reached" s
  else
    let? _ := check_control false s in
    match resolve_call approvedTools s proposed with
    | Refused err => failing err
    | OutOfScope feedback =>
        going (set_answered s (previousResults s) (emptyTurnRetries s) (batchingRetries s)
                 (outOfScopeRetries s + 1)%Z (unverifiedCompletionRefusals s),
               currentResults ++ [feedback])
    | Bound tool decoded index =>
        let? authorization := authorize (decoded_request decoded) s in
        let? s := begin_call decoded index authorization (Turn_ModelRequestID turn) s in
        let? result := execute_call decoded index authorization s in
        let? s := record_effect tool decoded index (Turn_ModelRequestID turn) result s in
        let currentResults := currentResults ++
          [toolFeedback result (ToolRequest_Name (decoded_request decoded))] in
        let? s := conclude_call decoded result s in
        going (s, currentResults)
    end.

(** *** A round *)

Definition act (approvedTools : gmap string ApprovedTool) (turn : ModelTurn) (s : loop_state)
    : body loop_state :=
  match validateModelTurn turn (MaximumToolCallsPerRound limits) with
  | Some err => answer_malformed err s
  | None =>
      let? control := check_control true s in
      if negb (Turn_Completion turn =? CompletionNone) then complete_turn turn control s
      else
        let? st := each (Turn_ToolCalls turn) (tool_call approvedTools turn) (s, []) in
        let '(s, currentResults) := st in
        going (set_answered s currentResults (emptyTurnRetries s) (batchingRetries s)
                 (outOfScopeRetries s) (unverifiedCompletionRefusals s))
  end.

Definition round (declarations : list ToolDeclaration) (approvedTools : gmap string ApprovedTool)
    (deadline : Z) (s : loop_state) : body loop_state :=
  let? now := asking Now in
  if negb (now <? deadline)%Z then
    finish OutcomeLimitReached "agent wall-clock limit reached" s
  else
    let? _ := check_control false s in
    let s := set_round s in
    let? _ := bind_action
      {| Action_Kind := ActionModel; Action_RequestID := "model-round-" +:+ fmt_d (rounds s);
         Action_SafeRead := false; Action_LongRunning := true |} s in
    let? ts := observe declarations s in
    let '(turn, s) := ts in
    let? s := account_turn turn s in
    act approvedTools turn s.

(** [for rounds < input.Limits.MaximumRounds]; [None] is running out of
    fuel. *)
Fixpoint rounds_loop (fuel : nat) (declarations : list ToolDeclaration)
    (approvedTools : gmap string ApprovedTool) (deadline : Z) (s : loop_state)
    : program answer (option returned) :=
  if (rounds s <? MaximumRounds limits)%Z then
    match fuel with
    | O => Ret None
    | S fuel =>
        bind (round declarations approvedTools deadline s) (fun x =>
          match x with
          | inl r => Ret (Some r)
          | inr s => rounds_loop fuel declarations approvedTools deadline s
          end)
    end
  else
    Ret (Some (Ok (finishLoopOutcome OutcomeLimitReached "agent round limit reached"
                     (rounds s) (toolCalls s) (tokens s) (cost_amount (cost s)) (plan s) true))).

Definition start_state (c : costAccumulator) : loop_state :=
  {| plan := Input_Plan input; contextItems := Input_RepositoryContext input;
     writesSinceContextRead := 0; rounds := 0; toolCalls := 0; tokens := 0; cost := c;
     previousResults := []; writesSinceLastTest := false; lastTestFailed := false;
     emptyTurnRetries := 0; batchingRetries := 0; outOfScopeRetries := 0;
     unverifiedCompletionRefusals := 0; failureCounts := ∅; callIDs := ∅; modelRequestIDs := ∅ |}.

(** [Run] before its loop, without the checks of the input. *)
Definition prepare_run (s : loop_state) : body Z :=
  let? started := asking Now in
  let? _ := check_control false s in
  let? err := asking (CreatePlanApprovedCheckpoint
    {| PlanApproved_TaskID := Input_TaskID input; PlanApproved_RunID := Input_RunID input;
       PlanApproved_PlanRevision := Plan_Revision (Input_Plan input);
       PlanApproved_ApprovalID := Input_PlanApprovalID input |}) in
  match err with
  | Some err => failing (text_cause "capture approved plan before execution" err)
  | None => going (started + MaximumWallClock limits)%Z
  end.

(** On a loop that is not [nil]. *)
Definition Run : program answer (option returned) :=
  match validateLoopInput input with
  | Some err => Ret (Some (Err err))
  | None =>
    match validateFixedModelIdentity modelIdentity with
    | Some err => Ret (Some (Err err))
    | None =>
      match buildToolDeclarations (Input_ApprovedTools input) with
      | Err err => Ret (Some (Err err))
      | Ok (declarations, approvedTools) =>
        match newCostAccumulator (MaximumCost limits) with
        | Err err => Ret (Some (Err err))
        | Ok c =>
            bind (prepare_run (start_state c)) (fun x =>
              match x with
              | inl r => Ret (Some r)
              | inr deadline =>
                  rounds_loop (Z.to_nat (MaximumRounds limits)) declarations approvedTools deadline
                    (start_state c)
              end)
        end
      end
    end
  end.
End Loop.
