(* ===== verification/AgentRules.v ===== *)
(** * The rule of an agent run

    What [Run] promises is said over the account of its calls: what control
    last allowed, what was routed and started, the tools executed with their
    recorded results, the plan-step transitions persisted and the model's
    turns. [may_call] is what the account must be at each call; [outcome_ok] is
    what it must be when the run returns. AgentFacts.v proves that every run
    follows both. *)

From Stdlib Require Import QArith.
From S2P Require Import Prelude GoText PolicyValues ProviderTypes GoErrors GoPath Ports Pricing.
From S2P Require Import ToolPolicy AgentTypes AgentPlan AgentLoop.
Open Scope string_scope.
Open Scope list_scope.
Open Scope Z_scope.

(** ** Accounts *)

(** The calls around a tool: each stage is forgotten when a tool has run, and
    the later ones when an action is routed. *)
Record call_log := {
  permitted : option ControlState;
  routed : option (ToolRequest * ToolAuthorization);
  started : option ToolStartRecord;
  guarded : option CheckpointRequest;
  bound : option ActionDescriptor;
  begun : Z;
  executed : list AuthorizedToolRequest;
  answered : option (ToolResult * option error * option error);
  recorded : list ToolResultRecord;
}.

(** The rounds opened, the requests to the model and the turns it answered,
    the latest first. *)
Record model_log := { opened : Z; asked : Z; turns : list ModelTurn }.

Record ledger := {
  calls : call_log;
  steps : list PlanStepTransition;
  model : model_log;
}.

Definition empty_ledger : ledger :=
  {| calls := {| permitted := None; routed := None; started := None; guarded := None; bound := None;
                 begun := 0; executed := []; answered := None; recorded := [] |};
     steps := []; model := {| opened := 0; asked := 0; turns := [] |} |}.

Definition ok_of {E A} (r : result E A) : option A :=
  match r with Ok a => Some a | Err _ => None end.

Definition with_calls (l : ledger) (c : call_log) : ledger :=
  {| calls := c; steps := steps l; model := model l |}.

Definition with_model (l : ledger) (m : model_log) : ledger :=
  {| calls := calls l; steps := steps l; model := m |}.

Definition set_permitted (c : call_log) (v : option ControlState) : call_log :=
  {| permitted := v; routed := routed c; started := started c; guarded := guarded c;
     bound := bound c; begun := begun c; executed := executed c; answered := answered c;
     recorded := recorded c |}.

(** *** What a call adds to the account *)
Definition note_bind (l : ledger) (a : ActionDescriptor) (err : option error) : ledger :=
  if (Action_Kind a =? ActionModel)%string then
    with_model l {| opened := opened (model l) + 1; asked := asked (model l); turns := turns (model l) |}
  else
    let c := calls l in
    with_calls l {| permitted := permitted c; routed := routed c; started := started c;
                    guarded := guarded c; bound := if is_nil err then Some a else None;
                    begun := begun c + 1; executed := executed c; answered := answered c;
     recorded := recorded c |}.

Definition note_think (l : ledger) (r : result error ModelTurn) : ledger :=
  {| calls := set_permitted (calls l) None; steps := steps l;
     model := {| opened := opened (model l); asked := asked (model l) + 1;
                 turns := match r with Ok t => t :: turns (model l) | Err _ => turns (model l) end |} |}.

Definition note_route (l : ledger) (request : ToolRequest) (r : result error ToolAuthorization)
    : ledger :=
  let c := calls l in
  with_calls l {| permitted := permitted c; routed := (request,.) <$> ok_of r; started := None;
                  guarded := None; bound := None; begun := begun c; executed := executed c;
                  answered := answered c; recorded := recorded c |}.

Definition note_start (l : ledger) (record : ToolStartRecord) (err : option error) : ledger :=
  let c := calls l in
  with_calls l {| permitted := permitted c; routed := routed c;
                  started := if is_nil err then Some record else None; guarded := guarded c;
                  bound := bound c; begun := begun c; executed := executed c; answered := answered c;
     recorded := recorded c |}.

Definition note_checkpoint (l : ledger) (request : CheckpointRequest) (err : option error) : ledger :=
  let c := calls l in
  with_calls l {| permitted := permitted c; routed := routed c; started := started c;
                  guarded := if is_nil err then Some request else None; bound := bound c;
                  begun := begun c; executed := executed c; answered := answered c;
     recorded := recorded c |}.

Definition note_execute (l : ledger) (request : AuthorizedToolRequest)
    (r : ToolResult * option error * option error) : ledger :=
  let c := calls l in
  with_calls l {| permitted := None; routed := None; started := None; guarded := None; bound := None;
                  begun := begun c; executed := request :: executed c; answered := Some r;
                  recorded := recorded c |}.

Definition note_result (l : ledger) (record : ToolResultRecord) (err : option error) : ledger :=
  let c := calls l in
  with_calls l {| permitted := permitted c; routed := routed c; started := started c;
                  guarded := guarded c; bound := bound c; begun := begun c; executed := executed c;
                  answered := None;
                  recorded := if is_nil err then record :: recorded c else recorded c |}.

Definition note_step (l : ledger) (t : PlanStepTransition) (err : option error) : ledger :=
  {| calls := calls l; steps := if is_nil err then t :: steps l else steps l; model := model l |}.

Definition note (l : ledger) (e : event answer) : ledger :=
  let 'existT p r := e in
  match p return answer p -> ledger with
  | ReadControl _ => fun r => with_calls l (set_permitted (calls l) (ok_of r))
  | BindActionContext a => note_bind l a
  | ObserveThink _ => note_think l
  | RouteTool request => note_route l request
  | PersistToolStart record => note_start l record
  | CreateCheckpoint request => note_checkpoint l request
  | PersistPlanStepTransition _ t => note_step l t
  | ExecuteTool request => note_execute l request
  | PersistToolResult record => note_result l record
  | _ => fun _ => l
  end r.

(** Of a history, the latest call first. *)
Fixpoint ledger_of (h : list (event answer)) : ledger :=
  match h with [] => empty_ledger | e :: h => note (ledger_of h) e end.

Definition executed_ids (l : ledger) : list string :=
  map (fun a => ToolRequest_ID (Authorized_Request a)) (executed (calls l)).

Definition recorded_ids (l : ledger) : list string := map Result_RequestID (recorded (calls l)).

(** Every effect has its result on record. *)
Definition settled (l : ledger) : Prop := executed_ids l = recorded_ids l.

(** ** The plan as the journal tells it *)

Definition apply_transition (t : PlanStepTransition) (p : PlanProjection) : PlanProjection :=
  {| Plan_Revision := Plan_Revision p; Plan_RepositoryRevision := Plan_RepositoryRevision p;
     Plan_Steps := map (fun step => if (Step_ID step =? Transition_PlanStepID t)%string
                                    then with_state step (Transition_To t) else step)
                     (Plan_Steps p) |}.

Definition replay (p : PlanProjection) (l : list PlanStepTransition) : PlanProjection :=
  foldr apply_transition p l.

(** A state of control in which nothing stops the run. *)
Definition allows (c : ControlState) : bool :=
  (Control_Disposition c =? ControlActive)%string && Control_PolicyCurrent c && Control_BudgetAvailable c.

Section Rule.
Context (sha256_hex : string -> string).
Context (unmarshal_counts : string -> option (gmap string Z)).
Context (modelIdentity : ModelIdentity) (input : LoopInput).

Abbreviation limits := (Input_Limits input).

Definition plan_of (l : ledger) : PlanProjection := replay (Input_Plan input) (steps l).

Definition step_named (l : ledger) (id : string) (step : PlanStep) : Prop :=
  step ∈ Plan_Steps (plan_of l) /\ Step_ID step = id.

(** *** Accounting *)

Definition turn_tokens (t : ModelTurn) : Z :=
  match usageTokenCount unmarshal_counts (Turn_Usage t) with Ok n => n | Err _ => 0 end.

Definition total_tokens (ts : list ModelTurn) : Z := foldr (fun t n => n + turn_tokens t) 0 ts.

Definition total_cost (ts : list ModelTurn) : Q :=
  foldr (fun t q => q + amount_value (Turn_Cost t))%Q 0%Q ts.

(** The turns are the fixed model's, each its own request, and what they used
    is known and within the limits. *)
Record affordable (ts : list ModelTurn) : Prop := {
  af_model : Forall (fun t => Turn_Model t = modelIdentity) ts;
  af_requests : NoDup (map Turn_ModelRequestID ts);
  af_known : Forall (fun t => exists n, usageTokenCount unmarshal_counts (Turn_Usage t) = Ok n /\
               n <= MaximumTokensPerRound limits) ts;
  af_tokens : total_tokens ts <= MaximumTokens limits;
  af_cost : (total_cost ts <= amount_value (MaximumCost limits))%Q;
}.

(** *** A tool call *)

Definition permits_now (l : ledger) : Prop :=
  exists c, permitted (calls l) = Some c /\ allows c = true.

(** The decision lets the action run, names it and the current policy. *)
Definition grants (r : ToolRequest) (auth : ToolAuthorization) : Prop :=
  Classification_Outcome (Authorization_Classification auth) ∈ [OutcomeAutomatic; OutcomeTaskScoped] /\
  Classification_ScopeHash (Authorization_Classification auth) = ActionSHA256 sha256_hex r /\
  Authorization_PolicyRevision auth = Input_PolicyRevision input /\
  Authorization_PolicySHA256 auth = Input_PolicySHA256 input.

(** The step a call is bound to lists the tool, and names the path of the call
    or the file its patch declares. *)
Definition names_target (step : PlanStep) (r : ToolRequest) : Prop :=
  one_of (Step_CompletionTools step) (ToolRequest_Name r) = true /\
  (stepKindRequiresExpectedFiles (Step_Kind step) = true ->
   exists path expected, requestArgument r "path" = Some path /\
     expected ∈ Step_ExpectedFiles step /\
     (path_in expected path = true \/ path_in expected (patchDeclaredTarget r) = true)).

Definition started_for (l : ledger) (r : ToolRequest) (auth : ToolAuthorization) : Prop :=
  exists rec step, started (calls l) = Some rec /\
    Start_RequestID rec = ToolRequest_ID r /\ Start_ToolName rec = ToolRequest_Name r /\
    Start_Authorization rec = auth /\
    step_named l (Start_PlanStepID rec) step /\ names_target step r.

(** Neither a read nor a write inside the task: a checkpoint comes first. *)
Definition risky (r : ToolRequest) : Prop :=
  RequiredAuthority r <> AuthorityAutomaticRead /\ RequiredAuthority r <> AuthorityTaskWrite.

Definition guarded_for (l : ledger) (r : ToolRequest) : Prop :=
  exists cp, guarded (calls l) = Some cp /\ Checkpoint_Trigger cp = CheckpointBeforeRisky /\
    Checkpoint_ToolRequestID cp = ToolRequest_ID r /\
    Checkpoint_ActionSHA256 cp = ActionSHA256 sha256_hex r.

(** What must have happened, since the tool before it ran, when a tool is
    executed. *)
Record authorized (l : ledger) (a : AuthorizedToolRequest) : Prop := {
  au_valid : ValidateToolRequest (Authorized_Request a) = None;
  au_control : permits_now l;
  au_granted : exists auth, routed (calls l) = Some (Authorized_Request a, auth) /\
    grants (Authorized_Request a) auth /\
    Authorized_Classification a = Authorization_Classification auth /\
    started_for l (Authorized_Request a) auth;
  au_guarded : risky (Authorized_Request a) -> guarded_for l (Authorized_Request a);
  au_bound : exists action, bound (calls l) = Some action /\
    Action_RequestID action = ToolRequest_ID (Authorized_Request a);
  au_fresh : ToolRequest_ID (Authorized_Request a) ∉ executed_ids l;
  au_room : Z.of_nat (length (executed (calls l))) < MaximumToolCalls limits;
}.

(** A transition is an edge of the step's machine from the state the journal
    gives; the step becomes implemented only by a recorded success. *)
Record lawful (l : ledger) (t : PlanStepTransition) : Prop := {
  la_step : exists step, step_named l (Transition_PlanStepID t) step /\
    Step_State step = Transition_From t;
  la_allowed : stepTransitionAllowed (Transition_From t) (Transition_To t) = true;
  la_reached : Transition_To t = StepInProgress \/
    Transition_To t = StepImplemented /\
    exists rec, head (recorded (calls l)) = Some rec /\
      Result_RequestID rec = Transition_ToolRequestID t /\
      ToolResult_State (Result_Result rec) = "succeeded"%string;
}.

(** *** A tool's result *)

(** A text as it is kept: the text made valid UTF-8, or the beginning of it. *)
Definition kept_of (text original : string) (cut : bool) : Prop :=
  exists rest, ToValidUTF8 original replacement_character = text +:+ rest /\ (cut = true <-> rest <> "").

(** The texts of a result, each kept, what was cut flagged. *)
Definition carries (summary stdout stderr : string) (stdout_cut stderr_cut : bool) (res : ToolResult)
    : Prop :=
  exists c1 c2 c3,
    kept_of (ToolResult_Summary res) summary c1 /\
    kept_of (ToolResult_StdoutRedacted res) stdout c2 /\
    kept_of (ToolResult_StderrRedacted res) stderr c3 /\
    ToolResult_StdoutTruncated res = stdout_cut || c1 || c2 /\
    ToolResult_StderrTruncated res = stderr_cut || c3.

(** A verdict: the state, the exit code and the two flags. *)
Definition verdict (res : ToolResult) : string * Z * bool * bool :=
  (ToolResult_State res, ToolResult_ExitCode res, ToolResult_TimedOut res, ToolResult_Cancelled res).

(** What may be recorded of a tool's answer. Without an error it is what the
    tool reported; with one, it is never a success: the deadline, the
    cancellation or an unknown outcome, with the output of the tool when its
    report can be trusted and none otherwise. *)
Record of_answer (requestID : string) (maximum : Z) (r : ToolResult * option error * option error)
    (res : ToolResult) : Prop := {
  oa_identity : ToolResult_RequestID res = requestID /\ ToolResult_SchemaVersion res = ToolSchemaVersion;
  oa_bound :
    Z.of_nat (String.length (ToolResult_Summary res) + String.length (ToolResult_StdoutRedacted res)
      + String.length (ToolResult_StderrRedacted res)) <= Z.max 0 maximum;
  oa_report :
    let '(tool, executeErr, contextErr) := r in
    let cause e := match executeErr with Some err => Is err e | None => false end || Is_opt contextErr e in
    match executeErr with
    | None =>
        verdict res = verdict tool /\ ToolResult_Executable res = ToolResult_Executable tool /\
        ToolResult_ResolvedExecutable res = ToolResult_ResolvedExecutable tool /\
        ToolResult_Duration res = ToolResult_Duration tool /\
        carries (ToolResult_Summary tool) (ToolResult_StdoutRedacted tool) (ToolResult_StderrRedacted tool)
          (ToolResult_StdoutTruncated tool) (ToolResult_StderrTruncated tool) res
    | Some _ =>
        (if cause DeadlineExceeded then verdict res = ("cancelled"%string, -1, true, false)
         else if cause Canceled then verdict res = ("cancelled"%string, -1, false, true)
         else verdict res = ("outcome-unknown"%string, -1, false, false) \/
              verdict res = verdict tool /\ ToolResult_State tool = "outcome-unknown"%string) /\
        exists summary,
          carries summary (ToolResult_StdoutRedacted tool) (ToolResult_StderrRedacted tool)
            (ToolResult_StdoutTruncated tool) (ToolResult_StderrTruncated tool) res \/
          carries summary "" "" false false res
    end;
}.

(** *** The rule *)

Definition may_call (l : ledger) (p : port) : Prop :=
  match p with
  | PersistToolResult rec =>
      exists a rest, executed (calls l) = a :: rest /\
        map (fun a => ToolRequest_ID (Authorized_Request a)) rest = recorded_ids l /\
        Result_TaskID rec = Input_TaskID input /\ Result_RunID rec = Input_RunID input /\
        Result_RequestID rec = ToolRequest_ID (Authorized_Request a) /\
        exists r, answered (calls l) = Some r /\
          of_answer (ToolRequest_ID (Authorized_Request a)) (MaximumResultBytes limits) r (Result_Result rec)
  | ObserveThink i =>
      settled l /\ permits_now l /\ ModelInput_Plan i = plan_of l /\
      ModelInput_Round i = opened (model l) /\ opened (model l) <= MaximumRounds limits /\
      asked (model l) < opened (model l) /\ affordable (turns (model l))
  | ExecuteTool a => settled l /\ authorized l a /\ affordable (turns (model l))
  | PersistPlanStepTransition _ t => settled l /\ lawful l t
  | _ => settled l
  end.

(** *** The end of a run *)

Record bounded (l : ledger) : Prop := {
  bo_asked : asked (model l) <= MaximumRounds limits;
  bo_executed : Z.of_nat (length (executed (calls l))) <= MaximumToolCalls limits;
}.

Definition complete (o : LoopOutcome) : Prop :=
  Outcome_Kind o = OutcomeImplementationComplete \/ Outcome_Kind o = OutcomeValidationComplete.

Record outcome_ok (o : LoopOutcome) (l : ledger) : Prop := {
  ou_plan : Outcome_Plan o = plan_of l;
  ou_rounds : Outcome_Rounds o = opened (model l);
  ou_round_limit : asked (model l) <= opened (model l) <= MaximumRounds limits;
  ou_calls : Outcome_ToolCalls o = begun (calls l);
  ou_call_limit : Z.of_nat (length (executed (calls l))) <= begun (calls l) <= MaximumToolCalls limits;
  ou_settled : settled l;
  ou_accounts : Outcome_Kind o <> OutcomeLimitReached ->
    affordable (turns (model l)) /\ Outcome_Tokens o = total_tokens (turns (model l)) /\
    Outcome_Cost o = amount_of_rat (Amount_Currency (MaximumCost limits)) (total_cost (turns (model l)));
  ou_complete : complete o -> permits_now l /\
    Forall (fun step => finished (Step_State step) = true) (Plan_Steps (plan_of l));
  ou_validated : Outcome_ValidationRequired o = false ->
    complete o /\
    (exists c, permitted (calls l) = Some c /\ Control_ValidationComplete c = true) /\
    Forall (fun step => Step_ValidationRequired step = true -> Step_State step = StepValidated)
      (Plan_Steps (plan_of l));
  ou_kind : Outcome_Kind o = OutcomeValidationComplete -> Outcome_ValidationRequired o = false;
}.

Definition ended (x : result error LoopOutcome) (l : ledger) : Prop :=
  bounded l /\ match x with Ok o => outcome_ok o l | Err _ => True end.
End Rule.
