(* ===== verification/AgentFacts.v ===== *)
(** * Every agent run follows its rule

    One lemma per stretch of [Run]: from an account that agrees with the
    loop's variables, its calls follow the rule and it leaves an account that
    agrees again, or the run ends as it may. *)

From Stdlib Require Import QArith.
From S2P Require Import Prelude GoText PolicyValues ProviderTypes GoErrors GoPath GoSearch Ports Pricing.
From S2P Require Import ToolPolicy AgentTypes AgentPlan AgentLoop AgentRules.
Open Scope string_scope.
Open Scope list_scope.
Open Scope Z_scope.

#[local] Arguments valid_disposition d : simpl never.
#[local] Arguments controlStopOutcome : simpl never.
#[local] Arguments Is : simpl never.
#[local] Arguments Is_opt : simpl never.

(** ** Plans *)

Lemma allows_spec c rounds calls tokens amount p :
  valid_disposition (Control_Disposition c) = true ->
  controlStopOutcome c rounds calls tokens amount p = None -> allows c = true.
Proof.
  unfold controlStopOutcome, allows, valid_disposition. intros Hv H. cbv zeta in H. if_cases H.
  apply one_of_spec in Hv. to_prop. split_and!; [|done|done]. set_solver.
Qed.

Lemma executable_from_lookup l index stepID i :
  executable_from l index stepID = Ok i ->
  exists k step, i = (index + k)%nat /\ l !! k = Some step /\ Step_ID step = stepID /\
    StepMayAcceptAnotherCall (Step_State step) = true.
Proof.
  revert index. induction l as [|step l IH]; intros index; [done|]. cbn [executable_from].
  destruct (Step_ID step =? stepID)%string eqn:Hid; cbn.
  - destruct (StepMayAcceptAnotherCall (Step_State step)) eqn:Hs; [|done]. intros [= <-].
    exists 0%nat, step. to_prop. rewrite Nat.add_0_r. done.
  - intros (k & st & -> & Hk & ?)%IH. exists (S k), st. split; [lia|done].
Qed.

Lemma elem_of_zip_seq {A} (l : list A) n i x :
  (i, x) ∈ zip (List.seq n (length l)) l -> l !! (i - n)%nat = Some x /\ (n <= i)%nat.
Proof.
  revert n. induction l as [|y l IH]; intros n; cbn; [by rewrite elem_of_nil|].
  rewrite elem_of_cons. intros [[= -> ->]|[H ?]%IH].
  - by rewrite Nat.sub_diag.
  - replace (i - n)%nat with (S (i - S n)) by lia. split; [done|lia].
Qed.

Lemma owners_lookup p path closed i :
  i ∈ owners p path closed ->
  exists step, Plan_Steps p !! i = Some step /\
    exists expected, expected ∈ Step_ExpectedFiles step /\ path_in expected path = true.
Proof.
  unfold owners. rewrite list_elem_of_omap. intros ([j step] & Hin & Hf). cbn in Hf.
  apply elem_of_zip_seq in Hin as [Hl _]. rewrite Nat.sub_0_r in Hl.
  if_cases Hf. injection Hf as ->. to_prop. exists step. split; [done|].
  destruct Hif as [_ Hex]. apply existsb_exists in Hex as (e & He & ?).
  exists e. by rewrite list_elem_of_In.
Qed.

Lemma owner_of_lookup p candidate i :
  owner_of p candidate = Some i ->
  exists step, Plan_Steps p !! i = Some step /\
    exists expected, expected ∈ Step_ExpectedFiles step /\ path_in expected candidate = true.
Proof.
  assert (forall closed j, stepOwningPathInState p candidate closed = Some j ->
    j ∈ owners p candidate closed) as Hin.
  { intros closed j. unfold stepOwningPathInState.
    destruct (owners p candidate closed) as [|k []]; [done| |done]. intros [= ->]. by left. }
  unfold owner_of. destruct (_ =? _)%string; [done|].
  destruct (stepOwningPathInState p candidate false) eqn:H; intros Hi;
    [injection Hi as ->|]; by eapply owners_lookup, Hin.
Qed.

Lemma stepOwningPath_lookup p r i :
  stepOwningPath p r = Some i ->
  exists step path expected, Plan_Steps p !! i = Some step /\
    requestArgument r "path" = Some path /\ expected ∈ Step_ExpectedFiles step /\
    (path_in expected path = true \/ path_in expected (patchDeclaredTarget r) = true).
Proof.
  unfold stepOwningPath. destruct (requestArgument r "path") as [path|]; [|done].
  destruct (owner_of p path) as [j|] eqn:H1.
  - intros [= ->]. apply owner_of_lookup in H1 as (step & ? & e & ? & ?).
    exists step, path, e. auto.
  - intros (step & ? & e & ? & ?)%owner_of_lookup. exists step, path, e. auto.
Qed.

Lemma validateToolStepPathScope_None step r :
  validateToolStepPathScope step r = None ->
  stepKindRequiresExpectedFiles (Step_Kind step) = true ->
  exists path expected, requestArgument r "path" = Some path /\
    expected ∈ Step_ExpectedFiles step /\ path_in expected path = true.
Proof.
  unfold validateToolStepPathScope. intros H Hk. rewrite Hk in H. cbn in H.
  destruct (requestArgument r "path") as [path|]; [|done].
  destruct (canonical path); [|done]. cbn in H.
  destruct (existsb _ _) eqn:Hex; [|done]. apply existsb_exists in Hex as (e & He & ?).
  exists path, e. by rewrite list_elem_of_In.
Qed.

(** What an accepted call is bound to. *)
Lemma resolve_scope_bound s tool decoded i0 tool' decoded' i step0 :
  step_at s i0 = Some step0 -> validateToolStepCompatibility step0 tool = None ->
  ToolRequest_Name (decoded_request decoded) = ToolDescriptor_Name (Tool_Descriptor tool) ->
  resolve_scope s tool decoded i0 = Bound tool' decoded' i ->
  tool' = tool /\ decoded' = decoded /\
  exists step, step_at s i = Some step /\ names_target step (decoded_request decoded) /\
    validateToolStepCompatibility step tool = None.
Proof.
  intros H0 Hc0 Hname. unfold resolve_scope. rewrite H0. cbn [mbind option_bind].
  assert (forall step, validateToolStepCompatibility step tool = None ->
    one_of (Step_CompletionTools step) (ToolRequest_Name (decoded_request decoded)) = true) as Hone.
  { intros step Hc. unfold validateToolStepCompatibility in Hc. cbv zeta in Hc. if_cases Hc.
    to_prop. by rewrite Hname. }
  destruct (validateToolStepPathScope step0 (decoded_request decoded)) as [err|] eqn:Hscope.
  - destruct (stepOwningPath _ _) as [j|] eqn:Hown; [|by destruct (_ <? _)].
    destruct (compatible_at s j tool) eqn:Hcomp; [done|]. intros [= <- <- <-].
    apply stepOwningPath_lookup in Hown as (step & path & e & Hl & Hp & He & Hin).
    do 2 (split; [done|]). exists step. unfold compatible_at, step_at in *. rewrite Hl in Hcomp |- *.
    split; [done|]. split; [|done]. split; [by apply Hone|]. intros _. eauto.
  - intros [= <- <- <-]. do 2 (split; [done|]). exists step0. split; [done|]. split; [|done].
    split; [by apply Hone|]. intros Hk.
    destruct (validateToolStepPathScope_None _ _ Hscope Hk) as (path & e & ? & ? & ?). eauto 10.
Qed.

(** Setting the state of the step at an index is setting it for its ID. *)
Lemma alter_named p i step to t :
  NoDup (map Step_ID (Plan_Steps p)) -> Plan_Steps p !! i = Some step ->
  Transition_PlanStepID t = Step_ID step -> Transition_To t = to ->
  set_step_state p i to = apply_transition t p.
Proof.
  intros Hnd Hi Hid <-. unfold set_step_state, apply_transition. f_equal. rewrite Hid.
  clear Hid. revert i Hi Hnd. generalize (Plan_Steps p) as l.
  induction l as [|x l IH]; intros [|i]; try done; cbn; intros Hl Hnd;
    apply NoDup_cons in Hnd as [Hx Hnd].
  - injection Hl as ->. rewrite String.eqb_refl. f_equal.
    rewrite <- (map_id l) at 1. apply map_ext_in. intros y Hy%list_elem_of_In.
    destruct (_ =? _)%string eqn:E; [|done]. to_prop. destruct Hx. rewrite <- E.
    apply list_elem_of_fmap. eauto.
  - destruct (Step_ID x =? Step_ID step)%string eqn:E.
    + to_prop. destruct Hx. rewrite E. apply list_elem_of_lookup_2 in Hl.
      apply list_elem_of_fmap. eauto.
    + f_equal. by apply IH.
Qed.

Lemma apply_transition_ids t p :
  map Step_ID (Plan_Steps (apply_transition t p)) = map Step_ID (Plan_Steps p).
Proof. cbn. rewrite map_map. apply map_ext. intros x. by destruct (_ =? _)%string. Qed.

Lemma validate_steps_ids seen l :
  validate_steps seen l = None ->
  NoDup (map Step_ID l) /\ forall id, id ∈ map Step_ID l -> id ∉ seen.
Proof.
  revert seen. induction l as [|x l IH]; intros seen H.
  { split; [constructor|]. by intros id ?%elem_of_nil. }
  cbn [validate_steps] in H. destruct (_ || _); [done|].
  apply err_seq_None in H as [_ H]. destruct (one_of seen (Step_ID x)) eqn:E; [done|].
  apply IH in H as [Hnd Hseen].
  assert (Step_ID x ∉ seen) as Hx.
  { intros Hin%one_of_spec. congruence. }
  split.
  - constructor; [|done]. intros Hin. apply (Hseen _ Hin). by left.
  - intros id [->|Hin]%elem_of_cons; [done|]. intros Hid. apply (Hseen _ Hin). by right.
Qed.

(** Between two states or accounts that differ where neither matters. *)
Ltac agree H := destruct H as [[? ? ? ? ? ? ? ? ?] []]; split; split; cbn; try done; try lia.

(** The guards before the last check of a validator that accepts. *)
Ltac guards H :=
  repeat match type of H with
  | (if ?c then Some _ else _) = None => let E := fresh "Hguard" in destruct c eqn:E; [discriminate H|]
  end.

Section Facts.
Context (sha256_hex : string -> string).
Context (decodeStrictStringObject : string -> result error (gmap string string)).
Context (marshal_strings : gmap string string -> string).
Context (marshal_result : ToolResult -> string).
Context (unmarshal_counts : string -> option (gmap string Z)).
Context (modelIdentity : ModelIdentity) (refreshes : bool).
Context (input : LoopInput).

Abbreviation limits := (Input_Limits input).
Abbreviation rule :=
  (fun h p => may_call sha256_hex unmarshal_counts modelIdentity input (ledger_of h) p).
Abbreviation ended := (ended unmarshal_counts modelIdentity input).
Abbreviation affordable := (affordable unmarshal_counts modelIdentity input).
Abbreviation resolve_call :=
  (resolve_call sha256_hex decodeStrictStringObject marshal_strings modelIdentity input).

Lemma decode_spec tool call stepID d :
  decodeModelToolCall decodeStrictStringObject marshal_strings sha256_hex (Input_TaskID input)
    (Input_RunID input) (Input_WorktreePath input) modelIdentity tool call stepID = Ok d ->
  ToolRequest_ID (decoded_request d) = Call_ID call /\
  ToolRequest_Name (decoded_request d) = ToolDescriptor_Name (Tool_Descriptor tool) /\
  ValidateToolRequest (decoded_request d) = None.
Proof.
  unfold decodeModelToolCall. destruct (negb _); [done|]. destruct (negb _); [done|].
  destruct (decodeStrictStringObject _) as [|values]; [done|].
  intros (s & _ & H)%bind_Ok. destruct (negb _); [done|]. cbv zeta in H.
  destruct (longer_than _ _); [done|]. apply err_guard_Ok in H as [Hv H]. injection H as <-. done.
Qed.

Lemma resolve_call_bound approved s proposed tool decoded i :
  resolve_call approved s proposed = Bound tool decoded i ->
  let r := decoded_request decoded in
  (ToolRequest_ID r ∉ callIDs s) /\ ValidateToolRequest r = None /\
  exists step, step_at s i = Some step /\ names_target step r.
Proof.
  intros H r. unfold AgentLoop.resolve_call in H. cbv zeta in H.
  destruct (bool_decide _) eqn:Hid; [done|]. apply bool_decide_eq_false in Hid.
  destruct (approved !! _) as [tool0|]; [|done].
  destruct (executableStepIndex _ _) as [|i0] eqn:Hi0; [done|].
  unfold executableStepIndex in Hi0. destruct (_ || _); [done|].
  apply executable_from_lookup in Hi0 as (k & step0 & -> & Hk & _). cbn in H.
  destruct (compatible_at s k tool0) eqn:Hc; [done|].
  destruct (decodeModelToolCall _ _ _ _ _ _ _ _ _ _) as [|d] eqn:Hd; [done|].
  apply decode_spec in Hd as (Hcid & Hname & Hv).
  unfold compatible_at in Hc. unfold step_at in Hc. rewrite Hk in Hc.
  destruct (resolve_scope_bound s tool0 d k _ _ _ step0 Hk Hc Hname H)
    as (-> & -> & step & Hs & Hn & _).
  subst r. rewrite Hcid. eauto.
Qed.

(** ** The loop's variables and the account *)

(** The accounting of the turns [ts]. *)
Record accounted (ts : list ModelTurn) (s : loop_state) : Prop := {
  ac_affordable : affordable ts;
  ac_tokens : tokens s = total_tokens unmarshal_counts ts;
  ac_cost : cost s = {| cost_currency := Amount_Currency (MaximumCost limits);
                        cost_value := total_cost ts; cost_accumulator_known := true |};
  ac_requests : forall id, id ∈ map Turn_ModelRequestID ts -> id ∈ modelRequestIDs s;
}.

Section Walk.
(** Rounds the loop has opened at least. *)
Context (floor : Z).

Record core (s : loop_state) (l : ledger) : Prop := {
  ag_plan : plan s = plan_of input l;
  ag_ids : NoDup (map Step_ID (Plan_Steps (plan s)));
  ag_rounds : rounds s = opened (model l);
  ag_asked : asked (model l) <= opened (model l) <= MaximumRounds limits;
  ag_calls : toolCalls s = begun (calls l);
  ag_limit : Z.of_nat (length (executed (calls l))) <= begun (calls l) <= MaximumToolCalls limits;
  ag_settled : settled l;
  ag_called : forall id, id ∈ executed_ids l -> id ∈ callIDs s;
  ag_floor : floor <= rounds s;
}.

Record agrees (ts : list ModelTurn) (s : loop_state) (l : ledger) : Prop := {
  ag_core : core s l;
  ag_accounts : accounted ts s;
}.

Abbreviation synced s l := (agrees (turns (model l)) s l).

Definition permit (l : ledger) (c : option ControlState) : ledger :=
  with_calls l (set_permitted (calls l) c).

Lemma agrees_bounded ts s l : agrees ts s l -> bounded input l.
Proof. intros [[] _]. split; lia. Qed.

Lemma agrees_permit ts s l c : agrees ts s l -> agrees ts s (permit l c).
Proof. intros Ha. by agree Ha. Qed.

Definition ends {A} (Q : result error LoopOutcome + A -> list (event answer) -> Prop) : Prop :=
  forall x h, ended x (ledger_of h) -> Q (inl x) h.

Lemma failing_obeys {A} err ts s h (Q : _ + A -> _) :
  agrees ts s (ledger_of h) -> ends Q -> obeys rule (failing err) h Q.
Proof. intros Ha HQ. apply HQ. split; [by eapply agrees_bounded|done]. Qed.

(** An outcome that claims nothing. *)
Lemma finish_ended s l kind reason :
  core s l -> kind = OutcomeLimitReached \/ accounted (turns (model l)) s ->
  kind <> OutcomeImplementationComplete -> kind <> OutcomeValidationComplete ->
  ended (Ok (finishLoopOutcome kind reason (rounds s) (toolCalls s) (tokens s)
               (cost_amount (cost s)) (plan s) true)) l.
Proof.
  intros [] Hts H1 H2. split; [split; lia|].
  split; cbn; try done; try lia.
  - intros Hk. destruct Hts as [|[? ? Hc]]; [done|]. rewrite Hc. done.
  - intros [?|?]; done.
Qed.

Lemma finish_obeys {A} kind reason s h (Q : _ + A -> _) :
  core s (ledger_of h) ->
  kind = OutcomeLimitReached \/ accounted (turns (model (ledger_of h))) s ->
  kind <> OutcomeImplementationComplete -> kind <> OutcomeValidationComplete ->
  ends Q -> obeys rule (finish kind reason s) h Q.
Proof. intros. apply H3. by eapply finish_ended. Qed.

Lemma stop_outcome_ended s l c o :
  synced s l ->
  controlStopOutcome c (rounds s) (toolCalls s) (tokens s) (cost_amount (cost s)) (plan s) = Some o ->
  ended (Ok o) l.
Proof.
  intros Ha H. unfold controlStopOutcome in H. cbv zeta in H.
  if_cases H; injection H as <-; (destruct Ha; apply finish_ended; auto; done).
Qed.

(** ** Control *)

Lemma readControl_obeys detached ts s h Q :
  agrees ts s (ledger_of h) -> ends Q ->
  (forall c h', ledger_of h' = permit (ledger_of h) (Some c) ->
     valid_disposition (Control_Disposition c) = true -> Q (inr c) h') ->
  obeys rule (readControl detached) h Q.
Proof.
  intros Ha He HQ. cbn. split; [apply Ha|]. intros r.
  assert (agrees ts s (ledger_of (called (ReadControl detached) r :: h))) as Ha'.
  { by apply agrees_permit. }
  destruct r as [err|c]; cbn; [by eapply failing_obeys|].
  destruct (valid_disposition _) eqn:Hv; cbn; [by apply HQ|by eapply failing_obeys].
Qed.

Lemma stop_on_obeys c s h Q :
  synced s (ledger_of h) -> ends Q -> valid_disposition (Control_Disposition c) = true ->
  (allows c = true -> Q (inr tt) h) -> obeys rule (stop_on c s) h Q.
Proof.
  intros Ha He Hv HQ. unfold stop_on.
  destruct (controlStopOutcome _ _ _ _ _ _) as [o|] eqn:Ho; cbn.
  - apply He. by eapply stop_outcome_ended.
  - apply HQ. by eapply allows_spec.
Qed.

Lemma check_control_obeys detached s h Q :
  synced s (ledger_of h) -> ends Q ->
  (forall c h', ledger_of h' = permit (ledger_of h) (Some c) -> allows c = true -> Q (inr c) h') ->
  obeys rule (check_control detached s) h Q.
Proof.
  intros Ha He HQ. unfold check_control. apply obeys_seq.
  eapply readControl_obeys; [done|done|]. intros c h' Hh' Hv.
  apply obeys_seq, stop_on_obeys; [rewrite Hh'; by apply agrees_permit|done|done|].
  intros Hc. by apply HQ.
Qed.

(** [s] already counts the action the call binds. *)
Lemma bind_action_obeys action s h Q :
  settled (ledger_of h) -> (forall err, synced s (note_bind (ledger_of h) action err)) -> ends Q ->
  (forall h', ledger_of h' = note_bind (ledger_of h) action None -> Q (inr tt) h') ->
  obeys rule (bind_action action s) h Q.
Proof.
  intros Hs Ha He HQ. apply obeys_asking; [done|]. intros [err|]; [|by apply HQ].
  assert (synced s (ledger_of (called (BindActionContext action) (Some err) :: h))) as Ha' by apply Ha.
  destruct (Is err ErrActionBlocked); [|by eapply failing_obeys].
  apply obeys_seq, check_control_obeys; [done|done|]. intros c h' Hh' _.
  eapply failing_obeys; [|done]. rewrite Hh'. apply agrees_permit, Ha'.
Qed.

(** ** The model's turn *)

Lemma turn_failed_obeys {A} err s h (Q : _ + A -> _) :
  synced s (ledger_of h) -> ends Q -> obeys rule (turn_failed err s) h Q.
Proof.
  intros Ha He. apply obeys_asking; [apply Ha|]. intros r.
  assert (synced s (ledger_of (called (ReadControl true) r :: h))) as Ha'.
  { by apply agrees_permit. }
  unfold validated_control. destruct r as [cerr|c]; [by eapply failing_obeys|].
  destruct (valid_disposition _) eqn:Hv; [|by eapply failing_obeys].
  apply obeys_seq, stop_on_obeys; [done|done|done|]. intros _.
  apply obeys_asking; [apply Ha'|]. intros ctxErr.
  assert (synced s (ledger_of (called CtxErr ctxErr :: called (ReadControl true) (Ok c) :: h)))
    as Ha2 by exact Ha'.
  destruct (_ || _); [destruct Ha2; apply finish_obeys; auto; done|].
  destruct (Is _ _); [destruct Ha2; apply finish_obeys; auto; done|by eapply failing_obeys].
Qed.

Lemma observe_obeys declarations s h Q :
  synced s (ledger_of h) -> permits_now (ledger_of h) ->
  asked (model (ledger_of h)) < opened (model (ledger_of h)) -> ends Q ->
  (forall turn s' h', turns (model (ledger_of h')) = turn :: turns (model (ledger_of h)) ->
     agrees (turns (model (ledger_of h))) s' (ledger_of h') -> Q (inr (turn, s')) h') ->
  obeys rule (observe modelIdentity refreshes input declarations s) h Q.
Proof.
  intros Ha Hp Hlt He HQ. unfold observe. apply obeys_seq.
  assert (forall s' h', synced s' (ledger_of h) -> ledger_of h' = ledger_of h ->
    obeys rule (let? r := asking (ObserveThink
      {| ModelInput_TaskID := Input_TaskID input; ModelInput_RunID := Input_RunID input;
         ModelInput_Model := modelIdentity; ModelInput_Round := rounds s';
         ModelInput_RepositoryContext := contextItems s'; ModelInput_Plan := plan s';
         ModelInput_FactualEvents := Input_FactualEvents input;
         ModelInput_ApprovedTools := declarations; ModelInput_PreviousResults := previousResults s' |}) in
      match r with Ok turn => going (turn, s') | Err turnErr => turn_failed turnErr s' end) h' Q) as Hask.
  { intros s' h' Ha' Hh'. apply obeys_asking.
    { rewrite Hh'. destruct Ha' as [[] []]. split_and!; try done; lia. }
    intros r. match goal with |- obeys _ _ ?e _ => set (h1 := e) end.
    assert (ledger_of h1 = note_think (ledger_of h) r) as Hh1 by (cbn; by rewrite Hh').
    assert (agrees (turns (model (ledger_of h))) s' (ledger_of h1)) as Ha1.
    { rewrite Hh1. by agree Ha'. }
    destruct r as [err|turn].
    - apply turn_failed_obeys; [|done]. rewrite Hh1 in *. exact Ha1.
    - apply HQ; [|done]. by rewrite Hh1. }
  unfold refresh_context. destruct (_ && _).
  - apply obeys_asking; [apply Ha|]. intros fresh. apply Hask; [|done]. by agree Ha.
  - by apply Hask.
Qed.

(** Accounting for a turn makes no call. *)
Lemma account_turn_obeys turn s h ts Q :
  turns (model (ledger_of h)) = turn :: ts -> agrees ts s (ledger_of h) -> ends Q ->
  (forall s', synced s' (ledger_of h) -> Q (inr s') h) ->
  obeys rule (account_turn unmarshal_counts modelIdentity input turn s) h Q.
Proof.
  intros Hts Ha He HQ. unfold account_turn.
  destruct (bool_decide (Turn_Model turn = modelIdentity)) eqn:Hm; cbn [negb];
    [|by eapply failing_obeys].
  destruct (IsZero _); [by eapply failing_obeys|].
  destruct (bool_decide (_ ∈ _)) eqn:Hid; [by eapply failing_obeys|]. to_prop.
  destruct (usageTokenCount _ _) as [err|n] eqn:Hn; [by eapply failing_obeys|].
  destruct Ha as [Hcore [[Haf1 Haf2 Haf3 Haf4 Haf5] Htok Hcost Hreq]].
  assert (forall ids t c, core (set_accounts s ids t c) (ledger_of h)) as Hset.
  { intros. destruct Hcore. by split. }
  assert (forall err, obeys rule (failing err) h Q) as Hfail.
  { intros err. apply He. destruct Hcore. split; [split; lia|done]. }
  assert (forall reason ids t c,
    obeys rule (finish OutcomeLimitReached reason (set_accounts s ids t c)) h Q) as Hlim.
  { intros. apply finish_obeys; auto; done. }
  destruct (Z.ltb_spec (MaximumTokensPerRound limits) n) as [|Hround]; [apply Hlim|].
  unfold addTokens. destruct (_ <? n); [apply Hfail|]. cbn [tokens set_accounts].
  destruct (Z.ltb_spec (MaximumTokens limits) (tokens s + n)) as [|Htotal]; [apply Hlim|].
  destruct (cost_add _ _) as [err|spent] eqn:Hc; [apply Hfail|].
  destruct (cost_exceeds spent _) eqn:Hx; [apply Hlim|]. apply HQ.
  unfold cost_add in Hc. cbn [cost set_accounts] in Hc. rewrite Hcost in Hc. cbn in Hc. if_cases Hc.
  injection Hc as <-. unfold cost_exceeds in Hx. cbn in Hx. to_prop. rewrite Qle_bool_iff in Hx.
  assert (turn_tokens unmarshal_counts turn = n) as Htt by (unfold turn_tokens; by rewrite Hn).
  split; [apply Hset|]. rewrite Hts. split; cbn.
  - split; cbn.
    + by constructor.
    + constructor; [|done]. intros Hin. by apply Hid, Hreq.
    + constructor; eauto.
    + unfold total_tokens in Htok. rewrite Htt, <- Htok. lia.
    + done.
  - unfold total_tokens in Htok. by rewrite Htt, <- Htok.
  - done.
  - intros id. rewrite elem_of_cons. intros [->|Hin]; [set_solver|]. apply Hreq in Hin. set_solver.
Qed.

(** ** A tool call *)

Lemma authorize_obeys r s h Q :
  synced s (ledger_of h) -> ends Q ->
  (forall auth h', ledger_of h' = note_route (ledger_of h) r (Ok auth) ->
     grants sha256_hex input r auth -> Q (inr auth) h') ->
  obeys rule (authorize sha256_hex input r s) h Q.
Proof.
  intros Ha He HQ. apply obeys_asking; [apply Ha|]. intros x.
  assert (synced s (ledger_of (called (RouteTool r) x :: h))) as Ha' by (agree Ha).
  destruct x as [err|auth]; [by eapply failing_obeys|].
  destruct (validateToolAuthorization _ _ _ _ _) eqn:Hv; [by eapply failing_obeys|].
  unfold validateToolAuthorization in Hv. cbv zeta in Hv |- *. if_cases Hv. to_prop.
  destruct (_ =? OutcomeApprovalRequired)%string eqn:Hap; [destruct Ha'; apply finish_obeys; auto; done|].
  destruct (_ =? OutcomeDenied)%string eqn:Hde; [destruct Ha'; apply finish_obeys; auto; done|].
  to_prop. apply HQ; [done|]. rewrite one_of_spec in Hif. split_and!; [set_solver|tauto..].
Qed.

(** A step after its state changed. *)
Lemma step_at_set_step s i step to :
  step_at s i = Some step ->
  step_at (set_plan s (set_step_state (plan s) i to)) i = Some (with_state step to).
Proof. unfold step_at. cbn. intros H. by rewrite list_lookup_alter_eq, H. Qed.

Lemma step_named_at s l ts i step :
  agrees ts s l -> step_at s i = Some step -> step_named input l (Step_ID step) step.
Proof.
  intros [[Hp]]. unfold step_at. rewrite Hp. intros Hi%list_elem_of_lookup_2. by split.
Qed.

Lemma transitionStep_obeys detached s i step to reason request modelRequest h Q :
  synced s (ledger_of h) -> ends Q -> step_at s i = Some step ->
  (to = StepInProgress \/ to = StepImplemented /\
    exists rec, head (recorded (calls (ledger_of h))) = Some rec /\
      Result_RequestID rec = request /\ ToolResult_State (Result_Result rec) = "succeeded"%string) ->
  (forall t h', let s' := set_plan s (set_step_state (plan s) i to) in
     ledger_of h' = note_step (ledger_of h) t None -> synced s' (ledger_of h') -> Q (inr s') h') ->
  obeys rule (transitionStep input detached s i to reason request modelRequest) h Q.
Proof.
  intros Ha He Hi Hto HQ. unfold transitionStep, step_state, step_id. rewrite Hi. cbn [from_option].
  destruct (stepTransitionAllowed _ _) eqn:Hal; [|by eapply failing_obeys]. cbn [negb].
  pose proof (step_named_at _ _ _ _ _ Ha Hi) as Hn.
  match goal with |- context [PersistPlanStepTransition _ ?x] => set (t := x) end.
  pose proof (alter_named (plan s) i step to t ltac:(apply Ha) Hi eq_refl eq_refl) as Heq.
  apply obeys_asking.
  { split; [apply Ha|]. split; cbn; eauto. }
  intros [err|].
  - eapply (failing_obeys _ _ s); [|done]. agree Ha.
  - apply (HQ t); [done|]. rewrite Heq. destruct Ha as [[Hp Hids ? ? ? ? ? ? ?] []]. split; split; try done.
    + cbn [plan set_plan]. by rewrite Hp.
    + cbn [plan set_plan]. by rewrite apply_transition_ids.
Qed.

(** A call that was routed and may go on: the step at its index lists it. *)
Record ready (r : ToolRequest) (auth : ToolAuthorization) (i : nat) (s : loop_state) (l : ledger)
    : Prop := {
  rd_synced : synced s l;
  rd_permitted : permits_now l;
  rd_routed : routed (calls l) = Some (r, auth);
  rd_grants : grants sha256_hex input r auth;
  rd_valid : ValidateToolRequest r = None;
  rd_step : exists step, step_at s i = Some step /\ names_target step r;
  rd_room : toolCalls s < MaximumToolCalls limits;
  rd_fresh : ToolRequest_ID r ∉ callIDs s;
}.

Definition begun_as (r : ToolRequest) (auth : ToolAuthorization) (i : nat) (s : loop_state) (l : ledger)
    : Prop :=
  exists rec, started (calls l) = Some rec /\ Start_RequestID rec = ToolRequest_ID r /\
    Start_ToolName rec = ToolRequest_Name r /\ Start_Authorization rec = auth /\
    Start_PlanStepID rec = step_id s i.

Lemma risky_checkpoint_obeys r auth i s m h Q :
  ready r auth i s (ledger_of h) -> begun_as r auth i s (ledger_of h) -> ends Q ->
  (forall h', ready r auth i s (ledger_of h') -> begun_as r auth i s (ledger_of h') ->
     (risky r -> guarded_for sha256_hex (ledger_of h') r) -> Q (inr tt) h') ->
  obeys rule
    (if negb (RequiredAuthority r =? AuthorityAutomaticRead)%string
        && negb (RequiredAuthority r =? AuthorityTaskWrite)%string then
       let? err := asking (CreateCheckpoint (checkpoint input s i r m CheckpointBeforeRisky
         (Authorization_DecisionID auth) (ActionSHA256 sha256_hex r)
         "before risky approved action"%string)) in
       must err
     else going tt) h Q.
Proof.
  intros Hr Hb He HQ. destruct (_ && _) eqn:Hrisk.
  - apply obeys_asking; [apply Hr|]. intros err.
    assert (forall h', ledger_of h' = note_checkpoint (ledger_of h) (checkpoint input s i r m
      CheckpointBeforeRisky (Authorization_DecisionID auth) (ActionSHA256 sha256_hex r)
      "before risky approved action"%string) err -> synced s (ledger_of h')) as Ha.
    { intros h' ->. destruct Hr as [Ha]. agree Ha. }
    destruct err as [err|]; [eapply failing_obeys; [by apply Ha|done]|]. apply HQ; [|done|].
    + destruct Hr. split; try done. by apply Ha.
    + intros _. eexists. split; [done|]. done.
  - apply HQ; [done|done|]. intros [? ?]. to_prop. tauto.
Qed.

Lemma step_begins_obeys r auth i s m h Q :
  ready r auth i s (ledger_of h) -> begun_as r auth i s (ledger_of h) ->
  (risky r -> guarded_for sha256_hex (ledger_of h) r) -> ends Q ->
  (forall s' h', ready r auth i s' (ledger_of h') -> begun_as r auth i s' (ledger_of h') ->
     (risky r -> guarded_for sha256_hex (ledger_of h') r) -> Q (inr s') h') ->
  obeys rule
    (if (step_state s i =? StepPending)%string then
       transitionStep input false s i StepInProgress "approved tool action began"
         (ToolRequest_ID r) m
     else going s) h Q.
Proof.
  intros Hr Hb Hg He HQ. destruct (_ =? _)%string; [|by apply HQ].
  destruct (rd_step _ _ _ _ _ Hr) as (step & Hi & Hn).
  eapply transitionStep_obeys; [apply Hr|done|done|by left|]. cbv zeta. intros t h' Hh' Ha'.
  pose proof (step_at_set_step s i step StepInProgress Hi) as Hi'.
  rewrite Hh' in Ha'. apply HQ; rewrite Hh'; [| |done].
  - destruct Hr. split; try done. eauto.
  - destruct Hb as (rec & ? & ? & ? & ? & Hid). exists rec. split_and!; try done.
    unfold step_id in *. rewrite Hi' , Hi in *. done.
Qed.

Definition authorized_request (r : ToolRequest) (auth : ToolAuthorization) : AuthorizedToolRequest :=
  {| Authorized_Request := r; Authorized_Classification := Authorization_Classification auth;
     Authorized_WorktreePath := Input_WorktreePath input |}.

(** A call that may be executed next. *)
Record launched (r : ToolRequest) (auth : ToolAuthorization) (i : nat) (s : loop_state) (l : ledger)
    : Prop := {
  lc_synced : synced s l;
  lc_authorized : authorized sha256_hex input l (authorized_request r auth);
  lc_called : ToolRequest_ID r ∈ callIDs s;
  lc_begun : Z.of_nat (length (executed (calls l))) < begun (calls l);
  lc_step : is_Some (step_at s i);
}.

Lemma ready_launched r auth i s l action :
  ready r auth i s l -> begun_as r auth i s l -> (risky r -> guarded_for sha256_hex l r) ->
  Action_Kind action = ActionTool -> Action_RequestID action = ToolRequest_ID r ->
  launched r auth i (set_called s (ToolRequest_ID r)) (note_bind l action None).
Proof.
  intros Hr Hb Hg Hk Hid. unfold note_bind. rewrite Hk. cbn [String.eqb].
  destruct Hr as [Ha Hp Hro Hgr Hv (step & Hi & Hn) Hroom Hfresh].
  destruct Hb as (rec & Hst & Hrid & Hrn & Hra & Hrs). unfold step_id in Hrs. rewrite Hi in Hrs.
  pose proof (step_named_at _ _ _ _ _ Ha Hi) as Hnamed.
  assert (ToolRequest_ID r ∉ executed_ids l) as Hnew.
  { intros Hin. by apply Hfresh, (ag_called _ _ (ag_core _ _ _ Ha)). }
  split; cbn.
  - agree Ha. intros id Hin. apply ag_called0 in Hin. set_solver.
  - destruct Ha as [[]]. split; cbn; try done; try lia; [|eauto].
    exists auth. split_and!; try done. exists rec, step. rewrite Hrs. done.
  - set_solver.
  - destruct Ha as [[]]. lia.
  - by exists step.
Qed.

Lemma begin_call_obeys decoded i auth m s h Q :
  let r := decoded_request decoded in
  ready r auth i s (ledger_of h) -> ends Q ->
  (forall s' h', launched r auth i s' (ledger_of h') -> Q (inr s') h') ->
  obeys rule (begin_call sha256_hex input decoded i auth m s) h Q.
Proof.
  intros r Hr He HQ. apply obeys_asking; [apply Hr|]. fold r. intros err.
  match goal with |- obeys _ _ ?e _ => set (h1 := e) end.
  assert (synced s (ledger_of h1)) as Ha1.
  { destruct Hr as [Ha]. agree Ha. }
  destruct err as [err|]; [by eapply failing_obeys|].
  assert (ready r auth i s (ledger_of h1)) as Hr1 by (destruct Hr; by split).
  assert (begun_as r auth i s (ledger_of h1)) as Hb1 by (eexists; split; [done|done]).
  apply (obeys_seq _ (going tt)). cbn [obeys going].
  apply obeys_seq. eapply risky_checkpoint_obeys; [done|done|done|]. intros h2 Hr2 Hb2 Hg2.
  apply obeys_seq. eapply step_begins_obeys; [done..|]. intros s3 h3 Hr3 Hb3 Hg3.
  apply obeys_seq, bind_action_obeys; [apply Hr3| |done|].
  - intros err.
    match goal with |- context [note_bind _ ?a _] =>
      destruct (ready_launched _ _ _ _ _ a Hr3 Hb3 Hg3 eq_refl eq_refl) as [Ha _ _ _ _] end.
    agree Ha.
  - intros h4 Hh4. apply HQ. rewrite Hh4. by apply ready_launched.
Qed.

(** *** A result is what the tool answered *)

Lemma rune_boundary_le value n : (rune_boundary value n <= n)%nat.
Proof.
  induction n as [|n IH]; [done|]. cbn [rune_boundary]. destruct (String.get _ _); [|lia].
  destruct (RuneStart _); lia.
Qed.

Lemma boundText_kept original remaining flag text remaining' flag' :
  boundText original remaining flag = (text, remaining', flag') ->
  exists cut, kept_of text original cut /\ flag' = flag || cut /\
    Z.of_nat (String.length text) + Z.max 0 remaining' <= Z.max 0 remaining.
Proof.
  unfold boundText, kept_of. set (v := ToValidUTF8 _ _). destruct (remaining <=? 0) eqn:E1; to_prop.
  { intros [= <- <- <-]. exists (negb (v =? "")%string). split_and!; [|done|cbn; lia].
    exists v. split; [done|]. rewrite negb_true_iff. by rewrite String.eqb_neq. }
  destruct (Z.of_nat (String.length v) <=? remaining) eqn:E2; to_prop; intros [= <- <- <-].
  { exists false. rewrite orb_false_r. split_and!; [|done|lia].
    exists "". rewrite string_app_nil. done. }
  exists true. rewrite orb_true_r.
  pose proof (rune_boundary_le v (Z.to_nat remaining)) as Hle. set (k := rune_boundary _ _) in *.
  split_and!; [|done|].
  - exists (str_drop k v). rewrite str_take_drop. split; [done|]. split; [|done]. intros _ He.
    apply (f_equal String.length) in He. rewrite <- (str_take_drop k v), length_app_string in E2.
    rewrite He in E2. pose proof (length_str_take k v). cbn in E2. lia.
  - pose proof (length_str_take k v). lia.
Qed.

Lemma bounded_result_Ok r requestID maximum res :
  boundedToolResult r requestID maximum = Ok res ->
  ToolResult_RequestID res = requestID /\ ToolResult_SchemaVersion res = ToolSchemaVersion /\
  Z.of_nat (String.length (ToolResult_Summary res) + String.length (ToolResult_StdoutRedacted res)
    + String.length (ToolResult_StderrRedacted res)) <= Z.max 0 maximum /\
  verdict res = verdict r /\ ToolResult_Executable res = ToolResult_Executable r /\
  ToolResult_ResolvedExecutable res = ToolResult_ResolvedExecutable r /\
  ToolResult_Duration res = ToolResult_Duration r /\
  carries (ToolResult_Summary r) (ToolResult_StdoutRedacted r) (ToolResult_StderrRedacted r)
    (ToolResult_StdoutTruncated r) (ToolResult_StderrTruncated r) res.
Proof.
  unfold boundedToolResult. destruct (_ || _) eqn:E; [done|]. to_prop. destruct E as [E1 E2].
  destruct (negb _); [done|].
  destruct (boundText (ToolResult_Summary r) _ _) as [[a n1] f1] eqn:B1.
  destruct (boundText (ToolResult_StdoutRedacted r) _ _) as [[b n2] f2] eqn:B2.
  destruct (boundText (ToolResult_StderrRedacted r) _ _) as [[c n3] f3] eqn:B3.
  intros [= <-]. apply boundText_kept in B1 as (c1 & K1 & -> & L1), B2 as (c2 & K2 & -> & L2),
    B3 as (c3 & K3 & -> & L3). unfold verdict, carries.
  cbn [ToolResult_RequestID ToolResult_SchemaVersion ToolResult_Summary ToolResult_StdoutRedacted
    ToolResult_StderrRedacted ToolResult_State ToolResult_ExitCode ToolResult_TimedOut ToolResult_Cancelled
    ToolResult_Executable ToolResult_ResolvedExecutable ToolResult_Duration ToolResult_StdoutTruncated
    ToolResult_StderrTruncated].
  split_and!; try done; [lia|]. by exists c1, c2, c3.
Qed.

Lemma recorded_answer tool executeErr contextErr requestID maximum res :
  boundedToolResult (classifyToolExecutionResult tool executeErr contextErr requestID) requestID maximum
    = Ok res ->
  of_answer requestID maximum (tool, executeErr, contextErr) res.
Proof.
  intros (H1 & H2 & H3 & Hv & He & Hr & Hd & Hc)%bounded_result_Ok. split; [done|done|].
  destruct executeErr as [err|]; [|done]. cbv beta zeta. unfold classifyToolExecutionResult in Hv, Hc.
  set (trust := (ToolResult_RequestID tool =? requestID)%string && _ && _) in Hv, Hc.
  set (base := if trust then tool else empty_result requestID) in Hv, Hc.
  assert (forall state out can summary res',
    carries summary (ToolResult_StdoutRedacted base) (ToolResult_StderrRedacted base)
      (ToolResult_StdoutTruncated base) (ToolResult_StderrTruncated base) res' ->
    verdict res' = verdict (with_verdict base state out can summary) ->
    verdict res' = (state, -1, out, can) /\
    exists summary,
      carries summary (ToolResult_StdoutRedacted tool) (ToolResult_StderrRedacted tool)
        (ToolResult_StdoutTruncated tool) (ToolResult_StderrTruncated tool) res' \/
      carries summary "" "" false false res') as Hbase.
  { intros state out can summary res' Hc' Hv'. split; [exact Hv'|]. exists summary.
    unfold base in Hc'. by destruct trust; [left|right]. }
  destruct (_ || Is_opt contextErr DeadlineExceeded); [by eapply Hbase|].
  destruct (_ || Is_opt contextErr Canceled); [by eapply Hbase|].
  destruct (_ && negb (ToolResult_TimedOut base)) eqn:E.
  - apply andb_true_iff in E as [E _]. apply andb_true_iff in E as [E _].
    apply andb_true_iff in E as [Et Es]. unfold base in *. rewrite Et in *.
    apply String.eqb_eq in Es. split; [by right|]. eexists. left. exact Hc.
  - destruct (Hbase _ _ _ _ _ Hc Hv) as [? ?]. split; [by left|done].
Qed.

(** *** The effect, its record and what follows *)

(** The account right after a tool's result was recorded. *)
Record resulted (r : ToolRequest) (result : ToolResult) (i : nat) (s : loop_state) (l : ledger)
    : Prop := {
  rs_synced : synced s l;
  rs_recorded : exists rec, head (recorded (calls l)) = Some rec /\
    Result_RequestID rec = ToolRequest_ID r /\ Result_Result rec = result;
  rs_step : is_Some (step_at s i);
}.

Lemma execute_call_obeys decoded i auth s h Q :
  let r := decoded_request decoded in
  launched r auth i s (ledger_of h) -> ends Q ->
  (forall result h', resulted r result i s (ledger_of h') -> Q (inr result) h') ->
  obeys rule (execute_call sha256_hex marshal_result input decoded i auth s) h Q.
Proof.
  intros r [Ha Hau Hid Hlt Hi] He HQ. apply obeys_asking.
  { split_and!; [apply Ha|exact Hau|apply Ha]. }
  fold r. intros x. match goal with |- obeys _ _ ?e _ => set (h1 := e) end.
  assert (bounded input (ledger_of h1)) as Hb.
  { destruct Ha as [[]]. destruct Hau. split; cbn; lia. }
  assert (forall err h', ledger_of h' = ledger_of h1 -> Q (inl (Err err)) h') as Hfail.
  { intros err h' Hh'. apply He. by rewrite Hh'. }
  destruct x as [[result executeErr] ctxErr]. cbv zeta.
  set (classified := classifyToolExecutionResult _ _ _ _).
  destruct (boundedToolResult _ _ _) as [err|res] eqn:Hres; [by apply Hfail|].
  apply recorded_answer in Hres. apply obeys_asking.
  { eexists _, _. split; [done|]. split; [apply Ha|]. split_and!; [done..|]. eexists. split; [done|exact Hres]. }
  intros [err|]; [apply He; by destruct Hb; split|]. apply HQ. split; [|eauto|done].
  agree Ha.
  - unfold settled, executed_ids, recorded_ids in *. cbn. by rewrite ag_settled0.
  - intros id. rewrite elem_of_cons. intros [->|Hin]; [done|]. by apply ag_called0.
Qed.

Lemma record_effect_obeys tool decoded i m result s h Q :
  let r := decoded_request decoded in
  resulted r result i s (ledger_of h) -> ends Q ->
  (forall s' h', synced s' (ledger_of h') -> Q (inr s') h') ->
  obeys rule (record_effect input tool decoded i m result s) h Q.
Proof.
  intros r Hr He HQ. unfold record_effect. cbv zeta. fold r.
  match goal with |- context [if (ToolRequest_Name r =? ToolTest)%string then ?a else s] =>
    set (s1 := if (ToolRequest_Name r =? ToolTest)%string then a else s) end.
  assert (resulted r result i s1 (ledger_of h)) as Hr1.
  { subst s1. destruct (_ =? _)%string; [|done]. destruct Hr as [Ha ? ?]. split; try done. agree Ha. }
  clearbody s1. clear Hr s. apply obeys_seq.
  assert (forall s2 h2, resulted r result i s2 (ledger_of h2) ->
    obeys rule (if succeeded result && negb (step_state s2 i =? StepImplemented)%string then
      transitionStep input true s2 i StepImplemented "approved tool action completed the plan step"
        (ToolRequest_ID r) m else going s2) h2 Q) as Hend.
  { intros s2 h2 [Ha2 (rec & Hrec & Hrid & Hrr) [step Hi]].
    destruct (_ && _) eqn:Hok; [|by apply HQ]. to_prop. destruct Hok as [Hok _].
    unfold succeeded in Hok. to_prop.
    eapply transitionStep_obeys; [done|done|done| |]; [|cbv zeta; eauto].
    right. split; [done|]. exists rec. by rewrite Hrr. }
  destruct (_ && _); [|by apply Hend].
  apply obeys_asking; [apply Hr1|]. intros err.
  match goal with |- obeys _ _ ?e _ => set (h1 := e) end.
  assert (forall w f c, synced (set_tests s1 w f c) (ledger_of h1)) as Ha1.
  { intros. destruct Hr1 as [Ha ? ?]. agree Ha. }
  destruct err as [err|]; [by apply (failing_obeys err _ _ _ _ (Ha1 true true 0))|]. apply Hend.
  destruct Hr1. by split.
Qed.

Lemma conclude_call_obeys decoded result s h Q :
  synced s (ledger_of h) -> ends Q ->
  (forall s' h', synced s' (ledger_of h') -> Q (inr s') h') ->
  obeys rule (conclude_call sha256_hex input decoded result s) h Q.
Proof.
  intros Ha He HQ. unfold conclude_call. destruct (_ =? _)%string.
  - apply obeys_seq, check_control_obeys; [done|done|]. intros c h' Hh' _.
    destruct (agrees_permit _ _ _ (Some c) Ha) as [Hc Hacc].
    apply finish_obeys; rewrite ?Hh'; auto; done.
  - assert (forall s', synced s' (ledger_of h) ->
      obeys rule (let? _ := check_control false s' in going s') h Q) as Hend.
    { intros s' Ha'. apply obeys_seq, check_control_obeys; [done|done|]. intros c h' Hh' _.
      apply HQ. rewrite Hh'. by apply agrees_permit. }
    destruct (negb _); cbv zeta; apply obeys_seq; [|by apply Hend].
    match goal with |- context [set_failures s ?m] => set (s1 := set_failures s m) end.
    assert (synced s1 (ledger_of h)) as Ha1 by agree Ha.
    destruct (_ <=? _); [|by apply Hend]. destruct Ha1. apply finish_obeys; auto; done.
Qed.

Abbreviation tool_call :=
  (tool_call sha256_hex decodeStrictStringObject marshal_strings marshal_result modelIdentity input).

Lemma tool_call_obeys approved turn s results proposed h Q :
  synced s (ledger_of h) -> ends Q ->
  (forall s' results' h', synced s' (ledger_of h') -> Q (inr (s', results')) h') ->
  obeys rule (tool_call approved turn (s, results) proposed) h Q.
Proof.
  intros Ha He HQ. unfold AgentLoop.tool_call.
  destruct (Z.leb_spec (MaximumToolCalls limits) (toolCalls s)) as [|Hroom].
  { destruct Ha. apply finish_obeys; auto; done. }
  apply obeys_seq, check_control_obeys; [done|done|]. intros c h1 Hh1 Hc.
  assert (synced s (ledger_of h1)) as Ha1 by (rewrite Hh1; by apply agrees_permit).
  destruct (resolve_call approved s proposed) as [err|feedback|tool decoded i] eqn:Hres.
  - by eapply failing_obeys.
  - apply HQ. agree Ha1.
  - apply resolve_call_bound in Hres as (Hfresh & Hv & Hstep).
    apply obeys_seq, authorize_obeys; [done|done|]. intros auth h2 Hh2 Hg.
    apply obeys_seq, begin_call_obeys; [|done|].
    { rewrite Hh2. split; try done; [agree Ha1|]. exists c. cbn. by rewrite Hh1. }
    intros s3 h3 Hl3. apply obeys_seq, execute_call_obeys; [done|done|]. intros result h4 Hr4.
    apply obeys_seq. eapply record_effect_obeys; [done|done|]. intros s5 h5 Ha5.
    apply obeys_seq. apply conclude_call_obeys; [done|done|]. intros s6 h6 Ha6. by apply HQ.
Qed.

(** ** A round *)

Lemma answer_malformed_obeys err s h Q :
  synced s (ledger_of h) -> ends Q -> (forall s' h', synced s' (ledger_of h') -> Q (inr s') h') ->
  obeys rule (answer_malformed err s) h Q.
Proof.
  intros Ha He HQ. unfold answer_malformed.
  do 2 (destruct (_ && _); [apply HQ; agree Ha|]). by eapply failing_obeys.
Qed.

Lemma completion_ended signal c s l :
  synced s l -> permitted (calls l) = Some c -> allows c = true -> signal <> CompletionNone ->
  ended (Ok (completionOutcome signal c (rounds s) (toolCalls s) (tokens s)
               (cost_amount (cost s)) (plan s))) l.
Proof.
  intros Ha Hc Hal Hsig. unfold completionOutcome. cbv zeta.
  assert (forall reason, ended (Ok (finishLoopOutcome OutcomeAwaitingDirection reason (rounds s)
    (toolCalls s) (tokens s) (cost_amount (cost s)) (plan s) true)) l) as Hwait.
  { intros. destruct Ha. apply finish_ended; auto; done. }
  destruct (signal =? CompletionNeedsDirection)%string; cbn [negb andb]; [apply Hwait|].
  destruct (implementationStepsComplete (plan s)) eqn:Hdone; cbn [negb]; [|apply Hwait].
  assert (forall kind reason v,
    kind = OutcomeImplementationComplete \/ kind = OutcomeValidationComplete ->
    (v = false -> Control_ValidationComplete c = true /\ validationStepsComplete (plan s) = true) ->
    (kind = OutcomeValidationComplete -> v = false) ->
    ended (Ok (finishLoopOutcome kind reason (rounds s) (toolCalls s) (tokens s)
      (cost_amount (cost s)) (plan s) v)) l) as Hfin.
  { intros kind reason v Hk Hv Hkv. split; [by eapply agrees_bounded|].
    destruct Ha as [[Hp ? ? ? ? ? ? ? ?] [? ? Hco ?]]. split; cbn; try done; try lia.
    - intros _. by rewrite Hco.
    - intros _. split; [by exists c|]. rewrite <- Hp. unfold implementationStepsComplete in Hdone.
      rewrite forallb_forall in Hdone. apply Forall_forall. intros x Hx%list_elem_of_In. by apply Hdone.
    - intros [Hvc Hvs]%Hv. split; [done|]. split; [eauto|]. rewrite <- Hp.
      unfold validationStepsComplete in Hvs. rewrite forallb_forall in Hvs.
      apply Forall_forall. intros x Hx%list_elem_of_In Hreq. apply Hvs in Hx.
      rewrite Hreq in Hx. by to_prop. }
  destruct (_ =? CompletionValidationComplete)%string; [destruct (_ && _) eqn:E|].
  - to_prop. apply Hfin; auto.
  - apply Hfin; [auto|done|done].
  - apply Hfin; [auto| |done]. intros E. by to_prop.
Qed.

Lemma complete_turn_obeys turn c s h Q :
  synced s (ledger_of h) -> permitted (calls (ledger_of h)) = Some c -> allows c = true ->
  Turn_Completion turn <> CompletionNone -> ends Q ->
  (forall s' h', synced s' (ledger_of h') -> Q (inr s') h') ->
  obeys rule (complete_turn turn c s) h Q.
Proof.
  intros Ha Hp Hc Hn He HQ. unfold complete_turn.
  destruct (_ && _ && _); [apply HQ; agree Ha|]. by apply He, completion_ended.
Qed.

Abbreviation act :=
  (act sha256_hex decodeStrictStringObject marshal_strings marshal_result modelIdentity input).

Lemma act_obeys approved turn s h Q :
  synced s (ledger_of h) -> ends Q -> (forall s' h', synced s' (ledger_of h') -> Q (inr s') h') ->
  obeys rule (act approved turn s) h Q.
Proof.
  intros Ha He HQ. unfold AgentLoop.act. destruct (validateModelTurn _ _).
  { by apply answer_malformed_obeys. }
  apply obeys_seq, check_control_obeys; [done|done|]. intros c h1 Hh1 Hc.
  assert (synced s (ledger_of h1)) as Ha1 by (rewrite Hh1; by apply agrees_permit).
  destruct (_ =? _)%string eqn:Hn; cbn [negb].
  - apply obeys_seq. eapply obeys_weaken.
    + apply (obeys_each _ (fun _ st h' => synced (fst st) (ledger_of h'))
               (fun r h' => ended r (ledger_of h'))); [done|].
      intros x rest [s2 results] h2 Ha2. apply tool_call_obeys; [done|by intros ??|done].
    + intros [r|[s2 results]] h2; [apply He|]. cbn [fst]. intros Ha2. apply HQ. agree Ha2.
  - to_prop. apply complete_turn_obeys; auto. by rewrite Hh1.
Qed.
End Walk.

Abbreviation round :=
  (round sha256_hex decodeStrictStringObject marshal_strings marshal_result unmarshal_counts
     modelIdentity refreshes input).
Abbreviation synced floor s l := (agrees floor (turns (model l)) s l).

Lemma round_obeys declarations approved deadline s floor h Q :
  synced floor s (ledger_of h) -> rounds s < MaximumRounds limits -> ends Q ->
  (forall s' h', synced (rounds s + 1) s' (ledger_of h') -> Q (inr s') h') ->
  obeys rule (round declarations approved deadline s) h Q.
Proof.
  intros Ha Hlt He HQ. apply obeys_asking; [apply Ha|]. intros now.
  match goal with |- obeys _ _ ?e _ => set (h1 := e) end.
  assert (synced floor s (ledger_of h1)) as Ha1 by done. clearbody h1.
  destruct (negb _); [destruct Ha1; eapply finish_obeys; eauto; done|].
  apply obeys_seq. eapply check_control_obeys; [done|done|]. intros c h2 Hh2 Hc.
  assert (synced floor s (ledger_of h2)) as Ha2 by (rewrite Hh2; by apply agrees_permit).
  assert (permits_now (ledger_of h2)) as Hp2 by (exists c; by rewrite Hh2).
  clear Hh2 Ha1 Ha h1. cbv zeta. apply obeys_seq.
  eapply (bind_action_obeys (rounds s + 1)); [apply Ha2| |done|].
  { intros err. agree Ha2. }
  intros h3 Hh3. cbn in Hh3. apply obeys_seq.
  eapply (observe_obeys (rounds s + 1)); rewrite ?Hh3; [agree Ha2|done| |done|].
  { destruct Ha2 as [[]]. cbn. lia. }
  intros turn s4 h4 Ht4 Ha4. apply obeys_seq. eapply account_turn_obeys; [done|done|done|].
  intros s5 Ha5. apply act_obeys with (floor := rounds s + 1); auto.
Qed.

(** ** The run *)

Abbreviation rounds_loop :=
  (rounds_loop sha256_hex decodeStrictStringObject marshal_strings marshal_result unmarshal_counts
     modelIdentity refreshes input).

Lemma rounds_loop_obeys fuel declarations approved deadline s floor h :
  synced floor s (ledger_of h) -> MaximumRounds limits <= rounds s + Z.of_nat fuel ->
  obeys rule (rounds_loop fuel declarations approved deadline s) h
    (fun x h' => exists r, x = Some r /\ ended r (ledger_of h')).
Proof.
  revert s floor h. induction fuel as [|fuel IH]; intros s floor h Ha Hf; cbn [AgentLoop.rounds_loop];
    destruct (Z.ltb_spec (rounds s) (MaximumRounds limits)) as [Hlt|]; try lia.
  1,3: cbn; eexists; split; [done|]; destruct Ha; eapply finish_ended; eauto; done.
  apply obeys_bind. eapply round_obeys; [done|done| |].
  - intros x h' Hx. cbn. eauto.
  - intros s' h' Ha'. eapply IH; [done|]. destruct Ha' as [[]]. lia.
Qed.

Lemma validateLoopInput_facts :
  validateLoopInput input = None ->
  1 <= MaximumRounds limits /\ 1 <= MaximumToolCalls limits /\ 1 <= MaximumTokens limits /\
  NoDup (map Step_ID (Plan_Steps (Input_Plan input))) /\
  (0 <= amount_value (MaximumCost limits))%Q.
Proof.
  unfold validateLoopInput. cbv zeta. intros H. guards H.
  apply err_seq_None in H as [Hl H]. apply err_seq_None in H as [Hs _].
  apply validate_steps_ids in Hs as [Hs _].
  unfold validateLoopLimits in Hl. guards Hl. unfold outside in *. to_prop.
  split_and!; try done; try lia.
  destruct (newCostAccumulator _) as [|c] eqn:Hc; [done|]. unfold newCostAccumulator in Hc.
  destruct (_ || _) eqn:Hb in Hc; [done|]. to_prop. unfold amount_value, SetFrac, Qle. cbn. lia.
Qed.

Lemma validateLoopInput_limits :
  validateLoopInput input = None -> MaximumRounds limits <= 256 /\ MaximumToolCalls limits <= 1024.
Proof.
  unfold validateLoopInput. cbv zeta. intros H. guards H.
  apply err_seq_None in H as [Hl _]. unfold validateLoopLimits in Hl. guards Hl.
  unfold outside, absoluteMaximumRounds, absoluteMaximumToolCalls in *. to_prop. lia.
Qed.

Lemma start_synced c h :
  validateLoopInput input = None -> newCostAccumulator (MaximumCost limits) = Ok c ->
  ledger_of h = empty_ledger -> synced 0 (start_state input c) (ledger_of h).
Proof.
  intros (? & ? & ? & ? & ?)%validateLoopInput_facts Hc Hh. rewrite Hh.
  unfold newCostAccumulator in Hc. destruct (_ || _); [done|]. injection Hc as <-.
  split; split; cbn; try done; try lia; try (by intros id ?%elem_of_nil).
  split; cbn; try done; try lia; constructor.
Qed.

Abbreviation Run :=
  (Run sha256_hex decodeStrictStringObject marshal_strings marshal_result unmarshal_counts
     modelIdentity refreshes input).

Lemma prepare_run_obeys s h Q :
  synced 0 s (ledger_of h) -> ends Q ->
  (forall deadline h', synced 0 s (ledger_of h') -> Q (inr deadline) h') ->
  obeys rule (prepare_run input s) h Q.
Proof.
  intros Ha He HQ. apply obeys_asking; [apply Ha|]. intros now.
  match goal with |- obeys _ _ ?e _ => set (h1 := e) end.
  assert (synced 0 s (ledger_of h1)) as Ha1 by done. clearbody h1.
  apply obeys_seq. eapply check_control_obeys; [done|done|]. intros c h2 Hh2 Hc.
  assert (synced 0 s (ledger_of h2)) as Ha2 by (rewrite Hh2; by apply agrees_permit).
  apply obeys_asking; [apply Ha2|]. intros [err|]; [by eapply failing_obeys|by apply HQ].
Qed.

Lemma Run_obeys :
  validateLoopInput input = None ->
  obeys rule Run [] (fun x h => exists r, x = Some r /\ ended r (ledger_of h)).
Proof.
  intros Hv. unfold AgentLoop.Run. rewrite Hv.
  pose proof (validateLoopInput_facts Hv) as (Hr & Hc & _).
  assert (forall err, exists r : result error LoopOutcome,
    Some (Err err) = Some r /\ ended r (ledger_of [])) as Herr.
  { intros err. eexists. split; [done|]. split; [|done]. split; cbn; lia. }
  destruct (validateFixedModelIdentity _); [apply Herr|].
  destruct (buildToolDeclarations _) as [|[declarations approved]]; [apply Herr|].
  destruct (newCostAccumulator _) as [|c] eqn:Hn; [apply Herr|].
  pose proof (start_synced c [] Hv Hn eq_refl) as Ha.
  apply obeys_bind, prepare_run_obeys; [done| |].
  - intros x h Hx. cbn. eauto.
  - intros deadline h Hs. eapply rounds_loop_obeys; [done|]. cbn. lia.
Qed.
End Facts.
