(* ===== verification/AgentSamples.v ===== *)
(** * Runs of the agent loop on concrete ports

    A small plan (an edit step on the directory [src], a test step), ports that
    authorize and carry out everything they are asked, and a model that answers
    a script, one turn per round. They are what the theorems of AgentTheorems.v
    are applied to. *)

From Stdlib Require Import Ascii.
From S2P Require Import Prelude GoText PolicyValues ProviderTypes GoErrors GoPath Ports Pricing.
From S2P Require Import ToolPolicy AgentTypes AgentPlan AgentLoop.
Open Scope string_scope.
Open Scope list_scope.

Definition sample_sha256 (s : string) : string := s.

(** [{}] is the empty object, anything else the value of [path]; a value before
    [|] is the path of a patch. *)
Definition sample_decode (raw : string) : result error (gmap string string) :=
  if raw =? "{}" then Ok ∅
  else match SplitByte "|"%char raw with
       | [path; patch] => Ok (<["path" := path]> {["patch" := patch]})
       | _ => Ok {["path" := raw]}
       end.

Definition sample_marshal (m : gmap string string) : string := Join ((map_to_list m).*2) ",".

Definition sample_model : ModelIdentity :=
  {| ModelIdentity_Provider :=
       {| ProviderIdentity_Adapter := "openai"; ProviderIdentity_AdapterVersion := "1";
          ProviderIdentity_Provider := "openai"; ProviderIdentity_ProviderVersion := "v1" |};
     ModelIdentity_Model := "m"; ModelIdentity_Revision := "r" |}.

Definition sample_digest : string :=
  "00112233445566778899aabbccddeeff00112233445566778899aabbccddeeff".

Definition usd (numerator : Z) : ExactAmount :=
  {| Amount_Currency := "USD"; Amount_Numerator := numerator; Amount_Denominator := 100;
     Amount_Known := true |}.

Definition sample_limits : LoopLimits :=
  {| MaximumRounds := 8; MaximumToolCalls := 8; MaximumToolCallsPerRound := 4;
     MaximumTokens := 1000; MaximumTokensPerRound := 100; MaximumWallClock := Minute;
     MaximumCost := usd 100; MaximumIdenticalFailures := 2; MaximumContextItems := 0;
     MaximumFactualEvents := 0; MaximumContextBytes := 0; MaximumResultBytes := 256 |}.

Definition sample_descriptor (name : ToolName) : ToolDescriptor :=
  default (descriptor "" "" "" []) (lookup_descriptor name).

Definition argument (name : string) : ToolArgumentDefinition :=
  {| Argument_Name := name; Argument_Required := true; Argument_Sensitive := false;
     Argument_MaxBytes := 0 |}.

Definition sample_tool (name : ToolName) (arguments : list string) (material : bool) : ApprovedTool :=
  {| Tool_Descriptor := sample_descriptor name; Tool_Arguments := map argument arguments;
     Tool_DefaultTimeout := Minute; Tool_MaterialEdit := material;
     Tool_CreatesCheckpoint := material |}.

Definition edit_step (files : list string) (state : StepState) : PlanStep :=
  {| Step_ID := "edit"; Step_Kind := StepKindEdit; Step_SummaryRedacted := "write the code";
     Step_State := state; Step_MaterialEdit := true; Step_ValidationRequired := true;
     Step_ExpectedFiles := files; Step_CompletionTools := [ToolApplyEdit; ToolApplyPatch] |}.

Definition test_step (state : StepState) : PlanStep :=
  {| Step_ID := "test"; Step_Kind := StepKindTest; Step_SummaryRedacted := "run the tests";
     Step_State := state; Step_MaterialEdit := false; Step_ValidationRequired := true;
     Step_ExpectedFiles := []; Step_CompletionTools := [ToolTest] |}.

Definition sample_input (plan_steps : list PlanStep) : LoopInput :=
  {| Input_TaskID := "task"; Input_RunID := "run"; Input_PlanApprovalID := "approval";
     Input_WorktreePath := "/work"; Input_PolicyRevision := 1; Input_PolicySHA256 := sample_digest;
     Input_Plan := {| Plan_Revision := 1; Plan_RepositoryRevision := "head"; Plan_Steps := plan_steps |};
     Input_RepositoryContext := []; Input_FactualEvents := [];
     Input_ApprovedTools := [sample_tool ToolApplyEdit ["path"] true;
                             sample_tool ToolApplyPatch ["path"; "patch"] true;
                             sample_tool ToolTest [] false];
     Input_Limits := sample_limits |}.

Definition sample_call (id step : string) (name : ToolName) (arguments : string) : ModelToolCall :=
  {| ModelToolCall_Call := {| Call_ID := id; Call_Name := name; Call_Arguments := arguments |};
     ModelToolCall_PlanStepID := step; ModelToolCall_CompletesStep := true |}.

Definition edits (id path : string) : ModelToolCall := sample_call id "edit" ToolApplyEdit path.
Definition tests (id : string) : ModelToolCall := sample_call id "test" ToolTest "{}".

Definition sample_turn (id : string) (proposed : list ModelToolCall) (completion : CompletionSignal)
    : ModelTurn :=
  {| Turn_ModelRequestID := id; Turn_Model := sample_model; Turn_ToolCalls := proposed;
     Turn_MessageRedacted := ""; Turn_Completion := completion;
     Turn_Usage := {| Usage_Known := true; Usage_Source := UsageSourceProvider; InputTokens := 20;
       CachedInputTokens := 0; CacheWriteTokens := 0; OutputTokens := 5; ReasoningTokens := 0;
       ProviderSpecific := "" |};
     Turn_Cost := usd 1 |}.

(** A script: the calls of each round; an empty round declares completion. *)
Definition scripted_turn (script : list (list ModelToolCall)) (round : Z) : ModelTurn :=
  let id := "request-" +:+ fmt_d round in
  match script !! Z.to_nat (round - 1) with
  | Some (call :: rest) => sample_turn id (call :: rest) CompletionNone
  | _ => sample_turn id [] CompletionImplementationComplete
  end.

Definition sample_result (requestID state : string) : ToolResult :=
  {| ToolResult_RequestID := requestID; ToolResult_SchemaVersion := ToolSchemaVersion;
     ToolResult_State := state; ToolResult_Executable := ""; ToolResult_ResolvedExecutable := "";
     ToolResult_ExitCode := 0; ToolResult_Duration := 0; ToolResult_TimedOut := false;
     ToolResult_Cancelled := false; ToolResult_StdoutRedacted := ""; ToolResult_StderrRedacted := "";
     ToolResult_StdoutTruncated := false; ToolResult_StderrTruncated := false;
     ToolResult_Summary := "" |}.

Definition sample_authorization (r : ToolRequest) : ToolAuthorization :=
  {| Authorization_Classification :=
       {| Classification_Outcome := OutcomeAutomatic; Classification_Required := RequiredAuthority r;
          Classification_Capability := RequiredAuthority r;
          Classification_ScopeHash := ActionSHA256 sample_sha256 r;
          Classification_MatchedGrantID := ""; Classification_Description := "";
          Classification_Reason := "" |};
     Authorization_DecisionID := "decision"; Authorization_PolicyRevision := 1;
     Authorization_PolicySHA256 := sample_digest |}.

Definition active_control : ControlState :=
  {| Control_Disposition := ControlActive; Control_BudgetAvailable := true;
     Control_PolicyCurrent := true; Control_ValidationComplete := true |}.

Definition sample_ports (script : list (list ModelToolCall)) (h : list (event answer)) (p : port)
    : answer p :=
  match p with
  | Now => 0
  | CtxErr => None
  | ReadControl _ => Ok active_control
  | CreatePlanApprovedCheckpoint _ => None
  | BindActionContext _ => None
  | RefreshContext => []
  | ObserveThink i => Ok (scripted_turn script (ModelInput_Round i))
  | RouteTool r => Ok (sample_authorization r)
  | PersistToolStart _ => None
  | CreateCheckpoint _ => None
  | PersistPlanStepTransition _ _ => None
  | ExecuteTool a => (sample_result (ToolRequest_ID (Authorized_Request a)) "succeeded", None, None)
  | PersistToolResult _ => None
  end.

Definition sample_Run (input : LoopInput) : program answer (option (result error LoopOutcome)) :=
  Run sample_sha256 sample_decode sample_marshal (fun _ => "") (fun _ => None) sample_model true input.

Definition result_of (steps : list PlanStep) (script : list (list ModelToolCall))
    : option (result error LoopOutcome) :=
  (run (sample_ports script) (sample_Run (sample_input steps)) []).1.

Definition trace_of (steps : list PlanStep) (script : list (list ModelToolCall)) : list (event answer) :=
  reverse (run (sample_ports script) (sample_Run (sample_input steps)) []).2.

Lemma sample_runs steps script :
  runs (sample_Run (sample_input steps)) (trace_of steps script) (result_of steps script).
Proof. apply run_trace. Qed.

(** A step that is open, and a run that edits, tests and finishes. *)
Definition open_plan : list PlanStep := [edit_step ["src"] StepPending; test_step StepPending].
Definition good_script : list (list ModelToolCall) := [[edits "c1" "src/main.go"]; [tests "c2"]; []].

Lemma open_plan_accepted : validateLoopInput (sample_input open_plan) = None.
Proof. vm_compute. reflexivity. Qed.
