(* ===== verification/AgentTheorems.v ===== *)
(** * What the agent loop promises

    The theorems on [Run] (src/internal/agent/loop.go), read off the rule that
    AgentFacts.v proves for every run, and concrete runs: witnesses, and the
    places where the loop does other than its comments say. *)

From Stdlib Require Import QArith.
From S2P Require Import Prelude GoText PolicyValues ProviderTypes GoErrors GoPath Ports Pricing.
From S2P Require Import ToolPolicy AgentTypes AgentPlan AgentLoop AgentRules AgentFacts.
From S2P Require Import AgentSamples.
Open Scope string_scope.
Open Scope list_scope.
Open Scope Z_scope.

(** ** The journal of transitions *)

Lemma ledger_steps_called t tr :
  tr ∈ steps (ledger_of (reverse t)) ->
  exists t1 d t2, t = t1 ++ called (PersistPlanStepTransition d tr) None :: t2.
Proof.
  intros Hin. rewrite <- (reverse_involutive t). revert Hin. generalize (reverse t) as h. clear t.
  induction h as [|[p r] h IH]; [by intros ?%elem_of_nil|]. change (existT p r) with (called p r).
  assert (tr ∈ steps (ledger_of h) -> exists t1 d t2, reverse (called p r :: h) =
    t1 ++ called (PersistPlanStepTransition d tr) None :: t2) as Hold.
  { intros (t1 & d & t2 & Ht)%IH. exists t1, d, (t2 ++ [called p r]).
    by rewrite reverse_cons, Ht, <- (assoc_L (++)). }
  destruct p; cbn [ledger_of note called]; try exact Hold; try (cbn; exact Hold).
  - unfold note_bind. destruct (_ =? _)%string; exact Hold.
  - cbn. destruct r as [e|]; cbn; [exact Hold|]. rewrite elem_of_cons. intros [->|Hin]; [|by apply Hold].
    exists (reverse h), detached, []. apply reverse_cons.
Qed.

(** A step that is validated after a replay of transitions to other states was
    validated before. *)
Lemma replay_validated p l i step :
  Forall (fun t => Transition_To t <> StepValidated) l ->
  Plan_Steps (replay p l) !! i = Some step -> Step_State step = StepValidated ->
  Plan_Steps p !! i = Some step.
Proof.
  unfold replay. intros Hl. revert step. induction Hl as [|t l Ht Hl IH]; intros step; [done|]. cbn.
  rewrite list_lookup_fmap.
  destruct (Plan_Steps (foldr apply_transition p l) !! i) as [old|] eqn:Hold; [|done].
  cbn. intros [= <-]. destruct (_ =? _)%string; [done|]. by apply IH.
Qed.

Lemma replay_steps p l i step :
  Plan_Steps p !! i = Some step ->
  exists step', Plan_Steps (replay p l) !! i = Some step' /\
    Step_ValidationRequired step' = Step_ValidationRequired step.
Proof.
  unfold replay. intros Hi. induction l as [|t l (step' & Hs & ?)]; [by exists step|]. cbn.
  rewrite list_lookup_fmap, Hs. eexists. split; [done|]. by destruct (_ =? _)%string.
Qed.

Section Theorems.
Context (sha256_hex : string -> string).
Context (decodeStrictStringObject : string -> result error (gmap string string)).
Context (marshal_strings : gmap string string -> string).
Context (marshal_result : ToolResult -> string).
Context (unmarshal_counts : string -> option (gmap string Z)).
Context (modelIdentity : ModelIdentity) (refreshes : bool).
Context (input : LoopInput).
Hypothesis accepted : validateLoopInput input = None.

Abbreviation limits := (Input_Limits input).
Abbreviation Run :=
  (Run sha256_hex decodeStrictStringObject marshal_strings marshal_result unmarshal_counts
     modelIdentity refreshes input).

Lemma Run_sound t x :
  runs Run t x ->
  (exists r, x = Some r /\ ended unmarshal_counts modelIdentity input r (ledger_of (reverse t))) /\
  forall t1 p r t2, t = t1 ++ called p r :: t2 ->
    may_call sha256_hex unmarshal_counts modelIdentity input (ledger_of (reverse t1)) p.
Proof. intros Hr. by eapply (obeys_sound _ _ _ _ _ (Run_obeys _ _ _ _ _ _ _ _ accepted)). Qed.

(** [C1] No tool runs unauthorized. At every execution of every run, whatever
    the model proposes and the ports answer: control was read since the tool
    before it ran (or since the model's turn) and allowed the run; exactly this
    request was then routed, and the decision is executable, names its digest
    and the input's policy; its start is on record with that decision, under a
    step of the current plan that lists the tool and names the path or the
    file the patch declares; a risky action has its own checkpoint; the action
    is bound; the request identity was not executed before and there is room
    under the limit. *)
Theorem tools_run_authorized t x t1 a r t2 :
  runs Run t x -> t = t1 ++ called (ExecuteTool a) r :: t2 ->
  authorized sha256_hex input (ledger_of (reverse t1)) a.
Proof. intros Hr Ht. by apply (proj2 (Run_sound _ _ Hr)) in Ht as (_ & ? & _). Qed.

(** [C21] An effect is on record before anything else happens. After a tool's
    execution the run fails at once, with no further call, or the next call is
    the persistence of the tool's own result: under the request's identity, and
    with no more than the configured bytes of text. Without an error it is the
    state, exit code, flags, executable and duration the tool reported, and its
    texts, each whole or cut with the cut flagged; with an error it is not a
    success but the deadline, the cancellation or an unknown outcome. If it
    could not be persisted, the run fails at once as well. *)
Theorem effects_are_recorded t x t1 a r t2 :
  runs Run t x -> t = t1 ++ called (ExecuteTool a) r :: t2 ->
  (t2 = [] /\ exists err, x = Some (Err err)) \/
  (exists rec err t3, t2 = called (PersistToolResult rec) err :: t3 /\
     Result_TaskID rec = Input_TaskID input /\ Result_RunID rec = Input_RunID input /\
     Result_RequestID rec = ToolRequest_ID (Authorized_Request a) /\
     of_answer (ToolRequest_ID (Authorized_Request a)) (MaximumResultBytes limits) r (Result_Result rec) /\
     (err <> None -> t3 = [] /\ exists err, x = Some (Err err))).
Proof.
  intros Hr Ht. destruct (Run_sound _ _ Hr) as [(res & -> & _ & Hend) Hcall].
  destruct (Hcall _ _ _ _ Ht) as (Hset & _ & _).
  set (l1 := ledger_of (reverse (t1 ++ [called (ExecuteTool a) r]))).
  assert (l1 = note_execute (ledger_of (reverse t1)) a r) as Hl1.
  { unfold l1. by rewrite reverse_snoc. }
  assert (~ settled l1) as Hnot.
  { rewrite Hl1. unfold settled, executed_ids, recorded_ids in *. cbn. rewrite Hset.
    intros H. apply (f_equal length) in H. cbn in H. lia. }
  destruct t2 as [|[p s] t3].
  - left. split; [done|]. destruct res as [err|o]; [by exists err|]. destruct Hnot.
    subst t. apply (ou_settled _ _ _ _ _ Hend).
  - right. assert (may_call sha256_hex unmarshal_counts modelIdentity input l1 p) as Hp.
    { apply (Hcall _ _ s t3). by rewrite <- (assoc_L (++)). }
    destruct p as [| | | | | | | | | | | |rec]; cbn in Hp; try (destruct Hnot; tauto).
    destruct Hp as (b & rest & Hex & _ & Htask & Hrun & Hid & r' & Hans & Hof).
    rewrite Hl1 in Hex, Hans. injection Hex as <- _. injection Hans as <-.
    exists rec, s, t3. split_and!; [done..|]. intros Herr. destruct s as [err|]; [clear Herr|done].
    set (l2 := ledger_of (reverse ((t1 ++ [called (ExecuteTool a) r]) ++ [called (PersistToolResult rec) (Some err)]))).
    assert (l2 = note_result l1 rec (Some err)) as Hl2.
    { unfold l2. by rewrite reverse_snoc. }
    assert (~ settled l2) as Hnot2 by by rewrite Hl2.
    assert (t = ((t1 ++ [called (ExecuteTool a) r]) ++ [called (PersistToolResult rec) (Some err)]) ++ t3) as Ht2.
    { by rewrite Ht, <- !(assoc_L (++)). }
    destruct t3 as [|[p s] t4].
    + split; [done|]. destruct res as [err'|o]; [by exists err'|]. destruct Hnot2.
      rewrite app_nil_r in Ht2. subst t. rewrite Ht2 in Hend. apply (ou_settled _ _ _ _ _ Hend).
    + exfalso. assert (may_call sha256_hex unmarshal_counts modelIdentity input l2 p) as Hp
        by by apply (Hcall _ _ s t4).
      destruct p as [| | | | | | | | | | | |rec']; cbn in Hp; try (destruct Hnot2; tauto).
      destruct Hp as (_ & _ & _ & _ & _ & _ & _ & r' & Hans & _). by rewrite Hl2 in Hans.
Qed.

(** [C22] A run ends, within its limits: it returns whatever the ports answer,
    after at most the configured rounds, which are at most 256, each with at
    most one request to the model, and at most the configured tool calls,
    which are at most 1024; and its outcome reports the numbers it used. *)
Theorem Run_bounded t x :
  runs Run t x -> let l := ledger_of (reverse t) in
  asked (model l) <= MaximumRounds limits <= 256 /\
  Z.of_nat (length (executed (calls l))) <= MaximumToolCalls limits <= 1024 /\
  exists r, x = Some r /\ forall o, r = Ok o ->
    Outcome_Rounds o = opened (model l) /\ asked (model l) <= Outcome_Rounds o <= MaximumRounds limits /\
    Outcome_ToolCalls o = begun (calls l) /\
    Z.of_nat (length (executed (calls l))) <= Outcome_ToolCalls o <= MaximumToolCalls limits.
Proof.
  intros Hr l. destruct (Run_sound _ _ Hr) as [(res & -> & [Hb1 Hb2] & Hend) _].
  destruct (validateLoopInput_limits input accepted) as (? & ?).
  split; [done|]. split; [done|]. exists res. split; [done|]. intros o ->.
  destruct Hend as [? Hro Hrl Hca Hcl]. rewrite Hro, Hca. done.
Qed.

(** [C2] The plan a run returns is the plan its journal tells: the input's plan
    with exactly the persisted transitions applied, in order. Each of them was
    an edge of the step machine, from the state the journal gave that step at
    the time; and a step became implemented only when the call named by the
    transition had its success on record. *)
Theorem plan_is_replayed t x :
  runs Run t x ->
  (forall o, x = Some (Ok o) ->
     Outcome_Plan o = replay (Input_Plan input) (steps (ledger_of (reverse t)))) /\
  (forall t1 d tr r t2, t = t1 ++ called (PersistPlanStepTransition d tr) r :: t2 ->
     lawful input (ledger_of (reverse t1)) tr).
Proof.
  intros Hr. destruct (Run_sound _ _ Hr) as [(res & -> & _ & Hend) Hcall]. split.
  - intros o [= ->]. apply Hend.
  - intros t1 d tr r t2 Ht. apply (Hcall _ _ _ _ Ht).
Qed.

(** [C31] Completion is earned. A run that reports its implementation or
    validation complete has every step of the journal's plan finished, and
    control allowed it at the last reading; one that requires no validation
    any more has the evidence of control, and every step that needs validation
    validated. *)
Theorem completion_is_earned t o :
  runs Run t (Some (Ok o)) -> let l := ledger_of (reverse t) in
  (complete o -> permits_now l /\
     Forall (fun step => finished (Step_State step) = true) (Plan_Steps (Outcome_Plan o))) /\
  (Outcome_ValidationRequired o = false ->
     complete o /\
     (exists c, permitted (calls l) = Some c /\ Control_ValidationComplete c = true) /\
     Forall (fun step => Step_ValidationRequired step = true -> Step_State step = StepValidated)
       (Plan_Steps (Outcome_Plan o))).
Proof.
  intros Hr l. destruct (Run_sound _ _ Hr) as [(res & [= <-] & _ & Hend) _].
  rewrite (ou_plan _ _ _ _ _ Hend). split; apply Hend.
Qed.

(** Validation is not the loop's to give. A run moves steps only to in
    progress or implemented, so when the input's plan has a step that needs
    validation and is not validated, no run of it says that validation is no
    longer required, whatever the model and the tools do. *)
Theorem loop_never_validates t o step :
  step ∈ Plan_Steps (Input_Plan input) -> Step_ValidationRequired step = true ->
  Step_State step <> StepValidated ->
  runs Run t (Some (Ok o)) ->
  Outcome_ValidationRequired o = true /\ Outcome_Kind o <> OutcomeValidationComplete.
Proof.
  intros [i Hi]%list_elem_of_lookup Hv Hs Hr.
  destruct (Run_sound _ _ Hr) as [(res & [= <-] & _ & Hend) Hcall].
  assert (Forall (fun tr => Transition_To tr <> StepValidated) (steps (ledger_of (reverse t)))) as Hto.
  { apply Forall_forall. intros tr (t1 & d & t2 & Ht)%ledger_steps_called.
    destruct (Hcall _ _ _ _ Ht) as [_ [_ _ [->|[-> _]]]]; done. }
  assert (Outcome_ValidationRequired o = true) as Hreq.
  { apply not_false_iff_true. intros Hf. destruct (ou_validated _ _ _ _ _ Hend Hf) as (_ & _ & Hall).
    destruct (replay_steps _ (steps (ledger_of (reverse t))) _ _ Hi) as (step' & Hi' & Hv').
    apply list_elem_of_lookup_2 in Hi' as Hin. rewrite Forall_forall in Hall.
    assert (Step_State step' = StepValidated) as Hst by (apply Hall; [done|congruence]).
    pose proof (replay_validated _ _ _ _ Hto Hi' Hst). congruence. }
  split; [done|]. intros Hk. rewrite (ou_kind _ _ _ _ _ Hend Hk) in Hreq. done.
Qed.

(** Accounting is exact and the limits are kept. A run that did not reach
    a limit reports exactly the tokens and the cost of the turns the model
    answered, as rational sums; every turn came from the fixed model under a
    request identity of its own, with known usage within the limit of a round,
    and the sums are within the limits of the run. *)
Theorem accounting_is_exact t o :
  runs Run t (Some (Ok o)) -> Outcome_Kind o <> OutcomeLimitReached ->
  let ts := turns (model (ledger_of (reverse t))) in
  affordable unmarshal_counts modelIdentity input ts /\
  Outcome_Tokens o = total_tokens unmarshal_counts ts /\
  Outcome_Cost o = amount_of_rat (Amount_Currency (MaximumCost limits)) (total_cost ts).
Proof.
  intros Hr Hk ts. destruct (Run_sound _ _ Hr) as [(res & [= <-] & _ & Hend) _].
  by apply (ou_accounts _ _ _ _ _ Hend).
Qed.

(** The model is asked only within the limits. At every request to it the
    control read since the last turn or effect allowed the run, every effect so
    far is on record, the plan it is shown is the journal's, the round is the
    number it is told and within the limit, and what the earlier turns used is
    known, attributed and within the limits. *)
Theorem model_is_asked_within_limits t x t1 i r t2 :
  runs Run t x -> t = t1 ++ called (ObserveThink i) r :: t2 ->
  let l := ledger_of (reverse t1) in
  settled l /\ permits_now l /\ ModelInput_Plan i = replay (Input_Plan input) (steps l) /\
  ModelInput_Round i = opened (model l) /\ opened (model l) <= MaximumRounds limits /\
  affordable unmarshal_counts modelIdentity input (turns (model l)).
Proof.
  intros Hr Ht l. apply (proj2 (Run_sound _ _ Hr)) in Ht as (? & ? & ? & ? & ? & _ & ?). done.
Qed.
End Theorems.

(** ** Witnesses *)

Abbreviation good_trace := (trace_of open_plan good_script).

Lemma trace_at (t : list (event answer)) k p r :
  t !! k = Some (called p r) -> t = take k t ++ called p r :: drop (S k) t.
Proof. intros H. by rewrite take_drop_middle. Qed.

Lemma good_outcome :
  exists o, result_of open_plan good_script = Some (Ok o) /\
    Outcome_Kind o = OutcomeImplementationComplete /\ Outcome_Tokens o = 75.
Proof. vm_compute. eexists. split; [reflexivity|]. split; reflexivity. Qed.

Lemma tools_run_authorized_witness :
  exists a r, good_trace !! 30%nat = Some (called (ExecuteTool a) r) /\
    ToolRequest_Name (Authorized_Request a) = ToolTest /\
    authorized sample_sha256 (sample_input open_plan) (ledger_of (reverse (take 30 good_trace))) a.
Proof.
  assert (exists a r, good_trace !! 30%nat = Some (called (ExecuteTool a) r) /\
    ToolRequest_Name (Authorized_Request a) = ToolTest) as (a & r & Hat & Hn)
    by (vm_compute; eexists _, _; split; reflexivity).
  exists a, r. split; [exact Hat|]. split; [exact Hn|].
  exact (tools_run_authorized sample_sha256 sample_decode sample_marshal (fun _ => ""%string)
    (fun _ => None) sample_model true (sample_input open_plan) open_plan_accepted _ _ _ _ _ _
    (sample_runs open_plan good_script) (trace_at _ _ _ _ Hat)).
Defined.

Lemma effects_are_recorded_witness :
  exists a r, good_trace !! 13%nat = Some (called (ExecuteTool a) r) /\
  exists rec err t3, drop 14 good_trace = called (PersistToolResult rec) err :: t3 /\
    Result_RequestID rec = ToolRequest_ID (Authorized_Request a) /\
    verdict (Result_Result rec) = verdict r.1.1.
Proof.
  assert (exists a r, good_trace !! 13%nat = Some (called (ExecuteTool a) r) /\ r.1.2 = None) as (a & r & Hat & Hok)
    by (vm_compute; eexists _, _; split; reflexivity).
  exists a, r. split; [exact Hat|].
  destruct (effects_are_recorded sample_sha256 sample_decode sample_marshal (fun _ => ""%string)
    (fun _ => None) sample_model true (sample_input open_plan) open_plan_accepted _ _ _ _ _ _
    (sample_runs open_plan good_script) (trace_at _ _ _ _ Hat))
    as [[H _]|(rec & err & t3 & H & _ & _ & Hid & [_ _ Hof] & _)].
  - apply (f_equal (@length _)) in H. vm_compute in H. discriminate H.
  - exists rec, err, t3. split; [exact H|]. split; [exact Hid|].
    destruct r as [[tool [e|]] c]; [discriminate Hok|]. exact (proj1 Hof).
Defined.

Lemma Run_bounded_witness :
  exists x, runs (sample_Run (sample_input open_plan)) good_trace x /\
    asked (model (ledger_of (reverse good_trace))) <= 8.
Proof.
  eexists. split; [exact (sample_runs open_plan good_script)|].
  exact (proj1 (proj1 (Run_bounded sample_sha256 sample_decode sample_marshal (fun _ => ""%string)
    (fun _ => None) sample_model true (sample_input open_plan) open_plan_accepted _ _
    (sample_runs open_plan good_script)))).
Defined.

Lemma plan_is_replayed_witness :
  exists o, result_of open_plan good_script = Some (Ok o) /\
    Outcome_Plan o = replay (Input_Plan (sample_input open_plan))
      (steps (ledger_of (reverse good_trace))) /\
    length (steps (ledger_of (reverse good_trace))) = 4%nat.
Proof.
  destruct good_outcome as (o & Ho & _). exists o. split; [exact Ho|]. split.
  - exact (proj1 (plan_is_replayed sample_sha256 sample_decode sample_marshal (fun _ => ""%string)
      (fun _ => None) sample_model true (sample_input open_plan) open_plan_accepted _ _
      (sample_runs open_plan good_script)) o Ho).
  - vm_compute. reflexivity.
Defined.

Lemma completion_is_earned_witness :
  exists o, result_of open_plan good_script = Some (Ok o) /\
    permits_now (ledger_of (reverse good_trace)).
Proof.
  destruct good_outcome as (o & Ho & Hk & _). exists o. split; [exact Ho|].
  pose proof (sample_runs open_plan good_script) as Hr. rewrite Ho in Hr.
  exact (proj1 (proj1 (completion_is_earned sample_sha256 sample_decode sample_marshal
    (fun _ => ""%string) (fun _ => None) sample_model true (sample_input open_plan)
    open_plan_accepted _ _ Hr) (or_introl Hk))).
Defined.

Lemma loop_never_validates_witness :
  exists o, result_of open_plan good_script = Some (Ok o) /\
    Outcome_ValidationRequired o = true.
Proof.
  destruct good_outcome as (o & Ho & _). exists o. split; [exact Ho|].
  pose proof (sample_runs open_plan good_script) as Hr. rewrite Ho in Hr.
  refine (proj1 (loop_never_validates sample_sha256 sample_decode sample_marshal
    (fun _ => ""%string) (fun _ => None) sample_model true (sample_input open_plan)
    open_plan_accepted _ _ (edit_step ["src"%string] StepPending) _ _ _ Hr)).
  - by left.
  - reflexivity.
  - discriminate.
Defined.

Lemma accounting_is_exact_witness :
  exists o, result_of open_plan good_script = Some (Ok o) /\ Outcome_Tokens o = 75 /\
    Outcome_Tokens o = total_tokens (fun _ => None) (turns (model (ledger_of (reverse good_trace)))).
Proof.
  destruct good_outcome as (o & Ho & Hk & Ht). exists o. split; [exact Ho|]. split; [exact Ht|].
  pose proof (sample_runs open_plan good_script) as Hr. rewrite Ho in Hr.
  refine (proj1 (proj2 (accounting_is_exact sample_sha256 sample_decode sample_marshal
    (fun _ => ""%string) (fun _ => None) sample_model true (sample_input open_plan)
    open_plan_accepted _ _ Hr _))).
  rewrite Hk. discriminate.
Defined.

Lemma model_is_asked_within_limits_witness :
  exists i r, good_trace !! 22%nat = Some (called (ObserveThink i) r) /\
    permits_now (ledger_of (reverse (take 22 good_trace))).
Proof.
  assert (exists i r, good_trace !! 22%nat = Some (called (ObserveThink i) r)) as (i & r & Hat)
    by (vm_compute; eexists _, _; reflexivity).
  exists i, r. split; [exact Hat|].
  exact (proj1 (proj2 (model_is_asked_within_limits sample_sha256 sample_decode sample_marshal
    (fun _ => ""%string) (fun _ => None) sample_model true (sample_input open_plan)
    open_plan_accepted _ _ _ _ _ _ (sample_runs open_plan good_script) (trace_at _ _ _ _ Hat)))).
Defined.

(** ** Where the loop and its comments part *)

Definition executed_tools (t : list (event answer)) : list ToolName :=
  map (fun a => ToolRequest_Name (Authorized_Request a)) (executed (calls (ledger_of (reverse t)))).

(** What the file tools do with the paths of the calls executed. *)
Definition file_targets (t : list (event answer)) : list (option string) :=
  map (fun a => ok_of (resolveWorktreeFile (Authorized_WorktreePath a)
                         (default ""%string (namedArguments (ToolRequest_Arguments (Authorized_Request a))
                                     !! "path"%string))))
    (executed (calls (ledger_of (reverse t)))).

(** A run may end on a write no test saw. The guard against it asks whether
    the test tool can still be called and counts a test step that is
    implemented as spent, although such a step takes another call: a run that
    edits, tests, edits again and declares completion is complete, its last
    tool an edit. *)
Theorem untested_write_completes :
  let script := [[edits "c1" "src/main.go"]; [tests "c2"]; [edits "c3" "src/main.go"]; []] in
  exists o, runs (sample_Run (sample_input open_plan)) (trace_of open_plan script) (Some (Ok o)) /\
    Outcome_Kind o = OutcomeImplementationComplete /\
    executed_tools (trace_of open_plan script) = [ToolApplyEdit; ToolTest; ToolApplyEdit] /\
    toolCanStillBeCalled (Outcome_Plan o) ToolTest = false /\
    StepMayAcceptAnotherCall StepImplemented = true.
Proof.
  intros script.
  assert (exists o, result_of open_plan script = Some (Ok o) /\
    Outcome_Kind o = OutcomeImplementationComplete /\
    toolCanStillBeCalled (Outcome_Plan o) ToolTest = false) as (o & Ho & Hk & Hc).
  { vm_compute. eexists. split; [reflexivity|]. split; reflexivity. }
  exists o. rewrite <- Ho. split; [apply sample_runs|]. split; [exact Hk|].
  split; [vm_compute; reflexivity|]. split; [exact Hc|reflexivity].
Qed.

(** The plan's files do not confine what is written. In a plan whose only
    scope is the directory [src], a call to edit [src/../main.go] is first
    refused by the scope check, then bound by the search for the step that
    owns its path, which compares prefixes without the check for a canonical
    path; and a patch of [main.go] that declares a file of the plan is bound
    by what it declares. Both run, and the file tools resolve both to
    [main.go] of the worktree, which no step names. *)
Theorem plan_scope_is_left :
  let dotted := [[edits "c1" "src/../main.go"]; [tests "c2"]; []] in
  let declared :=
    [[sample_call "c1" "edit" ToolApplyPatch "main.go|*** Update File: src/a.go"]; [tests "c2"]; []] in
  (exists x, runs (sample_Run (sample_input open_plan)) (trace_of open_plan dotted) x) /\
  (exists x, runs (sample_Run (sample_input open_plan)) (trace_of open_plan declared) x) /\
  Some (Some "/work/main.go"%string) = last (file_targets (trace_of open_plan dotted)) /\
  Some (Some "/work/main.go"%string) = last (file_targets (trace_of open_plan declared)) /\
  forallb (fun step => forallb (fun file => negb (path_in file "main.go")) (Step_ExpectedFiles step))
    open_plan = true.
Proof.
  intros dotted declared. split; [eexists; apply sample_runs|]. split; [eexists; apply sample_runs|].
  split; [vm_compute; reflexivity|]. split; vm_compute; reflexivity.
Qed.

(** A call on a validated step runs and then kills the run. Such a step
    accepts another call, so the edit is executed and recorded; the transition
    to implemented that follows is no edge of the step machine, and the run
    ends with an error after the effect. *)
Theorem validated_step_fails_after_effect :
  let steps := [edit_step ["src"%string] StepValidated; test_step StepPending] in
  let script := [[edits "c1" "src/main.go"]; [tests "c2"]; []] in
  StepMayAcceptAnotherCall StepValidated = true /\
  stepTransitionAllowed StepValidated StepImplemented = false /\
  runs (sample_Run (sample_input steps)) (trace_of steps script)
    (Some (Err (Sentinel "agent plan-step transition is invalid"))) /\
  executed_tools (trace_of steps script) = [ToolApplyEdit].
Proof.
  intros steps script. split; [reflexivity|]. split; [reflexivity|]. split; [|vm_compute; reflexivity].
  assert (result_of steps script = Some (Err (Sentinel "agent plan-step transition is invalid")))
    as <- by (vm_compute; reflexivity).
  apply sample_runs.
Qed.
