(* ===== verification/PatchTool.v ===== *)
(** * Textual patches (src/internal/executor/patch_tool.go)

    Reading a patch of one file into hunks, and applying the hunks to the text
    of the file. The digest is a parameter. *)

From Stdlib Require Import Ascii QArith.
From S2P Require Import Prelude GoText GoErrors GoPath GoSearch ToolPolicy.
Open Scope string_scope.
Open Scope list_scope.

Definition newline : string := bytes [10]%N.

Record PatchHunk := {
  Before : string;
  After : string;
  Added : Z;
  Removed : Z;
  Context_ : Z;
  Anchor : string;
}.

Record PatchRequest := { Patch_Path : string; Hunks : list PatchHunk }.

Record PatchOutcome := {
  Outcome_Path : string;
  BeforeSHA : string;
  AfterSHA : string;
  LinesAdded : Z;
  LinesRemove : Z;
  Outcome_Hunks : Z;
}.

Definition Summary (o : PatchOutcome) : string :=
  "patched " +:+ Outcome_Path o +:+ newline +:+ "  base:   " +:+ BeforeSHA o +:+ newline
  +:+ "  result: " +:+ AfterSHA o +:+ newline +:+ "  changed: +" +:+ fmt_d (LinesAdded o) +:+ "/-"
  +:+ fmt_d (LinesRemove o) +:+ " lines in " +:+ fmt_d (Outcome_Hunks o) +:+ " hunk(s)".

(** ** Parsing *)

Fixpoint first_header (prefixes : list string) (line : string) : option string :=
  match prefixes with
  | [] => None
  | prefix :: rest =>
      match strip_prefix prefix line with
      | Some text => Some text
      | None => first_header rest line
      end
  end.

Definition header_prefixes : list string := ["*** Update File:"; "*** Add File:"; "+++ "; "--- "].

Definition patchHeaderPath (line : string) : string :=
  match first_header header_prefixes line with
  | None => ""
  | Some text =>
      let named := TrimPrefix (TrimPrefix (TrimSpace text) "a/") "b/" in
      if (named =? "") || (named =? "/dev/null") then "" else named
  end.

Definition blanks : list ascii := [" "%char; "009"%char].

Definition hunkHeaderAnchor (line : string) : string :=
  let rest := TrimSpace (TrimPrefix (TrimSpace line) "@@") in
  match Index rest "@@" with
  | Some closing => TrimRight (TrimPrefix (str_drop (closing + 2) rest) " ") blanks
  | None => if HasPrefix rest "-" || HasPrefix rest "+" then "" else TrimRight rest blanks
  end.

Definition new_hunk (anchor : string) : PatchHunk :=
  {| Before := ""; After := ""; Added := 0; Removed := 0; Context_ := 0; Anchor := anchor |}.

Definition with_counts (h : PatchHunk) (added removed context : Z) : PatchHunk :=
  {| Before := Before h; After := After h; Added := added; Removed := removed; Context_ := context;
     Anchor := Anchor h |}.

Definition with_anchor (h : PatchHunk) (anchor : string) : PatchHunk :=
  {| Before := Before h; After := After h; Added := Added h; Removed := Removed h;
     Context_ := Context_ h; Anchor := anchor |}.

Definition countContext (h : PatchHunk) (line : string) : PatchHunk :=
  if negb (TrimSpace line =? "") then with_counts h (Added h) (Removed h) (Context_ h + 1) else h.

(** The variables of [ParsePatch]; [current] carries the lines before and after
    the change. *)
Record parsing := {
  pp_path : string;
  pp_also : list string;
  pp_hunks : list PatchHunk;
  pp_current : option (PatchHunk * list string * list string);
  pp_ended : bool;
}.

Definition parse_start : parsing :=
  {| pp_path := ""; pp_also := []; pp_hunks := []; pp_current := None; pp_ended := false |}.

Definition closeHunk (s : parsing) : parsing :=
  match pp_current s with
  | None => s
  | Some (h, before, after) =>
      {| pp_path := pp_path s; pp_also := pp_also s;
         pp_hunks := pp_hunks s ++
           [{| Before := Join before newline; After := Join after newline; Added := Added h;
               Removed := Removed h; Context_ := Context_ h; Anchor := Anchor h |}];
         pp_current := None; pp_ended := pp_ended s |}
  end.

Definition set_ended (s : parsing) (ended : bool) : parsing :=
  {| pp_path := pp_path s; pp_also := pp_also s; pp_hunks := pp_hunks s;
     pp_current := pp_current s; pp_ended := ended |}.

Definition set_current (s : parsing) (current : option (PatchHunk * list string * list string))
    : parsing :=
  {| pp_path := pp_path s; pp_also := pp_also s; pp_hunks := pp_hunks s;
     pp_current := current; pp_ended := pp_ended s |}.

Definition note_header (s : parsing) (named : string) : parsing :=
  if named =? "" then s
  else
    let path := if pp_path s =? "" then named else pp_path s in
    {| pp_path := path;
       pp_also := if negb (named =? path) then pp_also s ++ [named] else pp_also s;
       pp_hunks := pp_hunks s; pp_current := pp_current s; pp_ended := pp_ended s |}.

(** A line inside a hunk. *)
Definition hunk_line (h : PatchHunk) (before after : list string) (line : string)
    : PatchHunk * list string * list string :=
  match strip_prefix "-" line with
  | Some text => (with_counts h (Added h) (Removed h + 1) (Context_ h), before ++ [text], after)
  | None =>
  match strip_prefix "+" line with
  | Some text => (with_counts h (Added h + 1) (Removed h) (Context_ h), before, after ++ [text])
  | None =>
  match strip_prefix " " line with
  | Some text => (countContext h text, before ++ [text], after ++ [text])
  | None => (countContext h line, before ++ [line], after ++ [line])
  end end end.

Definition is_header (trimmed : string) : bool :=
  existsb (HasPrefix trimmed) ["*** Update File:"; "*** Add File:"; "--- "; "+++ "].

Definition is_envelope (trimmed : string) : bool :=
  HasPrefix trimmed "diff --git" || HasPrefix trimmed "index ".

Definition parse_line (s : parsing) (line : string) : parsing :=
  let trimmed := TrimSpace line in
  if is_header trimmed then note_header (set_ended (closeHunk s) false) (patchHeaderPath trimmed)
  else if HasPrefix trimmed "*** Begin Patch" then set_ended (closeHunk s) false
  else if HasPrefix trimmed "*** End Patch" then set_ended (closeHunk s) true
  else if is_envelope trimmed then s
  else if pp_ended s then s
  else if HasPrefix trimmed "@@" then
    set_current (closeHunk s) (Some (new_hunk (hunkHeaderAnchor trimmed), [], []))
  else match pp_current s with
  | None => s
  | Some (h, before, after) => set_current s (Some (hunk_line h before after line))
  end.

(** The hunks that change something, with the scope a context block before
    them names. *)
Fixpoint changing (pending : string) (hunks : list PatchHunk) : list PatchHunk :=
  match hunks with
  | [] => []
  | h :: rest =>
      if ((Added h =? 0) && (Removed h =? 0))%Z then
        changing (if negb (TrimSpace (Before h) =? "") then Before h else pending) rest
      else with_anchor h (if Anchor h =? "" then pending else Anchor h) :: changing "" rest
  end.

(** The number of the first hunk that does not say where it goes. *)
Fixpoint placeless (index : Z) (hunks : list PatchHunk) : option Z :=
  match hunks with
  | [] => None
  | h :: rest =>
      if (TrimSpace (Before h) =? "") && (Removed h =? 0)%Z then Some index
      else placeless (index + 1) rest
  end.

(** The request that accompanies an error is not kept. *)
Definition ParsePatch (raw : string) : result error PatchRequest :=
  let s := closeHunk (fold_left parse_line (SplitByte "010" (unix_newlines raw)) parse_start) in
  if negb (is_empty_list (pp_also s)) then
    Err (Sentinel ("this patch changes more than one file: " +:+ pp_path s +:+ " and "
      +:+ Join (pp_also s) ", " +:+ ". Send one apply-patch call per file, each with its own "
      +:+ quoted "*** Update File: <path>" +:+ " header and only that file's hunks"))
  else if TrimSpace (pp_path s) =? "" then
    Err (Sentinel ("the patch names no file: begin it with " +:+ quoted "*** Update File: <path>"))
  else if is_empty_list (pp_hunks s) then
    Err (Sentinel ("the patch has no hunks in it: mark each change with a line reading "
      +:+ quoted "@@" +:+ ", then the lines to remove prefixed " +:+ quoted "-"
      +:+ ", the lines to add prefixed " +:+ quoted "+"
      +:+ ", and enough unprefixed lines around them to say where the change goes"))
  else
    let hunks := changing "" (pp_hunks s) in
    if is_empty_list hunks then
      Err (Sentinel ("every hunk in this patch is context: none of them has a line prefixed "
        +:+ quoted "+" +:+ " or " +:+ quoted "-"
        +:+ ", so it describes the file without changing it"))
    else match placeless 1 hunks with
    | Some index =>
        Err (Sentinel ("hunk " +:+ fmt_d index
          +:+ " adds lines with no context, so it does not say where they go. Include the unprefixed lines it belongs after"))
    | None => Ok {| Patch_Path := pp_path s; Hunks := hunks |}
    end.

(** ** Applying *)

Definition uniqueIndexIn (body text : string) : option nat :=
  if text =? "" then None
  else match Index body text with
  | None => None
  | Some first =>
      if Contains (str_drop (first + String.length text) body) text then None else Some first
  end.

Definition indentForMessage (text : string) : string :=
  let lines := SplitByte "010" text in
  let lines := if (12 <? Z.of_nat (length lines))%Z then take 12 lines ++ ["  … and more"] else lines in
  Join (map (fun line => "  | " +:+ line) lines) newline.

(** From where a hunk is looked for: after the scope it names, when the rest of
    the file has that scope once. *)
Definition anchored (patched : string) (cursor : nat) (h : PatchHunk) : nat :=
  if Anchor h =? "" then cursor
  else match uniqueIndexIn (str_drop cursor patched) (Anchor h) with
  | Some at_ => (cursor + at_ + String.length (Anchor h))%nat
  | None => cursor
  end.

Definition no_place_text (index : Z) (path : string) (h : PatchHunk) : string :=
  if (Context_ h =? 0)%Z then
    "hunk " +:+ fmt_d index
    +:+ " carries no context, so there is nothing to locate it by, and the line it names is not in "
    +:+ path
    +:+ " as written. Put at least two unprefixed lines above and below the change, copied exactly from the file."
    +:+ newline +:+ newline +:+ "It was looking for:" +:+ newline +:+ indentForMessage (Before h)
  else
    "hunk " +:+ fmt_d index +:+ " does not match anything in " +:+ path
    +:+ ". Its context and the lines it removes must appear exactly as they are in the file, indentation included — read the file and copy them rather than retyping them."
    +:+ newline +:+ newline +:+ "It was looking for:" +:+ newline +:+ indentForMessage (Before h).

(** Where a hunk goes: after its anchor, else after the hunk before it, else
    anywhere in the file, each time only when that is one place. *)
Definition place (patched : string) (cursor : nat) (index : Z) (path : string) (h : PatchHunk)
    : result error nat :=
  let from := anchored patched cursor h in
  match uniqueIndexIn (str_drop from patched) (Before h) with
  | Some at_ => Ok (from + at_)%nat
  | None =>
  match uniqueIndexIn (str_drop cursor patched) (Before h) with
  | Some at_ => Ok (cursor + at_)%nat
  | None =>
      match Count patched (Before h), Index patched (Before h) with
      | 1%nat, Some at_ => Ok at_
      | O, _ | _, None => Err (Sentinel (no_place_text index path h))
      | n, _ => Err (Sentinel ("hunk " +:+ fmt_d index +:+ " matches " +:+ fmt_d (Z.of_nat n)
          +:+ " places in " +:+ path
          +:+ ", so it does not say which is meant. Add more unprefixed context lines around it until it matches once"))
      end
  end end.

Fixpoint apply_hunks (patched : string) (cursor : nat) (index : Z) (path : string)
    (hunks : list PatchHunk) : result error string :=
  match hunks with
  | [] => Ok patched
  | h :: rest =>
      absolute ← place patched cursor index path h;
      apply_hunks (splice patched absolute (String.length (Before h)) (After h))
        (absolute + String.length (After h)) (index + 1) path rest
  end.

Section Digest.
Context (sha256_hex : string -> string).

Definition hashOfContent (content : string) : string := str_take 12 (sha256_hex content).

Definition HashOfContent (content : string) : string := hashOfContent content.

Definition ApplyPatch (existing : string) (request : PatchRequest)
    : result error (string * PatchOutcome) :=
  patched ← apply_hunks existing 0 1 (Patch_Path request) (Hunks request);
  Ok (patched,
      {| Outcome_Path := Patch_Path request; BeforeSHA := hashOfContent existing;
         AfterSHA := hashOfContent patched;
         LinesAdded := foldr (fun h n => Added h + n)%Z 0%Z (Hunks request);
         LinesRemove := foldr (fun h n => Removed h + n)%Z 0%Z (Hunks request);
         Outcome_Hunks := Z.of_nat (length (Hunks request)) |}).
End Digest.

(** ** Limits *)

Record PatchLimits := {
  MaximumChangedLines : Z;
  MaximumHunks : Z;
  MaximumFileShare : Q;
}.

Definition UnboundedPatch : PatchLimits :=
  {| MaximumChangedLines := 0; MaximumHunks := 0; MaximumFileShare := 0 |}.

Section Limits.
(** [float64(changed) / float64(fileLines)], and a share as a percentage. *)
Context (ratio : Z -> Z -> Q) (percent : Q -> string).

Definition WithinLimits (l : PatchLimits) (o : PatchOutcome) (fileLines : Z) : option error :=
  let changed := (LinesAdded o + LinesRemove o)%Z in
  if ((0 <? MaximumChangedLines l) && (MaximumChangedLines l <? changed))%Z then
    Some (Sentinel ("this patch changes " +:+ fmt_d changed +:+ " lines and what was asked for allows "
      +:+ fmt_d (MaximumChangedLines l)
      +:+ ". Make the smallest change that satisfies it: if the work genuinely needs more than that, say so in your reply rather than doing it here"))
  else if ((0 <? MaximumHunks l) && (MaximumHunks l <? Outcome_Hunks o))%Z then
    Some (Sentinel ("this patch changes " +:+ fmt_d (Outcome_Hunks o)
      +:+ " separate places and what was asked for allows " +:+ fmt_d (MaximumHunks l)
      +:+ ". Several repairs at once are several chances to be wrong with one verification between them"))
  else if negb (Qle_bool (MaximumFileShare l) 0) && (0 <? fileLines)%Z
          && negb (Qle_bool (ratio changed fileLines) (MaximumFileShare l)) then
    Some (Sentinel ("this patch changes " +:+ percent (ratio changed fileLines) +:+ "% of "
      +:+ Outcome_Path o +:+ ", past the " +:+ percent (MaximumFileShare l)
      +:+ "% a change of this kind allows. A patch that replaces most of a file is a rewrite, and should be sent as one so that it reads as one"))
  else None.
End Limits.
