(* ===== verification/PatchFacts.v ===== *)
(** * What the patch tool promises

    A patch that applies is a sequence of replacements, each at the one place
    its text has where it is looked for; a patch whose hunks come in the order
    of the file applies; it can be taken back; and what is written out as a
    patch is read back as the same hunks. *)

From Stdlib Require Import Ascii Classical.
From S2P Require Import Prelude GoText GoErrors GoPath GoSearch ToolPolicy PatchTool.
Open Scope string_scope.
Open Scope list_scope.

(** ** One place *)

(** The first occurrence, and none in what follows it. *)
Definition only_place (s text l r : string) : Prop :=
  s = l +:+ text +:+ r /\
  (forall l', occurs s text l' -> (String.length l <= String.length l')%nat) /\
  (forall l', ~ occurs r text l').

Lemma uniqueIndexIn_Some body text i :
  uniqueIndexIn body text = Some i ->
  text <> "" /\ exists l r, only_place body text l r /\ String.length l = i.
Proof.
  unfold uniqueIndexIn. destruct (text =? "") eqn:He; [done|].
  destruct (Index body text) as [first|] eqn:Hi; [|done].
  destruct (Contains _ _) eqn:Hc; [done|]. intros [= <-]. to_prop. split; [done|].
  apply Index_Some in Hi as (l & r & -> & Hl & Hmin). exists l, r. split; [|done].
  split; [done|]. split; [by rewrite Hl|]. intros l' Hr.
  rewrite <- Hl, <- str_drop_drop, str_drop_app, str_drop_app in Hc.
  assert (Contains r text = true) as Hc'; [|congruence]. apply Contains_spec. eauto.
Qed.

Lemma uniqueIndexIn_only body text l r :
  text <> "" -> only_place body text l r -> uniqueIndexIn body text = Some (String.length l).
Proof.
  intros Ht (Hs & Hmin & Hr). unfold uniqueIndexIn.
  destruct (text =? "") eqn:He; [by to_prop|].
  rewrite (Index_first _ _ _ _ Hs Hmin), Hs.
  rewrite <- str_drop_drop, str_drop_app, str_drop_app.
  destruct (Contains r text) eqn:Hc; [|done]. apply Contains_spec in Hc as [l' Hl']. by apply Hr in Hl'.
Qed.

Lemma sole_only s text l r : text <> "" -> sole s text l r -> only_place s text l r.
Proof.
  intros Ht [Hs Hu]. split; [done|]. split; [by intros l' ->%Hu|].
  intros l' [r' Hr']. assert (occurs s text (l +:+ text +:+ l')) as Ho.
  { exists r'. by rewrite Hs, Hr', !string_app_assoc. }
  apply Hu in Ho. apply (f_equal String.length) in Ho. rewrite !length_app_string in Ho.
  destruct text; [done|]. cbn in Ho. lia.
Qed.

Lemma Count_one s text : text <> "" -> Count s text = 1%nat -> exists l r, only_place s text l r.
Proof.
  intros Ht. unfold Count. destruct (text =? "") eqn:He; [by to_prop|]. cbn [count_from].
  destruct (Index s text) as [i|] eqn:Hi; [|done].
  destruct (Index_Some _ _ _ Hi) as (l & r & Hs & Hl & Hmin).
  rewrite Hs at 2. rewrite <- Hl, <- str_drop_drop, str_drop_app, str_drop_app.
  destruct (String.length s) as [|n] eqn:Hn.
  { rewrite Hs, !length_app_string in Hn. destruct text; [done|]. cbn in Hn. lia. }
  cbn [count_from]. destruct (Index r text) as [j|] eqn:Hj; [done|]. intros _.
  exists l, r. split; [done|]. split; [by rewrite Hl|]. intros l'. by apply Index_None.
Qed.

Lemma only_place_one s text l r l' r' :
  only_place s text l r -> only_place s text l' r' -> l = l' /\ r = r'.
Proof.
  intros (Hs & Hmin & _) (Hs' & Hmin' & _).
  assert (String.length l = String.length l') as Hl.
  { apply Nat.le_antisymm; [apply Hmin; by exists r'|apply Hmin'; by exists r]. }
  assert (l = l') as ->.
  { rewrite <- (str_take_app l (text +:+ r)), <- (str_take_app l' (text +:+ r')), Hl. congruence. }
  split; [done|]. assert (text +:+ r = text +:+ r') as Hr.
  { by rewrite <- (str_drop_app l' (text +:+ r)), <- Hs, Hs', str_drop_app. }
  by rewrite <- (str_drop_app text r), Hr, str_drop_app.
Qed.

Lemma uniqueIndexIn_None body text :
  uniqueIndexIn body text = None -> text = "" \/ forall l r, ~ only_place body text l r.
Proof.
  intros H. destruct (String.eqb_spec text "") as [|Ht]; [by left|right]. intros l r Hp.
  by rewrite (uniqueIndexIn_only _ _ _ _ Ht Hp) in H.
Qed.

Lemma uniqueIndexIn_nowhere body text :
  (forall l r, ~ only_place body text l r) -> uniqueIndexIn body text = None.
Proof.
  intros H. destruct (uniqueIndexIn body text) as [i|] eqn:E; [|done].
  apply uniqueIndexIn_Some in E as (_ & l & r & Hp & _). by apply H in Hp.
Qed.

Lemma only_place_Count s text l r : text <> "" -> only_place s text l r -> Count s text = 1%nat.
Proof.
  intros Ht (Hs & Hmin & Hr). unfold Count. destruct (text =? "") eqn:He; [by to_prop|].
  cbn [count_from]. rewrite (Index_first _ _ _ _ Hs Hmin). generalize (String.length s). intros n.
  rewrite Hs, <- str_drop_drop, str_drop_app, str_drop_app.
  assert (Index r text = None) as Hi.
  { destruct (Index r text) as [i|] eqn:Hi; [|done]. apply Index_Some in Hi as (l' & r' & Hr' & _).
    exfalso. apply (Hr l'). by exists r'. }
  destruct n; cbn [count_from]; [done|by rewrite Hi].
Qed.

(** ** Where a hunk goes *)

(** The place of a hunk in a file that has been changed up to some point:
    [seen] ends there and [rest] follows. The text of the hunk has one place
    after the scope it names, itself at one place; or it has not, and has one
    place in the rest; or it has neither, and has one place in the file. *)
Definition in_scope (rest : string) (h : PatchHunk) (before l r : string) : Prop :=
  exists a a', Anchor h <> "" /\ only_place rest (Anchor h) a a' /\ only_place a' (Before h) l r /\
    before = a +:+ Anchor h.

Inductive goes (seen rest : string) (h : PatchHunk) : string -> string -> Prop :=
| goes_after_scope before l r :
    in_scope rest h before l r -> goes seen rest h (seen +:+ (before +:+ l)) r
| goes_after_last l r :
    (forall before l' r', ~ in_scope rest h before l' r') ->
    only_place rest (Before h) l r -> goes seen rest h (seen +:+ l) r
| goes_anywhere l r :
    (forall before l' r', ~ in_scope rest h before l' r') ->
    (forall l' r', ~ only_place rest (Before h) l' r') ->
    only_place (seen +:+ rest) (Before h) l r -> goes seen rest h l r.

(** One hunk after the other, each replaced at its place, the next one looked
    for from the end of its replacement. *)
Inductive patches : list PatchHunk -> string -> string -> string -> Prop :=
| patches_nil seen rest : patches [] seen rest (seen +:+ rest)
| patches_cons h hunks seen rest l r s' :
    goes seen rest h l r -> patches hunks (l +:+ After h) r s' -> patches (h :: hunks) seen rest s'.

Lemma goes_text seen rest h l r : goes seen rest h l r -> seen +:+ rest = l +:+ Before h +:+ r.
Proof.
  destruct 1 as [before l r (a & a' & _ & (-> & _) & (-> & _) & ->)|l r _ (-> & _)|l r _ _ (Hs & _)];
    by rewrite ?string_app_assoc.
Qed.

(** Where a hunk goes is one place. *)
Lemma goes_one seen rest h l r l' r' :
  goes seen rest h l r -> goes seen rest h l' r' -> l = l' /\ r = r'.
Proof.
  destruct 1 as [b l r Hs|l r Hn Hp|l r Hn Hm Hp]; destruct 1 as [b' l' r' Hs'|l' r' Hn' Hp'|l' r' Hn' Hm' Hp'];
    try solve [exfalso; first [by eapply Hn|by eapply Hn'|by eapply Hm|by eapply Hm']].
  - destruct Hs as (a & a' & _ & Ha & Hp & ->), Hs' as (c & c' & _ & Hc & Hp' & ->).
    destruct (only_place_one _ _ _ _ _ _ Ha Hc) as [-> ->].
    by destruct (only_place_one _ _ _ _ _ _ Hp Hp') as [-> ->].
  - by destruct (only_place_one _ _ _ _ _ _ Hp Hp') as [-> ->].
  - by destruct (only_place_one _ _ _ _ _ _ Hp Hp') as [-> ->].
Qed.

(** A patch takes a file to one file at most. *)
Lemma patches_one hunks seen rest s s' :
  patches hunks seen rest s -> patches hunks seen rest s' -> s = s'.
Proof.
  intros H. revert s'. induction H as [seen rest|h hunks seen rest l r s Hg Hp IH]; intros s' H'.
  - by inversion H'.
  - inversion H' as [|? ? ? ? l' r' ? Hg' Hp']; subst.
    destruct (goes_one _ _ _ _ _ _ _ Hg Hg') as [<- <-]. by apply IH.
Qed.

Lemma in_scope_anchored seen rest h before l r :
  in_scope rest h before l r ->
  anchored (seen +:+ rest) (String.length seen) h = (String.length seen + String.length before)%nat /\
  str_drop (String.length seen + String.length before) (seen +:+ rest) = l +:+ Before h +:+ r /\
  only_place (l +:+ Before h +:+ r) (Before h) l r.
Proof.
  intros (a & a' & Ha & Hp & Hb & ->). unfold anchored. apply String.eqb_neq in Ha as Ha'. rewrite Ha', str_drop_app.
  rewrite (uniqueIndexIn_only _ _ _ _ Ha Hp), length_app_string. split; [lia|].
  destruct Hp as (-> & _). pose proof Hb as (Hs & _). rewrite <- Hs. split; [|done].
  rewrite <- str_drop_drop, str_drop_app, <- str_drop_drop, str_drop_app. apply str_drop_app.
Qed.

Lemma no_scope_search seen rest h :
  Before h <> "" -> (forall before l r, ~ in_scope rest h before l r) ->
  uniqueIndexIn (str_drop (anchored (seen +:+ rest) (String.length seen) h) (seen +:+ rest)) (Before h)
    = None \/
  anchored (seen +:+ rest) (String.length seen) h = String.length seen.
Proof.
  intros Hb Hn. unfold anchored. destruct (Anchor h =? "") eqn:Ha; [by right|]. rewrite str_drop_app.
  destruct (uniqueIndexIn rest (Anchor h)) as [i|] eqn:Hi; [left|by right].
  apply uniqueIndexIn_Some in Hi as (Hne & a & a' & Hp & <-). apply uniqueIndexIn_nowhere.
  intros l r Hlr. pose proof Hp as (Hr & _).
  rewrite <- str_drop_drop, <- str_drop_drop, str_drop_app in Hlr.
  rewrite Hr, !str_drop_app in Hlr. apply (Hn (a +:+ Anchor h) l r). exists a, a'. done.
Qed.

(** The place the tool finds is where the hunk goes, and it finds it. *)
Lemma place_goes seen rest index path h l r :
  Before h <> "" -> goes seen rest h l r ->
  place (seen +:+ rest) (String.length seen) index path h = Ok (String.length l).
Proof.
  intros Hb. unfold place. destruct 1 as [before l r Hs|l r Hn Hp|l r Hn Hm Hp].
  - destruct (in_scope_anchored seen _ _ _ _ _ Hs) as (-> & -> & Hp).
    by rewrite (uniqueIndexIn_only _ _ _ _ Hb Hp), !length_app_string, Nat.add_assoc.
  - pose proof (no_scope_search seen _ _ Hb Hn) as [->| ->]; rewrite str_drop_app;
      by rewrite (uniqueIndexIn_only _ _ _ _ Hb Hp), length_app_string.
  - assert (uniqueIndexIn rest (Before h) = None) as Hr by by apply uniqueIndexIn_nowhere.
    assert (uniqueIndexIn (str_drop (anchored (seen +:+ rest) (String.length seen) h) (seen +:+ rest))
      (Before h) = None) as ->.
    { pose proof (no_scope_search seen _ _ Hb Hn) as [->| ->]; [done|by rewrite str_drop_app]. }
    rewrite str_drop_app, Hr, (only_place_Count _ _ _ _ Hb Hp).
    destruct Hp as (Hs & Hmin & _). by rewrite (Index_first _ _ _ _ Hs Hmin).
Qed.

(** The tool finds no place but by one of the three rules. *)
Lemma place_somewhere seen rest index path h p :
  Before h <> "" -> place (seen +:+ rest) (String.length seen) index path h = Ok p ->
  exists l r, goes seen rest h l r.
Proof.
  intros Hb Hp.
  destruct (classic (exists before l r, in_scope rest h before l r)) as [(b & l & r & Hs)|Hn].
  { eexists _, _. by apply goes_after_scope. }
  assert (forall before l r, ~ in_scope rest h before l r) as Hn' by naive_solver. clear Hn.
  unfold place in Hp. destruct (no_scope_search seen _ _ Hb Hn') as [Ha|Ha]; rewrite ?Ha in Hp;
    rewrite str_drop_app in Hp.
  all: destruct (uniqueIndexIn rest (Before h)) as [i|] eqn:Hi;
    [apply uniqueIndexIn_Some in Hi as (_ & l & r & Hl & _); eexists _, _; by apply goes_after_last|].
  all: apply uniqueIndexIn_None in Hi as [?|Hi]; [done|].
  all: destruct (Count _ _) as [|[|n]] eqn:Hc; [done| |by destruct (Index _ _)].
  all: apply Count_one in Hc as (l & r & Hl); [|done]; eexists _, _; by apply goes_anywhere.
Qed.

Lemma place_found seen rest index path h p :
  Before h <> "" -> place (seen +:+ rest) (String.length seen) index path h = Ok p ->
  exists l r, goes seen rest h l r /\ p = String.length l.
Proof.
  intros Hb Hp. destruct (place_somewhere seen rest index path h p Hb Hp) as (l & r & Hg).
  exists l, r. split; [done|]. rewrite (place_goes _ _ _ _ _ _ _ Hb Hg) in Hp. by injection Hp.
Qed.

Lemma apply_hunks_patches hunks seen rest index path s' :
  Forall (fun h => Before h <> "") hunks ->
  apply_hunks (seen +:+ rest) (String.length seen) index path hunks = Ok s' <->
  patches hunks seen rest s'.
Proof.
  intros Hall. revert seen rest index. induction Hall as [|h hunks Hb Hall IH]; intros seen rest index;
    cbn [apply_hunks].
  { split; [intros [= <-]; constructor|by inversion 1]. }
  assert (forall l r, goes seen rest h l r ->
    splice (seen +:+ rest) (String.length l) (String.length (Before h)) (After h) = (l +:+ After h) +:+ r)
    as Hsp.
  { intros l r ->%goes_text. by rewrite splice_app, string_app_assoc. }
  split.
  - intros (p & (l & r & Hg & ->)%place_found & Hr)%bind_Ok; [|done].
    rewrite (Hsp _ _ Hg), <- length_app_string in Hr. econstructor; [exact Hg|]. by eapply IH.
  - inversion 1 as [|? ? ? ? l r ? Hg Hp]; subst. rewrite (place_goes _ _ _ _ _ _ _ Hb Hg).
    cbn [mbind result_bind]. rewrite (Hsp _ _ Hg), <- length_app_string. by apply IH.
Qed.

(** ** Hunks in the order of the file *)

(** The file as what lies before, between and after the texts of the hunks. *)
Fixpoint weave (text : PatchHunk -> string) (first : string) (l : list (PatchHunk * string)) : string :=
  match l with
  | [] => first
  | (h, gap) :: rest => first +:+ text h +:+ weave text gap rest
  end.

(** Each text occurs once in the file from the end of the one before it. *)
Fixpoint in_order (text : PatchHunk -> string) (first : string) (l : list (PatchHunk * string)) : Prop :=
  match l with
  | [] => True
  | (h, gap) :: rest =>
      text h <> "" /\
      sole (first +:+ text h +:+ weave text gap rest) (text h) first (weave text gap rest) /\
      in_order text gap rest
  end.

Lemma place_after seen first h tail index path :
  Before h <> "" -> Anchor h = "" -> only_place (first +:+ Before h +:+ tail) (Before h) first tail ->
  place (seen +:+ (first +:+ Before h +:+ tail)) (String.length seen) index path h
  = Ok (String.length seen + String.length first)%nat.
Proof.
  intros Hb Ha Ho. unfold place, anchored. rewrite Ha. cbn [String.eqb]. rewrite str_drop_app.
  by rewrite (uniqueIndexIn_only _ _ _ _ Hb Ho).
Qed.

Lemma apply_in_order l : forall seen first index path,
  in_order Before first l -> Forall (fun hg => Anchor hg.1 = "") l ->
  apply_hunks (seen +:+ weave Before first l) (String.length seen) index path l.*1
  = Ok (seen +:+ weave After first l).
Proof.
  induction l as [|[h gap] l IH]; intros seen first index path; cbn [in_order weave]; [done|].
  intros (Hb & Hs & Ho) [Ha Hl]%Forall_cons. cbn [fst] in Ha. cbn [fmap list_fmap apply_hunks fst].
  rewrite place_after by auto using sole_only. cbn [mbind result_bind].
  rewrite <- (string_app_assoc seen first), <- length_app_string, splice_app.
  rewrite <- (string_app_assoc (seen +:+ first)), <- length_app_string, IH by done.
  by rewrite !string_app_assoc.
Qed.

Lemma weave_map text text' f first l :
  (forall h, text' (f h) = text h) ->
  weave text' first (map (fun hg => (f hg.1, hg.2)) l) = weave text first l.
Proof.
  intros Hf. revert first. induction l as [|[h gap] l IH]; intros first; cbn; [done|]. by rewrite Hf, IH.
Qed.

Lemma in_order_map text text' f first l :
  (forall h, text' (f h) = text h) -> in_order text first l ->
  in_order text' first (map (fun hg => (f hg.1, hg.2)) l).
Proof.
  intros Hf. revert first. induction l as [|[h gap] l IH]; intros first; cbn; [done|].
  rewrite Hf, (weave_map text) by done. intros (? & ? & ?). eauto.
Qed.

(** The hunk that takes a hunk back. *)
Definition reversed (h : PatchHunk) : PatchHunk :=
  {| Before := After h; After := Before h; Added := Removed h; Removed := Added h;
     Context_ := Context_ h; Anchor := Anchor h |}.

(** ** Writing a patch out *)

Inductive edit := Keep (text : string) | Drop (text : string) | Put (text : string).

Definition render_edit (e : edit) : string :=
  match e with
  | Keep text => String " " text
  | Drop text => String "-" text
  | Put text => String "+" text
  end.

Definition header_line (path : string) : string := "*** Update File: " +:+ path.

Definition render_hunk (h : list edit) : list string := "@@" :: map render_edit h.

Definition render_patch (path : string) (hunks : list (list edit)) : string :=
  Join (header_line path :: (hunks ≫= render_hunk) ++ ["*** End Patch"]) newline.

Definition before_lines (h : list edit) : list string :=
  omap (fun e => match e with Keep t | Drop t => Some t | Put _ => None end) h.

Definition after_lines (h : list edit) : list string :=
  omap (fun e => match e with Keep t | Put t => Some t | Drop _ => None end) h.

Definition count_edits (f : edit -> bool) (h : list edit) : Z :=
  foldr (fun e n => if f e then n + 1 else n)%Z 0%Z h.

Definition is_put (e : edit) : bool := match e with Put _ => true | _ => false end.
Definition is_drop (e : edit) : bool := match e with Drop _ => true | _ => false end.
Definition is_context (e : edit) : bool :=
  match e with Keep t => negb (TrimSpace t =? "") | _ => false end.

Definition hunk_of (h : list edit) : PatchHunk :=
  {| Before := Join (before_lines h) newline; After := Join (after_lines h) newline;
     Added := count_edits is_put h; Removed := count_edits is_drop h;
     Context_ := count_edits is_context h; Anchor := "" |}.

(** What a line of a patch file that is not part of a hunk opens with. *)
Definition openings : list string :=
  ["*** Update File:"; "*** Add File:"; "--- "; "+++ "; "*** Begin Patch"; "*** End Patch";
   "diff --git"; "index "; "@@"].

(** One line, and one that opens like none of these. *)
Definition inert (line : string) : bool :=
  negb (has_byte "010" line) && negb (has_byte "013" line)
  && forallb (fun opening => negb (HasPrefix (TrimSpace line) opening)) openings.

(** A hunk that changes something and says where. *)
Definition sound_hunk (h : list edit) : bool :=
  forallb (fun e => inert (render_edit e)) h
  && existsb (fun e => is_put e || is_drop e) h
  && (existsb is_drop h || negb (TrimSpace (Join (before_lines h) newline) =? "")).

(** A name on one line, without space at its ends, that is not the null device
    and does not start with the [a/] or [b/] of a git header. *)
Definition sound_path (path : string) : bool :=
  negb (has_byte "010" path) && negb (has_byte "013" path) && (TrimSpace path =? path)
  && negb (path =? "") && negb (path =? "/dev/null")
  && negb (HasPrefix path "a/") && negb (HasPrefix path "b/").

(** The header of such a path is read as that path. *)
Lemma header_path path :
  sound_path path = true ->
  is_header (TrimSpace (header_line path)) = true /\
  patchHeaderPath (TrimSpace (header_line path)) = path /\ (TrimSpace path =? "") = false.
Proof.
  intros Hp. unfold sound_path in Hp. to_prop.
  destruct Hp as [[[[[[_ _] Ht] Hne] Hnull] Ha] Hb].
  assert (TrimSpace (header_line path) = header_line path) as ->.
  { apply (TrimSpace_after_word "*" "** Update File:" path eq_refl Ht Hne). }
  apply String.eqb_neq in Hne as Hne', Hnull as Hnull'.
  split; [reflexivity|]. split; [|by rewrite Ht].
  unfold patchHeaderPath, header_prefixes. cbn [first_header].
  change (strip_prefix "*** Update File:" (header_line path)) with (Some (" " +:+ path)). cbv iota zeta.
  rewrite TrimSpace_after_blank by done. unfold TrimPrefix.
  unfold HasPrefix in Ha, Hb. destruct (strip_prefix "a/" path); [done|]. cbn [from_option].
  destruct (strip_prefix "b/" path); [done|]. cbn [from_option]. by rewrite Hne', Hnull'.
Qed.

Lemma inert_spec line :
  inert line = true ->
  has_byte "010" line = false /\ has_byte "013" line = false /\
  is_header (TrimSpace line) = false /\ HasPrefix (TrimSpace line) "*** Begin Patch" = false /\
  HasPrefix (TrimSpace line) "*** End Patch" = false /\ is_envelope (TrimSpace line) = false /\
  HasPrefix (TrimSpace line) "@@" = false.
Proof.
  unfold inert, is_header, is_envelope, openings. cbn [forallb existsb].
  generalize (TrimSpace line). intros trimmed Hi. to_prop.
  destruct Hi as [[-> ->] [-> [-> [-> [-> [-> [-> [-> [-> [-> _]]]]]]]]]]. done.
Qed.

Lemma count_edits_snoc f h e :
  count_edits f (h ++ [e]) = (count_edits f h + if f e then 1 else 0)%Z.
Proof.
  unfold count_edits. induction h as [|x h IH]; cbn; [by destruct (f e)|].
  rewrite IH. destruct (f x); lia.
Qed.

(** The hunk being read after the edits [h]. *)
Definition reading (h : list edit) : PatchHunk * list string * list string :=
  ({| Before := ""; After := ""; Added := count_edits is_put h; Removed := count_edits is_drop h;
      Context_ := count_edits is_context h; Anchor := "" |}, before_lines h, after_lines h).

Lemma hunk_line_reading h e :
  (let '(hunk, before, after) := reading h in hunk_line hunk before after (render_edit e))
  = reading (h ++ [e]).
Proof.
  unfold reading, before_lines, after_lines. rewrite !count_edits_snoc, !omap_app.
  destruct e as [t|t|t]; cbn [render_edit hunk_line strip_prefix is_put is_drop is_context].
  - unfold hunk_line, countContext, with_counts. cbn. rewrite !Z.add_0_r.
    destruct (negb _); by rewrite ?Z.add_0_r.
  - unfold hunk_line, with_counts. cbn. by rewrite !Z.add_0_r, !app_nil_r.
  - unfold hunk_line, with_counts. cbn. by rewrite !Z.add_0_r, !app_nil_r.
Qed.

Lemma inert_line s h e :
  inert (render_edit e) = true -> pp_ended s = false -> pp_current s = Some (reading h) ->
  parse_line s (render_edit e) = set_current s (Some (reading (h ++ [e]))).
Proof.
  intros (_ & _ & Hh1 & Hh2 & Hh3 & Hh4 & Hh5)%inert_spec He Hc.
  unfold parse_line. cbv zeta. rewrite He, Hc, Hh1, Hh2, Hh3, Hh4, Hh5. pose proof (hunk_line_reading h e) as Hh.
  destruct (reading h) as [[hunk before] after]. by rewrite Hh.
Qed.

Lemma parse_edits s h rest :
  forallb (fun e => inert (render_edit e)) rest = true -> pp_ended s = false ->
  pp_current s = Some (reading h) ->
  fold_left parse_line (map render_edit rest) s = set_current s (Some (reading (h ++ rest))).
Proof.
  revert s h. induction rest as [|e rest IH]; intros s h Hi He Hc; cbn [map fold_left].
  { rewrite app_nil_r, <- Hc. by destruct s. }
  cbn [forallb] in Hi. apply andb_true_iff in Hi as [Hi Hr].
  rewrite (inert_line s h e), IH with (h := h ++ [e]) by done.
  by rewrite <- (assoc_L (++)).
Qed.

Lemma closeHunk_same s :
  pp_path (closeHunk s) = pp_path s /\ pp_also (closeHunk s) = pp_also s /\
  pp_ended (closeHunk s) = pp_ended s /\ pp_current (closeHunk s) = None.
Proof. unfold closeHunk. by destruct (pp_current s) as [[[? ?] ?]|] eqn:E. Qed.

Lemma parse_hunk s h :
  forallb (fun e => inert (render_edit e)) h = true -> pp_ended s = false ->
  closeHunk (fold_left parse_line (render_hunk h) s)
  = {| pp_path := pp_path s; pp_also := pp_also s; pp_hunks := pp_hunks (closeHunk s) ++ [hunk_of h];
       pp_current := None; pp_ended := false |}.
Proof.
  intros Hi He. unfold render_hunk. cbn [fold_left].
  assert (parse_line s "@@" = set_current (closeHunk s) (Some (reading []))) as ->.
  { unfold parse_line. cbv zeta. change (TrimSpace "@@") with "@@". rewrite He. reflexivity. }
  assert (pp_ended (closeHunk s) = false) as He'.
  { unfold closeHunk. by destruct (pp_current s) as [[[? ?] ?]|]. }
  rewrite parse_edits with (h := []) by done. rewrite app_nil_l.
  unfold closeHunk at 1. cbn. rewrite He'. unfold closeHunk. by destruct (pp_current s) as [[[? ?] ?]|].
Qed.

(** Reading starts from a state with or without a hunk open; what has been
    read is what closing it leaves. *)
Lemma parse_hunks hunks s :
  Forall (fun h => forallb (fun e => inert (render_edit e)) h = true) hunks -> pp_ended s = false ->
  closeHunk (fold_left parse_line (hunks ≫= render_hunk) s)
  = {| pp_path := pp_path s; pp_also := pp_also s;
       pp_hunks := pp_hunks (closeHunk s) ++ map hunk_of hunks; pp_current := None;
       pp_ended := false |} /\
  pp_ended (fold_left parse_line (hunks ≫= render_hunk) s) = false.
Proof.
  intros Hall. revert s. induction Hall as [|h hunks Hh Hall IH]; intros s He.
  { cbn. rewrite app_nil_r. split; [|done]. unfold closeHunk.
    destruct s as [p a hs [[[? ?] ?]|] e]; cbn in *; by rewrite He. }
  change ((h :: hunks) ≫= render_hunk) with (render_hunk h ++ (hunks ≫= render_hunk)).
  rewrite fold_left_app. set (s1 := fold_left parse_line (render_hunk h) s).
  pose proof (parse_hunk s h Hh He) as Hc. fold s1 in Hc.
  clearbody s1. destruct (closeHunk_same s1) as (Hp & Ha & He1 & _). rewrite Hc in Hp, Ha, He1.
  cbn in Hp, Ha, He1.
  destruct (IH s1 (eq_sym He1)) as [-> ->]. rewrite Hc, Hp, Ha. cbn. by rewrite <- (assoc_L (++)).
Qed.

Lemma unix_newlines_plain s : has_byte "013" s = false -> unix_newlines s = s.
Proof.
  induction s as [|c s IH]; [done|]. cbn [has_byte]. rewrite orb_false_iff. intros [Hc Hs].
  transitivity (String c (unix_newlines s)); [|by rewrite (IH Hs)].
  destruct c as [[] [] [] [] [] [] [] []]; try reflexivity. done.
Qed.

Lemma has_byte_app c a b : has_byte c (a +:+ b) = has_byte c a || has_byte c b.
Proof. induction a as [|x a IH]; [done|]. rewrite string_app_cons. cbn. by rewrite IH, orb_assoc. Qed.

Lemma has_byte_Join lines :
  Forall (fun line => has_byte "013" line = false) lines ->
  has_byte "013" (Join lines newline) = false.
Proof.
  induction 1 as [|l lines Hl Hall IH]; [done|].
  destruct lines as [|l2 lines]; [done|]. by rewrite Join_cons2, !has_byte_app, Hl, IH.
Qed.

Definition quiet (line : string) : Prop := has_byte "010" line = false /\ has_byte "013" line = false.

Lemma patch_lines lines :
  lines <> [] -> Forall quiet lines -> SplitByte "010" (unix_newlines (Join lines newline)) = lines.
Proof.
  intros Hne Hq. rewrite unix_newlines_plain.
  - apply SplitByte_Join; [done|]. eapply Forall_impl; [exact Hq|]. by intros x [].
  - apply has_byte_Join. eapply Forall_impl; [exact Hq|]. by intros x [].
Qed.

Lemma rendered_quiet path hunks :
  sound_path path = true -> forallb sound_hunk hunks = true ->
  Forall quiet (header_line path :: (hunks ≫= render_hunk) ++ ["*** End Patch"]).
Proof.
  intros Hp Hh. constructor.
  { unfold sound_path in Hp. to_prop. unfold quiet, header_line. rewrite !has_byte_app.
    destruct Hp as [[[[[[-> ->] _] _] _] _] _]. done. }
  apply Forall_app. split; [|by repeat constructor].
  rewrite forallb_forall in Hh. apply Forall_forall. intros line (h & Hl & Hin)%list_elem_of_bind.
  apply list_elem_of_In, Hh in Hin. unfold sound_hunk in Hin. to_prop. destruct Hin as [[Hin _] _].
  apply elem_of_cons in Hl as [->|(e & -> & He)%list_elem_of_fmap]; [done|].
  rewrite forallb_forall in Hin. apply list_elem_of_In, Hin in He.
  by apply inert_spec in He as (? & ? & _).
Qed.

Lemma count_edits_app f h h' :
  count_edits f (h ++ h') = (count_edits f h + count_edits f h')%Z.
Proof. unfold count_edits. induction h as [|x h IH]; cbn; [done|]. rewrite IH. destruct (f x); lia. Qed.

Lemma count_edits_pos f h : (0 <= count_edits f h)%Z.
Proof. unfold count_edits. induction h as [|x h IH]; cbn; [lia|]. destruct (f x); lia. Qed.

Lemma count_edits_found f h : existsb f h = true -> (0 < count_edits f h)%Z.
Proof.
  intros (e & (l1 & l2 & ->)%list_elem_of_In%list_elem_of_split & He)%existsb_exists.
  rewrite count_edits_app. change (e :: l2) with ([e] ++ l2). rewrite count_edits_app.
  pose proof (count_edits_pos f l1). pose proof (count_edits_pos f l2).
  cbn. rewrite He. lia.
Qed.

Lemma changing_hunks hunks :
  forallb sound_hunk hunks = true -> changing "" (map hunk_of hunks) = map hunk_of hunks.
Proof.
  induction hunks as [|h hunks IH]; [done|]. cbn [forallb map changing]. intros [Hh Hr]%andb_true_iff.
  unfold sound_hunk in Hh. to_prop. destruct Hh as [[_ Hc] _].
  assert (((Added (hunk_of h) =? 0) && (Removed (hunk_of h) =? 0))%Z = false) as ->.
  { cbn [Added Removed hunk_of].
    apply existsb_exists in Hc as (e & He & Hpd). apply orb_true_iff in Hpd as [Hpd|Hpd].
    - assert (0 < count_edits is_put h)%Z by (apply count_edits_found, existsb_exists; eauto).
      apply andb_false_iff. left. to_prop. lia.
    - assert (0 < count_edits is_drop h)%Z by (apply count_edits_found, existsb_exists; eauto).
      apply andb_false_iff. right. to_prop. lia. }
  cbn. by rewrite (IH Hr).
Qed.

Lemma placeless_hunks hunks index :
  forallb sound_hunk hunks = true -> placeless index (map hunk_of hunks) = None.
Proof.
  revert index. induction hunks as [|h hunks IH]; intros index; [done|]. cbn [forallb map placeless].
  intros [Hh Hr]%andb_true_iff. unfold sound_hunk in Hh. to_prop. destruct Hh as [_ Hb].
  cbn [Before hunk_of Removed].
  assert ((TrimSpace (Join (before_lines h) newline) =? "")
          && (count_edits is_drop h =? 0)%Z = false) as ->; [|by apply IH].
  apply andb_false_iff. destruct Hb as [Hd%count_edits_found|Hb]; [right; to_prop; lia|left; by to_prop].
Qed.

Lemma parse_rendered path hunks :
  sound_path path = true -> forallb sound_hunk hunks = true ->
  closeHunk (fold_left parse_line (header_line path :: (hunks ≫= render_hunk) ++ ["*** End Patch"])
    parse_start)
  = {| pp_path := path; pp_also := []; pp_hunks := map hunk_of hunks; pp_current := None;
       pp_ended := true |}.
Proof.
  intros Hp Hh. cbn [fold_left]. rewrite fold_left_app.
  assert (parse_line parse_start (header_line path) =
    {| pp_path := path; pp_also := []; pp_hunks := []; pp_current := None; pp_ended := false |}) as ->.
  { destruct (header_path path Hp) as (Hhd & Hpath & Hne).
    unfold parse_line. cbv zeta. rewrite Hhd, Hpath. unfold note_header.
    destruct (path =? "") eqn:E; to_prop; [by rewrite E in Hne|]. cbn. by rewrite String.eqb_refl. }
  set (s0 := {| pp_path := path; pp_also := _; pp_hunks := _; pp_current := _; pp_ended := _ |}).
  destruct (parse_hunks hunks s0) as [Hc He]; [|done|].
  { rewrite forallb_forall in Hh. apply Forall_forall. intros h Hin%list_elem_of_In%Hh.
    unfold sound_hunk in Hin. to_prop. by destruct Hin as [[? _] _]. }
  cbn [fold_left]. set (s1 := fold_left parse_line _ s0) in *. clearbody s1.
  assert (parse_line s1 "*** End Patch" = set_ended (closeHunk s1) true) as -> by reflexivity.
  rewrite Hc. reflexivity.
Qed.

Lemma foldr_map_add {A} (f : A -> Z) l :
  foldr (fun a n => f a + n)%Z 0%Z l = foldr Z.add 0%Z (map f l).
Proof. induction l as [|a l IH]; [done|]. cbn. by rewrite IH. Qed.

(** ** The theorems *)

(** [C36] What is written out as a patch is read back: the same path, and per hunk
    the text before, the text after and the counts. It holds for a path on one
    line that is not empty, has no space at its ends, is not [/dev/null] and
    does not start with [a/] or [b/]; and for hunks of kept, dropped and added
    lines that add or drop something, that drop a line or keep one that is not
    blank, and whose written lines, trimmed, open with none of the markers the
    format reserves ([*** Update File:], [*** Add File:], [--- ], [+++ ],
    [*** Begin Patch], [*** End Patch], [diff --git], [index ], [@@]). *)
Theorem ParsePatch_render path hunks :
  sound_path path = true -> hunks <> [] -> forallb sound_hunk hunks = true ->
  ParsePatch (render_patch path hunks) = Ok {| Patch_Path := path; Hunks := map hunk_of hunks |}.
Proof.
  intros Hp Hne Hh. unfold ParsePatch, render_patch. cbv zeta.
  rewrite patch_lines by (done || by apply rendered_quiet). rewrite parse_rendered by done.
  cbn [pp_also pp_path pp_hunks is_empty_list negb].
  destruct (header_path path Hp) as (_ & _ & ->).
  assert (is_empty_list (map hunk_of hunks) = false) as He by by destruct hunks.
  rewrite He, changing_hunks, He, placeless_hunks by done. reflexivity.
Qed.
Section Theorems.
Context (sha256_hex : string -> string).

(** [C28] A patch applies exactly when each of its hunks has a place, and then does
    what it says and nothing else. For hunks that all have text to look for
    ([Before] is not empty): the result is the file with the hunks' texts
    replaced one after the other, each at the one place (without overlap) it
    has after the scope it names, or failing that after the hunk before it, or
    failing that in the whole file; a hunk that has no such place, or several,
    refuses the patch. There is at most one such result. The outcome counts
    every line of every hunk and names both revisions. *)
Theorem ApplyPatch_sound existing request patched o :
  Forall (fun h => Before h <> "") (Hunks request) ->
  ApplyPatch sha256_hex existing request = Ok (patched, o) <->
  patches (Hunks request) "" existing patched /\
  (forall other, patches (Hunks request) "" existing other -> other = patched) /\
  o = {| Outcome_Path := Patch_Path request;
         BeforeSHA := str_take 12 (sha256_hex existing);
         AfterSHA := str_take 12 (sha256_hex patched);
         LinesAdded := foldr Z.add 0%Z (map Added (Hunks request));
         LinesRemove := foldr Z.add 0%Z (map Removed (Hunks request));
         Outcome_Hunks := Z.of_nat (length (Hunks request)) |}.
Proof.
  intros Hb. unfold ApplyPatch. rewrite (foldr_map_add Added), (foldr_map_add Removed).
  pose proof (apply_hunks_patches (Hunks request) "" existing 1 (Patch_Path request) patched Hb) as Hp.
  cbn [String.length] in Hp. rewrite string_app_empty in Hp. split.
  - intros (p & Ha & Ho)%bind_Ok. injection Ho as -> <-. apply Hp in Ha.
    split; [exact Ha|]. split; [|reflexivity]. intros other Ho. exact (patches_one _ _ _ _ _ Ho Ha).
  - intros (Ha & _ & ->). apply Hp in Ha. rewrite Ha. reflexivity.
Qed.

(** A patch in the order of the file applies and can be taken back. When a
    file is made of gaps and the texts of hunks that name no scope, each text
    occurring once from the end of the one before it on (it may well occur
    earlier), the patch replaces exactly these texts; and when the new texts
    are as distinct, the reversed hunks restore the file. *)
Theorem ordered_patch_reverts path first l :
  in_order Before first l -> in_order After first l -> Forall (fun hg => Anchor hg.1 = "") l ->
  exists o o',
    ApplyPatch sha256_hex (weave Before first l) {| Patch_Path := path; Hunks := l.*1 |}
      = Ok (weave After first l, o) /\
    ApplyPatch sha256_hex (weave After first l) {| Patch_Path := path; Hunks := map reversed l.*1 |}
      = Ok (weave Before first l, o').
Proof.
  intros Hb Ha Hn. set (l' := map (fun hg => (reversed hg.1, hg.2)) l).
  assert (map reversed l.*1 = l'.*1) as ->.
  { unfold l'. rewrite <- !list_fmap_compose. by apply list_fmap_ext. }
  assert (in_order Before first l') as Hb' by by eapply in_order_map.
  assert (Forall (fun hg => Anchor hg.1 = "") l') as Hn'.
  { unfold l'. rewrite Forall_fmap. exact Hn. }
  unfold ApplyPatch. cbn [Hunks Patch_Path].
  pose proof (apply_in_order l "" first 1 path Hb Hn) as H1.
  pose proof (apply_in_order l' "" first 1 path Hb' Hn') as H2.
  rewrite !string_app_empty in H1, H2. cbn [String.length] in H1, H2. rewrite H1.
  unfold l' in H2 at 1 3. rewrite (weave_map After Before), (weave_map Before After) in H2 by done.
  rewrite H2. eexists _, _. split; reflexivity.
Qed.

End Theorems.

(** ** Witnesses *)

Definition sample_edits : list edit :=
  [Keep "func main() {"; Drop "  run()"; Put "  serve()"; Keep "}"].

Definition second_edits : list edit := [Keep "}"; Put "// end"].

Lemma ParsePatch_render_witness :
  ParsePatch (render_patch "main.go" [sample_edits; second_edits])
  = Ok {| Patch_Path := "main.go"; Hunks := [hunk_of sample_edits; hunk_of second_edits] |}.
Proof.
  exact (ParsePatch_render "main.go" [sample_edits; second_edits]
    ltac:(vm_compute; reflexivity) ltac:(discriminate) ltac:(vm_compute; reflexivity)).
Defined.

Definition letter_hunk (before after : string) : PatchHunk :=
  {| Before := before; After := after; Added := 1; Removed := 1; Context_ := 0; Anchor := "" |}.

(** An executable test that a text has one place. *)
Definition unique_at (s sub : string) (n : nat) : bool :=
  forallb (fun k => negb (HasPrefix (str_drop k s) sub) || (k =? n)%nat)
    (List.seq 0 (S (String.length s))).

Lemma unique_at_sole s sub l r :
  s = l +:+ sub +:+ r -> unique_at s sub (String.length l) = true -> sole s sub l r.
Proof.
  intros Hs Hu. split; [done|]. intros l' [r' Hr']. unfold unique_at in Hu.
  rewrite forallb_forall in Hu. specialize (Hu (String.length l')).
  assert (String.length l' = String.length l) as Hl.
  { destruct (HasPrefix (str_drop (String.length l') s) sub) eqn:Hp.
    - specialize (Hu ltac:(apply in_seq; rewrite Hr', !length_app_string; lia)). by apply Nat.eqb_eq.
    - exfalso. rewrite Hr', str_drop_app in Hp.
      assert (HasPrefix (sub +:+ r') sub = true) as Hc; [apply HasPrefix_spec; eauto|congruence]. }
  rewrite <- (str_take_app l (sub +:+ r)), <- (str_take_app l' (sub +:+ r')), Hl. congruence.
Qed.

(** The second hunk's text also occurs before the first hunk: the order of the
    patch tells the places apart. *)
Definition sample_weave : list (PatchHunk * string) :=
  [(letter_hunk "a" "b", "-"); (letter_hunk "c" "d", "-")].

Definition sample_digest (content : string) : string := "0123456789abcdef" +:+ content.

Lemma ordered_patch_reverts_witness :
  exists o o',
    ApplyPatch sample_digest "c-a-c-" {| Patch_Path := "f"; Hunks := sample_weave.*1 |}
      = Ok ("c-b-d-", o) /\
    ApplyPatch sample_digest "c-b-d-" {| Patch_Path := "f"; Hunks := map reversed sample_weave.*1 |}
      = Ok ("c-a-c-", o').
Proof.
  refine (ordered_patch_reverts sample_digest "f" "c-" sample_weave _ _ _).
  - split; [done|split; [by apply unique_at_sole|split; [done|split; [by apply unique_at_sole|done]]]].
  - split; [done|split; [by apply unique_at_sole|split; [done|split; [by apply unique_at_sole|done]]]].
  - by repeat constructor.
Defined.

(** A file in which a hunk's text occurs twice, and the scope that tells which
    one is meant. *)
Definition scoped_request : PatchRequest :=
  {| Patch_Path := "main.go";
     Hunks := [{| Before := "return"; After := "return nil"; Added := 1; Removed := 1;
                  Context_ := 0; Anchor := "func b" |}] |}.

Lemma ApplyPatch_sound_witness :
  exists o,
    ApplyPatch sample_digest "func a return func b return" scoped_request
      = Ok ("func a return func b return nil", o) /\
    patches (Hunks scoped_request) "" "func a return func b return" "func a return func b return nil" /\
    Outcome_Hunks o = 1%Z.
Proof.
  eexists. assert (H : ApplyPatch sample_digest "func a return func b return" scoped_request
    = Ok ("func a return func b return nil", _)) by (vm_compute; reflexivity).
  split; [exact H|].
  destruct (proj1 (ApplyPatch_sound sample_digest "func a return func b return" scoped_request _ _
    ltac:(by repeat constructor)) H) as (Hp & _ & _).
  exact (conj Hp eq_refl).
Defined.

(** ** Lines the format cannot carry *)

Definition index_patch : string :=
  Join ["*** Update File: main.go"; "@@"; " index := 0"; "-total := 1"; "+total := 2"; "*** End Patch"] newline.

(** A context line that opens like an envelope is dropped from its hunk.
    The patch says that [total := 1] follows [index := 0]; it is applied to a
    file in which nothing of the kind occurs, because the line is taken for the
    [index] line of a git header. *)
Theorem envelope_line_is_lost sha256_hex :
  exists request patched o,
    ParsePatch index_patch = Ok request /\
    ApplyPatch sha256_hex ("other" +:+ newline +:+ "total := 1") request = Ok (patched, o) /\
    patched = "other" +:+ newline +:+ "total := 2" /\
    Contains ("other" +:+ newline +:+ "total := 1") "index := 0" = false.
Proof.
  eexists _, _, _. split; [vm_compute; reflexivity|]. split; [vm_compute; reflexivity|].
  split; vm_compute; reflexivity.
Qed.

(** A removed line that starts with two dashes reads as a file header: the
    patch is refused for naming a second file. *)
Lemma removed_dashes_name_a_file :
  ParsePatch (Join ["*** Update File: q.sql"; "@@"; "--- old note"; "+-- new note"] newline)
  = Err (Sentinel ("this patch changes more than one file: q.sql and old note. Send one apply-patch call per file, each with its own "
      +:+ quoted "*** Update File: <path>" +:+ " header and only that file's hunks")).
Proof. vm_compute. reflexivity. Qed.

(** A text that overlaps itself has two places and is applied at the first. *)
Lemma overlapping_places_apply sha256_hex :
  exists o,
    ApplyPatch sha256_hex "ababa" {| Patch_Path := "f"; Hunks := [letter_hunk "aba" "c"] |}
      = Ok ("cba", o).
Proof. eexists. vm_compute. reflexivity. Qed.
