(* ===== verification/GoRegexp.v ===== *)
(** * Go regular expressions

    The part of package regexp that the redaction patterns use: matching is by
    runes, leftmost first, and alternatives and repetitions are tried in the
    order of the expression. *)

From Stdlib Require Import Ascii.
From S2P Require Import Prelude GoText GoPath GoSearch.
Open Scope string_scope.
Open Scope list_scope.

(** A rune is kept as its encoding; a byte that encodes none stands for
    itself. *)
Definition rune : Type := string.

Fixpoint decode (fuel : nat) (s : string) : list rune :=
  match fuel, s with
  | S fuel, String _ _ =>
      let n := match rune_length s with Some (S n) => S n | _ => 1%nat end in
      str_take n s :: decode fuel (str_drop n s)
  | _, _ => []
  end.

Definition runes (s : string) : list rune := decode (String.length s) s.

Definition text (l : list rune) : string := foldr String.append "" l.

(** ** Classes of runes *)

Definition ascii_rune (f : ascii -> bool) (r : rune) : bool :=
  match r with String c "" => (N_of_ascii c <? 128)%N && f c | _ => false end.

Definition chars (s : string) (c : ascii) : bool := existsb (Ascii.eqb c) (String.list_ascii_of_string s).

Definition between (lo hi : ascii) (c : ascii) : bool :=
  in_range (N_of_ascii lo) (N_of_ascii hi) (N_of_ascii c).

Definition digit : ascii -> bool := between "0" "9".
Definition upper : ascii -> bool := between "A" "Z".
Definition letter (c : ascii) : bool := upper c || between "a" "z" c.
Definition alnum (c : ascii) : bool := letter c || digit c.

Definition space (c : ascii) : bool :=
  existsb (Ascii.eqb c) ["009"; "010"; "012"; "013"; " "]%char.

(** [[^...]] of ASCII characters: every other rune. *)
Definition outside (f : ascii -> bool) (r : rune) : bool := negb (ascii_rune f r).

Definition any (_ : rune) : bool := true.

(** A character under [(?i)]: both cases, and the runes beyond ASCII that fold
    to [k] and [s]. *)
Definition swap_case (c : ascii) : ascii :=
  if upper c then ascii_of_N (N_of_ascii c + 32)
  else if between "a" "z" c then ascii_of_N (N_of_ascii c - 32) else c.

Definition kelvin_sign : rune := bytes [226; 132; 170]%N.
Definition long_s : rune := bytes [197; 191]%N.

Definition folded (c : ascii) (r : rune) : bool :=
  ascii_rune (fun d => Ascii.eqb d c || Ascii.eqb d (swap_case c)) r
  || (chars "kK" c && (r =? kelvin_sign)) || (chars "sS" c && (r =? long_s)).

(** ** Expressions *)

Inductive regex :=
| Nothing
| One (p : rune -> bool)
| Repeat (p : rune -> bool) (least : nat) (most : option nat) (greedy : bool)
| WordBoundary
| Then (r1 r2 : regex)
| Either (r1 r2 : regex)
| Optional (r : regex).

Definition literal_with (match_char : ascii -> rune -> bool) (s : string) : regex :=
  foldr (fun c r => Then (One (match_char c)) r) Nothing (String.list_ascii_of_string s).

Definition literal : string -> regex := literal_with (fun c => ascii_rune (Ascii.eqb c)).
Definition literal_i : string -> regex := literal_with folded.

Definition sequence (l : list regex) : regex := foldr Then Nothing l.

Definition one_of_words (word : string -> regex) (first : string) (others : list string) : regex :=
  foldr (fun w r => Either r (word w)) (word first) (rev others).

Definition many (p : rune -> bool) : regex := Repeat p 0 None true.
Definition at_least (n : nat) (p : rune -> bool) : regex := Repeat p n None true.
Definition exactly (n : nat) (p : rune -> bool) : regex := Repeat p n (Some n) true.

Definition word_rune (r : option rune) : bool :=
  match r with
  | Some r => ascii_rune (fun c => alnum c || Ascii.eqb c "_") r
  | None => false
  end.

(** ** Matching *)

Definition or_else {A} (x y : option A) : option A := match x with Some a => Some a | None => y end.

Section Match.
Context {A : Type}.

Fixpoint repeat_from (p : rune -> bool) (least : nat) (most : option nat) (greedy : bool)
    (prev : option rune) (rest : list rune) (k : option rune -> list rune -> option A) : option A :=
  let stop := match least with O => k prev rest | S _ => None end in
  let more :=
    match most, rest with
    | Some O, _ => None
    | _, c :: rest' =>
        if p c then repeat_from p (pred least) (pred <$> most) greedy (Some c) rest' k else None
    | _, [] => None
    end in
  if greedy then or_else more stop else or_else stop more.

(** [k] goes on after the match; backtracking is into the next alternative
    when it fails. *)
Fixpoint match_then (r : regex) (prev : option rune) (rest : list rune)
    (k : option rune -> list rune -> option A) : option A :=
  match r with
  | Nothing => k prev rest
  | One p => match rest with c :: rest' => if p c then k (Some c) rest' else None | [] => None end
  | Repeat p least most greedy => repeat_from p least most greedy prev rest k
  | WordBoundary => if xorb (word_rune prev) (word_rune (head rest)) then k prev rest else None
  | Then r1 r2 => match_then r1 prev rest (fun prev' rest' => match_then r2 prev' rest' k)
  | Either r1 r2 => or_else (match_then r1 prev rest k) (match_then r2 prev rest k)
  | Optional r => or_else (match_then r prev rest k) (k prev rest)
  end.
End Match.

(** What follows the match at the start of [rest]. *)
Definition match_here (r : regex) (prev : option rune) (rest : list rune) : option (list rune) :=
  match_then r prev rest (fun _ rest' => Some rest').

(** [ReplaceAllStringFunc] for an expression that matches no empty text, with
    the number of replacements. *)
Fixpoint replace_runes (fuel : nat) (r : regex) (f : string -> string) (prev : option rune)
    (rest : list rune) : string * Z :=
  match fuel, rest with
  | S fuel, c :: rest' =>
      match match_here r prev rest with
      | Some after =>
          let m := take (length rest - length after) rest in
          match last m with
          | Some c' =>
              let '(out, n) := replace_runes fuel r f (Some c') after in
              (f (text m) +:+ out, n + 1)%Z
          | None => let '(out, n) := replace_runes fuel r f (Some c) rest' in (c +:+ out, n)
          end
      | None => let '(out, n) := replace_runes fuel r f (Some c) rest' in (c +:+ out, n)
      end
  | _, _ => ("", 0%Z)
  end.

Definition ReplaceAllStringFunc (r : regex) (s : string) (f : string -> string) : string * Z :=
  replace_runes (length (runes s)) r f None (runes s).

(** ** What an expression describes *)

Fixpoint describes (r : regex) (m : list rune) : Prop :=
  match r with
  | Nothing | WordBoundary => m = []
  | One p => exists c, m = [c] /\ p c = true
  | Repeat p least most _ =>
      Forall (fun c => p c = true) m /\ (least <= length m)%nat /\
      match most with Some n => (length m <= n)%nat | None => True end
  | Then r1 r2 => exists m1 m2, m = m1 ++ m2 /\ describes r1 m1 /\ describes r2 m2
  | Either r1 r2 => describes r1 m \/ describes r2 m
  | Optional r => m = [] \/ describes r m
  end.

Lemma or_else_Some {A} (x y : option A) a : or_else x y = Some a -> x = Some a \/ y = Some a.
Proof. destruct x; [left|right]; done. Qed.

Lemma repeat_from_cases {A} p least most greedy prev rest (k : option rune -> list rune -> option A) a :
  repeat_from p least most greedy prev rest k = Some a ->
  (least = 0%nat /\ k prev rest = Some a) \/
  exists c rest', rest = c :: rest' /\ p c = true /\ most <> Some 0%nat /\
    repeat_from p (pred least) (pred <$> most) greedy (Some c) rest' k = Some a.
Proof.
  destruct rest as [|c rest]; cbn [repeat_from]; destruct greedy; intros [H|H]%or_else_Some.
  all: try (left; destruct least; [by split|done]).
  all: right; destruct most as [[|n]|]; try done.
  all: destruct (p c) eqn:Hp; [|done]; by exists c, rest.
Qed.

Lemma repeat_from_sound {A} p least most greedy prev rest (k : option rune -> list rune -> option A) a :
  repeat_from p least most greedy prev rest k = Some a ->
  exists m prev' rest', rest = m ++ rest' /\ describes (Repeat p least most greedy) m /\
    k prev' rest' = Some a.
Proof.
  revert least most prev. induction rest as [|c rest IH]; intros least most prev.
  all: intros [[-> Hk]|(c' & rest' & Hr & Hp & Hm & H)]%repeat_from_cases.
  1, 3: exists [], prev; eexists; split; [done|]; split; [|done];
    split; [done|]; split; [done|]; destruct most; [apply Nat.le_0_l|done].
  - done.
  - injection Hr as <- <-. apply IH in H as (m & prev' & rest' & -> & (Hf & Hl & Hn) & Hk).
    exists (c :: m), prev', rest'. split; [done|]. split; [|done]. split; [by constructor|].
    cbn [length]. split; [lia|]. destruct most as [n|]; [|done]. cbn in Hn. destruct n; [done|lia].
Qed.

Lemma match_then_sound r : forall {A} prev rest (k : option rune -> list rune -> option A) a,
  match_then r prev rest k = Some a ->
  exists m prev' rest', rest = m ++ rest' /\ describes r m /\ k prev' rest' = Some a.
Proof.
  induction r as [|p|p least most greedy| |r1 IH1 r2 IH2|r1 IH1 r2 IH2|r IH]; intros A prev rest k a;
    cbn [match_then describes].
  - intros Hk. exists [], prev, rest. done.
  - destruct rest as [|c rest]; [done|]. destruct (p c) eqn:Hp; [|done]. intros Hk.
    exists [c], (Some c), rest. split_and!; eauto.
  - apply repeat_from_sound.
  - destruct (xorb _ _); [|done]. intros Hk. exists [], prev, rest. done.
  - intros (m1 & prev1 & rest1 & -> & H1 & H)%IH1. apply IH2 in H as (m2 & prev2 & rest2 & -> & H2 & Hk).
    exists (m1 ++ m2), prev2, rest2. rewrite <- (assoc_L (++)). split_and!; eauto 6.
  - intros [(m & prev' & rest' & H)%IH1|(m & prev' & rest' & H)%IH2]%or_else_Some;
      exists m, prev', rest'; tauto.
  - intros [(m & prev' & rest' & H)%IH|Hk]%or_else_Some.
    + exists m, prev', rest'. tauto.
    + exists [], prev, rest. tauto.
Qed.

Lemma match_here_sound r prev rest after :
  match_here r prev rest = Some after -> exists m, rest = m ++ after /\ describes r m.
Proof. intros (m & prev' & rest' & -> & Hm & [= ->])%match_then_sound. eauto. Qed.

(** Every rune at the start of a match of [r] is in [q]. *)
Fixpoint starts (q : rune -> Prop) (r : regex) : Prop :=
  match r with
  | Nothing | WordBoundary | Optional _ => False
  | One p => forall c, p c = true -> q c
  | Repeat p least _ _ => (0 < least)%nat /\ forall c, p c = true -> q c
  | Then WordBoundary r2 => starts q r2
  | Then r1 _ => starts q r1
  | Either r1 r2 => starts q r1 /\ starts q r2
  end.

Lemma starts_sound q r m : starts q r -> describes r m -> exists c m', m = c :: m' /\ q c.
Proof.
  revert m. induction r as [|p|p least most greedy| |r1 IH1 r2 IH2|r1 IH1 r2 IH2|r IH]; intros m Hs Hd.
  - done.
  - destruct Hd as (c & -> & Hp). eauto.
  - destruct Hs as [Hl Hq], Hd as (Hf & Hn & _). destruct m as [|c m]; [cbn in Hn; lia|].
    apply Forall_cons in Hf as [Hc _]. eauto.
  - done.
  - destruct Hd as (m1 & m2 & -> & H1 & H2).
    assert (starts q r1 \/ m1 = [] /\ starts q r2) as [H|[-> H]].
    { destruct r1; try (left; exact Hs). right. by split. }
    + destruct (IH1 m1 H H1) as (c & m' & -> & Hc). exists c, (m' ++ m2). done.
    + by apply IH2.
  - destruct Hs as [Hs1 Hs2], Hd as [Hd|Hd]; eauto.
  - done.
Qed.

(** ** Runes and text *)

Lemma text_app l1 l2 : text (l1 ++ l2) = text l1 +:+ text l2.
Proof. induction l1 as [|c l1 IH]; [done|].
  change (c +:+ text (l1 ++ l2) = (c +:+ text l1) +:+ text l2). by rewrite IH, string_app_assoc.
Qed.

Lemma text_decode fuel s : (String.length s <= fuel)%nat -> text (decode fuel s) = s.
Proof.
  revert s. induction fuel as [|fuel IH]; intros [|c s] Hl; try done; [cbn in Hl; lia|].
  cbn [decode]. set (n := match rune_length _ with Some (S n) => S n | _ => 1%nat end).
  assert (0 < n)%nat as Hn by (unfold n; destruct (rune_length _) as [[]|]; lia).
  clearbody n. destruct n as [|n]; [lia|]. cbn [str_take str_drop].
  change (String c (str_take n s) +:+ text (decode fuel (str_drop n s)) = String c s). rewrite IH.
  - rewrite string_app_cons. by rewrite str_take_drop.
  - pose proof (f_equal String.length (str_take_drop n s)) as He. rewrite length_app_string in He.
    cbn in Hl. lia.
Qed.

Lemma text_runes s : text (runes s) = s.
Proof. by apply text_decode. Qed.
