(* ===== verification/Redact.v ===== *)
(** * The redaction pipeline (src/internal/redact/redact.go)

    Bounding, the exact loaded credentials, the secret patterns and structured
    fields, with the part of src/internal/credentials/credentials.go that loads
    a credential. [sort.Slice] and [json.Marshal] are parameters. *)

From Stdlib Require Import Ascii.
From S2P Require Import Prelude GoText GoErrors GoPath GoSearch GoRegexp.
Open Scope string_scope.
Open Scope list_scope.
Open Scope go_scope.

Definition Marker : string := "[REDACTED]".
Definition truncatedMarker : string := "[TRUNCATED]".
Definition maxSecretBytes : nat := 2560.

Definition Boundary : Type := string.
Definition BoundaryPromptPersistence : Boundary := "prompt-persistence".
Definition BoundaryLogPersistence : Boundary := "log-persistence".
Definition BoundaryUIDelivery : Boundary := "ui-delivery".
Definition BoundaryDiagnosticExport : Boundary := "diagnostic-export".

Definition Boundary_valid (boundary : Boundary) : bool :=
  existsb (String.eqb boundary)
    [BoundaryPromptPersistence; BoundaryLogPersistence; BoundaryUIDelivery; BoundaryDiagnosticExport].

Record Limits := { MaximumInputBytes : nat; MaximumOutputBytes : nat }.

Record Report := {
  Report_Boundary : Boundary;
  Redactions : Z;
  InputTruncated : bool;
  OutputTruncated : bool;
  EntropyEnabled : bool;
}.

Record Result := { Result_Text : string; Result_Report : Report }.

Record Pipeline := { exact : list string; limits : Limits; closed : bool }.

(** ** Credentials *)

Definition ErrNotFound : string := "credential not found".

Record Secret := { value : string }.

Definition NewSecret (v : string) : result error Secret :=
  if (v =? "") || (2560 <? String.length v)%nat then
    Err (Sentinel "credential value must contain 1 to 2560 bytes")
  else Ok {| value := v |}.

(** [Use] hands a copy of the value to the operation. *)
Definition Use {A} (secret : Secret) (operation : string -> result error A) : result error A :=
  if value secret =? "" then Err (Sentinel ErrNotFound) else operation (value secret).

(** ** Patterns *)

Record secretPattern := { expression : regex; replace : string -> string }.

Definition marked (_ : string) : string := Marker.

(** The text up to the first character of a set, then what replaces the rest. *)
Definition keep_until (set : list ascii) (f : string -> string) (m : string) : string :=
  match IndexAny m set with
  | None => Marker
  | Some index => f (str_take index m)
  end.

Definition bearerReplacement : string -> string :=
  keep_until [" "; "009"]%char (fun kept => kept +:+ " " +:+ Marker).

Definition labelledSecretReplacement : string -> string :=
  keep_until [":"; "="]%char (fun kept => TrimSpace kept +:+ ": " +:+ Marker).

Definition uriReplacement (m : string) : string :=
  match LastIndexByte m ":" with
  | None => Marker
  | Some separator => str_take separator m +:+ ":" +:+ Marker +:+ "@"
  end.

Definition set_of (f : ascii -> bool) : rune -> bool := ascii_rune f.

(** A class with letters under [(?i)]. *)
Definition set_of_i (f : ascii -> bool) (r : rune) : bool :=
  ascii_rune f r || (r =? kelvin_sign) || (r =? long_s).

Definition unquoted : rune -> bool := outside (fun c => space c || chars ",;" c).

Definition quoted_by (q : ascii) (n : nat) : regex :=
  sequence [One (set_of (Ascii.eqb q)); at_least n (outside (fun c => Ascii.eqb c q || Ascii.eqb c "013" || Ascii.eqb c "010"));
            One (set_of (Ascii.eqb q))].

(** A double-quoted, a single-quoted or a bare value. *)
Definition value_of (n : nat) (bare : rune -> bool) : regex :=
  Either (Either (quoted_by dquote n) (quoted_by "'" n)) (at_least n bare).

Definition assigned (n : nat) : list regex :=
  [many (set_of space); One (set_of (chars ":=")); many (set_of space); value_of n unquoted].

Definition up_to_64 : regex := Repeat (outside (Ascii.eqb "-")) 0 (Some 64%nat) true.

Definition private_key_expression : regex :=
  sequence [literal "-----BEGIN "; up_to_64; literal "PRIVATE KEY-----"; Repeat any 0 None false;
            literal "-----END "; up_to_64; literal "PRIVATE KEY-----"].

Definition bearer_expression : regex :=
  sequence [WordBoundary; literal_i "Bearer"; at_least 1 (set_of space);
            value_of 8 (set_of_i (fun c => alnum c || chars "._~+/=-" c))].

Definition header_expression : regex :=
  Then WordBoundary
    (Then (Either (Either (literal_i "authorization") (literal_i "x-api-key"))
             (sequence [literal_i "api"; Repeat (set_of (chars "-_ ")) 0 (Some 1%nat) true; literal_i "key"]))
       (sequence (assigned 8))).

Definition sk_expression : regex :=
  sequence [WordBoundary; literal "sk-"; Optional (Either (literal "proj-") (literal "ant-"));
            at_least 16 (set_of (fun c => alnum c || chars "_-" c)); WordBoundary].

Definition github_expression : regex :=
  sequence [WordBoundary; literal "gh"; One (set_of (chars "pousr")); literal "_";
            at_least 20 (set_of alnum); WordBoundary].

Definition github_pat_expression : regex :=
  sequence [WordBoundary; literal "github_pat_";
            at_least 20 (set_of (fun c => alnum c || Ascii.eqb c "_")); WordBoundary].

Definition aws_id_expression : regex :=
  sequence [WordBoundary;
            one_of_words literal "AKIA" ["ASIA"; "AGPA"; "AIDA"; "AROA"; "AIPA"; "ANPA"; "ANVA"; "ABIA"];
            exactly 16 (set_of (fun c => digit c || upper c)); WordBoundary].

Definition underscore : regex := Repeat (set_of (Ascii.eqb "_")) 0 (Some 1%nat) true.

Definition aws_secret_expression : regex :=
  Then WordBoundary
    (Then (literal_i "aws")
       (sequence ([underscore; literal_i "secret"; underscore; literal_i "access"; underscore; literal_i "key"]
                  ++ assigned 1))).

Definition google_expression : regex :=
  sequence [WordBoundary; literal "AIza"; exactly 35 (set_of (fun c => alnum c || chars "_-" c)); WordBoundary].

Definition slack_expression : regex :=
  sequence [WordBoundary; literal "xox"; One (set_of (chars "baprse")); literal "-";
            at_least 10 (set_of (fun c => alnum c || Ascii.eqb c "-")); WordBoundary].

Definition jwt_part : regex := at_least 8 (set_of (fun c => alnum c || chars "_-" c)).

Definition jwt_expression : regex :=
  sequence [WordBoundary; literal "eyJ"; jwt_part; literal ".eyJ"; jwt_part; literal "."; jwt_part; WordBoundary].

Definition uri_expression : regex :=
  sequence [WordBoundary; One (set_of letter); many (set_of (fun c => alnum c || chars "+.-" c));
            literal "://"; at_least 1 (outside (fun c => space c || chars ":@/" c)); literal ":";
            at_least 1 (outside (fun c => space c || chars "@/" c)); literal "@"].

Definition password_expression : regex :=
  Then WordBoundary
    (Then (one_of_words literal_i "password" ["passwd"; "pwd"; "secret"; "token"]) (sequence (assigned 1))).

Definition patterns : list secretPattern :=
  [ {| expression := private_key_expression; replace := marked |};
    {| expression := bearer_expression; replace := bearerReplacement |};
    {| expression := header_expression; replace := labelledSecretReplacement |};
    {| expression := sk_expression; replace := marked |};
    {| expression := github_expression; replace := marked |};
    {| expression := github_pat_expression; replace := marked |};
    {| expression := aws_id_expression; replace := marked |};
    {| expression := aws_secret_expression; replace := labelledSecretReplacement |};
    {| expression := google_expression; replace := marked |};
    {| expression := slack_expression; replace := marked |};
    {| expression := jwt_expression; replace := marked |};
    {| expression := uri_expression; replace := uriReplacement |};
    {| expression := password_expression; replace := labelledSecretReplacement |} ].

(** ** Bounds *)

(** The longest prefix of at most [maximum] bytes that is valid UTF-8. *)
Fixpoint shrink (maximum : nat) (v : string) : nat :=
  match maximum with
  | O => O
  | S less => if ValidString (str_take maximum v) then maximum else shrink less v
  end.

Definition validUTF8Prefix (v : string) (maximum : nat) : nat :=
  shrink (Nat.min maximum (String.length v)) v.

Definition boundInput (input : string) (maximum : nat) : string * bool :=
  if (String.length input <=? maximum)%nat then (input, false)
  else
    let keep := validUTF8Prefix input (maximum - maxSecretBytes - String.length truncatedMarker) in
    (str_take keep input +:+ truncatedMarker, true).

Definition boundOutput (output : string) (maximum : nat) : string * bool :=
  if (String.length output <=? maximum)%nat then (output, false)
  else
    let keep := validUTF8Prefix output (maximum - String.length truncatedMarker) in
    (str_take keep output +:+ truncatedMarker, true).

(** ** The pipeline *)

Section Sorting.
(** [sort.Slice] by descending length. *)
Context (sorted_by_length : list string -> list string).

Fixpoint load (loaded : list Secret) (so_far : list string) : result error (list string) :=
  match loaded with
  | [] => Ok so_far
  | secret :: rest =>
      so_far ← Use secret (fun v =>
        Ok (if (0 <? String.length v)%nat then so_far ++ [v] else so_far));
      load rest so_far
  end.

Definition NewPipeline (loaded : list Secret) (limits : Limits) : result error Pipeline :=
  if (MaximumInputBytes limits <? 4096)%nat || (MaximumOutputBytes limits <? 1024)%nat
     || (MaximumInputBytes limits <? MaximumOutputBytes limits)%nat then
    Err (Sentinel "redaction limits are invalid")
  else
    values ← load loaded [];
    Ok {| exact := sorted_by_length values; limits := limits; closed := false |}.
End Sorting.

Definition Close (p : Pipeline) : Pipeline :=
  {| exact := []; limits := limits p; closed := true |}.

Definition redact_exact (secrets : list string) (text : string) : string * Z :=
  fold_left (fun '(text, count) secret =>
    match Count text secret with
    | O => (text, count)
    | n => (ReplaceAll text secret Marker, wrap_uint64 (count + Z.of_nat n))
    end) secrets (text, 0%Z).

Definition redact_patterns (l : list secretPattern) (text : string) (count : Z) : string * Z :=
  fold_left (fun '(text, count) pattern =>
    let '(text', n) := ReplaceAllStringFunc (expression pattern) text (replace pattern) in
    (text', wrap_uint64 (count + n))) l (text, count).

Definition Redact (p : Pipeline) (boundary : Boundary) (input : string) : result error Result :=
  if negb (Boundary_valid boundary) then Err (Sentinel "redaction boundary is invalid")
  else if closed p then Err (Sentinel "redaction pipeline is closed")
  else
    let '(bounded, inputTruncated) := boundInput input (MaximumInputBytes (limits p)) in
    let text := ToValidUTF8 bounded replacement_character in
    let '(text, count) := redact_exact (exact p) text in
    let '(text, count) := redact_patterns patterns text count in
    let '(text, outputTruncated) := boundOutput text (MaximumOutputBytes (limits p)) in
    Ok {| Result_Text := text;
          Result_Report := {| Report_Boundary := boundary; Redactions := count;
            InputTruncated := inputTruncated; OutputTruncated := outputTruncated;
            EntropyEnabled := false |} |}.

(** ** Streams *)

Record Stream := {
  Stream_pipeline : Pipeline;
  Stream_boundary : Boundary;
  buffer : string;
  truncated : bool;
  finalized : bool;
}.

Definition NewStream (p : Pipeline) (boundary : Boundary) : result error Stream :=
  if negb (Boundary_valid boundary) then Err (Sentinel "redaction boundary is invalid")
  else Ok {| Stream_pipeline := p; Stream_boundary := boundary; buffer := ""; truncated := false;
             finalized := false |}.

Definition with_buffer (s : Stream) (b : string) (t : bool) : Stream :=
  {| Stream_pipeline := Stream_pipeline s; Stream_boundary := Stream_boundary s; buffer := b;
     truncated := t; finalized := finalized s |}.

Definition Stream_Write (s : Stream) (chunk : string) : result error (nat * Stream) :=
  if finalized s then Err (Sentinel "redaction stream is finalized")
  else
    let accepted := String.length chunk in
    let maximum := MaximumInputBytes (limits (Stream_pipeline s)) in
    let remaining := (maximum - String.length (buffer s))%nat in
    if (maximum <=? String.length (buffer s))%nat then Ok (accepted, with_buffer s (buffer s) true)
    else if (remaining <? String.length chunk)%nat then
      Ok (accepted, with_buffer s (buffer s +:+ str_take remaining chunk) true)
    else Ok (accepted, with_buffer s (buffer s +:+ chunk) (truncated s)).

Definition report_input (r : Report) (t : bool) : Report :=
  {| Report_Boundary := Report_Boundary r; Redactions := Redactions r;
     InputTruncated := InputTruncated r || t; OutputTruncated := OutputTruncated r;
     EntropyEnabled := EntropyEnabled r |}.

(** The stream is finalized whatever comes out. *)
Definition Finalize (s : Stream) : result error Result * Stream :=
  if finalized s then (Err (Sentinel "redaction stream is finalized"), s)
  else
    let s' := {| Stream_pipeline := Stream_pipeline s; Stream_boundary := Stream_boundary s;
                 buffer := buffer s; truncated := truncated s; finalized := true |} in
    let input :=
      if truncated s then
        (boundInput (buffer s +:+ bytes [0]%N) (MaximumInputBytes (limits (Stream_pipeline s)))).1
      else buffer s in
    (r ← Redact (Stream_pipeline s) (Stream_boundary s) input;
     Ok {| Result_Text := Result_Text r; Result_Report := report_input (Result_Report r) (truncated s) |},
     s').

(** ** Structured fields *)

(** A Go value as the switch tells them apart. A map is listed in the order it
    is ranged over; a scalar is nil, a boolean or a number. *)
#[local] Set Warnings "-register-all".
Inductive field :=
| FMap (entries : list (string * field))
| FList (items : list field)
| FStrings (items : list string)
| FString (s : string)
| FScalar (s : string)
| FOther (type_name : string).

(** [strings.ToLower] as far as ASCII text can come out of it: the two runes
    beyond ASCII whose lower case is ASCII are mapped, the others are kept. *)
Definition lower_rune (r : rune) : rune :=
  match r with
  | String c "" => String (if upper c then swap_case c else c) ""
  | _ => if r =? kelvin_sign then "k" else if r =? bytes [196; 176]%N then "i" else r
  end.

Definition normalized_name (name : string) : string :=
  text (map lower_rune (runes (ReplaceAll name "-" "_"))).

Definition sensitiveFieldName (name : string) : bool :=
  existsb (Contains (normalized_name name))
    ["credential"; "secret"; "api_key"; "access_token"; "refresh_token"; "password"; "private_key";
     "authorization"].

Definition one_more (r : Report) : Report :=
  {| Report_Boundary := Report_Boundary r; Redactions := wrap_uint64 (Redactions r + 1);
     InputTruncated := InputTruncated r; OutputTruncated := OutputTruncated r;
     EntropyEnabled := EntropyEnabled r |}.

Definition merged (r r' : Report) : Report :=
  {| Report_Boundary := Report_Boundary r;
     Redactions := wrap_uint64 (Redactions r + Redactions r');
     InputTruncated := InputTruncated r || InputTruncated r';
     OutputTruncated := OutputTruncated r || OutputTruncated r';
     EntropyEnabled := EntropyEnabled r |}.

Definition redact_string (p : Pipeline) (boundary : Boundary) (s : string) (report : Report)
    : result error (field * Report) :=
  redacted ← Redact p boundary s;
  Ok (FString (Result_Text redacted), merged report (Result_Report redacted)).

(** [for _, child := range]: the report is threaded, the first error returns. *)
Fixpoint redact_each {A B} (f : A -> Report -> result error (B * Report)) (l : list A) (report : Report)
    : result error (list B * Report) :=
  match l with
  | [] => Ok ([], report)
  | a :: rest =>
      '(b, report) ← f a report;
      '(bs, report) ← redact_each f rest report;
      Ok (b :: bs, report)
  end.

Fixpoint redactStructured (p : Pipeline) (boundary : Boundary) (v : field) (report : Report)
    {struct v} : result error (field * Report) :=
  match v with
  | FMap entries =>
      '(entries, report) ←
        (fix each (l : list (string * field)) (report : Report)
             : result error (list (string * field) * Report) :=
           match l with
           | [] => Ok ([], report)
           | (key, child) :: rest =>
               '(redacted, report) ←
                 (if sensitiveFieldName key then Ok (FString Marker, one_more report)
                  else redactStructured p boundary child report);
               '(others, report) ← each rest report;
               Ok ((key, redacted) :: others, report)
           end) entries report;
      Ok (FMap entries, report)
  | FList items =>
      '(items, report) ←
        (fix each (l : list field) (report : Report) : result error (list field * Report) :=
           match l with
           | [] => Ok ([], report)
           | child :: rest =>
               '(redacted, report) ← redactStructured p boundary child report;
               '(others, report) ← each rest report;
               Ok (redacted :: others, report)
           end) items report;
      Ok (FList items, report)
  | FStrings items =>
      '(items, report) ← redact_each (redact_string p boundary) items report;
      Ok (FList items, report)
  | FString s => redact_string p boundary s report
  | FScalar _ => Ok (v, report)
  | FOther type_name => Err (Sentinel ("unsupported structured field type " +:+ type_name))
  end.

Definition quoted_name (s : string) : string := String dquote s +:+ String dquote "".

Section Marshal.
(** [json.Marshal]. *)
Context (Marshal : field -> result error string).

Definition empty_report (boundary : Boundary) : Report :=
  {| Report_Boundary := boundary; Redactions := 0; InputTruncated := false;
     OutputTruncated := false; EntropyEnabled := false |}.

Definition truncated_fields : string :=
  "{" +:+ quoted_name "redacted" +:+ ":true," +:+ quoted_name "truncated" +:+ ":true}".

Definition RedactFields (p : Pipeline) (boundary : Boundary) (fields : list (string * field))
    : result error (string * Report) :=
  if negb (Boundary_valid boundary) then Err (Sentinel "redaction boundary is invalid")
  else
    '(redacted, report) ← redactStructured p boundary (FMap fields) (empty_report boundary);
    match Marshal redacted with
    | Err e => Err (text_cause "serialize redacted fields" e)
    | Ok encoded =>
        if (MaximumOutputBytes (limits p) <? String.length encoded)%nat then
          Ok (truncated_fields,
              {| Report_Boundary := Report_Boundary report; Redactions := Redactions report;
                 InputTruncated := InputTruncated report; OutputTruncated := true;
                 EntropyEnabled := false |})
        else Ok (encoded, report)
    end.
End Marshal.
