(* ===== verification/RedactFacts.v ===== *)
(** * What redaction promises

    An exact credential does not come out of the pipeline, the output is
    bounded, a stream comes out as the whole input would, and structured fields
    are redacted leaf by leaf; with the cases in which a part of a secret is
    kept. *)

From Stdlib Require Import Ascii.
From S2P Require Import Prelude GoText GoErrors GoPath GoSearch GoRegexp Redact.
Open Scope string_scope.
Open Scope list_scope.
Open Scope go_scope.

(** ** Occurrences across a separator *)

Lemma Contains_cons c t s : Contains (String c t) s = HasPrefix (String c t) s || Contains t s.
Proof. done. Qed.

Lemma Contains_empty s : s <> "" -> Contains "" s = false.
Proof. by destruct s. Qed.

Lemma HasPrefix_sep a c b s :
  has_byte c s = false -> HasPrefix (a +:+ String c b) s = HasPrefix a s.
Proof.
  revert a. induction s as [|d s IH]; intros a; [done|]. cbn [has_byte].
  intros [Hd Hs]%orb_false_iff. destruct a as [|e a].
  - rewrite string_app_empty. unfold HasPrefix. cbn [strip_prefix]. by rewrite Hd.
  - rewrite string_app_cons. unfold HasPrefix in *. cbn [strip_prefix].
    destruct (Ascii.eqb d e); [by apply IH|done].
Qed.

Lemma Contains_sep a c b s :
  s <> "" -> has_byte c s = false ->
  Contains (a +:+ String c b) s = Contains a s || Contains b s.
Proof.
  intros Hne Hc. induction a as [|d a IH].
  - rewrite string_app_empty, Contains_cons, Contains_empty by done.
    pose proof (HasPrefix_sep "" c b s Hc) as Hp. rewrite string_app_empty in Hp. rewrite Hp.
    by destruct s.
  - rewrite string_app_cons, !Contains_cons, IH, <- string_app_cons, HasPrefix_sep by done.
    apply orb_assoc.
Qed.

Lemma Contains_left a b s : Contains a s = true -> Contains (a +:+ b) s = true.
Proof.
  rewrite !Contains_spec. intros (l & r & ->). exists l, (r +:+ b). by rewrite !string_app_assoc.
Qed.

Lemma Contains_right a b s : Contains b s = true -> Contains (a +:+ b) s = true.
Proof.
  rewrite !Contains_spec. intros (l & r & ->). exists (a +:+ l), r. by rewrite string_app_assoc.
Qed.

(** ** Plain secrets *)

(** A secret that none of the texts put in by the pipeline can complete. *)
Definition plain_secret (s : string) : bool :=
  negb (s =? "") && forallb (fun c => negb (has_byte c s)) [" "; ":"; "@"; "["; "]"]%char
  && negb (Contains "REDACTED" s) && negb (Contains "TRUNCATED" s).

(** What takes the place of a secret, or of the end of a text. *)
Definition marks : list string :=
  [Marker; " " +:+ Marker; ": " +:+ Marker; ":" +:+ Marker +:+ "@"; truncatedMarker].

Lemma plain_secret_spec s :
  plain_secret s = true ->
  s <> "" /\ (forall c, c ∈ [" "; ":"; "@"; "["; "]"]%char -> has_byte c s = false) /\
  Contains "REDACTED" s = false /\ Contains "TRUNCATED" s = false.
Proof.
  unfold plain_secret. rewrite !andb_true_iff, !negb_true_iff, forallb_forall, String.eqb_neq.
  intros [[[Hne Hc] Hr] Ht]. split_and!; try done. intros c Hin%list_elem_of_In%Hc. by apply negb_true_iff.
Qed.

Lemma mark_hides a q b s :
  plain_secret s = true -> q ∈ marks -> Contains (a +:+ q +:+ b) s = true ->
  Contains a s = true \/ Contains b s = true.
Proof.
  intros (Hne & Hc & Hr & Ht)%plain_secret_spec Hq.
  assert (forall c a b, c ∈ [" "; ":"; "@"; "["; "]"]%char ->
    Contains (a +:+ String c b) s = Contains a s || Contains b s) as Hs.
  { intros c a' b' Hin. apply Contains_sep; auto. }
  assert (forall w b, Contains w s = false -> Contains (w +:+ String "]" b) s = Contains b s) as Hw.
  { intros w b' Hw. rewrite Hs by set_solver. by rewrite Hw. }
  assert (forall a b, Contains (a +:+ Marker +:+ b) s = Contains a s || Contains b s) as Hm.
  { intros a' b'. change (Marker +:+ b') with (String "[" ("REDACTED" +:+ String "]" b')).
    by rewrite Hs, Hw by (done || set_solver). }
  unfold marks in Hq. rewrite !elem_of_cons in Hq.
  destruct Hq as [->|[->|[->|[->|[->|Hq]]]]]; [..|by apply elem_of_nil in Hq].
  - rewrite Hm. apply orb_true_iff.
  - change ((" " +:+ Marker) +:+ b) with (String " " ("" +:+ Marker +:+ b)).
    rewrite Hs, Hm by set_solver. rewrite (Contains_empty s Hne). apply orb_true_iff.
  - change ((": " +:+ Marker) +:+ b) with (String ":" ("" +:+ String " " ("" +:+ Marker +:+ b))).
    rewrite !Hs, Hm by set_solver. rewrite (Contains_empty s Hne). apply orb_true_iff.
  - change ((":" +:+ Marker +:+ "@") +:+ b) with (String ":" ("" +:+ Marker +:+ ("" +:+ String "@" b))).
    rewrite Hs, Hm, Hs by set_solver. rewrite (Contains_empty s Hne). apply orb_true_iff.
  - change (truncatedMarker +:+ b) with (String "[" ("TRUNCATED" +:+ String "]" b)).
    rewrite Hs, Hw by (done || set_solver). apply orb_true_iff.
Qed.

(** ** Exact values *)

Lemma replace_from_keeps fuel t e s :
  plain_secret s = true -> forall a,
  Contains (a +:+ replace_from fuel t e Marker) s = true -> Contains (a +:+ t) s = true.
Proof.
  intros Hs. revert t. induction fuel as [|fuel IH]; intros t a; cbn [replace_from]; [done|].
  destruct (Index t e) as [i|] eqn:Hi; [|done].
  apply Index_Some in Hi as (l & r & -> & <- & _).
  rewrite str_take_app, <- str_drop_drop, !str_drop_app, <- string_app_assoc.
  intros [H|H]%mark_hides; [| |done|by apply list_elem_of_In; left].
  - rewrite <- string_app_assoc. by apply Contains_left.
  - specialize (IH r ""). rewrite !string_app_empty in IH. by do 3 apply Contains_right; apply IH.
Qed.

Lemma replace_from_removes fuel t s :
  plain_secret s = true -> (String.length t < fuel)%nat ->
  Contains (replace_from fuel t s Marker) s = false.
Proof.
  intros Hs. revert t. induction fuel as [|fuel IH]; intros t Hl; [lia|]. cbn [replace_from].
  destruct (Index t s) as [i|] eqn:Hi.
  - pose proof Hi as (l & r & Ht & Hli & Hmin)%Index_Some.
    destruct (plain_secret_spec s Hs) as (Hne & _).
    apply not_true_is_false. intros [H|H]%mark_hides; [| |done|by apply list_elem_of_In; left].
    + rewrite Ht, <- Hli, str_take_app in H. apply Contains_spec in H as (l' & r' & ->).
      specialize (Hmin l'). rewrite length_app_string, length_app_string in Hli.
      assert (String.length s <> 0)%nat by by destruct s.
      assert (i <= String.length l')%nat; [|lia].
      apply Hmin. exists (r' +:+ s +:+ r). by rewrite Ht, !string_app_assoc.
    + rewrite IH in H; [done|]. rewrite Ht, <- Hli, <- str_drop_drop, !str_drop_app.
      rewrite Ht, !length_app_string in Hl. destruct s; [done|]. cbn in Hl. lia.
  - apply not_true_is_false. intros (l & Ho)%Contains_spec. by eapply Index_None.
Qed.

Lemma ReplaceAll_keeps t e s :
  plain_secret s = true -> e <> "" -> Contains (ReplaceAll t e Marker) s = true -> Contains t s = true.
Proof.
  intros Hs He. unfold ReplaceAll. destruct (e =? "") eqn:E; [by to_prop|].
  pose proof (replace_from_keeps (S (String.length t)) t e s Hs "") as H.
  by rewrite !string_app_empty in H.
Qed.

Lemma ReplaceAll_removes t s : plain_secret s = true -> Contains (ReplaceAll t s Marker) s = false.
Proof.
  intros Hs. destruct (plain_secret_spec s Hs) as (Hne & _). unfold ReplaceAll.
  destruct (s =? "") eqn:E; [by to_prop|]. apply replace_from_removes; [done|lia].
Qed.

Lemma Count_zero t s : s <> "" -> Count t s = 0%nat -> Contains t s = false.
Proof.
  intros Hne. unfold Count. destruct (s =? "") eqn:E; [by to_prop|]. cbn [count_from].
  destruct (Index t s) eqn:Hi; [done|]. intros _. apply not_true_is_false.
  intros (l & Ho)%Contains_spec. by eapply Index_None.
Qed.

Lemma redact_exact_removes secrets t s :
  plain_secret s = true -> Forall (fun e => e <> "") secrets -> s ∈ secrets ->
  Contains (redact_exact secrets t).1 s = false.
Proof.
  intros Hs. unfold redact_exact. generalize 0%Z as count. revert t.
  set (step := fun '(t, count) e => _).
  assert (forall l t count, Forall (fun e => e <> "") l -> Contains t s = false ->
    Contains (fold_left step l (t, count)).1 s = false) as Hkeep.
  { induction l as [|e l IH]; intros t count; [done|]. intros [He Hl]%Forall_cons Ht. cbn [fold_left].
    unfold step at 2. destruct (Count t e); [by apply IH|]. apply IH; [done|].
    apply not_true_is_false. intros H%ReplaceAll_keeps; [congruence|done..]. }
  induction secrets as [|e l IH]; intros t count; [by intros _ []%elem_of_nil|].
  intros [He Hl]%Forall_cons.
  cbn [fold_left]. unfold step at 2. destruct (decide (s = e)) as [->|Hn].
  - intros _. destruct (Count t e) eqn:Hc; apply Hkeep; auto using Count_zero, ReplaceAll_removes.
  - intros [->|Hin]%elem_of_cons; [done|]. destruct (Count t e); by apply IH.
Qed.

(** ** Patterns *)

(** The replacement of a match is a prefix of it and a mark. *)
Definition shortens (f : string -> string) (m : string) : Prop :=
  exists kept gone q, m = kept +:+ gone /\ f m = kept +:+ q /\ q ∈ marks.

Lemma shortens_marked m : shortens marked m.
Proof. exists "", m, Marker. split_and!; [done..|]. apply list_elem_of_In. by left. Qed.

Lemma shortens_take f m i q :
  q ∈ marks -> f m = str_take i m +:+ q -> shortens f m.
Proof. intros Hq Hf. exists (str_take i m), (str_drop i m), q. by rewrite str_take_drop. Qed.

Lemma shortens_bearer m : shortens bearerReplacement m.
Proof.
  unfold shortens, bearerReplacement, keep_until. destruct (IndexAny m _) as [i|] eqn:Hi.
  - eapply (shortens_take (fun _ => _)); [|done]. apply list_elem_of_In. right; by left.
  - exists "", m, Marker. split_and!; [done..|]. apply list_elem_of_In. by left.
Qed.

Lemma shortens_uri m : shortens uriReplacement m.
Proof.
  unfold shortens, uriReplacement. destruct (LastIndexByte m _) as [i|] eqn:Hi.
  - eapply (shortens_take (fun _ => _)); [|done]. apply list_elem_of_In. do 3 right; by left.
  - exists "", m, Marker. split_and!; [done..|]. apply list_elem_of_In. by left.
Qed.

(** A rune that does not start with such a byte. *)
Definition solid (r : rune) : Prop :=
  match r with String c _ => space_lead c = false | "" => False end.

Lemma shortens_labelled m : (exists c m', m = c :: m' /\ solid c) ->
  shortens labelledSecretReplacement (text m).
Proof.
  intros (c & m' & -> & Hc). unfold shortens, labelledSecretReplacement, keep_until.
  set (t := text (c :: m')).
  assert (exists d t', t = String d t' /\ space_lead d = false) as (d & t' & Ht & Hd).
  { destruct c as [|d c]; [done|]. exists d, (c +:+ text m'). done. }
  destruct (IndexAny t _) as [i|] eqn:Hi.
  - destruct (TrimSpace_prefix (str_take i t)) as [r Hr].
    { rewrite Ht. by destruct i. }
    exists (TrimSpace (str_take i t)), (r +:+ str_drop i t), (": " +:+ Marker).
    rewrite <- string_app_assoc, <- Hr, str_take_drop. split_and!; [done..|].
    apply list_elem_of_In. do 2 right; by left.
  - exists "", t, Marker. split_and!; [done..|]. apply list_elem_of_In. by left.
Qed.

Lemma folded_solid c r :
  (forall d, Ascii.eqb d c || Ascii.eqb d (swap_case c) = true -> space_lead d = false) ->
  chars "kK" c = false -> folded c r = true -> solid r.
Proof.
  intros Hd Hk. unfold folded. rewrite Hk. cbn [andb]. rewrite orb_false_r, orb_true_iff, andb_true_iff.
  intros [H|[_ ->%String.eqb_eq]]; [|done].
  destruct r as [|d [|]]; [done| |done]. cbn in H. apply andb_true_iff in H as [_ H]. by apply Hd.
Qed.

Ltac solve_folded :=
  intros r; apply folded_solid; [|reflexivity];
  intros d; rewrite orb_true_iff, !Ascii.eqb_eq; intros [->| ->]; reflexivity.

Lemma labelled_starts :
  starts solid header_expression /\ starts solid aws_secret_expression /\
  starts solid password_expression.
Proof. repeat split; solve_folded. Qed.

Lemma patterns_shorten :
  Forall (fun pattern => forall m, describes (expression pattern) m ->
    shortens (replace pattern) (text m)) patterns.
Proof.
  destruct labelled_starts as (Hh & Ha & Hp). repeat constructor; cbn [expression replace]; intros m Hm;
    auto using shortens_marked, shortens_bearer, shortens_uri;
    eauto using shortens_labelled, starts_sound.
Qed.

Lemma replace_runes_keeps r f s :
  plain_secret s = true -> (forall m, describes r m -> shortens f (text m)) ->
  forall fuel prev rest a, (length rest <= fuel)%nat ->
  Contains (a +:+ (replace_runes fuel r f prev rest).1) s = true -> Contains (a +:+ text rest) s = true.
Proof.
  intros Hs Hf. induction fuel as [|fuel IH]; intros prev [|c rest] a Hl; [done|cbn in Hl; lia|done|].
  assert (Contains (a +:+ (let '(out, n) := replace_runes fuel r f (Some c) rest in (c +:+ out, n)).1) s
    = true -> Contains (a +:+ text (c :: rest)) s = true) as Hskip.
  { destruct (replace_runes fuel r f (Some c) rest) as [out n] eqn:He. cbn [fst].
    change (text (c :: rest)) with (c +:+ text rest). rewrite <- !string_app_assoc. intros H.
    eapply (IH (Some c)); [cbn in Hl; lia|]. by rewrite He. }
  cbn [replace_runes]. destruct (match_here r prev (c :: rest)) as [after|] eqn:Hm; [|done].
  apply match_here_sound in Hm as (m & Hm & Hd). rewrite Hm.
  assert (take (length (m ++ after) - length after) (m ++ after) = m) as ->.
  { rewrite length_app. replace (length m + length after - length after)%nat with (length m) by lia.
    by rewrite take_app_length. }
  destruct (last m) as [c'|] eqn:Hlast; [|by rewrite <- Hm].
  specialize (IH (Some c') after ""). destruct (replace_runes fuel r f (Some c') after) as [out n].
  cbn [fst]. destruct (Hf m Hd) as (kept & gone & q & Hk & -> & Hq).
  rewrite text_app, Hk, string_app_assoc, <- (string_app_assoc a kept).
  intros [H|H]%mark_hides; [| |done|done].
  - rewrite <- !string_app_assoc, string_app_assoc. by apply Contains_left.
  - do 2 apply Contains_right. rewrite !string_app_empty in IH. apply IH; [|done].
    apply (f_equal length) in Hm. rewrite length_app in Hm. destruct m; [done|]. cbn in Hm, Hl. lia.
Qed.

Lemma redact_patterns_keeps l t count s :
  plain_secret s = true ->
  Forall (fun pattern => forall m, describes (expression pattern) m ->
    shortens (replace pattern) (text m)) l ->
  Contains (redact_patterns l t count).1 s = true -> Contains t s = true.
Proof.
  intros Hs. unfold redact_patterns. revert t count. induction l as [|p l IH]; intros t count; [done|].
  intros [Hp Hl]%Forall_cons. cbn [fold_left]. unfold ReplaceAllStringFunc.
  pose proof (replace_runes_keeps _ _ s Hs Hp (length (runes t)) None (runes t) "" (le_n _)) as H.
  destruct (replace_runes _ _ _ _ _) as [t' n]. intros Ht'%IH; [|done].
  rewrite !string_app_empty, text_runes in H. by apply H.
Qed.

Lemma boundOutput_keeps t n s :
  plain_secret s = true -> Contains (boundOutput t n).1 s = true -> Contains t s = true.
Proof.
  intros Hs. unfold boundOutput. destruct (_ <=? _)%nat; [done|]. cbn [fst].
  set (k := validUTF8Prefix _ _). intros H. rewrite <- (string_app_nil truncatedMarker) in H.
  apply mark_hides in H as [H|H]; [| |done|apply list_elem_of_In; do 4 right; by left].
  - rewrite <- (str_take_drop k t). by apply Contains_left.
  - rewrite Contains_empty in H; [done|]. by apply plain_secret_spec.
Qed.

(** ** The pipeline *)

Definition well_formed (p : Pipeline) : Prop :=
  Forall (fun e => e <> "") (exact p) /\ (4096 <= MaximumInputBytes (limits p))%nat /\
  (1024 <= MaximumOutputBytes (limits p) <= MaximumInputBytes (limits p))%nat.

Lemma load_spec loaded so_far values :
  load loaded so_far = Ok values ->
  values = so_far ++ map value loaded /\ Forall (fun e => value e <> "") loaded.
Proof.
  revert so_far. induction loaded as [|secret loaded IH]; intros so_far; cbn [load map].
  { intros [= ->]. by rewrite (right_id_L [] (++)). }
  unfold Use. destruct (value secret =? "") eqn:He; [done|]. to_prop. cbn [mbind result_bind].
  assert ((0 <? String.length (value secret))%nat = true) as ->.
  { apply Nat.ltb_lt. destruct (value secret); [done|cbn; lia]. }
  intros [-> Hl]%IH. rewrite <- (assoc_L (++)). split; [done|by constructor].
Qed.

Lemma NewPipeline_spec sort loaded lim p :
  (forall l, sort l ≡ₚ l) -> NewPipeline sort loaded lim = Ok p ->
  well_formed p /\ closed p = false /\ limits p = lim /\
  forall secret, secret ∈ loaded -> value secret ∈ exact p.
Proof.
  intros Hsort. unfold NewPipeline. destruct (_ || _) eqn:Hlim; [done|].
  intros (values & [-> Hne]%load_spec & [= <-])%bind_Ok. cbn [app].
  rewrite !orb_false_iff, !Nat.ltb_ge in Hlim. split_and!; [|done..|].
  - split; [|cbn; lia]. cbn. rewrite Hsort. by rewrite Forall_fmap.
  - intros secret Hs. cbn. rewrite Hsort. by apply list_elem_of_fmap_2.
Qed.

Lemma shrink_le n v : (shrink n v <= n)%nat.
Proof. induction n as [|n IH]; cbn [shrink]; [done|]. destruct (ValidString _); lia. Qed.

Lemma bound_length v keep maximum :
  (keep + String.length truncatedMarker <= maximum)%nat ->
  (String.length (str_take (validUTF8Prefix v keep) v +:+ truncatedMarker) <= maximum)%nat.
Proof.
  intros Hk. rewrite length_app_string, length_str_take. unfold validUTF8Prefix.
  pose proof (shrink_le (Nat.min keep (String.length v)) v). lia.
Qed.

Lemma boundOutput_length t n :
  (11 <= n)%nat -> (String.length (boundOutput t n).1 <= n)%nat.
Proof.
  intros Hn. unfold boundOutput. destruct (_ <=? _)%nat eqn:Hl; [by apply Nat.leb_le|].
  apply bound_length. change (String.length truncatedMarker) with 11%nat. lia.
Qed.

Lemma boundInput_length t n :
  (11 <= n)%nat -> (String.length (boundInput t n).1 <= n)%nat.
Proof.
  intros Hn. unfold boundInput. destruct (_ <=? _)%nat eqn:Hl; [by apply Nat.leb_le|].
  apply bound_length. change (String.length truncatedMarker) with 11%nat. lia.
Qed.

Lemma boundInput_truncated t n : (boundInput t n).2 = (n <? String.length t)%nat.
Proof.
  unfold boundInput. destruct (_ <=? _)%nat eqn:Hl; cbn; symmetry;
    [apply Nat.ltb_ge; by apply Nat.leb_le|apply Nat.ltb_lt; by apply Nat.leb_gt].
Qed.

(** What [Redact] returns. *)
Lemma Redact_Ok p boundary input r :
  Redact p boundary input = Ok r ->
  Boundary_valid boundary = true /\ closed p = false /\
  exists text count,
    redact_patterns patterns
      (redact_exact (exact p)
         (ToValidUTF8 (boundInput input (MaximumInputBytes (limits p))).1 replacement_character)).1
      (redact_exact (exact p)
         (ToValidUTF8 (boundInput input (MaximumInputBytes (limits p))).1 replacement_character)).2
      = (text, count) /\
    Result_Text r = (boundOutput text (MaximumOutputBytes (limits p))).1 /\
    InputTruncated (Result_Report r) = (MaximumInputBytes (limits p) <? String.length input)%nat.
Proof.
  unfold Redact. destruct (Boundary_valid boundary); [|done]. cbn [negb].
  destruct (closed p); [done|]. pose proof (boundInput_truncated input (MaximumInputBytes (limits p))) as Ht.
  destruct (boundInput _ _) as [bounded b]. destruct (redact_exact _ _) as [t1 c1].
  cbn [fst snd] in *. destruct (redact_patterns _ _ _) as [t2 c2]. intros H.
  split_and!; [done..|]. exists t2, c2. split; [done|].
  destruct (boundOutput _ _) as [out o]. injection H as <-. done.
Qed.

Lemma Redact_removes p boundary input r s :
  well_formed p -> Redact p boundary input = Ok r -> s ∈ exact p -> plain_secret s = true ->
  Contains (Result_Text r) s = false.
Proof.
  intros (Hne & _) (_ & _ & t & c & Hp & -> & _)%Redact_Ok Hin Hs. apply not_true_is_false.
  intros H%boundOutput_keeps; [|done]. pose proof (f_equal fst Hp) as Ht. cbn [fst] in Ht.
  rewrite <- Ht in H. apply redact_patterns_keeps in H; [|done|apply patterns_shorten].
  rewrite redact_exact_removes in H; done.
Qed.

Lemma Redact_length p boundary input r :
  well_formed p -> Redact p boundary input = Ok r ->
  (String.length (Result_Text r) <= MaximumOutputBytes (limits p))%nat.
Proof. intros (_ & _ & Ho) (_ & _ & t & c & _ & -> & _)%Redact_Ok. apply boundOutput_length. lia. Qed.

(** [C13] A loaded credential does not come out. Once a pipeline is built from
    loaded credentials, whatever text is redacted at whatever boundary comes
    out within the output bound, without any of these credentials in it, and
    says whether its input was cut. The credential must be one that the
    marker itself cannot complete: no blank, colon, at sign or bracket in it,
    and no part of the words of the markers. *)
Theorem loaded_credentials_are_removed sort loaded lim p boundary input r :
  (forall l, sort l ≡ₚ l) -> NewPipeline sort loaded lim = Ok p ->
  Redact p boundary input = Ok r ->
  (forall secret, secret ∈ loaded -> plain_secret (value secret) = true ->
     Contains (Result_Text r) (value secret) = false) /\
  (String.length (Result_Text r) <= MaximumOutputBytes lim)%nat /\
  InputTruncated (Result_Report r) = (MaximumInputBytes lim <? String.length input)%nat.
Proof.
  intros Hsort (Hw & _ & <- & Hin)%NewPipeline_spec Hr; [|done]. split_and!.
  - intros secret Hs. eapply Redact_removes; eauto.
  - by eapply Redact_length.
  - by apply Redact_Ok in Hr as (_ & _ & t & c & _ & _ & ->).
Qed.

(** ** Streams *)

Fixpoint write_all (s : Stream) (chunks : list string) : result error Stream :=
  match chunks with
  | [] => Ok s
  | chunk :: rest => '(_, s) ← Stream_Write s chunk; write_all s rest
  end.

Lemma str_take_app_ge n a b : (String.length a <= n)%nat ->
  str_take n (a +:+ b) = a +:+ str_take (n - String.length a) b.
Proof.
  revert n. induction a as [|c a IH]; intros n Hn; [by rewrite !string_app_empty, Nat.sub_0_r|].
  destruct n; [cbn in Hn; lia|]. rewrite !string_app_cons. cbn. rewrite IH; [done|cbn in Hn; lia].
Qed.

Lemma str_take_app_le n a b : (n <= String.length a)%nat -> str_take n (a +:+ b) = str_take n a.
Proof.
  revert n. induction a as [|c a IH]; intros n Hn; [destruct n; [by destruct b|cbn in Hn; lia]|].
  destruct n; [done|]. rewrite string_app_cons. cbn. rewrite IH; [done|cbn in Hn; lia].
Qed.

Lemma str_take_all n a : (String.length a <= n)%nat -> str_take n a = a.
Proof. revert n. induction a as [|c a IH]; intros [|n] Hn; cbn in *; [done|done|lia|]. rewrite IH; [done|lia]. Qed.

(** The stream after [written]: the first bytes of it, and a flag. *)
Definition flagged (p : Pipeline) (boundary : Boundary) (written : string) (flag : bool) : Stream :=
  {| Stream_pipeline := p; Stream_boundary := boundary;
     buffer := str_take (MaximumInputBytes (limits p)) written;
     truncated := flag; finalized := false |}.

(** The flag tells whether there were more. *)
Definition holds (p : Pipeline) (boundary : Boundary) (written : string) : Stream :=
  flagged p boundary written (MaximumInputBytes (limits p) <? String.length written)%nat.

Lemma Stream_Write_flagged p boundary written flag chunk :
  let n := MaximumInputBytes (limits p) in
  Stream_Write (flagged p boundary written flag) chunk
  = Ok (String.length chunk, flagged p boundary (written +:+ chunk)
      (flag || (n <=? String.length written)%nat || (n <? String.length (written +:+ chunk))%nat)).
Proof.
  intros n. unfold Stream_Write, flagged, with_buffer.
  cbn [finalized buffer Stream_pipeline Stream_boundary truncated]. fold n.
  rewrite length_str_take, length_app_string.
  destruct (n <=? String.length written)%nat eqn:E1; [apply Nat.leb_le in E1|apply Nat.leb_gt in E1].
  - rewrite Nat.min_l, Nat.leb_refl, str_take_app_le by lia. by rewrite orb_true_r.
  - rewrite Nat.min_r, (str_take_all n written), str_take_app_ge by lia.
    rewrite (proj2 (Nat.leb_gt n _)), orb_false_r by lia.
    destruct (n - String.length written <? String.length chunk)%nat eqn:E2;
      [apply Nat.ltb_lt in E2|apply Nat.ltb_ge in E2].
    + by rewrite (proj2 (Nat.ltb_lt n _)), orb_true_r by lia.
    + by rewrite (str_take_all _ chunk), (proj2 (Nat.ltb_ge n _)), orb_false_r by lia.
Qed.

(** Whatever is written, an empty chunk included, the flag is set when
    something was cut off and is not set before the buffer is full. *)
Lemma write_all_flagged p boundary written flag chunks :
  let n := MaximumInputBytes (limits p) in
  ((n < String.length written)%nat -> flag = true) ->
  (flag = true -> (n <= String.length written)%nat) ->
  exists flag',
    write_all (flagged p boundary written flag) chunks
      = Ok (flagged p boundary (written +:+ foldr String.append "" chunks) flag') /\
    ((n < String.length (written +:+ foldr String.append "" chunks))%nat -> flag' = true) /\
    (flag' = true -> (n <= String.length (written +:+ foldr String.append "" chunks))%nat).
Proof.
  intros n. revert written flag. induction chunks as [|chunk chunks IH]; intros written flag H1 H2;
    cbn [write_all foldr].
  { exists flag. by rewrite string_app_nil. }
  rewrite Stream_Write_flagged. cbn [mbind result_bind]. fold n.
  rewrite <- (string_app_assoc written). apply IH; rewrite !orb_true_iff, Nat.ltb_lt, Nat.leb_le;
    rewrite length_app_string in *; [by right|intros [[?%H2|?]|?]; lia].
Qed.

(** Without empty chunks the flag tells exactly whether there were more. *)
Lemma write_all_holds p boundary written chunks :
  Forall (fun chunk => chunk <> "") chunks ->
  write_all (holds p boundary written) chunks
  = Ok (holds p boundary (written +:+ foldr String.append "" chunks)).
Proof.
  intros Hc. revert written. induction Hc as [|chunk chunks Hne _ IH]; intros written; cbn [write_all foldr].
  { by rewrite string_app_nil. }
  unfold holds at 1. rewrite Stream_Write_flagged. cbn [mbind result_bind].
  rewrite <- (string_app_assoc written), <- IH. f_equal. unfold holds. f_equal.
  rewrite length_app_string. assert (0 < String.length chunk)%nat by (destruct chunk; [done|cbn; lia]).
  set (n := MaximumInputBytes (limits p)).
  destruct (n <? String.length written + String.length chunk)%nat eqn:E; [by rewrite orb_true_r|].
  apply Nat.ltb_ge in E. by rewrite orb_false_r, (proj2 (Nat.ltb_ge n _)), (proj2 (Nat.leb_gt n _)) by lia.
Qed.

Lemma shrink_ext n v v' : str_take n v = str_take n v' -> shrink n v = shrink n v'.
Proof.
  induction n as [|n IH]; [done|]. intros He. cbn [shrink]. rewrite He. destruct (ValidString _); [done|].
  apply IH. pose proof (f_equal (str_take n) He) as H.
  assert (forall m k u, (m <= k)%nat -> str_take m (str_take k u) = str_take m u) as Ht.
  { clear. induction m as [|m IH]; intros [|k] [|c u] Hk; try done; [lia|]. cbn. rewrite IH; [done|lia]. }
  by rewrite !Ht in H by lia.
Qed.

(** What is cut off does not matter for what is kept. *)
Lemma boundInput_cut n t :
  (n < String.length t)%nat ->
  boundInput (str_take n t +:+ bytes [0]%N) n = boundInput t n.
Proof.
  intros Hn. unfold boundInput.
  rewrite length_app_string, length_str_take, Nat.min_l by lia.
  change (String.length (bytes [0]%N)) with 1%nat.
  rewrite !(proj2 (Nat.leb_gt _ _)) by lia.
  set (k := (n - _ - _)%nat). assert (k <= n)%nat as Hk by lia. clearbody k.
  assert (forall m, (m <= n)%nat -> str_take m (str_take n t +:+ bytes [0]%N) = str_take m t) as Ht.
  { intros m Hm. rewrite <- (str_take_drop n t) at 2. rewrite !str_take_app_le; [done|..];
      rewrite length_str_take; lia. }
  unfold validUTF8Prefix. rewrite !length_app_string, length_str_take, !Nat.min_l by (cbn; lia).
  rewrite (shrink_ext k _ t) by by apply Ht. pose proof (shrink_le k t). by rewrite Ht by lia.
Qed.

Lemma Redact_bounded p boundary input :
  (11 <= MaximumInputBytes (limits p))%nat -> (MaximumInputBytes (limits p) < String.length input)%nat ->
  (r ← Redact p boundary (boundInput input (MaximumInputBytes (limits p))).1;
   Ok {| Result_Text := Result_Text r; Result_Report := report_input (Result_Report r) true |})
  = Redact p boundary input.
Proof.
  intros Hm Hn. set (n := MaximumInputBytes (limits p)) in *.
  assert ((boundInput input n).2 = true) as Ht by (rewrite boundInput_truncated; by apply Nat.ltb_lt).
  pose proof (boundInput_length input n Hm) as Hb.
  unfold Redact. fold n. destruct (Boundary_valid boundary); [|done]. cbn [negb].
  destruct (closed p); [done|]. destruct (boundInput input n) as [bounded b]. cbn [fst snd] in *. subst b.
  assert (boundInput bounded n = (bounded, false)) as ->.
  { unfold boundInput. by rewrite (proj2 (Nat.leb_le _ _)). }
  destruct (redact_exact _ _) as [t1 c1]. destruct (redact_patterns _ _ _) as [t2 c2].
  by destruct (boundOutput _ _) as [t3 b3].
Qed.

(** [C27] A stream redacts what was written as one text. However the input is
    cut into chunks, empty ones included, and whether or not it fits the input
    bound, the stream gives the result that redacting the whole input gives,
    its report included; so no secret hides at the edge of two chunks. The one
    input left out is one of exactly the bound's length that has an empty chunk
    among its chunks: an empty write to a full buffer counts as a cut. *)
Theorem stream_redacts_the_whole p boundary chunks stream :
  well_formed p -> NewStream p boundary = Ok stream ->
  (String.length (foldr String.append "" chunks) = MaximumInputBytes (limits p) -> "" ∉ chunks) ->
  exists written,
    write_all stream chunks = Ok written /\
    (Finalize written).1 = Redact p boundary (foldr String.append "" chunks).
Proof.
  intros (_ & Hi & _) Hs Hc. set (input := foldr _ _ _) in *.
  exists (holds p boundary input). split.
  - assert (stream = flagged p boundary "" false) as ->.
    { unfold NewStream in Hs. destruct (Boundary_valid boundary); [|done]. injection Hs as <-.
      unfold flagged. by destruct (MaximumInputBytes (limits p)). }
    destruct (decide ("" ∈ chunks)) as [Hin|Hin].
    + destruct (write_all_flagged p boundary "" false chunks) as (flag & -> & H1 & H2); [cbn; lia|done|].
      rewrite string_app_empty in *. fold input in H1, H2 |- *. f_equal. unfold holds. f_equal.
      destruct (_ <? _)%nat eqn:E; [apply Nat.ltb_lt in E; by apply H1|apply Nat.ltb_ge in E].
      destruct flag; [|done]. exfalso. apply Hc; [|done]. specialize (H2 eq_refl). lia.
    + assert (flagged p boundary "" false = holds p boundary "") as ->.
      { unfold holds. by destruct (MaximumInputBytes (limits p)). }
      rewrite write_all_holds; [by rewrite string_app_empty|].
      apply Forall_forall. by intros chunk Hch ->.
  - unfold Finalize, holds, flagged.
    cbn [finalized truncated buffer fst Stream_pipeline Stream_boundary].
    destruct (_ <? _)%nat eqn:Hl.
    + apply Nat.ltb_lt in Hl. rewrite boundInput_cut by done. apply Redact_bounded; [lia|done].
    + apply Nat.ltb_ge in Hl. rewrite str_take_all by done.
      destruct (Redact p boundary input) as [e|r]; [done|]. cbn [mbind result_bind].
      unfold report_input. rewrite orb_false_r. by destruct r as [t []].
Qed.

(** ** Structured fields *)

Section Induction.
Context (P : field -> Prop)
  (Hmap : forall entries, Forall (fun e => P e.2) entries -> P (FMap entries))
  (Hlist : forall items, Forall P items -> P (FList items))
  (Hstrings : forall items, P (FStrings items)) (Hstring : forall s, P (FString s))
  (Hscalar : forall s, P (FScalar s)) (Hother : forall s, P (FOther s)).

Fixpoint field_nested_ind (v : field) : P v :=
  match v with
  | FMap entries =>
      Hmap entries ((fix go l : Forall (fun e => P e.2) l :=
        match l with
        | [] => Forall_nil_2 _
        | (k, child) :: rest =>
            Forall_cons_2 (fun e => P e.2) (k, child) rest (field_nested_ind child) (go rest)
        end) entries)
  | FList items =>
      Hlist items ((fix go l : Forall P l :=
        match l with
        | [] => Forall_nil_2 _
        | child :: rest => Forall_cons_2 P child rest (field_nested_ind child) (go rest)
        end) items)
  | FStrings items => Hstrings items
  | FString s => Hstring s
  | FScalar s => Hscalar s
  | FOther s => Hother s
  end.
End Induction.

(** Every string in a value. *)
Fixpoint leaves (v : field) : list string :=
  match v with
  | FMap entries => flat_map (fun e => leaves e.2) entries
  | FList items => flat_map leaves items
  | FStrings items => items
  | FString s => [s]
  | FScalar _ | FOther _ => []
  end.

(** Every value under a sensitive name. *)
Fixpoint under_sensitive (v : field) : list field :=
  match v with
  | FMap entries =>
      flat_map (fun e => (if sensitiveFieldName e.1 then [e.2] else []) ++ under_sensitive e.2) entries
  | FList items => flat_map under_sensitive items
  | _ => []
  end.

Lemma redact_each_Forall {A B} (Q : B -> Prop) (f : A -> Report -> result error (B * Report)) l report l' report' :
  (forall a r b r', f a r = Ok (b, r') -> Q b) ->
  redact_each f l report = Ok (l', report') -> Forall Q l'.
Proof.
  intros Hf. revert report l' report'. induction l as [|a l IH]; intros report l' report'; cbn.
  { by intros [= <- _]. }
  intros ([b r] & Hb & ([bs r'] & Hbs & [= <- _])%bind_Ok)%bind_Ok. constructor; eauto.
Qed.

Lemma Forall_flat_map {A B} (P : B -> Prop) (f : A -> list B) l :
  Forall P (flat_map f l) <-> Forall (fun a => Forall P (f a)) l.
Proof.
  induction l as [|a l IH]; cbn; [split; constructor|]. by rewrite Forall_app, Forall_cons, IH.
Qed.

Section Leaves.
Context (p : Pipeline) (boundary : Boundary) (safe : string -> Prop).
Context (Hmarker : safe Marker)
  (Hredact : forall s r, Redact p boundary s = Ok r -> safe (Result_Text r)).

Definition clean (v : field) : Prop :=
  Forall safe (leaves v) /\ Forall (eq (FString Marker)) (under_sensitive v).

Lemma redact_string_clean s report v' report' :
  redact_string p boundary s report = Ok (v', report') -> clean v'.
Proof.
  intros (r & Hr & [= <- _])%bind_Ok. split; cbn; [|done]. constructor; [|done]. by eapply Hredact.
Qed.

Lemma clean_list items : Forall clean items -> clean (FList items).
Proof.
  intros H. split; cbn; rewrite Forall_flat_map; eapply Forall_impl; [exact H|by intros v []|
    exact H|by intros v []].
Qed.

Lemma redactStructured_clean v : forall report v' report',
  redactStructured p boundary v report = Ok (v', report') -> clean v'.
Proof.
  induction v as [entries IH|items IH|items|s|s|s] using field_nested_ind;
    intros report v' report'; cbn [redactStructured].
  - intros ([entries' r] & He & [= <- _])%bind_Ok.
    enough (Forall (fun e => Forall safe (leaves e.2) /\ Forall (eq (FString Marker))
      ((if sensitiveFieldName e.1 then [e.2] else []) ++ under_sensitive e.2)) entries') as Hc.
    { split; cbn; rewrite Forall_flat_map; eapply Forall_impl; [exact Hc|by intros e []|
        exact Hc|by intros e []]. }
    revert report entries' r He. induction IH as [|[key child] rest Hchild _ IHl]; intros report entries' r.
    { by intros [= <- _]. }
    intros ([redacted r1] & H1 & ([others r2] & H2 & [= <- _])%bind_Ok)%bind_Ok.
    constructor; [|by eapply IHl]. cbn [fst snd] in *. destruct (sensitiveFieldName key).
    + injection H1 as <- _. cbn. split; repeat constructor. done.
    + apply (Hchild _ _ _ H1).
  - intros ([items' r] & He & [= <- _])%bind_Ok. apply clean_list.
    revert report items' r He. induction IH as [|child rest Hchild _ IHl]; intros report items' r.
    { by intros [= <- _]. }
    intros ([redacted r1] & H1 & ([others r2] & H2 & [= <- _])%bind_Ok)%bind_Ok.
    constructor; [by eapply Hchild|by eapply IHl].
  - intros ([items' r] & He & [= <- _])%bind_Ok. apply clean_list.
    eapply redact_each_Forall; [|exact He]. eauto using redact_string_clean.
  - apply redact_string_clean.
  - by intros [= <- _].
  - done.
Qed.
End Leaves.

(** Structured fields are redacted to their leaves. However deep the
    value, no string in what is serialized holds a loaded credential, and
    whatever stood under a sensitive name is the marker. (Names of fields are
    not strings of the value.) *)
Theorem fields_are_redacted p boundary v report v' report' :
  well_formed p -> redactStructured p boundary v report = Ok (v', report') ->
  (forall secret t, secret ∈ exact p -> plain_secret secret = true -> t ∈ leaves v' ->
     Contains t secret = false) /\
  (forall child, child ∈ under_sensitive v' -> child = FString Marker).
Proof.
  intros Hw Hr. split.
  - intros secret t Hin Hs. revert t. apply Forall_forall.
    eapply (redactStructured_clean p boundary (fun t => Contains t secret = false)); [| |exact Hr].
    + apply not_true_is_false. intros H. rewrite <- (string_app_nil Marker) in H.
      apply (mark_hides "") in H as [H|H]; [| |done|by apply list_elem_of_In; left];
        rewrite Contains_empty in H; (done || by apply plain_secret_spec).
    + intros s r Hs'. by eapply Redact_removes.
  - intros child Hc. symmetry. revert child Hc. apply Forall_forall.
    by eapply (redactStructured_clean p boundary (fun _ => True)); [| |exact Hr].
Qed.

(** ** Witnesses *)

Definition by_length (l : list string) : list string :=
  foldr (fun s sorted =>
    (fix insert l := match l with
     | [] => [s]
     | t :: rest => if (String.length t <=? String.length s)%nat then s :: l else t :: insert rest
     end) sorted) [] l.

Lemma by_length_permutes l : by_length l ≡ₚ l.
Proof.
  induction l as [|s l IH]; [done|]. cbn [by_length foldr]. fold (by_length l).
  transitivity (s :: by_length l); [|by constructor]. clear IH.
  generalize (by_length l) as sorted. induction sorted as [|t sorted IHs]; [done|].
  destruct (_ <=? _)%nat; [done|]. rewrite IHs. constructor.
Qed.

Definition sample_limits : Limits := {| MaximumInputBytes := 4096; MaximumOutputBytes := 1024 |}.

Definition sample_pipeline : Pipeline :=
  {| exact := ["hunter2-long"; "hunter2"]; limits := sample_limits; closed := false |}.

Definition sample_input : string := "login hunter2-long then hunter2, password=swordfish".

Lemma sample_well_formed : well_formed sample_pipeline.
Proof. split; [by repeat constructor|]. cbn [limits sample_pipeline sample_limits MaximumInputBytes MaximumOutputBytes]. lia. Qed.

Lemma loaded_credentials_are_removed_witness :
  exists r,
    Redact sample_pipeline BoundaryLogPersistence sample_input = Ok r /\
    Result_Text r = "login [REDACTED] then [REDACTED], password: [REDACTED]" /\
    Contains (Result_Text r) "hunter2" = false.
Proof.
  eexists. assert (H : Redact sample_pipeline BoundaryLogPersistence sample_input = Ok _)
    by (vm_compute; reflexivity).
  split; [exact H|]. split; [reflexivity|].
  apply (loaded_credentials_are_removed by_length [{| value := "hunter2" |}; {| value := "hunter2-long" |}]
    sample_limits sample_pipeline _ _ _ by_length_permutes ltac:(vm_compute; reflexivity) H)
    with (secret := {| value := "hunter2" |}).
  - apply list_elem_of_In. by left.
  - vm_compute. reflexivity.
Defined.

Lemma stream_redacts_the_whole_witness :
  exists written,
    write_all (holds sample_pipeline BoundaryUIDelivery "") ["login hunt"; ""; "er2 ok"] = Ok written /\
    (Finalize written).1 = Redact sample_pipeline BoundaryUIDelivery "login hunter2 ok".
Proof.
  exact (stream_redacts_the_whole sample_pipeline BoundaryUIDelivery ["login hunt"; ""; "er2 ok"]
    (holds sample_pipeline BoundaryUIDelivery "") sample_well_formed ltac:(reflexivity)
    ltac:(vm_compute; discriminate)).
Defined.

(** An empty write to a buffer that is exactly full cuts the text: of 4096
    blanks, which the bound admits, 1525 are left. *)
Definition full_pipeline : Pipeline :=
  {| exact := []; limits := {| MaximumInputBytes := 4096; MaximumOutputBytes := 4096 |};
     closed := false |}.

Definition full_text : string := Nat.iter 4096 (String " ") "".

Lemma empty_write_cuts :
  match write_all (holds full_pipeline BoundaryUIDelivery "") [full_text; ""],
        Redact full_pipeline BoundaryUIDelivery full_text with
  | Ok written, Ok r' =>
      match (Finalize written).1 with
      | Ok r =>
          InputTruncated (Result_Report r) && negb (InputTruncated (Result_Report r'))
          && (String.length (Result_Text r) =? 1536)%nat && (Result_Text r' =? full_text)
      | Err _ => false
      end
  | _, _ => false
  end = true.
Proof. vm_compute. reflexivity. Qed.

Definition sample_fields : field :=
  FMap [("note", FList [FString "hunter2 here"]); ("api-key", FList [FString "anything"])].

Lemma fields_are_redacted_witness :
  exists v' report',
    redactStructured sample_pipeline BoundaryLogPersistence sample_fields (empty_report BoundaryLogPersistence)
      = Ok (v', report') /\
    v' = FMap [("note", FList [FString "[REDACTED] here"]); ("api-key", FString Marker)] /\
    Contains "[REDACTED] here" "hunter2" = false.
Proof.
  eexists _, _. assert (H : redactStructured sample_pipeline BoundaryLogPersistence sample_fields
    (empty_report BoundaryLogPersistence) = Ok (_, _)) by (vm_compute; reflexivity).
  split; [exact H|]. split; [reflexivity|].
  apply (fields_are_redacted sample_pipeline _ _ _ _ _ sample_well_formed H).
  - apply list_elem_of_In. right; by left.
  - vm_compute. reflexivity.
  - apply list_elem_of_In. by left.
Defined.

(** ** What is kept of a secret *)

Definition filler (n : nat) : string := foldr (fun _ s => String " " s) "" (List.seq 0 n).

(** An input that is cut keeps the part of a credential before the cut.
    The input is cut before it is searched, so a credential across the cut is
    not found: all of it but the last byte comes out here. *)
Theorem cut_credential_is_kept :
  exists p input r,
    NewPipeline by_length [{| value := "hunter2" |}] {| MaximumInputBytes := 4096; MaximumOutputBytes := 4096 |}
      = Ok p /\
    Contains input "hunter2" = true /\
    Redact p BoundaryLogPersistence input = Ok r /\
    Contains (Result_Text r) "hunter" = true /\ Redactions (Result_Report r) = 0%Z.
Proof.
  eexists. exists (filler 1519 +:+ "hunter2" +:+ filler 2600). eexists.
  split; [vm_compute; reflexivity|]. split; [vm_compute; reflexivity|]. split; [vm_compute; reflexivity|]. split; vm_compute; reflexivity.
Qed.

(** The password of a URI is kept up to its last colon. *)
Theorem uri_password_is_kept :
  exists r,
    Redact sample_pipeline BoundaryLogPersistence "postgres://bob:open:sesame@host/db" = Ok r /\
    Result_Text r = "postgres://bob:open:[REDACTED]@host/db".
Proof. eexists. split; vm_compute; reflexivity. Qed.

(** A quoted bearer token after a line break is kept up to its first blank. *)
Lemma bearer_token_is_kept :
  exists r,
    Redact sample_pipeline BoundaryLogPersistence
      ("Bearer" +:+ bytes [10; 34]%N +:+ "open sesame" +:+ bytes [34]%N) = Ok r /\
    Result_Text r = "Bearer" +:+ bytes [10; 34]%N +:+ "open [REDACTED]".
Proof. eexists. split; vm_compute; reflexivity. Qed.

(** The names of fields are serialized as they are. *)
Lemma field_name_is_kept :
  exists report',
    redactStructured sample_pipeline BoundaryLogPersistence (FMap [("hunter2", FScalar "1")])
      (empty_report BoundaryLogPersistence) = Ok (FMap [("hunter2", FScalar "1")], report').
Proof. eexists. vm_compute. reflexivity. Qed.
