(* ===== verification/FileTools.v ===== *)
(** * File tools (src/internal/executor/file_tools.go)

    Reading, listing, writing and patching a file of the worktree, with every
    file-system call a port. Go's parser and the digest are parameters. *)

From Stdlib Require Import Ascii.
From S2P Require Import Prelude GoText GoErrors GoPath GoSearch Ports ToolPolicy PatchTool Redact.
From S2P Require Import AgentTypes.
Open Scope string_scope.
Open Scope list_scope.
Open Scope go_scope.

Definition maximumFileToolBytes : Z := Z.shiftl 512 10.

(** [len(text) > maximumFileToolBytes]. *)
Definition oversize (text : string) : bool := longer_than maximumFileToolBytes text.

Record FileInfo := { IsDir : bool; Size : Z }.

(** Packages os and time. *)
Inductive port : Type :=
| Stat (path : string)
| ReadFile (path : string)
| ReadDir (path : string)
| MkdirAll (path : string) (mode : Z)
| WriteFile (path content : string) (mode : Z)
| Now
| Since (started : Z).

Definition answer (p : port) : Type :=
  match p with
  | Stat _ => result error FileInfo
  | ReadFile _ => result error string
  | ReadDir _ => result error (list (string * bool))
  | MkdirAll _ _ => option error
  | WriteFile _ _ _ => option error
  | Now => Z
  | Since _ => Duration
  end.

Definition file_program : Type := program answer (result error string).

(** ** Reading *)

Definition readWorktreeFile (target : string) : file_program :=
  Ask (Stat target) (fun info =>
  match info with
  | Err _ => Ret (Err (Sentinel "no file at that path"))
  | Ok info =>
      if IsDir info then Ret (Err (Sentinel "that path is a directory; use list-directory"))
      else if (maximumFileToolBytes <? Size info)%Z then
        Ret (Err (Sentinel ("the file is " +:+ fmt_d (Size info) +:+ " bytes, past the "
          +:+ fmt_d maximumFileToolBytes +:+ "-byte read limit")))
      else
        Ask (ReadFile target) (fun content =>
        match content with
        | Err _ => Ret (Err (Sentinel "the file could not be read"))
        | Ok content => Ret (Ok content)
        end)
  end).

Definition listWorktreeDirectory (target : string) : file_program :=
  Ask (ReadDir target) (fun entries =>
  match entries with
  | Err _ => Ret (Err (Sentinel "no directory at that path"))
  | Ok entries =>
      let names := sort_strings
        (map (fun '(name, is_dir) => if is_dir : bool then name +:+ "/" else name) entries) in
      Ret (Ok (if is_empty_list names then "(empty directory)" else Join names newline))
  end).

(** ** Source that is Go *)

Fixpoint first_meaningful (lines : list string) : string :=
  match lines with
  | [] => ""
  | raw :: rest =>
      let line := TrimSpace raw in
      if line =? "" then first_meaningful rest
      else if HasPrefix line "//" then first_meaningful rest
      else if HasPrefix line "/*" then ""
      else line
  end.

Definition firstMeaningfulSourceLine (content : string) : string :=
  first_meaningful (SplitByte "010" content).

Definition traceableOpening (line : string) : string :=
  if (String.length line <=? 60)%nat then line else str_take 60 line +:+ "…".

Definition looksLikeAPatch (opening : string) : bool :=
  existsb (HasPrefix opening)
    ["@@"; "*** Begin Patch"; "*** End Patch"; "*** Update File"; "*** Add File"; "*** Delete File";
     "--- "; "+++ "; "diff --git"; "Index: "; "<<<<<<<"].

(** [strings.HasSuffix]. *)
Definition HasSuffix (s suffix : string) : bool := HasPrefix (rev_string s) (rev_string suffix).

(** Not a Go source file, or one under [testdata]. *)
Definition is_fixture (slashed : string) : bool :=
  negb (HasSuffix slashed ".go") || (slashed =? "testdata") || HasPrefix slashed "testdata/"
  || Contains slashed "/testdata/".

(** [filepath.Dir]. *)
Definition Dir (p : string) : string :=
  Clean (match LastIndexByte p slash with Some i => str_take (S i) p | None => "" end).

Section Tools.
(** [parser.ParseFile]'s error, and the SHA-256 in hexadecimal. *)
Context (ParseFile : string -> string -> option error) (sha256_hex : string -> string).

Definition goSourceIsWellFormed (path content : string) : option error :=
  if is_fixture path then None
  else
    let opening := firstMeaningfulSourceLine content in
    if negb (opening =? "") && negb (HasPrefix opening "package ") then
      if looksLikeAPatch opening then
        Some (Sentinel ("this is patch syntax, and it arrived at the whole-file tool. "
          +:+ "Send it to apply-patch, which takes exactly this: a " +:+ quoted "*** Update File"
          +:+ " header, " +:+ quoted "@@" +:+ " before each hunk, lines to remove prefixed "
          +:+ quoted "-" +:+ ", lines to add prefixed " +:+ quoted "+"
          +:+ ", and unprefixed context around them. Use this tool "
          +:+ "only to create a file or replace one wholesale"))
      else
        Some (Sentinel ("this is a .go file and its first line is " +:+ Quote (traceableOpening opening)
          +:+ ". A Go file begins with a package clause. What arrived is not source at all — a "
          +:+ "fence, a marker, or a placeholder — so write the file's complete text, starting at "
          +:+ quoted "package" +:+ ", with nothing around it"))
    else match ParseFile path content with
    | Some err =>
        Some (Sentinel ("this is a .go file and the content does not parse as Go: " +:+ Error err
          +:+ ". Write the file's source exactly, with no surrounding prose, "
          +:+ "markdown fence, diff marker or heading"))
    | None => None
    end.

(** ** Writing *)

Definition too_large (what : string) (n : nat) (limit : string) : error :=
  Sentinel (what +:+ fmt_d (Z.of_nat n) +:+ " bytes, past the " +:+ fmt_d maximumFileToolBytes
            +:+ limit).

Definition writeWorktreeFile (target content : string) : file_program :=
  if oversize content then
    Ret (Err (too_large "the content is " (String.length content) "-byte write limit"))
  else match goSourceIsWellFormed target content with
  | Some err => Ret (Err err)
  | None =>
      Ask (MkdirAll (Dir target) 493) (fun err =>
      match err with
      | Some _ => Ret (Err (Sentinel "the containing directory could not be created"))
      | None =>
          Ask (WriteFile target content 420) (fun err =>
          match err with
          | Some _ => Ret (Err (Sentinel "the file could not be written"))
          | None => Ret (Ok ("wrote " +:+ fmt_d (Z.of_nat (String.length content)) +:+ " bytes"))
          end)
      end)
  end.

(** patch_tool.go. *)
Definition ReadFileForPatch (target : string) : file_program :=
  Ask (ReadFile target) (fun content =>
  match content with
  | Err _ =>
      Ret (Err (Sentinel "there is no file at that path to patch; use write-file to create one"))
  | Ok content =>
      if oversize content then
        Ret (Err (too_large "the file is " (String.length content) "-byte limit"))
      else Ret (Ok content)
  end).

Definition patchWorktreeFile (target raw : string) : file_program :=
  match ParsePatch raw with
  | Err err => Ret (Err err)
  | Ok request =>
      bind (ReadFileForPatch target) (fun existing =>
      match existing with
      | Err err => Ret (Err err)
      | Ok existing =>
          match ApplyPatch sha256_hex existing request with
          | Err err => Ret (Err err)
          | Ok (patched, outcome) =>
              if oversize patched then
                Ret (Err (too_large "the patched file would be " (String.length patched) "-byte limit"))
              else match goSourceIsWellFormed target patched with
              | Some err => Ret (Err (text_cause "the patch applies but the result is broken" err))
              | None =>
                  Ask (WriteFile target patched 384) (fun err =>
                  match err with
                  | Some _ => Ret (Err (Sentinel "the patched file could not be written"))
                  | None => Ret (Ok (Summary outcome))
                  end)
              end
          end
      end)
  end.

(** ** The tool *)

Definition redactFileToolText (redactor : Pipeline) (output : string) : result error (string * bool) :=
  let truncated := oversize output in
  let text := if truncated then str_take (Z.to_nat maximumFileToolBytes) output else output in
  match Redact.Redact redactor BoundaryLogPersistence text with
  | Err err => Err (text_cause "redact tool output" err)
  | Ok redacted => Ok (Result_Text redacted, truncated)
  end.

Definition tool_result (r : ToolRequest) (state : string) (code : Z) (elapsed : Duration)
    (stdout stderr : string) (truncated : bool) : ToolResult :=
  {| ToolResult_RequestID := ToolRequest_ID r; ToolResult_SchemaVersion := ToolSchemaVersion;
     ToolResult_State := state; ToolResult_Executable := ""; ToolResult_ResolvedExecutable := "";
     ToolResult_ExitCode := code; ToolResult_Duration := elapsed; ToolResult_TimedOut := false;
     ToolResult_Cancelled := false; ToolResult_StdoutRedacted := stdout;
     ToolResult_StderrRedacted := stderr; ToolResult_StdoutTruncated := truncated;
     ToolResult_StderrTruncated := false;
     ToolResult_Summary := UserReadableToolSummary sha256_hex r |}.

Definition fileToolFailure (r : ToolRequest) (started : Z) (err : error)
    : program answer (result error ToolResult) :=
  Ask (Since started) (fun elapsed =>
  Ret (Ok (tool_result r "failed" 1 elapsed "" (Error err) false))).

(** The checks before anything is done. *)
Definition refused (redactor : option Pipeline) (authorized : AuthorizedToolRequest) : option error :=
  let request := Authorized_Request authorized in
  let c := Authorized_Classification authorized in
  match ValidateToolRequest request with
  | Some err => Some err
  | None =>
      if negb (IsFileTool (ToolRequest_Name request)) then Some (Sentinel "tool is not a file tool")
      else if negb (Classification_Outcome c =? OutcomeAutomatic)
              && negb (Classification_Outcome c =? OutcomeTaskScoped) then
        Some (Sentinel "tool request lacks executable authority")
      else if (Classification_Outcome c =? OutcomeTaskScoped)
              && (TrimSpace (Classification_MatchedGrantID c) =? "") then
        Some (Sentinel "task-scoped tool authority lacks attribution")
      else if negb (Classification_Required c =? requiredAuthority request)
              || negb (Classification_ScopeHash c =? hashActionPattern sha256_hex (actionPattern request)) then
        Some (Sentinel "tool authority classification does not match request")
      else match redactor with
      | None => Some (Sentinel "tool redactor is required")
      | Some _ => None
      end
  end.

(** [arguments["name"]]: the empty string when there is none. *)
Definition argument (r : ToolRequest) (name : string) : string :=
  default "" (namedArguments (ToolRequest_Arguments r) !! name).

(** The switch over the tools. *)
Definition perform (r : ToolRequest) (target : string) : file_program :=
  let name := ToolRequest_Name r in
  if name =? ToolReadFile then readWorktreeFile target
  else if name =? ToolListDirectory then listWorktreeDirectory target
  else if name =? ToolApplyEdit then writeWorktreeFile target (argument r "content")
  else if name =? ToolApplyPatch then patchWorktreeFile target (argument r "patch")
  else Ret (Ok "").

Definition ExecuteFileTool (redactor : option Pipeline) (authorized : AuthorizedToolRequest)
    : program answer (result error ToolResult) :=
  let request := Authorized_Request authorized in
  match refused redactor authorized, redactor with
  | Some err, _ => Ret (Err err)
  | None, None => Ret (Err (Sentinel "tool redactor is required"))
  | None, Some redactor =>
      Ask Now (fun started =>
      match resolveWorktreeFile (Authorized_WorktreePath authorized) (argument request "path") with
      | Err err => fileToolFailure request started err
      | Ok target =>
          bind (perform request target) (fun output =>
          match output with
          | Err err => fileToolFailure request started err
          | Ok output =>
              match redactFileToolText redactor output with
              | Err err => Ret (Err err)
              | Ok (text, truncated) =>
                  Ask (Since started) (fun elapsed =>
                  Ret (Ok (tool_result request "succeeded" 0 elapsed text "" truncated)))
              end
          end)
      end)
  end.
End Tools.
