(* ===== verification/FileFacts.v ===== *)
(** * What the file tools do

    Which file-system calls an authorized request leads to, what they write,
    and what comes back. *)

From Stdlib Require Import Ascii.
From S2P Require Import Prelude GoText GoErrors GoPath GoSearch Ports ToolPolicy PatchTool Redact.
From S2P Require Import RedactFacts AgentTypes FileTools.
Open Scope string_scope.
Open Scope list_scope.
Open Scope go_scope.

Section Files.
Context (ParseFile : string -> string -> option error) (sha256_hex : string -> string).
#[local] Abbreviation wellFormed := (goSourceIsWellFormed ParseFile).
#[local] Abbreviation execute := (ExecuteFileTool ParseFile sha256_hex).

(** ** What each tool may ask *)

(** The text a request may write: the content it carries, or what its patch
    makes of the text that was read. *)
Definition writable (r : ToolRequest) (target : string) (h : list (event answer)) (content : string)
    : Prop :=
  ToolRequest_Name r = ToolApplyEdit /\ content = argument r "content" \/
  ToolRequest_Name r = ToolApplyPatch /\
  exists existing request outcome,
    called (ReadFile target) (Ok existing) ∈ h /\
    ParsePatch (argument r "patch") = Ok request /\
    ApplyPatch sha256_hex existing request = Ok (content, outcome).

(** The files written so far. *)
Fixpoint writes (h : list (event answer)) : nat :=
  match h with
  | [] => 0
  | existT (WriteFile _ _ _) _ :: h => S (writes h)
  | _ :: h => writes h
  end.

(** What may be asked of the file system for a request at a target. *)
Definition allowed (r : ToolRequest) (target : string) (h : list (event answer)) (p : port) : Prop :=
  match p with
  | Stat path => path = target /\ ToolRequest_Name r = ToolReadFile
  | ReadFile path => path = target /\ ToolRequest_Name r ∈ [ToolReadFile; ToolApplyPatch]
  | ReadDir path => path = target /\ ToolRequest_Name r = ToolListDirectory
  | MkdirAll path _ => path = Dir target /\ ToolRequest_Name r = ToolApplyEdit
  | WriteFile path content _ =>
      path = target /\ writable r target h content /\ oversize content = false /\
      wellFormed target content = None /\ writes h = 0%nat
  | Now | Since _ => True
  end.

(** At most one file is written, and one exactly when a writing tool succeeds. *)
Definition settled (r : ToolRequest) {A} (output : result error A) (h : list (event answer)) : Prop :=
  (writes h <= 1)%nat /\
  (is_ok output = true ->
   writes h = if one_of [ToolApplyEdit; ToolApplyPatch] (ToolRequest_Name r) then 1%nat else 0%nat).

#[local] Abbreviation obeying r target m h := (obeys (allowed r target) m h (settled r)).

Lemma settled_Err r {A} e h : (writes h <= 1)%nat -> settled r (Err e : result error A) h.
Proof. by split. Qed.

Lemma read_obeys r target h :
  ToolRequest_Name r = ToolReadFile -> writes h = 0%nat -> obeying r target (readWorktreeFile target) h.
Proof.
  intros Hn Hw. unfold readWorktreeFile. cbn [obeys]. split; [done|].
  intros [e|info]; cbn [obeys]; [apply settled_Err; cbn; lia|].
  destruct (IsDir info); [apply settled_Err; cbn; lia|].
  destruct (_ <? _)%Z; [apply settled_Err; cbn; lia|]. cbn [obeys]. split.
  { split; [done|]. rewrite Hn. apply list_elem_of_In. by left. }
  intros [e|content]; cbn [obeys]; split; cbn; try lia. by rewrite Hn.
Qed.

Lemma list_obeys r target h :
  ToolRequest_Name r = ToolListDirectory -> writes h = 0%nat ->
  obeying r target (listWorktreeDirectory target) h.
Proof.
  intros Hn Hw. unfold listWorktreeDirectory. cbn [obeys]. split; [done|].
  intros [e|entries]; cbn [obeys]; split; cbn; try lia. by rewrite Hn.
Qed.

Lemma write_obeys r target h :
  ToolRequest_Name r = ToolApplyEdit -> writes h = 0%nat ->
  obeying r target (writeWorktreeFile ParseFile target (argument r "content")) h.
Proof.
  intros Hn Hw. unfold writeWorktreeFile.
  destruct (oversize _) eqn:Ho; [apply settled_Err; lia|].
  destruct (wellFormed _ _) eqn:Hf; [apply settled_Err; lia|]. cbn [obeys]. split; [done|].
  intros [e|]; cbn [obeys]; [apply settled_Err; cbn; lia|]. split.
  { split_and!; try done. left. done. }
  intros [e|]; cbn [obeys]; split; cbn; try lia. rewrite Hn. cbn. lia.
Qed.

Lemma patch_obeys r target h :
  ToolRequest_Name r = ToolApplyPatch -> writes h = 0%nat ->
  obeying r target (patchWorktreeFile ParseFile sha256_hex target (argument r "patch")) h.
Proof.
  intros Hn Hw. unfold patchWorktreeFile, ReadFileForPatch.
  destruct (ParsePatch _) as [e|request] eqn:Hp; [apply settled_Err; lia|]. cbn [bind obeys]. split.
  { split; [done|]. rewrite Hn. apply list_elem_of_In. right; by left. }
  intros [e|existing]; cbn [bind obeys]; [apply settled_Err; cbn; lia|].
  destruct (oversize existing); cbn [bind obeys]; [apply settled_Err; cbn; lia|].
  destruct (ApplyPatch _ _ _) as [e|[patched outcome]] eqn:Ha; [apply settled_Err; cbn; lia|].
  destruct (oversize patched) eqn:Ho; [apply settled_Err; cbn; lia|].
  destruct (wellFormed _ _) eqn:Hf; [apply settled_Err; cbn; lia|]. cbn [obeys]. split.
  { split_and!; try done. right. split; [done|]. exists existing, request, outcome.
    split_and!; try done. apply list_elem_of_In. by left. }
  intros [e|]; cbn [obeys]; split; cbn; try lia. rewrite Hn. cbn. lia.
Qed.

Lemma perform_obeys r target h :
  IsFileTool (ToolRequest_Name r) = true -> writes h = 0%nat ->
  obeying r target (perform ParseFile sha256_hex r target) h.
Proof.
  intros Hf Hw. unfold IsFileTool in Hf. apply one_of_spec in Hf. rewrite !elem_of_cons in Hf.
  destruct Hf as [Hf|[Hf|[Hf|[Hf|Hf]]]]; [..|by apply elem_of_nil in Hf]; unfold perform; rewrite Hf.
  - by apply read_obeys.
  - by apply list_obeys.
  - by apply write_obeys.
  - by apply patch_obeys.
Qed.

(** ** The tool *)

(** The request is a valid file tool's, classified as executable for exactly
    what it asks. *)
Definition authorized_for (authorized : AuthorizedToolRequest) : Prop :=
  let r := Authorized_Request authorized in
  let c := Authorized_Classification authorized in
  ValidateToolRequest r = None /\ IsFileTool (ToolRequest_Name r) = true /\
  Classification_Outcome c ∈ [OutcomeAutomatic; OutcomeTaskScoped] /\
  (Classification_Outcome c = OutcomeTaskScoped -> TrimSpace (Classification_MatchedGrantID c) <> "") /\
  Classification_Required c = requiredAuthority r /\
  Classification_ScopeHash c = ActionSHA256 sha256_hex r.

Lemma refused_None redactor authorized :
  refused sha256_hex redactor authorized = None -> authorized_for authorized /\ is_Some redactor.
Proof.
  unfold refused, authorized_for. destruct (ValidateToolRequest _); [done|].
  destruct (IsFileTool _); [|done]. cbn [negb].
  match goal with |- context [if ?b then _ else _] => destruct b eqn:Ho; [done|] end.
  match goal with |- context [if ?b then _ else _] => destruct b eqn:Hg; [done|] end.
  match goal with |- context [if ?b then _ else _] => destruct b eqn:Hc; [done|] end.
  destruct redactor; [|done]. intros _.
  to_prop. split; [|eauto]. split_and!; try tauto.
  - apply list_elem_of_In. cbn. destruct Ho as [<-|<-]; tauto.
Qed.

(** What may be asked when a request is carried out. *)
Definition permits (authorized : AuthorizedToolRequest) (h : list (event answer)) (p : port) : Prop :=
  authorized_for authorized /\
  match p with
  | Now | Since _ => True
  | _ =>
      exists target,
        resolveWorktreeFile (Authorized_WorktreePath authorized)
          (argument (Authorized_Request authorized) "path") = Ok target /\
        allowed (Authorized_Request authorized) target h p
  end.

(** How a run ends. *)
Definition ends (redactor : option Pipeline) (authorized : AuthorizedToolRequest)
    (outcome : result error ToolResult) (h : list (event answer)) : Prop :=
  (writes h <= 1)%nat /\
  forall r, outcome = Ok r ->
    ToolResult_State r = "failed" /\ ToolResult_StdoutRedacted r = "" \/
    ToolResult_State r = "succeeded" /\ ToolResult_StderrRedacted r = "" /\
    settled (Authorized_Request authorized) outcome h /\
    exists pipeline output redacted,
      redactor = Some pipeline /\
      Redact.Redact pipeline BoundaryLogPersistence output = Ok redacted /\
      ToolResult_StdoutRedacted r = Result_Text redacted.

Lemma failure_obeys redactor authorized started err h :
  authorized_for authorized -> (writes h <= 1)%nat ->
  obeys (permits authorized) (fileToolFailure sha256_hex (Authorized_Request authorized) started err) h
    (ends redactor authorized).
Proof.
  intros Ha Hw. unfold fileToolFailure. cbn [obeys]. split; [done|]. intros elapsed.
  split; [done|]. intros r [= <-]. by left.
Qed.

Lemma execute_obeys redactor authorized :
  obeys (permits authorized) (execute redactor authorized) [] (ends redactor authorized).
Proof.
  unfold ExecuteFileTool. destruct (refused _ _ _) as [err|] eqn:Hr.
  { split; [cbn; lia|done]. }
  destruct (refused_None _ _ Hr) as [Ha [pipeline ->]]. cbn [obeys]. split; [done|]. intros started.
  destruct (resolveWorktreeFile _ _) as [err|target] eqn:Ht.
  { apply failure_obeys; [done|cbn; lia]. }
  apply obeys_bind.
  pose proof (perform_obeys (Authorized_Request authorized) target [called Now started]
    (proj1 (proj2 Ha)) eq_refl) as Hp.
  eapply obeys_mono; [exact Hp|..].
  { intros h [] Hallowed; (split; [done|]); try done; eauto. }
  intros output h [Hw Hok]. destruct output as [err|output]; [by apply failure_obeys|].
  specialize (Hok eq_refl). unfold redactFileToolText.
  destruct (Redact.Redact _ _ _) as [err|redacted] eqn:Hred; [by split|].
  cbn [obeys]. split; [done|]. intros elapsed. split; [done|]. intros r [= <-]. right.
  split_and!; [done|done|by split|]. eexists _, _, _. split_and!; [done|exact Hred|done].
Qed.

(** ** The theorems *)

Definition path_of (p : port) : option string :=
  match p with
  | Stat path | ReadFile path | ReadDir path | MkdirAll path _ | WriteFile path _ _ => Some path
  | Now | Since _ => None
  end.

(** [C12] A file tool does what was authorized, inside the worktree. Every
    file-system call of every run is made for a request classified as
    executable for exactly this action, at the target its path resolves to,
    which lies in the worktree (directories are created only on the way to
    it). A read never writes; what is written is the request's content, or its
    patch applied to what was read, within the size limit and, for Go, well
    formed; and at most one file is written. *)
Theorem file_tool_stays_inside redactor authorized t outcome :
  runs (execute redactor authorized) t outcome ->
  (writes (reverse t) <= 1)%nat /\
  forall t1 p r t2 path, t = t1 ++ called p r :: t2 -> path_of p = Some path ->
    authorized_for authorized /\
    exists target,
      resolveWorktreeFile (Authorized_WorktreePath authorized)
        (argument (Authorized_Request authorized) "path") = Ok target /\
      elements_of (Authorized_WorktreePath authorized) `prefix_of` elements_of target /\
      (path = target \/ exists mode, p = MkdirAll (Dir target) mode) /\
      allowed (Authorized_Request authorized) target (reverse t1) p.
Proof.
  intros Hr. destruct (obeys_sound _ _ _ _ _ (execute_obeys redactor authorized) Hr) as [[Hw _] Hc].
  split; [done|]. intros t1 p r t2 path Ht Hp. destruct (Hc _ _ _ _ Ht) as [Ha Hallowed].
  split; [done|].
  assert (exists target, resolveWorktreeFile (Authorized_WorktreePath authorized)
      (argument (Authorized_Request authorized) "path") = Ok target /\
      allowed (Authorized_Request authorized) target (reverse t1) p) as (target & Hres & Hal)
    by by destruct p.
  exists target. split; [done|].
  split; [by apply (resolveWorktreeFile_inside _ _ _ Hres)|]. split; [|done].
  destruct p; cbn in Hp; try done; injection Hp as <-; cbn in Hal; destruct Hal as [-> _]; eauto.
Qed.

(** [C26] What a file tool hands back was redacted. A result that succeeded
    carries text out of the redaction pipeline: no loaded credential is in it
    that is plain (not empty, no blank, colon, at sign or square bracket in it,
    and no part of the words of the markers), and it is within the output
    bound; its error text is empty. A writing tool that succeeded wrote its
    file, once, and any other tool wrote nothing. *)
Theorem file_tool_output_is_redacted pipeline authorized t r :
  well_formed pipeline -> runs (execute (Some pipeline) authorized) t (Ok r) ->
  ToolResult_State r = "succeeded" ->
  ToolResult_StderrRedacted r = "" /\
  (forall secret, secret ∈ exact pipeline -> plain_secret secret = true ->
     Contains (ToolResult_StdoutRedacted r) secret = false) /\
  (String.length (ToolResult_StdoutRedacted r) <= MaximumOutputBytes (limits pipeline))%nat /\
  writes (reverse t) = if one_of [ToolApplyEdit; ToolApplyPatch] (ToolRequest_Name (Authorized_Request authorized))
                       then 1%nat else 0%nat.
Proof.
  intros Hp Hr Hs. destruct (obeys_sound _ _ _ _ _ (execute_obeys (Some pipeline) authorized) Hr) as [[_ He] _].
  destruct (He r eq_refl) as [[Hf _]|(_ & Herr & [_ Hok] & p & output & redacted & [= <-] & Hred & ->)].
  { rewrite Hf in Hs. discriminate. }
  split_and!; [done| | |by apply Hok].
  - intros secret Hin Hpl. by eapply Redact_removes.
  - by eapply Redact_length.
Qed.
End Files.

(** ** Concrete runs *)

(** A file system of one file, whose writes succeed. *)
Definition one_file (name content : string) (h : list (event answer)) (p : port) : answer p :=
  match p return answer p with
  | Stat path =>
      if path =? name then Ok {| IsDir := false; Size := Z.of_nat (String.length content) |}
      else Err (Sentinel "stat: no such file")
  | ReadFile path => if path =? name then Ok content else Err (Sentinel "open: no such file")
  | ReadDir _ => Err (Sentinel "open: no such directory")
  | MkdirAll _ _ => None
  | WriteFile _ _ _ => None
  | Now => 0%Z
  | Since started => 1%Z
  end.

Definition argument_of (name v : string) : ToolArgument :=
  {| ToolArgument_Name := name; ToolArgument_Value := v; ToolArgument_Sensitive := false |}.

Definition patch_request (patch : string) : ToolRequest :=
  {| ToolRequest_SchemaVersion := 1; ToolRequest_ID := "call-1"; ToolRequest_TaskID := "task-1";
     ToolRequest_RunID := "run-1"; ToolRequest_Name := ToolApplyPatch;
     ToolRequest_Arguments := [argument_of "path" "main.txt"; argument_of "patch" patch];
     ToolRequest_WorkingDirectory := "/work/task";
     ToolRequest_Timeout := Minute; ToolRequest_ClaimedAuthority := AuthorityTaskWrite;
     ToolRequest_ExpectedSideEffects := [EffectTaskWorktreeWrite];
     ToolRequest_IdempotencyKey := "k"; ToolRequest_Requester := "model";
     ToolRequest_PurposeUntrusted := "" |}.

Definition sample_sha (content : string) : string := "0123456789abcdef".

Definition authorized_patch (patch : string) : AuthorizedToolRequest :=
  {| Authorized_Request := patch_request patch;
     Authorized_Classification :=
       classified sample_sha (patch_request patch) OutcomeTaskScoped "policy:task-worktree-write" "";
     Authorized_WorktreePath := "/work/task" |}.

Definition sample_patch (name before after : string) : string :=
  Join ["*** Update File: " +:+ name; "@@"; "-" +:+ before; "+" +:+ after] newline.

Definition sample_run (patch : string) : result error ToolResult * list (event answer) :=
  run (one_file "/work/task/main.txt" "hello world")
    (ExecuteFileTool (fun _ _ => None) sample_sha (Some sample_pipeline) (authorized_patch patch)) [].

Lemma sample_run_runs patch :
  runs (ExecuteFileTool (fun _ _ => None) sample_sha (Some sample_pipeline) (authorized_patch patch))
    (reverse (sample_run patch).2) (sample_run patch).1.
Proof. apply run_trace. Qed.

Lemma file_tool_stays_inside_witness :
  called (WriteFile "/work/task/main.txt" "goodbye world" 384) None
    ∈ (sample_run (sample_patch "main.txt" "hello world" "goodbye world")).2 /\
  (writes (reverse (reverse (sample_run (sample_patch "main.txt" "hello world" "goodbye world")).2)) <= 1)%nat.
Proof.
  split; [apply list_elem_of_In; vm_compute; tauto|].
  apply (file_tool_stays_inside (fun _ _ => None) sample_sha (Some sample_pipeline)
    (authorized_patch (sample_patch "main.txt" "hello world" "goodbye world"))
    _ _ (sample_run_runs _)).
Defined.

Lemma file_tool_output_is_redacted_witness :
  exists r,
    (sample_run (sample_patch "main.txt" "hello world" "goodbye world")).1 = Ok r /\
    Contains (ToolResult_StdoutRedacted r) "hunter2" = false.
Proof.
  eexists. assert (H : (sample_run (sample_patch "main.txt" "hello world" "goodbye world")).1 = Ok _)
    by (vm_compute; reflexivity).
  split; [exact H|].
  assert (Hr := sample_run_runs (sample_patch "main.txt" "hello world" "goodbye world")). rewrite H in Hr.
  destruct (file_tool_output_is_redacted (fun _ _ => None) sample_sha sample_pipeline
    (authorized_patch (sample_patch "main.txt" "hello world" "goodbye world"))
    _ _ sample_well_formed Hr ltac:(reflexivity)) as (_ & Hc & _).
  apply Hc; [apply list_elem_of_In; right; by left|vm_compute; reflexivity].
Defined.

(** The file a patch names is not the file it changes. The patch below is
    for [other.txt]; it is applied to [main.txt], the path of the request. *)
Theorem patch_header_is_ignored :
  exists r,
    (sample_run (sample_patch "other.txt" "hello world" "goodbye world")).1 = Ok r /\
    ToolResult_State r = "succeeded" /\
    called (WriteFile "/work/task/main.txt" "goodbye world" 384) None
      ∈ (sample_run (sample_patch "other.txt" "hello world" "goodbye world")).2.
Proof.
  eexists. split; [vm_compute; reflexivity|]. split; [reflexivity|].
  apply list_elem_of_In. vm_compute. tauto.
Qed.

(** A failure is reported unredacted: the text of a hunk that was not
    found comes back as it was sent, a loaded credential included. *)
Theorem file_tool_failure_is_not_redacted :
  exists r,
    (sample_run (sample_patch "main.txt" "key hunter2" "key x")).1 = Ok r /\
    ToolResult_State r = "failed" /\ Contains (ToolResult_StderrRedacted r) "hunter2" = true.
Proof. eexists. split; [vm_compute; reflexivity|]. split; vm_compute; reflexivity. Qed.
