(* ===== verification/GraphModel.v ===== *)
(** * The task graph (src/internal/graph/model.go)

    Graphs, nodes, edges and revisions with their validation. Identities are
    their string value; the accessors that clone slices are the fields. *)

From Stdlib Require Import Ascii.
From S2P Require Import Prelude GoText GoErrors GoPath PolicyValues SessionEvents.
Open Scope string_scope.
Open Scope list_scope.
Open Scope go_scope.

Definition MaximumNodeDisplayNameBytes : Z := 256.
Definition MaximumContractPurposeBytes : Z := 1024.
Definition MaximumContractItems : Z := 32.
Definition MaximumContractItemBytes : Z := 512.
Definition MaximumSourceEventLinks : Z := 64.
Definition MaximumPlanStepLinks : Z := 64.
Definition MaximumPlanStepIDBytes : Z := 255.

Definition ErrInvalidGraphModel : string := "invalid graph model".

(** A [*ValidationError], which unwraps to the sentinel. *)
Definition invalid (field reason : string) : error :=
  Wrapped (field +:+ " is invalid: " +:+ reason) [Sentinel ErrInvalidGraphModel].

Definition SchemaVersionV1 : Z := 1.
Definition CurrentSchemaVersion : Z := SchemaVersionV1.
Definition SchemaVersion_IsValid (version : Z) : bool := (version =? SchemaVersionV1)%Z.

Definition MetadataPolicyTypedFieldsOnly : string := "typed-fields-only".
Definition MetadataPolicy_IsValid (policy : string) : bool := policy =? MetadataPolicyTypedFieldsOnly.

Abbreviation NodeClass := string.
Definition NodeClassRequirement : NodeClass := "requirement".
Definition NodeClassPlanRegion : NodeClass := "plan-region".
Definition NodeClassAtomOperation : NodeClass := "atom-operation".
Definition NodeClassEffect : NodeClass := "effect".
Definition NodeClassBranchMatchMerge : NodeClass := "branch-match-merge".
Definition NodeClassObligation : NodeClass := "obligation".
Definition NodeClassArtifactResult : NodeClass := "artifact-result".

Definition AllNodeClasses : list NodeClass :=
  [NodeClassRequirement; NodeClassPlanRegion; NodeClassAtomOperation; NodeClassEffect;
   NodeClassBranchMatchMerge; NodeClassObligation; NodeClassArtifactResult].

Definition NodeClass_IsValid (class : NodeClass) : bool := bool_decide (class ∈ AllNodeClasses).

Abbreviation EdgeClass := string.
Definition EdgeClassControl : EdgeClass := "control".
Definition EdgeClassDataProvenance : EdgeClass := "data-provenance".
Definition EdgeClassEvidenceDependency : EdgeClass := "evidence-dependency".
Definition EdgeClassRetry : EdgeClass := "retry".
Definition EdgeClassReconciliation : EdgeClass := "reconciliation".
Definition EdgeClassCompensation : EdgeClass := "compensation".

Definition AllEdgeClasses : list EdgeClass :=
  [EdgeClassControl; EdgeClassDataProvenance; EdgeClassEvidenceDependency; EdgeClassRetry;
   EdgeClassReconciliation; EdgeClassCompensation].

Definition EdgeClass_IsValid (class : EdgeClass) : bool := bool_decide (class ∈ AllEdgeClasses).

Abbreviation NodeStatus := string.
Definition NodeStatusPending : NodeStatus := "pending".
Definition NodeStatusActive : NodeStatus := "active".
Definition NodeStatusPassed : NodeStatus := "passed".
Definition NodeStatusWarning : NodeStatus := "warning".
Definition NodeStatusFailed : NodeStatus := "failed".
Definition NodeStatusBlocked : NodeStatus := "blocked".
Definition NodeStatusInvalidated : NodeStatus := "invalidated".

Definition AllNodeStatuses : list NodeStatus :=
  [NodeStatusPending; NodeStatusActive; NodeStatusPassed; NodeStatusWarning; NodeStatusFailed;
   NodeStatusBlocked; NodeStatusInvalidated].

Definition NodeStatus_IsValid (status : NodeStatus) : bool := bool_decide (status ∈ AllNodeStatuses).

Abbreviation Mode := string.
Definition ModeProgram : Mode := "program".
Definition ModeExecution : Mode := "execution".
Definition ModeEvidence : Mode := "evidence".
Definition AllModes : list Mode := [ModeProgram; ModeExecution; ModeEvidence].
Definition Mode_IsValid (mode : Mode) : bool :=
  (mode =? ModeProgram) || (mode =? ModeExecution) || (mode =? ModeEvidence).

(** ** Text and time *)

(** [unicode.IsControl] of some rune of a valid UTF-8 text. *)
Fixpoint has_control (s : string) : bool :=
  match s with
  | EmptyString => false
  | String c rest =>
      let b := N_of_ascii c in
      (b <? 32)%N || (b =? 127)%N
      || ((b =? 194)%N && match rest with String d _ => in_range 128 159 (N_of_ascii d) | _ => false end)
      || has_control rest
  end.

Definition validateBoundedText (field value : string) (maximumBytes : Z) : option error :=
  if (value =? "") || negb (TrimSpace value =? value) || negb (ValidString value)
     || longer_than maximumBytes value then
    Some (invalid field "must be non-empty, trimmed, valid UTF-8, and bounded")
  else if has_control value then Some (invalid field "must not contain control characters")
  else None.

Definition validUTCTime (value : Time) : bool := negb (Time_IsZero value) && Time_IsUTC value.

(** ** Graphs *)

Record Graph := { graph_id : ID; graph_taskID : ID; graph_createdAt : Time }.

Definition NewGraph (id taskID : ID) (createdAt : Time) : result error Graph :=
  if IsZero id then Err (invalid "graph.id" "must not be empty")
  else if IsZero taskID then Err (invalid "graph.task_id" "must not be empty")
  else if negb (validUTCTime createdAt) then
    Err (invalid "graph.created_at" "must be a non-zero UTC timestamp")
  else Ok {| graph_id := id; graph_taskID := taskID; graph_createdAt := createdAt |}.

Definition err_of {A} (r : result error A) : option error :=
  match r with Err e => Some e | Ok _ => None end.

Definition Graph_Validate (g : Graph) : option error :=
  err_of (NewGraph (graph_id g) (graph_taskID g) (graph_createdAt g)).

(** ** Provenance *)

Record PlanStepLink := { link_PlanRevision : Z; link_StepID : string }.

#[global] Instance PlanStepLink_eq_dec : EqDecision PlanStepLink.
Proof. solve_decision. Defined.

Definition PlanStepLink_Validate (link : PlanStepLink) : option error :=
  if (link_PlanRevision link =? 0)%Z then
    Some (invalid "source.plan_step.plan_revision" "must be greater than zero")
  else validateBoundedText "source.plan_step.step_id" (link_StepID link) MaximumPlanStepIDBytes.

Record SourceLinks := { eventIDs : list ID; planSteps : list PlanStepLink }.

#[global] Instance SourceLinks_eq_dec : EqDecision SourceLinks.
Proof. solve_decision. Defined.

(** A loop that checks every value and refuses one it has seen. *)
Fixpoint check_each {A} `{EqDecision A} (check : A -> option error) (duplicate : error)
    (seen : list A) (values : list A) : option error :=
  match values with
  | [] => None
  | value :: rest =>
      match check value with
      | Some err => Some err
      | None =>
          if bool_decide (value ∈ seen) then Some duplicate
          else check_each check duplicate (value :: seen) rest
      end
  end.

Definition exceeds {A} (limit : Z) (l : list A) : bool := (limit <? Z.of_nat (length l))%Z.

Definition NewSourceLinks (events : list ID) (steps : list PlanStepLink) : result error SourceLinks :=
  if exceeds MaximumSourceEventLinks events then
    Err (invalid "source.event_ids" "exceeds the link limit")
  else if exceeds MaximumPlanStepLinks steps then
    Err (invalid "source.plan_steps" "exceeds the link limit")
  else
    check_each
      (fun id => if IsZero id then Some (invalid "source.event_ids" "contains an empty identity") else None)
      (invalid "source.event_ids" "contains a duplicate identity") [] events ;!
    check_each PlanStepLink_Validate (invalid "source.plan_steps" "contains a duplicate link") [] steps ;!
    Ok {| eventIDs := events; planSteps := steps |}.

Definition SourceLinks_Validate (links : SourceLinks) : option error :=
  err_of (NewSourceLinks (eventIDs links) (planSteps links)).

(** ** Contracts *)

Record ContractSummary := {
  purpose : string;
  inputs : list string;
  outputs : list string;
  effects : list string;
}.

#[global] Instance ContractSummary_eq_dec : EqDecision ContractSummary.
Proof. solve_decision. Defined.

Definition zero_contract : ContractSummary :=
  {| purpose := ""; inputs := []; outputs := []; effects := [] |}.

Definition validateContractItems (field : string) (values : list string) : option error :=
  if exceeds MaximumContractItems values then Some (invalid field "exceeds the item limit")
  else check_each (fun value => validateBoundedText field value MaximumContractItemBytes)
         (invalid field "contains a duplicate item") [] values.

Definition NewContractSummary (purpose_ : string) (inputs_ outputs_ effects_ : list string)
    : result error ContractSummary :=
  if (purpose_ =? "") && is_empty_list inputs_ && is_empty_list outputs_ && is_empty_list effects_ then
    Ok zero_contract
  else
    validateBoundedText "contract.purpose" purpose_ MaximumContractPurposeBytes ;!
    validateContractItems "contract.inputs" inputs_ ;!
    validateContractItems "contract.outputs" outputs_ ;!
    validateContractItems "contract.effects" effects_ ;!
    Ok {| purpose := purpose_; inputs := inputs_; outputs := outputs_; effects := effects_ |}.

Definition ContractSummary_IsZero (c : ContractSummary) : bool :=
  (purpose c =? "") && is_empty_list (inputs c) && is_empty_list (outputs c) && is_empty_list (effects c).

Definition ContractSummary_Validate (c : ContractSummary) : option error :=
  err_of (NewContractSummary (purpose c) (inputs c) (outputs c) (effects c)).

(** ** Nodes and edges *)

Record Node := {
  node_id : ID;
  node_class : NodeClass;
  node_status : NodeStatus;
  displayName : string;
  contract : ContractSummary;
  node_sources : SourceLinks;
}.

#[global] Instance Node_eq_dec : EqDecision Node.
Proof. solve_decision. Defined.

Definition NewNode (id : ID) (class : NodeClass) (status : NodeStatus) (name : string)
    (c : ContractSummary) (sources : SourceLinks) : result error Node :=
  if IsZero id then Err (invalid "node.id" "must not be empty")
  else if negb (NodeClass_IsValid class) then Err (invalid "node.class" "is not supported")
  else if negb (NodeStatus_IsValid status) then Err (invalid "node.status" "is not supported")
  else
    validateBoundedText "node.display_name" name MaximumNodeDisplayNameBytes ;!
    ContractSummary_Validate c ;!
    SourceLinks_Validate sources ;!
    Ok {| node_id := id; node_class := class; node_status := status; displayName := name;
          contract := c; node_sources := sources |}.

Definition Node_Validate (n : Node) : option error :=
  err_of (NewNode (node_id n) (node_class n) (node_status n) (displayName n) (contract n) (node_sources n)).

Record Edge := {
  edge_id : ID;
  edge_class : EdgeClass;
  fromNode : ID;
  toNode : ID;
  edge_sources : SourceLinks;
}.

#[global] Instance Edge_eq_dec : EqDecision Edge.
Proof. solve_decision. Defined.

Definition NewEdge (id : ID) (class : EdgeClass) (from to : ID) (sources : SourceLinks)
    : result error Edge :=
  if IsZero id then Err (invalid "edge.id" "must not be empty")
  else if negb (EdgeClass_IsValid class) then Err (invalid "edge.class" "is not supported")
  else if IsZero from || IsZero to then
    Err (invalid "edge.endpoints" "must not contain an empty node identity")
  else
    SourceLinks_Validate sources ;!
    Ok {| edge_id := id; edge_class := class; fromNode := from; toNode := to; edge_sources := sources |}.

Definition Edge_Validate (e : Edge) : option error :=
  err_of (NewEdge (edge_id e) (edge_class e) (fromNode e) (toNode e) (edge_sources e)).

(** ** Revisions *)

Record RevisionMetadata := {
  revision_id : ID;
  revision_graphID : ID;
  ordinal : Z;
  parentID : option ID;
  schemaVersion : Z;
  metadataPolicy : string;
  revision_createdAt : Time;
  revision_sources : SourceLinks;
}.

Definition NewRevisionMetadata (id graphID : ID) (ordinal_ : Z) (parent : option ID)
    (version : Z) (createdAt : Time) (sources : SourceLinks) : result error RevisionMetadata :=
  if IsZero id then Err (invalid "revision.id" "must not be empty")
  else if IsZero graphID then Err (invalid "revision.graph_id" "must not be empty")
  else if (ordinal_ =? 0)%Z then Err (invalid "revision.ordinal" "must be greater than zero")
  else if ((ordinal_ =? 1)%Z && bool_decide (is_Some parent))
          || ((1 <? ordinal_)%Z && bool_decide (parent = None)) then
    Err (invalid "revision.parent_id" "must be absent only for the first revision")
  else if match parent with Some p => IsZero p || (p =? id) | None => false end then
    Err (invalid "revision.parent_id" "must identify a distinct prior revision")
  else if negb (SchemaVersion_IsValid version) then
    Err (invalid "revision.schema_version" "is not supported")
  else if negb (validUTCTime createdAt) then
    Err (invalid "revision.created_at" "must be a non-zero UTC timestamp")
  else
    SourceLinks_Validate sources ;!
    Ok {| revision_id := id; revision_graphID := graphID; ordinal := ordinal_; parentID := parent;
          schemaVersion := version; metadataPolicy := MetadataPolicyTypedFieldsOnly;
          revision_createdAt := createdAt; revision_sources := sources |}.

Definition RevisionMetadata_Validate (m : RevisionMetadata) : option error :=
  match NewRevisionMetadata (revision_id m) (revision_graphID m) (ordinal m) (parentID m)
          (schemaVersion m) (revision_createdAt m) (revision_sources m) with
  | Err err => Some err
  | Ok _ =>
      if negb (MetadataPolicy_IsValid (metadataPolicy m)) then
        Some (invalid "revision.metadata_policy" "is not supported")
      else None
  end.

Record Revision := { metadata : RevisionMetadata; revision_nodes : list Node; revision_edges : list Edge }.

(** The loop over the nodes; what it has seen are their identities. *)
Fixpoint check_nodes (seen : list ID) (nodes : list Node) : result error (list ID) :=
  match nodes with
  | [] => Ok seen
  | node :: rest =>
      Node_Validate node ;!
      if bool_decide (node_id node ∈ seen) then
        Err (invalid "revision.nodes" "contains a duplicate stable identity")
      else check_nodes (node_id node :: seen) rest
  end.

Fixpoint check_edges (nodes seen : list ID) (edges : list Edge) : option error :=
  match edges with
  | [] => None
  | edge :: rest =>
      match Edge_Validate edge with
      | Some err => Some err
      | None =>
          if bool_decide (edge_id edge ∈ seen) then
            Some (invalid "revision.edges" "contains a duplicate stable identity")
          else if negb (bool_decide (fromNode edge ∈ nodes)) then
            Some (invalid "revision.edges" "references an absent source node")
          else if negb (bool_decide (toNode edge ∈ nodes)) then
            Some (invalid "revision.edges" "references an absent destination node")
          else check_edges nodes (edge_id edge :: seen) rest
      end
  end.

Definition NewRevision (m : RevisionMetadata) (nodes : list Node) (edges : list Edge)
    : result error Revision :=
  RevisionMetadata_Validate m ;!
  seenNodes ← check_nodes [] nodes;
  check_edges seenNodes [] edges ;!
  Ok {| metadata := m; revision_nodes := nodes; revision_edges := edges |}.

Definition Revision_Validate (r : Revision) : option error :=
  err_of (NewRevision (metadata r) (revision_nodes r) (revision_edges r)).
