(* ===== verification/GraphProjector.v ===== *)
(** * Projecting facts into the task graph (src/internal/graph/projector.go)

    One normalized fact at a time is applied to a projection, the change is
    committed as a revision, adjacent revisions are compared into a patch, and a
    revision is filtered for a mode of viewing. The projection's maps are finite
    maps, so a copy of them is the map itself. *)

From S2P Require Import Prelude GoText GoErrors GoPath PolicyValues SessionEvents GraphModel.
Open Scope string_scope.
Open Scope list_scope.
Open Scope go_scope.

Definition MaximumProjectedPlanSteps : Z := 64.
Definition DefaultPatchNodeLimit : Z := 256.
Definition DefaultPatchEdgeLimit : Z := 512.

Definition ErrInvalidProjectionEvent : string := "invalid graph projection event".
Definition ErrProjectionPending : string := "graph projection change is awaiting commit".
Definition ErrPatchLimitExceeded : string := "graph patch limit exceeded".

Definition projectionError (field reason : string) : error :=
  sentinel_text ErrInvalidProjectionEvent (field +:+ " " +:+ reason).

Abbreviation ProjectionEventKind := string.
Definition ProjectionRequirementAccepted : ProjectionEventKind := "requirement-accepted".
Definition ProjectionPlanDeclared : ProjectionEventKind := "plan-declared".
Definition ProjectionOperationObserved : ProjectionEventKind := "operation-observed".
Definition ProjectionEffectObserved : ProjectionEventKind := "effect-observed".
Definition ProjectionApprovalBoundary : ProjectionEventKind := "approval-boundary".
Definition ProjectionValidationObserved : ProjectionEventKind := "validation-observed".
Definition ProjectionArtifactObserved : ProjectionEventKind := "artifact-observed".
Definition ProjectionRetryObserved : ProjectionEventKind := "retry-observed".
Definition ProjectionRecoveryObserved : ProjectionEventKind := "recovery-observed".
Definition ProjectionTokenDelta : ProjectionEventKind := "token-delta".

Definition ProjectionEventKind_IsValid (kind : ProjectionEventKind) : bool :=
  bool_decide (kind ∈ [ProjectionRequirementAccepted; ProjectionPlanDeclared;
    ProjectionOperationObserved; ProjectionEffectObserved; ProjectionApprovalBoundary;
    ProjectionValidationObserved; ProjectionArtifactObserved; ProjectionRetryObserved;
    ProjectionRecoveryObserved; ProjectionTokenDelta]).

(** ** Facts *)

Record RequirementFact := {
  requirement_NodeID : ID;
  requirement_DisplayName : string;
  requirement_Contract : ContractSummary;
}.

Record PlanStepFact := {
  step_StepID : string;
  step_NodeID : ID;
  step_ControlEdge : ID;
  step_DisplayName : string;
}.

Record PlanFact := {
  plan_Revision : Z;
  plan_RegionNodeID : ID;
  plan_RegionDisplayName : string;
  plan_RequirementNodeID : ID;
  plan_RequirementEdgeID : ID;
  plan_Steps : list PlanStepFact;
}.

Definition OperationRepositoryInspection : string := "repository-inspection".
Definition OperationFileEdit : string := "file-edit".
Definition OperationKind_IsValid (kind : string) : bool :=
  (kind =? OperationRepositoryInspection) || (kind =? OperationFileEdit).

Abbreviation ProjectionState := string.
Definition ProjectionPendingState : ProjectionState := "pending".
Definition ProjectionActiveState : ProjectionState := "active".
Definition ProjectionPassedState : ProjectionState := "passed".
Definition ProjectionWarningState : ProjectionState := "warning".
Definition ProjectionFailedState : ProjectionState := "failed".
Definition ProjectionBlockedState : ProjectionState := "blocked".
Definition ProjectionInvalidatedState : ProjectionState := "invalidated".

(** [nodeStatus]; [None] is its [false]. *)
Definition ProjectionState_nodeStatus (state : ProjectionState) : option NodeStatus :=
  if state =? ProjectionPendingState then Some NodeStatusPending
  else if state =? ProjectionActiveState then Some NodeStatusActive
  else if state =? ProjectionPassedState then Some NodeStatusPassed
  else if state =? ProjectionWarningState then Some NodeStatusWarning
  else if state =? ProjectionFailedState then Some NodeStatusFailed
  else if state =? ProjectionBlockedState then Some NodeStatusBlocked
  else if state =? ProjectionInvalidatedState then Some NodeStatusInvalidated
  else None.

Record OperationFact := {
  operation_Kind : string;
  operation_NodeID : ID;
  operation_ControlEdge : ID;
  operation_PlanNodeID : ID;
  operation_PlanRevision : Z;
  operation_PlanStepID : string;
  operation_DisplayName : string;
  operation_State : ProjectionState;
}.

Definition EffectCommandCall : string := "command-call".
Definition EffectProviderCall : string := "provider-call".
Definition EffectKind_IsValid (kind : string) : bool :=
  (kind =? EffectCommandCall) || (kind =? EffectProviderCall).

Record EffectFact := {
  effect_Kind : string;
  effect_NodeID : ID;
  effect_ControlEdge : ID;
  effect_OperationNode : ID;
  effect_PlanRevision : Z;
  effect_PlanStepID : string;
  effect_DisplayName : string;
  effect_State : ProjectionState;
}.

Abbreviation ApprovalState := string.
Definition ApprovalRequested : ApprovalState := "requested".
Definition ApprovalGranted : ApprovalState := "granted".
Definition ApprovalDenied : ApprovalState := "denied".
Definition ApprovalCancelled : ApprovalState := "cancelled".

Definition ApprovalState_nodeStatus (state : ApprovalState) : option NodeStatus :=
  if state =? ApprovalRequested then Some NodeStatusBlocked
  else if state =? ApprovalGranted then Some NodeStatusPassed
  else if state =? ApprovalDenied then Some NodeStatusFailed
  else if state =? ApprovalCancelled then Some NodeStatusWarning
  else None.

Record ApprovalFact := {
  approval_NodeID : ID;
  approval_ControlEdge : ID;
  approval_Predecessor : ID;
  approval_DisplayName : string;
  approval_State : ApprovalState;
  approval_PlanRevision : Z;
  approval_PlanStepID : string;
}.

Record ValidationFact := {
  validation_ObligationNodeID : ID;
  validation_ControlEdge : ID;
  validation_Predecessor : ID;
  validation_DisplayName : string;
  validation_State : ProjectionState;
  validation_PlanRevision : Z;
  validation_PlanStepID : string;
  validation_ResultNodeID : ID;
  validation_EvidenceEdge : ID;
  validation_ResultDisplayName : string;
}.

Definition ArtifactChangedFile : string := "changed-file".
Definition ArtifactDiff : string := "diff".
Definition ArtifactCheckpoint : string := "checkpoint".
Definition ArtifactKind_IsValid (kind : string) : bool :=
  (kind =? ArtifactChangedFile) || (kind =? ArtifactDiff) || (kind =? ArtifactCheckpoint).

Record ArtifactFact := {
  artifact_Kind : string;
  artifact_NodeID : ID;
  artifact_ProvenanceEdge : ID;
  artifact_ProducerNode : ID;
  artifact_DisplayName : string;
  artifact_State : ProjectionState;
  artifact_PlanRevision : Z;
  artifact_PlanStepID : string;
}.

Record RetryFact := {
  retry_EdgeID : ID;
  retry_PreviousNodeID : ID;
  retry_RetryNodeID : ID;
}.

Abbreviation RecoveryKind := string.
Definition RecoveryRequired : RecoveryKind := "required".
Definition RecoveryReconciled : RecoveryKind := "reconciled".
Definition RecoveryCompensated : RecoveryKind := "compensated".

Definition RecoveryKind_relation (kind : RecoveryKind) : option (EdgeClass * NodeStatus) :=
  if kind =? RecoveryRequired then Some (EdgeClassReconciliation, NodeStatusBlocked)
  else if kind =? RecoveryReconciled then Some (EdgeClassReconciliation, NodeStatusPassed)
  else if kind =? RecoveryCompensated then Some (EdgeClassCompensation, NodeStatusWarning)
  else None.

Record RecoveryFact := {
  recovery_Kind : RecoveryKind;
  recovery_NodeID : ID;
  recovery_RelationEdge : ID;
  recovery_CheckpointNodeID : ID;
  recovery_DisplayName : string;
}.

Record TokenDeltaFact := {}.

Record ProjectionEvent := {
  event_Sequence : Z;
  event_SourceEventID : ID;
  event_TaskID : ID;
  event_OccurredAt : Time;
  event_Kind : ProjectionEventKind;
  event_Requirement : option RequirementFact;
  event_Plan : option PlanFact;
  event_Operation : option OperationFact;
  event_Effect : option EffectFact;
  event_Approval : option ApprovalFact;
  event_Validation : option ValidationFact;
  event_Artifact : option ArtifactFact;
  event_Retry : option RetryFact;
  event_Recovery : option RecoveryFact;
  event_TokenDelta : option TokenDeltaFact;
}.

(** ** Projections *)

Record GraphProjection := {
  projection_graph : Graph;
  projection_revision : option Revision;
  lastSequence : Z;
  projection_nodes : gmap ID Node;
  projection_edges : gmap ID Edge;
  pendingChange : Z;
}.

Definition set_nodes (p : GraphProjection) (nodes : gmap ID Node) : GraphProjection :=
  {| projection_graph := projection_graph p; projection_revision := projection_revision p;
     lastSequence := lastSequence p; projection_nodes := nodes;
     projection_edges := projection_edges p; pendingChange := pendingChange p |}.

Definition set_edges (p : GraphProjection) (edges : gmap ID Edge) : GraphProjection :=
  {| projection_graph := projection_graph p; projection_revision := projection_revision p;
     lastSequence := lastSequence p; projection_nodes := projection_nodes p;
     projection_edges := edges; pendingChange := pendingChange p |}.

Definition set_progress (p : GraphProjection) (revision : option Revision) (sequence pending : Z)
    : GraphProjection :=
  {| projection_graph := projection_graph p; projection_revision := revision;
     lastSequence := sequence; projection_nodes := projection_nodes p;
     projection_edges := projection_edges p; pendingChange := pending |}.

Definition node_map (nodes : list Node) : gmap ID Node :=
  fold_left (fun m node => <[node_id node := node]> m) nodes ∅.

Definition edge_map (edges : list Edge) : gmap ID Edge :=
  fold_left (fun m edge => <[edge_id edge := edge]> m) edges ∅.

Definition NewGraphProjection (identity : Graph) (revision : option Revision) (sequence : Z)
    : result error GraphProjection :=
  Graph_Validate identity ;!
  match revision with
  | None =>
      Ok {| projection_graph := identity; projection_revision := None; lastSequence := sequence;
            projection_nodes := ∅; projection_edges := ∅; pendingChange := 0 |}
  | Some r =>
      Revision_Validate r ;!
      if negb (revision_graphID (metadata r) =? graph_id identity) then
        Err (projectionError "revision.graph_id" "does not match the projection graph")
      else
        Ok {| projection_graph := identity; projection_revision := Some r; lastSequence := sequence;
              projection_nodes := node_map (revision_nodes r);
              projection_edges := edge_map (revision_edges r); pendingChange := 0 |}
  end.

Record GraphChange := {
  material : bool;
  change_graphID : ID;
  change_sequence : Z;
  change_occurredAt : Time;
  change_sources : SourceLinks;
  change_nodes : list Node;
  change_edges : list Edge;
}.

Definition zero_time : Time := {| Time_nanos := 0; Time_Location := "UTC" |}.

Definition immaterial (sequence : Z) : GraphChange :=
  {| material := false; change_graphID := ""; change_sequence := sequence;
     change_occurredAt := zero_time; change_sources := {| eventIDs := []; planSteps := [] |};
     change_nodes := []; change_edges := [] |}.

(** [sort.Slice] by the string of a unique identity. *)
Definition sort_by {A} (key : A -> string) (l : list A) : list A :=
  merge_sort (fun a b => String.le (key a) (key b)) l.

Definition sortedNodes (values : gmap ID Node) : list Node := sort_by node_id (map_to_list values).*2.
Definition sortedEdges (values : gmap ID Edge) : list Edge := sort_by edge_id (map_to_list values).*2.

Definition equalContract (left right : ContractSummary) : bool :=
  (purpose left =? purpose right) && bool_decide (inputs left = inputs right)
  && bool_decide (outputs left = outputs right) && bool_decide (effects left = effects right).

Definition equalSources (left right : SourceLinks) : bool :=
  bool_decide (eventIDs left = eventIDs right) && bool_decide (planSteps left = planSteps right).

Definition equalNode (left right : Node) : bool :=
  (node_id left =? node_id right) && (node_class left =? node_class right)
  && (node_status left =? node_status right) && (displayName left =? displayName right)
  && equalContract (contract left) (contract right)
  && equalSources (node_sources left) (node_sources right).

Definition equalEdge (left right : Edge) : bool :=
  (edge_id left =? edge_id right) && (edge_class left =? edge_class right)
  && (fromNode left =? fromNode right) && (toNode left =? toNode right)
  && equalSources (edge_sources left) (edge_sources right).

(** [slices.EqualFunc]. *)
Fixpoint equal_slices {A} (equal : A -> A -> bool) (left right : list A) : bool :=
  match left, right with
  | [], [] => true
  | a :: l, b :: r => equal a b && equal_slices equal l r
  | _, _ => false
  end.

Definition equalNodeSlices : list Node -> list Node -> bool := equal_slices equalNode.
Definition equalEdgeSlices : list Edge -> list Edge -> bool := equal_slices equalEdge.

(** ** Applying a fact *)

(** What [right] has that is not there yet, at the end. *)
Definition append_new {A} `{EqDecision A} (left right : list A) : list A :=
  fold_left (fun seen value => if bool_decide (value ∈ seen) then seen else seen ++ [value]) right left.

Definition mergeSources (left right : SourceLinks) : result error SourceLinks :=
  NewSourceLinks (append_new (eventIDs left) (eventIDs right))
    (append_new (planSteps left) (planSteps right)).

Definition eventAndPlanSources (eventID : ID) (revision : Z) (stepID : string)
    : result error SourceLinks :=
  NewSourceLinks [eventID] [{| link_PlanRevision := revision; link_StepID := stepID |}].

Definition eventAndOptionalPlanSources (eventID : ID) (revision : Z) (stepID : string)
    : result error SourceLinks :=
  if (revision =? 0)%Z && (stepID =? "") then NewSourceLinks [eventID] []
  else eventAndPlanSources eventID revision stepID.

Definition putNode (p : GraphProjection) (id : ID) (class : NodeClass) (status : NodeStatus)
    (name : string) (c : ContractSummary) (sources : SourceLinks) : result error GraphProjection :=
  match projection_nodes p !! id with
  | Some existing =>
      if negb (node_class existing =? class) || negb (displayName existing =? name)
         || negb (equalContract (contract existing) c) then
        Err (projectionError "node.identity" "was reused for different immutable semantics")
      else
        merged ← mergeSources (node_sources existing) sources;
        node ← NewNode id class status name c merged;
        Ok (set_nodes p (<[id := node]> (projection_nodes p)))
  | None =>
      node ← NewNode id class status name c sources;
      Ok (set_nodes p (<[id := node]> (projection_nodes p)))
  end.

Definition projected (p : GraphProjection) (id : ID) : bool := bool_decide (is_Some (projection_nodes p !! id)).

Definition putEdge (p : GraphProjection) (id : ID) (class : EdgeClass) (from to : ID)
    (sources : SourceLinks) : result error GraphProjection :=
  if negb (projected p from) then Err (projectionError "edge.from" "references an unprojected node")
  else if negb (projected p to) then Err (projectionError "edge.to" "references an unprojected node")
  else match projection_edges p !! id with
  | Some existing =>
      if negb (edge_class existing =? class) || negb (fromNode existing =? from)
         || negb (toNode existing =? to) then
        Err (projectionError "edge.identity" "was reused for different immutable semantics")
      else
        merged ← mergeSources (edge_sources existing) sources;
        edge ← NewEdge id class from to merged;
        Ok (set_edges p (<[id := edge]> (projection_edges p)))
  | None =>
      edge ← NewEdge id class from to sources;
      Ok (set_edges p (<[id := edge]> (projection_edges p)))
  end.

Fixpoint apply_steps (p : GraphProjection) (fact : PlanFact) (sources : SourceLinks)
    (steps : list PlanStepFact) : result error GraphProjection :=
  match steps with
  | [] => Ok p
  | step :: rest =>
      stepSources ← NewSourceLinks (eventIDs sources)
        [{| link_PlanRevision := plan_Revision fact; link_StepID := step_StepID step |}];
      p ← putNode p (step_NodeID step) NodeClassPlanRegion NodeStatusPending
            (step_DisplayName step) zero_contract stepSources;
      p ← putEdge p (step_ControlEdge step) EdgeClassControl (plan_RegionNodeID fact)
            (step_NodeID step) stepSources;
      apply_steps p fact sources rest
  end.

Definition applyPlan (p : GraphProjection) (fact : PlanFact) (sources : SourceLinks)
    : result error GraphProjection :=
  p ← putNode p (plan_RegionNodeID fact) NodeClassPlanRegion NodeStatusActive
        (plan_RegionDisplayName fact) zero_contract sources;
  p ← putEdge p (plan_RequirementEdgeID fact) EdgeClassControl (plan_RequirementNodeID fact)
        (plan_RegionNodeID fact) sources;
  apply_steps p fact sources (plan_Steps fact).

Definition applyValidation (p : GraphProjection) (fact : ValidationFact) (eventID : ID)
    : result error GraphProjection :=
  let status := default "" (ProjectionState_nodeStatus (validation_State fact)) in
  sources ← eventAndPlanSources eventID (validation_PlanRevision fact) (validation_PlanStepID fact);
  p ← putNode p (validation_ObligationNodeID fact) NodeClassObligation status
        (validation_DisplayName fact) zero_contract sources;
  p ← putEdge p (validation_ControlEdge fact) EdgeClassControl (validation_Predecessor fact)
        (validation_ObligationNodeID fact) sources;
  if IsZero (validation_ResultNodeID fact) then Ok p
  else
    p ← putNode p (validation_ResultNodeID fact) NodeClassArtifactResult status
          (validation_ResultDisplayName fact) zero_contract sources;
    putEdge p (validation_EvidenceEdge fact) EdgeClassEvidenceDependency
      (validation_ObligationNodeID fact) (validation_ResultNodeID fact) sources.

(** A node and the edge that leads to it. *)
Definition put_reached (p : GraphProjection) (id : ID) (class : NodeClass) (status : NodeStatus)
    (name : string) (edge : ID) (relation : EdgeClass) (from : ID) (sources : SourceLinks)
    : result error GraphProjection :=
  p ← putNode p id class status name zero_contract sources;
  putEdge p edge relation from id sources.

(** The payload of a kind is present once the event was validated. *)
Definition with_fact {F} (fact : option F) (k : F -> result error GraphProjection)
    : result error GraphProjection :=
  match fact with
  | Some fact => k fact
  | None => Err (Sentinel "runtime error: invalid memory address or nil pointer dereference")
  end.

Definition applyProjectionFact (p : GraphProjection) (event : ProjectionEvent) (eventSources : SourceLinks)
    : result error GraphProjection :=
  let kind := event_Kind event in
  let source := event_SourceEventID event in
  if kind =? ProjectionRequirementAccepted then
    with_fact (event_Requirement event) (fun fact =>
      putNode p (requirement_NodeID fact) NodeClassRequirement NodeStatusPassed
        (requirement_DisplayName fact) (requirement_Contract fact) eventSources)
  else if kind =? ProjectionPlanDeclared then
    with_fact (event_Plan event) (fun fact => applyPlan p fact eventSources)
  else if kind =? ProjectionOperationObserved then
    with_fact (event_Operation event) (fun fact =>
      sources ← eventAndPlanSources source (operation_PlanRevision fact) (operation_PlanStepID fact);
      put_reached p (operation_NodeID fact) NodeClassAtomOperation
        (default "" (ProjectionState_nodeStatus (operation_State fact))) (operation_DisplayName fact)
        (operation_ControlEdge fact) EdgeClassControl (operation_PlanNodeID fact) sources)
  else if kind =? ProjectionEffectObserved then
    with_fact (event_Effect event) (fun fact =>
      sources ← eventAndPlanSources source (effect_PlanRevision fact) (effect_PlanStepID fact);
      put_reached p (effect_NodeID fact) NodeClassEffect
        (default "" (ProjectionState_nodeStatus (effect_State fact))) (effect_DisplayName fact)
        (effect_ControlEdge fact) EdgeClassControl (effect_OperationNode fact) sources)
  else if kind =? ProjectionApprovalBoundary then
    with_fact (event_Approval event) (fun fact =>
      sources ← eventAndPlanSources source (approval_PlanRevision fact) (approval_PlanStepID fact);
      put_reached p (approval_NodeID fact) NodeClassBranchMatchMerge
        (default "" (ApprovalState_nodeStatus (approval_State fact))) (approval_DisplayName fact)
        (approval_ControlEdge fact) EdgeClassControl (approval_Predecessor fact) sources)
  else if kind =? ProjectionValidationObserved then
    with_fact (event_Validation event) (fun fact => applyValidation p fact source)
  else if kind =? ProjectionArtifactObserved then
    with_fact (event_Artifact event) (fun fact =>
      sources ← eventAndOptionalPlanSources source (artifact_PlanRevision fact) (artifact_PlanStepID fact);
      put_reached p (artifact_NodeID fact) NodeClassArtifactResult
        (default "" (ProjectionState_nodeStatus (artifact_State fact))) (artifact_DisplayName fact)
        (artifact_ProvenanceEdge fact) EdgeClassDataProvenance (artifact_ProducerNode fact) sources)
  else if kind =? ProjectionRetryObserved then
    with_fact (event_Retry event) (fun fact =>
      putEdge p (retry_EdgeID fact) EdgeClassRetry (retry_PreviousNodeID fact)
        (retry_RetryNodeID fact) eventSources)
  else if kind =? ProjectionRecoveryObserved then
    with_fact (event_Recovery event) (fun fact =>
      let '(relation, status) := default ("", "") (RecoveryKind_relation (recovery_Kind fact)) in
      put_reached p (recovery_NodeID fact) NodeClassBranchMatchMerge status
        (recovery_DisplayName fact) (recovery_RelationEdge fact) relation
        (recovery_CheckpointNodeID fact) eventSources)
  else Err (projectionError "event.kind" "is not projectable").

(** ** Validating an event *)

Definition present {F} (fact : option F) : bool := match fact with Some _ => true | None => false end.

Definition projectionPayloadCount (event : ProjectionEvent) : Z :=
  Z.of_nat (length (List.filter id
    [present (event_Requirement event); present (event_Plan event); present (event_Operation event);
     present (event_Effect event); present (event_Approval event); present (event_Validation event);
     present (event_Artifact event); present (event_Retry event); present (event_Recovery event);
     present (event_TokenDelta event)])).

Definition projectionPayloadMatchesKind (event : ProjectionEvent) : bool :=
  let kind := event_Kind event in
  if kind =? ProjectionRequirementAccepted then present (event_Requirement event)
  else if kind =? ProjectionPlanDeclared then present (event_Plan event)
  else if kind =? ProjectionOperationObserved then present (event_Operation event)
  else if kind =? ProjectionEffectObserved then present (event_Effect event)
  else if kind =? ProjectionApprovalBoundary then present (event_Approval event)
  else if kind =? ProjectionValidationObserved then present (event_Validation event)
  else if kind =? ProjectionArtifactObserved then present (event_Artifact event)
  else if kind =? ProjectionRetryObserved then present (event_Retry event)
  else if kind =? ProjectionRecoveryObserved then present (event_Recovery event)
  else if kind =? ProjectionTokenDelta then present (event_TokenDelta event)
  else false.

Fixpoint check_steps (seenSteps seenNodes seenEdges : list string) (steps : list PlanStepFact)
    : option error :=
  match steps with
  | [] => None
  | step :: rest =>
      if (step_StepID step =? "") || IsZero (step_NodeID step) || IsZero (step_ControlEdge step) then
        Some (projectionError "plan.steps" "contains an incomplete step")
      else if bool_decide (step_StepID step ∈ seenSteps) then
        Some (projectionError "plan.steps" "contains a duplicate step identity")
      else if bool_decide (step_NodeID step ∈ seenNodes) then
        Some (projectionError "plan.steps" "contains a duplicate node identity")
      else if bool_decide (step_ControlEdge step ∈ seenEdges) then
        Some (projectionError "plan.steps" "contains a duplicate edge identity")
      else check_steps (step_StepID step :: seenSteps) (step_NodeID step :: seenNodes)
             (step_ControlEdge step :: seenEdges) rest
  end.

Definition check_fact {F} (fact : option F) (check : F -> option error) : option error :=
  match fact with Some fact => check fact | None => None end.

Definition incomplete (what : string) (missing : bool) : option error :=
  if missing then Some (projectionError what "is incomplete") else None.

Definition validateProjectionPayload (p : GraphProjection) (event : ProjectionEvent) : option error :=
  let kind := event_Kind event in
  if kind =? ProjectionRequirementAccepted then
    check_fact (event_Requirement event) (fun fact =>
      if IsZero (requirement_NodeID fact) then
        Some (projectionError "requirement.node_id" "must not be empty") else None)
  else if kind =? ProjectionPlanDeclared then
    check_fact (event_Plan event) (fun fact =>
      if (plan_Revision fact =? 0)%Z || IsZero (plan_RegionNodeID fact)
         || IsZero (plan_RequirementNodeID fact) || IsZero (plan_RequirementEdgeID fact)
         || is_empty_list (plan_Steps fact) || exceeds MaximumProjectedPlanSteps (plan_Steps fact) then
        Some (projectionError "plan" "is incomplete or exceeds its step limit")
      else if negb (projected p (plan_RequirementNodeID fact)) then
        Some (projectionError "plan.requirement" "is not projected")
      else check_steps [] [] [] (plan_Steps fact))
  else if kind =? ProjectionOperationObserved then
    check_fact (event_Operation event) (fun fact =>
      incomplete "operation"
        (negb (OperationKind_IsValid (operation_Kind fact)) || IsZero (operation_NodeID fact)
         || IsZero (operation_ControlEdge fact) || IsZero (operation_PlanNodeID fact)
         || (operation_PlanRevision fact =? 0)%Z || (operation_PlanStepID fact =? "")
         || negb (present (ProjectionState_nodeStatus (operation_State fact)))))
  else if kind =? ProjectionEffectObserved then
    check_fact (event_Effect event) (fun fact =>
      incomplete "effect"
        (negb (EffectKind_IsValid (effect_Kind fact)) || IsZero (effect_NodeID fact)
         || IsZero (effect_ControlEdge fact) || IsZero (effect_OperationNode fact)
         || (effect_PlanRevision fact =? 0)%Z || (effect_PlanStepID fact =? "")
         || negb (present (ProjectionState_nodeStatus (effect_State fact)))))
  else if kind =? ProjectionApprovalBoundary then
    check_fact (event_Approval event) (fun fact =>
      incomplete "approval"
        (IsZero (approval_NodeID fact) || IsZero (approval_ControlEdge fact)
         || IsZero (approval_Predecessor fact)
         || negb (present (ApprovalState_nodeStatus (approval_State fact)))
         || (approval_PlanRevision fact =? 0)%Z || (approval_PlanStepID fact =? "")))
  else if kind =? ProjectionValidationObserved then
    check_fact (event_Validation event) (fun fact =>
      if IsZero (validation_ObligationNodeID fact) || IsZero (validation_ControlEdge fact)
         || IsZero (validation_Predecessor fact)
         || negb (present (ProjectionState_nodeStatus (validation_State fact)))
         || (validation_PlanRevision fact =? 0)%Z || (validation_PlanStepID fact =? "") then
        Some (projectionError "validation" "is incomplete")
      else if xorb (IsZero (validation_ResultNodeID fact)) (IsZero (validation_EvidenceEdge fact))
              || xorb (IsZero (validation_ResultNodeID fact)) (validation_ResultDisplayName fact =? "") then
        Some (projectionError "validation.result" "must be entirely present or absent")
      else None)
  else if kind =? ProjectionArtifactObserved then
    check_fact (event_Artifact event) (fun fact =>
      incomplete "artifact"
        (negb (ArtifactKind_IsValid (artifact_Kind fact)) || IsZero (artifact_NodeID fact)
         || IsZero (artifact_ProvenanceEdge fact) || IsZero (artifact_ProducerNode fact)
         || negb (present (ProjectionState_nodeStatus (artifact_State fact)))
         || xorb (artifact_PlanRevision fact =? 0)%Z (artifact_PlanStepID fact =? "")))
  else if kind =? ProjectionRetryObserved then
    check_fact (event_Retry event) (fun fact =>
      incomplete "retry"
        (IsZero (retry_EdgeID fact) || IsZero (retry_PreviousNodeID fact)
         || IsZero (retry_RetryNodeID fact) || (retry_PreviousNodeID fact =? retry_RetryNodeID fact)))
  else if kind =? ProjectionRecoveryObserved then
    check_fact (event_Recovery event) (fun fact =>
      incomplete "recovery"
        (negb (present (RecoveryKind_relation (recovery_Kind fact))) || IsZero (recovery_NodeID fact)
         || IsZero (recovery_RelationEdge fact) || IsZero (recovery_CheckpointNodeID fact)))
  else None.

Definition validateProjectionEvent (p : GraphProjection) (event : ProjectionEvent) : option error :=
  if IsZero (graph_id (projection_graph p)) then Some (projectionError "projection.graph" "is missing")
  else if negb (event_Sequence event =? wrap_uint64 (lastSequence p + 1))%Z then
    Some (projectionError "event.sequence" "must be the next contiguous sequence")
  else if IsZero (event_SourceEventID event) then
    Some (projectionError "event.source_event_id" "must not be empty")
  else if IsZero (event_TaskID event) || negb (event_TaskID event =? graph_taskID (projection_graph p)) then
    Some (projectionError "event.task_id" "does not match the graph task")
  else if Time_IsZero (event_OccurredAt event) || negb (Time_IsUTC (event_OccurredAt event)) then
    Some (projectionError "event.occurred_at" "must be a non-zero UTC timestamp")
  else if negb (ProjectionEventKind_IsValid (event_Kind event)) then
    Some (projectionError "event.kind" "is not supported")
  else if negb (projectionPayloadCount event =? 1)%Z then
    Some (projectionError "event.payload" "must contain exactly one typed fact")
  else if negb (projectionPayloadMatchesKind event) then
    Some (projectionError "event.payload" "does not match the event kind")
  else validateProjectionPayload p event.

Definition ProjectSessionEvent (p : GraphProjection) (event : ProjectionEvent)
    : result error (GraphProjection * GraphChange) :=
  if negb (pendingChange p =? 0)%Z then Err (Sentinel ErrProjectionPending)
  else
    validateProjectionEvent p event ;!
    let next := set_progress p (projection_revision p) (event_Sequence event) (pendingChange p) in
    if event_Kind event =? ProjectionTokenDelta then Ok (next, immaterial (event_Sequence event))
    else
      sources ← NewSourceLinks [event_SourceEventID event] [];
      next ← applyProjectionFact next event sources;
      Ok (set_progress next (projection_revision next) (lastSequence next) (event_Sequence event),
          {| material := true; change_graphID := graph_id (projection_graph p);
             change_sequence := event_Sequence event; change_occurredAt := event_OccurredAt event;
             change_sources := sources; change_nodes := sortedNodes (projection_nodes next);
             change_edges := sortedEdges (projection_edges next) |}).

(** ** Committing *)

Definition CommitGraphRevision (p : GraphProjection) (change : GraphChange) (revisionID : ID)
    : result error (GraphProjection * Revision) :=
  if negb (material change) || negb (change_graphID change =? graph_id (projection_graph p))
     || (pendingChange p =? 0)%Z || negb (pendingChange p =? change_sequence change)%Z
     || IsZero revisionID then
    Err (projectionError "commit" "does not match a pending material change")
  else if negb (equalNodeSlices (change_nodes change) (sortedNodes (projection_nodes p)))
          || negb (equalEdgeSlices (change_edges change) (sortedEdges (projection_edges p))) then
    Err (projectionError "commit.change" "belongs to a different projection branch")
  else
    let '(ordinal_, parent) :=
      match projection_revision p with
      | Some r => (wrap_uint64 (ordinal (metadata r) + 1), Some (revision_id (metadata r)))
      | None => (1%Z, None)
      end in
    m ← NewRevisionMetadata revisionID (graph_id (projection_graph p)) ordinal_ parent
          CurrentSchemaVersion (change_occurredAt change) (change_sources change);
    revision ← NewRevision m (change_nodes change) (change_edges change);
    Ok (set_progress p (Some revision) (lastSequence p) 0, revision).

(** ** Patches *)

Record PatchLimits := { MaximumNodes : Z; MaximumEdges : Z }.

Definition DefaultPatchLimits : PatchLimits :=
  {| MaximumNodes := DefaultPatchNodeLimit; MaximumEdges := DefaultPatchEdgeLimit |}.

Record GraphPatch := {
  PreviousRevisionID : option ID;
  patch_RevisionID : ID;
  AddedNodes : list Node;
  UpdatedNodes : list Node;
  RemovedNodeIDs : list ID;
  AddedEdges : list Edge;
  UpdatedEdges : list Edge;
  RemovedEdgeIDs : list ID;
}.

Section Compare.
Context {A : Type} (key : A -> ID) (equal : A -> A -> bool) (previous : gmap ID A) (current : list A).

(** What is not there before, what differs, and what is no longer there, each
    sorted as [sortPatch] does. *)
Definition added : list A :=
  sort_by key (List.filter (fun a => negb (present (previous !! key a))) current).

Definition updated : list A :=
  sort_by key (List.filter (fun a =>
    match previous !! key a with Some prior => negb (equal prior a) | None => false end) current).

Definition removed : list ID :=
  sort_strings (List.filter (fun id => negb (bool_decide (id ∈ map key current)))
    (map_to_list previous).*1).
End Compare.

Definition patch_size {A B C} (a : list A) (b : list B) (c : list C) : Z :=
  (Z.of_nat (length a) + Z.of_nat (length b) + Z.of_nat (length c))%Z.

Definition patch_between (id : ID) (previous : option ID) (nodes : gmap ID Node) (edges : gmap ID Edge)
    (current : Revision) : GraphPatch :=
  {| PreviousRevisionID := previous; patch_RevisionID := id;
     AddedNodes := added node_id nodes (revision_nodes current);
     UpdatedNodes := updated node_id equalNode nodes (revision_nodes current);
     RemovedNodeIDs := removed node_id nodes (revision_nodes current);
     AddedEdges := added edge_id edges (revision_edges current);
     UpdatedEdges := updated edge_id equalEdge edges (revision_edges current);
     RemovedEdgeIDs := removed edge_id edges (revision_edges current) |}.

Definition check_adjacent (previous : option Revision) (current : Revision) : option error :=
  match previous with
  | None => None
  | Some r =>
      match Revision_Validate r with
      | Some err => Some err
      | None =>
          if negb (revision_graphID (metadata r) =? revision_graphID (metadata current)) then
            Some (projectionError "patch.graph" "revisions belong to different graphs")
          else if negb (bool_decide (parentID (metadata current) = Some (revision_id (metadata r))))
                  || negb (ordinal (metadata current) =? wrap_uint64 (ordinal (metadata r) + 1))%Z then
            Some (projectionError "patch.parent" "revisions are not adjacent")
          else None
      end
  end.

Definition BuildGraphPatch (previous : option Revision) (current : Revision) (limits : PatchLimits)
    : result error GraphPatch :=
  Revision_Validate current ;!
  if (MaximumNodes limits <=? 0)%Z || (MaximumEdges limits <=? 0)%Z then
    Err (projectionError "patch.limits" "must be positive")
  else
    check_adjacent previous current ;!
    let patch :=
      patch_between (revision_id (metadata current))
        ((fun r => revision_id (metadata r)) <$> previous)
        (match previous with Some r => node_map (revision_nodes r) | None => ∅ end)
        (match previous with Some r => edge_map (revision_edges r) | None => ∅ end) current in
    if (MaximumNodes limits <? patch_size (AddedNodes patch) (UpdatedNodes patch) (RemovedNodeIDs patch))%Z
       || (MaximumEdges limits <? patch_size (AddedEdges patch) (UpdatedEdges patch) (RemovedEdgeIDs patch))%Z then
      Err (Sentinel ErrPatchLimitExceeded)
    else Ok patch.

(** ** Modes *)

Record ModeSlice := { slice_Mode : Mode; slice_Nodes : list Node; slice_Edges : list Edge }.

Definition evidence_edge (e : Edge) : bool :=
  bool_decide (edge_class e ∈ [EdgeClassDataProvenance; EdgeClassEvidenceDependency;
    EdgeClassReconciliation; EdgeClassCompensation]).

(** One turn of the loop over the edges: the visible nodes and whether one was
    added. *)
Definition spread_edge (s : gset ID * bool) (e : Edge) : gset ID * bool :=
  let '(visible, changed) := s in
  if negb (evidence_edge e) then s
  else if bool_decide (fromNode e ∈ visible) || bool_decide (toNode e ∈ visible) then
    ({[fromNode e]} ∪ ({[toNode e]} ∪ visible),
     changed || negb (bool_decide (fromNode e ∈ visible)) || negb (bool_decide (toNode e ∈ visible)))
  else s.

(** [for changed]; every turn but the last makes a node visible. *)
Fixpoint spread (fuel : nat) (edges : list Edge) (visible : gset ID) : option (gset ID) :=
  match fuel with
  | O => None
  | S fuel =>
      let '(visible', changed) := fold_left spread_edge edges (visible, false) in
      if changed then spread fuel edges visible' else Some visible'
  end.

Definition ids_where (f : Node -> bool) (nodes : list Node) : gset ID :=
  list_to_set (map node_id (List.filter f nodes)).

Definition visible_nodes (mode : Mode) (nodes : list Node) (edges : list Edge) : option (gset ID) :=
  if mode =? ModeProgram then Some (ids_where (fun _ => true) nodes)
  else if mode =? ModeExecution then
    Some (ids_where (fun n => negb (node_class n =? NodeClassRequirement)) nodes)
  else
    spread (S (length nodes)) edges
      (ids_where (fun n => bool_decide (node_class n ∈
         [NodeClassRequirement; NodeClassObligation; NodeClassArtifactResult])) nodes).

(** [None] is running out of fuel. *)
Definition DeriveModeVisibility (r : Revision) (mode : Mode) : option (result error ModeSlice) :=
  match Revision_Validate r with
  | Some err => Some (Err err)
  | None =>
      if negb (Mode_IsValid mode) then Some (Err (projectionError "mode" "is not supported"))
      else
        visible ← visible_nodes mode (revision_nodes r) (revision_edges r);
        Some (Ok {| slice_Mode := mode;
          slice_Nodes := sort_by node_id
            (List.filter (fun n => bool_decide (node_id n ∈ visible)) (revision_nodes r));
          slice_Edges := sort_by edge_id
            (List.filter (fun e => bool_decide (fromNode e ∈ visible) && bool_decide (toNode e ∈ visible))
               (revision_edges r)) |})
  end.
