(* ===== verification/GraphFacts.v ===== *)
(** * Lemmas on the task graph

    Validation as propositions; the invariant of a projection; facts as
    sequences of puts; sorting and comparing. *)

From S2P Require Import Prelude GoText GoErrors GoPath PolicyValues SessionEvents GraphModel GraphProjector.
Open Scope string_scope.
Open Scope list_scope.
Open Scope go_scope.

(** ** Validation *)

Lemma guard_Ok {E A} (c : option E) (k : result E A) a : (c ;! k) = Ok a <-> c = None /\ k = Ok a.
Proof. destruct c; cbn; naive_solver. Qed.

Lemma NewSourceLinks_Ok e s l :
  NewSourceLinks e s = Ok l -> l = {| eventIDs := e; planSteps := s |} /\ SourceLinks_Validate l = None.
Proof.
  intros H. assert (l = {| eventIDs := e; planSteps := s |}) as ->.
  { unfold NewSourceLinks in H. do 2 (destruct (exceeds _ _); [done|]).
    rewrite !guard_Ok in H. destruct H as (_ & _ & [= <-]). done. }
  split; [done|]. unfold SourceLinks_Validate. cbn [eventIDs planSteps]. by rewrite H.
Qed.

Lemma NewNode_Ok id class status name c sources n :
  NewNode id class status name c sources = Ok n ->
  n = {| node_id := id; node_class := class; node_status := status; displayName := name;
         contract := c; node_sources := sources |} /\ Node_Validate n = None.
Proof.
  intros H.
  assert (n = {| node_id := id; node_class := class; node_status := status; displayName := name;
    contract := c; node_sources := sources |}) as ->.
  { unfold NewNode in H. do 3 (destruct (_ : bool); [done|]). rewrite !guard_Ok in H.
    destruct H as (_ & _ & _ & [= <-]). done. }
  split; [done|]. unfold Node_Validate. cbn [node_id node_class node_status displayName contract node_sources].
  by rewrite H.
Qed.

Lemma NewEdge_Ok id class from to sources e :
  NewEdge id class from to sources = Ok e ->
  e = {| edge_id := id; edge_class := class; fromNode := from; toNode := to; edge_sources := sources |} /\
  Edge_Validate e = None.
Proof.
  intros H.
  assert (e = {| edge_id := id; edge_class := class; fromNode := from; toNode := to;
    edge_sources := sources |}) as ->.
  { unfold NewEdge in H. do 3 (destruct (_ : bool); [done|]). rewrite !guard_Ok in H.
    destruct H as (_ & [= <-]). done. }
  split; [done|]. unfold Edge_Validate. cbn [edge_id edge_class fromNode toNode edge_sources].
  by rewrite H.
Qed.

Lemma revision_nodes_Ok seen nodes seen' :
  check_nodes seen nodes = Ok seen' <->
  Forall (fun n => Node_Validate n = None) nodes /\ NoDup (map node_id nodes) /\
  (forall n, n ∈ nodes -> node_id n ∉ seen) /\ seen' = rev (map node_id nodes) ++ seen.
Proof.
  revert seen. induction nodes as [|n nodes IH]; intros seen; cbn [check_nodes map rev].
  { split.
    - intros [= ->]. split_and!; [done|constructor| |done]. by intros n []%elem_of_nil.
    - by intros (_ & _ & _ & ->). }
  rewrite guard_Ok. case_bool_decide as Hin.
  - split; [by intros [_ ?]|]. intros (_ & _ & Hs & _). exfalso. apply (Hs n); [left|done].
  - rewrite IH, Forall_cons, NoDup_cons. cbn [app]. rewrite <- app_assoc. cbn [app].
    split.
    + intros (Hv & Hf & Hd & Hs & ->). split_and!; try done.
      * intros (m & Heq & Hm)%list_elem_of_fmap. apply (Hs m Hm). rewrite <- Heq. left.
      * intros m [->|Hm]%elem_of_cons; [done|]. intros Hx. apply (Hs m Hm). by right.
    + intros ((Hv & Hf) & (Hn & Hd) & Hs & ->). split_and!; try done.
      intros m Hm [Heq|Hx]%elem_of_cons.
      * apply Hn. rewrite <- Heq. by apply list_elem_of_fmap_2.
      * apply (Hs m); [by right|done].
Qed.

Lemma revision_edges_None nodes seen edges :
  check_edges nodes seen edges = None <->
  Forall (fun e => Edge_Validate e = None) edges /\ NoDup (map edge_id edges) /\
  (forall e, e ∈ edges -> (edge_id e ∉ seen) /\ fromNode e ∈ nodes /\ toNode e ∈ nodes).
Proof.
  revert seen. induction edges as [|e edges IH]; intros seen; cbn [check_edges map].
  { split; [|done]. intros _. split_and!; [done|constructor|]. by intros n []%elem_of_nil. }
  rewrite Forall_cons, NoDup_cons. destruct (Edge_Validate e) eqn:Hv.
  { split; [done|]. by intros ([? _] & _). }
  case_bool_decide as Hin.
  { split; [done|]. intros (_ & _ & Hs). exfalso. by apply (Hs e); [left|]. }
  case_bool_decide as Hf; cbn [negb].
  2: { split; [done|]. intros (_ & _ & Hs). exfalso. apply Hf, (Hs e); left. }
  case_bool_decide as Ht; cbn [negb].
  2: { split; [done|]. intros (_ & _ & Hs). exfalso. apply Ht, (Hs e); left. }
  rewrite IH. split.
  - intros (Hvs & Hd & Hs). split_and!; try done.
    + intros (m & Heq & Hm)%list_elem_of_fmap. apply (Hs m Hm). rewrite <- Heq. left.
    + intros m [->|Hm]%elem_of_cons; [done|]. destruct (Hs m Hm) as (Hx & ? & ?). split; [|done].
      intros Hy. apply Hx. by right.
  - intros ((_ & Hvs) & (Hn & Hd) & Hs). split_and!; try done.
    intros m Hm. destruct (Hs m) as (Hx & ? & ?); [by right|]. split; [|done].
    intros [Heq|Hy]%elem_of_cons; [|done]. apply Hn. rewrite <- Heq. by apply list_elem_of_fmap_2.
Qed.

(** A list of nodes and edges that makes a graph. *)
Definition good_graph (nodes : list Node) (edges : list Edge) : Prop :=
  Forall (fun n => Node_Validate n = None) nodes /\ NoDup (map node_id nodes) /\
  Forall (fun e => Edge_Validate e = None) edges /\ NoDup (map edge_id edges) /\
  forall e, e ∈ edges -> fromNode e ∈ map node_id nodes /\ toNode e ∈ map node_id nodes.

Lemma NewRevision_Ok m nodes edges r :
  NewRevision m nodes edges = Ok r <->
  RevisionMetadata_Validate m = None /\ good_graph nodes edges /\
  r = {| metadata := m; revision_nodes := nodes; revision_edges := edges |}.
Proof.
  unfold NewRevision, good_graph. rewrite guard_Ok. split.
  - intros (Hm & (seen & (Hv & Hd & _ & ->)%revision_nodes_Ok & H)%bind_Ok).
    apply guard_Ok in H as [(Hev & Hed & He)%revision_edges_None [= <-]].
    split; [done|]. split; [|done]. split_and!; try done. intros e Hin.
    destruct (He e Hin) as (_ & H1 & H2).
    by rewrite app_nil_r, !list_elem_of_In, <- !in_rev, <- !list_elem_of_In in H1, H2.
  - intros (Hm & (Hv & Hd & Hev & Hed & He) & ->). split; [done|].
    rewrite (proj2 (revision_nodes_Ok [] nodes (rev (map node_id nodes) ++ []))); [|split_and!; try done; by intros n _ []%elem_of_nil].
    cbn [mbind result_bind]. rewrite (proj2 (revision_edges_None _ _ _)); [done|].
    split_and!; try done. intros e Hin. split; [by intros []%elem_of_nil|].
    rewrite app_nil_r, !list_elem_of_In, <- !in_rev, <- !list_elem_of_In. by apply He.
Qed.

Lemma Revision_Validate_None r :
  Revision_Validate r = None <->
  RevisionMetadata_Validate (metadata r) = None /\ good_graph (revision_nodes r) (revision_edges r).
Proof.
  unfold Revision_Validate. split.
  - destruct (NewRevision _ _ _) as [e|r'] eqn:H; [done|]. intros _.
    apply NewRevision_Ok in H as (? & ? & _). done.
  - intros [Hm Hg]. rewrite (proj2 (NewRevision_Ok _ _ _ {| metadata := metadata r; revision_nodes := revision_nodes r;
      revision_edges := revision_edges r |})); [done|].
    split_and!; done.
Qed.

(** ** Maps of lists *)

Section Keyed.
Context {A : Type} (key : A -> ID).

Definition keyed (l : list A) : gmap ID A := fold_left (fun m a => <[key a := a]> m) l ∅.

Lemma keyed_lookup_from l (m : gmap ID A) k a :
  NoDup (map key l) ->
  fold_left (fun m a => <[key a := a]> m) l m !! k = Some a <->
  a ∈ l /\ key a = k \/ (forall b, b ∈ l -> key b <> k) /\ m !! k = Some a.
Proof.
  revert m. induction l as [|b l IH]; intros m; cbn [fold_left map].
  { intros _. split; [intros H; right; split; [by intros b []%elem_of_nil|done]|].
    intros [[[]%elem_of_nil _]|[_ H]]; done. }
  intros [Hb Hd]%NoDup_cons. rewrite IH by done. setoid_rewrite elem_of_cons.
  destruct (decide (key b = k)) as [<-|Hn].
  - rewrite lookup_insert_eq. split.
    + intros [[Ha Hk]|[Hl [= ->]]]; [by left; auto|by left; auto].
    + intros [[[->|Ha] Hk]|[Hl _]]; [right|left; auto|by destruct (Hl b); auto].
      split; [|done]. intros c Hc Heq. apply Hb. rewrite <- Heq. by apply list_elem_of_fmap_2.
  - rewrite lookup_insert_ne by done. split.
    + intros [[Ha Hk]|[Hl Hm]]; [by left; auto|right]. split; [|done]. intros c [->|Hc]; auto.
    + intros [[[->|Ha] Hk]|[Hl Hm]]; [done|left; auto|right]. split; [|done]. intros c Hc. auto.
Qed.

Lemma keyed_lookup l k a : NoDup (map key l) -> keyed l !! k = Some a <-> a ∈ l /\ key a = k.
Proof.
  intros Hd. unfold keyed. rewrite keyed_lookup_from by done. rewrite lookup_empty. naive_solver.
Qed.

(** *** Sorting by key *)

#[local] Instance key_le_total : Total (fun a b : A => String.le (key a) (key b)).
Proof. intros a b. apply (total String.le). Qed.

Lemma sort_by_perm l : sort_by key l ≡ₚ l.
Proof. apply merge_sort_Permutation. Qed.

Lemma elem_of_sort_by a l : a ∈ sort_by key l <-> a ∈ l.
Proof. by rewrite sort_by_perm. Qed.

Lemma sort_by_sorted l : Sorted (fun a b => String.le (key a) (key b)) (sort_by key l).
Proof. apply Sorted_merge_sort. apply _. Qed.

(** The entries of a map whose keys are the values' own. *)
Definition own_keys (m : gmap ID A) : Prop := forall k a, m !! k = Some a -> key a = k.

Lemma own_keys_fmap m : own_keys m -> map key (map_to_list m).*2 = (map_to_list m).*1.
Proof.
  intros Hm. change (map key (map_to_list m).*2) with (key <$> (map_to_list m).*2).
  rewrite <- list_fmap_compose. apply list_fmap_ext.
  intros i [k a] Hi%list_elem_of_lookup_2. apply elem_of_map_to_list in Hi. cbn. by apply Hm.
Qed.

Lemma sorted_NoDup m : own_keys m -> NoDup (map key (sort_by key (map_to_list m).*2)).
Proof.
  intros Hm. assert (map key (sort_by key (map_to_list m).*2) ≡ₚ map key (map_to_list m).*2) as ->.
  { apply fmap_Permutation, sort_by_perm. }
  rewrite own_keys_fmap by done. apply NoDup_fst_map_to_list.
Qed.

Lemma elem_of_sorted m a : own_keys m -> a ∈ sort_by key (map_to_list m).*2 <-> m !! key a = Some a.
Proof.
  intros Hm. rewrite elem_of_sort_by, list_elem_of_fmap. split.
  - intros ([k a'] & -> & Hk%elem_of_map_to_list). cbn. by rewrite (Hm _ _ Hk).
  - intros Ha. exists (key a, a). split; [done|]. by apply elem_of_map_to_list.
Qed.

Lemma keyed_sorted m : own_keys m -> keyed (sort_by key (map_to_list m).*2) = m.
Proof.
  intros Hm. apply map_eq. intros k. apply option_eq. intros a.
  rewrite keyed_lookup by by apply sorted_NoDup. rewrite elem_of_sorted by done. split.
  - by intros [Ha <-].
  - intros Ha. by rewrite (Hm _ _ Ha).
Qed.

Lemma keyed_own_keys l : NoDup (map key l) -> own_keys (keyed l).
Proof. intros Hd k a. rewrite keyed_lookup by done. by intros [_ ?]. Qed.
End Keyed.

Lemma node_map_keyed l : node_map l = keyed node_id l.
Proof. done. Qed.

Lemma edge_map_keyed l : edge_map l = keyed edge_id l.
Proof. done. Qed.

(** ** Putting nodes and edges *)

Lemma append_new_prefix {A} `{EqDecision A} (left right : list A) : left `prefix_of` append_new left right.
Proof.
  unfold append_new. revert left. induction right as [|a right IH]; intros left; cbn [fold_left]; [done|].
  case_bool_decide; [apply IH|]. transitivity (left ++ [a]); [by apply prefix_app_r|apply IH].
Qed.

(** The links of something that was seen again. *)
Definition links_grow (old new : SourceLinks) : Prop :=
  eventIDs old `prefix_of` eventIDs new /\ planSteps old `prefix_of` planSteps new.

Lemma mergeSources_grow left right merged : mergeSources left right = Ok merged -> links_grow left merged.
Proof. intros [-> _]%NewSourceLinks_Ok. split; apply append_new_prefix. Qed.

(** The same node, or edge, later on: what it means is what it meant. *)
Definition same_node (old new : Node) : Prop :=
  node_class new = node_class old /\ displayName new = displayName old /\
  contract new = contract old /\ links_grow (node_sources old) (node_sources new).

Definition same_edge (old new : Edge) : Prop :=
  edge_class new = edge_class old /\ fromNode new = fromNode old /\ toNode new = toNode old /\
  links_grow (edge_sources old) (edge_sources new).

#[global] Instance links_grow_preorder : PreOrder links_grow.
Proof. split; [by intros l|]. intros a b c [? ?] [? ?]. split; by etrans. Qed.

#[global] Instance same_node_preorder : PreOrder same_node.
Proof. split; [by intros n|]. intros a b c (? & ? & ? & ?) (? & ? & ? & ?). split_and!; by etrans. Qed.

#[global] Instance same_edge_preorder : PreOrder same_edge.
Proof. split; [by intros n|]. intros a b c (? & ? & ? & ?) (? & ? & ? & ?). split_and!; by etrans. Qed.

Lemma equalContract_eq left right : equalContract left right = true <-> left = right.
Proof.
  unfold equalContract. to_prop. destruct left, right; cbn. split; [naive_solver|]. by intros [= -> -> -> ->].
Qed.

Lemma equalSources_eq left right : equalSources left right = true <-> left = right.
Proof. unfold equalSources. to_prop. destruct left, right; cbn. naive_solver. Qed.

Lemma equalNode_eq left right : equalNode left right = true <-> left = right.
Proof.
  unfold equalNode. rewrite !andb_true_iff, equalContract_eq, equalSources_eq, !String.eqb_eq.
  destruct left, right; cbn. naive_solver.
Qed.

Lemma equalEdge_eq left right : equalEdge left right = true <-> left = right.
Proof.
  unfold equalEdge. rewrite !andb_true_iff, equalSources_eq, !String.eqb_eq.
  destruct left, right; cbn. naive_solver.
Qed.

Lemma equal_slices_refl {A} (equal : A -> A -> bool) l :
  (forall a, equal a a = true) -> equal_slices equal l l = true.
Proof. intros H. induction l as [|a l IH]; [done|]. cbn. by rewrite H, IH. Qed.

Lemma putNode_Ok p id class status name c sources p' :
  putNode p id class status name c sources = Ok p' ->
  exists n, p' = set_nodes p (<[id := n]> (projection_nodes p)) /\ node_id n = id /\
    Node_Validate n = None /\ node_status n = status /\
    forall old, projection_nodes p !! id = Some old -> same_node old n.
Proof.
  unfold putNode. destruct (projection_nodes p !! id) as [existing|].
  - destruct (_ || _) eqn:Hs; [done|]. rewrite !orb_false_iff, !negb_false_iff, equalContract_eq in Hs.
    to_prop. destruct Hs as [[<- <-] <-].
    intros (merged & Hm & (n & [-> Hv]%NewNode_Ok & [= <-])%bind_Ok)%bind_Ok.
    eexists. split_and!; [done|done|done|done|]. intros old [= <-]. split_and!; try done.
    by eapply mergeSources_grow.
  - intros (n & [-> Hv]%NewNode_Ok & [= <-])%bind_Ok. eexists. by split_and!.
Qed.

Lemma projected_spec p id : projected p id = true <-> is_Some (projection_nodes p !! id).
Proof. apply bool_decide_eq_true. Qed.

Lemma putEdge_Ok p id class from to sources p' :
  putEdge p id class from to sources = Ok p' ->
  exists e, p' = set_edges p (<[id := e]> (projection_edges p)) /\ edge_id e = id /\
    Edge_Validate e = None /\
    is_Some (projection_nodes p !! fromNode e) /\ is_Some (projection_nodes p !! toNode e) /\
    forall old, projection_edges p !! id = Some old -> same_edge old e.
Proof.
  unfold putEdge. destruct (projected p from) eqn:Hf; [|done]. destruct (projected p to) eqn:Ht; [|done].
  apply projected_spec in Hf, Ht. cbn [negb]. destruct (projection_edges p !! id) as [existing|].
  - destruct (_ || _) eqn:Hs; [done|]. rewrite !orb_false_iff, !negb_false_iff in Hs.
    to_prop. destruct Hs as [[<- <-] <-].
    intros (merged & Hm & (e & [-> Hv]%NewEdge_Ok & [= <-])%bind_Ok)%bind_Ok.
    eexists. split_and!; try done. intros old [= <-]. split_and!; try done. by eapply mergeSources_grow.
  - intros (e & [-> Hv]%NewEdge_Ok & [= <-])%bind_Ok. eexists. by split_and!.
Qed.

(** A sequence of puts, with the identities it touches. *)
Inductive puts : list ID -> list ID -> GraphProjection -> GraphProjection -> Prop :=
| puts_nil p : puts [] [] p p
| puts_node p1 p2 p3 id class status name c sources ns es :
    putNode p1 id class status name c sources = Ok p2 -> puts ns es p2 p3 ->
    puts (id :: ns) es p1 p3
| puts_edge p1 p2 p3 id class from to sources ns es :
    putEdge p1 id class from to sources = Ok p2 -> puts ns es p2 p3 ->
    puts ns (id :: es) p1 p3.

Lemma put_reached_puts p id class status name edge relation from sources p' :
  put_reached p id class status name edge relation from sources = Ok p' -> puts [id] [edge] p p'.
Proof.
  intros (p1 & H1 & H2)%bind_Ok. eapply puts_node; [done|]. eapply puts_edge; [done|constructor].
Qed.

Lemma apply_steps_puts p fact sources steps p' :
  apply_steps p fact sources steps = Ok p' ->
  puts (map step_NodeID steps) (map step_ControlEdge steps) p p'.
Proof.
  revert p. induction steps as [|step steps IH]; intros p; cbn [apply_steps map].
  { intros [= ->]. constructor. }
  intros (s & _ & (p1 & H1 & (p2 & H2 & H)%bind_Ok)%bind_Ok)%bind_Ok.
  eapply puts_node; [done|]. eapply puts_edge; [done|]. by apply IH.
Qed.

(** The largest number of nodes, or edges, that one fact touches. *)
Definition most_touched : nat := 65.

Lemma applyProjectionFact_puts p event sources p' :
  applyProjectionFact p event sources = Ok p' -> validateProjectionPayload p event = None ->
  exists ns es, puts ns es p p' /\ (length ns <= most_touched)%nat /\ (length es <= most_touched)%nat.
Proof.
  unfold applyProjectionFact, validateProjectionPayload, with_fact, check_fact, most_touched.
  destruct (_ =? _).
  { destruct (event_Requirement event) as [fact|]; [|done]. intros H _.
    eexists [_], []. split; [eapply puts_node; [exact H|constructor]|cbn; lia]. }
  destruct (_ =? _).
  { destruct (event_Plan event) as [fact|]; [|done].
    intros (p1 & H1 & (p2 & H2 & H%apply_steps_puts)%bind_Ok)%bind_Ok.
    destruct (_ || _) eqn:Hc; [done|]. rewrite !orb_false_iff in Hc. destruct Hc as [_ Hn].
    unfold exceeds, MaximumProjectedPlanSteps in Hn. apply Z.ltb_ge in Hn. intros _.
    eexists (_ :: _), (_ :: _). split; [eapply puts_node; [exact H1|eapply puts_edge; [exact H2|exact H]]|].
    cbn [length]. rewrite !length_map. lia. }
  destruct (_ =? _).
  { destruct (event_Operation event) as [fact|]; [|done].
    intros (s & _ & H%put_reached_puts)%bind_Ok _. eexists _, _. split; [exact H|cbn; lia]. }
  destruct (_ =? _).
  { destruct (event_Effect event) as [fact|]; [|done].
    intros (s & _ & H%put_reached_puts)%bind_Ok _. eexists _, _. split; [exact H|cbn; lia]. }
  destruct (_ =? _).
  { destruct (event_Approval event) as [fact|]; [|done].
    intros (s & _ & H%put_reached_puts)%bind_Ok _. eexists _, _. split; [exact H|cbn; lia]. }
  destruct (_ =? _).
  { destruct (event_Validation event) as [fact|]; [|done].
    intros (s & _ & (p1 & H1 & (p2 & H2 & H)%bind_Ok)%bind_Ok)%bind_Ok _. destruct (IsZero _).
    - injection H as <-. eexists [_], [_].
      split; [eapply puts_node; [exact H1|eapply puts_edge; [exact H2|constructor]]|cbn; lia].
    - apply bind_Ok in H as (p3 & H3 & H4). eexists [_; _], [_; _].
      split; [|cbn; lia]. eapply puts_node; [exact H1|]. eapply puts_edge; [exact H2|].
      eapply puts_node; [exact H3|]. eapply puts_edge; [exact H4|constructor]. }
  destruct (_ =? _).
  { destruct (event_Artifact event) as [fact|]; [|done].
    intros (s & _ & H%put_reached_puts)%bind_Ok _. eexists _, _. split; [exact H|cbn; lia]. }
  destruct (_ =? _).
  { destruct (event_Retry event) as [fact|]; [|done]. intros H _.
    eexists [], [_]. split; [eapply puts_edge; [exact H|constructor]|cbn; lia]. }
  destruct (_ =? _); [|done].
  destruct (event_Recovery event) as [fact|]; [|done].
  destruct (default _ _) as [relation status]. intros H%put_reached_puts _.
  eexists _, _. split; [exact H|cbn; lia].
Qed.

(** ** The invariant of a projection *)

Record sound (p : GraphProjection) : Prop := {
  sound_node_keys : own_keys node_id (projection_nodes p);
  sound_nodes : forall id n, projection_nodes p !! id = Some n -> Node_Validate n = None;
  sound_edge_keys : own_keys edge_id (projection_edges p);
  sound_edges : forall id e, projection_edges p !! id = Some e -> Edge_Validate e = None;
  sound_ends : forall id e, projection_edges p !! id = Some e ->
    is_Some (projection_nodes p !! fromNode e) /\ is_Some (projection_nodes p !! toNode e);
}.

(** What was there is still there, and means the same. *)
Definition grows (p p' : GraphProjection) : Prop :=
  (forall id old, projection_nodes p !! id = Some old ->
     exists new, projection_nodes p' !! id = Some new /\ same_node old new) /\
  (forall id old, projection_edges p !! id = Some old ->
     exists new, projection_edges p' !! id = Some new /\ same_edge old new).

#[global] Instance grows_preorder : PreOrder grows.
Proof.
  split.
  - intros p. split; intros id old H; exists old; by split.
  - intros a b c [Hn1 He1] [Hn2 He2]. split; intros id old H.
    + destruct (Hn1 _ _ H) as (n & H1 & S1), (Hn2 _ _ H1) as (n' & H2 & S2). exists n'. split; [done|by etrans].
    + destruct (He1 _ _ H) as (n & H1 & S1), (He2 _ _ H1) as (n' & H2 & S2). exists n'. split; [done|by etrans].
Qed.

(** What a sequence of puts leaves alone. *)
Definition same_frame (p p' : GraphProjection) : Prop :=
  projection_graph p' = projection_graph p /\ projection_revision p' = projection_revision p /\
  lastSequence p' = lastSequence p /\ pendingChange p' = pendingChange p.

Lemma putNode_sound p id class status name c sources p' :
  putNode p id class status name c sources = Ok p' -> sound p ->
  sound p' /\ grows p p' /\ same_frame p p' /\ projection_edges p' = projection_edges p /\
  forall k, k <> id -> projection_nodes p' !! k = projection_nodes p !! k.
Proof.
  intros (n & -> & Hid & Hv & _ & Hsame)%putNode_Ok [Hk Hn Hke He Hends]. split_and!; try done.
  - split; cbn [projection_nodes projection_edges set_nodes]; try done.
    + intros k m. destruct (decide (id = k)) as [<-|]; [rewrite lookup_insert_eq; by intros [= <-]|].
      rewrite lookup_insert_ne by done. apply Hk.
    + intros k m. destruct (decide (id = k)) as [<-|]; [rewrite lookup_insert_eq; by intros [= <-]|].
      rewrite lookup_insert_ne by done. apply Hn.
    + intros k e He'. destruct (Hends _ _ He') as [H1 H2]. rewrite !lookup_insert_is_Some. 
      split; [destruct (decide (id = fromNode e))|destruct (decide (id = toNode e))]; auto.
  - split; cbn [projection_nodes projection_edges set_nodes]; [|intros k old H; exists old; by split].
    intros k old H. destruct (decide (id = k)) as [<-|]; [rewrite lookup_insert_eq; eauto|].
    rewrite lookup_insert_ne by done. exists old. by split.
  - intros k Hne. cbn. by rewrite lookup_insert_ne.
Qed.

Lemma putEdge_sound p id class from to sources p' :
  putEdge p id class from to sources = Ok p' -> sound p ->
  sound p' /\ grows p p' /\ same_frame p p' /\ projection_nodes p' = projection_nodes p /\
  forall k, k <> id -> projection_edges p' !! k = projection_edges p !! k.
Proof.
  intros (e & -> & Hid & Hv & Hf & Ht & Hsame)%putEdge_Ok [Hk Hn Hke He Hends]. split_and!; try done.
  - split; cbn [projection_nodes projection_edges set_edges]; try done.
    + intros k m. destruct (decide (id = k)) as [<-|]; [rewrite lookup_insert_eq; by intros [= <-]|].
      rewrite lookup_insert_ne by done. apply Hke.
    + intros k m. destruct (decide (id = k)) as [<-|]; [rewrite lookup_insert_eq; by intros [= <-]|].
      rewrite lookup_insert_ne by done. apply He.
    + intros k m. destruct (decide (id = k)) as [<-|]; [rewrite lookup_insert_eq; by intros [= <-]|].
      rewrite lookup_insert_ne by done. apply Hends.
  - split; cbn [projection_nodes projection_edges set_edges]; [intros k old H; exists old; by split|].
    intros k old H. destruct (decide (id = k)) as [<-|]; [rewrite lookup_insert_eq; eauto|].
    rewrite lookup_insert_ne by done. exists old. by split.
  - intros k Hne. cbn. by rewrite lookup_insert_ne.
Qed.

Lemma puts_sound ns es p p' :
  puts ns es p p' -> sound p ->
  sound p' /\ grows p p' /\ same_frame p p' /\
  (forall k, k ∉ ns -> projection_nodes p' !! k = projection_nodes p !! k) /\
  (forall k, k ∉ es -> projection_edges p' !! k = projection_edges p !! k).
Proof.
  intros H. induction H as [p|p1 p2 p3 id class status name c sources ns es H1 _ IH
    |p1 p2 p3 id class from to sources ns es H1 _ IH]; intros Hs.
  - done.
  - destruct (putNode_sound _ _ _ _ _ _ _ _ H1 Hs) as (S2 & G2 & F2 & E2 & N2).
    destruct (IH S2) as (S3 & G3 & F3 & N3 & E3). split_and!; [done|by etrans| | |].
    + unfold same_frame in *. intuition congruence.
    + intros k [Hk Hks]%not_elem_of_cons. by rewrite N3, N2.
    + intros k Hk. by rewrite E3, E2.
  - destruct (putEdge_sound _ _ _ _ _ _ _ H1 Hs) as (S2 & G2 & F2 & N2 & E2).
    destruct (IH S2) as (S3 & G3 & F3 & N3 & E3). split_and!; [done|by etrans| | |].
    + unfold same_frame in *. intuition congruence.
    + intros k Hk. by rewrite N3, N2.
    + intros k [Hk Hks]%not_elem_of_cons. by rewrite E3, E2.
Qed.

Lemma sound_graph p :
  sound p -> good_graph (sortedNodes (projection_nodes p)) (sortedEdges (projection_edges p)).
Proof.
  intros [Hk Hn Hke He Hends]. unfold good_graph, sortedNodes, sortedEdges. split_and!.
  - apply Forall_forall. intros n Hin%elem_of_sorted; [|done]. by eapply Hn.
  - by apply sorted_NoDup.
  - apply Forall_forall. intros e Hin%elem_of_sorted; [|done]. by eapply He.
  - by apply sorted_NoDup.
  - intros e Hin%elem_of_sorted; [|done]. destruct (Hends _ _ Hin) as [[n Hf] [m Ht]].
    split; apply list_elem_of_fmap; [exists n|exists m];
      (split; [by rewrite (Hk _ _ Hf) || by rewrite (Hk _ _ Ht)|]);
      apply elem_of_sorted; try done; [by rewrite (Hk _ _ Hf)|by rewrite (Hk _ _ Ht)].
Qed.

(** ** Comparing *)

Lemma lookup_foldr_delete {A} (m : gmap ID A) l k :
  foldr delete m l !! k = if bool_decide (k ∈ l) then None else m !! k.
Proof.
  induction l as [|a l IH]; cbn [foldr]; [done|]. destruct (decide (a = k)) as [<-|Hn].
  - rewrite lookup_delete_eq. by rewrite bool_decide_true by left.
  - rewrite lookup_delete_ne, IH by done.
    case_bool_decide as H1; case_bool_decide as H2; try done; exfalso.
    + apply H2. by right.
    + apply elem_of_cons in H2 as [->|H2]; done.
Qed.

Section Applying.
Context {A : Type} (key : A -> ID).

(** What a patch makes of the entries it was computed against. *)
Definition patched (m : gmap ID A) (add upd : list A) (rem : list ID) : gmap ID A :=
  fold_left (fun m a => <[key a := a]> m) (add ++ upd) (foldr delete m rem).

Lemma filter_map_NoDup (f : A -> bool) l : NoDup (map key l) -> NoDup (map key (List.filter f l)).
Proof.
  induction l as [|a l IH]; cbn [map List.filter]; [done|]. intros [Ha Hd]%NoDup_cons.
  destruct (f a); [|auto]. cbn [map]. apply NoDup_cons. split; [|auto].
  intros (b & Heq & Hb)%list_elem_of_fmap. apply Ha. rewrite Heq. apply list_elem_of_fmap_2.
  apply list_elem_of_In in Hb. apply filter_In in Hb as [Hb _]. by apply list_elem_of_In.
Qed.

Lemma elem_of_filter_In (f : A -> bool) l a : a ∈ List.filter f l <-> a ∈ l /\ f a = true.
Proof. by rewrite !list_elem_of_In, filter_In. Qed.

Context (previous : gmap ID A) (current : list A).

Lemma elem_of_added a : a ∈ added key previous current <-> a ∈ current /\ previous !! key a = None.
Proof.
  unfold added. rewrite elem_of_sort_by, elem_of_filter_In.
  destruct (previous !! key a); cbn; naive_solver.
Qed.

Lemma elem_of_removed k :
  k ∈ removed key previous current <-> is_Some (previous !! k) /\ (k ∉ map key current).
Proof.
  unfold removed. rewrite sort_strings_perm, list_elem_of_In, filter_In, <- list_elem_of_In.
  rewrite negb_true_iff, bool_decide_eq_false, list_elem_of_fmap. split.
  - intros [([k' a] & -> & Ha%elem_of_map_to_list) Hk]. split; [by eexists|done].
  - intros [[a Ha] Hk]. split; [|done]. exists (k, a). split; [done|]. by apply elem_of_map_to_list.
Qed.

Context (equal : A -> A -> bool) (Heq : forall a b, equal a b = true <-> a = b).

Lemma elem_of_updated a :
  a ∈ updated key equal previous current <->
  a ∈ current /\ exists b, previous !! key a = Some b /\ b <> a.
Proof.
  unfold updated. rewrite elem_of_sort_by, elem_of_filter_In.
  destruct (previous !! key a) as [b|]; [|naive_solver].
  rewrite negb_true_iff, <- not_true_iff_false, Heq. naive_solver.
Qed.

Context (Hcur : NoDup (map key current)).

Lemma sort_by_NoDup l : NoDup (map key l) -> NoDup (map key (sort_by key l)).
Proof.
  intros Hl. assert (map key (sort_by key l) ≡ₚ map key l) as ->; [|done].
  apply fmap_Permutation, sort_by_perm.
Qed.

Lemma added_updated_NoDup :
  NoDup (map key (added key previous current ++ updated key equal previous current)).
Proof.
  rewrite map_app. apply NoDup_app. split_and!; [by apply sort_by_NoDup, filter_map_NoDup| |
    by apply sort_by_NoDup, filter_map_NoDup].
  intros k (a & -> & [_ Ha]%elem_of_added)%list_elem_of_fmap
    (b & Hk & [_ (c & Hc & _)]%elem_of_updated)%list_elem_of_fmap. rewrite Hk in Ha. congruence.
Qed.

Lemma patched_current :
  patched previous (added key previous current) (updated key equal previous current)
    (removed key previous current) = keyed key current.
Proof.
  apply map_eq. intros k. apply option_eq. intros a. unfold patched.
  rewrite keyed_lookup_from by apply added_updated_NoDup. rewrite keyed_lookup by done.
  setoid_rewrite elem_of_app. setoid_rewrite elem_of_added. setoid_rewrite elem_of_updated.
  rewrite lookup_foldr_delete. split.
  - intros [[[[Ha _]|[Ha _]] Hk]|[Hn Hl]]; [done|done|].
    case_bool_decide as Hr; [done|]. rewrite elem_of_removed in Hr.
    destruct (decide (k ∈ map key current)) as [Hin|Hout]; [|naive_solver].
    apply list_elem_of_fmap in Hin as (b & -> & Hb). destruct (equal a b) eqn:Hab.
    + apply Heq in Hab as ->. done.
    + exfalso. apply (Hn b); [|done]. right. split; [done|]. exists a. split; [done|].
      intros ->. assert (equal b b = true) by by apply Heq. congruence.
  - intros [Ha <-]. destruct (previous !! key a) as [b|] eqn:Hp.
    2: { left. auto. }
    destruct (equal b a) eqn:He.
    + apply Heq in He as ->. right. split.
      * intros c [[Hc Hcn]|[Hc (d & Hd & Hne)]] Hk.
        -- rewrite Hk, Hp in Hcn. done.
        -- assert (c = a) as ->; [|congruence].
           assert (keyed key current !! key a = Some c) as H1 by by apply keyed_lookup.
           assert (keyed key current !! key a = Some a) as H2 by by apply keyed_lookup. congruence.
      * rewrite bool_decide_false; [done|]. rewrite elem_of_removed. intros [_ Hk].
        apply Hk. by apply list_elem_of_fmap_2.
    + left. split; [|done]. right. split; [done|]. exists b. split; [done|].
      intros ->. assert (equal a a = true) by by apply Heq. congruence.
Qed.
End Applying.
