(* ===== verification/GraphTheorems.v ===== *)
(** * What the task graph promises

    A fact that is projected is committed and described by a bounded patch; a
    graph only grows and keeps its meaning; a patch rebuilds the revision it
    was computed for; the evidence mode shows what evidence connects; and a
    node that was reported too often is refused. *)

From S2P Require Import Prelude GoText GoErrors GoPath PolicyValues SessionEvents GraphModel GraphProjector.
From S2P Require Import GraphFacts.
Open Scope string_scope.
Open Scope list_scope.
Open Scope go_scope.

(** ** Committed projections *)

(** The projection as the last revision left it. *)
Record settled (p : GraphProjection) : Prop := {
  settled_sound : sound p;
  settled_graph : Graph_Validate (projection_graph p) = None;
  settled_pending : pendingChange p = 0%Z;
  settled_revision :
    match projection_revision p with
    | None => projection_nodes p = ∅ /\ projection_edges p = ∅
    | Some r =>
        Revision_Validate r = None /\ revision_graphID (metadata r) = graph_id (projection_graph p) /\
        (0 <= ordinal (metadata r))%Z /\
        projection_nodes p = node_map (revision_nodes r) /\
        projection_edges p = edge_map (revision_edges r)
    end;
}.

Lemma good_graph_sound g r s nodes edges pending :
  good_graph nodes edges ->
  sound {| projection_graph := g; projection_revision := r; lastSequence := s;
           projection_nodes := node_map nodes; projection_edges := edge_map edges;
           pendingChange := pending |}.
Proof.
  intros (Hv & Hd & Hev & Hed & Hends).
  split; cbn [projection_nodes projection_edges]; rewrite ?node_map_keyed, ?edge_map_keyed.
  - by apply keyed_own_keys.
  - intros id n [Hn _]%keyed_lookup; [|done]. rewrite Forall_forall in Hv. auto.
  - by apply keyed_own_keys.
  - intros id e [He _]%keyed_lookup; [|done]. rewrite Forall_forall in Hev. auto.
  - intros id e [He _]%keyed_lookup; [|done].
    destruct (Hends e He) as [(n & -> & Hn)%list_elem_of_fmap (m & -> & Hm)%list_elem_of_fmap].
    split; [exists n|exists m]; by apply keyed_lookup.
Qed.

Lemma NewGraphProjection_settled identity revision sequence p :
  NewGraphProjection identity revision sequence = Ok p ->
  match revision with Some r => (0 <= ordinal (metadata r))%Z | None => True end -> settled p.
Proof.
  unfold NewGraphProjection. rewrite guard_Ok. intros [Hg H] Ho. destruct revision as [r|].
  - rewrite guard_Ok in H. destruct H as [Hr H]. destruct (_ =? _) eqn:E; [|done].
    apply String.eqb_eq in E. injection H as <-. split; try done.
    apply good_graph_sound. by apply Revision_Validate_None in Hr as [_ ?].
  - injection H as <-. split; try done.
Qed.

(** ** Projecting *)

Lemma ProjectSessionEvent_Ok p event p' change :
  ProjectSessionEvent p event = Ok (p', change) ->
  validateProjectionEvent p event = None /\
  if material change then
    exists sources ns es next,
      puts ns es (set_progress p (projection_revision p) (event_Sequence event) (pendingChange p)) next /\
      (length ns <= most_touched)%nat /\ (length es <= most_touched)%nat /\
      SourceLinks_Validate sources = None /\
      p' = set_progress next (projection_revision next) (lastSequence next) (event_Sequence event) /\
      change = {| material := true; change_graphID := graph_id (projection_graph p);
                  change_sequence := event_Sequence event; change_occurredAt := event_OccurredAt event;
                  change_sources := sources; change_nodes := sortedNodes (projection_nodes next);
                  change_edges := sortedEdges (projection_edges next) |}
  else p' = set_progress p (projection_revision p) (event_Sequence event) (pendingChange p).
Proof.
  unfold ProjectSessionEvent. destruct (negb _); [done|]. rewrite guard_Ok. intros [Hv H].
  split; [done|]. destruct (_ =? _) eqn:E; [by injection H as <- <-|].
  apply bind_Ok in H as (sources & [_ Hs]%NewSourceLinks_Ok & (next & Ha & [= <- <-])%bind_Ok).
  cbn [material].
  destruct (applyProjectionFact_puts _ _ _ _ Ha) as (ns & es & Hp & Hn & He).
  { unfold validateProjectionEvent in Hv.
    repeat match type of Hv with (if ?b then _ else _) = None => destruct b; [done|] end. exact Hv. }
  exists sources, ns, es, next. by split_and!.
Qed.

Lemma sound_progress p r s pending : sound p -> sound (set_progress p r s pending).
Proof. by intros []. Qed.

Lemma validated_event p event :
  validateProjectionEvent p event = None ->
  event_Sequence event = wrap_uint64 (lastSequence p + 1) /\ validUTCTime (event_OccurredAt event) = true.
Proof.
  unfold validateProjectionEvent, validUTCTime. intros Hv.
  repeat match type of Hv with (if ?b then _ else _) = None => let E := fresh "E" in destruct b eqn:E; [done|] end.
  to_prop. destruct E3 as [-> ->]. done.
Qed.

Lemma wrap_succ z : (0 <= z < max_uint64)%Z -> wrap_uint64 (z + 1) = (z + 1)%Z.
Proof. intros H. apply wrap_uint64_id. unfold uint64_range, max_uint64 in *. lia. Qed.

(** *** Committing *)

Lemma NewRevisionMetadata_succeeds id graphID ord parent createdAt sources :
  id <> "" -> graphID <> "" -> (0 < ord)%Z -> (ord = 1%Z <-> parent = None) ->
  (forall p, parent = Some p -> p <> "" /\ p <> id) ->
  validUTCTime createdAt = true -> SourceLinks_Validate sources = None ->
  exists m,
    NewRevisionMetadata id graphID ord parent CurrentSchemaVersion createdAt sources = Ok m /\
    RevisionMetadata_Validate m = None /\ revision_id m = id /\ revision_graphID m = graphID /\
    ordinal m = ord /\ parentID m = parent.
Proof.
  intros Hid Hg Ho Hp Hpar Ht Hs.
  assert (NewRevisionMetadata id graphID ord parent CurrentSchemaVersion createdAt sources =
    Ok {| revision_id := id; revision_graphID := graphID; ordinal := ord; parentID := parent;
          schemaVersion := CurrentSchemaVersion; metadataPolicy := MetadataPolicyTypedFieldsOnly;
          revision_createdAt := createdAt; revision_sources := sources |}) as H.
  { unfold NewRevisionMetadata, IsZero.
    rewrite (proj2 (String.eqb_neq id "") Hid), (proj2 (String.eqb_neq graphID "") Hg).
    rewrite (proj2 (Z.eqb_neq ord 0)) by lia. destruct parent as [par|].
    - destruct (Hpar par eq_refl) as [H1 H2].
      rewrite (proj2 (Z.eqb_neq ord 1)) by naive_solver.
      rewrite (bool_decide_false (Some par = None)) by done. rewrite andb_false_r. cbn [andb orb].
      rewrite (proj2 (String.eqb_neq par "") H1), (proj2 (String.eqb_neq par id) H2). cbn [orb].
      rewrite Ht. cbn. by rewrite Hs.
    - rewrite (proj2 Hp eq_refl). cbn [Z.eqb Pos.eqb andb].
      rewrite (bool_decide_false (is_Some None)) by (by intros [? ?]). cbn [orb Z.ltb Z.compare Pos.compare Pos.compare_cont andb].
      rewrite Ht. cbn. by rewrite Hs. }
  eexists. split; [exact H|]. split_and!; try done.
  unfold RevisionMetadata_Validate. cbn. by rewrite H.
Qed.

Lemma Graph_Validate_id g : Graph_Validate g = None -> graph_id g <> "".
Proof.
  unfold Graph_Validate, NewGraph, IsZero. destruct (graph_id g =? "") eqn:E; [done|]. by to_prop.
Qed.

Lemma Revision_metadata_id r : Revision_Validate r = None ->
  revision_id (metadata r) <> "" /\ ordinal (metadata r) <> 0%Z.
Proof.
  intros [Hm _]%Revision_Validate_None. unfold RevisionMetadata_Validate, NewRevisionMetadata, IsZero in Hm.
  destruct (revision_id (metadata r) =? "") eqn:E; [done|]. destruct (revision_graphID _ =? ""); [done|].
  destruct (ordinal _ =? 0)%Z eqn:E2; [done|]. by to_prop.
Qed.

(** The counters have room for one more. *)
Definition has_room (p : GraphProjection) (revisionID : ID) : Prop :=
  (0 <= lastSequence p < max_uint64)%Z /\
  forall r, projection_revision p = Some r ->
    (ordinal (metadata r) < max_uint64)%Z /\ revision_id (metadata r) <> revisionID.

Lemma commit_computes next g sequence occurredAt sources revisionID ord parent m r :
  graph_id (projection_graph next) = g -> sequence <> 0%Z -> revisionID <> "" ->
  match projection_revision next with
  | Some r => (wrap_uint64 (ordinal (metadata r) + 1), Some (revision_id (metadata r)))
  | None => (1%Z, None)
  end = (ord, parent) ->
  NewRevisionMetadata revisionID g ord parent CurrentSchemaVersion occurredAt sources = Ok m ->
  NewRevision m (sortedNodes (projection_nodes next)) (sortedEdges (projection_edges next)) = Ok r ->
  CommitGraphRevision (set_progress next (projection_revision next) (lastSequence next) sequence)
    {| material := true; change_graphID := g; change_sequence := sequence;
       change_occurredAt := occurredAt; change_sources := sources;
       change_nodes := sortedNodes (projection_nodes next);
       change_edges := sortedEdges (projection_edges next) |} revisionID
  = Ok (set_progress next (Some r) (lastSequence next) 0, r).
Proof.
  intros <- Hs Hid Hop Hmeta Hnew. unfold CommitGraphRevision.
  cbn [material change_graphID change_sequence change_nodes change_edges change_occurredAt change_sources
    projection_graph projection_revision projection_nodes projection_edges pendingChange lastSequence
    set_progress negb orb].
  rewrite String.eqb_refl, Z.eqb_refl. unfold IsZero.
  rewrite (proj2 (String.eqb_neq revisionID "") Hid), (proj2 (Z.eqb_neq sequence 0) Hs).
  cbn [negb orb]. unfold equalNodeSlices, equalEdgeSlices.
  rewrite !equal_slices_refl by (intros; (apply equalNode_eq || apply equalEdge_eq); done). cbn [negb orb].
  rewrite Hop, Hmeta. cbn [mbind result_bind]. by rewrite Hnew.
Qed.

(** What a committed revision is to the projection before it. *)
Definition next_revision (p : GraphProjection) (p' : GraphProjection) (revisionID : ID) (r : Revision)
    : Prop :=
  projection_revision p' = Some r /\ revision_id (metadata r) = revisionID /\
  parentID (metadata r) = (fun r => revision_id (metadata r)) <$> projection_revision p /\
  ordinal (metadata r) =
    (match projection_revision p with Some r => ordinal (metadata r) | None => 0 end + 1)%Z /\
  projection_graph p' = projection_graph p /\ lastSequence p' = (lastSequence p + 1)%Z.

Lemma material_commits p event p' change revisionID :
  settled p -> has_room p revisionID -> revisionID <> "" ->
  ProjectSessionEvent p event = Ok (p', change) -> material change = true ->
  exists p'' r,
    CommitGraphRevision p' change revisionID = Ok (p'', r) /\ settled p'' /\
    next_revision p p'' revisionID r /\ grows p p'' /\
    exists ns es, (length ns <= most_touched)%nat /\ (length es <= most_touched)%nat /\
      (forall k, k ∉ ns -> projection_nodes p'' !! k = projection_nodes p !! k) /\
      (forall k, k ∉ es -> projection_edges p'' !! k = projection_edges p !! k).
Proof.
  intros [Hsound Hgraph Hpend Hrev] [Hseq Hroom] Hid [Hv H]%ProjectSessionEvent_Ok Hm.
  rewrite Hm in H. destruct H as (sources & ns & es & next & Hputs & Hns & Hes & Hsrc & -> & ->).
  destruct (puts_sound _ _ _ _ Hputs (sound_progress _ _ _ _ Hsound))
    as (Hsn & Hgrow & (Hfg & Hfr & Hfs & Hfp) & Hnn & Hne).
  cbn [projection_graph projection_revision lastSequence pendingChange set_progress] in Hfg, Hfr, Hfs, Hfp.
  destruct (validated_event _ _ Hv) as [Hes' Htime]. rewrite wrap_succ in Hes' by done.
  set (ord := match projection_revision p with Some r => wrap_uint64 (ordinal (metadata r) + 1) | None => 1%Z end).
  set (parent := (fun r => revision_id (metadata r)) <$> projection_revision p).
  assert (ord = (match projection_revision p with Some r => ordinal (metadata r) | None => 0 end + 1)%Z) as Hord.
  { unfold ord. destruct (projection_revision p) as [r|] eqn:Hr; [|done].
    apply wrap_succ. split; [apply Hrev|by apply Hroom]. }
  destruct (NewRevisionMetadata_succeeds revisionID (graph_id (projection_graph next)) ord parent
    (event_OccurredAt event) sources) as (m & Hmeta & Hmv & Hmid & Hmg & Hmo & Hmp); try done.
  { rewrite Hfg. by apply Graph_Validate_id. }
  { rewrite Hord. destruct (projection_revision p) as [r|]; [|lia]. destruct Hrev as (_ & _ & ? & _). lia. }
  { rewrite Hord. unfold parent. destruct (projection_revision p) as [r|]; [|done].
    destruct Hrev as (Hr & _ & ? & _). destruct (Revision_metadata_id r Hr). split; [lia|done]. }
  { unfold parent. destruct (projection_revision p) as [r|] eqn:Hr; [|done]. intros q [= <-].
    split; [by apply Revision_metadata_id, Hrev|by apply Hroom]. }
  pose proof (sound_graph next Hsn) as Hgood.
  set (r := {| metadata := m; revision_nodes := sortedNodes (projection_nodes next);
               revision_edges := sortedEdges (projection_edges next) |}).
  assert (NewRevision m (sortedNodes (projection_nodes next)) (sortedEdges (projection_edges next)) = Ok r)
    as Hnew by by apply NewRevision_Ok.
  set (p'' := set_progress next (Some r) (lastSequence next) 0).
  exists p'', r. split.
  { eapply commit_computes; [by rewrite Hfg|lia|done| |rewrite <- Hfg; exact Hmeta|exact Hnew].
    rewrite Hfr. unfold ord, parent. by destruct (projection_revision p). }
  split_and!.
  - split; cbn; [by apply sound_progress|by rewrite Hfg|done|]. split_and!.
    + apply Revision_Validate_None. split; done.
    + by rewrite Hmg.
    + rewrite Hmo, Hord. destruct (projection_revision p) as [r'|]; [|lia]. destruct Hrev as (_ & _ & ? & _). lia.
    + symmetry. apply (keyed_sorted node_id), Hsn.
    + symmetry. apply (keyed_sorted edge_id), Hsn.
  - split_and!; try done; [by cbn; rewrite Hmo, Hord|cbn; by rewrite Hfs].
  - exact Hgrow.
  - exists ns, es. split_and!; done.
Qed.

(** *** Describing the change *)

Section Size.
Context {A : Type} (key : A -> ID) (equal : A -> A -> bool) (Heq : forall a b, equal a b = true <-> a = b).
Context (m m' : gmap ID A) (l : list A) (ns : list ID).
Context (Hd : NoDup (map key l)) (Hl : m' = keyed key l)
  (Hkeep : forall k, k ∉ ns -> m' !! k = m !! k) (Hgrow : forall k, is_Some (m !! k) -> is_Some (m' !! k)).

Lemma nothing_removed : removed key m l = [].
Proof.
  apply elem_of_nil_inv. intros k [Hs Hk]%elem_of_removed. destruct (Hgrow k Hs) as [a Ha].
  rewrite Hl, keyed_lookup in Ha by done. apply Hk. destruct Ha as [Ha <-]. by apply list_elem_of_fmap_2.
Qed.

Lemma patch_size_bound :
  (patch_size (added key m l) (updated key equal m l) (removed key m l) <= Z.of_nat (length ns))%Z.
Proof.
  rewrite nothing_removed. unfold patch_size. cbn [length].
  assert (length (map key (added key m l ++ updated key equal m l)) <= length ns)%nat as Hn.
  { apply NoDup_incl_length; [apply NoDup_ListNoDup, added_updated_NoDup; done|].
    intros k Hk%list_elem_of_In. apply list_elem_of_In. destruct (decide (k ∈ ns)) as [|Hout]; [done|].
    exfalso. apply list_elem_of_fmap in Hk as (a & -> & Ha). specialize (Hkeep _ Hout).
    assert (a ∈ l) as Hal by (apply elem_of_app in Ha as [[? _]%elem_of_added|[? _]%elem_of_updated]; done).
    assert (m' !! key a = Some a) as Hm by (rewrite Hl; by apply keyed_lookup).
    rewrite Hm in Hkeep. apply elem_of_app in Ha as [[_ Ha]%elem_of_added|[_ (b & Hb & Hne)]%elem_of_updated];
      [congruence|congruence|done]. }
  rewrite length_map, length_app in Hn. lia.
Qed.
End Size.

Definition previous_nodes (p : option Revision) : gmap ID Node :=
  match p with Some r => node_map (revision_nodes r) | None => ∅ end.
Definition previous_edges (p : option Revision) : gmap ID Edge :=
  match p with Some r => edge_map (revision_edges r) | None => ∅ end.

Lemma settled_previous p : settled p ->
  projection_nodes p = previous_nodes (projection_revision p) /\
  projection_edges p = previous_edges (projection_revision p).
Proof. intros [_ _ _ H]. destruct (projection_revision p) as [r|]; cbn; tauto. Qed.

(** What a patch makes of the entries of the revision before. *)
Definition apply_patch (patch : GraphPatch) (nodes : gmap ID Node) (edges : gmap ID Edge)
    : gmap ID Node * gmap ID Edge :=
  (patched node_id nodes (AddedNodes patch) (UpdatedNodes patch) (RemovedNodeIDs patch),
   patched edge_id edges (AddedEdges patch) (UpdatedEdges patch) (RemovedEdgeIDs patch)).

Lemma BuildGraphPatch_applies previous current limits patch :
  BuildGraphPatch previous current limits = Ok patch ->
  apply_patch patch (previous_nodes previous) (previous_edges previous)
  = (node_map (revision_nodes current), edge_map (revision_edges current)).
Proof.
  unfold BuildGraphPatch. rewrite guard_Ok. intros [Hr H].
  apply Revision_Validate_None in Hr as [_ (_ & Hd & _ & Hed & _)].
  destruct (_ || _); [done|]. apply guard_Ok in H as [_ H]. destruct (_ || _); [done|].
  injection H as <-. unfold apply_patch, patch_between.
  cbn [AddedNodes UpdatedNodes RemovedNodeIDs AddedEdges UpdatedEdges RemovedEdgeIDs].
  f_equal; apply patched_current; try done; [apply equalNode_eq|apply equalEdge_eq].
Qed.

(** The entries of a revision, by identity, against those of the revision
    before: what is added was absent, what is updated was different, what is
    removed was there and is no more, everything of the kind is named, and
    nothing twice. *)
Record describes {A} (key : A -> ID) (previous : gmap ID A) (current add upd : list A) (rem : list ID)
    : Prop := {
  describes_added : forall a, a ∈ add <-> a ∈ current /\ previous !! key a = None;
  describes_updated :
    forall a, a ∈ upd <-> a ∈ current /\ exists old, previous !! key a = Some old /\ old <> a;
  describes_removed :
    forall k, k ∈ rem <-> is_Some (previous !! k) /\ forall a, a ∈ current -> key a <> k;
  describes_once : NoDup (map key (add ++ upd));
  describes_removed_once : NoDup rem;
}.

Lemma compared {A} (key : A -> ID) equal previous current :
  (forall a b, equal a b = true <-> a = b) -> NoDup (map key current) ->
  describes key previous current (added key previous current) (updated key equal previous current)
    (removed key previous current).
Proof.
  intros Heq Hd. split.
  - intros a. apply elem_of_added.
  - intros a. by apply elem_of_updated.
  - intros k. rewrite elem_of_removed, list_elem_of_fmap. split.
    + intros [Hs Hk]. split; [done|]. intros a Ha <-. apply Hk. by exists a.
    + intros [Hs Hk]. split; [done|]. intros (a & -> & Ha). by apply (Hk a).
  - by apply added_updated_NoDup.
  - unfold removed. rewrite sort_strings_perm. apply NoDup_ListNoDup, List.NoDup_filter, NoDup_ListNoDup.
    apply NoDup_fst_map_to_list.
Qed.

Lemma BuildGraphPatch_describes previous current limits patch :
  BuildGraphPatch previous current limits = Ok patch ->
  describes node_id (previous_nodes previous) (revision_nodes current)
    (AddedNodes patch) (UpdatedNodes patch) (RemovedNodeIDs patch) /\
  describes edge_id (previous_edges previous) (revision_edges current)
    (AddedEdges patch) (UpdatedEdges patch) (RemovedEdgeIDs patch) /\
  PreviousRevisionID patch = (fun r => revision_id (metadata r)) <$> previous /\
  patch_RevisionID patch = revision_id (metadata current).
Proof.
  unfold BuildGraphPatch. rewrite guard_Ok. intros [Hr H].
  apply Revision_Validate_None in Hr as [_ (_ & Hd & _ & Hed & _)].
  destruct (_ || _); [done|]. apply guard_Ok in H as [_ H]. destruct (_ || _); [done|].
  injection H as <-. split; [|split; [|done]]; apply compared; try done; [apply equalNode_eq|apply equalEdge_eq].
Qed.

Lemma next_revision_patch p p'' revisionID r ns es :
  settled p -> settled p'' -> has_room p revisionID -> next_revision p p'' revisionID r -> grows p p'' ->
  (length ns <= most_touched)%nat -> (length es <= most_touched)%nat ->
  (forall k, k ∉ ns -> projection_nodes p'' !! k = projection_nodes p !! k) ->
  (forall k, k ∉ es -> projection_edges p'' !! k = projection_edges p !! k) ->
  exists patch, BuildGraphPatch (projection_revision p) r DefaultPatchLimits = Ok patch /\
    RemovedNodeIDs patch = [] /\ RemovedEdgeIDs patch = [].
Proof.
  intros Hp [_ _ _ Hr] [_ Hroom] (Hrev & Hid & Hpar & Hord & Hg & _) [Hgn Hge] Hns Hes Hkn Hke.
  destruct (settled_previous p Hp) as [Hn He]. rewrite Hrev in Hr. destruct Hr as (Hv & Hrg & _ & Hn' & He').
  pose proof Hv as [_ (_ & Hd & _ & Hed & _)]%Revision_Validate_None.
  assert (forall k, is_Some (projection_nodes p !! k) -> is_Some (projection_nodes p'' !! k)) as HGn.
  { intros k [n Hk]. destruct (Hgn _ _ Hk) as (n' & -> & _). eauto. }
  assert (forall k, is_Some (projection_edges p !! k) -> is_Some (projection_edges p'' !! k)) as HGe.
  { intros k [e Hk]. destruct (Hge _ _ Hk) as (e' & -> & _). eauto. }
  pose proof (patch_size_bound node_id equalNode equalNode_eq _ _ _ ns Hd Hn' Hkn HGn) as Sn.
  pose proof (patch_size_bound edge_id equalEdge equalEdge_eq _ _ _ es Hed He' Hke HGe) as Se.
  pose proof (nothing_removed node_id _ _ _ Hd Hn' HGn) as Rn.
  pose proof (nothing_removed edge_id _ _ _ Hed He' HGe) as Re.
  rewrite Hn in Sn, Rn. rewrite He in Se, Re.
  unfold BuildGraphPatch. rewrite Hv. cbn [err_guard DefaultPatchLimits MaximumNodes MaximumEdges].
  assert (check_adjacent (projection_revision p) r = None) as ->.
  { destruct Hp as [_ _ _ Hp]. unfold check_adjacent. destruct (projection_revision p) as [r0|] eqn:H0; [|done].
    destruct Hp as (-> & Hg0 & Ho0 & _). rewrite Hrg, Hg, Hg0, String.eqb_refl. cbn [negb].
    rewrite bool_decide_true by by rewrite Hpar. cbn [negb orb].
    rewrite wrap_succ by (split; [done|by apply Hroom]). by rewrite Hord, Z.eqb_refl. }
  cbn [err_guard]. unfold patch_between.
  cbn [AddedNodes UpdatedNodes RemovedNodeIDs AddedEdges UpdatedEdges RemovedEdgeIDs].
  fold (previous_nodes (projection_revision p)) (previous_edges (projection_revision p)).
  unfold most_touched in *. unfold DefaultPatchNodeLimit, DefaultPatchEdgeLimit.
  rewrite (proj2 (Z.ltb_ge 256 _)), (proj2 (Z.ltb_ge 512 _)) by lia. cbn [orb].
  eexists. split; [reflexivity|]. done.
Qed.

(** ** Sequences of facts *)

(** One fact projected, and committed when it is material. *)
Definition advances (p p' : GraphProjection) : Prop :=
  exists event p1 change,
    ProjectSessionEvent p event = Ok (p1, change) /\
    if material change then
      exists revisionID r,
        has_room p revisionID /\ revisionID <> "" /\ CommitGraphRevision p1 change revisionID = Ok (p', r)
    else p' = p1.

Lemma advances_settled p p' : settled p -> advances p p' -> settled p' /\ grows p p'.
Proof.
  intros Hs (event & p1 & change & Hp & H). destruct (material change) eqn:Hm.
  - destruct H as (rid & r & Hroom & Hrid & Hc).
    destruct (material_commits _ _ _ _ _ Hs Hroom Hrid Hp Hm) as (p'' & r' & Hc' & Hs' & _ & Hg & _).
    rewrite Hc' in Hc. by injection Hc as <- <-.
  - subst p1. apply ProjectSessionEvent_Ok in Hp as [_ Hp]. rewrite Hm in Hp. subst p'.
    destruct Hs. split; [|by change (grows p p)].
    split; try done. by apply sound_progress.
Qed.

(** ** The evidence mode *)

Section Evidence.
Context (edges : list Edge).

(** Two nodes that an edge of evidence connects. *)
Definition connected (x y : ID) : Prop :=
  exists e, e ∈ edges /\ evidence_edge e = true /\
    (x = fromNode e /\ y = toNode e \/ x = toNode e /\ y = fromNode e).

Definition closed_under (l : list Edge) (V : gset ID) : Prop :=
  forall e, e ∈ l -> evidence_edge e = true -> fromNode e ∈ V \/ toNode e ∈ V ->
    fromNode e ∈ V /\ toNode e ∈ V.

Definition reached_from (V : gset ID) (x : ID) : Prop := exists s, s ∈ V /\ rtc connected s x.

Lemma reached_refl V x : x ∈ V -> reached_from V x.
Proof. intros Hx. exists x. by split. Qed.

Lemma reached_step V x y : reached_from V x -> connected x y -> reached_from V y.
Proof. intros (s & Hs & Hr) Hc. exists s. split; [done|]. by eapply rtc_r. Qed.

Lemma spread_edge_reach e V V' c c' :
  e ∈ edges -> spread_edge (V, c) e = (V', c') ->
  V ⊆ V' /\ (forall x, x ∈ V' -> reached_from V x) /\
  (c' = c \/ c' = true /\ exists x, x ∈ V' /\ x ∉ V) /\
  (c' = false -> V' = V /\ closed_under [e] V).
Proof.
  intros He. unfold spread_edge. destruct (evidence_edge e) eqn:Hev; cbn [negb].
  2: { intros [= <- <-]. split_and!; auto using reached_refl. intros _. split; [done|].
       intros e' ->%list_elem_of_singleton. congruence. }
  case_bool_decide as Hf; case_bool_decide as Ht; cbn [orb negb]; intros [= <- <-].
  - split_and!; [set_solver| |left; by rewrite !orb_false_r|].
    + intros x Hx. apply reached_refl. set_solver.
    + intros _. split; [apply leibniz_equiv; set_solver|]. intros e' ->%list_elem_of_singleton. done.
  - rewrite !orb_false_r, orb_true_r. split_and!; [set_solver| |right; split; [done|set_solver]|done].
    intros x Hx. rewrite !elem_of_union, !elem_of_singleton in Hx.
    destruct Hx as [->|[->|Hx]]; auto using reached_refl.
    eapply reached_step; [by apply reached_refl|]. exists e. auto.
  - rewrite orb_true_r, orb_false_r. split_and!; [set_solver| |right; split; [done|set_solver]|done].
    intros x Hx. rewrite !elem_of_union, !elem_of_singleton in Hx.
    destruct Hx as [->|[->|Hx]]; auto using reached_refl.
    eapply reached_step; [by apply reached_refl|]. exists e. auto.
  - split_and!; auto using reached_refl. intros _. split; [done|].
    intros e' ->%list_elem_of_singleton _ [|]; done.
Qed.

Lemma reached_trans V V' x :
  (forall y, y ∈ V' -> reached_from V y) -> reached_from V' x -> reached_from V x.
Proof.
  intros H (s & Hs & Hr). destruct (H s Hs) as (s' & Hs' & Hr'). exists s'. split; [done|]. by etrans.
Qed.

Lemma spread_pass l : l ⊆ edges -> forall V c V' c',
  fold_left spread_edge l (V, c) = (V', c') ->
  V ⊆ V' /\ (forall x, x ∈ V' -> reached_from V x) /\
  (c' = c \/ c' = true /\ exists x, x ∈ V' /\ x ∉ V) /\
  (c' = false -> V' = V /\ closed_under l V).
Proof.
  intros Hl. induction l as [|e l IH]; intros V c V' c'; cbn [fold_left].
  { intros [= <- <-]. split_and!; auto using reached_refl. intros _. split; [done|]. by intros e []%elem_of_nil. }
  destruct (spread_edge (V, c) e) as [V1 c1] eqn:H1. intros H.
  destruct (spread_edge_reach e V V1 c c1) as (S1 & R1 & C1 & D1); [set_solver|done|].
  destruct (IH ltac:(set_solver) _ _ _ _ H) as (S2 & R2 & C2 & D2). split_and!.
  - set_solver.
  - intros x Hx. eapply reached_trans; [exact R1|]. auto.
  - destruct C2 as [->|[-> (x & Hx & Hn)]]; [|right; split; [done|]; exists x; set_solver].
    destruct C1 as [->|[-> (x & Hx & Hn)]]; [by left|right; split; [done|]; exists x; set_solver].
  - intros ->. destruct (D2 eq_refl) as [-> Hc2].
    assert (c1 = false) as -> by (destruct C2 as [|[? _]]; congruence).
    destruct (D1 eq_refl) as [-> Hc1]. split; [done|].
    intros e' [->|He']%elem_of_cons Hev Hor; [apply Hc1; [by apply list_elem_of_singleton|done|done]|by apply Hc2].
Qed.

Lemma closed_reached V x : closed_under edges V -> reached_from V x -> x ∈ V.
Proof.
  intros Hc (s & Hs & Hr). induction Hr as [|x y z (e & He & Hev & Hxy) _ IH]; [done|].
  apply IH. destruct Hxy as [[-> ->]|[-> ->]]; apply (Hc e); auto.
Qed.

Lemma spread_correct fuel V V' :
  spread fuel edges V = Some V' -> forall x, x ∈ V' <-> reached_from V x.
Proof.
  revert V. induction fuel as [|fuel IH]; intros V; cbn [spread]; [done|].
  destruct (fold_left spread_edge edges (V, false)) as [V1 c1] eqn:H1.
  destruct (spread_pass edges ltac:(done) _ _ _ _ H1) as (S1 & R1 & C1 & D1). destruct c1.
  - intros H x. rewrite (IH _ H). split; [by apply reached_trans|].
    intros (s & Hs & Hr). exists s. split; [set_solver|done].
  - intros [= <-] x. destruct (D1 eq_refl) as [-> Hc]. split; [apply reached_refl|by apply closed_reached].
Qed.

Lemma spread_returns (U : gset ID) fuel V :
  (forall e, e ∈ edges -> fromNode e ∈ U /\ toNode e ∈ U) -> V ⊆ U ->
  (size U - size V < fuel)%nat -> is_Some (spread fuel edges V).
Proof.
  intros HU. revert V. induction fuel as [|fuel IH]; intros V HV Hf; [lia|]. cbn [spread].
  destruct (fold_left spread_edge edges (V, false)) as [V1 c1] eqn:H1.
  destruct (spread_pass edges ltac:(done) _ _ _ _ H1) as (S1 & R1 & C1 & _). destruct c1; [|eauto].
  assert (V1 ⊆ U) as HV1.
  { intros x (s & Hs & Hr)%R1. revert HV Hs. clear -HU Hr. intros HV Hs. apply HV in Hs.
    induction Hr as [|x y z (e & He & _ & Hxy) _ IH]; [done|]. apply IH.
    destruct (HU e He). destruct Hxy as [[-> ->]|[-> ->]]; done. }
  apply IH; [done|]. destruct C1 as [|[_ (x & Hx & Hn)]]; [done|].
  assert (size V < size V1)%nat by (apply subset_size; set_solver).
  assert (size V1 <= size U)%nat by (by apply subseteq_size). lia.
Qed.
End Evidence.

(** ** The theorems *)

(** [C16] A fact that is accepted is committed. Once a fact was projected onto
    the last revision, committing it cannot fail, as long as the counters have
    room and the revision's identity is new: the revision is valid and follows
    the one before, the projection is again as a revision leaves it, and the
    change is described by a patch within the default limits that removes
    nothing. *)
Theorem projected_fact_is_committed p event p' change revisionID :
  settled p -> has_room p revisionID -> revisionID <> "" ->
  ProjectSessionEvent p event = Ok (p', change) -> material change = true ->
  exists p'' r patch,
    CommitGraphRevision p' change revisionID = Ok (p'', r) /\ settled p'' /\
    next_revision p p'' revisionID r /\
    BuildGraphPatch (projection_revision p) r DefaultPatchLimits = Ok patch /\
    RemovedNodeIDs patch = [] /\ RemovedEdgeIDs patch = [].
Proof.
  intros Hs Hroom Hid Hp Hm.
  destruct (material_commits _ _ _ _ _ Hs Hroom Hid Hp Hm)
    as (p'' & r & Hc & Hs'' & Hnext & Hg & ns & es & Hns & Hes & Hkn & Hke).
  destruct (next_revision_patch _ _ _ _ _ _ Hs Hs'' Hroom Hnext Hg Hns Hes Hkn Hke) as (patch & Hpatch & Hr).
  exists p'', r, patch. exact (conj Hc (conj Hs'' (conj Hnext (conj Hpatch Hr)))).
Qed.

(** [C17] A graph only grows and keeps its meaning. From a projection rebuilt
    from a valid revision, whatever facts are projected and committed, every
    node and edge is still there, with the same class, name, contract and
    ends; only the status of a node changes, and its provenance, which is
    extended. *)
Theorem graph_keeps_its_meaning identity revision sequence p p' :
  NewGraphProjection identity revision sequence = Ok p ->
  match revision with Some r => (0 <= ordinal (metadata r))%Z | None => True end ->
  rtc advances p p' -> settled p' /\ grows p p'.
Proof.
  intros Hn Ho Hr. pose proof (NewGraphProjection_settled _ _ _ _ Hn Ho) as Hs. clear Hn Ho.
  induction Hr as [p|p q p' Ha _ IH]; [by split|]. destruct (advances_settled _ _ Hs Ha) as [Hq Hg].
  destruct (IH Hq) as [Hs' Hg']. split; [done|]. by etrans.
Qed.

(** [C34] A patch rebuilds the revision it was computed for. Applied to the
    entries of the revision before, it gives the entries of the current one;
    and it carries nothing else, of nodes and of edges alike: it adds exactly
    the current entries whose identity was absent, updates exactly the current
    entries that were different, removes exactly the identities that were
    there and are no more, and names none of them twice. It names both
    revisions. *)
Theorem patch_rebuilds_revision previous current limits patch :
  BuildGraphPatch previous current limits = Ok patch ->
  apply_patch patch (previous_nodes previous) (previous_edges previous)
  = (node_map (revision_nodes current), edge_map (revision_edges current)) /\
  describes node_id (previous_nodes previous) (revision_nodes current)
    (AddedNodes patch) (UpdatedNodes patch) (RemovedNodeIDs patch) /\
  describes edge_id (previous_edges previous) (revision_edges current)
    (AddedEdges patch) (UpdatedEdges patch) (RemovedEdgeIDs patch) /\
  PreviousRevisionID patch = (fun r => revision_id (metadata r)) <$> previous /\
  patch_RevisionID patch = revision_id (metadata current).
Proof.
  intros H. split; [by eapply BuildGraphPatch_applies|by eapply BuildGraphPatch_describes].
Qed.

(** The evidence mode shows exactly what evidence connects. On a valid
    revision the search ends; it shows the requirements, obligations and
    results, every node connected to one of them by edges of evidence in
    either direction, and the edges between nodes it shows. *)
Theorem evidence_mode_is_connected r :
  Revision_Validate r = None ->
  exists slice,
    DeriveModeVisibility r ModeEvidence = Some (Ok slice) /\
    (forall n, n ∈ slice_Nodes slice <->
       n ∈ revision_nodes r /\
       exists seed, seed ∈ revision_nodes r /\
         node_class seed ∈ [NodeClassRequirement; NodeClassObligation; NodeClassArtifactResult] /\
         rtc (connected (revision_edges r)) (node_id seed) (node_id n)) /\
    (forall e, e ∈ slice_Edges slice <->
       e ∈ revision_edges r /\ fromNode e ∈ map node_id (slice_Nodes slice) /\
       toNode e ∈ map node_id (slice_Nodes slice)).
Proof.
  intros Hv. pose proof Hv as [_ (_ & Hd & _ & _ & Hends)]%Revision_Validate_None.
  unfold DeriveModeVisibility. rewrite Hv. cbn [negb Mode_IsValid].
  set (seeds := ids_where (fun n => bool_decide (node_class n ∈
    [NodeClassRequirement; NodeClassObligation; NodeClassArtifactResult])) (revision_nodes r)).
  set (U := list_to_set (map node_id (revision_nodes r)) : gset ID).
  assert (forall x, x ∈ seeds <-> exists n, n ∈ revision_nodes r /\ x = node_id n /\
    node_class n ∈ [NodeClassRequirement; NodeClassObligation; NodeClassArtifactResult]) as Hseeds.
  { intros x. unfold seeds, ids_where. rewrite elem_of_list_to_set, list_elem_of_fmap.
    setoid_rewrite elem_of_filter_In. setoid_rewrite bool_decide_eq_true. naive_solver. }
  destruct (spread_returns (revision_edges r) U (S (length (revision_nodes r))) seeds) as [V HV].
  { intros e He. unfold U. rewrite !elem_of_list_to_set. by apply Hends. }
  { intros x (n & Hn & -> & _)%Hseeds. unfold U. apply elem_of_list_to_set. by apply list_elem_of_fmap_2. }
  { unfold U. rewrite size_list_to_set by done. rewrite length_map. lia. }
  change (visible_nodes ModeEvidence (revision_nodes r) (revision_edges r))
    with (spread (S (length (revision_nodes r))) (revision_edges r) seeds).
  rewrite HV. cbn [mbind option_bind]. eexists. split; [reflexivity|].
  cbn [slice_Nodes slice_Edges].
  assert (forall n, n ∈ sort_by node_id (List.filter (fun n => bool_decide (node_id n ∈ V)) (revision_nodes r))
    <-> n ∈ revision_nodes r /\ node_id n ∈ V) as Hshown.
  { intros n. by rewrite elem_of_sort_by, elem_of_filter_In, bool_decide_eq_true. }
  assert (forall x, x ∈ map node_id (revision_nodes r) ->
    x ∈ map node_id (sort_by node_id (List.filter (fun n => bool_decide (node_id n ∈ V)) (revision_nodes r)))
    <-> x ∈ V) as Hids.
  { intros x (n & -> & Hn)%list_elem_of_fmap. rewrite list_elem_of_fmap. setoid_rewrite Hshown. split.
    - by intros (m & -> & _ & ?).
    - intros Hx. by exists n. }
  split.
  - intros n. rewrite Hshown, (spread_correct _ _ _ _ HV). unfold reached_from. setoid_rewrite Hseeds.
    naive_solver.
  - intros e. rewrite elem_of_sort_by, elem_of_filter_In, andb_true_iff, !bool_decide_eq_true. split.
    + intros (He & Hf & Ht). destruct (Hends e He). by rewrite !Hids.
    + intros (He & Hf & Ht). destruct (Hends e He). by rewrite !Hids in Hf, Ht.
Qed.

Lemma append_new_fresh {A} `{EqDecision A} (l : list A) a :
  a ∉ l -> append_new l [a] = l ++ [a].
Proof. intros H. unfold append_new. cbn [fold_left]. by rewrite bool_decide_false. Qed.

(** A node that was reported 64 times is refused from then on. Whatever an
    operation's next state is, the event that reports it is not accepted, so
    the node keeps the state it has. *)
Theorem often_reported_node_is_refused p event fact n :
  event_Kind event = ProjectionOperationObserved -> event_Operation event = Some fact ->
  projection_nodes p !! operation_NodeID fact = Some n ->
  Z.of_nat (length (eventIDs (node_sources n))) = MaximumSourceEventLinks ->
  event_SourceEventID event ∉ eventIDs (node_sources n) ->
  exists err, ProjectSessionEvent p event = Err err.
Proof.
  intros Hk Hf Hn Hl Hfresh. destruct (ProjectSessionEvent p event) as [err|[p' c]] eqn:H; [eauto|].
  exfalso. unfold ProjectSessionEvent in H. destruct (negb _); [done|]. rewrite guard_Ok in H.
  destruct H as [_ H]. rewrite Hk in H. cbn in H. apply bind_Ok in H as (s & _ & H).
  apply bind_Ok in H as (next & H & _). unfold applyProjectionFact in H. rewrite Hk, Hf in H. cbn in H.
  apply bind_Ok in H as (sources & [-> _]%NewSourceLinks_Ok & H). unfold put_reached in H.
  apply bind_Ok in H as (p1 & H & _). unfold putNode in H. cbn [projection_nodes set_progress] in H.
  rewrite Hn in H. destruct (_ || _); [done|]. apply bind_Ok in H as (merged & H & _).
  unfold mergeSources, NewSourceLinks in H. cbn [eventIDs] in H.
  rewrite append_new_fresh in H by done. unfold exceeds in H. rewrite length_app in H.
  rewrite (proj2 (Z.ltb_lt _ _)) in H; [done|]. cbn [length]. rewrite <- Hl. lia.
Qed.

(** ** Witnesses *)

Definition sample_time : Time := {| Time_nanos := 1; Time_Location := "UTC" |}.

Definition sample_graph : Graph :=
  {| graph_id := "graph-1"; graph_taskID := "task-1"; graph_createdAt := sample_time |}.

Definition fact_event (sequence : Z) (source : ID) (kind : ProjectionEventKind)
    (requirement : option RequirementFact) (plan : option PlanFact) (operation : option OperationFact)
    : ProjectionEvent :=
  {| event_Sequence := sequence; event_SourceEventID := source; event_TaskID := "task-1";
     event_OccurredAt := sample_time; event_Kind := kind; event_Requirement := requirement;
     event_Plan := plan; event_Operation := operation; event_Effect := None; event_Approval := None;
     event_Validation := None; event_Artifact := None; event_Retry := None; event_Recovery := None;
     event_TokenDelta := None |}.

Definition requirement_event : ProjectionEvent :=
  fact_event 1 "event-1" ProjectionRequirementAccepted
    (Some {| requirement_NodeID := "need"; requirement_DisplayName := "Add a flag";
             requirement_Contract := zero_contract |}) None None.

Definition plan_event : ProjectionEvent :=
  fact_event 2 "event-2" ProjectionPlanDeclared None
    (Some {| plan_Revision := 1; plan_RegionNodeID := "plan"; plan_RegionDisplayName := "Plan";
             plan_RequirementNodeID := "need"; plan_RequirementEdgeID := "need-plan";
             plan_Steps := [{| step_StepID := "s1"; step_NodeID := "step-1";
                               step_ControlEdge := "plan-step-1"; step_DisplayName := "Edit" |}] |}) None.

Definition operation_event (sequence : Z) (source : ID) (state : ProjectionState) : ProjectionEvent :=
  fact_event sequence source ProjectionOperationObserved None None
    (Some {| operation_Kind := OperationFileEdit; operation_NodeID := "op";
             operation_ControlEdge := "step-op"; operation_PlanNodeID := "step-1";
             operation_PlanRevision := 1; operation_PlanStepID := "s1";
             operation_DisplayName := "Edit main.go"; operation_State := state |}).

Definition start : GraphProjection :=
  {| projection_graph := sample_graph; projection_revision := None; lastSequence := 0;
     projection_nodes := ∅; projection_edges := ∅; pendingChange := 0 |}.

(** Projecting and committing; a failure leaves the projection. *)
Definition advance (p : GraphProjection) (event : ProjectionEvent) (revisionID : ID) : GraphProjection :=
  match ProjectSessionEvent p event with
  | Ok (p', change) =>
      match CommitGraphRevision p' change revisionID with Ok (p'', _) => p'' | Err _ => p end
  | Err _ => p
  end.

Definition first_projection : GraphProjection := advance start requirement_event "rev-1".
Definition second_projection : GraphProjection := advance first_projection plan_event "rev-2".

Definition revision_of (p : GraphProjection) : Revision :=
  match projection_revision p with
  | Some r => r
  | None => {| metadata := {| revision_id := ""; revision_graphID := ""; ordinal := 0; parentID := None;
                 schemaVersion := 0; metadataPolicy := ""; revision_createdAt := sample_time;
                 revision_sources := {| eventIDs := []; planSteps := [] |} |};
               revision_nodes := []; revision_edges := [] |}
  end.

Lemma start_settled : settled start.
Proof. by apply (NewGraphProjection_settled sample_graph None 0). Qed.

Lemma projected_fact_is_committed_witness :
  exists p' change p'' r patch,
    ProjectSessionEvent start requirement_event = Ok (p', change) /\
    CommitGraphRevision p' change "rev-1" = Ok (p'', r) /\
    BuildGraphPatch None r DefaultPatchLimits = Ok patch /\ RemovedNodeIDs patch = [].
Proof.
  destruct (ProjectSessionEvent start requirement_event) as [e|[p' change]] eqn:H;
    [vm_compute in H; discriminate|].
  assert (Hm : material change = true) by (vm_compute in H; injection H as <- <-; reflexivity).
  assert (Hroom : has_room start "rev-1") by (split; [vm_compute; split; [discriminate|reflexivity]|discriminate]).
  destruct (projected_fact_is_committed start requirement_event p' change "rev-1" start_settled Hroom
    ltac:(discriminate) H Hm) as (p'' & r & patch & Hc & _ & _ & Hp & Hr & _).
  exists p', change, p'', r, patch. split; [reflexivity|]. split; [exact Hc|]. split; [exact Hp|exact Hr].
Defined.

Lemma graph_keeps_its_meaning_witness :
  exists p p',
    NewGraphProjection sample_graph (Some (revision_of first_projection)) 1 = Ok p /\
    p' = advance p plan_event "rev-2" /\ settled p' /\ grows p p'.
Proof.
  destruct (NewGraphProjection sample_graph (Some (revision_of first_projection)) 1) as [e|p] eqn:H;
    [vm_compute in H; discriminate|].
  exists p, (advance p plan_event "rev-2"). split; [reflexivity|]. split; [reflexivity|].
  refine (graph_keeps_its_meaning _ _ _ _ _ H _ _); [vm_compute; discriminate|].
  apply rtc_once. vm_compute in H. injection H as <-. eexists plan_event, _, _.
  split; [vm_compute; reflexivity|]. cbn [material]. eexists "rev-2", _. split.
  { split; [vm_compute; split; [discriminate|reflexivity]|]. intros r [= <-].
    split; [vm_compute; reflexivity|discriminate]. }
  split; [discriminate|]. vm_compute. reflexivity.
Defined.

Lemma patch_rebuilds_revision_witness :
  exists patch,
    BuildGraphPatch (Some (revision_of first_projection)) (revision_of second_projection) DefaultPatchLimits
      = Ok patch /\
    map node_id (AddedNodes patch) = ["plan"; "step-1"] /\
    apply_patch patch (node_map (revision_nodes (revision_of first_projection)))
      (edge_map (revision_edges (revision_of first_projection)))
    = (node_map (revision_nodes (revision_of second_projection)),
       edge_map (revision_edges (revision_of second_projection))).
Proof.
  destruct (BuildGraphPatch (Some (revision_of first_projection)) (revision_of second_projection)
    DefaultPatchLimits) as [e|patch] eqn:H; [vm_compute in H; discriminate|].
  exists patch. split; [reflexivity|].
  split; [vm_compute in H; injection H as <-; reflexivity|].
  exact (proj1 (patch_rebuilds_revision _ _ _ _ H)).
Defined.

Lemma evidence_mode_is_connected_witness :
  exists slice,
    DeriveModeVisibility (revision_of second_projection) ModeEvidence = Some (Ok slice) /\
    map node_id (slice_Nodes slice) = ["need"].
Proof.
  destruct (evidence_mode_is_connected (revision_of second_projection) ltac:(vm_compute; reflexivity))
    as (slice & H & _).
  exists slice. split; [exact H|]. vm_compute in H. injection H as <-. reflexivity.
Defined.

(** An operation that was reported active sixty-four times. *)
Definition report_ids : list ID := map (fun i => "report-" +:+ fmt_d (Z.of_nat i)) (List.seq 0 64).

Definition reported_node : Node :=
  {| node_id := "op"; node_class := NodeClassAtomOperation; node_status := NodeStatusActive;
     displayName := "Edit main.go"; contract := zero_contract;
     node_sources := {| eventIDs := report_ids;
                        planSteps := [{| link_PlanRevision := 1; link_StepID := "s1" |}] |} |}.

Definition often_reported : GraphProjection :=
  set_nodes start (<["op" := reported_node]> (projection_nodes start)).

Lemma often_reported_node_is_refused_witness :
  Node_Validate reported_node = None /\
  exists err,
    ProjectSessionEvent often_reported (operation_event 1 "last" ProjectionPassedState) = Err err.
Proof.
  split; [vm_compute; reflexivity|].
  refine (often_reported_node_is_refused often_reported
    (operation_event 1 "last" ProjectionPassedState) _ reported_node eq_refl eq_refl eq_refl eq_refl _).
  apply (proj1 (bool_decide_eq_false _)). vm_compute. reflexivity.
Defined.
