(* ===== verification/GraphService.v ===== *)
(** * Committing projected facts (src/internal/coordinator/graph_projection.go)

    The service takes a committed task event, projects its fact, has the
    revision stored and publishes what was stored. The graph store and the
    publisher are ports; [json.Marshal] is a parameter. *)

From S2P Require Import Prelude GoText GoErrors GoPath Ports PolicyValues SessionEvents.
From S2P Require Import GraphModel GraphProjector GraphFacts GraphTheorems.
Open Scope string_scope.
Open Scope list_scope.
Open Scope go_scope.

(** src/internal/storage. *)
Definition MaximumEncodedGraphChangeBytes : Z := Z.shiftl 1 20.

Record GraphQueryScope := { scope_ProjectID : ID; scope_TaskID : ID }.

Record TaskEvent := {
  durable_ID : ID;
  durable_TaskID : ID;
  durable_RunID : option ID;
  durable_Sequence : Z;
  durable_EventType : string;
  durable_PayloadJSON : string;
  durable_IdempotencyKey : string;
  durable_CreatedAt : Time;
}.

Record CommitTaskGraphRevision := {
  commit_Scope : GraphQueryScope;
  commit_Graph : Graph;
  commit_Revision : Revision;
  commit_EncodedChange : string;
}.

Record CommittedTaskGraphRevision := {
  committed_Event : SessionEvents.SessionEvent;
  committed_Replayed : bool;
}.

Inductive port : Type :=
| LoadTaskGraphProjection (scope : GraphQueryScope)
| CommitRevision (request : CommitTaskGraphRevision)
| PublishCommitted (event : SessionEvents.SessionEvent).

Definition answer (p : port) : Type :=
  match p with
  | LoadTaskGraphProjection _ => result error GraphProjection
  | CommitRevision _ => result error CommittedTaskGraphRevision
  | PublishCommitted _ => option error
  end.

Record ProjectedTaskGraph := {
  projected_Projection : GraphProjection;
  projected_Revision : option Revision;
  projected_Committed : option CommittedTaskGraphRevision;
}.

(** What is returned, and the error beside it: publishing can fail after the
    result is there. *)
Definition outcome : Type := option ProjectedTaskGraph * option error.

Definition failed (err : error) : outcome := (None, Some err).

(** ** The encoded patch *)

Record encodedNode := {
  encodedNode_Operation : string;
  encodedNode_ID : string;
  encodedNode_Class : string;
  encodedNode_Status : string;
  encodedNode_DisplayName : string;
  encodedNode_Purpose : string;
  encodedNode_Inputs : list string;
  encodedNode_Outputs : list string;
  encodedNode_Effects : list string;
}.

Record encodedEdge := {
  encodedEdge_Operation : string;
  encodedEdge_ID : string;
  encodedEdge_Class : string;
  encodedEdge_From : string;
  encodedEdge_To : string;
}.

Record encodedGraphPatch := {
  encoded_PreviousRevisionID : string;
  encoded_RevisionID : string;
  encoded_Nodes : list encodedNode;
  encoded_Edges : list encodedEdge;
  encoded_RemovedNodeIDs : list string;
  encoded_RemovedEdgeIDs : list string;
}.

Definition encode_node (operation : string) (n : Node) : encodedNode :=
  {| encodedNode_Operation := operation; encodedNode_ID := node_id n;
     encodedNode_Class := node_class n; encodedNode_Status := node_status n;
     encodedNode_DisplayName := displayName n; encodedNode_Purpose := purpose (contract n);
     encodedNode_Inputs := inputs (contract n); encodedNode_Outputs := outputs (contract n);
     encodedNode_Effects := effects (contract n) |}.

Definition encode_edge (operation : string) (e : Edge) : encodedEdge :=
  {| encodedEdge_Operation := operation; encodedEdge_ID := edge_id e;
     encodedEdge_Class := edge_class e; encodedEdge_From := fromNode e; encodedEdge_To := toNode e |}.

Definition encode_payload (patch : GraphPatch) : encodedGraphPatch :=
  {| encoded_PreviousRevisionID := default "" (PreviousRevisionID patch);
     encoded_RevisionID := patch_RevisionID patch;
     encoded_Nodes := map (encode_node "add") (AddedNodes patch) ++ map (encode_node "update") (UpdatedNodes patch);
     encoded_Edges := map (encode_edge "add") (AddedEdges patch) ++ map (encode_edge "update") (UpdatedEdges patch);
     encoded_RemovedNodeIDs := RemovedNodeIDs patch; encoded_RemovedEdgeIDs := RemovedEdgeIDs patch |}.

Section Service.
Context (Marshal : encodedGraphPatch -> result error string) (has_publisher : bool).

Definition encodeCommittedGraphPatch (patch : GraphPatch) (revision : Revision) : result error string :=
  let payload := encode_payload patch in
  if bool_decide (PreviousRevisionID patch = None)
     && negb (length (encoded_Nodes payload) =? length (revision_nodes revision))%nat then
    Err (Sentinel "root graph snapshot is incomplete")
  else match Marshal payload with
  | Err err => Err (text_cause "encode committed graph patch" err)
  | Ok encoded =>
      if longer_than MaximumEncodedGraphChangeBytes encoded then
        Err (Sentinel "encoded graph patch exceeds the durable event bound")
      else Ok encoded
  end.

(** The fact under the authority of the durable event. *)
Definition authoritative (p : GraphProjection) (durable : TaskEvent) (fact : ProjectionEvent)
    : ProjectionEvent :=
  {| event_Sequence := wrap_uint64 (lastSequence p + 1); event_SourceEventID := durable_ID durable;
     event_TaskID := durable_TaskID durable; event_OccurredAt := durable_CreatedAt durable;
     event_Kind := event_Kind fact; event_Requirement := event_Requirement fact;
     event_Plan := event_Plan fact; event_Operation := event_Operation fact;
     event_Effect := event_Effect fact; event_Approval := event_Approval fact;
     event_Validation := event_Validation fact; event_Artifact := event_Artifact fact;
     event_Retry := event_Retry fact; event_Recovery := event_Recovery fact;
     event_TokenDelta := event_TokenDelta fact |}.

(** Storing and publishing one revision. *)
Definition store_revision (scope : GraphQueryScope) (p : GraphProjection) (revision : Revision)
    (encoded : string) : program answer outcome :=
  Ask (CommitRevision {| commit_Scope := scope; commit_Graph := projection_graph p;
                         commit_Revision := revision; commit_EncodedChange := encoded |}) (fun commit =>
  match commit with
  | Err err => Ret (failed err)
  | Ok commit =>
      let r := {| projected_Projection := p; projected_Revision := Some revision;
                  projected_Committed := Some commit |} in
      if has_publisher && negb (committed_Replayed commit) then
        Ask (PublishCommitted (committed_Event commit)) (fun err =>
        match err with
        | Some err => Ret (Some r, Some (text_cause "publish committed graph event" err))
        | None => Ret (Some r, None)
        end)
      else Ret (Some r, None)
  end).

Definition ProjectCommittedTaskEvent (scope : GraphQueryScope) (p : GraphProjection)
    (durable : TaskEvent) (fact : ProjectionEvent) (revisionID : ID) : program answer outcome :=
  if IsZero (durable_ID durable) || IsZero (durable_TaskID durable)
     || Time_IsZero (durable_CreatedAt durable) then
    Ret (failed (Sentinel "committed durable task event is incomplete"))
  else if negb (scope_TaskID scope =? durable_TaskID durable)
          || negb (graph_taskID (projection_graph p) =? durable_TaskID durable) then
    Ret (failed (Sentinel "durable task event does not match graph projection scope"))
  else match ProjectSessionEvent p (authoritative p durable fact) with
  | Err err => Ret (failed err)
  | Ok (pending, change) =>
      if negb (material change) then
        Ret (Some {| projected_Projection := pending; projected_Revision := None;
                     projected_Committed := None |}, None)
      else if IsZero revisionID then
        Ret (failed (Sentinel "material graph fact requires a revision identity"))
      else match CommitGraphRevision pending change revisionID with
      | Err err => Ret (failed err)
      | Ok (committed, revision) =>
          match BuildGraphPatch (projection_revision p) revision DefaultPatchLimits with
          | Err err => Ret (failed err)
          | Ok patch =>
              match encodeCommittedGraphPatch patch revision with
              | Err err => Ret (failed err)
              | Ok encoded => store_revision scope committed revision encoded
              end
          end
      end
  end.

Definition ProjectNextCommittedTaskEvent (scope : GraphQueryScope) (durable : TaskEvent)
    (fact : ProjectionEvent) (revisionID : ID) : program answer outcome :=
  Ask (LoadTaskGraphProjection scope) (fun p =>
  match p with
  | Err err => Ret (failed err)
  | Ok p => ProjectCommittedTaskEvent scope p durable fact revisionID
  end).

(** ** What may be asked *)

(** What an encoded node and an encoded edge say of a node and an edge. *)
Record says_node (operation : string) (n : Node) (en : encodedNode) : Prop := {
  says_node_operation : encodedNode_Operation en = operation;
  says_node_id : encodedNode_ID en = node_id n;
  says_node_class : encodedNode_Class en = node_class n;
  says_node_status : encodedNode_Status en = node_status n;
  says_node_name : encodedNode_DisplayName en = displayName n;
  says_node_purpose : encodedNode_Purpose en = purpose (contract n);
  says_node_inputs : encodedNode_Inputs en = inputs (contract n);
  says_node_outputs : encodedNode_Outputs en = outputs (contract n);
  says_node_effects : encodedNode_Effects en = effects (contract n);
}.

Record says_edge (operation : string) (e : Edge) (ee : encodedEdge) : Prop := {
  says_edge_operation : encodedEdge_Operation ee = operation;
  says_edge_id : encodedEdge_ID ee = edge_id e;
  says_edge_class : encodedEdge_Class ee = edge_class e;
  says_edge_from : encodedEdge_From ee = fromNode e;
  says_edge_to : encodedEdge_To ee = toNode e;
}.

(** A payload that tells one revision from the one before: an entry for every
    node and edge that was absent, as added, and for every one that was
    different, as updated, and for nothing else; and the identities that were
    there and are no more. *)
Record tells (previous : option Revision) (r : Revision) (payload : encodedGraphPatch) : Prop := {
  tells_revision : encoded_RevisionID payload = revision_id (metadata r);
  tells_previous :
    encoded_PreviousRevisionID payload
    = match previous with Some q => revision_id (metadata q) | None => "" end;
  tells_nodes :
    exists add upd,
      describes node_id (previous_nodes previous) (revision_nodes r) add upd
        (encoded_RemovedNodeIDs payload) /\
      exists adds upds, encoded_Nodes payload = adds ++ upds /\
        Forall2 (says_node "add") add adds /\ Forall2 (says_node "update") upd upds;
  tells_edges :
    exists add upd,
      describes edge_id (previous_edges previous) (revision_edges r) add upd
        (encoded_RemovedEdgeIDs payload) /\
      exists adds upds, encoded_Edges payload = adds ++ upds /\
        Forall2 (says_edge "add") add adds /\ Forall2 (says_edge "update") upd upds;
}.

Lemma encode_payload_tells previous r limits patch :
  BuildGraphPatch previous r limits = Ok patch -> tells previous r (encode_payload patch).
Proof.
  intros (Hn & He & Hp & Hr)%BuildGraphPatch_describes.
  assert (forall op l, Forall2 (says_node op) l (map (encode_node op) l)) as Mn.
  { intros op l. induction l; cbn; by repeat constructor. }
  assert (forall op l, Forall2 (says_edge op) l (map (encode_edge op) l)) as Me.
  { intros op l. induction l; cbn; by repeat constructor. }
  split; cbn [encode_payload encoded_RevisionID encoded_PreviousRevisionID encoded_Nodes encoded_Edges
    encoded_RemovedNodeIDs encoded_RemovedEdgeIDs].
  - done.
  - rewrite Hp. by destruct previous.
  - eexists _, _. split; [exact Hn|]. eexists _, _. split; [reflexivity|]. split; apply Mn.
  - eexists _, _. split; [exact He|]. eexists _, _. split; [reflexivity|]. split; apply Me.
Qed.

Lemma encodeCommittedGraphPatch_Ok patch r text :
  encodeCommittedGraphPatch patch r = Ok text ->
  Marshal (encode_payload patch) = Ok text /\ (Z.of_nat (String.length text) <= 2 ^ 20)%Z.
Proof.
  unfold encodeCommittedGraphPatch. destruct (_ && _); [done|].
  destruct (Marshal _) as [err|encoded]; [done|]. destruct (longer_than _ _) eqn:E; [done|].
  intros [= <-]. split; [done|]. unfold longer_than in E. apply Z.ltb_ge in E. exact E.
Qed.

(** The revision is the next one of a settled projection, the text the
    marshalled payload that tells it from the one before; and only what was
    stored, and was not stored before, is published. *)
Definition permits (scope : GraphQueryScope) (p : GraphProjection) (revisionID : ID)
    (h : list (event answer)) (q : port) : Prop :=
  match q with
  | LoadTaskGraphProjection _ => True
  | CommitRevision request =>
      (exists p', settled p' /\ next_revision p p' revisionID (commit_Revision request) /\ grows p p') /\
      Revision_Validate (commit_Revision request) = None /\
      commit_Scope request = scope /\ commit_Graph request = projection_graph p /\
      (exists payload, tells (projection_revision p) (commit_Revision request) payload /\
         Marshal payload = Ok (commit_EncodedChange request)) /\
      (Z.of_nat (String.length (commit_EncodedChange request)) <= 2 ^ 20)%Z /\
      forall request' r, called (CommitRevision request') r ∉ h
  | PublishCommitted ev =>
      has_publisher = true /\
      exists request commit, called (CommitRevision request) (Ok commit) ∈ h /\
        committed_Event commit = ev /\ committed_Replayed commit = false
  end.

(** A projection that is returned is settled and one event further. Either its
    revision is the one the store accepted, or no revision was due: the graph
    is the same, and nothing was asked. *)
Definition returns (p : GraphProjection) (revisionID : ID) (o : outcome) (h : list (event answer)) : Prop :=
  forall r, o.1 = Some r ->
    let p' := projected_Projection r in
    settled p' /\ lastSequence p' = (lastSequence p + 1)%Z /\
    match projected_Revision r with
    | Some revision =>
        next_revision p p' revisionID revision /\ grows p p' /\
        exists request commit, called (CommitRevision request) (Ok commit) ∈ h /\
          commit_Revision request = revision /\ projected_Committed r = Some commit
    | None =>
        projection_revision p' = projection_revision p /\
        projection_nodes p' = projection_nodes p /\ projection_edges p' = projection_edges p /\
        projected_Committed r = None /\ h = []
    end.

Lemma stored_returns p p' revisionID revision request commit err h :
  settled p' -> next_revision p p' revisionID revision -> grows p p' ->
  called (CommitRevision request) (Ok commit) ∈ h -> commit_Revision request = revision ->
  returns p revisionID (Some {| projected_Projection := p'; projected_Revision := Some revision;
                                projected_Committed := Some commit |}, err) h.
Proof.
  intros Hs Hn Hg Hin Hr r [= <-]. cbn [projected_Projection projected_Revision projected_Committed].
  split; [done|]. split; [apply Hn|]. split; [done|]. split; [done|]. exists request, commit. by split_and!.
Qed.

Lemma settled_revision_valid p r : settled p -> projection_revision p = Some r -> Revision_Validate r = None.
Proof. intros [_ _ _ H] Hr. rewrite Hr in H. apply H. Qed.

Lemma store_revision_obeys scope p revisionID p' revision encoded h patch :
  settled p' -> next_revision p p' revisionID revision -> grows p p' ->
  BuildGraphPatch (projection_revision p) revision DefaultPatchLimits = Ok patch ->
  encodeCommittedGraphPatch patch revision = Ok encoded ->
  (forall request r, called (CommitRevision request) r ∉ h) ->
  obeys (permits scope p revisionID) (store_revision scope p' revision encoded) h (returns p revisionID).
Proof.
  intros Hs Hn Hg Hp [He Hl]%encodeCommittedGraphPatch_Ok Hh. unfold store_revision. cbn [obeys]. split.
  { split; [by exists p'|]. split; [by eapply settled_revision_valid, Hn|]. split; [done|]. split; [apply Hn|].
    split; [|done]. exists (encode_payload patch). split; [by eapply encode_payload_tells|exact He]. }
  intros [err|commit]; cbn [obeys]; [by intros r|].
  set (e := called (CommitRevision _) (Ok commit)). assert (e ∈ e :: h) as Hin by (apply elem_of_cons; by left).
  destruct has_publisher eqn:Hpub; cbn [andb]; [|by eapply stored_returns].
  destruct (committed_Replayed commit) eqn:Hrep; cbn [negb obeys]; [by eapply stored_returns|]. split.
  { split; [done|]. eexists _, commit. split_and!; [exact Hin|done|done]. }
  intros [err|]; cbn [obeys];
    (eapply stored_returns; [done|done|done|apply elem_of_cons; right; exact Hin|done]).
Qed.

Lemma project_obeys scope p durable fact revisionID :
  settled p -> has_room p revisionID ->
  obeys (permits scope p revisionID) (ProjectCommittedTaskEvent scope p durable fact revisionID) []
    (returns p revisionID).
Proof.
  intros Hs Hroom. unfold ProjectCommittedTaskEvent.
  destruct (_ || _); [by intros r|]. destruct (_ || _); [by intros r|].
  destruct (ProjectSessionEvent p _) as [err|[pending change]] eqn:Hp; [by intros r|].
  destruct (material change) eqn:Hm; cbn [negb].
  2: { intros r [= <-]. cbn [projected_Projection projected_Revision projected_Committed]. split.
       - eapply (advances_settled p); [done|]. eexists _, _, _. split; [exact Hp|]. by rewrite Hm.
       - pose proof Hp as [Hv Hp']%ProjectSessionEvent_Ok. rewrite Hm in Hp'. subst pending.
         split; [|done]. cbn [lastSequence set_progress]. destruct (validated_event _ _ Hv) as [-> _].
         apply wrap_succ, Hroom. }
  destruct (IsZero revisionID) eqn:Hid; [by intros r|]. unfold IsZero in Hid. to_prop.
  destruct (material_commits _ _ _ _ _ Hs Hroom Hid Hp Hm)
    as (p'' & r & Hc & Hs'' & Hnext & Hg & _). rewrite Hc.
  destruct (BuildGraphPatch _ _ _) as [err|patch] eqn:Hb; [by intros r'|].
  destruct (encodeCommittedGraphPatch _ _) as [err|encoded] eqn:He; [by intros r'|].
  eapply store_revision_obeys; eauto. by intros request r' []%elem_of_nil.
Qed.

(** [C18] Only what was stored is published. On a projection as a revision left
    it, whose counters have room for one more and whose revision has another
    identity than the new one, a committed task event leads to at most one
    request to the graph store: for the valid next revision of the
    projection's graph, with a text of at most a megabyte, the marshalled
    payload that names every node and edge that was absent, as added, with its
    class, status, name, contract and ends, every one that was different, as updated,
    and what is no longer there, and nothing else. What is published is the
    event the store returned, when it was not a replay. And the projection
    that is returned is again as a revision leaves it and one event further,
    at the revision the store accepted, or, when the fact changed nothing, at
    the revision it had. *)
Theorem stored_before_published scope p durable fact revisionID t o :
  settled p -> has_room p revisionID ->
  runs (ProjectCommittedTaskEvent scope p durable fact revisionID) t o ->
  returns p revisionID o (reverse t) /\
  forall t1 q r t2, t = t1 ++ called q r :: t2 -> permits scope p revisionID (reverse t1) q.
Proof.
  intros Hs Hroom Hr. eapply obeys_sound; [|exact Hr]. by apply project_obeys.
Qed.

(** The check that a root patch carries every node never fires. *)
Lemma root_snapshot_is_complete r patch :
  BuildGraphPatch None r DefaultPatchLimits = Ok patch ->
  length (encoded_Nodes (encode_payload patch)) = length (revision_nodes r).
Proof.
  unfold BuildGraphPatch. rewrite guard_Ok. intros [_ H].
  destruct (_ || _); [done|]. apply guard_Ok in H as [_ H]. destruct (_ || _); [done|].
  injection H as <-. cbn [encode_payload patch_between AddedNodes UpdatedNodes encoded_Nodes].
  rewrite length_app, !length_map. unfold added, updated.
  rewrite !(Permutation_length (sort_by_perm node_id _)).
  induction (revision_nodes r) as [|n l IH]; [done|]. cbn. rewrite lookup_empty. cbn. lia.
Qed.
End Service.

(** ** Witness *)

Definition sample_marshal (p : encodedGraphPatch) : result error string := Ok (encoded_RevisionID p).

Definition sample_durable : TaskEvent :=
  {| durable_ID := "event-1"; durable_TaskID := "task-1"; durable_RunID := None; durable_Sequence := 9;
     durable_EventType := "requirement"; durable_PayloadJSON := "{}"; durable_IdempotencyKey := "k";
     durable_CreatedAt := sample_time |}.

(** A store and a publisher that fail. *)
Definition refusing (h : list (event answer)) (q : port) : answer q :=
  match q return answer q with
  | LoadTaskGraphProjection _ => Err (Sentinel "no projection")
  | CommitRevision _ => Err (Sentinel "the store is closed")
  | PublishCommitted _ => None
  end.

Definition sample_scope : GraphQueryScope := {| scope_ProjectID := "project-1"; scope_TaskID := "task-1" |}.

Definition sample_service : program answer outcome :=
  ProjectCommittedTaskEvent sample_marshal true sample_scope start sample_durable requirement_event "rev-1".

Lemma stored_before_published_witness :
  exists request r h,
    (run refusing sample_service []).2 = called (CommitRevision request) r :: h /\
    permits sample_marshal true sample_scope start "rev-1" [] (CommitRevision request).
Proof.
  assert (Hroom : has_room start "rev-1")
    by (split; [vm_compute; split; [discriminate|reflexivity]|discriminate]).
  pose proof (stored_before_published sample_marshal true _ start sample_durable requirement_event "rev-1"
    _ _ start_settled Hroom (run_trace refusing sample_service)) as [_ H].
  eexists _, _, _. split; [vm_compute; reflexivity|].
  eapply (H [] _ _ []). vm_compute. reflexivity.
Defined.
