(* ===== verification/Identity.v ===== *)
(** * Stable identities (src/internal/domain/identity.go)

    Every entity has an identity [prefix_uuid]: the prefix names the kind of
    entity and the payload is a UUID of version 7. The generic [typedID[K]]
    is a function of the kind; its zero value is the empty string. Time and
    entropy are arguments of the generator. *)

From Stdlib Require Import Ascii.
From S2P Require Import Prelude GoText GoPath PolicyValues.
Open Scope string_scope.
Open Scope list_scope.
Open Scope go_scope.

Definition ErrInvalidID : string := "invalid stable identity".

Record IDParseError := {
  IDParseError_Kind : string;
  IDParseError_Value : string;
  IDParseError_Reason : string;
}.

Definition IDParseError_Error (e : IDParseError) : string :=
  IDParseError_Kind e +:+ " ID " +:+ Quote (IDParseError_Value e) +:+ " is invalid: " +:+
  IDParseError_Reason e.

(** The instances of [idKind]. *)
Inductive idKind : Type :=
| projectIDKind | repositoryIDKind | workspaceIDKind | sessionIDKind | threadIDKind
| messageIDKind | taskIDKind | runIDKind | eventIDKind | checkpointIDKind
| approvalIDKind | graphIDKind | graphRevisionIDKind | nodeIDKind | edgeIDKind
| validationIDKind | evidenceIDKind | artifactIDKind | atomIDKind | modelRequestIDKind
| providerIDKind | budgetIDKind | episodeIDKind | memoryArtifactIDKind
| memoryArtifactRevisionIDKind.

#[export] Instance idKind_eq_dec : EqDecision idKind.
Proof. solve_decision. Defined.

Definition idKinds : list idKind :=
  [ projectIDKind; repositoryIDKind; workspaceIDKind; sessionIDKind; threadIDKind;
    messageIDKind; taskIDKind; runIDKind; eventIDKind; checkpointIDKind;
    approvalIDKind; graphIDKind; graphRevisionIDKind; nodeIDKind; edgeIDKind;
    validationIDKind; evidenceIDKind; artifactIDKind; atomIDKind; modelRequestIDKind;
    providerIDKind; budgetIDKind; episodeIDKind; memoryArtifactIDKind;
    memoryArtifactRevisionIDKind ].

Definition id_prefix (kind : idKind) : string :=
  match kind with
  | projectIDKind => "prj" | repositoryIDKind => "repo" | workspaceIDKind => "wsp"
  | sessionIDKind => "ses" | threadIDKind => "thr" | messageIDKind => "msg"
  | taskIDKind => "tsk" | runIDKind => "run" | eventIDKind => "evt"
  | checkpointIDKind => "ckp" | approvalIDKind => "apr" | graphIDKind => "grf"
  | graphRevisionIDKind => "grv" | nodeIDKind => "nod" | edgeIDKind => "edg"
  | validationIDKind => "val" | evidenceIDKind => "evd" | artifactIDKind => "art"
  | atomIDKind => "atm" | modelRequestIDKind => "mrq" | providerIDKind => "prv"
  | budgetIDKind => "bdg" | episodeIDKind => "epi" | memoryArtifactIDKind => "mem"
  | memoryArtifactRevisionIDKind => "mrv"
  end.

Definition id_label (kind : idKind) : string :=
  match kind with
  | projectIDKind => "project" | repositoryIDKind => "repository"
  | workspaceIDKind => "workspace" | sessionIDKind => "session"
  | threadIDKind => "thread" | messageIDKind => "message" | taskIDKind => "task"
  | runIDKind => "run" | eventIDKind => "event" | checkpointIDKind => "checkpoint"
  | approvalIDKind => "approval" | graphIDKind => "graph"
  | graphRevisionIDKind => "graph revision" | nodeIDKind => "node" | edgeIDKind => "edge"
  | validationIDKind => "validation" | evidenceIDKind => "evidence"
  | artifactIDKind => "artifact" | atomIDKind => "atom"
  | modelRequestIDKind => "model request" | providerIDKind => "provider"
  | budgetIDKind => "budget" | episodeIDKind => "episode"
  | memoryArtifactIDKind => "memory artifact"
  | memoryArtifactRevisionIDKind => "memory artifact revision"
  end.

(** ** Parsing *)

Definition isLowerHex (character : ascii) : bool :=
  let n := N_of_ascii character in
  ((48 <=? n) && (n <=? 57) || (97 <=? n) && (n <=? 102))%N.

Definition is_separator (index : nat) : bool :=
  match index with 8 | 13 | 18 | 23 => true | _ => false end%nat.

(** The loop over the characters of a payload. A rune beyond ASCII is refused
    where it starts, so the bytes decide. *)
Fixpoint check_characters (index : nat) (value : string) : option string :=
  match value with
  | EmptyString => None
  | String character rest =>
      if is_separator index then
        if negb (Ascii.eqb character "-") then
          Some "UUIDv7 payload has misplaced separators"
        else check_characters (S index) rest
      else if negb (isLowerHex character) then
        Some "UUIDv7 payload must use canonical lowercase hexadecimal"
      else check_characters (S index) rest
  end.

Definition has_byte (value : string) (index : nat) (allowed : list ascii) : bool :=
  match String.get index value with
  | Some c => existsb (Ascii.eqb c) allowed
  | None => false
  end.

Definition validateUUIDv7 (value : string) : option string :=
  if negb (Nat.eqb (String.length value) 36) then
    Some "UUIDv7 payload must contain 36 characters"
  else check_characters 0 value ;?
  if negb (has_byte value 14 ["7"%char]) then Some "UUID payload is not version 7"
  else if negb (has_byte value 19 ["8"; "9"; "a"; "b"]%char) then
    Some "UUIDv7 payload has an invalid RFC 9562 variant"
  else None.

Definition parse_error (kind : idKind) (value reason : string) : IDParseError :=
  {| IDParseError_Kind := id_label kind; IDParseError_Value := value;
     IDParseError_Reason := reason |}.

Definition parseTypedID (kind : idKind) (raw : string) : result IDParseError ID :=
  if raw =? "" then Err (parse_error kind "" "value must not be empty")
  else match strip_prefix (id_prefix kind +:+ "_") raw with
  | None => Err (parse_error kind raw "wrong type prefix")
  | Some payload =>
      match validateUUIDv7 payload with
      | Some reason => Err (parse_error kind raw reason)
      | None => Ok raw
      end
  end.

(** ** Generation *)

Definition byte (z : Z) : Z := Z.land z 255.

(** [hex.Encode]. *)
Definition hex_char (z : Z) : ascii := hex_digit (Z.to_N z).

Fixpoint hex_encode (value : list Z) : string :=
  match value with
  | [] => ""
  | b :: rest => String (hex_char (Z.shiftr b 4)) (String (hex_char (Z.land b 15)) (hex_encode rest))
  end.

Definition timestamp_bytes (milliseconds : Z) : list Z :=
  map (fun shift => byte (Z.shiftr milliseconds shift)) [40; 32; 24; 16; 8; 0].

(** The ten bytes read into [value[6:]], with version and variant set. *)
Definition stamp (entropy : list Z) : list Z :=
  match entropy with
  | b6 :: b7 :: b8 :: rest =>
      Z.lor (Z.land b6 15) 112 :: b7 :: Z.lor (Z.land b8 63) 128 :: rest
  | _ => entropy
  end.

Definition grouped (value : list Z) : string :=
  let part from count := hex_encode (take count (drop from value)) in
  (part 0 4 +:+ "-" +:+ part 4 2 +:+ "-" +:+ part 6 2 +:+ "-" +:+ part 8 2 +:+
   "-" +:+ part 10 6)%nat.
Arguments grouped value : simpl never.

(** The entropy source gives the bytes it has; [io.ReadFull] fails on fewer
    than ten. *)
Definition newUUIDv7 (milliseconds : Z) (entropy : list Z) : result string string :=
  if (milliseconds <? 0)%Z || (Z.shiftl 1 48 - 1 <? milliseconds)%Z then
    Err "UUIDv7 timestamp is outside the 48-bit range"
  else if Nat.ltb (length entropy) 10 then
    Err ("read UUIDv7 entropy: " +:+
         (if Nat.eqb (length entropy) 0 then "EOF" else "unexpected EOF"))
  else Ok (grouped (timestamp_bytes milliseconds ++ stamp (take 10 entropy))).

Definition newTypedID (kind : idKind) (milliseconds : Z) (entropy : list Z)
    : result string ID :=
  value ← newUUIDv7 milliseconds entropy;
  match parseTypedID kind (id_prefix kind +:+ "_" +:+ value) with
  | Ok id => Ok id
  | Err e => Err (IDParseError_Error e)
  end.

(** ** Text, JSON and SQL forms *)

Definition MarshalText (kind : idKind) (id : ID) : result IDParseError string :=
  parseTypedID kind id.

(** What is left in the receiver, with the error. *)
Definition UnmarshalText (kind : idKind) (text : string) : ID * option IDParseError :=
  match parseTypedID kind text with
  | Ok parsed => (parsed, None)
  | Err e => ("", Some e)
  end.

Definition Value (kind : idKind) (id : ID) : result IDParseError string :=
  parseTypedID kind id.

(** A column as the driver hands it over; of other types only the name
    matters. *)
Inductive sql_source : Type :=
| SqlString (value : string)
| SqlBytes (value : string)
| SqlNull
| SqlOther (type_name : string).

Definition Scan (kind : idKind) (source : sql_source) : ID * option IDParseError :=
  match source with
  | SqlString raw | SqlBytes raw => UnmarshalText kind raw
  | SqlNull => ("", Some (parse_error kind "" "SQL value must not be null"))
  | SqlOther name => ("", Some (parse_error kind name "SQL value must be text"))
  end.

Section Json.
(** [json.Marshal] of a string and [json.Unmarshal] into one. *)
Context (marshal_string : string -> string) (unmarshal_string : string -> option string).

Definition MarshalJSON (kind : idKind) (id : ID) : result IDParseError string :=
  _ ← parseTypedID kind id;
  Ok (marshal_string id).

Definition UnmarshalJSON (kind : idKind) (data : string) : ID * option IDParseError :=
  match unmarshal_string data with
  | None => ("", Some (parse_error kind data "JSON value must be a non-null string"))
  | Some raw => UnmarshalText kind raw
  end.
End Json.

(** ** What parsing accepts *)

Lemma parseTypedID_Ok kind raw id :
  parseTypedID kind raw = Ok id <->
  id = raw /\ exists payload, raw = id_prefix kind +:+ "_" +:+ payload /\ validateUUIDv7 payload = None.
Proof.
  unfold parseTypedID. destruct (String.eqb_spec raw "") as [->|Hne].
  - split; [done|]. intros (_ & payload & H & _). by destruct kind.
  - destruct (strip_prefix _ raw) as [payload|] eqn:Hp.
    + apply strip_prefix_spec in Hp.
      destruct (validateUUIDv7 payload) eqn:Hv; split.
      * done.
      * intros (_ & p & Hraw & Hok). rewrite Hp, <- string_app_assoc in Hraw.
        apply (inj _) in Hraw. congruence.
      * intros [= <-]. split; [done|]. exists payload. by rewrite <- string_app_assoc.
      * by intros (-> & _).
    + split; [done|]. intros (_ & p & Hraw & _).
      rewrite <- string_app_assoc in Hraw. apply strip_prefix_spec in Hraw. congruence.
Qed.

(** No two prefixes are the beginnings of one text: the underscore ends them. *)
Lemma prefix_determines k1 k2 p1 p2 :
  id_prefix k1 +:+ "_" +:+ p1 = id_prefix k2 +:+ "_" +:+ p2 -> k1 = k2.
Proof. destruct k1, k2; intros [=]; done. Qed.

(** An identity is of one kind. *)
Lemma kinds_are_disjoint k1 k2 raw id1 id2 :
  parseTypedID k1 raw = Ok id1 -> parseTypedID k2 raw = Ok id2 -> k1 = k2.
Proof.
  intros (_ & p1 & -> & _)%parseTypedID_Ok (_ & p2 & H & _)%parseTypedID_Ok.
  by eapply prefix_determines.
Qed.

(** ** What the generator makes *)

Lemma hex_char_lower z : 0 <= z < 16 -> isLowerHex (hex_char z) = true.
Proof.
  intros Hz. assert (In z [0;1;2;3;4;5;6;7;8;9;10;11;12;13;14;15]) as Hin by (simpl; lia).
  simpl in Hin. repeat (destruct Hin as [<-|Hin]; [reflexivity|]). done.
Qed.

(** The digits of a byte. *)
Lemma byte_digits b : 0 <= b < 256 -> 0 <= Z.shiftr b 4 < 16 /\ 0 <= Z.land b 15 < 16.
Proof.
  intros Hb. rewrite Z.shiftr_div_pow2 by lia. change 15 with (Z.ones 4).
  rewrite Z.land_ones by lia. change (2 ^ 4) with 16. split; [|apply Z.mod_pos_bound; lia].
  split; [apply Z.div_pos; lia|apply Z.div_lt_upper_bound; lia].
Qed.

Lemma byte_range z : 0 <= byte z < 256.
Proof.
  unfold byte. change 255 with (Z.ones 8). rewrite Z.land_ones by lia.
  apply Z.mod_pos_bound. lia.
Qed.

Definition digits_of (l : list Z) : list Z := flat_map (fun b => [Z.shiftr b 4; Z.land b 15]) l.

Fixpoint digits_text (l : list Z) : string :=
  match l with [] => "" | d :: rest => String (hex_char d) (digits_text rest) end.

Lemma hex_encode_digits l : hex_encode l = digits_text (digits_of l).
Proof. induction l as [|b l IH]; [done|]. simpl. by rewrite IH. Qed.

Lemma digits_of_range l :
  Forall (fun b => 0 <= b < 256) l -> Forall (fun d => 0 <= d < 16) (digits_of l).
Proof.
  induction 1 as [|b l Hb _ IH]; [constructor|]. simpl.
  destruct (byte_digits b Hb). by do 2 (constructor; [done|]).
Qed.

Lemma length_digits_text l : String.length (digits_text l) = length l.
Proof. induction l as [|d l IH]; [done|]. simpl. by rewrite IH. Qed.

Lemma length_append a b : String.length (a +:+ b) = (String.length a + String.length b)%nat.
Proof. induction a as [|c a IH]; [done|]. simpl. by rewrite IH. Qed.

(** Digits pass the loop over the characters between two separators. *)
Lemma check_digits_text l rest index :
  Forall (fun d => 0 <= d < 16) l ->
  forallb (fun i => negb (is_separator i)) (seq index (length l)) = true ->
  check_characters index (digits_text l +:+ rest) = check_characters (index + length l) rest.
Proof.
  intros Hl. revert index. induction Hl as [|d l Hd _ IH]; intros index Hsep.
  - simpl. by rewrite Nat.add_0_r.
  - simpl in Hsep. apply andb_true_iff in Hsep as [Hi Hsep]. apply negb_true_iff in Hi.
    simpl. rewrite Hi, (hex_char_lower d Hd). simpl. rewrite IH by done. f_equal. lia.
Qed.

Lemma check_separator rest index :
  is_separator index = true ->
  check_characters index ("-" +:+ rest) = check_characters (S index) rest.
Proof. intros Hi. simpl. by rewrite Hi. Qed.

(** Five groups of digits are characters of a canonical payload. *)
Lemma check_groups g1 g2 g3 g4 g5 :
  Forall (fun d => 0 <= d < 16) (g1 ++ g2 ++ g3 ++ g4 ++ g5) ->
  length g1 = 8%nat -> length g2 = 4%nat -> length g3 = 4%nat -> length g4 = 4%nat ->
  length g5 = 12%nat ->
  check_characters 0 (digits_text g1 +:+ "-" +:+ digits_text g2 +:+ "-" +:+ digits_text g3 +:+
    "-" +:+ digits_text g4 +:+ "-" +:+ digits_text g5) = None.
Proof.
  intros H H1 H2 H3 H4 H5. repeat (apply Forall_app in H as [? H]).
  do 4 (rewrite check_digits_text, check_separator;
        [| by rewrite ?H1, ?H2, ?H3, ?H4 | done | by rewrite ?H1, ?H2, ?H3, ?H4]).
  rewrite <- (string_app_nil (digits_text g5)).
  rewrite check_digits_text; [done|done|by rewrite H1, H2, H3, H4, H5].
Qed.

Lemma existsb_hex c l : existsb (Ascii.eqb c) l = true <-> In c l.
Proof.
  rewrite existsb_exists. split.
  - intros (x & Hx & Heq%Ascii.eqb_eq). by subst.
  - intros Hc. exists c. split; [done|]. apply Ascii.eqb_refl.
Qed.

(** Sixteen bytes with the version and the variant in place are a canonical
    payload. *)
Lemma grouped_valid b0 b1 b2 b3 b4 b5 b6 b7 b8 b9 b10 b11 b12 b13 b14 b15 :
  Forall (fun b => 0 <= b < 256) [b0;b1;b2;b3;b4;b5;b6;b7;b8;b9;b10;b11;b12;b13;b14;b15] ->
  Z.shiftr b6 4 = 7 -> 8 <= Z.shiftr b8 4 < 12 ->
  validateUUIDv7 (grouped [b0;b1;b2;b3;b4;b5;b6;b7;b8;b9;b10;b11;b12;b13;b14;b15]) = None.
Proof.
  intros Hall H6 H8. apply digits_of_range in Hall.
  unfold validateUUIDv7, grouped. cbn [take drop].
  rewrite !hex_encode_digits. rewrite check_groups; [|exact Hall|done..].
  assert (In (Z.shiftr b8 4) [8;9;10;11]) as Hin by (simpl; lia).
  cbn [digits_of flat_map app digits_text String.append String.length Nat.eqb negb err_seq].
  unfold has_byte. cbn [String.get]. rewrite H6.
  simpl in Hin. by repeat (destruct Hin as [<-|Hin]).
Qed.

Definition is_byte (b : Z) : Prop := 0 <= b < 256.

Lemma every_byte (P : Z -> bool) :
  forallb P (map Z.of_nat (seq 0 256)) = true -> forall b, is_byte b -> P b = true.
Proof.
  intros H b Hb. rewrite forallb_forall in H. apply H, in_map_iff.
  exists (Z.to_nat b). unfold is_byte in Hb. split; [lia|]. apply in_seq. lia.
Qed.

Lemma stamped_version b : is_byte b -> is_byte (Z.lor (Z.land b 15) 112) /\ Z.shiftr (Z.lor (Z.land b 15) 112) 4 = 7.
Proof.
  intros Hb. eapply (every_byte (fun b => let v := Z.lor (Z.land b 15) 112 in
    (0 <=? v) && (v <? 256) && (Z.shiftr v 4 =? 7))%Z) in Hb; [|reflexivity].
  unfold is_byte. cbn zeta in Hb. to_prop. lia.
Qed.

Lemma stamped_variant b :
  is_byte b -> is_byte (Z.lor (Z.land b 63) 128) /\ 8 <= Z.shiftr (Z.lor (Z.land b 63) 128) 4 < 12.
Proof.
  intros Hb. eapply (every_byte (fun b => let v := Z.lor (Z.land b 63) 128 in
    (0 <=? v) && (v <? 256) && (8 <=? Z.shiftr v 4) && (Z.shiftr v 4 <? 12))%Z) in Hb; [|reflexivity].
  unfold is_byte. cbn zeta in Hb. to_prop. lia.
Qed.

Lemma timestamp_range milliseconds : Forall is_byte (timestamp_bytes milliseconds).
Proof. unfold timestamp_bytes. repeat (constructor; [apply byte_range|]). constructor. Qed.

Lemma newUUIDv7_Ok milliseconds entropy :
  0 <= milliseconds < 2 ^ 48 -> (10 <= length entropy)%nat ->
  newUUIDv7 milliseconds entropy =
    Ok (grouped (timestamp_bytes milliseconds ++ stamp (take 10 entropy))).
Proof.
  intros Hms Hlen. unfold newUUIDv7. change (Z.shiftl 1 48) with (2 ^ 48).
  destruct (Z.ltb_spec milliseconds 0); [lia|].
  destruct (Z.ltb_spec (2 ^ 48 - 1) milliseconds); [lia|]. cbn [orb].
  destruct (Nat.ltb_spec (length entropy) 10); [lia|done].
Qed.

Lemma new_payload_valid milliseconds entropy :
  (10 <= length entropy)%nat -> Forall is_byte entropy ->
  validateUUIDv7 (grouped (timestamp_bytes milliseconds ++ stamp (take 10 entropy))) = None.
Proof.
  intros Hlen He. do 10 (destruct entropy as [|? entropy]; [simpl in Hlen; lia|]).
  repeat (apply Forall_cons in He as [? He]).
  pose proof (timestamp_range milliseconds) as Ht. unfold timestamp_bytes in *.
  repeat (apply Forall_cons in Ht as [? Ht]).
  destruct (stamped_version z) as [? ?]; [done|].
  destruct (stamped_variant z1) as [? ?]; [done|].
  cbn [take stamp map app]. apply grouped_valid; [|done..].
  repeat (constructor; [assumption|]). constructor.
Qed.

Lemma newTypedID_Ok kind milliseconds entropy :
  0 <= milliseconds < 2 ^ 48 -> (10 <= length entropy)%nat -> Forall is_byte entropy ->
  let id := id_prefix kind +:+ "_" +:+
    grouped (timestamp_bytes milliseconds ++ stamp (take 10 entropy)) in
  newTypedID kind milliseconds entropy = Ok id /\ parseTypedID kind id = Ok id.
Proof.
  intros Hms Hlen He id.
  assert (parseTypedID kind id = Ok id) as Hp.
  { apply parseTypedID_Ok. split; [done|]. eexists. split; [done|]. by apply new_payload_valid. }
  split; [|done]. unfold newTypedID. rewrite newUUIDv7_Ok by done.
  cbn [mbind result_bind]. fold id. by rewrite Hp.
Qed.

(** ** Identities sort by the time they were made *)

Lemma compare_common p s t : String.compare (p +:+ s) (p +:+ t) = String.compare s t.
Proof.
  induction p as [|c p IH]; [done|]. simpl.
  assert (Ascii.compare c c = Eq) as ->; [|done].
  unfold Ascii.compare. apply N.compare_refl.
Qed.

Lemma compare_app_Lt s t s' t' :
  String.length s = String.length t -> String.compare s t = Lt ->
  String.compare (s +:+ s') (t +:+ t') = Lt.
Proof.
  revert t. induction s as [|c s IH]; intros [|d t]; simpl; try done.
  destruct (Ascii.compare c d); [|done..]. intros [= Hlen]. by apply IH.
Qed.

Fixpoint digits_value (l : list Z) : Z :=
  match l with [] => 0 | d :: rest => d * 16 ^ Z.of_nat (length rest) + digits_value rest end.

Lemma digits_value_range l :
  Forall (fun d => 0 <= d < 16) l -> 0 <= digits_value l < 16 ^ Z.of_nat (length l).
Proof.
  induction 1 as [|d l Hd _ IH]; [simpl; lia|]. simpl length. rewrite Nat2Z.inj_succ.
  rewrite Z.pow_succ_r by lia. simpl. nia.
Qed.

Lemma hex_char_compare d1 d2 :
  0 <= d1 < 16 -> 0 <= d2 < 16 -> Ascii.compare (hex_char d1) (hex_char d2) = (d1 ?= d2)%Z.
Proof.
  intros H1 H2.
  assert (is_byte (d1 * 16 + d2)) as H by (unfold is_byte; lia).
  eapply (every_byte (fun b => bool_decide
    (Ascii.compare (hex_char (b / 16)) (hex_char (b mod 16)) = (b / 16 ?= b mod 16)%Z))) in H;
    [|vm_compute; reflexivity].
  apply bool_decide_eq_true in H.
  assert ((d1 * 16 + d2) / 16 = d1) as Hq by (rewrite Z.div_add_l by lia; rewrite Z.div_small; lia).
  assert ((d1 * 16 + d2) mod 16 = d2) as Hr.
  { rewrite Z.add_comm, Z.mod_add by lia. apply Z.mod_small. lia. }
  by rewrite Hq, Hr in H.
Qed.

Lemma compare_digits l1 l2 :
  Forall (fun d => 0 <= d < 16) l1 -> Forall (fun d => 0 <= d < 16) l2 ->
  length l1 = length l2 -> digits_value l1 < digits_value l2 ->
  String.compare (digits_text l1) (digits_text l2) = Lt.
Proof.
  intros H1. revert l2. induction H1 as [|d1 l1 Hd1 Hl1 IH]; intros l2 H2 Hlen Hlt.
  - destruct l2; [simpl in Hlt; lia|done].
  - destruct H2 as [|d2 l2 Hd2 Hl2]; [done|]. injection Hlen as Hlen. simpl in *.
    rewrite hex_char_compare by done.
    pose proof (digits_value_range l1 Hl1). pose proof (digits_value_range l2 Hl2).
    rewrite Hlen in *. destruct (Z.compare_spec d1 d2); [|done|nia].
    subst. apply IH; [done..|lia].
Qed.

Lemma digits_of_byte b rest :
  is_byte b ->
  digits_value (digits_of (b :: rest)) =
    b * 256 ^ Z.of_nat (length rest) + digits_value (digits_of rest).
Proof.
  intros Hb. simpl.
  assert (length (digits_of rest) = (2 * length rest)%nat) as ->.
  { unfold digits_of. induction rest as [|c rest IH]; [done|]. simpl in *. lia. }
  rewrite Nat2Z.inj_succ, Z.pow_succ_r, Nat2Z.inj_mul, Z.pow_mul_r by lia.
  change (16 ^ Z.of_nat 2) with 256. change 15 with (Z.ones 4).
  rewrite Z.shiftr_div_pow2, Z.land_ones by lia. change (2 ^ 4) with 16.
  rewrite (Z.div_mod b 16) at 3 by lia. ring.
Qed.

Lemma byte_mod z k : 0 <= k -> byte (Z.shiftr z k) = (z / 2 ^ k) mod 256.
Proof.
  intros Hk. unfold byte. change 255 with (Z.ones 8).
  by rewrite Z.land_ones, Z.shiftr_div_pow2 by lia.
Qed.

Lemma timestamp_values milliseconds :
  0 <= milliseconds < 2 ^ 48 ->
  digits_value (digits_of (take 4 (timestamp_bytes milliseconds))) = milliseconds / 2 ^ 16 /\
  digits_value (digits_of (drop 4 (timestamp_bytes milliseconds))) = milliseconds mod 2 ^ 16.
Proof.
  intros Hms. unfold timestamp_bytes. cbn [map take drop].
  rewrite !digits_of_byte by apply byte_range. rewrite !byte_mod by lia. simpl. split.
  - Z.to_euclidean_division_equations. lia.
  - Z.to_euclidean_division_equations. lia.
Qed.

Lemma timestamp_split milliseconds rest :
  grouped (timestamp_bytes milliseconds ++ rest) =
    digits_text (digits_of (take 4 (timestamp_bytes milliseconds))) +:+ "-" +:+
    digits_text (digits_of (drop 4 (timestamp_bytes milliseconds))) +:+ "-" +:+
    (let part from count := hex_encode (take count (drop from rest)) in
     (part 0 2 +:+ "-" +:+ part 2 2 +:+ "-" +:+ part 4 6)%nat).
Proof. unfold grouped. cbn zeta. by rewrite <- !hex_encode_digits. Qed.

Lemma payload_order m1 m2 r1 r2 :
  0 <= m1 -> m1 < m2 -> m2 < 2 ^ 48 ->
  String.compare (grouped (timestamp_bytes m1 ++ r1)) (grouped (timestamp_bytes m2 ++ r2)) = Lt.
Proof.
  intros H0 Hlt H2. rewrite !timestamp_split.
  destruct (timestamp_values m1) as [Hh1 Hl1]; [lia|].
  destruct (timestamp_values m2) as [Hh2 Hl2]; [lia|].
  assert (forall m, Forall (fun d => 0 <= d < 16) (digits_of (take 4 (timestamp_bytes m)))) as Rh.
  { intros m. apply digits_of_range, Forall_take, timestamp_range. }
  assert (forall m, Forall (fun d => 0 <= d < 16) (digits_of (drop 4 (timestamp_bytes m)))) as Rl.
  { intros m. apply digits_of_range, Forall_drop, timestamp_range. }
  assert (m1 / 2 ^ 16 < m2 / 2 ^ 16 \/ m1 / 2 ^ 16 = m2 / 2 ^ 16 /\ m1 mod 2 ^ 16 < m2 mod 2 ^ 16)
    as [Hd|[Hd Hm]] by (Z.to_euclidean_division_equations; lia).
  - apply compare_app_Lt; [by rewrite !length_digits_text|]. apply compare_digits; [apply Rh..|done|].
    by rewrite Hh1, Hh2.
  - assert (digits_text (digits_of (take 4 (timestamp_bytes m1))) =
            digits_text (digits_of (take 4 (timestamp_bytes m2)))) as ->.
    { unfold timestamp_bytes. cbn [map take]. do 2 f_equal.
      rewrite !byte_mod by lia.
      assert (forall k, 16 <= k -> m1 / 2 ^ k = m2 / 2 ^ k) as Hk; [|by rewrite !Hk by lia].
      intros k Hk. replace (2 ^ k) with (2 ^ 16 * 2 ^ (k - 16)) by (rewrite <- Z.pow_add_r by lia; f_equal; lia).
      rewrite <- !Z.div_div by lia. by rewrite Hd. }
    rewrite !compare_common.
    apply compare_app_Lt; [by rewrite !length_digits_text|]. apply compare_digits; [apply Rl..|done|].
    by rewrite Hl1, Hl2.
Qed.

(** [C33] A generated identity is canonical. Whatever the entropy, an identity
    made within the range of 48-bit milliseconds is accepted by its kind and by
    no other, and what it is written as, in a column or as text, is read back
    as it was. *)
Theorem new_identity_is_canonical kind milliseconds entropy :
  0 <= milliseconds < 2 ^ 48 -> (10 <= length entropy)%nat -> Forall is_byte entropy ->
  exists id,
    newTypedID kind milliseconds entropy = Ok id /\
    (forall other, is_ok (parseTypedID other id) = bool_decide (other = kind)) /\
    Value kind id = Ok id /\ Scan kind (SqlString id) = (id, None) /\
    MarshalText kind id = Ok id /\ UnmarshalText kind id = (id, None).
Proof.
  intros Hms Hlen He. destruct (newTypedID_Ok kind milliseconds entropy Hms Hlen He) as [Hn Hp].
  eexists. split; [exact Hn|]. unfold Value, MarshalText, Scan, UnmarshalText. rewrite Hp.
  split; [|done]. intros other. case_bool_decide as Hk; [by subst; rewrite Hp|].
  destruct (parseTypedID other _) eqn:Ho; [done|]. by destruct Hk; eapply kinds_are_disjoint.
Qed.

Lemma new_identity_is_canonical_witness :
  newTypedID budgetIDKind 1700000000000 (repeat 255 10) =
    Ok "bdg_018bcfe5-6800-7fff-bfff-ffffffffffff" /\
  exists id, newTypedID budgetIDKind 1700000000000 (repeat 255 10) = Ok id /\
    Scan budgetIDKind (SqlString id) = (id, None).
Proof.
  split; [vm_compute; reflexivity|].
  destruct (new_identity_is_canonical budgetIDKind 1700000000000 (repeat 255 10))
    as (id & Hid & _ & _ & Hs & _); [lia|simpl; lia| |].
  - repeat (constructor; [unfold is_byte; lia|]). constructor.
  - exists id. split; assumption.
Defined.

(** Identities of one kind sort by the time they were made, whatever
    entropy they were made with: the earlier one is the smaller text. *)
Theorem identities_sort_by_time kind m1 m2 e1 e2 id1 id2 :
  newTypedID kind m1 e1 = Ok id1 -> newTypedID kind m2 e2 = Ok id2 -> m1 < m2 ->
  String.ltb id1 id2 = true.
Proof.
  assert (forall m e id, newTypedID kind m e = Ok id ->
    0 <= m < 2 ^ 48 /\ id = id_prefix kind +:+ "_" +:+
      grouped (timestamp_bytes m ++ stamp (take 10 e))) as Hnew.
  { intros m e id H. unfold newTypedID in H. apply bind_Ok in H as (v & Hv & H).
    unfold newUUIDv7 in Hv. change (Z.shiftl 1 48) with (2 ^ 48) in Hv. if_cases Hv. injection Hv as <-.
    destruct (parseTypedID kind _) eqn:Hp; [done|]. injection H as <-.
    apply parseTypedID_Ok in Hp as [-> _]. to_prop. split; [lia|done]. }
  intros [H1 ->]%Hnew [H2 ->]%Hnew Hlt. unfold String.ltb.
  rewrite !compare_common, payload_order; [done|lia..].
Qed.

Lemma identities_sort_by_time_witness :
  exists id1 id2,
    newTypedID eventIDKind 1700000000000 (repeat 255 10) = Ok id1 /\
    newTypedID eventIDKind 1700000000001 (repeat 0 10) = Ok id2 /\
    String.ltb id1 id2 = true.
Proof.
  destruct (newTypedID eventIDKind 1700000000000 (repeat 255 10)) as [|id1] eqn:H1;
    [vm_compute in H1; discriminate H1|].
  destruct (newTypedID eventIDKind 1700000000001 (repeat 0 10)) as [|id2] eqn:H2;
    [vm_compute in H2; discriminate H2|].
  exists id1, id2. split; [reflexivity|]. split; [reflexivity|].
  apply (identities_sort_by_time _ _ _ _ _ _ _ H1 H2). lia.
Defined.
