(* ===== verification/BudgetSchema.v ===== *)
(** * The tables of the budget ledger (src/migrations/000001, 000010, 000012, 000013)

    The tables the budget repositories read and write, as lists of rows in the
    order of insertion, with the constraints that SQLite checks on every
    insert and update: CHECK, PRIMARY KEY, UNIQUE, foreign keys, and the
    triggers. An INTEGER column of flags is a boolean, a nullable column an
    option. A statement that breaks a constraint fails with SQLite's extended
    code and changes nothing; an argument the driver cannot bind fails before
    SQLite sees it. [json_valid] is SQLite's function of that name. *)

From Stdlib Require Import Ascii.
From S2P Require Import Prelude GoText GoErrors PolicyValues Identity.
Open Scope string_scope.
Open Scope list_scope.
Open Scope go_scope.

(** ** Rows *)

Record budget_row := {
  b_id : ID;
  b_task_id : ID;
  b_currency : string;
  b_warning_cost : Z;
  b_hard_cost : Z;
  b_warning_tokens : Z;
  b_hard_tokens : Z;
  b_warning_wall : Z;
  b_hard_wall : Z;
  b_maximum_provider_calls : Z;
  b_maximum_repair_rounds : Z;
  b_maximum_tool_executions : Z;
  b_reserved_cost : Z;
  b_actual_cost : Z;
  b_actual_tokens : Z;
  b_created_at : Z;
  b_updated_at : Z;
  b_revision : Z;
}.

Record limit_row := {
  l_budget_id : ID;
  l_revision : Z;
  l_warning_numerator : Z;
  l_warning_denominator : Z;
  l_hard_numerator : Z;
  l_hard_denominator : Z;
  l_currency : string;
  l_warning_tokens : Z;
  l_hard_tokens : Z;
  l_approval_id : option ID;
  l_authority_kind : string;
  l_actor_kind : string;
  l_actor_reference : string;
  l_reason : string;
  l_idempotency_key : string;
  l_provenance : string;
  l_created_at : Z;
}.

Record reservation_row := {
  r_id : string;
  r_budget_id : ID;
  r_task_id : ID;
  r_operation_id : string;
  r_attempt_id : option string;
  r_retry_ordinal : Z;
  r_category : string;
  r_provider_call_slots : Z;
  r_state : string;
  r_bound_numerator : Z;
  r_bound_denominator : Z;
  r_currency : string;
  r_token_bound_known : bool;
  r_token_bound : option Z;
  r_idempotency_key : string;
  r_provenance : string;
  r_settlement_reason : option string;
  r_settlement_provenance : option string;
  r_created_at : Z;
  r_settled_at : option Z;
  r_revision : Z;
}.

Record posting_row := {
  p_id : string;
  p_reservation_id : string;
  p_budget_id : ID;
  p_task_id : ID;
  p_category : string;
  p_actual_slots : Z;
  p_cost_known : bool;
  p_cost_numerator : option Z;
  p_cost_denominator : option Z;
  p_charged_numerator : Z;
  p_charged_denominator : Z;
  p_currency : string;
  p_tokens_known : bool;
  p_actual_tokens : option Z;
  p_charged_tokens : option Z;
  p_idempotency_key : string;
  p_provenance : string;
  p_created_at : Z;
}.

Record intent_row := {
  i_id : string;
  i_reservation_id : string;
  i_budget_id : ID;
  i_task_id : ID;
  i_actual_slots : Z;
  i_cost_known : bool;
  i_cost_numerator : option Z;
  i_cost_denominator : option Z;
  i_currency : string;
  i_tokens_known : bool;
  i_actual_tokens : option Z;
  i_reason : string;
  i_idempotency_key : string;
  i_provenance : string;
  i_created_at : Z;
}.

Record event_row := {
  e_id : ID;
  e_budget_id : ID;
  e_task_id : ID;
  e_limit_revision : Z;
  e_type : string;
  e_payload : string;
  e_idempotency_key : string;
  e_created_at : Z;
}.

Record snapshot_row := {
  s_budget_id : ID;
  s_revision : Z;
  s_task_id : ID;
  s_limit_revision : Z;
  s_currency : string;
  s_reserved_numerator : Z;
  s_reserved_denominator : Z;
  s_charged_numerator : Z;
  s_charged_denominator : Z;
  s_actual_cost_known : bool;
  s_actual_numerator : Z;
  s_actual_denominator : Z;
  s_cost_unknown : bool;
  s_reserved_tokens : Z;
  s_charged_tokens : Z;
  s_actual_tokens_known : bool;
  s_actual_tokens : Z;
  s_tokens_unknown : bool;
  s_model_reservations : Z;
  s_tool_reservations : Z;
  s_infrastructure_reservations : Z;
  s_provider_call_slots : Z;
  s_warning_reached : bool;
  s_reconciliation_pending : bool;
  s_hard_cap_reached : bool;
  s_created_at : Z;
}.

(** [run_id] is NULL in the rows the ledger writes. *)
Record task_event_row := {
  te_id : ID;
  te_task_id : ID;
  te_sequence : Z;
  te_type : string;
  te_payload : string;
  te_idempotency_key : string;
  te_created_at : Z;
}.

Record approval_row := {
  a_id : ID;
  a_task_id : ID;
  a_run_id : option ID;
  a_state : string;
  a_scope : string;
  a_request_reason : string;
  a_resolution_reason : option string;
  a_idempotency_key : string;
  a_requested_at : Z;
  a_decided_at : option Z;
  a_expires_at : option Z;
  a_revision : Z;
}.

Record adjustment_row := {
  pa_budget_id : ID;
  pa_revision : Z;
  pa_task_id : ID;
  pa_previous_limit_revision : Z;
  pa_adjusted_limit_revision : Z;
  pa_previous_json : string;
  pa_adjusted_json : string;
  pa_actor : string;
  pa_authority : string;
  pa_reason : string;
  pa_idempotency_key : string;
  pa_created_at : Z;
}.

(** The tasks with their state, the runs with their task, and the tables. *)
Record db := {
  tasks : list (ID * string);
  runs : list (ID * ID);
  budgets : list budget_row;
  limit_revisions : list limit_row;
  reservations : list reservation_row;
  postings : list posting_row;
  intents : list intent_row;
  budget_events : list event_row;
  snapshots : list snapshot_row;
  task_events : list task_event_row;
  approvals : list approval_row;
  adjustments : list adjustment_row;
}.

Definition set_budgets (d : db) v : db :=
  {| tasks := tasks d; runs := runs d; budgets := v; limit_revisions := limit_revisions d;
     reservations := reservations d; postings := postings d; intents := intents d;
     budget_events := budget_events d; snapshots := snapshots d;
     task_events := task_events d; approvals := approvals d; adjustments := adjustments d |}.
Definition set_limit_revisions (d : db) v : db :=
  {| tasks := tasks d; runs := runs d; budgets := budgets d; limit_revisions := v;
     reservations := reservations d; postings := postings d; intents := intents d;
     budget_events := budget_events d; snapshots := snapshots d;
     task_events := task_events d; approvals := approvals d; adjustments := adjustments d |}.
Definition set_reservations (d : db) v : db :=
  {| tasks := tasks d; runs := runs d; budgets := budgets d; limit_revisions := limit_revisions d;
     reservations := v; postings := postings d; intents := intents d;
     budget_events := budget_events d; snapshots := snapshots d;
     task_events := task_events d; approvals := approvals d; adjustments := adjustments d |}.
Definition set_postings (d : db) v : db :=
  {| tasks := tasks d; runs := runs d; budgets := budgets d; limit_revisions := limit_revisions d;
     reservations := reservations d; postings := v; intents := intents d;
     budget_events := budget_events d; snapshots := snapshots d;
     task_events := task_events d; approvals := approvals d; adjustments := adjustments d |}.
Definition set_intents (d : db) v : db :=
  {| tasks := tasks d; runs := runs d; budgets := budgets d; limit_revisions := limit_revisions d;
     reservations := reservations d; postings := postings d; intents := v;
     budget_events := budget_events d; snapshots := snapshots d;
     task_events := task_events d; approvals := approvals d; adjustments := adjustments d |}.
Definition set_budget_events (d : db) v : db :=
  {| tasks := tasks d; runs := runs d; budgets := budgets d; limit_revisions := limit_revisions d;
     reservations := reservations d; postings := postings d; intents := intents d;
     budget_events := v; snapshots := snapshots d;
     task_events := task_events d; approvals := approvals d; adjustments := adjustments d |}.
Definition set_snapshots (d : db) v : db :=
  {| tasks := tasks d; runs := runs d; budgets := budgets d; limit_revisions := limit_revisions d;
     reservations := reservations d; postings := postings d; intents := intents d;
     budget_events := budget_events d; snapshots := v;
     task_events := task_events d; approvals := approvals d; adjustments := adjustments d |}.
Definition set_task_events (d : db) v : db :=
  {| tasks := tasks d; runs := runs d; budgets := budgets d; limit_revisions := limit_revisions d;
     reservations := reservations d; postings := postings d; intents := intents d;
     budget_events := budget_events d; snapshots := snapshots d;
     task_events := v; approvals := approvals d; adjustments := adjustments d |}.
Definition set_approvals (d : db) v : db :=
  {| tasks := tasks d; runs := runs d; budgets := budgets d; limit_revisions := limit_revisions d;
     reservations := reservations d; postings := postings d; intents := intents d;
     budget_events := budget_events d; snapshots := snapshots d;
     task_events := task_events d; approvals := v; adjustments := adjustments d |}.
Definition set_adjustments (d : db) v : db :=
  {| tasks := tasks d; runs := runs d; budgets := budgets d; limit_revisions := limit_revisions d;
     reservations := reservations d; postings := postings d; intents := intents d;
     budget_events := budget_events d; snapshots := snapshots d;
     task_events := task_events d; approvals := approvals d; adjustments := v |}.

(** ** SQLite's answers *)

Inductive sql_error : Type :=
| Sqlite (code : Z)
| Driver (text : string).

Definition CONSTRAINT_CHECK : Z := 275.
Definition CONSTRAINT_FOREIGNKEY : Z := 787.
Definition CONSTRAINT_PRIMARYKEY : Z := 1555.
Definition CONSTRAINT_TRIGGER : Z := 1811.
Definition CONSTRAINT_UNIQUE : Z := 2067.

(** [database/sql] refuses an unsigned argument with its high bit set. *)
Definition bindable (value : Z) : bool := (value <? 2 ^ 63)%Z.

(** SQLite's [length] of a text: its characters before the first NUL. *)
Fixpoint sql_length_from (skipping : bool) (s : string) : Z :=
  match s with
  | EmptyString => 0
  | String c rest =>
      let n := N_of_ascii c in
      if (n =? 0)%N then 0
      else if skipping && (128 <=? n)%N && (n <? 192)%N then sql_length_from true rest
      else 1 + sql_length_from (192 <=? n)%N rest
  end.
Definition sql_length (s : string) : Z := sql_length_from false s.

Definition between (low high value : Z) : bool := ((low <=? value) && (value <=? high))%Z.
Definition text_within (low high : Z) (s : string) : bool := between low high (sql_length s).

Definition glob_currency (s : string) : bool := is_ok (ParseCurrencyCode s).

Definition one_of (allowed : list string) (s : string) : bool := existsb (String.eqb s) allowed.

(** A statement runs its checks in order and stops at the first that fails. *)
Fixpoint check_all (checks : list (bool * Z)) : option sql_error :=
  match checks with
  | [] => None
  | (holds, code) :: rest => if holds then check_all rest else Some (Sqlite code)
  end.

Section Schema.
Context (json_valid : string -> bool).

Definition json_text (s : string) : bool := text_within 2 65536 s && json_valid s.

Definition budget_checks (r : budget_row) : bool :=
  glob_currency (b_currency r) && (0 <=? b_warning_cost r)%Z &&
  (b_warning_cost r <=? b_hard_cost r)%Z && (0 <=? b_warning_tokens r)%Z &&
  (b_warning_tokens r <=? b_hard_tokens r)%Z && (0 <=? b_warning_wall r)%Z &&
  (b_warning_wall r <=? b_hard_wall r)%Z && (0 <=? b_maximum_provider_calls r)%Z &&
  (0 <=? b_maximum_repair_rounds r)%Z && (0 <=? b_maximum_tool_executions r)%Z &&
  (0 <=? b_reserved_cost r)%Z && (0 <=? b_actual_cost r)%Z && (0 <=? b_actual_tokens r)%Z &&
  (0 <=? b_created_at r)%Z && (b_created_at r <=? b_updated_at r)%Z && (0 <=? b_revision r)%Z &&
  (b_reserved_cost r + b_actual_cost r <=? b_hard_cost r)%Z.

Definition limit_checks (r : limit_row) : bool :=
  (0 <=? l_revision r)%Z && (0 <=? l_warning_numerator r)%Z && (0 <? l_warning_denominator r)%Z &&
  (0 <=? l_hard_numerator r)%Z && (0 <? l_hard_denominator r)%Z && glob_currency (l_currency r) &&
  (0 <=? l_warning_tokens r)%Z && (l_warning_tokens r <=? l_hard_tokens r)%Z &&
  one_of ["initial-policy"; "preapproval-user-adjustment"; "user-approval"] (l_authority_kind r) &&
  one_of ["system"; "user"; "coordinator"] (l_actor_kind r) &&
  text_within 1 255 (l_actor_reference r) && text_within 1 2048 (l_reason r) &&
  text_within 1 255 (l_idempotency_key r) && json_text (l_provenance r) &&
  (0 <=? l_created_at r)%Z &&
  (one_of ["initial-policy"; "preapproval-user-adjustment"] (l_authority_kind r) &&
     bool_decide (l_approval_id r = None) ||
   (l_authority_kind r =? "user-approval") && bool_decide (l_approval_id r <> None)).

Definition null_or (check : string -> bool) (o : option string) : bool :=
  match o with None => true | Some s => check s end.

Definition reservation_checks (r : reservation_row) : bool :=
  text_within 1 255 (r_id r) && text_within 1 255 (r_operation_id r) &&
  null_or (text_within 1 255) (r_attempt_id r) && (0 <=? r_retry_ordinal r)%Z &&
  one_of ["model"; "tool"; "infrastructure"] (r_category r) &&
  (0 <=? r_provider_call_slots r)%Z &&
  one_of ["active"; "committed"; "released"] (r_state r) &&
  (0 <=? r_bound_numerator r)%Z && (0 <? r_bound_denominator r)%Z &&
  glob_currency (r_currency r) &&
  match r_token_bound r with Some tokens => (0 <=? tokens)%Z | None => true end &&
  text_within 1 255 (r_idempotency_key r) && json_text (r_provenance r) &&
  null_or (text_within 1 2048) (r_settlement_reason r) &&
  null_or json_text (r_settlement_provenance r) &&
  (0 <=? r_created_at r)%Z &&
  match r_settled_at r with Some at_ => (r_created_at r <=? at_)%Z | None => true end &&
  (0 <=? r_revision r)%Z &&
  bool_decide (r_token_bound_known r = bool_decide (r_token_bound r <> None)) &&
  (if r_category r =? "model" then (1 <=? r_provider_call_slots r)%Z
   else (r_provider_call_slots r =? 0)%Z) &&
  bool_decide ((r_state r = "active") <-> (r_settled_at r = None)).

(** The CHECK over a cost that may be unknown. *)
Definition cost_columns (known : bool) (numerator denominator : option Z) : bool :=
  match known, numerator, denominator with
  | false, None, None => true
  | true, Some n, Some d => (0 <=? n)%Z && (0 <? d)%Z
  | _, _, _ => false
  end.

Definition token_columns (known : bool) (tokens : option Z) : bool :=
  match tokens with Some t => known && (0 <=? t)%Z | None => negb known end.

Definition nonnegative (o : option Z) : bool :=
  match o with Some t => (0 <=? t)%Z | None => true end.

Definition posting_checks (r : posting_row) : bool :=
  text_within 1 255 (p_id r) && one_of ["model"; "tool"; "infrastructure"] (p_category r) &&
  (0 <=? p_charged_numerator r)%Z && (0 <? p_charged_denominator r)%Z &&
  glob_currency (p_currency r) && nonnegative (p_charged_tokens r) &&
  text_within 1 255 (p_idempotency_key r) && json_text (p_provenance r) &&
  (0 <=? p_created_at r)%Z &&
  cost_columns (p_cost_known r) (p_cost_numerator r) (p_cost_denominator r) &&
  token_columns (p_tokens_known r) (p_actual_tokens r) &&
  between 0 4294967295 (p_actual_slots r).

Definition intent_checks (r : intent_row) : bool :=
  text_within 1 255 (i_id r) && glob_currency (i_currency r) &&
  text_within 1 2048 (i_reason r) && text_within 1 255 (i_idempotency_key r) &&
  json_text (i_provenance r) && (0 <=? i_created_at r)%Z &&
  cost_columns (i_cost_known r) (i_cost_numerator r) (i_cost_denominator r) &&
  token_columns (i_tokens_known r) (i_actual_tokens r) &&
  between 0 4294967295 (i_actual_slots r).

Definition event_checks (r : event_row) : bool :=
  text_within 1 255 (e_id r) && (0 <=? e_limit_revision r)%Z &&
  one_of ["warning-cost"; "warning-tokens"; "hard-cap-cost"; "hard-cap-tokens";
          "accounting-unknown"; "reconciliation-pending"; "limit-raised"] (e_type r) &&
  json_text (e_payload r) && text_within 1 255 (e_idempotency_key r) && (0 <=? e_created_at r)%Z.

Definition snapshot_checks (r : snapshot_row) : bool :=
  (0 <=? s_revision r)%Z && (0 <=? s_limit_revision r)%Z && glob_currency (s_currency r) &&
  (0 <=? s_reserved_numerator r)%Z && (0 <? s_reserved_denominator r)%Z &&
  (0 <=? s_charged_numerator r)%Z && (0 <? s_charged_denominator r)%Z &&
  (0 <=? s_actual_numerator r)%Z && (0 <? s_actual_denominator r)%Z &&
  (0 <=? s_reserved_tokens r)%Z && (0 <=? s_charged_tokens r)%Z && (0 <=? s_actual_tokens r)%Z &&
  (0 <=? s_model_reservations r)%Z && (0 <=? s_tool_reservations r)%Z &&
  (0 <=? s_infrastructure_reservations r)%Z && (0 <=? s_provider_call_slots r)%Z &&
  (0 <=? s_created_at r)%Z.

Definition task_event_checks (r : task_event_row) : bool :=
  (1 <=? te_sequence r)%Z && text_within 1 255 (te_type r) && json_valid (te_payload r) &&
  text_within 1 255 (te_idempotency_key r) && (0 <=? te_created_at r)%Z.

Definition not_before (start : Z) (o : option Z) : bool :=
  match o with Some t => (start <=? t)%Z | None => true end.

Definition approval_checks (r : approval_row) : bool :=
  one_of ["pending"; "granted"; "denied"; "expired"; "cancelled"] (a_state r) &&
  text_within 1 1024 (a_scope r) && text_within 1 2048 (a_request_reason r) &&
  text_within 1 255 (a_idempotency_key r) && (0 <=? a_requested_at r)%Z &&
  not_before (a_requested_at r) (a_decided_at r) &&
  not_before (a_requested_at r) (a_expires_at r) && (0 <=? a_revision r)%Z.

Definition adjustment_checks (r : adjustment_row) : bool :=
  (1 <=? pa_revision r)%Z && (0 <=? pa_previous_limit_revision r)%Z &&
  (pa_adjusted_limit_revision r =? pa_previous_limit_revision r + 1)%Z &&
  json_text (pa_previous_json r) && json_text (pa_adjusted_json r) &&
  text_within 1 512 (pa_actor r) && text_within 1 512 (pa_authority r) &&
  text_within 1 512 (pa_reason r) && text_within 1 255 (pa_idempotency_key r) &&
  (0 <=? pa_created_at r)%Z.

(** ** Inserts *)

Definition task_exists (d : db) (id : ID) : bool := existsb (fun t => t.1 =? id) (tasks d).
Definition budget_exists (d : db) (id : ID) : bool := existsb (fun b => b_id b =? id) (budgets d).
Definition reservation_exists (d : db) (id : string) : bool :=
  existsb (fun r => r_id r =? id) (reservations d).
Definition approval_exists (d : db) (id : ID) : bool :=
  existsb (fun a => a_id a =? id) (approvals d).

Definition insert_limit (d : db) (r : limit_row) : result sql_error db :=
  check_all
    [ (limit_checks r, CONSTRAINT_CHECK);
      (negb (existsb (fun o => (l_budget_id o =? l_budget_id r) && (l_revision o =? l_revision r)%Z)
               (limit_revisions d)), CONSTRAINT_PRIMARYKEY);
      (negb (existsb (fun o => (l_budget_id o =? l_budget_id r) &&
                               (l_idempotency_key o =? l_idempotency_key r))
               (limit_revisions d)), CONSTRAINT_UNIQUE);
      (match l_approval_id r with
       | None => true
       | Some a => negb (existsb (fun o => bool_decide (l_approval_id o = Some a))
                           (limit_revisions d))
       end, CONSTRAINT_UNIQUE);
      (budget_exists d (l_budget_id r), CONSTRAINT_FOREIGNKEY);
      (match l_approval_id r with None => true | Some a => approval_exists d a end,
       CONSTRAINT_FOREIGNKEY) ] ;!
  Ok (set_limit_revisions d (limit_revisions d ++ [r])).

Definition insert_reservation (d : db) (r : reservation_row) : result sql_error db :=
  check_all
    [ (reservation_checks r, CONSTRAINT_CHECK);
      (negb (reservation_exists d (r_id r)), CONSTRAINT_PRIMARYKEY);
      (negb (existsb (fun o => (r_budget_id o =? r_budget_id r) &&
                               (r_idempotency_key o =? r_idempotency_key r))
               (reservations d)), CONSTRAINT_UNIQUE);
      (negb (existsb (fun o => (r_budget_id o =? r_budget_id r) &&
                               (r_operation_id o =? r_operation_id r) &&
                               (r_retry_ordinal o =? r_retry_ordinal r)%Z &&
                               (r_category o =? r_category r))
               (reservations d)), CONSTRAINT_UNIQUE);
      (budget_exists d (r_budget_id r), CONSTRAINT_FOREIGNKEY);
      (task_exists d (r_task_id r), CONSTRAINT_FOREIGNKEY) ] ;!
  Ok (set_reservations d (reservations d ++ [r])).

Definition insert_posting (d : db) (r : posting_row) : result sql_error db :=
  check_all
    [ (posting_checks r, CONSTRAINT_CHECK);
      (negb (existsb (fun o => p_id o =? p_id r) (postings d)), CONSTRAINT_PRIMARYKEY);
      (negb (existsb (fun o => p_reservation_id o =? p_reservation_id r) (postings d)),
       CONSTRAINT_UNIQUE);
      (negb (existsb (fun o => (p_budget_id o =? p_budget_id r) &&
                               (p_idempotency_key o =? p_idempotency_key r))
               (postings d)), CONSTRAINT_UNIQUE);
      (reservation_exists d (p_reservation_id r), CONSTRAINT_FOREIGNKEY);
      (budget_exists d (p_budget_id r), CONSTRAINT_FOREIGNKEY);
      (task_exists d (p_task_id r), CONSTRAINT_FOREIGNKEY) ] ;!
  Ok (set_postings d (postings d ++ [r])).

Definition insert_intent (d : db) (r : intent_row) : result sql_error db :=
  check_all
    [ (intent_checks r, CONSTRAINT_CHECK);
      (negb (existsb (fun o => i_id o =? i_id r) (intents d)), CONSTRAINT_PRIMARYKEY);
      (negb (existsb (fun o => i_reservation_id o =? i_reservation_id r) (intents d)),
       CONSTRAINT_UNIQUE);
      (negb (existsb (fun o => (i_budget_id o =? i_budget_id r) &&
                               (i_idempotency_key o =? i_idempotency_key r))
               (intents d)), CONSTRAINT_UNIQUE);
      (reservation_exists d (i_reservation_id r), CONSTRAINT_FOREIGNKEY);
      (budget_exists d (i_budget_id r), CONSTRAINT_FOREIGNKEY);
      (task_exists d (i_task_id r), CONSTRAINT_FOREIGNKEY) ] ;!
  Ok (set_intents d (intents d ++ [r])).

(** [ON CONFLICT(budget_id, limit_revision, event_type) DO NOTHING]: the
    conflict target is checked before the other unique indexes. The boolean is
    [RowsAffected]. *)
Definition insert_event (d : db) (r : event_row) : result sql_error (bool * db) :=
  check_all [(event_checks r, CONSTRAINT_CHECK)] ;!
  if existsb (fun o => (e_budget_id o =? e_budget_id r) &&
                       (e_limit_revision o =? e_limit_revision r)%Z && (e_type o =? e_type r))
       (budget_events d) then Ok (false, d)
  else check_all
    [ (negb (existsb (fun o => e_id o =? e_id r) (budget_events d)), CONSTRAINT_PRIMARYKEY);
      (negb (existsb (fun o => (e_budget_id o =? e_budget_id r) &&
                               (e_idempotency_key o =? e_idempotency_key r))
               (budget_events d)), CONSTRAINT_UNIQUE);
      (budget_exists d (e_budget_id r), CONSTRAINT_FOREIGNKEY);
      (task_exists d (e_task_id r), CONSTRAINT_FOREIGNKEY) ] ;!
  Ok (true, set_budget_events d (budget_events d ++ [r])).

Definition insert_snapshot (d : db) (r : snapshot_row) : result sql_error db :=
  check_all
    [ (snapshot_checks r, CONSTRAINT_CHECK);
      (negb (existsb (fun o => (s_budget_id o =? s_budget_id r) && (s_revision o =? s_revision r)%Z)
               (snapshots d)), CONSTRAINT_PRIMARYKEY);
      (budget_exists d (s_budget_id r), CONSTRAINT_FOREIGNKEY);
      (task_exists d (s_task_id r), CONSTRAINT_FOREIGNKEY) ] ;!
  Ok (set_snapshots d (snapshots d ++ [r])).

Definition insert_task_event (d : db) (r : task_event_row) : result sql_error db :=
  check_all
    [ (task_event_checks r, CONSTRAINT_CHECK);
      (negb (existsb (fun o => te_id o =? te_id r) (task_events d)), CONSTRAINT_PRIMARYKEY);
      (negb (existsb (fun o => (te_task_id o =? te_task_id r) &&
                               (te_sequence o =? te_sequence r)%Z) (task_events d)),
       CONSTRAINT_UNIQUE);
      (negb (existsb (fun o => (te_task_id o =? te_task_id r) &&
                               (te_idempotency_key o =? te_idempotency_key r)) (task_events d)),
       CONSTRAINT_UNIQUE);
      (task_exists d (te_task_id r), CONSTRAINT_FOREIGNKEY) ] ;!
  Ok (set_task_events d (task_events d ++ [r])).

Definition run_exists (d : db) (id : ID) : bool := existsb (fun t => t.1 =? id) (runs d).

Definition insert_approval (d : db) (r : approval_row) : result sql_error db :=
  check_all
    [ (approval_checks r, CONSTRAINT_CHECK);
      (negb (approval_exists d (a_id r)), CONSTRAINT_PRIMARYKEY);
      (negb (existsb (fun o => (a_task_id o =? a_task_id r) &&
                               (a_idempotency_key o =? a_idempotency_key r)) (approvals d)),
       CONSTRAINT_UNIQUE);
      (task_exists d (a_task_id r), CONSTRAINT_FOREIGNKEY);
      (match a_run_id r with Some run => run_exists d run | None => true end,
       CONSTRAINT_FOREIGNKEY) ] ;!
  Ok (set_approvals d (approvals d ++ [r])).

Definition limit_exists (d : db) (budget : ID) (revision : Z) : bool :=
  existsb (fun l => (l_budget_id l =? budget) && (l_revision l =? revision)%Z) (limit_revisions d).

Definition insert_adjustment (d : db) (r : adjustment_row) : result sql_error db :=
  check_all
    [ (adjustment_checks r, CONSTRAINT_CHECK);
      (negb (existsb (fun o => (pa_budget_id o =? pa_budget_id r) &&
                               (pa_revision o =? pa_revision r)%Z) (adjustments d)),
       CONSTRAINT_PRIMARYKEY);
      (negb (existsb (fun o => (pa_budget_id o =? pa_budget_id r) &&
                               (pa_idempotency_key o =? pa_idempotency_key r)) (adjustments d)),
       CONSTRAINT_UNIQUE);
      (budget_exists d (pa_budget_id r), CONSTRAINT_FOREIGNKEY);
      (task_exists d (pa_task_id r), CONSTRAINT_FOREIGNKEY);
      (limit_exists d (pa_budget_id r) (pa_previous_limit_revision r), CONSTRAINT_FOREIGNKEY);
      (limit_exists d (pa_budget_id r) (pa_adjusted_limit_revision r), CONSTRAINT_FOREIGNKEY) ] ;!
  Ok (set_adjustments d (adjustments d ++ [r])).

(** The trigger [budgets_initialize_exact_ledger]: the first limit revision
    and the first snapshot of a budget. *)
Definition initial_limit (r : budget_row) : limit_row :=
  {| l_budget_id := b_id r; l_revision := 0;
     l_warning_numerator := b_warning_cost r; l_warning_denominator := 1;
     l_hard_numerator := b_hard_cost r; l_hard_denominator := 1;
     l_currency := b_currency r; l_warning_tokens := b_warning_tokens r;
     l_hard_tokens := b_hard_tokens r; l_approval_id := None;
     l_authority_kind := "initial-policy"; l_actor_kind := "system";
     l_actor_reference := "fixed-policy"; l_reason := "initial exact budget limit";
     l_idempotency_key := "initial-budget-limit";
     l_provenance := "{" +:+ Quote "schema_version" +:+ ":1," +:+ Quote "source" +:+ ":" +:+
                     Quote "fixed-policy" +:+ "}";
     l_created_at := b_created_at r |}.

Definition initial_snapshot (r : budget_row) : snapshot_row :=
  {| s_budget_id := b_id r; s_revision := b_revision r; s_task_id := b_task_id r;
     s_limit_revision := 0; s_currency := b_currency r;
     s_reserved_numerator := b_reserved_cost r; s_reserved_denominator := 1;
     s_charged_numerator := b_actual_cost r; s_charged_denominator := 1;
     s_actual_cost_known := true; s_actual_numerator := b_actual_cost r;
     s_actual_denominator := 1; s_cost_unknown := false; s_reserved_tokens := 0;
     s_charged_tokens := b_actual_tokens r; s_actual_tokens_known := true;
     s_actual_tokens := b_actual_tokens r; s_tokens_unknown := false;
     s_model_reservations := 0; s_tool_reservations := 0; s_infrastructure_reservations := 0;
     s_provider_call_slots := 0;
     s_warning_reached := (b_warning_cost r <=? b_reserved_cost r + b_actual_cost r)%Z ||
                          (b_warning_tokens r <=? b_actual_tokens r)%Z;
     s_reconciliation_pending := false;
     s_hard_cap_reached := (b_hard_cost r <=? b_reserved_cost r + b_actual_cost r)%Z ||
                           (b_hard_tokens r <=? b_actual_tokens r)%Z;
     s_created_at := b_updated_at r |}.

Definition insert_budget (d : db) (r : budget_row) : result sql_error db :=
  check_all
    [ (budget_checks r, CONSTRAINT_CHECK);
      (negb (budget_exists d (b_id r)), CONSTRAINT_PRIMARYKEY);
      (negb (existsb (fun o => b_task_id o =? b_task_id r) (budgets d)), CONSTRAINT_UNIQUE);
      (task_exists d (b_task_id r), CONSTRAINT_FOREIGNKEY) ] ;!
  d ← insert_limit (set_budgets d (budgets d ++ [r])) (initial_limit r);
  insert_snapshot d (initial_snapshot r).

(** ** Updates *)

(** [UPDATE budgets SET ... WHERE id = ? AND revision = ?]: the row with that
    identity is changed when it has that revision; the number of rows changed
    is 0 or 1, [id] being the primary key. *)
Definition update_budget (d : db) (id : ID) (revision : Z) (change : budget_row -> budget_row)
    : result sql_error (bool * db) :=
  let hit r := (b_id r =? id) && (b_revision r =? revision)%Z in
  if negb (forallb (fun r => negb (hit r) || budget_checks (change r)) (budgets d)) then
    Err (Sqlite CONSTRAINT_CHECK)
  else Ok (existsb hit (budgets d),
           set_budgets d (map (fun r => if hit r then change r else r) (budgets d))).

(** The update of a reservation that is settled, which passes the triggers
    [budget_reservations_identity_immutable] and
    [budget_reservations_transition_guard] because it changes only the columns
    below, of an active row, and counts its revision up. *)
Definition settled_row (state reason provenance : string) (micros : Z) (r : reservation_row)
    : reservation_row :=
  {| r_id := r_id r; r_budget_id := r_budget_id r; r_task_id := r_task_id r;
     r_operation_id := r_operation_id r; r_attempt_id := r_attempt_id r;
     r_retry_ordinal := r_retry_ordinal r; r_category := r_category r;
     r_provider_call_slots := r_provider_call_slots r; r_state := state;
     r_bound_numerator := r_bound_numerator r; r_bound_denominator := r_bound_denominator r;
     r_currency := r_currency r; r_token_bound_known := r_token_bound_known r;
     r_token_bound := r_token_bound r; r_idempotency_key := r_idempotency_key r;
     r_provenance := r_provenance r; r_settlement_reason := Some reason;
     r_settlement_provenance := Some provenance; r_created_at := r_created_at r;
     r_settled_at := Some micros; r_revision := r_revision r + 1 |}.

(** The guard of [budget_reservations_transition_guard]. *)
Definition transition_allowed (old new : reservation_row) : bool :=
  (r_state old =? "active") && one_of ["committed"; "released"] (r_state new) &&
  bool_decide (r_settlement_reason new <> None) &&
  bool_decide (r_settlement_provenance new <> None) &&
  bool_decide (r_settled_at new <> None) && (r_revision new =? r_revision old + 1)%Z.

Definition update_reservation (d : db) (id : string) (revision : Z)
    (change : reservation_row -> reservation_row) : result sql_error (bool * db) :=
  let hit r := (r_id r =? id) && (r_state r =? "active") && (r_revision r =? revision)%Z in
  if negb (forallb (fun r => negb (hit r) || transition_allowed r (change r)) (reservations d)) then
    Err (Sqlite CONSTRAINT_TRIGGER)
  else if negb (forallb (fun r => negb (hit r) || reservation_checks (change r)) (reservations d)) then
    Err (Sqlite CONSTRAINT_CHECK)
  else Ok (existsb hit (reservations d),
           set_reservations d (map (fun r => if hit r then change r else r) (reservations d))).

(** [UPDATE approvals SET ... WHERE id = ? AND state = 'pending' AND revision = ?]. *)
Definition update_approval (d : db) (id : ID) (revision : Z) (change : approval_row -> approval_row)
    : result sql_error (bool * db) :=
  let hit r := (a_id r =? id) && (a_state r =? "pending") && (a_revision r =? revision)%Z in
  if negb (forallb (fun r => negb (hit r) || approval_checks (change r)) (approvals d)) then
    Err (Sqlite CONSTRAINT_CHECK)
  else Ok (existsb hit (approvals d),
           set_approvals d (map (fun r => if hit r then change r else r) (approvals d))).

End Schema.
