(* ===== verification/BudgetSnapshots.v ===== *)
(** * What a budget has spent (src/internal/storage/budget_repository.go)

    Exact costs, the categories of spending and the snapshot of a budget,
    computed from the tables of BudgetSchema.v. A query that orders its rows
    does so here, because the order in which exact costs are added decides
    whether an intermediate sum leaves the range of the columns. Times are
    nanoseconds since the epoch, in UTC. *)

From Stdlib Require Import Ascii QArith.
From S2P Require Import Prelude GoText GoErrors PolicyValues Identity Pricing BudgetSchema.
Open Scope string_scope.
Open Scope list_scope.
Open Scope go_scope.

(** ** Errors (src/internal/storage/errors.go) *)

Definition ErrBusy : string := "database busy".
Definition ErrCorrupt : string := "database corrupt".
Definition ErrConstraint : string := "database constraint".
Definition ErrNotFound : string := "database entity not found".
Definition ErrConflict : string := "database write conflict".
Definition ErrStaleRevision : string := "database entity revision is stale".
Definition ErrBudgetExhausted : string := "task budget exhausted".
Definition ErrBudgetAccountingUnknown : string := "task budget accounting unknown".
Definition ErrBudgetApprovalRequired : string := "task budget approval required".
Definition ErrBudgetReconciliationPending : string := "task budget reconciliation pending".

(** Package [database/sql]'s. *)
Definition ErrNoRows : string := "sql: no rows in result set".

(** [Error] has its kind and its cause: [errors.Is] sees both. *)
Definition typedError (kind operation : string) (cause : error) : error :=
  Wrapped (operation +:+ ": " +:+ kind +:+ ": " +:+ Error cause) [Sentinel kind; cause].

Definition sql_cause (e : sql_error) : error :=
  match e with
  | Sqlite code => Sentinel ("constraint failed (" +:+ fmt_d code +:+ ")")
  | Driver text => Sentinel text
  end.

Definition classifyKind (e : sql_error) : option string :=
  match e with
  | Sqlite code =>
      let primary := Z.land code 255 in
      if (primary =? 5) || (primary =? 6) then Some ErrBusy
      else if (primary =? 11) || (primary =? 26) then Some ErrCorrupt
      else if primary =? 19 then Some ErrConstraint
      else None
  | Driver _ => None
  end%Z.

Definition classify (operation : string) (e : sql_error) : error :=
  match classifyKind e with
  | None => text_cause operation (sql_cause e)
  | Some kind => typedError kind operation (sql_cause e)
  end.

Definition repositoryConstraintKind (e : sql_error) : option string :=
  match e with
  | Sqlite code =>
      if (code =? 1555) || (code =? 2067) then Some ErrConflict
      else if Z.land code 255 =? 19 then Some ErrConstraint
      else None
  | Driver _ => None
  end%Z.

Definition repositoryWriteError (operation : string) (e : sql_error) : error :=
  match repositoryConstraintKind e with
  | Some kind => typedError kind operation (sql_cause e)
  | None => classify operation e
  end.

Definition writing {A} (operation : string) (r : result sql_error A) : result error A :=
  match r with Ok a => Ok a | Err e => Err (repositoryWriteError operation e) end.

(** ** Exact costs *)

Record ExactMinorCost := {
  Numerator : Z;
  Denominator : Z;
  Currency : CurrencyCode;
}.

#[export] Instance ExactMinorCost_eq_dec : EqDecision ExactMinorCost.
Proof. solve_decision. Defined.

(** Euclid's loop on [int64]. Two turns at least halve [right], so 128 turns are
    more than enough (BudgetFacts.v). *)
Fixpoint gcd_loop (fuel : nat) (left right : Z) : Z :=
  match fuel with
  | O => left
  | S fuel => if right =? 0 then left else gcd_loop fuel right (Z.rem left right)
  end%Z.

Definition greatestCommonDivisor (left right : Z) : Z :=
  let g := gcd_loop 128 left right in
  if (g =? 0)%Z then 1 else g.

Definition value_error (e : ValueError) : error := Sentinel (ValueError_Error e).

Definition normalizeExactCost (cost : ExactMinorCost) : result error ExactMinorCost :=
  if (Numerator cost <? 0)%Z || (Denominator cost <=? 0)%Z then
    Err (Sentinel "exact provider cost must be non-negative with a positive denominator")
  else match ParseCurrencyCode (Currency cost) with
  | Err e => Err (value_error e)
  | Ok currency =>
      let divisor := greatestCommonDivisor (Numerator cost) (Denominator cost) in
      Ok {| Numerator := Z.quot (Numerator cost) divisor;
            Denominator := Z.quot (Denominator cost) divisor; Currency := currency |}
  end.

Definition exactCostEqual (left right : option ExactMinorCost) : bool :=
  match left, right with
  | Some l, Some r =>
      match normalizeExactCost l, normalizeExactCost r with
      | Ok l, Ok r => bool_decide (l = r)
      | _, _ => false
      end
  | None, None => true
  | _, _ => false
  end.

Definition exactCostRat (value : ExactMinorCost) : Q := SetFrac (Numerator value) (Denominator value).

Definition exactCostFromRat (currency : CurrencyCode) (value : Q) : result error ExactMinorCost :=
  if (Num value <? 0)%Z || negb (IsInt64 (Num value)) || negb (IsInt64 (Denom value)) then
    Err (Sentinel "exact budget aggregate exceeds storage range")
  else Ok {| Numerator := Num value; Denominator := Denom value; Currency := currency |}.

Definition zeroExactCost (currency : CurrencyCode) : ExactMinorCost :=
  {| Numerator := 0; Denominator := 1; Currency := currency |}.

Definition addExactCosts (left right : ExactMinorCost) : result error ExactMinorCost :=
  if negb (Currency left =? Currency right) then Err (Sentinel "exact budget currencies differ")
  else exactCostFromRat (Currency left) (exactCostRat left + exactCostRat right).

Definition compareExactCosts (left right : ExactMinorCost) : comparison :=
  if negb (Currency left =? Currency right) then String.compare (Currency left) (Currency right)
  else (exactCostRat left ?= exactCostRat right)%Q.

(** [compareExactCosts(left, right) >= 0] and [> 0]. *)
Definition cost_ge (left right : ExactMinorCost) : bool :=
  match compareExactCosts left right with Lt => false | _ => true end.
Definition cost_gt (left right : ExactMinorCost) : bool :=
  match compareExactCosts left right with Gt => true | _ => false end.

Definition subtractExactCostsFloorZero (left right : ExactMinorCost) : ExactMinorCost :=
  if negb (cost_gt left right) then zeroExactCost (Currency left)
  else match exactCostFromRat (Currency left) (exactCostRat left - exactCostRat right) with
       | Err _ => zeroExactCost (Currency left)
       | Ok value => value
       end.

(** ** Categories and snapshots *)

Abbreviation BudgetCostCategory := string (only parsing).
Definition BudgetCostModel : BudgetCostCategory := "model".
Definition BudgetCostTool : BudgetCostCategory := "tool".
Definition BudgetCostInfrastructure : BudgetCostCategory := "infrastructure".

Definition budgetCategoryValid (category : BudgetCostCategory) : bool :=
  (category =? BudgetCostModel) || (category =? BudgetCostTool) ||
  (category =? BudgetCostInfrastructure).

Record BudgetCategorySnapshot := {
  cat_Category : BudgetCostCategory;
  cat_ReservationCount : Z;
  cat_ProviderCallSlots : Z;
  cat_ReservedCost : ExactMinorCost;
  cat_ChargedCost : ExactMinorCost;
  cat_ActualKnownCost : ExactMinorCost;
  cat_CostUnknown : bool;
  cat_ReservedTokens : Z;
  cat_ChargedTokens : Z;
  cat_ActualTokens : Z;
  cat_TokensUnknown : bool;
  cat_ReconciliationPending : bool;
}.

Record BudgetSnapshot := {
  snap_BudgetID : ID;
  snap_TaskID : ID;
  snap_Revision : Z;
  snap_LimitRevision : Z;
  snap_WarningCost : ExactMinorCost;
  snap_HardCost : ExactMinorCost;
  snap_WarningTokens : Z;
  snap_HardTokens : Z;
  snap_ReservedCost : ExactMinorCost;
  snap_ChargedCost : ExactMinorCost;
  snap_ActualKnownCost : ExactMinorCost;
  snap_CostAccountingUnknown : bool;
  snap_RemainingCost : option ExactMinorCost;
  snap_ReservedTokens : Z;
  snap_ChargedTokens : Z;
  snap_ActualTokens : Z;
  snap_TokenAccountingUnknown : bool;
  snap_RemainingTokens : option Z;
  snap_WarningReached : bool;
  snap_HardCapReached : bool;
  snap_ProviderCallSlots : Z;
  snap_ReconciliationPending : bool;
  snap_Categories : list BudgetCategorySnapshot;
  snap_CreatedAt : Z;
}.

(** [time.UnixMicro(microseconds).UTC()] and [UnixMicro()]. *)
Definition repositoryTime (microseconds : Z) : Z := microseconds * 1000.
Definition UnixMicro (time : Z) : Z := time / 1000.

Definition add_u64 (a b : Z) : Z := wrap_uint64 (a + b).
Definition sub_u64 (a b : Z) : Z := wrap_uint64 (a - b).

(** [sql.NullInt64.Int64]: zero for NULL. *)
Definition or_zero (o : option Z) : Z := default 0 o.

Section FoldResult.
Context {E A B : Type} (f : A -> B -> result E A).
(** A loop that returns at its first error. *)
Fixpoint fold_result (l : list B) (a : A) : result E A :=
  match l with
  | [] => Ok a
  | b :: rest => a ← f a b; fold_result rest a
  end.
End FoldResult.

(** [ORDER BY created_at_unix_micros, id]. *)
Definition earlier {A} (key : A -> Z * string) (x y : A) : Prop :=
  (fst (key x) < fst (key y))%Z \/
  fst (key x) = fst (key y) /\ String.leb (snd (key x)) (snd (key y)) = true.

#[export] Instance earlier_dec {A} (key : A -> Z * string) : RelDecision (earlier key).
Proof. unfold earlier. intros x y. apply _. Defined.

Definition by_time {A} (key : A -> Z * string) (l : list A) : list A := merge_sort (earlier key) l.

Definition has_posting (d : db) (reservation : string) : bool :=
  existsb (fun p => p_reservation_id p =? reservation) (postings d).

(** Billed usage that is recorded and not yet posted. *)
Definition is_pending (d : db) (i : intent_row) : bool := negb (has_posting d (i_reservation_id i)).

Definition has_pending_intent (d : db) (reservation : string) : bool :=
  existsb (fun i => (i_reservation_id i =? reservation) && is_pending d i) (intents d).

Definition find_reservation (d : db) (id : string) : option reservation_row :=
  find (fun r => r_id r =? id) (reservations d).

(** The rows of the three queries. *)
Definition active_rows (d : db) (budget : ID) : list reservation_row :=
  by_time (fun r => (r_created_at r, r_id r))
    (filter (fun r => (r_budget_id r =? budget) && (r_state r =? "active") &&
                      negb (has_pending_intent d (r_id r))) (reservations d)).

Definition join_reservation {A} (d : db) (key : A -> string) (l : list A)
    : list (A * reservation_row) :=
  omap (fun a => r ← find_reservation d (key a); Some (a, r)) l.

Definition pending_rows (d : db) (budget : ID) : list (intent_row * reservation_row) :=
  join_reservation d i_reservation_id
    (by_time (fun i => (i_created_at i, i_id i))
      (filter (fun i => (i_budget_id i =? budget) && is_pending d i) (intents d))).

Definition posting_rows (d : db) (budget : ID) : list (posting_row * reservation_row) :=
  join_reservation d p_reservation_id
    (by_time (fun p => (p_created_at p, p_id p))
      (filter (fun p => p_budget_id p =? budget) (postings d))).

(** [coalesce(nullif(actual, 0), reserved)]. *)
Definition slots_or (actual reserved : Z) : Z := if (actual =? 0)%Z then reserved else actual.

Definition category_index (category : string) : option nat :=
  if category =? BudgetCostModel then Some 0%nat
  else if category =? BudgetCostTool then Some 1%nat
  else if category =? BudgetCostInfrastructure then Some 2%nat
  else None.

(** A row is counted in its category. *)
Definition in_category (operation category : string)
    (count : BudgetCategorySnapshot -> result error BudgetCategorySnapshot)
    (categories : list BudgetCategorySnapshot) : result error (list BudgetCategorySnapshot) :=
  match category_index category with
  | None => Err (typedError ErrCorrupt operation (Sentinel "unknown budget category"))
  | Some position =>
      match categories !! position with
      | None => Err (Sentinel "index out of range")
      | Some item => item ← count item; Ok (<[position := item]> categories)
      end
  end.

Definition exact (numerator denominator : Z) (currency : CurrencyCode) : ExactMinorCost :=
  {| Numerator := numerator; Denominator := denominator; Currency := currency |}.

Definition count_active (currency : CurrencyCode) (r : reservation_row)
    (item : BudgetCategorySnapshot) : result error BudgetCategorySnapshot :=
  reserved ← addExactCosts (cat_ReservedCost item)
               (exact (r_bound_numerator r) (r_bound_denominator r) currency);
  Ok {| cat_Category := cat_Category item;
        cat_ReservationCount := add_u64 (cat_ReservationCount item) 1;
        cat_ProviderCallSlots := add_u64 (cat_ProviderCallSlots item) (r_provider_call_slots r);
        cat_ReservedCost := reserved; cat_ChargedCost := cat_ChargedCost item;
        cat_ActualKnownCost := cat_ActualKnownCost item; cat_CostUnknown := cat_CostUnknown item;
        cat_ReservedTokens :=
          (if r_token_bound_known r then add_u64 (cat_ReservedTokens item) (or_zero (r_token_bound r))
           else cat_ReservedTokens item);
        cat_ChargedTokens := cat_ChargedTokens item; cat_ActualTokens := cat_ActualTokens item;
        cat_TokensUnknown := cat_TokensUnknown item;
        cat_ReconciliationPending := cat_ReconciliationPending item |}.

Definition count_pending (currency : CurrencyCode) (i : intent_row) (r : reservation_row)
    (item : BudgetCategorySnapshot) : result error BudgetCategorySnapshot :=
  let bound := exact (r_bound_numerator r) (r_bound_denominator r) currency in
  let actual := exact (or_zero (i_cost_numerator i)) (or_zero (i_cost_denominator i)) currency in
  let charged := if i_cost_known i then actual else bound in
  known ← (if i_cost_known i then addExactCosts (cat_ActualKnownCost item) charged
           else Ok (cat_ActualKnownCost item));
  total ← addExactCosts (cat_ChargedCost item) charged;
  let chargedTokenCount :=
    if i_tokens_known i then or_zero (i_actual_tokens i)
    else if r_token_bound_known r then or_zero (r_token_bound r) else 0 in
  Ok {| cat_Category := cat_Category item;
        cat_ReservationCount := add_u64 (cat_ReservationCount item) 1;
        cat_ProviderCallSlots :=
          add_u64 (cat_ProviderCallSlots item) (slots_or (i_actual_slots i) (r_provider_call_slots r));
        cat_ReservedCost := cat_ReservedCost item; cat_ChargedCost := total;
        cat_ActualKnownCost := known;
        cat_CostUnknown := (if i_cost_known i then cat_CostUnknown item else true);
        cat_ReservedTokens := cat_ReservedTokens item;
        cat_ChargedTokens := add_u64 (cat_ChargedTokens item) chargedTokenCount;
        cat_ActualTokens :=
          (if i_tokens_known i then add_u64 (cat_ActualTokens item) chargedTokenCount
           else cat_ActualTokens item);
        cat_TokensUnknown := (if i_tokens_known i then cat_TokensUnknown item else true);
        cat_ReconciliationPending := true |}.

Definition count_posting (currency : CurrencyCode) (p : posting_row) (r : reservation_row)
    (item : BudgetCategorySnapshot) : result error BudgetCategorySnapshot :=
  total ← addExactCosts (cat_ChargedCost item)
            (exact (p_charged_numerator p) (p_charged_denominator p) currency);
  known ← (if p_cost_known p then
             addExactCosts (cat_ActualKnownCost item)
               (exact (or_zero (p_cost_numerator p)) (or_zero (p_cost_denominator p)) currency)
           else Ok (cat_ActualKnownCost item));
  Ok {| cat_Category := cat_Category item;
        cat_ReservationCount := add_u64 (cat_ReservationCount item) 1;
        cat_ProviderCallSlots :=
          add_u64 (cat_ProviderCallSlots item) (slots_or (p_actual_slots p) (r_provider_call_slots r));
        cat_ReservedCost := cat_ReservedCost item; cat_ChargedCost := total;
        cat_ActualKnownCost := known;
        cat_CostUnknown := (if p_cost_known p then cat_CostUnknown item else true);
        cat_ReservedTokens := cat_ReservedTokens item;
        cat_ChargedTokens :=
          (match p_charged_tokens p with
           | Some tokens => add_u64 (cat_ChargedTokens item) tokens
           | None => cat_ChargedTokens item
           end);
        cat_ActualTokens :=
          (if p_tokens_known p then add_u64 (cat_ActualTokens item) (or_zero (p_actual_tokens p))
           else cat_ActualTokens item);
        cat_TokensUnknown := (if p_tokens_known p then cat_TokensUnknown item else true);
        cat_ReconciliationPending := cat_ReconciliationPending item |}.

Definition empty_category (currency : CurrencyCode) (category : BudgetCostCategory)
    : BudgetCategorySnapshot :=
  let zero := zeroExactCost currency in
  {| cat_Category := category; cat_ReservationCount := 0; cat_ProviderCallSlots := 0;
     cat_ReservedCost := zero; cat_ChargedCost := zero; cat_ActualKnownCost := zero;
     cat_CostUnknown := false; cat_ReservedTokens := 0; cat_ChargedTokens := 0;
     cat_ActualTokens := 0; cat_TokensUnknown := false; cat_ReconciliationPending := false |}.

(** The aggregates of the budget's own row, which count as infrastructure. *)
Definition legacy_category (currency : CurrencyCode) (b : budget_row) : BudgetCategorySnapshot :=
  let charged := exact (b_actual_cost b) 1 currency in
  {| cat_Category := BudgetCostInfrastructure; cat_ReservationCount := 0;
     cat_ProviderCallSlots := 0; cat_ReservedCost := exact (b_reserved_cost b) 1 currency;
     cat_ChargedCost := charged; cat_ActualKnownCost := charged; cat_CostUnknown := false;
     cat_ReservedTokens := 0; cat_ChargedTokens := b_actual_tokens b;
     cat_ActualTokens := b_actual_tokens b; cat_TokensUnknown := false;
     cat_ReconciliationPending := false |}.

Definition find_budget (d : db) (budget : ID) : option budget_row :=
  find (fun b => b_id b =? budget) (budgets d).

Definition loadBudgetCategorySnapshots (d : db) (budget : ID) (currency : CurrencyCode)
    : result error (list BudgetCategorySnapshot) :=
  match find_budget d budget with
  | None => Err (text_cause "read legacy budget aggregate" (Sentinel ErrNoRows))
  | Some b =>
      let categories := [ empty_category currency BudgetCostModel;
                          empty_category currency BudgetCostTool;
                          legacy_category currency b ] in
      categories ← fold_result (fun categories r =>
        in_category "scan active budget reservation" (r_category r) (count_active currency r)
          categories) (active_rows d budget) categories;
      categories ← fold_result (fun categories '(i, r) =>
        in_category "scan pending budget reconciliation" (r_category r) (count_pending currency i r)
          categories) (pending_rows d budget) categories;
      fold_result (fun categories '(p, r) =>
        in_category "scan budget usage posting" (p_category p) (count_posting currency p r)
          categories) (posting_rows d budget) categories
  end.

(** The limit revision with the greatest number. *)
Definition latest_limit (d : db) (budget : ID) : option limit_row :=
  let mine := filter (fun l => l_budget_id l =? budget) (limit_revisions d) in
  let latest := foldr (fun l m => Z.max (l_revision l) m) (-1) mine in
  find (fun l => (l_revision l =? latest)%Z) mine.

(** The totals over the categories. *)
Record category_totals := {
  total_slots : Z;
  total_reserved : ExactMinorCost;
  total_charged : ExactMinorCost;
  total_known : ExactMinorCost;
  total_cost_unknown : bool;
  total_tokens_unknown : bool;
  total_pending : bool;
  total_reserved_tokens : Z;
  total_charged_tokens : Z;
  total_actual_tokens : Z;
}.

Definition no_totals (currency : CurrencyCode) : category_totals :=
  let zero := zeroExactCost currency in
  {| total_slots := 0; total_reserved := zero; total_charged := zero; total_known := zero;
     total_cost_unknown := false; total_tokens_unknown := false; total_pending := false;
     total_reserved_tokens := 0; total_charged_tokens := 0; total_actual_tokens := 0 |}.

Definition add_category (t : category_totals) (c : BudgetCategorySnapshot)
    : result error category_totals :=
  if (max_uint64 - total_slots t <? cat_ProviderCallSlots c)%Z then
    Err (Sentinel "budget provider-call aggregate overflow")
  else
    reserved ← addExactCosts (total_reserved t) (cat_ReservedCost c);
    charged ← addExactCosts (total_charged t) (cat_ChargedCost c);
    known ← addExactCosts (total_known t) (cat_ActualKnownCost c);
    if (max_uint64 - cat_ReservedTokens c <? total_reserved_tokens t)%Z ||
       (max_uint64 - cat_ChargedTokens c <? total_charged_tokens t)%Z ||
       (max_uint64 - cat_ActualTokens c <? total_actual_tokens t)%Z then
      Err (Sentinel "budget token aggregate overflow")
    else Ok {| total_slots := total_slots t + cat_ProviderCallSlots c;
               total_reserved := reserved; total_charged := charged; total_known := known;
               total_cost_unknown := total_cost_unknown t || cat_CostUnknown c;
               total_tokens_unknown := total_tokens_unknown t || cat_TokensUnknown c;
               total_pending := total_pending t || cat_ReconciliationPending c;
               total_reserved_tokens := total_reserved_tokens t + cat_ReservedTokens c;
               total_charged_tokens := total_charged_tokens t + cat_ChargedTokens c;
               total_actual_tokens := total_actual_tokens t + cat_ActualTokens c |}.

(** What is left of a hard limit, unless the accounting is unknown. *)
Definition remaining_cost (unknown : bool) (hard exposure : ExactMinorCost) : option ExactMinorCost :=
  if unknown then None else Some (subtractExactCostsFloorZero hard exposure).
Definition remaining_tokens (unknown : bool) (hard exposed : Z) : option Z :=
  if unknown then None else Some (if (exposed <? hard)%Z then hard - exposed else 0).

Definition computeBudgetSnapshot (d : db) (budget : ID) : result error BudgetSnapshot :=
  let operation := "compute budget snapshot" in
  match find_budget d budget, latest_limit d budget with
  | Some b, Some l =>
      match parseTypedID taskIDKind (b_task_id b) with
      | Err e => Err (typedError ErrCorrupt operation (Sentinel (IDParseError_Error e)))
      | Ok taskID =>
      match ParseCurrencyCode (l_currency l) with
      | Err e => Err (typedError ErrCorrupt operation (value_error e))
      | Ok currency =>
          let warning := exact (l_warning_numerator l) (l_warning_denominator l) currency in
          let hard := exact (l_hard_numerator l) (l_hard_denominator l) currency in
          categories ← loadBudgetCategorySnapshots d budget currency;
          t ← fold_result add_category categories (no_totals currency);
          exposure ← addExactCosts (total_reserved t) (total_charged t);
          let exposed := add_u64 (total_reserved_tokens t) (total_charged_tokens t) in
          Ok {| snap_BudgetID := budget; snap_TaskID := taskID; snap_Revision := b_revision b;
                snap_LimitRevision := l_revision l; snap_WarningCost := warning;
                snap_HardCost := hard; snap_WarningTokens := l_warning_tokens l;
                snap_HardTokens := l_hard_tokens l; snap_ReservedCost := total_reserved t;
                snap_ChargedCost := total_charged t; snap_ActualKnownCost := total_known t;
                snap_CostAccountingUnknown := total_cost_unknown t;
                snap_RemainingCost := remaining_cost (total_cost_unknown t) hard exposure;
                snap_ReservedTokens := total_reserved_tokens t;
                snap_ChargedTokens := total_charged_tokens t;
                snap_ActualTokens := total_actual_tokens t;
                snap_TokenAccountingUnknown := total_tokens_unknown t;
                snap_RemainingTokens :=
                  remaining_tokens (total_tokens_unknown t) (l_hard_tokens l) exposed;
                snap_WarningReached := cost_ge exposure warning || (l_warning_tokens l <=? exposed)%Z;
                snap_HardCapReached := total_pending t || total_cost_unknown t ||
                  total_tokens_unknown t || cost_ge exposure hard || (l_hard_tokens l <=? exposed)%Z;
                snap_ProviderCallSlots := total_slots t; snap_ReconciliationPending := total_pending t;
                snap_Categories := categories; snap_CreatedAt := repositoryTime (b_updated_at b) |}
      end end
  | _, _ => Err (typedError ErrNotFound operation (Sentinel ErrNoRows))
  end.

Definition latest_snapshot_row (d : db) (budget : ID) : option (snapshot_row * limit_row) :=
  let rows := omap (fun s =>
    if s_budget_id s =? budget then
      l ← find (fun l => (l_budget_id l =? budget) && (l_revision l =? s_limit_revision s)%Z)
            (limit_revisions d);
      Some (s, l)
    else None) (snapshots d) in
  foldr (fun x best =>
    match best with
    | Some y => if (s_revision (fst y) <? s_revision (fst x))%Z then Some x else Some y
    | None => Some x
    end) None rows.

Definition scanLatestBudgetSnapshot (d : db) (budget : ID) : result error BudgetSnapshot :=
  let operation := "read budget snapshot" in
  match latest_snapshot_row d budget with
  | None => Err (typedError ErrNotFound operation (Sentinel ErrNoRows))
  | Some (s, l) =>
      match parseTypedID taskIDKind (s_task_id s) with
      | Err e => Err (typedError ErrCorrupt operation (Sentinel (IDParseError_Error e)))
      | Ok taskID =>
      match ParseCurrencyCode (s_currency s) with
      | Err e => Err (typedError ErrCorrupt operation (value_error e))
      | Ok currency =>
          let hard := exact (l_hard_numerator l) (l_hard_denominator l) currency in
          let reserved := exact (s_reserved_numerator s) (s_reserved_denominator s) currency in
          let charged := exact (s_charged_numerator s) (s_charged_denominator s) currency in
          let cost_unknown := s_cost_unknown s || negb (s_actual_cost_known s) in
          let tokens_unknown := s_tokens_unknown s || negb (s_actual_tokens_known s) in
          exposure ← addExactCosts reserved charged;
          categories ← loadBudgetCategorySnapshots d budget currency;
          Ok {| snap_BudgetID := budget; snap_TaskID := taskID; snap_Revision := s_revision s;
                snap_LimitRevision := s_limit_revision s;
                snap_WarningCost := exact (l_warning_numerator l) (l_warning_denominator l) currency;
                snap_HardCost := hard; snap_WarningTokens := l_warning_tokens l;
                snap_HardTokens := l_hard_tokens l; snap_ReservedCost := reserved;
                snap_ChargedCost := charged;
                snap_ActualKnownCost := exact (s_actual_numerator s) (s_actual_denominator s) currency;
                snap_CostAccountingUnknown := cost_unknown;
                snap_RemainingCost := remaining_cost cost_unknown hard exposure;
                snap_ReservedTokens := s_reserved_tokens s; snap_ChargedTokens := s_charged_tokens s;
                snap_ActualTokens := s_actual_tokens s;
                snap_TokenAccountingUnknown := tokens_unknown;
                snap_RemainingTokens := remaining_tokens tokens_unknown (l_hard_tokens l)
                  (add_u64 (s_reserved_tokens s) (s_charged_tokens s));
                snap_WarningReached := s_warning_reached s;
                snap_HardCapReached := s_hard_cap_reached s;
                snap_ProviderCallSlots :=
                  foldl (fun n c => add_u64 n (cat_ProviderCallSlots c)) 0 categories;
                snap_ReconciliationPending := s_reconciliation_pending s;
                snap_Categories := categories; snap_CreatedAt := repositoryTime (s_created_at s) |}
      end end
  end.
