(* ===== verification/BudgetLedger.v ===== *)
(** * The operations of the budget ledger
    (src/internal/storage/budget_repository.go, authority_repository.go,
    preapproval_budget_repository.go, task_budget_adjustment_repository.go)

    Every mutation runs in one transaction: it returns the values the method
    returns, the error beside them, and the tables, which are unchanged when
    the operation fails. The values matter on failure too, because a caller
    reads them; a step that fails therefore says what has been assigned so far
    ([m @@ v]). The clock, the identities of new events and the order in which
    Go ranges over a map are arguments; JSON validity is a parameter. *)

From Stdlib Require Import Ascii QArith.
From S2P Require Import Prelude GoText GoErrors PolicyValues Identity Pricing States FixedPolicy.
From S2P Require Import BudgetSchema BudgetSnapshots.
Open Scope string_scope.
Open Scope list_scope.
Open Scope go_scope.

(** ** Transactions (src/internal/storage/transaction.go) *)

Definition with_value {V A} (v : V) (m : result error A) : result (V * error) A :=
  match m with Ok a => Ok a | Err e => Err (v, e) end.
Notation "m @@ v" := (with_value v m) (at level 45).

(** [if condition { return err }]. *)
Definition refuse {V} (condition : bool) (v : V) (e : error) : result (V * error) unit :=
  if condition then Err (v, e) else Ok tt.

(** The callback commits what it returns and rolls back otherwise. Beginning
    and committing can fail as well; then nothing has happened. *)
Definition RunInTransaction {V} (operation : db -> result (V * error) (V * db)) (d : db)
    : V * option error * db :=
  match operation d with
  | Ok (v, d') => (v, None, d')
  | Err (v, e) => (v, Some e, d)
  end.

(** ** Inputs *)

Record BudgetReservation := {
  res_ID : string;
  res_BudgetID : ID;
  res_TaskID : ID;
  res_OperationID : string;
  res_AttemptID : option string;
  res_RetryOrdinal : Z;
  res_Category : BudgetCostCategory;
  res_ProviderCallSlots : Z;
  res_State : string;
  res_CostBound : ExactMinorCost;
  res_TokenBound : option Z;
  res_IdempotencyKey : string;
  res_ProvenanceJSON : string;
  res_Settlement : option string;
  res_SettlementProvenanceJSON : option string;
  res_CreatedAt : Z;
  res_SettledAt : option Z;
  res_Revision : Z;
}.

Definition BudgetReservationActive : string := "active".
Definition BudgetReservationCommitted : string := "committed".
Definition BudgetReservationReleased : string := "released".

Record ReserveInput := {
  reserve_ID : string;
  reserve_BudgetID : ID;
  reserve_ExpectedRevision : Z;
  reserve_OperationID : string;
  reserve_AttemptID : option string;
  reserve_RetryOrdinal : Z;
  reserve_Category : BudgetCostCategory;
  reserve_ProviderCallSlots : Z;
  reserve_CostBound : ExactMinorCost;
  reserve_TokenBound : option Z;
  reserve_IdempotencyKey : string;
  reserve_ProvenanceJSON : string;
}.

Record SettleInput := {
  settle_ID : string;
  settle_ReservationID : string;
  settle_ActualCost : option ExactMinorCost;
  settle_ActualTokens : option Z;
  settle_ActualProviderCallSlots : Z;
  settle_IdempotencyKey : string;
  settle_ProvenanceJSON : string;
}.

Record ReleaseInput := {
  release_ReservationID : string;
  release_ExpectedRevision : Z;
  release_ReasonRedacted : string;
  release_ProvenanceJSON : string;
}.

Record IntentInput := {
  intent_ID : string;
  intent_ReservationID : string;
  intent_ActualCost : option ExactMinorCost;
  intent_ActualTokens : option Z;
  intent_ActualProviderCallSlots : Z;
  intent_ReasonRedacted : string;
  intent_IdempotencyKey : string;
  intent_ProvenanceJSON : string;
}.

Record RaiseInput := {
  raise_BudgetID : ID;
  raise_ExpectedRevision : Z;
  raise_WarningCost : ExactMinorCost;
  raise_HardCost : ExactMinorCost;
  raise_WarningTokens : Z;
  raise_HardTokens : Z;
  raise_ApprovalID : ID;
  raise_ActorKind : string;
  raise_ActorReference : string;
  raise_ReasonRedacted : string;
  raise_IdempotencyKey : string;
  raise_ProvenanceJSON : string;
}.

(** The zero values the methods start from. *)
Definition no_cost : ExactMinorCost := {| Numerator := 0; Denominator := 0; Currency := "" |}.

Definition no_reservation : BudgetReservation :=
  {| res_ID := ""; res_BudgetID := ""; res_TaskID := ""; res_OperationID := "";
     res_AttemptID := None; res_RetryOrdinal := 0; res_Category := "";
     res_ProviderCallSlots := 0; res_State := ""; res_CostBound := no_cost;
     res_TokenBound := None; res_IdempotencyKey := ""; res_ProvenanceJSON := "";
     res_Settlement := None; res_SettlementProvenanceJSON := None; res_CreatedAt := 0;
     res_SettledAt := None; res_Revision := 0 |}.

Definition no_snapshot : BudgetSnapshot :=
  {| snap_BudgetID := ""; snap_TaskID := ""; snap_Revision := 0; snap_LimitRevision := 0;
     snap_WarningCost := no_cost; snap_HardCost := no_cost; snap_WarningTokens := 0;
     snap_HardTokens := 0; snap_ReservedCost := no_cost; snap_ChargedCost := no_cost;
     snap_ActualKnownCost := no_cost; snap_CostAccountingUnknown := false;
     snap_RemainingCost := None; snap_ReservedTokens := 0; snap_ChargedTokens := 0;
     snap_ActualTokens := 0; snap_TokenAccountingUnknown := false;
     snap_RemainingTokens := None; snap_WarningReached := false;
     snap_HardCapReached := false; snap_ProviderCallSlots := 0;
     snap_ReconciliationPending := false; snap_Categories := []; snap_CreatedAt := 0 |}.

(** [snapshot.Revision = ...; snapshot.CreatedAt = ...]. *)
Definition stamped (s : BudgetSnapshot) (revision createdAt : Z) : BudgetSnapshot :=
  {| snap_BudgetID := snap_BudgetID s; snap_TaskID := snap_TaskID s; snap_Revision := revision;
     snap_LimitRevision := snap_LimitRevision s; snap_WarningCost := snap_WarningCost s;
     snap_HardCost := snap_HardCost s; snap_WarningTokens := snap_WarningTokens s;
     snap_HardTokens := snap_HardTokens s; snap_ReservedCost := snap_ReservedCost s;
     snap_ChargedCost := snap_ChargedCost s; snap_ActualKnownCost := snap_ActualKnownCost s;
     snap_CostAccountingUnknown := snap_CostAccountingUnknown s;
     snap_RemainingCost := snap_RemainingCost s; snap_ReservedTokens := snap_ReservedTokens s;
     snap_ChargedTokens := snap_ChargedTokens s; snap_ActualTokens := snap_ActualTokens s;
     snap_TokenAccountingUnknown := snap_TokenAccountingUnknown s;
     snap_RemainingTokens := snap_RemainingTokens s; snap_WarningReached := snap_WarningReached s;
     snap_HardCapReached := snap_HardCapReached s;
     snap_ProviderCallSlots := snap_ProviderCallSlots s;
     snap_ReconciliationPending := snap_ReconciliationPending s;
     snap_Categories := snap_Categories s; snap_CreatedAt := createdAt |}.

(** ** Validation of inputs *)

Definition validateBounded (label value : string) (maximum : Z) : option error :=
  let value := TrimSpace value in
  if value =? "" then Some (Sentinel (label +:+ " must not be empty"))
  else if (maximum <? Z.of_nat (String.length value))%Z then
    Some (Sentinel (label +:+ " exceeds maximum length"))
  else None.

Definition sameTokenCount (left right : option Z) : bool := bool_decide (left = right).
Definition equalOptionalString (left right : option string) : bool := bool_decide (left = right).

Definition normalizedProviderCallSlots (input : ReserveInput) : Z :=
  if negb (reserve_Category input =? BudgetCostModel) then 0
  else if (reserve_ProviderCallSlots input =? 0)%Z then 1
  else reserve_ProviderCallSlots input.

Definition normalizedActualProviderCallSlots (reservation : BudgetReservation) (requested : Z)
    : result error Z :=
  if negb (res_Category reservation =? BudgetCostModel) then
    if negb (requested =? 0)%Z then
      Err (Sentinel "only model settlements may record provider-call slots")
    else Ok 0
  else if (requested =? 0)%Z then Ok (res_ProviderCallSlots reservation)
  else Ok requested.

(** [*value] normalized, where there is one. *)
Definition normalize_actual (cost : option ExactMinorCost) : result error (option ExactMinorCost) :=
  match cost with
  | None => Ok None
  | Some cost => cost ← normalizeExactCost cost; Ok (Some cost)
  end.

Definition exceeds_int64 (tokens : option Z) : bool :=
  match tokens with Some t => (max_int64 <? t)%Z | None => false end.

Section Ledger.
Context (json_valid : string -> bool) (json_Valid : string -> bool).
(** The order in which Go ranges over a map of labels. *)
Context (map_order : list (string * string * Z) -> list (string * string * Z)).
(** [domain.NewEventID] for an event of the given type in this call. *)
Context (NewEventID : string -> result error ID).

Definition validateJSONBounded (value : string) (maximum : Z) : option error :=
  if (Z.of_nat (String.length value) <? 2)%Z || (maximum <? Z.of_nat (String.length value))%Z ||
     negb (json_Valid value)
  then Some (Sentinel "value must be bounded valid JSON") else None.

Fixpoint validate_labels (labels : list (string * string * Z)) : option error :=
  match labels with
  | [] => None
  | (label, value, maximum) :: rest => validateBounded label value maximum ;? validate_labels rest
  end.

Definition provenance_error (what value : string) : option error :=
  match validateJSONBounded value 65536 with
  | Some e => Some (text_cause what e)
  | None => None
  end.

Definition validateReserveProviderBudget (input : ReserveInput) : result error ExactMinorCost :=
  if IsZero (reserve_BudgetID input) then Err (Sentinel "budget ID must not be empty")
  else if negb (budgetCategoryValid (reserve_Category input)) then
    Err (Sentinel "budget category is invalid")
  else if negb (reserve_Category input =? BudgetCostModel) &&
          negb (reserve_ProviderCallSlots input =? 0)%Z then
    Err (Sentinel "only model reservations may consume provider-call slots")
  else if (max_int64 <? reserve_RetryOrdinal input)%Z then
    Err (Sentinel "budget retry ordinal exceeds SQLite range")
  else
    validate_labels (map_order
      [ ("budget reservation ID", reserve_ID input, 255);
        ("budget operation ID", reserve_OperationID input, 255);
        ("budget reservation idempotency key", reserve_IdempotencyKey input, 255) ]) ;!
    match reserve_AttemptID input with
    | Some attempt => validateBounded "budget physical attempt ID" attempt 255
    | None => None
    end ;!
    if exceeds_int64 (reserve_TokenBound input) then
      Err (Sentinel "budget token bound exceeds SQLite integer range")
    else provenance_error "budget reservation provenance" (reserve_ProvenanceJSON input) ;!
    normalizeExactCost (reserve_CostBound input).

Definition validateSettleProviderBudget (input : SettleInput) : option error :=
  validate_labels (map_order
    [ ("budget posting ID", settle_ID input, 255);
      ("budget reservation ID", settle_ReservationID input, 255);
      ("budget posting idempotency key", settle_IdempotencyKey input, 255) ]) ;?
  if exceeds_int64 (settle_ActualTokens input) then
    Some (Sentinel "actual token usage exceeds SQLite integer range")
  else provenance_error "budget posting provenance" (settle_ProvenanceJSON input).

Definition validateReleaseProviderBudget (input : ReleaseInput) : option error :=
  validateBounded "budget reservation ID" (release_ReservationID input) 255 ;?
  validateBounded "budget release reason" (release_ReasonRedacted input) 2048 ;?
  provenance_error "budget release provenance" (release_ProvenanceJSON input).

Definition validateBudgetReconciliationIntent (input : IntentInput) : option error :=
  validate_labels (map_order
    [ ("budget reconciliation intent ID", intent_ID input, 255);
      ("budget reservation ID", intent_ReservationID input, 255);
      ("budget reconciliation reason", intent_ReasonRedacted input, 2048);
      ("budget reconciliation idempotency key", intent_IdempotencyKey input, 255) ]) ;?
  if exceeds_int64 (intent_ActualTokens input) then
    Some (Sentinel "budget reconciliation tokens exceed SQLite integer range")
  else provenance_error "budget reconciliation provenance" (intent_ProvenanceJSON input).

Definition validateRaiseProviderBudget (input : RaiseInput)
    : result error (ExactMinorCost * ExactMinorCost) :=
  if IsZero (raise_BudgetID input) then Err (Sentinel "budget ID must not be empty")
  else if IsZero (raise_ApprovalID input) then
    Err (typedError ErrBudgetApprovalRequired "raise provider budget"
           (Sentinel "approval ID must not be empty"))
  else if (raise_HardTokens input <? raise_WarningTokens input)%Z then
    Err (Sentinel "budget token warning exceeds hard cap")
  else if (max_int64 <? raise_HardTokens input)%Z then
    Err (Sentinel "budget hard token cap exceeds SQLite range")
  else if negb (raise_ActorKind input =? "user") && negb (raise_ActorKind input =? "coordinator") then
    Err (Sentinel "budget raise actor kind is invalid")
  else
    validate_labels (map_order
      [ ("budget raise actor", raise_ActorReference input, 255);
        ("budget raise reason", raise_ReasonRedacted input, 2048);
        ("budget raise idempotency key", raise_IdempotencyKey input, 255) ]) ;!
    provenance_error "budget raise provenance" (raise_ProvenanceJSON input) ;!
    warning ← normalizeExactCost (raise_WarningCost input);
    hard ← normalizeExactCost (raise_HardCost input);
    if negb (Currency warning =? Currency hard) || cost_gt warning hard then
      Err (Sentinel "budget cost warning must not exceed same-currency hard cap")
    else Ok (warning, hard).

(** ** Reading and writing rows *)

Definition scanBudgetReservation (row : option reservation_row) (operation : string)
    : result error BudgetReservation :=
  match row with
  | None => Err (typedError ErrNotFound operation (Sentinel ErrNoRows))
  | Some r =>
      match parseTypedID budgetIDKind (r_budget_id r) with
      | Err e => Err (typedError ErrCorrupt operation (Sentinel (IDParseError_Error e)))
      | Ok budgetID =>
      match parseTypedID taskIDKind (r_task_id r) with
      | Err e => Err (typedError ErrCorrupt operation (Sentinel (IDParseError_Error e)))
      | Ok taskID =>
      match ParseCurrencyCode (r_currency r) with
      | Err e => Err (typedError ErrCorrupt operation (value_error e))
      | Ok currency =>
          Ok {| res_ID := r_id r; res_BudgetID := budgetID; res_TaskID := taskID;
                res_OperationID := r_operation_id r; res_AttemptID := r_attempt_id r;
                res_RetryOrdinal := r_retry_ordinal r; res_Category := r_category r;
                res_ProviderCallSlots := r_provider_call_slots r; res_State := r_state r;
                res_CostBound := exact (r_bound_numerator r) (r_bound_denominator r) currency;
                res_TokenBound := (if r_token_bound_known r then Some (or_zero (r_token_bound r))
                                   else None);
                res_IdempotencyKey := r_idempotency_key r; res_ProvenanceJSON := r_provenance r;
                res_Settlement := r_settlement_reason r;
                res_SettlementProvenanceJSON := r_settlement_provenance r;
                res_CreatedAt := repositoryTime (r_created_at r);
                res_SettledAt := repositoryTime <$> r_settled_at r; res_Revision := r_revision r |}
      end end end
  end.

(** [WHERE budget_id = ? AND (id = ? OR idempotency_key = ?) ORDER BY CASE WHEN
    id = ? THEN 0 ELSE 1 END LIMIT 1]. *)
Definition by_identity {A} (budget_of id_of key_of : A -> string) (budget id key : string)
    (l : list A) : option A :=
  match find (fun a => (budget_of a =? budget) && (id_of a =? id)) l with
  | Some a => Some a
  | None => find (fun a => (budget_of a =? budget) && (key_of a =? key)) l
  end.

(** [None]: not found. *)
Definition findBudgetReservationByIdentity (d : db) (budget : ID) (id key : string)
    : result error (option BudgetReservation) :=
  match by_identity r_budget_id r_id r_idempotency_key budget id key (reservations d) with
  | None => Ok None
  | Some r => reservation ← scanBudgetReservation (Some r) "find budget reservation";
              Ok (Some reservation)
  end.

Definition getBudgetReservation (d : db) (id : string) : result error BudgetReservation :=
  scanBudgetReservation (find_reservation d id) "get budget reservation".

Definition budgetReservationMatches (existing : BudgetReservation) (input : ReserveInput)
    (normalized : ExactMinorCost) : bool :=
  (res_BudgetID existing =? reserve_BudgetID input) &&
  (res_OperationID existing =? reserve_OperationID input) &&
  equalOptionalString (res_AttemptID existing) (reserve_AttemptID input) &&
  (res_RetryOrdinal existing =? reserve_RetryOrdinal input)%Z &&
  (res_Category existing =? reserve_Category input) &&
  (res_ProviderCallSlots existing =? normalizedProviderCallSlots input)%Z &&
  exactCostEqual (Some (res_CostBound existing)) (Some normalized) &&
  sameTokenCount (res_TokenBound existing) (reserve_TokenBound input) &&
  (res_IdempotencyKey existing =? reserve_IdempotencyKey input) &&
  (res_ProvenanceJSON existing =? reserve_ProvenanceJSON input).

Record budgetPostingIdentity := {
  posted_ID : string;
  posted_ReservationID : string;
  posted_BudgetID : ID;
  posted_ActualCost : option ExactMinorCost;
  posted_ActualTokens : option Z;
  posted_ActualProviderCallSlots : Z;
}.

Definition findBudgetPostingByIdentity (d : db) (budget : ID) (id key : string)
    : result error (option budgetPostingIdentity) :=
  let operation := "find budget posting" in
  match by_identity p_budget_id p_id p_idempotency_key budget id key (postings d) with
  | None => Ok None
  | Some p =>
      match parseTypedID budgetIDKind (p_budget_id p) with
      | Err e => Err (typedError ErrCorrupt operation (Sentinel (IDParseError_Error e)))
      | Ok budgetID =>
          cost ← (if p_cost_known p then
                    match ParseCurrencyCode (p_currency p) with
                    | Err e => Err (typedError ErrCorrupt operation (value_error e))
                    | Ok currency => Ok (Some (exact (or_zero (p_cost_numerator p))
                                                 (or_zero (p_cost_denominator p)) currency))
                    end
                  else Ok None);
          Ok (Some {| posted_ID := p_id p; posted_ReservationID := p_reservation_id p;
                      posted_BudgetID := budgetID; posted_ActualCost := cost;
                      posted_ActualTokens :=
                        (if p_tokens_known p then Some (or_zero (p_actual_tokens p)) else None);
                      posted_ActualProviderCallSlots := p_actual_slots p |})
      end
  end.

(** The sum over the reservations that are not released of what each one
    takes of the limit. *)
Definition consumed_slots (d : db) (r : reservation_row) : Z :=
  if r_state r =? "active" then r_provider_call_slots r
  else
    let posted := match find (fun p => p_reservation_id p =? r_id r) (postings d) with
                  | Some p => p_actual_slots p | None => 0 end in
    let intended := match find (fun i => i_reservation_id i =? r_id r) (intents d) with
                    | Some i => i_actual_slots i | None => 0 end in
    slots_or posted (slots_or intended (r_provider_call_slots r)).

Definition unreleased (d : db) (budget : ID) (category : BudgetCostCategory)
    : list reservation_row :=
  filter (fun r => (r_budget_id r =? budget) && (r_category r =? category) &&
                   negb (r_state r =? "released")) (reservations d).

Definition verifyBudgetOperationLimit (d : db) (budget : ID) (category : BudgetCostCategory)
    (providerCallSlots : Z) : option error :=
  let over maximum used increment :=
    if (maximum - increment <? used)%Z then
      Some (typedError ErrBudgetExhausted "reserve provider budget"
              (Sentinel "budget operation-count hard cap reached"))
    else None in
  let limited (column : budget_row -> Z) used increment :=
    match find_budget d budget with
    | None => Some (text_cause "read budget operation limit" (Sentinel ErrNoRows))
    | Some b => over (column b) used increment
    end in
  if category =? BudgetCostModel then
    limited b_maximum_provider_calls
      (foldr Z.add 0 (map (consumed_slots d) (unreleased d budget category))) providerCallSlots
  else if category =? BudgetCostTool then
    limited b_maximum_tool_executions (Z.of_nat (length (unreleased d budget category))) 1
  else None.

Definition BudgetRaiseApprovalScope (budget : ID) (warning hard : ExactMinorCost)
    (warningTokens hardTokens : Z) : string :=
  "budget.raise:" +:+ budget +:+ ":" +:+ Currency hard +:+ ":" +:+
  fmt_d (Numerator warning) +:+ "/" +:+ fmt_d (Denominator warning) +:+ ":" +:+
  fmt_d (Numerator hard) +:+ "/" +:+ fmt_d (Denominator hard) +:+ ":" +:+
  fmt_d warningTokens +:+ ":" +:+ fmt_d hardTokens.

Definition verifyGrantedBudgetApproval (d : db) (approval task budget : ID)
    (warning hard : ExactMinorCost) (warningTokens hardTokens : Z) : option error :=
  match find (fun a => a_id a =? approval) (approvals d) with
  | None => Some (typedError ErrBudgetApprovalRequired "raise provider budget" (Sentinel ErrNoRows))
  | Some a =>
      if negb (a_task_id a =? task) || negb (a_state a =? "granted") ||
         negb (a_scope a =? BudgetRaiseApprovalScope budget warning hard warningTokens hardTokens)
      then Some (typedError ErrBudgetApprovalRequired "raise provider budget"
        (Sentinel "approval is not granted for this task, budget, and exact limit revision"))
      else None
  end.

Definition advanced_row (micros : Z) (b : budget_row) : budget_row :=
  {| b_id := b_id b; b_task_id := b_task_id b; b_currency := b_currency b;
     b_warning_cost := b_warning_cost b; b_hard_cost := b_hard_cost b;
     b_warning_tokens := b_warning_tokens b; b_hard_tokens := b_hard_tokens b;
     b_warning_wall := b_warning_wall b; b_hard_wall := b_hard_wall b;
     b_maximum_provider_calls := b_maximum_provider_calls b;
     b_maximum_repair_rounds := b_maximum_repair_rounds b;
     b_maximum_tool_executions := b_maximum_tool_executions b;
     b_reserved_cost := b_reserved_cost b; b_actual_cost := b_actual_cost b;
     b_actual_tokens := b_actual_tokens b; b_created_at := b_created_at b;
     b_updated_at := micros; b_revision := b_revision b + 1 |}.

Definition advanceBudgetRevision (d : db) (budget : ID) (expected micros : Z)
    : result error (Z * db) :=
  '(changed, d) ← writing "advance budget revision"
                    (update_budget d budget expected (advanced_row micros));
  if negb changed then
    Err (typedError ErrStaleRevision "advance budget revision" (Sentinel "budget revision changed"))
  else Ok (expected + 1, d)%Z.

Fixpoint categoryReservationCount (categories : list BudgetCategorySnapshot)
    (category : BudgetCostCategory) : Z :=
  match categories with
  | [] => 0
  | c :: rest => if cat_Category c =? category then cat_ReservationCount c
                 else categoryReservationCount rest category
  end.

Definition snapshot_to_row (s : BudgetSnapshot) : snapshot_row :=
  {| s_budget_id := snap_BudgetID s; s_revision := snap_Revision s; s_task_id := snap_TaskID s;
     s_limit_revision := snap_LimitRevision s; s_currency := Currency (snap_HardCost s);
     s_reserved_numerator := Numerator (snap_ReservedCost s);
     s_reserved_denominator := Denominator (snap_ReservedCost s);
     s_charged_numerator := Numerator (snap_ChargedCost s);
     s_charged_denominator := Denominator (snap_ChargedCost s);
     s_actual_cost_known := negb (snap_CostAccountingUnknown s);
     s_actual_numerator := Numerator (snap_ActualKnownCost s);
     s_actual_denominator := Denominator (snap_ActualKnownCost s);
     s_cost_unknown := snap_CostAccountingUnknown s;
     s_reserved_tokens := snap_ReservedTokens s; s_charged_tokens := snap_ChargedTokens s;
     s_actual_tokens_known := negb (snap_TokenAccountingUnknown s);
     s_actual_tokens := snap_ActualTokens s; s_tokens_unknown := snap_TokenAccountingUnknown s;
     s_model_reservations := categoryReservationCount (snap_Categories s) BudgetCostModel;
     s_tool_reservations := categoryReservationCount (snap_Categories s) BudgetCostTool;
     s_infrastructure_reservations :=
       categoryReservationCount (snap_Categories s) BudgetCostInfrastructure;
     s_provider_call_slots := snap_ProviderCallSlots s;
     s_warning_reached := snap_WarningReached s;
     s_reconciliation_pending := snap_ReconciliationPending s;
     s_hard_cap_reached := snap_HardCapReached s; s_created_at := UnixMicro (snap_CreatedAt s) |}.

(** The unsigned arguments of the insert. *)
Definition unsigned_columns (s : snapshot_row) : list Z :=
  [ s_revision s; s_limit_revision s; s_reserved_tokens s; s_charged_tokens s; s_actual_tokens s;
    s_model_reservations s; s_tool_reservations s; s_infrastructure_reservations s;
    s_provider_call_slots s ].

Definition persistBudgetSnapshot (d : db) (s : BudgetSnapshot) : result error db :=
  let row := snapshot_to_row s in
  writing "persist budget snapshot"
    (if negb (forallb bindable (unsigned_columns row)) then
       Err (Driver "uint64 values with high bit set are not supported")
     else insert_snapshot d row).

(** ** Events *)

(** [json.Marshal] of a map of scalars: the keys are sorted, and a text is
    escaped byte by byte. (A text with U+2028, U+2029 or invalid UTF-8, which
    are escaped as runes, is not covered.) *)
Definition json_byte (c : ascii) : string :=
  let n := N_of_ascii c in
  let hex := String (hex_digit (n / 16)%N) (String (hex_digit (n mod 16)%N) "") in
  if Ascii.eqb c dquote || Ascii.eqb c "\" then String "\" (String c "")
  else match n with
       | 8%N => "\b" | 9%N => "\t" | 10%N => "\n" | 12%N => "\f" | 13%N => "\r"
       | 38%N | 60%N | 62%N => "\u00" +:+ hex
       | _ => if (n <? 32)%N then "\u00" +:+ hex else String c ""
       end.
Fixpoint json_escape (s : string) : string :=
  match s with
  | EmptyString => ""
  | String c rest => json_byte c +:+ json_escape rest
  end.
Definition json_quote (s : string) : string := String dquote (json_escape s) +:+ String dquote "".
Definition json_object (fields : list (string * string)) : string :=
  "{" +:+ Join (map (fun '(key, value) => json_quote key +:+ ":" +:+ value) fields) "," +:+ "}".

Definition next_sequence (d : db) (task : ID) : Z :=
  foldr Z.max 0 (map te_sequence (filter (fun e => te_task_id e =? task) (task_events d))) + 1.

Definition insertBudgetEvent (d : db) (s : BudgetSnapshot) (eventType payload key : string)
    (micros : Z) : result error db :=
  eventID ← NewEventID eventType;
  '(changed, d) ← writing "insert budget event" (insert_event json_valid d
    {| e_id := eventID; e_budget_id := snap_BudgetID s; e_task_id := snap_TaskID s;
       e_limit_revision := snap_LimitRevision s; e_type := eventType; e_payload := payload;
       e_idempotency_key := key; e_created_at := micros |});
  if negb changed then Ok d
  else writing "insert budget task event" (insert_task_event json_valid d
    {| te_id := eventID; te_task_id := snap_TaskID s; te_sequence := next_sequence d (snap_TaskID s);
       te_type := "budget." +:+ eventType; te_payload := payload;
       te_idempotency_key := "budget-event:" +:+ eventID; te_created_at := micros |}).

(** The boundaries a snapshot has reached. *)
Definition boundaries (s : BudgetSnapshot) (exposure : ExactMinorCost) : list (bool * string) :=
  let tokenExposure := add_u64 (snap_ReservedTokens s) (snap_ChargedTokens s) in
  [ (cost_ge exposure (snap_WarningCost s), "warning-cost");
    ((snap_WarningTokens s <=? tokenExposure)%Z, "warning-tokens");
    (cost_ge exposure (snap_HardCost s), "hard-cap-cost");
    ((snap_HardTokens s <=? tokenExposure)%Z, "hard-cap-tokens");
    (snap_CostAccountingUnknown s || snap_TokenAccountingUnknown s, "accounting-unknown");
    (snap_ReconciliationPending s, "reconciliation-pending") ].

Definition boundary_payload (s : BudgetSnapshot) (kind : string) : string :=
  json_object
    [ ("boundary", json_quote kind); ("budget_id", json_quote (snap_BudgetID s));
      ("budget_revision", fmt_d (snap_Revision s)); ("limit_revision", fmt_d (snap_LimitRevision s));
      ("schema_version", "1") ].

Definition boundary_key (s : BudgetSnapshot) (kind : string) : string :=
  "budget-boundary-" +:+ fmt_d (snap_LimitRevision s) +:+ "-" +:+ kind.

Definition persistBudgetBoundaryEvents (d : db) (s : BudgetSnapshot) (micros : Z)
    : result error db :=
  exposure ← addExactCosts (snap_ReservedCost s) (snap_ChargedCost s);
  fold_result (fun d '((reached, kind) : bool * string) =>
    if negb reached then Ok d
    else insertBudgetEvent d s kind (boundary_payload s kind) (boundary_key s kind) micros)
    (boundaries s exposure) d.

(** ** The operations *)

Definition no_pair : BudgetReservation * BudgetSnapshot := (no_reservation, no_snapshot).

Definition reserved_row (input : ReserveInput) (task : ID) (cost : ExactMinorCost) (micros : Z)
    : reservation_row :=
  {| r_id := reserve_ID input; r_budget_id := reserve_BudgetID input; r_task_id := task;
     r_operation_id := reserve_OperationID input; r_attempt_id := reserve_AttemptID input;
     r_retry_ordinal := reserve_RetryOrdinal input; r_category := reserve_Category input;
     r_provider_call_slots := normalizedProviderCallSlots input; r_state := "active";
     r_bound_numerator := Numerator cost; r_bound_denominator := Denominator cost;
     r_currency := Currency cost;
     r_token_bound_known := bool_decide (reserve_TokenBound input <> None);
     r_token_bound := reserve_TokenBound input; r_idempotency_key := reserve_IdempotencyKey input;
     r_provenance := reserve_ProvenanceJSON input; r_settlement_reason := None;
     r_settlement_provenance := None; r_created_at := micros; r_settled_at := None;
     r_revision := 0 |}.

Definition new_reservation (input : ReserveInput) (task : ID) (cost : ExactMinorCost) (now : Z)
    : BudgetReservation :=
  {| res_ID := reserve_ID input; res_BudgetID := reserve_BudgetID input; res_TaskID := task;
     res_OperationID := reserve_OperationID input; res_AttemptID := reserve_AttemptID input;
     res_RetryOrdinal := reserve_RetryOrdinal input; res_Category := reserve_Category input;
     res_ProviderCallSlots := normalizedProviderCallSlots input;
     res_State := BudgetReservationActive; res_CostBound := cost;
     res_TokenBound := reserve_TokenBound input;
     res_IdempotencyKey := reserve_IdempotencyKey input;
     res_ProvenanceJSON := reserve_ProvenanceJSON input; res_Settlement := None;
     res_SettlementProvenanceJSON := None; res_CreatedAt := now; res_SettledAt := None;
     res_Revision := 0 |}.

(** Whether a bound fits the current snapshot, in the order of the tests. *)
Definition admit_reservation (d : db) (input : ReserveInput) (cost : ExactMinorCost)
    (current : BudgetSnapshot) : option error :=
  let operation := "reserve provider budget" in
  let refused kind text := Some (typedError kind operation (Sentinel text)) in
  if negb (snap_Revision current =? reserve_ExpectedRevision input)%Z then
    refused ErrStaleRevision "budget revision changed"
  else if snap_ReconciliationPending current then
    refused ErrBudgetReconciliationPending "prior billed usage still requires reconciliation"
  else if snap_CostAccountingUnknown current || snap_TokenAccountingUnknown current then
    refused ErrBudgetAccountingUnknown "prior settled usage is unknown"
  else if negb (Currency cost =? Currency (snap_HardCost current)) then
    refused ErrConstraint "reservation currency differs from budget"
  else if snap_HardCapReached current then
    refused ErrBudgetExhausted "task hard cap is already reached"
  else match (exposure ← addExactCosts (snap_ReservedCost current) (snap_ChargedCost current);
              addExactCosts exposure cost) with
  | Err e => Some e
  | Ok exposure =>
      if cost_gt exposure (snap_HardCost current) then
        refused ErrBudgetExhausted "reservation exceeds approved hard cost cap"
      else
        match reserve_TokenBound input with
        | Some bound =>
            if (sub_u64 (sub_u64 (snap_HardTokens current) (snap_ReservedTokens current))
                  (snap_ChargedTokens current) <? bound)%Z
            then refused ErrBudgetExhausted "reservation exceeds approved hard token cap"
            else None
        | None =>
            if reserve_Category input =? BudgetCostModel then
              Some (Sentinel "model reservation requires an exact token bound")
            else None
        end ;?
        verifyBudgetOperationLimit d (reserve_BudgetID input) (reserve_Category input)
          (normalizedProviderCallSlots input)
  end.

(** A reservation found under the identity of the request is returned again
    when it has the same bounds. *)
Definition replay_reservation (d : db) (input : ReserveInput) (cost : ExactMinorCost)
    (existing : BudgetReservation)
    : result ((BudgetReservation * BudgetSnapshot) * error)
        ((BudgetReservation * BudgetSnapshot) * db) :=
  _ ← refuse (negb (budgetReservationMatches existing input cost)) no_pair
    (typedError ErrConflict "reserve provider budget"
       (Sentinel "reservation identity was reused with different bounds"));
  snapshot ← computeBudgetSnapshot d (reserve_BudgetID input) @@ (existing, no_snapshot);
  _ ← refuse (snap_ReconciliationPending snapshot) (existing, snapshot)
    (typedError ErrBudgetReconciliationPending "reserve provider budget"
       (Sentinel "billed reservation still requires reconciliation"));
  Ok ((existing, snapshot), d).

Definition reserve_new (now : Z) (d : db) (input : ReserveInput) (cost : ExactMinorCost)
    : result ((BudgetReservation * BudgetSnapshot) * error)
        ((BudgetReservation * BudgetSnapshot) * db) :=
  let micros := UnixMicro now in
  current ← computeBudgetSnapshot d (reserve_BudgetID input) @@ no_pair;
  match admit_reservation d input cost current with Some e => Err (no_pair, e) | None => Ok tt end ≫=
    fun _ =>
  d ← writing "reserve provider budget"
        (insert_reservation json_valid d (reserved_row input (snap_TaskID current) cost micros))
        @@ no_pair;
  '(newRevision, d) ← advanceBudgetRevision d (reserve_BudgetID input)
                        (reserve_ExpectedRevision input) micros @@ no_pair;
  snapshot ← computeBudgetSnapshot d (reserve_BudgetID input) @@ no_pair;
  let snapshot := stamped snapshot newRevision now in
  d ← persistBudgetSnapshot d snapshot @@ (no_reservation, snapshot);
  d ← persistBudgetBoundaryEvents d snapshot micros @@ (no_reservation, snapshot);
  Ok ((new_reservation input (snap_TaskID current) cost now, snapshot), d).

Definition ReserveProviderBudget (now : Z) (input : ReserveInput) (d : db)
    : (BudgetReservation * BudgetSnapshot) * option error * db :=
  match validateReserveProviderBudget input with
  | Err e => (no_pair, Some e, d)
  | Ok cost =>
      RunInTransaction (fun d =>
        existing ← findBudgetReservationByIdentity d (reserve_BudgetID input) (reserve_ID input)
                     (reserve_IdempotencyKey input) @@ no_pair;
        match existing with
        | Some existing => replay_reservation d input cost existing
        | None => reserve_new now d input cost
        end) d
  end.

(** What ends every settlement: the budget's next revision, its snapshot, and
    the boundaries it reaches. *)
Definition conclude_settlement (now : Z) (d : db) (budget : ID) (revision : Z) (events : bool)
    : result (BudgetSnapshot * error) (BudgetSnapshot * db) :=
  let micros := UnixMicro now in
  '(newRevision, d) ← advanceBudgetRevision d budget revision micros @@ no_snapshot;
  snapshot ← computeBudgetSnapshot d budget @@ no_snapshot;
  let snapshot := stamped snapshot newRevision (repositoryTime micros) in
  d ← persistBudgetSnapshot d snapshot @@ snapshot;
  d ← (if events then persistBudgetBoundaryEvents d snapshot micros else Ok d) @@ snapshot;
  Ok (snapshot, d).

(** The latest snapshot, which an operation that was done before returns. (The
    columns a failed read has already scanned are not kept.) *)
Definition latest (d : db) (budget : ID) : result (BudgetSnapshot * error) (BudgetSnapshot * db) :=
  snapshot ← scanLatestBudgetSnapshot d budget @@ no_snapshot;
  Ok (snapshot, d).

Definition posted_row (input : SettleInput) (r : BudgetReservation) (slots : Z)
    (actual : option ExactMinorCost) (micros : Z) : posting_row :=
  let charged := default (res_CostBound r) actual in
  {| p_id := settle_ID input; p_reservation_id := res_ID r; p_budget_id := res_BudgetID r;
     p_task_id := res_TaskID r; p_category := res_Category r; p_actual_slots := slots;
     p_cost_known := bool_decide (actual <> None); p_cost_numerator := Numerator <$> actual;
     p_cost_denominator := Denominator <$> actual; p_charged_numerator := Numerator charged;
     p_charged_denominator := Denominator charged; p_currency := Currency charged;
     p_tokens_known := bool_decide (settle_ActualTokens input <> None);
     p_actual_tokens := settle_ActualTokens input;
     p_charged_tokens := (match settle_ActualTokens input with
                          | Some tokens => Some tokens
                          | None => res_TokenBound r
                          end);
     p_idempotency_key := settle_IdempotencyKey input; p_provenance := settle_ProvenanceJSON input;
     p_created_at := micros |}.

Definition replay_posting (d : db) (input : SettleInput) (actual : option ExactMinorCost)
    (r : BudgetReservation) (existing : budgetPostingIdentity)
    : result (BudgetSnapshot * error) (BudgetSnapshot * db) :=
  slots ← normalizedActualProviderCallSlots r (settle_ActualProviderCallSlots input) @@ no_snapshot;
  _ ← refuse (negb (posted_ReservationID existing =? settle_ReservationID input) ||
              negb (exactCostEqual (posted_ActualCost existing) actual) ||
              negb (sameTokenCount (posted_ActualTokens existing) (settle_ActualTokens input)) ||
              negb (posted_ActualProviderCallSlots existing =? slots)%Z) no_snapshot
    (typedError ErrConflict "settle provider budget"
       (Sentinel "posting identity was reused with different actual usage"));
  latest d (posted_BudgetID existing).

Definition settle_active (now : Z) (d : db) (input : SettleInput)
    (actual : option ExactMinorCost) (r : BudgetReservation)
    : result (BudgetSnapshot * error) (BudgetSnapshot * db) :=
  let operation := "settle provider budget" in
  let micros := UnixMicro now in
  _ ← refuse (negb (res_State r =? BudgetReservationActive)) no_snapshot
    (typedError ErrConflict operation (Sentinel "reservation is not active"));
  slots ← normalizedActualProviderCallSlots r (settle_ActualProviderCallSlots input) @@ no_snapshot;
  current ← computeBudgetSnapshot d (res_BudgetID r) @@ no_snapshot;
  _ ← refuse (match actual with
              | Some cost => negb (Currency cost =? Currency (res_CostBound r))
              | None => false
              end) no_snapshot
    (typedError ErrConstraint operation (Sentinel "actual cost currency differs from reservation"));
  '(changed, d) ← writing "settle provider budget reservation"
    (update_reservation json_valid d (res_ID r) (res_Revision r)
       (settled_row "committed" "usage committed" (settle_ProvenanceJSON input) micros)) @@ no_snapshot;
  _ ← refuse (negb changed) no_snapshot
    (typedError ErrConflict operation (Sentinel "reservation changed during settlement"));
  d ← writing operation (insert_posting json_valid d (posted_row input r slots actual micros))
        @@ no_snapshot;
  conclude_settlement now d (res_BudgetID r) (snap_Revision current) true.

Definition SettleProviderBudget (now : Z) (input : SettleInput) (d : db)
    : BudgetSnapshot * option error * db :=
  match (validateSettleProviderBudget input ;! normalize_actual (settle_ActualCost input)) with
  | Err e => (no_snapshot, Some e, d)
  | Ok actual =>
      RunInTransaction (fun d =>
        r ← getBudgetReservation d (settle_ReservationID input) @@ no_snapshot;
        existing ← findBudgetPostingByIdentity d (res_BudgetID r) (settle_ID input)
                     (settle_IdempotencyKey input) @@ no_snapshot;
        match existing with
        | Some existing => replay_posting d input actual r existing
        | None => settle_active now d input actual r
        end) d
  end.

Definition replay_release (d : db) (input : ReleaseInput) (r : BudgetReservation)
    : result (BudgetSnapshot * error) (BudgetSnapshot * db) :=
  _ ← refuse (negb (bool_decide (res_Settlement r = Some (release_ReasonRedacted input))) ||
              negb (bool_decide (res_SettlementProvenanceJSON r = Some (release_ProvenanceJSON input))))
    no_snapshot
    (typedError ErrConflict "release provider budget" (Sentinel "released reservation reason changed"));
  latest d (res_BudgetID r).

Definition release_active (now : Z) (d : db) (input : ReleaseInput) (r : BudgetReservation)
    : result (BudgetSnapshot * error) (BudgetSnapshot * db) :=
  let operation := "release provider budget" in
  let micros := UnixMicro now in
  _ ← refuse (negb (res_State r =? BudgetReservationActive)) no_snapshot
    (typedError ErrConflict operation (Sentinel "committed reservation cannot be released"));
  current ← computeBudgetSnapshot d (res_BudgetID r) @@ no_snapshot;
  _ ← refuse (negb (snap_Revision current =? release_ExpectedRevision input)%Z) no_snapshot
    (typedError ErrStaleRevision operation (Sentinel "budget revision changed"));
  '(changed, d) ← writing operation
    (update_reservation json_valid d (res_ID r) (res_Revision r)
       (settled_row "released" (release_ReasonRedacted input) (release_ProvenanceJSON input) micros))
    @@ no_snapshot;
  _ ← refuse (negb changed) no_snapshot
    (typedError ErrConflict operation (Sentinel "reservation changed during release"));
  conclude_settlement now d (res_BudgetID r) (release_ExpectedRevision input) false.

Definition ReleaseProviderBudget (now : Z) (input : ReleaseInput) (d : db)
    : BudgetSnapshot * option error * db :=
  match validateReleaseProviderBudget input with
  | Some e => (no_snapshot, Some e, d)
  | None =>
      RunInTransaction (fun d =>
        r ← getBudgetReservation d (release_ReservationID input) @@ no_snapshot;
        if res_State r =? BudgetReservationReleased then replay_release d input r
        else release_active now d input r) d
  end.

Definition intended_row (input : IntentInput) (r : BudgetReservation) (slots : Z)
    (actual : option ExactMinorCost) (micros : Z) : intent_row :=
  {| i_id := intent_ID input; i_reservation_id := res_ID r; i_budget_id := res_BudgetID r;
     i_task_id := res_TaskID r; i_actual_slots := slots;
     i_cost_known := bool_decide (actual <> None); i_cost_numerator := Numerator <$> actual;
     i_cost_denominator := Denominator <$> actual; i_currency := Currency (res_CostBound r);
     i_tokens_known := bool_decide (intent_ActualTokens input <> None);
     i_actual_tokens := intent_ActualTokens input; i_reason := intent_ReasonRedacted input;
     i_idempotency_key := intent_IdempotencyKey input; i_provenance := intent_ProvenanceJSON input;
     i_created_at := micros |}.

Definition replay_intent (d : db) (input : IntentInput) (actual : option ExactMinorCost)
    (r : BudgetReservation) (existing : intent_row)
    : result (BudgetSnapshot * error) (BudgetSnapshot * db) :=
  slots ← normalizedActualProviderCallSlots r (intent_ActualProviderCallSlots input) @@ no_snapshot;
  cost ← (if i_cost_known existing then
            match ParseCurrencyCode (i_currency existing) with
            | Err e => Err (typedError ErrCorrupt "read budget reconciliation intent" (value_error e))
            | Ok currency => Ok (Some (exact (or_zero (i_cost_numerator existing))
                                         (or_zero (i_cost_denominator existing)) currency))
            end
          else Ok None) @@ no_snapshot;
  let tokens := if i_tokens_known existing then Some (or_zero (i_actual_tokens existing)) else None in
  _ ← refuse (negb (i_reservation_id existing =? intent_ReservationID input) ||
              negb (i_actual_slots existing =? slots)%Z || negb (exactCostEqual cost actual) ||
              negb (sameTokenCount tokens (intent_ActualTokens input)) ||
              negb (i_reason existing =? intent_ReasonRedacted input) ||
              negb (i_provenance existing =? intent_ProvenanceJSON input)) no_snapshot
    (typedError ErrConflict "record budget reconciliation intent"
       (Sentinel "reconciliation intent identity was reused with different billed usage"));
  latest d (res_BudgetID r).

Definition record_intent (now : Z) (d : db) (input : IntentInput)
    (actual : option ExactMinorCost) (r : BudgetReservation)
    : result (BudgetSnapshot * error) (BudgetSnapshot * db) :=
  let operation := "record budget reconciliation intent" in
  let micros := UnixMicro now in
  _ ← refuse (negb (res_State r =? BudgetReservationActive)) no_snapshot
    (typedError ErrConflict operation
       (Sentinel "only an unsettled active reservation needs reconciliation"));
  slots ← normalizedActualProviderCallSlots r (intent_ActualProviderCallSlots input) @@ no_snapshot;
  _ ← refuse (match actual with
              | Some cost => negb (Currency cost =? Currency (res_CostBound r))
              | None => false
              end) no_snapshot
    (typedError ErrConstraint operation (Sentinel "billed cost currency differs from reservation"));
  d ← writing operation (insert_intent json_valid d (intended_row input r slots actual micros))
        @@ no_snapshot;
  current ← computeBudgetSnapshot d (res_BudgetID r) @@ no_snapshot;
  '(newRevision, d) ← advanceBudgetRevision d (res_BudgetID r) (snap_Revision current) micros
                        @@ no_snapshot;
  let snapshot := stamped current newRevision (repositoryTime micros) in
  d ← persistBudgetSnapshot d snapshot @@ snapshot;
  d ← persistBudgetBoundaryEvents d snapshot micros @@ snapshot;
  Ok (snapshot, d).

Definition RecordBudgetReconciliationIntent (now : Z) (input : IntentInput) (d : db)
    : BudgetSnapshot * option error * db :=
  match (validateBudgetReconciliationIntent input ;! normalize_actual (intent_ActualCost input)) with
  | Err e => (no_snapshot, Some e, d)
  | Ok actual =>
      RunInTransaction (fun d =>
        r ← getBudgetReservation d (intent_ReservationID input) @@ no_snapshot;
        match by_identity i_budget_id i_id i_idempotency_key (res_BudgetID r) (intent_ID input)
                (intent_IdempotencyKey input) (intents d) with
        | Some existing => replay_intent d input actual r existing
        | None =>
            if has_posting d (res_ID r) then latest d (res_BudgetID r)
            else record_intent now d input actual r
        end) d
  end.

Definition raised_row (input : RaiseInput) (warning hard : ExactMinorCost) (revision micros : Z)
    : limit_row :=
  {| l_budget_id := raise_BudgetID input; l_revision := revision;
     l_warning_numerator := Numerator warning; l_warning_denominator := Denominator warning;
     l_hard_numerator := Numerator hard; l_hard_denominator := Denominator hard;
     l_currency := Currency hard; l_warning_tokens := raise_WarningTokens input;
     l_hard_tokens := raise_HardTokens input; l_approval_id := Some (raise_ApprovalID input);
     l_authority_kind := "user-approval"; l_actor_kind := raise_ActorKind input;
     l_actor_reference := raise_ActorReference input; l_reason := raise_ReasonRedacted input;
     l_idempotency_key := raise_IdempotencyKey input; l_provenance := raise_ProvenanceJSON input;
     l_created_at := micros |}.

(** The scan of a row without an approval fails: its column is read into a
    string. *)
Definition null_approval : error :=
  classify "find idempotent budget limit raise"
    (Driver ("sql: Scan error on column index 8, name " +:+ Quote "approval_id"
      +:+ ": converting NULL to string is unsupported")).

Definition replay_raise (d : db) (input : RaiseInput) (warning hard : ExactMinorCost)
    (existing : limit_row) : result (BudgetSnapshot * error) (BudgetSnapshot * db) :=
  match l_approval_id existing with
  | None => Err (no_snapshot, null_approval)
  | Some approval =>
  match ParseCurrencyCode (l_currency existing) with
  | Err e => Err (no_snapshot, typedError ErrCorrupt "read idempotent budget limit raise" (value_error e))
  | Ok currency =>
      _ ← refuse
        (negb (exactCostEqual (Some (exact (l_warning_numerator existing)
                                       (l_warning_denominator existing) currency)) (Some warning)) ||
         negb (exactCostEqual (Some (exact (l_hard_numerator existing)
                                       (l_hard_denominator existing) currency)) (Some hard)) ||
         negb (l_warning_tokens existing =? raise_WarningTokens input)%Z ||
         negb (l_hard_tokens existing =? raise_HardTokens input)%Z ||
         negb (approval =? raise_ApprovalID input) ||
         negb (l_actor_kind existing =? raise_ActorKind input) ||
         negb (l_actor_reference existing =? raise_ActorReference input) ||
         negb (l_reason existing =? raise_ReasonRedacted input) ||
         negb (l_provenance existing =? raise_ProvenanceJSON input)) no_snapshot
        (typedError ErrConflict "raise provider budget" (Sentinel
           "budget raise idempotency key was reused with different authority or limits"));
      latest d (raise_BudgetID input)
  end end.

(** A raise keeps every limit at least as high, and one hard limit higher. *)
Definition not_a_raise (input : RaiseInput) (warning hard : ExactMinorCost)
    (current : BudgetSnapshot) : bool :=
  let comparison := compareExactCosts hard (snap_HardCost current) in
  bool_decide (comparison = Lt) || (raise_HardTokens input <? snap_HardTokens current)%Z ||
  bool_decide (compareExactCosts warning (snap_WarningCost current) = Lt) ||
  (raise_WarningTokens input <? snap_WarningTokens current)%Z ||
  bool_decide (comparison = Eq) && (raise_HardTokens input =? snap_HardTokens current)%Z.

Definition raise_payload (input : RaiseInput) (limitRevision : Z) : string :=
  json_object [ ("approval_id", json_quote (raise_ApprovalID input));
                ("limit_revision", fmt_d limitRevision); ("schema_version", "1") ].

Definition raise_limit (now : Z) (d : db) (input : RaiseInput) (warning hard : ExactMinorCost)
    : result (BudgetSnapshot * error) (BudgetSnapshot * db) :=
  let operation := "raise provider budget" in
  let micros := UnixMicro now in
  current ← computeBudgetSnapshot d (raise_BudgetID input) @@ no_snapshot;
  _ ← refuse (negb (snap_Revision current =? raise_ExpectedRevision input)%Z) no_snapshot
    (typedError ErrStaleRevision operation (Sentinel "budget revision changed"));
  _ ← refuse (negb (Currency warning =? Currency (snap_HardCost current)) ||
              negb (Currency hard =? Currency (snap_HardCost current))) no_snapshot
    (typedError ErrConstraint operation (Sentinel "budget currency cannot change"));
  _ ← refuse (not_a_raise input warning hard current) no_snapshot
    (typedError ErrConstraint operation
       (Sentinel "approved budget raise must monotonically raise at least one hard cap"));
  match verifyGrantedBudgetApproval d (raise_ApprovalID input) (snap_TaskID current)
          (raise_BudgetID input) warning hard (raise_WarningTokens input) (raise_HardTokens input) with
  | Some e => Err (no_snapshot, e)
  | None => Ok tt
  end ≫= fun _ =>
  let limitRevision := add_u64 (snap_LimitRevision current) 1 in
  d ← writing operation
        (insert_limit json_valid d (raised_row input warning hard limitRevision micros)) @@ no_snapshot;
  '(snapshot, d) ← conclude_settlement now d (raise_BudgetID input) (raise_ExpectedRevision input) false;
  d ← insertBudgetEvent d snapshot "limit-raised" (raise_payload input limitRevision)
        (raise_IdempotencyKey input) micros @@ snapshot;
  Ok (snapshot, d).

Definition RaiseProviderBudget (now : Z) (input : RaiseInput) (d : db)
    : BudgetSnapshot * option error * db :=
  match validateRaiseProviderBudget input with
  | Err e => (no_snapshot, Some e, d)
  | Ok (warning, hard) =>
      RunInTransaction (fun d =>
        match find (fun l => (l_budget_id l =? raise_BudgetID input) &&
                             (l_idempotency_key l =? raise_IdempotencyKey input)) (limit_revisions d) with
        | Some existing => replay_raise d input warning hard existing
        | None => raise_limit now d input warning hard
        end) d
  end.

(** [snapshot.Categories = categories]. *)
Definition with_categories (s : BudgetSnapshot) (categories : list BudgetCategorySnapshot)
    : BudgetSnapshot :=
  {| snap_BudgetID := snap_BudgetID s; snap_TaskID := snap_TaskID s;
     snap_Revision := snap_Revision s; snap_LimitRevision := snap_LimitRevision s;
     snap_WarningCost := snap_WarningCost s; snap_HardCost := snap_HardCost s;
     snap_WarningTokens := snap_WarningTokens s; snap_HardTokens := snap_HardTokens s;
     snap_ReservedCost := snap_ReservedCost s; snap_ChargedCost := snap_ChargedCost s;
     snap_ActualKnownCost := snap_ActualKnownCost s;
     snap_CostAccountingUnknown := snap_CostAccountingUnknown s;
     snap_RemainingCost := snap_RemainingCost s; snap_ReservedTokens := snap_ReservedTokens s;
     snap_ChargedTokens := snap_ChargedTokens s; snap_ActualTokens := snap_ActualTokens s;
     snap_TokenAccountingUnknown := snap_TokenAccountingUnknown s;
     snap_RemainingTokens := snap_RemainingTokens s; snap_WarningReached := snap_WarningReached s;
     snap_HardCapReached := snap_HardCapReached s;
     snap_ProviderCallSlots := snap_ProviderCallSlots s;
     snap_ReconciliationPending := snap_ReconciliationPending s;
     snap_Categories := categories; snap_CreatedAt := snap_CreatedAt s |}.

Definition GetBudgetSnapshot (task : ID) (d : db) : result error BudgetSnapshot :=
  if IsZero task then Err (Sentinel "task ID must not be empty")
  else match find (fun b => b_task_id b =? task) (budgets d) with
  | None => Err (typedError ErrNotFound "get budget snapshot" (Sentinel ErrNoRows))
  | Some b =>
      match parseTypedID budgetIDKind (b_id b) with
      | Err e => Err (typedError ErrCorrupt "get budget snapshot identity"
                        (Sentinel (IDParseError_Error e)))
      | Ok budgetID =>
          snapshot ← scanLatestBudgetSnapshot d budgetID;
          snapshot ← (if negb (b_revision b =? snap_Revision snapshot)%Z
                      then computeBudgetSnapshot d budgetID else Ok snapshot);
          categories ← loadBudgetCategorySnapshots d budgetID (Currency (snap_WarningCost snapshot));
          Ok (with_categories snapshot categories)
      end
  end.

End Ledger.
