(* ===== verification/BudgetAccounts.v ===== *)
(** * Approvals and budget accounts (src/internal/storage/authority_repository.go,
    preapproval_budget_repository.go, task_budget_adjustment_repository.go)

    Creating and resolving approvals, creating a budget, the two operations on
    the aggregates of a budget's own row, the adjustment of a budget before
    approval, and finding the approval of a raise. The JSON forms of a budget
    are parameters. *)

From Stdlib Require Import Ascii QArith.
From S2P Require Import Prelude GoText GoErrors PolicyValues Identity Pricing States FixedPolicy.
From S2P Require Import BudgetSchema BudgetSnapshots BudgetLedger.
Open Scope string_scope.
Open Scope list_scope.
Open Scope go_scope.

Section Accounts.
Context (json_valid : string -> bool).

(** ** Approvals *)

Record Approval := {
  approval_ID : ID;
  approval_TaskID : ID;
  approval_RunID : option ID;
  approval_State : ApprovalRequestState;
  approval_Scope : string;
  approval_RequestReason : string;
  approval_ResolutionReason : option string;
  approval_IdempotencyKey : string;
  approval_RequestedAt : Z;
  approval_DecidedAt : option Z;
  approval_ExpiresAt : option Z;
  approval_Revision : Z;
}.

Definition no_approval : Approval :=
  {| approval_ID := ""; approval_TaskID := ""; approval_RunID := None; approval_State := "";
     approval_Scope := ""; approval_RequestReason := ""; approval_ResolutionReason := None;
     approval_IdempotencyKey := ""; approval_RequestedAt := 0; approval_DecidedAt := None;
     approval_ExpiresAt := None; approval_Revision := 0 |}.

Record CreateApprovalInput := {
  request_ID : ID;
  request_TaskID : ID;
  request_RunID : option ID;
  request_Scope : string;
  request_RequestReason : string;
  request_IdempotencyKey : string;
  request_ExpiresAt : option Z;
}.

Record ResolveApprovalInput := {
  resolve_ID : ID;
  resolve_ExpectedRevision : Z;
  resolve_To : ApprovalRequestState;
  resolve_ResolutionReason : string;
}.

Definition scanApproval (row : option approval_row) (operation : string) : result error Approval :=
  match row with
  | None => Err (typedError ErrNotFound operation (Sentinel ErrNoRows))
  | Some a =>
      run ← (match a_run_id a with
             | None => Ok None
             | Some raw => match parseTypedID runIDKind raw with
                           | Err e => Err (typedError ErrCorrupt operation
                                             (Sentinel (IDParseError_Error e)))
                           | Ok id => Ok (Some id)
                           end
             end);
      Ok {| approval_ID := a_id a; approval_TaskID := a_task_id a; approval_RunID := run;
            approval_State := a_state a; approval_Scope := a_scope a;
            approval_RequestReason := a_request_reason a;
            approval_ResolutionReason := a_resolution_reason a;
            approval_IdempotencyKey := a_idempotency_key a;
            approval_RequestedAt := repositoryTime (a_requested_at a);
            approval_DecidedAt := repositoryTime <$> a_decided_at a;
            approval_ExpiresAt := repositoryTime <$> a_expires_at a;
            approval_Revision := a_revision a |}
  end.

Definition findApprovalByIdempotency (d : db) (task : ID) (key : string)
    : result error (option Approval) :=
  match find (fun a => (a_task_id a =? task) && (a_idempotency_key a =? key)) (approvals d) with
  | None => Ok None
  | Some a => approval ← scanApproval (Some a) "find idempotent approval"; Ok (Some approval)
  end.

(** src/internal/storage/task_repository.go *)
Definition verifyRunBelongsToTask (d : db) (run task : ID) (operation : string) : option error :=
  match find (fun r => r.1 =? run) (runs d) with
  | None => Some (typedError ErrConstraint operation (Sentinel ErrNoRows))
  | Some (_, owner) =>
      if negb (owner =? task) then
        Some (typedError ErrConstraint operation (Sentinel "run does not belong to task"))
      else None
  end.

Definition requested_row (input : CreateApprovalInput) (micros : Z) : approval_row :=
  {| a_id := request_ID input; a_task_id := request_TaskID input; a_run_id := request_RunID input;
     a_state := "pending"; a_scope := request_Scope input;
     a_request_reason := request_RequestReason input; a_resolution_reason := None;
     a_idempotency_key := request_IdempotencyKey input; a_requested_at := micros;
     a_decided_at := None; a_expires_at := UnixMicro <$> request_ExpiresAt input; a_revision := 0 |}.

Definition requested_approval (input : CreateApprovalInput) (now : Z) : Approval :=
  {| approval_ID := request_ID input; approval_TaskID := request_TaskID input;
     approval_RunID := request_RunID input; approval_State := ApprovalRequestStatePending;
     approval_Scope := request_Scope input; approval_RequestReason := request_RequestReason input;
     approval_ResolutionReason := None; approval_IdempotencyKey := request_IdempotencyKey input;
     approval_RequestedAt := now; approval_DecidedAt := None;
     approval_ExpiresAt := request_ExpiresAt input; approval_Revision := 0 |}.

Definition CreateApproval (now : Z) (input : CreateApprovalInput) (d : db)
    : Approval * option error * db :=
  if IsZero (request_ID input) then
    (no_approval, Some (Sentinel "approval ID must not be empty"), d)
  else if IsZero (request_TaskID input) then
    (no_approval, Some (Sentinel "task ID must not be empty"), d)
  else match (validateBounded "approval scope" (request_Scope input) 1024 ;?
              validateBounded "approval request reason" (request_RequestReason input) 2048 ;?
              validateBounded "approval idempotency key" (request_IdempotencyKey input) 255) with
  | Some e => (no_approval, Some e, d)
  | None =>
      if match request_ExpiresAt input with Some expires => (expires <? now)%Z | None => false end then
        (no_approval, Some (Sentinel "approval expiration must not precede request time"), d)
      else
        let approval := requested_approval input now in
        RunInTransaction (fun d =>
          existing ← findApprovalByIdempotency d (request_TaskID input) (request_IdempotencyKey input)
                       @@ approval;
          match existing with
          | Some existing =>
              _ ← refuse (negb (approval_ID existing =? request_ID input) ||
                          negb (bool_decide (approval_RunID existing = request_RunID input)) ||
                          negb (approval_Scope existing =? request_Scope input) ||
                          negb (approval_RequestReason existing =? request_RequestReason input) ||
                          negb (bool_decide (approval_ExpiresAt existing = request_ExpiresAt input)))
                approval
                (typedError ErrConflict "create idempotent approval"
                   (Sentinel "idempotency key belongs to different approval"));
              Ok (existing, d)
          | None =>
              match match request_RunID input with
                    | Some run => verifyRunBelongsToTask d run (request_TaskID input) "create approval"
                    | None => None
                    end with
              | Some e => Err (approval, e)
              | None =>
                  d ← writing "create approval"
                        (insert_approval d (requested_row input (UnixMicro now))) @@ approval;
                  Ok (approval, d)
              end
          end) d
  end.

Definition resolved_row (input : ResolveApprovalInput) (micros : Z) (a : approval_row) : approval_row :=
  {| a_id := a_id a; a_task_id := a_task_id a; a_run_id := a_run_id a; a_state := resolve_To input;
     a_scope := a_scope a; a_request_reason := a_request_reason a;
     a_resolution_reason := Some (resolve_ResolutionReason input);
     a_idempotency_key := a_idempotency_key a; a_requested_at := a_requested_at a;
     a_decided_at := Some micros; a_expires_at := a_expires_at a; a_revision := a_revision a + 1 |}.

Definition resolved_approval (input : ResolveApprovalInput) (now : Z) (a : Approval) : Approval :=
  {| approval_ID := approval_ID a; approval_TaskID := approval_TaskID a;
     approval_RunID := approval_RunID a; approval_State := resolve_To input;
     approval_Scope := approval_Scope a; approval_RequestReason := approval_RequestReason a;
     approval_ResolutionReason := Some (resolve_ResolutionReason input);
     approval_IdempotencyKey := approval_IdempotencyKey a;
     approval_RequestedAt := approval_RequestedAt a; approval_DecidedAt := Some now;
     approval_ExpiresAt := approval_ExpiresAt a;
     approval_Revision := add_u64 (approval_Revision a) 1 |}.

Definition ResolveApproval (now : Z) (input : ResolveApprovalInput) (d : db)
    : Approval * option error * db :=
  if IsZero (resolve_ID input) then
    (no_approval, Some (Sentinel "approval ID must not be empty"), d)
  else match ValidateApprovalRequestTransition ApprovalRequestStatePending (resolve_To input) with
  | Some e => (no_approval, Some (Sentinel (TransitionError_Error e)), d)
  | None =>
  match validateBounded "approval resolution reason" (resolve_ResolutionReason input) 2048 with
  | Some e => (no_approval, Some e, d)
  | None =>
      RunInTransaction (fun d =>
        current ← scanApproval (find (fun a => a_id a =? resolve_ID input) (approvals d))
                    "read approval for resolution" @@ no_approval;
        _ ← refuse (negb (approval_Revision current =? resolve_ExpectedRevision input)%Z ||
                    negb (approval_State current =? ApprovalRequestStatePending)) no_approval
          (typedError ErrStaleRevision "resolve approval" (Sentinel "approval state or revision changed"));
        '(changed, d) ← writing "resolve approval"
          (update_approval d (resolve_ID input) (resolve_ExpectedRevision input)
             (resolved_row input (UnixMicro now))) @@ no_approval;
        _ ← refuse (negb changed) no_approval
          (typedError ErrStaleRevision "resolve approval"
             (Sentinel "approval revision changed during resolution"));
        Ok (resolved_approval input now current, d)) d
  end end.

(** ** Budget accounts *)

Record BudgetAccount := {
  account_Budget : TaskBudget;
  account_TaskID : ID;
  account_ReservedCost : Money;
  account_ActualCost : Money;
  account_ActualTokens : Z;
  account_CreatedAt : Z;
  account_UpdatedAt : Z;
  account_Revision : Z;
}.

Definition no_account : BudgetAccount :=
  {| account_Budget :=
       {| TaskBudget_ID := ""; TaskBudget_WarningCost := Money_zero;
          TaskBudget_HardStopCost := Money_zero; TaskBudget_WarningTokens := 0;
          TaskBudget_HardStopTokens := 0; TaskBudget_WarningWallClock := 0;
          TaskBudget_HardStopWallClock := 0; TaskBudget_MaximumProviderCalls := 0;
          TaskBudget_MaximumRepairRounds := 0; TaskBudget_MaximumToolExecutions := 0 |};
     account_TaskID := ""; account_ReservedCost := Money_zero; account_ActualCost := Money_zero;
     account_ActualTokens := 0; account_CreatedAt := 0; account_UpdatedAt := 0;
     account_Revision := 0 |}.

Definition scanBudget (row : option budget_row) (operation : string) : result error BudgetAccount :=
  match row with
  | None => Err (typedError ErrNotFound operation (Sentinel ErrNoRows))
  | Some b =>
      match ParseCurrencyCode (b_currency b) with
      | Err e => Err (typedError ErrCorrupt operation (value_error e))
      | Ok currency =>
          let money minor := {| Money_Currency := currency; Money_MinorUnits := minor |} in
          Ok {| account_Budget :=
                  {| TaskBudget_ID := b_id b; TaskBudget_WarningCost := money (b_warning_cost b);
                     TaskBudget_HardStopCost := money (b_hard_cost b);
                     TaskBudget_WarningTokens := b_warning_tokens b;
                     TaskBudget_HardStopTokens := b_hard_tokens b;
                     TaskBudget_WarningWallClock := b_warning_wall b;
                     TaskBudget_HardStopWallClock := b_hard_wall b;
                     TaskBudget_MaximumProviderCalls := b_maximum_provider_calls b;
                     TaskBudget_MaximumRepairRounds := b_maximum_repair_rounds b;
                     TaskBudget_MaximumToolExecutions := b_maximum_tool_executions b |};
                account_TaskID := b_task_id b; account_ReservedCost := money (b_reserved_cost b);
                account_ActualCost := money (b_actual_cost b);
                account_ActualTokens := b_actual_tokens b;
                account_CreatedAt := repositoryTime (b_created_at b);
                account_UpdatedAt := repositoryTime (b_updated_at b);
                account_Revision := b_revision b |}
      end
  end.

Definition created_row (task : ID) (b : TaskBudget) (micros : Z) : budget_row :=
  {| b_id := TaskBudget_ID b; b_task_id := task;
     b_currency := Money_Currency (TaskBudget_WarningCost b);
     b_warning_cost := Money_MinorUnits (TaskBudget_WarningCost b);
     b_hard_cost := Money_MinorUnits (TaskBudget_HardStopCost b);
     b_warning_tokens := TaskBudget_WarningTokens b; b_hard_tokens := TaskBudget_HardStopTokens b;
     b_warning_wall := TaskBudget_WarningWallClock b; b_hard_wall := TaskBudget_HardStopWallClock b;
     b_maximum_provider_calls := TaskBudget_MaximumProviderCalls b;
     b_maximum_repair_rounds := TaskBudget_MaximumRepairRounds b;
     b_maximum_tool_executions := TaskBudget_MaximumToolExecutions b; b_reserved_cost := 0;
     b_actual_cost := 0; b_actual_tokens := 0; b_created_at := micros; b_updated_at := micros;
     b_revision := 0 |}.

Definition created_account (task : ID) (b : TaskBudget) (now : Z) : BudgetAccount :=
  let zero := {| Money_Currency := Money_Currency (TaskBudget_WarningCost b); Money_MinorUnits := 0 |} in
  {| account_Budget := b; account_TaskID := task; account_ReservedCost := zero;
     account_ActualCost := zero; account_ActualTokens := 0; account_CreatedAt := now;
     account_UpdatedAt := now; account_Revision := 0 |}.

Definition CreateBudget (now : Z) (task : ID) (b : TaskBudget) (d : db)
    : BudgetAccount * option error * db :=
  if IsZero task then (no_account, Some (Sentinel "task ID must not be empty"), d)
  else match TaskBudget_Validate b with
  | Some e => (no_account, Some (value_error e), d)
  | None =>
      if (max_int64 <? TaskBudget_WarningTokens b)%Z || (max_int64 <? TaskBudget_HardStopTokens b)%Z
      then (no_account, Some (Sentinel "budget token threshold exceeds SQLite integer range"), d)
      else
        let account := created_account task b now in
        RunInTransaction (fun d =>
          d ← writing "create budget" (insert_budget json_valid d (created_row task b (UnixMicro now)))
                @@ account;
          Ok (account, d)) d
  end.

(** The aggregates of a row, with its next revision. *)
Definition reposted_row (reserved actual tokens micros : Z) (b : budget_row) : budget_row :=
  {| b_id := b_id b; b_task_id := b_task_id b; b_currency := b_currency b;
     b_warning_cost := b_warning_cost b; b_hard_cost := b_hard_cost b;
     b_warning_tokens := b_warning_tokens b; b_hard_tokens := b_hard_tokens b;
     b_warning_wall := b_warning_wall b; b_hard_wall := b_hard_wall b;
     b_maximum_provider_calls := b_maximum_provider_calls b;
     b_maximum_repair_rounds := b_maximum_repair_rounds b;
     b_maximum_tool_executions := b_maximum_tool_executions b; b_reserved_cost := reserved;
     b_actual_cost := actual; b_actual_tokens := tokens; b_created_at := b_created_at b;
     b_updated_at := micros; b_revision := b_revision b + 1 |}.

Definition reposted_account (reserved actual tokens micros : Z) (a : BudgetAccount) : BudgetAccount :=
  let money (m : Money) minor := {| Money_Currency := Money_Currency m; Money_MinorUnits := minor |} in
  {| account_Budget := account_Budget a; account_TaskID := account_TaskID a;
     account_ReservedCost := money (account_ReservedCost a) reserved;
     account_ActualCost := money (account_ActualCost a) actual; account_ActualTokens := tokens;
     account_CreatedAt := account_CreatedAt a; account_UpdatedAt := repositoryTime micros;
     account_Revision := add_u64 (account_Revision a) 1 |}.

(** Whether a reservation of the account fits the exact ledger and the row. *)
Definition admit_account_reservation (d : db) (budget : ID) (expected : Z) (amount : Money)
    (current : BudgetAccount) : option error :=
  let operation := "reserve budget" in
  let refused kind text := Some (typedError kind operation (Sentinel text)) in
  if negb (account_Revision current =? expected)%Z then
    refused ErrStaleRevision "budget revision changed"
  else if negb (Money_Currency (TaskBudget_WarningCost (account_Budget current)) =?
                Money_Currency amount) then refused ErrConstraint "currency mismatch"
  else match computeBudgetSnapshot d budget with
  | Err e => Some e
  | Ok s =>
      if snap_CostAccountingUnknown s || snap_TokenAccountingUnknown s then
        refused ErrBudgetAccountingUnknown "prior settled usage is unknown"
      else if snap_HardCapReached s then refused ErrBudgetExhausted "task hard cap is already reached"
      else match (exposure ← addExactCosts (snap_ReservedCost s) (snap_ChargedCost s);
                  addExactCosts exposure (exact (Money_MinorUnits amount) 1 (Money_Currency amount))) with
      | Err e => Some e
      | Ok exposure =>
          if cost_gt exposure (snap_HardCost s) then refused ErrConstraint "hard cost cap exceeded"
          else if (sub64 (sub64 (Money_MinorUnits (TaskBudget_HardStopCost (account_Budget current)))
                            (Money_MinorUnits (account_ReservedCost current)))
                     (Money_MinorUnits (account_ActualCost current)) <? Money_MinorUnits amount)%Z
          then refused ErrConstraint "hard cost cap exceeded"
          else None
      end
  end.

Definition ReserveBudget (now : Z) (budget : ID) (expected : Z) (amount : Money) (d : db)
    : BudgetAccount * option error * db :=
  let micros := UnixMicro now in
  if IsZero budget then (no_account, Some (Sentinel "budget ID must not be empty"), d)
  else match Money_Validate amount with
  | Some e => (no_account, Some (value_error e), d)
  | None =>
      if (Money_MinorUnits amount <? 0)%Z then
        (no_account, Some (Sentinel "reservation amount must not be negative"), d)
      else RunInTransaction (fun d =>
        current ← scanBudget (find_budget d budget) "read budget for reservation" @@ no_account;
        match admit_account_reservation d budget expected amount current with
        | Some e => Err (no_account, e)
        | None =>
            '(changed, d) ← writing "reserve budget" (update_budget d budget expected (fun b =>
              reposted_row (b_reserved_cost b + Money_MinorUnits amount) (b_actual_cost b)
                (b_actual_tokens b) micros b)) @@ no_account;
            _ ← refuse (negb changed) no_account
              (typedError ErrStaleRevision "reserve budget" (Sentinel "budget changed"));
            Ok (reposted_account
                  (add64 (Money_MinorUnits (account_ReservedCost current)) (Money_MinorUnits amount))
                  (Money_MinorUnits (account_ActualCost current)) (account_ActualTokens current)
                  micros current, d)
        end) d
  end.

Record PostActualCostInput := {
  post_ID : ID;
  post_ExpectedRevision : Z;
  post_Actual : Money;
  post_ReleaseReservedMinor : Z;
  post_Tokens : Z;
}.

(** The values a posting of actual cost leaves in the row, when it is allowed. *)
Definition admit_actual_cost (input : PostActualCostInput) (current : BudgetAccount)
    : result error (Z * Z) :=
  let operation := "post actual cost" in
  let refused kind text := Err (typedError kind operation (Sentinel text)) in
  let reserved := Money_MinorUnits (account_ReservedCost current) in
  let actual := Money_MinorUnits (account_ActualCost current) in
  let hard := Money_MinorUnits (TaskBudget_HardStopCost (account_Budget current)) in
  if negb (account_Revision current =? post_ExpectedRevision input)%Z then
    refused ErrStaleRevision "budget revision changed"
  else if negb (Money_Currency (TaskBudget_WarningCost (account_Budget current)) =?
                Money_Currency (post_Actual input)) then refused ErrConstraint "currency mismatch"
  else if (reserved <? post_ReleaseReservedMinor input)%Z then
    refused ErrConstraint "release exceeds reservation"
  else if (sub64 max_int64 actual <? Money_MinorUnits (post_Actual input))%Z then
    refused ErrConstraint "actual cost overflow"
  else if (sub_u64 max_int64 (account_ActualTokens current) <? post_Tokens input)%Z then
    refused ErrConstraint "actual token overflow"
  else
    let newReserved := sub64 reserved (post_ReleaseReservedMinor input) in
    let newActual := add64 actual (Money_MinorUnits (post_Actual input)) in
    if (hard <? newReserved)%Z || (sub64 hard newReserved <? newActual)%Z then
      refused ErrConstraint "hard cost cap exceeded"
    else Ok (newReserved, newActual).

Definition PostActualCost (now : Z) (input : PostActualCostInput) (d : db)
    : BudgetAccount * option error * db :=
  let micros := UnixMicro now in
  if IsZero (post_ID input) then (no_account, Some (Sentinel "budget ID must not be empty"), d)
  else match Money_Validate (post_Actual input) with
  | Some e => (no_account, Some (value_error e), d)
  | None =>
      if (Money_MinorUnits (post_Actual input) <? 0)%Z || (post_ReleaseReservedMinor input <? 0)%Z then
        (no_account, Some (Sentinel "actual cost and reservation release must not be negative"), d)
      else if (max_int64 <? post_Tokens input)%Z then
        (no_account, Some (Sentinel "actual token count exceeds SQLite integer range"), d)
      else RunInTransaction (fun d =>
        current ← scanBudget (find_budget d (post_ID input)) "read budget for actual cost" @@ no_account;
        '(newReserved, newActual) ← admit_actual_cost input current @@ no_account;
        '(changed, d) ← writing "post actual cost"
          (update_budget d (post_ID input) (post_ExpectedRevision input) (fun b =>
             reposted_row newReserved newActual (b_actual_tokens b + post_Tokens input) micros b))
          @@ no_account;
        _ ← refuse (negb changed) no_account
          (typedError ErrStaleRevision "post actual cost" (Sentinel "budget changed"));
        Ok (reposted_account newReserved newActual
              (add_u64 (account_ActualTokens current) (post_Tokens input)) micros current, d)) d
  end.

(** ** Adjusting a budget before approval *)

Context (marshal_budget : TaskBudget -> string) (unmarshal_budget : string -> option TaskBudget).

Record PreApprovalBudgetAdjustment := {
  adjustment_BudgetID : ID;
  adjustment_TaskID : ID;
  adjustment_Revision : Z;
  adjustment_PreviousLimitRevision : Z;
  adjustment_AdjustedLimitRevision : Z;
  adjustment_Previous : TaskBudget;
  adjustment_Adjusted : TaskBudget;
  adjustment_Actor : string;
  adjustment_AuthorityReference : string;
  adjustment_Reason : string;
  adjustment_IdempotencyKey : string;
  adjustment_CreatedAt : Z;
}.

Record AdjustInput := {
  adjust_BudgetID : ID;
  adjust_ExpectedBudgetRevision : Z;
  adjust_ExpectedLimitRevision : Z;
  adjust_Requested : TaskBudget;
  adjust_Actor : string;
  adjust_AuthorityReference : string;
  adjust_Reason : string;
  adjust_IdempotencyKey : string;
}.

Definition no_adjustment : PreApprovalBudgetAdjustment :=
  {| adjustment_BudgetID := ""; adjustment_TaskID := ""; adjustment_Revision := 0;
     adjustment_PreviousLimitRevision := 0; adjustment_AdjustedLimitRevision := 0;
     adjustment_Previous := account_Budget no_account;
     adjustment_Adjusted := account_Budget no_account; adjustment_Actor := "";
     adjustment_AuthorityReference := ""; adjustment_Reason := ""; adjustment_IdempotencyKey := "";
     adjustment_CreatedAt := 0 |}.

Definition policy_error (e : PolicyError) : error :=
  match e with
  | ErrInvalidPolicy detail => sentinel_text "invalid fixed policy" detail
  | ErrBudgetAdjustmentTooLate => Sentinel "budget adjustment is only allowed before approval"
  end.

Definition findPreApprovalBudgetAdjustment (d : db) (budget : ID) (key : string)
    : result error (option PreApprovalBudgetAdjustment) :=
  match find (fun r => (pa_budget_id r =? budget) && (pa_idempotency_key r =? key)) (adjustments d) with
  | None => Ok None
  | Some r =>
      match unmarshal_budget (pa_previous_json r) with
      | None => Err (typedError ErrCorrupt "decode previous budget" (Sentinel "invalid JSON"))
      | Some previous =>
      match unmarshal_budget (pa_adjusted_json r) with
      | None => Err (typedError ErrCorrupt "decode adjusted budget" (Sentinel "invalid JSON"))
      | Some adjusted =>
          if blank (pa_actor r) || blank (pa_authority r) || blank (pa_reason r) then
            Err (typedError ErrCorrupt "read pre-approval budget adjustment"
                   (Sentinel "attribution is incomplete"))
          else Ok (Some
            {| adjustment_BudgetID := pa_budget_id r; adjustment_TaskID := pa_task_id r;
               adjustment_Revision := pa_revision r;
               adjustment_PreviousLimitRevision := pa_previous_limit_revision r;
               adjustment_AdjustedLimitRevision := pa_adjusted_limit_revision r;
               adjustment_Previous := previous; adjustment_Adjusted := adjusted;
               adjustment_Actor := pa_actor r; adjustment_AuthorityReference := pa_authority r;
               adjustment_Reason := pa_reason r; adjustment_IdempotencyKey := pa_idempotency_key r;
               adjustment_CreatedAt := repositoryTime (pa_created_at r) |})
      end end
  end.

(** Whether anything has been reserved or spent. *)
Definition has_exposure (s : BudgetSnapshot) : bool :=
  negb (Numerator (snap_ReservedCost s) =? 0)%Z || negb (Numerator (snap_ChargedCost s) =? 0)%Z ||
  negb (Numerator (snap_ActualKnownCost s) =? 0)%Z || negb (snap_ReservedTokens s =? 0)%Z ||
  negb (snap_ChargedTokens s =? 0)%Z || negb (snap_ActualTokens s =? 0)%Z ||
  snap_CostAccountingUnknown s || snap_TokenAccountingUnknown s || snap_ReconciliationPending s ||
  negb (snap_ProviderCallSlots s =? 0)%Z.

Definition adjusted_limit (input : AdjustInput) (revision micros : Z) : limit_row :=
  let b := adjust_Requested input in
  {| l_budget_id := adjust_BudgetID input; l_revision := revision;
     l_warning_numerator := Money_MinorUnits (TaskBudget_WarningCost b);
     l_warning_denominator := 1;
     l_hard_numerator := Money_MinorUnits (TaskBudget_HardStopCost b); l_hard_denominator := 1;
     l_currency := Money_Currency (TaskBudget_WarningCost b);
     l_warning_tokens := TaskBudget_WarningTokens b; l_hard_tokens := TaskBudget_HardStopTokens b;
     l_approval_id := None; l_authority_kind := "preapproval-user-adjustment";
     l_actor_kind := "user"; l_actor_reference := adjust_Actor input; l_reason := adjust_Reason input;
     l_idempotency_key := adjust_IdempotencyKey input;
     l_provenance := json_object
       [ ("authority_reference", json_quote (adjust_AuthorityReference input));
         ("schema_version", "1"); ("source", json_quote "preapproval-budget-adjustment") ];
     l_created_at := micros |}.

Definition adjusted_row (input : AdjustInput) (micros : Z) (r : budget_row) : budget_row :=
  let b := adjust_Requested input in
  {| b_id := b_id r; b_task_id := b_task_id r; b_currency := b_currency r;
     b_warning_cost := Money_MinorUnits (TaskBudget_WarningCost b);
     b_hard_cost := Money_MinorUnits (TaskBudget_HardStopCost b);
     b_warning_tokens := TaskBudget_WarningTokens b; b_hard_tokens := TaskBudget_HardStopTokens b;
     b_warning_wall := TaskBudget_WarningWallClock b; b_hard_wall := TaskBudget_HardStopWallClock b;
     b_maximum_provider_calls := TaskBudget_MaximumProviderCalls b;
     b_maximum_repair_rounds := TaskBudget_MaximumRepairRounds b;
     b_maximum_tool_executions := TaskBudget_MaximumToolExecutions b;
     b_reserved_cost := b_reserved_cost r; b_actual_cost := b_actual_cost r;
     b_actual_tokens := b_actual_tokens r; b_created_at := b_created_at r; b_updated_at := micros;
     b_revision := b_revision r + 1 |}.

Definition next_adjustment (d : db) (budget : ID) : Z :=
  foldr Z.max 0 (map pa_revision (filter (fun r => pa_budget_id r =? budget) (adjustments d))) + 1.

Definition adjustment_to_row (input : AdjustInput) (task : ID) (revision limitRevision micros : Z)
    (previous adjusted : TaskBudget) : adjustment_row :=
  {| pa_budget_id := adjust_BudgetID input; pa_revision := revision; pa_task_id := task;
     pa_previous_limit_revision := limitRevision;
     pa_adjusted_limit_revision := add_u64 limitRevision 1;
     pa_previous_json := marshal_budget previous; pa_adjusted_json := marshal_budget adjusted;
     pa_actor := adjust_Actor input; pa_authority := adjust_AuthorityReference input;
     pa_reason := adjust_Reason input; pa_idempotency_key := adjust_IdempotencyKey input;
     pa_created_at := micros |}.

Definition adjust_new (now : Z) (d : db) (input : AdjustInput)
    : result ((PreApprovalBudgetAdjustment * BudgetSnapshot) * error)
        ((PreApprovalBudgetAdjustment * BudgetSnapshot) * db) :=
  let operation := "adjust budget before approval" in
  let none := (no_adjustment, no_snapshot) in
  let micros := UnixMicro now in
  current ← scanBudget (find_budget d (adjust_BudgetID input)) "load pre-approval budget" @@ none;
  _ ← refuse (negb (account_Revision current =? adjust_ExpectedBudgetRevision input)%Z) none
    (typedError ErrStaleRevision operation (Sentinel "budget revision changed"));
  match find (fun t => t.1 =? account_TaskID current) (tasks d) with
  | None => Err (none, text_cause "load budget task state" (Sentinel ErrNoRows))
  | Some (_, state) =>
  match AdjustBudgetBeforeApproval state (account_Budget current) (adjust_Requested input)
          (adjust_Actor input) (adjust_AuthorityReference input) (adjust_Reason input) with
  | Err e => Err (none, policy_error e)
  | Ok attributed =>
      let previous := BudgetAdjustment_Previous attributed in
      let adjusted := BudgetAdjustment_Adjusted attributed in
      _ ← refuse (negb (Money_Currency (TaskBudget_WarningCost adjusted) =?
                        Money_Currency (TaskBudget_WarningCost previous))) none
        (typedError ErrConstraint operation (Sentinel "budget currency cannot change"));
      snapshot ← scanLatestBudgetSnapshot d (adjust_BudgetID input) @@ none;
      _ ← refuse (negb (snap_LimitRevision snapshot =? adjust_ExpectedLimitRevision input)%Z)
        (no_adjustment, snapshot)
        (typedError ErrStaleRevision operation (Sentinel "budget limit revision changed"));
      _ ← refuse (has_exposure snapshot) (no_adjustment, snapshot)
        (typedError ErrConstraint operation (Sentinel "budget already has execution exposure"));
      let limitRevision := snap_LimitRevision snapshot in
      d ← writing "record adjusted budget limit"
            (insert_limit json_valid d (adjusted_limit input (add_u64 limitRevision 1) micros))
            @@ (no_adjustment, snapshot);
      '(changed, d) ← writing "apply adjusted budget"
        (update_budget d (adjust_BudgetID input) (adjust_ExpectedBudgetRevision input)
           (adjusted_row input micros)) @@ (no_adjustment, snapshot);
      _ ← refuse (negb changed) (no_adjustment, snapshot)
        (typedError ErrStaleRevision operation (Sentinel "budget revision changed during adjustment"));
      let revision := next_adjustment d (adjust_BudgetID input) in
      d ← writing "record budget adjustment"
            (insert_adjustment json_valid d (adjustment_to_row input (account_TaskID current) revision
               limitRevision micros previous adjusted)) @@ (no_adjustment, snapshot);
      snapshot ← computeBudgetSnapshot d (adjust_BudgetID input) @@ none;
      let snapshot := stamped snapshot (snap_Revision snapshot) (repositoryTime micros) in
      d ← persistBudgetSnapshot d snapshot @@ (no_adjustment, snapshot);
      Ok (({| adjustment_BudgetID := adjust_BudgetID input; adjustment_TaskID := account_TaskID current;
              adjustment_Revision := revision;
              adjustment_PreviousLimitRevision := sub_u64 (snap_LimitRevision snapshot) 1;
              adjustment_AdjustedLimitRevision := snap_LimitRevision snapshot;
              adjustment_Previous := previous; adjustment_Adjusted := adjusted;
              adjustment_Actor := adjust_Actor input;
              adjustment_AuthorityReference := adjust_AuthorityReference input;
              adjustment_Reason := adjust_Reason input;
              adjustment_IdempotencyKey := adjust_IdempotencyKey input;
              adjustment_CreatedAt := repositoryTime micros |}, snapshot), d)
  end end.

Definition AdjustBudget (now : Z) (input : AdjustInput) (d : db)
    : (PreApprovalBudgetAdjustment * BudgetSnapshot) * option error * db :=
  let none := (no_adjustment, no_snapshot) in
  let requested := adjust_Requested input in
  if IsZero (adjust_BudgetID input) || IsZero (TaskBudget_ID requested) then
    (none, Some (Sentinel "budget identity is required"), d)
  else if negb (adjust_BudgetID input =? TaskBudget_ID requested) then
    (none, Some (Sentinel "requested budget identity differs"), d)
  else match validateBounded "budget adjustment idempotency key" (adjust_IdempotencyKey input) 255 with
  | Some e => (none, Some e, d)
  | None =>
      if (max_int64 <? TaskBudget_WarningTokens requested)%Z ||
         (max_int64 <? TaskBudget_HardStopTokens requested)%Z then
        (none, Some (Sentinel "budget token threshold exceeds SQLite integer range"), d)
      else RunInTransaction (fun d =>
        existing ← findPreApprovalBudgetAdjustment d (adjust_BudgetID input)
                     (adjust_IdempotencyKey input) @@ none;
        match existing with
        | Some existing =>
            _ ← refuse (negb (bool_decide (adjustment_Adjusted existing = requested)) ||
                        negb (adjustment_Actor existing =? adjust_Actor input) ||
                        negb (adjustment_AuthorityReference existing =? adjust_AuthorityReference input) ||
                        negb (adjustment_Reason existing =? adjust_Reason input)) none
              (typedError ErrConflict "adjust budget before approval"
                 (Sentinel "idempotency key belongs to another adjustment"));
            snapshot ← scanLatestBudgetSnapshot d (adjust_BudgetID input) @@ (existing, no_snapshot);
            Ok ((existing, snapshot), d)
        | None => adjust_new now d input
        end) d
  end.

(** ** The approval of a raise *)

Record TaskBudgetAdjustmentState := {
  state_TaskState : TaskState;
  state_Account : BudgetAccount;
  state_Snapshot : BudgetSnapshot;
}.

Definition ReadTaskBudgetAdjustmentState (task : ID) (d : db)
    : result error TaskBudgetAdjustmentState :=
  if IsZero task then Err (Sentinel "task ID is required")
  else match find (fun t => t.1 =? task) (tasks d) with
  | None => Err (typedError ErrNotFound "read task budget adjustment state" (Sentinel ErrNoRows))
  | Some (_, state) =>
      account ← scanBudget (find (fun b => b_task_id b =? task) (budgets d))
                  "read task budget adjustment account";
      snapshot ← computeBudgetSnapshot d (TaskBudget_ID (account_Budget account));
      Ok {| state_TaskState := state; state_Account := account; state_Snapshot := snapshot |}
  end.

(** [ORDER BY decided_at_unix_micros DESC, id ASC LIMIT 1]. *)
Definition decided_before (x y : approval_row) : bool :=
  let at_ a := default (-1)%Z (a_decided_at a) in
  (at_ y <? at_ x)%Z || ((at_ x =? at_ y)%Z && String.ltb (a_id x) (a_id y)).

Definition latest_decided (l : list approval_row) : option approval_row :=
  foldr (fun a best => match best with
                       | Some b => if decided_before a b then Some a else Some b
                       | None => Some a
                       end) None l.

Definition ResolveBudgetRaiseApproval (budget task : ID) (key scope : string) (d : db)
    : result error ID :=
  if IsZero budget || IsZero task || (key =? "") || (scope =? "") then
    Err (Sentinel "budget, task, command, and approval scope are required")
  else match find (fun l => (l_budget_id l =? budget) && (l_idempotency_key l =? key))
               (limit_revisions d) with
  | Some l =>
      match l_approval_id l with
      | Some raw =>
          if negb (l_authority_kind l =? "user-approval") then
            Err (typedError ErrConflict "resolve budget raise approval"
                   (Sentinel "idempotency key belongs to a different budget adjustment"))
          else match parseTypedID approvalIDKind raw with
          | Err e => Err (typedError ErrCorrupt "resolve budget raise approval"
                            (Sentinel (IDParseError_Error e)))
          | Ok id => Ok id
          end
      | None => Err (typedError ErrConflict "resolve budget raise approval"
                       (Sentinel "idempotency key belongs to a different budget adjustment"))
      end
  | None =>
      match latest_decided (filter (fun a => (a_task_id a =? task) && (a_state a =? "granted") &&
                                             (a_scope a =? scope)) (approvals d)) with
      | None => Err (typedError ErrBudgetApprovalRequired "find granted budget raise approval"
                       (Sentinel ErrNoRows))
      | Some a =>
          match parseTypedID approvalIDKind (a_id a) with
          | Err e => Err (typedError ErrCorrupt "find granted budget raise approval"
                            (Sentinel (IDParseError_Error e)))
          | Ok id => Ok id
          end
      end
  end.
End Accounts.
