(* ===== verification/BudgetFacts.v ===== *)
(** * Facts about the budget ledger

    Exact costs, sums over the rows of a table, and what a snapshot holds: the
    totals of its budget's rows. *)

From Stdlib Require Import Ascii QArith Qreduction Qabs Qminmax Lqa.
From S2P Require Import Prelude GoText GoErrors PolicyValues Identity Pricing States FixedPolicy.
From S2P Require Import BudgetSchema BudgetSnapshots BudgetLedger.
Open Scope string_scope.
Open Scope list_scope.
Open Scope go_scope.

(** ** Exact costs *)

Lemma SetFrac_red q : (SetFrac (Num q) (Denom q) == q)%Q.
Proof.
  unfold SetFrac, Num, Denom. destruct (Qred q) as [n p] eqn:Hq.
  simpl. rewrite <- Hq. apply Qred_correct.
Qed.

Lemma exactCostFromRat_Ok currency q c :
  exactCostFromRat currency q = Ok c ->
  (exactCostRat c == q)%Q /\ Currency c = currency /\ 0 <= Numerator c /\ 0 < Denominator c /\
  int64_range (Numerator c) /\ int64_range (Denominator c).
Proof.
  unfold exactCostFromRat. intros H. if_cases H. injection H as <-.
  unfold exactCostRat. cbn [Numerator Denominator Currency].
  unfold IsInt64 in Hif. to_prop. split; [apply SetFrac_red|]. unfold Denom in *. naive_solver lia.
Qed.

Lemma addExactCosts_Ok l r c :
  addExactCosts l r = Ok c ->
  Currency l = Currency r /\ Currency c = Currency l /\
  (exactCostRat c == exactCostRat l + exactCostRat r)%Q /\ 0 <= Numerator c /\ 0 < Denominator c.
Proof.
  unfold addExactCosts. intros H. if_cases H. to_prop.
  apply exactCostFromRat_Ok in H. naive_solver.
Qed.

Lemma cost_gt_false l r :
  Currency l = Currency r -> cost_gt l r = false <-> (exactCostRat l <= exactCostRat r)%Q.
Proof.
  intros Hc. unfold cost_gt, compareExactCosts. rewrite Hc, String.eqb_refl. cbn [negb].
  rewrite Qle_alt. destruct (_ ?= _)%Q; naive_solver.
Qed.

Lemma cost_ge_false l r :
  Currency l = Currency r -> cost_ge l r = false <-> (exactCostRat l < exactCostRat r)%Q.
Proof.
  intros Hc. unfold cost_ge, compareExactCosts. rewrite Hc, String.eqb_refl. cbn [negb].
  rewrite Qlt_alt. destruct (_ ?= _)%Q; naive_solver.
Qed.

(** Two turns of Euclid's loop halve the divisor. *)
Lemma rem_halves a b :
  0 <= a -> 0 < b -> 0 < Z.rem a b -> 2 * Z.rem b (Z.rem a b) < b.
Proof.
  intros Ha Hb Hr.
  pose proof (Z.rem_bound_pos a b Ha Hb) as H1.
  pose proof (Z.rem_bound_pos b (Z.rem a b)) as H2.
  pose proof (Z.quot_rem' b (Z.rem a b)) as Hq.
  assert (1 <= Z.quot b (Z.rem a b)) by (apply Z.quot_le_lower_bound; lia). nia.
Qed.

Lemma gcd_rem a b : 0 <= a -> 0 < b -> Z.gcd b (Z.rem a b) = Z.gcd a b.
Proof.
  intros Ha Hb. rewrite Z.rem_mod_nonneg by lia. rewrite Z.gcd_comm, Z.gcd_mod by lia.
  apply Z.gcd_comm.
Qed.

Lemma gcd_loop_correct k fuel a b :
  0 <= a -> 0 <= b < 2 ^ Z.of_nat k -> (2 * k < fuel)%nat -> gcd_loop fuel a b = Z.gcd a b.
Proof.
  revert fuel a b. induction k as [|k IH]; intros fuel a b Ha Hb Hf.
  - assert (b = 0) as -> by (simpl in Hb; lia). destruct fuel; [lia|]. simpl.
    rewrite Z.gcd_0_r. lia.
  - destruct fuel as [|[|fuel]]; [lia..|]. cbn [gcd_loop].
    destruct (Z.eqb_spec b 0) as [->|Hb0]; [rewrite Z.gcd_0_r; lia|].
    pose proof (Z.rem_bound_pos a b). rewrite <- (gcd_rem a b) by lia.
    destruct (Z.eqb_spec (Z.rem a b) 0) as [->|Hr]; [rewrite Z.gcd_0_r; lia|].
    pose proof (rem_halves a b). pose proof (Z.rem_bound_pos b (Z.rem a b)).
    rewrite <- (gcd_rem b (Z.rem a b)) by lia.
    rewrite Nat2Z.inj_succ, Z.pow_succ_r in Hb by lia. apply IH; lia.
Qed.

Lemma greatestCommonDivisor_gcd a b :
  0 <= a -> 0 < b <= max_int64 -> greatestCommonDivisor a b = Z.gcd a b.
Proof.
  intros Ha Hb. unfold greatestCommonDivisor.
  rewrite (gcd_loop_correct 63) by (unfold max_int64 in *; simpl; lia).
  destruct (Z.eqb_spec (Z.gcd a b) 0) as [H|]; [|done]. apply Z.gcd_eq_0 in H. lia.
Qed.

(** Normalizing keeps the value and leaves lowest terms. *)
Lemma normalizeExactCost_Ok cost c :
  int64_range (Denominator cost) -> normalizeExactCost cost = Ok c ->
  (exactCostRat c == exactCostRat cost)%Q /\ Currency c = Currency cost /\
  0 <= Numerator c /\ 0 < Denominator c /\ Z.gcd (Numerator c) (Denominator c) = 1.
Proof.
  unfold normalizeExactCost. intros Hr H. if_cases H. to_prop. destruct Hif as [Hn Hd].
  destruct (ParseCurrencyCode _) as [|currency] eqn:Hc; [done|]. injection H as <-.
  assert (currency = Currency cost) as ->.
  { unfold ParseCurrencyCode in Hc. if_cases Hc. by injection Hc as <-. }
  unfold_ranges. rewrite greatestCommonDivisor_gcd by (unfold max_int64; lia).
  cbn [Numerator Denominator Currency]. set (g := Z.gcd _ _).
  assert (0 < g) as Hg.
  { assert (0 <= g) by apply Z.gcd_nonneg. destruct (decide (g = 0)) as [H0|]; [|lia].
    apply Z.gcd_eq_0 in H0. lia. }
  destruct (Z.gcd_divide_l (Numerator cost) (Denominator cost)) as [n Hn'].
  destruct (Z.gcd_divide_r (Numerator cost) (Denominator cost)) as [m Hm]. fold g in Hn', Hm.
  assert (Z.quot (Numerator cost) g = n) as Hqn by (rewrite Hn', Z.quot_mul; lia).
  assert (Z.quot (Denominator cost) g = m) as Hqm by (rewrite Hm, Z.quot_mul; lia).
  rewrite Hqn, Hqm. assert (0 < m) by nia. assert (0 <= n) by nia.
  split_and!; try done.
  - unfold exactCostRat, SetFrac, Qeq. cbn [Numerator Denominator Qnum Qden].
    rewrite !Z2Pos.id by lia. rewrite Hn', Hm. ring.
  - rewrite <- Hqn, <- Hqm. rewrite !Z.quot_div_nonneg by lia. apply Z.gcd_div_gcd; [lia|done].
Qed.

(** ** Sums over rows *)

Definition sumQ {A} (f : A -> Q) (l : list A) : Q := foldr (fun a q => (f a + q)%Q) 0%Q l.

Lemma sumQ_app {A} (f : A -> Q) l1 l2 : (sumQ f (l1 ++ l2) == sumQ f l1 + sumQ f l2)%Q.
Proof. induction l1 as [|a l1 IH]; simpl; [ring|]. rewrite IH. ring. Qed.

Lemma sumQ_perm {A} (f : A -> Q) l1 l2 : l1 ≡ₚ l2 -> (sumQ f l1 == sumQ f l2)%Q.
Proof.
  induction 1 as [|a l1 l2 _ IH|a b l|l1 l2 l3 _ IH1 _ IH2]; simpl.
  - reflexivity.
  - rewrite IH. reflexivity.
  - ring.
  - rewrite IH1. exact IH2.
Qed.

Lemma sumQ_ext {A} (f g : A -> Q) l :
  (forall a, a ∈ l -> (f a == g a)%Q) -> (sumQ f l == sumQ g l)%Q.
Proof.
  induction l as [|a l IH]; intros H; simpl; [done|].
  rewrite (H a) by (by left). rewrite IH; [done|]. intros b Hb. apply H. by right.
Qed.

Lemma sumQ_add {A} (f g : A -> Q) l : (sumQ (fun a => f a + g a) l == sumQ f l + sumQ g l)%Q.
Proof. induction l as [|a l IH]; simpl; [ring|]. rewrite IH. ring. Qed.

Lemma sumQ_le {A} (f g : A -> Q) l :
  (forall a, a ∈ l -> (f a <= g a)%Q) -> (sumQ f l <= sumQ g l)%Q.
Proof.
  induction l as [|a l IH]; intros H; simpl; [apply Qle_refl|].
  apply Qplus_le_compat; [apply H; by left|]. apply IH. intros b Hb. apply H. by right.
Qed.

Lemma sumQ_zero {A} (l : list A) : (sumQ (fun _ => 0%Q) l == 0)%Q.
Proof. induction l as [|a l IH]; simpl; [done|]. rewrite IH. ring. Qed.

Lemma sumQ_nonneg {A} (f : A -> Q) l : (forall a, a ∈ l -> (0 <= f a)%Q) -> (0 <= sumQ f l)%Q.
Proof. intros H. rewrite <- (sumQ_zero l). by apply sumQ_le. Qed.

(** The rows a condition selects, as an indicator. *)
Definition ifQ (b : bool) (q : Q) : Q := if b then q else 0%Q.

Lemma sumQ_filter {A} (p : A -> bool) (f : A -> Q) l :
  (sumQ f (filter p l) == sumQ (fun a => ifQ (p a) (f a)) l)%Q.
Proof.
  induction l as [|a l IH]; simpl; [done|]. unfold ifQ at 1.
  destruct (p a) eqn:Hp.
  - rewrite filter_cons_True by (rewrite Hp; exact I). simpl. rewrite IH. reflexivity.
  - rewrite filter_cons_False by (rewrite Hp; tauto). rewrite IH. ring.
Qed.

Lemma sumQ_map {A B} (g : B -> A) (f : A -> Q) l : sumQ f (map g l) = sumQ (fun b => f (g b)) l.
Proof. induction l as [|b l IH]; simpl; [done|]. rewrite IH. reflexivity. Qed.

Lemma sumQ_insert {A} (f : A -> Q) l i x y :
  l !! i = Some x -> (sumQ f (<[i := y]> l) + f x == sumQ f l + f y)%Q.
Proof.
  revert i. induction l as [|a l IH]; intros [|i] Hi; simpl in *; try done.
  - injection Hi as ->. ring.
  - rewrite <- Qplus_assoc, (IH i Hi). ring.
Qed.

Lemma by_time_perm {A} (key : A -> Z * string) l : by_time key l ≡ₚ l.
Proof. unfold by_time. apply merge_sort_Permutation. Qed.

(** The two directions of a join over unique keys give the same sum. *)
Lemma sumQ_find {B} (kb : B -> string) (g : B -> Q) lb key :
  NoDup (map kb lb) ->
  (match find (fun b => kb b =? key) lb with Some b => g b | None => 0%Q end ==
   sumQ (fun b => ifQ (key =? kb b) (g b)) lb)%Q.
Proof.
  induction lb as [|b lb IH]; intros Hnd; simpl; [done|].
  apply NoDup_cons in Hnd as [Hb Hnd]. rewrite (String.eqb_sym key).
  destruct (String.eqb_spec (kb b) key) as [Heq|Hne]; simpl.
  - assert (sumQ (fun c => ifQ (key =? kb c) (g c)) lb == 0)%Q as ->; [|unfold ifQ; ring].
    rewrite <- (sumQ_zero lb). apply sumQ_ext. intros c Hc. destruct (String.eqb_spec key (kb c)) as [Hk|]; [|done].
    destruct Hb. rewrite Heq, Hk. by apply list_elem_of_fmap_2.
  - rewrite IH by done. change (ifQ false (g b)) with 0%Q. ring.
Qed.

Lemma sumQ_join {A B} (ka : A -> string) (kb : B -> string) (g : B -> Q) la lb :
  NoDup (map ka la) -> NoDup (map kb lb) ->
  (sumQ (fun a => match find (fun b => kb b =? ka a) lb with Some b => g b | None => 0%Q end) la ==
   sumQ (fun b => ifQ (existsb (fun a => ka a =? kb b) la) (g b)) lb)%Q.
Proof.
  intros Hla Hlb. induction la as [|a la IH]; simpl.
  - by rewrite sumQ_zero.
  - apply NoDup_cons in Hla as [Ha Hla]. rewrite IH, sumQ_find by done. rewrite <- sumQ_add.
    apply sumQ_ext. intros b _. destruct (String.eqb_spec (ka a) (kb b)) as [Heq|]; simpl.
    + destruct (existsb _ la) eqn:He; [|unfold ifQ; ring].
      apply existsb_exists in He as (a' & Ha' & Hk%String.eqb_eq). destruct Ha.
      rewrite Heq, <- Hk. apply list_elem_of_fmap_2. by apply list_elem_of_In.
    + change (ifQ false (g b)) with 0%Q. ring.
Qed.

(** ** What the loops over the rows add up

    [R] is equality for exact costs, and equality up to multiples of 2^64 for
    the counters, which wrap around. *)

Class Additive (R : Q -> Q -> Prop) := {
  additive_equivalence :: Equivalence R;
  additive_plus : forall a b c d, R a b -> R c d -> R (a + c)%Q (b + d)%Q;
  additive_eq : forall a b, (a == b)%Q -> R a b;
}.

#[export] Instance Qeq_additive : Additive Qeq.
Proof. split; [apply _| |done]. intros a b c d -> ->. reflexivity. Qed.

Definition cong64 (a b : Q) : Prop := exists k : Z, (a == b + inject_Z (k * 2 ^ 64))%Q.

#[export] Instance cong64_additive : Additive cong64.
Proof.
  split.
  - split.
    + intros a. exists 0. change (inject_Z (0 * 2 ^ 64)) with 0%Q. ring.
    + intros a b [k Hk]. exists (- k)%Z. rewrite Hk, Z.mul_opp_l, inject_Z_opp. ring.
    + intros a b c [k Hk] [m Hm]. exists (k + m)%Z.
      rewrite Hk, Hm, Z.mul_add_distr_r, inject_Z_plus. ring.
  - intros a b c d [k Hk] [m Hm]. exists (k + m)%Z.
    rewrite Hk, Hm, Z.mul_add_distr_r, inject_Z_plus. ring.
  - intros a b H. exists 0. rewrite H. change (inject_Z (0 * 2 ^ 64)) with 0%Q. ring.
Qed.

Lemma cong64_wrap a : cong64 (inject_Z (wrap_uint64 a)) (inject_Z a).
Proof.
  exists (- (a / 2 ^ 64))%Z. rewrite <- inject_Z_plus. unfold wrap_uint64.
  apply inject_Z_injective. rewrite (Z.div_mod a (2 ^ 64)) at 2 by lia. ring.
Qed.

Lemma cong64_add a b x :
  cong64 (inject_Z a) x -> cong64 (inject_Z (add_u64 a b)) (x + inject_Z b)%Q.
Proof.
  intros H. unfold add_u64. etrans; [apply cong64_wrap|].
  rewrite inject_Z_plus. apply additive_plus; [done|reflexivity].
Qed.

Section Loops.
Context (R : Q -> Q -> Prop) `{!Additive R}.

Lemma R_step a x b y z : R a (x + y)%Q -> R b (a + z)%Q -> R b (x + (y + z))%Q.
Proof.
  intros H1 H2. etrans; [exact H2|]. etrans; [apply additive_plus; [exact H1|reflexivity]|].
  apply additive_eq. ring.
Qed.

Lemma fold_result_sum {E A B} (f : A -> B -> result E A) (measure : A -> Q) (x : B -> Q) l a a' :
  (forall a b a', f a b = Ok a' -> R (measure a') (measure a + x b)%Q) ->
  fold_result f l a = Ok a' -> R (measure a') (measure a + sumQ x l)%Q.
Proof.
  intros Hf. revert a. induction l as [|b l IH]; intros a; simpl.
  - intros [= <-]. apply additive_eq. ring.
  - intros (a1 & H1 & H2)%bind_Ok. apply IH in H2. apply Hf in H1.
    etrans; [exact H2|]. etrans; [apply additive_plus; [exact H1|reflexivity]|].
    apply additive_eq. ring.
Qed.

Lemma in_category_sum operation category f (measure : BudgetCategorySnapshot -> Q) x cs cs' :
  (forall c c', f c = Ok c' -> R (measure c') (measure c + x)%Q) ->
  in_category operation category f cs = Ok cs' -> R (sumQ measure cs') (sumQ measure cs + x)%Q.
Proof.
  intros Hf. unfold in_category. destruct (category_index category) as [i|]; [|done].
  destruct (cs !! i) as [c|] eqn:Hi; [|done]. intros (c' & Hc & [= <-])%bind_Ok.
  apply Hf in Hc. pose proof (sumQ_insert measure cs i c c' Hi) as Hs.
  assert (sumQ measure (<[i:=c']> cs) == sumQ measure cs + measure c' - measure c)%Q as Heq.
  { rewrite <- Hs. ring. }
  etrans; [apply additive_eq, Heq|].
  etrans; [apply additive_plus; [apply additive_plus; [reflexivity|exact Hc]|reflexivity]|].
  apply additive_eq. ring.
Qed.

(** The categories add up to the budget's own aggregates and its rows. *)
Lemma load_sum (measure : BudgetCategorySnapshot -> Q) xa xp xq d budget currency cs :
  (forall r c c', count_active currency r c = Ok c' -> R (measure c') (measure c + xa r)%Q) ->
  (forall i r c c', count_pending currency i r c = Ok c' -> R (measure c') (measure c + xp (i, r))%Q) ->
  (forall p r c c', count_posting currency p r c = Ok c' -> R (measure c') (measure c + xq (p, r))%Q) ->
  (forall category, measure (empty_category currency category) == 0)%Q ->
  loadBudgetCategorySnapshots d budget currency = Ok cs ->
  exists b, find_budget d budget = Some b /\
    R (sumQ measure cs) (measure (legacy_category currency b) + sumQ xa (active_rows d budget) +
       sumQ xp (pending_rows d budget) + sumQ xq (posting_rows d budget))%Q.
Proof.
  intros Ha Hp Hq H0. unfold loadBudgetCategorySnapshots.
  destruct (find_budget d budget) as [b|] eqn:Hb; [|done].
  intros (c1 & H1 & (c2 & H2 & H3)%bind_Ok)%bind_Ok. exists b. split; [done|].
  eapply (fold_result_sum _ (sumQ measure) xa) in H1;
    [|intros c r c' Hc; eapply in_category_sum; [apply Ha|exact Hc]].
  eapply (fold_result_sum _ (sumQ measure) xp) in H2;
    [|intros c [i r] c' Hc; eapply in_category_sum; [apply Hp|exact Hc]].
  eapply (fold_result_sum _ (sumQ measure) xq) in H3;
    [|intros c [p r] c' Hc; eapply in_category_sum; [apply Hq|exact Hc]].
  simpl sumQ in H1.
  etrans; [exact H3|]. etrans; [apply additive_plus; [exact H2|reflexivity]|].
  etrans; [apply additive_plus; [apply additive_plus; [exact H1|reflexivity]|reflexivity]|].
  apply additive_eq. rewrite !H0. ring.
Qed.
End Loops.

(** The join with the reservations, as a sum over the rows. *)
Lemma sumQ_join_reservation {A} d (key : A -> string) (f : A * reservation_row -> Q) l :
  (sumQ f (join_reservation d key l) ==
   sumQ (fun a => match find_reservation d (key a) with Some r => f (a, r) | None => 0 end) l)%Q.
Proof.
  unfold join_reservation. induction l as [|a l IH]; simpl; [done|].
  destruct (find_reservation d (key a)); simpl; rewrite IH; [done|ring].
Qed.

(** ** The totals of a budget *)

Section Totals.
Context (bound : reservation_row -> Q) (posted : posting_row -> Q).
Context (billed : intent_row -> reservation_row -> Q).

Definition is_reserved (d : db) (budget : ID) (r : reservation_row) : bool :=
  (r_budget_id r =? budget) && (r_state r =? "active") && negb (has_pending_intent d (r_id r)).

(** Against the reservation of the row. *)
Definition against {A} (d : db) (key : A -> string) (f : A -> reservation_row -> Q) (a : A) : Q :=
  match find_reservation d (key a) with Some r => f a r | None => 0%Q end.

Definition reserved_sum (d : db) (budget : ID) : Q :=
  sumQ (fun r => ifQ (is_reserved d budget r) (bound r)) (reservations d).
Definition pending_sum (d : db) (budget : ID) : Q :=
  sumQ (fun i => ifQ ((i_budget_id i =? budget) && is_pending d i)
                   (against d i_reservation_id billed i)) (intents d).
Definition posted_sum (d : db) (budget : ID) : Q :=
  sumQ (fun p => ifQ (p_budget_id p =? budget)
                   (against d p_reservation_id (fun p _ => posted p) p)) (postings d).

Lemma active_rows_sum d budget : (sumQ bound (active_rows d budget) == reserved_sum d budget)%Q.
Proof.
  unfold active_rows, reserved_sum. rewrite (sumQ_perm _ _ _ (by_time_perm _ _)).
  apply sumQ_filter.
Qed.

Lemma pending_rows_sum d budget :
  (sumQ (fun '(i, r) => billed i r) (pending_rows d budget) == pending_sum d budget)%Q.
Proof.
  unfold pending_rows, pending_sum. rewrite sumQ_join_reservation.
  rewrite (sumQ_perm _ _ _ (by_time_perm _ _)). rewrite sumQ_filter. reflexivity.
Qed.

Lemma posting_rows_sum d budget :
  (sumQ (fun '(p, r) => posted p) (posting_rows d budget) == posted_sum d budget)%Q.
Proof.
  unfold posting_rows, posted_sum. rewrite sumQ_join_reservation.
  rewrite (sumQ_perm _ _ _ (by_time_perm _ _)). rewrite sumQ_filter. reflexivity.
Qed.
End Totals.

(** The costs and the tokens of the rows. *)
Definition bound_cost (r : reservation_row) : Q := SetFrac (r_bound_numerator r) (r_bound_denominator r).
Definition posted_cost (p : posting_row) : Q := SetFrac (p_charged_numerator p) (p_charged_denominator p).
Definition billed_cost (i : intent_row) (r : reservation_row) : Q :=
  if i_cost_known i then SetFrac (or_zero (i_cost_numerator i)) (or_zero (i_cost_denominator i))
  else bound_cost r.

Definition token_bound (r : reservation_row) : Z :=
  if r_token_bound_known r then or_zero (r_token_bound r) else 0.
Definition posted_token_count (p : posting_row) : Z := or_zero (p_charged_tokens p).
Definition billed_token_count (i : intent_row) (r : reservation_row) : Z :=
  if i_tokens_known i then or_zero (i_actual_tokens i) else token_bound r.
Definition bound_tokens (r : reservation_row) : Q := inject_Z (token_bound r).
Definition posted_tokens (p : posting_row) : Q := inject_Z (posted_token_count p).
Definition billed_tokens (i : intent_row) (r : reservation_row) : Q := inject_Z (billed_token_count i r).

(** ** What a snapshot holds *)

Lemma fold_result_inv {E A B} (f : A -> B -> result E A) (P : A -> Prop) l a a' :
  (forall a b a', P a -> f a b = Ok a' -> P a') -> P a -> fold_result f l a = Ok a' -> P a'.
Proof.
  intros Hf. revert a. induction l as [|b l IH]; intros a Ha; simpl; [by intros [= <-]|].
  intros (a1 & H1 & H2)%bind_Ok. eauto.
Qed.

Lemma in_category_forall operation category f (P : BudgetCategorySnapshot -> Prop) cs cs' :
  (forall c c', P c -> f c = Ok c' -> P c') -> Forall P cs ->
  in_category operation category f cs = Ok cs' -> Forall P cs'.
Proof.
  intros Hf Hcs. unfold in_category. destruct (category_index category) as [i|]; [|done].
  destruct (cs !! i) as [c|] eqn:Hi; [|done]. intros (c' & Hc & [= <-])%bind_Ok.
  apply Forall_insert; [done|]. eapply Hf; [|exact Hc]. eapply Forall_lookup_1; eauto.
Qed.

(** The counters of a category are unsigned. *)
Definition counters_ok (c : BudgetCategorySnapshot) : Prop :=
  0 <= cat_ProviderCallSlots c /\ 0 <= cat_ReservedTokens c /\ 0 <= cat_ChargedTokens c /\
  0 <= cat_ActualTokens c.

Lemma add_u64_nonneg a b : 0 <= add_u64 a b.
Proof. apply wrap_uint64_range. Qed.

Ltac counting :=
  match goal with
  | H : count_active _ _ _ = Ok _ |- _ =>
      unfold count_active in H; apply bind_Ok in H as (? & ? & H); injection H as <-
  | H : count_pending _ _ _ _ = Ok _ |- _ =>
      unfold count_pending in H; cbn zeta in H;
      apply bind_Ok in H as (? & ? & H); apply bind_Ok in H as (? & ? & H); injection H as <-
  | H : count_posting _ _ _ _ = Ok _ |- _ =>
      unfold count_posting in H;
      apply bind_Ok in H as (? & ? & H); apply bind_Ok in H as (? & ? & H); injection H as <-
  end.

Ltac counters :=
  unfold counters_ok in *; simpl in *; repeat case_match; destruct_and?; split_and?;
  auto using add_u64_nonneg.

Lemma load_counters d budget currency cs :
  (forall b, find_budget d budget = Some b -> 0 <= b_actual_tokens b) ->
  loadBudgetCategorySnapshots d budget currency = Ok cs -> Forall counters_ok cs.
Proof.
  intros Hb. unfold loadBudgetCategorySnapshots.
  destruct (find_budget d budget) as [b|] eqn:Hf; [|done].
  intros (c1 & H1 & (c2 & H2 & H3)%bind_Ok)%bind_Ok.
  eapply fold_result_inv in H1; [eapply fold_result_inv in H2; [eapply fold_result_inv in H3|..]|..];
    [exact H3|..].
  - intros cs1 [p r] cs2 Hc H. eapply in_category_forall; [|exact Hc|exact H].
    intros c c' Hok Hcount. counting. counters.
  - exact H2.
  - intros cs1 [i r] cs2 Hc H. eapply in_category_forall; [|exact Hc|exact H].
    intros c c' Hok Hcount. counting. counters.
  - exact H1.
  - intros cs1 r cs2 Hc H. eapply in_category_forall; [|exact Hc|exact H].
    intros c c' Hok Hcount. counting. counters.
  - specialize (Hb b eq_refl). repeat constructor; simpl; lia.
Qed.

(** The totals over the categories are their sums, and stay unsigned. *)
Definition rat_of (f : BudgetCategorySnapshot -> ExactMinorCost) (c : BudgetCategorySnapshot) : Q :=
  exactCostRat (f c).
Definition count_of (f : BudgetCategorySnapshot -> Z) (c : BudgetCategorySnapshot) : Q :=
  inject_Z (f c).

Lemma add_category_Ok t c t' :
  add_category t c = Ok t' ->
  (exactCostRat (total_reserved t') == exactCostRat (total_reserved t) + rat_of cat_ReservedCost c)%Q /\
  (exactCostRat (total_charged t') == exactCostRat (total_charged t) + rat_of cat_ChargedCost c)%Q /\
  (inject_Z (total_reserved_tokens t') ==
     inject_Z (total_reserved_tokens t) + count_of cat_ReservedTokens c)%Q /\
  (inject_Z (total_charged_tokens t') ==
     inject_Z (total_charged_tokens t) + count_of cat_ChargedTokens c)%Q /\
  (inject_Z (total_slots t') == inject_Z (total_slots t) + count_of cat_ProviderCallSlots c)%Q /\
  Currency (total_reserved t') = Currency (total_reserved t) /\
  Currency (total_charged t') = Currency (total_charged t) /\
  total_pending t' = total_pending t || cat_ReconciliationPending c /\
  total_reserved_tokens t' <= max_uint64 /\ total_charged_tokens t' <= max_uint64 /\
  total_slots t' <= max_uint64.
Proof.
  unfold add_category. intros H. if_cases H; apply bind_Ok in H as (r & Hr & H);
    apply bind_Ok in H as (ch & Hch & H); apply bind_Ok in H as (k & Hk & H); [done|].
  injection H as <-. apply addExactCosts_Ok in Hr, Hch.
  cbn [total_reserved total_charged total_reserved_tokens total_charged_tokens total_slots
       total_pending]. to_prop. unfold count_of, rat_of. rewrite !inject_Z_plus.
  destruct_and!. split_and!; first [assumption | reflexivity | lia].
Qed.

Lemma fold_categories cs t t' :
  fold_result add_category cs t = Ok t' ->
  (exactCostRat (total_reserved t') ==
     exactCostRat (total_reserved t) + sumQ (rat_of cat_ReservedCost) cs)%Q /\
  (exactCostRat (total_charged t') ==
     exactCostRat (total_charged t) + sumQ (rat_of cat_ChargedCost) cs)%Q /\
  (inject_Z (total_reserved_tokens t') ==
     inject_Z (total_reserved_tokens t) + sumQ (count_of cat_ReservedTokens) cs)%Q /\
  (inject_Z (total_charged_tokens t') ==
     inject_Z (total_charged_tokens t) + sumQ (count_of cat_ChargedTokens) cs)%Q /\
  (inject_Z (total_slots t') == inject_Z (total_slots t) + sumQ (count_of cat_ProviderCallSlots) cs)%Q /\
  Currency (total_reserved t') = Currency (total_reserved t) /\
  Currency (total_charged t') = Currency (total_charged t) /\
  total_pending t' = total_pending t || existsb cat_ReconciliationPending cs.
Proof.
  revert t. induction cs as [|c cs IH]; intros t; simpl.
  - intros [= <-]. rewrite orb_false_r. split_and!; first [reflexivity | ring].
  - intros (t1 & H1%add_category_Ok & H2%IH)%bind_Ok. destruct_and!.
    split_and!; try congruence; try (rewrite orb_assoc; congruence);
      (etransitivity; [eassumption|]); rewrite Qplus_assoc;
      (apply Qplus_comp; [eassumption|reflexivity]).
Qed.

Lemma fold_categories_range cs t t' :
  Forall counters_ok cs -> uint64_range (total_reserved_tokens t) ->
  uint64_range (total_charged_tokens t) -> uint64_range (total_slots t) ->
  fold_result add_category cs t = Ok t' ->
  uint64_range (total_reserved_tokens t') /\ uint64_range (total_charged_tokens t') /\
  uint64_range (total_slots t').
Proof.
  intros Hcs. revert t. induction Hcs as [|c cs Hc _ IH]; intros t Hr Hch Hs; simpl.
  - by intros [= <-].
  - intros (t1 & H1%add_category_Ok & H2)%bind_Ok. destruct H1 as (_ & _ & H1 & H3 & H4 & _ & _ & _ & ? & ? & ?).
    unfold count_of in *. rewrite <- inject_Z_plus in H1, H3, H4.
    apply (proj1 (inject_Z_injective _ _)) in H1, H3, H4. unfold counters_ok in Hc. unfold uint64_range in *.
    eapply IH; [..|exact H2]; lia.
Qed.

Lemma cong64_unique a q :
  uint64_range a -> (0 <= q)%Q -> (q < inject_Z (2 ^ 64))%Q -> cong64 (inject_Z a) q ->
  (inject_Z a == q)%Q.
Proof.
  intros Ha Hq0 Hq1 [k Hk]. assert (k = 0) as ->; [|rewrite Hk; change (inject_Z (0 * 2 ^ 64)) with 0%Q; ring].
  unfold_ranges.
  assert (inject_Z (k * 2 ^ 64) < inject_Z (2 ^ 64))%Q as H1.
  { assert (inject_Z (k * 2 ^ 64) == inject_Z a - q)%Q as -> by (rewrite Hk; ring).
    assert (inject_Z a < inject_Z (2 ^ 64))%Q by (rewrite <- Zlt_Qlt; lia). lra. }
  assert (inject_Z (- 2 ^ 64) < inject_Z (k * 2 ^ 64))%Q as H2.
  { assert (inject_Z (k * 2 ^ 64) == inject_Z a - q)%Q as -> by (rewrite Hk; ring).
    assert (0 <= inject_Z a)%Q by (change 0%Q with (inject_Z 0); rewrite <- Zle_Qle; lia).
    rewrite inject_Z_opp. lra. }
  rewrite <- Zlt_Qlt in H1, H2. lia.
Qed.

(** A budget's exact exposure, from its tables. *)
Definition reserved_cost d budget := reserved_sum bound_cost d budget.
Definition charged_cost d budget :=
  (pending_sum billed_cost d budget + posted_sum posted_cost d budget)%Q.
Definition reserved_tokens d budget := reserved_sum bound_tokens d budget.
Definition charged_tokens d budget :=
  (pending_sum billed_tokens d budget + posted_sum posted_tokens d budget)%Q.

Lemma load_reserved_cost d budget currency cs :
  loadBudgetCategorySnapshots d budget currency = Ok cs ->
  exists b, find_budget d budget = Some b /\
    (sumQ (rat_of cat_ReservedCost) cs == inject_Z (b_reserved_cost b) + reserved_cost d budget)%Q.
Proof.
  intros H. eapply (load_sum Qeq (rat_of cat_ReservedCost) bound_cost (fun _ => 0%Q) (fun _ => 0%Q)) in H
    as (b & Hb & Hs).
  - exists b. split; [done|]. rewrite Hs, !sumQ_zero, active_rows_sum.
    unfold reserved_cost, rat_of, exactCostRat, SetFrac, inject_Z. simpl. ring.
  - intros r c c' Hc. counting. apply addExactCosts_Ok in H0. unfold rat_of. simpl. apply H0.
  - intros i r c c' Hc. counting. unfold rat_of. simpl. ring.
  - intros p r c c' Hc. counting. unfold rat_of. simpl. ring.
  - reflexivity.
Qed.

Lemma load_charged_cost d budget currency cs :
  loadBudgetCategorySnapshots d budget currency = Ok cs ->
  exists b, find_budget d budget = Some b /\
    (sumQ (rat_of cat_ChargedCost) cs == inject_Z (b_actual_cost b) + charged_cost d budget)%Q.
Proof.
  intros H. eapply (load_sum Qeq (rat_of cat_ChargedCost) (fun _ => 0%Q)
    (fun '(i, r) => billed_cost i r) (fun '(p, r) => posted_cost p)) in H as (b & Hb & Hs).
  - exists b. split; [done|]. rewrite Hs, sumQ_zero, pending_rows_sum, posting_rows_sum.
    unfold charged_cost, rat_of, exactCostRat, SetFrac, inject_Z. simpl. ring.
  - intros r c c' Hc. counting. unfold rat_of. simpl. ring.
  - intros i r c c' Hc. counting. apply addExactCosts_Ok in H1 as (_ & _ & H1 & _).
    unfold rat_of, billed_cost. simpl. rewrite H1. by destruct (i_cost_known i).
  - intros p r c c' Hc. counting. apply addExactCosts_Ok in H0. unfold rat_of. simpl. apply H0.
  - reflexivity.
Qed.

Lemma load_reserved_tokens d budget currency cs :
  loadBudgetCategorySnapshots d budget currency = Ok cs ->
  cong64 (sumQ (count_of cat_ReservedTokens) cs) (reserved_tokens d budget).
Proof.
  intros H. eapply (load_sum cong64 (count_of cat_ReservedTokens) bound_tokens (fun _ => 0%Q) (fun _ => 0%Q)) in H
    as (b & Hb & Hs).
  - etrans; [exact Hs|]. apply additive_eq. rewrite !sumQ_zero, active_rows_sum.
    unfold reserved_tokens, count_of, inject_Z. simpl. ring.
  - intros r c c' Hc. counting. unfold count_of, bound_tokens, token_bound. simpl.
    destruct (r_token_bound_known r); [apply cong64_add; reflexivity|apply additive_eq].
    change (inject_Z 0) with 0%Q. ring.
  - intros i r c c' Hc. counting. apply additive_eq. unfold count_of. simpl. ring.
  - intros p r c c' Hc. counting. apply additive_eq. unfold count_of. simpl. ring.
  - reflexivity.
Qed.

Lemma load_charged_tokens d budget currency cs :
  loadBudgetCategorySnapshots d budget currency = Ok cs ->
  exists b, find_budget d budget = Some b /\
    cong64 (sumQ (count_of cat_ChargedTokens) cs)
      (inject_Z (b_actual_tokens b) + charged_tokens d budget)%Q.
Proof.
  intros H. eapply (load_sum cong64 (count_of cat_ChargedTokens) (fun _ => 0%Q)
    (fun '(i, r) => billed_tokens i r) (fun '(p, r) => posted_tokens p)) in H as (b & Hb & Hs).
  - exists b. split; [done|]. etrans; [exact Hs|]. apply additive_eq.
    rewrite sumQ_zero, pending_rows_sum, posting_rows_sum.
    unfold charged_tokens, count_of. simpl. ring.
  - intros r c c' Hc. counting. apply additive_eq. unfold count_of. simpl. ring.
  - intros i r c c' Hc. counting. unfold count_of, billed_tokens, billed_token_count, token_bound.
    simpl. apply cong64_add. reflexivity.
  - intros p r c c' Hc. counting. unfold count_of, posted_tokens, posted_token_count. simpl.
    destruct (p_charged_tokens p); [apply cong64_add; reflexivity|]. apply additive_eq. simpl.
    change (inject_Z 0) with 0%Q. ring.
  - reflexivity.
Qed.

Lemma existsb_insert {A} (flag : A -> bool) l i a b x :
  l !! i = Some a -> flag b = flag a || x -> existsb flag (<[i := b]> l) = existsb flag l || x.
Proof.
  intros Hi Hb. revert i Hi. induction l as [|c l IH]; intros [|i] Hi; simpl in *; try done.
  - injection Hi as ->. rewrite Hb. by destruct (flag a), x, (existsb flag l).
  - rewrite (IH i Hi). by rewrite orb_assoc.
Qed.

Lemma fold_flag {B} (flag : BudgetCategorySnapshot -> bool) (x : bool)
    (f : B -> BudgetCategorySnapshot -> result error BudgetCategorySnapshot)
    (operation : string) (category : B -> string) l cs cs' :
  (forall b c c', f b c = Ok c' -> flag c' = flag c || x) ->
  fold_result (fun cs b => in_category operation (category b) (f b) cs) l cs = Ok cs' ->
  existsb flag cs' = existsb flag cs || (x && negb (bool_decide (l = []))).
Proof.
  intros Hf. revert cs. induction l as [|b l IH]; intros cs; simpl.
  - intros [= <-]. by rewrite andb_false_r, orb_false_r.
  - intros (cs1 & H1 & H2)%bind_Ok. rewrite (IH _ H2). unfold in_category in H1.
    destruct (category_index _) as [i|]; [|done]. destruct (cs !! i) as [c|] eqn:Hi; [|done].
    apply bind_Ok in H1 as (c' & Hc & [= <-]). apply Hf in Hc.
    rewrite (existsb_insert flag cs i c c' x Hi Hc).
    destruct x, (existsb flag cs), (bool_decide (l = [])); reflexivity.
Qed.

Lemma fold_result_ext {E A B} (f g : A -> B -> result E A) l a :
  (forall a b, f a b = g a b) -> fold_result f l a = fold_result g l a.
Proof.
  intros H. revert a. induction l as [|b l IH]; intros a; simpl; [done|].
  rewrite H. destruct (g a b); simpl; auto.
Qed.

Lemma load_pending d budget currency cs :
  loadBudgetCategorySnapshots d budget currency = Ok cs ->
  existsb cat_ReconciliationPending cs = negb (bool_decide (pending_rows d budget = [])).
Proof.
  unfold loadBudgetCategorySnapshots. destruct (find_budget d budget); [|done].
  intros (c1 & H1 & (c2 & H2 & H3)%bind_Ok)%bind_Ok.
  rewrite (fold_result_ext _ (fun cs pr => in_category "scan budget usage posting"
    (p_category pr.1) (count_posting currency pr.1 pr.2) cs)) in H3 by (by intros ? [? ?]).
  rewrite (fold_result_ext _ (fun cs ir => in_category "scan pending budget reconciliation"
    (r_category ir.2) (count_pending currency ir.1 ir.2) cs)) in H2 by (by intros ? [? ?]).
  eapply (fold_flag cat_ReconciliationPending false) in H1, H3;
    [|intros; counting; by rewrite orb_false_r..].
  eapply (fold_flag cat_ReconciliationPending true) in H2;
    [|intros; counting; by rewrite orb_true_r].
  by rewrite H3, H2, H1, orb_false_r.
Qed.

Lemma ParseCurrencyCode_Ok value currency : ParseCurrencyCode value = Ok currency -> currency = value.
Proof. unfold ParseCurrencyCode. intros H. if_cases H. by injection H as <-. Qed.

(** What a snapshot says of the tables it was computed from. *)
Record snapshot_of (d : db) (budget : ID) (b : budget_row) (l : limit_row) (s : BudgetSnapshot) : Prop := {
  so_budget : find_budget d budget = Some b;
  so_limit : latest_limit d budget = Some l;
  so_id : snap_BudgetID s = budget;
  so_task : snap_TaskID s = b_task_id b;
  so_revision : snap_Revision s = b_revision b;
  so_limit_revision : snap_LimitRevision s = l_revision l;
  so_warning : snap_WarningCost s =
    exact (l_warning_numerator l) (l_warning_denominator l) (l_currency l);
  so_hard : snap_HardCost s = exact (l_hard_numerator l) (l_hard_denominator l) (l_currency l);
  so_warning_tokens : snap_WarningTokens s = l_warning_tokens l;
  so_hard_tokens : snap_HardTokens s = l_hard_tokens l;
  so_reserved : (exactCostRat (snap_ReservedCost s) ==
    inject_Z (b_reserved_cost b) + reserved_cost d budget)%Q;
  so_charged : (exactCostRat (snap_ChargedCost s) ==
    inject_Z (b_actual_cost b) + charged_cost d budget)%Q;
  so_reserved_currency : Currency (snap_ReservedCost s) = l_currency l;
  so_charged_currency : Currency (snap_ChargedCost s) = l_currency l;
  so_reserved_tokens : cong64 (inject_Z (snap_ReservedTokens s)) (reserved_tokens d budget);
  so_charged_tokens : cong64 (inject_Z (snap_ChargedTokens s))
    (inject_Z (b_actual_tokens b) + charged_tokens d budget)%Q;
  so_reserved_range : uint64_range (snap_ReservedTokens s);
  so_charged_range : uint64_range (snap_ChargedTokens s);
  so_pending : snap_ReconciliationPending s = negb (bool_decide (pending_rows d budget = []));
  so_hard_cap : snap_HardCapReached s = false ->
    snap_ReconciliationPending s = false /\
    add_u64 (snap_ReservedTokens s) (snap_ChargedTokens s) < snap_HardTokens s;
}.

Lemma snapshot_totals d budget s :
  (forall b, find_budget d budget = Some b -> 0 <= b_actual_tokens b) ->
  computeBudgetSnapshot d budget = Ok s -> exists b l, snapshot_of d budget b l s.
Proof.
  intros Hb. unfold computeBudgetSnapshot. cbn zeta.
  destruct (find_budget d budget) as [b|] eqn:Hfb; [|done].
  destruct (latest_limit d budget) as [l|] eqn:Hl; [|done].
  destruct (parseTypedID _ _) as [|task] eqn:Htask; [done|].
  apply parseTypedID_Ok in Htask as [-> _].
  destruct (ParseCurrencyCode _) as [|currency] eqn:Hc; [done|].
  apply ParseCurrencyCode_Ok in Hc as ->.
  intros (cs & Hcs & (t & Ht & (exposure & He & [= <-])%bind_Ok)%bind_Ok)%bind_Ok.
  exists b, l. pose proof (load_reserved_cost _ _ _ _ Hcs) as (b1 & Hb1 & Hr).
  pose proof (load_charged_cost _ _ _ _ Hcs) as (b2 & Hb2 & Hch).
  pose proof (load_reserved_tokens _ _ _ _ Hcs) as Hrt.
  pose proof (load_charged_tokens _ _ _ _ Hcs) as (b3 & Hb3 & Hct).
  pose proof (load_pending _ _ _ _ Hcs) as Hp. rewrite Hfb in Hb1, Hb2, Hb3.
  injection Hb1 as <-. injection Hb2 as <-. injection Hb3 as <-.
  pose proof (fold_categories _ _ _ Ht) as (T1 & T2 & T3 & T4 & _ & T6 & T7 & T8).
  apply fold_categories_range in Ht as (R1 & R2 & _);
    [|by eapply load_counters; [rewrite Hfb|]|by split..].
  change (exactCostRat (total_reserved (no_totals (l_currency l)))) with 0%Q in T1.
  change (exactCostRat (total_charged (no_totals (l_currency l)))) with 0%Q in T2.
  change (inject_Z (total_reserved_tokens (no_totals (l_currency l)))) with 0%Q in T3.
  change (inject_Z (total_charged_tokens (no_totals (l_currency l)))) with 0%Q in T4.
  rewrite Qplus_0_l in T1, T2, T3, T4.
  constructor; cbn [snap_BudgetID snap_TaskID snap_Revision snap_LimitRevision snap_WarningCost
    snap_HardCost snap_WarningTokens snap_HardTokens snap_ReservedCost snap_ChargedCost
    snap_ReservedTokens snap_ChargedTokens snap_ReconciliationPending snap_HardCapReached]; try done.
  - by rewrite T1.
  - by rewrite T2.
  - etrans; [apply additive_eq, T3|done].
  - etrans; [apply additive_eq, T4|done].
  - by rewrite T8.
  - intros Hh. to_prop. destruct_and!. split; [done|lia].
Qed.
