(* ===== verification/BudgetInvariant.v ===== *)
(** * The invariant of the budget ledger

    The exposure of a budget as a sum over its reservations, the invariant that
    every operation of the ledger keeps, and the bound it puts on what a budget
    holds and is charged. *)

From Stdlib Require Import Ascii QArith Qreduction Qabs Qminmax Lqa.
From S2P Require Import Prelude GoText GoErrors PolicyValues Identity Pricing States FixedPolicy.
From S2P Require Import BudgetSchema BudgetSnapshots BudgetLedger BudgetAccounts BudgetFacts.
Open Scope string_scope.
Open Scope list_scope.
Open Scope go_scope.

(** ** Joins over unique keys *)

Lemma sumQ_swap {A B} (f : A -> B -> Q) la lb :
  (sumQ (fun a => sumQ (f a) lb) la == sumQ (fun b => sumQ (fun a => f a b) la) lb)%Q.
Proof.
  induction la as [|a la IH]; simpl; [by rewrite sumQ_zero|]. rewrite IH. by rewrite <- sumQ_add.
Qed.

(** The rows of one table, each with its row in the other, add up the same from
    both sides. *)
Lemma sumQ_join_swap {A B} (ka : A -> string) (kb : B -> string) (f : A -> B -> Q) la lb :
  NoDup (map ka la) -> NoDup (map kb lb) ->
  (sumQ (fun a => match find (fun b => kb b =? ka a) lb with Some b => f a b | None => 0%Q end) la ==
   sumQ (fun b => match find (fun a => ka a =? kb b) la with Some a => f a b | None => 0%Q end) lb)%Q.
Proof.
  intros Ha Hb.
  rewrite (sumQ_ext _ (fun a => sumQ (fun b => ifQ (ka a =? kb b) (f a b)) lb))
    by (intros a _; by apply sumQ_find).
  rewrite sumQ_swap. apply sumQ_ext. intros b _. symmetry.
  rewrite (sumQ_find ka (fun a => f a b)) by done. apply sumQ_ext. intros a _.
  by rewrite String.eqb_sym.
Qed.

(** Looking up a unique key. *)
Lemma find_unique {A} (key : A -> string) (l : list A) a id :
  NoDup (map key l) -> a ∈ l -> key a = id -> find (fun b => key b =? id) l = Some a.
Proof.
  induction l as [|b l IH]; intros Hnd Ha Hk; [by apply not_elem_of_nil in Ha|].
  apply NoDup_cons in Hnd as [Hb Hnd]. simpl. apply elem_of_cons in Ha as [->|Ha].
  - by rewrite Hk, String.eqb_refl.
  - destruct (String.eqb_spec (key b) id) as [Heq|]; [|auto].
    destruct Hb. rewrite Heq, <- Hk. by apply list_elem_of_fmap_2.
Qed.

Lemma find_key {A} (key : A -> string) (l : list A) a id :
  find (fun b => key b =? id) l = Some a -> a ∈ l /\ key a = id.
Proof. intros [H1 H2%String.eqb_eq]%find_some. split; [by apply list_elem_of_In|done]. Qed.

Lemma find_absent {A} (key : A -> string) (l : list A) id :
  (forall a, a ∈ l -> key a <> id) -> find (fun b => key b =? id) l = None.
Proof.
  intros H. destruct (find _ l) as [a|] eqn:Hf; [|done]. apply find_key in Hf as [Ha Hk].
  by destruct (H a Ha).
Qed.

Lemma find_app_other {A} (key : A -> string) (l : list A) a id :
  key a <> id -> find (fun b => key b =? id) (l ++ [a]) = find (fun b => key b =? id) l.
Proof.
  intros Hk. induction l as [|b l IH]; simpl.
  - by destruct (String.eqb_spec (key a) id).
  - by destruct (key b =? id).
Qed.

Lemma find_app_new {A} (key : A -> string) (l : list A) a :
  (forall b, b ∈ l -> key b <> key a) -> find (fun b => key b =? key a) (l ++ [a]) = Some a.
Proof.
  intros H. induction l as [|b l IH]; simpl.
  - by rewrite String.eqb_refl.
  - destruct (String.eqb_spec (key b) (key a)) as [Heq|]; [by destruct (H b (list_elem_of_here _ _))|].
    apply IH. intros c Hc. apply H. by right.
Qed.

Lemma existsb_key_false {A} (key : A -> string) (l : list A) id :
  existsb (fun a => key a =? id) l = false <-> forall a, a ∈ l -> key a <> id.
Proof.
  rewrite <- not_true_iff_false, existsb_exists. split.
  - intros H a Ha Hk. apply H. exists a. split; [by apply list_elem_of_In|by apply String.eqb_eq].
  - intros H (a & Ha%list_elem_of_In & Hk%String.eqb_eq). by destruct (H a Ha).
Qed.

Lemma NoDup_snoc {A B} (key : A -> B) (l : list A) a :
  NoDup (map key l) -> (forall b, b ∈ l -> key b <> key a) -> NoDup (map key (l ++ [a])).
Proof.
  intros Hnd H. rewrite map_app. simpl. apply NoDup_app. split; [done|]. split; [|apply NoDup_singleton].
  intros k (b & Hk & Hb)%list_elem_of_fmap Hk'%list_elem_of_singleton. subst. by destruct (H b Hb).
Qed.

(** ** The exposure of a reservation *)

Definition posting_of (d : db) (id : string) : option posting_row :=
  find (fun p => p_reservation_id p =? id) (postings d).
Definition intent_of (d : db) (id : string) : option intent_row :=
  find (fun i => i_reservation_id i =? id) (intents d).

Lemma has_posting_of d id : has_posting d id = bool_decide (posting_of d id <> None).
Proof.
  unfold has_posting, posting_of. induction (postings d) as [|p l IH]; simpl; [done|].
  by destruct (p_reservation_id p =? id).
Qed.

Lemma has_pending_intent_of d id :
  has_pending_intent d id = bool_decide (intent_of d id <> None) && negb (has_posting d id).
Proof.
  unfold has_pending_intent, intent_of, is_pending. induction (intents d) as [|i l IH]; simpl; [done|].
  destruct (String.eqb_spec (i_reservation_id i) id) as [->|]; simpl; [|done].
  rewrite IH. by destruct (has_posting d id), (bool_decide _).
Qed.

Section Weights.
Context (bound : reservation_row -> Q) (posted : posting_row -> Q).
Context (billed : intent_row -> reservation_row -> Q).

(** What the reservation still holds, what it is charged, and what it counts
    against the cap: its bound while it is active, and afterwards what it is
    charged as far as its bound covers it. *)
Definition reserved_part (d : db) (r : reservation_row) : Q :=
  ifQ ((r_state r =? "active") && negb (has_pending_intent d (r_id r))) (bound r).
Definition charged_part (d : db) (r : reservation_row) : Q :=
  match posting_of d (r_id r) with
  | Some p => posted p
  | None => match intent_of d (r_id r) with Some i => billed i r | None => 0%Q end
  end.
Definition held (d : db) (r : reservation_row) : Q :=
  if r_state r =? "active" then bound r else Qmin (charged_part d r) (bound r).
(** What it is charged beyond its bound. *)
Definition overrun (d : db) (r : reservation_row) : Q := Qmax 0 (charged_part d r - bound r).

Definition of_budget (f : db -> reservation_row -> Q) (d : db) (budget : ID) : Q :=
  sumQ (fun r => ifQ (r_budget_id r =? budget) (f d r)) (reservations d).

Lemma of_budget_le f g d budget :
  (forall r, r ∈ reservations d -> r_budget_id r = budget -> (f d r <= g d r)%Q) ->
  (of_budget f d budget <= of_budget g d budget)%Q.
Proof.
  intros H. apply sumQ_le. intros r Hr. unfold ifQ.
  destruct (String.eqb_spec (r_budget_id r) budget); [auto|apply Qle_refl].
Qed.

Lemma of_budget_add f g d budget :
  (of_budget (fun d r => f d r + g d r) d budget == of_budget f d budget + of_budget g d budget)%Q.
Proof.
  unfold of_budget. rewrite <- sumQ_add. apply sumQ_ext. intros r _. unfold ifQ.
  destruct (_ =? _); [reflexivity|ring].
Qed.

Lemma of_budget_nonneg f d budget :
  (forall r, r ∈ reservations d -> (0 <= f d r)%Q) -> (0 <= of_budget f d budget)%Q.
Proof.
  intros H. apply sumQ_nonneg. intros r Hr. unfold ifQ. destruct (_ =? _); [auto|apply Qle_refl].
Qed.

(** A change of some rows in place. *)
Lemma of_budget_map f f' (g : reservation_row -> reservation_row) d d' budget :
  reservations d' = map g (reservations d) ->
  (forall r, r_budget_id (g r) = r_budget_id r) ->
  (forall r, r ∈ reservations d -> r_budget_id r = budget -> (f' d' (g r) <= f d r)%Q) ->
  (of_budget f' d' budget <= of_budget f d budget)%Q.
Proof.
  intros Hr Hg H. unfold of_budget. rewrite Hr, sumQ_map. apply sumQ_le. intros r Hin. rewrite Hg.
  unfold ifQ. destruct (String.eqb_spec (r_budget_id r) budget); [auto|apply Qle_refl].
Qed.

(** A new row. *)
Lemma of_budget_snoc f f' d d' r budget :
  reservations d' = reservations d ++ [r] ->
  (forall r, r ∈ reservations d -> (f' d' r == f d r)%Q) ->
  (of_budget f' d' budget == of_budget f d budget + ifQ (r_budget_id r =? budget) (f' d' r))%Q.
Proof.
  intros Hr H. unfold of_budget. rewrite Hr, sumQ_app. simpl. rewrite Qplus_0_r.
  apply Qplus_comp; [|reflexivity]. apply sumQ_ext. intros r' Hin. unfold ifQ.
  destruct (_ =? _); [by apply H|reflexivity].
Qed.
End Weights.

(** ** Well-formed tables *)

Definition token_range (n : Z) : Prop := 0 <= n <= max_int64.

(** What the columns of a row keep to. *)
Definition reservation_ok (r : reservation_row) : Prop :=
  0 <= r_bound_numerator r /\ 0 < r_bound_denominator r /\ token_range (token_bound r) /\
  (r_token_bound_known r = true <-> r_token_bound r <> None).
Definition posting_ok (p : posting_row) : Prop :=
  0 <= p_charged_numerator p /\ 0 < p_charged_denominator p /\ token_range (posted_token_count p).
Definition intent_ok (i : intent_row) : Prop :=
  (i_cost_known i = true -> 0 <= or_zero (i_cost_numerator i) /\ 0 < or_zero (i_cost_denominator i)) /\
  (i_tokens_known i = true -> token_range (or_zero (i_actual_tokens i))).
Definition limit_ok (l : limit_row) : Prop :=
  0 <= l_revision l /\ 0 <= l_hard_numerator l /\ 0 < l_hard_denominator l /\
  token_range (l_hard_tokens l).

(** [r] is the reservation of a row of its budget. *)
Definition reservation_for (d : db) (id : string) (budget : ID) (currency : string)
    (r : reservation_row) : Prop :=
  r ∈ reservations d /\ r_id r = id /\ r_budget_id r = budget /\ r_currency r = currency.

Record wf (d : db) : Prop := {
  wf_budget_ids : NoDup (map b_id (budgets d));
  wf_reservation_ids : NoDup (map r_id (reservations d));
  wf_posting_keys : NoDup (map p_reservation_id (postings d));
  wf_intent_keys : NoDup (map i_reservation_id (intents d));
  wf_limit_keys : NoDup (map (fun l => (l_budget_id l, l_revision l)) (limit_revisions d));
  wf_snapshot_keys : NoDup (map (fun s => (s_budget_id s, s_revision s)) (snapshots d));
  wf_budgets : forall b, b ∈ budgets d ->
    b_reserved_cost b = 0 /\ b_actual_cost b = 0 /\ b_actual_tokens b = 0;
  wf_reservations : forall r, r ∈ reservations d -> reservation_ok r /\
    exists b, b ∈ budgets d /\ b_id b = r_budget_id r /\ b_currency b = r_currency r;
  wf_postings : forall p, p ∈ postings d -> posting_ok p /\
    exists r, reservation_for d (p_reservation_id p) (p_budget_id p) (p_currency p) r /\
      r_state r = "committed";
  wf_intents : forall i, i ∈ intents d -> intent_ok i /\
    exists r, reservation_for d (i_reservation_id i) (i_budget_id i) (i_currency i) r;
  wf_limits : forall l, l ∈ limit_revisions d -> limit_ok l /\
    exists b, b ∈ budgets d /\ b_id b = l_budget_id l /\ b_currency b = l_currency l;
  wf_snapshots : forall s, s ∈ snapshots d -> 0 <= s_revision s /\
    exists b, b ∈ budgets d /\ b_id b = s_budget_id s /\ s_revision s <= b_revision b;
}.

Lemma find_budget_in d budget b : find_budget d budget = Some b -> b ∈ budgets d /\ b_id b = budget.
Proof. apply (find_key b_id). Qed.

Lemma find_budget_wf d b : wf d -> b ∈ budgets d -> find_budget d (b_id b) = Some b.
Proof. intros H Hb. by apply (find_unique b_id); [apply wf_budget_ids|..]. Qed.

Lemma find_reservation_in d id r : find_reservation d id = Some r -> r ∈ reservations d /\ r_id r = id.
Proof. apply (find_key r_id). Qed.

Lemma find_reservation_wf d r : wf d -> r ∈ reservations d -> find_reservation d (r_id r) = Some r.
Proof. intros H Hr. by apply (find_unique r_id); [apply wf_reservation_ids|..]. Qed.

Lemma reservation_unique d r r' :
  wf d -> r ∈ reservations d -> r' ∈ reservations d -> r_id r = r_id r' -> r = r'.
Proof.
  intros H Hr Hr' He. apply (find_reservation_wf d) in Hr, Hr'; [|done..]. rewrite He in Hr. congruence.
Qed.

Lemma posting_of_wf d r p :
  wf d -> r ∈ reservations d -> posting_of d (r_id r) = Some p ->
  p ∈ postings d /\ p_reservation_id p = r_id r /\ p_budget_id p = r_budget_id r /\
  p_currency p = r_currency r /\ r_state r = "committed".
Proof.
  intros H Hr [Hp Hk]%(find_key p_reservation_id).
  destruct (wf_postings d H p Hp) as (_ & r' & (Hr' & Hid & Hb & Hc) & Hs).
  assert (r' = r) as -> by (apply (reservation_unique d); congruence). naive_solver.
Qed.

Lemma intent_of_wf d r i :
  wf d -> r ∈ reservations d -> intent_of d (r_id r) = Some i ->
  i ∈ intents d /\ i_reservation_id i = r_id r /\ i_budget_id i = r_budget_id r /\
  i_currency i = r_currency r.
Proof.
  intros H Hr [Hp Hk]%(find_key i_reservation_id).
  destruct (wf_intents d H i Hp) as (_ & r' & (Hr' & Hid & Hb & Hc)).
  assert (r' = r) as -> by (apply (reservation_unique d); congruence). naive_solver.
Qed.

Lemma active_not_posted d r :
  wf d -> r ∈ reservations d -> r_state r = "active" -> posting_of d (r_id r) = None.
Proof.
  intros H Hr Ha. destruct (posting_of d (r_id r)) eqn:Hp; [|done].
  apply posting_of_wf in Hp as (_ & _ & _ & _ & Hs); [|done..]. by rewrite Ha in Hs.
Qed.

Section Parts.
Context (bound : reservation_row -> Q) (posted : posting_row -> Q).
Context (billed : intent_row -> reservation_row -> Q).

Lemma reserved_sum_parts d budget :
  (reserved_sum bound d budget == of_budget (reserved_part bound) d budget)%Q.
Proof.
  apply sumQ_ext. intros r _. unfold is_reserved, reserved_part, ifQ.
  by destruct (_ =? budget), (_ =? "active"), (has_pending_intent _ _).
Qed.

(** What is charged is what is posted and what is billed and not yet posted. *)
Lemma charged_sum_parts d budget :
  wf d ->
  (pending_sum billed d budget + posted_sum posted d budget ==
   of_budget (charged_part posted billed) d budget)%Q.
Proof.
  intros H. unfold pending_sum, posted_sum, against, find_reservation.
  rewrite (sumQ_ext _ (fun i => match find (fun r => r_id r =? i_reservation_id i) (reservations d)
      with Some r => ifQ ((i_budget_id i =? budget) && is_pending d i) (billed i r) | None => 0%Q end))
    by (intros i _; unfold ifQ; by destruct (find _ _), (_ && _)).
  rewrite (sumQ_ext (fun p => ifQ _ _) (fun p =>
      match find (fun r => r_id r =? p_reservation_id p) (reservations d)
      with Some r => ifQ (p_budget_id p =? budget) (posted p) | None => 0%Q end))
    by (intros p _; unfold ifQ; by destruct (find _ _), (_ =? budget)).
  rewrite !(sumQ_join_swap _ r_id) by apply H. rewrite <- sumQ_add. apply sumQ_ext. intros r Hr.
  fold (intent_of d (r_id r)) (posting_of d (r_id r)). unfold charged_part.
  destruct (posting_of d (r_id r)) as [p|] eqn:Hp.
  - pose proof Hp as Hp'. apply posting_of_wf in Hp as (_ & _ & -> & _); [|done..].
    destruct (intent_of d (r_id r)) as [i|] eqn:Hi; [|ring].
    apply intent_of_wf in Hi as (_ & Hid & _); [|done..]. unfold is_pending.
    rewrite Hid, has_posting_of, Hp', bool_decide_eq_true_2, andb_false_r by done.
    unfold ifQ. ring.
  - destruct (intent_of d (r_id r)) as [i|] eqn:Hi; [|unfold ifQ; destruct (_ =? budget); ring].
    apply intent_of_wf in Hi as (_ & Hid & -> & _); [|done..]. unfold is_pending.
    rewrite Hid, has_posting_of, Hp, bool_decide_eq_false_2, andb_true_r by (intros []; done).
    ring.
Qed.
End Parts.

Lemma SetFrac_nonneg n m : 0 <= n -> 0 < m -> (0 <= SetFrac n m)%Q.
Proof.
  intros Hn Hm. unfold SetFrac, Qle. simpl. destruct m; simpl; lia.
Qed.

Lemma inject_nonneg n : 0 <= n -> (0 <= inject_Z n)%Q.
Proof. intros H. change 0%Q with (inject_Z 0). by rewrite <- Zle_Qle. Qed.

(** The two measures of a row: its cost and its tokens. *)
Class Measure (bound : reservation_row -> Q) (posted : posting_row -> Q)
    (billed : intent_row -> reservation_row -> Q) : Prop := {
  bound_nonneg r : reservation_ok r -> (0 <= bound r)%Q;
  posted_nonneg p : posting_ok p -> (0 <= posted p)%Q;
  billed_nonneg i r : reservation_ok r -> intent_ok i -> (0 <= billed i r)%Q;
  bound_settled state reason provenance micros r :
    bound (settled_row state reason provenance micros r) = bound r;
  billed_settled state reason provenance micros i r :
    billed i (settled_row state reason provenance micros r) = billed i r;
}.

#[export] Instance cost_measure : Measure bound_cost posted_cost billed_cost.
Proof.
  split; try done.
  - intros r H. apply SetFrac_nonneg; apply H.
  - intros p H. apply SetFrac_nonneg; apply H.
  - intros i r Hr Hi. unfold billed_cost. destruct (i_cost_known i) eqn:Hk.
    + destruct Hi as [[? ?] _]; [done|]. by apply SetFrac_nonneg.
    + apply SetFrac_nonneg; apply Hr.
Qed.

#[export] Instance token_measure : Measure bound_tokens posted_tokens billed_tokens.
Proof.
  split; try done.
  - intros r H. apply inject_nonneg, H.
  - intros p H. apply inject_nonneg, H.
  - intros i r Hr Hi. apply inject_nonneg. unfold billed_token_count.
    destruct (i_tokens_known i) eqn:Hk; [by destruct Hi as [_ Hi]; apply Hi|apply Hr].
Qed.

(** ** The latest limit and the latest snapshot *)

Lemma foldr_max_le {A} (f : A -> Z) l n m : (forall a, a ∈ l -> f a <= m) -> n <= m ->
  foldr (fun a k => Z.max (f a) k) n l <= m.
Proof.
  intros H Hn. induction l as [|a l IH]; simpl; [done|].
  apply Z.max_lub; [apply H; by left|]. apply IH. intros b Hb. apply H. by right.
Qed.

Lemma foldr_max_ge {A} (f : A -> Z) l n a : a ∈ l -> f a <= foldr (fun a k => Z.max (f a) k) n l.
Proof.
  intros Ha. induction l as [|b l IH]; simpl; [by apply not_elem_of_nil in Ha|].
  apply elem_of_cons in Ha as [->|Ha]; [lia|]. specialize (IH Ha). lia.
Qed.

Lemma elem_of_filter_bool {A} (p : A -> bool) (l : list A) a : a ∈ filter p l <-> p a = true /\ a ∈ l.
Proof. rewrite list_elem_of_filter. destruct (p a); naive_solver. Qed.

Definition is_latest (d : db) (budget : ID) (l : limit_row) : Prop :=
  l ∈ limit_revisions d /\ l_budget_id l = budget /\
  forall l', l' ∈ limit_revisions d -> l_budget_id l' = budget -> l_revision l' <= l_revision l.

Lemma latest_limit_Some d budget l : latest_limit d budget = Some l -> is_latest d budget l.
Proof.
  unfold latest_limit. intros [Hin Hl]%find_some. apply list_elem_of_In, elem_of_filter_bool in Hin.
  to_prop. destruct Hin as [Hb Hin]. split_and!; [done..|]. intros l' Hl' Hb'. rewrite Hl.
  apply (foldr_max_ge l_revision). apply elem_of_filter_bool. split; [by apply String.eqb_eq|done].
Qed.

Lemma latest_limit_intro d budget l : wf d -> is_latest d budget l -> latest_limit d budget = Some l.
Proof.
  intros Hwf (Hin & Hb & Hmax). unfold latest_limit.
  set (mine := filter _ (limit_revisions d)).
  assert (l ∈ mine) as Hm by (apply elem_of_filter_bool; split; [by apply String.eqb_eq|done]).
  pose proof (foldr_max_ge l_revision mine (-1) l Hm).
  assert (0 <= l_revision l) by apply (wf_limits d Hwf l Hin).
  assert (foldr (fun l m => Z.max (l_revision l) m) (-1) mine <= l_revision l).
  { apply (foldr_max_le l_revision); [|lia]. intros l' Hl'%elem_of_filter_bool. to_prop.
    destruct Hl' as [Hb' Hin']. by apply Hmax. }
  destruct (find _ mine) as [l'|] eqn:Hf.
  - apply find_some in Hf as [Hl' He%Z.eqb_eq]. apply list_elem_of_In, elem_of_filter_bool in Hl'.
    to_prop. destruct Hl' as [Hb' Hl']. f_equal.
    apply list_elem_of_lookup in Hin as [i Hi], Hl' as [j Hj].
    pose proof (wf_limit_keys d Hwf) as Hnd. rewrite NoDup_alt in Hnd.
    assert (j = i) as ->; [|congruence].
    eapply Hnd; rewrite list_lookup_fmap, ?Hi, ?Hj; simpl; [done|]. do 2 f_equal; [congruence|lia].
  - eapply find_none in Hf; [|by apply list_elem_of_In]. simpl in Hf. to_prop. lia.
Qed.

(** ** The account of a budget *)

Abbreviation held_cost := (of_budget (held bound_cost posted_cost billed_cost)) (only parsing).
Abbreviation held_tokens := (of_budget (held bound_tokens posted_tokens billed_tokens)) (only parsing).
Definition reserved_costs := of_budget (reserved_part bound_cost).
Definition charged_costs := of_budget (charged_part posted_cost billed_cost).
Definition reserved_token_sum := of_budget (reserved_part bound_tokens).
Definition charged_token_sum := of_budget (charged_part posted_tokens billed_tokens).

Definition limit_cost (l : limit_row) : Q := SetFrac (l_hard_numerator l) (l_hard_denominator l).

(** What the budget's reservations count against the cap is within it. *)
Record capped (d : db) (budget : ID) (l : limit_row) : Prop := {
  cap_limit : latest_limit d budget = Some l;
  cap_cost : (held_cost d budget <= limit_cost l)%Q;
  cap_tokens : (held_tokens d budget <= inject_Z (l_hard_tokens l))%Q;
}.

Definition tokens_below (n : Z) (d : db) (budget : ID) : Prop :=
  (reserved_token_sum d budget < inject_Z n)%Q /\ (charged_token_sum d budget < inject_Z n)%Q.

Definition pending_in (d : db) (budget : ID) : bool :=
  existsb (fun r => (r_budget_id r =? budget) && has_pending_intent d (r_id r)) (reservations d).

(** The stored snapshot holds the totals of the tables. *)
Record stored (d : db) (b : budget_row) (l : limit_row) (s : snapshot_row) : Prop := {
  st_in : s ∈ snapshots d;
  st_budget : s_budget_id s = b_id b;
  st_revision : s_revision s = b_revision b;
  st_task : s_task_id s = b_task_id b;
  st_currency : s_currency s = b_currency b;
  st_limit : s_limit_revision s = l_revision l;
  st_reserved : (SetFrac (s_reserved_numerator s) (s_reserved_denominator s) ==
    reserved_costs d (b_id b))%Q;
  st_charged : (SetFrac (s_charged_numerator s) (s_charged_denominator s) ==
    charged_costs d (b_id b))%Q;
  st_reserved_tokens : (inject_Z (s_reserved_tokens s) == reserved_token_sum d (b_id b))%Q;
  st_charged_tokens : (inject_Z (s_charged_tokens s) == charged_token_sum d (b_id b))%Q;
  st_pending : s_reconciliation_pending s = pending_in d (b_id b);
}.

Definition account_ok (d : db) (b : budget_row) : Prop :=
  exists l s, capped d (b_id b) l /\ tokens_below (2 ^ 63) d (b_id b) /\ l_revision l < 2 ^ 63 /\
    stored d b l s.

Definition ledger_inv (d : db) : Prop := wf d /\ forall b, b ∈ budgets d -> account_ok d b.

(** Between the change of a budget's rows and the snapshot that records it. *)
Definition ledger_mid (d : db) (budget : ID) : Prop :=
  wf d /\ (forall b, b ∈ budgets d -> b_id b <> budget -> account_ok d b) /\
  forall b, b ∈ budgets d -> b_id b = budget ->
    exists l, capped d budget l /\ tokens_below (2 ^ 64) d budget.

Lemma pending_rows_in d budget :
  wf d -> negb (bool_decide (pending_rows d budget = [])) = pending_in d budget.
Proof.
  intros H. apply eq_true_iff_eq. rewrite negb_true_iff, bool_decide_eq_false. split.
  - destruct (pending_rows d budget) as [|[i r] l] eqn:Hp; [done|]. intros _.
    assert ((i, r) ∈ pending_rows d budget) as Hin by (rewrite Hp; by left).
    apply list_elem_of_omap in Hin as (i' & Hi' & Hf).
    destruct (find_reservation _ _) as [r'|] eqn:Hr; [|done]. injection Hf as -> ->.
    rewrite by_time_perm, elem_of_filter_bool in Hi'. to_prop. destruct Hi' as [[Hb Hpend] Hi].
    apply find_reservation_in in Hr as [Hr Hid]. apply existsb_exists. exists r.
    split; [by apply list_elem_of_In|]. destruct (wf_intents d H i Hi) as (_ & r' & Hr' & Hid' & Hb' & _).
    assert (r' = r) as -> by (apply (reservation_unique d); congruence).
    rewrite Hb', Hb, String.eqb_refl. simpl. apply existsb_exists. exists i.
    split; [by apply list_elem_of_In|]. rewrite Hid, String.eqb_refl. done.
  - intros (r & Hr%list_elem_of_In & Hp)%existsb_exists Hnil. to_prop. destruct Hp as [Hb Hp].
    apply existsb_exists in Hp as (i & Hi%list_elem_of_In & Hk). to_prop. destruct Hk as [Hk Hpend].
    assert ((i, r) ∈ pending_rows d budget) as Hin; [|rewrite Hnil in Hin; by apply not_elem_of_nil in Hin].
    apply list_elem_of_omap. exists i. split.
    + rewrite by_time_perm. apply elem_of_filter_bool. split; [|done]. rewrite Hpend, andb_true_r.
      apply String.eqb_eq. destruct (wf_intents d H i Hi) as (_ & r' & Hr' & Hid' & Hb' & _).
      assert (r' = r) as -> by (apply (reservation_unique d); congruence). congruence.
    + rewrite Hk, find_reservation_wf by done. done.
Qed.

(** ** Statements that succeed *)

Lemma writing_Ok {A} operation (r : result sql_error A) a : writing operation r = Ok a -> r = Ok a.
Proof. by destruct r; intros [= ->]. Qed.

Lemma with_value_Ok {V A} (v : V) (m : result error A) a : (m @@ v) = Ok a -> m = Ok a.
Proof. by destruct m; intros [= ->]. Qed.

Lemma refuse_Ok {V} condition (v : V) e u : refuse condition v e = Ok u -> condition = false.
Proof. by destruct condition. Qed.

(** A step whose value is not needed. *)
Ltac skip_bind H := apply bind_Ok in H as (? & _ & H).

Lemma check_all_Ok {A} checks (x y : A) :
  (check_all checks ;! Ok x) = Ok y -> y = x /\ Forall (fun c => fst c = true) checks.
Proof.
  induction checks as [|[h c] checks IH]; simpl; [naive_solver|].
  destruct h; [|done]. intros [-> H]%IH. split; [done|]. by constructor.
Qed.

Lemma insert_snapshot_Ok d s d' :
  insert_snapshot d s = Ok d' ->
  d' = set_snapshots d (snapshots d ++ [s]) /\ 0 <= s_revision s /\
  forall s', s' ∈ snapshots d -> (s_budget_id s', s_revision s') <> (s_budget_id s, s_revision s).
Proof.
  unfold insert_snapshot. intros [-> H]%check_all_Ok. rewrite !Forall_cons in H.
  destruct H as (Hc & Hk & _). split; [done|]. simpl in *. split.
  - unfold snapshot_checks in Hc. to_prop. destruct_and!. lia.
  - intros s' Hs' [= Hb Hr]. apply negb_true_iff, not_true_iff_false in Hk. apply Hk.
    apply existsb_exists. exists s'. split; [by apply list_elem_of_In|].
    rewrite Hb, Hr, String.eqb_refl, Z.eqb_refl. done.
Qed.

Lemma wf_set_snapshots d s b :
  wf d -> b ∈ budgets d -> b_id b = s_budget_id s -> 0 <= s_revision s <= b_revision b ->
  (forall s', s' ∈ snapshots d -> (s_budget_id s', s_revision s') <> (s_budget_id s, s_revision s)) ->
  wf (set_snapshots d (snapshots d ++ [s])).
Proof.
  intros H Hb Hid Hr Hnew. destruct H. constructor; try assumption.
  - simpl. by apply NoDup_snoc.
  - simpl. intros s' [Hs'|Hs'%list_elem_of_singleton]%elem_of_app; [auto|subst s']. split; [lia|].
    exists b. split_and!; [done..|lia].
Qed.

(** The account depends on the rows of the ledger only. *)
Definition same_rows (d d' : db) : Prop :=
  reservations d' = reservations d /\ postings d' = postings d /\ intents d' = intents d.

Lemma capped_frame d d' budget l :
  same_rows d d' -> limit_revisions d' = limit_revisions d -> capped d budget l -> capped d' budget l.
Proof.
  intros (H1 & H2 & H3) H4 []. destruct d, d'; simpl in *; subst. constructor; assumption.
Qed.

Lemma tokens_frame n d d' budget : same_rows d d' -> tokens_below n d budget -> tokens_below n d' budget.
Proof. intros (H1 & H2 & H3) H. destruct d, d'; simpl in *; subst. exact H. Qed.

Lemma stored_frame d d' b l s :
  same_rows d d' -> (forall s, s ∈ snapshots d -> s ∈ snapshots d') -> stored d b l s -> stored d' b l s.
Proof.
  intros (H1 & H2 & H3) H4 []. destruct d, d'; simpl in *; subst. constructor; auto.
Qed.


(** The totals of a snapshot, as sums over the reservations. *)
Lemma snapshot_sums d budget b l s :
  wf d -> snapshot_of d budget b l s ->
  (exactCostRat (snap_ReservedCost s) == reserved_costs d budget)%Q /\
  (exactCostRat (snap_ChargedCost s) == charged_costs d budget)%Q /\
  cong64 (inject_Z (snap_ReservedTokens s)) (reserved_token_sum d budget) /\
  cong64 (inject_Z (snap_ChargedTokens s)) (charged_token_sum d budget) /\
  snap_ReconciliationPending s = pending_in d budget.
Proof.
  intros H []. destruct (wf_budgets d H b) as (Hr & Ha & Ht); [by eapply find_budget_in|].
  rewrite Hr in so_reserved. rewrite Ha in so_charged. rewrite Ht in so_charged_tokens.
  change (inject_Z 0) with 0%Q in *. rewrite Qplus_0_l in so_reserved, so_charged.
  unfold reserved_costs, charged_costs, reserved_token_sum, charged_token_sum.
  split_and!.
  - rewrite <- reserved_sum_parts. exact so_reserved.
  - rewrite <- charged_sum_parts by done. exact so_charged.
  - etrans; [exact so_reserved_tokens|]. apply additive_eq, reserved_sum_parts.
  - etrans; [exact so_charged_tokens|]. apply additive_eq. rewrite <- charged_sum_parts by done.
    unfold charged_tokens. ring.
  - by rewrite <- pending_rows_in.
Qed.

Section Nonneg.
Context (bound : reservation_row -> Q) (posted : posting_row -> Q).
Context (billed : intent_row -> reservation_row -> Q) `{!Measure bound posted billed}.

Lemma reserved_part_nonneg d r : wf d -> r ∈ reservations d -> (0 <= reserved_part bound d r)%Q.
Proof.
  intros H Hr. unfold reserved_part, ifQ. destruct (_ && _); [|apply Qle_refl].
  by apply bound_nonneg, (wf_reservations d).
Qed.

Lemma charged_part_nonneg d r : wf d -> r ∈ reservations d -> (0 <= charged_part posted billed d r)%Q.
Proof.
  intros H Hr. unfold charged_part. destruct (posting_of d (r_id r)) as [p|] eqn:Hp.
  - apply posted_nonneg. apply posting_of_wf in Hp as [Hp _]; [|done..]. by apply (wf_postings d).
  - destruct (intent_of d (r_id r)) as [i|] eqn:Hi; [|apply Qle_refl].
    apply intent_of_wf in Hi as [Hi _]; [|done..].
    apply billed_nonneg; [by apply (wf_reservations d)|by apply (wf_intents d)].
Qed.
End Nonneg.

Lemma below_le n m d budget : n <= m -> tokens_below n d budget -> tokens_below m d budget.
Proof. intros H [H1 H2]. rewrite Zle_Qle in H. split; lra. Qed.

Lemma snapshot_tokens d budget b l s :
  wf d -> snapshot_of d budget b l s -> tokens_below (2 ^ 64) d budget ->
  (inject_Z (snap_ReservedTokens s) == reserved_token_sum d budget)%Q /\
  (inject_Z (snap_ChargedTokens s) == charged_token_sum d budget)%Q.
Proof.
  intros H Hs [H1 H2]. pose proof (snapshot_sums _ _ _ _ _ H Hs) as (_ & _ & H3 & H4 & _).
  destruct Hs. split; apply cong64_unique; try done; apply of_budget_nonneg; intros r Hr.
  - by eapply (reserved_part_nonneg bound_tokens posted_tokens billed_tokens).
  - by eapply (charged_part_nonneg bound_tokens posted_tokens billed_tokens).
Qed.

(** Storing the snapshot of the changed rows restores the invariant. *)
Lemma persist_inv d budget b l s d' :
  ledger_mid d budget -> snapshot_of d budget b l s -> persistBudgetSnapshot d s = Ok d' ->
  ledger_inv d'.
Proof.
  intros (Hwf & Hothers & Hmid) Hs Hp. unfold persistBudgetSnapshot in Hp. apply writing_Ok in Hp.
  if_cases Hp. apply insert_snapshot_Ok in Hp as (-> & Hr0 & Hnew).
  pose proof (snapshot_sums _ _ _ _ _ Hwf Hs) as (S1 & S2 & _ & _ & S5).
  destruct (find_budget_in _ _ _ (so_budget _ _ _ _ _ Hs)) as [Hb Hid].
  destruct (Hmid b Hb Hid) as (l' & Hcap & Htok).
  assert (l' = l) as -> by (pose proof (cap_limit _ _ _ Hcap); destruct Hs; congruence).
  destruct (snapshot_tokens _ _ _ _ _ Hwf Hs Htok) as [T1 T2].
  pose proof (latest_limit_Some _ _ _ (cap_limit _ _ _ Hcap)) as (Hl & Hlb & _).
  destruct (wf_limits d Hwf l Hl) as (_ & b' & Hb' & Hid' & Hcur).
  assert (b' = b) as ->.
  { apply (find_budget_wf d) in Hb, Hb'; [|done..]. rewrite Hid', Hlb in Hb'. rewrite Hid in Hb. congruence. }
  simpl in Hif. unfold bindable in Hif. to_prop. destruct_and!. destruct Hs.
  split.
  - apply (wf_set_snapshots d _ b); simpl; try done; [congruence|].
    simpl in Hr0. split; [done|]. rewrite so_revision. lia.
  - simpl. intros b' Hb''. destruct (decide (b_id b' = budget)) as [Heq|Hne].
    + assert (b' = b) as ->.
      { apply (find_budget_wf d) in Hb, Hb''; [|done..]. rewrite Heq in Hb''. rewrite Hid in Hb. congruence. }
      exists l, (snapshot_to_row s). rewrite Heq.
      split_and!; [by apply (capped_frame d)| | |].
      * split; [change (reserved_token_sum d budget < inject_Z (2 ^ 63))%Q; rewrite <- T1
               |change (charged_token_sum d budget < inject_Z (2 ^ 63))%Q; rewrite <- T2];
          rewrite <- Zlt_Qlt; simpl in *; lia.
      * simpl in *. lia.
      * constructor; simpl; rewrite ?Heq; try done; try congruence.
        -- apply elem_of_app. right. by apply list_elem_of_singleton.
        -- rewrite so_hard. simpl. congruence.
    + destruct (Hothers b' Hb'' Hne) as (l' & s' & ? & ? & ? & ?).
      exists l', s'. split_and!; [by apply (capped_frame d)|done..|].
      apply (stored_frame d); [done| |done]. intros. apply elem_of_app. by left.
Qed.

(** ** The next revision of a budget *)

Lemma update_budget_Ok d id revision change d' :
  wf d -> update_budget d id revision change = Ok (true, d') ->
  exists b, find_budget d id = Some b /\ b_revision b = revision /\ budget_checks (change b) = true /\
    d' = set_budgets d (map (fun r => if (b_id r =? id) && (b_revision r =? revision)%Z
                                      then change r else r) (budgets d)).
Proof.
  intros Hwf. unfold update_budget. intros H. if_cases H. injection H as Hex <-.
  apply existsb_exists in Hex as (b & Hb & Hhit). apply negb_false_iff in Hif. rewrite forallb_forall in Hif.
  specialize (Hif b Hb). rewrite Hhit in Hif. simpl in Hif. to_prop. destruct Hhit as [Hid Hr].
  exists b. split_and!; [|done..]. rewrite <- Hid. apply find_budget_wf; [done|].
  by apply list_elem_of_In.
Qed.

(** A change that keeps what the ledger reads of a budget. *)
Definition keeps_account (change : budget_row -> budget_row) : Prop :=
  forall b, b_id (change b) = b_id b /\ b_task_id (change b) = b_task_id b /\
    b_currency (change b) = b_currency b /\ b_reserved_cost (change b) = b_reserved_cost b /\
    b_actual_cost (change b) = b_actual_cost b /\ b_actual_tokens (change b) = b_actual_tokens b /\
    b_revision (change b) = b_revision b + 1.

Section ChangeBudget.
Context (d : db) (budget : ID) (revision : Z) (change : budget_row -> budget_row).
Context (Hkeep : keeps_account change).

Let changed (r : budget_row) : budget_row :=
  if (b_id r =? budget) && (b_revision r =? revision)%Z then change r else r.
Let d' : db := set_budgets d (map changed (budgets d)).

Lemma changed_id r : b_id (changed r) = b_id r.
Proof. unfold changed. destruct (_ && _); [apply Hkeep|done]. Qed.

Lemma changed_currency r : b_currency (changed r) = b_currency r.
Proof. unfold changed. destruct (_ && _); [apply Hkeep|done]. Qed.

Lemma changed_in r : r ∈ budgets d -> changed r ∈ budgets d'.
Proof. intros H. simpl. by apply list_elem_of_fmap_2. Qed.

Lemma change_budget_wf : wf d -> wf d'.
Proof.
  intros []. constructor; try assumption; simpl.
  - rewrite map_map. erewrite map_ext; [eassumption|]. apply changed_id.
  - intros b (b0 & -> & Hb0)%list_elem_of_fmap. specialize (wf_budgets0 b0 Hb0).
    unfold changed. destruct (_ && _); [|done].
    destruct (Hkeep b0) as (_ & _ & _ & -> & -> & -> & _). done.
  - intros r Hr. destruct (wf_reservations0 r Hr) as (Hok & b & Hb & Hid & Hc). split; [done|].
    exists (changed b). rewrite changed_id, changed_currency. by split; [apply changed_in|].
  - intros l Hl. destruct (wf_limits0 l Hl) as (Hok & b & Hb & Hid & Hc). split; [done|].
    exists (changed b). rewrite changed_id, changed_currency. by split; [apply changed_in|].
  - intros s Hs. destruct (wf_snapshots0 s Hs) as (Hok & b & Hb & Hid & Hc). split; [done|].
    exists (changed b). rewrite changed_id. split; [by apply changed_in|]. split; [done|].
    unfold changed. destruct (_ && _); [|done]. destruct (Hkeep b) as (_ & _ & _ & _ & _ & _ & ->). lia.
Qed.

Lemma change_budget_find b :
  wf d -> find_budget d budget = Some b -> b_revision b = revision ->
  find_budget d' budget = Some (change b).
Proof.
  intros Hwf [Hb Hid]%find_budget_in Hr.
  assert (changed b = change b) as Hc by (unfold changed; by rewrite Hid, Hr, String.eqb_refl, Z.eqb_refl).
  rewrite <- Hc. replace budget with (b_id (changed b)) by (rewrite changed_id; done).
  apply find_budget_wf; [by apply change_budget_wf|by apply changed_in].
Qed.

Lemma change_budget_mid : ledger_mid d budget -> ledger_mid d' budget.
Proof.
  intros (Hwf & Hothers & Hmid). split_and!; [by apply change_budget_wf| |].
  - simpl. intros b (b0 & -> & Hb0)%list_elem_of_fmap Hne. rewrite changed_id in Hne.
    assert (changed b0 = b0) as ->.
    { unfold changed. by destruct (String.eqb_spec (b_id b0) budget). }
    destruct (Hothers b0 Hb0 Hne) as (l & s & ? & ? & ? & ?). exists l, s.
    split_and!; [by apply (capped_frame d)|done..|by apply (stored_frame d)].
  - simpl. intros b (b0 & -> & Hb0)%list_elem_of_fmap Hid. rewrite changed_id in Hid.
    destruct (Hmid b0 Hb0 Hid) as (l & ? & ?). exists l. by split; [apply (capped_frame d)|].
Qed.
End ChangeBudget.

Lemma advanced_keeps micros : keeps_account (advanced_row micros).
Proof. by intros b. Qed.

Lemma advance_Ok d budget expected micros n d' :
  wf d -> advanceBudgetRevision d budget expected micros = Ok (n, d') ->
  exists b, find_budget d budget = Some b /\ b_revision b = expected /\ n = expected + 1 /\
    find_budget d' budget = Some (advanced_row micros b) /\
    (exists v, d' = set_budgets d v) /\ (ledger_mid d budget -> ledger_mid d' budget).
Proof.
  intros Hwf. unfold advanceBudgetRevision.
  intros ([[] d1] & Hu%writing_Ok & H)%bind_Ok; [|done]. injection H as <- <-.
  apply update_budget_Ok in Hu as (b & Hb & Hr & _ & ->); [|done].
  exists b. split_and!; try done.
  - apply change_budget_find; [apply advanced_keeps|done..].
  - by eexists.
  - apply change_budget_mid, advanced_keeps.
Qed.

(** A snapshot computed before the revision is the snapshot of the next one. *)
Lemma snapshot_of_stamped d d' budget b b' l s n createdAt :
  snapshot_of d budget b l s -> (exists v, d' = set_budgets d v) ->
  find_budget d' budget = Some b' -> b_task_id b' = b_task_id b ->
  b_reserved_cost b' = b_reserved_cost b -> b_actual_cost b' = b_actual_cost b ->
  b_actual_tokens b' = b_actual_tokens b -> b_revision b' = n ->
  snapshot_of d' budget b' l (stamped s n createdAt).
Proof.
  intros [] [v ->] Hf Ht Hr Ha Hat Hn. constructor; simpl; try done; try congruence.
  - by rewrite Hr.
  - by rewrite Ha.
  - by rewrite Hat.
Qed.

Lemma compute_snapshot_of d budget s :
  wf d -> computeBudgetSnapshot d budget = Ok s -> exists b l, snapshot_of d budget b l s.
Proof.
  intros Hwf. apply snapshot_totals. intros b [Hb _]%find_budget_in.
  destruct (wf_budgets d Hwf b Hb) as (_ & _ & ->). done.
Qed.
