(* ===== verification/BudgetSteps.v ===== *)
(** * Every operation of the ledger keeps the invariant

    What one changed row does to the sums over a budget's reservations, and
    from that the preservation of [ledger_inv] by each operation. *)

From Stdlib Require Import Ascii QArith Qreduction Qabs Qminmax Lqa.
From S2P Require Import Prelude GoText GoErrors PolicyValues Identity Pricing States FixedPolicy.
From S2P Require Import BudgetSchema BudgetSnapshots BudgetLedger BudgetAccounts BudgetFacts BudgetInvariant.
Open Scope string_scope.
Open Scope list_scope.
Open Scope go_scope.

(** ** Measures that look at one reservation only *)

Definition local (f : db -> reservation_row -> Q) : Prop := forall d d' r,
  posting_of d' (r_id r) = posting_of d (r_id r) -> intent_of d' (r_id r) = intent_of d (r_id r) ->
  f d' r = f d r.

Lemma pending_local d d' id :
  posting_of d' id = posting_of d id -> intent_of d' id = intent_of d id ->
  has_pending_intent d' id = has_pending_intent d id.
Proof. intros H1 H2. by rewrite !has_pending_intent_of, !has_posting_of, H1, H2. Qed.

Lemma reserved_local bound : local (reserved_part bound).
Proof. intros d d' r H1 H2. unfold reserved_part. by rewrite (pending_local d d'). Qed.

Lemma charged_local posted billed : local (charged_part posted billed).
Proof. intros d d' r H1 H2. unfold charged_part. by rewrite H1, H2. Qed.

Lemma held_local bound posted billed : local (held bound posted billed).
Proof. intros d d' r H1 H2. unfold held. by rewrite (charged_local _ _ d d' r H1 H2). Qed.

Create HintDb ledger.
#[export] Hint Resolve reserved_local charged_local held_local : ledger.

(** The rows of the budget are as they were. *)
Record untouched (d d' : db) (budget : ID) : Prop := {
  un_reservations : filter (fun r => r_budget_id r =? budget) (reservations d') =
    filter (fun r => r_budget_id r =? budget) (reservations d);
  un_postings r : r ∈ reservations d -> r_budget_id r = budget ->
    posting_of d' (r_id r) = posting_of d (r_id r);
  un_intents r : r ∈ reservations d -> r_budget_id r = budget ->
    intent_of d' (r_id r) = intent_of d (r_id r);
}.

Lemma untouched_sum f d d' budget :
  local f -> untouched d d' budget -> (of_budget f d' budget == of_budget f d budget)%Q.
Proof.
  intros Hf [H1 H2 H3]. unfold of_budget. rewrite <- !sumQ_filter, H1.
  apply sumQ_ext. intros r Hr%elem_of_filter_bool. to_prop. destruct Hr as [Hb Hr].
  rewrite (Hf d d' r); auto. reflexivity.
Qed.

Lemma existsb_filter {A} (p q : A -> bool) (l : list A) :
  existsb (fun a => p a && q a) l = existsb q (filter p l).
Proof.
  induction l as [|a l IH]; simpl; [done|]. destruct (p a) eqn:Hp.
  - rewrite filter_cons_True by (rewrite Hp; exact I). simpl. by rewrite IH.
  - rewrite filter_cons_False by (rewrite Hp; tauto). done.
Qed.

Lemma existsb_ext_in {A} (p q : A -> bool) (l : list A) :
  (forall a, a ∈ l -> p a = q a) -> existsb p l = existsb q l.
Proof.
  intros H. induction l as [|a l IH]; simpl; [done|]. rewrite (H a) by by left. f_equal.
  apply IH. intros b Hb. apply H. by right.
Qed.

Lemma untouched_pending d d' budget :
  untouched d d' budget -> pending_in d' budget = pending_in d budget.
Proof.
  intros [H1 H2 H3]. unfold pending_in. rewrite !existsb_filter, H1. apply existsb_ext_in.
  intros r Hr%elem_of_filter_bool. to_prop. destruct Hr as [Hb Hr]. by apply pending_local; auto.
Qed.

Lemma untouched_account d d' b :
  untouched d d' (b_id b) -> latest_limit d' (b_id b) = latest_limit d (b_id b) ->
  (forall s, s ∈ snapshots d -> s ∈ snapshots d') -> account_ok d b -> account_ok d' b.
Proof.
  intros Hu Hl Hs (l & s & [C1 C2 C3] & [T1 T2] & Hr & []). exists l, s.
  pose proof (fun f Hf => untouched_sum f d d' (b_id b) Hf Hu) as Hsum.
  unfold reserved_costs, charged_costs, reserved_token_sum, charged_token_sum in *.
  split_and!; [constructor|split|done|constructor]; try congruence; auto;
    unfold reserved_costs, charged_costs, reserved_token_sum, charged_token_sum;
    rewrite ?Hsum by auto with ledger; try done.
  by rewrite (untouched_pending d d').
Qed.

(** ** One reservation changes *)

#[export] Instance reservation_row_eq_dec : EqDecision reservation_row.
Proof. solve_decision. Defined.

Lemma filter_map_same {A} (p : A -> bool) (g : A -> A) (l : list A) :
  (forall a, a ∈ l -> p (g a) = p a /\ (p a = true -> g a = a)) ->
  filter p (map g l) = filter p l.
Proof.
  induction l as [|a l IH]; intros H; simpl; [done|].
  destruct (H a) as [H1 H2]; [by left|]. specialize (IH (fun b Hb => H b (list_elem_of_further _ _ _ Hb))).
  destruct (p a) eqn:Hp.
  - rewrite (H2 eq_refl), !filter_cons_True by (rewrite Hp; exact I). by rewrite IH.
  - rewrite !filter_cons_False by (rewrite ?H1, ?Hp; tauto). done.
Qed.

Section OneRow.
Context (d d' : db) (g : reservation_row -> reservation_row) (r0 : reservation_row).
Context (Hwf : wf d) (Hr0 : r0 ∈ reservations d) (Hres : reservations d' = map g (reservations d)).
Context (Hg : forall r, r ∈ reservations d -> r <> r0 -> g r = r).
Context (Hid : r_id (g r0) = r_id r0) (Hbudget : r_budget_id (g r0) = r_budget_id r0).
Context (Hpost : forall id, id <> r_id r0 -> posting_of d' id = posting_of d id).
Context (Hint : forall id, id <> r_id r0 -> intent_of d' id = intent_of d id).

Lemma other_id r : r ∈ reservations d -> r <> r0 -> r_id r <> r_id r0.
Proof. intros Hr Hne He. by destruct Hne; apply (reservation_unique d). Qed.

Lemma one_row_local f r :
  local f -> r ∈ reservations d -> r <> r0 -> f d' (g r) = f d r.
Proof.
  intros Hf Hr Hne. rewrite Hg by done. pose proof (other_id r Hr Hne). apply Hf; auto.
Qed.

Lemma one_row_sum f x budget :
  local f -> (0 <= x)%Q -> (f d' (g r0) <= f d r0 + x)%Q ->
  (of_budget f d' budget <= of_budget f d budget + x)%Q.
Proof.
  intros Hf Hx H0. unfold of_budget. rewrite Hres, sumQ_map.
  apply Qle_trans with (sumQ (fun r => ifQ (r_budget_id r =? budget) (f d r) +
                                       ifQ (r_id r0 =? r_id r) x) (reservations d))%Q.
  - apply sumQ_le. intros r Hr. unfold ifQ. destruct (decide (r = r0)) as [->|Hne].
    + rewrite Hbudget, String.eqb_refl. destruct (_ =? budget); lra.
    + rewrite (one_row_local f r Hf Hr Hne), Hg by done.
      destruct (_ =? budget), (_ =? r_id r); lra.
  - rewrite sumQ_add, <- (sumQ_find r_id (fun _ => x)) by apply Hwf. destruct (find _ _); lra.
Qed.

Lemma one_row_le f budget :
  local f -> (f d' (g r0) <= f d r0)%Q -> (of_budget f d' budget <= of_budget f d budget)%Q.
Proof.
  intros Hf H0. pose proof (one_row_sum f 0 budget Hf (Qle_refl 0)). lra.
Qed.

Lemma one_row_untouched budget : budget <> r_budget_id r0 -> untouched d d' budget.
Proof.
  intros Hne. constructor.
  - rewrite Hres. apply filter_map_same. intros r Hr. destruct (decide (r = r0)) as [->|Hr'].
    + rewrite Hbudget. split; [done|]. intros He%String.eqb_eq. by destruct Hne.
    + by rewrite Hg.
  - intros r Hr <-. apply Hpost, other_id; [done|by intros ->].
  - intros r Hr <-. apply Hint, other_id; [done|by intros ->].
Qed.

(** The changed tables are ready for the snapshot of the budget. *)
Lemma one_row_mid x :
  ledger_inv d -> wf d' -> budgets d' = budgets d -> limit_revisions d' = limit_revisions d ->
  snapshots d' = snapshots d ->
  (held bound_cost posted_cost billed_cost d' (g r0) <= held bound_cost posted_cost billed_cost d r0)%Q ->
  (held bound_tokens posted_tokens billed_tokens d' (g r0) <=
   held bound_tokens posted_tokens billed_tokens d r0)%Q ->
  (reserved_part bound_tokens d' (g r0) <= reserved_part bound_tokens d r0)%Q ->
  token_range x ->
  (charged_part posted_tokens billed_tokens d' (g r0) <=
   charged_part posted_tokens billed_tokens d r0 + inject_Z x)%Q ->
  ledger_mid d' (r_budget_id r0).
Proof.
  intros [_ Hinv] Hwf' Hb Hl Hs H1 H2 H3 Hx H4.
  assert (forall budget, latest_limit d' budget = latest_limit d budget) as Hlatest.
  { intros budget. unfold latest_limit. by rewrite Hl. }
  split_and!; [done| |].
  - rewrite Hb. intros b Hin Hne. apply (untouched_account d); [by apply one_row_untouched|done| |auto].
    by rewrite Hs.
  - rewrite Hb. intros b Hin Hid'. destruct (Hinv b Hin) as (l & s & [C1 C2 C3] & [T1 T2] & _ & _).
    rewrite Hid' in *. exists l.
    apply (one_row_le _ (r_budget_id r0)) in H1; [|auto with ledger].
    apply (one_row_le _ (r_budget_id r0)) in H2; [|auto with ledger].
    apply (one_row_le _ (r_budget_id r0)) in H3; [|auto with ledger].
    apply (one_row_sum _ _ (r_budget_id r0)) in H4; [|auto with ledger|apply inject_nonneg, Hx].
    assert (inject_Z x < inject_Z (2 ^ 63))%Q by (rewrite <- Zlt_Qlt; unfold token_range, max_int64 in Hx; lia).
    assert (inject_Z (2 ^ 64) == inject_Z (2 ^ 63) + inject_Z (2 ^ 63))%Q by done.
    assert (0 < inject_Z (2 ^ 63))%Q by done.
    unfold tokens_below, reserved_token_sum, charged_token_sum in *.
    split; [constructor; [by rewrite Hlatest|lra|lra]|split; lra].
Qed.
End OneRow.

(** ** Recording the change *)

(** The tables without the events and the tables of other repositories. *)
Definition same_ledger (d d' : db) : Prop :=
  budgets d' = budgets d /\ limit_revisions d' = limit_revisions d /\ same_rows d d' /\
  snapshots d' = snapshots d.

Lemma inv_frame d d' : same_ledger d d' -> ledger_inv d -> ledger_inv d'.
Proof.
  intros (H1 & H2 & H3 & H4) [Hwf Hinv]. split.
  - destruct H3 as (H3 & H5 & H6). destruct d, d'; simpl in *; subst.
    destruct Hwf. constructor; assumption.
  - rewrite H1. intros b Hb. destruct (Hinv b Hb) as (l & s & ? & ? & ? & ?). exists l, s.
    split_and!; [by apply (capped_frame d)|by apply (tokens_frame _ d)|done|].
    apply (stored_frame d); [done| |done]. by rewrite H4.
Qed.

Section Operations.
Context (json_valid : string -> bool) (json_Valid : string -> bool).
Context (map_order : list (string * string * Z) -> list (string * string * Z)).
Context (NewEventID : string -> result error ID).
Context (marshal_budget : TaskBudget -> string) (unmarshal_budget : string -> option TaskBudget).

Lemma same_ledger_trans d1 d2 d3 : same_ledger d1 d2 -> same_ledger d2 d3 -> same_ledger d1 d3.
Proof. unfold same_ledger, same_rows. intuition congruence. Qed.

Lemma insert_event_same d r changed d' :
  insert_event json_valid d r = Ok (changed, d') -> same_ledger d d'.
Proof.
  unfold insert_event, err_guard. intros H. destruct (check_all _); [done|].
  destruct (existsb _ _); [by injection H as _ <-|]. destruct (check_all _); [done|].
  by injection H as _ <-.
Qed.

Lemma insertBudgetEvent_same d s eventType payload key micros d' :
  insertBudgetEvent json_valid NewEventID d s eventType payload key micros = Ok d' ->
  same_ledger d d'.
Proof.
  unfold insertBudgetEvent. intros (id & _ & ([changed d1] & H1%writing_Ok & H)%bind_Ok)%bind_Ok.
  apply insert_event_same in H1. destruct changed; simpl in H; [|by injection H as <-].
  apply writing_Ok in H. unfold insert_task_event in H. apply check_all_Ok in H as [-> _].
  by eapply same_ledger_trans; [exact H1|].
Qed.

Lemma persistEvents_same d s micros d' :
  persistBudgetBoundaryEvents json_valid NewEventID d s micros = Ok d' -> same_ledger d d'.
Proof.
  unfold persistBudgetBoundaryEvents. intros (exposure & _ & H)%bind_Ok.
  eapply (fold_result_inv _ (same_ledger d)) in H; [done| |done].
  intros d1 [reached kind] d2 H1 H2. destruct reached; simpl in H2; [|by injection H2 as <-].
  eapply same_ledger_trans; [exact H1|]. by eapply insertBudgetEvent_same.
Qed.

Lemma conclude_inv now d budget revision events s d' :
  ledger_mid d budget ->
  conclude_settlement json_valid NewEventID now d budget revision events = Ok (s, d') ->
  ledger_inv d'.
Proof.
  intros Hmid. unfold conclude_settlement. cbn zeta.
  intros ([n d1] & Ha%with_value_Ok & H)%bind_Ok.
  apply bind_Ok in H as (s1 & Hs%with_value_Ok & H).
  apply bind_Ok in H as (d2 & Hp%with_value_Ok & H).
  apply bind_Ok in H as (d3 & He%with_value_Ok & H). injection H as <- <-.
  apply advance_Ok in Ha as (b & Hb & Hr & -> & Hb1 & _ & Hmid1); [|apply Hmid].
  specialize (Hmid1 Hmid). apply compute_snapshot_of in Hs as (b1 & l & Hs); [|apply Hmid1].
  assert (b1 = advanced_row (UnixMicro now) b) as -> by (destruct Hs; congruence).
  eapply (inv_frame d2).
  - destruct events; [by eapply persistEvents_same|by injection He as <-].
  - eapply persist_inv; [exact Hmid1| |exact Hp].
    eapply snapshot_of_stamped; [exact Hs|by exists (budgets d1); destruct d1|exact Hb1|try done..].
    simpl. by rewrite Hr.
Qed.

(** Reading a reservation. *)
Lemma scan_reservation_Ok row operation r :
  scanBudgetReservation row operation = Ok r ->
  exists r0, row = Some r0 /\ res_ID r = r_id r0 /\ res_BudgetID r = r_budget_id r0 /\
    res_TaskID r = r_task_id r0 /\ res_Category r = r_category r0 /\ res_State r = r_state r0 /\
    res_CostBound r = exact (r_bound_numerator r0) (r_bound_denominator r0) (r_currency r0) /\
    res_TokenBound r = (if r_token_bound_known r0 then Some (or_zero (r_token_bound r0)) else None) /\
    res_Revision r = r_revision r0 /\ res_ProviderCallSlots r = r_provider_call_slots r0.
Proof.
  unfold scanBudgetReservation. destruct row as [r0|]; [|done]. intros H. exists r0.
  destruct (parseTypedID budgetIDKind _) eqn:H1; [done|]. apply parseTypedID_Ok in H1 as [-> _].
  destruct (parseTypedID taskIDKind _) eqn:H2; [done|]. apply parseTypedID_Ok in H2 as [-> _].
  destruct (ParseCurrencyCode _) eqn:H3; [done|]. apply ParseCurrencyCode_Ok in H3 as ->.
  injection H as <-. done.
Qed.

Lemma getBudgetReservation_Ok d id r :
  getBudgetReservation d id = Ok r ->
  exists r0, r0 ∈ reservations d /\ r_id r0 = id /\ res_ID r = r_id r0 /\
    res_BudgetID r = r_budget_id r0 /\ res_TaskID r = r_task_id r0 /\ res_Category r = r_category r0 /\
    res_State r = r_state r0 /\
    res_CostBound r = exact (r_bound_numerator r0) (r_bound_denominator r0) (r_currency r0) /\
    res_TokenBound r = (if r_token_bound_known r0 then Some (or_zero (r_token_bound r0)) else None) /\
    res_Revision r = r_revision r0 /\ res_ProviderCallSlots r = r_provider_call_slots r0.
Proof.
  unfold getBudgetReservation. intros (r0 & [H1 H2]%find_reservation_in & H)%scan_reservation_Ok.
  by exists r0.
Qed.

(** Settling the row of an active reservation. *)
Definition settle_in (id : string) (change : reservation_row -> reservation_row)
    (r : reservation_row) : reservation_row := if r_id r =? id then change r else r.

Lemma update_reservation_Ok d r0 change d' :
  wf d -> r0 ∈ reservations d -> r_state r0 = "active" ->
  update_reservation json_valid d (r_id r0) (r_revision r0) change = Ok (true, d') ->
  d' = set_reservations d (map (settle_in (r_id r0) change) (reservations d)) /\
  transition_allowed r0 (change r0) = true.
Proof.
  intros Hwf Hr0 Ha. unfold update_reservation. intros H. if_cases H. injection H as Hex <-.
  split.
  - f_equal. apply map_ext_in. intros r Hr%list_elem_of_In. unfold settle_in.
    destruct (String.eqb_spec (r_id r) (r_id r0)) as [He|]; [|done].
    apply (reservation_unique d) in He as ->; [|done..]. by rewrite Ha, Z.eqb_refl.
  - apply negb_false_iff in Hif. rewrite forallb_forall in Hif.
    specialize (Hif r0 (proj1 (list_elem_of_In _ _) Hr0)).
    by rewrite Ha, !String.eqb_refl, Z.eqb_refl in Hif.
Qed.

Section Settled.
Context (d : db) (r0 : reservation_row) (state reason provenance : string) (micros : Z).
Context (Hinv : ledger_inv d) (Hr0 : r0 ∈ reservations d) (Hactive : r_state r0 = "active").
Context (Hstate : state <> "active").

Let change := settled_row state reason provenance micros.
Let g := settle_in (r_id r0) change.
Let d1 := set_reservations d (map g (reservations d)).

Lemma settle_in_id r : r_id (g r) = r_id r.
Proof. unfold g, settle_in. by destruct (_ =? _). Qed.

Lemma settle_in_same r : r ∈ reservations d -> r <> r0 -> g r = r.
Proof.
  intros Hr Hne. unfold g, settle_in. destruct (String.eqb_spec (r_id r) (r_id r0)) as [He|]; [|done].
  destruct Hne. by apply (reservation_unique d); [apply Hinv|..].
Qed.

Lemma settle_in_r0 : g r0 = change r0.
Proof. unfold g, settle_in. by rewrite String.eqb_refl. Qed.

Lemma settle_in_budget r : r_budget_id (g r) = r_budget_id r.
Proof. unfold g, settle_in. by destruct (_ =? _). Qed.

Lemma settle_in_currency r : r_currency (g r) = r_currency r.
Proof. unfold g, settle_in. by destruct (_ =? _). Qed.

Lemma settle_in_ok r : reservation_ok r -> reservation_ok (g r).
Proof. unfold g, settle_in. by destruct (_ =? _). Qed.

Lemma settled_wf : wf d1.
Proof.
  destruct Hinv as [Hwf _]. pose proof (active_not_posted d r0 Hwf Hr0 Hactive) as Hnot.
  destruct Hwf. constructor; try assumption; simpl.
  - rewrite map_map. erewrite map_ext; [eassumption|]. apply settle_in_id.
  - intros r (r' & -> & Hr')%list_elem_of_fmap. rewrite settle_in_budget, settle_in_currency.
    destruct (wf_reservations r' Hr') as [Hok Hb]. split; [by apply settle_in_ok|done].
  - intros p Hp. destruct (wf_postings p Hp) as (Hok & r & (Hr & H1 & H2 & H3) & Hs).
    split; [done|]. exists (g r). unfold reservation_for.
    rewrite settle_in_id, settle_in_budget, settle_in_currency, settle_in_same; [|done|congruence].
    split_and!; try done. simpl. rewrite <- (settle_in_same r); [|done|congruence].
    by apply list_elem_of_fmap_2.
  - intros i Hi. destruct (wf_intents i Hi) as (Hok & r & (Hr & H1 & H2 & H3)).
    split; [done|]. exists (g r). unfold reservation_for.
    rewrite settle_in_id, settle_in_budget, settle_in_currency. split_and!; try done. simpl.
    by apply list_elem_of_fmap_2.
Qed.

Context (bound : reservation_row -> Q) (posted : posting_row -> Q).
Context (billed : intent_row -> reservation_row -> Q) `{!Measure bound posted billed}.

Lemma settled_held d' : (held bound posted billed d' (g r0) <= held bound posted billed d r0)%Q.
Proof.
  unfold held. rewrite settle_in_r0. unfold change. simpl.
  rewrite Hactive, bound_settled, (proj2 (String.eqb_neq _ _) Hstate). simpl. apply Q.le_min_r.
Qed.

Lemma settled_reserved d' : (reserved_part bound d' (g r0) <= reserved_part bound d r0)%Q.
Proof.
  unfold reserved_part at 1. rewrite settle_in_r0. unfold change. simpl.
  rewrite (proj2 (String.eqb_neq _ _) Hstate). simpl.
  eapply reserved_part_nonneg; [done|apply Hinv|done].
Qed.

Lemma settled_charged d' :
  posting_of d' (r_id r0) = posting_of d (r_id r0) -> intent_of d' (r_id r0) = intent_of d (r_id r0) ->
  charged_part posted billed d' (g r0) = charged_part posted billed d r0.
Proof.
  intros H1 H2. unfold charged_part. rewrite settle_in_id, H1, H2, settle_in_r0.
  destruct (posting_of d _); [done|]. destruct (intent_of d _); [apply billed_settled|done].
Qed.
End Settled.

(** What [one_row_mid] asks of a settled row, the charge apart. *)
Ltac settle_row :=
  try done;
  first [ by intros; eapply settle_in_same | apply settle_in_id | apply settle_in_budget
        | by apply settled_wf | apply settled_held; first [done | apply _]
        | eapply settled_reserved; first [done | apply token_measure]
        | match goal with H : ledger_inv _ |- wf _ => apply H end | idtac ].

(** A release. *)
Lemma release_active_inv now d input r s d' :
  ledger_inv d -> getBudgetReservation d (release_ReservationID input) = Ok r ->
  release_active json_valid NewEventID now d input r = Ok (s, d') -> ledger_inv d'.
Proof.
  intros Hinv (r0 & Hr0 & _ & Hid & Hbid & _ & _ & Hst & _ & _ & Hrev & _)%getBudgetReservation_Ok.
  unfold release_active. cbn zeta. intros (u & H1%refuse_Ok & H)%bind_Ok.
  skip_bind H. skip_bind H.
  apply bind_Ok in H as ([changed d1] & Hu%with_value_Ok%writing_Ok & H).
  apply bind_Ok in H as (u2 & H2%refuse_Ok & H). to_prop. subst changed.
  rewrite Hst in H1. rewrite Hid, Hrev in Hu. rewrite Hbid in H.
  apply update_reservation_Ok in Hu as [-> _]; [|by apply Hinv|done..].
  eapply conclude_inv; [|exact H].
  eapply (one_row_mid d _ (settle_in (r_id r0) _) r0) with (x := 0); settle_row.
  rewrite (settled_charged d r0 _ _ _ _ bound_tokens) by first [done | apply token_measure]. change (inject_Z 0) with 0%Q. lra.
Qed.

(** A settlement. *)
Lemma insert_posting_Ok d p d' :
  insert_posting json_valid d p = Ok d' ->
  d' = set_postings d (postings d ++ [p]) /\ posting_checks json_valid p = true /\
  forall p', p' ∈ postings d -> p_reservation_id p' <> p_reservation_id p.
Proof.
  unfold insert_posting. intros [-> H]%check_all_Ok. rewrite !Forall_cons in H.
  destruct H as (Hc & _ & Hk & _). split_and!; [done..|]. simpl in Hk.
  apply negb_true_iff in Hk. exact (proj1 (existsb_key_false p_reservation_id _ _) Hk).
Qed.


Lemma posted_row_ok d input r slots actual micros r0 :
  wf d -> r0 ∈ reservations d ->
  res_TokenBound r = (if r_token_bound_known r0 then Some (or_zero (r_token_bound r0)) else None) ->
  exceeds_int64 (settle_ActualTokens input) = false ->
  posting_checks json_valid (posted_row input r slots actual micros) = true ->
  posting_ok (posted_row input r slots actual micros).
Proof.
  intros Hwf Hr0 Hb Ht Hc. unfold posting_checks in Hc. to_prop. destruct_and!.
  split_and!; [done..|]. unfold posted_token_count, exceeds_int64, nonnegative in *. simpl in *.
  destruct (settle_ActualTokens input) as [t|]; simpl; to_prop.
  - split; lia.
  - destruct (wf_reservations d Hwf r0 Hr0) as [(_ & _ & Hr & _) _]. unfold token_bound in Hr.
    rewrite Hb. by destruct (r_token_bound_known r0).
Qed.

Section Posted.
Context (d : db) (r0 : reservation_row) (provenance : string) (micros : Z) (p : posting_row).
Context (Hinv : ledger_inv d) (Hr0 : r0 ∈ reservations d) (Hactive : r_state r0 = "active").
Context (Hp : posting_ok p) (Hpr : p_reservation_id p = r_id r0).
Context (Hpb : p_budget_id p = r_budget_id r0) (Hpc : p_currency p = r_currency r0).
Context (Hnew : forall p', p' ∈ postings d -> p_reservation_id p' <> p_reservation_id p).

Let g := settle_in (r_id r0) (settled_row "committed" "usage committed" provenance micros).
Let d1 := set_reservations d (map g (reservations d)).
Let d2 := set_postings d1 (postings d1 ++ [p]).

Lemma posted_wf : wf d2.
Proof.
  assert (wf d1) as Hwf by by apply settled_wf. destruct Hwf. constructor; try assumption; simpl.
  - by apply NoDup_snoc.
  - intros p' [Hp'|Hp'%list_elem_of_singleton]%elem_of_app; [auto|]. subst p'. split; [done|].
    exists (g r0). split; [split_and!|].
    + by apply list_elem_of_fmap_2.
    + by rewrite Hpr; apply settle_in_id.
    + by rewrite Hpb; apply settle_in_budget.
    + rewrite Hpc; apply settle_in_currency.
    + unfold g. by rewrite settle_in_r0.
Qed.

Lemma posted_mid : ledger_mid d2 (r_budget_id r0).
Proof.
  eapply (one_row_mid d _ g r0) with (x := posted_token_count p); settle_row.
  - intros id Hne. unfold posting_of. simpl. apply find_app_other. congruence.
  - apply posted_wf.
  - apply Hp.
  - unfold charged_part at 1, g. rewrite settle_in_id. unfold posting_of. simpl.
    rewrite <- Hpr, find_app_new by done.
    assert (0 <= charged_part posted_tokens billed_tokens d r0)%Q;
      [|change (posted_tokens p) with (inject_Z (posted_token_count p)); lra].
    eapply charged_part_nonneg; [apply token_measure|apply Hinv|done].
Qed.
End Posted.

Lemma settle_active_inv now d input actual r s d' :
  ledger_inv d -> getBudgetReservation d (settle_ReservationID input) = Ok r ->
  exceeds_int64 (settle_ActualTokens input) = false ->
  settle_active json_valid NewEventID now d input actual r = Ok (s, d') -> ledger_inv d'.
Proof.
  intros Hinv (r0 & Hr0 & _ & Hid & Hbid & _ & _ & Hst & Hbound & Htb & Hrev & _)%getBudgetReservation_Ok Ht.
  unfold settle_active. cbn zeta. intros (u & H1%refuse_Ok & H)%bind_Ok.
  skip_bind H. skip_bind H.
  apply bind_Ok in H as (u1 & Hcur%refuse_Ok & H).
  apply bind_Ok in H as ([changed d1] & Hu%with_value_Ok%writing_Ok & H).
  apply bind_Ok in H as (u2 & H2%refuse_Ok & H).
  apply bind_Ok in H as (d2 & Hp%with_value_Ok%writing_Ok & H). to_prop. subst changed.
  rewrite Hst in H1. rewrite Hid, Hrev in Hu. rewrite Hbid in H.
  apply update_reservation_Ok in Hu as [-> _]; [|by apply Hinv|done..].
  apply insert_posting_Ok in Hp as (-> & Hc & Hnew).
  eapply conclude_inv; [|exact H]. apply posted_mid; try done.
  - by eapply (posted_row_ok d); [apply Hinv|..].
  - simpl. rewrite Hbound in *. destruct actual as [c|]; simpl in *; [|done]. by to_prop.
Qed.

(** A billed attempt whose settlement is owed. *)
Lemma insert_intent_Ok d i d' :
  insert_intent json_valid d i = Ok d' ->
  d' = set_intents d (intents d ++ [i]) /\ intent_checks json_valid i = true /\
  forall i', i' ∈ intents d -> i_reservation_id i' <> i_reservation_id i.
Proof.
  unfold insert_intent. intros [-> H]%check_all_Ok. rewrite !Forall_cons in H.
  destruct H as (Hc & _ & Hk & _). split_and!; [done..|]. simpl in Hk.
  apply negb_true_iff in Hk. exact (proj1 (existsb_key_false i_reservation_id _ _) Hk).
Qed.

Section Intended.
Context (d : db) (r0 : reservation_row) (i : intent_row).
Context (Hinv : ledger_inv d) (Hr0 : r0 ∈ reservations d) (Hactive : r_state r0 = "active").
Context (Hi : intent_ok i) (Hir : i_reservation_id i = r_id r0).
Context (Hib : i_budget_id i = r_budget_id r0) (Hic : i_currency i = r_currency r0).
Context (Hnew : forall i', i' ∈ intents d -> i_reservation_id i' <> i_reservation_id i).

Let d1 := set_intents d (intents d ++ [i]).

Lemma intended_wf : wf d1.
Proof.
  destruct Hinv as [[] _]. constructor; try assumption; simpl.
  - by apply NoDup_snoc.
  - intros i' [Hi'|Hi'%list_elem_of_singleton]%elem_of_app; [auto|]. subst i'. split; [done|].
    exists r0. by split_and!.
Qed.

Lemma intended_mid : ledger_mid d1 (r_budget_id r0).
Proof.
  pose proof (active_not_posted d r0 (proj1 Hinv) Hr0 Hactive) as Hnone.
  assert (intent_of d1 (r_id r0) = Some i) as Hfind.
  { unfold intent_of. simpl. rewrite <- Hir. by apply find_app_new. }
  eapply (one_row_mid d _ id r0) with (x := billed_token_count i r0); try done.
  - apply Hinv.
  - simpl. by rewrite map_id.
  - intros id Hne. unfold intent_of. simpl. apply find_app_other. congruence.
  - apply intended_wf.
  - unfold held. simpl. rewrite Hactive. apply Qle_refl.
  - unfold held. simpl. rewrite Hactive. apply Qle_refl.
  - unfold reserved_part at 1. simpl. rewrite Hactive, has_pending_intent_of, Hfind.
    unfold id. rewrite has_posting_of. change (posting_of d1 (r_id r0)) with (posting_of d (r_id r0)).
    rewrite Hnone. simpl. eapply reserved_part_nonneg; [apply token_measure|apply Hinv|done].
  - unfold billed_token_count. destruct Hi as [_ Hi']. destruct (i_tokens_known i); [auto|].
    by apply (wf_reservations d (proj1 Hinv) r0).
  - unfold charged_part, id. rewrite Hfind.
    change (posting_of d1 (r_id r0)) with (posting_of d (r_id r0)). rewrite Hnone.
    assert (intent_of d (r_id r0) = None) as ->.
    { apply find_absent. intros i' Hi'. rewrite <- Hir. auto. }
    unfold billed_tokens. lra.
Qed.
End Intended.

Lemma record_intent_inv now d input actual r s d' :
  ledger_inv d -> getBudgetReservation d (intent_ReservationID input) = Ok r ->
  exceeds_int64 (intent_ActualTokens input) = false ->
  record_intent json_valid NewEventID now d input actual r = Ok (s, d') -> ledger_inv d'.
Proof.
  intros Hinv (r0 & Hr0 & _ & Hid & Hbid & _ & _ & Hst & Hbound & Htb & Hrev & _)%getBudgetReservation_Ok Ht.
  unfold record_intent. cbn zeta. intros (u & H1%refuse_Ok & H)%bind_Ok.
  skip_bind H. apply bind_Ok in H as (u1 & Hcur%refuse_Ok & H).
  apply bind_Ok in H as (d1 & Hi%with_value_Ok%writing_Ok & H).
  apply bind_Ok in H as (current & Hs%with_value_Ok & H).
  apply bind_Ok in H as ([n d2] & Ha%with_value_Ok & H).
  apply bind_Ok in H as (d3 & Hp%with_value_Ok & H).
  apply bind_Ok in H as (d4 & He%with_value_Ok & H). injection H as <- <-.
  to_prop. rewrite Hst in H1. apply insert_intent_Ok in Hi as (-> & Hc & Hnew).
  set (i := intended_row _ _ _ _ _) in *.
  assert (ledger_mid (set_intents d (intents d ++ [i])) (r_budget_id r0)) as Hmid.
  { apply intended_mid; try done; [|by unfold i; simpl; rewrite Hbound].
    unfold intent_checks, cost_columns, token_columns in Hc. unfold intent_ok.
    destruct (i_cost_known i), (i_cost_numerator i), (i_cost_denominator i), (i_tokens_known i) eqn:Hk,
      (i_actual_tokens i) eqn:Htok; simpl in *; to_prop; destruct_and?; try done;
      split; try done; intros _; try lia; try (split; lia).
    all: unfold token_range; simpl in Htok; rewrite Htok in Ht; simpl in Ht; to_prop; lia. }
  rewrite Hbid in *. apply compute_snapshot_of in Hs as (b1 & l & Hs); [|apply Hmid].
  apply advance_Ok in Ha as (b & Hb & Hr & -> & Hb1 & Hset & Hmid1); [|apply Hmid].
  assert (b1 = b) as -> by (destruct Hs; congruence).
  eapply (inv_frame d3); [by eapply persistEvents_same|].
  eapply persist_inv; [exact (Hmid1 Hmid)| |exact Hp].
  eapply snapshot_of_stamped; [exact Hs|exact Hset|exact Hb1|try done..].
  simpl. by rewrite Hr.
Qed.

(** A new reservation. *)
Lemma insert_reservation_Ok d r d' :
  insert_reservation json_valid d r = Ok d' ->
  d' = set_reservations d (reservations d ++ [r]) /\ reservation_checks json_valid r = true /\
  forall r', r' ∈ reservations d -> r_id r' <> r_id r.
Proof.
  unfold insert_reservation. intros [-> H]%check_all_Ok. rewrite !Forall_cons in H.
  destruct H as (Hc & Hk & _). split_and!; [done..|]. simpl in Hk.
  apply negb_true_iff in Hk. exact (proj1 (existsb_key_false r_id _ _) Hk).
Qed.

(** Without billed attempts that are owed, the exposure covers what is held. *)
Lemma held_le_exposure bound posted billed `{!Measure bound posted billed} d budget :
  wf d -> pending_in d budget = false ->
  (of_budget (held bound posted billed) d budget <=
   of_budget (reserved_part bound) d budget + of_budget (charged_part posted billed) d budget)%Q.
Proof.
  intros Hwf Hp. rewrite <- of_budget_add. apply of_budget_le. intros r Hr Hb.
  pose proof (reserved_part_nonneg bound posted billed d r Hwf Hr).
  pose proof (charged_part_nonneg bound posted billed d r Hwf Hr).
  unfold held. destruct (r_state r =? "active") eqn:Ha.
  - assert (reserved_part bound d r = bound r) as ->; [|lra]. unfold reserved_part. rewrite Ha.
    destruct (has_pending_intent d (r_id r)) eqn:Hpend; [|done].
    unfold pending_in in Hp. rewrite <- not_true_iff_false, existsb_exists in Hp. destruct Hp.
    exists r. split; [by apply list_elem_of_In|]. by rewrite Hb, String.eqb_refl, Hpend.
  - pose proof (Q.le_min_l (charged_part posted billed d r) (bound r)). lra.
Qed.

Section Reserved.
Context (d : db) (r : reservation_row) (b : budget_row).
Context (Hinv : ledger_inv d) (Hok : reservation_ok r) (Hactive : r_state r = "active").
Context (Hb : b ∈ budgets d) (Hrb : b_id b = r_budget_id r) (Hrc : b_currency b = r_currency r).
Context (Hnew : forall r', r' ∈ reservations d -> r_id r' <> r_id r).

Let d1 := set_reservations d (reservations d ++ [r]).

Lemma new_not_posted : posting_of d1 (r_id r) = None.
Proof.
  apply find_absent. intros p Hp. destruct Hinv as [Hwf _].
  destruct (wf_postings d Hwf p Hp) as (_ & r' & (Hr' & <- & _) & _). by apply Hnew.
Qed.

Lemma new_not_intended : intent_of d1 (r_id r) = None.
Proof.
  apply find_absent. intros i Hi. destruct Hinv as [Hwf _].
  destruct (wf_intents d Hwf i Hi) as (_ & r' & (Hr' & <- & _)). by apply Hnew.
Qed.

Lemma reserved_wf : wf d1.
Proof.
  destruct Hinv as [[] _]. constructor; try assumption; simpl.
  - by apply NoDup_snoc.
  - intros r' [Hr'|Hr'%list_elem_of_singleton]%elem_of_app; [auto|]. subst r'.
    split; [done|]. by exists b.
  - intros p Hp. destruct (wf_postings p Hp) as (Hpo & r' & (Hr' & ? & ? & ?) & ?).
    split; [done|]. exists r'. split_and!; try done. split_and!; try done.
    apply elem_of_app. by left.
  - intros i Hi. destruct (wf_intents i Hi) as (Hio & r' & (Hr' & ? & ? & ?)).
    split; [done|]. exists r'. split_and!; try done. apply elem_of_app. by left.
Qed.

Lemma reserved_untouched budget : budget <> r_budget_id r -> untouched d d1 budget.
Proof.
  intros Hne. constructor; [|done..]. simpl. rewrite filter_app, filter_cons_False, app_nil_r; [done|].
  destruct (String.eqb_spec (r_budget_id r) budget); simpl; congruence.
Qed.

Lemma reserved_sum_new f :
  local f -> (of_budget f d1 (r_budget_id r) == of_budget f d (r_budget_id r) + f d1 r)%Q.
Proof.
  intros Hf. rewrite (of_budget_snoc f f d d1 r); [|done|].
  - unfold ifQ. by rewrite String.eqb_refl.
  - intros r' _. by rewrite (Hf d d1 r').
Qed.

Section Parts.
Context (bound : reservation_row -> Q) (posted : posting_row -> Q).
Context (billed : intent_row -> reservation_row -> Q).
Lemma new_held : held bound posted billed d1 r = bound r.
Proof. unfold held. by rewrite Hactive. Qed.
Lemma new_reserved : reserved_part bound d1 r = bound r.
Proof.
  unfold reserved_part. by rewrite Hactive, has_pending_intent_of, new_not_intended.
Qed.
Lemma new_charged : charged_part posted billed d1 r = 0%Q.
Proof. unfold charged_part. by rewrite new_not_posted, new_not_intended. Qed.
End Parts.

Lemma reserved_mid l :
  latest_limit d (b_id b) = Some l -> pending_in d (b_id b) = false ->
  (reserved_costs d (b_id b) + charged_costs d (b_id b) + bound_cost r <= limit_cost l)%Q ->
  (reserved_token_sum d (b_id b) + charged_token_sum d (b_id b) + bound_tokens r <=
   inject_Z (l_hard_tokens l))%Q ->
  ledger_mid d1 (r_budget_id r).
Proof.
  intros Hl Hpend Hcost Htok. destruct Hinv as [Hwf Haccount]. split_and!; [apply reserved_wf| |].
  - simpl. intros b' Hb' Hne. by apply (untouched_account d); [apply reserved_untouched|..|auto].
  - simpl. intros b' Hb' Hid. exists l.
    destruct (Haccount b Hb) as (_ & _ & _ & [T1 T2] & _). rewrite Hrb in *.
    pose proof (held_le_exposure bound_cost posted_cost billed_cost d _ Hwf Hpend).
    pose proof (held_le_exposure bound_tokens posted_tokens billed_tokens d _ Hwf Hpend).
    unfold reserved_costs, charged_costs, reserved_token_sum, charged_token_sum in *.
    assert (bound_tokens r < inject_Z (2 ^ 63))%Q.
    { unfold bound_tokens. rewrite <- Zlt_Qlt. destruct Hok as (_ & _ & Hr & _).
      unfold token_range, max_int64 in Hr. lia. }
    assert (inject_Z (2 ^ 64) == inject_Z (2 ^ 63) + inject_Z (2 ^ 63))%Q by done.
    assert (0 < inject_Z (2 ^ 63))%Q by done.
    split; [constructor|split]; unfold reserved_token_sum, charged_token_sum;
      rewrite ?reserved_sum_new, ?new_held, ?new_reserved, ?new_charged by auto with ledger;
      [done|lra..].
Qed.
End Reserved.

(** What an admitted bound fits. *)
Lemma admit_Ok d input cost current :
  admit_reservation d input cost current = None ->
  snap_Revision current = reserve_ExpectedRevision input /\
  snap_ReconciliationPending current = false /\ Currency cost = Currency (snap_HardCost current) /\
  snap_HardCapReached current = false /\
  (exactCostRat (snap_ReservedCost current) + exactCostRat (snap_ChargedCost current) +
   exactCostRat cost <= exactCostRat (snap_HardCost current))%Q /\
  (forall bound, reserve_TokenBound input = Some bound ->
     bound <= sub_u64 (sub_u64 (snap_HardTokens current) (snap_ReservedTokens current))
                (snap_ChargedTokens current)) /\
  verifyBudgetOperationLimit d (reserve_BudgetID input) (reserve_Category input)
    (normalizedProviderCallSlots input) = None.
Proof.
  unfold admit_reservation. cbn zeta.
  destruct (negb (_ =? reserve_ExpectedRevision _)%Z) eqn:H1; [done|].
  destruct (snap_ReconciliationPending current); [done|].
  destruct (snap_CostAccountingUnknown current || snap_TokenAccountingUnknown current); [done|].
  destruct (negb (Currency cost =? _)) eqn:H2; [done|].
  destruct (snap_HardCapReached current); [done|]. to_prop.
  destruct (exposure ← _; addExactCosts _ _) as [|total] eqn:He; [done|].
  apply bind_Ok in He as (exposure & He & Ht).
  apply addExactCosts_Ok in He as (_ & Hc & He & _). apply addExactCosts_Ok in Ht as (Hc1 & Hc2 & Ht & _).
  destruct (cost_gt total _) eqn:Hgt; [done|]. apply cost_gt_false in Hgt; [|congruence].
  rewrite Ht, He in Hgt.
  destruct (reserve_TokenBound input) as [bound|].
  - destruct (_ <? bound)%Z eqn:Hb; [done|]. simpl. intros Hv. split_and!; try done.
    intros ? [= <-]. to_prop. lia.
  - destruct (reserve_Category input =? BudgetCostModel); [done|]. simpl. intros Hv.
    by split_and!.
Qed.

Lemma sub_u64_exact a b c : uint64_range a -> 0 <= b -> 0 <= c -> b + c <= a ->
  sub_u64 (sub_u64 a b) c = a - b - c.
Proof.
  intros Ha Hb Hc H. unfold sub_u64. unfold_ranges.
  rewrite (wrap_uint64_id (a - b)), wrap_uint64_id; unfold_ranges; lia.
Qed.

Lemma admitted_tokens d input cost current budget b l :
  ledger_inv d -> snapshot_of d budget b l current ->
  admit_reservation d input cost current = None ->
  (reserved_token_sum d budget + charged_token_sum d budget +
   inject_Z (or_zero (reserve_TokenBound input)) <= inject_Z (l_hard_tokens l))%Q.
Proof.
  intros [Hwf Haccount] Hs (_ & _ & _ & Hcap & _ & Hb & _)%admit_Ok.
  destruct (find_budget_in _ _ _ (so_budget _ _ _ _ _ Hs)) as [Hin Hid].
  destruct (Haccount b Hin) as (l' & _ & Hcapped & Ht & _). rewrite Hid in *.
  assert (l' = l) as -> by (pose proof (cap_limit _ _ _ Hcapped); destruct Hs; congruence).
  destruct (snapshot_tokens _ _ _ _ _ Hwf Hs) as [T1 T2];
    [by apply (below_le (2 ^ 63)); [lia|]|].
  destruct Ht as [B1 B2]. rewrite <- T1, <- Zlt_Qlt in B1. rewrite <- T2, <- Zlt_Qlt in B2.
  destruct (so_hard_cap _ _ _ _ _ Hs Hcap) as [_ Hlt].
  pose proof (so_reserved_range _ _ _ _ _ Hs) as R1. pose proof (so_charged_range _ _ _ _ _ Hs) as R2.
  destruct (latest_limit_Some _ _ _ (cap_limit _ _ _ Hcapped)) as (Hl & _).
  destruct (wf_limits d Hwf l Hl) as [(_ & _ & _ & Hhard) _]. unfold token_range in Hhard.
  rewrite (so_hard_tokens _ _ _ _ _ Hs) in *.
  unfold add_u64 in Hlt. rewrite wrap_uint64_id in Hlt by (unfold_ranges; lia).
  rewrite <- T1, <- T2, <- !inject_Z_plus, <- Zle_Qle.
  destruct (reserve_TokenBound input) as [bound|]; simpl; [|lia]. specialize (Hb bound eq_refl).
  rewrite sub_u64_exact in Hb by (unfold_ranges; lia). lia.
Qed.

Lemma reserved_row_ok input task cost micros :
  exceeds_int64 (reserve_TokenBound input) = false ->
  reservation_checks json_valid (reserved_row input task cost micros) = true ->
  reservation_ok (reserved_row input task cost micros).
Proof.
  intros Ht Hc. unfold reservation_checks in Hc. to_prop. destruct_and!. simpl in *.
  split_and!; [done..| |simpl; by rewrite bool_decide_eq_true].
  unfold token_bound, token_range. simpl. unfold max_int64, exceeds_int64 in *.
  destruct (reserve_TokenBound input) as [t|]; simpl in *; to_prop; split; first [assumption | done].
Qed.

Lemma reserve_new_inv now d input cost v d' :
  ledger_inv d -> exceeds_int64 (reserve_TokenBound input) = false ->
  reserve_new json_valid NewEventID now d input cost = Ok (v, d') -> ledger_inv d'.
Proof.
  intros Hinv Ht. unfold reserve_new. cbn zeta.
  intros (current & Hs%with_value_Ok & H)%bind_Ok.
  apply bind_Ok in H as (u & Hadmit & H).
  destruct (admit_reservation d input cost current) eqn:Hadmit'; [done|]. clear Hadmit.
  rename Hadmit' into Hadmit. apply bind_Ok in H as (d1 & Hi%with_value_Ok%writing_Ok & H).
  apply bind_Ok in H as ([n d2] & Ha%with_value_Ok & H).
  apply bind_Ok in H as (s & Hs2%with_value_Ok & H).
  apply bind_Ok in H as (d3 & Hp%with_value_Ok & H).
  apply bind_Ok in H as (d4 & He%with_value_Ok & H). injection H as <- <-.
  apply compute_snapshot_of in Hs as (b & l & Hs); [|apply Hinv].
  destruct (find_budget_in _ _ _ (so_budget _ _ _ _ _ Hs)) as [Hb Hid].
  pose proof (snapshot_sums _ _ _ _ _ (proj1 Hinv) Hs) as (S1 & S2 & _ & _ & S5).
  pose proof (admitted_tokens _ _ _ _ _ _ _ Hinv Hs Hadmit) as Htokens.
  apply admit_Ok in Hadmit as (Hrev & Hpend & Hcur & _ & Hcost & _ & _).
  destruct (proj2 Hinv b Hb) as (l' & _ & Hcapped & _ & _). rewrite Hid in Hcapped.
  assert (l' = l) as -> by (pose proof (cap_limit _ _ _ Hcapped); destruct Hs; congruence).
  destruct (latest_limit_Some _ _ _ (cap_limit _ _ _ Hcapped)) as (Hl & Hlb & _).
  destruct (wf_limits d (proj1 Hinv) l Hl) as (_ & b' & Hb' & Hid' & Hcur').
  assert (b' = b) as ->.
  { apply (find_budget_wf d) in Hb, Hb'; try apply Hinv. rewrite Hid', Hlb in Hb'. congruence. }
  rewrite (so_hard _ _ _ _ _ Hs) in Hcur, Hcost.
  apply insert_reservation_Ok in Hi as (-> & Hc & Hnew). set (r := reserved_row _ _ _ _) in *.
  assert (ledger_mid (set_reservations d (reservations d ++ [r])) (r_budget_id r)) as Hmid.
  { apply (reserved_mid d r b Hinv) with (l := l); try done.
    - by apply reserved_row_ok.
    - simpl. simpl in Hcur. congruence.
    - by rewrite Hid; destruct Hs.
    - by rewrite Hid, <- S5.
    - rewrite Hid, <- S1, <- S2. exact Hcost.
    - rewrite Hid. unfold bound_tokens, token_bound. simpl.
      by destruct (reserve_TokenBound input). }
  apply advance_Ok in Ha as (b1 & Hb1 & Hr & -> & Hb2 & Hset & Hmid1); [|apply Hmid].
  specialize (Hmid1 Hmid). apply compute_snapshot_of in Hs2 as (b3 & l2 & Hs2); [|apply Hmid1].
  assert (b3 = advanced_row (UnixMicro now) b1) as -> by (destruct Hs2; congruence).
  eapply (inv_frame d3); [by eapply persistEvents_same|].
  eapply persist_inv; [exact Hmid1| |exact Hp].
  eapply snapshot_of_stamped; [exact Hs2|by exists (budgets d2); destruct d2|exact Hb2|try done..].
  simpl. by rewrite Hr.
Qed.

(** ** Changing the limits *)

Lemma insert_limit_Ok d l d' :
  insert_limit json_valid d l = Ok d' ->
  d' = set_limit_revisions d (limit_revisions d ++ [l]) /\ limit_checks json_valid l = true /\
  forall l', l' ∈ limit_revisions d -> (l_budget_id l', l_revision l') <> (l_budget_id l, l_revision l).
Proof.
  unfold insert_limit. intros [-> H]%check_all_Ok. rewrite !Forall_cons in H.
  destruct H as (Hc & Hk & _). split_and!; [done..|]. simpl in Hk.
  intros l' Hl' [= Hb Hr]. apply negb_true_iff, not_true_iff_false in Hk. apply Hk.
  apply existsb_exists. exists l'. split; [by apply list_elem_of_In|].
  rewrite Hb, Hr, String.eqb_refl, Z.eqb_refl. done.
Qed.

Lemma latest_limit_other d l budget :
  l_budget_id l <> budget ->
  latest_limit (set_limit_revisions d (limit_revisions d ++ [l])) budget = latest_limit d budget.
Proof.
  intros Hne. unfold latest_limit. simpl.
  rewrite filter_app, (filter_cons_False _ l), app_nil_r; [done|].
  destruct (String.eqb_spec (l_budget_id l) budget); simpl; congruence.
Qed.

Lemma rows_untouched d d' budget : same_rows d d' -> untouched d d' budget.
Proof.
  intros (H1 & H2 & H3). constructor; [by rewrite H1|..]; intros; unfold posting_of, intent_of; congruence.
Qed.

Lemma limit_mid d b l l' :
  ledger_inv d -> b ∈ budgets d -> latest_limit d (b_id b) = Some l ->
  l_budget_id l' = b_id b -> l_currency l' = b_currency b -> limit_ok l' ->
  l_revision l < l_revision l' ->
  (forall l0, l0 ∈ limit_revisions d -> (l_budget_id l0, l_revision l0) <> (l_budget_id l', l_revision l')) ->
  (held_cost d (b_id b) <= limit_cost l')%Q ->
  (held_tokens d (b_id b) <= inject_Z (l_hard_tokens l'))%Q ->
  ledger_mid (set_limit_revisions d (limit_revisions d ++ [l'])) (b_id b).
Proof.
  intros [Hwf Haccount] Hb Hl Hlb Hlc Hok Hlt Hnew Hcost Htok.
  assert (wf (set_limit_revisions d (limit_revisions d ++ [l']))) as Hwf'.
  { destruct Hwf. constructor; try assumption; simpl.
    - by apply NoDup_snoc.
    - intros l0 [Hl0|Hl0%list_elem_of_singleton]%elem_of_app; [auto|]. subst l0.
      split; [done|]. by exists b. }
  split_and!; [done| |]; simpl.
  - intros b' Hb' Hne. apply (untouched_account d); [by apply rows_untouched| |done|auto].
    apply latest_limit_other. congruence.
  - intros b' Hb' Hid. exists l'. split.
    + constructor; [|done..]. apply latest_limit_intro; [done|].
      apply latest_limit_Some in Hl as (_ & _ & Hmax). split_and!; [|done|]; simpl.
      * apply elem_of_app. right. by apply list_elem_of_singleton.
      * intros l0 [Hl0|Hl0%list_elem_of_singleton]%elem_of_app Hb0; [|by subst].
        specialize (Hmax l0 Hl0 Hb0). lia.
    + destruct (Haccount b Hb) as (_ & _ & _ & Ht & _).
      apply (tokens_frame _ d); [done|]. by apply (below_le (2 ^ 63)); [lia|].
Qed.

Lemma limit_checks_ok l :
  limit_checks json_valid l = true -> l_hard_tokens l <= max_int64 -> limit_ok l.
Proof.
  unfold limit_checks. intros H Ht. to_prop. destruct_and!. split_and!; try done. split; lia.
Qed.

(** A raise keeps or lifts both caps. *)
Lemma not_a_raise_false input warning hard current :
  Currency hard = Currency (snap_HardCost current) ->
  not_a_raise input warning hard current = false ->
  (exactCostRat (snap_HardCost current) <= exactCostRat hard)%Q /\
  snap_HardTokens current <= raise_HardTokens input.
Proof.
  intros Hc. unfold not_a_raise. cbn zeta. intros H. rewrite !orb_false_iff in H.
  destruct H as [[[[H1 H2] _] _] _]. to_prop. split; [|lia].
  unfold compareExactCosts in H1. rewrite Hc, String.eqb_refl in H1. cbn [negb] in H1.
  rewrite Qle_alt, <- Qcompare_antisym. intros He. apply H1.
  by destruct (exactCostRat hard ?= _)%Q.
Qed.

Lemma account_limit d budget b l s :
  ledger_inv d -> snapshot_of d budget b l s ->
  b ∈ budgets d /\ b_id b = budget /\ capped d budget l /\ l ∈ limit_revisions d /\
  l_budget_id l = budget /\ l_currency l = b_currency b /\ limit_ok l /\ l_revision l < 2 ^ 63.
Proof.
  intros [Hwf Haccount] Hs.
  destruct (find_budget_in _ _ _ (so_budget _ _ _ _ _ Hs)) as [Hb Hid].
  destruct (Haccount b Hb) as (l' & _ & Hcapped & _ & Hr & _). rewrite Hid in Hcapped.
  assert (l' = l) as -> by (pose proof (cap_limit _ _ _ Hcapped); destruct Hs; congruence).
  destruct (latest_limit_Some _ _ _ (cap_limit _ _ _ Hcapped)) as (Hl & Hlb & _).
  destruct (wf_limits d Hwf l Hl) as (Hok & b' & Hb' & Hid' & Hcur').
  assert (b' = b) as ->; [|by split_and!].
  apply (find_budget_wf d) in Hb, Hb'; [|done..]. rewrite Hid', Hlb in Hb'. congruence.
Qed.

Lemma raise_limit_inv now d input warning hard s d' :
  ledger_inv d -> raise_HardTokens input <= max_int64 ->
  raise_limit json_valid NewEventID now d input warning hard = Ok (s, d') -> ledger_inv d'.
Proof.
  intros Hinv Ht. unfold raise_limit. cbn zeta. intros (current & Hs%with_value_Ok & H)%bind_Ok.
  skip_bind H. apply bind_Ok in H as (u2 & Hcur%refuse_Ok & H).
  apply bind_Ok in H as (u3 & Hraise%refuse_Ok & H). skip_bind H.
  apply bind_Ok in H as (d1 & Hi%with_value_Ok%writing_Ok & H).
  apply bind_Ok in H as ([s1 d2] & Hc & H). apply bind_Ok in H as (d3 & He%with_value_Ok & H).
  injection H as <- <-. apply (inv_frame d2); [by eapply insertBudgetEvent_same|].
  eapply conclude_inv; [|exact Hc].
  apply compute_snapshot_of in Hs as (b & l & Hs); [|apply Hinv].
  destruct (account_limit _ _ _ _ _ Hinv Hs) as (Hb & Hid & [C1 C2 C3] & Hl & Hlb & Hlc & Hlok & Hlr).
  apply orb_false_iff in Hcur as [_ Hcur]. to_prop.
  apply not_a_raise_false in Hraise as [R1 R2]; [|done].
  apply insert_limit_Ok in Hi as (-> & Hchecks & Hnew).
  rewrite (so_limit_revision _ _ _ _ _ Hs) in *. rewrite (so_hard _ _ _ _ _ Hs) in *.
  rewrite (so_hard_tokens _ _ _ _ _ Hs) in *.
  assert (add_u64 (l_revision l) 1 = l_revision l + 1) as Hadd.
  { apply wrap_uint64_id. destruct Hlok as [? _]. unfold_ranges. lia. }
  rewrite Hadd in *. rewrite <- Hid.
  apply (limit_mid d b l); try done.
  - by rewrite Hid.
  - simpl. simpl in Hcur. congruence.
  - apply limit_checks_ok; [done|]. simpl. lia.
  - simpl. lia.
  - rewrite Hid. eapply Qle_trans; [exact C2|]. exact R1.
  - rewrite Hid. eapply Qle_trans; [exact C3|]. simpl. by rewrite <- Zle_Qle.
Qed.

(** ** Reading the stored snapshot *)

Lemma latest_of_rows (rows : list (snapshot_row * limit_row)) x :
  foldr (fun x best =>
    match best with
    | Some y => if (s_revision (fst y) <? s_revision (fst x))%Z then Some x else Some y
    | None => Some x
    end) None rows = Some x ->
  x ∈ rows /\ forall y, y ∈ rows -> s_revision y.1 <= s_revision x.1.
Proof.
  revert x. induction rows as [|y rows IH]; simpl; [done|]. intros x.
  destruct (foldr _ None rows) as [z|] eqn:Hz.
  - destruct (IH z eq_refl) as [Hin Hmax]. destruct (Z.ltb_spec (s_revision z.1) (s_revision y.1));
      intros [= <-]; (split; [first [by left | by right]|]); intros w Hw;
      apply elem_of_cons in Hw as [->|Hw]; try lia; by specialize (Hmax w Hw); lia.
  - intros [= <-]. assert (rows = []) as ->.
    { destruct rows as [|w rows]; [done|]. simpl in Hz. destruct (foldr _ None rows); [|done].
      by destruct (_ <? _)%Z. }
    split; [by left|]. intros w Hw%list_elem_of_singleton. by subst.
Qed.

Lemma latest_of_rows_None (rows : list (snapshot_row * limit_row)) :
  foldr (fun x best =>
    match best with
    | Some y => if (s_revision (fst y) <? s_revision (fst x))%Z then Some x else Some y
    | None => Some x
    end) None rows = None -> rows = [].
Proof.
  destruct rows as [|w rows]; [done|]. simpl. destruct (foldr _ None rows); [|done].
  by destruct (_ <? _)%Z.
Qed.

Lemma NoDup_key_eq {A B} (key : A -> B) (l : list A) x y :
  NoDup (map key l) -> x ∈ l -> y ∈ l -> key x = key y -> x = y.
Proof.
  intros Hnd [i Hi]%list_elem_of_lookup [j Hj]%list_elem_of_lookup Hk. rewrite NoDup_alt in Hnd.
  assert (i = j) as ->; [|congruence].
  apply (Hnd i j (key x)); rewrite list_lookup_fmap, ?Hi, ?Hj; simpl; congruence.
Qed.

Lemma latest_snapshot_stored d b :
  ledger_inv d -> b ∈ budgets d ->
  exists l s, latest_snapshot_row d (b_id b) = Some (s, l) /\ capped d (b_id b) l /\
    tokens_below (2 ^ 63) d (b_id b) /\ l_revision l < 2 ^ 63 /\ stored d b l s.
Proof.
  intros [Hwf Haccount] Hb. destruct (Haccount b Hb) as (l & s & Hc & Ht & Hr & Hs).
  destruct (latest_limit_Some _ _ _ (cap_limit _ _ _ Hc)) as (Hl & Hlb & _).
  exists l, s. split_and!; try done. unfold latest_snapshot_row. cbn zeta.
  set (rows := omap _ (snapshots d)).
  assert (forall s' l', (s', l') ∈ rows -> s' ∈ snapshots d /\ s_budget_id s' = b_id b /\
    l' ∈ limit_revisions d /\ l_budget_id l' = b_id b /\ l_revision l' = s_limit_revision s') as Hrows.
  { intros s' l' (s0 & Hs0 & Hf)%list_elem_of_omap. if_cases Hf. to_prop.
    destruct (find _ _) as [l0|] eqn:Hfind; [|done]. injection Hf as -> ->.
    apply find_some in Hfind as [Hin Hk]. apply list_elem_of_In in Hin. to_prop. naive_solver. }
  assert ((s, l) ∈ rows) as Hin.
  { apply list_elem_of_omap. exists s. destruct Hs. split; [done|].
    rewrite st_budget, String.eqb_refl. destruct (find _ _) as [l0|] eqn:Hfind.
    - apply find_some in Hfind as [Hin Hk]. apply list_elem_of_In in Hin. to_prop.
      destruct Hk as [Hk1 Hk2]. simpl. do 2 f_equal.
      apply (NoDup_key_eq (fun l => (l_budget_id l, l_revision l)) (limit_revisions d));
        [apply Hwf|done..|]. congruence.
    - eapply find_none in Hfind; [|by apply list_elem_of_In]. simpl in Hfind.
      rewrite Hlb, st_limit, String.eqb_refl, Z.eqb_refl in Hfind. done. }
  destruct (foldr _ None rows) as [[s' l']|] eqn:Hf.
  - apply latest_of_rows in Hf as [Hin' Hmax]. specialize (Hmax _ Hin). simpl in Hmax.
    destruct (Hrows _ _ Hin') as (Hs' & Hb' & Hl' & Hlb' & Hlr').
    destruct (wf_snapshots d Hwf s' Hs') as (_ & b' & Hb'' & Hid & Hle).
    assert (b' = b) as ->.
    { apply (NoDup_key_eq b_id (budgets d)); [apply Hwf|done..|]. congruence. }
    destruct Hs. assert (s' = s) as ->.
    { apply (NoDup_key_eq (fun s => (s_budget_id s, s_revision s)) (snapshots d));
        [apply Hwf|done..|]. f_equal; [congruence|lia]. }
    do 2 f_equal. apply (NoDup_key_eq (fun l => (l_budget_id l, l_revision l)) (limit_revisions d));
      [apply Hwf|done..|]. congruence.
  - apply latest_of_rows_None in Hf. rewrite Hf in Hin. by apply not_elem_of_nil in Hin.
Qed.

Lemma scan_latest_Ok d budget snapshot :
  ledger_inv d -> (exists b, b ∈ budgets d /\ b_id b = budget) ->
  scanLatestBudgetSnapshot d budget = Ok snapshot ->
  exists b l s, b ∈ budgets d /\ b_id b = budget /\ capped d budget l /\ l_revision l < 2 ^ 63 /\
    stored d b l s /\ snap_BudgetID snapshot = budget /\ snap_Revision snapshot = s_revision s /\
    snap_TaskID snapshot = s_task_id s /\
    snap_LimitRevision snapshot = s_limit_revision s /\
    snap_WarningCost snapshot = exact (l_warning_numerator l) (l_warning_denominator l) (s_currency s) /\
    snap_HardCost snapshot = exact (l_hard_numerator l) (l_hard_denominator l) (s_currency s) /\
    snap_HardTokens snapshot = l_hard_tokens l /\
    snap_ReservedCost snapshot = exact (s_reserved_numerator s) (s_reserved_denominator s) (s_currency s) /\
    snap_ChargedCost snapshot = exact (s_charged_numerator s) (s_charged_denominator s) (s_currency s) /\
    snap_ReservedTokens snapshot = s_reserved_tokens s /\
    snap_ChargedTokens snapshot = s_charged_tokens s /\
    snap_ReconciliationPending snapshot = s_reconciliation_pending s.
Proof.
  intros Hinv (b & Hb & Hid). subst budget.
  destruct (latest_snapshot_stored d b Hinv Hb) as (l & s & Hrow & Hc & Ht & Hr & Hs).
  unfold scanLatestBudgetSnapshot. rewrite Hrow.
  destruct (parseTypedID _ _) eqn:H1; [done|]. apply parseTypedID_Ok in H1 as [-> _].
  destruct (ParseCurrencyCode _) eqn:H2; [done|]. apply ParseCurrencyCode_Ok in H2 as ->.
  intros (exposure & _ & (categories & _ & [= <-])%bind_Ok)%bind_Ok.
  exists b, l, s. by split_and!.
Qed.

(** ** Adjusting a budget before approval *)

Lemma adjusted_keeps input micros : keeps_account (adjusted_row input micros).
Proof. by intros b. Qed.

Lemma adjustment_attributed state current requested actor authority reason adj :
  AdjustBudgetBeforeApproval state current requested actor authority reason = Ok adj ->
  BudgetAdjustment_Previous adj = current /\ BudgetAdjustment_Adjusted adj = requested.
Proof.
  unfold AdjustBudgetBeforeApproval, err_guard. intros H. if_cases H;
    repeat (match type of H with context [match ?x with _ => _ end] => destruct x end; try done);
    by injection H as <-.
Qed.

(** A budget without exposure holds nothing. *)
Lemma SetFrac_zero m : (SetFrac 0 m == 0)%Q.
Proof. done. Qed.

Lemma no_exposure d b l s snapshot :
  wf d -> stored d b l s ->
  snap_ReservedCost snapshot = exact (s_reserved_numerator s) (s_reserved_denominator s) (s_currency s) ->
  snap_ChargedCost snapshot = exact (s_charged_numerator s) (s_charged_denominator s) (s_currency s) ->
  snap_ReservedTokens snapshot = s_reserved_tokens s ->
  snap_ChargedTokens snapshot = s_charged_tokens s ->
  snap_ReconciliationPending snapshot = s_reconciliation_pending s ->
  has_exposure snapshot = false ->
  (held_cost d (b_id b) <= 0)%Q /\ (held_tokens d (b_id b) <= 0)%Q.
Proof.
  intros Hwf [] E1 E2 E3 E4 E5. unfold has_exposure. rewrite E1, E2, E3, E4, E5.
  rewrite !orb_false_iff. intros H. destruct_and!. to_prop. simpl in *.
  assert (pending_in d (b_id b) = false) as Hp by congruence.
  pose proof (held_le_exposure bound_cost posted_cost billed_cost d _ Hwf Hp).
  pose proof (held_le_exposure bound_tokens posted_tokens billed_tokens d _ Hwf Hp).
  unfold reserved_costs, charged_costs, reserved_token_sum, charged_token_sum in *.
  repeat match goal with H : s_reserved_numerator s = 0 |- _ => rewrite H in * end.
  repeat match goal with H : s_charged_numerator s = 0 |- _ => rewrite H in * end.
  repeat match goal with H : s_reserved_tokens s = 0 |- _ => rewrite H in * end.
  repeat match goal with H : s_charged_tokens s = 0 |- _ => rewrite H in * end.
  rewrite SetFrac_zero in *. change (inject_Z 0) with 0%Q in *. split; lra.
Qed.

Lemma insert_adjustment_same d r d' :
  insert_adjustment json_valid d r = Ok d' -> d' = set_adjustments d (adjustments d ++ [r]).
Proof. unfold insert_adjustment. by intros [-> _]%check_all_Ok. Qed.

Lemma mid_set_adjustments d v budget : ledger_mid d budget -> ledger_mid (set_adjustments d v) budget.
Proof.
  intros (Hwf & Ho & Hm). split_and!.
  - destruct Hwf. constructor; assumption.
  - intros b Hb Hne. apply (untouched_account d); [by apply rows_untouched|done..|by apply Ho].
  - intros b Hb Hid. destruct (Hm b Hb Hid) as (l & Hc & Ht). exists l. split; [|done].
    by apply (capped_frame d).
Qed.

Lemma adjust_new_inv now d input v d' :
  ledger_inv d -> TaskBudget_HardStopTokens (adjust_Requested input) <= max_int64 ->
  adjust_new json_valid marshal_budget now d input = Ok (v, d') -> ledger_inv d'.
Proof.
  intros Hinv Ht. unfold adjust_new. cbn zeta. intros (current & Hb%with_value_Ok & H)%bind_Ok.
  apply bind_Ok in H as (u & Hrev%refuse_Ok & H). destruct (find _ (tasks d)) as [[task state]|]; [|done].
  destruct (AdjustBudgetBeforeApproval _ _ _ _ _ _) as [|adj] eqn:Hadj; [done|].
  apply adjustment_attributed in Hadj as [Hprevious Hadjusted]. rewrite Hprevious, Hadjusted in H.
  apply bind_Ok in H as (u1 & Hcur%refuse_Ok & H).
  apply bind_Ok in H as (snapshot & Hs%with_value_Ok & H).
  skip_bind H. apply bind_Ok in H as (u3 & Hexp%refuse_Ok & H).
  apply bind_Ok in H as (d1 & Hl%with_value_Ok%writing_Ok & H).
  apply bind_Ok in H as ([changed d2] & Hu%with_value_Ok%writing_Ok & H).
  apply bind_Ok in H as (u4 & Hch%refuse_Ok & H).
  apply bind_Ok in H as (d3 & Ha%with_value_Ok%writing_Ok & H).
  apply bind_Ok in H as (s2 & Hs2%with_value_Ok & H).
  apply bind_Ok in H as (d4 & Hp%with_value_Ok & H). injection H as <- <-. to_prop. subst changed.
  unfold scanBudget in Hb. destruct (find_budget d _) as [b|] eqn:Hfind; [|done].
  destruct (ParseCurrencyCode _) eqn:Hpc; [done|]. apply ParseCurrencyCode_Ok in Hpc as ->.
  injection Hb as <-. simpl in Hcur, Hrev.
  pose proof (find_budget_in _ _ _ Hfind) as [Hb Hid].
  apply scan_latest_Ok in Hs as (b' & l & s & Hb' & Hid' & Hcap & Hlr & Hst & _ & _ & _ & E0 & _ & _ & _ &
    E1 & E2 & E3 & E4 & E5); [|done|by exists b].
  assert (b' = b) as ->.
  { apply (NoDup_key_eq b_id (budgets d)); [apply Hinv|done..|]. congruence. }
  destruct (no_exposure d b l s snapshot) as [N1 N2]; [apply Hinv|done..|].
  destruct (latest_limit_Some _ _ _ (cap_limit _ _ _ Hcap)) as (Hlin & _).
  destruct (wf_limits d (proj1 Hinv) l Hlin) as [(Hl0 & _) _].
  rewrite E0, (st_limit _ _ _ _ Hst) in *.
  assert (add_u64 (l_revision l) 1 = l_revision l + 1) as Hadd.
  { apply wrap_uint64_id. unfold_ranges. lia. }
  rewrite Hadd in *. apply insert_limit_Ok in Hl as (-> & Hchecks & Hnew).
  assert (limit_ok (adjusted_limit input (l_revision l + 1) (UnixMicro now))) as Hok
    by (by apply limit_checks_ok).
  rewrite <- Hid in *. set (l' := adjusted_limit _ _ _) in *.
  assert (ledger_mid (set_limit_revisions d (limit_revisions d ++ [l'])) (b_id b)) as Hmid.
  { apply (limit_mid d b l); try done.
    - apply Hcap.
    - simpl. lia.
    - eapply Qle_trans; [exact N1|]. apply SetFrac_nonneg; apply Hok.
    - eapply Qle_trans; [exact N2|]. apply inject_nonneg, Hok. }
  apply update_budget_Ok in Hu as (b1 & Hb1 & Hr1 & _ & ->); [|apply Hmid].
  apply (change_budget_mid _ _ (adjust_ExpectedBudgetRevision input) _ (adjusted_keeps input (UnixMicro now)))
    in Hmid as Hmid2.
  apply insert_adjustment_same in Ha as ->. eapply mid_set_adjustments in Hmid2.
  apply compute_snapshot_of in Hs2 as (b3 & l3 & Hs2); [|apply Hmid2].
  eapply persist_inv; [exact Hmid2| |exact Hp].
  eapply snapshot_of_stamped; [exact Hs2|by eexists (budgets _)|destruct Hs2; eassumption|try done..].
  by destruct Hs2.
Qed.

(** ** A new budget *)

Lemma of_budget_none f d budget :
  (forall r, r ∈ reservations d -> r_budget_id r <> budget) -> (of_budget f d budget == 0)%Q.
Proof.
  intros H. unfold of_budget. rewrite <- (sumQ_zero (reservations d)). apply sumQ_ext.
  intros r Hr. specialize (H r Hr). apply String.eqb_neq in H. by rewrite H.
Qed.

Lemma inv_new_budget d b :
  ledger_inv d -> (forall b', b' ∈ budgets d -> b_id b' <> b_id b) ->
  budget_checks b = true -> b_hard_tokens b <= max_int64 -> b_revision b = 0 ->
  b_reserved_cost b = 0 -> b_actual_cost b = 0 -> b_actual_tokens b = 0 ->
  ledger_inv (set_snapshots
    (set_limit_revisions (set_budgets d (budgets d ++ [b])) (limit_revisions d ++ [initial_limit b]))
    (snapshots d ++ [initial_snapshot b])).
Proof.
  intros [Hwf Haccount] Hnew Hc Ht Hr H1 H2 H3. set (d' := set_snapshots _ _).
  assert (b ∈ budgets d') as Hbin by (apply elem_of_app; right; by apply list_elem_of_singleton).
  assert (forall b', b' ∈ budgets d -> b' ∈ budgets d') as Hmono by (intros; apply elem_of_app; by left).
  assert (wf d') as Hwf'.
  { destruct Hwf. constructor; try assumption; simpl.
    - by apply NoDup_snoc.
    - apply NoDup_snoc; [done|]. intros l Hl [= Hlb _].
      destruct (wf_limits l Hl) as (_ & b' & Hb' & Hid & _). apply (Hnew b' Hb'). congruence.
    - apply NoDup_snoc; [done|]. intros s Hs [= Hsb _].
      destruct (wf_snapshots s Hs) as (_ & b' & Hb' & Hid & _). apply (Hnew b' Hb'). congruence.
    - intros b' [Hb'|Hb'%list_elem_of_singleton]%elem_of_app; [auto|by subst].
    - intros r Hr'. destruct (wf_reservations r Hr') as (Hok & b' & Hb' & ?). split; [done|]. exists b'. auto.
    - intros l [Hl|Hl%list_elem_of_singleton]%elem_of_app.
      + destruct (wf_limits l Hl) as (Hok & b' & Hb' & ?). split; [done|]. exists b'. auto.
      + subst l. split; [|by exists b]. unfold budget_checks in Hc. to_prop. destruct_and!.
        split_and!; simpl; try done; unfold token_range; lia.
    - intros s [Hs|Hs%list_elem_of_singleton]%elem_of_app.
      + destruct (wf_snapshots s Hs) as (Hok & b' & Hb' & ?). split; [done|]. exists b'. auto.
      + subst s. simpl. split; [lia|]. exists b. split_and!; [done..|lia]. }
  split; [done|]. intros b' [Hb'|Hb'%list_elem_of_singleton]%elem_of_app.
  - apply (untouched_account d); [by apply rows_untouched| |by intros; apply elem_of_app; left|auto].
    apply (latest_limit_other (set_budgets d (budgets d ++ [b]))). simpl. intros He. by apply (Hnew b').
  - subst b'. assert (forall r, r ∈ reservations d' -> r_budget_id r <> b_id b) as Hnone.
    { intros r Hr' Heq. destruct (wf_reservations d Hwf r Hr') as (_ & b' & Hb' & Hid & _).
      apply (Hnew b' Hb'). congruence. }
    pose proof (fun f => of_budget_none f d' (b_id b) Hnone) as Hzero.
    unfold budget_checks in Hc. to_prop. destruct_and!.
    exists (initial_limit b), (initial_snapshot b). split_and!; [constructor|split|done|constructor];
      unfold reserved_costs, charged_costs, reserved_token_sum, charged_token_sum;
      rewrite ?Hzero; try done; simpl.
    + apply latest_limit_intro; [done|]. split_and!; [|done|]; simpl.
      * apply elem_of_app. right. by apply list_elem_of_singleton.
      * intros l [Hl|Hl%list_elem_of_singleton]%elem_of_app Hlb; [|by subst].
        destruct (wf_limits d Hwf l Hl) as (_ & b' & Hb' & Hid & _).
        destruct (Hnew b' Hb'). congruence.
    + apply SetFrac_nonneg; simpl; lia.
    + apply inject_nonneg. lia.
    + apply elem_of_app. right. by apply list_elem_of_singleton.
    + by rewrite H1.
    + by rewrite H2.
    + by rewrite H3.
    + symmetry. apply not_true_iff_false. unfold pending_in. rewrite existsb_exists.
      intros (r & Hr'%list_elem_of_In & Hk). to_prop. destruct Hk as [Hk _]. by apply (Hnone r).
Qed.

Lemma insert_budget_inv d b d' :
  ledger_inv d -> b_hard_tokens b <= max_int64 -> b_revision b = 0 ->
  b_reserved_cost b = 0 -> b_actual_cost b = 0 -> b_actual_tokens b = 0 ->
  insert_budget json_valid d b = Ok d' -> ledger_inv d'.
Proof.
  intros Hinv Ht Hr H1 H2 H3. unfold insert_budget, err_guard.
  destruct (check_all _) eqn:Hc; [done|].
  assert (Forall (fun c : bool * Z => c.1 = true)
    [ (budget_checks b, CONSTRAINT_CHECK);
      (negb (budget_exists d (b_id b)), CONSTRAINT_PRIMARYKEY);
      (negb (existsb (fun o => b_task_id o =? b_task_id b) (budgets d)), CONSTRAINT_UNIQUE);
      (task_exists d (b_task_id b), CONSTRAINT_FOREIGNKEY) ]) as Hall.
  { eapply (check_all_Ok _ tt tt). unfold err_guard. by rewrite Hc. }
  rewrite !Forall_cons in Hall. destruct Hall as (Hchecks & Hfresh & _).
  intros (d1 & (-> & _ & _)%insert_limit_Ok & (-> & _ & _)%insert_snapshot_Ok)%bind_Ok.
  apply (inv_new_budget d b); try done. simpl in Hfresh. apply negb_true_iff in Hfresh.
  exact (proj1 (existsb_key_false b_id _ _) Hfresh).
Qed.
End Operations.
