(* ===== verification/BudgetOperations.v ===== *)
(** * The operations of the ledger as a whole

    Each operation keeps the invariant, keeps every property that its statements
    keep, and leaves tables that a repeated settlement reads back. *)

From Stdlib Require Import Ascii QArith Qreduction Qabs Qminmax Lqa.
From S2P Require Import Prelude GoText GoErrors PolicyValues Identity Pricing States FixedPolicy.
From S2P Require Import BudgetSchema BudgetSnapshots BudgetLedger BudgetAccounts BudgetFacts.
From S2P Require Import BudgetInvariant BudgetSteps.
Open Scope string_scope.
Open Scope list_scope.
Open Scope go_scope.

Lemma transaction_keeps {V} (P : db -> Prop) (operation : db -> result (V * error) (V * db)) d :
  P d -> (forall v d', operation d = Ok (v, d') -> P d') -> P (RunInTransaction operation d).2.
Proof.
  intros Hd H. unfold RunInTransaction. destruct (operation d) as [[v e]|[v d']] eqn:Ho; simpl; eauto.
Qed.

(** Whatever order labels are validated in, they are all valid or not. *)
Lemma validate_labels_perm l l' : l ≡ₚ l' -> validate_labels l = None -> validate_labels l' = None.
Proof.
  assert (forall labels, validate_labels labels = None <->
    Forall (fun '(label, value, maximum) => validateBounded label value maximum = None) labels) as Hall.
  { intros labels. induction labels as [|[[label value] maximum] rest IH]; simpl.
    - split; [by constructor|done].
    - rewrite Forall_cons, <- IH. destruct (validateBounded _ _ _); simpl; naive_solver. }
  rewrite !Hall. by intros ->.
Qed.

Lemma settle_validated json_Valid order order' input :
  (forall labels, order labels ≡ₚ labels) -> (forall labels, order' labels ≡ₚ labels) ->
  validateSettleProviderBudget json_Valid order input = None ->
  validateSettleProviderBudget json_Valid order' input = None.
Proof.
  intros Ho Ho'. unfold validateSettleProviderBudget. set (labels := [_; _; _]).
  destruct (validate_labels (order labels)) eqn:Hl; [done|].
  rewrite (validate_labels_perm (order labels)); [done| |done]. by rewrite Ho, Ho'.
Qed.

Section Ledger.
Context (json_valid : string -> bool) (json_Valid : string -> bool).
Context (map_order : list (string * string * Z) -> list (string * string * Z)).
Context (NewEventID : string -> result error ID).
Context (marshal_budget : TaskBudget -> string) (unmarshal_budget : string -> option TaskBudget).

(** ** The operations keep the invariant *)

Lemma validated_tokens (labels : option error) (tokens : option Z) (e1 : error) (k : option error) :
  (labels ;? if exceeds_int64 tokens then Some e1 else k) = None -> exceeds_int64 tokens = false.
Proof. destruct labels; [done|]. simpl. by destruct (exceeds_int64 tokens). Qed.

Lemma ReserveProviderBudget_inv now input d :
  ledger_inv d ->
  ledger_inv (ReserveProviderBudget json_valid json_Valid map_order NewEventID now input d).2.
Proof.
  intros Hinv. unfold ReserveProviderBudget.
  destruct (validateReserveProviderBudget _ _ _) as [|cost] eqn:Hv; [done|].
  apply transaction_keeps; [done|]. intros v d' (existing & _ & H)%bind_Ok. destruct existing.
  - unfold replay_reservation in H. skip_bind H.
    skip_bind H. skip_bind H. by injection H as _ <-.
  - eapply reserve_new_inv; [done| |exact H].
    destruct (exceeds_int64 _) eqn:He; [|done]. unfold validateReserveProviderBudget, err_guard in Hv.
    rewrite He in Hv. by repeat case_match.
Qed.

Lemma latest_same d budget s d' : latest d budget = Ok (s, d') -> d' = d.
Proof. unfold latest. intros (s' & _ & H)%bind_Ok. by injection H as _ <-. Qed.

Lemma SettleProviderBudget_inv now input d :
  ledger_inv d ->
  ledger_inv (SettleProviderBudget json_valid json_Valid map_order NewEventID now input d).2.
Proof.
  intros Hinv. unfold SettleProviderBudget, err_guard.
  destruct (validateSettleProviderBudget _ _ _) eqn:Hv; [done|].
  destruct (normalize_actual _) as [|actual]; [done|].
  apply transaction_keeps; [done|]. intros v d' (r & Hr%with_value_Ok & H)%bind_Ok.
  apply bind_Ok in H as (existing & _ & H). destruct existing.
  - unfold replay_posting in H. skip_bind H. skip_bind H.
    by apply latest_same in H as ->.
  - eapply settle_active_inv; [done|exact Hr| |exact H]. by eapply validated_tokens.
Qed.

Lemma ReleaseProviderBudget_inv now input d :
  ledger_inv d -> ledger_inv (ReleaseProviderBudget json_valid json_Valid NewEventID now input d).2.
Proof.
  intros Hinv. unfold ReleaseProviderBudget. destruct (validateReleaseProviderBudget _ _); [done|].
  apply transaction_keeps; [done|]. intros v d' (r & Hr%with_value_Ok & H)%bind_Ok.
  destruct (res_State r =? _).
  - unfold replay_release in H. skip_bind H. by apply latest_same in H as ->.
  - by eapply release_active_inv.
Qed.

Lemma RecordBudgetReconciliationIntent_inv now input d :
  ledger_inv d ->
  ledger_inv (RecordBudgetReconciliationIntent json_valid json_Valid map_order NewEventID now input d).2.
Proof.
  intros Hinv. unfold RecordBudgetReconciliationIntent, err_guard.
  destruct (validateBudgetReconciliationIntent _ _ _) eqn:Hv; [done|].
  destruct (normalize_actual _) as [|actual]; [done|].
  apply transaction_keeps; [done|]. intros v d' (r & Hr%with_value_Ok & H)%bind_Ok.
  destruct (by_identity _ _ _ _ _ _ _).
  - unfold replay_intent in H. skip_bind H. skip_bind H.
    skip_bind H. by apply latest_same in H as ->.
  - destruct (has_posting d _); [by apply latest_same in H as ->|].
    eapply record_intent_inv; [done|exact Hr| |exact H]. by eapply validated_tokens.
Qed.

Lemma replay_raise_same d input warning hard existing s d' :
  replay_raise d input warning hard existing = Ok (s, d') -> d' = d.
Proof.
  unfold replay_raise. destruct (l_approval_id existing); [|done]. destruct (ParseCurrencyCode _); [done|].
  intros H. skip_bind H. by apply latest_same in H.
Qed.

Lemma RaiseProviderBudget_inv now input d :
  ledger_inv d ->
  ledger_inv (RaiseProviderBudget json_valid json_Valid map_order NewEventID now input d).2.
Proof.
  intros Hinv. unfold RaiseProviderBudget.
  destruct (validateRaiseProviderBudget _ _ _) as [|[warning hard]] eqn:Hv; [done|].
  apply transaction_keeps; [done|]. intros v d' H. destruct (find _ _).
  - by apply replay_raise_same in H as ->.
  - eapply raise_limit_inv; [done| |exact H]. unfold validateRaiseProviderBudget in Hv.
    if_cases Hv. to_prop. lia.
Qed.

Lemma AdjustBudget_inv now input d :
  ledger_inv d -> ledger_inv (AdjustBudget json_valid marshal_budget unmarshal_budget now input d).2.
Proof.
  intros Hinv. unfold AdjustBudget. cbn zeta. destruct (_ || _); [done|]. destruct (negb _); [done|].
  destruct (validateBounded _ _ _); [done|]. destruct (_ || _) eqn:Ht; [done|]. to_prop.
  apply transaction_keeps; [done|]. intros v d' (existing & _ & H)%bind_Ok. destruct existing.
  - skip_bind H. skip_bind H. by injection H as _ <-.
  - eapply adjust_new_inv; [done| |exact H]. lia.
Qed.

Lemma CreateBudget_inv now task b d :
  ledger_inv d -> ledger_inv (CreateBudget json_valid now task b d).2.
Proof.
  intros Hinv. unfold CreateBudget. destruct (IsZero task); [done|].
  destruct (TaskBudget_Validate b); [done|]. destruct (_ || _) eqn:Ht; [done|]. to_prop. cbn zeta.
  apply transaction_keeps; [done|]. intros v d' (d1 & H1%with_value_Ok%writing_Ok & [= _ <-])%bind_Ok.
  eapply insert_budget_inv in H1; try done. simpl. lia.
Qed.

(** The two operations on approvals add a pending one and decide a pending one;
    they change no other table. *)
Definition decide_in (input : ResolveApprovalInput) (micros : Z) (a : approval_row) : approval_row :=
  if (a_id a =? resolve_ID input) && (a_state a =? "pending") &&
     (a_revision a =? resolve_ExpectedRevision input)%Z
  then resolved_row input micros a else a.

Lemma CreateApproval_effect now input d :
  (CreateApproval now input d).2 = d \/
  (CreateApproval now input d).2 =
    set_approvals d (approvals d ++ [requested_row input (UnixMicro now)]).
Proof.
  unfold CreateApproval. cbn zeta. destruct (IsZero _); [by left|]. destruct (IsZero _); [by left|].
  destruct (validateBounded _ _ _ ;? _); [by left|].
  match goal with |- context [if ?c then _ else RunInTransaction _ _] => destruct c end; [by left|].
  apply (transaction_keeps (fun d' => d' = d \/ d' = set_approvals d (approvals d ++ [_])));
    [by left|]. intros v d' (existing & _ & H)%bind_Ok. destruct existing.
  - skip_bind H. injection H as _ <-. by left.
  - match type of H with match ?c with _ => _ end = _ => destruct c end; [done|].
    apply bind_Ok in H as (d1 & H1%with_value_Ok%writing_Ok & H).
    injection H as _ <-. unfold insert_approval in H1. apply check_all_Ok in H1 as [-> _]. by right.
Qed.

Lemma ResolveApproval_effect now input d :
  (ResolveApproval now input d).2 = d \/
  (ResolveApproval now input d).2 =
    set_approvals d (map (decide_in input (UnixMicro now)) (approvals d)).
Proof.
  unfold ResolveApproval. destruct (IsZero _); [by left|].
  destruct (ValidateApprovalRequestTransition _ _); [by left|].
  destruct (validateBounded _ _ _); [by left|].
  apply (transaction_keeps (fun d' => d' = d \/ d' = set_approvals d (map _ (approvals d))));
    [by left|]. intros v d' (current & _ & H)%bind_Ok. skip_bind H.
  apply bind_Ok in H as ([changed d1] & H1%with_value_Ok%writing_Ok & H).
  skip_bind H. injection H as _ <-. unfold update_approval in H1. if_cases H1.
  injection H1 as _ <-. by right.
Qed.

(** ** Properties that the statements keep *)

(** A property that every statement of the spending operations keeps. *)
Record statements_keep (P : db -> Prop) : Prop := {
  keep_reservation d r d' : P d -> insert_reservation json_valid d r = Ok d' -> P d';
  keep_settle d id revision change changed d' :
    P d -> update_reservation json_valid d id revision change = Ok (changed, d') -> P d';
  keep_posting d p d' : P d -> insert_posting json_valid d p = Ok d' -> P d';
  keep_intent d i d' : P d -> insert_intent json_valid d i = Ok d' -> P d';
  keep_event d e changed d' : P d -> insert_event json_valid d e = Ok (changed, d') -> P d';
  keep_task_event d e d' : P d -> insert_task_event json_valid d e = Ok d' -> P d';
  keep_snapshot d s d' : P d -> insert_snapshot d s = Ok d' -> P d';
  keep_adjustment d r d' : P d -> insert_adjustment json_valid d r = Ok d' -> P d';
  keep_budget d id revision change changed d' : keeps_account change -> P d ->
    update_budget d id revision change = Ok (changed, d') -> P d';
}.

Section Kept.
Context (P : db -> Prop) (HP : statements_keep P).

Lemma advance_kept d budget expected micros n d' :
  P d -> advanceBudgetRevision d budget expected micros = Ok (n, d') -> P d'.
Proof.
  intros Hd. unfold advanceBudgetRevision. intros ([changed d1] & Hu%writing_Ok & H)%bind_Ok.
  apply (keep_budget P HP) in Hu; [|apply advanced_keeps|done]. destruct changed; [|done].
  by injection H as _ <-.
Qed.

Lemma persist_kept d s d' : P d -> persistBudgetSnapshot d s = Ok d' -> P d'.
Proof.
  intros Hd. unfold persistBudgetSnapshot. intros H%writing_Ok. if_cases H.
  by eapply (keep_snapshot P HP).
Qed.

Lemma event_kept d s eventType payload key micros d' :
  P d -> insertBudgetEvent json_valid NewEventID d s eventType payload key micros = Ok d' -> P d'.
Proof.
  intros Hd. unfold insertBudgetEvent.
  intros (id & _ & ([changed d1] & H1%writing_Ok & H)%bind_Ok)%bind_Ok.
  apply (keep_event P HP) in H1; [|done]. destruct changed; simpl in H; [|by injection H as <-].
  apply writing_Ok in H. by eapply (keep_task_event P HP).
Qed.

Lemma boundaries_kept d s micros d' :
  P d -> persistBudgetBoundaryEvents json_valid NewEventID d s micros = Ok d' -> P d'.
Proof.
  intros Hd. unfold persistBudgetBoundaryEvents. intros (exposure & _ & H)%bind_Ok.
  eapply (fold_result_inv _ P) in H; [done| |done].
  intros d1 [reached kind] d2 H1 H2. destruct reached; simpl in H2; [|by injection H2 as <-].
  by eapply event_kept.
Qed.

Lemma conclude_kept now d budget revision events s d' :
  P d -> conclude_settlement json_valid NewEventID now d budget revision events = Ok (s, d') -> P d'.
Proof.
  intros Hd. unfold conclude_settlement. cbn zeta. intros ([n d1] & Ha%with_value_Ok & H)%bind_Ok.
  skip_bind H. apply bind_Ok in H as (d2 & Hp%with_value_Ok & H).
  apply bind_Ok in H as (d3 & He%with_value_Ok & H). injection H as <- <-.
  apply advance_kept in Ha; [|done]. apply persist_kept in Hp; [|done].
  destruct events; [by eapply boundaries_kept|by injection He as <-].
Qed.

Lemma ReserveProviderBudget_kept now input d :
  P d -> P (ReserveProviderBudget json_valid json_Valid map_order NewEventID now input d).2.
Proof.
  intros Hd. unfold ReserveProviderBudget.
  destruct (validateReserveProviderBudget _ _ _) as [|cost]; [done|].
  apply transaction_keeps; [done|]. intros v d' (existing & _ & H)%bind_Ok. destruct existing.
  - unfold replay_reservation in H. skip_bind H.
    skip_bind H. skip_bind H. by injection H as _ <-.
  - unfold reserve_new in H. cbn zeta in H. apply bind_Ok in H as (current & _ & H).
    apply bind_Ok in H as (u & _ & H). apply bind_Ok in H as (d1 & Hi%with_value_Ok%writing_Ok & H).
    apply bind_Ok in H as ([n d2] & Ha%with_value_Ok & H). apply bind_Ok in H as (s & _ & H).
    apply bind_Ok in H as (d3 & Hp%with_value_Ok & H).
    apply bind_Ok in H as (d4 & He%with_value_Ok & H). injection H as <- <-.
    apply (keep_reservation P HP) in Hi; [|done]. apply advance_kept in Ha; [|done].
    apply persist_kept in Hp; [|done]. by eapply boundaries_kept.
Qed.

Lemma SettleProviderBudget_kept now input d :
  P d -> P (SettleProviderBudget json_valid json_Valid map_order NewEventID now input d).2.
Proof.
  intros Hd. unfold SettleProviderBudget, err_guard.
  destruct (validateSettleProviderBudget _ _ _); [done|]. destruct (normalize_actual _); [done|].
  apply transaction_keeps; [done|]. intros v d' (r & _ & H)%bind_Ok.
  apply bind_Ok in H as (existing & _ & H). destruct existing.
  - unfold replay_posting in H. skip_bind H. skip_bind H.
    by apply latest_same in H as ->.
  - unfold settle_active in H. cbn zeta in H. skip_bind H.
    skip_bind H. skip_bind H.
    skip_bind H.
    apply bind_Ok in H as ([changed d1] & Hu%with_value_Ok%writing_Ok & H).
    skip_bind H. apply bind_Ok in H as (d2 & Hp%with_value_Ok%writing_Ok & H).
    apply (keep_settle P HP) in Hu; [|done]. apply (keep_posting P HP) in Hp; [|done].
    by eapply conclude_kept.
Qed.

Lemma ReleaseProviderBudget_kept now input d :
  P d -> P (ReleaseProviderBudget json_valid json_Valid NewEventID now input d).2.
Proof.
  intros Hd. unfold ReleaseProviderBudget. destruct (validateReleaseProviderBudget _ _); [done|].
  apply transaction_keeps; [done|]. intros v d' (r & _ & H)%bind_Ok. destruct (res_State r =? _).
  - unfold replay_release in H. skip_bind H. by apply latest_same in H as ->.
  - unfold release_active in H. cbn zeta in H. skip_bind H.
    skip_bind H. skip_bind H.
    apply bind_Ok in H as ([changed d1] & Hu%with_value_Ok%writing_Ok & H).
    skip_bind H. apply (keep_settle P HP) in Hu; [|done].
    by eapply conclude_kept.
Qed.

Lemma RecordBudgetReconciliationIntent_kept now input d :
  P d -> P (RecordBudgetReconciliationIntent json_valid json_Valid map_order NewEventID now input d).2.
Proof.
  intros Hd. unfold RecordBudgetReconciliationIntent, err_guard.
  destruct (validateBudgetReconciliationIntent _ _ _); [done|]. destruct (normalize_actual _); [done|].
  apply transaction_keeps; [done|]. intros v d' (r & _ & H)%bind_Ok. destruct (by_identity _ _ _ _ _ _ _).
  - unfold replay_intent in H. skip_bind H. skip_bind H.
    skip_bind H. by apply latest_same in H as ->.
  - destruct (has_posting d _); [by apply latest_same in H as ->|].
    unfold record_intent in H. cbn zeta in H. skip_bind H.
    skip_bind H. skip_bind H.
    apply bind_Ok in H as (d1 & Hi%with_value_Ok%writing_Ok & H). skip_bind H.
    apply bind_Ok in H as ([n d2] & Ha%with_value_Ok & H).
    apply bind_Ok in H as (d3 & Hp%with_value_Ok & H).
    apply bind_Ok in H as (d4 & He%with_value_Ok & H). injection H as <- <-.
    apply (keep_intent P HP) in Hi; [|done]. apply advance_kept in Ha; [|done].
    apply persist_kept in Hp; [|done]. by eapply boundaries_kept.
Qed.
End Kept.

Lemma raise_limit_kept P now d input warning hard s d' :
  statements_keep P -> (forall d l d', P d -> insert_limit json_valid d l = Ok d' -> P d') -> P d ->
  raise_limit json_valid NewEventID now d input warning hard = Ok (s, d') -> P d'.
Proof.
  intros HP Hl Hd. unfold raise_limit. cbn zeta. intros (current & _ & H)%bind_Ok.
  do 4 skip_bind H. apply bind_Ok in H as (d1 & Hi%with_value_Ok%writing_Ok & H).
  apply bind_Ok in H as ([s1 d2] & Hc & H). apply bind_Ok in H as (d3 & He%with_value_Ok & H).
  injection H as <- <-. apply Hl in Hi; [|done]. eapply event_kept; [done| |exact He].
  by eapply conclude_kept.
Qed.

Lemma adjust_new_kept P now d input v d' :
  statements_keep P -> (forall d l d', P d -> insert_limit json_valid d l = Ok d' -> P d') -> P d ->
  adjust_new json_valid marshal_budget now d input = Ok (v, d') -> P d'.
Proof.
  intros HP Hl Hd. unfold adjust_new. cbn zeta. intros (current & _ & H)%bind_Ok.
  skip_bind H. destruct (find _ (tasks d)) as [[task state]|]; [|done].
  destruct (AdjustBudgetBeforeApproval _ _ _ _ _ _) as [|adj]; [done|]. do 4 skip_bind H.
  apply bind_Ok in H as (d1 & Hi%with_value_Ok%writing_Ok & H).
  apply bind_Ok in H as ([changed d2] & Hu%with_value_Ok%writing_Ok & H).
  skip_bind H. apply bind_Ok in H as (d3 & Ha%with_value_Ok%writing_Ok & H).
  skip_bind H. apply bind_Ok in H as (d4 & Hp%with_value_Ok & H). injection H as <- <-.
  apply Hl in Hi; [|done]. eapply persist_kept; [done| |exact Hp].
  eapply (keep_adjustment _ HP); [|exact Ha]. by eapply (keep_budget _ HP); [apply adjusted_keeps|..].
Qed.

(** ** The authority of a limit *)

(** A limit revision rests on the policy of the task or on the user's adjustment
    before approval, or else on a granted approval of the budget's task whose
    scope spells out exactly these limits. *)
Definition backed (d : db) (l : limit_row) : Prop :=
  match l_approval_id l with
  | None => l_authority_kind l ∈ ["initial-policy"; "preapproval-user-adjustment"]
  | Some approval =>
      exists a b, a ∈ approvals d /\ a_id a = approval /\ a_state a = "granted" /\
        b ∈ budgets d /\ b_id b = l_budget_id l /\ a_task_id a = b_task_id b /\
        a_scope a = BudgetRaiseApprovalScope (l_budget_id l)
          (exact (l_warning_numerator l) (l_warning_denominator l) (l_currency l))
          (exact (l_hard_numerator l) (l_hard_denominator l) (l_currency l))
          (l_warning_tokens l) (l_hard_tokens l)
  end.

Definition approved (d : db) : Prop :=
  (forall l, l ∈ limit_revisions d -> backed d l) /\ NoDup (omap l_approval_id (limit_revisions d)).

(** A limit stays backed while its approval and its budget stay. *)
Lemma backed_mono d d' l :
  (forall a, a ∈ approvals d -> a_state a = "granted" -> a ∈ approvals d') ->
  (forall b, b ∈ budgets d -> exists b', b' ∈ budgets d' /\ b_id b' = b_id b /\ b_task_id b' = b_task_id b) ->
  backed d l -> backed d' l.
Proof.
  intros Ha Hb. unfold backed. destruct (l_approval_id l); [|done].
  intros (a & b & H1 & H2 & H3 & H4 & H5 & H6 & H7). destruct (Hb b H4) as (b' & B1 & B2 & B3).
  exists a, b'. split_and!; auto; congruence.
Qed.

Lemma approved_kept : statements_keep approved.
Proof.
  split.
  - by intros d r d' H [-> _]%insert_reservation_Ok.
  - intros d id revision change changed d' H Hu. unfold update_reservation in Hu. if_cases Hu.
    by injection Hu as _ <-.
  - by intros d p d' H [-> _]%insert_posting_Ok.
  - by intros d i d' H [-> _]%insert_intent_Ok.
  - intros d e changed d' H He. unfold insert_event, err_guard in He. destruct (check_all _); [done|].
    destruct (existsb _ _); [by injection He as _ <-|]. destruct (check_all _); [done|].
    by injection He as _ <-.
  - intros d e d' H He. unfold insert_task_event in He. by apply check_all_Ok in He as [-> _].
  - by intros d s d' H [-> _]%insert_snapshot_Ok.
  - by intros d r d' H ->%insert_adjustment_same.
  - intros d id revision change changed d' Hk [H1 H2] Hu. unfold update_budget in Hu. if_cases Hu.
    injection Hu as _ <-. split; [|done]. intros l Hl.
    apply (backed_mono d); [done| |by apply H1]. intros b Hb. eexists.
    split; [by apply list_elem_of_fmap_2|]. destruct (_ && _); [|done]. split; apply Hk.
Qed.

Lemma insert_limit_approved d l d' :
  approved d -> insert_limit json_valid d l = Ok d' -> backed d l -> approved d'.
Proof.
  intros [H1 H2] Hi Hl. unfold insert_limit in Hi. apply check_all_Ok in Hi as [-> Hc].
  rewrite !Forall_cons in Hc. destruct Hc as (_ & _ & _ & Hu & _). simpl in Hu. split; simpl.
  - intros l' [Hl'|Hl'%list_elem_of_singleton]%elem_of_app; [by apply (H1 l')|by subst].
  - rewrite omap_app. apply NoDup_app. split; [done|]. simpl.
    destruct (l_approval_id l) as [a|]; [|split; [by intros ? _ ?%not_elem_of_nil|apply NoDup_nil_2]].
    split; [|apply NoDup_singleton]. intros a' Ha' ->%list_elem_of_singleton.
    apply list_elem_of_omap in Ha' as (l' & Hl' & Ha').
    apply negb_true_iff, not_true_iff_false in Hu. apply Hu. apply existsb_exists. exists l'.
    split; [by apply list_elem_of_In|by apply bool_decide_eq_true].
Qed.

Lemma raise_limit_approved now d input warning hard s d' :
  ledger_inv d -> approved d ->
  raise_limit json_valid NewEventID now d input warning hard = Ok (s, d') -> approved d'.
Proof.
  intros Hinv Ha. unfold raise_limit. cbn zeta. intros (current & Hs%with_value_Ok & H)%bind_Ok.
  skip_bind H. skip_bind H.
  skip_bind H. apply bind_Ok in H as (u & Hv & H).
  apply bind_Ok in H as (d1 & Hi%with_value_Ok%writing_Ok & H).
  apply bind_Ok in H as ([s1 d2] & Hc & H). apply bind_Ok in H as (d3 & He%with_value_Ok & H).
  injection H as <- <-. eapply event_kept; [apply approved_kept| |exact He].
  eapply conclude_kept; [apply approved_kept| |exact Hc].
  eapply insert_limit_approved; [done|exact Hi|].
  apply compute_snapshot_of in Hs as (b & l & Hs); [|apply Hinv].
  destruct (find_budget_in _ _ _ (so_budget _ _ _ _ _ Hs)) as [Hb Hid].
  destruct (verifyGrantedBudgetApproval _ _ _ _ _ _ _ _) eqn:Hg; [done|].
  unfold verifyGrantedBudgetApproval in Hg.
  destruct (find _ (approvals d)) as [a|] eqn:Hf; [|done]. apply (find_key a_id) in Hf as [Hin Haid].
  if_cases Hg. to_prop. rewrite (so_task _ _ _ _ _ Hs) in *. destruct_and!.
  unfold backed. simpl. exists a, b. by split_and!.
Qed.

Lemma CreateBudget_approved now task b d :
  approved d -> approved (CreateBudget json_valid now task b d).2.
Proof.
  intros Hd. unfold CreateBudget. destruct (IsZero task); [done|].
  destruct (TaskBudget_Validate b); [done|]. destruct (_ || _); [done|]. cbn zeta.
  apply transaction_keeps; [done|]. intros v d' (d1 & H1%with_value_Ok%writing_Ok & [= _ <-])%bind_Ok.
  unfold insert_budget, err_guard in H1. destruct (check_all _); [done|].
  apply bind_Ok in H1 as (d2 & Hl & Hs). eapply (keep_snapshot _ approved_kept); [|exact Hs].
  eapply insert_limit_approved; [|exact Hl|].
  - destruct Hd as [H1 H2]. split; [|done]. intros l Hl'. apply (backed_mono d); [done| |by apply H1].
    intros b0 Hb0. exists b0. split; [apply elem_of_app; by left|done].
  - unfold backed. simpl. by left.
Qed.

Lemma adjust_new_approved now d input v d' :
  approved d -> adjust_new json_valid marshal_budget now d input = Ok (v, d') -> approved d'.
Proof.
  intros Hd. unfold adjust_new. cbn zeta. intros (current & _ & H)%bind_Ok.
  skip_bind H. destruct (find _ (tasks d)) as [[task state]|]; [|done].
  destruct (AdjustBudgetBeforeApproval _ _ _ _ _ _) as [|adj]; [done|].
  skip_bind H. apply bind_Ok in H as (snapshot & _ & H).
  skip_bind H. skip_bind H.
  apply bind_Ok in H as (d1 & Hl%with_value_Ok%writing_Ok & H).
  apply bind_Ok in H as ([changed d2] & Hu%with_value_Ok%writing_Ok & H).
  skip_bind H. apply bind_Ok in H as (d3 & Ha%with_value_Ok%writing_Ok & H).
  apply bind_Ok in H as (s2 & _ & H). apply bind_Ok in H as (d4 & Hp%with_value_Ok & H).
  injection H as <- <-. eapply persist_kept; [apply approved_kept| |exact Hp].
  eapply (keep_adjustment _ approved_kept); [|exact Ha].
  eapply (keep_budget _ approved_kept); [apply adjusted_keeps| |exact Hu].
  eapply insert_limit_approved; [done|exact Hl|]. unfold backed. simpl. right. by left.
Qed.

(** ** Limits that rest on no approval *)

(** Without an approval, a limit enters the tables only with its budget, as its
    first one, or while the budget's task has not been approved. *)
Definition unapproved (d : db) (l : limit_row) : Prop :=
  (l_authority_kind l = "initial-policy" /\ l_revision l = 0 /\
   forall b, b ∈ budgets d -> b_id b <> l_budget_id l) \/
  (l_authority_kind l = "preapproval-user-adjustment" /\
   exists b state, b ∈ budgets d /\ b_id b = l_budget_id l /\ (b_task_id b, state) ∈ tasks d /\
     state ∈ ["draft"; "forecasting"; "awaiting-plan-approval"]).

Definition grounds (d : db) (l : limit_row) : Prop := l_approval_id l = None -> unapproved d l.

Definition entered (d0 d : db) : Prop :=
  forall l, l ∈ limit_revisions d -> l ∈ limit_revisions d0 \/ grounds d0 l.

Lemma entered_same d0 d d' : limit_revisions d' = limit_revisions d -> entered d0 d -> entered d0 d'.
Proof. intros H Hd l. rewrite H. apply Hd. Qed.

Lemma entered_kept d0 : statements_keep (entered d0).
Proof.
  split.
  - intros d r d' H [-> _]%insert_reservation_Ok. exact H.
  - intros d id revision change changed d' H Hu. unfold update_reservation in Hu. if_cases Hu.
    injection Hu as _ <-. exact H.
  - intros d p d' H [-> _]%insert_posting_Ok. exact H.
  - intros d i d' H [-> _]%insert_intent_Ok. exact H.
  - intros d e changed d' H He. unfold insert_event, err_guard in He. destruct (check_all _); [done|].
    destruct (existsb _ _); [by injection He as _ <-|]. destruct (check_all _); [done|].
    injection He as _ <-. exact H.
  - intros d e d' H He. unfold insert_task_event in He. apply check_all_Ok in He as [-> _]. exact H.
  - intros d s d' H [-> _]%insert_snapshot_Ok. exact H.
  - intros d r d' H ->%insert_adjustment_same. exact H.
  - intros d id revision change changed d' Hk H Hu. unfold update_budget in Hu. if_cases Hu.
    injection Hu as _ <-. exact H.
Qed.

Lemma insert_limit_entered d0 d l d' :
  entered d0 d -> insert_limit json_valid d l = Ok d' -> grounds d0 l -> entered d0 d'.
Proof.
  intros Hd Hi Hl. unfold insert_limit in Hi. apply check_all_Ok in Hi as [-> _].
  intros l' [Hl'|Hl'%list_elem_of_singleton]%elem_of_app; [by apply Hd|subst; by right].
Qed.

Lemma raise_limit_entered d0 now d input warning hard s d' :
  entered d0 d -> raise_limit json_valid NewEventID now d input warning hard = Ok (s, d') -> entered d0 d'.
Proof.
  intros Hd. unfold raise_limit. cbn zeta. intros (current & _ & H)%bind_Ok. do 4 skip_bind H.
  apply bind_Ok in H as (d1 & Hi%with_value_Ok%writing_Ok & H).
  apply bind_Ok in H as ([s1 d2] & Hc & H). apply bind_Ok in H as (d3 & He%with_value_Ok & H).
  injection H as <- <-. eapply event_kept; [apply entered_kept| |exact He].
  eapply conclude_kept; [apply entered_kept| |exact Hc]. by eapply insert_limit_entered.
Qed.

Lemma CreateBudget_entered now task b d : entered d (CreateBudget json_valid now task b d).2.
Proof.
  assert (entered d d) as Hd by (intros l; by left). unfold CreateBudget. destruct (IsZero task); [done|].
  destruct (TaskBudget_Validate b); [done|]. destruct (_ || _); [done|]. cbn zeta.
  apply transaction_keeps; [done|]. intros v d' (d1 & H1%with_value_Ok%writing_Ok & [= _ <-])%bind_Ok.
  unfold insert_budget, err_guard in H1. destruct (check_all _) eqn:Hc; [done|].
  apply bind_Ok in H1 as (d2 & Hl & Hs). eapply (keep_snapshot _ (entered_kept d)); [|exact Hs].
  eapply insert_limit_entered; [|exact Hl|]; [exact Hd|]. intros _. left. split_and!; [done..|].
  match type of Hc with check_all ?l = None => set (checks := l) in Hc end.
  assert (Forall (fun c : bool * Z => c.1 = true) checks) as Hall.
  { eapply (check_all_Ok _ tt tt). unfold err_guard. by rewrite Hc. }
  unfold checks in Hall. rewrite !Forall_cons in Hall. destruct Hall as (_ & Hfresh & _).
  simpl in Hfresh. apply negb_true_iff in Hfresh. exact (proj1 (existsb_key_false b_id _ _) Hfresh).
Qed.

(** An adjustment reads the state of the task, and that it is before its
    approval. *)
Lemma adjusted_in_time state current requested actor authority reason adj :
  AdjustBudgetBeforeApproval state current requested actor authority reason = Ok adj ->
  state ∈ ["draft"; "forecasting"; "awaiting-plan-approval"].
Proof.
  unfold AdjustBudgetBeforeApproval.
  destruct (negb _) eqn:E; [done|]. intros _. apply negb_false_iff in E. to_prop.
  rewrite !elem_of_cons. destruct E as [[-> | ->]| ->]; auto.
Qed.

Lemma adjust_new_entered d0 now input v d' :
  adjust_new json_valid marshal_budget now d0 input = Ok (v, d') -> entered d0 d'.
Proof.
  assert (entered d0 d0) as Hd by (intros l; by left).
  unfold adjust_new. cbn zeta. intros (current & Hb%with_value_Ok & H)%bind_Ok.
  skip_bind H. destruct (find _ (tasks d0)) as [[task state]|] eqn:Hf; [|done].
  destruct (AdjustBudgetBeforeApproval _ _ _ _ _ _) as [|adj] eqn:Hadj; [done|].
  apply adjusted_in_time in Hadj.
  skip_bind H. apply bind_Ok in H as (snapshot & _ & H). skip_bind H. skip_bind H.
  apply bind_Ok in H as (d1 & Hl%with_value_Ok%writing_Ok & H).
  apply bind_Ok in H as ([changed d2] & Hu%with_value_Ok%writing_Ok & H).
  skip_bind H. apply bind_Ok in H as (d3 & Ha%with_value_Ok%writing_Ok & H).
  apply bind_Ok in H as (s2 & _ & H). apply bind_Ok in H as (d4 & Hp%with_value_Ok & H).
  injection H as <- <-. eapply persist_kept; [apply entered_kept| |exact Hp].
  eapply (keep_adjustment _ (entered_kept d0)); [|exact Ha].
  eapply (keep_budget _ (entered_kept d0)); [apply adjusted_keeps| |exact Hu].
  eapply insert_limit_entered; [exact Hd|exact Hl|]. intros _. right. split; [done|].
  unfold scanBudget in Hb. destruct (find_budget d0 _) as [b|] eqn:Hfind; [|done].
  apply find_budget_in in Hfind as [Hin Hid]. exists b, state.
  split_and!; [done|exact Hid| |exact Hadj].
  apply find_some in Hf as [Hf Ht]. apply list_elem_of_In in Hf. apply String.eqb_eq in Ht. cbn [fst] in Ht.
  assert (task = b_task_id b) as <-; [|done]. rewrite Ht.
  by destruct (ParseCurrencyCode _); [|injection Hb as <-].
Qed.

(** ** Repeating a settlement *)

Lemma addExactCosts_value l r l' r' :
  Currency l' = Currency l -> Currency r' = Currency r ->
  (exactCostRat l' == exactCostRat l)%Q -> (exactCostRat r' == exactCostRat r)%Q ->
  addExactCosts l' r' = addExactCosts l r.
Proof.
  intros H1 H2 H3 H4. unfold addExactCosts. rewrite H1, H2. destruct (negb _); [done|].
  assert (Qred (exactCostRat l' + exactCostRat r') = Qred (exactCostRat l + exactCostRat r)) as Hq
    by (apply Qred_complete; rewrite H3, H4; reflexivity).
  unfold exactCostFromRat, Num, Denom. by rewrite Hq.
Qed.

Lemma rows_frame d d' budget :
  same_rows d d' -> active_rows d' budget = active_rows d budget /\
  pending_rows d' budget = pending_rows d budget /\ posting_rows d' budget = posting_rows d budget.
Proof. intros (H1 & H2 & H3). destruct d, d'; simpl in *; subst. done. Qed.

Lemma load_frame d d' budget currency :
  same_rows d d' -> find_budget d' budget = find_budget d budget ->
  loadBudgetCategorySnapshots d' budget currency = loadBudgetCategorySnapshots d budget currency.
Proof.
  intros H1 H2. destruct (rows_frame d d' budget H1) as (E1 & E2 & E3).
  unfold loadBudgetCategorySnapshots. by rewrite H2, E1, E2, E3.
Qed.

Lemma limit_currency d b l :
  wf d -> b ∈ budgets d -> latest_limit d (b_id b) = Some l -> l_currency l = b_currency b.
Proof.
  intros Hwf Hb (Hl & Hlb & _)%latest_limit_Some.
  destruct (wf_limits d Hwf l Hl) as (_ & b' & Hb' & Hid' & Hcur').
  assert (b' = b) as -> by (apply (NoDup_key_eq b_id (budgets d)); [apply Hwf|done..|congruence]). done.
Qed.

(** Once a snapshot is stored, reading it again succeeds with the same totals. *)
Lemma stored_readable d1 d' budget s :
  wf d1 -> tokens_below (2 ^ 63) d' budget ->
  computeBudgetSnapshot d1 budget = Ok s -> ledger_inv d' -> budgets d' = budgets d1 ->
  limit_revisions d' = limit_revisions d1 -> same_rows d1 d' ->
  exists s', scanLatestBudgetSnapshot d' budget = Ok s' /\
    (exactCostRat (snap_ReservedCost s') == exactCostRat (snap_ReservedCost s))%Q /\
    (exactCostRat (snap_ChargedCost s') == exactCostRat (snap_ChargedCost s))%Q /\
    snap_ReservedTokens s' = snap_ReservedTokens s /\ snap_ChargedTokens s' = snap_ChargedTokens s /\
    snap_ReconciliationPending s' = snap_ReconciliationPending s /\ snap_Revision s' = snap_Revision s.
Proof.
  intros Hwf Htok Hs Hinv Hb Hl Hr. pose proof Hs as Hs'.
  apply compute_snapshot_of in Hs' as (b & l & Hof); [|done].
  pose proof (so_budget _ _ _ _ _ Hof) as Hfind. destruct (find_budget_in _ _ _ Hfind) as [Hbin Hid].
  rewrite <- Hb in Hbin. destruct (latest_snapshot_stored d' b Hinv Hbin) as (l' & row & Hrow & Hc & _ & _ & []).
  rewrite Hid in *. assert (l' = l) as ->.
  { pose proof (cap_limit _ _ _ Hc) as Hc'. pose proof (so_limit _ _ _ _ _ Hof) as Ho.
    unfold latest_limit in *. rewrite Hl in Hc'. congruence. }
  destruct (snapshot_sums _ _ _ _ _ Hwf Hof) as (S1 & S2 & _ & _ & S5).
  assert (tokens_below (2 ^ 64) d1 budget) as Htok1.
  { apply (below_le (2 ^ 63)); [lia|]. apply (tokens_frame _ d'); [|done].
    destruct Hr as (? & ? & ?). by split_and!. }
  destruct (snapshot_tokens _ _ _ _ _ Hwf Hof Htok1) as [T1 T2].
  assert (forall f, local f -> (of_budget f d' budget == of_budget f d1 budget)%Q) as Hsum.
  { intros f Hf. apply untouched_sum; [done|]. by apply rows_untouched. }
  assert (pending_in d' budget = pending_in d1 budget) as Hpend.
  { apply untouched_pending. by apply rows_untouched. }
  unfold reserved_costs, charged_costs, reserved_token_sum, charged_token_sum in *.
  rewrite Hsum in st_reserved, st_charged, st_reserved_tokens, st_charged_tokens by auto with ledger.
  assert (l_currency l = b_currency b) as Hcur.
  { apply (limit_currency d1); [done|by rewrite <- Hb|]. rewrite Hid. apply Hof. }
  unfold computeBudgetSnapshot in Hs. cbn zeta in Hs.
  rewrite Hfind, (so_limit _ _ _ _ _ Hof) in Hs.
  destruct (parseTypedID _ (b_task_id b)) as [|task] eqn:Htask; [done|].
  destruct (ParseCurrencyCode (l_currency l)) as [|currency] eqn:Hpc; [done|].
  pose proof (ParseCurrencyCode_Ok _ _ Hpc) as Hpc'. subst currency.
  apply bind_Ok in Hs as (cs & Hcs & Hs). apply bind_Ok in Hs as (t & _ & Hs).
  apply bind_Ok in Hs as (exposure & Hexp & Hs).
  assert (snap_ReservedCost s = total_reserved t /\ snap_ChargedCost s = total_charged t) as [Hsr Hsc]
    by (by injection Hs as <-).
  rewrite <- Hsr, <- Hsc in Hexp.
  unfold scanLatestBudgetSnapshot. rewrite Hrow, st_task, Htask, st_currency, <- Hcur, Hpc.
  erewrite addExactCosts_value; [rewrite Hexp| | | |]; cycle 1.
  { simpl. symmetry. apply Hof. }
  { simpl. symmetry. apply Hof. }
  { rewrite S1. exact st_reserved. }
  { rewrite S2. exact st_charged. }
  rewrite (load_frame d1 d') by (done || by unfold find_budget; rewrite Hb).
  cbn [mbind result_bind]. rewrite Hcs. eexists. split; [reflexivity|].
  cbn [snap_ReservedCost snap_ChargedCost snap_ReservedTokens snap_ChargedTokens
       snap_ReconciliationPending snap_Revision].
  rewrite S1, S2, S5, <- Hpend, st_revision, (so_revision _ _ _ _ _ Hof).
  rewrite <- T1 in st_reserved_tokens. rewrite <- T2 in st_charged_tokens.
  apply (proj1 (inject_Z_injective _ _)) in st_reserved_tokens, st_charged_tokens. by split_and!.
Qed.

(** What the end of a settlement leaves. *)
Lemma conclude_effect now d budget revision events s d' :
  ledger_mid d budget ->
  conclude_settlement json_valid NewEventID now d budget revision events = Ok (s, d') ->
  exists d1 s1, wf d1 /\ computeBudgetSnapshot d1 budget = Ok s1 /\ snap_Revision s1 = snap_Revision s /\
    s = stamped s1 (snap_Revision s) (repositoryTime (UnixMicro now)) /\
    same_rows d d1 /\ limit_revisions d1 = limit_revisions d /\
    budgets d' = budgets d1 /\ limit_revisions d' = limit_revisions d1 /\ same_rows d1 d'.
Proof.
  intros Hmid. unfold conclude_settlement. cbn zeta. intros ([n d1] & Ha%with_value_Ok & H)%bind_Ok.
  apply bind_Ok in H as (s1 & Hs%with_value_Ok & H). apply bind_Ok in H as (d2 & Hp%with_value_Ok & H).
  apply bind_Ok in H as (d3 & He%with_value_Ok & H). injection H as <- <-.
  apply advance_Ok in Ha as (b & _ & Hr & -> & Hb1 & [v Hv] & Hmid1); [|apply Hmid].
  specialize (Hmid1 Hmid). pose proof Hs as Hs'.
  apply compute_snapshot_of in Hs' as (b1 & l & Hof); [|apply Hmid1].
  assert (b1 = advanced_row (UnixMicro now) b) as -> by (destruct Hof; congruence).
  exists d1, s1. assert (same_ledger d2 d3) as (E1 & E2 & E3 & _).
  { destruct events; [by eapply persistEvents_same|by injection He as <-]. }
  unfold persistBudgetSnapshot in Hp. apply writing_Ok in Hp. if_cases Hp.
  apply insert_snapshot_Ok in Hp as [-> _]. split_and!; try done.
  - apply Hmid1.
  - rewrite (so_revision _ _ _ _ _ Hof). simpl. by rewrite Hr.
  - by rewrite Hv.
  - by rewrite Hv.
Qed.

(** The tables after a settlement of an active reservation. *)
Lemma settle_active_effect now d input actual r s d' :
  ledger_inv d -> getBudgetReservation d (settle_ReservationID input) = Ok r ->
  exceeds_int64 (settle_ActualTokens input) = false ->
  settle_active json_valid NewEventID now d input actual r = Ok (s, d') ->
  exists r0 slots micros d1 s1,
    r0 ∈ reservations d /\ r_id r0 = settle_ReservationID input /\
    res_BudgetID r = r_budget_id r0 /\ r_id r0 = res_ID r /\
    normalizedActualProviderCallSlots r (settle_ActualProviderCallSlots input) = Ok slots /\
    posting_checks json_valid (posted_row input r slots actual micros) = true /\
    reservations d' = map (settle_in (r_id r0) (settled_row "committed" "usage committed"
                             (settle_ProvenanceJSON input) micros)) (reservations d) /\
    postings d' = postings d ++ [posted_row input r slots actual micros] /\
    wf d1 /\ computeBudgetSnapshot d1 (res_BudgetID r) = Ok s1 /\ snap_Revision s1 = snap_Revision s /\
    s = stamped s1 (snap_Revision s) (repositoryTime (UnixMicro now)) /\
    budgets d' = budgets d1 /\ limit_revisions d' = limit_revisions d1 /\ same_rows d1 d'.
Proof.
  intros Hinv Hget Ht. pose proof Hget as Hget'.
  apply getBudgetReservation_Ok in Hget'
    as (r0 & Hr0 & Hid0 & Hid & Hbid & _ & _ & Hst & Hbound & Htb & Hrev & _).
  unfold settle_active. cbn zeta. intros (u & H1%refuse_Ok & H)%bind_Ok.
  apply bind_Ok in H as (slots & Hslots%with_value_Ok & H). apply bind_Ok in H as (current & _ & H).
  apply bind_Ok in H as (u1 & Hcur%refuse_Ok & H).
  apply bind_Ok in H as ([changed d1] & Hu%with_value_Ok%writing_Ok & H).
  apply bind_Ok in H as (u2 & H2%refuse_Ok & H).
  apply bind_Ok in H as (d2 & Hp%with_value_Ok%writing_Ok & H). to_prop. subst changed.
  rewrite Hst in H1. rewrite Hid, Hrev in Hu.
  apply update_reservation_Ok in Hu as [-> _]; [|by apply Hinv|done..].
  apply insert_posting_Ok in Hp as (-> & Hc & Hnew).
  eapply conclude_effect in H as (d1 & s1 & Hwf & Hs & Hsr & Hst' & (R1 & R2 & R3) & _ & E1 & E2 & E3).
  - destruct E3 as (Q1 & Q2 & Q3). exists r0, slots, (UnixMicro now), d1, s1.
    split_and!; try done; try congruence.
    + by rewrite Q1, R1.
    + by rewrite Q2, R2.
  - rewrite Hbid. apply posted_mid; try done.
    + by eapply (posted_row_ok _ d); [apply Hinv|..].
    + simpl. rewrite Hbound in *. destruct actual as [c|]; simpl in *; [|done]. by to_prop.
Qed.

Lemma scan_settled state reason provenance micros r0 operation r :
  scanBudgetReservation (Some r0) operation = Ok r ->
  exists r', scanBudgetReservation (Some (settled_row state reason provenance micros r0)) operation = Ok r' /\
    res_BudgetID r' = res_BudgetID r /\ res_Category r' = res_Category r /\
    res_ProviderCallSlots r' = res_ProviderCallSlots r.
Proof.
  unfold scanBudgetReservation. cbn [r_budget_id r_task_id r_currency settled_row].
  destruct (parseTypedID budgetIDKind _); [done|]. destruct (parseTypedID taskIDKind _); [done|].
  destruct (ParseCurrencyCode _); [done|]. intros [= <-]. by eexists.
Qed.

Lemma slots_settled r r' requested :
  res_Category r' = res_Category r -> res_ProviderCallSlots r' = res_ProviderCallSlots r ->
  normalizedActualProviderCallSlots r' requested = normalizedActualProviderCallSlots r requested.
Proof. intros H1 H2. unfold normalizedActualProviderCallSlots. by rewrite H1, H2. Qed.

Lemma find_snoc {A} (p : A -> bool) l a : find p l = None -> p a = true -> find p (l ++ [a]) = Some a.
Proof.
  induction l as [|b l IH]; simpl; [by intros _ ->|]. destruct (p b); [done|auto].
Qed.

Lemma exactCostEqual_refl c :
  0 <= Numerator c -> 0 < Denominator c -> glob_currency (Currency c) = true ->
  exactCostEqual (Some c) (Some c) = true.
Proof.
  intros H1 H2 H3. unfold exactCostEqual, normalizeExactCost.
  destruct (Z.ltb_spec (Numerator c) 0); [lia|]. destruct (Z.leb_spec (Denominator c) 0); [lia|].
  unfold glob_currency in H3. simpl. destruct (ParseCurrencyCode _); [done|].
  by apply bool_decide_eq_true.
Qed.

(** The posting of a settlement is found again under its identity. *)
Lemma find_posted d input r slots actual micros :
  findBudgetPostingByIdentity d (res_BudgetID r) (settle_ID input) (settle_IdempotencyKey input) = Ok None ->
  posting_checks json_valid (posted_row input r slots actual micros) = true ->
  is_ok (parseTypedID budgetIDKind (res_BudgetID r)) = true ->
  forall d', postings d' = postings d ++ [posted_row input r slots actual micros] ->
  exists existing,
    findBudgetPostingByIdentity d' (res_BudgetID r) (settle_ID input) (settle_IdempotencyKey input) =
      Ok (Some existing) /\
    posted_ReservationID existing = res_ID r /\ posted_BudgetID existing = res_BudgetID r /\
    exactCostEqual (posted_ActualCost existing) actual = true /\
    posted_ActualTokens existing = settle_ActualTokens input /\
    posted_ActualProviderCallSlots existing = slots.
Proof.
  unfold findBudgetPostingByIdentity. intros Hnone Hc Hid d' ->.
  set (p := posted_row _ _ _ _ _) in *.
  assert (by_identity p_budget_id p_id p_idempotency_key (res_BudgetID r) (settle_ID input)
            (settle_IdempotencyKey input) (postings d) = None) as Hby.
  { destruct (by_identity _ _ _ _ _ _ _); [|done]. destruct (parseTypedID _ _); [done|].
    by apply bind_Ok in Hnone as (? & _ & ?). }
  assert (by_identity p_budget_id p_id p_idempotency_key (res_BudgetID r) (settle_ID input)
            (settle_IdempotencyKey input) (postings d ++ [p]) = Some p) as ->.
  { unfold by_identity in *. destruct (find _ (postings d)) eqn:Hf; [done|].
    rewrite (find_snoc _ _ p); [done|done|]. simpl. by rewrite !String.eqb_refl. }
  change (p_budget_id p) with (res_BudgetID r). destruct (parseTypedID _ _) as [|id] eqn:Hparse; [done|].
  apply parseTypedID_Ok in Hparse as [-> _]. unfold posting_checks in Hc. to_prop. destruct_and!.
  destruct actual as [c|]; simpl in *.
  - unfold glob_currency in *. destruct (ParseCurrencyCode (Currency c)) as [|cur] eqn:Hpc; [done|].
    pose proof (ParseCurrencyCode_Ok _ _ Hpc) as Hcur. subst cur. simpl.
    eexists. split; [reflexivity|]. simpl. split_and!; try done.
    + destruct c as [n m cur]. apply exactCostEqual_refl; simpl in *; [lia..|].
      unfold glob_currency. by rewrite Hpc.
    + by destruct (settle_ActualTokens input).
  - eexists. split; [reflexivity|]. simpl. split_and!; try done.
    by destruct (settle_ActualTokens input).
Qed.

(** The request of a settlement is recognised in the tables it left. *)
Lemma settle_replayed now d input actual r s d' :
  ledger_inv d -> ledger_inv d' -> getBudgetReservation d (settle_ReservationID input) = Ok r ->
  findBudgetPostingByIdentity d (res_BudgetID r) (settle_ID input) (settle_IdempotencyKey input) = Ok None ->
  exceeds_int64 (settle_ActualTokens input) = false ->
  settle_active json_valid NewEventID now d input actual r = Ok (s, d') ->
  exists r' existing s', getBudgetReservation d' (settle_ReservationID input) = Ok r' /\
    findBudgetPostingByIdentity d' (res_BudgetID r') (settle_ID input) (settle_IdempotencyKey input) =
      Ok (Some existing) /\
    replay_posting d' input actual r' existing = Ok (s', d') /\
    (exactCostRat (snap_ReservedCost s') == exactCostRat (snap_ReservedCost s))%Q /\
    (exactCostRat (snap_ChargedCost s') == exactCostRat (snap_ChargedCost s))%Q /\
    snap_ReservedTokens s' = snap_ReservedTokens s /\ snap_ChargedTokens s' = snap_ChargedTokens s /\
    snap_ReconciliationPending s' = snap_ReconciliationPending s /\ snap_Revision s' = snap_Revision s.
Proof.
  intros Hinv Hinv' Hr' He Ht Hop. eapply settle_active_effect in Hop; [|done..].
  destruct Hop as (r0 & slots & micros & d1 & s1 & Hr0 & Hid0 & Hbid & Hrid & Hslots & Hc & Hres & Hpost &
    Hwf1 & Hs1 & Hsrev & Hss & Hb & Hl & Hrows).
  assert (find_reservation d' (settle_ReservationID input) =
          Some (settled_row "committed" "usage committed" (settle_ProvenanceJSON input) micros r0)) as Hfind.
  { apply (find_unique r_id); [apply Hinv'| |done]. rewrite Hres. apply list_elem_of_fmap.
    exists r0. split; [|done]. unfold settle_in. by rewrite String.eqb_refl. }
  unfold getBudgetReservation in Hr'.
  assert (find_reservation d (settle_ReservationID input) = Some r0) as Hfind0
    by (rewrite <- Hid0; by apply find_reservation_wf; [apply Hinv|]).
  rewrite Hfind0 in Hr'. pose proof Hr' as Hparse.
  eapply scan_settled in Hr' as (r' & Hr' & B1 & B2 & B3).
  destruct (find_posted d input r slots actual micros He Hc) with (d' := d')
    as (existing & F1 & F2 & F3 & F4 & F5 & F6); [|done|].
  { unfold scanBudgetReservation in Hparse.
    destruct (parseTypedID budgetIDKind (r_budget_id r0)) eqn:Hp; [done|]. by rewrite Hbid, Hp. }
  destruct (stored_readable d1 d' (res_BudgetID r) s1) as (s' & Hs' & V1 & V2 & V3 & V4 & V5 & V6); try done.
  { pose proof Hs1 as Hof. apply compute_snapshot_of in Hof as (b & l & Hof); [|done].
    destruct (find_budget_in _ _ _ (so_budget _ _ _ _ _ Hof)) as [Hbin Hbd]. rewrite <- Hb in Hbin.
    destruct (proj2 Hinv' b Hbin) as (_ & _ & _ & Hbelow & _). by rewrite Hbd in Hbelow. }
  exists r', existing, s'. unfold getBudgetReservation. rewrite Hfind, B1. split; [done|]. split; [done|].
  unfold replay_posting.
  rewrite (slots_settled r r') by done. rewrite Hslots. cbn [with_value mbind result_bind].
  rewrite F2, F4, F5, F6, <- Hrid, Hid0, String.eqb_refl, Z.eqb_refl. unfold sameTokenCount.
  rewrite bool_decide_eq_true_2 by done. cbn [negb orb refuse mbind result_bind].
  unfold latest. rewrite F3, Hs'. cbn [with_value mbind result_bind].
  rewrite Hss. simpl. rewrite <- Hsrev. by split_and!.
Qed.

(** ** Billed work that is owed *)

Lemma found_posting d budget id key existing :
  findBudgetPostingByIdentity d budget id key = Ok (Some existing) ->
  exists p, p ∈ postings d /\ posted_ReservationID existing = p_reservation_id p.
Proof.
  unfold findBudgetPostingByIdentity. destruct (by_identity _ _ _ _ _ _ _) as [p|] eqn:Hby; [|done].
  destruct (parseTypedID _ _); [done|]. intros (cost & _ & [= <-])%bind_Ok. exists p. split; [|done].
  unfold by_identity in Hby. apply list_elem_of_In.
  destruct (find _ (postings d)) eqn:Hfi; [injection Hby as <-|]; [by apply find_some in Hfi as []|].
  by apply find_some in Hby as [].
Qed.

(** A reservation that is neither active nor posted cannot be settled. *)
Lemma closed_unposted_refuses d r now input :
  ledger_inv d -> r ∈ reservations d -> r_state r <> "active" ->
  (forall p, p ∈ postings d -> p_reservation_id p <> r_id r) ->
  settle_ReservationID input = r_id r ->
  (SettleProviderBudget json_valid json_Valid map_order NewEventID now input d).1.2 <> None.
Proof.
  intros [Hwf _] Hr Hs Hp Hid. unfold SettleProviderBudget, err_guard.
  destruct (validateSettleProviderBudget _ _ _); [done|]. destruct (normalize_actual _) as [|actual]; [done|].
  unfold RunInTransaction. match goal with |- context [match ?op with _ => _ end] =>
    destruct op as [[? ?]|[? ?]] eqn:Hop end; [done|]. exfalso.
  apply bind_Ok in Hop as (read & Hread%with_value_Ok & Hop).
  apply getBudgetReservation_Ok in Hread as (r0 & Hr0 & Hid0 & _ & _ & _ & _ & Hst & _).
  assert (r0 = r) as -> by (apply (reservation_unique d); [done..|congruence]).
  apply bind_Ok in Hop as (existing & He%with_value_Ok & Hop). destruct existing as [existing|].
  - apply found_posting in He as (p & Hpin & Hpr). apply (Hp p Hpin).
    unfold replay_posting in Hop. skip_bind Hop. apply bind_Ok in Hop as (u & Hu%refuse_Ok & _).
    to_prop. destruct_and!. congruence.
  - unfold settle_active in Hop. cbn zeta in Hop. apply bind_Ok in Hop as (u & Hu%refuse_Ok & _).
    apply negb_false_iff, String.eqb_eq in Hu. apply Hs. by rewrite <- Hst.
Qed.

Lemma owed_refuses d r i now input :
  ledger_inv d -> r ∈ reservations d -> r_state r <> "committed" -> i ∈ intents d ->
  i_reservation_id i = r_id r -> reserve_BudgetID input = r_budget_id r ->
  (ReserveProviderBudget json_valid json_Valid map_order NewEventID now input d).1.2 <> None.
Proof.
  intros [Hwf Haccount] Hr Hs Hi Hk Hb.
  assert (pending_in d (r_budget_id r) = true) as Hpend.
  { apply existsb_exists. exists r. split; [by apply list_elem_of_In|]. rewrite String.eqb_refl.
    rewrite has_pending_intent_of, has_posting_of. unfold intent_of.
    rewrite (find_unique i_reservation_id _ i) by (done || apply Hwf).
    destruct (posting_of d (r_id r)) as [p|] eqn:Hp; [|done].
    by apply posting_of_wf in Hp as (_ & _ & _ & _ & Hp). }
  assert (forall s, computeBudgetSnapshot d (reserve_BudgetID input) = Ok s ->
            snap_ReconciliationPending s = true) as Hsnap.
  { intros s Hc. rewrite Hb in Hc. apply compute_snapshot_of in Hc as (b & l & Hof); [|done].
    by destruct (snapshot_sums _ _ _ _ _ Hwf Hof) as (_ & _ & _ & _ & ->). }
  unfold ReserveProviderBudget. destruct (validateReserveProviderBudget _ _ _) as [|cost]; [done|].
  unfold RunInTransaction. destruct (findBudgetReservationByIdentity _ _ _ _) as [|[existing|]]; [done|..].
  - cbn [with_value mbind result_bind]. unfold replay_reservation. destruct (refuse _ _ _) as [[v e]|u]; [done|].
    cbn [mbind result_bind]. destruct (computeBudgetSnapshot _ _) as [|s]; [done|].
    cbn [with_value mbind result_bind]. by rewrite (Hsnap s eq_refl).
  - cbn [with_value mbind result_bind]. unfold reserve_new.
    destruct (computeBudgetSnapshot _ _) as [|s]; [done|]. cbn [with_value mbind result_bind].
    unfold admit_reservation. rewrite (Hsnap s eq_refl). by destruct (negb _).
Qed.

End Ledger.
