(* ===== verification/BudgetSamples.v ===== *)
(** * A budget in use

    A task whose budget is created, reserved against, settled, owed and
    released, raised on approval: the concrete states on which the theorems of
    BudgetTheorems.v are instantiated. *)

From Stdlib Require Import Ascii QArith.
From S2P Require Import Prelude GoText GoErrors PolicyValues Identity Pricing States FixedPolicy.
From S2P Require Import BudgetSchema BudgetSnapshots BudgetLedger BudgetAccounts.
Open Scope string_scope.
Open Scope list_scope.
Open Scope go_scope.

Definition any_json (_ : string) : bool := true.
Definition in_order (labels : list (string * string * Z)) : list (string * string * Z) := labels.
Definition event_id (kind : string) : result error ID := Ok ("evt_" +:+ kind).

Definition sample_task : ID := "tsk_018bcfe5-6800-7fff-bfff-ffffffffffff".
Definition sample_budget : ID := "bdg_018bcfe5-6800-7fff-bfff-ffffffffffff".
Definition sample_approval : ID := "apr_018bcfe5-6800-7fff-bfff-ffffffffffff".

Definition usd (minor : Z) : Money := {| Money_Currency := "USD"; Money_MinorUnits := minor |}.
Definition cost (numerator denominator : Z) : ExactMinorCost := exact numerator denominator "USD".

Definition sample_limits : TaskBudget :=
  {| TaskBudget_ID := sample_budget; TaskBudget_WarningCost := usd 80;
     TaskBudget_HardStopCost := usd 100; TaskBudget_WarningTokens := 800;
     TaskBudget_HardStopTokens := 1000; TaskBudget_WarningWallClock := 1;
     TaskBudget_HardStopWallClock := 2; TaskBudget_MaximumProviderCalls := 10;
     TaskBudget_MaximumRepairRounds := 2; TaskBudget_MaximumToolExecutions := 5 |}.

Definition reserve_request (id : string) (revision tokens : Z) (bound : ExactMinorCost) : ReserveInput :=
  {| reserve_ID := id; reserve_BudgetID := sample_budget; reserve_ExpectedRevision := revision;
     reserve_OperationID := id; reserve_AttemptID := None; reserve_RetryOrdinal := 0;
     reserve_Category := BudgetCostModel; reserve_ProviderCallSlots := 1;
     reserve_CostBound := bound; reserve_TokenBound := Some tokens;
     reserve_IdempotencyKey := id; reserve_ProvenanceJSON := "{}" |}.

Definition settle_request : SettleInput :=
  {| settle_ID := "posting-1"; settle_ReservationID := "first"; settle_ActualCost := Some (cost 85 2);
     settle_ActualTokens := Some 500; settle_ActualProviderCallSlots := 1;
     settle_IdempotencyKey := "posting-1"; settle_ProvenanceJSON := "{}" |}.

Definition intent_request : IntentInput :=
  {| intent_ID := "intent-1"; intent_ReservationID := "second"; intent_ActualCost := Some (cost 7 1);
     intent_ActualTokens := Some 30; intent_ActualProviderCallSlots := 1;
     intent_ReasonRedacted := "settlement failed"; intent_IdempotencyKey := "intent-1";
     intent_ProvenanceJSON := "{}" |}.

Definition release_request (revision : Z) : ReleaseInput :=
  {| release_ReservationID := "second"; release_ExpectedRevision := revision;
     release_ReasonRedacted := "not started"; release_ProvenanceJSON := "{}" |}.

(** Microseconds since the epoch, as [time.Time] counts nanoseconds. *)
Definition at_micro (n : Z) : Z := 1700000000000000000 + n * 1000.

Definition reserving := ReserveProviderBudget any_json any_json in_order event_id.
Definition settling := SettleProviderBudget any_json any_json in_order event_id.
Definition releasing := ReleaseProviderBudget any_json any_json event_id.
Definition intending := RecordBudgetReconciliationIntent any_json any_json in_order event_id.

Definition sample_start : db :=
  {| tasks := [(sample_task, TaskStateDraft)]; runs := []; budgets := []; limit_revisions := [];
     reservations := []; postings := []; intents := []; budget_events := []; snapshots := [];
     task_events := []; approvals := []; adjustments := [] |}.

Definition sample_created : db :=
  Eval vm_compute in (CreateBudget any_json (at_micro 0) sample_task sample_limits sample_start).2.

(** One attempt of at most 40 cents and 400 tokens is reserved, and billed 42.5
    cents and 500 tokens. *)
Definition sample_reserved : db :=
  Eval vm_compute in (reserving (at_micro 1) (reserve_request "first" 0 400 (cost 40 1)) sample_created).2.
Definition sample_settled : db :=
  Eval vm_compute in (settling (at_micro 2) settle_request sample_reserved).2.

(** A second attempt is billed, its settlement is owed, and it is released. *)
Definition sample_second : db :=
  Eval vm_compute in
    (reserving (at_micro 3) (reserve_request "second" 2 100 (cost 50 3)) sample_settled).2.
Definition sample_owed : db :=
  Eval vm_compute in (intending (at_micro 4) intent_request sample_second).2.
Definition sample_released : db :=
  Eval vm_compute in (releasing (at_micro 5) (release_request 4) sample_owed).2.

(** The user approves twice the caps. *)
Definition approval_request : CreateApprovalInput :=
  {| request_ID := sample_approval; request_TaskID := sample_task; request_RunID := None;
     request_Scope :=
       BudgetRaiseApprovalScope sample_budget (cost 160 1) (cost 200 1) 1600 2000;
     request_RequestReason := "more budget"; request_IdempotencyKey := "approval-1";
     request_ExpiresAt := None |}.

Definition approval_decision : ResolveApprovalInput :=
  {| resolve_ID := sample_approval; resolve_ExpectedRevision := 0;
     resolve_To := ApprovalRequestStateGranted; resolve_ResolutionReason := "granted" |}.

Definition raise_request : RaiseInput :=
  {| raise_BudgetID := sample_budget; raise_ExpectedRevision := 2;
     raise_WarningCost := cost 160 1; raise_HardCost := cost 200 1; raise_WarningTokens := 1600;
     raise_HardTokens := 2000; raise_ApprovalID := sample_approval; raise_ActorKind := "user";
     raise_ActorReference := "owner"; raise_ReasonRedacted := "approved";
     raise_IdempotencyKey := "raise-1"; raise_ProvenanceJSON := "{}" |}.

Definition raising := RaiseProviderBudget any_json any_json in_order event_id.

Definition sample_requested : db :=
  Eval vm_compute in (CreateApproval (at_micro 3) approval_request sample_settled).2.
Definition sample_granted : db :=
  Eval vm_compute in (ResolveApproval (at_micro 4) approval_decision sample_requested).2.
Definition sample_raised : db :=
  Eval vm_compute in (raising (at_micro 5) raise_request sample_granted).2.
