(* ===== verification/BudgetTheorems.v ===== *)
(** * What the budget ledger promises

    The states the ledger's operations reach from empty tables, and what holds
    in all of them: the exposure of a budget stays within its hard caps but for
    what providers bill beyond the bound they were admitted with, the stored
    snapshot is the total of the tables, a settlement can be repeated, every
    raise of a cap rests on an approval of its own, and what is written stays. *)

From Stdlib Require Import Ascii QArith Qreduction Qabs Qminmax Lqa.
From S2P Require Import Prelude GoText GoErrors PolicyValues Identity Pricing States FixedPolicy.
From S2P Require Import BudgetSchema BudgetSnapshots BudgetLedger BudgetAccounts BudgetFacts.
From S2P Require Import BudgetInvariant BudgetSteps BudgetOperations BudgetSamples.
Open Scope string_scope.
Open Scope list_scope.
Open Scope go_scope.

Section Ledger.
Context (json_valid : string -> bool) (json_Valid : string -> bool).
Context (marshal_budget : TaskBudget -> string) (unmarshal_budget : string -> option TaskBudget).

(** ** The states the ledger reaches *)

(** The order in which a call ranges over the labels it validates, and the
    identities it makes for its events. *)
Abbreviation label_order := (list (string * string * Z) -> list (string * string * Z)).
Abbreviation event_ids := (string -> result error ID).

(** One call of one of the operations, with any arguments and any outcome, or a
    change of the tasks and runs by their own repositories. ([ReserveBudget] and
    [PostActualCost] of BudgetAccounts.v, which nothing in the program calls,
    are not among them.) *)
Inductive ledger_step (d : db) : db -> Prop :=
| step_create now task b : ledger_step d (CreateBudget json_valid now task b d).2
| step_adjust now input :
    ledger_step d (AdjustBudget json_valid marshal_budget unmarshal_budget now input d).2
| step_reserve (map_order : label_order) (NewEventID : event_ids) now input :
    ledger_step d (ReserveProviderBudget json_valid json_Valid map_order NewEventID now input d).2
| step_settle (map_order : label_order) (NewEventID : event_ids) now input :
    ledger_step d (SettleProviderBudget json_valid json_Valid map_order NewEventID now input d).2
| step_release (NewEventID : event_ids) now input :
    ledger_step d (ReleaseProviderBudget json_valid json_Valid NewEventID now input d).2
| step_intent (map_order : label_order) (NewEventID : event_ids) now input :
    ledger_step d
      (RecordBudgetReconciliationIntent json_valid json_Valid map_order NewEventID now input d).2
| step_raise (map_order : label_order) (NewEventID : event_ids) now input :
    ledger_step d (RaiseProviderBudget json_valid json_Valid map_order NewEventID now input d).2
| step_request now input : ledger_step d (CreateApproval now input d).2
| step_decide now input : ledger_step d (ResolveApproval now input d).2
| step_tasks ts rs : ledger_step d
    {| tasks := ts; runs := rs; budgets := budgets d; limit_revisions := limit_revisions d;
       reservations := reservations d; postings := postings d; intents := intents d;
       budget_events := budget_events d; snapshots := snapshots d; task_events := task_events d;
       approvals := approvals d; adjustments := adjustments d |}.

Definition empty_db : db :=
  {| tasks := []; runs := []; budgets := []; limit_revisions := []; reservations := [];
     postings := []; intents := []; budget_events := []; snapshots := []; task_events := [];
     approvals := []; adjustments := [] |}.

Definition reachable : db -> Prop := rtc ledger_step empty_db.

Lemma empty_inv : ledger_inv empty_db.
Proof.
  split; [|by intros b Hb%not_elem_of_nil].
  constructor; try apply NoDup_nil_2; by intros ? ?%not_elem_of_nil.
Qed.

Lemma step_inv d d' : ledger_inv d -> ledger_step d d' -> ledger_inv d'.
Proof.
  intros Hinv []; eauto using CreateBudget_inv, AdjustBudget_inv, ReserveProviderBudget_inv,
    SettleProviderBudget_inv, ReleaseProviderBudget_inv, RecordBudgetReconciliationIntent_inv,
    RaiseProviderBudget_inv.
  - destruct (CreateApproval_effect now input d) as [->| ->]; [done|]. by apply (inv_frame d).
  - destruct (ResolveApproval_effect now input d) as [->| ->]; [done|]. by apply (inv_frame d).
  - by apply (inv_frame d).
Qed.

Lemma reachable_inv d : reachable d -> ledger_inv d.
Proof.
  intros H. assert (forall d0, ledger_inv d0 -> rtc ledger_step d0 d -> ledger_inv d) as Hall.
  { intros d0 H0. induction 1; eauto using step_inv. }
  apply (Hall empty_db); [apply empty_inv|done].
Qed.

(** ** The caps *)

(** A budget's exposure is what it holds and what its attempts overran. *)
Lemma exposure_le bound posted billed `{!Measure bound posted billed} d budget :
  wf d ->
  (of_budget (reserved_part bound) d budget + of_budget (charged_part posted billed) d budget <=
   of_budget (held bound posted billed) d budget + of_budget (overrun bound posted billed) d budget)%Q.
Proof.
  intros Hwf. rewrite <- !of_budget_add. apply of_budget_le. intros r Hr _.
  pose proof (bound_nonneg r (proj1 (wf_reservations d Hwf r Hr))) as Hb.
  unfold overrun. set (c := charged_part posted billed d r).
  pose proof (Q.le_max_l 0 (c - bound r)) as M1. pose proof (Q.le_max_r 0 (c - bound r)) as M2.
  unfold held, reserved_part. destruct (String.eqb_spec (r_state r) "active") as [Ha|]; simpl.
  - destruct (has_pending_intent d (r_id r)) eqn:Hp; simpl; [lra|].
    assert (c = 0%Q) as Hc; [|rewrite Hc in *; lra].
    unfold c, charged_part. pose proof (active_not_posted d r Hwf Hr Ha) as Hn. rewrite Hn.
    rewrite has_pending_intent_of, has_posting_of, Hn in Hp.
    destruct (intent_of d (r_id r)); [done|reflexivity].
  - fold c. destruct (Q.min_spec c (bound r)) as [[? ->]|[? ->]]; lra.
Qed.

(** [C6] The hard caps hold. Whatever the operations of the ledger do to the
    tables, in whatever order and with whatever arguments, the cost a budget has
    reserved and been charged, as its snapshot states it, is at most the hard cost
    cap of its latest limit revision plus what attempts were billed beyond the
    bounds they had reserved; and likewise the tokens. So a budget is exceeded
    only by a provider that bills more than the bound it was admitted with. *)
Theorem exposure_within_hard_caps d budget s :
  reachable d -> computeBudgetSnapshot d budget = Ok s ->
  (exactCostRat (snap_ReservedCost s) + exactCostRat (snap_ChargedCost s) <=
   exactCostRat (snap_HardCost s) +
   of_budget (overrun bound_cost posted_cost billed_cost) d budget)%Q /\
  (inject_Z (snap_ReservedTokens s + snap_ChargedTokens s) <=
   inject_Z (snap_HardTokens s) +
   of_budget (overrun bound_tokens posted_tokens billed_tokens) d budget)%Q.
Proof.
  intros Hinv%reachable_inv Hs. pose proof (proj1 Hinv) as Hwf.
  apply compute_snapshot_of in Hs as (b & l & Hs); [|done].
  destruct (account_limit _ _ _ _ _ Hinv Hs) as (Hb & Hid & [C1 C2 C3] & _).
  destruct (proj2 Hinv b Hb) as (_ & _ & _ & Ht & _). rewrite Hid in Ht.
  destruct (snapshot_sums _ _ _ _ _ Hwf Hs) as (S1 & S2 & _).
  destruct (snapshot_tokens _ _ _ _ _ Hwf Hs) as [T1 T2]; [by apply (below_le (2 ^ 63)); [lia|]|].
  pose proof (exposure_le bound_cost posted_cost billed_cost d budget Hwf).
  pose proof (exposure_le bound_tokens posted_tokens billed_tokens d budget Hwf).
  rewrite (so_hard _ _ _ _ _ Hs), (so_hard_tokens _ _ _ _ _ Hs), inject_Z_plus, S1, S2, T1, T2.
  unfold reserved_costs, charged_costs, reserved_token_sum, charged_token_sum in *.
  change (exactCostRat (exact (l_hard_numerator l) (l_hard_denominator l) (l_currency l)))
    with (limit_cost l). split; lra.
Qed.

(** ** The stored snapshot *)

(** [C7] The snapshot of a task's budget is up to date: what [GetBudgetSnapshot]
    returns, which it reads from the snapshot rows, are the totals of the
    reservations, billed attempts and postings in the tables, under the latest
    limit revision and the budget's own revision, and it says that
    reconciliation is pending exactly when some billed attempt of the budget is
    not posted. *)
Theorem snapshot_refines_tables d task s :
  reachable d -> GetBudgetSnapshot task d = Ok s ->
  exists b l, find_budget d (snap_BudgetID s) = Some b /\ latest_limit d (b_id b) = Some l /\
    b_task_id b = task /\ snap_TaskID s = task /\ snap_Revision s = b_revision b /\
    snap_HardCost s = exact (l_hard_numerator l) (l_hard_denominator l) (b_currency b) /\
    snap_HardTokens s = l_hard_tokens l /\
    (exactCostRat (snap_ReservedCost s) == of_budget (reserved_part bound_cost) d (b_id b))%Q /\
    (exactCostRat (snap_ChargedCost s) ==
       of_budget (charged_part posted_cost billed_cost) d (b_id b))%Q /\
    (inject_Z (snap_ReservedTokens s) == of_budget (reserved_part bound_tokens) d (b_id b))%Q /\
    (inject_Z (snap_ChargedTokens s) ==
       of_budget (charged_part posted_tokens billed_tokens) d (b_id b))%Q /\
    snap_ReconciliationPending s =
      existsb (fun r => (r_budget_id r =? b_id b) && has_pending_intent d (r_id r)) (reservations d).
Proof.
  intros Hinv%reachable_inv. unfold GetBudgetSnapshot. destruct (IsZero task); [done|].
  destruct (find (fun b => b_task_id b =? task) (budgets d)) as [b|] eqn:Hf; [|done].
  apply (find_key b_task_id) in Hf as [Hb Htask].
  destruct (parseTypedID _ _) eqn:Hid; [done|]. apply parseTypedID_Ok in Hid as [-> _].
  intros (s0 & H0 & (s1 & H1 & (cs & _ & [= <-])%bind_Ok)%bind_Ok)%bind_Ok.
  apply scan_latest_Ok in H0 as (b' & l & row & Hb' & Hid & Hc & _ & [] & Hbid & Hr & Ht & Hlr & _ & Hh & Hht &
    E1 & E2 & E3 & E4 & E5); [|done|by exists b].
  assert (b' = b) as -> by (apply (NoDup_key_eq b_id (budgets d)); [apply Hinv|done..]).
  assert (s1 = s0) as ->.
  { rewrite Hr, st_revision, Z.eqb_refl in H1. simpl in H1. congruence. }
  exists b, l. simpl. rewrite Hh, Hht, E1, E2, E3, E4, E5, Hbid, Hr, Ht.
  split_and!; try done; try congruence; [|apply Hc]. by apply find_budget_wf; [apply Hinv|].
Qed.

Lemma step_approved d d' : ledger_inv d -> approved d -> ledger_step d d' -> approved d'.
Proof.
  pose proof approved_kept as Hc. intros Hinv Hd [];
    try first [ by apply CreateBudget_approved | by apply ReserveProviderBudget_kept
              | by apply SettleProviderBudget_kept | by apply ReleaseProviderBudget_kept
              | by apply RecordBudgetReconciliationIntent_kept | exact Hd ].
  - unfold AdjustBudget. cbn zeta. destruct (_ || _); [done|]. destruct (negb _); [done|].
    destruct (validateBounded _ _ _); [done|]. destruct (_ || _); [done|].
    apply transaction_keeps; [done|]. intros v d1 (existing & _ & H)%bind_Ok. destruct existing.
    + skip_bind H. skip_bind H. by injection H as _ <-.
    + by eapply adjust_new_approved.
  - unfold RaiseProviderBudget. destruct (validateRaiseProviderBudget _ _ _) as [|[warning hard]]; [done|].
    apply transaction_keeps; [done|]. intros v d1 H. destruct (find _ _).
    + by apply replay_raise_same in H as ->.
    + by eapply raise_limit_approved.
  - destruct (CreateApproval_effect now input d) as [->| ->]; [done|]. destruct Hd as [H1 H2].
    split; [|done]. intros l Hl. apply (backed_mono d); [|by intros b Hb; exists b|by apply H1].
    intros a Ha _. apply elem_of_app. by left.
  - destruct (ResolveApproval_effect now input d) as [->| ->]; [done|]. destruct Hd as [H1 H2].
    split; [|done]. intros l Hl. apply (backed_mono d); [|by intros b Hb; exists b|by apply H1].
    intros a Ha Hg. assert (decide_in input (UnixMicro now) a = a) as Hsame.
    { unfold decide_in. rewrite Hg. by rewrite andb_false_r. }
    simpl. rewrite <- Hsame. by apply list_elem_of_fmap_2.
Qed.

Lemma step_entered d d' : ledger_step d d' -> entered d d'.
Proof.
  pose proof (entered_kept json_valid d) as Hc. assert (entered d d) as Hd by (intros l; by left). intros [];
    try first [ by apply CreateBudget_entered | by apply ReserveProviderBudget_kept
              | by apply SettleProviderBudget_kept | by apply ReleaseProviderBudget_kept
              | by apply RecordBudgetReconciliationIntent_kept | exact Hd ].
  - unfold AdjustBudget. cbn zeta. destruct (_ || _); [done|]. destruct (negb _); [done|].
    destruct (validateBounded _ _ _); [done|]. destruct (_ || _); [done|].
    apply transaction_keeps; [done|]. intros v d1 (existing & _ & H)%bind_Ok. destruct existing.
    + skip_bind H. skip_bind H. by injection H as _ <-.
    + by eapply adjust_new_entered.
  - unfold RaiseProviderBudget. destruct (validateRaiseProviderBudget _ _ _) as [|[warning hard]]; [done|].
    apply transaction_keeps; [done|]. intros v d1 H. destruct (find _ _).
    + by apply replay_raise_same in H as ->.
    + by eapply raise_limit_entered.
  - by destruct (CreateApproval_effect now input d) as [->| ->].
  - by destruct (ResolveApproval_effect now input d) as [->| ->].
Qed.

(** [C19] Every raise of a cap is approved, and every approval is spent once. In
    every state the ledger reaches, a limit revision that names an approval
    names a granted one of the budget's task, whose scope is exactly the
    revision's warning and hard limits in cost and tokens; and no approval
    backs two revisions. A revision that names none says that it comes from the
    policy of the task or the user's adjustment, and whatever the next operation
    is, it adds such a revision only as the first one of a budget it creates, or
    to a budget whose task is still in draft, forecasting or awaiting the
    approval of its plan. *)
Theorem every_raise_is_approved d :
  reachable d ->
  (forall l, l ∈ limit_revisions d -> backed d l) /\ NoDup (omap l_approval_id (limit_revisions d)) /\
  (forall d' l, ledger_step d d' -> l ∈ limit_revisions d' -> l ∉ limit_revisions d ->
     l_approval_id l = None -> unapproved d l).
Proof.
  assert (forall d0, ledger_inv d0 /\ approved d0 -> rtc ledger_step d0 d -> approved d) as Hall.
  { intros d0 H0. induction 1 as [|d1 d2 d3 Hs _ IH]; [apply H0|]. apply IH. destruct H0.
    split; [by eapply step_inv|by eapply step_approved]. }
  intros H. destruct (Hall empty_db) as [H1 H2]; [|done|].
  { split; [apply empty_inv|]. split; [by intros l Hl%not_elem_of_nil|apply NoDup_nil_2]. }
  split; [done|]. split; [done|]. intros d' l Hs%step_entered Hl Hnew.
  by destruct (Hs l Hl) as [?|Hg].
Qed.

(** A settlement can be repeated. When [SettleProviderBudget] has
    succeeded, calling it again with the same request, at any later time and as
    the next call, succeeds as well, changes nothing in the tables and reports
    the same charges, reservations and budget revision: a caller that lost the
    answer never posts its usage twice. *)
Theorem settlement_can_be_repeated (order order' : label_order) (ids ids' : event_ids)
    d now now' input s d' :
  (forall labels, order labels ≡ₚ labels) -> (forall labels, order' labels ≡ₚ labels) ->
  reachable d ->
  SettleProviderBudget json_valid json_Valid order ids now input d = (s, None, d') ->
  exists s', SettleProviderBudget json_valid json_Valid order' ids' now' input d' = (s', None, d') /\
    (exactCostRat (snap_ReservedCost s') == exactCostRat (snap_ReservedCost s))%Q /\
    (exactCostRat (snap_ChargedCost s') == exactCostRat (snap_ChargedCost s))%Q /\
    snap_ReservedTokens s' = snap_ReservedTokens s /\ snap_ChargedTokens s' = snap_ChargedTokens s /\
    snap_ReconciliationPending s' = snap_ReconciliationPending s /\ snap_Revision s' = snap_Revision s.
Proof.
  intros Ho Ho' Hinv%reachable_inv H.
  pose proof (SettleProviderBudget_inv json_valid json_Valid order ids now input d Hinv) as Hinv'.
  rewrite H in Hinv'. simpl in Hinv'. unfold SettleProviderBudget, err_guard in *.
  destruct (validateSettleProviderBudget json_Valid order input) eqn:Hv; [done|].
  rewrite (settle_validated json_Valid order order') by done.
  destruct (normalize_actual _) as [|actual]; [done|]. unfold RunInTransaction in *.
  match type of H with match ?op with _ => _ end = _ => destruct op as [[? ?]|[? ?]] eqn:Hop end; [done|].
  injection H as -> ->. apply bind_Ok in Hop as (r & Hr & Hop).
  apply bind_Ok in Hop as (existing & He & Hop). destruct existing as [existing|].
  - assert (d' = d) as ->.
    { unfold replay_posting in Hop. do 2 skip_bind Hop. by apply latest_same in Hop. }
    exists s. rewrite Hr. cbn [mbind result_bind]. rewrite He. cbn [mbind result_bind]. rewrite Hop.
    by split_and!.
  - apply with_value_Ok in Hr, He.
    eapply settle_replayed in Hop as (r' & existing & s' & H1 & H2 & H3 & Hvalues);
      [|done..|by eapply validated_tokens].
    exists s'. rewrite H1. cbn [with_value mbind result_bind]. rewrite H2.
    cbn [with_value mbind result_bind]. rewrite H3. done.
Qed.

(** ** The trail of the ledger *)

(** Everything but the open reservations, the heads of the budgets and the
    approvals is still there as it was written. *)
Record trail_kept (d d' : db) : Prop := {
  trail_reservations r : r ∈ reservations d -> r_state r <> "active" -> r ∈ reservations d';
  trail_postings p : p ∈ postings d -> p ∈ postings d';
  trail_intents i : i ∈ intents d -> i ∈ intents d';
  trail_limits l : l ∈ limit_revisions d -> l ∈ limit_revisions d';
  trail_snapshots s : s ∈ snapshots d -> s ∈ snapshots d';
  trail_events e : e ∈ budget_events d -> e ∈ budget_events d';
  trail_task_events e : e ∈ task_events d -> e ∈ task_events d';
  trail_adjustments a : a ∈ adjustments d -> a ∈ adjustments d';
}.

Lemma elem_of_snoc {A} (l : list A) a b : a ∈ l -> a ∈ l ++ [b].
Proof. intros H. apply elem_of_app. by left. Qed.

Ltac trail := let H := fresh in intros H; destruct H; constructor; simpl; auto using elem_of_snoc.

Lemma trail_insert_limit d0 d l d' :
  trail_kept d0 d -> insert_limit json_valid d l = Ok d' -> trail_kept d0 d'.
Proof. intros H [-> _]%insert_limit_Ok. revert H. trail. Qed.

Lemma trail_statements d0 : statements_keep json_valid (trail_kept d0).
Proof.
  split.
  - intros d r d' H [-> _]%insert_reservation_Ok. revert H. trail.
  - intros d id revision change changed d' [] Hu. unfold update_reservation in Hu. if_cases Hu.
    injection Hu as _ <-. constructor; try assumption. simpl. intros r Hr Hs.
    apply list_elem_of_fmap. exists r. split; [|by apply trail_reservations0].
    apply String.eqb_neq in Hs. by rewrite Hs, andb_false_r.
  - intros d p d' H [-> _]%insert_posting_Ok. revert H. trail.
  - intros d i d' H [-> _]%insert_intent_Ok. revert H. trail.
  - intros d e changed d' H He. unfold insert_event, err_guard in He. destruct (check_all _); [done|].
    destruct (existsb _ _); [by injection He as _ <-|]. destruct (check_all _); [done|].
    injection He as _ <-. revert H. trail.
  - intros d e d' H He. unfold insert_task_event in He. apply check_all_Ok in He as [-> _].
    revert H. trail.
  - intros d s d' H [-> _]%insert_snapshot_Ok. revert H. trail.
  - intros d r d' H ->%insert_adjustment_same. revert H. trail.
  - intros d id revision change changed d' Hk H Hu. unfold update_budget in Hu. if_cases Hu.
    injection Hu as _ <-. revert H. trail.
Qed.

Lemma trail_refl d : trail_kept d d.
Proof. by constructor. Qed.

Lemma step_trail d d' : ledger_step d d' -> trail_kept d d'.
Proof.
  pose proof (trail_statements d) as Hk. pose proof (trail_refl d) as Hd.
  pose proof (trail_insert_limit d) as Hl. intros [];
    try first [ by apply ReserveProviderBudget_kept | by apply SettleProviderBudget_kept
              | by apply ReleaseProviderBudget_kept | by apply RecordBudgetReconciliationIntent_kept ].
  - unfold CreateBudget. destruct (IsZero task); [done|]. destruct (TaskBudget_Validate b); [done|].
    destruct (_ || _); [done|]. cbn zeta. apply transaction_keeps; [done|].
    intros v d3 (d1 & H1%with_value_Ok%writing_Ok & [= _ <-])%bind_Ok.
    unfold insert_budget, err_guard in H1. destruct (check_all _); [done|].
    apply bind_Ok in H1 as (d2 & Hi & Hs). eapply (keep_snapshot _ _ Hk); [|exact Hs].
    eapply Hl; [|exact Hi]. revert Hd. trail.
  - unfold AdjustBudget. cbn zeta. destruct (_ || _); [done|]. destruct (negb _); [done|].
    destruct (validateBounded _ _ _); [done|]. destruct (_ || _); [done|].
    apply transaction_keeps; [done|]. intros v d1 (existing & _ & H)%bind_Ok. destruct existing.
    + do 2 skip_bind H. by injection H as _ <-.
    + by eapply adjust_new_kept.
  - unfold RaiseProviderBudget. destruct (validateRaiseProviderBudget _ _ _) as [|[warning hard]]; [done|].
    apply transaction_keeps; [done|]. intros v d1 H. destruct (find _ _).
    + by apply replay_raise_same in H as ->.
    + by eapply raise_limit_kept.
  - destruct (CreateApproval_effect now input d) as [->| ->]; [done|]. revert Hd. trail.
  - destruct (ResolveApproval_effect now input d) as [->| ->]; [done|]. revert Hd. trail.
  - revert Hd. trail.
Qed.

Lemma trail_rtc d d' : rtc ledger_step d d' -> trail_kept d d'.
Proof.
  induction 1 as [d|d1 d2 d3 Hs _ IH]; [apply trail_refl|]. apply step_trail in Hs.
  destruct Hs, IH. constructor; auto.
Qed.

(** [C20] The ledger is append-only. Whatever operations follow, a settled or
    released reservation, a posting, a billed attempt, a limit revision, a
    snapshot, an event and a budget adjustment stay in their tables exactly as
    they were written. *)
Theorem ledger_is_append_only d d' : rtc ledger_step d d' -> trail_kept d d'.
Proof. apply trail_rtc. Qed.

(** [C38] A released reservation whose billed usage was never posted blocks its
    budget for good. When a billed attempt has been recorded for a reservation
    and the reservation is then released, which [ReleaseProviderBudget] allows,
    then whatever else happens, the usage is never posted: the tables hold no
    posting for the reservation and every settlement of it is refused; and every
    later reservation on the budget, new or repeated, is refused. *)
Theorem released_billed_reservation_blocks_budget d d' r i :
  reachable d -> r ∈ reservations d -> r_state r = "released" ->
  i ∈ intents d -> i_reservation_id i = r_id r -> rtc ledger_step d d' ->
  (forall p, p ∈ postings d' -> p_reservation_id p <> r_id r) /\
  (forall (order : label_order) (ids : event_ids) now input, settle_ReservationID input = r_id r ->
     (SettleProviderBudget json_valid json_Valid order ids now input d').1.2 <> None) /\
  (forall (order : label_order) (ids : event_ids) now input, reserve_BudgetID input = r_budget_id r ->
     (ReserveProviderBudget json_valid json_Valid order ids now input d').1.2 <> None).
Proof.
  intros Hd Hr Hs Hi Hk Hrtc. assert (ledger_inv d') as Hinv.
  { apply reachable_inv. unfold reachable in *. by etrans. }
  destruct (trail_rtc d d' Hrtc).
  assert (r ∈ reservations d') as Hr' by (apply trail_reservations0; [done|by rewrite Hs]).
  assert (forall p, p ∈ postings d' -> p_reservation_id p <> r_id r) as Hnone.
  { intros p Hp He. destruct (wf_postings d' (proj1 Hinv) p Hp) as (_ & r0 & (Hr0 & Hid & _) & Hst).
    assert (r0 = r) as -> by (apply (reservation_unique d'); [apply Hinv|done..|congruence]). congruence. }
  split_and!; [done| |].
  - intros order ids now input Hid. apply (closed_unposted_refuses _ _ _ _ d' r); auto. by rewrite Hs.
  - intros order ids now input Hb. apply (owed_refuses _ _ _ _ d' r i); auto. by rewrite Hs.
Qed.
End Ledger.

(** ** The sample budget *)

Definition sample_marshal (_ : TaskBudget) : string := "{}".
Definition sample_unmarshal (_ : string) : option TaskBudget := Some sample_limits.
Abbreviation sample_step := (ledger_step any_json any_json sample_marshal sample_unmarshal).
Abbreviation sample_reachable := (reachable any_json any_json sample_marshal sample_unmarshal).

(** A state that evaluates to the outcome of a step. *)
Lemma step_to d d' d'' : sample_step d d'' -> d' = d'' -> sample_step d d'.
Proof. by intros H ->. Qed.

Lemma reachable_next d d' : sample_reachable d -> sample_step d d' -> sample_reachable d'.
Proof. apply rtc_r. Qed.

Ltac evaluate := vm_compute; reflexivity.

Lemma sample_reserved_reachable : sample_reachable sample_reserved.
Proof.
  eapply reachable_next; [eapply reachable_next; [eapply reachable_next; [apply rtc_refl|]|]|].
  - eapply (step_to _ sample_start); [by apply (step_tasks _ _ _ _ _ (tasks sample_start) [])|evaluate].
  - eapply (step_to _ sample_created); [by apply (step_create _ _ _ _ _ (at_micro 0) sample_task sample_limits)|evaluate].
  - eapply step_to; [by apply (step_reserve _ _ _ _ _ in_order event_id (at_micro 1)
                                  (reserve_request "first" 0 400 (cost 40 1)))|evaluate].
Qed.

Lemma sample_settled_reachable : sample_reachable sample_settled.
Proof.
  eapply reachable_next; [apply sample_reserved_reachable|].
  eapply step_to; [by apply (step_settle _ _ _ _ _ in_order event_id (at_micro 2) settle_request)|evaluate].
Qed.

Lemma sample_released_reachable : sample_reachable sample_released.
Proof.
  eapply reachable_next; [eapply reachable_next; [eapply reachable_next; [apply sample_settled_reachable|]|]|].
  - eapply (step_to _ sample_second); [by apply (step_reserve _ _ _ _ _ in_order event_id (at_micro 3)
                                  (reserve_request "second" 2 100 (cost 50 3)))|evaluate].
  - eapply (step_to _ sample_owed); [by apply (step_intent _ _ _ _ _ in_order event_id (at_micro 4) intent_request)|evaluate].
  - eapply step_to; [by apply (step_release _ _ _ _ _ event_id (at_micro 5) (release_request 4))|evaluate].
Qed.

Lemma sample_raised_reachable : sample_reachable sample_raised.
Proof.
  eapply reachable_next; [eapply reachable_next; [eapply reachable_next; [apply sample_settled_reachable|]|]|].
  - eapply (step_to _ sample_requested); [by apply (step_request _ _ _ _ _ (at_micro 3) approval_request)|evaluate].
  - eapply (step_to _ sample_granted); [by apply (step_decide _ _ _ _ _ (at_micro 4) approval_decision)|evaluate].
  - eapply step_to; [by apply (step_raise _ _ _ _ _ in_order event_id (at_micro 5) raise_request)|evaluate].
Qed.

Ltac evaluated H := vm_compute in H; first [discriminate H | injection H as <-; reflexivity].

Lemma exposure_within_hard_caps_witness :
  exists s, computeBudgetSnapshot sample_settled sample_budget = Ok s /\ snap_ChargedTokens s = 500 /\
    (exactCostRat (snap_ReservedCost s) + exactCostRat (snap_ChargedCost s) <=
     exactCostRat (snap_HardCost s) +
     of_budget (overrun bound_cost posted_cost billed_cost) sample_settled sample_budget)%Q.
Proof.
  destruct (computeBudgetSnapshot sample_settled sample_budget) as [|s] eqn:H; [evaluated H|].
  exists s. split; [reflexivity|]. split; [evaluated H|].
  apply (exposure_within_hard_caps any_json any_json sample_marshal sample_unmarshal _ _ _
           sample_settled_reachable H).
Defined.

Lemma snapshot_refines_tables_witness :
  exists s, GetBudgetSnapshot sample_task sample_released = Ok s /\
    snap_ReconciliationPending s = true /\
    exists b, find_budget sample_released (snap_BudgetID s) = Some b /\ b_task_id b = sample_task /\
      snap_Revision s = b_revision b.
Proof.
  destruct (GetBudgetSnapshot sample_task sample_released) as [|s] eqn:H; [evaluated H|].
  exists s. split; [reflexivity|].
  destruct (snapshot_refines_tables any_json any_json sample_marshal sample_unmarshal _ _ _
              sample_released_reachable H) as (b & l & Hb & _ & Ht & _ & Hr & _).
  split; [evaluated H|]. exists b. split; [exact Hb|]. split; [exact Ht|exact Hr].
Defined.

Lemma every_raise_is_approved_witness :
  exists l, l ∈ limit_revisions sample_raised /\ l_approval_id l = Some sample_approval /\
    backed sample_raised l.
Proof.
  destruct (limit_revisions sample_raised) as [|l1 [|l2 ls]] eqn:H;
    [vm_compute in H; discriminate H..|].
  destruct (every_raise_is_approved any_json any_json sample_marshal sample_unmarshal _
              sample_raised_reachable) as (Hb & _ & _).
  exists l2. split; [right; left|]. split; [vm_compute in H; injection H as _ <- _; reflexivity|]. apply Hb. rewrite H. right. left.
Defined.

Lemma settlement_can_be_repeated_witness :
  exists s s', settling (at_micro 2) settle_request sample_reserved = (s, None, sample_settled) /\
    settling (at_micro 9) settle_request sample_settled = (s', None, sample_settled) /\
    snap_ChargedTokens s' = snap_ChargedTokens s.
Proof.
  destruct (settling (at_micro 2) settle_request sample_reserved) as [[s e] d'] eqn:H.
  assert (e = None /\ d' = sample_settled) as [-> ->].
  { vm_compute in H. injection H as _ <- <-. split; [reflexivity|vm_compute; reflexivity]. }
  destruct (settlement_can_be_repeated any_json any_json sample_marshal sample_unmarshal
              in_order in_order event_id event_id _ _ (at_micro 9) _ _ _
              (fun l => Permutation_refl l) (fun l => Permutation_refl l)
              sample_reserved_reachable H) as (s' & Hs' & _ & _ & _ & Hc & _).
  exists s, s'. split; [reflexivity|]. split; [exact Hs'|exact Hc].
Defined.

Lemma ledger_is_append_only_witness :
  sample_step sample_settled sample_second /\
  forall p, p ∈ postings sample_settled -> p ∈ postings sample_second.
Proof.
  assert (sample_step sample_settled sample_second) as Hs.
  { eapply step_to; [by apply (step_reserve _ _ _ _ _ in_order event_id (at_micro 3)
                                  (reserve_request "second" 2 100 (cost 50 3)))|evaluate]. }
  split; [exact Hs|].
  destruct (ledger_is_append_only any_json any_json sample_marshal sample_unmarshal _ _
              (rtc_once _ _ Hs)) as [_ Hp _ _ _ _ _ _]. exact Hp.
Defined.

Lemma released_billed_reservation_blocks_budget_witness :
  exists r i, r ∈ reservations sample_released /\ r_state r = "released" /\
    i ∈ intents sample_released /\ i_reservation_id i = r_id r /\
    (reserving (at_micro 6) (reserve_request "third" 5 1 (cost 1 1)) sample_released).1.2 <> None.
Proof.
  destruct (reservations sample_released) as [|r1 [|r2 rs]] eqn:Hr; [vm_compute in Hr; discriminate Hr..|].
  destruct (intents sample_released) as [|i rest] eqn:Hi; [vm_compute in Hi; discriminate Hi|].
  assert (r_state r2 = "released" /\ i_reservation_id i = r_id r2 /\ r_budget_id r2 = sample_budget)
    as (Hs & Hk & Hb).
  { vm_compute in Hr, Hi. injection Hr as _ <- _. injection Hi as <- _. repeat split. }
  exists r2, i. split; [right; left|]. split; [exact Hs|]. split; [left|]. split; [exact Hk|].
  assert (r2 ∈ reservations sample_released) as Hr2 by (rewrite Hr; right; left).
  assert (i ∈ intents sample_released) as Hi' by (rewrite Hi; left).
  destruct (released_billed_reservation_blocks_budget any_json any_json sample_marshal sample_unmarshal
    sample_released sample_released r2 i sample_released_reachable Hr2 Hs Hi' Hk (rtc_refl _ _)) as (_ & _ & H).
  apply H. rewrite Hb. reflexivity.
Defined.
