(* ===== verification/ProviderMetadata.v ===== *)
(** * Provider streams and the metadata that may be kept
    (src/internal/providers/stream.go and metadata.go)

    The events a provider's stream delivers, and the bounds and the redaction
    that a provider's own texts pass before anything keeps them. *)

From Stdlib Require Import Ascii.
From S2P Require Import Prelude GoText GoErrors PolicyValues ProviderTypes Pricing GoPath GoRegexp.
From S2P Require Import AgentTypes Retry.
Open Scope string_scope.
Open Scope list_scope.
Open Scope go_scope.

(** ** Stream events *)

Abbreviation StreamEventKind := string (only parsing).
Definition StreamEventTextDelta : StreamEventKind := "text-delta".
Definition StreamEventToolCallDelta : StreamEventKind := "tool-call-delta".
Definition StreamEventToolCall : StreamEventKind := "tool-call".
Definition StreamEventUsage : StreamEventKind := "usage".
Definition StreamEventMetadata : StreamEventKind := "metadata".
Definition StreamEventFinal : StreamEventKind := "final".

Record ToolCallDelta := {
  Delta_Index : Z;
  Delta_ID : string;
  Delta_Name : string;
  Delta_ArgumentsFragment : string;
}.

Record FinalResponse := {
  Final_Identity : ModelIdentity;
  Final_StopReason : string;
  Final_Usage : Usage;
  Final_Metadata : RedactedProviderMetadata;
  Final_PartialEffect : PartialEffectEvidence;
}.

(** A time is its nanoseconds; the zero time is 0. *)
Record StreamEvent := {
  Event_Sequence : Z;
  Event_Kind : StreamEventKind;
  Event_Text : string;
  Event_ToolCallDelta : option ToolCallDelta;
  Event_ToolCall : option ToolCall;
  Event_Usage : option Usage;
  Event_Metadata : option RedactedProviderMetadata;
  Event_Final : option FinalResponse;
  Event_ObservedAt : Z;
}.

(** ** Metadata *)

Definition maximumProviderMetadataFields : Z := 32.
Definition maximumProviderMetadataKey : Z := 64.
Definition maximumProviderMetadataValue : Z := 512.
Definition maximumProviderIdentifier : Z := 512.

Definition ErrUnsafeProviderMetadata : string := "provider metadata is not safe to retain".

Definition key_char (c : ascii) : bool :=
  alnum c || Ascii.eqb c "_" || Ascii.eqb c "-" || Ascii.eqb c ".".

(** A rune beyond ASCII is no character of a key, and neither is any of its
    bytes. *)
Definition validProviderMetadataKey (value : string) : bool :=
  negb ((value =? "") || longer_than maximumProviderMetadataKey value) &&
  forallb key_char (String.list_ascii_of_string value).

(** [unicode.IsControl]. *)
Definition IsControl (r : rune) : bool :=
  match r with
  | String c EmptyString => (N_of_ascii c <? 32)%N || (N_of_ascii c =? 127)%N
  | String c (String d EmptyString) => (N_of_ascii c =? 194)%N && in_range 128 159 (N_of_ascii d)
  | _ => false
  end.

(** [strings.Map] with a function that drops the control characters. *)
Definition drop_control (s : string) : string :=
  text (List.filter (fun r => negb (IsControl r)) (runes s)).

Section Sanitize.
(** The callback is a closure of its caller, which keeps its own state. *)
Context {S : Type} (redact : string -> S -> string * S).

Definition sanitizeProviderMetadataValue (label value : string) (maximum : Z) (s : S)
    : result error string * S :=
  if longer_than (maximum * 4) value then
    (Err (sentinel_text ErrUnsafeProviderMetadata (label +:+ " input exceeds pre-redaction bounds")), s)
  else
    let '(redacted, s) := redact value s in
    let value := TrimSpace (drop_control (ToValidUTF8 redacted replacement_character)) in
    if longer_than maximum value then
      (Err (sentinel_text ErrUnsafeProviderMetadata (label +:+ " exceeds retained bounds")), s)
    else (Ok value, s).

Definition SanitizeProviderIdentifier (value : string) (s : S) : result error string * S :=
  sanitizeProviderMetadataValue "provider request ID" value maximumProviderIdentifier s.

(** The loop over the fields, in the order the map is ranged over. *)
Fixpoint sanitize_fields (fields : list (string * string)) (sanitized : gmap string string) (s : S)
    : result error (gmap string string) * S :=
  match fields with
  | [] => (Ok sanitized, s)
  | (key, value) :: rest =>
      if negb (validProviderMetadataKey key) then
        (Err (sentinel_text ErrUnsafeProviderMetadata ("field key " +:+ Quote key +:+ " is invalid")), s)
      else
        match sanitizeProviderMetadataValue ("field " +:+ key) value maximumProviderMetadataValue s with
        | (Err e, s) => (Err e, s)
        | (Ok safe, s) => sanitize_fields rest (<[key := safe]> sanitized) s
        end
  end.

(** The callback is not [nil]. *)
Definition SanitizeProviderMetadata (order : gmap string string -> list (string * string))
    (metadata : RedactedProviderMetadata) (s : S) : result error RedactedProviderMetadata * S :=
  match sanitizeProviderMetadataValue "request ID" (Metadata_RequestID metadata)
          maximumProviderIdentifier s with
  | (Err e, s) => (Err e, s)
  | (Ok requestID, s) =>
      match sanitizeProviderMetadataValue "response ID" (Metadata_ResponseID metadata)
              maximumProviderIdentifier s with
      | (Err e, s) => (Err e, s)
      | (Ok responseID, s) =>
          match sanitizeProviderMetadataValue "fingerprint" (Metadata_Fingerprint metadata)
                  maximumProviderIdentifier s with
          | (Err e, s) => (Err e, s)
          | (Ok fingerprint, s) =>
              if (maximumProviderMetadataFields <? Z.of_nat (size (Metadata_Fields metadata)))%Z then
                (Err (sentinel_text ErrUnsafeProviderMetadata "field count exceeds supported bounds"), s)
              else
                match sanitize_fields (order (Metadata_Fields metadata)) ∅ s with
                | (Err e, s) => (Err e, s)
                | (Ok fields, s) =>
                    (Ok {| Metadata_RequestID := requestID; Metadata_ResponseID := responseID;
                           Metadata_Fingerprint := fingerprint; Metadata_Fields := fields |}, s)
                end
          end
      end
  end.
End Sanitize.

(** ** Redaction with a redactor that can fail

    The coordinator's closures: a text the redactor refuses becomes empty, and
    the error of the last redaction is what the caller looks at. *)
Section Redactor.
Context (Redact : string -> result error string).
Context (order : gmap string string -> list (string * string)).

Definition redact_closure (input : string) (_ : option error) : string * option error :=
  match Redact input with Ok output => (output, None) | Err e => ("", Some e) end.

Definition sanitize_metadata (metadata : RedactedProviderMetadata)
    : result error RedactedProviderMetadata :=
  let '(sanitized, redactionErr) := SanitizeProviderMetadata redact_closure order metadata None in
  match redactionErr with Some e => Err e | None => sanitized end.

Definition sanitize_identifier (value : string) : result error string :=
  let '(sanitized, redactionErr) := SanitizeProviderIdentifier redact_closure value None in
  match redactionErr with Some e => Err e | None => sanitized end.
End Redactor.

(** ** What may be kept *)

Definition safe_text (maximum : Z) (value : string) : Prop :=
  Z.of_nat (String.length value) <= maximum.

Definition safe_metadata (m : RedactedProviderMetadata) : Prop :=
  safe_text maximumProviderIdentifier (Metadata_RequestID m) /\
  safe_text maximumProviderIdentifier (Metadata_ResponseID m) /\
  safe_text maximumProviderIdentifier (Metadata_Fingerprint m) /\
  map_Forall (fun key value =>
    validProviderMetadataKey key = true /\ safe_text maximumProviderMetadataValue value)
    (Metadata_Fields m).

Lemma sanitized_value {S} (redact : string -> S -> string * S) label value maximum s safe s' :
  sanitizeProviderMetadataValue redact label value maximum s = (Ok safe, s') ->
  safe_text maximum safe.
Proof.
  unfold sanitizeProviderMetadataValue, safe_text.
  destruct (longer_than (maximum * 4) value); [done|]. destruct (redact value s) as [redacted s1].
  destruct (longer_than maximum _) eqn:Hl; [done|]. intros [= <- <-].
  unfold longer_than in Hl. by apply Z.ltb_ge in Hl.
Qed.

Lemma sanitized_fields {S} (redact : string -> S -> string * S) fields m s m' s' :
  sanitize_fields redact fields m s = (Ok m', s') ->
  map_Forall (fun key value =>
    validProviderMetadataKey key = true /\ safe_text maximumProviderMetadataValue value) m ->
  map_Forall (fun key value =>
    validProviderMetadataKey key = true /\ safe_text maximumProviderMetadataValue value) m'.
Proof.
  revert m s. induction fields as [|[key value] rest IH]; intros m s; simpl; [by intros [= <- <-]|].
  destruct (validProviderMetadataKey key) eqn:Hkey; [|done]. simpl.
  destruct (sanitizeProviderMetadataValue _ _ _ _ _) as [[e|safe] s1] eqn:Hv; [done|].
  intros Hrest Hm. apply (IH _ _ Hrest). apply map_Forall_insert_2; [|done].
  split; [done|]. by eapply sanitized_value.
Qed.

Lemma sanitized_metadata {S} (redact : string -> S -> string * S) order metadata s m s' :
  SanitizeProviderMetadata redact order metadata s = (Ok m, s') -> safe_metadata m.
Proof.
  unfold SanitizeProviderMetadata.
  destruct (sanitizeProviderMetadataValue _ "request ID" _ _ _) as [[e|r] s1] eqn:H1; [done|].
  destruct (sanitizeProviderMetadataValue _ "response ID" _ _ _) as [[e|p] s2] eqn:H2; [done|].
  destruct (sanitizeProviderMetadataValue _ "fingerprint" _ _ _) as [[e|f] s3] eqn:H3; [done|].
  destruct (maximumProviderMetadataFields <? _)%Z; [done|].
  destruct (sanitize_fields _ _ _ _) as [[e|fields] s4] eqn:H4; [done|]. intros [= <- <-].
  split; [|split; [|split]]; simpl; eauto using sanitized_value.
  eapply sanitized_fields; [done|]. apply map_Forall_empty.
Qed.

Lemma sanitize_metadata_safe Redact order metadata m :
  sanitize_metadata Redact order metadata = Ok m -> safe_metadata m.
Proof.
  unfold sanitize_metadata. destruct (SanitizeProviderMetadata _ _ _ _) as [r [e|]] eqn:Hs; [done|].
  intros ->. by eapply sanitized_metadata.
Qed.
