(* ===== verification/ProviderAttempts.v ===== *)
(** * One physical attempt at a provider
    (src/internal/coordinator/provider_attempt_recorder.go and provider_execution.go)

    What the coordinator stores about an attempt before and after it, and the
    attempt itself: the stream of the provider, its events, the evidence and
    the accounting. The store, the provider, the consumers of events and the
    budget ledger are ports. A stream is what its [Recv] gives: finitely many
    events, and then an error. Canceling the provider in the background and
    timeouts of contexts have no counterpart. *)

From Stdlib Require Import Ascii.
From S2P Require Import Prelude GoText GoErrors PolicyValues ProviderTypes Pricing Ports GoPath.
From S2P Require Import AgentTypes Retry Redact ProviderMetadata BudgetSnapshots BudgetLedger.
Open Scope string_scope.
Open Scope list_scope.
Open Scope go_scope.

(** ** Requests *)

(** src/internal/providers/types.go. The messages, tools and sampling options
    are passed on unread. *)
Record ModelRequest := {
  Request_Identity : RequestIdentity;
  Request_MaximumTokens : Z;
  Request_Idempotency : RequestIdempotency;
  Request_Deadline : Z;
}.

(** Of the two consumers, whether there is one. *)
Record ExecuteProviderRequest := {
  Request : ModelRequest;
  EstimatedUsage : Usage;
  Request_PriceSnapshot : option PriceSnapshot;
  has_OnStreamEvent : bool;
  has_OnToolCall : bool;
}.

(** ** The rows of the store (src/internal/storage/provider_accounting_repository.go)

    A time is its nanoseconds since the epoch, in UTC; 0 is also the zero time
    of a field that may be left out. *)

Abbreviation ProviderLogicalRequestState := string (only parsing).
Definition ProviderLogicalRequestPlanned : ProviderLogicalRequestState := "planned".
Definition ProviderLogicalRequestInFlight : ProviderLogicalRequestState := "in-flight".
Definition ProviderLogicalRequestSucceeded : ProviderLogicalRequestState := "succeeded".
Definition ProviderLogicalRequestFailed : ProviderLogicalRequestState := "failed".
Definition ProviderLogicalRequestCancelled : ProviderLogicalRequestState := "cancelled".
Definition ProviderLogicalRequestOutcomeUnknown : ProviderLogicalRequestState := "outcome-unknown".
Definition ProviderLogicalRequestRetryExhausted : ProviderLogicalRequestState := "retry-exhausted".

Abbreviation ProviderAccountingStatus := string (only parsing).
Definition ProviderAccountingUnknown : ProviderAccountingStatus := "unknown".
Definition ProviderAccountingEstimated : ProviderAccountingStatus := "estimated".
Definition ProviderAccountingProviderReported : ProviderAccountingStatus := "provider-reported".
Definition ProviderAccountingReconciled : ProviderAccountingStatus := "reconciled".
Definition ProviderAccountingDiscrepant : ProviderAccountingStatus := "discrepant".

Abbreviation ProviderRequestAttemptState := string (only parsing).
Definition ProviderRequestAttemptPrepared : ProviderRequestAttemptState := "prepared".
Definition ProviderRequestAttemptStarted : ProviderRequestAttemptState := "started".
Definition ProviderRequestAttemptStreaming : ProviderRequestAttemptState := "streaming".
Definition ProviderRequestAttemptSucceeded : ProviderRequestAttemptState := "succeeded".
Definition ProviderRequestAttemptFailed : ProviderRequestAttemptState := "failed".
Definition ProviderRequestAttemptCancelled : ProviderRequestAttemptState := "cancelled".
Definition ProviderRequestAttemptOutcomeUnknown : ProviderRequestAttemptState := "outcome-unknown".

Abbreviation ProviderRequestEffectStatus := string (only parsing).
Definition ProviderRequestEffectNone : ProviderRequestEffectStatus := "none".
Definition ProviderRequestEffectPossible : ProviderRequestEffectStatus := "possible".
Definition ProviderRequestEffectConfirmed : ProviderRequestEffectStatus := "confirmed".

Record ProviderLogicalRequest := {
  Logical_ID : ID;
  Logical_TaskID : ID;
  Logical_RunID : option ID;
  Logical_ProviderID : ID;
  Logical_ProviderConfigurationRevisionID : string;
  Logical_AdapterName : string;
  Logical_AdapterVersion : string;
  Logical_ProviderVersion : string;
  Logical_ModelIdentifier : string;
  Logical_ModelVersion : string;
  Logical_PricingRevisionID : option string;
  Logical_State : ProviderLogicalRequestState;
  Logical_RequestSHA256 : string;
  Logical_IdempotencyKey : string;
  Logical_AccountingStatus : ProviderAccountingStatus;
  Logical_StartedAt : option Z;
  Logical_CompletedAt : option Z;
  Logical_CreatedAt : Z;
  Logical_UpdatedAt : Z;
  Logical_Revision : Z;
}.

Record TransitionProviderLogicalRequest := {
  LogicalTransition_ID : ID;
  LogicalTransition_ExpectedRevision : Z;
  LogicalTransition_From : ProviderLogicalRequestState;
  LogicalTransition_To : ProviderLogicalRequestState;
  LogicalTransition_AccountingStatus : ProviderAccountingStatus;
}.

Record ProviderRequestAttempt := {
  Attempt_ID : string;
  Attempt_LogicalRequestID : ID;
  Attempt_AttemptNumber : Z;
  Attempt_State : ProviderRequestAttemptState;
  Attempt_ProviderRequestIDRedacted : option string;
  Attempt_RequestIdempotencyKey : option string;
  Attempt_EffectStatus : ProviderRequestEffectStatus;
  Attempt_PartialStreamObserved : bool;
  Attempt_ErrorClass : option string;
  Attempt_Retryable : bool;
  Attempt_RetryAfterMillis : option Z;
  Attempt_SafeMetadataJSON : option string;
  Attempt_StartedAt : option Z;
  Attempt_FirstResponseAt : option Z;
  Attempt_CompletedAt : option Z;
  Attempt_CreatedAt : Z;
  Attempt_UpdatedAt : Z;
  Attempt_Revision : Z;
}.

Record CreateProviderRequestAttempt := {
  Create_ID : string;
  Create_LogicalRequestID : ID;
  Create_AttemptNumber : Z;
  Create_RequestIdempotencyKey : option string;
}.

Record TransitionProviderRequestAttempt := {
  Transition_ID : string;
  Transition_ExpectedRevision : Z;
  Transition_From : ProviderRequestAttemptState;
  Transition_To : ProviderRequestAttemptState;
  Transition_ProviderRequestIDRedacted : option string;
  Transition_EffectStatus : ProviderRequestEffectStatus;
  Transition_PartialStreamObserved : bool;
  Transition_ErrorClass : option string;
  Transition_Retryable : bool;
  Transition_RetryAfterMillis : option Z;
  Transition_SafeMetadataJSON : option string;
  Transition_FirstResponseAt : Z;
  Transition_ObservedAt : Z;
}.

Record AbortPreparedProviderRequestAttemptBeforeIO := {
  Abort_ID : string;
  Abort_ExpectedRevision : Z;
  Abort_ObservedAt : Z;
}.

Record EnsureProviderAttemptAccounting := {
  Ensure_AttemptID : string;
  Ensure_ObservedAt : Z;
}.

Record AppendProviderAttemptAccounting := {
  Accounting_ID : string;
  Accounting_AttemptID : string;
  Accounting_Sequence : Z;
  Accounting_Source : string;
  Accounting_Usage : TokenUsage;
  Accounting_PricingRevisionID : option string;
  Accounting_Cost : option ExactMinorCost;
  Accounting_DiscrepancyRedacted : option string;
  Accounting_Partial : bool;
  Accounting_ProvenanceJSON : string;
}.

Record AppendProviderAttemptEvidence := {
  Evidence_ID : string;
  Evidence_AttemptID : string;
  Evidence_Sequence : Z;
  Evidence_Kind : string;
  Evidence_Final : bool;
  Evidence_ContentSHA256 : string;
  Evidence_SummaryRedacted : string;
  Evidence_ByteCount : Z;
}.

Record ProviderRequestAccountingSummary := {
  Summary_RequestID : ID;
  Summary_AttemptCount : Z;
  Summary_Usage : TokenUsage;
  Summary_Cost : option ExactMinorCost;
  Summary_AccountingComplete : bool;
  Summary_Discrepancy : bool;
  Summary_PartialStreamObserved : bool;
}.

(** src/internal/storage/execution_preflight_repository.go; the fields that are
    read. *)
Record ExecutionPreflight := {
  Preflight_TaskID : ID;
  Preflight_BudgetID : ID;
  Preflight_BudgetLimitRevision : Z;
}.

(** ** Ports *)

Inductive port : Type :=
(** The context, the clock and the gate that the retry executor asks. *)
| Retrying (p : Retry.port)
(** The provider, and who consumes its events. *)
| Stream (attempt : PhysicalAttempt) (request : ModelRequest)
| CloseStream
| OnStreamEvent (e : StreamEvent)
| OnToolCall (call : ToolCall)
(** The store. *)
| CreateAttempt (input : CreateProviderRequestAttempt)
| TransitionAttempt (input : TransitionProviderRequestAttempt)
| AbortPrepared (input : AbortPreparedProviderRequestAttemptBeforeIO)
| EnsureAccounting (input : EnsureProviderAttemptAccounting)
| AppendAccounting (input : AppendProviderAttemptAccounting)
| AppendEvidence (input : AppendProviderAttemptEvidence)
| GetLogicalRequest (id : ID)
| TransitionLogicalRequest (input : TransitionProviderLogicalRequest)
| SummarizeAccounting (id : ID)
| GetPreflight (task : ID) (revision : Z)
(** The budget ledger. *)
| GetSnapshot (task : ID)
| Reserve (input : ReserveInput)
| Settle (input : SettleInput)
| Release (input : ReleaseInput)
| RecordIntent (input : IntentInput)
| Raise (input : RaiseInput).

(** What a method returns besides an error is there whether or not it failed
    where the caller looks at it. *)
Definition answer (p : port) : Type :=
  match p with
  | Retrying p => Retry.answer p
  | Stream _ _ => result error (list StreamEvent * error)
  | CloseStream => unit
  | OnStreamEvent _ | OnToolCall _ => option error
  | CreateAttempt _ | TransitionAttempt _ => result error ProviderRequestAttempt
  | AbortPrepared _ | EnsureAccounting _ | AppendAccounting _ | AppendEvidence _ => option error
  | GetLogicalRequest _ | TransitionLogicalRequest _ => result error ProviderLogicalRequest
  | SummarizeAccounting _ => ProviderRequestAccountingSummary * option error
  | GetPreflight _ _ => result error ExecutionPreflight
  | GetSnapshot _ => result error BudgetSnapshot
  | Reserve _ => BudgetReservation * BudgetSnapshot * option error
  | Settle _ | Release _ | RecordIntent _ | Raise _ => BudgetSnapshot * option error
  end.

(** [errors.Join]. *)
Definition errors_Join (l : list (option error)) : option error :=
  match omap id l with
  | [] => None
  | errs => Some (Wrapped (Join (map Error errs) (bytes [10]%N)) errs)
  end.

Definition err_of {A} (r : result error A) : option error :=
  match r with Ok _ => None | Err e => Some e end.

(** ** The recorder of attempts *)

Definition providerAttemptID (attempt : PhysicalAttempt) : string :=
  RequestIdentity_ModelRequestID (PhysicalAttempt_Identity attempt) +:+ "-attempt-" +:+
  fmt_d (PhysicalAttempt_Number attempt).

Definition providerAttemptOutcome (record : AttemptRecord)
    : ProviderRequestAttemptState * ProviderRequestEffectStatus :=
  let effect :=
    match AttemptRecord_PartialEvidence record with
    | Some evidence => if ProviderAck evidence then ProviderRequestEffectConfirmed
                       else ProviderRequestEffectPossible
    | None => ProviderRequestEffectPossible
    end in
  let disposition := AttemptRecord_Disposition record in
  if disposition =? AttemptSucceeded then (ProviderRequestAttemptSucceeded, effect)
  else if disposition =? AttemptCanceled then (ProviderRequestAttemptCancelled, effect)
  else if disposition =? AttemptRetryUnsafePartial then (ProviderRequestAttemptOutcomeUnknown, effect)
  else if (disposition =? AttemptFailed) || (disposition =? AttemptRetryScheduled) ||
          (disposition =? AttemptRetryExhausted) then (ProviderRequestAttemptFailed, effect)
  else (ProviderRequestAttemptOutcomeUnknown, effect).

Definition providerAttemptErrorClass (err : option error) : option string :=
  match err with
  | None => None
  | Some e =>
      Some match As_Failure e with
           | None => "unknown"
           | Some failure =>
               let kind := Failure_Kind failure in
               if kind =? FailureTimeout then "timeout"
               else if kind =? FailureTransport then "retryable"
               else if kind =? FailureRateLimited then "rate-limit"
               else if kind =? FailureAuthentication then "authentication"
               else if kind =? FailureInvalidRequest then "invalid-request"
               else if kind =? FailureSafety then "safety"
               else if kind =? FailureUnavailable then "unavailable"
               else if kind =? FailureCanceled then "cancelled"
               else "unknown"
           end
  end.

(** The attempts that were started and not completed, by their identity. *)
Abbreviation live_attempts := (gmap string ProviderRequestAttempt).

Definition created_attempt (attempt : PhysicalAttempt) : CreateProviderRequestAttempt :=
  let key := RequestIdempotency_Key (RequestIdentity_Idempotency (PhysicalAttempt_Identity attempt)) in
  {| Create_ID := providerAttemptID attempt;
     Create_LogicalRequestID := RequestIdentity_ModelRequestID (PhysicalAttempt_Identity attempt);
     Create_AttemptNumber := wrap_uint64 (PhysicalAttempt_Number attempt);
     Create_RequestIdempotencyKey := if key =? "" then None else Some key |}.

Definition started_attempt (attempt : PhysicalAttempt) (prepared : ProviderRequestAttempt)
    : TransitionProviderRequestAttempt :=
  {| Transition_ID := providerAttemptID attempt;
     Transition_ExpectedRevision := Attempt_Revision prepared;
     Transition_From := Attempt_State prepared; Transition_To := ProviderRequestAttemptStarted;
     Transition_ProviderRequestIDRedacted := None;
     Transition_EffectStatus := ProviderRequestEffectPossible;
     Transition_PartialStreamObserved := false; Transition_ErrorClass := None;
     Transition_Retryable := false; Transition_RetryAfterMillis := None;
     Transition_SafeMetadataJSON := None; Transition_FirstResponseAt := zero_time;
     Transition_ObservedAt := PhysicalAttempt_StartedAt attempt |}.

Definition PrepareProviderAttempt (attempt : PhysicalAttempt) (live : live_attempts)
    : program answer (option error * live_attempts) :=
  Ask (CreateAttempt (created_attempt attempt)) (fun created =>
  match created with
  | Err e => Ret (Some e, live)
  | Ok prepared =>
      Ask (TransitionAttempt (started_attempt attempt prepared)) (fun transitioned =>
      match transitioned with
      | Err e =>
          Ask (AbortPrepared {| Abort_ID := Attempt_ID prepared;
                                Abort_ExpectedRevision := Attempt_Revision prepared;
                                Abort_ObservedAt := PhysicalAttempt_StartedAt attempt |})
            (fun abortErr => Ret (errors_Join [Some e; abortErr], live))
      | Ok started => Ret (None, <[providerAttemptID attempt := started]> live)
      end)
  end).

Section Attempts.
(** The redactor, the encoding of metadata as JSON, whether a text is JSON, the
    orders in which maps are ranged over, and the digest of evidence. *)
Context (redactor : Boundary -> string -> result error string).
Context (marshal_metadata : RedactedProviderMetadata -> string).
Context (field_order : gmap string string -> list (string * string)).
Context (unmarshal_counts : string -> option (gmap string Z)).
Context (json_Valid : string -> bool).
Context (marshal_counts : gmap string Z -> string).
Context (count_order : gmap string Z -> list (string * Z)).
Context (hex_sha256 : string -> string).

(** The first request identifier among the fields a provider is known to send. *)
Definition request_id_field (fields : gmap string string) : string :=
  match List.filter (fun v => negb (v =? ""))
          (map (fun key => default "" (fields !! key))
             ["openai_request_id"; "anthropic_request_id"; "provider_request_id"]) with
  | value :: _ => value
  | [] => ""
  end.

Definition evidence_provider_id (record : AttemptRecord) (metadata : option RedactedProviderMetadata)
    : string :=
  let id := match metadata with Some m => request_id_field (Metadata_Fields m) | None => "" end in
  let id := if id =? "" then AttemptRecord_ProviderRequestID record else id in
  if id =? "" then match metadata with Some m => Metadata_ResponseID m | None => "" end else id.

Definition sanitizeAttemptEvidence (record : AttemptRecord)
    : option string * option string * option error :=
  let Redact := redactor BoundaryLogPersistence in
  let kept :=
    match AttemptRecord_SafeMetadata record with
    | None => Ok None
    | Some m => sanitized ← sanitize_metadata Redact field_order m; Ok (Some sanitized)
    end in
  match kept with
  | Err e => (None, None, Some e)
  | Ok metadata =>
      let providerID := evidence_provider_id record metadata in
      let id := if providerID =? "" then Ok None
                else value ← sanitize_identifier Redact providerID; Ok (Some value) in
      match id with
      | Err e => (None, None, Some e)
      | Ok providerRequestID => (providerRequestID, marshal_metadata <$> metadata, None)
      end
  end.

Definition completed_attempt (record : AttemptRecord) (current : ProviderRequestAttempt)
    (providerRequestID metadataJSON : option string) : TransitionProviderRequestAttempt :=
  let '(target, effect) := providerAttemptOutcome record in
  {| Transition_ID := providerAttemptID (AttemptRecord_PhysicalAttempt record);
     Transition_ExpectedRevision := Attempt_Revision current;
     Transition_From := Attempt_State current; Transition_To := target;
     Transition_ProviderRequestIDRedacted := providerRequestID; Transition_EffectStatus := effect;
     Transition_PartialStreamObserved :=
       match AttemptRecord_PartialEvidence record with
       | Some evidence => StreamedOutput evidence || PartialToolCall evidence
       | None => false
       end;
     Transition_ErrorClass := providerAttemptErrorClass (AttemptRecord_Err record);
     Transition_Retryable :=
       (AttemptRecord_Disposition record =? AttemptRetryScheduled) ||
       (AttemptRecord_Disposition record =? AttemptRetryExhausted);
     Transition_RetryAfterMillis :=
       if (0 <? AttemptRecord_ProviderRetryAfter record)%Z
       then Some (Z.quot (AttemptRecord_ProviderRetryAfter record) Millisecond) else None;
     Transition_SafeMetadataJSON := metadataJSON;
     Transition_FirstResponseAt := AttemptRecord_FirstResponseAt record;
     Transition_ObservedAt := AttemptRecord_FinishedAt record |}.

(** A call that is made once more when it failed. *)
Definition twice {A} (p : port) (err : answer p -> option error) (k : option error -> program answer A)
    : program answer A :=
  Ask p (fun first =>
    match err first with
    | None => k None
    | Some e =>
        Ask p (fun second =>
          match err second with
          | None => k None
          | Some retryErr => k (errors_Join [Some e; Some retryErr])
          end)
    end).

Definition CompleteProviderAttempt (record : AttemptRecord) (live : live_attempts)
    : program answer (option error * live_attempts) :=
  let attempt := providerAttemptID (AttemptRecord_PhysicalAttempt record) in
  match live !! attempt with
  | None => Ret (Some (Sentinel "provider attempt was not durably prepared"), live)
  | Some current =>
      let '(providerRequestID, metadataJSON, evidenceErr) := sanitizeAttemptEvidence record in
      twice (EnsureAccounting {| Ensure_AttemptID := attempt;
                                 Ensure_ObservedAt := AttemptRecord_FinishedAt record |}) id
        (fun accountingErr =>
           twice (TransitionAttempt (completed_attempt record current providerRequestID metadataJSON))
             err_of
             (fun err =>
                match err with
                | Some _ => Ret (errors_Join [evidenceErr; accountingErr; err], live)
                | None => Ret (errors_Join [evidenceErr; accountingErr], delete attempt live)
                end))
  end.

(** ** Validation of events *)

Definition maximumProviderEvidencePerAttempt : Z := 4096.

Definition validateProviderUsage (usage : Usage) : option error :=
  err_of (ReconcileUsage unmarshal_counts json_Valid zero_usage usage).

Definition validateProviderFinal (request : RequestIdentity) (final : FinalResponse) : option error :=
  if negb (bool_decide (Final_Identity final = RequestIdentity_Model request)) then
    Some (Sentinel "provider final identity changed from the durable request")
  else if Final_StopReason final =? "" then Some (Sentinel "provider final stop reason is missing")
  else validateProviderUsage (Final_Usage final).

Definition present {A} (o : option A) : bool := match o with Some _ => true | None => false end.

Definition validateProviderStreamEvent (request : RequestIdentity) (event : StreamEvent)
    (finalSeen : bool) : option error :=
  let delta := Event_ToolCallDelta event in
  let call := Event_ToolCall event in
  let usage := Event_Usage event in
  let metadata := Event_Metadata event in
  let final := Event_Final event in
  let has_text := negb (Event_Text event =? "") in
  let kind := Event_Kind event in
  if kind =? StreamEventTextDelta then
    if negb has_text || present delta || present call || present usage || present metadata ||
       present final
    then Some (Sentinel "provider emitted an empty text delta") else None
  else if kind =? StreamEventToolCallDelta then
    match delta with
    | Some d =>
        if (Delta_Index d <? 0)%Z || (Delta_ID d =? "") || (Delta_Name d =? "") || has_text ||
           present call || present usage || present metadata || present final
        then Some (Sentinel "provider emitted an invalid tool-call delta") else None
    | None => Some (Sentinel "provider emitted an invalid tool-call delta")
    end
  else if kind =? StreamEventToolCall then
    match call with
    | Some c =>
        if (Call_ID c =? "") || (Call_Name c =? "") || negb (json_Valid (Call_Arguments c)) ||
           has_text || present delta || present usage || present metadata || present final
        then Some (Sentinel "provider emitted an invalid tool call") else None
    | None => Some (Sentinel "provider emitted an invalid tool call")
    end
  else if kind =? StreamEventUsage then
    match usage with
    | Some u =>
        if has_text || present delta || present call || present metadata || present final
        then Some (Sentinel "provider emitted empty usage") else validateProviderUsage u
    | None => Some (Sentinel "provider emitted empty usage")
    end
  else if kind =? StreamEventMetadata then
    if negb (present metadata) || has_text || present delta || present call || present usage ||
       present final
    then Some (Sentinel "provider emitted empty metadata") else None
  else if kind =? StreamEventFinal then
    match final with
    | Some f =>
        if finalSeen || has_text || present delta || present call || present usage ||
           present metadata
        then Some (Sentinel "provider emitted an invalid final event")
        else validateProviderFinal request f
    | None => Some (Sentinel "provider emitted an invalid final event")
    end
  else Some (Sentinel "provider emitted an unsupported normalized event").

Definition with_metadata (event : StreamEvent) (metadata : option RedactedProviderMetadata)
    (final : option FinalResponse) : StreamEvent :=
  {| Event_Sequence := Event_Sequence event; Event_Kind := Event_Kind event;
     Event_Text := Event_Text event; Event_ToolCallDelta := Event_ToolCallDelta event;
     Event_ToolCall := Event_ToolCall event; Event_Usage := Event_Usage event;
     Event_Metadata := metadata; Event_Final := final;
     Event_ObservedAt := Event_ObservedAt event |}.

Definition with_final_metadata (final : FinalResponse) (metadata : RedactedProviderMetadata)
    : FinalResponse :=
  {| Final_Identity := Final_Identity final; Final_StopReason := Final_StopReason final;
     Final_Usage := Final_Usage final; Final_Metadata := metadata;
     Final_PartialEffect := Final_PartialEffect final |}.

Definition sanitizeProviderEvent (event : StreamEvent) : result error StreamEvent :=
  let sanitize := sanitize_metadata (redactor BoundaryUIDelivery) field_order in
  metadata ← match Event_Metadata event with
             | None => Ok None
             | Some m => sanitized ← sanitize m; Ok (Some sanitized)
             end;
  final ← match Event_Final event with
          | None => Ok None
          | Some f => sanitized ← sanitize (Final_Metadata f);
                      Ok (Some (with_final_metadata f sanitized))
          end;
  Ok (with_metadata event metadata final).

(** ** Evidence and accounting *)

Definition mergeProviderPartialEffect (left right : PartialEffectEvidence) : PartialEffectEvidence :=
  {| StreamedOutput := StreamedOutput left || StreamedOutput right;
     PartialToolCall := PartialToolCall left || PartialToolCall right;
     ProviderAck := ProviderAck left || ProviderAck right;
     LastSequence := if (LastSequence left <? LastSequence right)%Z then LastSequence right
                     else LastSequence left |}.

Definition hasProviderPartialEffect (value : PartialEffectEvidence) : bool :=
  StreamedOutput value || PartialToolCall value || ProviderAck value ||
  negb (LastSequence value =? 0)%Z.

Definition non_retryable (operation : string) (err : option error) : option error :=
  match err with
  | None => None
  | Some e =>
      Some (Failure {| Failure_Kind := FailureInvalidRequest; Failure_Operation := operation;
                       Failure_Retryable := false; Failure_RetryAfter := 0;
                       Failure_PartialEffect := no_partial_effect |} (Some e))
  end.
Definition nonRetryableAccountingError : option error -> option error :=
  non_retryable "persist provider accounting".
Definition nonRetryableLocalExecutionError : option error -> option error :=
  non_retryable "consume provider event".

Definition appendProviderEvidence (attempt : PhysicalAttempt) (sequence : Z) (kind content : string)
    : program answer (option error) :=
  if (maximumProviderEvidencePerAttempt <? sequence)%Z then
    Ret (Some (Sentinel "provider stream exceeded the bounded evidence limit"))
  else
    ask (AppendEvidence
      {| Evidence_ID := providerAttemptID attempt +:+ "-evidence-" +:+ fmt_d sequence;
         Evidence_AttemptID := providerAttemptID attempt; Evidence_Sequence := sequence;
         Evidence_Kind := kind; Evidence_Final := false;
         Evidence_ContentSHA256 := hex_sha256 content;
         Evidence_SummaryRedacted := "provider " +:+ kind +:+ " observed";
         Evidence_ByteCount := Z.of_nat (String.length content) |}).

Definition accounting_source (input : ExecuteProviderRequest) (partial : bool) : string :=
  if partial then "provider-partial"
  else if Usage_Known (EstimatedUsage input) then "reconciled" else "provider-final".

(** The price of a usage, where it is known. *)
Definition accounting_cost (price : PriceSnapshot) (effective : Usage)
    : result error (option ExactMinorCost) :=
  let calculated := Pricing.Cost unmarshal_counts count_order price effective in
  if Amount_Known calculated then
    match ParseCurrencyCode (Amount_Currency calculated) with
    | Err e => Err (value_error e)
    | Ok currency =>
        Ok (Some {| Numerator := Amount_Numerator calculated;
                    Denominator := Amount_Denominator calculated; Currency := currency |})
    end
  else Ok None.

Definition durable_usage (effective : Usage) (specific : gmap string Z) : TokenUsage :=
  {| TokenUsage_Known := Usage_Known effective;
     TokenUsage_Input := wrap_uint64 (InputTokens effective);
     TokenUsage_CachedInput := wrap_uint64 (CachedInputTokens effective);
     TokenUsage_CacheWrite := wrap_uint64 (CacheWriteTokens effective);
     TokenUsage_Output := wrap_uint64 (OutputTokens effective);
     TokenUsage_Reasoning := wrap_uint64 (ReasoningTokens effective);
     TokenUsage_ProviderSpecific := wrap_uint64 <$> specific |}.

(** The record of an attempt's usage, or why there is none. *)
Definition attempt_accounting (attempt : PhysicalAttempt) (input : ExecuteProviderRequest)
    (reported : Usage) (partial : bool) : result error AppendProviderAttemptAccounting :=
  reconciled ← ReconcileUsage unmarshal_counts json_Valid (EstimatedUsage input) reported;
  let effective := Reconciliation_Effective reconciled in
  specific ← NormalizeProviderSpecificUsage unmarshal_counts (ProviderSpecific effective);
  cost ← match Request_PriceSnapshot input with
         | None => Ok None
         | Some price => accounting_cost price effective
         end;
  let source := accounting_source input partial in
  Ok {| Accounting_ID := providerAttemptID attempt +:+ "-accounting-1";
        Accounting_AttemptID := providerAttemptID attempt; Accounting_Sequence := 1;
        Accounting_Source := source; Accounting_Usage := durable_usage effective specific;
        Accounting_PricingRevisionID := PriceSnapshot_ID <$> Request_PriceSnapshot input;
        Accounting_Cost := cost;
        Accounting_DiscrepancyRedacted :=
          match Reconciliation_Discrepancies reconciled with
          | [] => None
          | _ => Some "estimated and provider-reported usage differ or remain unknown"
          end;
        Accounting_Partial := partial;
        Accounting_ProvenanceJSON :=
          json_object [("schema_version", "1"); ("source", json_quote source)] |}.

Definition appendAttemptAccounting (attempt : PhysicalAttempt) (input : ExecuteProviderRequest)
    (reported : Usage) (partial : bool) : program answer (option error) :=
  match attempt_accounting attempt input reported partial with
  | Err e => Ret (Some e)
  | Ok record => ask (AppendAccounting record)
  end.

(** ** The attempt *)

(** The variables of the loop that reads the stream. *)
Record receiving := {
  rx_final : option FinalResponse;
  rx_usage : Usage;
  rx_partial : PartialEffectEvidence;
  rx_evidence : Z;
  rx_last : Z;
  rx_first : Z;
  rx_metadata : option RedactedProviderMetadata;
}.

Definition start_receiving : receiving :=
  {| rx_final := None; rx_usage := zero_usage; rx_partial := no_partial_effect; rx_evidence := 0;
     rx_last := 0; rx_first := zero_time; rx_metadata := None |}.

Definition outcome (s : receiving) (err : option error) : AttemptOutcome :=
  {| AttemptOutcome_Err := err; AttemptOutcome_RetryAfter := 0;
     AttemptOutcome_PartialEvidence := Some (rx_partial s);
     AttemptOutcome_ProviderRequestID :=
       match rx_metadata s with Some m => Metadata_ResponseID m | None => "" end;
     AttemptOutcome_SafeMetadata := rx_metadata s;
     AttemptOutcome_FirstResponseAt := rx_first s |}.

Abbreviation attempted := (option FinalResponse * AttemptOutcome)%type.

(** The attempt ends with an error: its usage is recorded first. *)
Definition fail_attempt (attempt : PhysicalAttempt) (input : ExecuteProviderRequest) (s : receiving)
    (usage : Usage) (errs : option error -> option error) : program answer attempted :=
  bind (appendAttemptAccounting attempt input usage (hasProviderPartialEffect (rx_partial s)))
    (fun accountingErr => Ret (None, outcome s (errs accountingErr))).

Definition EOF : string := "EOF".

(** [Recv] gave an error. *)
Definition stream_ended (attempt : PhysicalAttempt) (input : ExecuteProviderRequest) (s : receiving)
    (receiveErr : error) : program answer attempted :=
  let receiveErr :=
    if Is receiveErr EOF then
      Failure {| Failure_Kind := FailureUnavailable; Failure_Operation := "receive provider stream";
                 Failure_Retryable := negb (hasProviderPartialEffect (rx_partial s));
                 Failure_RetryAfter := 0; Failure_PartialEffect := rx_partial s |}
        (Some (Sentinel ErrUnavailable))
    else receiveErr in
  fail_attempt attempt input s (rx_usage s) (fun accountingErr =>
    errors_Join [nonRetryableAccountingError accountingErr; Some receiveErr]).

(** The event's sequence and time. *)
Definition noted (s : receiving) (event : StreamEvent) : receiving :=
  {| rx_final := rx_final s; rx_usage := rx_usage s;
     rx_partial := {| StreamedOutput := StreamedOutput (rx_partial s);
                      PartialToolCall := PartialToolCall (rx_partial s);
                      ProviderAck := ProviderAck (rx_partial s);
                      LastSequence := Event_Sequence event |};
     rx_evidence := rx_evidence s; rx_last := Event_Sequence event;
     rx_first := if is_zero_time (rx_first s) && negb (is_zero_time (Event_ObservedAt event))
                 then Event_ObservedAt event else rx_first s;
     rx_metadata := rx_metadata s |}.

Definition with_partial (s : receiving) (partial : PartialEffectEvidence) (evidence : Z) : receiving :=
  {| rx_final := rx_final s; rx_usage := rx_usage s; rx_partial := partial;
     rx_evidence := evidence; rx_last := rx_last s; rx_first := rx_first s;
     rx_metadata := rx_metadata s |}.

Definition set_streamed (p : PartialEffectEvidence) : PartialEffectEvidence :=
  {| StreamedOutput := true; PartialToolCall := PartialToolCall p; ProviderAck := ProviderAck p;
     LastSequence := LastSequence p |}.
Definition set_tool_call (p : PartialEffectEvidence) : PartialEffectEvidence :=
  {| StreamedOutput := StreamedOutput p; PartialToolCall := true; ProviderAck := ProviderAck p;
     LastSequence := LastSequence p |}.
Definition set_ack (p : PartialEffectEvidence) : PartialEffectEvidence :=
  {| StreamedOutput := StreamedOutput p; PartialToolCall := PartialToolCall p; ProviderAck := true;
     LastSequence := LastSequence p |}.

(** A consumer is called only while the context lives. *)
Definition consume (p : port) (err : answer p -> option error) : program answer (option error) :=
  Ask (Retrying CtxErr) (fun contextErr =>
    match contextErr with
    | Some e => Ret (Some e)
    | None => bind (ask p) (fun r => Ret (nonRetryableLocalExecutionError (err r)))
    end).

(** The switch over the kind of an event, with the error it leaves. *)
Definition apply_event (attempt : PhysicalAttempt) (input : ExecuteProviderRequest) (s : receiving)
    (event : StreamEvent) : program answer (receiving * option error) :=
  let kind := Event_Kind event in
  if kind =? StreamEventTextDelta then
    let s := with_partial s (set_streamed (rx_partial s)) (wrap_uint64 (rx_evidence s + 1)) in
    bind (appendProviderEvidence attempt (rx_evidence s) "partial-output" (Event_Text event))
      (fun err => Ret (s, err))
  else if kind =? StreamEventToolCallDelta then
    let s := with_partial s (set_tool_call (rx_partial s)) (wrap_uint64 (rx_evidence s + 1)) in
    let content := match Event_ToolCallDelta event with
                   | Some d => Delta_ArgumentsFragment d | None => "" end in
    bind (appendProviderEvidence attempt (rx_evidence s) "partial-tool-call" content)
      (fun err => Ret (s, err))
  else if kind =? StreamEventToolCall then
    let s := with_partial s (set_tool_call (rx_partial s)) (rx_evidence s) in
    match has_OnToolCall input, Event_ToolCall event with
    | true, Some call => bind (consume (OnToolCall call) id) (fun err => Ret (s, err))
    | _, _ => Ret (s, None)
    end
  else if kind =? StreamEventUsage then
    Ret ({| rx_final := rx_final s; rx_usage := default (rx_usage s) (Event_Usage event);
            rx_partial := rx_partial s; rx_evidence := rx_evidence s; rx_last := rx_last s;
            rx_first := rx_first s; rx_metadata := rx_metadata s |}, None)
  else if kind =? StreamEventMetadata then
    Ret ({| rx_final := rx_final s; rx_usage := rx_usage s; rx_partial := set_ack (rx_partial s);
            rx_evidence := rx_evidence s; rx_last := rx_last s; rx_first := rx_first s;
            rx_metadata := Event_Metadata event |}, None)
  else
    match Event_Final event with
    | Some final =>
        Ret ({| rx_final := Some final; rx_usage := Final_Usage final;
                rx_partial := mergeProviderPartialEffect (rx_partial s) (Final_PartialEffect final);
                rx_evidence := rx_evidence s; rx_last := rx_last s; rx_first := rx_first s;
                rx_metadata := Some (Final_Metadata final) |}, None)
    | None => Ret (s, None)
    end.

(** The usage that an event which is refused still reports. *)
Definition refused_usage (s : receiving) (event : StreamEvent) : Usage :=
  match Event_Final event with
  | Some final => match validateProviderUsage (Final_Usage final) with
                  | None => Final_Usage final
                  | Some _ => rx_usage s
                  end
  | None => rx_usage s
  end.

Definition publish (input : ExecuteProviderRequest) (event : StreamEvent)
    : program answer (option error) :=
  if has_OnStreamEvent input then consume (OnStreamEvent event) id else Ret None.

Definition close_and_fail (attempt : PhysicalAttempt) (input : ExecuteProviderRequest)
    (s : receiving) (err : error) : program answer attempted :=
  Ask CloseStream (fun _ => fail_attempt attempt input s (rx_usage s) (fun accountingErr =>
    errors_Join [Some err; accountingErr])).

(** One turn of the loop: [inl] leaves the function. *)
Definition on_event (attempt : PhysicalAttempt) (input : ExecuteProviderRequest) (s : receiving)
    (event : StreamEvent) : body answer attempted receiving :=
  let leave s usage err :=
    bind (fail_attempt attempt input s usage (fun accountingErr => errors_Join [Some err; accountingErr]))
      returning in
  if (Event_Sequence event <=? rx_last s)%Z then
    leave s (rx_usage s) (Sentinel "provider stream sequence is not strictly increasing")
  else
    let s := noted s event in
    match sanitizeProviderEvent event with
    | Err err => leave s (rx_usage s) err
    | Ok event =>
        match validateProviderStreamEvent (Request_Identity (Request input)) event
                (present (rx_final s)) with
        | Some err => leave s (refused_usage s event) err
        | None =>
            bind (publish input event) (fun err =>
            match err with
            | Some err => bind (close_and_fail attempt input s err) returning
            | None =>
                bind (apply_event attempt input s event) (fun '(s, err) =>
                match err with
                | Some err => bind (close_and_fail attempt input s err) returning
                | None => going s
                end)
            end)
        end
    end.

(** After the final event. *)
Definition conclude_attempt (attempt : PhysicalAttempt) (input : ExecuteProviderRequest)
    (s : receiving) : program answer attempted :=
  bind (appendAttemptAccounting attempt input (rx_usage s) false) (fun err =>
    match err with
    | Some e => Ret (None, outcome s (Some e))
    | None => Ret (rx_final s, outcome s None)
    end).

Fixpoint receive (attempt : PhysicalAttempt) (input : ExecuteProviderRequest)
    (events : list StreamEvent) (ending : error) (s : receiving) : program answer attempted :=
  match events with
  | [] => stream_ended attempt input s ending
  | event :: rest =>
      bind (on_event attempt input s event) (fun x =>
        match x with
        | inl returned => Ret returned
        | inr s => if present (rx_final s) then conclude_attempt attempt input s
                   else receive attempt input rest ending s
        end)
  end.

(** The stream is closed, and the provider told to stop where the context has
    ended, when the function returns. *)
Definition executeAttempt (attempt : PhysicalAttempt) (input : ExecuteProviderRequest)
    : program answer attempted :=
  Ask (Stream attempt (Request input)) (fun opened =>
    match opened with
    | Err e =>
        bind (appendAttemptAccounting attempt input zero_usage false) (fun accountingErr =>
          Ret (None, {| AttemptOutcome_Err :=
                          errors_Join [nonRetryableAccountingError accountingErr; Some e];
                        AttemptOutcome_RetryAfter := 0; AttemptOutcome_PartialEvidence := None;
                        AttemptOutcome_ProviderRequestID := ""; AttemptOutcome_SafeMetadata := None;
                        AttemptOutcome_FirstResponseAt := zero_time |}))
    | Ok (events, ending) =>
        bind (receive attempt input events ending start_receiving) (fun result =>
          Ask CloseStream (fun _ => Ret result))
    end).
End Attempts.
