(* ===== verification/ProviderExecution.v ===== *)
(** * A provider request with its retries
    (src/internal/coordinator/provider_execution.go)

    The logical request: it is bound to what is stored, attempted under the
    retry executor of Retry.v, whose recorder and attempt function are those of
    ProviderAttempts.v, and brought to a terminal state with the sum of what
    its attempts used. *)

From Stdlib Require Import Ascii QArith.
From S2P Require Import Prelude GoText GoErrors PolicyValues ProviderTypes Pricing Ports.
From S2P Require Import AgentTypes Retry Redact ProviderMetadata BudgetSnapshots ProviderAttempts.
Open Scope string_scope.
Open Scope list_scope.
Open Scope go_scope.

Record ProviderExecutionResult := {
  Result_Final : option FinalResponse;
  Result_Accounting : ProviderRequestAccountingSummary;
}.

Definition no_usage : TokenUsage :=
  {| TokenUsage_Known := false; TokenUsage_Input := 0; TokenUsage_CachedInput := 0;
     TokenUsage_CacheWrite := 0; TokenUsage_Output := 0; TokenUsage_Reasoning := 0;
     TokenUsage_ProviderSpecific := ∅ |}.

Definition no_summary : ProviderRequestAccountingSummary :=
  {| Summary_RequestID := ""; Summary_AttemptCount := 0; Summary_Usage := no_usage;
     Summary_Cost := None; Summary_AccountingComplete := false; Summary_Discrepancy := false;
     Summary_PartialStreamObserved := false |}.

Definition no_result : ProviderExecutionResult :=
  {| Result_Final := None; Result_Accounting := no_summary |}.

(** ** Interpreting a program

    Calls to one set of ports, each answered by a program over another set
    that keeps a state. *)
Section Interpret.
Context {port port' : Type} {answer : port -> Type} {answer' : port' -> Type} {S : Type}.
Context (handle : forall p, S -> program answer' (answer p * S)).

Fixpoint interpret {A} (m : program answer A) (s : S) : program answer' (A * S) :=
  match m with
  | Ret a => Ret (a, s)
  | Ask p k => bind (handle p s) (fun x => interpret (k x.1) x.2)
  end.

(** What is known of a program over the first ports holds of its
    interpretation, where a relation between the two histories is kept by the
    handlers. *)
Lemma interpret_obeys (I : list (event answer) -> port -> Prop)
    (I' : list (event answer') -> port' -> Prop)
    (R : list (event answer) -> list (event answer') -> S -> Prop) {A} (m : program answer A) :
  (forall h h' s p, R h h' s -> I h p ->
     obeys I' (handle p s) h' (fun x h'' => R (called p x.1 :: h) h'' x.2)) ->
  forall h h' s Q, R h h' s -> obeys I m h Q ->
  obeys I' (interpret m s) h' (fun x h'' => exists h1, Q x.1 h1 /\ R h1 h'' x.2).
Proof.
  intros Hh. induction m as [a|p k IH]; intros h h' s Q HR Hm; simpl; [by exists h|].
  destruct Hm as [HI Hk]. apply obeys_bind. eapply obeys_weaken; [by apply Hh|].
  intros x h'' HR'. exact (IH x.1 _ _ _ Q HR' (Hk x.1)).
Qed.
End Interpret.

Section Execution.
Context (redactor : Boundary -> string -> result error string).
Context (marshal_metadata : RedactedProviderMetadata -> string).
Context (field_order : gmap string string -> list (string * string)).
Context (unmarshal_counts : string -> option (gmap string Z)).
Context (json_Valid : string -> bool).
Context (count_order : gmap string Z -> list (string * Z)).
Context (hex_sha256 : string -> string).
(** The product of a delay and a fraction, of the retry executor. *)
Context (scale : Duration -> Q -> Duration).

(** ** The calls of the retry executor *)

(** The recorder's live attempts, and the response an attempt ended with. *)
Record execution_state := {
  live : live_attempts;
  final : option FinalResponse;
}.

Definition handle (input : ExecuteProviderRequest) (p : Retry.port) (s : execution_state)
    : program answer (Retry.answer p * execution_state) :=
  match p return program answer (Retry.answer p * execution_state) with
  | Prepare attempt =>
      bind (PrepareProviderAttempt attempt (live s)) (fun x =>
        Ret (x.1, {| live := x.2; final := final s |}))
  | Attempt attempt =>
      bind (executeAttempt redactor field_order unmarshal_counts json_Valid count_order hex_sha256
              attempt input)
        (fun x => Ret (x.2, {| live := live s;
                               final := match x.1 with Some f => Some f | None => final s end |}))
  | Complete record =>
      bind (CompleteProviderAttempt redactor marshal_metadata field_order record (live s)) (fun x =>
        Ret (x.1, {| live := x.2; final := final s |}))
  | p => Ask (Retrying p) (fun r => Ret (r, s))
  end.

(** ** Binding and terminal state *)

Definition validateExecutionInput (input : ExecuteProviderRequest) : option error :=
  let request := Request input in
  if negb (bool_decide (RequestIdentity_Idempotency (Request_Identity request) =
                        Request_Idempotency request)) then
    Some (Sentinel "provider request idempotency declarations disagree")
  else match validateProviderUsage unmarshal_counts json_Valid (EstimatedUsage input) with
  | Some err => Some (text_cause "estimated provider usage" err)
  | None =>
      let refused :=
        Some (Sentinel "provider price snapshot, including explicit unknown pricing, is required") in
      match Request_PriceSnapshot input with
      | None => refused
      | Some price =>
          if (PriceSnapshot_ID price =? "") ||
             negb (bool_decide (PriceSnapshot_Model price =
                                RequestIdentity_Model (Request_Identity request)))
          then refused else None
      end
  end.

Definition validateLogicalRequestBinding (logical : ProviderLogicalRequest)
    (input : ExecuteProviderRequest) : option error :=
  let identity := Request_Identity (Request input) in
  let provider := RequestIdentity_Provider identity in
  let model := RequestIdentity_Model identity in
  if negb (Logical_ID logical =? RequestIdentity_ModelRequestID identity) ||
     negb (Logical_AdapterName logical =? ProviderIdentity_Adapter provider) ||
     negb (Logical_AdapterVersion logical =? ProviderIdentity_AdapterVersion provider) ||
     negb (Logical_ProviderVersion logical =? ProviderIdentity_ProviderVersion provider) ||
     negb (Logical_ModelIdentifier logical =? ModelIdentity_Model model) ||
     negb (Logical_ModelVersion logical =? ModelIdentity_Revision model) ||
     negb (Logical_RequestSHA256 logical =? RequestIdentity_RequestHash identity)
  then Some (Sentinel "durable provider request identity does not match execution")
  else if negb (bool_decide (Logical_PricingRevisionID logical =
                             PriceSnapshot_ID <$> Request_PriceSnapshot input)) ||
          negb (present (Logical_PricingRevisionID logical))
  then Some (Sentinel "durable provider pricing does not match execution")
  else None.

Definition providerLogicalTerminalState (err : option error) : ProviderLogicalRequestState :=
  match err with
  | None => ProviderLogicalRequestSucceeded
  | Some e =>
      if Is e Canceled || Is e DeadlineExceeded || Is e ErrCanceled then
        ProviderLogicalRequestCancelled
      else if Is e ErrRetryBudgetExhausted then ProviderLogicalRequestRetryExhausted
      else if Is e ErrRetryUnsafeAfterPartial then ProviderLogicalRequestOutcomeUnknown
      else ProviderLogicalRequestFailed
  end.

(** [int64(count)]. *)
Definition signed (count : Z) : Z := wrap_int64 count.

Definition providerUsageEqualsSummary (estimated : Usage) (actual : TokenUsage) : bool :=
  if negb (Usage_Known estimated) || negb (TokenUsage_Known actual) ||
     negb (InputTokens estimated =? signed (TokenUsage_Input actual))%Z ||
     negb (CachedInputTokens estimated =? signed (TokenUsage_CachedInput actual))%Z ||
     negb (CacheWriteTokens estimated =? signed (TokenUsage_CacheWrite actual))%Z ||
     negb (OutputTokens estimated =? signed (TokenUsage_Output actual))%Z ||
     negb (ReasoningTokens estimated =? signed (TokenUsage_Reasoning actual))%Z
  then false
  else match NormalizeProviderSpecificUsage unmarshal_counts (ProviderSpecific estimated) with
  | Err _ => false
  | Ok specific =>
      (Z.of_nat (size specific) =? Z.of_nat (size (TokenUsage_ProviderSpecific actual)))%Z &&
      forallb (fun '(category, count) =>
        (default 0 (TokenUsage_ProviderSpecific actual !! category) =? wrap_uint64 count)%Z)
        (map_to_list specific)
  end.

Definition providerAccountingStatus (summary : ProviderRequestAccountingSummary) (estimated : Usage)
    : ProviderAccountingStatus :=
  if Summary_Discrepancy summary then ProviderAccountingDiscrepant
  else if Usage_Known estimated && TokenUsage_Known (Summary_Usage summary) then
    if providerUsageEqualsSummary estimated (Summary_Usage summary) then ProviderAccountingReconciled
    else ProviderAccountingDiscrepant
  else if Summary_AccountingComplete summary || TokenUsage_Known (Summary_Usage summary) then
    ProviderAccountingProviderReported
  else if Usage_Known estimated then ProviderAccountingEstimated
  else ProviderAccountingUnknown.

(** ** Execution *)

Abbreviation executed := (ProviderExecutionResult * option error)%type.

(** The error of the retry executor; [None] of its fuel does not occur. *)
Definition execute_error (x : option (RetryResult * option error)) : option error :=
  match x with Some (_, err) => err | None => None end.

Definition terminal (logical : ProviderLogicalRequest) (executeErr : option error)
    (summary : ProviderRequestAccountingSummary) (input : ExecuteProviderRequest)
    : TransitionProviderLogicalRequest :=
  {| LogicalTransition_ID := Logical_ID logical;
     LogicalTransition_ExpectedRevision := Logical_Revision logical;
     LogicalTransition_From := Logical_State logical;
     LogicalTransition_To := providerLogicalTerminalState executeErr;
     LogicalTransition_AccountingStatus :=
       providerAccountingStatus summary (EstimatedUsage input) |}.

(** The service and its dependencies are there. *)
Definition execute (executor : RetryExecutor) (input : ExecuteProviderRequest)
    : program answer executed :=
  let identity := Request_Identity (Request input) in
  match ValidateRequestIdentity identity with
  | Some err => Ret (no_result, Some err)
  | None =>
  match validateExecutionInput input with
  | Some err => Ret (no_result, Some err)
  | None =>
  Ask (GetLogicalRequest (RequestIdentity_ModelRequestID identity)) (fun found =>
  match found with
  | Err err => Ret (no_result, Some err)
  | Ok logical =>
  match validateLogicalRequestBinding logical input with
  | Some err => Ret (no_result, Some err)
  | None =>
  if negb (Logical_State logical =? ProviderLogicalRequestInFlight) then
    Ret (no_result, Some (Sentinel "provider logical request is not in flight"))
  else
  bind (interpret (handle input) (Execute scale executor identity) {| live := ∅; final := None |})
    (fun x =>
  let executeErr := execute_error x.1 in
  Ask (SummarizeAccounting (RequestIdentity_ModelRequestID identity)) (fun summarized =>
  let '(summary, summaryErr) := summarized in
  let result := {| Result_Final := final x.2; Result_Accounting := summary |} in
  Ask (TransitionLogicalRequest (terminal logical executeErr summary input)) (fun transitioned =>
  match err_of transitioned with
  | Some transitionErr => Ret (result, errors_Join [executeErr; summaryErr; Some transitionErr])
  | None =>
      match errors_Join [executeErr; summaryErr] with
      | Some err => Ret (result, Some err)
      | None =>
          match final x.2 with
          | None => Ret (result, Some (Sentinel "provider request completed without a final response"))
          | Some _ => Ret (result, None)
          end
      end
  end)))
  end
  end)
  end
  end.
End Execution.
