(* ===== verification/BudgetedExecution.v ===== *)
(** * Provider requests under a budget
    (src/internal/coordinator/provider_budget_execution.go and provider_budget_math.go)

    The only way the program reaches a provider: the whole bound of a request
    with all its retries is reserved in the ledger, the request is executed,
    and what it used is settled, recorded for reconciliation, or, where
    nothing was used, released. *)

From Stdlib Require Import Ascii QArith.
From S2P Require Import Prelude GoText GoErrors PolicyValues ProviderTypes Pricing Ports.
From S2P Require Import AgentTypes Retry Redact ProviderMetadata BudgetSnapshots BudgetLedger.
From S2P Require Import ProviderAttempts ProviderExecution.
Open Scope string_scope.
Open Scope list_scope.
Open Scope go_scope.

Definition ErrProviderBudgetPriceUnknown : string := "provider budget price is unknown".
Definition ErrProviderBudgetBoundExceeded : string := "provider settlement exceeded approved bound".

Definition maximumBudgetReleaseRevisionRetries : nat := 8.

(** ** Exact costs (provider_budget_math.go) *)

Definition exactMinorCostFromBig (numerator denominator : Z) (currency : CurrencyCode)
    : result error ExactMinorCost :=
  if (numerator <? 0)%Z || (denominator <? 1)%Z then
    Err (Sentinel "exact cost must be non-negative with a positive denominator")
  else
    let common := Z.gcd numerator denominator in
    let common := if (common =? 0)%Z then 1%Z else common in
    let reducedNumerator := Z.quot numerator common in
    let reducedDenominator := Z.quot denominator common in
    if negb (IsInt64 reducedNumerator) || negb (IsInt64 reducedDenominator) then
      Err (Sentinel "exact cost exceeds durable integer range")
    else Ok {| Numerator := reducedNumerator; Denominator := reducedDenominator; Currency := currency |}.

(** [ParseCurrencyCode] returns the code it was given. *)
Definition normalizeExactMinorCost (value : ExactMinorCost) : result error ExactMinorCost :=
  match ParseCurrencyCode (Currency value) with
  | Err e => Err (value_error e)
  | Ok currency =>
      if negb (currency =? Currency value) then Ok no_cost
      else if (Numerator value <? 0)%Z || (Denominator value <? 1)%Z then
        Err (Sentinel "exact cost must be non-negative with a positive denominator")
      else exactMinorCostFromBig (Numerator value) (Denominator value) (Currency value)
  end.

Definition exactMinorCostFromAmount (amount : ExactAmount) : result error ExactMinorCost :=
  if negb (Amount_Known amount) then Err (Sentinel "provider price is unknown")
  else match ParseCurrencyCode (Amount_Currency amount) with
  | Err e => Err (value_error e)
  | Ok currency =>
      normalizeExactMinorCost
        {| Numerator := Amount_Numerator amount; Denominator := Amount_Denominator amount;
           Currency := currency |}
  end.

Definition multiplyExactMinorCost (value : ExactMinorCost) (factor : Z) : result error ExactMinorCost :=
  normalized ← normalizeExactMinorCost value;
  if (factor <? 1)%Z then Err (Sentinel "cost multiplier must be positive")
  else exactMinorCostFromBig (Numerator normalized * factor) (Denominator normalized)
         (Currency normalized).

Definition addExactMinorCosts (left right : ExactMinorCost) : result error ExactMinorCost :=
  left ← normalizeExactMinorCost left;
  right ← normalizeExactMinorCost right;
  if negb (Currency left =? Currency right) then Err (Sentinel "cost currencies do not match")
  else exactMinorCostFromBig
         (Numerator left * Denominator right + Numerator right * Denominator left)
         (Denominator left * Denominator right) (Currency left).

Definition compareExactMinorCosts (left right : ExactMinorCost) : result error comparison :=
  left ← normalizeExactMinorCost left;
  right ← normalizeExactMinorCost right;
  if negb (Currency left =? Currency right) then Err (Sentinel "cost currencies do not match")
  else Ok (Z.compare (Numerator left * Denominator right) (Numerator right * Denominator left)).

Definition is_gt (c : comparison) : bool := match c with Gt => true | _ => false end.

(** ** Signals *)

Abbreviation ProviderBudgetSignal := string (only parsing).
Definition ProviderBudgetWithinLimit : ProviderBudgetSignal := "within-limit".
Definition ProviderBudgetWarning : ProviderBudgetSignal := "warning".
Definition ProviderBudgetExhausted : ProviderBudgetSignal := "exhausted".
Definition ProviderBudgetAccountingUnknown : ProviderBudgetSignal := "accounting-unknown".
Definition ProviderBudgetReconciliationPending : ProviderBudgetSignal := "reconciliation-pending".

Definition providerBudgetSignal (snapshot : BudgetSnapshot) : ProviderBudgetSignal :=
  if snap_ReconciliationPending snapshot then ProviderBudgetReconciliationPending
  else if snap_CostAccountingUnknown snapshot || snap_TokenAccountingUnknown snapshot then
    ProviderBudgetAccountingUnknown
  else if snap_HardCapReached snapshot then ProviderBudgetExhausted
  else if snap_WarningReached snapshot then ProviderBudgetWarning
  else ProviderBudgetWithinLimit.

Record ExecuteBudgetedProviderRequest := {
  Budgeted_BudgetID : ID;
  Budgeted_TaskID : ID;
  Budgeted_RunID : ID;
  Budgeted_PreflightRevision : Z;
  Budgeted_ExpectedBudgetRevision : Z;
  Budgeted_ApprovedUsagePerAttempt : Usage;
  Budgeted_Provider : ExecuteProviderRequest;
}.

Record BudgetedProviderExecutionResult := {
  Output_Provider : ProviderExecutionResult;
  Output_Reservation : BudgetReservation;
  Output_Budget : BudgetSnapshot;
  Output_Signal : ProviderBudgetSignal;
}.

Definition no_output : BudgetedProviderExecutionResult :=
  {| Output_Provider := no_result; Output_Reservation := no_reservation;
     Output_Budget := no_snapshot; Output_Signal := "" |}.

(** [output.Budget = snapshot; output.Signal = providerBudgetSignal(snapshot)]. *)
Definition with_budget (output : BudgetedProviderExecutionResult) (snapshot : BudgetSnapshot)
    : BudgetedProviderExecutionResult :=
  {| Output_Provider := Output_Provider output; Output_Reservation := Output_Reservation output;
     Output_Budget := snapshot; Output_Signal := providerBudgetSignal snapshot |}.

(** ** Bounds *)

(** The loop that adds the counts. *)
Fixpoint bound_total (counts : list Z) (total : Z) : result error Z :=
  match counts with
  | [] => Ok total
  | count :: rest =>
      if (count <? 0)%Z || (2 ^ 64 - 1 - total <? count)%Z then
        Err (Sentinel "approved provider token bound overflows")
      else bound_total rest (total + count)
  end.

Section Bounds.
Context (unmarshal_counts : string -> option (gmap string Z)).
Context (json_Valid : string -> bool).
Context (count_order : gmap string Z -> list (string * Z)).

Definition providerRetryTokenBound (usage : Usage) (attemptLimit : Z) : result error Z :=
  specific ← NormalizeProviderSpecificUsage unmarshal_counts (ProviderSpecific usage);
  let counts := [InputTokens usage; CachedInputTokens usage; CacheWriteTokens usage;
                 OutputTokens usage; ReasoningTokens usage] ++ map snd (count_order specific) in
  total ← bound_total counts 0;
  if (attemptLimit <? 1)%Z ||
     (negb (total =? 0)%Z && ((2 ^ 64 - 1) / total <? attemptLimit)%Z) then
    Err (Sentinel "approved provider retry token bound overflows")
  else Ok (wrap_uint64 (total * attemptLimit)).

Definition price_of (price : PriceSnapshot) (usage : Usage) : result error ExactMinorCost :=
  exactMinorCostFromAmount (Pricing.Cost unmarshal_counts count_order price usage).

Definition price_unknown (err : error) : error :=
  default err (errors_Join [Some (Sentinel ErrProviderBudgetPriceUnknown); Some err]).

Definition validateEstimatedUsageWithinApprovedBound (price : PriceSnapshot)
    (estimated approved : Usage) : option error :=
  if negb (Usage_Known estimated) then None
  else match price_of price estimated with
  | Err err => Some (price_unknown err)
  | Ok estimatedCost =>
  match price_of price approved with
  | Err err => Some (price_unknown err)
  | Ok approvedCost =>
  match compareExactMinorCosts estimatedCost approvedCost with
  | Err err => Some err
  | Ok comparison =>
  if is_gt comparison then
    Some (Sentinel "estimated provider cost exceeds approved usage bound")
  else match providerRetryTokenBound estimated 1 with
  | Err err => Some err
  | Ok estimatedTokens =>
  match providerRetryTokenBound approved 1 with
  | Err err => Some err
  | Ok approvedTokens =>
      if (approvedTokens <? estimatedTokens)%Z then
        Some (Sentinel "estimated provider tokens exceed approved usage bound")
      else None
  end end end end end.
End Bounds.

(** A value that may be absent, and an error. *)
Definition normalizedProviderActualCost (cost : option ExactMinorCost)
    : option ExactMinorCost * option error :=
  match cost with
  | None => (None, None)
  | Some cost =>
      match normalizeExactMinorCost cost with
      | Err err => (None, Some err)
      | Ok normalized => (Some normalized, None)
      end
  end.

Definition providerActualTokens (usage : TokenUsage) : option Z * option error :=
  match TokenUsage_Total usage with
  | Err err => (None, Some (value_error err))
  | Ok (total, known) => (if known then Some total else None, None)
  end.

Definition providerSettlementBoundError (actual : option ExactMinorCost) (bound : ExactMinorCost)
    (actualTokens : option Z) (tokenBound : Z) : option error :=
  let tokens :=
    match actualTokens with
    | Some tokens => if (tokenBound <? tokens)%Z
                     then Some (Sentinel ErrProviderBudgetBoundExceeded) else None
    | None => None
    end in
  match actual with
  | None => tokens
  | Some actual =>
      match compareExactMinorCosts actual bound with
      | Err err => Some err
      | Ok comparison =>
          if is_gt comparison then Some (Sentinel ErrProviderBudgetBoundExceeded) else tokens
      end
  end.

(** ** Releasing a reservation *)

Definition released_at (input : ReleaseInput) (revision : Z) : ReleaseInput :=
  {| release_ReservationID := release_ReservationID input; release_ExpectedRevision := revision;
     release_ReasonRedacted := release_ReasonRedacted input;
     release_ProvenanceJSON := release_ProvenanceJSON input |}.

(** The loop, with [attempts] turns left. *)
Fixpoint release_loop (attempts : nat) (input : ReleaseInput) (task : ID) (snapshot : BudgetSnapshot)
    : program answer (BudgetSnapshot * option error) :=
  match attempts with
  | O => Ret (snapshot, Some (text_cause "release provider budget after concurrent postings"
                                (Sentinel ErrStaleRevision)))
  | S attempts =>
      Ask (Release input) (fun released =>
      let '(snapshot, err) := released in
      if negb (Is_opt err ErrStaleRevision) then Ret (snapshot, err)
      else
        Ask (GetSnapshot task) (fun got =>
        match got with
        | Err getErr => Ret (snapshot, errors_Join [err; Some getErr])
        | Ok current => release_loop attempts (released_at input (snap_Revision current)) task current
        end))
  end.

Definition releaseWithRevisionRetry (input : ReleaseInput) (task : ID)
    : program answer (BudgetSnapshot * option error) :=
  release_loop maximumBudgetReleaseRevisionRetries input task no_snapshot.

(** ** Execution *)

Section Budgeted.
Context (redactor : Boundary -> string -> result error string).
Context (marshal_metadata : RedactedProviderMetadata -> string).
Context (field_order : gmap string string -> list (string * string)).
Context (unmarshal_counts : string -> option (gmap string Z)).
Context (json_Valid : string -> bool).
Context (count_order : gmap string Z -> list (string * Z)).
Context (hex_sha256 : string -> string).
Context (scale : Duration -> Q -> Duration).

Abbreviation budgeted := (BudgetedProviderExecutionResult * option error)%type.

Definition fails {A} (err : error) : body answer budgeted A := returning (no_output, Some err).

(** What is reserved and what may be settled. *)
Record bounds := {
  plan_cost : ExactMinorCost;
  plan_settlement : ExactMinorCost;
  plan_tokens : Z;
  plan_provenance : string;
}.

Definition activateProviderLogicalRequest (logical : ProviderLogicalRequest)
    : program answer (option error) :=
  if negb (Logical_State logical =? ProviderLogicalRequestPlanned) then
    Ret (Some (Sentinel "provider logical request is not planned"))
  else
    Ask (TransitionLogicalRequest
      {| LogicalTransition_ID := Logical_ID logical;
         LogicalTransition_ExpectedRevision := Logical_Revision logical;
         LogicalTransition_From := ProviderLogicalRequestPlanned;
         LogicalTransition_To := ProviderLogicalRequestInFlight;
         LogicalTransition_AccountingStatus := ProviderAccountingUnknown |})
      (fun transitioned => Ret (err_of transitioned)).

(** The request, its price and the task it belongs to, before anything is
    computed: the price, and the logical request that is to be activated. *)
Definition check_request (input : ExecuteBudgetedProviderRequest)
    : body answer budgeted (PriceSnapshot * ProviderLogicalRequest) :=
  let provider := Budgeted_Provider input in
  let identity := Request_Identity (Request provider) in
  if IsZero (Budgeted_BudgetID input) then fails (Sentinel "provider budget ID is required")
  else if IsZero (Budgeted_TaskID input) || IsZero (Budgeted_RunID input) ||
          (Budgeted_PreflightRevision input =? 0)%Z then
    fails (Sentinel "provider task, run, and execution preflight are required")
  else match Request_PriceSnapshot provider with
  | None => fails (Sentinel ErrProviderBudgetPriceUnknown)
  | Some price =>
  match ValidateRequestIdentity identity with
  | Some err => fails err
  | None =>
  match validateExecutionInput unmarshal_counts json_Valid provider with
  | Some err => fails err
  | None =>
  let? found := asking (GetLogicalRequest (RequestIdentity_ModelRequestID identity)) in
  match found with
  | Err err => fails err
  | Ok logical =>
      if negb (Logical_TaskID logical =? Budgeted_TaskID input) ||
         negb (bool_decide (Logical_RunID logical = Some (Budgeted_RunID input))) then
        fails (Sentinel "provider request does not belong to the authorized task and run")
      else if negb (Logical_State logical =? ProviderLogicalRequestPlanned) then
        fails (Sentinel "provider request must be planned before budget reservation")
      else going (price, logical)
  end end end end.

(** The budget the request is bound to. *)
Definition check_budget (input : ExecuteBudgetedProviderRequest) : body answer budgeted unit :=
  let? got := asking (GetSnapshot (Budgeted_TaskID input)) in
  match got with
  | Err err => fails err
  | Ok snapshot =>
      if negb (snap_BudgetID snapshot =? Budgeted_BudgetID input) ||
         negb (snap_TaskID snapshot =? Budgeted_TaskID input) ||
         negb (snap_Revision snapshot =? Budgeted_ExpectedBudgetRevision input)%Z then
        fails (Sentinel "provider budget does not match the authorized task revision")
      else
        let? got := asking (GetPreflight (Budgeted_TaskID input) (Budgeted_PreflightRevision input)) in
        match got with
        | Err err => fails err
        | Ok preflight =>
            if negb (Preflight_BudgetID preflight =? Budgeted_BudgetID input) ||
               negb (Preflight_TaskID preflight =? Budgeted_TaskID input) ||
               negb (Preflight_BudgetLimitRevision preflight =? snap_LimitRevision snapshot)%Z then
              fails (Sentinel "provider budget is not bound to the execution preflight")
            else going tt
        end
  end.

Definition no_overage (currency : CurrencyCode) : ExactMinorCost :=
  {| Numerator := 0; Denominator := 1; Currency := currency |}.

Definition provenance_of (price : PriceSnapshot) (attemptLimit : Z) (overage : ExactMinorCost)
    : string :=
  json_object
    [("maximum_in_flight_cost_overage",
      json_object [("currency", json_quote (Currency overage));
                   ("minor_denominator", fmt_d (Denominator overage));
                   ("minor_numerator", fmt_d (Numerator overage))]);
     ("maximum_physical_attempts", fmt_d attemptLimit);
     ("maximum_token_overage", "0");
     ("price_snapshot_id", json_quote (PriceSnapshot_ID price));
     ("schema_version", "1");
     ("source", json_quote "coordinator-provider-budget")].

(** The bound of the request with all its attempts. *)
Definition plan_bounds (input : ExecuteBudgetedProviderRequest) (price : PriceSnapshot)
    (attemptLimit : Z) : result error bounds :=
  let approved := Budgeted_ApprovedUsagePerAttempt input in
  let provider := Budgeted_Provider input in
  let maximum := Request_MaximumTokens (Request provider) in
  match validateProviderUsage unmarshal_counts json_Valid approved with
  | Some err => Err (text_cause "validate approved provider usage bound" err)
  | None =>
  if negb (Usage_Known approved) then Err (Sentinel "approved provider usage bound must be known")
  else if (0 <? maximum)%Z && (OutputTokens approved <? maximum)%Z then
    Err (Sentinel "approved provider usage does not cover the request output limit")
  else match price_of unmarshal_counts count_order price approved with
  | Err err => Err (price_unknown err)
  | Ok cost =>
  match validateEstimatedUsageWithinApprovedBound unmarshal_counts count_order price
          (EstimatedUsage provider) approved with
  | Some err => Err err
  | None =>
      costBound ← multiplyExactMinorCost cost attemptLimit;
      let overage := no_overage (Currency costBound) in
      maximumSettlement ← addExactMinorCosts costBound overage;
      tokenBound ← providerRetryTokenBound unmarshal_counts count_order approved attemptLimit;
      if RequestIdentity_ModelRequestID (Request_Identity (Request provider)) =? "" then
        Err (Sentinel "provider model request ID is required")
      else Ok {| plan_cost := costBound; plan_settlement := maximumSettlement;
                 plan_tokens := tokenBound;
                 plan_provenance := provenance_of price attemptLimit overage |}
  end end end.

Definition request_id (input : ExecuteBudgetedProviderRequest) : string :=
  RequestIdentity_ModelRequestID (Request_Identity (Request (Budgeted_Provider input))).
Definition reservation_id (input : ExecuteBudgetedProviderRequest) : string :=
  request_id input +:+ "-model-budget".

Definition reserve_input (input : ExecuteBudgetedProviderRequest) (attemptLimit : Z) (b : bounds)
    : ReserveInput :=
  {| reserve_ID := reservation_id input; reserve_BudgetID := Budgeted_BudgetID input;
     reserve_ExpectedRevision := Budgeted_ExpectedBudgetRevision input;
     reserve_OperationID := request_id input; reserve_AttemptID := None;
     reserve_RetryOrdinal := 0; reserve_Category := BudgetCostModel;
     reserve_ProviderCallSlots := wrap_uint32 attemptLimit; reserve_CostBound := plan_cost b;
     reserve_TokenBound := Some (plan_tokens b);
     reserve_IdempotencyKey := reservation_id input +:+ "-reserve";
     reserve_ProvenanceJSON := plan_provenance b |}.

(** Nothing was used: the bound is given back. *)
Definition release_unused (output : BudgetedProviderExecutionResult) (snapshot : BudgetSnapshot)
    (b : bounds) (reason : string) (err : option error) : program answer budgeted :=
  let reservation := Output_Reservation output in
  bind (releaseWithRevisionRetry
          {| release_ReservationID := res_ID reservation;
             release_ExpectedRevision := snap_Revision snapshot;
             release_ReasonRedacted := reason; release_ProvenanceJSON := plan_provenance b |}
          (res_TaskID reservation))
    (fun x => Ret (with_budget output x.1, errors_Join [err; x.2])).

(** What the attempts used, as the summary tells it. *)
Record actual_usage := {
  used_cost : option ExactMinorCost;
  used_tokens : option Z;
  used_slots : Z;
  used_errors : list (option error);
}.

Definition actual_usage_of (summary : ProviderRequestAccountingSummary) : actual_usage :=
  let '(cost, costErr) := normalizedProviderActualCost (Summary_Cost summary) in
  let '(tokens, tokensErr) := providerActualTokens (Summary_Usage summary) in
  {| used_cost := cost; used_tokens := tokens;
     used_slots := if (2 ^ 32 - 1 <? Summary_AttemptCount summary)%Z then 2 ^ 32 - 1
                   else wrap_uint32 (Summary_AttemptCount summary);
     used_errors := [costErr; tokensErr] |}.

Definition settlement_bound_error (summary : ProviderRequestAccountingSummary) (u : actual_usage)
    (b : bounds) (attemptLimit : Z) : option error :=
  let boundErr := providerSettlementBoundError (used_cost u) (plan_settlement b) (used_tokens u)
                    (plan_tokens b) in
  if (attemptLimit <? Summary_AttemptCount summary)%Z then
    errors_Join [boundErr; Some (Sentinel ErrProviderBudgetBoundExceeded);
                 Some (Sentinel "provider physical attempt count exceeded approved bound")]
  else boundErr.

Definition intent_input (input : ExecuteBudgetedProviderRequest) (reservation : BudgetReservation)
    (u : actual_usage) (b : bounds) (reason : string) : IntentInput :=
  {| intent_ID := reservation_id input +:+ "-reconciliation";
     intent_ReservationID := res_ID reservation; intent_ActualCost := used_cost u;
     intent_ActualTokens := used_tokens u; intent_ActualProviderCallSlots := used_slots u;
     intent_ReasonRedacted := reason;
     intent_IdempotencyKey := reservation_id input +:+ "-reconciliation";
     intent_ProvenanceJSON := plan_provenance b |}.

Definition settle_input (input : ExecuteBudgetedProviderRequest) (reservation : BudgetReservation)
    (u : actual_usage) (b : bounds) : SettleInput :=
  {| settle_ID := reservation_id input +:+ "-usage"; settle_ReservationID := res_ID reservation;
     settle_ActualCost := used_cost u; settle_ActualTokens := used_tokens u;
     settle_ActualProviderCallSlots := used_slots u;
     settle_IdempotencyKey := reservation_id input +:+ "-settle";
     settle_ProvenanceJSON := plan_provenance b |}.

Definition pending_error : option error := Some (Sentinel ErrBudgetReconciliationPending).

(** The usage is beyond what was reserved. *)
Definition reconcile_excess (input : ExecuteBudgetedProviderRequest)
    (output : BudgetedProviderExecutionResult) (u : actual_usage) (b : bounds)
    (executionErr boundErr : option error) : program answer budgeted :=
  Ask (RecordIntent (intent_input input (Output_Reservation output) u b
         "provider usage exceeded the finite in-flight settlement envelope"))
    (fun recorded =>
    let '(pending, intentErr) := recorded in
    let joined := errors_Join ([executionErr] ++ used_errors u ++ [boundErr; intentErr]) in
    Ret (with_budget output pending,
         if negb (present intentErr) && snap_ReconciliationPending pending
         then errors_Join [joined; pending_error] else joined)).

(** The usage is settled, or recorded where that fails. *)
Definition settle_usage (input : ExecuteBudgetedProviderRequest)
    (output : BudgetedProviderExecutionResult) (u : actual_usage) (b : bounds)
    (executionErr : option error) : program answer budgeted :=
  let finish settled settleErr :=
    Ret (with_budget output settled,
         errors_Join ([executionErr] ++ used_errors u ++ [settleErr; None])) in
  Ask (Settle (settle_input input (Output_Reservation output) u b)) (fun answered =>
  let '(settled, settleErr) := answered in
  match settleErr with
  | None => finish settled None
  | Some _ =>
      Ask (RecordIntent (intent_input input (Output_Reservation output) u b
             "provider usage settlement requires reconciliation"))
        (fun recorded =>
        let '(pending, intentErr) := recorded in
        match intentErr with
        | Some _ => finish settled (errors_Join [settleErr; intentErr])
        | None => finish pending (if snap_ReconciliationPending pending
                                  then errors_Join [settleErr; pending_error] else None)
        end)
  end).

Definition with_reservation (reservation : BudgetReservation) (snapshot : BudgetSnapshot)
    : BudgetedProviderExecutionResult :=
  {| Output_Provider := no_result; Output_Reservation := reservation; Output_Budget := snapshot;
     Output_Signal := providerBudgetSignal snapshot |}.
Definition with_provider (output : BudgetedProviderExecutionResult)
    (provider : ProviderExecutionResult) : BudgetedProviderExecutionResult :=
  {| Output_Provider := provider; Output_Reservation := Output_Reservation output;
     Output_Budget := Output_Budget output; Output_Signal := Output_Signal output |}.

(** After the request was executed. *)
Definition account (input : ExecuteBudgetedProviderRequest) (attemptLimit : Z) (b : bounds)
    (snapshot : BudgetSnapshot) (output : BudgetedProviderExecutionResult)
    (executed : ProviderExecutionResult * option error) : program answer budgeted :=
  let '(providerResult, executionErr) := executed in
  let output := with_provider output providerResult in
  let summary := Result_Accounting providerResult in
  if (Summary_AttemptCount summary =? 0)%Z then
    release_unused output snapshot b "provider I/O did not begin" executionErr
  else
    let u := actual_usage_of summary in
    match settlement_bound_error summary u b attemptLimit with
    | Some boundErr => reconcile_excess input output u b executionErr (Some boundErr)
    | None => settle_usage input output u b executionErr
    end.

(** Under the reservation. *)
Definition execute_reserved (executor : RetryExecutor) (input : ExecuteBudgetedProviderRequest)
    (logical : ProviderLogicalRequest) (attemptLimit : Z) (b : bounds)
    (output : BudgetedProviderExecutionResult) (snapshot : BudgetSnapshot)
    : program answer budgeted :=
  bind (activateProviderLogicalRequest logical) (fun activationErr =>
  match activationErr with
  | Some err =>
      release_unused output snapshot b "provider request activation failed before I/O" (Some err)
  | None =>
      bind (execute redactor marshal_metadata field_order unmarshal_counts json_Valid count_order
              hex_sha256 scale executor (Budgeted_Provider input))
        (account input attemptLimit b snapshot output)
  end).

Definition reserve_and_execute (executor : RetryExecutor) (input : ExecuteBudgetedProviderRequest)
    (logical : ProviderLogicalRequest) (attemptLimit : Z) (b : bounds) : program answer budgeted :=
  Ask (Reserve (reserve_input input attemptLimit b)) (fun answered =>
  let '(reservation, snapshot, err) := answered in
  let output := with_reservation reservation snapshot in
  match err with
  | Some _ => Ret (output, err)
  | None =>
      if negb (res_State reservation =? BudgetReservationActive) then
        Ret (output, Some (Sentinel "provider budget reservation is not active"))
      else execute_reserved executor input logical attemptLimit b output snapshot
  end).

(** The service and its dependencies are there. *)
Definition Execute (executor : RetryExecutor) (input : ExecuteBudgetedProviderRequest)
    : program answer budgeted :=
  let attemptLimit := MaximumAttempts (policy executor) in
  bind (let? found := check_request input in check_budget input ;;? going found) (fun checked =>
  match checked with
  | inl returned => Ret returned
  | inr (price, logical) =>
      match plan_bounds input price attemptLimit with
      | Err err => Ret (no_output, Some err)
      | Ok b => reserve_and_execute executor input logical attemptLimit b
      end
  end).

(** The ledger verifies the approval. *)
Definition RaiseLimit (input : RaiseInput) : program answer (BudgetSnapshot * option error) :=
  if IsZero (raise_ApprovalID input) then Ret (no_snapshot, Some (Sentinel ErrBudgetApprovalRequired))
  else ask (Raise input).

(** [NewBudgetedProviderExecutionService]: the executor it is built with. *)
Definition NewBudgetedProviderExecutionService (p : RetryPolicy) : result error RetryExecutor :=
  executor ← NewRetryExecutor p false;
  if (MaximumAttempts (policy executor) <? 1)%Z then
    Err (Sentinel "provider physical-attempt bound is unavailable")
  else Ok executor.
End Budgeted.
