(* ===== verification/ProviderFacts.v ===== *)
(** * What an executed provider request does

    The calls of [execute] seen through three lists: the attempts that reached
    the provider, the attempts whose accounting was ensured, and the calls to
    the budget ledger. The first are the attempts that the retry executor
    makes, numbered and bounded; each was stored as started before, and its
    accounting was ensured after. *)

From Stdlib Require Import Ascii QArith.
From S2P Require Import Prelude GoText GoErrors PolicyValues ProviderTypes Pricing Ports.
From S2P Require Import AgentTypes Retry RetryFacts Redact ProviderMetadata BudgetSnapshots BudgetLedger.
From S2P Require Import ProviderAttempts ProviderExecution.
Open Scope string_scope.
Open Scope list_scope.
Open Scope Z_scope.

(** ** Views of a history *)

Abbreviation history := (list (event answer)).

Definition streamed (e : event answer) : option PhysicalAttempt :=
  match projT1 e with Stream a _ => Some a | _ => None end.
Definition streams (h : history) : list PhysicalAttempt := omap streamed h.

(** The attempts whose accounting the store was asked to ensure, with its answers. *)
Definition ensured (e : event answer) : option (string * option error) :=
  let 'existT p r := e in
  match p return answer p -> option (string * option error) with
  | EnsureAccounting i => fun r => Some (Ensure_AttemptID i, r)
  | _ => fun _ => None
  end r.
Definition ensures (h : history) : list (string * option error) := omap ensured h.

(** The store has ensured the accounting of the attempt, or failed to twice. *)
Definition accounted (id : string) (asked : list (string * option error)) : Prop :=
  (id, None) ∈ asked \/ exists e1 e2, [(id, Some e2); (id, Some e1)] `sublist_of` asked.

Lemma accounted_later id asked later : accounted id asked -> accounted id (later ++ asked).
Proof.
  intros [H|(e1 & e2 & H)]; [left; apply elem_of_app; by right|right]. exists e1, e2.
  by apply sublist_inserts_l.
Qed.

(** The attempts that were stored as started. *)
Definition marked (e : event answer) : option string :=
  let 'existT p r := e in
  match p return answer p -> option string with
  | TransitionAttempt i => fun r =>
      match r with
      | Ok _ => if (Transition_To i =? ProviderRequestAttemptStarted)%string then Some (Transition_ID i) else None
      | Err _ => None
      end
  | _ => fun _ => None
  end r.
Definition marks (h : history) : list string := omap marked h.

Inductive ledger_call : Type :=
| Reserved (i : ReserveInput) (r : answer (Reserve i))
| Settled (i : SettleInput) (r : answer (Settle i))
| Released (i : ReleaseInput) (r : answer (Release i))
| Intended (i : IntentInput) (r : answer (RecordIntent i)).

Definition charged (e : event answer) : option ledger_call :=
  let 'existT p r := e in
  match p return answer p -> option ledger_call with
  | Reserve i => fun r => Some (Reserved i r)
  | Settle i => fun r => Some (Settled i r)
  | Release i => fun r => Some (Released i r)
  | RecordIntent i => fun r => Some (Intended i r)
  | _ => fun _ => None
  end r.
Definition charges (h : history) : list ledger_call := omap charged h.

Definition summed (e : event answer) : option (ProviderRequestAccountingSummary * option error) :=
  let 'existT p r := e in
  match p return answer p -> option (ProviderRequestAccountingSummary * option error) with
  | SummarizeAccounting _ => fun r => Some r
  | _ => fun _ => None
  end r.
Definition summaries (h : history) : list (ProviderRequestAccountingSummary * option error) :=
  omap summed h.

Lemma in_view {X} (f : event answer -> option X) (t : list (event answer)) x :
  x ∈ omap f (reverse t) -> exists t1 p (r : answer p) t2, t = t1 ++ called p r :: t2 /\ f (called p r) = Some x.
Proof.
  intros (e & He & Hf)%list_elem_of_omap. apply elem_of_reverse, list_elem_of_split in He as (t1 & t2 & ->).
  destruct e as [p r]. by exists t1, p, r, t2.
Qed.

Lemma errors_Join_None l : errors_Join l = None <-> Forall (eq None) l.
Proof.
  unfold errors_Join. split.
  - intros H. assert (omap id l = []) as Hl by (by destruct (omap id l)).
    clear H. induction l as [|[e|] l IH]; [constructor|done|]. constructor; auto.
  - intros Hl. assert (omap id l = []) as ->; [|done]. induction Hl; by simplify_eq/=.
Qed.

(** ** Programs that make only some calls *)

Section Asks.
Context {port : Type} {answer : port -> Type}.

Fixpoint asks (P : port -> Prop) {A} (m : program answer A) : Prop :=
  match m with
  | Ret _ => True
  | Ask p k => P p /\ forall r, asks P (k r)
  end.

Lemma asks_bind P {A B} (m : program answer A) (f : A -> program answer B) :
  asks P m -> (forall a, asks P (f a)) -> asks P (bind m f).
Proof.
  intros Hm Hf. induction m as [a|p k IH]; simpl in *; [auto|].
  destruct Hm as [Hp Hk]. split; [done|]. intros r. by apply IH.
Qed.

(** Only such calls are added to the history. *)
Lemma asks_obeys (P : port -> Prop) (I : list (event answer) -> port -> Prop) {A}
    (m : program answer A) h :
  asks P m -> (forall h p, P p -> I h p) ->
  obeys I m h (fun _ h' => exists t, h' = t ++ h /\ Forall (fun e => P (projT1 e)) t).
Proof.
  intros Hm HI. revert h. induction m as [a|p k IH]; intros h; simpl; [by exists []|].
  destruct Hm as [Hp Hk]. split; [by apply HI|]. intros r.
  eapply obeys_weaken; [by apply IH|]. intros _ h' (t & -> & Ht).
  exists (t ++ [called p r]). rewrite <- (assoc_L (++)). split; [done|].
  apply Forall_app. split; [done|]. by constructor.
Qed.
End Asks.

(** Calls that reach neither the provider nor the ledger, and ensure nothing. *)
Definition quiet (p : port) : Prop :=
  match p with
  | Stream _ _ | EnsureAccounting _ | SummarizeAccounting _ => False
  | Reserve _ | Settle _ | Release _ | RecordIntent _ => False
  | TransitionAttempt i => Transition_To i <> ProviderRequestAttemptStarted
  | _ => True
  end.

Lemma view_quiet {X} (f : event answer -> option X) (t : history) :
  (forall e, quiet (projT1 e) -> f e = None) -> Forall (fun e => quiet (projT1 e)) t ->
  omap f t = [].
Proof.
  intros Hf. induction 1 as [|e t He _ IH]; [done|]. simpl. rewrite (Hf e He). exact IH.
Qed.

Lemma quiet_views (t : history) :
  Forall (fun e => quiet (projT1 e)) t ->
  streams t = [] /\ ensures t = [] /\ marks t = [] /\ charges t = [] /\ summaries t = [].
Proof.
  intros Ht. split_and!; apply view_quiet; try done; intros [p r]; destruct p; try done.
  simpl. intros Hi. destruct r; [done|].
  by destruct (String.eqb_spec (Transition_To input) ProviderRequestAttemptStarted).
Qed.

(** A quiet program changes no view. *)
Definition same_views (h h' : history) : Prop :=
  streams h' = streams h /\ ensures h' = ensures h /\ marks h' = marks h /\
  charges h' = charges h /\ summaries h' = summaries h.

Lemma asks_quiet (I : history -> port -> Prop) {A} (m : program answer A) h :
  asks quiet m -> (forall h p, quiet p -> I h p) ->
  obeys I m h (fun _ h' => same_views h h').
Proof.
  intros Hm HI. eapply obeys_weaken; [by apply asks_obeys|].
  intros _ h' (t & -> & (H1 & H2 & H3 & H4 & H5)%quiet_views).
  unfold same_views, streams, ensures, marks, charges, summaries in *.
  by rewrite !omap_app, H1, H2, H3, H4, H5.
Qed.

Create HintDb asks.

(** Case analysis on what a program looks at, and its calls in turn. *)
Ltac asks_step :=
  match goal with
  | |- asks _ (Ret _) => exact I
  | |- asks _ (bind _ _) => apply asks_bind
  | |- asks _ (Ask _ _) => split; [try done|]
  | |- asks _ (ask _) => split; [try done|]
  | |- forall _, _ => intros ?
  | |- asks _ (let '(_, _) := ?x in _) => destruct x
  | |- asks _ (match ?x with _ => _ end) => destruct x
  | |- asks _ _ => solve [eauto with asks]
  end.
Ltac asks_all := repeat asks_step.

Section Attempts.
Context (redactor : Boundary -> string -> result error string).
Context (marshal_metadata : RedactedProviderMetadata -> string).
Context (field_order : gmap string string -> list (string * string)).
Context (unmarshal_counts : string -> option (gmap string Z)).
Context (json_Valid : string -> bool).
Context (count_order : gmap string Z -> list (string * Z)).
Context (hex_sha256 : string -> string).

Abbreviation accounting := (appendAttemptAccounting unmarshal_counts json_Valid count_order).
Abbreviation receiving_ := (receive redactor field_order unmarshal_counts json_Valid count_order hex_sha256).

Lemma accounting_quiet attempt input usage partial : asks quiet (accounting attempt input usage partial).
Proof. unfold appendAttemptAccounting. asks_all. Qed.
#[local] Hint Resolve accounting_quiet : asks.

Lemma evidence_quiet attempt sequence kind content :
  asks quiet (appendProviderEvidence hex_sha256 attempt sequence kind content).
Proof. unfold appendProviderEvidence. asks_all. Qed.
#[local] Hint Resolve evidence_quiet : asks.

Lemma consume_quiet p err : quiet p -> asks quiet (consume p err).
Proof. intros Hp. unfold consume. asks_all. Qed.

Lemma fail_attempt_quiet attempt input s usage errs :
  asks quiet (fail_attempt unmarshal_counts json_Valid count_order attempt input s usage errs).
Proof. unfold fail_attempt. asks_all. Qed.
#[local] Hint Resolve fail_attempt_quiet : asks.

Lemma apply_event_quiet attempt input s event :
  asks quiet (apply_event hex_sha256 attempt input s event).
Proof.
  unfold apply_event. cbv zeta. asks_all. by apply consume_quiet.
Qed.
#[local] Hint Resolve apply_event_quiet : asks.

Lemma on_event_quiet attempt input s event :
  asks quiet (on_event redactor field_order unmarshal_counts json_Valid count_order hex_sha256
    attempt input s event).
Proof.
  unfold on_event, publish, close_and_fail, returning, going. cbv zeta. asks_all. by apply consume_quiet.
Qed.
#[local] Hint Resolve on_event_quiet : asks.

Lemma receive_quiet attempt input events ending s :
  asks quiet (receiving_ attempt input events ending s).
Proof.
  revert s. induction events as [|event rest IH]; intros s; simpl.
  - unfold stream_ended. asks_all.
  - unfold conclude_attempt. asks_all.
Qed.
#[local] Hint Resolve receive_quiet : asks.

(** ** The calls of the retry executor *)

Context (input : ExecuteProviderRequest) (identity : RequestIdentity) (policy : RetryPolicy).
Abbreviation handling :=
  (handle redactor marshal_metadata field_order unmarshal_counts json_Valid count_order hex_sha256 input).

Lemma providerAttemptID_inj a b :
  PhysicalAttempt_Identity a = PhysicalAttempt_Identity b ->
  providerAttemptID a = providerAttemptID b -> PhysicalAttempt_Number a = PhysicalAttempt_Number b.
Proof.
  unfold providerAttemptID, fmt_d. intros -> H.
  apply (inj (String.append _)) in H. apply (inj (String.append _)) in H. by apply (inj pretty) in H.
Qed.

(** The outer history [h'] since [h0], and the state of the recorder, follow
    the ledger of the retry executor. *)
Record tracks (h0 : history) (h : list (event Retry.answer)) (h' : history) (s : execution_state)
    : Prop := {
  tr_streams : streams h' = (attempted (ledger_of h)).*1 ++ streams h0;
  tr_charges : charges h' = charges h0;
  tr_summaries : summaries h' = summaries h0;
  tr_marks : forall a, a ∈ prepared (ledger_of h) -> providerAttemptID a ∈ marks h';
  tr_ensures : forall a, a ∈ map AttemptRecord_PhysicalAttempt (completed (ledger_of h)) ->
    accounted (providerAttemptID a) (ensures h');
  tr_identity : forall a, a ∈ prepared (ledger_of h) \/ a ∈ (attempted (ledger_of h)).*1 ->
    PhysicalAttempt_Identity a = identity;
  tr_number : forall a o rest, attempted (ledger_of h) = (a, o) :: rest ->
    PhysicalAttempt_Number a = Z.of_nat (length rest) + 1;
  tr_ready : forall a, head (prepared (ledger_of h)) = Some a ->
    PhysicalAttempt_Number a = Z.of_nat (length (attempted (ledger_of h))) + 1 ->
    is_Some (live s !! providerAttemptID a);
  tr_open : forall a o rest, attempted (ledger_of h) = (a, o) :: rest ->
    map AttemptRecord_PhysicalAttempt (completed (ledger_of h)) = rest.*1 ->
    is_Some (live s !! providerAttemptID a);
}.

(** What the outer calls must be made in: the provider is reached by the next
    attempt, which was stored as started. *)
Definition may_stream (h0 h : history) (p : port) : Prop :=
  match p with
  | Stream a request =>
      PhysicalAttempt_Identity a = identity /\ request = Request input /\
      charges h = charges h0 /\ summaries h = summaries h0 /\
      providerAttemptID a ∈ marks h /\
      exists earlier, streams h = earlier ++ streams h0 /\
        PhysicalAttempt_Number a = Z.of_nat (length earlier) + 1 /\
        PhysicalAttempt_Number a <= MaximumAttempts policy
  | SummarizeAccounting _ | Reserve _ | Settle _ | Release _ | RecordIntent _ => False
  | _ => True
  end.

Lemma quiet_may h0 h p : quiet p -> may_stream h0 h p.
Proof. by destruct p. Qed.

(** A call the executor makes outside of its three handlers. *)
Lemma tracks_other h0 h h' s e :
  prepared (note (ledger_of h) e) = prepared (ledger_of h) ->
  attempted (note (ledger_of h) e) = attempted (ledger_of h) ->
  completed (note (ledger_of h) e) = completed (ledger_of h) ->
  tracks h0 h h' s ->
  forall h'' s', same_views h' h'' -> live s' = live s -> tracks h0 (e :: h) h'' s'.
Proof.
  intros E1 E2 E3 [] h'' s' (V1 & V2 & V3 & V4 & V5) Hl. split; cbn [ledger_of];
    rewrite ?E1, ?E2, ?E3, ?Hl; try done.
  - by rewrite V1.
  - by rewrite V4.
  - by rewrite V5.
  - intros a. rewrite V3. auto.
  - intros a. rewrite V2. auto.
Qed.

Lemma prepare_obeys h0 h h' s a :
  tracks h0 h h' s -> may_call policy identity (ledger_of h) (Prepare a) ->
  obeys (may_stream h0) (handling (Prepare a) s) h'
    (fun x h'' => tracks h0 (called (Prepare a) x.1 :: h) h'' x.2).
Proof.
  intros Ht (Hid & Hnum & _). unfold handle, PrepareProviderAttempt. simpl.
  split; [done|]. intros [e|prepared_]; simpl.
  { by apply (tracks_other h0 h h' s). }
  split; [done|]. intros [e|started]; simpl.
  { split; [done|]. intros abortErr. simpl. apply (tracks_other h0 h h' s); try done; by destruct abortErr. }
  destruct Ht. split; simpl; try done.
  - intros b Hb%elem_of_cons. apply elem_of_cons. destruct Hb as [->|Hb]; [by left|right; auto].
  - intros b [[->|Hb]%elem_of_cons|Hb]; auto.
  - intros b [= <-] _. rewrite lookup_insert_eq. by eauto.
  - intros b o rest Hb Hc. destruct (base.decide (providerAttemptID a = providerAttemptID b)) as [<-|Hne].
    + rewrite lookup_insert_eq. by eauto.
    + rewrite lookup_insert_ne by done. eauto.
Qed.

Lemma attempt_obeys h0 h h' s a :
  tracks h0 h h' s -> may_call policy identity (ledger_of h) (Attempt a) ->
  obeys (may_stream h0) (handling (Attempt a) s) h'
    (fun x h'' => tracks h0 (called (Attempt a) x.1 :: h) h'' x.2).
Proof.
  intros Ht (Hhead & _ & _ & Hatt & Hid & Hnum & Hmax & _). destruct Ht.
  assert (a ∈ prepared (ledger_of h)) as Hin by (destruct (prepared _); simplify_eq/=; by left).
  unfold handle, executeAttempt. simpl. split.
  { split_and!; auto. exists (attempted (ledger_of h)).*1. rewrite length_fmap. auto. }
  intros opened. apply obeys_bind.
  eapply obeys_weaken; [apply asks_quiet; [destruct opened as [e|[events ending]]; asks_all|
    by intros; apply quiet_may]|].
  intros [f o] h'' (V1 & V2 & V3 & V4 & V5). simpl in *.
  split; simpl; rewrite ?V1, ?V2, ?V3, ?V4, ?V5; simpl; try done.
  - unfold streams in *. simpl. by f_equal.
  - intros b [Hb|[->|Hb]%elem_of_cons]; auto.
  - intros b o' rest [= <- <- <-]. rewrite Hnum. lia.
  - intros b Hb. rewrite Hhead in Hb. injection Hb as <-. lia.
  - intros b o' rest [= <- <- <-] _. by apply tr_ready0.
Qed.

(** The calls of two tries, the latest first. *)
Inductive tried (p : port) (err : answer p -> option error) : history -> Prop :=
| tried_once r : err r = None -> tried p err [called p r]
| tried_twice r r' e : err r = Some e -> tried p err [called p r'; called p r].

Lemma tried_calls p err t : tried p err t -> forall c, c ∈ t -> projT1 c = p.
Proof. by intros [] c Hc; rewrite ?elem_of_cons, elem_of_nil in Hc; naive_solver. Qed.

Lemma twice_obeys {A} (J : history -> port -> Prop) p err (k : option error -> program answer A) h Q :
  J h p -> (forall r, J (called p r :: h) p) ->
  (forall e t, tried p err t -> obeys J (k e) (t ++ h) Q) ->
  obeys J (twice p err k) h Q.
Proof.
  intros H1 H2 Hk. unfold twice. simpl. split; [done|]. intros r. destruct (err r) as [e|] eqn:He.
  - simpl. split; [done|]. intros r'.
    assert (forall e', obeys J (k e') (called p r' :: called p r :: h) Q) as Hk'.
    { intros e'. apply (Hk e' [called p r'; called p r]). by eapply tried_twice. }
    destruct (err r'); apply Hk'.
  - apply (Hk None [called p r]). by apply tried_once.
Qed.

Lemma view_of_call {X} (f : event answer -> option X) p (t : history) :
  (forall r, f (called p r) = None) -> (forall c, c ∈ t -> projT1 c = p) -> omap f t = [].
Proof.
  intros Hf. induction t as [|[q r] t IH]; intros Ht; [done|]. simpl.
  assert (q = p) as -> by (apply (Ht (existT q r)); by left).
  change (existT p r) with (called p r). rewrite Hf. apply IH. intros c Hc. apply Ht. by right.
Qed.

Lemma ensure_calls i (t : history) h :
  tried (EnsureAccounting i) (fun r => r) t ->
  streams (t ++ h) = streams h /\ marks (t ++ h) = marks h /\ charges (t ++ h) = charges h /\
  summaries (t ++ h) = summaries h /\ accounted (Ensure_AttemptID i) (ensures (t ++ h)) /\
  forall id, accounted id (ensures h) -> accounted id (ensures (t ++ h)).
Proof.
  intros Ht. pose proof (tried_calls _ _ _ Ht) as Hcalls.
  unfold streams, marks, charges, summaries, ensures. rewrite !omap_app.
  rewrite !(view_of_call _ (EnsureAccounting i) t) by done. split_and!; try done.
  - destruct Ht as [r ->|r r' e ->]; simpl; [left; by left|].
    destruct r' as [e'|]; [|left; by left]. right. exists e, e'. do 2 apply sublist_skip. apply sublist_nil_l.
  - intros id. apply accounted_later.
Qed.

Lemma completed_target record current id_ json :
  Transition_To (completed_attempt record current id_ json) <> ProviderRequestAttemptStarted.
Proof. unfold completed_attempt, providerAttemptOutcome. by repeat case_match; simplify_eq. Qed.

Lemma complete_obeys h0 h h' s record :
  tracks h0 h h' s -> may_call policy identity (ledger_of h) (Complete record) ->
  obeys (may_stream h0) (handling (Complete record) s) h'
    (fun x h'' => tracks h0 (called (Complete record) x.1 :: h) h'' x.2).
Proof.
  intros Ht (_ & a & o & rest & Hatt & Ha & _ & Hcomp). destruct Ht.
  destruct (tr_open0 a o rest Hatt Hcomp) as [current Hlive].
  unfold handle, CompleteProviderAttempt. rewrite Ha, Hlive.
  destruct (sanitizeAttemptEvidence _ _ _ _) as [[pid json] evidenceErr].
  apply obeys_bind, twice_obeys; [done|done|]. intros accountingErr t Hcalls.
  destruct (ensure_calls _ t h' Hcalls) as (V1 & V3 & V4 & V5 & Hen & Hens). simpl in Hen.
  apply twice_obeys; [done|done|]. intros err t' Hcalls'. pose proof (tried_calls _ _ _ Hcalls') as Hc'. clear Hcalls'. rename Hc' into Hcalls'.
  assert (same_views (t ++ h') (t' ++ t ++ h')) as (W1 & W2 & W3 & W4 & W5).
  { destruct (quiet_views t') as (Q1 & Q2 & Q3 & Q4 & Q5).
    - apply Forall_forall. intros c Hc. pose proof (Hcalls' c Hc) as Hq.
      destruct c as [q r]. simpl in Hq. subst q. apply completed_target.
    - unfold same_views, streams, ensures, marks, charges, summaries in *.
      by rewrite !(omap_app _ t'), Q1, Q2, Q3, Q4, Q5. }
  assert (forall e lv, (lv = live s \/ lv = delete (providerAttemptID a) (live s)) ->
    tracks h0 (called (Complete record) e :: h) (t' ++ t ++ h') {| live := lv; final := final s |}) as Hall.
  { intros e lv Hlv. split; simpl; rewrite ?W1, ?W3, ?W4, ?W5, ?V1, ?V3, ?V4, ?V5; try done.
    - intros b Hb. rewrite W2. apply elem_of_cons in Hb as [->|Hb]; [by rewrite Ha|auto].
    - intros b Hb Hnum. destruct (tr_ready0 b Hb Hnum) as [row Hrow].
      destruct Hlv as [->| ->]; [by eauto|]. rewrite lookup_delete_ne; [by eauto|].
      intros Heq. apply providerAttemptID_inj in Heq.
      + rewrite (tr_number0 _ _ _ Hatt), Hatt in *. simpl in Hnum. lia.
      + rewrite !tr_identity0; [done| |].
        * left. destruct (prepared _); simplify_eq/=. by left.
        * right. rewrite Hatt. by left.
    - intros b o' rest' Hb Hc. rewrite Hatt in Hb. injection Hb as <- <- <-.
      apply (f_equal length) in Hc. apply (f_equal length) in Hcomp. simpl in *. lia. }
  destruct err; simpl; apply Hall; auto.
Qed.

Lemma handle_obeys h0 h h' s p :
  tracks h0 h h' s -> may_call policy identity (ledger_of h) p ->
  obeys (may_stream h0) (handling p s) h' (fun x h'' => tracks h0 (called p x.1 :: h) h'' x.2).
Proof.
  destruct p; try solve [by apply prepare_obeys | by apply attempt_obeys | by apply complete_obeys];
    intros Ht _; (split; [done|]); intros r; apply (tracks_other h0 h h' s); try done; simpl; by case_match.
Qed.

(** ** A whole request *)

Context (scale : Duration -> Q -> Duration) (executor : RetryExecutor).
Hypothesis scale_between : forall half fraction,
  0 <= half <= maximumProviderRetryAfter -> (0 <= fraction <= 1)%Q ->
  0 <= scale half fraction <= half.
Hypothesis Hpolicy : policy = Retry.policy executor.
Hypothesis Hok : policy_ok (Retry.policy executor).

(** What the attempts of a request leave. *)
Definition all_accounted (h0 h : history) : Prop :=
  exists made, streams h = made ++ streams h0 /\ Z.of_nat (length made) <= MaximumAttempts policy /\
    (forall a, a ∈ made -> accounted (providerAttemptID a) (ensures h)).

Lemma retries_obey h0 :
  obeys (may_stream h0)
    (interpret handling (Retry.Execute scale executor identity) {| live := ∅; final := None |}) h0
    (fun _ h' => all_accounted h0 h' /\ charges h' = charges h0 /\ summaries h' = summaries h0).
Proof.
  eapply obeys_weaken.
  - eapply (interpret_obeys handling (fun h c => may_call policy identity (ledger_of h) c)
      (may_stream h0) (tracks h0)) with (h := []); [by intros; apply handle_obeys| |].
    + split; simpl; try done; try by intros ? ?%not_elem_of_nil. intros a [H|H]; by apply not_elem_of_nil in H.
    + rewrite Hpolicy. by apply Execute_obeys.
  - intros [x s] h' (h & (r & err & _ & [_ Hmax [_ Hmap] _ _ _ _]) & []). simpl in *.
    split; [|done]. exists (attempted (ledger_of h)).*1. split_and!; [done| |].
    + rewrite length_fmap, Hpolicy. lia.
    + intros a Ha. apply tr_ensures0. by rewrite Hmap.
Qed.
End Attempts.

Section Execution.
Context (redactor : Boundary -> string -> result error string).
Context (marshal_metadata : RedactedProviderMetadata -> string).
Context (field_order : gmap string string -> list (string * string)).
Context (unmarshal_counts : string -> option (gmap string Z)).
Context (json_Valid : string -> bool).
Context (count_order : gmap string Z -> list (string * Z)).
Context (hex_sha256 : string -> string).
Context (scale : Duration -> Q -> Duration) (executor : RetryExecutor) (input : ExecuteProviderRequest).
Hypothesis scale_between : forall half fraction,
  0 <= half <= maximumProviderRetryAfter -> (0 <= fraction <= 1)%Q ->
  0 <= scale half fraction <= half.
Hypothesis Hok : policy_ok (policy executor).

Abbreviation executing :=
  (execute redactor marshal_metadata field_order unmarshal_counts json_Valid count_order hex_sha256
     scale executor input).
Abbreviation identity := (Request_Identity (Request input)).

(** The attempts are summed once they are all accounted for. *)
Definition may_execute (h0 h : history) (p : port) : Prop :=
  match p with
  | SummarizeAccounting id =>
      id = RequestIdentity_ModelRequestID identity /\ charges h = charges h0 /\
      summaries h = summaries h0 /\ all_accounted (policy executor) h0 h
  | _ => may_stream input identity (policy executor) h0 h p
  end.

Lemma quiet_may_execute h0 h p : quiet p -> may_execute h0 h p.
Proof. by destruct p. Qed.

(** The request is not attempted, or the result has the sum of its attempts. *)
Definition executed_well (h0 : history) (x : ProviderExecutionResult * option error) (h : history)
    : Prop :=
  charges h = charges h0 /\ all_accounted (policy executor) h0 h /\
  (x.1 = no_result /\ x.2 <> None /\ streams h = streams h0 /\ summaries h = summaries h0 \/
   exists summaryErr, summaries h = (Result_Accounting x.1, summaryErr) :: summaries h0 /\
     (x.2 = None -> summaryErr = None /\ is_Some (Result_Final x.1))).

Lemma nothing_made h0 h : same_views h0 h -> all_accounted (policy executor) h0 h.
Proof.
  intros (V1 & _). exists []. destruct Hok. simpl. split_and!; [done|lia|].
  by intros a ?%not_elem_of_nil.
Qed.

Lemma provider_execute_obeys h0 : obeys (may_execute h0) executing h0 (executed_well h0).
Proof.
  assert (forall h e, same_views h0 h -> executed_well h0 (no_result, Some e) h) as Hleft.
  { intros h e Hv. pose proof (nothing_made h0 h Hv). destruct Hv as (V1 & V2 & V3 & V4 & V5).
    split_and!; [done|done|]. by left. }
  unfold execute. destruct (ValidateRequestIdentity _); [by apply Hleft|].
  destruct (validateExecutionInput _ _ _); [by apply Hleft|]. simpl. split; [done|].
  intros [e|logical]; [by apply Hleft|]. destruct (validateLogicalRequestBinding _ _); [by apply Hleft|].
  destruct (negb _); [by apply Hleft|]. apply obeys_bind.
  set (h1 := called (GetLogicalRequest _) _ :: h0).
  eapply obeys_mono; [eapply (retries_obey _ _ _ _ _ _ _ input identity (policy executor)); done| |].
  { intros h p. by destruct p. }
  intros [x s] h2 (Hacc & Hch & Hsum). simpl. split; [done|]. intros [summary summaryErr].
  simpl. split; [done|]. intros transitioned.
  assert (forall r, all_accounted (policy executor) h0
    (called (TransitionLogicalRequest (terminal unmarshal_counts logical (execute_error x) summary input)) r
     :: called (SummarizeAccounting (RequestIdentity_ModelRequestID identity)) (summary, summaryErr) :: h2))
    as Hacc' by done.
  destruct (err_of transitioned) as [e|]; simpl.
  { split_and!; [done|done|]. right. exists summaryErr. split; [by simpl; f_equal|]. simpl.
    intros Hj%errors_Join_None. rewrite !Forall_cons in Hj. by destruct Hj as (_ & _ & ? & _). }
  destruct (errors_Join [execute_error x; summaryErr]) as [e|] eqn:Hj; simpl.
  { split_and!; [done|done|]. right. exists summaryErr. split; [by simpl; f_equal|]. done. }
  apply errors_Join_None in Hj. rewrite !Forall_cons in Hj. destruct Hj as (_ & <- & _).
  destruct (final s) eqn:Hf; simpl; (split_and!; [done|done|]); right; exists None;
    (split; [by simpl; f_equal|]); by rewrite ?Hf.
Qed.
End Execution.
