(* ===== verification/BudgetedFacts.v ===== *)
(** * What a budgeted request asks of the ledger

    The bounds that are reserved, and the order of the calls: nothing reaches
    the provider before the reservation of the whole bound was answered, and
    after it the reservation is settled, recorded for reconciliation, or
    released. *)

From Stdlib Require Import Ascii QArith Qreduction.
From S2P Require Import Prelude GoText GoErrors PolicyValues ProviderTypes Pricing PricingFacts Ports.
From S2P Require Import AgentTypes Retry RetryFacts Redact ProviderMetadata.
From S2P Require Import BudgetSchema BudgetSnapshots BudgetLedger BudgetFacts ProviderAttempts ProviderExecution.
From S2P Require Import ProviderFacts BudgetedExecution.
Open Scope string_scope.
Open Scope list_scope.
Open Scope Z_scope.

(** ** Exact costs *)

(** A cost in lowest terms that fits the columns it is stored in. *)
Record exact_cost_ok (v : ExactMinorCost) : Prop := {
  ec_numerator : 0 <= Numerator v;
  ec_denominator : 1 <= Denominator v;
  ec_lowest : Z.gcd (Numerator v) (Denominator v) = 1;
  ec_ranges : int64_range (Numerator v) /\ int64_range (Denominator v);
}.

Lemma exactMinorCostFromBig_Ok n m c v :
  exactMinorCostFromBig n m c = Ok v ->
  0 <= n /\ 1 <= m /\ exact_cost_ok v /\ Currency v = c /\ (exactCostRat v == SetFrac n m)%Q.
Proof.
  unfold exactMinorCostFromBig. destruct (_ || _) eqn:Hneg; [done|]. to_prop.
  assert (0 < Z.gcd n m) as Hg by (pose proof (Z.gcd_nonneg n m);
    destruct (Z.eq_dec (Z.gcd n m) 0) as [H0|]; [apply Z.gcd_eq_0 in H0; lia|lia]).
  rewrite (proj2 (Z.eqb_neq (Z.gcd n m) 0)) by lia.
  destruct (_ || _) eqn:Hr; [done|]. intros [= <-]. apply orb_false_iff in Hr as [R1 R2].
  apply negb_false_iff, bool_decide_eq_true in R1, R2.
  destruct (Z.gcd_divide_l n m) as [a Ha]. destruct (Z.gcd_divide_r n m) as [b Hb].
  set (g := Z.gcd n m) in *.
  assert (Z.quot n g = a) as Ea by (rewrite Ha at 1; apply Z.quot_mul; lia).
  assert (Z.quot m g = b) as Eb by (rewrite Hb at 1; apply Z.quot_mul; lia).
  rewrite Ea, Eb in *. assert (0 <= a) by nia. assert (1 <= b) by nia.
  split_and!; try lia; [|done|].
  - split; simpl; try lia; [|done].
    assert (Z.gcd (a * g) (b * g) = Z.gcd a b * g) as Hgg by (rewrite Z.gcd_mul_mono_r; lia).
    rewrite <- Ha, <- Hb in Hgg. fold g in Hgg. nia.
  - unfold exactCostRat, SetFrac, Qeq. simpl. rewrite !Z2Pos.id by lia. nia.
Qed.

Lemma normalizeExactMinorCost_Ok v w :
  normalizeExactMinorCost v = Ok w ->
  0 <= Numerator v /\ 1 <= Denominator v /\ exact_cost_ok w /\ Currency w = Currency v /\
  (exactCostRat w == exactCostRat v)%Q.
Proof.
  unfold normalizeExactMinorCost. destruct (ParseCurrencyCode _) as [e|c] eqn:Hc; [done|].
  apply ParseCurrencyCode_Ok in Hc as ->. rewrite String.eqb_refl. simpl.
  destruct (_ || _); [done|]. by intros (? & ? & ? & ? & ?)%exactMinorCostFromBig_Ok.
Qed.

Lemma multiplyExactMinorCost_Ok v k w :
  multiplyExactMinorCost v k = Ok w ->
  1 <= k /\ exact_cost_ok w /\ Currency w = Currency v /\
  (exactCostRat w == inject_Z k * exactCostRat v)%Q.
Proof.
  unfold multiplyExactMinorCost. intros (n & Hn & H)%bind_Ok.
  destruct (Z.ltb_spec k 1); [done|].
  apply normalizeExactMinorCost_Ok in Hn as (_ & _ & [] & <- & E).
  apply exactMinorCostFromBig_Ok in H as (_ & _ & ? & -> & E').
  split_and!; [done|done|done|]. rewrite E', <- E. unfold exactCostRat, SetFrac, Qmult, Qeq.
  cbn [Qnum Qden inject_Z]. rewrite Pos.mul_1_l. ring.
Qed.

(** A cost whose lowest terms fit the columns it is stored in. *)
Record storable (v : ExactMinorCost) : Prop := {
  st_numerator : 0 <= Numerator v;
  st_denominator : 1 <= Denominator v;
  st_currency : ParseCurrencyCode (Currency v) = Ok (Currency v);
  st_ranges : int64_range (Numerator v / Z.gcd (Numerator v) (Denominator v)) /\
              int64_range (Denominator v / Z.gcd (Numerator v) (Denominator v));
}.

Lemma normalizeExactMinorCost_storable v : storable v <-> exists w, normalizeExactMinorCost v = Ok w.
Proof.
  unfold normalizeExactMinorCost. split.
  - intros [Hn Hd Hc [R1 R2]]. rewrite Hc, String.eqb_refl. simpl.
    rewrite (proj2 (Z.ltb_ge (Numerator v) 0)), (proj2 (Z.ltb_ge (Denominator v) 1)) by lia. simpl.
    unfold exactMinorCostFromBig.
    rewrite (proj2 (Z.ltb_ge (Numerator v) 0)), (proj2 (Z.ltb_ge (Denominator v) 1)) by lia. simpl.
    assert (Z.gcd (Numerator v) (Denominator v) <> 0) as Hg by (intros H%Z.gcd_eq_0; lia).
    pose proof (Z.gcd_nonneg (Numerator v) (Denominator v)).
    rewrite (proj2 (Z.eqb_neq _ 0) Hg), !Z.quot_div_nonneg by lia.
    unfold IsInt64. rewrite !bool_decide_eq_true_2 by done. simpl. eauto.
  - intros (w & H). destruct (ParseCurrencyCode _) as [|c] eqn:Hc; [done|].
    apply ParseCurrencyCode_Ok in Hc as Hcc. subst c. rewrite String.eqb_refl in H. simpl in H.
    destruct (_ || _) eqn:Hneg in H; [done|]. unfold exactMinorCostFromBig in H. rewrite Hneg in H. to_prop.
    assert (Z.gcd (Numerator v) (Denominator v) <> 0) as Hg by (intros H0%Z.gcd_eq_0; lia).
    pose proof (Z.gcd_nonneg (Numerator v) (Denominator v)).
    rewrite (proj2 (Z.eqb_neq _ 0) Hg), !Z.quot_div_nonneg in H by lia.
    destruct (_ || _) eqn:Hr in H; [done|]. apply orb_false_iff in Hr as [R1 R2].
    apply negb_false_iff, bool_decide_eq_true in R1, R2. by constructor; [lia..|done|].
Qed.

Lemma exact_storable v :
  exact_cost_ok v -> ParseCurrencyCode (Currency v) = Ok (Currency v) -> storable v.
Proof. intros [Hn Hd Hg ?] Hc. constructor; [lia|lia|done|]. by rewrite Hg, !Z.div_1_r. Qed.

Lemma normalized_storable v w : normalizeExactMinorCost v = Ok w -> storable w.
Proof.
  intros H. assert (storable v) as [_ _ Hc _] by (apply normalizeExactMinorCost_storable; eauto).
  apply normalizeExactMinorCost_Ok in H as (_ & _ & Hok & Hcur & _).
  apply exact_storable; [done|]. by rewrite Hcur.
Qed.

(** Costs that were normalized compare as what they are worth. *)
Lemma compareExactMinorCosts_Ok v w c :
  compareExactMinorCosts v w = Ok c ->
  Currency v = Currency w /\ c = Qcompare (exactCostRat v) (exactCostRat w).
Proof.
  unfold compareExactMinorCosts. intros (l & Hl & (r & Hr & H)%bind_Ok)%bind_Ok.
  destruct (String.eqb_spec (Currency l) (Currency r)) as [He|]; [|done]. simpl in H.
  injection H as <-.
  apply normalizeExactMinorCost_Ok in Hl as (_ & _ & [] & E1 & E).
  apply normalizeExactMinorCost_Ok in Hr as (_ & _ & [] & E2 & E0).
  split; [congruence|]. rewrite <- E, <- E0. unfold exactCostRat, SetFrac, Qcompare. simpl.
  by rewrite !Z2Pos.id by lia.
Qed.

(** Storable costs compare when they are of one currency. *)
Lemma compareExactMinorCosts_storable v w :
  storable v -> storable w ->
  match compareExactMinorCosts v w with
  | Ok c => Currency v = Currency w /\ c = Qcompare (exactCostRat v) (exactCostRat w)
  | Err _ => Currency v <> Currency w
  end.
Proof.
  intros Hv Hw. destruct (compareExactMinorCosts v w) as [e|c] eqn:H; [|by apply compareExactMinorCosts_Ok].
  apply normalizeExactMinorCost_storable in Hv as (v' & Hv), Hw as (w' & Hw).
  unfold compareExactMinorCosts in H. rewrite Hv in H. simpl in H. rewrite Hw in H. simpl in H.
  apply normalizeExactMinorCost_Ok in Hv as (_ & _ & _ & <- & _), Hw as (_ & _ & _ & <- & _).
  by destruct (String.eqb_spec (Currency v') (Currency w')).
Qed.

Lemma addExactMinorCosts_zero v w :
  addExactMinorCosts v (no_overage (Currency v)) = Ok w ->
  storable w /\ Currency w = Currency v /\ (exactCostRat w == exactCostRat v)%Q.
Proof.
  unfold addExactMinorCosts. intros (l & Hl & (r & Hr & H)%bind_Ok)%bind_Ok.
  destruct (negb _); [done|].
  assert (storable v) as [_ _ Hcur _] by (apply normalizeExactMinorCost_storable; eauto).
  apply normalizeExactMinorCost_Ok in Hl as (_ & _ & [] & E1 & E).
  apply normalizeExactMinorCost_Ok in Hr as (_ & _ & [] & _ & E0).
  apply exactMinorCostFromBig_Ok in H as (_ & _ & ? & Hw & E').
  split_and!; [apply exact_storable; [done|]; simpl in *; congruence|simpl in *; congruence|]. rewrite E', <- E.
  assert (Numerator r = 0) as ->.
  { unfold exactCostRat, SetFrac, Qeq in E0. simpl in E0. lia. }
  unfold exactCostRat, SetFrac, Qeq. simpl. rewrite !Z2Pos.id by nia. nia.
Qed.

(** ** The bounds of a request *)

Lemma bound_total_Ok counts total t :
  bound_total counts total = Ok t -> 0 <= total < 2 ^ 64 ->
  Forall (Z.le 0) counts /\ t = total + sumZ counts /\ 0 <= t < 2 ^ 64.
Proof.
  revert total. induction counts as [|c counts IH]; intros total; simpl.
  - intros [= <-] ?. split_and!; [constructor|lia..].
  - destruct (_ || _) eqn:Hc; [done|]. to_prop. intros H Ht.
    destruct (IH _ H) as (? & -> & ?); [lia|]. split_and!; [constructor; [lia|done]|lia..].
Qed.

Section Bounds.
Context (unmarshal_counts : string -> option (gmap string Z)).
Context (json_Valid : string -> bool).
Context (count_order : gmap string Z -> list (string * Z)).

(** The tokens of a usage, its provider-specific ones included. *)
Definition usage_tokens (u : Usage) : Z :=
  InputTokens u + CachedInputTokens u + CacheWriteTokens u + OutputTokens u + ReasoningTokens u +
  sumZ (map snd (count_order (specific_or_empty unmarshal_counts (ProviderSpecific u)))).

Lemma providerRetryTokenBound_Ok u limit t :
  providerRetryTokenBound unmarshal_counts count_order u limit = Ok t ->
  1 <= limit /\ t = limit * usage_tokens u /\ 0 <= t < 2 ^ 64.
Proof.
  unfold providerRetryTokenBound. intros (m & Hm & (total & Htot & H)%bind_Ok)%bind_Ok.
  apply bound_total_Ok in Htot as (_ & Htot & Hr); [|lia].
  assert (total = usage_tokens u) as <-.
  { rewrite Htot. unfold usage_tokens, specific_or_empty. rewrite Hm. simpl. lia. }
  destruct (_ || _) eqn:Hl; [done|]. injection H as <-. to_prop.
  destruct Hl as [Hl Hov].
  assert (0 <= total * limit < 2 ^ 64) as Hfits.
  { destruct (Z.eq_dec total 0) as [->|Hne]; [lia|]. destruct Hov as [Hov|Hov]; [lia|].
    pose proof (Z.mul_div_le (2 ^ 64 - 1) total). nia. }
  unfold wrap_uint64. rewrite Z.mod_small by done. split_and!; lia.
Qed.

(** What is reserved is the approved usage, priced exactly, for every attempt
    the executor may make; what may be settled is the same. *)
Lemma plan_bounds_Ok input price limit b :
  plan_bounds unmarshal_counts json_Valid count_order input price limit = Ok b ->
  let approved := Budgeted_ApprovedUsagePerAttempt input in
  let cost := Pricing.Cost unmarshal_counts count_order price approved in
  1 <= limit /\ Usage_Known approved = true /\ Amount_Known cost = true /\
  exact_cost_ok (plan_cost b) /\ Currency (plan_cost b) = Amount_Currency cost /\
  (exactCostRat (plan_cost b) == inject_Z limit * amount_value cost)%Q /\
  (exactCostRat (plan_settlement b) == exactCostRat (plan_cost b))%Q /\
  storable (plan_settlement b) /\ Currency (plan_settlement b) = Currency (plan_cost b) /\
  plan_tokens b = limit * usage_tokens approved /\ 0 <= plan_tokens b < 2 ^ 64.
Proof.
  intros H approved cost. unfold plan_bounds in H. fold approved in H.
  destruct (validateProviderUsage _ _ _); [done|]. destruct (Usage_Known approved) eqn:Hk; [|done].
  simpl in H. destruct (_ && _); [done|].
  destruct (price_of _ _ _ _) as [e|priced] eqn:Hp; [done|].
  destruct (validateEstimatedUsageWithinApprovedBound _ _ _ _ _); [done|].
  apply bind_Ok in H as (costBound & Hc & (settle & Hs & (tokens & Ht & H)%bind_Ok)%bind_Ok).
  destruct (_ =? _)%string; [done|]. injection H as <-. simpl.
  unfold price_of, exactMinorCostFromAmount in Hp. fold cost in Hp.
  destruct (Amount_Known cost) eqn:Hkn; [|done]. simpl in Hp.
  destruct (ParseCurrencyCode _) as [e|cur] eqn:Hcur; [done|]. apply ParseCurrencyCode_Ok in Hcur as ->.
  apply normalizeExactMinorCost_Ok in Hp as (_ & _ & _ & Ecur & E).
  apply multiplyExactMinorCost_Ok in Hc as (Hl & Hok & Ecur' & E').
  apply addExactMinorCosts_zero in Hs as (Hst & Hsc & E'').
  apply providerRetryTokenBound_Ok in Ht as (_ & -> & Hr).
  simpl in *. rewrite Ecur in Ecur'. split_and!; try done; try lia.
  rewrite E', E. reflexivity.
Qed.
End Bounds.

(** ** What is settled *)

(** The sum of the attempts as it is sent to the ledger: a cost of the same
    value, or none where the sum has none; the total of the tokens; the number of
    the attempts. *)
Record sums (summary : ProviderRequestAccountingSummary) (u : actual_usage) : Prop := {
  su_cost : match Summary_Cost summary with
    | Some cost => storable cost -> exists c, used_cost u = Some c /\ Currency c = Currency cost /\
                                              (exactCostRat c == exactCostRat cost)%Q
    | None => used_cost u = None
    end;
  su_tokens n : used_tokens u = Some n <-> TokenUsage_Total (Summary_Usage summary) = Ok (n, true);
  su_slots : 0 <= Summary_AttemptCount summary < 2 ^ 32 -> used_slots u = Summary_AttemptCount summary;
}.

(** The sum is beyond what was reserved: more attempts than slots, a cost in
    another currency or above the bound, or more tokens than the bound. *)
Definition beyond (i : ReserveInput) (summary : ProviderRequestAccountingSummary) : Prop :=
  reserve_ProviderCallSlots i < Summary_AttemptCount summary \/
  (exists cost, Summary_Cost summary = Some cost /\ storable cost /\
     (Currency cost <> Currency (reserve_CostBound i) \/
      (exactCostRat (reserve_CostBound i) < exactCostRat cost)%Q)) \/
  (exists tokens bound, TokenUsage_Total (Summary_Usage summary) = Ok (tokens, true) /\
     reserve_TokenBound i = Some bound /\ bound < tokens).

Lemma actual_usage_tokens summary n :
  used_tokens (actual_usage_of summary) = Some n <->
  TokenUsage_Total (Summary_Usage summary) = Ok (n, true).
Proof.
  unfold actual_usage_of, providerActualTokens. destruct (normalizedProviderActualCost _).
  destruct (TokenUsage_Total _) as [e|[total []]]; simpl; naive_solver.
Qed.

Lemma actual_usage_cost summary :
  used_cost (actual_usage_of summary) = (normalizedProviderActualCost (Summary_Cost summary)).1.
Proof. unfold actual_usage_of. by destruct (normalizedProviderActualCost _), (providerActualTokens _). Qed.

Lemma actual_usage_sums summary : sums summary (actual_usage_of summary).
Proof.
  split.
  - rewrite actual_usage_cost. destruct (Summary_Cost summary) as [cost|]; [|done].
    intros (c & H)%normalizeExactMinorCost_storable. simpl. rewrite H. exists c.
    apply normalizeExactMinorCost_Ok in H as (_ & _ & _ & ? & ?). done.
  - apply actual_usage_tokens.
  - intros Hr. unfold actual_usage_of. destruct (normalizedProviderActualCost _), (providerActualTokens _). simpl.
    destruct (Z.ltb_spec (2 ^ 32 - 1) (Summary_AttemptCount summary)); [lia|].
    unfold wrap_uint32. by rewrite Z.mod_small.
Qed.

Lemma used_cost_Some summary c :
  used_cost (actual_usage_of summary) = Some c ->
  exists cost, Summary_Cost summary = Some cost /\ storable cost /\ storable c /\
    Currency c = Currency cost /\ (exactCostRat c == exactCostRat cost)%Q.
Proof.
  rewrite actual_usage_cost. destruct (Summary_Cost summary) as [cost|]; [|done]. simpl.
  destruct (normalizeExactMinorCost cost) as [|c'] eqn:H; [done|]. intros [= ->]. exists cost.
  split; [done|]. split; [apply normalizeExactMinorCost_storable; eauto|].
  split; [by eapply normalized_storable|]. by apply normalizeExactMinorCost_Ok in H as (_ & _ & _ & ? & ?).
Qed.

(** The check before a settlement reports exactly that. *)
Lemma settlement_bound_beyond b i summary :
  storable (plan_settlement b) -> Currency (plan_settlement b) = Currency (reserve_CostBound i) ->
  (exactCostRat (plan_settlement b) == exactCostRat (reserve_CostBound i))%Q ->
  reserve_TokenBound i = Some (plan_tokens b) ->
  settlement_bound_error summary (actual_usage_of summary) b (reserve_ProviderCallSlots i) <> None <->
  beyond i summary.
Proof.
  intros Hst Hcur Hval Htok. unfold settlement_bound_error, beyond.
  destruct (Z.ltb_spec (reserve_ProviderCallSlots i) (Summary_AttemptCount summary)) as [Hlt|Hge].
  { split; [by left|]. intros _. unfold errors_Join. by destruct (providerSettlementBoundError _ _ _ _). }
  unfold providerSettlementBoundError. set (tokens := match used_tokens _ with Some _ => _ | None => _ end).
  assert (tokens <> None <-> exists n bound, TokenUsage_Total (Summary_Usage summary) = Ok (n, true) /\
    reserve_TokenBound i = Some bound /\ bound < n) as Htokens.
  { rewrite Htok. unfold tokens. destruct (used_tokens (actual_usage_of summary)) as [n|] eqn:Hn.
    - apply actual_usage_tokens in Hn. rewrite Hn. destruct (Z.ltb_spec (plan_tokens b) n) as [H|H].
      + split; [by exists n, (plan_tokens b)|done].
      + split; [done|]. intros (? & ? & [= <-] & [= <-] & ?). lia.
    - split; [done|]. intros (n & ? & H & _). apply actual_usage_tokens in H. congruence. }
  destruct (used_cost (actual_usage_of summary)) as [c|] eqn:Hc.
  - destruct (used_cost_Some _ _ Hc) as (cost & Hcost & Hs & Hsc & Ecur & Eval).
    pose proof (compareExactMinorCosts_storable c (plan_settlement b) Hsc Hst) as Hcmp.
    destruct (compareExactMinorCosts c (plan_settlement b)) as [e|k].
    + split; [|done]. intros _. right. left. exists cost. split_and!; [done..|left; congruence].
    + destruct Hcmp as [Hk1 Hk2]. destruct (is_gt k) eqn:Hgt.
      * split; [|done]. intros _. right. left. exists cost. split_and!; [done..|right].
        destruct k; try done. symmetry in Hk2. apply Qgt_alt in Hk2. by rewrite <- Hval, <- Eval.
      * rewrite Htokens. split; [by right; right|]. intros [H|[H|H]]; [lia| |done].
        destruct H as (cost' & Hc' & _ & H). rewrite Hcost in Hc'. injection Hc' as <-. exfalso.
        destruct H as [H|H]; [congruence|]. rewrite <- Hval, <- Eval in H. apply Qgt_alt in H.
        rewrite <- Hk2 in H. by rewrite H in Hgt.
  - rewrite Htokens. split; [by right; right|]. intros [H|[H|H]]; [lia| |done].
    destruct H as (cost & Hcost & Hs & _). pose proof (su_cost _ _ (actual_usage_sums summary)) as Hu.
    rewrite Hcost in Hu. destruct (Hu Hs) as (c & H & _). congruence.
Qed.

(** ** The calls of a budgeted request *)

Section Calls.
Context (redactor : Boundary -> string -> result error string).
Context (marshal_metadata : RedactedProviderMetadata -> string).
Context (field_order : gmap string string -> list (string * string)).
Context (unmarshal_counts : string -> option (gmap string Z)).
Context (json_Valid : string -> bool).
Context (count_order : gmap string Z -> list (string * Z)).
Context (hex_sha256 : string -> string).
Context (scale : Duration -> Q -> Duration) (executor : RetryExecutor).
Context (input : ExecuteBudgetedProviderRequest).
Hypothesis scale_between : forall half fraction,
  0 <= half <= maximumProviderRetryAfter -> (0 <= fraction <= 1)%Q ->
  0 <= scale half fraction <= half.
Hypothesis Hok : policy_ok (policy executor).

Abbreviation limit := (MaximumAttempts (policy executor)).
Abbreviation provider := (Budgeted_Provider input).
Abbreviation identity := (Request_Identity (Request provider)).
Abbreviation budgeted := (BudgetedProviderExecutionResult * option error)%type.

(** A reservation of the whole bound that the ledger answered as active. *)
Record reserved (b : bounds) (r : BudgetReservation) (s : BudgetSnapshot) : Prop := {
  rv_price : exists price, Request_PriceSnapshot provider = Some price /\
    plan_bounds unmarshal_counts json_Valid count_order input price limit = Ok b;
  rv_active : res_State r = BudgetReservationActive;
}.

Definition reserved_call (b : bounds) (r : BudgetReservation) (s : BudgetSnapshot) : ledger_call :=
  Reserved (reserve_input input limit b) (r, s, None).

(** The sum of the attempts, which was read or not. *)
Definition summary_is (h : history) (summary : ProviderRequestAccountingSummary) (err : option error)
    : Prop := summaries h = [(summary, err)].

Definition settlement b r summary : SettleInput := settle_input input r (actual_usage_of summary) b.
Definition reconciliation b r summary reason : IntentInput :=
  intent_input input r (actual_usage_of summary) b reason.

(** The calls that give a reservation back. *)
Definition gives_back (r : BudgetReservation) (c : ledger_call) : Prop :=
  match c with Released i _ => release_ReservationID i = res_ID r | _ => False end.

Definition unused (h : history) : Prop :=
  streams h = [] \/ exists summary err, summary_is h summary err /\ Summary_AttemptCount summary = 0.

(** What the history must be when a call is made. *)
Definition may_ask (h : history) (p : port) : Prop :=
  match p with
  | Reserve _ => charges h = [] /\ streams h = []
  | Stream a request =>
      (exists b r s, reserved b r s /\ charges h = [reserved_call b r s]) /\ summaries h = [] /\
      PhysicalAttempt_Identity a = identity /\ request = Request provider /\
      providerAttemptID a ∈ marks h /\
      PhysicalAttempt_Number a = Z.of_nat (length (streams h)) + 1 /\
      PhysicalAttempt_Number a <= limit
  | SummarizeAccounting _ => forall a, a ∈ streams h -> accounted (providerAttemptID a) (ensures h)
  | Settle i =>
      exists b r s summary err, reserved b r s /\ charges h = [reserved_call b r s] /\
        summary_is h summary err /\ i = settlement b r summary
  | RecordIntent i =>
      exists b r s summary err reason, reserved b r s /\ summary_is h summary err /\
        i = reconciliation b r summary reason /\
        (charges h = [reserved_call b r s] \/
         exists answered, answered.2 <> None /\
           charges h = [Settled (settlement b r summary) answered; reserved_call b r s])
  | Release i =>
      exists b r s given, reserved b r s /\ charges h = given ++ [reserved_call b r s] /\
        Forall (gives_back r) given /\ release_ReservationID i = res_ID r /\ unused h
  | _ => True
  end.

(** How a request ends. *)
Inductive concluded (x : budgeted) (h : history) : Prop :=
| not_reserved :
    streams h = [] -> x.2 <> None ->
    (charges h = [] \/
     exists i r, charges h = [Reserved i r] /\
       (r.2 <> None \/ res_State r.1.1 <> BudgetReservationActive)) ->
    concluded x h
| given_back b r s given :
    reserved b r s -> charges h = given ++ [reserved_call b r s] -> Forall (gives_back r) given ->
    given <> [] -> (length given <= maximumBudgetReleaseRevisionRetries)%nat -> unused h ->
    concluded x h
| settled b r s summary err answered :
    reserved b r s -> summary_is h summary err -> Summary_AttemptCount summary <> 0 ->
    charges h = [Settled (settlement b r summary) answered; reserved_call b r s] ->
    ~ beyond (reserve_input input limit b) summary ->
    answered.2 = None -> (x.2 = None -> err = None) -> concluded x h
| reconciled b r s summary err reason answered earlier :
    reserved b r s -> summary_is h summary err -> Summary_AttemptCount summary <> 0 ->
    charges h = Intended (reconciliation b r summary reason) answered ::
                earlier ++ [reserved_call b r s] ->
    (earlier = [] /\ beyond (reserve_input input limit b) summary \/
     ~ beyond (reserve_input input limit b) summary /\
     exists answered', answered'.2 <> None /\ earlier = [Settled (settlement b r summary) answered']) ->
    (x.2 = None -> err = None /\ answered.2 = None /\ snap_ReconciliationPending answered.1 = false) ->
    concluded x h.

Lemma join_ends (a b c : option error) l :
  errors_Join ([a] ++ l ++ [b; c]) = None -> a = None /\ b = None /\ c = None.
Proof.
  intros H%errors_Join_None. rewrite !Forall_app, !Forall_cons in H. by destruct H as ((<- & _) & _ & <- & <- & _).
Qed.

Lemma quiet_may_ask h p : quiet p -> may_ask h p.
Proof. by destruct p. Qed.

(** The calls before the reservation. *)
Lemma check_quiet :
  asks quiet (seq (check_request unmarshal_counts json_Valid input) (fun found =>
    seq (check_budget input) (fun _ => going found)) : program answer (budgeted + _)).
Proof.
  unfold check_request, check_budget, fails, seq, returning, going. cbv zeta. simpl. asks_all.
Qed.

Lemma release_loop_obeys n b r s i task snapshot given h (Q : _ -> history -> Prop) :
  reserved b r s -> charges h = given ++ [reserved_call b r s] -> Forall (gives_back r) given ->
  release_ReservationID i = res_ID r -> unused h -> (n <> 0)%nat \/ given <> [] ->
  (forall x given' h', charges h' = given' ++ [reserved_call b r s] -> Forall (gives_back r) given' ->
     given' <> [] -> (length given' <= length given + n)%nat -> unused h' -> Q x h') ->
  obeys may_ask (release_loop n i task snapshot) h Q.
Proof.
  intros Hrv. revert i snapshot given h. induction n as [|n IH]; intros i snapshot given h Hch Hgiven Hi Hun Hn HQ.
  { simpl. destruct Hn as [|Hn]; [done|]. eapply HQ; eauto. lia. }
  simpl. split; [by exists b, r, s, given|]. intros [snapshot' err]. simpl.
  set (c := Released i (snapshot', err)).
  assert (charges (called (Release i) (snapshot', err) :: h) = (c :: given) ++ [reserved_call b r s]) as Hch'
    by (simpl; by f_equal).
  assert (Forall (gives_back r) (c :: given)) as Hgiven' by (constructor; [by subst c|done]).
  destruct (negb _); simpl.
  { eapply HQ; [exact Hch'|done|done|simpl; lia|done]. }
  split; [done|]. intros [e|current]; simpl.
  { eapply HQ; [exact Hch'|done|done|simpl; lia|done]. }
  eapply (IH _ _ (c :: given)); [exact Hch'|done|done|done|by right|].
  intros x given' h' H1 H2 H3 H4 H5. eapply HQ; eauto. simpl in *. lia.
Qed.

Lemma release_unused_obeys b r s output reason err h :
  reserved b r s -> charges h = [reserved_call b r s] -> Output_Reservation output = r -> unused h ->
  obeys may_ask (release_unused output s b reason err) h concluded.
Proof.
  intros Hrv Hch Hr Hun. unfold release_unused, releaseWithRevisionRetry. rewrite Hr. apply obeys_bind.
  eapply (release_loop_obeys _ b r s _ _ _ []); try done; [by left|].
  intros x given h' H1 H2 H3 H4 H5. simpl. by eapply given_back.
Qed.

Lemma reserved_bound b r s summary :
  reserved b r s ->
  settlement_bound_error summary (actual_usage_of summary) b limit <> None <->
  beyond (reserve_input input limit b) summary.
Proof.
  intros [(price & _ & Hb) _].
  apply plan_bounds_Ok in Hb as (_ & _ & _ & _ & _ & _ & Hv & Hst & Hc & _).
  rewrite <- (settlement_bound_beyond b (reserve_input input limit b) summary) by done. simpl.
  destruct Hok. unfold wrap_uint32. by rewrite Z.mod_small by lia.
Qed.

Lemma account_obeys b r s output x h :
  reserved b r s -> charges h = [reserved_call b r s] -> Output_Reservation output = r ->
  (x.1 = no_result /\ streams h = [] \/
   exists err, summary_is h (Result_Accounting x.1) err /\ (x.2 = None -> err = None)) ->
  obeys may_ask (account input limit b s output x) h concluded.
Proof.
  intros Hrv Hch Hr Hsum. destruct x as [result executionErr]. unfold account. simpl in *.
  destruct (Z.eqb_spec (Summary_AttemptCount (Result_Accounting result)) 0) as [Hz|Hz].
  { apply (release_unused_obeys b r s); try done. destruct Hsum as [[_ ?]|(err & ? & _)]; [by left|].
    right. eauto. }
  destruct Hsum as [[-> _]|(err & Hs & Herr)]; [done|].
  set (summary := Result_Accounting result) in *.
  pose proof (reserved_bound b r s summary Hrv) as Hbound.
  destruct (settlement_bound_error _ _ _ _) as [boundErr|].
  - unfold reconcile_excess. simpl. split.
    { exists b, r, s, summary, err. eexists. split_and!; try done. by rewrite Hr. by left. }
    intros [pending intentErr]. simpl.
    eapply (reconciled _ _ b r s summary err _ (pending, intentErr) []); try done.
    + simpl. rewrite Hr. by f_equal.
    + left. split; [done|by apply Hbound].
    + simpl. intros Hj. exfalso. assert (errors_Join ([executionErr] ++ used_errors (actual_usage_of summary)
        ++ [Some boundErr; intentErr]) = None) as Hall.
      { destruct (_ && _); [|done]. apply errors_Join_None in Hj. rewrite !Forall_cons in Hj.
        by destruct Hj as (_ & ? & _). }
      by apply join_ends in Hall as (_ & ? & _).
  - unfold settle_usage. simpl. split.
    { exists b, r, s, summary, err. split_and!; try done. by rewrite Hr. }
    intros [snapshot settleErr]. simpl. destruct settleErr as [se|]; simpl.
    + split.
      { exists b, r, s, summary, err. eexists. split_and!; try done. by rewrite Hr.
        right. exists (snapshot, Some se). split; [done|]. simpl. rewrite Hr. by f_equal. }
      intros [pending intentErr]. simpl.
      assert (forall out e, (e = None -> executionErr = None) ->
        (e = None -> intentErr = None /\ snap_ReconciliationPending pending = false) ->
        concluded (out, e)
         (called (RecordIntent (intent_input input (Output_Reservation output) (actual_usage_of summary) b
            "provider usage settlement requires reconciliation")) (pending, intentErr)
          :: called (Settle (settle_input input (Output_Reservation output) (actual_usage_of summary) b))
               (snapshot, Some se) :: h)) as Hend.
      { intros out e He1 He2.
        eapply (reconciled _ _ b r s summary err _ (pending, intentErr)
          [Settled (settlement b r summary) (snapshot, Some se)]); try done.
        - simpl. rewrite Hr. by do 2 f_equal.
        - right. split; [by intros ?%Hbound|]. by exists (snapshot, Some se).
        - simpl. intros He. destruct (He2 He). auto. }
      destruct intentErr as [ie|]; apply Hend; intros Hj; try done;
        apply join_ends in Hj as (Hj1 & Hj2 & _); try done.
      by destruct (snap_ReconciliationPending pending).
    + eapply (settled _ _ b r s summary err (snapshot, None)); try done.
      * simpl. rewrite Hr. by f_equal.
      * by intros ?%Hbound.
      * simpl. intros Hj. apply Herr. by apply join_ends in Hj as (? & _).
Qed.

Lemma activate_quiet logical : asks quiet (activateProviderLogicalRequest logical).
Proof. unfold activateProviderLogicalRequest. asks_all. Qed.

Lemma execute_reserved_obeys logical b r s h :
  reserved b r s -> charges h = [reserved_call b r s] -> streams h = [] -> summaries h = [] ->
  obeys may_ask (execute_reserved redactor marshal_metadata field_order unmarshal_counts json_Valid
    count_order hex_sha256 scale executor input logical limit b (with_reservation r s) s) h concluded.
Proof.
  intros Hrv Hch Hst Hsum. unfold execute_reserved. apply obeys_bind.
  eapply obeys_weaken; [apply asks_quiet; [apply activate_quiet|by intros; apply quiet_may_ask]|].
  intros activationErr h1 (V1 & V2 & V3 & V4 & V5). rewrite Hch in V4. rewrite Hst in V1. rewrite Hsum in V5.
  destruct activationErr as [e|].
  { apply (release_unused_obeys b r s); try done. by left. }
  apply obeys_bind. eapply obeys_mono; [by apply (provider_execute_obeys _ _ _ _ _ _ _ scale executor provider)| |].
  - intros h2 p. destruct p; try done; simpl.
    + intros (? & ? & E1 & E2 & ? & earlier & E3 & ? & ?). rewrite V1, app_nil_r in E3.
      rewrite E1, V4, E2, E3, V5. split_and!; try done. by exists b, r, s.
    + intros (_ & _ & _ & made & E3 & _ & Hall). rewrite V1, app_nil_r in E3. by rewrite E3.
  - intros x h2 (E1 & _ & Hx). rewrite V4 in E1. rewrite V1, V5 in Hx.
    apply (account_obeys b r s); try done.
    destruct Hx as [(? & _ & ? & _)|(err & ? & Hn)]; [by left|]. right. exists err. split; [done|].
    intros Hx. by apply Hn.
Qed.

Definition checked_price (x : budgeted + PriceSnapshot * ProviderLogicalRequest) : Prop :=
  match x with
  | inl y => y.2 <> None
  | inr (price, _) => Request_PriceSnapshot provider = Some price
  end.

Lemma check_request_price h :
  obeys (fun _ _ => True) (check_request unmarshal_counts json_Valid input) h
    (fun x _ => checked_price x).
Proof.
  unfold check_request, fails, returning. cbv zeta.
  destruct (IsZero _); [done|]. destruct (_ || _); [done|].
  destruct (Request_PriceSnapshot provider) as [price|] eqn:Hp; [|done].
  destruct (ValidateRequestIdentity _); [done|]. destruct (validateExecutionInput _ _ _); [done|].
  simpl. split; [done|]. intros [e|logical]; simpl; [done|].
  destruct (_ || _); [done|]. by destruct (negb _).
Qed.

Lemma check_budget_error h :
  obeys (fun _ _ => True) (check_budget input) h
    (fun x _ => match x with inl y => y.2 <> None | inr _ => True end).
Proof.
  unfold check_budget, fails, returning. simpl. split; [done|]. intros [e|snapshot]; simpl; [done|].
  destruct (_ || _); [done|]. simpl. split; [done|]. intros [e|preflight]; simpl; [done|].
  by destruct (_ || _).
Qed.

Lemma checks_price h :
  obeys (fun _ _ => True) (seq (check_request unmarshal_counts json_Valid input) (fun found =>
    seq (check_budget input) (fun _ => going found)) : program answer (budgeted + _)) h
    (fun x _ => checked_price x).
Proof.
  apply obeys_seq. eapply obeys_weaken; [apply check_request_price|]. intros [y|[price logical]] h1 Hx; [done|].
  apply obeys_seq. eapply obeys_weaken; [apply check_budget_error|]. by intros [y|[]] h2 Hy.
Qed.

Lemma Execute_obeys_ledger :
  obeys may_ask (BudgetedExecution.Execute redactor marshal_metadata field_order unmarshal_counts json_Valid
    count_order hex_sha256 scale executor input) [] concluded.
Proof.
  unfold BudgetedExecution.Execute. cbv zeta. apply obeys_bind.
  eapply obeys_mono; [apply obeys_and; [apply asks_quiet; [apply check_quiet|]|apply checks_price]| |].
  - intros h p Hp. exact (quiet_may_ask h p Hp).
  - by intros h p [? _].
  - intros x h [(V1 & V2 & V3 & V4 & V5) Hx]. simpl in *. destruct x as [y|[price logical]]; simpl in *.
    { apply not_reserved; [done|done|by left]. }
    destruct (plan_bounds _ _ _ _ _ _) as [e|b] eqn:Hb; simpl.
    { apply not_reserved; [done|done|by left]. }
    split; [done|]. intros [[r s] err]. destruct err as [e|].
    { simpl. apply not_reserved; [done|done|]. right. eexists _, _. simpl. rewrite V4. split; [done|by left]. }
    destruct (String.eqb_spec (res_State r) BudgetReservationActive) as [Ha|Ha]; simpl.
    + apply (execute_reserved_obeys logical b r s); [|by simpl; rewrite V4|done|done]. by split; eauto.
    + apply not_reserved; [done|done|]. right. eexists _, _. simpl. rewrite V4. split; [done|by right].
Qed.
End Calls.
