(* ===== verification/BudgetedTheorems.v ===== *)
(** * What holds of every budgeted provider request

    Whatever the store, the provider, the consumers of events, the clock and
    the ledger answer: a provider is reached only under a reservation of the
    whole bound, each attempt is stored before and accounted for after it, and
    what was used is settled or recorded, unless the sum of the attempts could
    not be read. *)

From Stdlib Require Import Ascii QArith.
From S2P Require Import Prelude GoText GoErrors PolicyValues ProviderTypes Pricing PricingFacts.
From S2P Require Import AgentTypes Retry RetryFacts Redact ProviderMetadata.
From S2P Require Import BudgetSchema BudgetSnapshots BudgetLedger BudgetFacts BudgetSamples.
From S2P Require Import Ports ProviderAttempts ProviderExecution ProviderFacts BudgetedExecution BudgetedFacts.
Open Scope string_scope.
Open Scope list_scope.
Open Scope Z_scope.

Lemma budgeted_executor_ok p executor :
  NewBudgetedProviderExecutionService p = Ok executor -> policy_ok (policy executor).
Proof.
  unfold NewBudgetedProviderExecutionService. intros (e & He & H)%bind_Ok.
  apply NewRetryExecutor_spec in He as (Hok & _ & Hp & _). destruct (_ <? _); [done|].
  injection H as <-. by rewrite Hp.
Qed.

Section Theorems.
Context (redactor : Boundary -> string -> result error string).
Context (marshal_metadata : RedactedProviderMetadata -> string).
Context (field_order : gmap string string -> list (string * string)).
Context (unmarshal_counts : string -> option (gmap string Z)).
Context (json_Valid : string -> bool).
Context (count_order : gmap string Z -> list (string * Z)).
Context (hex_sha256 : string -> string).
Context (scale : Duration -> Q -> Duration).

(** [time.Duration(float64(half) * fraction)], as in RetryFacts.v. *)
Hypothesis scale_between : forall half fraction,
  0 <= half <= maximumProviderRetryAfter -> (0 <= fraction <= 1)%Q ->
  0 <= scale half fraction <= half.

Context (p : RetryPolicy) (executor : RetryExecutor).
Hypothesis built : NewBudgetedProviderExecutionService p = Ok executor.

Abbreviation Executing :=
  (BudgetedExecution.Execute redactor marshal_metadata field_order unmarshal_counts json_Valid
     count_order hex_sha256 scale executor).
Abbreviation limit := (MaximumAttempts (policy executor)).

(** [C3] No provider is reached without its money set aside. At every call of a
    provider in every run of [Execute]: exactly one call to the ledger was made
    before it, a reservation that was answered as active without an error, for
    the request's own budget; the cost it reserves is, exactly, the number of
    attempts the retry policy allows times the price of the usage approved for
    one attempt, and likewise its tokens and its provider-call slots. The call
    is the next attempt of the request, at most the last one that was paid for,
    and it was stored as started. *)
Theorem provider_io_is_reserved input t x t1 a request answered t2 :
  runs (Executing input) t x -> t = t1 ++ called (Stream a request) answered :: t2 ->
  let h := reverse t1 in
  exists price i reservation snapshot,
    Request_PriceSnapshot (Budgeted_Provider input) = Some price /\
    charges h = [Reserved i (reservation, snapshot, None)] /\
    res_State reservation = BudgetReservationActive /\
    reserve_BudgetID i = Budgeted_BudgetID input /\
    (exactCostRat (reserve_CostBound i) ==
       inject_Z limit * amount_value (Pricing.Cost unmarshal_counts count_order price
                                        (Budgeted_ApprovedUsagePerAttempt input)))%Q /\
    reserve_TokenBound i =
      Some (limit * usage_tokens unmarshal_counts count_order (Budgeted_ApprovedUsagePerAttempt input)) /\
    reserve_ProviderCallSlots i = limit /\
    PhysicalAttempt_Number a = Z.of_nat (length (streams h)) + 1 /\
    PhysicalAttempt_Number a <= limit /\ providerAttemptID a ∈ marks h.
Proof.
  intros Hr Ht h. pose proof (budgeted_executor_ok p executor built) as Hok.
  destruct (obeys_sound _ _ _ _ _ (Execute_obeys_ledger redactor marshal_metadata field_order
    unmarshal_counts json_Valid count_order hex_sha256 scale executor input scale_between Hok) Hr) as [_ Hcall].
  destruct (Hcall _ _ _ _ Ht) as ((b & r & s & [(price & Hprice & Hb) Ha] & Hch) & _ & _ & _ & Hm & Hn & Hmax).
  apply plan_bounds_Ok in Hb as (_ & _ & _ & _ & _ & Hcost & _ & _ & _ & Htok & _).
  exists price, (reserve_input input limit b), r, s. simpl. split_and!; try done.
  - by rewrite Htok.
  - destruct Hok. unfold wrap_uint32. by rewrite Z.mod_small by lia.
Qed.

(** [C4] What was used is not dropped. When a run of [Execute] reached the
    provider, and the store read the sum of its attempts and counts those that
    were made, then nothing is released, and: either the sum is within what was
    reserved and the ledger was asked to settle exactly that sum against the
    reservation, and answered without an error; or the sum is within and the
    ledger answered the settlement with an error and was then asked to record the
    sum for reconciliation; or the sum is beyond what was reserved (more attempts
    than slots, a cost in another currency or above the bound, more tokens than
    the bound) and the ledger was asked to record it without being asked to
    settle. And [Execute] returns without an error only when the ledger answered
    that the usage is posted. *)
Theorem billed_work_is_settled input t x :
  runs (Executing input) t x ->
  let h := reverse t in
  streams h <> [] ->
  (forall summary err, (summary, err) ∈ summaries h -> err = None /\ Summary_AttemptCount summary <> 0) ->
  exists summary reservation snapshot i b u,
    summaries h = [(summary, None)] /\ sums summary u /\
    ((~ beyond i summary /\ exists answered, answered.2 = None /\
        charges h = [Settled (settle_input input reservation u b) answered;
                     Reserved i (reservation, snapshot, None)]) \/
     (exists reason answered earlier,
        charges h = Intended (intent_input input reservation u b reason) answered ::
                    earlier ++ [Reserved i (reservation, snapshot, None)] /\
        (~ beyond i summary /\ (exists refused, refused.2 <> None /\
           earlier = [Settled (settle_input input reservation u b) refused]) \/
         beyond i summary /\ earlier = []) /\
        (x.2 = None -> answered.2 = None /\ snap_ReconciliationPending answered.1 = false))).
Proof.
  intros Hr h Hst Hstore. pose proof (budgeted_executor_ok p executor built) as Hok.
  destruct (obeys_sound _ _ _ _ _ (Execute_obeys_ledger redactor marshal_metadata field_order
    unmarshal_counts json_Valid count_order hex_sha256 scale executor input scale_between Hok) Hr) as [Hend _].
  fold h in Hend. destruct Hend as [|b r s given _ _ _ _ _ [|(summary & err & Hsum & Hz)]
    |b r s summary err answered _ Hsum Hz Hch Hin Ha _
    |b r s summary err reason answered earlier _ Hsum Hz Hch He Hx]; try done.
  - destruct (Hstore summary err) as [_ ?]; [|done]. rewrite Hsum. by left.
  - destruct (Hstore summary err) as [-> _]; [rewrite Hsum; by left|].
    exists summary, r, s, (reserve_input input limit b), b, (actual_usage_of summary).
    split; [done|]. split; [apply actual_usage_sums|]. left. split; [done|]. by exists answered.
  - destruct (Hstore summary err) as [-> _]; [rewrite Hsum; by left|].
    exists summary, r, s, (reserve_input input limit b), b, (actual_usage_of summary).
    split; [done|]. split; [apply actual_usage_sums|]. right. exists reason, answered, earlier.
    split_and!; [done| |by intros (_ & ? & ?)%Hx].
    destruct He as [[-> Hb]|(Hb & refused & Hne & ->)]; [by right|]. left. split; [done|]. by exists refused.
Qed.

(** The numbers of the attempts that reached the provider, in their order. *)
Lemma streams_numbered (t : list (event answer)) :
  (forall t1 a request answered t2, t = t1 ++ called (Stream a request) answered :: t2 ->
     PhysicalAttempt_Number a = Z.of_nat (length (streams (reverse t1))) + 1) ->
  map PhysicalAttempt_Number (reverse (streams (reverse t))) = seqZ 1 (Z.of_nat (length (streams (reverse t)))).
Proof.
  induction t as [|e t IH] using rev_ind; intros Ht; [done|].
  rewrite reverse_app. change (streams (reverse [e] ++ reverse t)) with (streams (e :: reverse t)).
  assert (forall t1 a request answered t2, t = t1 ++ called (Stream a request) answered :: t2 ->
    PhysicalAttempt_Number a = Z.of_nat (length (streams (reverse t1))) + 1) as Ht'.
  { intros t1 a request answered t2 ->. apply (Ht t1 a request answered (t2 ++ [e])). by rewrite <- app_assoc. }
  specialize (IH Ht'). unfold streams in *. cbn [omap list_omap]. destruct (streamed e) as [a|] eqn:Hs; [|done].
  destruct e as [q answered]. destruct q; try done. simpl in Hs. injection Hs as ->.
  specialize (Ht t a request answered []). rewrite reverse_cons, map_app. simpl. fold (omap streamed (reverse t)). rewrite IH.
  cbn [length]. rewrite Ht, seqZ_S by done. do 2 f_equal. lia.
Qed.

(** [C24] Every attempt is accounted for. Before the sum of a request's attempts
    is read, the store has ensured the accounting of each attempt that reached
    the provider, or was asked twice and failed twice; these attempts are
    numbered 1, 2, 3 and so on in the order in which they reached it, and there
    are at most as many as the retry policy allows. *)
Theorem attempts_are_accounted input t x t1 id answered t2 :
  runs (Executing input) t x -> t = t1 ++ called (SummarizeAccounting id) answered :: t2 ->
  let h := reverse t1 in
  (forall a, a ∈ streams h -> accounted (providerAttemptID a) (ensures h)) /\
  map PhysicalAttempt_Number (reverse (streams h)) = seqZ 1 (Z.of_nat (length (streams h))) /\
  Z.of_nat (length (streams h)) <= limit.
Proof.
  intros Hr Ht h. pose proof (budgeted_executor_ok p executor built) as Hok.
  destruct (obeys_sound _ _ _ _ _ (Execute_obeys_ledger redactor marshal_metadata field_order
    unmarshal_counts json_Valid count_order hex_sha256 scale executor input scale_between Hok) Hr) as [_ Hcall].
  assert (forall u1 a request r u2, t1 = u1 ++ called (Stream a request) r :: u2 ->
    PhysicalAttempt_Number a = Z.of_nat (length (streams (reverse u1))) + 1 /\
    PhysicalAttempt_Number a <= limit) as Hnum.
  { intros u1 a request r u2 ->. rewrite <- app_assoc in Ht. by apply Hcall in Ht as (_ & _ & _ & _ & _ & ? & ?). }
  split; [exact (Hcall _ _ _ _ Ht)|].
  assert (map PhysicalAttempt_Number (reverse (streams h)) = seqZ 1 (Z.of_nat (length (streams h)))) as Hseq.
  { apply streams_numbered. intros u1 a request r u2 Hu. by apply Hnum in Hu as [? _]. }
  split; [done|]. destruct (streams h) as [|a l] eqn:Hl; [destruct Hok; simpl; lia|].
  assert (a ∈ streams h) as (u1 & q & r & u2 & Hu & Hs)%in_view by (rewrite Hl; by left).
  destruct q; try done. simpl in Hs. injection Hs as ->.
  assert (PhysicalAttempt_Number a = Z.of_nat (length (a :: l))) as <-.
  { rewrite reverse_cons, map_app in Hseq. simpl in Hseq.
    rewrite seqZ_S in Hseq. apply app_inj_tail in Hseq as [_ ?]. simpl. lia. }
  by apply Hnum in Hu as [_ ?].
Qed.

(** [C39] Billed work is released when its sum cannot be read. Whatever the
    retry policy, the request and the answers: in every run that reached the
    provider and in which the store answered the sum of the attempts with an
    error, and so with the empty sum, the ledger is asked to give the
    reservation of the whole request back and asked for nothing else after the
    reservation: the usage is neither settled nor recorded for reconciliation. *)
Theorem unread_sum_releases_billed_work input t x :
  runs (Executing input) t x ->
  let h := reverse t in
  streams h <> [] ->
  (forall summary err, (summary, err) ∈ summaries h -> err <> None /\ summary = no_summary) ->
  exists i reservation snapshot given,
    charges h = given ++ [Reserved i (reservation, snapshot, None)] /\
    res_State reservation = BudgetReservationActive /\ given <> [] /\
    Forall (gives_back reservation) given.
Proof.
  intros Hr h Hst Hstore. pose proof (budgeted_executor_ok p executor built) as Hok.
  destruct (obeys_sound _ _ _ _ _ (Execute_obeys_ledger redactor marshal_metadata field_order
    unmarshal_counts json_Valid count_order hex_sha256 scale executor input scale_between Hok) Hr) as [Hend _].
  fold h in Hend. destruct Hend as [|b r s given [_ Ha] Hch Hg Hne _ _|b r s summary err answered _ Hsum Hz
    |b r s summary err reason answered earlier _ Hsum Hz]; [done| | |].
  - by exists (reserve_input input limit b), r, s, given.
  - destruct (Hstore summary err) as [_ ->]; [rewrite Hsum; by left|done].
  - destruct (Hstore summary err) as [_ ->]; [rewrite Hsum; by left|done].
Qed.

End Theorems.

(** ** A request *)

Definition small_usage : Usage :=
  {| Usage_Known := true; Usage_Source := UsageSourceProvider; InputTokens := 100;
     CachedInputTokens := 0; CacheWriteTokens := 0; OutputTokens := 40; ReasoningTokens := 0;
     ProviderSpecific := "" |}.

Definition sample_provider_request : ExecuteProviderRequest :=
  {| Request := {| Request_Identity := sample_identity; Request_MaximumTokens := 40;
                   Request_Idempotency := RequestIdentity_Idempotency sample_identity;
                   Request_Deadline := 0 |};
     EstimatedUsage := unknown_usage; Request_PriceSnapshot := Some sample_snapshot;
     has_OnStreamEvent := false; has_OnToolCall := false |}.

Definition sample_request : ExecuteBudgetedProviderRequest :=
  {| Budgeted_BudgetID := sample_budget; Budgeted_TaskID := sample_task; Budgeted_RunID := "run-1";
     Budgeted_PreflightRevision := 1; Budgeted_ExpectedBudgetRevision := 0;
     Budgeted_ApprovedUsagePerAttempt := small_usage; Budgeted_Provider := sample_provider_request |}.

Definition sample_logical (state : string) : ProviderLogicalRequest :=
  {| Logical_ID := "model-request-1"; Logical_TaskID := sample_task; Logical_RunID := Some "run-1";
     Logical_ProviderID := "provider-1"; Logical_ProviderConfigurationRevisionID := "configuration-1";
     Logical_AdapterName := "openai"; Logical_AdapterVersion := "1"; Logical_ProviderVersion := "v1";
     Logical_ModelIdentifier := "m"; Logical_ModelVersion := "r";
     Logical_PricingRevisionID := Some "price-1"; Logical_State := state;
     Logical_RequestSHA256 := RequestIdentity_RequestHash sample_identity;
     Logical_IdempotencyKey := "key-1"; Logical_AccountingStatus := ProviderAccountingUnknown;
     Logical_StartedAt := None; Logical_CompletedAt := None; Logical_CreatedAt := 0;
     Logical_UpdatedAt := 0; Logical_Revision := 0 |}.

Definition final_event : StreamEvent :=
  {| Event_Sequence := 1; Event_Kind := StreamEventFinal; Event_Text := "";
     Event_ToolCallDelta := None; Event_ToolCall := None; Event_Usage := None; Event_Metadata := None;
     Event_Final := Some {| Final_Identity := RequestIdentity_Model sample_identity;
       Final_StopReason := "completed"; Final_Usage := small_usage;
       Final_Metadata := {| Metadata_RequestID := ""; Metadata_ResponseID := "";
                            Metadata_Fingerprint := ""; Metadata_Fields := ∅ |};
       Final_PartialEffect := no_partial_effect |};
     Event_ObservedAt := 0 |}.

Definition sample_summary : ProviderRequestAccountingSummary :=
  {| Summary_RequestID := "model-request-1"; Summary_AttemptCount := 1;
     Summary_Usage := durable_usage small_usage ∅; Summary_Cost := Some (exact 17 20000 "USD");
     Summary_AccountingComplete := true; Summary_Discrepancy := false;
     Summary_PartialStreamObserved := false |}.

Definition sample_attempt_row (state : string) : ProviderRequestAttempt :=
  {| Attempt_ID := "model-request-1-attempt-1"; Attempt_LogicalRequestID := "model-request-1";
     Attempt_AttemptNumber := 1; Attempt_State := state; Attempt_ProviderRequestIDRedacted := None;
     Attempt_RequestIdempotencyKey := None; Attempt_EffectStatus := ProviderRequestEffectNone;
     Attempt_PartialStreamObserved := false; Attempt_ErrorClass := None; Attempt_Retryable := false;
     Attempt_RetryAfterMillis := None; Attempt_SafeMetadataJSON := None; Attempt_StartedAt := None;
     Attempt_FirstResponseAt := None; Attempt_CompletedAt := None; Attempt_CreatedAt := 0;
     Attempt_UpdatedAt := 0; Attempt_Revision := 0 |}.

(** The ledger of BudgetSamples.v, a store that keeps everything, and a provider
    that answers at once; [summarized] is what the store answers for the sum. *)
Definition sample_world (summarized : ProviderRequestAccountingSummary * option error)
    (h : history) (q : port) : answer q :=
  match q return answer q with
  | Retrying r => RetryFacts.sample_ports [] r
  | Stream _ _ => Ok ([final_event], Sentinel EOF)
  | CloseStream => tt
  | OnStreamEvent _ | OnToolCall _ => None
  | CreateAttempt _ => Ok (sample_attempt_row ProviderRequestAttemptPrepared)
  | TransitionAttempt i => Ok (sample_attempt_row (Transition_To i))
  | AbortPrepared _ | EnsureAccounting _ | AppendAccounting _ | AppendEvidence _ => None
  | GetLogicalRequest _ =>
      Ok (sample_logical (match charges h with [] => ProviderLogicalRequestPlanned
                          | _ => ProviderLogicalRequestInFlight end))
  | TransitionLogicalRequest i => Ok (sample_logical (LogicalTransition_To i))
  | SummarizeAccounting _ => summarized
  | GetPreflight _ _ =>
      Ok {| Preflight_TaskID := sample_task; Preflight_BudgetID := sample_budget;
            Preflight_BudgetLimitRevision := 0 |}
  | GetSnapshot task => GetBudgetSnapshot task sample_created
  | Reserve i => (reserving (at_micro 1) i sample_created).1
  | Settle _ | Release _ | RecordIntent _ | Raise _ => (no_snapshot, None)
  end.

Definition same_text (_ : Boundary) (value : string) : result error string := Ok value.
Definition sample_execution : program answer (BudgetedProviderExecutionResult * option error) :=
  BudgetedExecution.Execute same_text (fun _ => "{}") map_to_list no_counts any_json map_to_list
    (fun _ => "") exact_scale default_executor sample_request.

Definition sample_trace : list (event answer) :=
  reverse (Ports.run (sample_world (sample_summary, None)) sample_execution []).2.
Definition unread_trace : list (event answer) :=
  reverse (Ports.run (sample_world (no_summary, Some (Sentinel ErrBusy))) sample_execution []).2.

Lemma sample_executor_built : NewBudgetedProviderExecutionService zero_policy = Ok default_executor.
Proof. vm_compute. reflexivity. Qed.

Definition first_attempt : PhysicalAttempt :=
  {| PhysicalAttempt_Identity := sample_identity; PhysicalAttempt_Number := 1;
     PhysicalAttempt_StartedAt := 0 |}.

Lemma provider_io_is_reserved_witness :
  exists answered,
  sample_trace = take 11 sample_trace ++
    called (Stream first_attempt (Request sample_provider_request)) answered :: drop 12 sample_trace /\
  exists i r, charges (reverse (take 11 sample_trace)) = [Reserved i r] /\
    reserve_TokenBound i = Some 420.
Proof.
  assert (sample_trace = take 11 sample_trace ++
    called (Stream first_attempt (Request sample_provider_request))
      (Ok ([final_event], Sentinel EOF)) :: drop 12 sample_trace) as Ht by (vm_compute; reflexivity).
  eexists. split; [exact Ht|].
  destruct (provider_io_is_reserved same_text (fun _ => "{}") map_to_list no_counts any_json map_to_list
    (fun _ => "") exact_scale exact_scale_between zero_policy default_executor sample_executor_built
    sample_request _ _ _ _ _ _ _ (run_trace (sample_world (sample_summary, None)) sample_execution) Ht)
    as (price & i & r & s & _ & Hch & _ & _ & _ & Htok & _).
  exists i, (r, s, None). split; [exact Hch|]. rewrite Htok. vm_compute. reflexivity.
Defined.

Lemma billed_work_is_settled_witness :
  streams (reverse sample_trace) <> [] /\
  exists summary, summaries (reverse sample_trace) = [(summary, None)].
Proof.
  assert (streams (reverse sample_trace) <> []) as Hst by (vm_compute; discriminate).
  split; [exact Hst|].
  assert (summaries (reverse sample_trace) = [(sample_summary, None)]) as Hs by (vm_compute; reflexivity).
  destruct (billed_work_is_settled same_text (fun _ => "{}") map_to_list no_counts any_json map_to_list
    (fun _ => "") exact_scale exact_scale_between zero_policy default_executor sample_executor_built
    sample_request sample_trace _ (run_trace (sample_world (sample_summary, None)) sample_execution) Hst)
    as (summary & r & s & i & b & u & Hsum & _); [|by exists summary].
  intros summary err Hin. rewrite Hs in Hin. apply list_elem_of_singleton in Hin.
  split; [exact (f_equal snd Hin)|]. apply (f_equal (fun x => Summary_AttemptCount x.1)) in Hin.
  simpl in Hin. clear - Hin. lia.
Defined.

Lemma attempts_are_accounted_witness :
  exists answered,
  sample_trace = take 18 sample_trace ++
    called (SummarizeAccounting "model-request-1") answered :: drop 19 sample_trace /\
  streams (reverse (take 18 sample_trace)) = [first_attempt] /\
  accounted "model-request-1-attempt-1" (ensures (reverse (take 18 sample_trace))).
Proof.
  assert (sample_trace = take 18 sample_trace ++
    called (SummarizeAccounting "model-request-1") (sample_summary, None) :: drop 19 sample_trace) as Ht
    by (vm_compute; reflexivity).
  assert (streams (reverse (take 18 sample_trace)) = [first_attempt]) as Hst by (vm_compute; reflexivity).
  eexists. split; [exact Ht|]. split; [exact Hst|].
  destruct (attempts_are_accounted same_text (fun _ => "{}") map_to_list no_counts any_json map_to_list
    (fun _ => "") exact_scale exact_scale_between zero_policy default_executor sample_executor_built
    sample_request _ _ _ _ _ _ (run_trace (sample_world (sample_summary, None)) sample_execution) Ht)
    as [H _].
  apply (H first_attempt). rewrite Hst. by left.
Defined.

(** The provider was reached and its final response was received, and the whole
    reservation is given back. *)
Lemma unread_sum_releases_billed_work_witness :
  streams (reverse unread_trace) = [first_attempt] /\
  is_Some (Result_Final (Output_Provider
    (Ports.run (sample_world (no_summary, Some (Sentinel ErrBusy))) sample_execution []).1.1)) /\
  exists i reservation snapshot given,
    charges (reverse unread_trace) = given ++ [Reserved i (reservation, snapshot, None)] /\ given <> [].
Proof.
  assert (streams (reverse unread_trace) = [first_attempt]) as Hst by (vm_compute; reflexivity).
  assert (summaries (reverse unread_trace) = [(no_summary, Some (Sentinel ErrBusy))]) as Hs
    by (vm_compute; reflexivity).
  split; [exact Hst|]. split; [vm_compute; by eexists|].
  destruct (unread_sum_releases_billed_work same_text (fun _ => "{}") map_to_list no_counts any_json map_to_list
    (fun _ => "") exact_scale exact_scale_between zero_policy default_executor sample_executor_built
    sample_request unread_trace _
    (run_trace (sample_world (no_summary, Some (Sentinel ErrBusy))) sample_execution))
    as (i & r & s & given & Hch & _ & Hne & _).
  - rewrite Hst. discriminate.
  - intros summary err Hin. rewrite Hs in Hin. apply list_elem_of_singleton in Hin.
    injection Hin as -> ->. split; [discriminate|reflexivity].
  - exists i, r, s, given. split; [exact Hch|exact Hne].
Defined.
