(* ===== verification/ProviderSchema.v ===== *)
(** * The tables of provider requests (src/migrations/000009_provider_accounting.sql)

    The tables in which the requests to providers are kept: configurations and
    prices, logical requests, their physical attempts, and the accounting and
    the evidence of an attempt. As in BudgetSchema.v a table is the list of its
    rows in the order of insertion, and a statement that breaks a constraint
    fails with SQLite's extended code. The BEFORE triggers run first, then the
    checks, the keys and the foreign keys. Rows are never deleted, and of the
    updates that exist the triggers on identities and terminal rows allow those
    that are made below. *)

From Stdlib Require Import Ascii String.
From S2P Require Import Prelude GoText GoErrors PolicyValues Identity Pricing BudgetSchema.
Open Scope string_scope.
Open Scope list_scope.
Open Scope go_scope.

(** ** Rows *)

Record configuration_row := {
  cf_id : string;
  cf_provider_id : ID;
  cf_revision : Z;
  cf_adapter_name : string;
  cf_adapter_version : string;
  cf_provider_version : string;
  cf_endpoint : string;
  cf_capabilities : string;
  cf_content_sha256 : string;
  cf_approval_reference : option string;
  cf_idempotency_key : string;
  cf_created_at : Z;
}.

Record pricing_row := {
  pr_id : string;
  pr_provider_id : ID;
  pr_model_identifier : string;
  pr_model_version : string;
  pr_currency : option string;
  pr_known : bool;
  pr_source : option string;
  pr_effective_at : Z;
  pr_created_at : Z;
}.

Record component_row := {
  co_pricing_id : string;
  co_usage_kind : string;
  co_specific_kind : option string;
  co_numerator : Z;
  co_denominator : Z;
}.

Record seal_row := {
  se_pricing_id : string;
  se_component_count : Z;
  se_sealed_at : Z;
}.

Record request_row := {
  rq_id : ID;
  rq_task_id : ID;
  rq_run_id : option ID;
  rq_provider_id : ID;
  rq_configuration_id : string;
  rq_adapter_name : string;
  rq_adapter_version : string;
  rq_provider_version : string;
  rq_model_identifier : string;
  rq_model_version : string;
  rq_pricing_id : string;
  rq_state : string;
  rq_sha256 : string;
  rq_idempotency_key : string;
  rq_accounting_status : string;
  rq_started_at : option Z;
  rq_completed_at : option Z;
  rq_created_at : Z;
  rq_updated_at : Z;
  rq_revision : Z;
}.

Record attempt_row := {
  at_id : string;
  at_request_id : ID;
  at_number : Z;
  at_state : string;
  at_provider_request_id : option string;
  at_idempotency_key : option string;
  at_effect_status : string;
  at_partial_stream : bool;
  at_error_class : option string;
  at_retryable : bool;
  at_retry_after : option Z;
  at_safe_metadata : option string;
  at_started_at : option Z;
  at_first_response_at : option Z;
  at_completed_at : option Z;
  at_created_at : Z;
  at_updated_at : Z;
  at_revision : Z;
}.

Record accounting_row := {
  ac_id : string;
  ac_attempt_id : string;
  ac_sequence : Z;
  ac_source : string;
  ac_usage_known : bool;
  ac_input : option Z;
  ac_cached_input : option Z;
  ac_cache_write : option Z;
  ac_output : option Z;
  ac_reasoning : option Z;
  ac_specific_json : option string;
  ac_pricing_id : option string;
  ac_cost_known : bool;
  ac_cost_numerator : option Z;
  ac_cost_denominator : option Z;
  ac_currency : option string;
  ac_discrepancy : bool;
  ac_discrepancy_text : option string;
  ac_partial : bool;
  ac_provenance : string;
  ac_created_at : Z;
}.

Record evidence_row := {
  ev_id : string;
  ev_attempt_id : string;
  ev_sequence : Z;
  ev_kind : string;
  ev_final : bool;
  ev_content_sha256 : string;
  ev_summary : string;
  ev_byte_count : Z;
  ev_created_at : Z;
}.

(** The tables, with the keys of the three they refer to: providers, tasks, and
    runs with their task. *)
Record store := {
  provider_keys : list ID;
  task_keys : list ID;
  run_keys : list (ID * ID);
  configurations : list configuration_row;
  pricings : list pricing_row;
  components : list component_row;
  seals : list seal_row;
  requests : list request_row;
  attempts : list attempt_row;
  accounting : list accounting_row;
  evidence : list evidence_row;
}.

Definition set_configurations (s : store) v : store :=
  {| provider_keys := provider_keys s; task_keys := task_keys s; run_keys := run_keys s;
     configurations := v; pricings := pricings s; components := components s; seals := seals s;
     requests := requests s; attempts := attempts s; accounting := accounting s;
     evidence := evidence s |}.
Definition set_pricings (s : store) v : store :=
  {| provider_keys := provider_keys s; task_keys := task_keys s; run_keys := run_keys s;
     configurations := configurations s; pricings := v; components := components s;
     seals := seals s; requests := requests s; attempts := attempts s;
     accounting := accounting s; evidence := evidence s |}.
Definition set_components (s : store) v : store :=
  {| provider_keys := provider_keys s; task_keys := task_keys s; run_keys := run_keys s;
     configurations := configurations s; pricings := pricings s; components := v;
     seals := seals s; requests := requests s; attempts := attempts s;
     accounting := accounting s; evidence := evidence s |}.
Definition set_seals (s : store) v : store :=
  {| provider_keys := provider_keys s; task_keys := task_keys s; run_keys := run_keys s;
     configurations := configurations s; pricings := pricings s; components := components s;
     seals := v; requests := requests s; attempts := attempts s; accounting := accounting s;
     evidence := evidence s |}.
Definition set_requests (s : store) v : store :=
  {| provider_keys := provider_keys s; task_keys := task_keys s; run_keys := run_keys s;
     configurations := configurations s; pricings := pricings s; components := components s;
     seals := seals s; requests := v; attempts := attempts s; accounting := accounting s;
     evidence := evidence s |}.
Definition set_attempts (s : store) v : store :=
  {| provider_keys := provider_keys s; task_keys := task_keys s; run_keys := run_keys s;
     configurations := configurations s; pricings := pricings s; components := components s;
     seals := seals s; requests := requests s; attempts := v; accounting := accounting s;
     evidence := evidence s |}.
Definition set_accounting (s : store) v : store :=
  {| provider_keys := provider_keys s; task_keys := task_keys s; run_keys := run_keys s;
     configurations := configurations s; pricings := pricings s; components := components s;
     seals := seals s; requests := requests s; attempts := attempts s; accounting := v;
     evidence := evidence s |}.
Definition set_evidence (s : store) v : store :=
  {| provider_keys := provider_keys s; task_keys := task_keys s; run_keys := run_keys s;
     configurations := configurations s; pricings := pricings s; components := components s;
     seals := seals s; requests := requests s; attempts := attempts s; accounting := accounting s;
     evidence := v |}.

(** ** Lookups by key *)

Definition find_pricing (s : store) (id : string) : option pricing_row :=
  find (fun p => pr_id p =? id) (pricings s).
Definition find_seal (s : store) (id : string) : option seal_row :=
  find (fun e => se_pricing_id e =? id) (seals s).
Definition find_request (s : store) (id : ID) : option request_row :=
  find (fun r => rq_id r =? id) (requests s).
Definition find_attempt (s : store) (id : string) : option attempt_row :=
  find (fun a => at_id a =? id) (attempts s).
Definition find_accounting (s : store) (id : string) : option accounting_row :=
  find (fun a => ac_id a =? id) (accounting s).
Definition find_evidence (s : store) (id : string) : option evidence_row :=
  find (fun e => ev_id e =? id) (evidence s).
Definition components_of (s : store) (id : string) : list component_row :=
  List.filter (fun c => co_pricing_id c =? id) (components s).

(** [provider_request_attempts AS attempt JOIN provider_logical_requests AS
    request ON request.id = attempt.logical_request_id], for one attempt. *)
Definition request_of_attempt (s : store) (attempt : string) : option request_row :=
  a ← find_attempt s attempt; find_request s (at_request_id a).

Definition exists_key (keys : list ID) (id : ID) : bool := existsb (String.eqb id) keys.

(** ** Checks *)

(** A value that is no 64-bit integer cannot be stored in an INTEGER column of a
    STRICT table. *)
Definition CONSTRAINT_DATATYPE : Z := 3091.

(** [length(x) = 64 AND x NOT GLOB '*[^0-9a-f]*'] *)
Definition glob_sha256 (s : string) : bool :=
  (sql_length s =? 64)%Z &&
  forallb (fun c => let n := N_of_ascii c in
                    (48 <=? n)%N && (n <=? 57)%N || (97 <=? n)%N && (n <=? 102)%N)
    (String.list_ascii_of_string s).

Section Schema.
Context (json_valid : string -> bool).

Definition configuration_checks (r : configuration_row) : bool :=
  text_within 1 255 (cf_id r) && (1 <=? cf_revision r)%Z &&
  text_within 1 255 (cf_adapter_name r) && text_within 1 255 (cf_adapter_version r) &&
  text_within 1 255 (cf_provider_version r) && text_within 1 2048 (cf_endpoint r) &&
  json_text json_valid (cf_capabilities r) && glob_sha256 (cf_content_sha256 r) &&
  null_or (text_within 1 255) (cf_approval_reference r) &&
  text_within 1 255 (cf_idempotency_key r) && (0 <=? cf_created_at r)%Z.

Definition insert_configuration (s : store) (r : configuration_row) : result sql_error store :=
  check_all
    [ (configuration_checks r, CONSTRAINT_CHECK);
      (negb (existsb (fun o => cf_id o =? cf_id r) (configurations s)), CONSTRAINT_PRIMARYKEY);
      (negb (existsb (fun o => (cf_provider_id o =? cf_provider_id r) &&
                               ((cf_revision o =? cf_revision r)%Z ||
                                (cf_idempotency_key o =? cf_idempotency_key r)))
               (configurations s)), CONSTRAINT_UNIQUE);
      (exists_key (provider_keys s) (cf_provider_id r), CONSTRAINT_FOREIGNKEY) ] ;!
  Ok (set_configurations s (configurations s ++ [r])).

Definition pricing_checks (r : pricing_row) : bool :=
  text_within 1 255 (pr_id r) && text_within 1 255 (pr_model_identifier r) &&
  text_within 1 255 (pr_model_version r) && null_or glob_currency (pr_currency r) &&
  null_or (text_within 1 2048) (pr_source r) && (0 <=? pr_effective_at r)%Z &&
  (0 <=? pr_created_at r)%Z &&
  bool_decide (pr_known r = bool_decide (pr_currency r <> None)).

Definition insert_pricing (s : store) (r : pricing_row) : result sql_error store :=
  check_all
    [ (pricing_checks r, CONSTRAINT_CHECK);
      (negb (existsb (fun o => pr_id o =? pr_id r) (pricings s)), CONSTRAINT_PRIMARYKEY);
      (negb (existsb (fun o => (pr_provider_id o =? pr_provider_id r) &&
                               (pr_model_identifier o =? pr_model_identifier r) &&
                               (pr_model_version o =? pr_model_version r) &&
                               (pr_effective_at o =? pr_effective_at r)%Z)
               (pricings s)), CONSTRAINT_UNIQUE);
      (exists_key (provider_keys s) (pr_provider_id r), CONSTRAINT_FOREIGNKEY) ] ;!
  Ok (set_pricings s (pricings s ++ [r])).

Definition component_checks (r : component_row) : bool :=
  one_of ["input"; "cached-input"; "cache-write"; "output"; "reasoning"; "provider-specific"]
    (co_usage_kind r) &&
  null_or (text_within 1 255) (co_specific_kind r) &&
  (0 <=? co_numerator r)%Z && (0 <? co_denominator r)%Z &&
  bool_decide ((co_usage_kind r = "provider-specific") <-> (co_specific_kind r <> None)).

(** The triggers [provider_price_components_require_known_pricing] and
    [provider_price_components_no_insert_after_seal], and the two unique
    indexes. *)
Definition insert_component (s : store) (r : component_row) : result sql_error store :=
  check_all
    [ (existsb (fun p => (pr_id p =? co_pricing_id r) && pr_known p) (pricings s),
       CONSTRAINT_TRIGGER);
      (negb (existsb (fun e => se_pricing_id e =? co_pricing_id r) (seals s)), CONSTRAINT_TRIGGER);
      (component_checks r, CONSTRAINT_CHECK);
      (negb (existsb (fun o => (co_pricing_id o =? co_pricing_id r) &&
                               (co_usage_kind o =? co_usage_kind r) &&
                               bool_decide (co_specific_kind o = co_specific_kind r))
               (components s)), CONSTRAINT_UNIQUE) ] ;!
  Ok (set_components s (components s ++ [r])).

(** The trigger [provider_pricing_revision_seals_validate]. *)
Definition insert_seal (s : store) (r : seal_row) : result sql_error store :=
  check_all
    [ (existsb (fun p => (pr_id p =? se_pricing_id r) &&
                         (se_component_count r =?
                            Z.of_nat (length (components_of s (pr_id p))))%Z &&
                         (if pr_known p then (0 <? se_component_count r)%Z
                          else (se_component_count r =? 0)%Z))
         (pricings s), CONSTRAINT_TRIGGER);
      (between 0 128 (se_component_count r) && (0 <=? se_sealed_at r)%Z, CONSTRAINT_CHECK);
      (negb (existsb (fun o => se_pricing_id o =? se_pricing_id r) (seals s)),
       CONSTRAINT_PRIMARYKEY) ] ;!
  Ok (set_seals s (seals s ++ [r])).

Definition request_states : list string :=
  ["planned"; "in-flight"; "succeeded"; "failed"; "cancelled"; "outcome-unknown";
   "retry-exhausted"].

(** [completed_at IS NULL OR (started_at IS NOT NULL AND completed_at >= started_at)] *)
Definition follows (start stop : option Z) : bool :=
  match stop, start with
  | None, _ => true
  | Some stop, Some start => (start <=? stop)%Z
  | Some _, None => false
  end.

Definition request_checks (r : request_row) : bool :=
  text_within 1 255 (rq_id r) && text_within 1 255 (rq_adapter_name r) &&
  text_within 1 255 (rq_adapter_version r) && text_within 1 255 (rq_provider_version r) &&
  text_within 1 255 (rq_model_identifier r) && text_within 1 255 (rq_model_version r) &&
  one_of request_states (rq_state r) && glob_sha256 (rq_sha256 r) &&
  text_within 1 255 (rq_idempotency_key r) &&
  one_of ["unknown"; "estimated"; "provider-reported"; "reconciled"; "discrepant"]
    (rq_accounting_status r) &&
  nonnegative (rq_started_at r) && follows (rq_started_at r) (rq_completed_at r) &&
  (0 <=? rq_created_at r)%Z && (rq_created_at r <=? rq_updated_at r)%Z && (0 <=? rq_revision r)%Z.

Definition insert_request (s : store) (r : request_row) : result sql_error store :=
  check_all
    [ (request_checks r, CONSTRAINT_CHECK);
      (negb (existsb (fun o => rq_id o =? rq_id r) (requests s)), CONSTRAINT_PRIMARYKEY);
      (negb (existsb (fun o => (rq_task_id o =? rq_task_id r) &&
                               (rq_idempotency_key o =? rq_idempotency_key r))
               (requests s)), CONSTRAINT_UNIQUE);
      (exists_key (task_keys s) (rq_task_id r), CONSTRAINT_FOREIGNKEY);
      (match rq_run_id r with Some run => exists_key (map fst (run_keys s)) run | None => true end,
       CONSTRAINT_FOREIGNKEY);
      (exists_key (provider_keys s) (rq_provider_id r), CONSTRAINT_FOREIGNKEY);
      (existsb (fun c => (cf_id c =? rq_configuration_id r) &&
                         (cf_provider_id c =? rq_provider_id r) &&
                         (cf_adapter_name c =? rq_adapter_name r) &&
                         (cf_adapter_version c =? rq_adapter_version r) &&
                         (cf_provider_version c =? rq_provider_version r))
         (configurations s), CONSTRAINT_FOREIGNKEY);
      (existsb (fun e => se_pricing_id e =? rq_pricing_id r) (seals s), CONSTRAINT_FOREIGNKEY);
      (existsb (fun p => (pr_id p =? rq_pricing_id r) && (pr_provider_id p =? rq_provider_id r) &&
                         (pr_model_identifier p =? rq_model_identifier r) &&
                         (pr_model_version p =? rq_model_version r))
         (pricings s), CONSTRAINT_FOREIGNKEY) ] ;!
  Ok (set_requests s (requests s ++ [r])).

Definition terminal_request_states : list string :=
  ["succeeded"; "failed"; "cancelled"; "outcome-unknown"; "retry-exhausted"].

(** The update of the rows that [hit] selects, and whether there is one. The
    triggers and checks are those of each changed row. *)
Definition update_rows {A} (l : list A) (hit : A -> bool) (change : A -> A)
    (triggers typed checks : A -> bool) : result sql_error (bool * list A) :=
  check_all
    [ (forallb (fun r => negb (hit r) || triggers r) l, CONSTRAINT_TRIGGER);
      (forallb (fun r => negb (hit r) || typed (change r)) l, CONSTRAINT_DATATYPE);
      (forallb (fun r => negb (hit r) || checks (change r)) l, CONSTRAINT_CHECK) ] ;!
  Ok (existsb hit l, map (fun r => if hit r then change r else r) l).

(** [UPDATE provider_logical_requests SET ... WHERE id = ? AND revision = ? AND
    state = ?], of a change that leaves the identity of the row as it is. *)
Definition update_request (s : store) (id : ID) (revision : Z) (state : string)
    (change : request_row -> request_row) : result sql_error (bool * store) :=
  updated ← update_rows (requests s)
    (fun r => (rq_id r =? id) && (rq_revision r =? revision)%Z && (rq_state r =? state)) change
    (fun r => negb (one_of terminal_request_states (rq_state r)))
    (fun r => IsInt64 (rq_revision r)) request_checks;
  Ok (updated.1, set_requests s updated.2).

Definition attempt_states : list string :=
  ["prepared"; "started"; "streaming"; "succeeded"; "failed"; "cancelled"; "outcome-unknown"].

Definition attempt_checks (r : attempt_row) : bool :=
  text_within 1 255 (at_id r) && between 1 32 (at_number r) && one_of attempt_states (at_state r) &&
  null_or (text_within 1 512) (at_provider_request_id r) &&
  null_or (text_within 1 255) (at_idempotency_key r) &&
  one_of ["none"; "possible"; "confirmed"] (at_effect_status r) &&
  null_or (one_of ["timeout"; "retryable"; "rate-limit"; "authentication"; "invalid-request";
                   "safety"; "unavailable"; "cancelled"; "unknown"]) (at_error_class r) &&
  nonnegative (at_retry_after r) && null_or (json_text json_valid) (at_safe_metadata r) &&
  nonnegative (at_started_at r) && follows (at_started_at r) (at_first_response_at r) &&
  follows (at_started_at r) (at_completed_at r) && (0 <=? at_created_at r)%Z &&
  (at_created_at r <=? at_updated_at r)%Z && (0 <=? at_revision r)%Z.

Definition insert_attempt (s : store) (r : attempt_row) : result sql_error store :=
  check_all
    [ (attempt_checks r, CONSTRAINT_CHECK);
      (negb (existsb (fun o => at_id o =? at_id r) (attempts s)), CONSTRAINT_PRIMARYKEY);
      (negb (existsb (fun o => (at_request_id o =? at_request_id r) &&
                               (at_number o =? at_number r)%Z) (attempts s)), CONSTRAINT_UNIQUE);
      (existsb (fun q => rq_id q =? at_request_id r) (requests s), CONSTRAINT_FOREIGNKEY) ] ;!
  Ok (set_attempts s (attempts s ++ [r])).

Definition terminal_attempt_states : list string :=
  ["succeeded"; "failed"; "cancelled"; "outcome-unknown"].

(** [UPDATE provider_request_attempts SET ... WHERE id = ? AND revision = ? AND
    state = ?], of a change that leaves the identity of the row as it is. *)
Definition update_attempt (s : store) (id : string) (revision : Z) (state : string)
    (change : attempt_row -> attempt_row) : result sql_error (bool * store) :=
  updated ← update_rows (attempts s)
    (fun r => (at_id r =? id) && (at_revision r =? revision)%Z && (at_state r =? state)) change
    (fun r => negb (one_of terminal_attempt_states (at_state r)))
    (fun r => IsInt64 (at_revision r)) attempt_checks;
  Ok (updated.1, set_attempts s updated.2).

Definition usage_columns (r : accounting_row) : bool :=
  let tokens := [ac_input r; ac_cached_input r; ac_cache_write r; ac_output r; ac_reasoning r] in
  if ac_usage_known r
  then forallb (fun t => match t with Some t => (0 <=? t)%Z | None => false end) tokens
  else forallb (fun t => bool_decide (t = None)) tokens && bool_decide (ac_specific_json r = None).

Definition accounting_checks (r : accounting_row) : bool :=
  text_within 1 255 (ac_id r) && between 1 1024 (ac_sequence r) &&
  one_of ["estimated"; "provider-partial"; "provider-final"; "reconciled"] (ac_source r) &&
  null_or (json_text json_valid) (ac_specific_json r) && null_or glob_currency (ac_currency r) &&
  null_or (text_within 1 2048) (ac_discrepancy_text r) && json_text json_valid (ac_provenance r) &&
  (0 <=? ac_created_at r)%Z && usage_columns r &&
  cost_columns (ac_cost_known r) (ac_cost_numerator r) (ac_cost_denominator r) &&
  bool_decide (ac_cost_known r = bool_decide (ac_currency r <> None)) &&
  (negb (ac_cost_known r) || bool_decide (ac_pricing_id r <> None)) &&
  bool_decide (ac_discrepancy r = bool_decide (ac_discrepancy_text r <> None)).

(** The triggers [provider_attempt_accounting_pricing_binding] and
    [provider_attempt_accounting_known_cost_pricing]. *)
Definition pricing_is_bound (s : store) (r : accounting_row) : bool :=
  match ac_pricing_id r with
  | None => true
  | Some pricing =>
      match request_of_attempt s (ac_attempt_id r) with
      | Some request => rq_pricing_id request =? pricing
      | None => false
      end
  end.

Definition cost_has_pricing (s : store) (r : accounting_row) : bool :=
  negb (ac_cost_known r) ||
  existsb (fun p => bool_decide (Some (pr_id p) = ac_pricing_id r) && pr_known p &&
                    bool_decide (pr_currency p <> None) &&
                    bool_decide (pr_currency p = ac_currency r)) (pricings s).

Definition insert_accounting (s : store) (r : accounting_row) : result sql_error store :=
  check_all
    [ (pricing_is_bound s r, CONSTRAINT_TRIGGER);
      (cost_has_pricing s r, CONSTRAINT_TRIGGER);
      (accounting_checks r, CONSTRAINT_CHECK);
      (negb (existsb (fun o => ac_id o =? ac_id r) (accounting s)), CONSTRAINT_PRIMARYKEY);
      (negb (existsb (fun o => (ac_attempt_id o =? ac_attempt_id r) &&
                               (ac_sequence o =? ac_sequence r)%Z) (accounting s)),
       CONSTRAINT_UNIQUE);
      (existsb (fun a => at_id a =? ac_attempt_id r) (attempts s), CONSTRAINT_FOREIGNKEY);
      (match ac_pricing_id r with
       | Some pricing => existsb (fun p => pr_id p =? pricing) (pricings s)
       | None => true
       end, CONSTRAINT_FOREIGNKEY) ] ;!
  Ok (set_accounting s (accounting s ++ [r])).

Definition evidence_checks (r : evidence_row) : bool :=
  text_within 1 255 (ev_id r) && between 1 4096 (ev_sequence r) &&
  one_of ["partial-output"; "partial-tool-call"; "effect-observed"; "late-response-discarded"]
    (ev_kind r) &&
  glob_sha256 (ev_content_sha256 r) && text_within 1 4096 (ev_summary r) &&
  (0 <=? ev_byte_count r)%Z && (0 <=? ev_created_at r)%Z &&
  (negb (one_of ["partial-output"; "partial-tool-call"] (ev_kind r)) || negb (ev_final r)).

Definition insert_evidence (s : store) (r : evidence_row) : result sql_error store :=
  check_all
    [ (evidence_checks r, CONSTRAINT_CHECK);
      (negb (existsb (fun o => ev_id o =? ev_id r) (evidence s)), CONSTRAINT_PRIMARYKEY);
      (negb (existsb (fun o => (ev_attempt_id o =? ev_attempt_id r) &&
                               (ev_sequence o =? ev_sequence r)%Z) (evidence s)),
       CONSTRAINT_UNIQUE);
      (existsb (fun a => at_id a =? ev_attempt_id r) (attempts s), CONSTRAINT_FOREIGNKEY) ] ;!
  Ok (set_evidence s (evidence s ++ [r])).

End Schema.
