(* ===== verification/ProviderStore.v ===== *)
(** * The repository of provider requests
    (src/internal/storage/provider_accounting_repository.go)

    Every operation that changes a table is one transaction: it returns a value
    and the new tables, or an error, and then the tables are as they were.
    Identities are valid by their type in Go, so that the conversions of SQL
    arguments and columns leave them alone. Times are nanoseconds since the
    epoch in UTC; [now] is what the clock of the repositories says during a
    call. Whether a text is JSON for SQLite ([json_valid]) and for Go
    ([json_Valid]), the JSON of a map of counts, and the orders in which Go
    ranges over maps are parameters. *)

From Stdlib Require Import Ascii String QArith.
From S2P Require Import Prelude GoText GoErrors PolicyValues Identity Pricing GoPath ProviderTypes.
From S2P Require Import BudgetSchema BudgetSnapshots BudgetLedger ProviderAttempts ProviderSchema.
Open Scope string_scope.
Open Scope list_scope.
Open Scope go_scope.

Definition maximumProviderPriceComponents : Z := 128.
Definition maximumProviderRequestAttempts : Z := 32.
Definition maximumProviderAccountingRecords : Z := 1024.
Definition maximumProviderEvidenceRecords : Z := 4096.

(** ** Inputs and results *)

Record ProviderConfigurationRevision := {
  Config_ID : string;
  Config_ProviderID : ID;
  Config_Revision : Z;
  Config_AdapterName : string;
  Config_AdapterVersion : string;
  Config_ProviderVersion : string;
  Config_EndpointRedacted : string;
  Config_CapabilitiesJSON : string;
  Config_ContentSHA256 : string;
  Config_ApprovalReference : option string;
  Config_IdempotencyKey : string;
  Config_CreatedAt : Z;
}.

Record CreateProviderConfigurationRevision := {
  CreateConfig_ID : string;
  CreateConfig_ProviderID : ID;
  CreateConfig_ExpectedLatestRevision : Z;
  CreateConfig_AdapterName : string;
  CreateConfig_AdapterVersion : string;
  CreateConfig_ProviderVersion : string;
  CreateConfig_EndpointRedacted : string;
  CreateConfig_CapabilitiesJSON : string;
  CreateConfig_ContentSHA256 : string;
  CreateConfig_ApprovalReference : option string;
  CreateConfig_IdempotencyKey : string;
}.

Record ProviderPriceComponent := {
  Price_UsageKind : string;
  Price_ProviderSpecificKind : option string;
  Price_MinorNumerator : Z;
  Price_TokenDenominator : Z;
}.

#[export] Instance ProviderPriceComponent_eq_dec : EqDecision ProviderPriceComponent.
Proof. solve_decision. Defined.

Record ProviderPricingRevision := {
  PriceRevision_ID : string;
  PriceRevision_ProviderID : ID;
  PriceRevision_ModelIdentifier : string;
  PriceRevision_ModelVersion : string;
  PriceRevision_PricingKnown : bool;
  PriceRevision_Currency : option CurrencyCode;
  PriceRevision_SourceRedacted : option string;
  PriceRevision_EffectiveAt : Z;
  PriceRevision_CreatedAt : Z;
  PriceRevision_Components : list ProviderPriceComponent;
}.

Record CreateProviderPricingRevision := {
  CreatePrice_ID : string;
  CreatePrice_ProviderID : ID;
  CreatePrice_ModelIdentifier : string;
  CreatePrice_ModelVersion : string;
  CreatePrice_PricingKnown : bool;
  CreatePrice_Currency : option CurrencyCode;
  CreatePrice_SourceRedacted : option string;
  CreatePrice_EffectiveAt : Z;
  CreatePrice_Components : list ProviderPriceComponent;
}.

Record PlanProviderLogicalRequest := {
  Plan_ID : ID;
  Plan_TaskID : ID;
  Plan_RunID : option ID;
  Plan_ProviderID : ID;
  Plan_ProviderConfigurationRevisionID : string;
  Plan_AdapterName : string;
  Plan_AdapterVersion : string;
  Plan_ProviderVersion : string;
  Plan_ModelIdentifier : string;
  Plan_ModelVersion : string;
  Plan_PricingRevisionID : option string;
  Plan_RequestSHA256 : string;
  Plan_IdempotencyKey : string;
}.

Record ProviderAttemptAccounting := {
  Record_ID : string;
  Record_AttemptID : string;
  Record_Sequence : Z;
  Record_Source : string;
  Record_Usage : TokenUsage;
  Record_PricingRevisionID : option string;
  Record_Cost : option ExactMinorCost;
  Record_DiscrepancyRedacted : option string;
  Record_Partial : bool;
  Record_ProvenanceJSON : string;
  Record_CreatedAt : Z;
}.

Record ProviderAttemptEvidence := {
  EvidenceRecord_ID : string;
  EvidenceRecord_AttemptID : string;
  EvidenceRecord_Sequence : Z;
  EvidenceRecord_Kind : string;
  EvidenceRecord_Final : bool;
  EvidenceRecord_ContentSHA256 : string;
  EvidenceRecord_SummaryRedacted : string;
  EvidenceRecord_ByteCount : Z;
  EvidenceRecord_CreatedAt : Z;
}.

(** ** States *)

Definition providerLogicalTerminal (state : string) : bool :=
  one_of [ProviderLogicalRequestSucceeded; ProviderLogicalRequestFailed;
          ProviderLogicalRequestCancelled; ProviderLogicalRequestOutcomeUnknown;
          ProviderLogicalRequestRetryExhausted] state.

Definition providerLogicalTransitionAllowed (from to : string) : bool :=
  if from =? ProviderLogicalRequestPlanned then
    (to =? ProviderLogicalRequestInFlight) || (to =? ProviderLogicalRequestCancelled)
  else if from =? ProviderLogicalRequestInFlight then providerLogicalTerminal to
  else false.

Definition providerAttemptTerminal (state : string) : bool :=
  one_of [ProviderRequestAttemptSucceeded; ProviderRequestAttemptFailed;
          ProviderRequestAttemptCancelled; ProviderRequestAttemptOutcomeUnknown] state.

Definition providerAttemptTransitionAllowed (from to : string) : bool :=
  if from =? ProviderRequestAttemptPrepared then
    (to =? ProviderRequestAttemptStarted) || (to =? ProviderRequestAttemptCancelled)
  else if from =? ProviderRequestAttemptStarted then
    (to =? ProviderRequestAttemptStreaming) || providerAttemptTerminal to
  else if from =? ProviderRequestAttemptStreaming then providerAttemptTerminal to
  else false.

Definition providerAccountingStatusValid (status : string) : bool :=
  one_of [ProviderAccountingUnknown; ProviderAccountingEstimated;
          ProviderAccountingProviderReported; ProviderAccountingReconciled;
          ProviderAccountingDiscrepant] status.

Definition providerEffectStatusValid (status : string) : bool :=
  one_of [ProviderRequestEffectNone; ProviderRequestEffectPossible;
          ProviderRequestEffectConfirmed] status.

Definition providerEffectStatusRank (status : string) : Z :=
  if status =? ProviderRequestEffectNone then 0
  else if status =? ProviderRequestEffectPossible then 1
  else if status =? ProviderRequestEffectConfirmed then 2
  else -1.

Definition providerErrorClassValid (class : string) : bool :=
  one_of ["timeout"; "retryable"; "rate-limit"; "authentication"; "invalid-request"; "safety";
          "unavailable"; "cancelled"; "unknown"] class.

Definition providerUsageKindValid (kind : string) : bool :=
  one_of ["input"; "cached-input"; "cache-write"; "output"; "reasoning"; "provider-specific"] kind.

(** ** Prices *)

Definition nul : string := bytes [0]%N.

(** The key of a component in the maps of the code. *)
Definition price_key (kind : string) (specific : option string) : string :=
  match specific with None => kind | Some specific => kind +:+ nul +:+ specific end.
Definition component_key (c : ProviderPriceComponent) : string :=
  price_key (Price_UsageKind c) (Price_ProviderSpecificKind c).

Definition reduce_component (c : ProviderPriceComponent) : ProviderPriceComponent :=
  let divisor := greatestCommonDivisor (Price_MinorNumerator c) (Price_TokenDenominator c) in
  {| Price_UsageKind := Price_UsageKind c;
     Price_ProviderSpecificKind := Price_ProviderSpecificKind c;
     Price_MinorNumerator := Z.quot (Price_MinorNumerator c) divisor;
     Price_TokenDenominator := Z.quot (Price_TokenDenominator c) divisor |}.

Definition key_le (a b : ProviderPriceComponent) : Prop :=
  String.le (component_key a) (component_key b).
#[export] Instance key_le_dec : RelDecision key_le.
Proof. intros a b. unfold key_le. apply _. Defined.

(** [slices.SortFunc] is not stable; the keys are distinct. *)
Definition normalizedPriceComponents (input : list ProviderPriceComponent)
    : list ProviderPriceComponent :=
  merge_sort key_le (map reduce_component input).

(** [ORDER BY usage_kind, provider_specific_kind]: NULL comes first. *)
Definition sql_component_le (a b : component_row) : Prop :=
  co_usage_kind a <> co_usage_kind b /\ String.le (co_usage_kind a) (co_usage_kind b) \/
  co_usage_kind a = co_usage_kind b /\
  match co_specific_kind a, co_specific_kind b with
  | None, _ => True
  | Some _, None => False
  | Some a, Some b => String.le a b
  end.
#[export] Instance sql_component_le_dec : RelDecision sql_component_le.
Proof.
  intros a b. unfold sql_component_le.
  destruct (co_specific_kind a), (co_specific_kind b); apply _.
Defined.

Definition scanned_component (c : component_row) : ProviderPriceComponent :=
  {| Price_UsageKind := co_usage_kind c; Price_ProviderSpecificKind := co_specific_kind c;
     Price_MinorNumerator := co_numerator c; Price_TokenDenominator := co_denominator c |}.

Definition findProviderPricingRevision (s : store) (id : string)
    : result error (option ProviderPricingRevision) :=
  match find_pricing s id with
  | None => Ok None
  | Some r =>
      currency ← match pr_currency r with
                 | None => Ok None
                 | Some raw => match ParseCurrencyCode raw with
                               | Err e => Err (value_error e)
                               | Ok parsed => Ok (Some parsed)
                               end
                 end;
      Ok (Some
        {| PriceRevision_ID := pr_id r; PriceRevision_ProviderID := pr_provider_id r;
           PriceRevision_ModelIdentifier := pr_model_identifier r;
           PriceRevision_ModelVersion := pr_model_version r;
           PriceRevision_PricingKnown := pr_known r; PriceRevision_Currency := currency;
           PriceRevision_SourceRedacted := pr_source r;
           PriceRevision_EffectiveAt := repositoryTime (pr_effective_at r);
           PriceRevision_CreatedAt := repositoryTime (pr_created_at r);
           PriceRevision_Components :=
             map scanned_component (merge_sort sql_component_le (components_of s id)) |})
  end.

Definition providerPricingMatches (existing : ProviderPricingRevision)
    (input : CreateProviderPricingRevision) : bool :=
  (PriceRevision_ID existing =? CreatePrice_ID input) &&
  (PriceRevision_ProviderID existing =? CreatePrice_ProviderID input) &&
  (PriceRevision_ModelIdentifier existing =? CreatePrice_ModelIdentifier input) &&
  (PriceRevision_ModelVersion existing =? CreatePrice_ModelVersion input) &&
  eqb (PriceRevision_PricingKnown existing) (CreatePrice_PricingKnown input) &&
  equalOptionalString (PriceRevision_Currency existing) (CreatePrice_Currency input) &&
  equalOptionalString (PriceRevision_SourceRedacted existing) (CreatePrice_SourceRedacted input) &&
  (PriceRevision_EffectiveAt existing =? CreatePrice_EffectiveAt input)%Z &&
  bool_decide (PriceRevision_Components existing =
               normalizedPriceComponents (CreatePrice_Components input)).

(** ** Validation *)

Definition validSHA256 (value : string) : bool :=
  (Z.of_nat (String.length value) =? 64)%Z &&
  forallb (fun c => let n := N_of_ascii c in
                    (48 <=? n)%N && (n <=? 57)%N || (97 <=? n)%N && (n <=? 102)%N)
    (String.list_ascii_of_string value).

Definition check (condition : bool) (message : string) : option error :=
  if condition then Some (Sentinel message) else None.

(** [if value != nil] *)
Definition if_some {A} (o : option A) (f : A -> option error) : option error :=
  match o with Some a => f a | None => None end.

Definition validateCreateProviderRequestAttempt (input : CreateProviderRequestAttempt)
    : option error :=
  validateBounded "provider request attempt ID" (Create_ID input) 255 ;?
  check (IsZero (Create_LogicalRequestID input) || (Create_AttemptNumber input =? 0)%Z ||
         (maximumProviderRequestAttempts <? Create_AttemptNumber input)%Z)
    "logical request ID and bounded positive attempt number are required" ;?
  if_some (Create_RequestIdempotencyKey input)
    (fun key => validateBounded "provider request idempotency key" key 255).

(** One turn of the loop over the components; [seen] are the keys so far. *)
Definition validate_component (seen : list string) (c : ProviderPriceComponent) : option error :=
  check (negb (providerUsageKindValid (Price_UsageKind c)) || (Price_MinorNumerator c <? 0)%Z ||
         (Price_TokenDenominator c <=? 0)%Z) "provider price component is invalid" ;?
  (if Price_UsageKind c =? "provider-specific" then
     match Price_ProviderSpecificKind c with
     | None => Some (Sentinel "provider-specific price component requires a category")
     | Some category => validateBounded "provider-specific price category" category 255
     end
   else check (bool_decide (Price_ProviderSpecificKind c <> None))
          "standard price component must not carry a provider-specific category") ;?
  check (existsb (String.eqb (component_key c)) seen) "provider price component is duplicated".

Fixpoint validate_components (seen : list string) (l : list ProviderPriceComponent)
    : option error :=
  match l with
  | [] => None
  | c :: rest => validate_component seen c ;? validate_components (component_key c :: seen) rest
  end.

Definition validateProviderPricingRevision (input : CreateProviderPricingRevision) : option error :=
  let count := Z.of_nat (length (CreatePrice_Components input)) in
  validateBounded "pricing revision ID" (CreatePrice_ID input) 255 ;?
  check (IsZero (CreatePrice_ProviderID input)) "provider ID must not be empty" ;?
  validateBounded "model identifier" (CreatePrice_ModelIdentifier input) 255 ;?
  validateBounded "model version" (CreatePrice_ModelVersion input) 255 ;?
  check (is_zero_time (CreatePrice_EffectiveAt input)) "pricing effective time is required" ;?
  (if CreatePrice_PricingKnown input then
     match CreatePrice_Currency input with
     | None => Some (Sentinel "known pricing requires a currency")
     | Some currency =>
         match ParseCurrencyCode currency with Err e => Some (value_error e) | Ok _ => None end
     end ;?
     check (count =? 0)%Z "known pricing requires at least one component" ;?
     check (maximumProviderPriceComponents <? count)%Z "provider pricing has too many components"
   else check (bool_decide (CreatePrice_Currency input <> None) || negb (count =? 0)%Z)
          "unknown pricing must not carry currency or components") ;?
  if_some (CreatePrice_SourceRedacted input)
    (fun source => validateBounded "redacted pricing source" source 2048) ;?
  validate_components [] (CreatePrice_Components input).

Definition tokenUsageFitsSQLite (usage : TokenUsage) : bool :=
  (TokenUsage_Input usage <=? max_int64)%Z && (TokenUsage_CachedInput usage <=? max_int64)%Z &&
  (TokenUsage_CacheWrite usage <=? max_int64)%Z && (TokenUsage_Output usage <=? max_int64)%Z &&
  (TokenUsage_Reasoning usage <=? max_int64)%Z.

Definition tokenUsageEqual (left right : TokenUsage) : bool :=
  eqb (TokenUsage_Known left) (TokenUsage_Known right) &&
  (TokenUsage_Input left =? TokenUsage_Input right)%Z &&
  (TokenUsage_CachedInput left =? TokenUsage_CachedInput right)%Z &&
  (TokenUsage_CacheWrite left =? TokenUsage_CacheWrite right)%Z &&
  (TokenUsage_Output left =? TokenUsage_Output right)%Z &&
  (TokenUsage_Reasoning left =? TokenUsage_Reasoning right)%Z &&
  (Z.of_nat (size (TokenUsage_ProviderSpecific left)) =?
     Z.of_nat (size (TokenUsage_ProviderSpecific right)))%Z &&
  forallb (fun kv => (default 0 (TokenUsage_ProviderSpecific right !! kv.1) =? kv.2)%Z)
    (map_to_list (TokenUsage_ProviderSpecific left)).

(** The error of the operation, or none. *)
Definition conflict (kind operation message : string) : error :=
  typedError kind operation (Sentinel message).

Section Store.
Context (json_valid json_Valid : string -> bool).
Context (map_order : list (string * string * Z) -> list (string * string * Z)).
Context (marshal_counts : gmap string Z -> string).
Context (unmarshal_counts : string -> option (gmap string Z)).
Context (count_order : gmap string Z -> list (string * Z)).

Definition json_error (what value : string) : option error := provenance_error json_Valid what value.

Definition validateProviderConfigurationRevision (input : CreateProviderConfigurationRevision)
    : option error :=
  check (IsZero (CreateConfig_ProviderID input)) "provider ID must not be empty" ;?
  validateBounded "configuration revision ID" (CreateConfig_ID input) 255 ;?
  validateBounded "adapter name" (CreateConfig_AdapterName input) 255 ;?
  validateBounded "adapter version" (CreateConfig_AdapterVersion input) 255 ;?
  validateBounded "provider version" (CreateConfig_ProviderVersion input) 255 ;?
  validateBounded "redacted endpoint" (CreateConfig_EndpointRedacted input) 2048 ;?
  json_error "provider capabilities" (CreateConfig_CapabilitiesJSON input) ;?
  check (negb (validSHA256 (CreateConfig_ContentSHA256 input)))
    "provider configuration content hash is invalid" ;?
  validateBounded "idempotency key" (CreateConfig_IdempotencyKey input) 255 ;?
  if_some (CreateConfig_ApprovalReference input)
    (fun reference => validateBounded "approval reference" reference 255).

Definition validatePlanProviderLogicalRequest (input : PlanProviderLogicalRequest) : option error :=
  check (IsZero (Plan_ID input) || IsZero (Plan_TaskID input) || IsZero (Plan_ProviderID input))
    "logical request, task, and provider IDs are required" ;?
  if_some (Plan_RunID input) (fun run => check (IsZero run) "run ID must not be empty") ;?
  validate_labels (map_order
    [ ("provider configuration revision ID", Plan_ProviderConfigurationRevisionID input, 255);
      ("adapter name", Plan_AdapterName input, 255);
      ("adapter version", Plan_AdapterVersion input, 255);
      ("provider version", Plan_ProviderVersion input, 255);
      ("model identifier", Plan_ModelIdentifier input, 255);
      ("model version", Plan_ModelVersion input, 255);
      ("idempotency key", Plan_IdempotencyKey input, 255) ]) ;?
  match Plan_PricingRevisionID input with
  | None => Some (Sentinel "logical provider request requires an explicit pricing revision")
  | Some pricing => validateBounded "pricing revision ID" pricing 255
  end ;?
  check (negb (validSHA256 (Plan_RequestSHA256 input))) "logical request hash is invalid".

(** Every time is in UTC here. *)
Definition validateProviderRequestAttemptTransition (input : TransitionProviderRequestAttempt)
    : option error :=
  validateBounded "provider request attempt ID" (Transition_ID input) 255 ;?
  check (negb (providerAttemptTransitionAllowed (Transition_From input) (Transition_To input)) ||
         negb (providerEffectStatusValid (Transition_EffectStatus input)) ||
         (is_zero_time (Transition_ObservedAt input)))
    "provider request attempt transition is invalid" ;?
  if_some (Transition_ProviderRequestIDRedacted input)
    (fun id => validateBounded "redacted provider request ID" id 512) ;?
  if_some (Transition_ErrorClass input)
    (fun class => check (negb (providerErrorClassValid class)) "provider error class is invalid") ;?
  if_some (Transition_RetryAfterMillis input)
    (fun millis => check (millis <? 0)%Z "provider retry-after must not be negative") ;?
  if_some (Transition_SafeMetadataJSON input) (json_error "safe provider metadata") ;?
  check (negb (is_zero_time (Transition_FirstResponseAt input)) &&
         (Transition_ObservedAt input <? Transition_FirstResponseAt input)%Z)
    "provider first-response timestamp must be UTC and not after observation" ;?
  check ((Transition_To input =? ProviderRequestAttemptSucceeded) &&
         (bool_decide (Transition_ErrorClass input <> None) || Transition_Retryable input))
    "successful provider attempt must not carry an error".

Definition validateProviderAttemptAccounting (input : AppendProviderAttemptAccounting)
    : option error :=
  validateBounded "provider attempt accounting ID" (Accounting_ID input) 255 ;?
  validateBounded "provider request attempt ID" (Accounting_AttemptID input) 255 ;?
  check ((Accounting_Sequence input =? 0)%Z ||
         (maximumProviderAccountingRecords <? Accounting_Sequence input)%Z ||
         negb (one_of ["estimated"; "provider-partial"; "provider-final"; "reconciled"]
                 (Accounting_Source input)))
    "provider attempt accounting sequence or source is invalid" ;?
  match TokenUsage_Validate (Accounting_Usage input) with
  | Some e => Some (value_error e)
  | None => None
  end ;?
  check (negb (tokenUsageFitsSQLite (Accounting_Usage input)))
    "provider usage exceeds SQLite integer range" ;?
  check ((Accounting_Source input =? "provider-partial") && negb (Accounting_Partial input) ||
         (Accounting_Source input =? "provider-final") && Accounting_Partial input)
    "provider accounting partial flag disagrees with source" ;?
  match Accounting_Cost input with
  | Some cost =>
      check (bool_decide (Accounting_PricingRevisionID input = None))
        "known provider cost requires a pricing revision" ;?
      match normalizeExactCost cost with Err e => Some e | Ok _ => None end
  | None =>
      if_some (Accounting_PricingRevisionID input)
        (fun pricing => check (TrimSpace pricing =? "") "pricing revision ID must not be empty")
  end ;?
  if_some (Accounting_DiscrepancyRedacted input)
    (fun text => validateBounded "redacted accounting discrepancy" text 2048) ;?
  json_error "provider accounting provenance" (Accounting_ProvenanceJSON input).

Definition validateProviderAttemptEvidence (input : AppendProviderAttemptEvidence) : option error :=
  validateBounded "provider attempt evidence ID" (Evidence_ID input) 255 ;?
  validateBounded "provider request attempt ID" (Evidence_AttemptID input) 255 ;?
  check ((Evidence_Sequence input =? 0)%Z ||
         (maximumProviderEvidenceRecords <? Evidence_Sequence input)%Z ||
         negb (one_of ["partial-output"; "partial-tool-call"; "effect-observed";
                       "late-response-discarded"] (Evidence_Kind input)))
    "provider attempt evidence sequence or kind is invalid" ;?
  check (String.prefix "partial-" (Evidence_Kind input) && Evidence_Final input)
    "partial provider evidence cannot be final" ;?
  check (negb (validSHA256 (Evidence_ContentSHA256 input)))
    "provider attempt evidence content hash is invalid" ;?
  validateBounded "redacted provider evidence summary" (Evidence_SummaryRedacted input) 4096 ;?
  check (Evidence_ByteCount input <? 0)%Z
    "provider attempt evidence byte count must not be negative".

(** ** Transactions *)

Definition transact {A} (operation : store -> result error (A * store)) (s : store)
    : result error A * store :=
  match operation s with
  | Ok (a, s') => (Ok a, s')
  | Err e => (Err e, s)
  end.

(** [if err := validate(input); err != nil { return zero, err }] before it. *)
Definition validated {A} (err : option error) (k : store -> result error A * store) (s : store)
    : result error A * store :=
  match err with Some e => (Err e, s) | None => k s end.

(** ** Configurations and prices *)

Definition scanned_configuration (r : configuration_row) : ProviderConfigurationRevision :=
  {| Config_ID := cf_id r; Config_ProviderID := cf_provider_id r; Config_Revision := cf_revision r;
     Config_AdapterName := cf_adapter_name r; Config_AdapterVersion := cf_adapter_version r;
     Config_ProviderVersion := cf_provider_version r; Config_EndpointRedacted := cf_endpoint r;
     Config_CapabilitiesJSON := cf_capabilities r; Config_ContentSHA256 := cf_content_sha256 r;
     Config_ApprovalReference := cf_approval_reference r;
     Config_IdempotencyKey := cf_idempotency_key r;
     Config_CreatedAt := repositoryTime (cf_created_at r) |}.

Definition findProviderConfigurationByIdempotency (s : store) (provider : ID) (key : string)
    : option ProviderConfigurationRevision :=
  scanned_configuration <$>
    find (fun r => (cf_provider_id r =? provider) && (cf_idempotency_key r =? key))
      (configurations s).

Definition providerConfigurationMatches (existing : ProviderConfigurationRevision)
    (input : CreateProviderConfigurationRevision) : bool :=
  (Config_ID existing =? CreateConfig_ID input) &&
  (Config_Revision existing =? add_u64 (CreateConfig_ExpectedLatestRevision input) 1)%Z &&
  (Config_AdapterName existing =? CreateConfig_AdapterName input) &&
  (Config_AdapterVersion existing =? CreateConfig_AdapterVersion input) &&
  (Config_ProviderVersion existing =? CreateConfig_ProviderVersion input) &&
  (Config_EndpointRedacted existing =? CreateConfig_EndpointRedacted input) &&
  (Config_CapabilitiesJSON existing =? CreateConfig_CapabilitiesJSON input) &&
  (Config_ContentSHA256 existing =? CreateConfig_ContentSHA256 input) &&
  equalOptionalString (Config_ApprovalReference existing) (CreateConfig_ApprovalReference input).

(** [coalesce(max(revision), 0)] *)
Definition latest_configuration (s : store) (provider : ID) : Z :=
  foldr Z.max 0%Z (map cf_revision
    (List.filter (fun r => cf_provider_id r =? provider) (configurations s))).

Definition configured_row (input : CreateProviderConfigurationRevision) (assigned micros : Z)
    : configuration_row :=
  {| cf_id := CreateConfig_ID input; cf_provider_id := CreateConfig_ProviderID input;
     cf_revision := assigned; cf_adapter_name := CreateConfig_AdapterName input;
     cf_adapter_version := CreateConfig_AdapterVersion input;
     cf_provider_version := CreateConfig_ProviderVersion input;
     cf_endpoint := CreateConfig_EndpointRedacted input;
     cf_capabilities := CreateConfig_CapabilitiesJSON input;
     cf_content_sha256 := CreateConfig_ContentSHA256 input;
     cf_approval_reference := CreateConfig_ApprovalReference input;
     cf_idempotency_key := CreateConfig_IdempotencyKey input; cf_created_at := micros |}.

Definition configured (input : CreateProviderConfigurationRevision) (assigned now : Z)
    : ProviderConfigurationRevision :=
  {| Config_ID := CreateConfig_ID input; Config_ProviderID := CreateConfig_ProviderID input;
     Config_Revision := assigned; Config_AdapterName := CreateConfig_AdapterName input;
     Config_AdapterVersion := CreateConfig_AdapterVersion input;
     Config_ProviderVersion := CreateConfig_ProviderVersion input;
     Config_EndpointRedacted := CreateConfig_EndpointRedacted input;
     Config_CapabilitiesJSON := CreateConfig_CapabilitiesJSON input;
     Config_ContentSHA256 := CreateConfig_ContentSHA256 input;
     Config_ApprovalReference := CreateConfig_ApprovalReference input;
     Config_IdempotencyKey := CreateConfig_IdempotencyKey input; Config_CreatedAt := now |}.

(** The methods of the repository have the names of their inputs in the code;
    those are taken by the inputs here. *)
Definition create_configuration (now : Z) (input : CreateProviderConfigurationRevision)
    : store -> result error ProviderConfigurationRevision * store :=
  let operation := "create provider configuration revision" in
  validated (validateProviderConfigurationRevision input) (transact (fun s =>
    match findProviderConfigurationByIdempotency s (CreateConfig_ProviderID input)
            (CreateConfig_IdempotencyKey input) with
    | Some existing =>
        if negb (providerConfigurationMatches existing input) then
          Err (conflict ErrConflict operation
                 "idempotency key was reused with different configuration")
        else Ok (existing, s)
    | None =>
        let latest := latest_configuration s (CreateConfig_ProviderID input) in
        if negb (latest =? CreateConfig_ExpectedLatestRevision input)%Z then
          Err (conflict ErrStaleRevision operation "provider configuration revision changed")
        else
          let assigned := add_u64 latest 1 in
          s' ← writing operation
                 (if negb (bindable assigned) then
                    Err (Driver "uint64 values with high bit set are not supported")
                  else insert_configuration json_valid s
                         (configured_row input assigned (UnixMicro now)));
          Ok (configured input assigned now, s')
    end)).

Definition priced_row (input : CreateProviderPricingRevision) (micros : Z) : pricing_row :=
  {| pr_id := CreatePrice_ID input; pr_provider_id := CreatePrice_ProviderID input;
     pr_model_identifier := CreatePrice_ModelIdentifier input;
     pr_model_version := CreatePrice_ModelVersion input; pr_currency := CreatePrice_Currency input;
     pr_known := CreatePrice_PricingKnown input; pr_source := CreatePrice_SourceRedacted input;
     pr_effective_at := UnixMicro (CreatePrice_EffectiveAt input); pr_created_at := micros |}.

Definition component_to_row (id : string) (c : ProviderPriceComponent) : component_row :=
  {| co_pricing_id := id; co_usage_kind := Price_UsageKind c;
     co_specific_kind := Price_ProviderSpecificKind c; co_numerator := Price_MinorNumerator c;
     co_denominator := Price_TokenDenominator c |}.

Definition priced (input : CreateProviderPricingRevision) (now : Z)
    (sorted : list ProviderPriceComponent) : ProviderPricingRevision :=
  {| PriceRevision_ID := CreatePrice_ID input; PriceRevision_ProviderID := CreatePrice_ProviderID input;
     PriceRevision_ModelIdentifier := CreatePrice_ModelIdentifier input;
     PriceRevision_ModelVersion := CreatePrice_ModelVersion input;
     PriceRevision_PricingKnown := CreatePrice_PricingKnown input;
     PriceRevision_Currency := CreatePrice_Currency input;
     PriceRevision_SourceRedacted := CreatePrice_SourceRedacted input;
     PriceRevision_EffectiveAt := CreatePrice_EffectiveAt input; PriceRevision_CreatedAt := now;
     PriceRevision_Components := sorted |}.

(** The loop that inserts the components. *)
Definition insert_components (s : store) (id : string) (l : list ProviderPriceComponent)
    : result error store :=
  fold_result (fun s c => writing "create provider price component"
                            (insert_component s (component_to_row id c))) l s.

(** [SELECT count( * ) FROM provider_pricing_revision_seals ...] is 1. *)
Definition is_sealed (s : store) (id : string) (count : Z) : bool :=
  Nat.eqb (length (List.filter (fun e => (se_pricing_id e =? id) && (se_component_count e =? count)%Z)
                     (seals s))) 1.

Definition create_pricing (now : Z) (input : CreateProviderPricingRevision)
    : store -> result error ProviderPricingRevision * store :=
  let operation := "create provider pricing revision" in
  let id := CreatePrice_ID input in
  validated (validateProviderPricingRevision input) (transact (fun s =>
    found ← findProviderPricingRevision s id;
    match found with
    | Some existing =>
        if negb (providerPricingMatches existing input) then
          Err (conflict ErrConflict operation
                 "pricing revision identity was reused with different values")
        else if negb (is_sealed s id (Z.of_nat (length (PriceRevision_Components existing)))) then
          Err (conflict ErrConflict operation "pricing revision is not sealed")
        else Ok (existing, s)
    | None =>
        let micros := UnixMicro now in
        s1 ← writing operation (insert_pricing s (priced_row input micros));
        let sorted := normalizedPriceComponents (CreatePrice_Components input) in
        s2 ← insert_components s1 id sorted;
        s3 ← writing "seal provider pricing revision"
               (insert_seal s2 {| se_pricing_id := id; se_component_count := Z.of_nat (length sorted);
                                  se_sealed_at := micros |});
        Ok (priced input now sorted, s3)
    end)).

(** ** Logical requests *)

Definition scanned_request (r : request_row) (run : option ID) : ProviderLogicalRequest :=
  {| Logical_ID := rq_id r; Logical_TaskID := rq_task_id r; Logical_RunID := run;
     Logical_ProviderID := rq_provider_id r;
     Logical_ProviderConfigurationRevisionID := rq_configuration_id r;
     Logical_AdapterName := rq_adapter_name r; Logical_AdapterVersion := rq_adapter_version r;
     Logical_ProviderVersion := rq_provider_version r;
     Logical_ModelIdentifier := rq_model_identifier r; Logical_ModelVersion := rq_model_version r;
     Logical_PricingRevisionID := Some (rq_pricing_id r); Logical_State := rq_state r;
     Logical_RequestSHA256 := rq_sha256 r; Logical_IdempotencyKey := rq_idempotency_key r;
     Logical_AccountingStatus := rq_accounting_status r;
     Logical_StartedAt := repositoryTime <$> rq_started_at r;
     Logical_CompletedAt := repositoryTime <$> rq_completed_at r;
     Logical_CreatedAt := repositoryTime (rq_created_at r);
     Logical_UpdatedAt := repositoryTime (rq_updated_at r); Logical_Revision := rq_revision r |}.

Definition scan_request (r : request_row) : result error ProviderLogicalRequest :=
  match rq_run_id r with
  | None => Ok (scanned_request r None)
  | Some raw =>
      match parseTypedID runIDKind raw with
      | Err e => Err (Sentinel (IDParseError_Error e))
      | Ok run => Ok (scanned_request r (Some run))
      end
  end.

Definition getProviderLogicalRequest (s : store) (id : ID) : result error ProviderLogicalRequest :=
  match find_request s id with
  | None => Err (typedError ErrNotFound "get provider logical request" (Sentinel ErrNoRows))
  | Some r => scan_request r
  end.

Definition GetProviderLogicalRequest (s : store) (id : ID) : result error ProviderLogicalRequest :=
  if IsZero id then Err (Sentinel "provider logical request ID must not be empty")
  else getProviderLogicalRequest s id.

Definition findProviderLogicalRequestByIdempotency (s : store) (task : ID) (key : string)
    : result error (option ProviderLogicalRequest) :=
  match find (fun r => (rq_task_id r =? task) && (rq_idempotency_key r =? key)) (requests s) with
  | None => Ok None
  | Some r => request ← getProviderLogicalRequest s (rq_id r); Ok (Some request)
  end.

Definition providerLogicalRequestMatches (existing : ProviderLogicalRequest)
    (input : PlanProviderLogicalRequest) : bool :=
  (Logical_ID existing =? Plan_ID input) &&
  equalOptionalString (Logical_RunID existing) (Plan_RunID input) &&
  (Logical_ProviderID existing =? Plan_ProviderID input) &&
  (Logical_ProviderConfigurationRevisionID existing =? Plan_ProviderConfigurationRevisionID input) &&
  (Logical_AdapterName existing =? Plan_AdapterName input) &&
  (Logical_AdapterVersion existing =? Plan_AdapterVersion input) &&
  (Logical_ProviderVersion existing =? Plan_ProviderVersion input) &&
  (Logical_ModelIdentifier existing =? Plan_ModelIdentifier input) &&
  (Logical_ModelVersion existing =? Plan_ModelVersion input) &&
  equalOptionalString (Logical_PricingRevisionID existing) (Plan_PricingRevisionID input) &&
  (Logical_RequestSHA256 existing =? Plan_RequestSHA256 input).

(** src/internal/storage/task_repository.go *)
Definition run_of_task (s : store) (run task : ID) (operation : string) : option error :=
  match find (fun r => r.1 =? run) (run_keys s) with
  | None => Some (typedError ErrConstraint operation (Sentinel ErrNoRows))
  | Some (_, owner) =>
      if negb (owner =? task) then
        Some (typedError ErrConstraint operation (Sentinel "run does not belong to task"))
      else None
  end.

Definition planned_row (input : PlanProviderLogicalRequest) (pricing : string) (micros : Z)
    : request_row :=
  {| rq_id := Plan_ID input; rq_task_id := Plan_TaskID input; rq_run_id := Plan_RunID input;
     rq_provider_id := Plan_ProviderID input;
     rq_configuration_id := Plan_ProviderConfigurationRevisionID input;
     rq_adapter_name := Plan_AdapterName input; rq_adapter_version := Plan_AdapterVersion input;
     rq_provider_version := Plan_ProviderVersion input;
     rq_model_identifier := Plan_ModelIdentifier input; rq_model_version := Plan_ModelVersion input;
     rq_pricing_id := pricing; rq_state := "planned"; rq_sha256 := Plan_RequestSHA256 input;
     rq_idempotency_key := Plan_IdempotencyKey input; rq_accounting_status := "unknown";
     rq_started_at := None; rq_completed_at := None; rq_created_at := micros;
     rq_updated_at := micros; rq_revision := 0 |}.

Definition planned_request (input : PlanProviderLogicalRequest) (now : Z) : ProviderLogicalRequest :=
  {| Logical_ID := Plan_ID input; Logical_TaskID := Plan_TaskID input;
     Logical_RunID := Plan_RunID input; Logical_ProviderID := Plan_ProviderID input;
     Logical_ProviderConfigurationRevisionID := Plan_ProviderConfigurationRevisionID input;
     Logical_AdapterName := Plan_AdapterName input;
     Logical_AdapterVersion := Plan_AdapterVersion input;
     Logical_ProviderVersion := Plan_ProviderVersion input;
     Logical_ModelIdentifier := Plan_ModelIdentifier input;
     Logical_ModelVersion := Plan_ModelVersion input;
     Logical_PricingRevisionID := Plan_PricingRevisionID input;
     Logical_State := ProviderLogicalRequestPlanned;
     Logical_RequestSHA256 := Plan_RequestSHA256 input;
     Logical_IdempotencyKey := Plan_IdempotencyKey input;
     Logical_AccountingStatus := ProviderAccountingUnknown; Logical_StartedAt := None;
     Logical_CompletedAt := None; Logical_CreatedAt := now; Logical_UpdatedAt := now;
     Logical_Revision := 0 |}.

Definition plan_request (now : Z) (input : PlanProviderLogicalRequest)
    : store -> result error ProviderLogicalRequest * store :=
  let operation := "plan provider logical request" in
  validated (validatePlanProviderLogicalRequest input) (transact (fun s =>
    found ← findProviderLogicalRequestByIdempotency s (Plan_TaskID input) (Plan_IdempotencyKey input);
    match found with
    | Some existing =>
        if negb (providerLogicalRequestMatches existing input) then
          Err (conflict ErrConflict operation "idempotency key was reused with a different request")
        else Ok (existing, s)
    | None =>
        if_some (Plan_RunID input) (fun run => run_of_task s run (Plan_TaskID input) operation) ;!
        s' ← writing operation
               (insert_request s
                  (planned_row input (default "" (Plan_PricingRevisionID input)) (UnixMicro now)));
        Ok (planned_request input now, s')
    end)).

(** The update of a transition. *)
Definition moved_request (input : TransitionProviderLogicalRequest)
    (current : ProviderLogicalRequest) (micros : Z) (r : request_row) : request_row :=
  let terminal := providerLogicalTerminal (LogicalTransition_To input) in
  {| rq_id := rq_id r; rq_task_id := rq_task_id r; rq_run_id := rq_run_id r;
     rq_provider_id := rq_provider_id r; rq_configuration_id := rq_configuration_id r;
     rq_adapter_name := rq_adapter_name r; rq_adapter_version := rq_adapter_version r;
     rq_provider_version := rq_provider_version r; rq_model_identifier := rq_model_identifier r;
     rq_model_version := rq_model_version r; rq_pricing_id := rq_pricing_id r;
     rq_state := LogicalTransition_To input; rq_sha256 := rq_sha256 r;
     rq_idempotency_key := rq_idempotency_key r;
     rq_accounting_status := LogicalTransition_AccountingStatus input;
     rq_started_at :=
       match Logical_StartedAt current with
       | Some started => Some (UnixMicro started)
       | None =>
           if (LogicalTransition_To input =? ProviderLogicalRequestInFlight) || terminal
           then Some micros else None
       end;
     rq_completed_at := if terminal then Some micros else None;
     rq_created_at := rq_created_at r; rq_updated_at := micros; rq_revision := rq_revision r + 1 |}.

Definition transition_request (now : Z) (input : TransitionProviderLogicalRequest)
    : store -> result error ProviderLogicalRequest * store :=
  let operation := "transition provider logical request" in
  let id := LogicalTransition_ID input in
  let expected := LogicalTransition_ExpectedRevision input in
  validated (check (IsZero id ||
                    negb (providerLogicalTransitionAllowed (LogicalTransition_From input)
                            (LogicalTransition_To input)) ||
                    negb (providerAccountingStatusValid (LogicalTransition_AccountingStatus input)))
               "provider logical request transition is invalid") (transact (fun s =>
    current ← getProviderLogicalRequest s id;
    if (Logical_State current =? LogicalTransition_To input) &&
       (Logical_AccountingStatus current =? LogicalTransition_AccountingStatus input) &&
       (Logical_Revision current =? add_u64 expected 1)%Z then Ok (current, s)
    else if negb (Logical_Revision current =? expected)%Z then
      Err (conflict ErrStaleRevision operation "provider logical request revision changed")
    else if negb (Logical_State current =? LogicalTransition_From input) then
      Err (conflict ErrConflict operation "provider logical request state changed")
    else
      updated ← writing operation
        (update_request s id expected (LogicalTransition_From input)
           (moved_request input current (UnixMicro now)));
      if negb updated.1 then
        Err (conflict ErrStaleRevision operation "provider logical request revision changed")
      else
        request ← getProviderLogicalRequest updated.2 id; Ok (request, updated.2))).

(** ** Attempts *)

Definition scanned_attempt (r : attempt_row) : ProviderRequestAttempt :=
  {| Attempt_ID := at_id r; Attempt_LogicalRequestID := at_request_id r;
     Attempt_AttemptNumber := at_number r; Attempt_State := at_state r;
     Attempt_ProviderRequestIDRedacted := at_provider_request_id r;
     Attempt_RequestIdempotencyKey := at_idempotency_key r;
     Attempt_EffectStatus := at_effect_status r;
     Attempt_PartialStreamObserved := at_partial_stream r;
     Attempt_ErrorClass := at_error_class r; Attempt_Retryable := at_retryable r;
     Attempt_RetryAfterMillis := at_retry_after r; Attempt_SafeMetadataJSON := at_safe_metadata r;
     Attempt_StartedAt := repositoryTime <$> at_started_at r;
     Attempt_FirstResponseAt := repositoryTime <$> at_first_response_at r;
     Attempt_CompletedAt := repositoryTime <$> at_completed_at r;
     Attempt_CreatedAt := repositoryTime (at_created_at r);
     Attempt_UpdatedAt := repositoryTime (at_updated_at r); Attempt_Revision := at_revision r |}.

Definition getProviderRequestAttempt (s : store) (id : string)
    : result error ProviderRequestAttempt :=
  match find_attempt s id with
  | None => Err (typedError ErrNotFound "get provider request attempt" (Sentinel ErrNoRows))
  | Some r => Ok (scanned_attempt r)
  end.

Definition findProviderRequestAttemptByNumber (s : store) (request : ID) (number : Z)
    : result error (option ProviderRequestAttempt) :=
  match find (fun r => (at_request_id r =? request) && (at_number r =? number)%Z) (attempts s) with
  | None => Ok None
  | Some r => attempt ← getProviderRequestAttempt s (at_id r); Ok (Some attempt)
  end.

Definition prepared_row (input : CreateProviderRequestAttempt) (micros : Z) : attempt_row :=
  {| at_id := Create_ID input; at_request_id := Create_LogicalRequestID input;
     at_number := Create_AttemptNumber input; at_state := "prepared";
     at_provider_request_id := None; at_idempotency_key := Create_RequestIdempotencyKey input;
     at_effect_status := "none"; at_partial_stream := false; at_error_class := None;
     at_retryable := false; at_retry_after := None; at_safe_metadata := None;
     at_started_at := None; at_first_response_at := None; at_completed_at := None;
     at_created_at := micros; at_updated_at := micros; at_revision := 0 |}.

Definition prepared_attempt (input : CreateProviderRequestAttempt) (now : Z)
    : ProviderRequestAttempt :=
  {| Attempt_ID := Create_ID input; Attempt_LogicalRequestID := Create_LogicalRequestID input;
     Attempt_AttemptNumber := Create_AttemptNumber input;
     Attempt_State := ProviderRequestAttemptPrepared; Attempt_ProviderRequestIDRedacted := None;
     Attempt_RequestIdempotencyKey := Create_RequestIdempotencyKey input;
     Attempt_EffectStatus := ProviderRequestEffectNone; Attempt_PartialStreamObserved := false;
     Attempt_ErrorClass := None; Attempt_Retryable := false; Attempt_RetryAfterMillis := None;
     Attempt_SafeMetadataJSON := None; Attempt_StartedAt := None; Attempt_FirstResponseAt := None;
     Attempt_CompletedAt := None; Attempt_CreatedAt := now; Attempt_UpdatedAt := now;
     Attempt_Revision := 0 |}.

Definition create_attempt (now : Z) (input : CreateProviderRequestAttempt)
    : store -> result error ProviderRequestAttempt * store :=
  let operation := "create provider request attempt" in
  validated (validateCreateProviderRequestAttempt input) (transact (fun s =>
    found ← findProviderRequestAttemptByNumber s (Create_LogicalRequestID input)
              (Create_AttemptNumber input);
    match found with
    | Some existing =>
        if negb (Attempt_ID existing =? Create_ID input) ||
           negb (equalOptionalString (Attempt_RequestIdempotencyKey existing)
                   (Create_RequestIdempotencyKey input)) then
          Err (conflict ErrConflict operation "attempt number was reused with different identity")
        else Ok (existing, s)
    | None =>
        request ← getProviderLogicalRequest s (Create_LogicalRequestID input);
        if negb (Logical_State request =? ProviderLogicalRequestInFlight) then
          Err (conflict ErrConflict operation "logical request is not in flight")
        else
          s' ← writing operation (insert_attempt json_valid s (prepared_row input (UnixMicro now)));
          Ok (prepared_attempt input now, s')
    end)).

(** A recorded time is the one observed, to the microsecond. *)
Definition recorded_at (time : option Z) (observed : Z) : bool :=
  match time with Some time => (UnixMicro time =? UnixMicro observed)%Z | None => false end.

Definition providerAttemptTransitionMatches (current : ProviderRequestAttempt)
    (input : TransitionProviderRequestAttempt) : bool :=
  let to := Transition_To input in
  let first := Transition_FirstResponseAt input in
  let observed := Transition_ObservedAt input in
  (Attempt_State current =? to) &&
  (Attempt_EffectStatus current =? Transition_EffectStatus input) &&
  eqb (Attempt_Retryable current) (Transition_Retryable input) &&
  equalOptionalString (Attempt_ErrorClass current) (Transition_ErrorClass input) &&
  sameTokenCount (Attempt_RetryAfterMillis current) (Transition_RetryAfterMillis input) &&
  (negb (Transition_PartialStreamObserved input) || Attempt_PartialStreamObserved current) &&
  (bool_decide (Transition_ProviderRequestIDRedacted input = None) ||
   equalOptionalString (Attempt_ProviderRequestIDRedacted current)
     (Transition_ProviderRequestIDRedacted input)) &&
  (is_zero_time first || recorded_at (Attempt_FirstResponseAt current) first) &&
  (if to =? ProviderRequestAttemptStarted then recorded_at (Attempt_StartedAt current) observed
   else if (to =? ProviderRequestAttemptStreaming) && is_zero_time first then
     recorded_at (Attempt_FirstResponseAt current) observed
   else if providerAttemptTerminal to then recorded_at (Attempt_CompletedAt current) observed
   else true) &&
  (bool_decide (Transition_SafeMetadataJSON input = None) ||
   equalOptionalString (Attempt_SafeMetadataJSON current) (Transition_SafeMetadataJSON input)).

(** The times the update writes: the first response and the completion. *)
Definition first_response (current : ProviderRequestAttempt)
    (input : TransitionProviderRequestAttempt) : result error (option Z) :=
  let operation := "transition provider request attempt" in
  let first := Transition_FirstResponseAt input in
  match Attempt_FirstResponseAt current with
  | Some recorded =>
      if negb (is_zero_time first) && negb (UnixMicro recorded =? UnixMicro first)%Z then
        Err (conflict ErrConflict operation "provider first-response timestamp cannot change")
      else Ok (Some (UnixMicro recorded))
  | None =>
      if negb (is_zero_time first) then
        if match Attempt_StartedAt current with
           | Some started => (first <? started)%Z
           | None => false
           end
        then Err (conflict ErrConflict operation "provider first response precedes attempt start")
        else Ok (Some (UnixMicro first))
      else if (Transition_To input =? ProviderRequestAttemptStreaming) ||
              Transition_PartialStreamObserved input
      then Ok (Some (UnixMicro (Transition_ObservedAt input)))
      else Ok None
  end.

Definition completion (current : ProviderRequestAttempt) (input : TransitionProviderRequestAttempt)
    : result error (option Z) :=
  if providerAttemptTerminal (Transition_To input) then
    if match Attempt_FirstResponseAt current with
       | Some recorded => (Transition_ObservedAt input <? recorded)%Z
       | None => false
       end
    then Err (conflict ErrConflict "transition provider request attempt"
                "provider attempt completion precedes first response")
    else Ok (Some (UnixMicro (Transition_ObservedAt input)))
  else Ok None.

Definition start_time (current : ProviderRequestAttempt) (input : TransitionProviderRequestAttempt)
    : option Z :=
  match Attempt_StartedAt current with
  | Some started => Some (UnixMicro started)
  | None => if negb (Transition_To input =? ProviderRequestAttemptPrepared)
            then Some (UnixMicro (Transition_ObservedAt input)) else None
  end.

(** [coalesce(new, old)] *)
Definition coalesce {A} (new old : option A) : option A :=
  match new with Some a => Some a | None => old end.

Definition moved_attempt (input : TransitionProviderRequestAttempt)
    (started firstResponse completed : option Z) (micros : Z) (r : attempt_row) : attempt_row :=
  {| at_id := at_id r; at_request_id := at_request_id r; at_number := at_number r;
     at_state := Transition_To input;
     at_provider_request_id :=
       coalesce (Transition_ProviderRequestIDRedacted input) (at_provider_request_id r);
     at_idempotency_key := at_idempotency_key r;
     at_effect_status := Transition_EffectStatus input;
     at_partial_stream := at_partial_stream r || Transition_PartialStreamObserved input;
     at_error_class := Transition_ErrorClass input; at_retryable := Transition_Retryable input;
     at_retry_after := Transition_RetryAfterMillis input;
     at_safe_metadata := coalesce (Transition_SafeMetadataJSON input) (at_safe_metadata r);
     at_started_at := started; at_first_response_at := firstResponse;
     at_completed_at := completed; at_created_at := at_created_at r; at_updated_at := micros;
     at_revision := at_revision r + 1 |}.

Definition transition_attempt (now : Z) (input : TransitionProviderRequestAttempt)
    : store -> result error ProviderRequestAttempt * store :=
  let operation := "transition provider request attempt" in
  let id := Transition_ID input in
  let expected := Transition_ExpectedRevision input in
  validated (validateProviderRequestAttemptTransition input) (transact (fun s =>
    current ← getProviderRequestAttempt s id;
    if (Attempt_Revision current =? add_u64 expected 1)%Z &&
       providerAttemptTransitionMatches current input then Ok (current, s)
    else if negb (Attempt_Revision current =? expected)%Z then
      Err (conflict ErrStaleRevision operation "provider request attempt revision changed")
    else if negb (Attempt_State current =? Transition_From input) then
      Err (conflict ErrConflict operation "provider request attempt state changed")
    else if (providerEffectStatusRank (Transition_EffectStatus input) <?
             providerEffectStatusRank (Attempt_EffectStatus current))%Z then
      Err (conflict ErrConflict operation "provider effect evidence cannot regress")
    else
      firstResponse ← first_response current input;
      completed ← completion current input;
      updated ← writing operation
        (update_attempt json_valid s id expected (Transition_From input)
           (moved_attempt input (start_time current input) firstResponse completed (UnixMicro now)));
      if negb updated.1 then
        Err (conflict ErrStaleRevision operation "provider request attempt revision changed")
      else
        attempt ← getProviderRequestAttempt updated.2 id; Ok (attempt, updated.2))).

(** ** Accounting *)

(** The row that [AbortPreparedProviderRequestAttemptBeforeIO] and
    [EnsureProviderAttemptAccounting] insert: nothing is known of the usage. *)
Definition unknown_row (id attempt : string) (pricing : option string) (provenance : string)
    (micros : Z) : accounting_row :=
  {| ac_id := id; ac_attempt_id := attempt; ac_sequence := 1; ac_source := "provider-final";
     ac_usage_known := false; ac_input := None; ac_cached_input := None; ac_cache_write := None;
     ac_output := None; ac_reasoning := None; ac_specific_json := None; ac_pricing_id := pricing;
     ac_cost_known := false; ac_cost_numerator := None; ac_cost_denominator := None;
     ac_currency := None; ac_discrepancy := false; ac_discrepancy_text := None;
     ac_partial := false; ac_provenance := provenance; ac_created_at := micros |}.

Definition field (name value : string) : string := Quote name +:+ ":" +:+ value.
Definition abort_provenance : string :=
  "{" +:+ field "source" (Quote "pre-io-abort") +:+ "," +:+ field "usage" (Quote "unknown") +:+ "}".
Definition fallback_provenance : string :=
  "{" +:+ field "schema_version" "1" +:+ "," +:+ field "source" (Quote "terminal-fallback") +:+
  "," +:+ field "usage" (Quote "unknown") +:+ "}".

(** The update of an abort: the attempt never started. *)
Definition aborted_attempt (micros : Z) (r : attempt_row) : attempt_row :=
  {| at_id := at_id r; at_request_id := at_request_id r; at_number := at_number r;
     at_state := "cancelled"; at_provider_request_id := at_provider_request_id r;
     at_idempotency_key := at_idempotency_key r; at_effect_status := "none";
     at_partial_stream := at_partial_stream r; at_error_class := Some "cancelled";
     at_retryable := false; at_retry_after := at_retry_after r;
     at_safe_metadata := at_safe_metadata r; at_started_at := None;
     at_first_response_at := None; at_completed_at := None; at_created_at := at_created_at r;
     at_updated_at := micros; at_revision := at_revision r + 1 |}.

(** The pricing revision of the attempt's request. *)
Definition attempt_pricing (s : store) (attempt : string) : option string :=
  rq_pricing_id <$> request_of_attempt s attempt.

Definition no_rows (kind operation : string) : error := typedError kind operation (Sentinel ErrNoRows).

Definition abort_prepared (now : Z) (input : AbortPreparedProviderRequestAttemptBeforeIO)
    : store -> result error ProviderRequestAttempt * store :=
  let operation := "abort prepared provider attempt before I/O" in
  let id := Abort_ID input in
  let expected := Abort_ExpectedRevision input in
  let accountingID := id +:+ "-pre-io-accounting" in
  validated (validateBounded "provider request attempt ID" id 255 ;?
             check (is_zero_time (Abort_ObservedAt input))
               "pre-I/O provider abort requires a UTC observation time") (transact (fun s =>
    current ← getProviderRequestAttempt s id;
    if (Attempt_State current =? ProviderRequestAttemptCancelled) &&
       (Attempt_Revision current =? add_u64 expected 1)%Z then
      if negb (existsb (fun a => (ac_id a =? accountingID) && (ac_attempt_id a =? id))
                 (accounting s)) then
        Err (conflict ErrConflict operation "cancelled pre-I/O attempt lacks accounting")
      else Ok (current, s)
    else if negb (Attempt_Revision current =? expected)%Z ||
            negb (Attempt_State current =? ProviderRequestAttemptPrepared) then
      Err (conflict ErrConflict operation
             "provider attempt is not the expected prepared revision")
    else
      let micros := UnixMicro now in
      updated ← writing operation
        (update_attempt json_valid s id expected "prepared" (aborted_attempt micros));
      if negb updated.1 then
        Err (conflict ErrStaleRevision operation "provider attempt revision changed")
      else
        match request_of_attempt updated.2 id with
        | None => Err (text_cause "read pre-I/O provider pricing" (Sentinel ErrNoRows))
        | Some request =>
            s' ← writing "record pre-I/O provider abort accounting"
                   (insert_accounting json_valid updated.2
                      (unknown_row accountingID id (Some (rq_pricing_id request))
                         abort_provenance micros));
            attempt ← getProviderRequestAttempt s' id; Ok (attempt, s')
        end)).

Definition ensure_accounting (now : Z) (input : EnsureProviderAttemptAccounting)
    : store -> result error unit * store :=
  let operation := "ensure provider attempt accounting" in
  let id := Ensure_AttemptID input in
  validated (validateBounded "provider request attempt ID" id 255 ;?
             check (is_zero_time (Ensure_ObservedAt input))
               "provider accounting fallback requires a UTC observation time") (transact (fun s =>
    if existsb (fun a => ac_attempt_id a =? id) (accounting s) then Ok (tt, s)
    else match request_of_attempt s id with
    | None => Err (no_rows ErrNotFound operation)
    | Some request =>
        s' ← writing operation
               (insert_accounting json_valid s
                  (unknown_row (id +:+ "-accounting-fallback") id (Some (rq_pricing_id request))
                     fallback_provenance (UnixMicro now)));
        Ok (tt, s')
    end)).

(** The counts of a usage, by the keys of the price components. *)
Definition usage_by_key (usage : TokenUsage) : gmap string Z :=
  map_fold (fun key count counts => <[price_key "provider-specific" (Some key) := count]> counts)
    (<["input" := TokenUsage_Input usage]>
     (<["cached-input" := TokenUsage_CachedInput usage]>
      (<["cache-write" := TokenUsage_CacheWrite usage]>
       (<["output" := TokenUsage_Output usage]>
        {["reasoning" := TokenUsage_Reasoning usage]}))))
    (TokenUsage_ProviderSpecific usage).

Definition components_by_key (l : list ProviderPriceComponent) : gmap string ProviderPriceComponent :=
  foldl (fun m c => <[component_key c := c]> m) ∅ l.

(** The loop that adds up the cost of each category. *)
Fixpoint cost_of_counts (components : gmap string ProviderPriceComponent)
    (counts : list (string * Z)) (total : Q) : result error Q :=
  match counts with
  | [] => Ok total
  | (key, count) :: rest =>
      if (count =? 0)%Z then cost_of_counts components rest total
      else match components !! key with
      | None => Err (Sentinel ("provider pricing has no component for nonzero usage category " +:+
                               Quote key))
      | Some c =>
          cost_of_counts components rest
            (total + SetFrac (count * Price_MinorNumerator c) (Price_TokenDenominator c))%Q
      end
  end.

Definition calculateProviderUsageCost (pricing : ProviderPricingRevision) (usage : TokenUsage)
    : result error ExactMinorCost :=
  match PriceRevision_PricingKnown pricing, PriceRevision_Currency pricing, TokenUsage_Known usage with
  | true, Some currency, true =>
      total ← cost_of_counts (components_by_key (PriceRevision_Components pricing))
                (count_order (usage_by_key usage)) 0%Q;
      if negb (IsInt64 (Num total)) || negb (IsInt64 (Denom total)) then
        Err (Sentinel "calculated provider cost exceeds exact storage range")
      else Ok {| Numerator := Num total; Denominator := Denom total; Currency := currency |}
  | _, _, _ =>
      Err (Sentinel "known pricing and usage are required to calculate provider cost")
  end.

(** [accountingSQLValues] and the columns it fills, with the rest of the row. *)
Definition accounting_columns (input : AppendProviderAttemptAccounting)
    (cost : option ExactMinorCost) (micros : Z) : accounting_row :=
  let usage := Accounting_Usage input in
  let known := TokenUsage_Known usage in
  let tokens (count : Z) := if known then Some count else None in
  {| ac_id := Accounting_ID input; ac_attempt_id := Accounting_AttemptID input;
     ac_sequence := Accounting_Sequence input; ac_source := Accounting_Source input;
     ac_usage_known := known; ac_input := tokens (TokenUsage_Input usage);
     ac_cached_input := tokens (TokenUsage_CachedInput usage);
     ac_cache_write := tokens (TokenUsage_CacheWrite usage);
     ac_output := tokens (TokenUsage_Output usage);
     ac_reasoning := tokens (TokenUsage_Reasoning usage);
     ac_specific_json :=
       if known && negb (bool_decide (TokenUsage_ProviderSpecific usage = ∅))
       then Some (marshal_counts (TokenUsage_ProviderSpecific usage)) else None;
     ac_pricing_id := Accounting_PricingRevisionID input;
     ac_cost_known := bool_decide (cost <> None); ac_cost_numerator := Numerator <$> cost;
     ac_cost_denominator := Denominator <$> cost; ac_currency := BudgetSnapshots.Currency <$> cost;
     ac_discrepancy := bool_decide (Accounting_DiscrepancyRedacted input <> None);
     ac_discrepancy_text := Accounting_DiscrepancyRedacted input;
     ac_partial := Accounting_Partial input; ac_provenance := Accounting_ProvenanceJSON input;
     ac_created_at := micros |}.

Definition accountingSQLValues (input : AppendProviderAttemptAccounting) (micros : Z)
    : result error accounting_row :=
  cost ← normalize_actual (Accounting_Cost input); Ok (accounting_columns input cost micros).

(** [cloneExactCost] *)
Definition cloneExactCost (value : option ExactMinorCost) : option ExactMinorCost :=
  match value with
  | None => None
  | Some cost => match normalizeExactCost cost with Ok normalized => Some normalized | Err _ => Some cost end
  end.

Definition appended (input : AppendProviderAttemptAccounting) (now : Z) : ProviderAttemptAccounting :=
  {| Record_ID := Accounting_ID input; Record_AttemptID := Accounting_AttemptID input;
     Record_Sequence := Accounting_Sequence input; Record_Source := Accounting_Source input;
     Record_Usage := Accounting_Usage input;
     Record_PricingRevisionID := Accounting_PricingRevisionID input;
     Record_Cost := cloneExactCost (Accounting_Cost input);
     Record_DiscrepancyRedacted := Accounting_DiscrepancyRedacted input;
     Record_Partial := Accounting_Partial input;
     Record_ProvenanceJSON := Accounting_ProvenanceJSON input; Record_CreatedAt := now |}.

(** The usage of a row. *)
Definition scanned_usage (r : accounting_row) : result error TokenUsage :=
  if negb (ac_usage_known r) then
    Ok {| TokenUsage_Known := false; TokenUsage_Input := 0; TokenUsage_CachedInput := 0;
          TokenUsage_CacheWrite := 0; TokenUsage_Output := 0; TokenUsage_Reasoning := 0;
          TokenUsage_ProviderSpecific := ∅ |}
  else
    specific ← match ac_specific_json r with
               | None => Ok ∅
               | Some raw =>
                   match unmarshal_counts raw with
                   | Some counts => Ok counts
                   | None => Err (Sentinel "decode provider-specific usage")
                   end
               end;
    Ok {| TokenUsage_Known := true; TokenUsage_Input := or_zero (ac_input r);
          TokenUsage_CachedInput := or_zero (ac_cached_input r);
          TokenUsage_CacheWrite := or_zero (ac_cache_write r);
          TokenUsage_Output := or_zero (ac_output r);
          TokenUsage_Reasoning := or_zero (ac_reasoning r);
          TokenUsage_ProviderSpecific := specific |}.

Definition scanned_cost (r : accounting_row) : result error (option ExactMinorCost) :=
  if negb (ac_cost_known r) then Ok None
  else match ParseCurrencyCode (default "" (ac_currency r)) with
  | Err e => Err (value_error e)
  | Ok currency =>
      Ok (Some {| Numerator := or_zero (ac_cost_numerator r);
                  Denominator := or_zero (ac_cost_denominator r); Currency := currency |})
  end.

Definition findProviderAttemptAccountingByID (s : store) (id : string)
    : result error (option ProviderAttemptAccounting) :=
  match find_accounting s id with
  | None => Ok None
  | Some r =>
      usage ← scanned_usage r;
      cost ← scanned_cost r;
      Ok (Some
        {| Record_ID := ac_id r; Record_AttemptID := ac_attempt_id r;
           Record_Sequence := ac_sequence r; Record_Source := ac_source r; Record_Usage := usage;
           Record_PricingRevisionID := ac_pricing_id r; Record_Cost := cost;
           Record_DiscrepancyRedacted :=
             if ac_discrepancy r then ac_discrepancy_text r else None;
           Record_Partial := ac_partial r; Record_ProvenanceJSON := ac_provenance r;
           Record_CreatedAt := repositoryTime (ac_created_at r) |})
  end.

Definition providerAttemptAccountingMatches (existing : ProviderAttemptAccounting)
    (input : AppendProviderAttemptAccounting) : bool :=
  (Record_AttemptID existing =? Accounting_AttemptID input) &&
  (Record_Sequence existing =? Accounting_Sequence input)%Z &&
  (Record_Source existing =? Accounting_Source input) &&
  tokenUsageEqual (Record_Usage existing) (Accounting_Usage input) &&
  equalOptionalString (Record_PricingRevisionID existing) (Accounting_PricingRevisionID input) &&
  exactCostEqual (Record_Cost existing) (Accounting_Cost input) &&
  equalOptionalString (Record_DiscrepancyRedacted existing) (Accounting_DiscrepancyRedacted input) &&
  eqb (Record_Partial existing) (Accounting_Partial input) &&
  (Record_ProvenanceJSON existing =? Accounting_ProvenanceJSON input).

(** The checks of a cost against the pricing revision of the request. *)
Definition verify_cost (s : store) (logicalPricing : string)
    (input : AppendProviderAttemptAccounting) : result error unit :=
  let operation := "append provider attempt accounting" in
  match Accounting_Cost input with
  | None => Ok tt
  | Some cost =>
      match Accounting_PricingRevisionID input with
      | Some pricingID =>
          if negb (logicalPricing =? pricingID) then
            Err (conflict ErrConflict operation
                   "cost is not bound to the logical request pricing revision")
          else if negb (TokenUsage_Known (Accounting_Usage input)) then Ok tt
          else
            found ← findProviderPricingRevision s pricingID;
            match found with
            | Some pricing =>
                if negb (PriceRevision_PricingKnown pricing) then
                  Err (conflict ErrConflict operation "known cost requires a known pricing revision")
                else
                  calculated ← calculateProviderUsageCost pricing (Accounting_Usage input);
                  if negb (exactCostEqual (Some calculated) (Some cost)) then
                    Err (conflict ErrConflict operation
                           "cost does not match usage and pricing revision")
                  else Ok tt
            | None =>
                Err (conflict ErrConflict operation "known cost requires a known pricing revision")
            end
      | None =>
          Err (conflict ErrConflict operation
                 "cost is not bound to the logical request pricing revision")
      end
  end.

Definition append_accounting (now : Z) (input : AppendProviderAttemptAccounting)
    : store -> result error ProviderAttemptAccounting * store :=
  let operation := "append provider attempt accounting" in
  validated (validateProviderAttemptAccounting input) (transact (fun s =>
    found ← findProviderAttemptAccountingByID s (Accounting_ID input);
    match found with
    | Some existing =>
        if negb (providerAttemptAccountingMatches existing input) then
          Err (conflict ErrConflict operation
                 "accounting identity was reused with different evidence")
        else Ok (existing, s)
    | None =>
        match request_of_attempt s (Accounting_AttemptID input) with
        | None => Err (no_rows ErrNotFound operation)
        | Some request =>
            verify_cost s (rq_pricing_id request) input ≫= fun _ =>
            row ← accountingSQLValues input (UnixMicro now);
            s' ← writing operation (insert_accounting json_valid s row);
            Ok (appended input now, s')
        end
    end)).

(** ** Evidence *)

Definition scanned_evidence (r : evidence_row) : ProviderAttemptEvidence :=
  {| EvidenceRecord_ID := ev_id r; EvidenceRecord_AttemptID := ev_attempt_id r;
     EvidenceRecord_Sequence := ev_sequence r; EvidenceRecord_Kind := ev_kind r;
     EvidenceRecord_Final := ev_final r; EvidenceRecord_ContentSHA256 := ev_content_sha256 r;
     EvidenceRecord_SummaryRedacted := ev_summary r; EvidenceRecord_ByteCount := ev_byte_count r;
     EvidenceRecord_CreatedAt := repositoryTime (ev_created_at r) |}.

Definition findProviderAttemptEvidenceByID (s : store) (id : string)
    : option ProviderAttemptEvidence := scanned_evidence <$> find_evidence s id.

Definition providerAttemptEvidenceMatches (existing : ProviderAttemptEvidence)
    (input : AppendProviderAttemptEvidence) : bool :=
  (EvidenceRecord_AttemptID existing =? Evidence_AttemptID input) &&
  (EvidenceRecord_Sequence existing =? Evidence_Sequence input)%Z &&
  (EvidenceRecord_Kind existing =? Evidence_Kind input) &&
  eqb (EvidenceRecord_Final existing) (Evidence_Final input) &&
  (EvidenceRecord_ContentSHA256 existing =? Evidence_ContentSHA256 input) &&
  (EvidenceRecord_SummaryRedacted existing =? Evidence_SummaryRedacted input) &&
  (EvidenceRecord_ByteCount existing =? Evidence_ByteCount input)%Z.

Definition evidence_to_row (input : AppendProviderAttemptEvidence) (micros : Z) : evidence_row :=
  {| ev_id := Evidence_ID input; ev_attempt_id := Evidence_AttemptID input;
     ev_sequence := Evidence_Sequence input; ev_kind := Evidence_Kind input;
     ev_final := Evidence_Final input; ev_content_sha256 := Evidence_ContentSHA256 input;
     ev_summary := Evidence_SummaryRedacted input; ev_byte_count := Evidence_ByteCount input;
     ev_created_at := micros |}.

Definition witnessed (input : AppendProviderAttemptEvidence) (now : Z) : ProviderAttemptEvidence :=
  {| EvidenceRecord_ID := Evidence_ID input; EvidenceRecord_AttemptID := Evidence_AttemptID input;
     EvidenceRecord_Sequence := Evidence_Sequence input; EvidenceRecord_Kind := Evidence_Kind input;
     EvidenceRecord_Final := Evidence_Final input;
     EvidenceRecord_ContentSHA256 := Evidence_ContentSHA256 input;
     EvidenceRecord_SummaryRedacted := Evidence_SummaryRedacted input;
     EvidenceRecord_ByteCount := Evidence_ByteCount input; EvidenceRecord_CreatedAt := now |}.

Definition append_evidence (now : Z) (input : AppendProviderAttemptEvidence)
    : store -> result error ProviderAttemptEvidence * store :=
  let operation := "append provider attempt evidence" in
  validated (validateProviderAttemptEvidence input) (transact (fun s =>
    match findProviderAttemptEvidenceByID s (Evidence_ID input) with
    | Some existing =>
        if negb (providerAttemptEvidenceMatches existing input) then
          Err (conflict ErrConflict operation
                 "evidence identity was reused with different facts")
        else Ok (existing, s)
    | None =>
        s' ← writing operation (insert_evidence s (evidence_to_row input (UnixMicro now)));
        Ok (witnessed input now, s')
    end)).

(** ** Summary *)

(** [LEFT JOIN provider_attempt_accounting AS accounting ON accounting.attempt_id
    = attempt.id AND accounting.sequence = (SELECT max(latest.sequence) ...)]. *)
Definition latest_sequence (s : store) (attempt : string) : Z :=
  foldr Z.max 0%Z (map ac_sequence
    (List.filter (fun a => ac_attempt_id a =? attempt) (accounting s))).

Definition joined (s : store) (a : attempt_row) : list (attempt_row * option accounting_row) :=
  match List.filter (fun r => (ac_attempt_id r =? at_id a) &&
                              (ac_sequence r =? latest_sequence s (at_id a))%Z) (accounting s) with
  | [] => [(a, None)]
  | rows => map (fun r => (a, Some r)) rows
  end.

Definition number_le (a b : attempt_row) : Prop := (at_number a <= at_number b)%Z.
#[export] Instance number_le_dec : RelDecision number_le.
Proof. intros a b. unfold number_le. apply _. Defined.

Definition attempts_of (s : store) (request : ID) : list attempt_row :=
  merge_sort number_le (List.filter (fun a => at_request_id a =? request) (attempts s)).

Definition accounted_attempts (s : store) (request : ID)
    : list (attempt_row * option accounting_row) :=
  List.concat (map (joined s) (attempts_of s request)).

Definition add_tokens (total addition : Z) : result error Z :=
  if (addition <? 0)%Z || (max_uint64 - addition <? total)%Z then
    Err (Sentinel "provider request token accounting overflow")
  else Ok (total + addition)%Z.

(** One turn of the loop over the categories; the order does not matter, as
    every key is met once and the errors are alike. *)
Definition add_specific (total : gmap string Z) (entry : string * Z) : result error (gmap string Z) :=
  let '(key, count) := entry in
  let sum := default 0%Z (total !! key) in
  if (max_uint64 - count <? sum)%Z then
    Err (Sentinel "provider-specific token accounting overflow")
  else Ok (<[key := (sum + count)%Z]> total).

Definition addUsageToSummary (total : TokenUsage) (r : accounting_row) : result error TokenUsage :=
  input ← add_tokens (TokenUsage_Input total) (or_zero (ac_input r));
  cachedInput ← add_tokens (TokenUsage_CachedInput total) (or_zero (ac_cached_input r));
  cacheWrite ← add_tokens (TokenUsage_CacheWrite total) (or_zero (ac_cache_write r));
  output ← add_tokens (TokenUsage_Output total) (or_zero (ac_output r));
  reasoning ← add_tokens (TokenUsage_Reasoning total) (or_zero (ac_reasoning r));
  let providerJSON := default "" (ac_specific_json r) in
  specific ←
    (if providerJSON =? "" then Ok (TokenUsage_ProviderSpecific total)
     else match unmarshal_counts providerJSON with
          | None => Err (Sentinel "decode provider-specific usage")
          | Some counts =>
              fold_result add_specific (map_to_list counts) (TokenUsage_ProviderSpecific total)
          end);
  Ok {| TokenUsage_Known := TokenUsage_Known total; TokenUsage_Input := input;
        TokenUsage_CachedInput := cachedInput; TokenUsage_CacheWrite := cacheWrite;
        TokenUsage_Output := output; TokenUsage_Reasoning := reasoning;
        TokenUsage_ProviderSpecific := specific |}.

(** What the loop has added up: the summary, whether every usage was known, and
    the cost with its currency. *)
Record summing := {
  sum_count : Z;
  sum_complete : bool;
  sum_discrepancy : bool;
  sum_partial : bool;
  sum_usage : TokenUsage;
  sum_usage_complete : bool;
  sum_cost : option (Q * CurrencyCode);
}.

Definition zero_usage (known : bool) : TokenUsage :=
  {| TokenUsage_Known := known; TokenUsage_Input := 0; TokenUsage_CachedInput := 0;
     TokenUsage_CacheWrite := 0; TokenUsage_Output := 0; TokenUsage_Reasoning := 0;
     TokenUsage_ProviderSpecific := ∅ |}.

Definition start_summing : summing :=
  {| sum_count := 0; sum_complete := true; sum_discrepancy := false; sum_partial := false;
     sum_usage := zero_usage true; sum_usage_complete := true; sum_cost := None |}.

(** The cost of one row, added to the sum. *)
Definition add_row_cost (total : option (Q * CurrencyCode)) (r : accounting_row)
    : result error (option (Q * CurrencyCode)) :=
  match ParseCurrencyCode (default "" (ac_currency r)) with
  | Err e => Err (text_cause "scan provider cost currency" (value_error e))
  | Ok parsed =>
      let cost := SetFrac (or_zero (ac_cost_numerator r)) (or_zero (ac_cost_denominator r)) in
      match total with
      | None => Ok (Some (0 + cost, parsed)%Q)
      | Some (sum, currency) =>
          if negb (parsed =? currency) then
            Err (Sentinel "provider request accounting spans multiple currencies")
          else Ok (Some (sum + cost, currency)%Q)
      end
  end.

(** One turn of the loop over the rows. *)
Definition sum_row (t : summing) (row : attempt_row * option accounting_row) : result error summing :=
  let '(attempt, joined) := row in
  let usage_known := match joined with Some r => ac_usage_known r | None => false end in
  let cost_known := match joined with Some r => ac_cost_known r | None => false end in
  usage ← match joined with
          | Some r => if usage_known then addUsageToSummary (sum_usage t) r else Ok (sum_usage t)
          | None => Ok (sum_usage t)
          end;
  cost ← match joined with
         | Some r => if cost_known then add_row_cost (sum_cost t) r else Ok (sum_cost t)
         | None => Ok (sum_cost t)
         end;
  Ok {| sum_count := (sum_count t + 1)%Z;
        sum_complete := sum_complete t && usage_known && cost_known;
        sum_discrepancy := sum_discrepancy t ||
                           match joined with Some r => ac_discrepancy r | None => false end;
        sum_partial := sum_partial t || at_partial_stream attempt;
        sum_usage := usage; sum_usage_complete := sum_usage_complete t && usage_known;
        sum_cost := cost |}.

Definition summary_of (request : ID) (t : summing) (usage : TokenUsage) (complete : bool)
    (cost : option ExactMinorCost) : ProviderRequestAccountingSummary :=
  {| Summary_RequestID := request; Summary_AttemptCount := sum_count t; Summary_Usage := usage;
     Summary_Cost := cost; Summary_AccountingComplete := complete;
     Summary_Discrepancy := sum_discrepancy t; Summary_PartialStreamObserved := sum_partial t |}.

Definition SummarizeProviderRequestAccounting (s : store) (request : ID)
    : result error ProviderRequestAccountingSummary :=
  if IsZero request then Err (Sentinel "provider logical request ID must not be empty")
  else
    t ← fold_result sum_row (accounted_attempts s request) start_summing;
    if (sum_count t =? 0)%Z then
      GetProviderLogicalRequest s request ≫= fun _ =>
      Ok (summary_of request t (zero_usage false) false None)
    else
      let usage := if sum_usage_complete t then sum_usage t else zero_usage false in
      match sum_complete t, sum_cost t with
      | true, Some (total, currency) =>
          if negb (IsInt64 (Num total)) || negb (IsInt64 (Denom total)) then
            Err (Sentinel "provider request cost exceeds exact storage range")
          else Ok (summary_of request t usage true
                     (Some {| Numerator := Num total; Denominator := Denom total;
                              Currency := currency |}))
      | complete, _ => Ok (summary_of request t usage complete None)
      end.

End Store.
