(* ===== verification/ProviderStoreFacts.v ===== *)
(** * Facts about the repository of provider requests

    Every operation changes the tables by one of a few effects, or not at all.
    The invariant of the tables and what is kept from one state to the next are
    shown for the effects. *)

From Stdlib Require Import Ascii String QArith.
From S2P Require Import Prelude GoText GoErrors PolicyValues Identity Pricing GoPath.
From S2P Require Import BudgetSchema BudgetSnapshots BudgetLedger BudgetFacts BudgetInvariant.
From S2P Require Import ProviderAttempts ProviderSchema ProviderStore.
Open Scope string_scope.
Open Scope list_scope.
Open Scope go_scope.

(** ** Operations *)

(** The operations that write, with their inputs. *)
Inductive operation : Type :=
| Configure (input : CreateProviderConfigurationRevision)
| SetPrice (input : CreateProviderPricingRevision)
| PlanRequest (input : PlanProviderLogicalRequest)
| MoveRequest (input : TransitionProviderLogicalRequest)
| PrepareAttempt (input : CreateProviderRequestAttempt)
| MoveAttempt (input : TransitionProviderRequestAttempt)
| AbortAttempt (input : AbortPreparedProviderRequestAttemptBeforeIO)
| EnsureAccounted (input : EnsureProviderAttemptAccounting)
| Account (input : AppendProviderAttemptAccounting)
| Witness (input : AppendProviderAttemptEvidence).

(** Whether the operation succeeded, and the tables after it. *)
Definition outcome_of {A} (r : result error A * store) : bool * store := (is_ok r.1, r.2).

(** Opening the steps of an operation that succeeded. *)
Ltac open_steps H :=
  repeat (cbv zeta in H; match type of H with
  | Ok _ = Ok _ => injection H as H
  | (_, _) = (_, _) => let H' := fresh in injection H as H' H; try clear H'
  | Err _ = Ok _ => discriminate H
  | (if ?b then _ else _) = Ok _ => let E := fresh "E" in destruct b eqn:E
  | (match ?x with _ => _ end) = Ok _ => let E := fresh "E" in destruct x eqn:E
  | (_ ≫= _) = Ok _ => let a := fresh "a" in let E := fresh "E" in
      apply bind_Ok in H as (a & E & H)
  | (_ ;! _) = Ok _ => let E := fresh "E" in apply err_guard_Ok in H as [E H]
  end).

Section Facts.
Context (json_valid json_Valid : string -> bool).
Context (map_order : list (string * string * Z) -> list (string * string * Z)).
Context (marshal_counts : gmap string Z -> string).
Context (unmarshal_counts : string -> option (gmap string Z)).
Context (count_order : gmap string Z -> list (string * Z)).

Definition perform (now : Z) (o : operation) (s : store) : bool * store :=
  match o with
  | Configure input => outcome_of (create_configuration json_valid json_Valid now input s)
  | SetPrice input => outcome_of (create_pricing now input s)
  | PlanRequest input => outcome_of (plan_request map_order now input s)
  | MoveRequest input => outcome_of (transition_request now input s)
  | PrepareAttempt input => outcome_of (create_attempt json_valid now input s)
  | MoveAttempt input => outcome_of (transition_attempt json_valid json_Valid now input s)
  | AbortAttempt input => outcome_of (abort_prepared json_valid now input s)
  | EnsureAccounted input => outcome_of (ensure_accounting json_valid now input s)
  | Account input =>
      outcome_of (append_accounting json_valid json_Valid marshal_counts unmarshal_counts
                    count_order now input s)
  | Witness input => outcome_of (append_evidence now input s)
  end.

(** What the types of the inputs ensure: [int64] for the terms of a cost, [uint64]
    for a count, and the identity of a run is one. *)
Definition typed (o : operation) : Prop :=
  match o with
  | SetPrice input =>
      Forall (fun c => int64_range (Price_MinorNumerator c) /\ int64_range (Price_TokenDenominator c))
        (CreatePrice_Components input)
  | PlanRequest input =>
      match Plan_RunID input with Some run => is_ok (parseTypedID runIDKind run) = true | None => True end
  | Account input =>
      map_Forall (fun _ count => uint64_range count)
        (TokenUsage_ProviderSpecific (Accounting_Usage input)) /\
      match Accounting_Cost input with
      | Some cost => int64_range (Numerator cost) /\ int64_range (Denominator cost)
      | None => True
      end
  | _ => True
  end.

Definition store_step (s s' : store) : Prop :=
  exists now o, typed o /\ s' = (perform now o s).2.

(** ** Effects *)

(** What an operation that writes has checked, and the rows it writes. *)
Inductive effect (s : store) : store -> Prop :=
| configuration_created r s' :
    insert_configuration json_valid s r = Ok s' -> effect s s'
| price_set input micros s1 s2 s3 :
    typed (SetPrice input) ->
    find_pricing s (CreatePrice_ID input) = None ->
    validateProviderPricingRevision input = None ->
    insert_pricing s (priced_row input micros) = Ok s1 ->
    insert_components s1 (CreatePrice_ID input)
      (normalizedPriceComponents (CreatePrice_Components input)) = Ok s2 ->
    insert_seal s2
      {| se_pricing_id := CreatePrice_ID input;
         se_component_count := Z.of_nat (length (normalizedPriceComponents (CreatePrice_Components input)));
         se_sealed_at := micros |} = Ok s3 ->
    effect s s3
| request_planned input pricing micros s' :
    typed (PlanRequest input) ->
    insert_request s (planned_row input pricing micros) = Ok s' -> effect s s'
| request_moved input current micros s' :
    providerLogicalTransitionAllowed (LogicalTransition_From input) (LogicalTransition_To input) = true ->
    getProviderLogicalRequest s (LogicalTransition_ID input) = Ok current ->
    update_request s (LogicalTransition_ID input) (LogicalTransition_ExpectedRevision input)
      (LogicalTransition_From input) (moved_request input current micros) = Ok (true, s') ->
    effect s s'
| attempt_prepared input micros s' :
    insert_attempt json_valid s (prepared_row input micros) = Ok s' -> effect s s'
| attempt_moved input current first completed micros s' :
    providerAttemptTransitionAllowed (Transition_From input) (Transition_To input) = true ->
    getProviderRequestAttempt s (Transition_ID input) = Ok current ->
    (providerEffectStatusRank (Attempt_EffectStatus current) <=
       providerEffectStatusRank (Transition_EffectStatus input)) ->
    first_response current input = Ok first ->
    update_attempt json_valid s (Transition_ID input) (Transition_ExpectedRevision input)
      (Transition_From input)
      (moved_attempt input (start_time current input) first completed micros) = Ok (true, s') ->
    effect s s'
| attempt_aborted id revision micros request row s1 s' :
    update_attempt json_valid s id revision "prepared" (aborted_attempt micros) = Ok (true, s1) ->
    request_of_attempt s1 id = Some request ->
    row = unknown_row (id +:+ "-pre-io-accounting") id (Some (rq_pricing_id request))
            abort_provenance micros ->
    insert_accounting json_valid s1 row = Ok s' ->
    effect s s'
| fallback_accounted id attempt pricing provenance micros s' :
    insert_accounting json_valid s (unknown_row id attempt pricing provenance micros) = Ok s' ->
    effect s s'
| attempt_accounted input request row micros s' :
    typed (Account input) ->
    validateProviderAttemptAccounting json_Valid input = None ->
    request_of_attempt s (Accounting_AttemptID input) = Some request ->
    verify_cost count_order s (rq_pricing_id request) input = Ok tt ->
    accountingSQLValues marshal_counts input micros = Ok row ->
    insert_accounting json_valid s row = Ok s' ->
    effect s s'
| evidence_appended r s' :
    insert_evidence s r = Ok s' -> effect s s'.

Lemma transact_inv {A} (f : store -> result error (A * store)) s b s' :
  outcome_of (transact f s) = (b, s') ->
  b = false /\ s' = s \/ exists a, b = true /\ f s = Ok (a, s').
Proof.
  unfold transact, outcome_of. destruct (f s) as [e|[a s1]]; simpl; intros [= <- <-]; eauto.
Qed.

Lemma validated_inv {A} err (k : store -> result error A * store) s b s' :
  outcome_of (validated err k s) = (b, s') ->
  b = false /\ s' = s \/ err = None /\ outcome_of (k s) = (b, s').
Proof. unfold validated. destruct err; simpl; [intros [= <- <-]; auto|auto]. Qed.

Lemma check_None condition message : check condition message = None <-> condition = false.
Proof. unfold check. by destruct condition. Qed.

Lemma findProviderPricingRevision_None s id :
  findProviderPricingRevision s id = Ok None -> find_pricing s id = None.
Proof.
  unfold findProviderPricingRevision. destruct (find_pricing s id); [|done].
  intros H. by apply bind_Ok in H as (? & _ & H).
Qed.

Lemma transition_validated input :
  validateProviderRequestAttemptTransition json_Valid input = None ->
  providerAttemptTransitionAllowed (Transition_From input) (Transition_To input) = true.
Proof.
  unfold validateProviderRequestAttemptTransition.
  intros (_ & (H%check_None & _)%err_seq_None)%err_seq_None.
  by apply orb_false_iff in H as [[H%negb_false_iff _]%orb_false_iff _].
Qed.

Lemma perform_effect now o s b s' :
  typed o -> perform now o s = (b, s') -> s' = s \/ (b = true /\ effect s s').
Proof.
  intros Ht. destruct o as [input|input|input|input|input|input|input|input|input|input]; simpl; intros H.
  all: apply validated_inv in H as [[-> ->]|[Hval H]]; [by left|].
  all: apply transact_inv in H as [[-> ->]|(r & -> & H)]; [by left|].
  all: open_steps H; subst; try (by left); right; (split; [done|]).
  all: repeat match goal with E : writing _ _ = Ok _ |- _ => apply writing_Ok in E end.
  all: rewrite ?negb_false_iff in *.
  - if_cases E1. by eapply (configuration_created s).
  - apply findProviderPricingRevision_None in E. by eapply (price_set s input).
  - by eapply (request_planned s input).
  - apply check_None in Hval. to_prop. destruct a0 as [b s1], Hval as [[_ Hval] _]. simpl in *. subst.
    by eapply (request_moved s input).
  - by eapply (attempt_prepared s input).
  - destruct a2 as [b s1]. simpl in *. subst. apply Z.ltb_ge in E3.
    eapply (attempt_moved s input); [by apply transition_validated|done..].
  - destruct a0 as [b s1]. simpl in *. subst. by eapply (attempt_aborted s).
  - by eapply (fallback_accounted s).
  - destruct a0. by eapply (attempt_accounted s input).
  - by eapply (evidence_appended s).
Qed.

(** ** Inserted and updated rows *)

Lemma existsb_false_forall {A} (p : A -> bool) l :
  negb (existsb p l) = true <-> forall a, a ∈ l -> p a = false.
Proof.
  rewrite negb_true_iff, <- not_true_iff_false, existsb_exists. split.
  - intros H a Ha%list_elem_of_In. destruct (p a) eqn:Hp; [|done]. by destruct H; exists a.
  - intros H (a & Ha%list_elem_of_In & Hp). by rewrite H in Hp.
Qed.

(** The rows of a table with a key of their own. *)
Definition fresh {A B} (key : A -> B) (l : list A) (a : A) : Prop :=
  forall b, b ∈ l -> key b <> key a.

Lemma NoDup_fresh {A B} (key : A -> B) (l : list A) a :
  NoDup (map key l) -> fresh key l a -> NoDup (map key (l ++ [a])).
Proof. apply NoDup_snoc. Qed.

Ltac inserted H :=
  apply check_all_Ok in H as [-> H]; rewrite !Forall_cons in H; simpl in H; destruct_and! H.

Lemma fresh_by {A B} (key : A -> B) (test : A -> bool) l a :
  negb (existsb test l) = true -> (forall b, key b = key a -> test b = true) -> fresh key l a.
Proof.
  intros H Ht b Hb E. apply (proj1 (existsb_false_forall _ _)) with (a := b) in H; [|done].
  by rewrite (Ht b E) in H.
Qed.

(** A row that a unique index lets in. *)
Ltac is_fresh :=
  match goal with
  | H : negb (existsb _ _) = true |- _ =>
      apply (fresh_by _ _ _ _ H);
      let b := fresh "b" in let E := fresh "E" in
      intros b E; try (injection E; clear E; intros);
      repeat match goal with E : _ b = _ |- _ => rewrite E; clear E end;
      rewrite ?String.eqb_refl, ?Z.eqb_refl, ?bool_decide_true by done; done
  end.

Lemma referred {A} (key : A -> string) l id :
  existsb (fun a => key a =? id) l = true -> exists a, a ∈ l /\ key a = id.
Proof.
  intros (a & Ha%list_elem_of_In & Hk%String.eqb_eq)%existsb_exists. eauto.
Qed.

Lemma insert_pricing_Ok s r s' :
  insert_pricing s r = Ok s' ->
  s' = set_pricings s (pricings s ++ [r]) /\ pricing_checks r = true /\
  fresh pr_id (pricings s) r.
Proof.
  unfold insert_pricing. intros H. inserted H. split_and!; try done.
  is_fresh.
Qed.

Lemma insert_component_Ok s r s' :
  insert_component s r = Ok s' ->
  s' = set_components s (components s ++ [r]) /\ component_checks r = true /\
  fresh (fun c => (co_pricing_id c, co_usage_kind c, co_specific_kind c)) (components s) r.
Proof.
  unfold insert_component. intros H. inserted H. split_and!; try done.
  is_fresh.
Qed.

Lemma insert_seal_Ok s r s' :
  insert_seal s r = Ok s' ->
  s' = set_seals s (seals s ++ [r]) /\
  exists p, p ∈ pricings s /\ pr_id p = se_pricing_id r.
Proof.
  unfold insert_seal. intros H. inserted H. split_and!; try done.
  match goal with H : existsb _ (pricings s) = true |- _ =>
    apply existsb_exists in H as (p & Hp%list_elem_of_In & Hk) end.
  to_prop. naive_solver.
Qed.

Lemma insert_request_Ok s r s' :
  insert_request s r = Ok s' ->
  s' = set_requests s (requests s ++ [r]) /\ fresh rq_id (requests s) r /\
  fresh (fun q => (rq_task_id q, rq_idempotency_key q)) (requests s) r /\
  exists e, e ∈ seals s /\ se_pricing_id e = rq_pricing_id r.
Proof.
  unfold insert_request. intros H. inserted H. split_and!; try done.
  - is_fresh.
  - is_fresh.
  - by apply referred.
Qed.

Lemma insert_attempt_Ok s r s' :
  insert_attempt json_valid s r = Ok s' ->
  s' = set_attempts s (attempts s ++ [r]) /\ attempt_checks json_valid r = true /\
  fresh at_id (attempts s) r /\ fresh (fun a => (at_request_id a, at_number a)) (attempts s) r /\
  exists q, q ∈ requests s /\ rq_id q = at_request_id r.
Proof.
  unfold insert_attempt. intros H. inserted H. split_and!; try done.
  - is_fresh.
  - is_fresh.
  - by apply referred.
Qed.

Lemma insert_accounting_Ok s r s' :
  insert_accounting json_valid s r = Ok s' ->
  s' = set_accounting s (accounting s ++ [r]) /\ accounting_checks json_valid r = true /\
  pricing_is_bound s r = true /\ cost_has_pricing s r = true /\
  fresh ac_id (accounting s) r /\
  fresh (fun a => (ac_attempt_id a, ac_sequence a)) (accounting s) r /\
  exists a, a ∈ attempts s /\ at_id a = ac_attempt_id r.
Proof.
  unfold insert_accounting. intros H. inserted H. split_and!; try done.
  - is_fresh.
  - is_fresh.
  - by apply referred.
Qed.

Lemma insert_evidence_Ok s r s' :
  insert_evidence s r = Ok s' -> s' = set_evidence s (evidence s ++ [r]).
Proof. unfold insert_evidence. intros H. by inserted H. Qed.

Lemma insert_configuration_Ok s r s' :
  insert_configuration json_valid s r = Ok s' -> s' = set_configurations s (configurations s ++ [r]).
Proof. unfold insert_configuration. intros H. by inserted H. Qed.

Lemma update_rows_Ok {A} (l : list A) hit change triggers typed checks b l' :
  update_rows l hit change triggers typed checks = Ok (b, l') ->
  l' = map (fun r => if hit r then change r else r) l /\ b = existsb hit l /\
  forall r, r ∈ l -> hit r = true ->
    triggers r = true /\ typed (change r) = true /\ checks (change r) = true.
Proof.
  unfold update_rows. intros [H1 H2]%check_all_Ok. injection H1 as -> ->. split_and!; [done..|].
  intros r Hr Hh. rewrite !Forall_cons in H2. simpl in H2. destruct_and! H2.
  repeat match goal with H : forallb _ _ = true |- _ =>
    apply forallb_forall with (x := r) in H; [|by apply list_elem_of_In]; rewrite Hh in H end. done.
Qed.

Definition hits_request (id : ID) (revision : Z) (state : string) (r : request_row) : bool :=
  (rq_id r =? id) && (rq_revision r =? revision)%Z && (rq_state r =? state).
Definition hits_attempt (id : string) (revision : Z) (state : string) (r : attempt_row) : bool :=
  (at_id r =? id) && (at_revision r =? revision)%Z && (at_state r =? state).

Definition changing {A} (hit : A -> bool) (change : A -> A) (r : A) : A :=
  if hit r then change r else r.

Lemma update_request_Ok s id revision state change b s' :
  update_request s id revision state change = Ok (b, s') ->
  s' = set_requests s (map (changing (hits_request id revision state) change) (requests s)) /\
  b = existsb (hits_request id revision state) (requests s) /\
  forall r, r ∈ requests s -> hits_request id revision state r = true ->
    one_of terminal_request_states (rq_state r) = false /\
    IsInt64 (rq_revision (change r)) = true /\ request_checks (change r) = true.
Proof.
  unfold update_request. intros ([b1 l] & H & [= <- <-])%bind_Ok.
  apply update_rows_Ok in H as (-> & -> & H). split_and!; [done..|].
  intros r Hr Hh. destruct (H r Hr Hh) as (?%negb_true_iff & ? & ?). done.
Qed.

Lemma update_attempt_Ok s id revision state change b s' :
  update_attempt json_valid s id revision state change = Ok (b, s') ->
  s' = set_attempts s (map (changing (hits_attempt id revision state) change) (attempts s)) /\
  b = existsb (hits_attempt id revision state) (attempts s) /\
  forall r, r ∈ attempts s -> hits_attempt id revision state r = true ->
    one_of terminal_attempt_states (at_state r) = false /\
    IsInt64 (at_revision (change r)) = true /\ attempt_checks json_valid (change r) = true.
Proof.
  unfold update_attempt. intros ([b1 l] & H & [= <- <-])%bind_Ok.
  apply update_rows_Ok in H as (-> & -> & H). split_and!; [done..|].
  intros r Hr Hh. destruct (H r Hr Hh) as (?%negb_true_iff & ? & ?). done.
Qed.

Lemma find_map_key {A} (key : A -> string) (g : A -> A) l id :
  (forall a, key (g a) = key a) ->
  find (fun a => key a =? id) (map g l) = g <$> find (fun a => key a =? id) l.
Proof.
  intros Hg. induction l as [|a l IH]; simpl; [done|]. rewrite Hg. by destruct (key a =? id).
Qed.

Lemma find_app_Some {A} (p : A -> bool) l l' a :
  find p l = Some a -> find p (l ++ l') = Some a.
Proof. induction l as [|b l IH]; simpl; [done|]. by destruct (p b). Qed.

(** Where the rows of components go. *)
Lemma insert_components_Ok s id l s' :
  insert_components s id l = Ok s' ->
  s' = set_components s (components s ++ map (component_to_row id) l) /\
  (NoDup (map (fun c => (co_pricing_id c, co_usage_kind c, co_specific_kind c)) (components s)) ->
   NoDup (map (fun c => (co_pricing_id c, co_usage_kind c, co_specific_kind c)) (components s'))) /\
  Forall (fun c => component_checks (component_to_row id c) = true) l.
Proof.
  revert s s'. induction l as [|c l IH]; intros s s'; simpl.
  - intros [= <-]. rewrite app_nil_r. by destruct s.
  - intros (s1 & H1%writing_Ok & H)%bind_Ok. apply insert_component_Ok in H1 as (-> & Hc & Hf).
    apply IH in H as (-> & Hn & Hall). split_and!.
    + simpl. by rewrite <- app_assoc.
    + intros Hnd. apply Hn. simpl. by apply NoDup_fresh.
    + by constructor.
Qed.

(** ** What every effect keeps *)

Record keeps (s s' : store) : Prop := {
  keeps_pricing id p : find_pricing s id = Some p ->
    find_pricing s' id = Some p /\ components_of s' id = components_of s id;
  keeps_request id q : find_request s id = Some q ->
    exists q', find_request s' id = Some q' /\ rq_pricing_id q' = rq_pricing_id q;
  keeps_attempt id a : find_attempt s id = Some a ->
    exists a', find_attempt s' id = Some a' /\ at_request_id a' = at_request_id a;
}.

#[export] Instance keeps_preorder : PreOrder keeps.
Proof.
  split.
  - intros s. constructor; eauto.
  - intros s1 s2 s3 [H1 H2 H3] [H4 H5 H6]. constructor.
    + intros id p (Hp & Hc)%H1. apply H4 in Hp as [Hp Hc']. by rewrite Hc', Hc.
    + intros id q (q2 & Hq & Hp)%H2. apply H5 in Hq as (q3 & Hq & Hp'). exists q3. by rewrite Hp', Hp.
    + intros id a (a2 & Ha & Hp)%H3. apply H6 in Ha as (a3 & Ha & Hp'). exists a3. by rewrite Hp', Hp.
Qed.

Lemma keeps_tables s s' :
  pricings s' = pricings s -> components s' = components s -> requests s' = requests s ->
  attempts s' = attempts s -> keeps s s'.
Proof.
  intros H1 H2 H3 H4. unfold find_pricing, find_request, find_attempt, components_of.
  constructor; unfold find_pricing, find_request, find_attempt, components_of;
    rewrite ?H1, ?H2, ?H3, ?H4; eauto.
Qed.

Lemma keeps_attempt_change s id revision state change b s' :
  (forall r, at_id (change r) = at_id r) -> (forall r, at_request_id (change r) = at_request_id r) ->
  update_attempt json_valid s id revision state change = Ok (b, s') -> keeps s s'.
Proof.
  intros Hid Hrq (-> & _ & _)%update_attempt_Ok. constructor; [eauto..|].
  intros i a Ha. unfold find_attempt in *. simpl. rewrite (find_map_key at_id), Ha.
  - eexists. split; [done|]. unfold changing. destruct (hits_attempt _ _ _ a); auto.
  - intros r. unfold changing. destruct (hits_attempt _ _ _ r); auto.
Qed.

Lemma keeps_request_change s id revision state change b s' :
  (forall r, rq_id (change r) = rq_id r) -> (forall r, rq_pricing_id (change r) = rq_pricing_id r) ->
  update_request s id revision state change = Ok (b, s') -> keeps s s'.
Proof.
  intros Hid Hrq (-> & _ & _)%update_request_Ok. constructor; [eauto| |eauto].
  intros i q Hq. unfold find_request in *. simpl. rewrite (find_map_key rq_id), Hq.
  - eexists. split; [done|]. unfold changing. destruct (hits_request _ _ _ q); auto.
  - intros r. unfold changing. destruct (hits_request _ _ _ r); auto.
Qed.

Lemma components_of_app s id l :
  List.filter (fun c => co_pricing_id c =? id) (components s ++ l) =
  components_of s id ++ List.filter (fun c => co_pricing_id c =? id) l.
Proof. apply List.filter_app. Qed.

Lemma filter_component_rows id id' l :
  List.filter (fun c => co_pricing_id c =? id) (map (component_to_row id') l) =
  if id' =? id then map (component_to_row id') l else [].
Proof.
  induction l as [|c l IH]; simpl; [by destruct (_ =? _)|]. rewrite IH. by destruct (_ =? _).
Qed.

Lemma effect_keeps s s' : effect s s' -> keeps s s'.
Proof.
  destruct 1.
  - apply insert_configuration_Ok in H as ->. by apply keeps_tables.
  - apply insert_pricing_Ok in H2 as (-> & _ & _). apply insert_components_Ok in H3 as (-> & _ & _).
    apply insert_seal_Ok in H4 as (-> & _). constructor; [|eauto..].
    intros id p Hp. unfold find_pricing in *. simpl. split; [by apply find_app_Some|].
    unfold components_of at 1. simpl. rewrite components_of_app, filter_component_rows.
    destruct (String.eqb_spec (CreatePrice_ID input) id) as [<-|]; [congruence|apply app_nil_r].
  - apply insert_request_Ok in H0 as (-> & _). constructor; [eauto| |eauto].
    intros id q Hq. unfold find_request in *. simpl. exists q. split; [by apply find_app_Some|done].
  - by eapply keeps_request_change in H1.
  - apply insert_attempt_Ok in H as (-> & _). constructor; [eauto..|].
    intros id q Hq. unfold find_attempt in *. simpl. exists q. split; [by apply find_app_Some|done].
  - by eapply keeps_attempt_change in H3.
  - apply insert_accounting_Ok in H2 as (-> & _). etrans; [by eapply keeps_attempt_change in H|].
    by apply keeps_tables.
  - apply insert_accounting_Ok in H as (-> & _). by apply keeps_tables.
  - apply insert_accounting_Ok in H4 as (-> & _). by apply keeps_tables.
  - apply insert_evidence_Ok in H as ->. by apply keeps_tables.
Qed.

End Facts.
