(* ===== verification/ProviderPriceFacts.v ===== *)
(** * Facts about stored prices

    What a usage costs at the prices in the tables, and that the repository
    calculates exactly that. *)

From Stdlib Require Import Ascii String QArith.
From S2P Require Import Prelude GoText GoErrors PolicyValues Identity Pricing PricingFacts.
From S2P Require Import BudgetSchema BudgetSnapshots BudgetLedger BudgetFacts BudgetInvariant.
From S2P Require Import ProviderSchema ProviderStore ProviderStoreFacts.
Open Scope string_scope.
Open Scope list_scope.
Open Scope go_scope.

(** ** What a usage costs *)

Definition row_key (c : component_row) : string := price_key (co_usage_kind c) (co_specific_kind c).

(** The price of one token of a kind, in minor units: the row of that kind and,
    for provider-specific tokens, of that name. *)
Definition token_price (l : list component_row) (kind : string) (specific : option string) : option Q :=
  (fun c => SetFrac (co_numerator c) (co_denominator c)) <$>
  find (fun c => (co_usage_kind c =? kind) && bool_decide (co_specific_kind c = specific)) l.

(** The tokens of a usage, kind by kind. *)
Definition categories (usage : TokenUsage) : list (string * option string * Z) :=
  [("input", None, TokenUsage_Input usage); ("cached-input", None, TokenUsage_CachedInput usage);
   ("cache-write", None, TokenUsage_CacheWrite usage); ("output", None, TokenUsage_Output usage);
   ("reasoning", None, TokenUsage_Reasoning usage)] ++
  map (fun kv => ("provider-specific", Some kv.1, kv.2)) (map_to_list (TokenUsage_ProviderSpecific usage)).

Definition usage_cost (l : list component_row) (usage : TokenUsage) : Q :=
  sumQ (fun '(kind, specific, count) => inject_Z count * default 0 (token_price l kind specific))%Q
    (categories usage).

(** Every category that was used has a price. *)
Definition fully_priced (l : list component_row) (usage : TokenUsage) : Prop :=
  forall kind specific count, (kind, specific, count) ∈ categories usage -> count <> 0 ->
    is_Some (token_price l kind specific).

(** ** Keys *)

Definition kind_ok (kind : string) (specific : option string) : Prop :=
  providerUsageKindValid kind = true /\ (kind = "provider-specific" <-> specific <> None).

Lemma kind_cases kind :
  providerUsageKindValid kind = true ->
  kind ∈ ["input"; "cached-input"; "cache-write"; "output"; "reasoning"; "provider-specific"].
Proof.
  unfold providerUsageKindValid, one_of. intros (k & Hk%list_elem_of_In & ->%String.eqb_eq)%existsb_exists.
  done.
Qed.

Lemma app_inj_l (s t u : string) : s +:+ t = s +:+ u -> t = u.
Proof. induction s as [|c s IH]; simpl; [done|]. intros [= H]. auto. Qed.

Lemma price_key_inj k1 s1 k2 s2 :
  kind_ok k1 s1 -> kind_ok k2 s2 -> price_key k1 s1 = price_key k2 s2 -> k1 = k2 /\ s1 = s2.
Proof.
  intros [H1%kind_cases Hs1] [H2%kind_cases Hs2] He.
  rewrite !elem_of_cons, elem_of_nil in H1, H2.
  destruct_or! H1; destruct_or! H2; subst k1 k2; try done;
    destruct s1 as [s1|], s2 as [s2|];
    try (exfalso; by (destruct Hs1 as [_ Hs]; specialize (Hs ltac:(done)))
         || (destruct Hs2 as [_ Hs]; specialize (Hs ltac:(done)))
         || (by apply Hs1) || (by apply Hs2) || discriminate He);
    try (split; [done|]; try done; f_equal; unfold price_key in He; by repeat apply app_inj_l in He).
Qed.

(** Where the code keys a map with a kind, the rows are told apart as well. *)
Lemma token_price_by_key l kind specific :
  Forall (fun c => kind_ok (co_usage_kind c) (co_specific_kind c)) l -> kind_ok kind specific ->
  find (fun c => (co_usage_kind c =? kind) && bool_decide (co_specific_kind c = specific)) l =
  find (fun c => row_key c =? price_key kind specific) l.
Proof.
  intros Hl Hk. induction Hl as [|c l Hc _ IH]; [done|]. simpl.
  destruct (String.eqb_spec (row_key c) (price_key kind specific)) as [He|He].
  - apply price_key_inj in He as [-> ->]; [|done..]. by rewrite String.eqb_refl, bool_decide_eq_true_2.
  - destruct (String.eqb_spec (co_usage_kind c) kind) as [Hkind|]; simpl; [|done].
    case_bool_decide as Hs; [|done]. exfalso. apply He. unfold row_key. by rewrite Hkind, Hs.
Qed.

Lemma categories_kind usage kind specific count :
  (kind, specific, count) ∈ categories usage -> kind_ok kind specific.
Proof.
  unfold categories. rewrite elem_of_app, !elem_of_cons, elem_of_nil, list_elem_of_fmap.
  intros [H|(kv & H & _)]; destruct_or?; simplify_eq; (split; [done|by split]).
Qed.

Definition keyed (c : string * option string * Z) : string * Z := let '(kind, specific, count) := c in
  (price_key kind specific, count).

(** The map of counts has an entry for every category. *)
Lemma usage_by_key_categories usage : map_to_list (usage_by_key usage) ≡ₚ map keyed (categories usage).
Proof.
  unfold usage_by_key, categories. rewrite map_app, map_map.
  set (base := map keyed [("input", None, TokenUsage_Input usage); _; _; _; _]).
  apply (map_fold_weak_ind (fun counts m => map_to_list counts ≡ₚ
    base ++ map (fun kv => keyed ("provider-specific", Some kv.1, kv.2)) (map_to_list m))).
  - rewrite map_to_list_empty, app_nil_r. simpl.
    rewrite !map_to_list_insert by (by simpl_map). by rewrite map_to_list_singleton.
  - intros key count m counts Hm IH. rewrite map_to_list_insert.
    + rewrite (map_to_list_insert m) by done. rewrite IH. apply Permutation_middle.
    + destruct (counts !! _) as [y|] eqn:Hy; [|done]. apply elem_of_map_to_list in Hy.
      rewrite IH, elem_of_app in Hy. exfalso. destruct Hy as [Hy|Hy].
      * unfold base in Hy. simpl in Hy. rewrite !elem_of_cons, elem_of_nil in Hy. destruct_or! Hy; done.
      * apply list_elem_of_fmap in Hy as ([k v] & [= Hk ->] & Hin). repeat apply app_inj_l in Hk. subst k.
        apply elem_of_map_to_list in Hin. congruence.
Qed.

Lemma component_row_kind c : component_checks c = true -> kind_ok (co_usage_kind c) (co_specific_kind c).
Proof.
  unfold component_checks, kind_ok, providerUsageKindValid. intros H.
  repeat apply andb_true_iff in H as [H ?]. to_prop. done.
Qed.

Lemma find_perm {A} (key : A -> string) l l' id :
  NoDup (map key l) -> l ≡ₚ l' -> find (fun a => key a =? id) l = find (fun a => key a =? id) l'.
Proof.
  intros Hnd Hp. assert (NoDup (map key l')) as Hnd' by by rewrite <- (fmap_Permutation key _ _ Hp).
  destruct (find _ l) as [a|] eqn:Hf.
  - apply find_key in Hf as [Ha Hk]. symmetry. apply find_unique; [done| |done]. by rewrite <- Hp.
  - symmetry. apply find_absent. intros a Ha Hk. rewrite <- Hp in Ha.
    by rewrite (find_unique key l a id) in Hf.
Qed.

Lemma components_by_key_lookup l key :
  NoDup (map component_key l) ->
  components_by_key l !! key = find (fun c => component_key c =? key) l.
Proof.
  unfold components_by_key. enough (forall m : gmap string ProviderPriceComponent, NoDup (map component_key l) ->
    foldl (fun m c => <[component_key c := c]> m) m l !! key =
    match find (fun c => component_key c =? key) l with Some c => Some c | None => m !! key end) as H.
  { intros Hnd. rewrite H by done. by destruct (find _ _); rewrite ?lookup_empty. }
  induction l as [|c l IH]; intros m Hnd; simpl; [done|].
  apply NoDup_cons in Hnd as [Hc Hnd]. rewrite IH by done.
  destruct (String.eqb_spec (component_key c) key) as [<-|Hk].
  - rewrite (find_absent component_key l); [by rewrite lookup_insert_eq|].
    intros a Ha He. apply Hc. rewrite <- He. by apply list_elem_of_fmap_2.
  - destruct (find _ l); [done|]. by rewrite lookup_insert_ne.
Qed.

Lemma component_key_scanned c : component_key (scanned_component c) = row_key c.
Proof. done. Qed.

Lemma find_map_scanned l key :
  find (fun c => component_key c =? key) (map scanned_component l) =
  scanned_component <$> find (fun c => row_key c =? key) l.
Proof.
  induction l as [|c l IH]; simpl; [done|]. rewrite component_key_scanned.
  by destruct (row_key c =? key).
Qed.

(** ** The calculation *)

Definition component_price (c : ProviderPriceComponent) : Q :=
  SetFrac (Price_MinorNumerator c) (Price_TokenDenominator c).

Lemma SetFrac_scale n a b : (SetFrac (n * a) b == inject_Z n * SetFrac a b)%Q.
Proof. unfold SetFrac, Qeq, Qmult, inject_Z. cbn. lia. Qed.

Lemma cost_of_counts_Ok components counts t q :
  cost_of_counts components counts t = Ok q ->
  (q == t + sumQ (fun kv => inject_Z kv.2 * default 0 (component_price <$> components !! kv.1))
              counts)%Q /\
  forall key count, (key, count) ∈ counts -> count <> 0 -> is_Some (components !! key).
Proof.
  revert t. induction counts as [|[key count] rest IH]; intros t; simpl.
  - intros [= ->]. split; [by rewrite Qplus_0_r|]. intros ? ? H. by apply elem_of_nil in H.
  - destruct (Z.eqb_spec count 0) as [->|Hc].
    + intros [Hq Hin]%IH. split.
      * rewrite Hq. change (inject_Z 0) with 0%Q. ring.
      * intros k n [[= -> ->]|H]%elem_of_cons Hn; [done|eauto].
    + destruct (components !! key) as [c|] eqn:Hk; [|done]. intros [Hq Hin]%IH. split.
      * rewrite Hq, SetFrac_scale. simpl. unfold component_price. ring.
      * intros k n [[= -> ->]|H]%elem_of_cons Hn; eauto.
Qed.

Lemma findProviderPricingRevision_Ok s id pricing :
  findProviderPricingRevision s id = Ok (Some pricing) ->
  exists p, find_pricing s id = Some p /\ PriceRevision_PricingKnown pricing = pr_known p /\
    PriceRevision_Currency pricing = pr_currency p /\
    PriceRevision_Components pricing =
      map scanned_component (merge_sort sql_component_le (components_of s id)).
Proof.
  unfold findProviderPricingRevision. destruct (find_pricing s id) as [p|]; [|done].
  intros (currency & Hc & [= <-])%bind_Ok. exists p. split_and!; try done. simpl.
  destruct (pr_currency p) as [raw|]; [|by injection Hc].
  destruct (ParseCurrencyCode raw) as [|parsed] eqn:Hp; [done|]. injection Hc as <-.
  unfold ParseCurrencyCode in Hp. if_cases Hp. by injection Hp as <-.
Qed.

Section Calculation.
Context (count_order : gmap string Z -> list (string * Z)).
Hypothesis count_order_perm : forall m, count_order m ≡ₚ map_to_list m.

(** A calculated cost is the exact cost of the usage at the prices of the table. *)
Lemma calculateProviderUsageCost_Ok s id pricing usage cost :
  NoDup (map row_key (components_of s id)) ->
  Forall (fun c => kind_ok (co_usage_kind c) (co_specific_kind c)) (components_of s id) ->
  findProviderPricingRevision s id = Ok (Some pricing) ->
  calculateProviderUsageCost count_order pricing usage = Ok cost ->
  exists p, find_pricing s id = Some p /\ pr_known p = true /\
    pr_currency p = Some (BudgetSnapshots.Currency cost) /\
    (exactCostRat cost == usage_cost (components_of s id) usage)%Q /\
    int64_range (Denominator cost) /\
    fully_priced (components_of s id) usage.
Proof.
  intros Hnd Hkinds (p & Hp & Hk & Hc & Hl)%findProviderPricingRevision_Ok H. exists p.
  unfold calculateProviderUsageCost in H.
  destruct (PriceRevision_PricingKnown pricing) eqn:Hk'; [|done].
  destruct (PriceRevision_Currency pricing) as [currency|] eqn:Hc'; [|done].
  destruct (TokenUsage_Known usage); [|done].
  apply bind_Ok in H as (total & Ht & H). if_cases H. injection H as <-.
  apply cost_of_counts_Ok in Ht as [Ht Hin].
  assert (forall key, components_by_key (PriceRevision_Components pricing) !! key =
                      scanned_component <$> find (fun c => row_key c =? key) (components_of s id)) as Hlook.
  { intros key. rewrite Hl, components_by_key_lookup.
    - rewrite find_map_scanned. f_equal. apply find_perm; [|apply merge_sort_Permutation].
      by rewrite (fmap_Permutation row_key _ _ (merge_sort_Permutation _ _)).
    - rewrite map_map. by rewrite (fmap_Permutation row_key _ _ (merge_sort_Permutation _ _)). }
  split_and!; try done; cbn [Numerator Denominator BudgetSnapshots.Currency].
  - unfold exactCostRat. cbn [Numerator Denominator]. rewrite SetFrac_red, Ht, Qplus_0_l.
    rewrite (sumQ_perm _ _ _ (count_order_perm _)), (sumQ_perm _ _ _ (usage_by_key_categories _)), sumQ_map.
    apply sumQ_ext. intros [[kind specific] count] Hin'. simpl. rewrite Hlook. unfold token_price.
    rewrite token_price_by_key by (try done; by eapply categories_kind). by destruct (find _ _).
  - apply orb_false_iff in Hif as [_ Hif%negb_false_iff]. unfold IsInt64 in Hif. by to_prop.
  - intros kind specific count Hu Hn. specialize (Hin (price_key kind specific) count).
    rewrite count_order_perm, usage_by_key_categories in Hin.
    specialize (Hin (list_elem_of_fmap_2 keyed _ _ Hu) Hn).
    rewrite Hlook in Hin. unfold token_price.
    rewrite token_price_by_key by (try done; by eapply categories_kind). destruct Hin as [c Hin].
    destruct (find _ _); [by eexists|done].
Qed.

End Calculation.

(** Costs that normalize to the same are equal. *)
Lemma exactCostEqual_Ok l r :
  int64_range (Denominator l) -> int64_range (Denominator r) -> exactCostEqual (Some l) (Some r) = true ->
  (exactCostRat l == exactCostRat r)%Q /\ BudgetSnapshots.Currency l = BudgetSnapshots.Currency r.
Proof.
  intros Hl Hr. unfold exactCostEqual. destruct (normalizeExactCost l) as [|l'] eqn:Hl'; [done|].
  destruct (normalizeExactCost r) as [|r'] eqn:Hr'; [done|]. intros He%bool_decide_eq_true. subst r'.
  apply normalizeExactCost_Ok in Hl' as (H1 & H2 & _), Hr' as (H3 & H4 & _); [|done..].
  split; [by rewrite <- H1, <- H3|congruence].
Qed.
