(* ===== verification/ProviderStoreInvariant.v ===== *)
(** * The invariant of the tables of provider requests

    Keys are unique, rows refer to rows, prices are sealed, and the accounting
    of an attempt is bound to the price of its request. Every operation keeps
    this. *)

From Stdlib Require Import Ascii String QArith.
From S2P Require Import Prelude GoText GoErrors PolicyValues Identity Pricing.
From S2P Require Import BudgetSchema BudgetSnapshots BudgetLedger BudgetFacts BudgetInvariant.
From S2P Require Import ProviderAttempts ProviderSchema ProviderStore ProviderStoreFacts ProviderPriceFacts.
Open Scope string_scope.
Open Scope list_scope.
Open Scope go_scope.

(** The exact cost of a row. *)
Definition row_cost (r : accounting_row) : Q :=
  SetFrac (or_zero (ac_cost_numerator r)) (or_zero (ac_cost_denominator r)).

Definition component_key3 (c : component_row) : string * string * option string :=
  (co_pricing_id c, co_usage_kind c, co_specific_kind c).
Definition accounting_slot (r : accounting_row) : string * Z := (ac_attempt_id r, ac_sequence r).
Definition attempt_slot (a : attempt_row) : ID * Z := (at_request_id a, at_number a).

Section Invariant.
Context (json_valid json_Valid : string -> bool).
Context (map_order : list (string * string * Z) -> list (string * string * Z)).
Context (marshal_counts : gmap string Z -> string).
Context (unmarshal_counts : string -> option (gmap string Z)).
Context (count_order : gmap string Z -> list (string * Z)).
(** The JSON of a map of counts is read back, and is not empty. *)
Hypothesis unmarshal_marshal : forall m, map_Forall (fun _ count => uint64_range count) m ->
  unmarshal_counts (marshal_counts m) = Some m.
Hypothesis marshal_nonempty : forall m, marshal_counts m <> "".
(** Ranging over a map meets each of its entries once. *)
Hypothesis count_order_perm : forall m, count_order m ≡ₚ map_to_list m.

(** A known cost is bound to the sealed price of the request, and is the exact
    cost of the usage where that is known too. *)
Definition cost_bound (s : store) (r : accounting_row) : Prop :=
  ac_cost_known r = true ->
  exists q p, request_of_attempt s (ac_attempt_id r) = Some q /\
    ac_pricing_id r = Some (rq_pricing_id q) /\ find_pricing s (rq_pricing_id q) = Some p /\
    pr_known p = true /\ pr_currency p = ac_currency r /\
    (ac_usage_known r = true ->
     exists usage, scanned_usage unmarshal_counts r = Ok usage /\
       (row_cost r == usage_cost (components_of s (rq_pricing_id q)) usage)%Q /\
       fully_priced (components_of s (rq_pricing_id q)) usage).

(** The usage of a row can be read back. *)
Definition usage_readable (r : accounting_row) : Prop :=
  is_ok (scanned_usage unmarshal_counts r) = true /\ ac_specific_json r <> Some "".

Definition accounted_ok (s : store) (r : accounting_row) : Prop :=
  cost_bound s r /\ usage_readable r.

(** An attempt that is only prepared has nothing to show. *)
Definition prepared_ok (a : attempt_row) : Prop :=
  at_state a = "prepared" ->
  at_effect_status a = "none" /\ at_started_at a = None /\ at_first_response_at a = None /\
  at_completed_at a = None.

(** The run of a request is an identity. *)
Definition run_readable (q : request_row) : Prop :=
  match rq_run_id q with Some run => is_ok (parseTypedID runIDKind run) = true | None => True end.

Record wf_store (s : store) : Prop := {
  wf_pricing_ids : NoDup (map pr_id (pricings s));
  wf_components : forall c, c ∈ components s ->
    component_checks c = true /\ is_Some (find_pricing s (co_pricing_id c));
  wf_component_keys : NoDup (map component_key3 (components s));
  wf_seals : forall e, e ∈ seals s -> is_Some (find_pricing s (se_pricing_id e));
  wf_request_ids : NoDup (map rq_id (requests s));
  wf_request_pricing : forall q, q ∈ requests s -> is_Some (find_pricing s (rq_pricing_id q));
  wf_request_runs : forall q, q ∈ requests s -> run_readable q;
  wf_attempt_ids : NoDup (map at_id (attempts s));
  wf_attempt_slots : NoDup (map attempt_slot (attempts s));
  wf_attempts : forall a, a ∈ attempts s ->
    attempt_checks json_valid a = true /\ IsInt64 (at_revision a) = true /\ prepared_ok a /\
    is_Some (find_request s (at_request_id a));
  wf_accounting_ids : NoDup (map ac_id (accounting s));
  wf_accounting_slots : NoDup (map accounting_slot (accounting s));
  wf_accounting : forall r, r ∈ accounting s ->
    accounting_checks json_valid r = true /\ is_Some (find_attempt s (ac_attempt_id r)) /\
    accounted_ok s r;
}.

Lemma keeps_request_of_attempt s s' id q :
  keeps s s' -> request_of_attempt s id = Some q ->
  exists q', request_of_attempt s' id = Some q' /\ rq_pricing_id q' = rq_pricing_id q.
Proof.
  intros H. unfold request_of_attempt. intros (a & Ha & Hq)%bind_Some.
  destruct (keeps_attempt s s' H _ _ Ha) as (a' & -> & Hr). simpl. rewrite Hr.
  by apply (keeps_request s s' H).
Qed.

Lemma keeps_cost_bound s s' r : keeps s s' -> cost_bound s r -> cost_bound s' r.
Proof.
  intros H Hb Hk. destruct (Hb Hk) as (q & p & Hq & Hid & Hp & Hknown & Hcur & Hu).
  destruct (keeps_request_of_attempt s s' _ _ H Hq) as (q' & Hq' & He).
  destruct (keeps_pricing s s' H _ _ Hp) as [Hp' Hc].
  exists q', p. by rewrite He, Hc.
Qed.

Lemma keeps_accounted_ok s s' r : keeps s s' -> accounted_ok s r -> accounted_ok s' r.
Proof. intros H [Hc Hu]. split; [by eapply keeps_cost_bound|done]. Qed.

Lemma keeps_is_pricing s s' id : keeps s s' -> is_Some (find_pricing s id) -> is_Some (find_pricing s' id).
Proof. intros H [p Hp]. apply (keeps_pricing s s' H) in Hp as [Hp _]. eauto. Qed.
Lemma keeps_is_request s s' id : keeps s s' -> is_Some (find_request s id) -> is_Some (find_request s' id).
Proof. intros H [p Hp]. apply (keeps_request s s' H) in Hp as (? & Hp & _). eauto. Qed.
Lemma keeps_is_attempt s s' id : keeps s s' -> is_Some (find_attempt s id) -> is_Some (find_attempt s' id).
Proof. intros H [p Hp]. apply (keeps_attempt s s' H) in Hp as (? & Hp & _). eauto. Qed.

Hint Resolve keeps_is_pricing keeps_is_request keeps_is_attempt keeps_accounted_ok : core.

(** The row of a request is found through its attempt. *)
Lemma attempt_request s a : wf_store s -> a ∈ attempts s ->
  find_attempt s (at_id a) = Some a /\ is_Some (request_of_attempt s (at_id a)).
Proof.
  intros H Ha. assert (find_attempt s (at_id a) = Some a) as Hf.
  { by apply (find_unique at_id); [apply wf_attempt_ids|..]. }
  split; [done|]. unfold request_of_attempt. rewrite Hf. simpl. by apply wf_attempts.
Qed.

Lemma component_row_kinds s id : wf_store s ->
  Forall (fun c => kind_ok (co_usage_kind c) (co_specific_kind c)) (components_of s id).
Proof.
  intros H. apply Forall_forall. intros c [Hc _]%list_elem_of_In%filter_In.
  apply list_elem_of_In, (wf_components s H) in Hc as [Hc _]. by apply component_row_kind.
Qed.

Lemma component_row_keys s id : wf_store s -> NoDup (map row_key (components_of s id)).
Proof.
  intros H. pose proof (wf_component_keys s H) as Hnd. pose proof (wf_components s H) as Hc.
  unfold components_of. induction (components s) as [|c l IH]; simpl; [constructor|].
  apply NoDup_cons in Hnd as [Hn Hnd]. destruct (String.eqb_spec (co_pricing_id c) id) as [Hid|];
    [|apply IH; [done|]; intros; apply Hc; by right].
  simpl. apply NoDup_cons. split; [|apply IH; [done|]; intros; apply Hc; by right].
  intros (d & Hk & [Hd Hdid]%list_elem_of_In%filter_In)%list_elem_of_fmap.
  apply Hn. apply list_elem_of_fmap. exists d. apply String.eqb_eq in Hdid.
  split; [|by apply list_elem_of_In].
  destruct (Hc c ltac:(by left)) as [Hcc _].
  destruct (Hc d ltac:(by right; apply list_elem_of_In)) as [Hdc _].
  apply price_key_inj in Hk as [Hk1 Hk2]; [|by apply component_row_kind..].
  unfold component_key3. congruence.
Qed.

(** The tables without rows satisfy the invariant, whatever they refer to. *)
Definition empty_store (providers tasks : list ID) (runs : list (ID * ID)) : store :=
  {| provider_keys := providers; task_keys := tasks; run_keys := runs; configurations := [];
     pricings := []; components := []; seals := []; requests := []; attempts := [];
     accounting := []; evidence := [] |}.

Lemma empty_store_wf providers tasks runs : wf_store (empty_store providers tasks runs).
Proof.
  constructor; simpl; first [apply NoDup_nil_2 | intros ? Hin; by apply elem_of_nil in Hin].
Qed.

(** ** Rows that are inserted or changed *)

Lemma elem_of_snoc_inv {A} (l : list A) a b : b ∈ l ++ [a] -> b ∈ l \/ b = a.
Proof. intros [?|?%list_elem_of_singleton]%elem_of_app; auto. Qed.

Lemma in_find {A} (key : A -> string) l a :
  a ∈ l -> is_Some (find (fun b => key b =? key a) l).
Proof.
  intros Ha. destruct (find _ l) as [b|] eqn:Hf; [by exists b|].
  by apply find_none with (x := a) in Hf; [rewrite String.eqb_refl in Hf|apply list_elem_of_In].
Qed.

Lemma configuration_created_wf s r s' :
  insert_configuration json_valid s r = Ok s' -> wf_store s -> wf_store s'.
Proof. intros ->%insert_configuration_Ok []. by constructor. Qed.

Lemma evidence_appended_wf s r s' : insert_evidence s r = Ok s' -> wf_store s -> wf_store s'.
Proof. intros ->%insert_evidence_Ok []. by constructor. Qed.

Lemma accounting_inserted_wf s r s' :
  insert_accounting json_valid s r = Ok s' -> accounted_ok s r -> wf_store s -> wf_store s'.
Proof.
  intros Hi Hb H.
  apply insert_accounting_Ok in Hi as (-> & Hc & _ & _ & Hid & Hslot & a & Ha & Hk).
  assert (keeps s (set_accounting s (accounting s ++ [r]))) as Hkeep by by apply keeps_tables.
  destruct H. constructor; try done; simpl.
  - by apply NoDup_fresh.
  - by apply NoDup_fresh.
  - intros r' [Hr'| ->]%elem_of_snoc_inv.
    + destruct (wf_accounting0 r' Hr') as (? & ? & ?). eauto.
    + split_and!; [done| |by eapply keeps_accounted_ok].
      unfold find_attempt. rewrite <- Hk. by apply in_find.
Qed.

Lemma request_inserted_wf s r s' :
  insert_request s r = Ok s' -> run_readable r -> wf_store s -> wf_store s'.
Proof.
  intros Hi Hrun H. apply insert_request_Ok in Hi as Ho. destruct Ho as (Hs & Hid & _ & e & He & Hk).
  assert (keeps s s') as Hkeep.
  { rewrite Hs. constructor; [eauto| |eauto]. intros i q Hq. exists q. split; [|done].
    by apply find_app_Some. }
  subst s'. destruct H. constructor; try done; simpl; eauto.
  - by apply NoDup_fresh.
  - intros q [Hq| ->]%elem_of_snoc_inv; [by apply wf_request_pricing0|]. rewrite <- Hk. by apply wf_seals0.
  - intros q [Hq| ->]%elem_of_snoc_inv; [by apply wf_request_runs0|done].
  - intros a Ha. destruct (wf_attempts0 a Ha) as (? & ? & ? & ?). split_and!; eauto.
  - intros a Ha. destruct (wf_accounting0 a Ha) as (? & ? & ?). split_and!; eauto.
Qed.

Lemma attempt_inserted_wf s r s' :
  insert_attempt json_valid s r = Ok s' -> at_revision r = 0 -> prepared_ok r ->
  wf_store s -> wf_store s'.
Proof.
  intros Hi Hrev Hok H. apply insert_attempt_Ok in Hi as Ho.
  destruct Ho as (Hs & Hc & Hid & Hslot & q & Hq & Hk).
  assert (keeps s s') as Hkeep.
  { rewrite Hs. constructor; [eauto..|]. intros i a Ha. exists a. split; [|done].
    by apply find_app_Some. }
  subst s'. destruct H. constructor; try done; simpl; eauto.
  - by apply NoDup_fresh.
  - by apply NoDup_fresh.
  - intros a [Ha| ->]%elem_of_snoc_inv; [by apply wf_attempts0|]. split_and!; try done.
    + by rewrite Hrev.
    + rewrite <- Hk. by apply in_find.
  - intros a Ha. destruct (wf_accounting0 a Ha) as (? & ? & ?). split_and!; eauto.
Qed.

Lemma map_changing {A B} (key : A -> B) hit change l :
  (forall r, key (change r) = key r) -> map key (map (changing hit change) l) = map key l.
Proof.
  intros H. rewrite map_map. apply map_ext. intros r. unfold changing. by destruct (hit r).
Qed.

Lemma changed_row {A} hit (change : A -> A) l r :
  r ∈ map (changing hit change) l ->
  exists r0, r0 ∈ l /\ (r = r0 /\ hit r0 = false \/ r = change r0 /\ hit r0 = true).
Proof.
  intros (r0 & -> & Hr)%list_elem_of_fmap. exists r0. split; [done|]. unfold changing.
  destruct (hit r0); auto.
Qed.

Lemma request_updated_wf s id revision state change b s' :
  (forall r, rq_id (change r) = rq_id r) -> (forall r, rq_pricing_id (change r) = rq_pricing_id r) ->
  (forall r, rq_run_id (change r) = rq_run_id r) ->
  update_request s id revision state change = Ok (b, s') -> wf_store s -> wf_store s'.
Proof.
  intros Hid Hp Hrun Hu H.
  assert (keeps s s') as Hkeep by by eapply keeps_request_change in Hu.
  apply update_request_Ok in Hu as (-> & _ & _). destruct H. constructor; try done; simpl; eauto.
  - by rewrite map_changing.
  - intros q (q0 & Hq & [[-> _]|[-> _]])%changed_row; rewrite ?Hp; by apply wf_request_pricing0.
  - intros q (q0 & Hq & [[-> _]|[-> _]])%changed_row; unfold run_readable; rewrite ?Hrun;
      by apply wf_request_runs0.
  - intros a Ha. destruct (wf_attempts0 a Ha) as (? & ? & ? & ?). split_and!; eauto.
  - intros a Ha. destruct (wf_accounting0 a Ha) as (? & ? & ?). split_and!; eauto.
Qed.

Lemma attempt_updated_wf s id revision state change b s' :
  (forall r, at_id (change r) = at_id r) -> (forall r, at_request_id (change r) = at_request_id r) ->
  (forall r, at_number (change r) = at_number r) ->
  (forall r, prepared_ok (change r)) ->
  update_attempt json_valid s id revision state change = Ok (b, s') -> wf_store s -> wf_store s'.
Proof.
  intros Hid Hq Hn Hok Hu H.
  assert (keeps s s') as Hkeep by by eapply keeps_attempt_change in Hu.
  apply update_attempt_Ok in Hu as (-> & _ & Hch). destruct H. constructor; try done; simpl; eauto.
  - by rewrite map_changing.
  - rewrite map_changing; [done|]. intros r. unfold attempt_slot. by rewrite Hq, Hn.
  - intros a (a0 & Ha & [[-> _]|[-> Hh]])%changed_row; destruct (wf_attempts0 a0 Ha) as (? & ? & ? & ?).
    + split_and!; eauto.
    + destruct (Hch a0 Ha Hh) as (_ & ? & ?). rewrite Hq. split_and!; eauto.
  - intros a Ha. destruct (wf_accounting0 a Ha) as (? & ? & ?). split_and!; eauto.
Qed.

(** A price with its components and its seal. *)
Lemma price_set_wf s input micros s1 s2 s3 :
  find_pricing s (CreatePrice_ID input) = None ->
  insert_pricing s (priced_row input micros) = Ok s1 ->
  insert_components s1 (CreatePrice_ID input)
    (normalizedPriceComponents (CreatePrice_Components input)) = Ok s2 ->
  insert_seal s2
    {| se_pricing_id := CreatePrice_ID input;
       se_component_count := Z.of_nat (length (normalizedPriceComponents (CreatePrice_Components input)));
       se_sealed_at := micros |} = Ok s3 ->
  keeps s s3 -> wf_store s -> wf_store s3.
Proof.
  intros Hnone Hp Hc Hs Hkeep H.
  apply insert_pricing_Ok in Hp as (-> & _ & Hid). apply insert_components_Ok in Hc as (-> & Hnd & Hall).
  apply insert_seal_Ok in Hs as (-> & _).
  assert (is_Some (find_pricing (set_seals (set_components (set_pricings s (pricings s ++ [priced_row input micros]))
    (components s ++ map (component_to_row (CreatePrice_ID input))
       (normalizedPriceComponents (CreatePrice_Components input))))
    (seals s ++ [{| se_pricing_id := CreatePrice_ID input;
       se_component_count := Z.of_nat (length (normalizedPriceComponents (CreatePrice_Components input)));
       se_sealed_at := micros |}])) (CreatePrice_ID input))) as Hnew.
  { apply (in_find pr_id _ (priced_row input micros)), elem_of_app. right. by apply list_elem_of_singleton. }
  destruct H. constructor; try done; simpl in *.
  - by apply NoDup_fresh.
  - intros c [Hc|(c0 & -> & Hc)%list_elem_of_fmap]%elem_of_app.
    + destruct (wf_components0 c Hc). split; [done|]. by eapply keeps_is_pricing.
    + rewrite Forall_forall in Hall. split; [by apply Hall|done].
  - by apply Hnd.
  - intros e [He| ->]%elem_of_snoc_inv; [|done]. by eapply keeps_is_pricing, wf_seals0.
  - intros q Hq. by eapply keeps_is_pricing, wf_request_pricing0.
  - intros r Hr. destruct (wf_accounting0 r Hr) as (? & ? & ?). split_and!; eauto.
Qed.

Lemma unknown_accounted_ok s id attempt pricing provenance micros :
  accounted_ok s (unknown_row id attempt pricing provenance micros).
Proof. done. Qed.

(** What the columns of a row hold. *)
Lemma accountingSQLValues_Ok input micros row :
  typed (Account input) -> accountingSQLValues marshal_counts input micros = Ok row ->
  ac_id row = Accounting_ID input /\ ac_attempt_id row = Accounting_AttemptID input /\
  ac_sequence row = Accounting_Sequence input /\
  ac_pricing_id row = Accounting_PricingRevisionID input /\
  ac_usage_known row = TokenUsage_Known (Accounting_Usage input) /\
  ac_cost_known row = bool_decide (Accounting_Cost input <> None) /\
  (ac_usage_known row = true ->
   scanned_usage unmarshal_counts row = Ok (Accounting_Usage input)) /\
  usage_readable row /\
  (forall cost, Accounting_Cost input = Some cost ->
     (row_cost row == exactCostRat cost)%Q /\
     ac_currency row = Some (BudgetSnapshots.Currency cost)).
Proof.
  intros [Hcounts Hcost] (cost & Hn & [= <-])%bind_Ok. unfold accounting_columns, row_cost; simpl.
  split_and!; try done.
  - unfold normalize_actual in Hn. destruct (Accounting_Cost input); [|by injection Hn as <-].
    by apply bind_Ok in Hn as (? & _ & [= <-]).
  - intros Hk. unfold scanned_usage; simpl. rewrite Hk. simpl.
    destruct (Accounting_Usage input) as [k i c w o r m]. simpl in *. subst k.
    case_bool_decide as Hm; simpl; [by rewrite Hm|]. by rewrite unmarshal_marshal.
  - unfold usage_readable, scanned_usage. simpl.
    destruct (TokenUsage_Known (Accounting_Usage input)); simpl; [|done].
    case_bool_decide; simpl; [done|]. rewrite unmarshal_marshal by done. split; [done|].
    intros [= Hj]. by apply (marshal_nonempty _ Hj).
  - intros c Hc. rewrite Hc in *. simpl in Hn. apply bind_Ok in Hn as (c' & Hn & [= <-]).
    apply normalizeExactCost_Ok in Hn as (H1 & H2 & _); [|apply Hcost]. simpl.
    split; [exact H1|by rewrite H2].
Qed.

Lemma appended_accounted_ok s input request row micros :
  wf_store s -> typed (Account input) ->
  request_of_attempt s (Accounting_AttemptID input) = Some request ->
  verify_cost count_order s (rq_pricing_id request) input = Ok tt ->
  accountingSQLValues marshal_counts input micros = Ok row ->
  pricing_is_bound s row = true -> cost_has_pricing s row = true ->
  accounted_ok s row.
Proof.
  intros H Ht Hq Hv Hrow Hb Hp.
  apply accountingSQLValues_Ok in Hrow as (_ & Hat & _ & Hpr & Hu & Hck & Hsc & Hrd & Hc); [|done].
  split; [|done]. intros Hk.
  unfold cost_has_pricing in Hp. rewrite Hk in Hp. simpl in Hp.
  apply existsb_exists in Hp as (p & Hpin%list_elem_of_In & Hpk). to_prop.
  destruct Hpk as [[[Hpid Hknown] Hcur] Hcur'].
  rewrite Hck in Hk. apply bool_decide_eq_true in Hk.
  destruct (Accounting_Cost input) as [cost|] eqn:Hcost; [clear Hk|done].
  destruct (Hc cost eq_refl) as [Hrc Hrcur].
  unfold verify_cost in Hv. rewrite Hcost in Hv.
  destruct (Accounting_PricingRevisionID input) as [pid|] eqn:Hpid'; [|done].
  destruct (String.eqb_spec (rq_pricing_id request) pid) as [<-|]; [|done]. simpl in Hv.
  assert (find_pricing s (rq_pricing_id request) = Some p) as Hf.
  { apply (find_unique pr_id); [apply H|done|]. rewrite Hpr in Hpid. by injection Hpid. }
  exists request, p. split_and!; try congruence.
  intros Hku. exists (Accounting_Usage input). split; [by apply Hsc|].
  rewrite Hu in Hku. rewrite Hku in Hv. simpl in Hv.
  apply bind_Ok in Hv as ([pricing|] & Hfind & Hv); [|done].
  destruct (PriceRevision_PricingKnown pricing); [|done]. simpl in Hv.
  apply bind_Ok in Hv as (calculated & Hcalc & Hv). if_cases Hv. apply negb_false_iff in Hif.
  eapply calculateProviderUsageCost_Ok in Hcalc
    as (p' & Hp' & _ & _ & Hval & Hden & Hfull); [|done|by apply component_row_keys|by apply component_row_kinds|done].
  destruct Ht as [_ Ht]. rewrite Hcost in Ht.
  apply exactCostEqual_Ok in Hif as [He _]; [|done|apply Ht].
  split; [|done]. by rewrite Hrc, <- He.
Qed.

Lemma terminal_not_prepared state : providerAttemptTerminal state = true -> state <> "prepared".
Proof. by intros H ->. Qed.

Lemma moved_not_prepared from to : providerAttemptTransitionAllowed from to = true -> to <> "prepared".
Proof.
  unfold providerAttemptTransitionAllowed. intros H ->.
  repeat match type of H with context [if ?b then _ else _] => destruct b end; by vm_compute in H.
Qed.

(** Every operation keeps the invariant. *)
Lemma effect_wf s s' :
  effect json_valid json_Valid marshal_counts count_order s s' -> wf_store s -> wf_store s'.
Proof.
  intros He H. pose proof (effect_keeps _ _ _ _ _ _ He) as Hkeep. destruct He.
  - by eapply configuration_created_wf.
  - by eapply price_set_wf.
  - by eapply request_inserted_wf.
  - by eapply request_updated_wf; [..|exact H2|].
  - eapply attempt_inserted_wf; [done|done| |done]. done.
  - eapply attempt_updated_wf; [..|exact H4|done]; try done.
    intros r Hr. simpl in Hr. by apply moved_not_prepared in H0.
  - assert (wf_store s1) as H1' by by eapply attempt_updated_wf; [..|exact H0|].
    eapply accounting_inserted_wf; [done| |done]. rewrite H2. apply unknown_accounted_ok.
  - eapply accounting_inserted_wf; [done| |done]. apply unknown_accounted_ok.
  - apply insert_accounting_Ok in H5 as Hi. destruct Hi as (_ & _ & Hb & Hp & _).
    eapply accounting_inserted_wf; [done| |done]. by eapply appended_accounted_ok.
  - by eapply evidence_appended_wf.
Qed.

End Invariant.
