(* ===== verification/ProviderSummaryFacts.v ===== *)
(** * Facts about the sum over a request

    What the loop of [SummarizeProviderRequestAccounting] has added up. *)

From Stdlib Require Import Ascii String QArith.
From S2P Require Import Prelude GoText GoErrors PolicyValues Identity Pricing PricingFacts.
From S2P Require Import BudgetSchema BudgetSnapshots BudgetLedger BudgetFacts BudgetInvariant.
From S2P Require Import ProviderAttempts ProviderSchema ProviderStore ProviderStoreFacts.
From S2P Require Import ProviderPriceFacts ProviderStoreInvariant.
Open Scope string_scope.
Open Scope list_scope.
Open Scope go_scope.

(** ** The latest accounting of an attempt *)

Definition account_of (s : store) (a : attempt_row) : option accounting_row :=
  find (fun r => (ac_attempt_id r =? at_id a) && (ac_sequence r =? latest_sequence s (at_id a))%Z)
    (accounting s).

Definition usage_is_known (o : option accounting_row) : bool :=
  match o with Some r => ac_usage_known r | None => false end.
Definition cost_is_known (o : option accounting_row) : bool :=
  match o with Some r => ac_cost_known r | None => false end.
Definition is_discrepant (o : option accounting_row) : bool :=
  match o with Some r => ac_discrepancy r | None => false end.

Lemma filter_unique {A B} (key : A -> B) (p : A -> bool) l k :
  NoDup (map key l) -> (forall a, a ∈ l -> p a = true -> key a = k) ->
  List.filter p l = match find p l with Some a => [a] | None => [] end.
Proof.
  induction l as [|a l IH]; intros Hnd Hk; simpl; [done|]. apply NoDup_cons in Hnd as [Ha Hnd].
  assert (forall b, b ∈ l -> p b = true -> key b = k) as Hk' by (intros; apply Hk; [by right|done]).
  destruct (p a) eqn:Hp; [|by apply IH]. f_equal.
  destruct (List.filter p l) as [|b l'] eqn:Hf; [done|].
  assert (b ∈ l /\ p b = true) as [Hb Hpb].
  { rewrite !list_elem_of_In, <- filter_In, Hf. by left. }
  destruct Ha. rewrite (Hk a), <- (Hk' b) by (done || by left). by apply list_elem_of_fmap_2.
Qed.

Lemma concat_singletons {A B} (f : A -> B) l : List.concat (map (fun a => [f a]) l) = map f l.
Proof. induction l as [|a l IH]; simpl; [done|]. by rewrite IH. Qed.

Section Summary.
Context (json_valid : string -> bool) (unmarshal_counts : string -> option (gmap string Z)).
Abbreviation well_formed := (wf_store json_valid unmarshal_counts).

Lemma joined_account s a : well_formed s -> joined s a = [(a, account_of s a)].
Proof.
  intros H. unfold joined, account_of.
  rewrite (filter_unique accounting_slot _ _ (at_id a, latest_sequence s (at_id a))); [|apply H|].
  - by destruct (find _ _).
  - intros r _ Hr. to_prop. unfold accounting_slot. by destruct Hr as [-> ->].
Qed.

Lemma accounted_attempts_map s id : well_formed s ->
  accounted_attempts s id = map (fun a => (a, account_of s a)) (attempts_of s id).
Proof.
  intros H. unfold accounted_attempts. rewrite <- (concat_singletons (fun a => (a, account_of s a))).
  f_equal. apply map_ext. intros a. by apply joined_account.
Qed.

Lemma elem_of_attempts_of s id a : a ∈ attempts_of s id <-> a ∈ attempts s /\ at_request_id a = id.
Proof.
  unfold attempts_of. rewrite (merge_sort_Permutation number_le).
  rewrite !list_elem_of_In, filter_In, String.eqb_eq. done.
Qed.

(** The account of an attempt is its row with the highest sequence number. *)
Lemma account_of_latest s a r : well_formed s -> account_of s a = Some r ->
  r ∈ accounting s /\ ac_attempt_id r = at_id a /\
  forall r', r' ∈ accounting s -> ac_attempt_id r' = at_id a -> ac_sequence r' <= ac_sequence r.
Proof.
  intros H Hf. apply find_some in Hf as [Hr%list_elem_of_In Hk]. to_prop. destruct Hk as [Hk Hs].
  split_and!; try done. intros r' Hr' Hk'. rewrite Hs. unfold latest_sequence.
  enough (In (ac_sequence r') (map ac_sequence (List.filter (fun a0 => ac_attempt_id a0 =? at_id a)
            (accounting s)))) as Hin.
  { induction (map _ _) as [|z l IH]; simpl in *; [done|]. destruct Hin as [->|Hin]; [lia|].
    specialize (IH Hin). lia. }
  apply in_map, filter_In. split; [by apply list_elem_of_In|by apply String.eqb_eq].
Qed.

Lemma max_in l : (forall z, z ∈ l -> 1 <= z) -> l <> [] -> foldr Z.max 0 l ∈ l.
Proof.
  induction l as [|z l IH]; intros Hl Hn; [done|]. simpl.
  assert (1 <= z) by (apply Hl; by left).
  destruct l as [|y l]; [simpl; rewrite Z.max_l by lia; by left|].
  destruct (Z.max_spec z (foldr Z.max 0 (y :: l))) as [[_ Hm]|[_ Hm]]; rewrite Hm; [|by left].
  right. apply IH; [|done]. intros w Hw. apply Hl. by right.
Qed.

(** An attempt without an account has no row at all. *)
Lemma account_of_None s a : well_formed s -> account_of s a = None ->
  forall r, r ∈ accounting s -> ac_attempt_id r <> at_id a.
Proof.
  intros H Hn r Hr Hk.
  set (l := List.filter (fun x => ac_attempt_id x =? at_id a) (accounting s)).
  assert (r ∈ l) as Hl.
  { apply list_elem_of_In, filter_In. split; [by apply list_elem_of_In|by apply String.eqb_eq]. }
  assert (latest_sequence s (at_id a) ∈ map ac_sequence l) as Hin.
  { apply max_in.
    - intros z (x & -> & [Hx _]%list_elem_of_In%filter_In)%list_elem_of_fmap.
      apply list_elem_of_In in Hx. destruct (wf_accounting _ _ _ H x Hx) as [Hc _].
      unfold accounting_checks, between in Hc. to_prop. lia.
    - by destruct l; [apply elem_of_nil in Hl|]. }
  apply list_elem_of_fmap in Hin as (x & He & [Hx Hxa]%list_elem_of_In%filter_In).
  unfold account_of in Hn. apply find_none with (x := x) in Hn; [|done].
  by rewrite Hxa, He, Z.eqb_refl in Hn.
Qed.

(** ** Adding up usage *)

Definition sum_of {A} (f : A -> Z) (l : list A) : Z := foldr (fun a z => f a + z) 0 l.

Lemma sum_of_snoc {A} (f : A -> Z) l a : sum_of f (l ++ [a]) = sum_of f l + f a.
Proof. induction l as [|b l IH]; simpl; lia. Qed.

Definition specific_count (key : string) (u : TokenUsage) : Z :=
  default 0 (TokenUsage_ProviderSpecific u !! key).

(** Every count of [total] is the sum of the counts of [l]. *)
Definition usage_sum (total : TokenUsage) (l : list TokenUsage) : Prop :=
  TokenUsage_Input total = sum_of TokenUsage_Input l /\
  TokenUsage_CachedInput total = sum_of TokenUsage_CachedInput l /\
  TokenUsage_CacheWrite total = sum_of TokenUsage_CacheWrite l /\
  TokenUsage_Output total = sum_of TokenUsage_Output l /\
  TokenUsage_Reasoning total = sum_of TokenUsage_Reasoning l /\
  forall key, specific_count key total = sum_of (specific_count key) l.

(** The errors of a sum that does not fit. *)
Definition overflows (e : error) : Prop :=
  e ∈ [Sentinel "provider request token accounting overflow";
       Sentinel "provider-specific token accounting overflow";
       Sentinel "provider request cost exceeds exact storage range"].

(** The usage of a row of the join. *)
Definition row_usage (o : option accounting_row) : TokenUsage :=
  match o with
  | Some r => match scanned_usage unmarshal_counts r with Ok u => u | Err _ => zero_usage false end
  | None => zero_usage false
  end.

Lemma add_specific_Ok l m m' :
  NoDup l.*1 -> fold_result add_specific l m = Ok m' ->
  forall key, default 0 (m' !! key) = default 0 (m !! key) + default 0 (list_to_map (M := gmap string Z) l !! key).
Proof.
  revert m. induction l as [|[k n] l IH]; intros m Hnd; simpl.
  - intros [= <-] key. rewrite lookup_empty. simpl. lia.
  - apply NoDup_cons in Hnd as [Hk Hnd]. intros (m1 & H1 & H)%bind_Ok key. if_cases H1.
    injection H1 as <-. rewrite (IH _ Hnd H key).
    destruct (decide (key = k)) as [->|].
    + rewrite !lookup_insert_eq, (not_elem_of_list_to_map_1 (M := gmap string)) by done. simpl. lia.
    + by rewrite !lookup_insert_ne by done.
Qed.

Lemma fold_result_Err {E A B} (f : A -> B -> result E A) (P : E -> Prop) l a e :
  (forall a b e, f a b = Err e -> P e) -> fold_result f l a = Err e -> P e.
Proof.
  intros Hf. revert a. induction l as [|b l IH]; intros a; simpl; [done|].
  destruct (f a b) as [e'|a'] eqn:Hab; simpl; [intros [= <-]; eauto|eauto].
Qed.

Lemma add_tokens_spec t n :
  match add_tokens t n with Ok t' => t' = t + n /\ 0 <= n | Err e => overflows e end.
Proof.
  unfold add_tokens. destruct (_ || _) eqn:H; [left|].
  apply orb_false_iff in H as [H%Z.ltb_ge _]. done.
Qed.

Lemma addUsageToSummary_spec t l r :
  usage_sum t l -> ac_usage_known r = true -> usage_readable unmarshal_counts r ->
  match addUsageToSummary unmarshal_counts t r with
  | Ok t' => usage_sum t' (l ++ [row_usage (Some r)]) /\ TokenUsage_Known t' = TokenUsage_Known t
  | Err e => overflows e
  end.
Proof.
  intros (Hi & Hc & Hw & Ho & Hr & Hs) Hk [Hread Hne]. simpl.
  destruct (scanned_usage unmarshal_counts r) as [|u] eqn:Hu; [done|]. clear Hread.
  unfold scanned_usage in Hu. rewrite Hk in Hu. simpl in Hu.
  apply bind_Ok in Hu as (specific & Hsp & [= <-]). unfold addUsageToSummary.
  pose proof (add_tokens_spec (TokenUsage_Input t) (or_zero (ac_input r))) as H1.
  destruct (add_tokens _ _) as [e|i']; simpl; [done|].
  pose proof (add_tokens_spec (TokenUsage_CachedInput t) (or_zero (ac_cached_input r))) as H2.
  destruct (add_tokens (TokenUsage_CachedInput t) _) as [e|c']; simpl; [done|].
  pose proof (add_tokens_spec (TokenUsage_CacheWrite t) (or_zero (ac_cache_write r))) as H3.
  destruct (add_tokens (TokenUsage_CacheWrite t) _) as [e|w']; simpl; [done|].
  pose proof (add_tokens_spec (TokenUsage_Output t) (or_zero (ac_output r))) as H4.
  destruct (add_tokens (TokenUsage_Output t) _) as [e|o']; simpl; [done|].
  pose proof (add_tokens_spec (TokenUsage_Reasoning t) (or_zero (ac_reasoning r))) as H5.
  destruct (add_tokens (TokenUsage_Reasoning t) _) as [e|r']; simpl; [done|].
  destruct_and!. subst i' c' w' o' r'.
  assert (forall m', (forall key, default 0 (m' !! key) =
            specific_count key t + default 0 (specific !! key)) ->
    usage_sum {| TokenUsage_Known := TokenUsage_Known t;
                 TokenUsage_Input := TokenUsage_Input t + or_zero (ac_input r);
                 TokenUsage_CachedInput := TokenUsage_CachedInput t + or_zero (ac_cached_input r);
                 TokenUsage_CacheWrite := TokenUsage_CacheWrite t + or_zero (ac_cache_write r);
                 TokenUsage_Output := TokenUsage_Output t + or_zero (ac_output r);
                 TokenUsage_Reasoning := TokenUsage_Reasoning t + or_zero (ac_reasoning r);
                 TokenUsage_ProviderSpecific := m' |}
      (l ++ [{| TokenUsage_Known := true; TokenUsage_Input := or_zero (ac_input r);
                TokenUsage_CachedInput := or_zero (ac_cached_input r);
                TokenUsage_CacheWrite := or_zero (ac_cache_write r);
                TokenUsage_Output := or_zero (ac_output r);
                TokenUsage_Reasoning := or_zero (ac_reasoning r);
                TokenUsage_ProviderSpecific := specific |}])) as Hsum.
  { intros m' Hm. unfold usage_sum. rewrite !sum_of_snoc. simpl. split_and!; try congruence.
    intros key. rewrite sum_of_snoc, <- Hs. unfold specific_count at 1 3; simpl. apply Hm. }
  destruct (ac_specific_json r) as [raw|]; simpl in *.
  - destruct (String.eqb_spec raw "") as [->|]; [by destruct Hne|].
    destruct (unmarshal_counts raw) as [counts|]; [|done]. injection Hsp as ->.
    destruct (fold_result add_specific _ _) as [e|m'] eqn:Hf; simpl.
    + eapply fold_result_Err in Hf; [exact Hf|]. intros acc [name count] e' He'. unfold add_specific in He'.
      destruct (_ <? _)%Z; [|done]. injection He' as <-. right. by left.
    + split; [|done]. apply Hsum. intros key.
      rewrite (add_specific_Ok _ _ _ (NoDup_fst_map_to_list _) Hf), list_to_map_to_list. done.
  - injection Hsp as <-. split; [|done]. apply Hsum. intros key. unfold specific_count.
    rewrite lookup_empty. simpl. lia.
Qed.

(** ** The loop *)

Definition known_cost (o : option accounting_row) : Q :=
  match o with Some r => if ac_cost_known r then row_cost r else 0%Q | None => 0%Q end.

Abbreviation joined_row := (attempt_row * option accounting_row)%type.

(** What the loop holds after the rows [l]. *)
Record summed (currency : CurrencyCode) (t : summing) (l : list joined_row) : Prop := {
  summed_count : sum_count t = Z.of_nat (length l);
  summed_complete : sum_complete t = forallb (fun x => usage_is_known x.2 && cost_is_known x.2) l;
  summed_discrepancy : sum_discrepancy t = existsb (fun x => is_discrepant x.2) l;
  summed_partial : sum_partial t = existsb (fun x => at_partial_stream x.1) l;
  summed_usage_complete : sum_usage_complete t = forallb (fun x => usage_is_known x.2) l;
  summed_known : TokenUsage_Known (sum_usage t) = true;
  summed_usage : usage_sum (sum_usage t) (map (fun x => row_usage x.2) l);
  summed_cost : match sum_cost t with
    | Some (q, c) => c = currency /\ (q == sumQ (fun x => known_cost x.2) l)%Q
    | None => forallb (fun x => negb (cost_is_known x.2)) l = true
    end;
}.

Definition row_ok (currency : CurrencyCode) (o : option accounting_row) : Prop :=
  match o with
  | Some r => usage_readable unmarshal_counts r /\
      (ac_cost_known r = true -> ac_currency r = Some currency /\
       ParseCurrencyCode currency = Ok currency)
  | None => True
  end.

Lemma usage_sum_zero t l u :
  usage_sum t l -> u = zero_usage false -> usage_sum t (l ++ [u]).
Proof.
  intros (?&?&?&?&?&Hs) ->. unfold usage_sum. rewrite !sum_of_snoc. simpl. rewrite !Z.add_0_r.
  split_and!; try done. intros key. rewrite sum_of_snoc, <- Hs. unfold specific_count. simpl.
  rewrite lookup_empty. simpl. lia.
Qed.

Lemma row_usage_unknown o : usage_is_known o = false -> row_usage o = zero_usage false.
Proof.
  destruct o as [r|]; simpl; [|done]. intros Hk. unfold scanned_usage. by rewrite Hk.
Qed.

(** The sum of usages after one more row. *)
Lemma usage_turn t l o :
  usage_sum t l -> TokenUsage_Known t = true -> (usage_is_known o = true -> exists r, o = Some r /\
    usage_readable unmarshal_counts r) ->
  match (match o with
         | Some r => if usage_is_known o then addUsageToSummary unmarshal_counts t r else Ok t
         | None => Ok t
         end) with
  | Ok t' => usage_sum t' (l ++ [row_usage o]) /\ TokenUsage_Known t' = true
  | Err e => overflows e
  end.
Proof.
  intros Hs Hk Ho. destruct (usage_is_known o) eqn:Hu.
  - destruct (Ho eq_refl) as (r & -> & Hr). simpl in Hu.
    pose proof (addUsageToSummary_spec t l r Hs Hu Hr) as H.
    destruct (addUsageToSummary _ _ _); [done|]. destruct H as [H1 H2]. split; [done|congruence].
  - destruct o; (split; [by apply usage_sum_zero; [|apply row_usage_unknown]|done]).
Qed.

Lemma sumQ_snoc {A} (f : A -> Q) l a : (sumQ f (l ++ [a]) == sumQ f l + f a)%Q.
Proof. rewrite sumQ_app. simpl. ring. Qed.

Lemma sumQ_none (l : list joined_row) :
  forallb (fun x => negb (cost_is_known x.2)) l = true -> (sumQ (fun x => known_cost x.2) l == 0)%Q.
Proof.
  intros H. rewrite <- (sumQ_zero l). apply sumQ_ext. intros x Hx.
  apply forallb_forall with (x := x) in H; [|by apply list_elem_of_In].
  destruct x as [a [r|]]; simpl in *; [|done]. by destruct (ac_cost_known r).
Qed.

(** The sum of costs after one more row. *)
Lemma cost_turn currency (c : option (Q * CurrencyCode)) l x :
  row_ok currency x.2 ->
  match c with
  | Some (q, c) => c = currency /\ (q == sumQ (fun x : joined_row => known_cost x.2) l)%Q
  | None => forallb (fun x : joined_row => negb (cost_is_known x.2)) l = true
  end ->
  exists c', (match x.2 with
              | Some r => if cost_is_known x.2 then add_row_cost c r else Ok c
              | None => Ok c
              end) = Ok c' /\
  match c' with
  | Some (q, c) => c = currency /\ (q == sumQ (fun x : joined_row => known_cost x.2) (l ++ [x]))%Q
  | None => forallb (fun x : joined_row => negb (cost_is_known x.2)) (l ++ [x]) = true
  end.
Proof.
  intros Hok Hc. destruct (cost_is_known x.2) eqn:Hk.
  - destruct x as [a [r|]]; [|done]. simpl in *. destruct Hok as [_ Hcur].
    destruct (Hcur Hk) as [Hr Hp]. unfold add_row_cost. rewrite Hr. simpl. rewrite Hp.
    destruct c as [[q c]|].
    + destruct Hc as [-> Hq]. rewrite String.eqb_refl. eexists. split; [done|]. split; [done|].
      rewrite sumQ_snoc. simpl. rewrite Hk, Hq. reflexivity.
    + eexists. split; [done|]. split; [done|]. rewrite sumQ_snoc. simpl.
      rewrite Hk, (sumQ_none l Hc). reflexivity.
  - exists c. split; [by destruct (x.2)|]. assert (known_cost x.2 = 0%Q) as Hz.
    { destruct x as [a [r|]]; simpl in *; [by rewrite Hk|done]. }
    destruct c as [[q c]|].
    + destruct Hc as [-> Hq]. split; [done|]. rewrite sumQ_snoc, Hz, Hq. ring.
    + rewrite forallb_app, Hc. simpl. by rewrite Hk.
Qed.

Lemma sum_row_spec currency t l x :
  summed currency t l -> row_ok currency x.2 ->
  match sum_row unmarshal_counts t x with
  | Ok t' => summed currency t' (l ++ [x])
  | Err e => overflows e
  end.
Proof.
  intros [Hn Hco Hd Hp Huc Hk Hu Hc] Hok. destruct x as [a o]. unfold sum_row.
  pose proof (usage_turn _ _ o Hu Hk) as Hturn.
  destruct (cost_turn currency _ l (a, o) Hok Hc) as (c' & Hc' & Hcost). simpl in *.
  change (match o with Some r => ac_usage_known r | None => false end) with (usage_is_known o).
  change (match o with Some r => ac_cost_known r | None => false end) with (cost_is_known o).
  change (match o with Some r => ac_discrepancy r | None => false end) with (is_discrepant o).
  destruct (match o with Some r => if usage_is_known o then _ else _ | None => _ end) as [e|usage];
    simpl.
  - apply Hturn. destruct o as [r|]; [|done]. intros _. exists r. by destruct Hok.
  - rewrite Hc'. simpl. destruct Hturn as [Hu' Hk'].
    { destruct o as [r|]; [|done]. intros _. exists r. by destruct Hok. }
    constructor; simpl; rewrite ?forallb_app, ?existsb_app, ?length_app, ?map_app; simpl;
      rewrite ?andb_true_r, ?orb_false_r; try congruence; try done; try lia.
    + by rewrite Hco, andb_assoc.
    + rewrite forallb_app in Hcost. simpl in Hcost. by rewrite andb_true_r in Hcost.
Qed.

Lemma sum_rows_spec currency t l rest :
  summed currency t l -> Forall (fun x => row_ok currency x.2) rest ->
  match fold_result (sum_row unmarshal_counts) rest t with
  | Ok t' => summed currency t' (l ++ rest)
  | Err e => overflows e
  end.
Proof.
  revert t l. induction rest as [|x rest IH]; intros t l Ht Hok; simpl; [by rewrite app_nil_r|].
  apply Forall_cons in Hok as [Hx Hok]. pose proof (sum_row_spec currency t l x Ht Hx) as H.
  destruct (sum_row _ t x) as [e|t1]; simpl; [done|].
  rewrite (cons_middle x l rest), app_assoc. by apply IH.
Qed.

Lemma start_summed currency : summed currency start_summing [].
Proof. by constructor. Qed.

End Summary.
