(* ===== verification/ProviderRepeat.v ===== *)
(** * Repeating an operation on provider requests

    Every operation can be sent again as the next one: it finds what it has
    recorded and changes nothing. *)

From Stdlib Require Import Ascii String QArith.
From S2P Require Import Prelude GoText GoErrors PolicyValues Identity Pricing PricingFacts.
From S2P Require Import BudgetSchema BudgetSnapshots BudgetLedger BudgetFacts BudgetInvariant.
From S2P Require Import ProviderTypes ProviderAttempts ProviderSchema ProviderStore ProviderStoreFacts.
From S2P Require Import ProviderPriceFacts ProviderStoreInvariant.
Open Scope string_scope.
Open Scope list_scope.
Open Scope go_scope.

(** ** Stored values read back *)

Lemma repositoryTime_UnixMicro t : t mod 1000 = 0 -> repositoryTime (UnixMicro t) = t.
Proof.
  unfold UnixMicro, repositoryTime. intros H. rewrite Z.mul_comm. symmetry.
  apply Z_div_exact_full_2; [done|]. done.
Qed.

Lemma UnixMicro_repositoryTime t : UnixMicro (repositoryTime t) = t.
Proof. unfold UnixMicro, repositoryTime. by rewrite Z.div_mul. Qed.

Lemma recorded_again t : recorded_at (Some (repositoryTime (UnixMicro t))) t = true.
Proof. unfold recorded_at. rewrite UnixMicro_repositoryTime. by apply Z.eqb_eq. Qed.

Lemma equalOptionalString_refl o : equalOptionalString o o = true.
Proof. by apply bool_decide_eq_true. Qed.
Lemma sameTokenCount_refl o : sameTokenCount o o = true.
Proof. by apply bool_decide_eq_true. Qed.

(** [expected + 1] does not wrap for a revision in the table. *)
Lemma add_u64_one r : 0 <= r + 1 -> IsInt64 (r + 1) = true -> add_u64 r 1 = r + 1.
Proof.
  unfold IsInt64, add_u64, wrap_uint64. intros H0 H. to_prop. unfold_ranges.
  apply Z.mod_small. lia.
Qed.

Lemma find_snoc_new {A} (p : A -> bool) l a :
  find p l = None -> p a = true -> find p (l ++ [a]) = Some a.
Proof. induction l as [|b l IH]; simpl; [by intros _ ->|]. destruct (p b); [done|auto]. Qed.

Lemma find_none_in {A} (p : A -> bool) l a : find p l = None -> a ∈ l -> p a = false.
Proof. intros H Ha. apply find_none with (x := a) in H; [done|by apply list_elem_of_In]. Qed.

(** What was inserted under a fresh key is found under it. *)
Lemma find_fresh {A} (key : A -> string) l a :
  fresh key l a -> find (fun b => key b =? key a) (l ++ [a]) = Some a.
Proof.
  intros H. apply find_snoc_new; [by apply find_absent|apply String.eqb_refl].
Qed.

Lemma filter_nil {A} (p : A -> bool) l : (forall a, a ∈ l -> p a = false) -> List.filter p l = [].
Proof.
  induction l as [|a l IH]; intros H; simpl; [done|]. rewrite (H a) by (by left).
  apply IH. intros b Hb. apply H. by right.
Qed.

(** ** Prices *)

Lemma glob_currency_parses c : glob_currency c = true -> ParseCurrencyCode c = Ok c.
Proof.
  unfold glob_currency, ParseCurrencyCode. destruct (negb _); [done|]. by destruct (forallb _ _).
Qed.

(** Components in the order of the code are in the order of the query. *)
Definition valid_component (c : ProviderPriceComponent) : Prop :=
  kind_ok (Price_UsageKind c) (Price_ProviderSpecificKind c).

Lemma sql_component_le_trans : Transitive sql_component_le.
Proof.
  intros [i1 k1 s1 n1 d1] [i2 k2 s2 n2 d2] [i3 k3 s3 n3 d3]. unfold sql_component_le; simpl.
  intros [[H1 H2]|[<- H2]] [[H3 H4]|[<- H4]]; auto.
  - destruct (decide (k1 = k3)) as [->|]; [|left; split; [done|by etrans]].
    destruct H1. by apply (anti_symm String.le).
  - right. split; [done|]. destruct s1, s2, s3; try done. by etrans.
Qed.

Lemma sql_component_le_total : Total sql_component_le.
Proof.
  intros [i1 k1 s1 n1 d1] [i2 k2 s2 n2 d2]. unfold sql_component_le; simpl.
  destruct (decide (k1 = k2)) as [->|Hk].
  - destruct s1 as [s1|], s2 as [s2|]; auto. destruct (total String.le s1 s2); auto.
  - destruct (total String.le k1 k2); auto.
Qed.

Lemma sql_component_le_anti a b :
  sql_component_le a b -> sql_component_le b a ->
  co_usage_kind a = co_usage_kind b /\ co_specific_kind a = co_specific_kind b.
Proof.
  intros [[Hk H1]|[Hk H1]] [[Hk' H2]|[Hk' H2]]; try congruence.
  - destruct Hk. by apply (anti_symm String.le).
  - split; [done|]. destruct (co_specific_kind a), (co_specific_kind b); try done. f_equal.
    by apply (anti_symm String.le).
Qed.

Lemma ascii_compare_refl c : (c ?= c)%char = Eq.
Proof. unfold Ascii.compare. apply N.compare_refl. Qed.

Lemma app_le (s t u : string) : String.le (s +:+ t) (s +:+ u) -> String.le t u.
Proof.
  unfold String.le. induction s as [|c s IH]; simpl; [done|]. intros H. apply IH.
  unfold String.leb in *. simpl in H. by rewrite ascii_compare_refl in H.
Qed.

Lemma key_le_sql id c d :
  valid_component c -> valid_component d -> key_le c d ->
  sql_component_le (component_to_row id c) (component_to_row id d).
Proof.
  destruct c as [k1 s1 n1 d1], d as [k2 s2 n2 d2]. unfold valid_component, key_le, component_key; simpl.
  intros [H1%kind_cases Hs1] [H2%kind_cases Hs2] Hle. unfold sql_component_le; simpl.
  rewrite !elem_of_cons, elem_of_nil in H1, H2.
  destruct_or! H1; destruct_or! H2; subst k1 k2; try done;
    destruct s1 as [s1|], s2 as [s2|];
    try (exfalso; by (destruct Hs1 as [_ Hs]; specialize (Hs ltac:(done)))
         || (destruct Hs2 as [_ Hs]; specialize (Hs ltac:(done)))
         || (by apply Hs1) || (by apply Hs2));
    first [ right; split; [done|]; first [done | by do 2 apply app_le in Hle]
          | left; split; [discriminate|]; vm_compute; exact I
          | exfalso; by vm_compute in Hle ].
Qed.

Lemma NoDup_map_eq {A B} (f : A -> B) l x y :
  NoDup (map f l) -> x ∈ l -> y ∈ l -> f x = f y -> x = y.
Proof.
  induction l as [|a l IH]; intros Hnd Hx Hy He; [by apply elem_of_nil in Hx|].
  apply NoDup_cons in Hnd as [Ha Hnd].
  apply elem_of_cons in Hx as [->|Hx], Hy as [->|Hy]; try done; [..|by apply IH];
    destruct Ha; [rewrite He|rewrite <- He]; by apply list_elem_of_fmap_2.
Qed.

Lemma StronglySorted_map {A B} (R : A -> A -> Prop) (S : B -> B -> Prop) (f : A -> B) l :
  (forall a b, a ∈ l -> b ∈ l -> R a b -> S (f a) (f b)) -> StronglySorted R l ->
  StronglySorted S (map f l).
Proof.
  induction l as [|a l IH]; intros H Hs; simpl; [constructor|]. inversion_clear Hs as [|? ? Hl Ha].
  constructor.
  - apply IH; [|done]. intros b c Hb Hc. apply H; by right.
  - apply List.Forall_forall. intros ? (b & <- & Hb)%in_map_iff.
    pose proof (proj1 (List.Forall_forall _ _) Ha b Hb) as Hab.
    apply list_elem_of_In in Hb. apply H; [by left|by right|done].
Qed.

Lemma key_le_sorted l : StronglySorted key_le (merge_sort key_le l).
Proof.
  apply StronglySorted_merge_sort.
  - intros a b c. unfold key_le. by etrans.
  - intros a b. unfold key_le. apply total, _.
Qed.

(** The query returns the components as they were inserted. *)
Lemma sorted_components id l :
  Forall (fun c => component_checks (component_to_row id c) = true) (normalizedPriceComponents l) ->
  NoDup (map component_key3 (map (component_to_row id) (normalizedPriceComponents l))) ->
  merge_sort sql_component_le (map (component_to_row id) (normalizedPriceComponents l)) =
  map (component_to_row id) (normalizedPriceComponents l).
Proof.
  intros Hc Hnd. rewrite Forall_forall in Hc.
  apply (StronglySorted_unique_strong sql_component_le).
  - intros x y Hx Hy H1 H2. rewrite merge_sort_Permutation in Hx.
    apply (NoDup_map_eq _ _ x y Hnd Hx Hy). destruct (sql_component_le_anti x y H1 H2) as [Hk Hs].
    apply list_elem_of_fmap in Hx as (? & -> & _), Hy as (? & -> & _). unfold component_key3.
    simpl in *. by rewrite Hk, Hs.
  - apply StronglySorted_merge_sort; [apply sql_component_le_trans|apply sql_component_le_total].
  - eapply StronglySorted_map; [|apply key_le_sorted]. intros a b Ha%Hc Hb%Hc.
    apply key_le_sql; by apply component_row_kind in Ha, Hb.
  - apply merge_sort_Permutation.
Qed.

Lemma scanned_component_row id c : scanned_component (component_to_row id c) = c.
Proof. by destruct c. Qed.

(** ** Repeating *)

Section Repeat.
Context (json_valid json_Valid : string -> bool).
Context (map_order : list (string * string * Z) -> list (string * string * Z)).
Context (marshal_counts : gmap string Z -> string).
Context (unmarshal_counts : string -> option (gmap string Z)).
Context (count_order : gmap string Z -> list (string * Z)).
Hypothesis unmarshal_marshal : forall m, map_Forall (fun _ count => uint64_range count) m ->
  unmarshal_counts (marshal_counts m) = Some m.
Abbreviation well_formed := (wf_store json_valid unmarshal_counts).

Lemma again {A} err (f f' : store -> result error (A * store)) s s' :
  outcome_of (validated err (transact f) s) = (true, s') ->
  (forall a, err = None -> f s = Ok (a, s') -> exists a', f' s' = Ok (a', s')) ->
  outcome_of (validated err (transact f') s') = (true, s').
Proof.
  intros H Hf. apply validated_inv in H as [[? _]|[-> H]]; [done|].
  apply transact_inv in H as [[? _]|(a & _ & H)]; [done|].
  destruct (Hf a eq_refl H) as [a' Ha]. unfold validated, transact, outcome_of. by rewrite Ha.
Qed.

(** Opening what the operation did the first time. *)
Ltac repeating H :=
  eapply again; [exact H|]; clear H; cbv beta; let Hval := fresh "Hval" in intros ? Hval H;
  open_steps H; subst.

Lemma configure_again now now' input s s' :
  outcome_of (create_configuration json_valid json_Valid now input s) = (true, s') ->
  outcome_of (create_configuration json_valid json_Valid now' input s') = (true, s').
Proof.
  intros H. repeating H.
  - rewrite E, E0. eauto.
  - apply writing_Ok in E1. if_cases E1. apply insert_configuration_Ok in E1 as ->.
    unfold findProviderConfigurationByIdempotency in *. simpl.
    destruct (find _ (configurations s)) eqn:Hf; [done|].
    rewrite (find_snoc_new _ _ _ Hf) by (simpl; by rewrite !String.eqb_refl). simpl.
    assert (providerConfigurationMatches (scanned_configuration
      (configured_row input (add_u64 (latest_configuration s (CreateConfig_ProviderID input)) 1)
         (UnixMicro now))) input = true) as ->; [|eauto].
    apply negb_false_iff, Z.eqb_eq in E0. unfold providerConfigurationMatches; simpl.
    by rewrite E0, !String.eqb_refl, Z.eqb_refl, equalOptionalString_refl.
Qed.

Lemma witness_again now now' input s s' :
  outcome_of (append_evidence now input s) = (true, s') ->
  outcome_of (append_evidence now' input s') = (true, s').
Proof.
  intros H. repeating H.
  - rewrite E, E0. eauto.
  - apply writing_Ok, insert_evidence_Ok in E0 as ->.
    unfold findProviderAttemptEvidenceByID, find_evidence in *. simpl.
    destruct (find _ (evidence s)) eqn:Hf; [done|].
    rewrite (find_snoc_new _ _ _ Hf) by (simpl; by rewrite !String.eqb_refl). simpl.
    assert (providerAttemptEvidenceMatches
      (scanned_evidence (evidence_to_row input (UnixMicro now))) input = true) as ->; [|eauto].
    unfold providerAttemptEvidenceMatches; simpl. by rewrite !String.eqb_refl, !Z.eqb_refl, eqb_reflx.
Qed.

Lemma ensure_again now now' input s s' :
  outcome_of (ensure_accounting json_valid now input s) = (true, s') ->
  outcome_of (ensure_accounting json_valid now' input s') = (true, s').
Proof.
  intros H. repeating H.
  - rewrite E. eauto.
  - apply writing_Ok, insert_accounting_Ok in E1 as (-> & _). simpl.
    rewrite existsb_app. simpl. rewrite String.eqb_refl, orb_true_r. eauto.
Qed.

Lemma prepare_again now now' input s s' :
  well_formed s ->
  outcome_of (create_attempt json_valid now input s) = (true, s') ->
  outcome_of (create_attempt json_valid now' input s') = (true, s').
Proof.
  intros Hwf H. repeating H.
  - rewrite E. simpl. rewrite E1. eauto.
  - apply writing_Ok, insert_attempt_Ok in E3 as (-> & _ & Hid & _).
    unfold findProviderRequestAttemptByNumber in *. simpl.
    destruct (find _ (attempts s)) eqn:Hf; [by apply bind_Ok in E as (? & _ & ?)|].
    rewrite (find_snoc_new _ _ _ Hf) by (simpl; by rewrite String.eqb_refl, Z.eqb_refl).
    unfold getProviderRequestAttempt, find_attempt. simpl.
    pose proof (find_fresh at_id _ _ Hid) as Hff. simpl in Hff. rewrite Hff. simpl.
    rewrite String.eqb_refl, equalOptionalString_refl. simpl. eauto.
Qed.

Lemma plan_validated input :
  validatePlanProviderLogicalRequest map_order input = None -> is_Some (Plan_PricingRevisionID input).
Proof.
  unfold validatePlanProviderLogicalRequest.
  intros (_ & (_ & (_ & (H & _)%err_seq_None)%err_seq_None)%err_seq_None)%err_seq_None.
  by destruct (Plan_PricingRevisionID input).
Qed.

Lemma scan_request_typed r run :
  rq_run_id r = run ->
  match run with Some run => is_ok (parseTypedID runIDKind run) = true | None => True end ->
  scan_request r = Ok (scanned_request r run).
Proof.
  unfold scan_request. intros -> H. destruct run as [run|]; [|done].
  destruct (parseTypedID runIDKind run) as [|run'] eqn:Hp; [done|].
  apply parseTypedID_Ok in Hp as [-> _]. done.
Qed.

Lemma plan_again now now' input s s' :
  typed (PlanRequest input) ->
  outcome_of (plan_request map_order now input s) = (true, s') ->
  outcome_of (plan_request map_order now' input s') = (true, s').
Proof.
  intros Ht H. repeating H.
  - rewrite E. simpl. rewrite E1. eauto.
  - apply writing_Ok, insert_request_Ok in E2 as (-> & Hid & _).
    unfold findProviderLogicalRequestByIdempotency in *. simpl.
    destruct (find _ (requests s)) eqn:Hf; [by apply bind_Ok in E as (? & _ & ?)|].
    rewrite (find_snoc_new _ _ _ Hf) by (simpl; by rewrite !String.eqb_refl).
    unfold getProviderLogicalRequest, find_request. simpl.
    pose proof (find_fresh rq_id _ _ Hid) as Hff. simpl in Hff. rewrite Hff.
    rewrite (scan_request_typed _ (Plan_RunID input)) by done. simpl.
    match goal with |- context [negb ?b] => assert (b = true) as ->; [|simpl; eauto] end.
    apply plan_validated in Hval as [pricing Hp].
    unfold providerLogicalRequestMatches; simpl. rewrite Hp. simpl.
    by rewrite !String.eqb_refl, !equalOptionalString_refl.
Qed.

(** What a changed row reads as. *)
Lemma request_changed s id r change revision state b s' :
  (forall r, rq_id (change r) = rq_id r) -> find_request s id = Some r ->
  rq_revision r = revision -> rq_state r = state ->
  update_request s id revision state change = Ok (b, s') ->
  find_request s' id = Some (change r) /\ IsInt64 (rq_revision (change r)) = true /\
  0 <= rq_revision (change r).
Proof.
  intros Hid Hf Hrev Hst (-> & _ & Hch)%update_request_Ok.
  pose proof (find_key rq_id _ _ _ Hf) as [Hr Hk].
  assert (hits_request id revision state r = true) as Hh.
  { unfold hits_request. by rewrite Hk, Hrev, Hst, !String.eqb_refl, Z.eqb_refl. }
  destruct (Hch r Hr Hh) as (_ & Hi & Hc). split_and!; [|done|unfold request_checks in Hc; to_prop; destruct_and?; lia].
  unfold find_request in *. simpl. rewrite (find_map_key rq_id), Hf.
  - simpl. unfold changing. by rewrite Hh.
  - intros q. unfold changing. by destruct (hits_request _ _ _ q).
Qed.

Lemma attempt_changed s id r change revision state b s' :
  (forall r, at_id (change r) = at_id r) -> find_attempt s id = Some r ->
  at_revision r = revision -> at_state r = state ->
  update_attempt json_valid s id revision state change = Ok (b, s') ->
  find_attempt s' id = Some (change r) /\ IsInt64 (at_revision (change r)) = true /\
  0 <= at_revision (change r).
Proof.
  intros Hid Hf Hrev Hst (-> & _ & Hch)%update_attempt_Ok.
  pose proof (find_key at_id _ _ _ Hf) as [Hr Hk].
  assert (hits_attempt id revision state r = true) as Hh.
  { unfold hits_attempt. by rewrite Hk, Hrev, Hst, !String.eqb_refl, Z.eqb_refl. }
  destruct (Hch r Hr Hh) as (_ & Hi & Hc). split_and!; [|done|unfold attempt_checks in Hc; to_prop; destruct_and?; lia].
  unfold find_attempt in *. simpl. rewrite (find_map_key at_id), Hf.
  - simpl. unfold changing. by rewrite Hh.
  - intros q. unfold changing. by destruct (hits_attempt _ _ _ q).
Qed.

Lemma scan_request_Ok r request : scan_request r = Ok request ->
  Logical_State request = rq_state r /\ Logical_Revision request = rq_revision r /\
  Logical_AccountingStatus request = rq_accounting_status r.
Proof.
  unfold scan_request. destruct (rq_run_id r); [|by intros [= <-]].
  destruct (parseTypedID _ _); [done|]. by intros [= <-].
Qed.

Lemma move_request_again now now' input s s' :
  outcome_of (transition_request now input s) = (true, s') ->
  outcome_of (transition_request now' input s') = (true, s').
Proof.
  intros H. repeating H.
  - rewrite E. simpl. rewrite E0. eauto.
  - rewrite E5. simpl. destruct a1 as [b s1]. apply writing_Ok in E3. simpl in *.
    unfold getProviderLogicalRequest in E, E5. destruct (find_request s _) as [r|] eqn:Hf; [|done].
    apply scan_request_Ok in E as (Hst & Hrev & _).
    apply negb_false_iff, Z.eqb_eq in E1. apply negb_false_iff, String.eqb_eq in E2.
    eapply request_changed in E3 as (Hf' & Hi & H0); [|done|exact Hf|congruence..].
    rewrite Hf' in E5. apply scan_request_Ok in E5 as (Hst' & Hrev' & Hac). simpl in *.
    rewrite Hst', Hac, Hrev', !String.eqb_refl. simpl.
    rewrite <- E1, Hrev, (add_u64_one _ H0 Hi), Z.eqb_refl. eauto.
Qed.

Lemma first_response_again current input first :
  first_response current input = Ok first ->
  is_zero_time (Transition_FirstResponseAt input) ||
  recorded_at (repositoryTime <$> first) (Transition_FirstResponseAt input) = true.
Proof.
  unfold first_response. destruct (is_zero_time (Transition_FirstResponseAt input)) eqn:Hz; [done|].
  simpl. destruct (Attempt_FirstResponseAt current) as [t|].
  - intros H. if_cases H. apply negb_false_iff, Z.eqb_eq in Hif. injection H as <-. simpl.
    rewrite UnixMicro_repositoryTime. by apply Z.eqb_eq.
  - intros H. if_cases H. injection H as <-. apply recorded_again.
Qed.

(** The transitions that are found again: a stream that starts without a time of
    its own is compared with the first response, which may be an earlier one. *)
Definition repeatable (s : store) (o : operation) : Prop :=
  match o with
  | SetPrice input => CreatePrice_EffectiveAt input mod 1000 = 0
  | MoveAttempt input =>
      Transition_To input = ProviderRequestAttemptStreaming ->
      is_zero_time (Transition_FirstResponseAt input) = true ->
      forall a, find_attempt s (Transition_ID input) = Some a -> at_first_response_at a = None
  | _ => True
  end.

Lemma started_from_prepared from :
  providerAttemptTransitionAllowed from ProviderRequestAttemptStarted = true -> from = "prepared".
Proof.
  unfold providerAttemptTransitionAllowed. destruct (String.eqb_spec from ProviderRequestAttemptPrepared); [done|].
  by destruct (from =? ProviderRequestAttemptStarted), (from =? ProviderRequestAttemptStreaming).
Qed.

(** An attempt that was moved is as the transition asks. *)
Lemma moved_attempt_matches r input first completed micros :
  let current := scanned_attempt r in
  prepared_ok r -> providerAttemptTransitionAllowed (at_state r) (Transition_To input) = true ->
  (Transition_To input = ProviderRequestAttemptStreaming ->
   is_zero_time (Transition_FirstResponseAt input) = true ->
   at_first_response_at r = None) ->
  first_response current input = Ok first -> completion current input = Ok completed ->
  providerAttemptTransitionMatches
    (scanned_attempt (moved_attempt input (start_time current input) first completed micros r)) input
  = true.
Proof.
  intros current Hprep Hall Hstream Hf Hc. unfold providerAttemptTransitionMatches. simpl.
  rewrite !String.eqb_refl, eqb_reflx, equalOptionalString_refl, sameTokenCount_refl. simpl.
  rewrite (first_response_again current input first Hf).
  assert (forall new old : option string, bool_decide (new = None) || bool_decide (coalesce new old = new)
    = true) as Hco.
  { intros [new|] old; simpl; [by apply bool_decide_eq_true|done]. }
  unfold equalOptionalString. rewrite !Hco, !andb_true_r.
  assert (negb (Transition_PartialStreamObserved input) ||
    (at_partial_stream r || Transition_PartialStreamObserved input) = true) as ->.
  { by destruct (at_partial_stream r), (Transition_PartialStreamObserved input). }
  simpl. destruct (String.eqb_spec (Transition_To input) ProviderRequestAttemptStarted) as [Hto|].
  { rewrite Hto in Hall. apply started_from_prepared, Hprep in Hall as (_ & Hs & _).
    unfold start_time. simpl. rewrite Hs, Hto. simpl. apply recorded_again. }
  destruct (String.eqb_spec (Transition_To input) ProviderRequestAttemptStreaming) as [Hto|]; simpl.
  - destruct (is_zero_time (Transition_FirstResponseAt input)) eqn:H0; [|by rewrite Hto].
    unfold first_response in Hf. simpl in Hf. rewrite (Hstream Hto eq_refl), H0, Hto in Hf. simpl in Hf.
    injection Hf as <-. apply recorded_again.
  - unfold completion in Hc. destruct (providerAttemptTerminal _); [|done]. if_cases Hc.
    injection Hc as <-. apply recorded_again.
Qed.

Lemma move_attempt_again now now' input s s' :
  well_formed s -> repeatable s (MoveAttempt input) ->
  outcome_of (transition_attempt json_valid json_Valid now input s) = (true, s') ->
  outcome_of (transition_attempt json_valid json_Valid now' input s') = (true, s').
Proof.
  intros Hwf Hrep H. repeating H.
  - rewrite E. simpl. rewrite E0. eauto.
  - rewrite E8. simpl. destruct a3 as [b s1]. apply writing_Ok in E6. simpl in *.
    unfold getProviderRequestAttempt in E, E8. destruct (find_attempt s _) as [r|] eqn:Hf; [|done].
    injection E as <-. simpl in E1, E2.
    apply negb_false_iff, Z.eqb_eq in E1. apply negb_false_iff, String.eqb_eq in E2.
    eapply attempt_changed in E6 as (Hf' & Hi & H0); [|done|exact Hf|done..].
    rewrite Hf' in E8. injection E8 as <-. simpl in Hi, H0.
    rewrite moved_attempt_matches; try done.
    + simpl. rewrite <- E1, (add_u64_one _ H0 Hi), Z.eqb_refl. simpl. eauto.
    + apply (find_key at_id) in Hf as [Hr _]. by apply (wf_attempts _ _ _ Hwf).
    + rewrite E2. by eapply transition_validated.
    + intros H1 H2. by apply Hrep.
Qed.

Lemma abort_again now now' input s s' :
  outcome_of (abort_prepared json_valid now input s) = (true, s') ->
  outcome_of (abort_prepared json_valid now' input s') = (true, s').
Proof.
  intros H. repeating H.
  - rewrite E. simpl. rewrite E0. apply negb_false_iff in E1. rewrite E1. simpl. eauto.
  - rewrite E6. simpl. destruct a1 as [b s1]. apply writing_Ok in E2, E5. simpl in *.
    unfold getProviderRequestAttempt in E, E6. destruct (find_attempt s _) as [row|] eqn:Hf; [|done].
    injection E as <-. simpl in E1. apply orb_false_iff in E1 as [Hrev Hst].
    apply negb_false_iff, Z.eqb_eq in Hrev. apply negb_false_iff, String.eqb_eq in Hst.
    eapply attempt_changed in E2 as (Hf' & Hi & H0); [|done|exact Hf|done..].
    apply insert_accounting_Ok in E5 as (-> & _). unfold find_attempt in *. simpl in *.
    rewrite Hf' in E6. injection E6 as <-. simpl in *.
    rewrite <- Hrev, (add_u64_one _ H0 Hi), Z.eqb_refl, existsb_app. simpl.
    rewrite !String.eqb_refl, orb_true_r. simpl. eauto.
Qed.

(** The row of an accounting reads as its input. *)
Lemma tokenUsageEqual_refl u : tokenUsageEqual u u = true.
Proof.
  unfold tokenUsageEqual. rewrite eqb_reflx, !Z.eqb_refl. simpl. apply forallb_forall.
  intros [k n] Hin%list_elem_of_In%elem_of_map_to_list. simpl. rewrite Hin. simpl. apply Z.eqb_refl.
Qed.

(** A category that the other usage does not have reads there as 0, so a recorded
    count of 0 hides a category of the other one: usages that differ are taken
    for equal. *)
Lemma tokenUsageEqual_hides :
  let known m := {| TokenUsage_Known := true; TokenUsage_Input := 1; TokenUsage_CachedInput := 0;
    TokenUsage_CacheWrite := 0; TokenUsage_Output := 1; TokenUsage_Reasoning := 0;
    TokenUsage_ProviderSpecific := m |} in
  let recorded := known {["audio" := 0]} in
  let asked := known {["video" := 7]} in
  TokenUsage_Validate recorded = None /\ TokenUsage_Validate asked = None /\
  tokenUsageEqual recorded asked = true /\ tokenUsageEqual asked recorded = false.
Proof. by vm_compute. Qed.

Lemma unknown_usage u : TokenUsage_Validate u = None -> TokenUsage_Known u = false -> u = zero_usage false.
Proof.
  unfold TokenUsage_Validate. intros H Hk. rewrite Hk in H. simpl in H. if_cases H.
  repeat apply orb_false_iff in Hif as [Hif ?]. rewrite negb_false_iff, Z.eqb_eq in *.
  destruct u as [k i c w o r m]. simpl in *. subst. unfold zero_usage. f_equal.
  apply map_size_empty_inv. lia.
Qed.

Lemma normalized_range cost c :
  int64_range (Denominator cost) -> normalizeExactCost cost = Ok c -> Denominator c <= max_int64.
Proof.
  unfold normalizeExactCost. intros Hr H. if_cases H. to_prop. destruct Hif as [Hn Hd].
  destruct (ParseCurrencyCode _) as [|currency]; [done|]. injection H as <-. simpl. unfold_ranges.
  rewrite greatestCommonDivisor_gcd by (unfold max_int64; lia).
  assert (0 < Z.gcd (Numerator cost) (Denominator cost)) as Hg.
  { pose proof (Z.gcd_nonneg (Numerator cost) (Denominator cost)).
    destruct (decide (Z.gcd (Numerator cost) (Denominator cost) = 0)) as [H0|]; [|lia].
    apply Z.gcd_eq_0 in H0. lia. }
  etrans; [apply Z.quot_le_upper_bound; [done|]; instantiate (1 := Denominator cost); nia|]. lia.
Qed.

(** A normalized cost is normalized to itself. *)
Lemma normalized_equal cost c :
  int64_range (Denominator cost) -> normalizeExactCost cost = Ok c ->
  exactCostEqual (Some c) (Some cost) = true /\
  ParseCurrencyCode (BudgetSnapshots.Currency c) = Ok (BudgetSnapshots.Currency c).
Proof.
  intros Hr Hn. apply normalizeExactCost_Ok in Hn as Ho; [|done].
  destruct Ho as (_ & Hc & H0 & H1 & Hg). pose proof (normalized_range cost c Hr Hn) as Hm.
  assert (ParseCurrencyCode (BudgetSnapshots.Currency cost) = Ok (BudgetSnapshots.Currency cost)) as Hp.
  { unfold normalizeExactCost in Hn. if_cases Hn.
    destruct (ParseCurrencyCode _) as [|x] eqn:Hp; [done|]. unfold ParseCurrencyCode in Hp.
    if_cases Hp. by injection Hp as <-. }
  rewrite Hc. split; [|done]. unfold exactCostEqual. rewrite Hn. unfold normalizeExactCost.
  destruct (Z.ltb_spec (Numerator c) 0); [lia|]. destruct (Z.leb_spec (Denominator c) 0); [lia|].
  rewrite Hc, Hp. simpl. rewrite greatestCommonDivisor_gcd by lia.
  rewrite Hg, !Z.quot_1_r, <- Hc. apply bool_decide_eq_true. by destruct c.
Qed.

Lemma account_validated input :
  validateProviderAttemptAccounting json_Valid input = None ->
  TokenUsage_Validate (Accounting_Usage input) = None.
Proof.
  unfold validateProviderAttemptAccounting.
  intros (_ & (_ & (_ & (H & _)%err_seq_None)%err_seq_None)%err_seq_None)%err_seq_None.
  by destruct (TokenUsage_Validate _).
Qed.

Lemma scanned_usage_columns input cost micros :
  typed (Account input) -> TokenUsage_Validate (Accounting_Usage input) = None ->
  scanned_usage unmarshal_counts (accounting_columns marshal_counts input cost micros) =
    Ok (Accounting_Usage input).
Proof.
  intros [Hcounts _] Hv. unfold scanned_usage. simpl.
  destruct (TokenUsage_Known (Accounting_Usage input)) eqn:Hk; simpl.
  - destruct (Accounting_Usage input) as [k i c w o x m]. simpl in *. subst k.
    case_bool_decide as Hm; simpl; [by rewrite Hm|]. by rewrite unmarshal_marshal.
  - by rewrite (unknown_usage _ Hv Hk).
Qed.

Lemma scanned_cost_columns input cost micros :
  typed (Account input) -> normalize_actual (Accounting_Cost input) = Ok cost ->
  scanned_cost (accounting_columns marshal_counts input cost micros) = Ok cost /\
  exactCostEqual cost (Accounting_Cost input) = true.
Proof.
  intros [_ Ht] Hn. unfold normalize_actual in Hn. unfold scanned_cost. simpl.
  destruct (Accounting_Cost input) as [given|]; [|by injection Hn as <-].
  apply bind_Ok in Hn as (c & Hn & [= <-]). destruct (normalized_equal given c (proj2 Ht) Hn) as [He Hp].
  simpl. rewrite Hp. split; [by destruct c|done].
Qed.

Lemma account_again now now' input s s' :
  typed (Account input) ->
  outcome_of (append_accounting json_valid json_Valid marshal_counts unmarshal_counts count_order
                now input s) = (true, s') ->
  outcome_of (append_accounting json_valid json_Valid marshal_counts unmarshal_counts count_order
                now' input s') = (true, s').
Proof.
  intros Ht H. repeating H.
  - rewrite E. simpl. rewrite E1. eauto.
  - apply writing_Ok, insert_accounting_Ok in E4 as (-> & _ & _ & _ & Hid & _).
    apply bind_Ok in E3 as (cost & Hn & [= <-]).
    pose proof (find_fresh ac_id _ _ Hid) as Hff. simpl in Hff.
    unfold findProviderAttemptAccountingByID, find_accounting. simpl. rewrite Hff.
    rewrite scanned_usage_columns by (done || by apply account_validated).
    destruct (scanned_cost_columns input cost (UnixMicro now) Ht Hn) as [-> Hcost]. simpl.
    match goal with |- context [negb ?b] => assert (b = true) as ->; [|simpl; eauto] end.
    unfold providerAttemptAccountingMatches; simpl.
    rewrite !String.eqb_refl, Z.eqb_refl, tokenUsageEqual_refl, equalOptionalString_refl, Hcost,
      eqb_reflx. simpl. rewrite !andb_true_r.
    destruct (Accounting_DiscrepancyRedacted input); apply equalOptionalString_refl.
Qed.

(** A price that was set reads as its input. *)
Lemma price_read s input micros s1 s2 s3 :
  well_formed s -> find_pricing s (CreatePrice_ID input) = None ->
  insert_pricing s (priced_row input micros) = Ok s1 ->
  insert_components s1 (CreatePrice_ID input)
    (normalizedPriceComponents (CreatePrice_Components input)) = Ok s2 ->
  insert_seal s2
    {| se_pricing_id := CreatePrice_ID input;
       se_component_count := Z.of_nat (length (normalizedPriceComponents (CreatePrice_Components input)));
       se_sealed_at := micros |} = Ok s3 ->
  findProviderPricingRevision s3 (CreatePrice_ID input) =
    Ok (Some {| PriceRevision_ID := CreatePrice_ID input;
       PriceRevision_ProviderID := CreatePrice_ProviderID input;
       PriceRevision_ModelIdentifier := CreatePrice_ModelIdentifier input;
       PriceRevision_ModelVersion := CreatePrice_ModelVersion input;
       PriceRevision_PricingKnown := CreatePrice_PricingKnown input;
       PriceRevision_Currency := CreatePrice_Currency input;
       PriceRevision_SourceRedacted := CreatePrice_SourceRedacted input;
       PriceRevision_EffectiveAt := repositoryTime (UnixMicro (CreatePrice_EffectiveAt input));
       PriceRevision_CreatedAt := repositoryTime micros;
       PriceRevision_Components := normalizedPriceComponents (CreatePrice_Components input) |}) /\
  is_sealed s3 (CreatePrice_ID input)
    (Z.of_nat (length (normalizedPriceComponents (CreatePrice_Components input)))) = true.
Proof.
  intros Hwf Hnone Hp Hc Hs. set (L := normalizedPriceComponents _) in *. set (id := CreatePrice_ID input) in *.
  apply insert_pricing_Ok in Hp as (-> & Hpc & Hid). apply insert_components_Ok in Hc as (-> & Hnd & Hall).
  apply insert_seal_Ok in Hs as (-> & _). simpl in Hnd. specialize (Hnd (wf_component_keys _ _ _ Hwf)).
  assert (components_of s id = []) as Hempty.
  { unfold components_of. apply filter_nil. intros c Hin.
    destruct (wf_components _ _ _ Hwf c Hin) as [_ [p Hf]]. apply String.eqb_neq. congruence. }
  assert (List.filter (fun e => (se_pricing_id e =? id) && (se_component_count e =? Z.of_nat (length L))%Z)
            (seals s) = []) as Hseals.
  { apply filter_nil. intros e Hin. destruct (wf_seals _ _ _ Hwf e Hin) as [p Hf].
    apply andb_false_iff. left. apply String.eqb_neq. congruence. }
  split.
  - unfold findProviderPricingRevision, find_pricing. simpl.
    pose proof (find_fresh pr_id _ _ Hid) as Hff. simpl in Hff. fold id in Hff. rewrite Hff. simpl.
    assert (match CreatePrice_Currency input with
            | None => Ok None
            | Some raw => match ParseCurrencyCode raw with
                          | Err e => Err (value_error e)
                          | Ok parsed => Ok (Some parsed)
                          end
            end = Ok (CreatePrice_Currency input)) as ->.
    { unfold pricing_checks in Hpc. to_prop. destruct_and!. simpl in *.
      destruct (CreatePrice_Currency input); [|done]. by rewrite glob_currency_parses. }
    simpl. do 3 f_equal. unfold components_of. simpl. rewrite components_of_app, Hempty,
      filter_component_rows, String.eqb_refl. simpl. unfold L.
    rewrite sorted_components; [|done|].
    + rewrite map_map. rewrite <- (map_id (normalizedPriceComponents _)) at 2.
      apply map_ext. intros c. apply scanned_component_row.
    + rewrite map_app in Hnd. by apply NoDup_app in Hnd as (_ & _ & Hnd).
  - unfold is_sealed. simpl. rewrite List.filter_app, Hseals. simpl.
    by rewrite String.eqb_refl, Z.eqb_refl.
Qed.

Lemma set_price_again now now' input s s' :
  well_formed s -> repeatable s (SetPrice input) ->
  outcome_of (create_pricing now input s) = (true, s') ->
  outcome_of (create_pricing now' input s') = (true, s').
Proof.
  intros Hwf Hrep H. repeating H.
  - rewrite E. simpl. rewrite E1, E2. eauto.
  - apply writing_Ok in E1, E3. apply findProviderPricingRevision_None in E.
    destruct (price_read s input _ _ _ _ Hwf E E1 E2 E3) as [Hf Hs]. rewrite Hf. simpl. rewrite Hs.
    match goal with |- context [negb ?b] => assert (b = true) as ->; [|simpl; eauto] end.
    unfold providerPricingMatches. simpl. simpl in Hrep.
    rewrite !String.eqb_refl, eqb_reflx, !equalOptionalString_refl, repositoryTime_UnixMicro, Z.eqb_refl
      by done. simpl. by apply bool_decide_eq_true.
Qed.

(** With a time that is no whole number of microseconds, it is not found again. *)
Lemma set_price_refused now now' input s pricing s' :
  well_formed s -> find_pricing s (CreatePrice_ID input) = None ->
  CreatePrice_EffectiveAt input mod 1000 <> 0 -> create_pricing now input s = (Ok pricing, s') ->
  create_pricing now' input s' =
    (Err (conflict ErrConflict "create provider pricing revision"
            "pricing revision identity was reused with different values"), s').
Proof.
  intros Hwf Hnone Hmod H. unfold create_pricing, validated, transact in *.
  destruct (validateProviderPricingRevision input); [done|].
  assert (findProviderPricingRevision s (CreatePrice_ID input) = Ok None) as Hn.
  { unfold findProviderPricingRevision. by rewrite Hnone. }
  rewrite Hn in H. simpl in H.
  match type of H with match ?x with _ => _ end = _ => destruct x as [e|[a s3]] eqn:E end; [done|].
  injection H as <- <-. open_steps E. subst. apply writing_Ok in E0, E2.
  destruct (price_read s input _ _ _ _ Hwf Hnone E0 E1 E2) as [Hf _]. rewrite Hf. simpl.
  match goal with |- context [negb ?b] => assert (b = false) as ->; [|done] end.
  unfold providerPricingMatches. simpl. apply andb_false_iff. left. apply andb_false_iff. right.
  apply Z.eqb_neq. intros He. apply Hmod. rewrite <- He. unfold repositoryTime. by apply Z_mod_mult.
Qed.

(** ** Any operation *)

Lemma perform_again now now' o s s' :
  well_formed s -> typed o -> repeatable s o ->
  perform json_valid json_Valid map_order marshal_counts unmarshal_counts count_order now o s =
    (true, s') ->
  perform json_valid json_Valid map_order marshal_counts unmarshal_counts count_order now' o s' =
    (true, s').
Proof.
  intros Hwf Ht Hrep. destruct o; simpl; intros H.
  - by eapply configure_again.
  - by eapply set_price_again.
  - by eapply plan_again.
  - by eapply move_request_again.
  - by eapply prepare_again.
  - by eapply move_attempt_again.
  - by eapply abort_again.
  - by eapply ensure_again.
  - by eapply account_again.
  - by eapply witness_again.
Qed.

End Repeat.
