(* ===== verification/ProviderStoreSteps.v ===== *)
(** * Reachable tables of provider requests

    How rows progress from one operation to the next, what later tables keep of
    earlier ones, what the sum over a request adds up in tables that operations
    have made, and that what an operation appended is found at any later time. *)

From Stdlib Require Import Ascii String QArith.
From S2P Require Import Prelude GoText GoErrors PolicyValues Identity Pricing PricingFacts.
From S2P Require Import BudgetSchema BudgetSnapshots BudgetLedger BudgetFacts BudgetInvariant.
From S2P Require Import ProviderAttempts ProviderSchema ProviderStore ProviderStoreFacts.
From S2P Require Import ProviderPriceFacts ProviderStoreInvariant ProviderSummaryFacts ProviderRepeat.
Open Scope string_scope.
Open Scope list_scope.
Open Scope go_scope.

(** ** Progress of rows *)

(** One transition of an attempt. *)
Record attempt_step (a a' : attempt_row) : Prop := {
  step_id : at_id a' = at_id a;
  step_request : at_request_id a' = at_request_id a;
  step_number : at_number a' = at_number a;
  step_key : at_idempotency_key a' = at_idempotency_key a;
  step_created : at_created_at a' = at_created_at a;
  step_allowed : providerAttemptTransitionAllowed (at_state a) (at_state a') = true;
  step_effect : providerEffectStatusRank (at_effect_status a) <=
                providerEffectStatusRank (at_effect_status a');
  step_partial : at_partial_stream a = true -> at_partial_stream a' = true;
  step_started t : at_started_at a = Some t -> at_started_at a' = Some t;
  step_first t : at_first_response_at a = Some t -> at_first_response_at a' = Some t;
  step_revision : at_revision a' = at_revision a + 1;
}.

(** One transition of a logical request. *)
Record request_step (q q' : request_row) : Prop := {
  rstep_id : rq_id q' = rq_id q;
  rstep_task : rq_task_id q' = rq_task_id q;
  rstep_run : rq_run_id q' = rq_run_id q;
  rstep_pricing : rq_pricing_id q' = rq_pricing_id q;
  rstep_sha256 : rq_sha256 q' = rq_sha256 q;
  rstep_allowed : providerLogicalTransitionAllowed (rq_state q) (rq_state q') = true;
  rstep_started t : rq_started_at q = Some t -> rq_started_at q' = Some t;
  rstep_revision : rq_revision q' = rq_revision q + 1;
}.

Lemma terminal_attempt_stays a a' :
  providerAttemptTerminal (at_state a) = true -> rtc attempt_step a a' -> a' = a.
Proof.
  intros Ht H. inversion H as [|b c d Hs _]; subst; [done|]. apply step_allowed in Hs.
  unfold providerAttemptTransitionAllowed in Hs.
  unfold providerAttemptTerminal, one_of in Ht.
  apply existsb_exists in Ht as (k & Hk%list_elem_of_In & He%String.eqb_eq). rewrite He in Hs.
  rewrite !elem_of_cons, elem_of_nil in Hk. destruct_or! Hk; try done; subst k; vm_compute in Hs; done.
Qed.

Lemma terminal_request_stays q q' :
  providerLogicalTerminal (rq_state q) = true -> rtc request_step q q' -> q' = q.
Proof.
  intros Ht H. inversion H as [|b c d Hs _]; subst; [done|]. apply rstep_allowed in Hs.
  unfold providerLogicalTransitionAllowed in Hs.
  unfold providerLogicalTerminal, one_of in Ht.
  apply existsb_exists in Ht as (k & Hk%list_elem_of_In & He%String.eqb_eq). rewrite He in Hs.
  rewrite !elem_of_cons, elem_of_nil in Hk. destruct_or! Hk; try done; subst k; vm_compute in Hs; done.
Qed.

(** What later tables keep of earlier ones. *)
Record advances (s s' : store) : Prop := {
  adv_attempts a : a ∈ attempts s -> exists a', a' ∈ attempts s' /\ rtc attempt_step a a';
  adv_requests q : q ∈ requests s -> exists q', q' ∈ requests s' /\ rtc request_step q q';
  adv_accounting : accounting s `prefix_of` accounting s';
  adv_evidence : evidence s `prefix_of` evidence s';
  adv_configurations : configurations s `prefix_of` configurations s';
  adv_pricing id p : find_pricing s id = Some p ->
    find_pricing s' id = Some p /\ components_of s' id = components_of s id;
}.

#[export] Instance advances_preorder : PreOrder advances.
Proof.
  split.
  - intros s. constructor; eauto using rtc_refl.
  - intros s1 s2 s3 [] []. constructor.
    + intros a (a2 & Ha & Hs)%adv_attempts0. apply adv_attempts1 in Ha as (a3 & Ha & Hs').
      exists a3. split; [done|]. by etrans.
    + intros a (a2 & Ha & Hs)%adv_requests0. apply adv_requests1 in Ha as (a3 & Ha & Hs').
      exists a3. split; [done|]. by etrans.
    + by etrans.
    + by etrans.
    + by etrans.
    + intros id p (Hp & Hc)%adv_pricing0. apply adv_pricing1 in Hp as [Hp Hc']. by rewrite Hc', Hc.
Qed.

Section Store.
Context (json_valid json_Valid : string -> bool).
Context (map_order : list (string * string * Z) -> list (string * string * Z)).
Context (marshal_counts : gmap string Z -> string).
Context (unmarshal_counts : string -> option (gmap string Z)).
Context (count_order : gmap string Z -> list (string * Z)).

Abbreviation the_effect := (effect json_valid json_Valid marshal_counts count_order).
Abbreviation the_step := (store_step json_valid json_Valid map_order marshal_counts unmarshal_counts
                            count_order).
Abbreviation well_formed := (wf_store json_valid unmarshal_counts).

Lemma advances_tables s s' :
  keeps s s' -> (forall a, a ∈ attempts s -> a ∈ attempts s') ->
  (forall q, q ∈ requests s -> q ∈ requests s') ->
  accounting s `prefix_of` accounting s' -> evidence s `prefix_of` evidence s' ->
  configurations s `prefix_of` configurations s' -> advances s s'.
Proof. intros H ? ? ? ? ?. constructor; eauto using rtc_refl. apply (keeps_pricing s s' H). Qed.

(** A changed row is the one that was read. *)
Lemma hit_is_current s r id revision state current :
  well_formed s -> r ∈ attempts s -> hits_attempt id revision state r = true ->
  getProviderRequestAttempt s id = Ok current ->
  current = scanned_attempt r /\ at_revision r = revision /\ at_state r = state.
Proof.
  intros H Hr Hh Hg. unfold hits_attempt in Hh. to_prop. destruct Hh as [[Hid Hrev] Hst].
  unfold getProviderRequestAttempt in Hg. rewrite <- Hid in Hg.
  destruct (attempt_request json_valid unmarshal_counts s r H Hr) as [Hf _]. rewrite Hf in Hg.
  by injection Hg as <-.
Qed.

Lemma hit_is_current_request s r id revision state current :
  well_formed s -> r ∈ requests s -> hits_request id revision state r = true ->
  getProviderLogicalRequest s id = Ok current ->
  Logical_StartedAt current = repositoryTime <$> rq_started_at r /\ rq_state r = state.
Proof.
  intros H Hr Hh Hg. unfold hits_request in Hh. to_prop. destruct Hh as [[Hid Hrev] Hst].
  unfold getProviderLogicalRequest in Hg. rewrite <- Hid in Hg.
  unfold find_request in Hg. rewrite (find_unique rq_id _ r) in Hg; [|apply H|done..].
  unfold scan_request in Hg. destruct (rq_run_id r); [|by injection Hg as <-].
  destruct (parseTypedID _ _); [done|]. by injection Hg as <-.
Qed.

Lemma changed_row_kept {A} (step : A -> A -> Prop) hit change (l : list A) :
  (forall r, r ∈ l -> hit r = true -> step r (change r)) ->
  forall r, r ∈ l -> exists r', r' ∈ map (changing hit change) l /\ rtc step r r'.
Proof.
  intros H r Hr. exists (changing hit change r). split.
  - by apply list_elem_of_fmap_2.
  - unfold changing. destruct (hit r) eqn:Hh; [|done]. apply rtc_once. auto.
Qed.

Lemma first_response_kept current input first t :
  first_response current input = Ok first -> Attempt_FirstResponseAt current = Some (repositoryTime t) ->
  first = Some t.
Proof.
  unfold first_response. intros H Hc. rewrite Hc in H. if_cases H. injection H as <-.
  by rewrite UnixMicro_repositoryTime.
Qed.

Lemma attempt_moved_step s input current first completed micros b s' :
  well_formed s ->
  providerAttemptTransitionAllowed (Transition_From input) (Transition_To input) = true ->
  getProviderRequestAttempt s (Transition_ID input) = Ok current ->
  providerEffectStatusRank (Attempt_EffectStatus current) <=
    providerEffectStatusRank (Transition_EffectStatus input) ->
  first_response current input = Ok first ->
  update_attempt json_valid s (Transition_ID input) (Transition_ExpectedRevision input)
    (Transition_From input) (moved_attempt input (start_time current input) first completed micros) =
    Ok (b, s') ->
  forall a, a ∈ attempts s -> exists a', a' ∈ attempts s' /\ rtc attempt_step a a'.
Proof.
  intros H Hall Hg Hrank Hf (-> & _ & _)%update_attempt_Ok. apply changed_row_kept. intros r Hr Hh.
  destruct (hit_is_current _ _ _ _ _ _ H Hr Hh Hg) as (-> & Hrev & Hst). constructor; try done; simpl.
  - by rewrite Hst.
  - intros ->. done.
  - intros t Ht. unfold start_time. simpl. rewrite Ht. simpl. by rewrite UnixMicro_repositoryTime.
  - intros t Ht. eapply first_response_kept; [done|]. simpl. by rewrite Ht.
Qed.

Lemma attempt_aborted_step s id revision micros b s' :
  well_formed s ->
  update_attempt json_valid s id revision "prepared" (aborted_attempt micros) = Ok (b, s') ->
  forall a, a ∈ attempts s -> exists a', a' ∈ attempts s' /\ rtc attempt_step a a'.
Proof.
  intros H (-> & _ & _)%update_attempt_Ok. apply changed_row_kept. intros r Hr Hh.
  unfold hits_attempt in Hh. to_prop. destruct Hh as [_ Hst].
  destruct (wf_attempts _ _ _ H r Hr) as (_ & _ & Hok & _). destruct (Hok Hst) as (He & Hs & Hf & _).
  constructor; try done; simpl; rewrite ?Hst, ?He; try done; intros; congruence.
Qed.

Lemma request_moved_step s input current micros b s' :
  well_formed s ->
  providerLogicalTransitionAllowed (LogicalTransition_From input) (LogicalTransition_To input) = true ->
  getProviderLogicalRequest s (LogicalTransition_ID input) = Ok current ->
  update_request s (LogicalTransition_ID input) (LogicalTransition_ExpectedRevision input)
    (LogicalTransition_From input) (moved_request input current micros) = Ok (b, s') ->
  forall q, q ∈ requests s -> exists q', q' ∈ requests s' /\ rtc request_step q q'.
Proof.
  intros H Hall Hg (-> & _ & _)%update_request_Ok. apply changed_row_kept. intros r Hr Hh.
  destruct (hit_is_current_request _ _ _ _ _ _ H Hr Hh Hg) as (Hs & Hst).
  constructor; try done; simpl.
  - by rewrite Hst.
  - intros t Ht. rewrite Hs, Ht. simpl. by rewrite UnixMicro_repositoryTime.
Qed.

Lemma effect_advances s s' : the_effect s s' -> well_formed s -> advances s s'.
Proof.
  intros He H. pose proof (effect_keeps _ _ _ _ _ _ He) as Hk. destruct He.
  - apply insert_configuration_Ok in H0 as ->. apply advances_tables; try done. by eexists.
  - apply insert_pricing_Ok in H3 as (-> & _). apply insert_components_Ok in H4 as (-> & _).
    apply insert_seal_Ok in H5 as (-> & _). by apply advances_tables.
  - apply insert_request_Ok in H1 as (-> & _). apply advances_tables; try done.
    intros q Hq. simpl. apply elem_of_app. by left.
  - constructor; try done.
    + apply update_request_Ok in H2 as (-> & _ & _). simpl. eauto using rtc_refl.
    + by eapply request_moved_step.
    + by apply update_request_Ok in H2 as (-> & _ & _).
    + by apply update_request_Ok in H2 as (-> & _ & _).
    + by apply update_request_Ok in H2 as (-> & _ & _).
    + apply (keeps_pricing _ _ Hk).
  - apply insert_attempt_Ok in H0 as (-> & _). apply advances_tables; try done.
    intros q Hq. simpl. apply elem_of_app. by left.
  - constructor; try done.
    + by eapply attempt_moved_step.
    + apply update_attempt_Ok in H4 as (-> & _ & _). simpl. eauto using rtc_refl.
    + by apply update_attempt_Ok in H4 as (-> & _ & _).
    + by apply update_attempt_Ok in H4 as (-> & _ & _).
    + by apply update_attempt_Ok in H4 as (-> & _ & _).
    + apply (keeps_pricing _ _ Hk).
  - apply insert_accounting_Ok in H3 as (-> & _).
    assert (forall a, a ∈ attempts s -> exists a', a' ∈ attempts s1 /\ rtc attempt_step a a')
      by by eapply attempt_aborted_step.
    apply update_attempt_Ok in H0 as (-> & _ & _).
    constructor; [done|simpl; eauto using rtc_refl|by eexists|done..|apply (keeps_pricing _ _ Hk)].
  - apply insert_accounting_Ok in H0 as (-> & _). apply advances_tables; try done. by eexists.
  - apply insert_accounting_Ok in H5 as (-> & _). apply advances_tables; try done. by eexists.
  - apply insert_evidence_Ok in H0 as ->. apply advances_tables; try done. by eexists.
Qed.

(** ** Reachable tables *)

(** The JSON of a map of counts is read back, and is not empty. *)
Hypothesis unmarshal_marshal : forall m, map_Forall (fun _ count => uint64_range count) m ->
  unmarshal_counts (marshal_counts m) = Some m.
Hypothesis marshal_nonempty : forall m, marshal_counts m <> "".
(** Ranging over a map meets each of its entries once. *)
Hypothesis count_order_perm : forall m, count_order m ≡ₚ map_to_list m.

(** From empty tables, by any operations at any times. *)
Definition reachable (s : store) : Prop :=
  exists providers tasks runs, rtc the_step (empty_store providers tasks runs) s.

Lemma step_wf s s' : the_step s s' -> well_formed s -> well_formed s' /\ advances s s'.
Proof.
  intros (now & o & Ht & ->) H. destruct (perform _ _ _ _ _ _ now o s) as [b s'] eqn:Hp. simpl.
  destruct (perform_effect _ _ _ _ _ _ now o s b s' Ht Hp) as [->|[_ He]]; [done|].
  split; [by eapply effect_wf|by eapply effect_advances].
Qed.

Lemma steps_wf s s' : rtc the_step s s' -> well_formed s -> well_formed s' /\ advances s s'.
Proof.
  induction 1 as [s|s1 s2 s3 Hs _ IH]; intros H; [done|].
  destruct (step_wf _ _ Hs H) as [H2 Ha]. destruct (IH H2) as [H3 Ha']. split; [done|by etrans].
Qed.

Lemma reachable_wf s : reachable s -> well_formed s.
Proof. intros (p & t & r & H). by apply (steps_wf _ _ H), empty_store_wf. Qed.

(** The rows of a request have the currency of its price. *)
Lemma account_ok s id q a :
  well_formed s -> find_request s id = Some q -> a ∈ attempts_of s id ->
  exists p, find_pricing s (rq_pricing_id q) = Some p /\
    row_ok unmarshal_counts (default "" (pr_currency p)) (account_of s a) /\
    (cost_is_known (account_of s a) = true -> pr_currency p <> None) /\
    (usage_is_known (account_of s a) && cost_is_known (account_of s a) = true ->
     (known_cost (account_of s a) ==
        usage_cost (components_of s (rq_pricing_id q)) (row_usage unmarshal_counts (account_of s a)))%Q).
Proof.
  intros H Hq Ha%elem_of_attempts_of. destruct Ha as [Ha Hid].
  pose proof (find_key rq_id _ _ _ Hq) as [Hqin _].
  destruct (wf_request_pricing _ _ _ H q Hqin) as [p Hp]. exists p. split; [done|].
  destruct (account_of s a) as [r|] eqn:Hacc; [|split_and!; done].
  destruct (account_of_latest _ _ s a r H Hacc) as (Hr & Hra & _).
  destruct (wf_accounting _ _ _ H r Hr) as (Hch & _ & [Hb Hread]).
  assert (ac_cost_known r = true -> exists c, ac_currency r = Some c /\ ParseCurrencyCode c = Ok c) as Hcur.
  { intros Hk. unfold accounting_checks in Hch. to_prop. destruct_and!.
    destruct (ac_currency r) as [c|]; [|by rewrite Hk in *]. exists c. split; [done|].
    by apply glob_currency_parses. }
  assert (ac_cost_known r = true -> pr_currency p = ac_currency r /\
    (ac_usage_known r = true -> exists usage, scanned_usage unmarshal_counts r = Ok usage /\
       (row_cost r == usage_cost (components_of s (rq_pricing_id q)) usage)%Q)) as Hbound.
  { intros Hk. destruct (Hb Hk) as (q' & p' & Hq' & _ & Hp' & _ & Hpc & Hex).
    assert (q' = q) as ->.
    { unfold request_of_attempt in Hq'. rewrite Hra in Hq'.
      destruct (attempt_request _ _ s a H Ha) as [Hf _]. rewrite Hf in Hq'. simpl in Hq'.
      rewrite Hid, Hq in Hq'. congruence. }
    rewrite Hp in Hp'. injection Hp' as <-. split; [done|]. intros Hu.
    destruct (Hex Hu) as (u & ? & ? & ?). eauto. }
  split_and!.
  - split; [done|]. intros Hk. destruct (Hcur Hk) as (c & Hc & Hparse).
    destruct (Hbound Hk) as [-> _]. by rewrite Hc.
  - simpl. intros Hk. destruct (Hcur Hk) as (c & Hc & _). destruct (Hbound Hk) as [-> _]. by rewrite Hc.
  - simpl. intros [Hu Hk]%andb_true_iff. destruct (Hbound Hk) as [_ Hex].
    destruct (Hex Hu) as (u & -> & Hcost). by rewrite Hk.
Qed.


Lemma forallb_map {A B} (f : A -> B) (p : B -> bool) l :
  forallb p (map f l) = forallb (fun a => p (f a)) l.
Proof. induction l as [|a l IH]; simpl; [done|]. by rewrite IH. Qed.

Lemma existsb_map {A B} (f : A -> B) (p : B -> bool) l :
  existsb p (map f l) = existsb (fun a => p (f a)) l.
Proof. induction l as [|a l IH]; simpl; [done|]. by rewrite IH. Qed.

(** What the loop has added up over the attempts of a request. *)
Lemma summed_request s id q t :
  well_formed s -> find_request s id = Some q ->
  fold_result (sum_row unmarshal_counts) (accounted_attempts s id) start_summing = Ok t ->
  exists p, find_pricing s (rq_pricing_id q) = Some p /\
    summed unmarshal_counts (default "" (pr_currency p)) t (accounted_attempts s id) /\
    (sum_complete t = true -> sum_cost t <> None ->
     pr_currency p = Some (default "" (pr_currency p)) /\
     ParseCurrencyCode (default "" (pr_currency p)) = Ok (default "" (pr_currency p)) /\
     (sumQ (fun x => known_cost x.2) (accounted_attempts s id) ==
        sumQ (fun a => usage_cost (components_of s (rq_pricing_id q))
                         (row_usage unmarshal_counts (account_of s a))) (attempts_of s id))%Q).
Proof.
  intros H Hq Hf. pose proof (find_key rq_id _ _ _ Hq) as [Hqin _].
  destruct (wf_request_pricing _ _ _ H q Hqin) as [p Hp]. exists p. split; [done|].
  assert (forall a, a ∈ attempts_of s id -> row_ok unmarshal_counts (default "" (pr_currency p))
      (account_of s a) /\ (cost_is_known (account_of s a) = true -> pr_currency p <> None) /\
      (usage_is_known (account_of s a) && cost_is_known (account_of s a) = true ->
       (known_cost (account_of s a) == usage_cost (components_of s (rq_pricing_id q))
          (row_usage unmarshal_counts (account_of s a)))%Q)) as Hrows.
  { intros a Ha. destruct (account_ok s id q a H Hq Ha) as (p' & Hp' & Hr).
    rewrite Hp in Hp'. by injection Hp' as <-. }
  pose proof (sum_rows_spec unmarshal_counts (default "" (pr_currency p)) start_summing []
    (accounted_attempts s id) (start_summed _ _)) as Hs.
  rewrite Hf in Hs. simpl in Hs.
  assert (summed unmarshal_counts (default "" (pr_currency p)) t (accounted_attempts s id)) as Ht.
  { apply Hs. rewrite (accounted_attempts_map _ _ s id H). apply Forall_forall.
    intros x (a & -> & Ha)%list_elem_of_fmap. simpl. by apply Hrows. }
  split; [done|]. intros Hc Hn. rewrite (summed_complete _ _ _ _ Ht) in Hc.
  rewrite (accounted_attempts_map _ _ s id H), forallb_map in Hc. simpl in Hc.
  assert (forall a, a ∈ attempts_of s id ->
    usage_is_known (account_of s a) && cost_is_known (account_of s a) = true) as Hall.
  { intros a Ha%list_elem_of_In. by apply forallb_forall with (x := a) in Hc. }
  apply and_assoc. split.
  - destruct (attempts_of s id) as [|a l] eqn:Ha.
    + rewrite (accounted_attempts_map _ _ s id H), Ha in Hf. simpl in Hf. by injection Hf as <-.
    + assert (a ∈ a :: l) as Hin by by left. pose proof (Hall a Hin) as [_ Hk]%andb_true_iff.
      destruct (Hrows a Hin) as (Hrow & Hcur & _). specialize (Hcur Hk).
      destruct (pr_currency p) as [c|]; [|done]. split; [done|].
      destruct (account_of s a) as [r|]; [|done]. by apply Hrow.
  - rewrite (accounted_attempts_map _ _ s id H), sumQ_map. apply sumQ_ext. intros a Ha. simpl.
    apply Hrows; auto.
Qed.

Lemma summed_request_error s id q e :
  well_formed s -> find_request s id = Some q ->
  fold_result (sum_row unmarshal_counts) (accounted_attempts s id) start_summing = Err e ->
  overflows e.
Proof.
  intros H Hq Hf. pose proof (find_key rq_id _ _ _ Hq) as [Hqin _].
  destruct (wf_request_pricing _ _ _ H q Hqin) as [p Hp].
  pose proof (sum_rows_spec unmarshal_counts (default "" (pr_currency p)) start_summing []
    (accounted_attempts s id) (start_summed _ _)) as Hs. rewrite Hf in Hs. apply Hs.
  rewrite (accounted_attempts_map _ _ s id H). apply Forall_forall.
  intros x (a & -> & Ha)%list_elem_of_fmap. simpl.
  destruct (account_ok s id q a H Hq Ha) as (p' & Hp' & Hr & _).
  rewrite Hp in Hp'. by injection Hp' as <-.
Qed.

Lemma known_request_read s id q :
  well_formed s -> find_request s id = Some q -> IsZero id = false ->
  is_ok (GetProviderLogicalRequest s id) = true.
Proof.
  intros H Hq Hz. unfold GetProviderLogicalRequest, getProviderLogicalRequest. rewrite Hz, Hq.
  pose proof (find_key rq_id _ _ _ Hq) as [Hqin _].
  pose proof (wf_request_runs _ _ _ H q Hqin) as Hr. unfold run_readable in Hr. unfold scan_request.
  destruct (rq_run_id q); [|done]. by destruct (parseTypedID _ _).
Qed.

(** A cost that fits the columns it is stored in. *)
Record fits (cost : ExactMinorCost) : Prop := {
  fits_numerator : 0 <= Numerator cost;
  fits_denominator : 0 < Denominator cost;
  fits_ranges : int64_range (Numerator cost) /\ int64_range (Denominator cost);
  fits_currency : ParseCurrencyCode (Currency cost) = Ok (Currency cost);
}.

Lemma known_cost_nonneg s a : well_formed s -> (0 <= known_cost (account_of s a))%Q.
Proof.
  intros H. destruct (account_of s a) as [r|] eqn:Ha; simpl; [|apply Qle_refl].
  destruct (ac_cost_known r) eqn:Hk; [|apply Qle_refl].
  destruct (account_of_latest _ _ s a r H Ha) as (Hr & _).
  destruct (wf_accounting _ _ _ H r Hr) as (Hc & _). unfold accounting_checks in Hc. to_prop. destruct_and!.
  unfold cost_columns in *. rewrite Hk in *. unfold row_cost.
  destruct (ac_cost_numerator r), (ac_cost_denominator r); try done. to_prop. apply SetFrac_nonneg; simpl; lia.
Qed.

Lemma fits_total total currency :
  (0 <= total)%Q -> negb (IsInt64 (Num total)) || negb (IsInt64 (Denom total)) = false ->
  ParseCurrencyCode currency = Ok currency ->
  fits {| Numerator := Num total; Denominator := Denom total; Currency := currency |}.
Proof.
  intros H0 [H1%negb_false_iff H2%negb_false_iff]%orb_false_iff Hp. unfold IsInt64 in *. to_prop.
  constructor; simpl; try done. unfold Num. rewrite <- (Qred_correct total) in H0.
  unfold Qle in H0. simpl in H0. lia.
Qed.

(** What the summary of a request says of the rows of its attempts: [rows] are
    the latest accounting rows of the attempts, one for each, if it has any. *)
Record summary_of_rows (s : store) (q : request_row) (attempts : list attempt_row)
    (summary : ProviderRequestAccountingSummary) : Prop := {
  summary_count : Summary_AttemptCount summary = Z.of_nat (length attempts);
  summary_complete : Summary_AccountingComplete summary =
    bool_decide (attempts <> []) &&
    forallb (fun a => usage_is_known (account_of s a) && cost_is_known (account_of s a)) attempts;
  summary_discrepancy : Summary_Discrepancy summary =
    existsb (fun a => is_discrepant (account_of s a)) attempts;
  summary_partial : Summary_PartialStreamObserved summary = existsb at_partial_stream attempts;
  summary_known : TokenUsage_Known (Summary_Usage summary) =
    bool_decide (attempts <> []) && forallb (fun a => usage_is_known (account_of s a)) attempts;
  summary_usage : TokenUsage_Known (Summary_Usage summary) = true ->
    usage_sum (Summary_Usage summary)
      (map (fun a => row_usage unmarshal_counts (account_of s a)) attempts);
  summary_cost : match Summary_Cost summary with
    | Some cost => Summary_AccountingComplete summary = true /\
        (exists p, find_pricing s (rq_pricing_id q) = Some p /\
                   pr_currency p = Some (Currency cost)) /\
        fits cost /\
        (exactCostRat cost ==
           sumQ (fun a => usage_cost (components_of s (rq_pricing_id q))
                            (row_usage unmarshal_counts (account_of s a))) attempts)%Q
    | None => Summary_AccountingComplete summary = false
    end;
}.

Lemma summary_read s id q :
  reachable s -> find_request s id = Some q -> IsZero id = false ->
  match SummarizeProviderRequestAccounting unmarshal_counts s id with
  | Ok summary => Summary_RequestID summary = id /\
                  summary_of_rows s q (attempts_of s id) summary
  | Err e => overflows e
  end.
Proof.
  intros H%reachable_wf Hq Hz. unfold SummarizeProviderRequestAccounting. rewrite Hz.
  destruct (fold_result _ _ _) as [e|t] eqn:Hf; simpl; [by eapply summed_request_error|].
  destruct (summed_request s id q t H Hq Hf) as (p & Hp & Ht & Hcost).
  pose proof (accounted_attempts_map _ _ s id H) as Hm.
  destruct Ht as [Hn Hco Hd Hpa Huc Hk Hu Hc]. rewrite Hm, ?forallb_map, ?existsb_map in *.
  rewrite map_map in Hu. rewrite length_map in Hn. simpl in *.
  destruct (attempts_of s id) as [|a l] eqn:Ha; simpl in Hn; rewrite Hn.
  { simpl. pose proof (known_request_read s id q H Hq Hz) as Hg.
    destruct (GetProviderLogicalRequest s id); [done|]. simpl. split; [done|].
    constructor; simpl; try done; congruence. }
  rewrite (proj2 (Z.eqb_neq _ 0)) by lia.
  assert (forall complete cost, complete = sum_complete t ->
    match cost with
    | Some cost => complete = true /\
        (exists p, find_pricing s (rq_pricing_id q) = Some p /\ pr_currency p = Some (Currency cost)) /\
        fits cost /\
        (exactCostRat cost ==
           sumQ (fun a => usage_cost (components_of s (rq_pricing_id q))
                            (row_usage unmarshal_counts (account_of s a))) (a :: l))%Q
    | None => complete = false
    end ->
    summary_of_rows s q (a :: l) (summary_of id t
      (if sum_usage_complete t then sum_usage t else zero_usage false) complete cost)) as Hsum.
  { intros complete cost -> Hcc. constructor; simpl; try done; try congruence.
    - simpl in Huc. rewrite <- Huc. by destruct (sum_usage_complete t).
    - by destruct (sum_usage_complete t). }
  destruct (sum_complete t) eqn:Hsc; [|by split; [|apply Hsum]].
  destruct (sum_cost t) as [[total currency]|] eqn:Htc; [|exfalso].
  - destruct (_ || _) eqn:Hfit; [by right; right; left|]. split; [done|]. apply Hsum; [done|].
    destruct (Hcost eq_refl) as (Hcur & Hparse & Hval); [done|]. destruct Hc as [-> Hq']. simpl.
    split; [done|]. split; [by exists p|]. split.
    + apply fits_total; [|done|done]. rewrite Hq', sumQ_map. apply sumQ_nonneg.
      intros a' _. by apply known_cost_nonneg.
    + unfold exactCostRat. simpl. rewrite SetFrac_red. by rewrite Hq', Hval.
  - symmetry in Hco. apply andb_true_iff in Hco as [H1 _].
    apply andb_true_iff in Hc as [H2 _]. apply andb_true_iff in H1 as [_ H1]. by rewrite H1 in H2.
Qed.

(** ** What an operation has recorded *)

Lemma find_prefix {A} (p : A -> bool) l l' a : l `prefix_of` l' -> find p l = Some a -> find p l' = Some a.
Proof.
  intros [k ->]. induction l as [|b l IH]; simpl; [done|]. destruct (p b); auto.
Qed.

Lemma not_longer {A} (l : list A) a : l <> l ++ [a].
Proof. intros H%(f_equal length). rewrite length_app in H. simpl in H. lia. Qed.

(** The operations that append a row. *)
Definition appends (o : operation) : bool :=
  match o with
  | Configure _ | PrepareAttempt _ | EnsureAccounted _ | Account _ | Witness _ => true
  | _ => false
  end.

(** The tables hold what the operation asks for. *)
Definition recorded (s : store) (o : operation) : Prop :=
  match o with
  | Configure input => exists r,
      findProviderConfigurationByIdempotency s (CreateConfig_ProviderID input)
        (CreateConfig_IdempotencyKey input) = Some r /\ providerConfigurationMatches r input = true
  | PrepareAttempt input => exists a, a ∈ attempts s /\
      attempt_slot a = (Create_LogicalRequestID input, Create_AttemptNumber input) /\
      at_id a = Create_ID input /\ at_idempotency_key a = Create_RequestIdempotencyKey input
  | EnsureAccounted input => exists r, r ∈ accounting s /\ ac_attempt_id r = Ensure_AttemptID input
  | Account input => exists r,
      findProviderAttemptAccountingByID unmarshal_counts s (Accounting_ID input) = Ok (Some r) /\
      providerAttemptAccountingMatches r input = true
  | Witness input => exists r, findProviderAttemptEvidenceByID s (Evidence_ID input) = Some r /\
      providerAttemptEvidenceMatches r input = true
  | _ => False
  end.

Abbreviation the_perform := (perform json_valid json_Valid map_order marshal_counts unmarshal_counts
                              count_order).

Lemma outcome_inv {A} err (f : store -> result error (A * store)) s s' :
  outcome_of (validated err (transact f) s) = (true, s') -> err = None /\ exists a, f s = Ok (a, s').
Proof.
  intros H. apply validated_inv in H as [[? _]|[-> H]]; [done|].
  apply transact_inv in H as [[? _]|(a & _ & H)]; eauto; done.
Qed.

Lemma find_slot s a :
  well_formed s -> a ∈ attempts s ->
  find (fun r => (at_request_id r =? at_request_id a) && (at_number r =? at_number a)%Z) (attempts s) = Some a.
Proof.
  intros Hwf Ha. destruct (find _ (attempts s)) as [b|] eqn:Hf.
  - apply find_some in Hf as [Hb Hs]. apply list_elem_of_In in Hb. to_prop. destruct Hs as [Hr Hn].
    f_equal. eapply (NoDup_map_eq attempt_slot); [apply Hwf|done..|]. unfold attempt_slot. by rewrite Hr, Hn.
  - exfalso. pose proof (find_none_in _ _ _ Hf Ha) as H. simpl in H.
    by rewrite String.eqb_refl, Z.eqb_refl in H.
Qed.

(** An operation that changes nothing has found what it asks for. *)
Lemma unchanged_recorded now o s :
  well_formed s -> appends o = true -> the_perform now o s = (true, s) -> recorded s o.
Proof.
  intros Hwf Ho H. destruct o; try done; simpl in H; apply outcome_inv in H as (_ & x & H);
    cbv beta in H; open_steps H; subst.
  - apply negb_false_iff in E0. simpl. eauto.
  - apply writing_Ok in E1. if_cases E1. apply insert_configuration_Ok in E1.
    apply (f_equal configurations), not_longer in E1 as [].
  - apply orb_false_iff in E1 as [Hid Hk]. apply negb_false_iff in Hid, Hk. to_prop.
    unfold findProviderRequestAttemptByNumber in E.
    destruct (find _ (attempts s)) as [r|] eqn:Hf; [|done].
    unfold getProviderRequestAttempt in E. apply find_some in Hf as [Hr Hs].
    apply list_elem_of_In in Hr. destruct (attempt_request _ _ s r Hwf Hr) as [Hfa _].
    rewrite Hfa in E. injection E as <-. simpl in *. to_prop. destruct Hs as [Hreq Hnum].
    exists r. unfold attempt_slot. rewrite Hreq, Hnum. split_and!; try done.
    unfold equalOptionalString in Hk. by apply bool_decide_eq_true in Hk.
  - apply writing_Ok, insert_attempt_Ok in E3 as [E3 _].
    apply (f_equal attempts), not_longer in E3 as [].
  - apply existsb_exists in E as (r & Hr%list_elem_of_In & Hid%String.eqb_eq). simpl. eauto.
  - apply writing_Ok, insert_accounting_Ok in E1 as [E1 _].
    apply (f_equal accounting), not_longer in E1 as [].
  - apply negb_false_iff in E1. simpl. eauto.
  - apply writing_Ok, insert_accounting_Ok in E4 as [E4 _].
    apply (f_equal accounting), not_longer in E4 as [].
  - apply negb_false_iff in E0. simpl. eauto.
  - apply writing_Ok, insert_evidence_Ok in E0.
    apply (f_equal evidence), not_longer in E0 as [].
Qed.

(** What is recorded stays recorded. *)
Lemma recorded_later s s' o : advances s s' -> recorded s o -> recorded s' o.
Proof.
  intros H. destruct o; simpl; try done.
  - intros (r & Hf & Hm). exists r. split; [|done]. unfold findProviderConfigurationByIdempotency in *.
    apply fmap_Some in Hf as (row & Hf & ->).
    by rewrite (find_prefix _ _ _ _ (adv_configurations _ _ H) Hf).
  - intros (a & (a' & Ha' & Hs)%(adv_attempts _ _ H) & Hslot & Hid & Hk). exists a'. split; [done|].
    rewrite <- Hslot, <- Hid, <- Hk. clear -Hs. induction Hs as [|a b c [] _ IH]; [done|].
    destruct IH as (-> & -> & ->). unfold attempt_slot. by rewrite step_request0, step_number0.
  - intros (r & Hr & Hid). exists r. split; [|done]. by eapply elem_of_prefix; [|apply H].
  - intros (r & Hf & Hm). exists r. split; [|done]. unfold findProviderAttemptAccountingByID, find_accounting in *.
    destruct (find _ (accounting s)) as [row|] eqn:He; [|done].
    by rewrite (find_prefix _ _ _ _ (adv_accounting _ _ H) He).
  - intros (r & Hf & Hm). exists r. split; [|done]. unfold findProviderAttemptEvidenceByID, find_evidence in *.
    apply fmap_Some in Hf as (row & Hf & ->).
    by rewrite (find_prefix _ _ _ _ (adv_evidence _ _ H) Hf).
Qed.

(** The operation finds what is recorded and changes nothing. *)
Lemma recorded_unchanged now now' o s t t' :
  well_formed s -> the_perform now o t = (true, t') -> recorded s o -> the_perform now' o s = (true, s).
Proof.
  intros Hwf H. destruct o; simpl in *; try done; apply outcome_inv in H as (Hval & _);
    unfold create_configuration, create_attempt, ensure_accounting, append_accounting, append_evidence;
    rewrite Hval; unfold validated, transact, outcome_of.
  - intros (r & -> & ->). done.
  - intros (a & Ha & [= <- <-] & Hid & Hk).
    unfold findProviderRequestAttemptByNumber. rewrite (find_slot s a Hwf Ha).
    unfold getProviderRequestAttempt. destruct (attempt_request _ _ s a Hwf Ha) as [Hf _].
    rewrite Hf. simpl. rewrite Hid, String.eqb_refl, Hk, equalOptionalString_refl. done.
  - intros (r & Hr & Hid). rewrite (proj2 (existsb_exists _ _)); [done|].
    exists r. split; [by apply list_elem_of_In|by apply String.eqb_eq].
  - intros (r & -> & Hm). simpl. by rewrite Hm.
  - intros (r & -> & Hm). simpl. by rewrite Hm.
Qed.

(** What an operation appended, it finds at any later time. *)
Lemma perform_later now now' o s s' s'' :
  well_formed s -> typed o -> appends o = true -> the_perform now o s = (true, s') -> rtc the_step s' s'' ->
  the_perform now' o s'' = (true, s'').
Proof.
  intros Hwf Ht Ho H Hs. assert (the_step s s') as Hstep by (exists now, o; by rewrite H).
  destruct (step_wf _ _ Hstep Hwf) as [Hwf' _]. destruct (steps_wf _ _ Hs Hwf') as [Hwf'' Ha].
  apply (recorded_unchanged now now' o s'' s s' Hwf'' H), (recorded_later _ _ _ Ha).
  apply (unchanged_recorded now o s' Hwf' Ho).
  eapply (perform_again _ _ _ _ _ _ unmarshal_marshal now now o s); [done|done| |done]. by destruct o.
Qed.

End Store.
