(* ===== verification/ProviderStoreTheorems.v ===== *)
(** * What the repository of provider requests guarantees *)

From Stdlib Require Import Ascii String QArith.
From stdpp Require Import countable.
From S2P Require Import Prelude GoText GoErrors PolicyValues Identity Pricing PricingFacts.
From S2P Require Import BudgetSchema BudgetSnapshots BudgetLedger BudgetFacts BudgetInvariant.
From S2P Require Import ProviderTypes ProviderAttempts ProviderSchema ProviderStore ProviderStoreFacts.
From S2P Require Import ProviderPriceFacts ProviderStoreInvariant ProviderSummaryFacts ProviderRepeat.
From S2P Require Import ProviderStoreSteps.
Open Scope string_scope.
Open Scope list_scope.
Open Scope go_scope.

Section Store.
Context (json_valid json_Valid : string -> bool).
Context (map_order : list (string * string * Z) -> list (string * string * Z)).
Context (marshal_counts : gmap string Z -> string).
Context (unmarshal_counts : string -> option (gmap string Z)).
Context (count_order : gmap string Z -> list (string * Z)).
(** The JSON of a map of counts is read back, and is not empty. *)
Hypothesis unmarshal_marshal : forall m, map_Forall (fun _ count => uint64_range count) m ->
  unmarshal_counts (marshal_counts m) = Some m.
Hypothesis marshal_nonempty : forall m, marshal_counts m <> "".
(** Ranging over a map meets each of its entries once. *)
Hypothesis count_order_perm : forall m, count_order m ≡ₚ map_to_list m.

Abbreviation the_step := (store_step json_valid json_Valid map_order marshal_counts unmarshal_counts
                            count_order).
Abbreviation the_perform := (perform json_valid json_Valid map_order marshal_counts unmarshal_counts
                              count_order).
Abbreviation reachable := (ProviderStoreSteps.reachable json_valid json_Valid map_order marshal_counts
                             unmarshal_counts count_order).
Abbreviation wf_steps := (steps_wf json_valid json_Valid map_order marshal_counts unmarshal_counts
                            count_order unmarshal_marshal marshal_nonempty count_order_perm).
Abbreviation wf_reachable := (reachable_wf json_valid json_Valid map_order marshal_counts unmarshal_counts
                                count_order unmarshal_marshal marshal_nonempty count_order_perm).

(** [C23] The record only grows. Whatever operations follow on tables that
    operations have made: every attempt and every logical request is still
    there, with the same identity, and has at most moved along the transitions
    the code allows, each counted by its revision; the effect status never
    regresses, what was seen of a stream stays seen, and the times of the start
    and of the first response stay as they are; one in a terminal state has not
    changed at all. Accounting, evidence and configurations are only appended
    to, and a price keeps its components. *)
Theorem store_only_advances s s' :
  reachable s -> rtc the_step s s' ->
  (forall a, a ∈ attempts s -> exists a', a' ∈ attempts s' /\ rtc attempt_step a a' /\
     (providerAttemptTerminal (at_state a) = true -> a' = a)) /\
  (forall q, q ∈ requests s -> exists q', q' ∈ requests s' /\ rtc request_step q q' /\
     (providerLogicalTerminal (rq_state q) = true -> q' = q)) /\
  accounting s `prefix_of` accounting s' /\ evidence s `prefix_of` evidence s' /\
  configurations s `prefix_of` configurations s' /\
  (forall id p, find_pricing s id = Some p ->
     find_pricing s' id = Some p /\ components_of s' id = components_of s id).
Proof.
  intros Hr Hs. destruct (wf_steps _ _ Hs (wf_reachable _ Hr)) as [_ [Hat Hrq ? ? ? ?]]. split_and!; try done.
  - intros a (a' & Ha & Hrt)%Hat. eauto using terminal_attempt_stays.
  - intros q (q' & Hq & Hrt)%Hrq. eauto using terminal_request_stays.
Qed.

(** [C8] A stored cost is the exact cost. In all tables that operations have
    made, a row of accounting whose cost and usage are known belongs to an
    attempt of a logical request whose price is known; the row names that price,
    has its currency, every category of the usage has a price, and the cost is
    exactly the sum over the categories of the tokens times the price. *)
Theorem stored_cost_is_exact s r :
  reachable s -> r ∈ accounting s -> ac_cost_known r = true -> ac_usage_known r = true ->
  exists a q p usage,
    a ∈ attempts s /\ at_id a = ac_attempt_id r /\ q ∈ requests s /\ rq_id q = at_request_id a /\
    p ∈ pricings s /\ pr_id p = rq_pricing_id q /\ pr_known p = true /\
    ac_pricing_id r = Some (pr_id p) /\ ac_currency r = pr_currency p /\
    scanned_usage unmarshal_counts r = Ok usage /\
    fully_priced (components_of s (pr_id p)) usage /\
    (row_cost r == usage_cost (components_of s (pr_id p)) usage)%Q.
Proof.
  intros H%wf_reachable Hr Hc Hu.
  destruct (wf_accounting _ _ _ H r Hr) as (_ & _ & [Hb _]).
  destruct (Hb Hc) as (q & p & Hq & Hid & Hp & Hk & Hcur & Hex). destruct (Hex Hu) as (u & ? & ? & ?).
  unfold request_of_attempt in Hq. apply bind_Some in Hq as (a & Ha & Hq).
  apply (find_key at_id) in Ha as [Ha Hai]. apply (find_key rq_id) in Hq as [Hq Hqi].
  apply (find_key pr_id) in Hp as [Hp Hpi]. exists a, q, p, u. rewrite Hpi. naive_solver.
Qed.

(** [C9] The summary of a request is exact. In all tables that operations have
    made, the summary of a recorded request counts its attempts; it is complete
    exactly when there is one and the usage and the cost of every attempt are
    known, by the latest accounting row of each; its usage is known exactly when
    there is an attempt and the usage of every attempt is, and then each of its
    counts is the sum of theirs; and its cost is there exactly when it is
    complete, in the currency of the price of the request, and is exactly the
    sum of what the usage of each attempt costs at that price. It is refused
    only when a sum does not fit. *)
Theorem summary_is_exact s id q :
  reachable s -> find_request s id = Some q -> IsZero id = false ->
  match SummarizeProviderRequestAccounting unmarshal_counts s id with
  | Ok summary => Summary_RequestID summary = id /\
                  summary_of_rows unmarshal_counts s q (attempts_of s id) summary
  | Err e => overflows e
  end.
Proof. intros Hr. by apply (summary_read json_valid json_Valid map_order marshal_counts unmarshal_counts
  count_order unmarshal_marshal marshal_nonempty count_order_perm). Qed.

(** [C32] Every operation can be sent again. In all tables that operations have
    made, let an operation succeed. Sent again as the next operation, whatever
    the clock says by then, it succeeds and leaves the tables as they are: it
    finds what it recorded the first time. And what an operation has appended it
    finds at any later time: whatever operations come in between, a
    configuration, a prepared attempt, an accounting, the accounting of last
    resort and evidence can be sent again, and that succeeds and changes
    nothing. Of the next operation the code does not promise this in two cases,
    set apart by [repeatable]: a price whose time is no whole number of
    microseconds, and a stream that starts without a time of its own after a
    response was seen. *)
Theorem operations_can_be_repeated now now' o s s' :
  reachable s -> typed o -> the_perform now o s = (true, s') ->
  (repeatable s o -> the_perform now' o s' = (true, s')) /\
  (appends o = true -> forall s'', rtc the_step s' s'' -> the_perform now' o s'' = (true, s'')).
Proof.
  intros H%wf_reachable Ht Hp. split; [intros Hr; by eapply perform_again|].
  intros Ho s'' Hs. by eapply (perform_later json_valid json_Valid map_order marshal_counts
    unmarshal_counts count_order unmarshal_marshal marshal_nonempty count_order_perm now now' o s s' s'').
Qed.

(** [C40] A price cannot be set again when its time is no whole number of
    microseconds: the table holds the microsecond, the comparison is with the
    time of the input, and the identical retry is refused as another price
    under the same identity. *)
Theorem retried_price_is_refused now now' input s pricing s' :
  reachable s -> find_pricing s (CreatePrice_ID input) = None ->
  CreatePrice_EffectiveAt input mod 1000 <> 0 -> create_pricing now input s = (Ok pricing, s') ->
  create_pricing now' input s' =
    (Err (conflict ErrConflict "create provider pricing revision"
            "pricing revision identity was reused with different values"), s').
Proof. intros H%wf_reachable. by eapply set_price_refused. Qed.

End Store.

(** ** A request on record

    A request with two attempts, both priced: the concrete tables on which the
    theorems are instantiated, with a concrete JSON of the maps of counts. *)

(** *** A code of the maps of counts *)

Fixpoint digits (p : positive) : string :=
  match p with
  | xH => "."
  | xO p => String.String "0" (digits p)
  | xI p => String.String "1" (digits p)
  end.

Fixpoint undigits (s : string) : option positive :=
  match s with
  | String.String c s =>
      if (c =? "0")%char then xO <$> undigits s
      else if (c =? "1")%char then xI <$> undigits s
      else Some xH
  | String.EmptyString => None
  end.

Definition coded_counts (m : gmap string Z) : string := digits (encode m).
Definition decoded_counts (s : string) : option (gmap string Z) := p ← undigits s; decode p.
Definition listed_counts (m : gmap string Z) : list (string * Z) := map_to_list m.

Lemma undigits_digits p : undigits (digits p) = Some p.
Proof. induction p as [p IH|p IH|]; [by simpl; rewrite IH..|done]. Qed.

Lemma decoded_coded m : map_Forall (fun _ count => uint64_range count) m ->
  decoded_counts (coded_counts m) = Some m.
Proof.
  intros _. unfold decoded_counts, coded_counts. rewrite undigits_digits. simpl. apply decode_encode.
Qed.

Lemma coded_nonempty m : coded_counts m <> "".
Proof. unfold coded_counts. by destruct (encode m). Qed.

Lemma listed_perm m : listed_counts m ≡ₚ map_to_list m.
Proof. done. Qed.

Definition any_text (_ : string) : bool := true.
Definition as_listed (labels : list (string * string * Z)) : list (string * string * Z) := labels.

Definition performing := perform any_text any_text as_listed coded_counts decoded_counts listed_counts.
Definition stepping := store_step any_text any_text as_listed coded_counts decoded_counts listed_counts.
Definition replay (ops : list (Z * operation)) (s : store) : store :=
  fold_left (fun s o => (performing o.1 o.2 s).2) ops s.

Lemma replayed_steps ops s : Forall (fun o => typed o.2) ops -> rtc stepping s (replay ops s).
Proof.
  intros H. revert s. induction H as [|[now o] ops Ht _ IH]; intros s; [done|].
  eapply rtc_l; [|apply IH]. by exists now, o.
Qed.

(** *** The inputs *)

Definition hash : string :=
  "0123456789abcdef0123456789abcdef0123456789abcdef0123456789abcdef".
Definition a_provider : ID := "prv_018bcfe5-6800-7fff-bfff-ffffffffffff".
Definition a_task : ID := "tsk_018bcfe5-6800-7fff-bfff-ffffffffffff".
Definition a_run : ID := "run_018bcfe5-6800-7fff-bfff-ffffffffffff".
Definition a_request : ID := "prq_018bcfe5-6800-7fff-bfff-ffffffffffff".

Definition configuration_input : CreateProviderConfigurationRevision :=
  {| CreateConfig_ID := "config-1"; CreateConfig_ProviderID := a_provider;
     CreateConfig_ExpectedLatestRevision := 0; CreateConfig_AdapterName := "adapter";
     CreateConfig_AdapterVersion := "1"; CreateConfig_ProviderVersion := "2";
     CreateConfig_EndpointRedacted := "https://provider"; CreateConfig_CapabilitiesJSON := "{}";
     CreateConfig_ContentSHA256 := hash; CreateConfig_ApprovalReference := None;
     CreateConfig_IdempotencyKey := "config-1" |}.

Definition price (kind : string) (specific : option string) (numerator denominator : Z) :=
  {| Price_UsageKind := kind; Price_ProviderSpecificKind := specific;
     Price_MinorNumerator := numerator; Price_TokenDenominator := denominator |}.

Definition pricing_input (effective : Z) : CreateProviderPricingRevision :=
  {| CreatePrice_ID := "price-1"; CreatePrice_ProviderID := a_provider;
     CreatePrice_ModelIdentifier := "model"; CreatePrice_ModelVersion := "1";
     CreatePrice_PricingKnown := true; CreatePrice_Currency := Some "USD";
     CreatePrice_SourceRedacted := Some "price list"; CreatePrice_EffectiveAt := effective;
     CreatePrice_Components :=
       [price "output" None 15 1000; price "input" None 3 1000;
        price "provider-specific" (Some "search") 2 4] |}.

Definition request_input : PlanProviderLogicalRequest :=
  {| Plan_ID := a_request; Plan_TaskID := a_task; Plan_RunID := Some a_run;
     Plan_ProviderID := a_provider; Plan_ProviderConfigurationRevisionID := "config-1";
     Plan_AdapterName := "adapter"; Plan_AdapterVersion := "1"; Plan_ProviderVersion := "2";
     Plan_ModelIdentifier := "model"; Plan_ModelVersion := "1";
     Plan_PricingRevisionID := Some "price-1"; Plan_RequestSHA256 := hash;
     Plan_IdempotencyKey := "request-1" |}.

Definition move_input (revision : Z) (from to status : string) : TransitionProviderLogicalRequest :=
  {| LogicalTransition_ID := a_request; LogicalTransition_ExpectedRevision := revision;
     LogicalTransition_From := from; LogicalTransition_To := to;
     LogicalTransition_AccountingStatus := status |}.

Definition prepare_input (id : string) (number : Z) : CreateProviderRequestAttempt :=
  {| Create_ID := id; Create_LogicalRequestID := a_request; Create_AttemptNumber := number;
     Create_RequestIdempotencyKey := Some id |}.

Definition attempt_input (id : string) (revision : Z) (from to effect : string) (first observed : Z)
    : TransitionProviderRequestAttempt :=
  {| Transition_ID := id; Transition_ExpectedRevision := revision; Transition_From := from;
     Transition_To := to; Transition_ProviderRequestIDRedacted := None;
     Transition_EffectStatus := effect; Transition_PartialStreamObserved := false;
     Transition_ErrorClass := if to =? "failed" then Some "timeout" else None;
     Transition_Retryable := to =? "failed"; Transition_RetryAfterMillis := None;
     Transition_SafeMetadataJSON := None; Transition_FirstResponseAt := first;
     Transition_ObservedAt := observed |}.

Definition usage (input output search : Z) : TokenUsage :=
  {| TokenUsage_Known := true; TokenUsage_Input := input; TokenUsage_CachedInput := 0;
     TokenUsage_CacheWrite := 0; TokenUsage_Output := output; TokenUsage_Reasoning := 0;
     TokenUsage_ProviderSpecific := {[ "search" := search ]} |}.

Definition accounting_input (id attempt : string) (u : TokenUsage) (numerator denominator : Z)
    : AppendProviderAttemptAccounting :=
  {| Accounting_ID := id; Accounting_AttemptID := attempt; Accounting_Sequence := 1;
     Accounting_Source := "provider-final"; Accounting_Usage := u;
     Accounting_PricingRevisionID := Some "price-1";
     Accounting_Cost := Some {| Numerator := numerator; Denominator := denominator; Currency := "USD" |};
     Accounting_DiscrepancyRedacted := None; Accounting_Partial := false;
     Accounting_ProvenanceJSON := "{}" |}.

(** *** The tables *)

(** Microseconds since the epoch, in the nanoseconds of [time.Time]. *)
Definition at_micros (n : Z) : Z := 1700000000000000000 + n * 1000.

Definition opening : list (Z * operation) :=
  [ (at_micros 1, Configure configuration_input); (at_micros 2, SetPrice (pricing_input (at_micros 0)));
    (at_micros 3, PlanRequest request_input);
    (at_micros 4, MoveRequest (move_input 0 "planned" "in-flight" "unknown"));
    (at_micros 5, PrepareAttempt (prepare_input "attempt-1" 1));
    (at_micros 6, MoveAttempt (attempt_input "attempt-1" 0 "prepared" "started" "possible" zero_time (at_micros 6)));
    (at_micros 8, MoveAttempt (attempt_input "attempt-1" 1 "started" "failed" "possible" (at_micros 7)
                                 (at_micros 8)));
    (at_micros 9, Account (accounting_input "accounting-1" "attempt-1" (usage 1000 0 1) 7 2)) ].

Definition closing : list (Z * operation) :=
  [ (at_micros 10, PrepareAttempt (prepare_input "attempt-2" 2));
    (at_micros 11, MoveAttempt (attempt_input "attempt-2" 0 "prepared" "started" "possible" zero_time (at_micros 11)));
    (at_micros 12, MoveAttempt (attempt_input "attempt-2" 1 "started" "succeeded" "confirmed" (at_micros 12)
                                  (at_micros 12)));
    (at_micros 13, Account (accounting_input "accounting-2" "attempt-2" (usage 1000 200 3) 15 2));
    (at_micros 14, MoveRequest (move_input 1 "in-flight" "succeeded" "provider-reported")) ].

Definition empty_tables : store := empty_store [a_provider] [a_task] [(a_run, a_task)].
Definition sample_open : store := Eval vm_compute in replay opening empty_tables.
Definition sample_closed : store := Eval vm_compute in replay closing sample_open.

(** ** Instances *)

Abbreviation reached := (ProviderStoreSteps.reachable any_text any_text as_listed coded_counts decoded_counts listed_counts).

Lemma account_typed id attempt i o n numerator denominator :
  uint64_range n -> int64_range numerator -> int64_range denominator ->
  typed (Account (accounting_input id attempt (usage i o n) numerator denominator)).
Proof.
  intros Hn H1 H2. split; [|done]. intros key count. simpl.
  by intros [_ <-]%lookup_singleton_Some.
Qed.

Ltac within := split; intros H; vm_compute in H; discriminate H.

Ltac inputs_typed :=
  repeat (apply List.Forall_cons; [|]); try apply List.Forall_nil; cbv beta; unfold snd;
  first [ exact I
        | apply account_typed; within
        | unfold typed; repeat (apply List.Forall_cons; [split; within|]); apply List.Forall_nil
        | unfold typed; by vm_compute ].

Lemma opening_typed : Forall (fun o => typed o.2) opening.
Proof. unfold opening. inputs_typed. Qed.

Lemma closing_typed : Forall (fun o => typed o.2) closing.
Proof. unfold closing. inputs_typed. Qed.

Lemma sample_open_reached : reached sample_open.
Proof.
  exists [a_provider], [a_task], [(a_run, a_task)].
  apply (replayed_steps opening empty_tables), opening_typed.
Qed.

Lemma sample_open_closed : rtc stepping sample_open sample_closed.
Proof. apply (replayed_steps closing sample_open), closing_typed. Qed.

Lemma sample_closed_reached : reached sample_closed.
Proof.
  destruct sample_open_reached as (p & t & r & H). exists p, t, r.
  etrans; [exact H|exact sample_open_closed].
Qed.

Lemma store_only_advances_witness :
  (forall a, a ∈ attempts sample_open -> exists a', a' ∈ attempts sample_closed /\ rtc attempt_step a a' /\
     (providerAttemptTerminal (at_state a) = true -> a' = a)) /\
  length (attempts sample_open) = 1%nat /\ length (attempts sample_closed) = 2%nat.
Proof.
  split; [|by vm_compute].
  destruct (store_only_advances any_text any_text as_listed coded_counts decoded_counts listed_counts
    decoded_coded coded_nonempty listed_perm sample_open sample_closed sample_open_reached sample_open_closed)
    as [H _].
  exact H.
Defined.

Definition sample_account : accounting_row :=
  Eval vm_compute in match accounting sample_closed with [_; r] => r | _ =>
    unknown_row "" "" None "" 0 end.
Definition sample_request : request_row :=
  Eval vm_compute in match requests sample_closed with [q] => q | _ =>
    planned_row request_input "" 0 end.

Lemma stored_cost_is_exact_witness :
  ac_cost_numerator sample_account = Some 15 /\ ac_cost_denominator sample_account = Some 2 /\
  exists usage, scanned_usage decoded_counts sample_account = Ok usage /\
    TokenUsage_Output usage = 200 /\
    (row_cost sample_account == usage_cost (components_of sample_closed "price-1") usage)%Q.
Proof.
  split; [done|]. split; [done|].
  destruct (stored_cost_is_exact any_text any_text as_listed coded_counts decoded_counts listed_counts
    decoded_coded coded_nonempty listed_perm sample_closed sample_account sample_closed_reached)
    as (a & q & p & u & _ & _ & _ & _ & _ & _ & _ & Hp & _ & Hu & _ & Hcost).
  - apply list_elem_of_In. vm_compute. tauto.
  - done.
  - done.
  - exists u. injection Hp as Hp. rewrite <- Hp in Hcost. split; [done|]. split; [|done].
    vm_compute in Hu. by injection Hu as <-.
Defined.

Lemma summary_is_exact_witness :
  exists summary, SummarizeProviderRequestAccounting decoded_counts sample_closed a_request = Ok summary /\
    Summary_AttemptCount summary = 2 /\
    Summary_Cost summary = Some {| Numerator := 11; Denominator := 1; Currency := "USD" |} /\
    (11 == sumQ (fun a => usage_cost (components_of sample_closed "price-1")
                            (row_usage decoded_counts (account_of sample_closed a)))
             (attempts_of sample_closed a_request))%Q.
Proof.
  pose proof (summary_is_exact any_text any_text as_listed coded_counts decoded_counts listed_counts
    decoded_coded coded_nonempty listed_perm sample_closed a_request sample_request
    sample_closed_reached eq_refl eq_refl) as H.
  destruct (SummarizeProviderRequestAccounting decoded_counts sample_closed a_request) as [e|summary]
    eqn:Hs; [by vm_compute in Hs|].
  exists summary. split; [done|].
  assert (Summary_AttemptCount summary = 2 /\
    Summary_Cost summary = Some {| Numerator := 11; Denominator := 1; Currency := "USD" |}) as [Hn Hc].
  { vm_compute in Hs. injection Hs as <-. done. }
  split; [done|]. split; [done|]. destruct H as [_ Hsum].
  destruct Hsum as [_ _ _ _ _ _ Hcost]. rewrite Hc in Hcost. destruct Hcost as (_ & _ & _ & Hcost).
  exact Hcost.
Defined.

Lemma operations_can_be_repeated_witness :
  let before := replay (take 3 closing) sample_open in
  let account := Account (accounting_input "accounting-2" "attempt-2" (usage 1000 200 3) 15 2) in
  performing (at_micros 50) account (replay (take 4 closing) sample_open) =
    (true, replay (take 4 closing) sample_open) /\
  performing (at_micros 50) account sample_closed = (true, sample_closed).
Proof.
  intros before account.
  assert (reached before) as Hr.
  { destruct sample_open_reached as (p & t & r & H). exists p, t, r. etrans; [exact H|].
    apply replayed_steps. apply Forall_take, closing_typed. }
  destruct (operations_can_be_repeated any_text any_text as_listed coded_counts decoded_counts listed_counts
    decoded_coded coded_nonempty listed_perm (at_micros 13) (at_micros 50) account before
    (replay (take 4 closing) sample_open)) as [Hnext Hlater].
  - exact Hr.
  - apply account_typed; within.
  - by vm_compute.
  - split; [by apply Hnext|]. apply Hlater; [done|].
    apply (replayed_steps (drop 4 closing) (replay (take 4 closing) sample_open)).
    apply Forall_drop, closing_typed.
Defined.

(** A price effective at a time with half a microsecond. *)
Definition sample_unpriced : store :=
  Eval vm_compute in replay (take 1 opening) empty_tables.

Lemma retried_price_is_refused_witness :
  create_pricing (at_micros 3) (pricing_input (at_micros 0 + 500))
    (create_pricing (at_micros 2) (pricing_input (at_micros 0 + 500)) sample_unpriced).2 =
  (Err (conflict ErrConflict "create provider pricing revision"
          "pricing revision identity was reused with different values"),
   (create_pricing (at_micros 2) (pricing_input (at_micros 0 + 500)) sample_unpriced).2).
Proof.
  apply (retried_price_is_refused any_text any_text as_listed coded_counts decoded_counts listed_counts
    decoded_coded coded_nonempty listed_perm (at_micros 2) (at_micros 3)
    (pricing_input (at_micros 0 + 500)) sample_unpriced
    (priced (pricing_input (at_micros 0 + 500)) (at_micros 2)
       (normalizedPriceComponents (CreatePrice_Components (pricing_input (at_micros 0 + 500)))))).
  - exists [a_provider], [a_task], [(a_run, a_task)].
    apply (replayed_steps (take 1 opening) empty_tables), Forall_take, opening_typed.
  - done.
  - by vm_compute.
  - by vm_compute.
Defined.
