(* ===== verification/BilledWorld.v ===== *)
(** * Budgeted requests over the tables

    BudgetedExecution.v runs against whatever its ports answer. Here the ports
    of the store and of the ledger are answered by the repositories themselves,
    on their tables, while other users of the tables make operations of their
    own at any point in between. The provider, the consumers of events and the
    clock still answer as they like. The lemmas: the attempts that reach the
    provider are rows of the request that is summed, and a settlement that the
    ledger answers without an error is a posting of the settled cost. *)

From Stdlib Require Import Ascii String QArith.
From S2P Require Import Prelude GoText GoErrors PolicyValues Identity ProviderTypes Pricing Ports.
From S2P Require Import AgentTypes Retry RetryFacts Redact ProviderMetadata.
From S2P Require Import BudgetSchema BudgetSnapshots BudgetLedger BudgetFacts BudgetInvariant.
From S2P Require Import BudgetSteps BudgetOperations BudgetTheorems.
From S2P Require Import ProviderAttempts ProviderExecution ProviderFacts BudgetedExecution BudgetedFacts.
From S2P Require Import ProviderSchema ProviderStore ProviderStoreFacts ProviderPriceFacts.
From S2P Require Import ProviderStoreInvariant ProviderSummaryFacts ProviderRepeat ProviderStoreSteps.
Open Scope string_scope.
Open Scope list_scope.
Open Scope Z_scope.

Record world := { w_store : store; w_db : db }.

(** The columns of a posting are 64-bit integers, as INTEGER columns are. *)
Definition integers (w : world) : Prop :=
  forall p, p ∈ postings (w_db w) -> int64_range (or_zero (p_cost_denominator p)).

Section World.
Context (json_valid json_Valid : string -> bool).
Context (map_order : list (string * string * Z) -> list (string * string * Z)).
Context (marshal_counts : gmap string Z -> string).
Context (unmarshal_counts : string -> option (gmap string Z)).
Context (count_order : gmap string Z -> list (string * Z)).
Context (marshal_budget : PolicyValues.TaskBudget -> string).
Context (unmarshal_budget : string -> option PolicyValues.TaskBudget).

Abbreviation of_store := (store_step json_valid json_Valid map_order marshal_counts unmarshal_counts
                            count_order).
Abbreviation of_ledger := (ledger_step json_valid json_Valid marshal_budget unmarshal_budget).

(** An operation of another user. *)
Inductive world_step (w : world) : world -> Prop :=
| store_moves s : of_store (w_store w) s -> world_step w {| w_store := s; w_db := w_db w |}
| ledger_moves d : of_ledger (w_db w) d -> world_step w {| w_store := w_store w; w_db := d |}.

(** A write to the store that returns no value to the caller. *)
Definition store_err {A} (w : world) (f : Z -> store -> result error A * store)
    (r : option error) (w' : world) : Prop :=
  exists now, r = err_of (f now (w_store w)).1 /\
    w' = {| w_store := (f now (w_store w)).2; w_db := w_db w |}.
Definition store_result {A} (w : world) (f : Z -> store -> result error A * store)
    (r : result error A) (w' : world) : Prop :=
  exists now, r = (f now (w_store w)).1 /\
    w' = {| w_store := (f now (w_store w)).2; w_db := w_db w |}.
Definition ledger_result {V} (w : world)
    (f : Z -> (list (string * string * Z) -> list (string * string * Z)) -> (string -> result error ID) ->
         db -> V * option error * db) (r : V * option error) (w' : world) : Prop :=
  exists now order ids, r = (f now order ids (w_db w)).1 /\
    w' = {| w_store := w_store w; w_db := (f now order ids (w_db w)).2 |}.

(** What a port answers, and what it leaves: the methods of the repositories,
    at whatever time; every other port leaves the tables alone. The inputs of a
    call are of their Go types. *)
Definition answers (w : world) (p : port) : answer p -> world -> Prop :=
  match p return answer p -> world -> Prop with
  | CreateAttempt i => store_result w (fun now => create_attempt json_valid now i)
  | TransitionAttempt i => store_result w (fun now => transition_attempt json_valid json_Valid now i)
  | AbortPrepared i => store_err w (fun now => abort_prepared json_valid now i)
  | EnsureAccounting i => store_err w (fun now => ensure_accounting json_valid now i)
  | AppendAccounting i => fun r w' => typed (Account i) /\
      store_err w (fun now => append_accounting json_valid json_Valid marshal_counts unmarshal_counts
                                count_order now i) r w'
  | AppendEvidence i => store_err w (fun now => append_evidence now i)
  | GetLogicalRequest id => fun r w' => r = GetProviderLogicalRequest (w_store w) id /\ w' = w
  | TransitionLogicalRequest i => store_result w (fun now => transition_request now i)
  | SummarizeAccounting id => fun r w' => w' = w /\
      r = match SummarizeProviderRequestAccounting unmarshal_counts (w_store w) id with
          | Ok summary => (summary, None)
          | Err e => (no_summary, Some e)
          end
  | GetSnapshot task => fun r w' => r = GetBudgetSnapshot task (w_db w) /\ w' = w
  | Reserve i => ledger_result w (fun now order ids => ReserveProviderBudget json_valid json_Valid order ids now i)
  | Settle i => ledger_result w (fun now order ids => SettleProviderBudget json_valid json_Valid order ids now i)
  | Release i => ledger_result w (fun now order ids => ReleaseProviderBudget json_valid json_Valid ids now i)
  | RecordIntent i => ledger_result w (fun now order ids =>
      RecordBudgetReconciliationIntent json_valid json_Valid order ids now i)
  | Raise i => ledger_result w (fun now order ids => RaiseProviderBudget json_valid json_Valid order ids now i)
  | _ => fun _ w' => w' = w
  end.

(** What other users do between two calls. *)
Definition moves (w w' : world) : Prop := world_step w w' /\ integers w'.

(** A run whose calls the tables answer, from one state of the tables to another. *)
Fixpoint served (w : world) (t : list (event answer)) (w' : world) : Prop :=
  match t with
  | [] => rtc moves w w'
  | e :: t => exists w0 w1, rtc moves w w0 /\ answers w0 (projT1 e) (projT2 e) w1 /\ integers w1 /\
                            served w1 t w'
  end.

Lemma served_later w w1 t w' : rtc moves w w1 -> served w1 t w' -> served w t w'.
Proof.
  intros H. destruct t as [|e t]; simpl; [by etrans|].
  intros (w2 & w3 & H2 & Ha). exists w2, w3. split; [by etrans|done].
Qed.

Lemma served_app w t1 t2 w' :
  served w (t1 ++ t2) w' -> exists w1, served w t1 w1 /\ served w1 t2 w'.
Proof.
  revert w. induction t1 as [|e t1 IH]; intros w; simpl; [by exists w|].
  intros (w0 & w1 & H0 & Ha & Hi & H). destruct (IH w1 H) as (w2 & H1 & H2). exists w2. split; [|done].
  by exists w0, w1.
Qed.

(** ** Calls are operations *)

Lemma store_result_step {A} w f (r : result error A) w' o :
  (forall now s, outcome_of (f now s) = perform json_valid json_Valid map_order marshal_counts
     unmarshal_counts count_order now o s) -> typed o ->
  store_result w f r w' -> rtc world_step w w'.
Proof.
  intros Hf Ht (now & _ & ->). apply rtc_once. destruct w as [s d]. simpl. apply (store_moves {| w_store := s; w_db := d |}).
  exists now, o. split; [done|]. by rewrite <- Hf.
Qed.

Lemma store_err_step {A} w (f : Z -> store -> result error A * store) r w' o :
  (forall now s, outcome_of (f now s) = perform json_valid json_Valid map_order marshal_counts
     unmarshal_counts count_order now o s) -> typed o ->
  store_err w f r w' -> rtc world_step w w'.
Proof.
  intros Hf Ht (now & _ & ->). apply rtc_once. destruct w as [s d]. simpl. apply (store_moves {| w_store := s; w_db := d |}).
  exists now, o. split; [done|]. by rewrite <- Hf.
Qed.

Lemma ledger_result_step {V} w f (r : V * option error) w' :
  (forall now order ids d, of_ledger d (f now order ids d).2) ->
  ledger_result w f r w' -> rtc world_step w w'.
Proof. intros Hf (now & order & ids & _ & ->). apply rtc_once. apply ledger_moves, Hf. Qed.

Lemma answers_step w p r w' : answers w p r w' -> rtc world_step w w'.
Proof.
  destruct p; simpl; try solve [intros; destruct_and?; subst; done].
  - by apply (store_result_step _ _ _ _ (PrepareAttempt input)).
  - by apply (store_result_step _ _ _ _ (MoveAttempt input)).
  - by apply (store_err_step _ _ _ _ (AbortAttempt input)).
  - by apply (store_err_step _ _ _ _ (EnsureAccounted input)).
  - intros [Ht H]. by apply (store_err_step _ _ _ _ (Account input)) in H.
  - by apply (store_err_step _ _ _ _ (Witness input)).
  - by apply (store_result_step _ _ _ _ (MoveRequest input)).
  - apply ledger_result_step. intros. apply step_reserve.
  - apply ledger_result_step. intros. apply step_settle.
  - apply ledger_result_step. intros. apply step_release.
  - apply ledger_result_step. intros. apply step_intent.
  - apply ledger_result_step. intros. apply step_raise.
Qed.

Lemma moves_steps w w' : rtc moves w w' -> rtc world_step w w'.
Proof. induction 1 as [|w w1 w' [H _] _ IH]; [done|]. by eapply rtc_l. Qed.

Lemma served_steps w t w' : served w t w' -> rtc world_step w w'.
Proof.
  revert w. induction t as [|e t IH]; intros w; simpl; [apply moves_steps|].
  intros (w0 & w1 & H0 & Ha & _ & H). etrans; [by apply moves_steps|].
  etrans; [by eapply answers_step|auto].
Qed.

Lemma steps_store w w' : rtc world_step w w' -> rtc of_store (w_store w) (w_store w').
Proof. induction 1 as [|w w1 w' [s H|d H] _ IH]; [done| |done]. by eapply rtc_l. Qed.

Lemma steps_ledger w w' : rtc world_step w w' -> rtc of_ledger (w_db w) (w_db w').
Proof. induction 1 as [|w w1 w' [s H|d H] _ IH]; [done|done|]. by eapply rtc_l. Qed.

End World.

(** ** Attempts are created for the request *)

(** The attempts the store answered to have, with their logical requests. *)
Definition created (e : event answer) : option (string * ID) :=
  let 'existT p r := e in
  match p return answer p -> option (string * ID) with
  | CreateAttempt i => fun r =>
      match r with Ok _ => Some (Create_ID i, Create_LogicalRequestID i) | Err _ => None end
  | _ => fun _ => None
  end r.
Definition creates (h : history) : list (string * ID) := omap created h.

(** An attempt is started after it was created for the request, and the request
    is what is summed. *)
Definition starts_created (request : ID) (h : history) (p : port) : Prop :=
  match p with
  | TransitionAttempt i =>
      Transition_To i = ProviderRequestAttemptStarted -> (Transition_ID i, request) ∈ creates h
  | SummarizeAccounting id => id = request
  | _ => True
  end.

(** Calls that neither start an attempt nor sum. *)
Definition plain (p : port) : Prop :=
  match p with
  | TransitionAttempt i => Transition_To i <> ProviderRequestAttemptStarted
  | SummarizeAccounting _ => False
  | _ => True
  end.

Lemma plain_starts request h p : plain p -> starts_created request h p.
Proof. by destruct p; simpl; intros Hp; try done; intros Ht. Qed.

Lemma quiet_plain p : quiet p -> plain p.
Proof. by destruct p. Qed.

Lemma asks_mono (P Q : port -> Prop) {A} (m : program answer A) :
  (forall p, P p -> Q p) -> asks P m -> asks Q m.
Proof.
  intros H. induction m as [a|p k IH]; simpl; [done|]. intros [Hp Hk]. split; [auto|]. intros r. by apply IH.
Qed.

Lemma plain_obeys request {A} (m : program answer A) h :
  asks plain m -> obeys (starts_created request) m h (fun _ _ => True).
Proof.
  intros Hm. eapply obeys_weaken; [apply asks_obeys; [exact Hm|]|done]. intros. by apply plain_starts.
Qed.

Lemma quiet_asks_plain {A} (m : program answer A) : asks quiet m -> asks plain m.
Proof. apply asks_mono, quiet_plain. Qed.

Section Starts.
Context (redactor : Boundary -> string -> result error string).
Context (marshal_metadata : RedactedProviderMetadata -> string).
Context (field_order : gmap string string -> list (string * string)).
Context (unmarshal_counts : string -> option (gmap string Z)).
Context (json_Valid : string -> bool).
Context (count_order : gmap string Z -> list (string * Z)).
Context (hex_sha256 : string -> string).
Context (scale : Duration -> Q -> Duration) (executor : RetryExecutor).
Hypothesis scale_between : forall half fraction,
  0 <= half <= maximumProviderRetryAfter -> (0 <= fraction <= 1)%Q ->
  0 <= scale half fraction <= half.
Hypothesis Hok : policy_ok (policy executor).

Lemma prepare_starts a live h :
  obeys (starts_created (RequestIdentity_ModelRequestID (PhysicalAttempt_Identity a)))
    (PrepareProviderAttempt a live) h (fun _ _ => True).
Proof.
  unfold PrepareProviderAttempt. simpl. split; [done|]. intros [e|prepared]; simpl; [done|].
  split; [by left|]. by intros [e|started]; simpl.
Qed.

Lemma execute_attempt_plain a input :
  asks plain (executeAttempt redactor field_order unmarshal_counts json_Valid count_order hex_sha256 a input).
Proof.
  unfold executeAttempt. simpl. split; [done|]. intros [e|[events ending]]; apply asks_bind; try done.
  - apply quiet_asks_plain, accounting_quiet.
  - apply quiet_asks_plain, receive_quiet.
Qed.

Lemma complete_plain record live :
  asks plain (CompleteProviderAttempt redactor marshal_metadata field_order record live).
Proof.
  unfold CompleteProviderAttempt. destruct (live !! _); [|done]. destruct (sanitizeAttemptEvidence _ _ _ _) as [[] ].
  unfold twice. simpl.
  repeat first [split; [first [done|apply completed_target]|intros ?]
               | match goal with |- asks _ (match ?x with _ => _ end) => destruct x end
               | done | progress simpl].
Qed.

Lemma execute_starts input h :
  obeys (starts_created (RequestIdentity_ModelRequestID (Request_Identity (Request input))))
    (execute redactor marshal_metadata field_order unmarshal_counts json_Valid count_order hex_sha256
       scale executor input) h (fun _ _ => True).
Proof.
  unfold execute. destruct (ValidateRequestIdentity _); [done|]. destruct (validateExecutionInput _ _ _); [done|].
  simpl. split; [done|]. intros [e|logical]; [done|]. destruct (validateLogicalRequestBinding _ _); [done|].
  destruct (negb _); [done|]. apply obeys_bind.
  eapply obeys_weaken; [eapply (interpret_obeys _
    (fun h c => may_call (policy executor) (Request_Identity (Request input)) (ledger_of h) c) _
    (fun _ _ _ => True)) with (h := [])|].
  - intros h0 h' s p _ Hp. destruct p; try solve [by split]; unfold handle.
    + apply obeys_bind. destruct Hp as [<- _]. eapply obeys_weaken; [by apply prepare_starts|done].
    + apply obeys_bind. eapply obeys_weaken; [by apply plain_obeys, execute_attempt_plain|done].
    + apply obeys_bind. eapply obeys_weaken; [by apply plain_obeys, complete_plain|done].
  - done.
  - by apply Execute_obeys.
  - intros x h1 _. simpl. split; [done|]. intros [summary err]. simpl. split; [done|]. intros transitioned.
    destruct (err_of transitioned); [done|]. destruct (errors_Join _); [done|]. by destruct (final _).
Qed.

Lemma release_loop_plain n i task snapshot : asks plain (release_loop n i task snapshot).
Proof.
  revert i snapshot. induction n as [|n IH]; intros i snapshot; simpl; [done|]. split; [done|].
  intros [snapshot' err]. simpl. destruct (negb _); simpl; [done|]. split; [done|].
  intros [e|current]; simpl; [done|]. apply IH.
Qed.

Lemma release_unused_plain output s b reason err : asks plain (release_unused output s b reason err).
Proof. unfold release_unused. apply asks_bind; [apply release_loop_plain|done]. Qed.

Lemma account_plain input limit b s output x : asks plain (account input limit b s output x).
Proof.
  destruct x as [result err]. unfold account. destruct (_ =? _); [apply release_unused_plain|].
  destruct (settlement_bound_error _ _ _ _).
  - unfold reconcile_excess. simpl. split; [done|]. by intros [pending e1].
  - unfold settle_usage. simpl. split; [done|]. intros [snapshot [e|]]; simpl; [|done]. split; [done|].
    by intros [pending [e2|]].
Qed.

Lemma Execute_starts input :
  obeys (starts_created (request_id input))
    (BudgetedExecution.Execute redactor marshal_metadata field_order unmarshal_counts json_Valid
       count_order hex_sha256 scale executor input) [] (fun _ _ => True).
Proof.
  unfold BudgetedExecution.Execute. cbv zeta. apply obeys_bind.
  eapply obeys_weaken; [apply plain_obeys, quiet_asks_plain, check_quiet|].
  intros [x|[price logical]] h _; [done|]. destruct (plan_bounds _ _ _ _ _ _) as [e|b]; [done|].
  unfold reserve_and_execute. simpl. split; [done|]. intros [[r s] err]. destruct err; [done|].
  destruct (negb _); [done|]. unfold execute_reserved. apply obeys_bind.
  eapply obeys_weaken; [apply plain_obeys, quiet_asks_plain, activate_quiet|].
  intros [e|] h1 _.
  - apply plain_obeys, release_unused_plain.
  - apply obeys_bind. eapply obeys_weaken; [apply execute_starts|]. intros x h2 _.
    apply plain_obeys, account_plain.
Qed.

End Starts.

(** ** A view of a run and its calls *)

Lemma created_call (p : port) (r : answer p) id request :
  created (called p r) = Some (id, request) ->
  exists i a (e : p = CreateAttempt i), eq_rect p answer r _ e = Ok a /\
    Create_ID i = id /\ Create_LogicalRequestID i = request.
Proof.
  destruct p; try done. simpl. destruct r as [e|a]; [done|]. intros [= <- <-]. by exists input, a, eq_refl.
Qed.

Lemma marked_call (p : port) (r : answer p) id :
  marked (called p r) = Some id ->
  exists i, p = TransitionAttempt i /\ Transition_ID i = id /\ Transition_To i = ProviderRequestAttemptStarted.
Proof.
  destruct p; try done. simpl. destruct r as [e|a]; [done|].
  destruct (String.eqb_spec (Transition_To input) ProviderRequestAttemptStarted); [|done].
  intros [= <-]. by exists input.
Qed.

Lemma streamed_call (p : port) (r : answer p) a : streamed (called p r) = Some a -> exists request, p = Stream a request.
Proof. destruct p; try done. simpl. intros [= <-]. eauto. Qed.

Lemma summed_call (p : port) (r : answer p) x :
  ProviderFacts.summed (called p r) = Some x -> exists id (e : p = SummarizeAccounting id), eq_rect p answer r _ e = x.
Proof. destruct p; try done. simpl. intros [= <-]. by exists id, eq_refl. Qed.

Lemma settled_call (p : port) (r : answer p) i answered :
  charged (called p r) = Some (Settled i answered) ->
  exists e : p = Settle i, eq_rect p answer r _ e = answered.
Proof.
  destruct p; try done. simpl. intros [= <- Hr]. exists eq_refl. by simplify_eq.
Qed.

(** ** The rows of attempts *)

Section Tables.
Context (json_valid json_Valid : string -> bool).
Context (map_order : list (string * string * Z) -> list (string * string * Z)).
Context (marshal_counts : gmap string Z -> string).
Context (unmarshal_counts : string -> option (gmap string Z)).
Context (count_order : gmap string Z -> list (string * Z)).
Context (marshal_budget : PolicyValues.TaskBudget -> string).
Context (unmarshal_budget : string -> option PolicyValues.TaskBudget).
Hypothesis unmarshal_marshal : forall m, map_Forall (fun _ count => uint64_range count) m ->
  unmarshal_counts (marshal_counts m) = Some m.
Hypothesis marshal_nonempty : forall m, marshal_counts m <> "".
Hypothesis count_order_perm : forall m, count_order m ≡ₚ map_to_list m.

Abbreviation well_formed := (wf_store json_valid unmarshal_counts).
Abbreviation of_store := (store_step json_valid json_Valid map_order marshal_counts unmarshal_counts
                            count_order).
Abbreviation serving := (served json_valid json_Valid map_order marshal_counts unmarshal_counts count_order
                           marshal_budget unmarshal_budget).

(** A row of an attempt of the request. *)
Definition has_attempt (s : store) (id : string) (request : ID) : Prop :=
  exists a, a ∈ attempts s /\ at_id a = id /\ at_request_id a = request.

Lemma create_attempt_row now i s a s' :
  well_formed s -> create_attempt json_valid now i s = (Ok a, s') ->
  has_attempt s' (Create_ID i) (Create_LogicalRequestID i) /\ IsZero (Create_LogicalRequestID i) = false.
Proof.
  intros Hwf H. unfold create_attempt, validated in H.
  destruct (validateCreateProviderRequestAttempt i) eqn:Hv; [done|].
  assert (IsZero (Create_LogicalRequestID i) = false) as Hz.
  { unfold validateCreateProviderRequestAttempt in Hv. apply err_seq_None in Hv as (_ & Hv).
    apply err_seq_None in Hv as (Hv%check_None & _). by apply orb_false_iff in Hv as [[? _]%orb_false_iff _]. }
  split; [|done]. unfold transact in H. match type of H with match ?x with _ => _ end = _ =>
    destruct x as [e|[a' s1]] eqn:E end; [done|]. injection H as -> ->. open_steps E; subst.
  - to_prop. destruct E2 as [E2 _]. unfold findProviderRequestAttemptByNumber in E0.
    destruct (find _ (attempts s')) as [r|] eqn:Hf; [|done]. apply find_some in Hf as [Hr%list_elem_of_In Hk].
    to_prop. unfold getProviderRequestAttempt in E0.
    rewrite (proj1 (attempt_request _ _ s' r Hwf Hr)) in E0. simpl in E0. injection E0 as <-.
    exists r. simpl in E2. naive_solver.
  - apply writing_Ok, insert_attempt_Ok in E4 as (-> & _). exists (prepared_row i (UnixMicro now)). split; [|done].
    simpl. apply elem_of_app. right. by apply list_elem_of_singleton.
Qed.

Lemma attempt_kept s s' id request :
  well_formed s -> rtc of_store s s' -> has_attempt s id request -> has_attempt s' id request.
Proof.
  intros Hwf Hs (a & Ha & Hid & Hrq). destruct (steps_wf _ _ _ _ _ _ unmarshal_marshal marshal_nonempty
    count_order_perm s s' Hs Hwf) as [_ Hadv]. apply Hadv in Ha as (a' & Ha' & Hst). exists a'. split; [done|].
  clear -Hst Hid Hrq. induction Hst as [a|a1 a2 a3 H _ IH]; [done|]. apply IH.
  - by rewrite (step_id _ _ H).
  - by rewrite (step_request _ _ H).
Qed.

(** What was created is in the tables at the end of the run. *)
Lemma created_is_row w t w' id request :
  well_formed (w_store w) -> serving w t w' -> (id, request) ∈ creates (reverse t) ->
  has_attempt (w_store w') id request /\ IsZero request = false.
Proof.
  intros Hwf Hs (t1 & p & r & t2 & -> & Hc)%in_view.
  apply created_call in Hc as (i & a & -> & Hr & <- & <-). simpl in Hr. subst r.
  apply served_app in Hs as (w1 & Hs1 & Hs2). destruct Hs2 as (w2 & w3 & Hm & Ha & _ & Hs2).
  assert (well_formed (w_store w2)) as Hwf2.
  { eapply (steps_wf json_valid json_Valid map_order _ _ _ unmarshal_marshal marshal_nonempty count_order_perm); [|exact Hwf].
    etrans; [eapply steps_store, served_steps; exact Hs1|]. by eapply steps_store, moves_steps. }
  simpl in Ha. destruct Ha as (now & Hr & ->). destruct (create_attempt json_valid now i (w_store w2)) as [x s3] eqn:Hx.
  simpl in *. subst x. destruct (create_attempt_row _ _ _ _ _ Hwf2 Hx) as [Hrow Hz]. split; [|done].
  assert (well_formed s3) as Hwf3.
  { eapply (steps_wf json_valid json_Valid map_order _ _ _ unmarshal_marshal marshal_nonempty count_order_perm); [|exact Hwf2].
    apply rtc_once. exists now, (PrepareAttempt i). split; [done|]. simpl. by rewrite Hx. }
  eapply attempt_kept; [exact Hwf3| |done]. by eapply served_steps, steps_store in Hs2.
Qed.

(** ** Where a call stands *)

Lemma served_moves w t w1 w2 :
  serving w t w1 -> rtc (moves json_valid json_Valid map_order marshal_counts unmarshal_counts count_order
                           marshal_budget unmarshal_budget) w1 w2 -> serving w t w2.
Proof.
  intros Hs Hm. revert w Hs. induction t as [|e t IH]; intros w; simpl; [by intros ?; etrans|].
  intros (wa & wb & H1 & H2 & H3 & H4). exists wa, wb. auto.
Qed.

(** The tables before and after a call. *)
Lemma served_call w t1 (p : port) (r : answer p) t2 w' :
  serving w (t1 ++ called p r :: t2) w' ->
  exists w1 w2, serving w t1 w1 /\
    answers json_valid json_Valid marshal_counts unmarshal_counts count_order w1 p r w2 /\
    serving w2 t2 w'.
Proof.
  intros (w0 & H1 & w1 & w2 & Hm & Ha & _ & H2)%served_app. exists w1, w2.
  split; [by eapply served_moves|done].
Qed.

End Tables.

(** ** What a settlement posts *)

(** The actual cost in the columns of a posting. *)
Definition posted_actual (p : posting_row) : Q :=
  SetFrac (or_zero (p_cost_numerator p)) (or_zero (p_cost_denominator p)).

(** The posting holds the cost, or says that it is unknown. *)
Definition posts (p : posting_row) (cost : option ExactMinorCost) : Prop :=
  match cost with
  | Some cost => p_cost_known p = true /\ p_currency p = Currency cost /\
                 (posted_actual p == exactCostRat cost)%Q
  | None => p_cost_known p = false
  end.

Section Settling.
Context (json_valid json_Valid : string -> bool).
Context (order : list (string * string * Z) -> list (string * string * Z)).
Context (ids : string -> result error ID).

Lemma posted_row_posts input r slots actual micros : posts (posted_row input r slots actual micros) actual.
Proof. by destruct actual. Qed.

(** A cost in lowest terms is its own normal form. *)
Lemma normalize_lowest cost actual :
  match cost with Some c => exact_cost_ok c | None => True end ->
  normalize_actual cost = Ok actual -> actual = cost.
Proof.
  destruct cost as [[n m cur]|]; simpl; [|by intros _ [= <-]]. intros [Hn Hm Hl Hr].
  unfold normalizeExactCost. simpl in *. destruct (_ || _); [done|].
  destruct (ParseCurrencyCode cur) as [|c] eqn:Hc; [done|]. apply ParseCurrencyCode_Ok in Hc as ->.
  unfold_ranges. rewrite greatestCommonDivisor_gcd, Hl, !Z.quot_1_r by (unfold max_int64; lia).
  by intros [= <-].
Qed.

(** A posting that is found under its identity. *)
Lemma posting_found d budget id key existing actual :
  findBudgetPostingByIdentity d budget id key = Ok (Some existing) ->
  (forall p, p ∈ postings d -> int64_range (or_zero (p_cost_denominator p))) ->
  match actual with Some c => int64_range (Denominator c) | None => True end ->
  exactCostEqual (posted_ActualCost existing) actual = true ->
  exists p, p ∈ postings d /\ p_reservation_id p = posted_ReservationID existing /\ posts p actual.
Proof.
  unfold findBudgetPostingByIdentity. intros Hf Hints Hr Heq.
  destruct (by_identity _ _ _ _ _ _ _) as [p|] eqn:Hby; [|done].
  destruct (parseTypedID _ _); [done|]. apply bind_Ok in Hf as (cost & Hcost & [= <-]). simpl in *.
  exists p. assert (p ∈ postings d) as Hp.
  { unfold by_identity in Hby. apply list_elem_of_In.
    destruct (find _ (postings d)) eqn:Hfi; [injection Hby as <-; by apply find_some in Hfi as []|].
    by apply find_some in Hby as []. }
  split_and!; [done|done|]. destruct (p_cost_known p) eqn:Hk.
  - destruct (ParseCurrencyCode _) as [|cur] eqn:Hc; [done|]. injection Hcost as <-.
    apply ParseCurrencyCode_Ok in Hc as ->. destruct actual as [c|]; [|done].
    apply exactCostEqual_Ok in Heq as [E1 E2]; [|by apply Hints|done].
    by split_and!.
  - injection Hcost as <-. by destruct actual.
Qed.

Lemma settle_posts now input d s d' :
  ledger_inv d -> (forall p, p ∈ postings d -> int64_range (or_zero (p_cost_denominator p))) ->
  match settle_ActualCost input with Some c => exact_cost_ok c | None => True end ->
  SettleProviderBudget json_valid json_Valid order ids now input d = (s, None, d') ->
  exists p, p ∈ postings d' /\ p_reservation_id p = settle_ReservationID input /\
            posts p (settle_ActualCost input).
Proof.
  intros Hinv Hints Hcost H. unfold SettleProviderBudget, err_guard in H.
  destruct (validateSettleProviderBudget json_Valid order input) eqn:Hv; [done|].
  destruct (normalize_actual _) as [|actual] eqn:Hn; [done|]. unfold RunInTransaction in H.
  match type of H with match ?op with _ => _ end = _ => destruct op as [[? ?]|[? ?]] eqn:Hop end; [done|].
  injection H as -> ->. apply bind_Ok in Hop as (r & Hr%with_value_Ok & Hop).
  apply bind_Ok in Hop as (existing & He%with_value_Ok & Hop).
  apply normalize_lowest in Hn; [|done]. subst actual.
  destruct existing as [existing|].
  - unfold replay_posting in Hop. skip_bind Hop. apply bind_Ok in Hop as (u & Hc%refuse_Ok & Hop).
    apply latest_same in Hop as ->. to_prop. destruct_and!.
    eapply posting_found in He as (p & Hp & Hid & Ha); [|done| |eassumption].
    + exists p. split_and!; [done|congruence|done].
    + destruct (settle_ActualCost input); [|done]. apply Hcost.
  - eapply settle_active_effect in Hop; [|done..|by eapply validated_tokens].
    destruct Hop as (r0 & slots & micros & d1 & s1 & _ & Hid & _ & Hrid & _ & _ & _ & Hpost & _).
    exists (posted_row input r slots (settle_ActualCost input) micros). split_and!.
    + rewrite Hpost. apply elem_of_app. right. by apply list_elem_of_singleton.
    + simpl. congruence.
    + apply posted_row_posts.
Qed.

End Settling.

Lemma quot_range n g : 0 <= n -> 0 < g -> int64_range n -> int64_range (Z.quot n g).
Proof.
  intros Hn Hg. rewrite Z.quot_div_nonneg by lia. pose proof (Z.div_pos n g Hn Hg).
  pose proof (Z.div_le_upper_bound n g n Hg). unfold int64_range, min_int64. nia.
Qed.

(** A cost that fits its columns has a normal form. *)
Lemma fits_normal cost : fits cost -> exists c, normalizeExactMinorCost cost = Ok c /\
  exact_cost_ok c /\ Currency c = Currency cost /\ (exactCostRat c == exactCostRat cost)%Q.
Proof.
  intros [Hn Hd [Rn Rd] Hc]. destruct (normalizeExactMinorCost cost) as [e|c] eqn:Hnorm.
  - exfalso. unfold normalizeExactMinorCost, exactMinorCostFromBig in Hnorm.
    rewrite Hc, String.eqb_refl, (proj2 (Z.ltb_ge _ _)), (proj2 (Z.ltb_ge _ _)) in Hnorm by lia. simpl in Hnorm.
    pose proof (Z.gcd_nonneg (Numerator cost) (Denominator cost)) as Hg.
    destruct (Z.eqb_spec (Z.gcd (Numerator cost) (Denominator cost)) 0) as [H0|H0];
      [apply Z.gcd_eq_0 in H0; lia|].
    unfold IsInt64 in Hnorm. rewrite !bool_decide_eq_true_2 in Hnorm; [done|by apply quot_range; [lia..|]..].
  - apply normalizeExactMinorCost_Ok in Hnorm as (_ & _ & ? & ? & ?). by exists c.
Qed.
