(* ===== verification/BilledTheorems.v ===== *)
(** * What a provider request did is what it is billed

    A budgeted request over the tables: what it is settled for is the exact sum
    over the attempts that reached the provider, and the posting is in the
    ledger. *)

From Stdlib Require Import Ascii String QArith.
From S2P Require Import Prelude GoText GoErrors PolicyValues Identity ProviderTypes Pricing PricingFacts.
From S2P Require Import AgentTypes Retry RetryFacts Redact ProviderMetadata.
From S2P Require Import BudgetSchema BudgetSnapshots BudgetLedger BudgetFacts BudgetInvariant.
From S2P Require Import BudgetAccounts BudgetSteps BudgetOperations BudgetTheorems BudgetSamples.
From S2P Require Import ProviderAttempts ProviderExecution ProviderFacts BudgetedExecution BudgetedFacts.
From S2P Require Import BudgetedTheorems.
From S2P Require Import ProviderSchema ProviderStore ProviderStoreFacts ProviderPriceFacts.
From S2P Require Import ProviderStoreInvariant ProviderSummaryFacts ProviderRepeat ProviderStoreSteps.
From S2P Require Import ProviderStoreTheorems Ports BilledWorld.
Open Scope string_scope.
Open Scope list_scope.
Open Scope Z_scope.

(** ** Calls in order *)

Lemma view_app {X} (f : event answer -> option X) (t1 t2 : list (event answer)) x :
  x ∈ omap f (reverse t1) -> x ∈ omap f (reverse (t1 ++ t2)).
Proof. rewrite reverse_app, omap_app, elem_of_app. auto. Qed.

Lemma view_here {X} (f : event answer -> option X) (t1 : list (event answer)) e t2 x :
  f e = Some x -> x ∈ omap f (reverse (t1 ++ e :: t2)).
Proof.
  intros H. apply list_elem_of_omap. exists e. split; [|done].
  apply elem_of_reverse, elem_of_app. right. by left.
Qed.

(** Of two calls in a run, one is the earlier, unless they are the same. *)
Lemma calls_ordered {A} (t1 : list A) x t2 u1 y u2 :
  t1 ++ x :: t2 = u1 ++ y :: u2 ->
  x = y \/ (exists l, t1 = u1 ++ y :: l) \/ (exists l, u1 = t1 ++ x :: l).
Proof.
  intros [(l & -> & H)|(l & -> & H)]%app_eq_inv; destruct l as [|z l]; simpl in H; simplify_eq; eauto.
Qed.

(** The summary that was read for the request, over the tables it was read from:
    it is the sum over the rows of the request, and every attempt that reached
    the provider is one of them. *)
Record summed_exactly (unmarshal_counts : string -> option (gmap string Z)) (s : store) (h : history)
    (request : ID) (summary : ProviderRequestAccountingSummary) : Prop := {
  se_read : summaries h = [(summary, None)];
  se_request : Summary_RequestID summary = request;
  se_rows : exists q, find_request s request = Some q /\
    summary_of_rows unmarshal_counts s q (attempts_of s request) summary;
  se_streams : forall a, a ∈ streams h -> exists r, r ∈ attempts_of s request /\ at_id r = providerAttemptID a;
}.

(** Such a sum counts what reached the provider. *)
Lemma counted unmarshal_counts s h request summary :
  summed_exactly unmarshal_counts s h request summary -> streams h <> [] -> Summary_AttemptCount summary <> 0.
Proof.
  intros [_ _ (q & _ & Hq) Hst] Hne. rewrite (summary_count _ _ _ _ _ Hq).
  destruct (streams h) as [|a l]; [done|]. destruct (Hst a) as (r & Hr & _); [by left|].
  destruct (attempts_of s request); [by apply not_elem_of_nil in Hr|done].
Qed.

(** Its cost is settled as it is. *)
Lemma settled_cost unmarshal_counts s h request summary :
  summed_exactly unmarshal_counts s h request summary ->
  match used_cost (actual_usage_of summary), Summary_Cost summary with
  | Some c, Some cost => exact_cost_ok c /\ Currency c = Currency cost /\ (exactCostRat c == exactCostRat cost)%Q
  | None, None => True
  | _, _ => False
  end.
Proof.
  intros [_ _ (q & _ & Hq) _]. pose proof (summary_cost _ _ _ _ _ Hq) as Hc.
  unfold actual_usage_of. destruct (Summary_Cost summary) as [cost|]; simpl.
  - destruct Hc as (_ & _ & Hf & _). destruct (fits_normal cost Hf) as (c & Hn & Hok).
    rewrite Hn. by destruct (providerActualTokens _).
  - by destruct (providerActualTokens _).
Qed.

Lemma posts_summary unmarshal_counts s h request summary posting :
  summed_exactly unmarshal_counts s h request summary ->
  posts posting (used_cost (actual_usage_of summary)) -> posts posting (Summary_Cost summary).
Proof.
  intros Hc%settled_cost. destruct (used_cost _), (Summary_Cost summary); try done. simpl.
  destruct Hc as (_ & Hcur & Hv). intros (? & ? & E). split_and!; [done|congruence|by rewrite E, Hv].
Qed.

Section Theorems.
Context (redactor : Boundary -> string -> result error string).
Context (marshal_metadata : RedactedProviderMetadata -> string).
Context (field_order : gmap string string -> list (string * string)).
Context (json_valid json_Valid : string -> bool).
Context (map_order : list (string * string * Z) -> list (string * string * Z)).
Context (marshal_counts : gmap string Z -> string).
Context (unmarshal_counts : string -> option (gmap string Z)).
Context (count_order : gmap string Z -> list (string * Z)).
Context (marshal_budget : PolicyValues.TaskBudget -> string).
Context (unmarshal_budget : string -> option PolicyValues.TaskBudget).
Context (hex_sha256 : string -> string).
Context (scale : Duration -> Q -> Duration).
(** The JSON of a map of counts is read back, and is not empty. *)
Hypothesis unmarshal_marshal : forall m, map_Forall (fun _ count => uint64_range count) m ->
  unmarshal_counts (marshal_counts m) = Some m.
Hypothesis marshal_nonempty : forall m, marshal_counts m <> "".
(** Ranging over a map meets each of its entries once. *)
Hypothesis count_order_perm : forall m, count_order m ≡ₚ map_to_list m.
(** [time.Duration(float64(half) * fraction)], as in RetryFacts.v. *)
Hypothesis scale_between : forall half fraction,
  0 <= half <= maximumProviderRetryAfter -> (0 <= fraction <= 1)%Q ->
  0 <= scale half fraction <= half.

Context (p : RetryPolicy) (executor : RetryExecutor).
Hypothesis built : NewBudgetedProviderExecutionService p = Ok executor.

Abbreviation Executing :=
  (BudgetedExecution.Execute redactor marshal_metadata field_order unmarshal_counts json_Valid
     count_order hex_sha256 scale executor).
Abbreviation serving := (served json_valid json_Valid map_order marshal_counts unmarshal_counts count_order
                           marshal_budget unmarshal_budget).
Abbreviation of_store := (store_step json_valid json_Valid map_order marshal_counts unmarshal_counts
                            count_order).
Abbreviation of_ledger := (ledger_step json_valid json_Valid marshal_budget unmarshal_budget).
Abbreviation well_formed := (wf_store json_valid unmarshal_counts).
Abbreviation limit := (MaximumAttempts (policy executor)).

Section Run.
Context (input : ExecuteBudgetedProviderRequest) (t : list (event answer)).
Context (x : BudgetedProviderExecutionResult * option error).
Hypothesis Hrun : runs (Executing input) t x.

Abbreviation ledger_obeyed := (obeys_sound _ _ _ _ _ (Execute_obeys_ledger redactor marshal_metadata field_order
    unmarshal_counts json_Valid count_order hex_sha256 scale executor input scale_between
    (budgeted_executor_ok p executor built)) Hrun).
Abbreviation starts_obeyed := (obeys_sound _ _ _ _ _ (Execute_starts redactor marshal_metadata field_order
    unmarshal_counts json_Valid count_order hex_sha256 scale executor scale_between
    (budgeted_executor_ok p executor built) input) Hrun).

(** What reached the provider was stored as an attempt of the request before the
    sum was read. *)
Lemma streamed_was_created t1 id answered t2 a :
  t = t1 ++ called (SummarizeAccounting id) answered :: t2 -> a ∈ streams (reverse t) ->
  (providerAttemptID a, request_id input) ∈ creates (reverse t1).
Proof.
  intros Ht (u1 & q & r & u2 & Hu & Hs)%in_view. apply streamed_call in Hs as (request & ->).
  destruct (proj2 ledger_obeyed _ _ _ _ Hu) as (_ & Hsum & _ & _ & Hm & _).
  rewrite Ht in Hu. apply calls_ordered in Hu as [He|[[l ->]|[l ->]]].
  - apply (f_equal (@projT1 _ _)) in He. done.
  - apply view_app. apply in_view in Hm as (v1 & q & r' & v2 & -> & Hc).
    apply marked_call in Hc as (i & -> & <- & Hto). apply view_app.
    apply (proj2 starts_obeyed v1 (TransitionAttempt i) r'
      (v2 ++ called (Stream a request) r :: l ++ called (SummarizeAccounting id) answered :: t2)); [|done].
    by rewrite Ht, <- !app_assoc.
  - exfalso. assert (answered ∈ summaries (reverse (t1 ++ called (SummarizeAccounting id) answered :: l))) as Hin
      by by apply view_here. unfold summaries in *. rewrite Hsum in Hin. by apply not_elem_of_nil in Hin.
Qed.

Context (w w' : world).
Hypothesis Hserved : serving w t w'.
Hypothesis Hstore : ProviderStoreSteps.reachable json_valid json_Valid map_order marshal_counts
                      unmarshal_counts count_order (w_store w).
Hypothesis Hledger : BudgetTheorems.reachable json_valid json_Valid marshal_budget unmarshal_budget (w_db w).
Hypothesis Hints : integers w.

Lemma served_integers w0 t0 w1 : integers w0 -> serving w0 t0 w1 -> integers w1.
Proof.
  assert (forall w1 w2, rtc (moves json_valid json_Valid map_order marshal_counts unmarshal_counts count_order
    marshal_budget unmarshal_budget) w1 w2 -> integers w1 -> integers w2) as Hm.
  { intros w2 w3. induction 1 as [|w2 w3 w4 [_ H] _ IH]; auto. }
  revert w0. induction t0 as [|e t0 IH]; intros w0 H; simpl; [by intros ?%Hm; auto|].
  intros (wa & wb & _ & _ & Hb & H2). by eapply IH.
Qed.

Lemma served_store w0 t0 w1 : serving w0 t0 w1 -> rtc of_store (w_store w0) (w_store w1).
Proof. intros H. by eapply served_steps, steps_store in H. Qed.

Lemma served_ledger w0 t0 w1 : serving w0 t0 w1 -> rtc of_ledger (w_db w0) (w_db w1).
Proof. intros H. by eapply served_steps, steps_ledger in H. Qed.

(** The attempts that reached the provider are rows of the request. *)
Lemma streamed_is_row t1 id answered t2 w1 a :
  t = t1 ++ called (SummarizeAccounting id) answered :: t2 -> serving w t1 w1 -> a ∈ streams (reverse t) ->
  has_attempt (w_store w1) (providerAttemptID a) (request_id input) /\ IsZero (request_id input) = false.
Proof.
  intros Ht Hs Ha. eapply created_is_row; [exact unmarshal_marshal|exact marshal_nonempty|exact count_order_perm|
    |exact Hs|by eapply streamed_was_created].
  by eapply reachable_wf.
Qed.

Lemma row_is_summed s a request :
  well_formed s -> has_attempt s (providerAttemptID a) request ->
  (exists q, find_request s request = Some q) /\
  exists r, r ∈ attempts_of s request /\ at_id r = providerAttemptID a.
Proof.
  intros Hwf (r & Hr & Hid & Hrq). split.
  - destruct (attempt_request _ _ s r Hwf Hr) as [Hf [q Hq]]. unfold request_of_attempt in Hq.
    rewrite Hf in Hq. simpl in Hq. rewrite Hrq in Hq. by exists q.
  - exists r. split; [|done]. by apply elem_of_attempts_of.
Qed.

Lemma summed_once : streams (reverse t) <> [] -> exists summary err, summaries (reverse t) = [(summary, err)].
Proof.
  intros Hst. destruct (proj1 ledger_obeyed) as [|b r s given _ _ _ _ _ [|(summary & err & ? & _)]
    |b r s summary err answered _ ?|b r s summary err reason answered earlier _ ?]; [done|done|eauto..].
Qed.

Lemma sum_of_run :
  streams (reverse t) <> [] ->
  (exists e, summaries (reverse t) = [(no_summary, Some e)] /\ overflows e) \/
  exists s summary, rtc of_store (w_store w) s /\ rtc of_store s (w_store w') /\
    summed_exactly unmarshal_counts s (reverse t) (request_id input) summary.
Proof.
  intros Hst. destruct (summed_once Hst) as (summary & err & Hsum).
  assert ((summary, err) ∈ summaries (reverse t)) as Hin by (rewrite Hsum; by left).
  apply in_view in Hin as (t1 & q & r & t2 & Ht & Hc). apply summed_call in Hc as (id & -> & Hr).
  simpl in Hr. subst r. pose proof (proj2 starts_obeyed _ _ _ _ Ht) as Hid. simpl in Hid. subst id.
  pose proof Hserved as Hs. rewrite Ht in Hs. apply served_call in Hs as (w1 & w2 & H1 & [-> Ha] & H2).
  assert (ProviderStoreSteps.reachable json_valid json_Valid map_order marshal_counts unmarshal_counts
            count_order (w_store w1)) as Hreach.
  { destruct Hstore as (providers & tasks & known & Hs). exists providers, tasks, known.
    etrans; [exact Hs|by eapply served_store]. }
  assert (well_formed (w_store w1)) as Hwf by by eapply reachable_wf.
  assert (forall a, a ∈ streams (reverse t) -> has_attempt (w_store w1) (providerAttemptID a) (request_id input) /\
    IsZero (request_id input) = false) as Hrows by (intros a; by eapply streamed_is_row).
  destruct (streams (reverse t)) as [|a l] eqn:Hl; [done|].
  destruct (Hrows a) as [Hrow Hz]; [by left|]. destruct (row_is_summed _ _ _ Hwf Hrow) as [[q Hq] _].
  pose proof (summary_read json_valid json_Valid map_order marshal_counts unmarshal_counts count_order
    unmarshal_marshal marshal_nonempty count_order_perm (w_store w1) (request_id input) q Hreach Hq Hz) as Hread.
  destruct (SummarizeProviderRequestAccounting _ _ _) as [e|summary'].
  - left. injection Ha as -> ->. by exists e.
  - right. injection Ha as -> ->. exists (w_store w1), summary'. destruct Hread as [Hid Hread].
    split; [by eapply served_store|]. split; [by eapply served_store|].
    constructor; [done|done|by exists q|]. rewrite Hl. intros a' Ha'.
    destruct (Hrows a' Ha') as [Hrow' _]. by destruct (row_is_summed _ _ _ Hwf Hrow') as [_ ?].
Qed.

(** A settlement that the ledger answered without an error is posted. *)
Lemma settled_is_posted i answered :
  Settled i answered ∈ charges (reverse t) -> answered.2 = None ->
  match settle_ActualCost i with Some c => exact_cost_ok c | None => True end ->
  exists posting, posting ∈ postings (w_db w') /\ p_reservation_id posting = settle_ReservationID i /\
                  posts posting (settle_ActualCost i).
Proof.
  intros (t1 & q & r & t2 & Ht & Hc)%in_view Hok Hcost. apply settled_call in Hc as (-> & Hr).
  simpl in Hr. subst r. pose proof Hserved as Hs. rewrite Ht in Hs.
  apply served_call in Hs as (w1 & w2 & H1 & (now & order & ids & Ha & ->) & H2).
  destruct (SettleProviderBudget json_valid json_Valid order ids now i (w_db w1)) as [[s e] d] eqn:Hop.
  simpl in Ha. subst answered. simpl in Hok. subst e. apply settle_posts in Hop as (posting & Hp & Hid & Hpo).
  - exists posting. split; [|done]. apply served_ledger, trail_rtc in H2. by apply (trail_postings _ _ H2).
  - apply served_ledger in H1. apply (reachable_inv json_valid json_Valid marshal_budget unmarshal_budget).
    unfold BudgetTheorems.reachable in *. etrans; [exact Hledger|exact H1].
  - by eapply served_integers.
  - done.
Qed.

End Run.

(** [C5] What a request did at the provider is what it is billed. Let a request
    run over the tables of the store and the ledger, while other requests use
    the same tables in between, and reach the provider. Then the sum that is
    read is, at that time, the exact sum over the rows of the request, and each
    attempt that reached the provider is one of these rows (or a sum does not
    fit the columns, and its error is returned). And either the ledger was asked
    to settle that sum and answered without an error, and at the end of the run
    a posting of the reservation made for the request holds exactly that cost,
    or that it is unknown; or the ledger was asked to record the sum for
    reconciliation, and the request succeeds only if nothing is left pending. *)
Theorem provider_work_is_billed_exactly input t x w w' :
  runs (Executing input) t x -> serving w t w' -> integers w ->
  ProviderStoreSteps.reachable json_valid json_Valid map_order marshal_counts unmarshal_counts count_order
    (w_store w) ->
  BudgetTheorems.reachable json_valid json_Valid marshal_budget unmarshal_budget (w_db w) ->
  let h := reverse t in
  streams h <> [] ->
  (exists e, summaries h = [(no_summary, Some e)] /\ overflows e) \/
  (exists s summary i reservation snapshot,
     rtc of_store (w_store w) s /\ rtc of_store s (w_store w') /\
     summed_exactly unmarshal_counts s h (request_id input) summary /\
     Reserved i (reservation, snapshot, None) ∈ charges h /\
     ((exists b answered posting,
         Settled (settle_input input reservation (actual_usage_of summary) b) answered ∈ charges h /\
         answered.2 = None /\
         posting ∈ postings (w_db w') /\ p_reservation_id posting = res_ID reservation /\
         posts posting (Summary_Cost summary)) \/
      (exists b reason answered,
         Intended (intent_input input reservation (actual_usage_of summary) b reason) answered ∈ charges h /\
         (x.2 = None -> answered.2 = None /\ snap_ReconciliationPending answered.1 = false)))).
Proof.
  intros Hr Hs Hi Hst Hl h Hne.
  destruct (sum_of_run input t x Hr w w' Hs Hst Hne) as [He|(s & summary & H1 & H2 & Hsum)]; [by left|right].
  assert (Hend := proj1 (obeys_sound _ _ _ _ _ (Execute_obeys_ledger redactor marshal_metadata field_order
    unmarshal_counts json_Valid count_order hex_sha256 scale executor input scale_between
    (budgeted_executor_ok p executor built)) Hr)).
  pose proof (se_read _ _ _ _ _ Hsum) as Hread. fold h in Hend, Hread, Hsum.
  destruct Hend as [|b r s0 given Hrv Hch Hg Hgn Hlen Hun
    |b r s0 summary' err answered Hrv Hs' Hz Hch Hb Ha _
    |b r s0 summary' err reason answered earlier Hrv Hs' Hz Hch He Hx]; [done| | |].
  - exfalso. destruct Hun as [|(summary' & err & Hs' & Hz)]; [done|]. unfold summary_is in Hs'.
    rewrite Hread in Hs'. injection Hs' as <- <-. by eapply counted.
  - unfold summary_is in Hs'. rewrite Hread in Hs'. injection Hs' as <- <-.
    exists s, summary, (reserve_input input limit b), r, s0. split_and!; [done..| |left].
    { rewrite Hch. by right; left. }
    destruct (settled_is_posted t w w' Hs Hl Hi _ answered) as (posting & Hp & Hid & Hpo).
    + fold h. rewrite Hch. by left.
    + done.
    + simpl. pose proof (settled_cost _ _ _ _ _ Hsum) as Hc.
      destruct (used_cost _), (Summary_Cost summary); try done. by destruct Hc.
    + exists b, answered, posting. split; [rewrite Hch; by left|]. split_and!; [done..|]. by eapply posts_summary.
  - unfold summary_is in Hs'. rewrite Hread in Hs'. injection Hs' as <- <-.
    exists s, summary, (reserve_input input limit b), r, s0. split_and!; [done..| |right].
    { rewrite Hch. right. apply elem_of_app. right. by left. }
    exists b, reason, answered. split; [rewrite Hch; by left|]. by intros (_ & ? & ?)%Hx.
Qed.

End Theorems.

Abbreviation answering := (answers any_text any_text coded_counts decoded_counts listed_counts).
Abbreviation serving := (served any_text any_text as_listed coded_counts decoded_counts listed_counts
                           sample_marshal sample_unmarshal).

(** ** Ports over the tables

    A request that is planned, reserved, carried out and settled, every call of
    it answered by the repositories on their tables. *)

Definition kept {A} (w : world) (r : result error A * store) : result error A * world :=
  (r.1, {| w_store := r.2; w_db := w_db w |}).
Definition kept_err {A} (w : world) (r : result error A * store) : option error * world :=
  (err_of r.1, {| w_store := r.2; w_db := w_db w |}).
Definition kept_db {V} (w : world) (r : V * option error * db) : (V * option error) * world :=
  (r.1, {| w_store := w_store w; w_db := r.2 |}).

Definition clocked (now : Z) (r : Retry.port) : Retry.answer r :=
  match r with Retry.Now => now | r => RetryFacts.sample_ports [] r end.

(** What is answered at a time, and what is left. *)
Definition respond (now : Z) (provider : result error (list StreamEvent * error))
    (preflight : result error ExecutionPreflight) (w : world) (q : port) : answer q * world :=
  match q return answer q * world with
  | Retrying r => (clocked now r, w)
  | Stream _ _ => (provider, w)
  | CloseStream => (tt, w)
  | OnStreamEvent _ | OnToolCall _ => (None, w)
  | CreateAttempt i => kept w (create_attempt any_text now i (w_store w))
  | TransitionAttempt i => kept w (transition_attempt any_text any_text now i (w_store w))
  | AbortPrepared i => kept_err w (abort_prepared any_text now i (w_store w))
  | EnsureAccounting i => kept_err w (ensure_accounting any_text now i (w_store w))
  | AppendAccounting i => kept_err w (append_accounting any_text any_text coded_counts decoded_counts
                                        listed_counts now i (w_store w))
  | AppendEvidence i => kept_err w (append_evidence now i (w_store w))
  | GetLogicalRequest id => (GetProviderLogicalRequest (w_store w) id, w)
  | TransitionLogicalRequest i => kept w (transition_request now i (w_store w))
  | SummarizeAccounting id =>
      (match SummarizeProviderRequestAccounting decoded_counts (w_store w) id with
       | Ok summary => (summary, None)
       | Err e => (no_summary, Some e)
       end, w)
  | GetPreflight _ _ => (preflight, w)
  | GetSnapshot task => (GetBudgetSnapshot task (w_db w), w)
  | Reserve i => kept_db w (reserving now i (w_db w))
  | Settle i => kept_db w (settling now i (w_db w))
  | Release i => kept_db w (releasing now i (w_db w))
  | RecordIntent i => kept_db w (intending now i (w_db w))
  | Raise i => kept_db w (raising now i (w_db w))
  end.

(** The inputs of the call are of their Go types. *)
Definition call_typed (q : port) : Prop :=
  match q with AppendAccounting i => typed (Account i) | _ => True end.

Lemma respond_answers now provider preflight w q :
  call_typed q -> answering w q (respond now provider preflight w q).1 (respond now provider preflight w q).2.
Proof.
  destruct q; simpl; intros Ht; try done; try (by exists now);
    try (by exists now, in_order, event_id).
  split; [done|]. by exists now.
Qed.

(** A program run over the tables: what it returns, its calls, the tables it
    leaves and every state they went through. *)
Fixpoint carried {A} (now : Z) (provider : result error (list StreamEvent * error))
    (preflight : result error ExecutionPreflight) (m : program answer A) (w : world)
    : A * list (event answer) * list world * world :=
  match m with
  | Ret a => (a, [], [], w)
  | Ask q k =>
      let rw := respond now provider preflight w q in
      let '(a, t, ws, w') := carried now provider preflight (k rw.1) rw.2 in
      (a, called q rw.1 :: t, rw.2 :: ws, w')
  end.

Lemma carried_runs {A} now provider preflight (m : program answer A) w a t ws w' :
  carried now provider preflight m w = (a, t, ws, w') ->
  Forall (fun e => call_typed (projT1 e)) t -> Forall integers ws ->
  runs m t a /\ serving w t w'.
Proof.
  revert w a t ws w'. induction m as [b|q k IH]; intros w a t ws w'; simpl.
  { intros [= <- <- <- <-] _ _. by split; [|apply rtc_refl]. }
  destruct (carried _ _ _ _ _) as [[[a1 t1] ws1] w1] eqn:Hc.
  intros [= <- <- <- <-] [Hq Ht]%Forall_cons [Hw Hws]%Forall_cons.
  destruct (IH _ _ _ _ _ _ Hc Ht Hws) as [Hr Hs]. split; [eauto|].
  exists w, (respond now provider preflight w q).2. split_and!; [done| |done|done].
  by apply respond_answers.
Qed.

(** ** The request *)

Definition billed_provider : ProviderIdentity :=
  {| ProviderIdentity_Adapter := "adapter"; ProviderIdentity_AdapterVersion := "1";
     ProviderIdentity_Provider := "openai"; ProviderIdentity_ProviderVersion := "2" |}.

Definition billed_identity : RequestIdentity :=
  {| RequestIdentity_ModelRequestID := a_request;
     RequestIdentity_Provider := billed_provider;
     RequestIdentity_Model :=
       {| ModelIdentity_Provider := billed_provider; ModelIdentity_Model := "model";
          ModelIdentity_Revision := "1" |};
     RequestIdentity_Idempotency :=
       {| RequestIdempotency_ProviderSupported := false; RequestIdempotency_Key := "";
          RequestIdempotency_ProviderScope := "" |};
     RequestIdentity_IdempotencyKey := "request-1";
     RequestIdentity_RequestHash := hash |}.

Definition billed_price : PriceSnapshot :=
  {| PriceSnapshot_ID := "price-1"; PriceSnapshot_Model := RequestIdentity_Model billed_identity;
     PriceSnapshot_Price :=
       {| Price_Input := dollars 5 2; Price_CachedInput := UnknownAmount "USD";
          Price_CacheWrite := UnknownAmount "USD"; Price_Output := dollars 15 1;
          Price_Reasoning := UnknownAmount "USD"; Price_ProviderSpecific := ∅ |};
     PriceSnapshot_EffectiveAt := 0; PriceSnapshot_CapturedAt := 0;
     PriceSnapshot_Source := "list" |}.

Definition billed_input : ExecuteBudgetedProviderRequest :=
  {| Budgeted_BudgetID := sample_budget; Budgeted_TaskID := a_task; Budgeted_RunID := a_run;
     Budgeted_PreflightRevision := 1; Budgeted_ExpectedBudgetRevision := 0;
     Budgeted_ApprovedUsagePerAttempt := small_usage;
     Budgeted_Provider :=
       {| Request := {| Request_Identity := billed_identity; Request_MaximumTokens := 40;
                        Request_Idempotency := RequestIdentity_Idempotency billed_identity;
                        Request_Deadline := 0 |};
          EstimatedUsage := Pricing.unknown_usage; Request_PriceSnapshot := Some billed_price;
          has_OnStreamEvent := false; has_OnToolCall := false |} |}.

Definition billed_answer : result error (list StreamEvent * error) :=
  Ok ([{| Event_Sequence := 1; Event_Kind := StreamEventFinal; Event_Text := "";
          Event_ToolCallDelta := None; Event_ToolCall := None; Event_Usage := None; Event_Metadata := None;
          Event_Final := Some {| Final_Identity := RequestIdentity_Model billed_identity;
            Final_StopReason := "completed"; Final_Usage := small_usage;
            Final_Metadata := {| Metadata_RequestID := ""; Metadata_ResponseID := "";
                                 Metadata_Fingerprint := ""; Metadata_Fields := ∅ |};
            Final_PartialEffect := no_partial_effect |};
          Event_ObservedAt := at_micros 20 |}], Sentinel EOF).

Definition billed_preflight : result error ExecutionPreflight :=
  Ok {| Preflight_TaskID := a_task; Preflight_BudgetID := sample_budget;
        Preflight_BudgetLimitRevision := 0 |}.

(** ** The tables before *)

Definition billed_pricing : CreateProviderPricingRevision :=
  {| CreatePrice_ID := "price-1"; CreatePrice_ProviderID := a_provider;
     CreatePrice_ModelIdentifier := "model"; CreatePrice_ModelVersion := "1";
     CreatePrice_PricingKnown := true; CreatePrice_Currency := Some "USD";
     CreatePrice_SourceRedacted := Some "list"; CreatePrice_EffectiveAt := at_micros 0;
     CreatePrice_Components :=
       [price "input" None 5 2000000; price "output" None 15 1000000] |}.

Definition billing : list (Z * operation) :=
  [ (at_micros 1, Configure configuration_input); (at_micros 2, SetPrice billed_pricing);
    (at_micros 3, PlanRequest request_input) ].

Definition billed_start : world :=
  Eval vm_compute in {| w_store := replay billing empty_tables; w_db := sample_created |}.

Definition billed_execution : program answer (BudgetedProviderExecutionResult * option error) :=
  BudgetedExecution.Execute same_text (fun _ => "{}") map_to_list decoded_counts any_text listed_counts
    (fun _ => hash) exact_scale default_executor billed_input.

Definition billed_run := carried (at_micros 20) billed_answer billed_preflight billed_execution billed_start.
Definition billed_result : BudgetedProviderExecutionResult * option error := billed_run.1.1.1.
Definition billed_trace : list (event answer) := billed_run.1.1.2.
Definition billed_end : world := billed_run.2.

(** ** The run *)

Definition integral (w : world) : bool :=
  forallb (fun p => IsInt64 (or_zero (p_cost_denominator p))) (postings (w_db w)).

Lemma integral_integers w : integral w = true -> integers w.
Proof.
  intros H p Hp. unfold integral in H. rewrite forallb_forall in H.
  apply list_elem_of_In, H in Hp. by apply bool_decide_eq_true in Hp.
Qed.

Definition accounted_call (e : event answer) : option AppendProviderAttemptAccounting :=
  match projT1 e with AppendAccounting i => Some i | _ => None end.

Lemma calls_typed t : Forall (fun i => typed (Account i)) (omap accounted_call t) ->
  Forall (fun e => call_typed (projT1 e)) t.
Proof.
  induction t as [|[q r] t IH]; [done|]. unfold accounted_call at 1. simpl.
  destruct q; simpl; intros H; constructor; try done; auto; inversion H; auto.
Qed.

Definition billed_accounting : AppendProviderAttemptAccounting :=
  Eval vm_compute in
    match omap accounted_call billed_trace with
    | [i] => i
    | _ => accounting_input "" "" (usage 0 0 0) 0 0
    end.

Lemma billed_carried : runs billed_execution billed_trace billed_result /\
  serving billed_start billed_trace billed_end.
Proof.
  apply (carried_runs (at_micros 20) billed_answer billed_preflight _ _ _ _ billed_run.1.2).
  - unfold billed_result, billed_trace, billed_end, billed_run.
    by destruct (carried _ _ _ _ _) as [[[? ?] ?] ?].
  - apply calls_typed. assert (omap accounted_call billed_trace = [billed_accounting]) as -> by by vm_compute.
    apply Forall_singleton. split; [|by vm_compute]. intros key count H. done.
  - apply List.Forall_forall. intros w Hw. apply integral_integers. revert w Hw.
    apply forallb_forall. by vm_compute.
Qed.

Lemma billed_start_stored : ProviderStoreSteps.reachable any_text any_text as_listed coded_counts
  decoded_counts listed_counts (w_store billed_start).
Proof.
  exists [a_provider], [a_task], [(a_run, a_task)].
  apply (replayed_steps billing empty_tables). constructor; [exact I|].
  constructor; [|by constructor; [vm_compute|]].
  repeat (apply List.Forall_cons; [split; split; vm_compute; discriminate|]). apply List.Forall_nil.
Qed.

Lemma billed_start_ledger : BudgetTheorems.reachable any_text any_text sample_marshal sample_unmarshal
  (w_db billed_start).
Proof.
  apply (reachable_next sample_start); [apply (reachable_next empty_db); [apply rtc_refl|]|].
  - eapply (step_to _ sample_start); [by apply (step_tasks _ _ _ _ _ (tasks sample_start) [])|evaluate].
  - eapply step_to; [by apply (step_create _ _ _ _ _ (at_micro 0) sample_task sample_limits)|evaluate].
Qed.

Lemma billed_start_integers : integers billed_start.
Proof. by apply integral_integers. Qed.

(** ** The theorem at work *)

Lemma billed_streams : streams (reverse billed_trace) <> [].
Proof. by vm_compute. Qed.

Lemma billed_sum : exists summary, summaries (reverse billed_trace) = [(summary, None)] /\
  Summary_Cost summary = Some (exact 17 20000 "USD").
Proof. eexists. split; vm_compute; reflexivity. Qed.

Lemma billed_settled : exists i answered reserve reserved,
  charges (reverse billed_trace) = [Settled i answered; Reserved reserve reserved].
Proof. eexists _, _, _, _. vm_compute. reflexivity. Qed.

Lemma provider_work_is_billed_exactly_witness :
  billed_result.2 = None /\
  exists posting, posting ∈ postings (w_db billed_end) /\ posts posting (Some (exact 17 20000 "USD")).
Proof.
  split; [by vm_compute|].
  destruct (provider_work_is_billed_exactly same_text (fun _ => "{}") map_to_list any_text any_text as_listed
    coded_counts decoded_counts listed_counts sample_marshal sample_unmarshal (fun _ => hash) exact_scale
    decoded_coded coded_nonempty listed_perm exact_scale_between zero_policy default_executor
    sample_executor_built billed_input billed_trace billed_result billed_start billed_end
    (proj1 billed_carried) (proj2 billed_carried) billed_start_integers billed_start_stored
    billed_start_ledger billed_streams)
    as [(e & He & _)|(s & summary & i & r & sn & _ & _ & [Hread _ _ _] & _ & [(b & answered & posting & _ & _ & Hp & _ & Hc)|Hi])].
  - exfalso. destruct billed_sum as (summary & Hs & _). rewrite Hs in He. discriminate He.
  - exists posting. split; [exact Hp|]. destruct billed_sum as (summary' & Hs & Hcost).
    rewrite Hs in Hread. injection Hread as <-. rewrite Hcost in Hc. exact Hc.
  - exfalso. destruct Hi as (b & reason & answered & Hin & _).
    destruct billed_settled as (i' & a & j & c & Hch). rewrite Hch in Hin.
    apply elem_of_cons in Hin as [Hin|Hin]; [discriminate Hin|].
    apply list_elem_of_singleton in Hin. discriminate Hin.
Defined.
